(* ===== verification/_CoqProject ===== *)
-Q . S2P
Prelude.v
Bs.v
Syntax.v
Sink.v
Vlc.v
Quant.v
Mb.v
Header.v
Slice.v
Cavlc.v
CavlcMb.v
MbLayer.v
MbRoundtrip.v
MbMotion.v
MbPcm.v
Dct.v
Cqm.v
Encode.v
Recon.v
MbRecon.v
Predict.v
Mc.v
MbMc.v
CabacTables.v
Cabac.v
CabacMb.v
CabacLayer.v
CabacCodes.v
CabacElements.v
CabacMotion.v
CabacPred.v
CabacResidual.v
CabacBlocks.v
CabacRoundtrip.v
CabacSize.v
Deblock.v
DeblockStd.v
DeblockLine.v
DeblockFrame.v
DeblockMb.v
DeblockCorrect.v
DeblockTheorem.v
DeblockRows.v
Frame.v
FrameExpand.v
FramePlane.v
Sums.v
Integral.v
FrameSlice.v
FrameTheorem.v
MvRange.v
FrameThreads.v
Pixel.v
PixelTheorem.v
Me.v
Esa.v
EsaTheorem.v
MeTheorem.v
Nal.v
Rabin.v
Hashtable.v
Dedup.v
Decoder.v
Binheap.v
Tree.v
Reorder.v
Fragment.v
Pipeline.v
Ring.v
Queue.v
Mbuffer.v
