(* ===== verification/Prelude.v ===== *)
(** * A verified model of two programs of this repository: x264 and dedup

    The repository is a collection of parallel benchmark programs.  This library models
    two of its C programs: the H.264 encoder x264 (src/apps/x264/src), from the decisions
    for a macroblock to the bytes of the file and to the reference frames, and the
    compressing deduplicator dedup (src/apps/dedup/src), the serial and the parallel one.

    ** How the programs are put together

    x264 writes parameter sets (encoder/set.c), slice headers (encoder/encoder.c) and
    macroblocks.  A macroblock is predicted from its neighbours (common/predict.c) or from
    reference frames (common/mc.c), transformed (common/dct.c), quantised (common/quant.c,
    with the tables of common/set.c) and reconstructed (encoder/macroblock.c); its syntax
    is coded with variable length codes (encoder/cavlc.c, common/vlc.c) through a bit
    writer (common/bs.h), or in bins (encoder/cabac.c) by an arithmetic coder
    (common/cabac.c).  encoder/rdo.c compiles both coders a second time, to count bits.
    While the rows of a frame are coded, the rows before are deblocked, extended and
    interpolated (common/frame.c, common/mc.c), and announced to other threads
    (encoder/encoder.c, encoder/analyse.c).  In such frames vectors are searched
    (encoder/me.c) with the metrics of common/pixel.c.  The bits are cut into NAL units
    (encoder/encoder.c), which the application escapes (common/common.c) and appends to a
    file (x264.c, muxers.c).

    dedup cuts its input at Rabin fingerprints (rabin.c), looks each piece up by its digest
    (hashtable.c), compresses new pieces and writes records (pthread/encoder.c), in one
    thread or in five stages linked by queues (queue.c, queue.h), with shared buffers
    (mbuffer.c) and a reordering last stage (tree.c, binheap.c); decoder.c undoes it.

    ** Files

    Shared: [Prelude] (machine integers, C operators, memory as a map of bytes, loops, bit
    lists and their lemmas), [Syntax] (parsers; writers [f ;> g]; [emits]), [Sink] (the
    interface [BitSink] of a bit writer, with the instances [bs_sink] of bs.h, [size_sink]
    of rdo.c and [code_sink], plain lists; [SinkSim] relates them).

    x264, streams:
    - [Bs]: common/bs.h, the writer of 32 and of 64 bit hosts; [stream] is the bits a
      writer stands for.
    - [Header], [Slice]: set.c and the slice header functions of encoder.c, with parsers of
      the tables of the standard.
    - [Mb]: the fields [x264_t] of the encoder that the macroblock functions use (mb,
      mb.cache, dct, sh, pps), the tables of macroblock.h, and the motion vector predictors.
    - [Vlc], [Quant]: the tables of vlc.c; the C functions of quant.c.
    - [Cavlc], [CavlcMb]: cavlc.c, the block coder and the macroblock writer over any sink;
      [MbLayer] is the macroblock syntax of the standard, [MbRoundtrip], [MbMotion] and
      [MbPcm] show that a decoder gets back what the encoder meant.
    - [CabacTables], [Cabac]: cabac.c of common, the arithmetic coder and the decoding
      engine of the standard; [CabacMb]: cabac.c of encoder, over any coder ([CabacSink]);
      [CabacLayer]: the CABAC syntax of the standard; [CabacCodes], [CabacElements],
      [CabacMotion], [CabacPred], [CabacResidual], [CabacBlocks]: the parts of a
      macroblock, each with its parser; [CabacRoundtrip] and [CabacSize] put them together.
    - [Nal]: unit framing, escaping and the byte stream file.

    x264, samples:
    - [Dct], [Cqm]: the transforms and scans of dct.c; the quantisation tables of set.c.
    - [Predict]: intra prediction; [Mc]: motion compensation of blocks; each with the
      prediction of the standard.
    - [Encode]: the transform coding functions of encoder/macroblock.c; [Recon] is the
      reconstruction of a decoder, and [MbRecon] shows that the encoder's is the same.
    - [MbMc]: the inter prediction of a macroblock ([x264_mb_mc] of common/macroblock.c).
    - [Deblock]: the deblocking filter of frame.c; [DeblockStd] the process of the
      standard; [DeblockLine], [DeblockFrame], [DeblockMb], [DeblockCorrect] and
      [DeblockTheorem] relate them from a line of samples up to a frame; [DeblockRows] says
      which rows a row of macroblocks changes.
    - [Frame]: borders, half sample planes, the integral image, and the loop that filters a
      frame while it is coded; [FrameExpand], [FramePlane], [Integral], [FrameSlice]: its
      invariant; [FrameTheorem]: what a finished frame holds.
    - [MvRange], [FrameThreads]: the range of motion vectors, and references that another
      thread is still coding.
    - [Pixel]: the metrics of common/pixel.c; [PixelTheorem]: what they compute, with the
      sums of [Sums].
    - [Me]: the motion search of encoder/me.c with the tables of costs of analyse.c;
      [Esa], [EsaTheorem]: its elimination of candidates; [MeTheorem]: what it reports.

    dedup: [Rabin], [Hashtable], [Dedup] (serial encoder and decoder), [Decoder] (the
    decoder on any file), [Fragment], [Binheap], [Tree], [Reorder] (the stages of the
    parallel encoder and their data structures), [Pipeline] (the threads as a step
    relation), [Ring], [Queue] (bounded queues under a mutex and condition variables),
    [Mbuffer].

    ** How state and effects are modelled

    A C integer is a [Z], with [u8], [s32], ... where it is stored in an object of that
    width.  Memory is a function from addresses to bytes where bytes matter (the writer,
    NAL units, planes, dedup's files), and an array a function of its index where the
    program only indexes it.  Functions that can fail, read outside an array or hit an
    assertion return an [option] or a sum.  Loops are [for_] (a fixed count), structural
    recursion, or recursion with fuel; every theorem about fuel gives an amount that is
    enough: the length of the input and two for dedup's reading loops, the number of set
    bits of a coefficient block, the height of a tree.  Threads are step relations, and the
    theorems hold for every schedule.  The digest and the compression library of dedup,
    [malloc], [read], [write], [fwrite] and [stat] are arguments, with their documented
    behaviour as hypotheses.

    ** What the theorems show

    - Streams are read back, by parsers written from the standard: blocks
      ([residual_roundtrip]), macroblocks in CAVLC ([macroblock_roundtrip],
      [intra_modes_decoded], [motion_field_decoded], [pcm_roundtrip]) and in CABAC
      ([cabac_macroblock_roundtrip], for states that are [cabac_ready] and macroblocks
      other than I_PCM; [cabac_roundtrip] for the arithmetic coder), parameter sets
      ([sps_describes_video], [pps_describes_matrices]), slice headers
      ([slice_header_describes_slice]), units and files ([annexb_file_roundtrip]).
    - Rates are exact: [macroblock_size_exact] for CAVLC, [cabac_size_is_entropy] for CABAC.
    - Samples: the encoder's reconstruction is the decoder's ([intra_luma_no_drift],
      [chroma_no_drift]) and near the source ([intra4x4_near_source]), with the scaling
      lists that were sent ([cqm_init_exact]); intra and inter prediction are those of the
      standard ([small_intra_prediction_standard], [large_intra_prediction_standard],
      [inter_prediction_standard]); so is deblocking ([deblock_standard], for progressive
      frames that are [deblock_ok]).
    - Frames, for slices that are [slice_ok]: the planes of a finished frame are the
      continued deblocked picture and its half samples ([reference_frame_standard]), its
      integral image is exact ([integral_image_exact]), every macroblock was predicted from
      samples before the filter ([neighbours_unfiltered]), and the vectors another thread
      may use stay in what is complete ([unfinished_reference_exact]).
    - Motion search: the metrics are the sums they stand for ([hadamard_metrics_exact],
      [pixel_sums_exact]); the elimination of candidates loses nothing in a frame of a
      slice that is [slice_ok] ([exhaustive_search_exact]); the reported cost, vector and
      threshold are true ([motion_search_reports]).
    - dedup: whole files are restored ([dedup_roundtrip]), any file is decoded or rejected
      ([decoder_total]), cutting depends on contents ([rabinseg_content_defined]), the
      parallel encoder writes the file of the serial one ([parallel_output_serial]).
    - Refinement: hash table, search tree, priority queue, ring buffer and shared buffers
      behave as maps, queues and byte strings.
    - Concurrency: nothing is lost and nobody waits for ever ([queue_delivers_once],
      [queue_never_deadlocks], [parallel_encoder_completes]).
    - Errors: inputs on which the code does not do what it means to ([mux_buffer_overrun];
      beside the main theorems [reorder_array_overrun], [escape_collision],
      [gzip_large_piece_rejected] and [xread_error_drops_byte]).

    ** Not modelled

    In x264: mode decision and rate control (analyse.c, ratecontrol.c, slicetype.c: their
    decisions are arguments here), the refinements of vectors by rate distortion and of two
    vectors together (me.c), the loading of the macroblock cache from the frame (the cache
    is a field of the state), assembly versions, and muxers other than the raw one;
    interlaced deblocking is modelled but not proved correct.  In
    dedup: command line, statistics, thread creation, and the failure of allocations
    outside the serial encoder and the hash table.  The other programs of the repository
    are not modelled: most are C++ or floating point kernels; vips, ferret and the
    libraries that come with them are third-party code. *)
From stdpp Require Export base tactics list numbers.
From Stdlib Require Export ZArith Lia.
Open Scope Z_scope.

(** * C integers

    An integer of the C program is a [Z].  [uw w] and [sw w] are the value a
    [w]-bit unsigned or two's complement object holds after [z] is stored in it. *)
Definition uw (w z : Z) : Z := z mod 2 ^ w.
Definition sw (w z : Z) : Z := (z + 2 ^ (w - 1)) mod 2 ^ w - 2 ^ (w - 1).

Declare Scope c_scope.
Delimit Scope c_scope with c.
Abbreviation u8 := (uw 8).
Abbreviation u16 := (uw 16).
Abbreviation u32 := (uw 32).
Abbreviation u64 := (uw 64).
Abbreviation s8 := (sw 8).
Abbreviation s16 := (sw 16).
Abbreviation s32 := (sw 32).
Abbreviation s64 := (sw 64).

(** C operators, at the relative precedences of C. *)
Notation "x << n" := (Z.shiftl x n) (at level 51, left associativity) : c_scope.
Notation "x >> n" := (Z.shiftr x n) (at level 51, left associativity) : c_scope.
Notation "x .& y" := (Z.land x y) (at level 53, left associativity) : c_scope.
Notation "x .^ y" := (Z.lxor x y) (at level 54, left associativity) : c_scope.
Notation "x .| y" := (Z.lor x y) (at level 56, left associativity) : c_scope.
Open Scope c_scope.

(** The truth value of an [int] used as a condition, and the [int] of a comparison. *)
Definition b2i (b : bool) : Z := if b then 1 else 0.
Definition i2b (z : Z) : bool := negb (z =? 0).

Create HintDb cint discriminated.

Lemma uw_small w z : 0 <= z < 2 ^ w -> uw w z = z.
Proof. apply Z.mod_small. Qed.

Lemma uw_range w z : 0 <= w -> 0 <= uw w z < 2 ^ w.
Proof. intros. apply Z.mod_pos_bound. apply Z.pow_pos_nonneg; lia. Qed.

Lemma sw_small w z : 0 < w -> - 2 ^ (w - 1) <= z < 2 ^ (w - 1) -> sw w z = z.
Proof.
  intros Hw Hz. unfold sw.
  assert (2 ^ w = 2 * 2 ^ (w - 1)) as E.
  { rewrite <- Z.pow_succ_r by lia. f_equal. lia. }
  rewrite Z.mod_small; lia.
Qed.

Lemma sw_range w z : 0 < w -> - 2 ^ (w - 1) <= sw w z < 2 ^ (w - 1).
Proof.
  intros Hw. unfold sw.
  assert (2 ^ w = 2 * 2 ^ (w - 1)) as E.
  { rewrite <- Z.pow_succ_r by lia. f_equal. lia. }
  pose proof (Z.mod_pos_bound (z + 2 ^ (w - 1)) (2 ^ w)).
  assert (0 < 2 ^ w) by (apply Z.pow_pos_nonneg; lia). lia.
Qed.

(** A stored value agrees with the computed one modulo [2 ^ w]. *)
Lemma uw_mod w z : 0 <= w -> (uw w z) mod 2 ^ w = z mod 2 ^ w.
Proof.
  intros. unfold uw. apply Z.mod_mod.
  assert (0 < 2 ^ w) by (apply Z.pow_pos_nonneg; lia). lia.
Qed.

Lemma sw_mod w z : 0 <= w -> (sw w z) mod 2 ^ w = z mod 2 ^ w.
Proof.
  intros. unfold sw.
  assert (0 < 2 ^ w) by (apply Z.pow_pos_nonneg; lia).
  rewrite Zminus_mod_idemp_l. f_equal. lia.
Qed.

Lemma sw_uw w a b : a mod 2 ^ w = b mod 2 ^ w -> sw w a = sw w b.
Proof.
  intros E. unfold sw. f_equal.
  rewrite <- (Zplus_mod_idemp_l a), <- (Zplus_mod_idemp_l b), E. reflexivity.
Qed.

(** Bits of a stored value: the low ones are those of the value. *)
Lemma testbit_of_mod w a b i :
  0 <= i < w -> a mod 2 ^ w = b mod 2 ^ w -> Z.testbit a i = Z.testbit b i.
Proof.
  intros Hi E. rewrite <- (Z.mod_pow2_bits_low a w i), <- (Z.mod_pow2_bits_low b w i) by lia.
  by rewrite E.
Qed.

Lemma testbit_sw w z i : 0 <= i < w -> Z.testbit (sw w z) i = Z.testbit z i.
Proof. intros. apply (testbit_of_mod w); [lia|]. apply sw_mod; lia. Qed.

Lemma testbit_uw w z i : 0 <= i < w -> Z.testbit (uw w z) i = Z.testbit z i.
Proof. intros. apply (testbit_of_mod w); [lia|]. apply uw_mod; lia. Qed.

Lemma testbit_high z w i : 0 <= z < 2 ^ w -> w <= i -> Z.testbit z i = false.
Proof.
  intros Hz Hi. destruct (Z.lt_decidable w 0).
  { rewrite Z.pow_neg_r in Hz; lia. }
  rewrite <- (Z.mod_small z (2 ^ w)) by lia. apply Z.mod_pow2_bits_high. lia.
Qed.

Lemma testbit_shiftl z n i : 0 <= n -> n <= i -> Z.testbit (z << n) i = Z.testbit z (i - n).
Proof. intros. apply Z.shiftl_spec. lia. Qed.

Lemma testbit_shiftl_low z n i : 0 <= i < n -> Z.testbit (z << n) i = false.
Proof. intros. apply Z.shiftl_spec_low. lia. Qed.

Lemma shiftl_land_0 a b n : 0 <= n -> 0 <= b < 2 ^ n -> (a << n) .& b = 0.
Proof.
  intros Hn Hb. apply Z.bits_inj_0. intros i.
  rewrite Z.land_spec. destruct (Z.lt_decidable i n).
  - destruct (Z.lt_decidable i 0).
    + by rewrite !Z.testbit_neg_r by lia.
    + by rewrite testbit_shiftl_low by lia.
  - rewrite (testbit_high b n i) by lia. apply andb_false_r.
Qed.

Lemma shiftl_lor_add a b n : 0 <= n -> 0 <= b < 2 ^ n -> (a << n) .| b = a * 2 ^ n + b.
Proof.
  intros Hn Hb. rewrite <- Z.shiftl_mul_pow2 by lia.
  rewrite Z.add_nocarry_lxor by (by apply shiftl_land_0).
  symmetry. apply Z.lxor_lor. by apply shiftl_land_0.
Qed.

Lemma pow2_pos n : 0 <= n -> 0 < 2 ^ n.
Proof. intros. apply Z.pow_pos_nonneg; lia. Qed.
#[export] Hint Resolve pow2_pos : cint.

(** * Bit strings

    [bits n v] is the [n] low bits of [v], most significant first, as they
    appear in a bitstream; [bits_val] reads a bit string as a number. *)
Fixpoint bits (n : nat) (v : Z) : list bool :=
  match n with
  | O => []
  | S n => Z.testbit v (Z.of_nat n) :: bits n v
  end.

Fixpoint bits_acc (acc : Z) (l : list bool) : Z :=
  match l with
  | [] => acc
  | b :: l => bits_acc (2 * acc + b2i b) l
  end.
Definition bits_val (l : list bool) : Z := bits_acc 0 l.

Lemma length_bits n v : length (bits n v) = n.
Proof. induction n; simpl; congruence. Qed.

Lemma bits_ext n v w :
  (forall i, 0 <= i < Z.of_nat n -> Z.testbit v i = Z.testbit w i) -> bits n v = bits n w.
Proof.
  induction n as [|n IH]; intros H; simpl; [done|]. f_equal; [apply H; lia|].
  apply IH. intros. apply H. lia.
Qed.

Lemma bits_mod n v w : v mod 2 ^ Z.of_nat n = w mod 2 ^ Z.of_nat n -> bits n v = bits n w.
Proof. intros E. apply bits_ext. intros i Hi. by apply (testbit_of_mod (Z.of_nat n)). Qed.

Lemma bits_sw w n v : Z.of_nat n <= w -> bits n (sw w v) = bits n v.
Proof. intros. apply bits_ext. intros i Hi. apply testbit_sw. lia. Qed.

Lemma bits_uw w n v : Z.of_nat n <= w -> bits n (uw w v) = bits n v.
Proof. intros. apply bits_ext. intros i Hi. apply testbit_uw. lia. Qed.

(** The first [n] of [n + m] bits are those of the value shifted right. *)
Lemma bits_testbit n a b i : bits n a = bits n b -> 0 <= i < Z.of_nat n -> Z.testbit a i = Z.testbit b i.
Proof.
  induction n as [|n IH]; intros E Hi; [lia|]. cbn [bits] in E. injection E as E1 E2.
  destruct (Z.eq_dec i (Z.of_nat n)) as [->|]; [done|]. apply IH; [done|lia].
Qed.

Lemma bits_add n m v : bits (n + m) v = bits n (v >> Z.of_nat m) ++ bits m v.
Proof.
  induction n as [|n IH]; simpl; [done|]. rewrite IH. f_equal.
  rewrite Z.shiftr_spec by lia. f_equal. lia.
Qed.

Lemma bits_lor n a b : 0 <= b < 2 ^ Z.of_nat n ->
  bits n ((a << Z.of_nat n) .| b) = bits n b.
Proof.
  intros Hb. apply bits_ext. intros i Hi.
  rewrite Z.lor_spec, testbit_shiftl_low by lia. done.
Qed.

(** Appending [m] bits to a bit string is shifting and oring. *)
Lemma bits_push n m a b : 0 <= b < 2 ^ Z.of_nat m ->
  bits (n + m) ((a << Z.of_nat m) .| b) = bits n a ++ bits m b.
Proof.
  intros Hb. rewrite bits_add, bits_lor by done. f_equal.
  apply bits_ext. intros i Hi. rewrite Z.shiftr_spec, Z.lor_spec by lia.
  rewrite testbit_shiftl by lia. rewrite (testbit_high b (Z.of_nat m)) by lia.
  rewrite orb_false_r. f_equal. lia.
Qed.

Lemma bits_shiftl n m a : bits (n + m) (a << Z.of_nat m) = bits n a ++ bits m 0.
Proof.
  rewrite <- (Z.lor_0_r (a << Z.of_nat m)). apply bits_push.
  pose proof (pow2_pos (Z.of_nat m)). lia.
Qed.

Lemma bits_0 n : bits n 0 = replicate n false.
Proof. induction n; simpl; [done|]. rewrite IHn. f_equal. apply Z.testbit_0_l. Qed.

Lemma bits_acc_app acc l k : bits_acc acc (l ++ k) = bits_acc (bits_acc acc l) k.
Proof. revert acc. induction l; intros; simpl; auto. Qed.

Lemma bits_acc_shift acc l :
  bits_acc acc l = acc * 2 ^ Z.of_nat (length l) + bits_val l.
Proof.
  revert acc. induction l as [|b l IH]; intros acc; cbn [bits_acc length].
  - unfold bits_val. simpl. lia.
  - unfold bits_val. cbn [bits_acc]. rewrite IH, (IH (2 * 0 + b2i b)).
    rewrite Nat2Z.inj_succ, Z.pow_succ_r by lia. lia.
Qed.

Lemma bits_val_app l k :
  bits_val (l ++ k) = bits_val l * 2 ^ Z.of_nat (length k) + bits_val k.
Proof. unfold bits_val at 1. rewrite bits_acc_app, bits_acc_shift. done. Qed.

Lemma bits_val_bits n v : bits_val (bits n v) = v mod 2 ^ Z.of_nat n.
Proof.
  induction n as [|n IH]; [by rewrite Z.mod_1_r|].
  change (bits (S n) v) with ([Z.testbit v (Z.of_nat n)] ++ bits n v).
  rewrite bits_val_app, IH, length_bits.
  rewrite Nat2Z.inj_succ, Z.pow_succ_r, (Z.mul_comm 2) by lia.
  rewrite Z.rem_mul_r by (pose proof (pow2_pos (Z.of_nat n)); lia).
  rewrite <- (Z.shiftr_div_pow2 v) by lia.
  rewrite <- Z.bit0_mod, Z.shiftr_spec, Z.add_0_l by lia.
  unfold bits_val; simpl. destruct (Z.testbit v (Z.of_nat n)); simpl; lia.
Qed.

Lemma bits_val_range l : 0 <= bits_val l < 2 ^ Z.of_nat (length l).
Proof.
  induction l as [|b l IH]; [cbn; lia|].
  change (b :: l) with ([b] ++ l). rewrite bits_val_app.
  rewrite length_app. simpl length. rewrite Nat2Z.inj_add, Z.pow_add_r by lia.
  unfold bits_val at 1; unfold bits_val at 2. simpl bits_acc.
  destruct b; simpl b2i; nia.
Qed.

Lemma bits_of_val l : bits (length l) (bits_val l) = l.
Proof.
  induction l as [|b l IH]; [done|].
  change (b :: l) with ([b] ++ l) at 2. rewrite bits_val_app.
  rewrite <- Z.shiftl_mul_pow2 by lia.
  pose proof (bits_val_range l).
  rewrite Z.shiftl_mul_pow2, <- (shiftl_lor_add _ (bits_val l)) by lia.
  simpl length. change (S (length l)) with (1 + length l)%nat.
  rewrite bits_push, IH by lia. simpl. by destruct b.
Qed.

Lemma bits_inj n a b : 0 <= a < 2 ^ Z.of_nat n -> 0 <= b < 2 ^ Z.of_nat n ->
  bits n a = bits n b -> a = b.
Proof.
  intros Ha Hb E. apply (f_equal bits_val) in E. rewrite !bits_val_bits in E.
  rewrite !Z.mod_small in E by lia. done.
Qed.

(** * Loops

    [for_ n lo body s] runs [body lo], [body (lo + 1)], ... for [n] iterations:
    the C loop [for (i = lo; i < lo + n; i++)] on the state [s]. *)
Fixpoint for_ {S} (n : nat) (lo : Z) (body : Z -> S -> S) (s : S) : S :=
  match n with
  | O => s
  | Datatypes.S n => for_ n (lo + 1) body (body lo s)
  end.

Lemma for_inv {S} (P : Z -> S -> Prop) n lo body s :
  P lo s ->
  (forall i s, lo <= i < lo + Z.of_nat n -> P i s -> P (i + 1) (body i s)) ->
  P (lo + Z.of_nat n) (for_ n lo body s).
Proof.
  revert lo s. induction n as [|n IH]; intros lo s H0 Hs; simpl.
  - by rewrite Z.add_0_r.
  - replace (lo + Z.of_nat (Datatypes.S n)) with (lo + 1 + Z.of_nat n) by lia.
    apply IH; [apply Hs; [lia|done]|]. intros i s' Hi. apply Hs. lia.
Qed.

Lemma for_snoc {S} n lo (body : Z -> S -> S) s :
  for_ (Datatypes.S n) lo body s = body (lo + Z.of_nat n) (for_ n lo body s).
Proof.
  revert lo s. induction n as [|n IH]; intros lo s.
  - simpl. by rewrite Z.add_0_r.
  - change (for_ (Datatypes.S (Datatypes.S n)) lo body s)
      with (for_ (Datatypes.S n) (lo + 1) body (body lo s)).
    rewrite IH. simpl for_. f_equal. lia.
Qed.

Lemma for_ext {S} n lo (f g : Z -> S -> S) s :
  (forall i s, lo <= i < lo + Z.of_nat n -> f i s = g i s) -> for_ n lo f s = for_ n lo g s.
Proof.
  revert lo s. induction n as [|n IH]; intros lo s H; simpl; [done|].
  rewrite H by lia. apply IH. intros. apply H. lia.
Qed.

(** * Arrays and memory

    An array object that the code indexes within its bounds is a function from
    indices to values; memory is a function from addresses to bytes. *)
Definition upd (a : Z -> Z) (i v : Z) : Z -> Z := fun x => if x =? i then v else a x.

Abbreviation mem := (Z -> Z).
Definition st8 (m : mem) (a v : Z) : mem := upd m a (u8 v).

Lemma upd_eq a i v : upd a i v i = v.
Proof. unfold upd. by rewrite Z.eqb_refl. Qed.
Lemma upd_ne a i v x : x <> i -> upd a i v x = a x.
Proof. unfold upd. intros H. apply Z.eqb_neq in H. by rewrite H. Qed.

Fixpoint st_bytes (m : mem) (a : Z) (l : list Z) : mem :=
  match l with
  | [] => m
  | b :: l => st_bytes (st8 m a b) (a + 1) l
  end.

Fixpoint ld_bytes (n : nat) (m : mem) (a : Z) : list Z :=
  match n with
  | O => []
  | S n => m a :: ld_bytes n m (a + 1)
  end.

(** The bytes of an integer, least and most significant first. *)
Fixpoint le_bytes (n : nat) (v : Z) : list Z :=
  match n with
  | O => []
  | S n => u8 v :: le_bytes n (v >> 8)
  end.

Fixpoint be_bytes (n : nat) (v : Z) : list Z :=
  match n with
  | O => []
  | S n => u8 (v >> (8 * Z.of_nat n)) :: be_bytes n v
  end.

Definition le_val (l : list Z) : Z := foldr (fun b acc => b + 256 * acc) 0 l.

(** Stores and loads of a little-endian host. *)
Definition st32 (m : mem) (a v : Z) : mem := st_bytes m a (le_bytes 4 v).
Definition st64 (m : mem) (a v : Z) : mem := st_bytes m a (le_bytes 8 v).
Definition ld32 (m : mem) (a : Z) : Z := le_val (ld_bytes 4 m a).
Definition ld64 (m : mem) (a : Z) : Z := le_val (ld_bytes 8 m a).

(** The bits of a byte string. *)
Fixpoint bytes_bits (l : list Z) : list bool :=
  match l with
  | [] => []
  | b :: l => bits 8 b ++ bytes_bits l
  end.

Lemma bytes_bits_app l k : bytes_bits (l ++ k) = bytes_bits l ++ bytes_bits k.
Proof. induction l; [done|]. cbn [bytes_bits app]. by rewrite IHl, app_assoc. Qed.

Lemma length_bytes_bits l : length (bytes_bits l) = (8 * length l)%nat.
Proof. induction l; [done|]. cbn [bytes_bits length]. rewrite length_app, length_bits, IHl. lia. Qed.

Lemma length_ld_bytes n m a : length (ld_bytes n m a) = n.
Proof. revert a. induction n; intros; simpl; auto. Qed.

Lemma length_be_bytes n v : length (be_bytes n v) = n.
Proof. induction n; simpl; auto. Qed.

Lemma be_bytes_bits n v : bytes_bits (be_bytes n v) = bits (8 * n) v.
Proof.
  induction n as [|n IH]; [done|]. cbn [be_bytes bytes_bits].
  rewrite IH. replace (8 * S n)%nat with (8 + 8 * n)%nat by lia.
  rewrite bits_add, bits_uw by lia. do 3 f_equal. lia.
Qed.

Lemma ld_bytes_app n k m a :
  ld_bytes (n + k) m a = ld_bytes n m a ++ ld_bytes k m (a + Z.of_nat n).
Proof.
  revert a. induction n as [|n IH]; intros a; simpl.
  - by rewrite Z.add_0_r.
  - rewrite IH. do 3 f_equal. lia.
Qed.

Lemma ld_bytes_ext n m m' a :
  (forall x, a <= x < a + Z.of_nat n -> m x = m' x) -> ld_bytes n m a = ld_bytes n m' a.
Proof.
  revert a. induction n as [|n IH]; intros a H; simpl; [done|].
  f_equal; [apply H; lia|]. apply IH. intros. apply H. lia.
Qed.

Lemma st_bytes_frame m a l x : x < a \/ a + Z.of_nat (length l) <= x -> st_bytes m a l x = m x.
Proof.
  revert m a. induction l as [|b l IH]; intros m a H; simpl; [done|].
  simpl length in H. rewrite IH by lia. apply upd_ne. lia.
Qed.

Lemma st_bytes_app m a l k : st_bytes m a (l ++ k) = st_bytes (st_bytes m a l) (a + Z.of_nat (length l)) k.
Proof.
  revert m a. induction l as [|b l IH]; intros m a; cbn [st_bytes app length].
  - by rewrite Z.add_0_r.
  - rewrite IH. f_equal. lia.
Qed.

Lemma ld_st_bytes m a l :
  Forall (fun b => 0 <= b < 256) l -> ld_bytes (length l) (st_bytes m a l) a = l.
Proof.
  intros H. revert m a. induction H as [|b l Hb Hl IH]; intros m a; simpl; [done|].
  rewrite IH. f_equal. rewrite st_bytes_frame by lia. unfold st8.
  rewrite upd_eq. apply uw_small. lia.
Qed.

Lemma ld_bytes_st_frame n m a b l :
  a + Z.of_nat n <= b \/ b + Z.of_nat (length l) <= a ->
  ld_bytes n (st_bytes m b l) a = ld_bytes n m a.
Proof. intros H. apply ld_bytes_ext. intros x Hx. apply st_bytes_frame. lia. Qed.

Lemma be_bytes_range n v : Forall (fun b => 0 <= b < 256) (be_bytes n v).
Proof. induction n; simpl; constructor; auto. apply uw_range. lia. Qed.

Lemma be_bytes_firstn n k v : (k <= n)%nat ->
  take k (be_bytes n v) = be_bytes k (v >> (8 * Z.of_nat (n - k))).
Proof.
  revert n. induction k as [|k IH]; intros n Hk; [by destruct n|].
  destruct n as [|n]; [lia|]. simpl. f_equal.
  - f_equal. rewrite Z.shiftr_shiftr by lia. f_equal. lia.
  - apply IH. lia.
Qed.

Lemma le_bytes_cons n b v : 0 <= b < 256 -> le_bytes (S n) (b + 256 * v) = b :: le_bytes n v.
Proof.
  intros Hb. cbn [le_bytes]. unfold uw. rewrite Z.shiftr_div_pow2 by lia.
  change (2 ^ 8) with 256. rewrite (Z.mul_comm 256).
  rewrite Z.mod_add, Z.div_add, Z.mod_small, Z.div_small by lia. done.
Qed.

(** Most significant byte first is the reverse of least significant byte first. *)
Lemma be_bytes_rev n v : be_bytes n v = reverse (le_bytes n v).
Proof.
  assert (forall n v, be_bytes (S n) v = be_bytes n (v >> 8) ++ [u8 v]) as H.
  { clear. intros n; induction n as [|n IH]; intros v.
    - cbn [be_bytes app]. by rewrite Z.mul_0_r, Z.shiftr_0_r.
    - change (be_bytes (S (S n)) v)
        with (u8 (v >> (8 * Z.of_nat (S n))) :: be_bytes (S n) v).
      rewrite IH. cbn [be_bytes app]. f_equal. f_equal.
      rewrite Z.shiftr_shiftr by lia. f_equal. lia. }
  revert v. induction n as [|n IH]; intros v; [done|].
  rewrite H, IH. cbn [le_bytes]. by rewrite reverse_cons.
Qed.

(** Memory whose bytes are in range, and byte strings. *)
Abbreviation is_byte := (fun b => 0 <= b < 256).

Definition bytes_ok (m : mem) : Prop := forall a, 0 <= m a < 256.

Lemma st_bytes_ok m a l : bytes_ok m -> bytes_ok (st_bytes m a l).
Proof.
  revert m a. induction l as [|b l IH]; intros m a Hm; [done|]. apply IH. intros x. unfold st8, upd.
  destruct (x =? a); [apply uw_range; lia|apply Hm].
Qed.

Lemma ld_bytes_ok n m a : bytes_ok m -> Forall is_byte (ld_bytes n m a).
Proof. intros Hm. revert a. induction n; intros a; constructor; auto. Qed.

(** Four bytes and the 32-bit value they make up. *)
Lemma u32_digits x : exists b0 b1 b2 b3,
  x mod 2 ^ 32 = b0 + 256 * (b1 + 256 * (b2 + 256 * b3)) /\
  0 <= b0 < 256 /\ 0 <= b1 < 256 /\ 0 <= b2 < 256 /\ 0 <= b3 < 256.
Proof.
  set (y := x mod 2 ^ 32).
  assert (0 <= y < 2 ^ 32) by (apply Z.mod_pos_bound; lia).
  exists (y mod 256), (y / 256 mod 256), (y / 256 / 256 mod 256), (y / 256 / 256 / 256).
  repeat split; try (apply Z.mod_pos_bound; lia).
  - clearbody y. pose proof (Z.div_mod y 256). pose proof (Z.div_mod (y / 256) 256).
    pose proof (Z.div_mod (y / 256 / 256) 256). lia.
  - repeat apply Z.div_pos; lia.
  - rewrite !Z.div_div by lia. apply Z.div_lt_upper_bound; lia.
Qed.

Lemma le_bytes_mod n v w : v mod 2 ^ (8 * Z.of_nat n) = w mod 2 ^ (8 * Z.of_nat n) ->
  le_bytes n v = le_bytes n w.
Proof.
  revert v w. induction n as [|n IH]; intros v w E; [done|]. cbn [le_bytes]. f_equal.
  - apply Z.bits_inj'. intros i Hi. destruct (Z.lt_decidable i 8).
    + rewrite !testbit_uw by lia. apply (testbit_of_mod (8 * Z.of_nat (S n))); [lia|done].
    + rewrite !(testbit_high _ 8) by (try apply uw_range; lia). done.
  - apply IH. apply Z.bits_inj'. intros i Hi.
    destruct (Z.lt_decidable i (8 * Z.of_nat n)).
    + rewrite !Z.mod_pow2_bits_low, !Z.shiftr_spec by lia.
      apply (testbit_of_mod (8 * Z.of_nat (S n))); [lia|done].
    + rewrite !Z.mod_pow2_bits_high by lia. done.
Qed.

Lemma le_bytes_app n k a b : 0 <= a < 2 ^ (8 * Z.of_nat n) ->
  le_bytes (n + k) (a + b * 2 ^ (8 * Z.of_nat n)) = le_bytes n a ++ le_bytes k b.
Proof.
  revert a b. induction n as [|n IH]; intros a b Ha.
  - change (2 ^ (8 * Z.of_nat 0)) with 1 in *. replace a with 0 by lia.
    simpl. f_equal. lia.
  - assert (2 ^ (8 * Z.of_nat (S n)) = 256 * 2 ^ (8 * Z.of_nat n)) as E.
    { change 256 with (2 ^ 8). rewrite <- Z.pow_add_r by lia. f_equal. lia. }
    rewrite E in *. clear E.
    pose proof (Z.div_mod a 256) as D. pose proof (Z.mod_pos_bound a 256).
    replace (a + b * (256 * 2 ^ (8 * Z.of_nat n)))
      with (a mod 256 + 256 * (a / 256 + b * 2 ^ (8 * Z.of_nat n))) by lia.
    assert (0 <= a / 256 < 2 ^ (8 * Z.of_nat n)).
    { split; [apply Z.div_pos; lia | apply Z.div_lt_upper_bound; lia]. }
    change (S n + k)%nat with (S (n + k)). rewrite le_bytes_cons, IH by lia.
    rewrite D at 3 by lia. rewrite (Z.add_comm (256 * _)), le_bytes_cons by lia. done.
Qed.

Lemma le_val_bytes n v : le_val (le_bytes n v) = v mod 2 ^ (8 * Z.of_nat n).
Proof.
  revert v. induction n as [|n IH]; intros v; [by rewrite Z.mod_1_r|].
  cbn [le_bytes]. unfold le_val in *. cbn [foldr]. rewrite IH. unfold uw.
  rewrite Z.shiftr_div_pow2 by lia. replace (8 * Z.of_nat (S n)) with (8 + 8 * Z.of_nat n) by lia.
  rewrite Z.pow_add_r, Z.rem_mul_r by lia. done.
Qed.

Lemma le_bytes_val l : Forall is_byte l -> le_bytes (length l) (le_val l) = l.
Proof.
  induction 1 as [|b l Hb _ IH]; [done|]. cbn [length le_bytes]. unfold le_val in *. cbn [foldr].
  rewrite Z.mul_comm. rewrite Z.shiftr_div_pow2 by lia. change (2 ^ 8) with 256. rewrite Z.div_add by lia.
  rewrite (Z.div_small b) by lia. rewrite Z.add_0_l, IH. f_equal. unfold uw. change (2 ^ 8) with 256.
  by rewrite Z_mod_plus_full, Z.mod_small by lia.
Qed.

Lemma le_val_bound l : Forall is_byte l -> 0 <= le_val l < 256 ^ Z.of_nat (length l).
Proof.
  induction 1 as [|b l Hb _ IH]; [cbn; lia|]. unfold le_val in *. cbn [foldr length].
  rewrite Nat2Z.inj_succ, Z.pow_succ_r by lia. lia.
Qed.

Lemma le_bytes_range n v : Forall is_byte (le_bytes n v).
Proof. revert v. induction n; intros v; simpl; constructor; auto. apply uw_range. lia. Qed.

Lemma length_le_bytes n v : length (le_bytes n v) = n.
Proof. revert v. induction n; intros v; simpl; auto. Qed.

(** Checking a boolean property of every index of a range by computation. *)
Definition all_range (lo : Z) (n : nat) (f : Z -> bool) : bool := forallb f (seqZ lo (Z.of_nat n)).

Lemma all_range_spec lo n f i :
  all_range lo n f = true -> lo <= i < lo + Z.of_nat n -> f i = true.
Proof.
  intros H Hi. unfold all_range in H. rewrite forallb_forall in H. apply H.
  apply list_elem_of_In, elem_of_seqZ. lia.
Qed.

Lemma bits_ones n : bits n (2 ^ Z.of_nat n - 1) = replicate n true.
Proof.
  rewrite (bits_mod n _ (-1)).
  - induction n; cbn [bits replicate]; [done|]. rewrite IHn. f_equal. apply Z.bits_m1. lia.
  - rewrite Zminus_mod, Z_mod_same_full, Zminus_mod_idemp_r. done.
Qed.

(** [while_ fuel cond body s] runs [body] while [cond] holds; [None] when the fuel
    runs out first, so that a result is a proof of termination. *)
Fixpoint while_ {S} (fuel : nat) (cond : S -> bool) (body : S -> S) (s : S) : option S :=
  if cond s then
    match fuel with
    | O => None
    | Datatypes.S fuel => while_ fuel cond body (body s)
    end
  else Some s.

Lemma while_false {S} fuel cond (body : S -> S) s :
  cond s = false -> while_ fuel cond body s = Some s.
Proof. intros H. destruct fuel; simpl; by rewrite H. Qed.

Lemma while_true {S} fuel cond (body : S -> S) s :
  cond s = true -> while_ (Datatypes.S fuel) cond body s = while_ fuel cond body (body s).
Proof. intros H. simpl. by rewrite H. Qed.

(** A loop with a decreasing measure bounded by the fuel ends in a state that
    satisfies its invariant and refutes its condition. *)
Lemma while_inv {S} (I : S -> Prop) (m : S -> nat) fuel cond (body : S -> S) s :
  I s -> (m s <= fuel)%nat ->
  (forall s, I s -> cond s = true -> I (body s) /\ (m (body s) < m s)%nat) ->
  exists s', while_ fuel cond body s = Some s' /\ I s' /\ cond s' = false.
Proof.
  intros HI Hm Hstep. revert s HI Hm. induction fuel as [|fuel IH]; intros s HI Hm; simpl.
  - destruct (cond s) eqn:E; [|eauto]. destruct (Hstep s HI E). lia.
  - destruct (cond s) eqn:E; [|eauto]. destruct (Hstep s HI E). apply IH; [done|lia].
Qed.

(** A loop that rewrites each element of an array from its old value alone. *)
Lemma for_upd_pointwise n lo (g : Z -> Z -> Z) a j :
  for_ n lo (fun i a => upd a i (g i (a i))) a j =
  if (lo <=? j) && (j <? lo + Z.of_nat n) then g j (a j) else a j.
Proof.
  revert lo a. induction n as [|n IH]; intros lo a; cbn [for_].
  - replace ((lo <=? j) && (j <? lo + Z.of_nat 0)) with false; [done|].
    symmetry. apply andb_false_iff. destruct (Z.leb_spec lo j); [right; apply Z.ltb_ge; lia|by left].
  - rewrite IH. unfold upd. destruct (Z.eqb_spec j lo) as [->|Hne].
    + replace ((lo + 1 <=? lo) && _) with false
        by (symmetry; apply andb_false_iff; left; apply Z.leb_gt; lia).
      replace ((lo <=? lo) && _) with true
        by (symmetry; apply andb_true_iff; split; [apply Z.leb_le|apply Z.ltb_lt]; lia).
      done.
    + replace ((lo <=? j) && (j <? lo + Z.of_nat (S n)))
        with ((lo + 1 <=? j) && (j <? lo + 1 + Z.of_nat n)); [done|].
      f_equal; [destruct (Z.leb_spec (lo + 1) j), (Z.leb_spec lo j); lia|].
      f_equal. lia.
Qed.

Lemma in_range_b lo hi j : lo <= j < hi -> (lo <=? j) && (j <? hi) = true.
Proof. intros. apply andb_true_iff. split; [apply Z.leb_le|apply Z.ltb_lt]; lia. Qed.

Lemma out_range_b lo hi j : ~ lo <= j < hi -> (lo <=? j) && (j <? hi) = false.
Proof.
  intros. apply andb_false_iff. destruct (Z.leb_spec lo j); [right; apply Z.ltb_ge; lia|by left].
Qed.

Lemma for_shift {S} n lo c (f : Z -> S -> S) s :
  for_ n lo (fun i => f (c + i)) s = for_ n (c + lo) f s.
Proof.
  revert lo s. induction n as [|n IH]; intros lo s; cbn [for_]; [done|].
  rewrite IH. f_equal. lia.
Qed.

(** The same over the rows and columns of a [w] by [h] block stored row by row. *)
Lemma for_grid w h (g : Z -> Z -> Z) a j :
  for_ h 0 (fun y a => for_ w 0 (fun x a =>
    upd a (Z.of_nat w * y + x) (g (Z.of_nat w * y + x) (a (Z.of_nat w * y + x)))) a) a j =
  if (0 <=? j) && (j <? Z.of_nat w * Z.of_nat h) then g j (a j) else a j.
Proof.
  revert j. induction h as [|h IH]; intros j.
  - cbn [for_]. by rewrite out_range_b by lia.
  - rewrite for_snoc, Z.add_0_l.
    rewrite (for_shift w 0 (Z.of_nat w * Z.of_nat h) (fun i a => upd a i (g i (a i)))).
    rewrite for_upd_pointwise, Z.add_0_r, IH.
    destruct (Z.lt_decidable j (Z.of_nat w * Z.of_nat h)).
    + rewrite (out_range_b (Z.of_nat w * Z.of_nat h)) by lia.
      destruct (Z.lt_decidable j 0); [by rewrite !out_range_b by lia|].
      by rewrite !in_range_b by nia.
    + rewrite (out_range_b 0 (Z.of_nat w * Z.of_nat h)) by lia.
      destruct (Z.lt_decidable j (Z.of_nat w * Z.of_nat (S h))).
      * by rewrite !in_range_b by nia.
      * by rewrite !out_range_b by nia.
Qed.

(** * Loops over blocks *)
(** Loops that update the places [A y x] of a block one after another. *)
Lemma for_row (w : nat) (A : Z -> Z) (g : Z -> Z -> Z) a :
  (forall x x', 0 <= x < Z.of_nat w -> 0 <= x' < Z.of_nat w -> A x = A x' -> x = x') ->
  let r := for_ w 0 (fun x p => upd p (A x) (g x (p (A x)))) a in
  (forall x, 0 <= x < Z.of_nat w -> r (A x) = g x (a (A x))) /\
  (forall q, (forall x, 0 <= x < Z.of_nat w -> q <> A x) -> r q = a q).
Proof.
  intros inj.
  refine (for_inv (fun k r => (forall x, 0 <= x < k -> r (A x) = g x (a (A x))) /\
    (forall q, (forall x, 0 <= x < k -> q <> A x) -> r q = a q)) w 0 _ a _ _).
  - split; [lia|done].
  - intros i r Hi [H1 H2]. split.
    + intros x Hx. destruct (Z.eq_dec x i) as [->|Hne].
      * rewrite upd_eq. f_equal. apply H2. intros x Hx' E. apply inj in E; lia.
      * rewrite upd_ne by (intros E; apply inj in E; lia). apply H1. lia.
    + intros q Hq. rewrite upd_ne by (apply Hq; lia). apply H2. intros x Hx. apply Hq. lia.
Qed.

Lemma for_block (h w : nat) (A : Z -> Z -> Z) (g : Z -> Z -> Z -> Z) a :
  (forall y x y' x', 0 <= y < Z.of_nat h -> 0 <= x < Z.of_nat w -> 0 <= y' < Z.of_nat h -> 0 <= x' < Z.of_nat w ->
     A y x = A y' x' -> y = y' /\ x = x') ->
  let r := for_ h 0 (fun y p => for_ w 0 (fun x p => upd p (A y x) (g y x (p (A y x)))) p) a in
  (forall y x, 0 <= y < Z.of_nat h -> 0 <= x < Z.of_nat w -> r (A y x) = g y x (a (A y x))) /\
  (forall q, (forall y x, 0 <= y < Z.of_nat h -> 0 <= x < Z.of_nat w -> q <> A y x) -> r q = a q).
Proof.
  intros inj.
  refine (for_inv (fun k r => (forall y x, 0 <= y < k -> 0 <= x < Z.of_nat w -> r (A y x) = g y x (a (A y x))) /\
    (forall q, (forall y x, 0 <= y < k -> 0 <= x < Z.of_nat w -> q <> A y x) -> r q = a q)) h 0 _ a _ _).
  - split; [lia|done].
  - intros i r Hi [H1 H2].
    destruct (for_row w (A i) (g i) r) as [R1 R2]; [intros x x' Hx Hx' E; apply inj in E; lia|]. split.
    + intros y x Hy Hx. destruct (Z.eq_dec y i) as [->|Hne].
      * rewrite R1 by done. f_equal. apply H2. intros y x' Hy' Hx' E. apply inj in E; lia.
      * rewrite R2 by (intros x' Hx' E; apply inj in E; lia). apply H1; lia.
    + intros q Hq. rewrite R2 by (intros; apply Hq; lia). apply H2. intros y x Hy Hx. apply Hq; lia.
Qed.

Lemma Forall_elem {A} (P : A -> Prop) l x : Forall P l -> x ∈ l -> P x.
Proof.
  intros H. induction H as [|y l Hy Hl IH]; intros E; [by apply elem_of_nil in E|].
  apply elem_of_cons in E as [->|E]; [done|by apply IH].
Qed.

Lemma last_cons_default {A} (v : A) l d : List.last (v :: l) d = List.last l v.
Proof. revert v. induction l as [|w l IH]; intros v; [done|]. cbn [List.last]. destruct l; [done|]. apply IH. Qed.

Lemma last_seqZ (f : Z -> Z) r d : 1 <= r -> List.last (f <$> seqZ 0 r) d = f (r - 1).
Proof.
  intros H. replace r with ((r - 1) + 1) at 1 by lia. rewrite seqZ_app by lia. rewrite fmap_app.
  change (seqZ (0 + (r - 1)) 1) with [0 + (0 + (r - 1))]. cbn [fmap list_fmap]. by rewrite List.last_last.
Qed.

(** * Permutations of concatenations *)
Lemma perm_rotate {A} (b r : list A) : r ++ b ++ [] ≡ₚ b ++ r.
Proof. rewrite app_nil_r. apply Permutation_app_comm. Qed.

Ltac perm_norm := repeat first [rewrite <- app_assoc | rewrite <- app_comm_cons | rewrite app_nil_l].

(** One step of [solve_perm]: cancel the first parts, or turn the right side. *)
Ltac perm_step :=
  match goal with
  | |- ?l ≡ₚ ?l => reflexivity
  | |- ?a ++ _ ≡ₚ ?a ++ _ => apply Permutation_app_head
  | |- ?x :: _ ≡ₚ ?x :: _ => apply perm_skip
  | |- _ ≡ₚ ?b ++ ?r => etransitivity; [|apply (perm_rotate b r)]; perm_norm
  | |- _ ≡ₚ ?x :: ?r => etransitivity; [|apply (perm_rotate [x] r)]; perm_norm
  end.

Ltac solve_perm :=
  match goal with
  | |- ?l ≡ₚ ?r =>
      transitivity (l ++ []); [by rewrite app_nil_r|]; transitivity (r ++ []); [|by rewrite app_nil_r]
  end; perm_norm; do 100 (try perm_step).
