(* ===== verification/Bs.v ===== *)
(** * The bitstream writer of x264 (common/bs.h, endian_fix of common/osdep.h)

    A writer keeps up to one machine word of bits in [cur_bits] and stores whole
    32-bit groups, most significant byte first.  [stream] is the list of bits a
    writer stands for: the bits of the bytes below [p], then the bits still in
    [cur_bits].  Every operation is shown to append exactly its code to it. *)
From S2P Require Import Prelude.

(** [vlc_t]: a code word and its size in bits. *)
Record vlc_t := Vlc { i_bits : Z; i_size : Z }.

(** [bs_t], with the memory its pointers point into. *)
Record bs_t := Bs_t {
  p_start : Z;
  p : Z;
  p_end : Z;
  cur_bits : Z;
  i_left : Z;
  i_bits_encoded : Z;
  bs_mem : mem
}.

(** [endian_fix32] and [endian_fix] of a little-endian host without the assembly. *)
Definition endian_fix32 (x : Z) : Z :=
  let x := u32 x in
  u32 (u32 (x << 24) + (u32 (x << 8) .& 0xff0000) + ((x >> 8) .& 0xff00) + (x >> 24)).

Definition endian_fix (WORD_SIZE x : Z) : Z :=
  if WORD_SIZE =? 8
  then s64 (endian_fix32 (x >> 32) + u64 (endian_fix32 x << 32))
  else s32 (endian_fix32 x).

Section Writer.
(** [sizeof(void* )]: 8 on 64-bit hosts, 4 on 32-bit ones. *)
Context (WORD_SIZE : Z).

(** Conversion to [intptr_t], the type of [cur_bits]. *)
Definition sword (z : Z) : Z := sw (8 * WORD_SIZE) z.

Definition st_word (m : mem) (a v : Z) : mem := st_bytes m a (le_bytes (Z.to_nat WORD_SIZE) v).
Definition ld_word (m : mem) (a : Z) : Z := sword (le_val (ld_bytes (Z.to_nat WORD_SIZE) m a)).

Definition bs_init (m : mem) (p_data i_data i_bits_encoded : Z) : bs_t :=
  let offset := p_data .& (WORD_SIZE - 1) in
  {| p_start := p_data - offset;
     p := p_data - offset;
     p_end := p_data + i_data;
     i_left := if i2b offset then 8 * offset else WORD_SIZE * 8;
     cur_bits := endian_fix WORD_SIZE (ld_word m (p_data - offset));
     i_bits_encoded := i_bits_encoded;
     bs_mem := m |}.

Definition bs_pos (s : bs_t) : Z := 8 * (p s - p_start s) + WORD_SIZE * 8 - i_left s.

Definition bs_flush (s : bs_t) : bs_t :=
  {| p_start := p_start s;
     p := p s + (WORD_SIZE - i_left s / 8);
     p_end := p_end s;
     cur_bits := cur_bits s;
     i_left := WORD_SIZE * 8;
     i_bits_encoded := i_bits_encoded s;
     bs_mem := st_word (bs_mem s) (p s) (endian_fix WORD_SIZE (sword (cur_bits s << i_left s))) |}.

Definition bs_write (s : bs_t) (i_count i_bits : Z) : bs_t :=
  if WORD_SIZE =? 8 then
    let cur := sword (sword (cur_bits s << i_count) .| i_bits) in
    let left := i_left s - i_count in
    if left <=? 32 then
      {| p_start := p_start s; p := p s + 4; p_end := p_end s;
         cur_bits := cur; i_left := left + 32; i_bits_encoded := i_bits_encoded s;
         bs_mem := st32 (bs_mem s) (p s) (endian_fix WORD_SIZE (sword (cur << left))) |}
    else
      {| p_start := p_start s; p := p s; p_end := p_end s;
         cur_bits := cur; i_left := left; i_bits_encoded := i_bits_encoded s;
         bs_mem := bs_mem s |}
  else if i_count <? i_left s then
    {| p_start := p_start s; p := p s; p_end := p_end s;
       cur_bits := sword (sword (cur_bits s << i_count) .| i_bits);
       i_left := i_left s - i_count; i_bits_encoded := i_bits_encoded s;
       bs_mem := bs_mem s |}
  else
    let i_count := i_count - i_left s in
    let cur := sword (sword (cur_bits s << i_left s) .| (i_bits >> i_count)) in
    {| p_start := p_start s; p := p s + 4; p_end := p_end s;
       cur_bits := sword i_bits; i_left := 32 - i_count; i_bits_encoded := i_bits_encoded s;
       bs_mem := st32 (bs_mem s) (p s) (endian_fix WORD_SIZE cur) |}.

Definition bs_write32 (s : bs_t) (i_bits : Z) : bs_t :=
  let s := bs_write s 16 (i_bits >> 16) in
  bs_write s 16 i_bits.

Definition bs_write1 (s : bs_t) (i_bit : Z) : bs_t :=
  let cur := sword (sword (cur_bits s << 1) .| i_bit) in
  let left := i_left s - 1 in
  if left =? WORD_SIZE * 8 - 32 then
    {| p_start := p_start s; p := p s + 4; p_end := p_end s;
       cur_bits := cur; i_left := WORD_SIZE * 8; i_bits_encoded := i_bits_encoded s;
       bs_mem := st32 (bs_mem s) (p s) (endian_fix32 cur) |}
  else
    {| p_start := p_start s; p := p s; p_end := p_end s;
       cur_bits := cur; i_left := left; i_bits_encoded := i_bits_encoded s;
       bs_mem := bs_mem s |}.

Definition set_cur (s : bs_t) (cur left : Z) : bs_t :=
  {| p_start := p_start s; p := p s; p_end := p_end s; cur_bits := cur; i_left := left;
     i_bits_encoded := i_bits_encoded s; bs_mem := bs_mem s |}.

Definition bs_align_0 (s : bs_t) : bs_t :=
  let s := if i2b (i_left s .& 7)
           then set_cur s (sword (cur_bits s << (i_left s .& 7))) (i_left s .& Z.lnot 7)
           else s in
  bs_flush s.

Definition bs_align_1 (s : bs_t) : bs_t :=
  let s := if i2b (i_left s .& 7)
           then set_cur s (sword (sword (cur_bits s << (i_left s .& 7))
                                    .| ((1 << (i_left s .& 7)) - 1)))
                        (i_left s .& Z.lnot 7)
           else s in
  bs_flush s.

End Writer.

(** * Golomb codes *)
Definition x264_ue_size_tab : list Z :=
  [
     1;  1;  3;  3;  5;  5;  5;  5;  7;  7;  7;  7;  7;  7;  7;  7;
     9;  9;  9;  9;  9;  9;  9;  9;  9;  9;  9;  9;  9;  9;  9;  9;
    11; 11; 11; 11; 11; 11; 11; 11; 11; 11; 11; 11; 11; 11; 11; 11;
    11; 11; 11; 11; 11; 11; 11; 11; 11; 11; 11; 11; 11; 11; 11; 11;
    13; 13; 13; 13; 13; 13; 13; 13; 13; 13; 13; 13; 13; 13; 13; 13;
    13; 13; 13; 13; 13; 13; 13; 13; 13; 13; 13; 13; 13; 13; 13; 13;
    13; 13; 13; 13; 13; 13; 13; 13; 13; 13; 13; 13; 13; 13; 13; 13;
    13; 13; 13; 13; 13; 13; 13; 13; 13; 13; 13; 13; 13; 13; 13; 13;
    15; 15; 15; 15; 15; 15; 15; 15; 15; 15; 15; 15; 15; 15; 15; 15;
    15; 15; 15; 15; 15; 15; 15; 15; 15; 15; 15; 15; 15; 15; 15; 15;
    15; 15; 15; 15; 15; 15; 15; 15; 15; 15; 15; 15; 15; 15; 15; 15;
    15; 15; 15; 15; 15; 15; 15; 15; 15; 15; 15; 15; 15; 15; 15; 15;
    15; 15; 15; 15; 15; 15; 15; 15; 15; 15; 15; 15; 15; 15; 15; 15;
    15; 15; 15; 15; 15; 15; 15; 15; 15; 15; 15; 15; 15; 15; 15; 15;
    15; 15; 15; 15; 15; 15; 15; 15; 15; 15; 15; 15; 15; 15; 15; 15;
    15; 15; 15; 15; 15; 15; 15; 15; 15; 15; 15; 15; 15; 15; 15; 15 ].

Definition ue_size (i : Z) : Z := nth (Z.to_nat i) x264_ue_size_tab 0.

Section Golomb.
Context (WORD_SIZE : Z).
Local Abbreviation bs_write := (bs_write WORD_SIZE).

Definition bs_write_ue_big (s : bs_t) (val : Z) : bs_t :=
  let val := u32 (val + 1) in
  let tmp := s32 val in
  let '(size, tmp) := if tmp >=? 0x10000 then (32, tmp >> 16) else (0, tmp) in
  let '(size, tmp) := if tmp >=? 0x100 then (size + 16, tmp >> 8) else (size, tmp) in
  let size := size + ue_size tmp in
  let s := bs_write s (size >> 1) 0 in
  bs_write s ((size >> 1) + 1) val.

Definition bs_write_ue (s : bs_t) (val : Z) : bs_t :=
  bs_write s (ue_size (val + 1)) (u32 (val + 1)).

Definition bs_write_se (s : bs_t) (val : Z) : bs_t :=
  let val := if val <=? 0 then - val * 2 + 1 else val * 2 in
  let tmp := val in
  let '(size, tmp) := if tmp >=? 0x100 then (16, tmp >> 8) else (0, tmp) in
  let size := size + ue_size tmp in
  bs_write s size (u32 val).

Definition bs_write_te (s : bs_t) (x val : Z) : bs_t :=
  if x =? 1 then bs_write1 WORD_SIZE s (u32 (1 .^ val))
  else if x >? 1 then bs_write_ue s val
  else s.

Definition bs_rbsp_trailing (s : bs_t) : bs_t :=
  let s := bs_write1 WORD_SIZE s 1 in
  bs_flush WORD_SIZE s.

Definition bs_size_ue (val : Z) : Z := ue_size (val + 1).

Definition bs_size_ue_big (val : Z) : Z :=
  if val <? 255 then ue_size (val + 1) else ue_size ((val + 1) >> 8) + 16.

Definition bs_size_se (val : Z) : Z :=
  bs_size_ue_big (u32 (if val <=? 0 then - val * 2 else val * 2 - 1)).

Definition bs_size_te (x val : Z) : Z :=
  if x =? 1 then 1 else if x >? 1 then ue_size (val + 1) else 0.

End Golomb.

(** * The stream a writer stands for *)
Definition written (s : bs_t) : list Z :=
  ld_bytes (Z.to_nat (p s - p_start s)) (bs_mem s) (p_start s).

Definition pending (WORD_SIZE : Z) (s : bs_t) : nat := Z.to_nat (8 * WORD_SIZE - i_left s).

Definition stream (WORD_SIZE : Z) (s : bs_t) : list bool :=
  bytes_bits (written s) ++ bits (pending WORD_SIZE s) (cur_bits s).

(** At least one and at most a word less one group of bits of [cur_bits] is free. *)
Definition bs_wf (WORD_SIZE : Z) (s : bs_t) : Prop :=
  p_start s <= p s /\ 8 * WORD_SIZE - 32 < i_left s <= 8 * WORD_SIZE.

(** The widest code [bs_write] takes without shifting a C object by its width. *)
Definition max_count (WORD_SIZE : Z) : Z := if WORD_SIZE =? 8 then 32 else 31.

(** ** Byte order *)
Lemma land_mask_byte x k : 0 <= k -> Z.land x (Z.ones 8 << k) = u8 (x >> k) << k.
Proof.
  intros. apply Z.bits_inj'. intros i Hi. rewrite Z.shiftl_spec, Z.land_spec, Z.shiftl_spec by lia.
  destruct (Z.lt_decidable i k).
  - rewrite !(Z.testbit_neg_r _ (i - k)) by lia. by rewrite andb_false_r.
  - unfold uw. rewrite <- Z.land_ones, Z.land_spec, Z.shiftr_spec by lia.
    f_equal. f_equal. lia.
Qed.

(** The byte swap, on the bytes of a 32-bit value. *)
Lemma endian_fix32_digits b0 b1 b2 b3 x :
  0 <= b0 < 256 -> 0 <= b1 < 256 -> 0 <= b2 < 256 -> 0 <= b3 < 256 ->
  x mod 2 ^ 32 = b0 + 256 * (b1 + 256 * (b2 + 256 * b3)) ->
  endian_fix32 x = b3 + 256 * (b2 + 256 * (b1 + 256 * b0)).
Proof.
  intros H0 H1 H2 H3 E. unfold endian_fix32, uw. cbv zeta. rewrite E. clear E x.
  change 0xff0000 with (Z.ones 8 << 16). change 0xff00 with (Z.ones 8 << 8).
  rewrite !land_mask_byte by lia. unfold uw.
  rewrite !Z.shiftl_mul_pow2, !Z.shiftr_div_pow2 by lia.
  set (y := b0 + 256 * (b1 + 256 * (b2 + 256 * b3))).
  assert ((y * 2 ^ 24) mod 2 ^ 32 = b0 * 2 ^ 24) as ->.
  { symmetry. apply (Z.mod_unique _ _ (b1 + 256 * (b2 + 256 * b3))); lia. }
  assert ((y * 2 ^ 8) mod 2 ^ 32 = 2 ^ 16 * (b1 + 256 * b2) + b0 * 2 ^ 8) as ->.
  { symmetry. apply (Z.mod_unique _ _ b3); lia. }
  assert ((2 ^ 16 * (b1 + 256 * b2) + b0 * 2 ^ 8) / 2 ^ 16 = b1 + 256 * b2) as ->.
  { symmetry. apply (Z.div_unique _ _ _ (b0 * 2 ^ 8)); lia. }
  assert ((b1 + 256 * b2) mod 2 ^ 8 = b1) as ->.
  { symmetry. apply (Z.mod_unique _ _ b2); lia. }
  assert (y / 2 ^ 8 = b1 + 256 * (b2 + 256 * b3)) as ->.
  { symmetry. apply (Z.div_unique _ _ _ b0); lia. }
  assert ((b1 + 256 * (b2 + 256 * b3)) / 2 ^ 8 = b2 + 256 * b3) as ->.
  { symmetry. apply (Z.div_unique _ _ _ b1); lia. }
  assert ((b2 + 256 * b3) mod 2 ^ 8 = b2) as ->.
  { symmetry. apply (Z.mod_unique _ _ b3); lia. }
  assert (y / 2 ^ 24 = b3) as ->.
  { symmetry. apply (Z.div_unique _ _ _ (b0 + 256 * (b1 + 256 * b2))); lia. }
  rewrite Z.mod_small; lia.
Qed.

(** Storing [endian_fix32 x] on a little-endian host stores [x] big-endian. *)
Lemma le_bytes_endian_fix32 x : le_bytes 4 (endian_fix32 x) = be_bytes 4 x.
Proof.
  destruct (u32_digits x) as (b0 & b1 & b2 & b3 & E & H0 & H1 & H2 & H3).
  rewrite (endian_fix32_digits b0 b1 b2 b3) by done.
  rewrite be_bytes_rev, (le_bytes_mod 4 x (x mod 2 ^ 32)) by (symmetry; by apply Z.mod_mod).
  rewrite E. replace b3 with (b3 + 256 * 0) at 2 by lia.
  replace b0 with (b0 + 256 * 0) at 1 by lia.
  rewrite !le_bytes_cons by lia. done.
Qed.

(** The same for one machine word, of which the upper half is stored first. *)
Lemma le_bytes_endian_fix_64 x :
  le_bytes 8 (endian_fix 8 x) = be_bytes 8 x.
Proof.
  unfold endian_fix. simpl (8 =? 8). cbv iota.
  set (h := endian_fix32 (x >> 32)). set (l := endian_fix32 x).
  assert (forall y, 0 <= endian_fix32 y < 2 ^ 32) as R by (intros y; apply uw_range; lia).
  assert (le_bytes 8 (s64 (h + u64 (l << 32))) = le_bytes 8 (h + l * 2 ^ 32)) as ->.
  { apply le_bytes_mod. change (8 * Z.of_nat 8) with 64. rewrite sw_mod by lia.
    unfold uw. rewrite Zplus_mod_idemp_r, Z.shiftl_mul_pow2 by lia. done. }
  change 8%nat with (4 + 4)%nat at 1. change 32 with (8 * Z.of_nat 4).
  rewrite (le_bytes_app 4 4 h l) by (unfold h; apply R).
  unfold h, l. rewrite !le_bytes_endian_fix32.
  cbn [be_bytes app]. rewrite !Z.shiftr_shiftr by lia. done.
Qed.

(** ** Every operation appends its code *)
Ltac bs_simpl := cbn [p_start p p_end cur_bits i_left i_bits_encoded bs_mem] in *.

Section Refinement.
Context (WORD_SIZE : Z) (word_ok : WORD_SIZE = 4 \/ WORD_SIZE = 8).
Local Abbreviation stream := (stream WORD_SIZE).
Local Abbreviation bs_wf := (bs_wf WORD_SIZE).

Lemma le_bytes_group x : le_bytes 4 (endian_fix WORD_SIZE x) = be_bytes 4 (x >> (8 * WORD_SIZE - 32)).
Proof.
  destruct word_ok as [-> | ->].
  - change (8 * 4 - 32) with 0. rewrite Z.shiftr_0_r, <- le_bytes_endian_fix32.
    unfold endian_fix. simpl (4 =? 8). cbv iota. apply le_bytes_mod. by rewrite sw_mod.
  - change (8 * 8 - 32) with 32.
    change (le_bytes 4 (endian_fix 8 x)) with (take 4 (le_bytes 8 (endian_fix 8 x))).
    rewrite le_bytes_endian_fix_64, be_bytes_firstn by lia. done.
Qed.

Lemma le_bytes_word x :
  le_bytes (Z.to_nat WORD_SIZE) (endian_fix WORD_SIZE x) = be_bytes (Z.to_nat WORD_SIZE) x.
Proof.
  destruct word_ok as [-> | ->].
  - change (Z.to_nat 4) with 4%nat. rewrite <- le_bytes_endian_fix32.
    unfold endian_fix. simpl (4 =? 8). cbv iota. apply le_bytes_mod. by rewrite sw_mod.
  - apply le_bytes_endian_fix_64.
Qed.

(** Storing bytes at [p1] and advancing over the first [k] of them. *)
Lemma written_store p0 p1 k m l :
  p0 <= p1 -> 0 <= k <= Z.of_nat (length l) -> Forall (fun b => 0 <= b < 256) l ->
  ld_bytes (Z.to_nat (p1 + k - p0)) (st_bytes m p1 l) p0 =
  ld_bytes (Z.to_nat (p1 - p0)) m p0 ++ take (Z.to_nat k) l.
Proof.
  intros Hp Hk Hl.
  replace (Z.to_nat (p1 + k - p0)) with (Z.to_nat (p1 - p0) + Z.to_nat k)%nat by lia.
  rewrite ld_bytes_app. f_equal; [apply ld_bytes_st_frame; lia|].
  replace (p0 + Z.of_nat (Z.to_nat (p1 - p0))) with p1 by lia.
  rewrite <- (ld_st_bytes m p1 l Hl) at 2.
  replace (length l) with (Z.to_nat k + (length l - Z.to_nat k))%nat by lia.
  rewrite ld_bytes_app, take_app_length'; [done|]. by rewrite length_ld_bytes.
Qed.

(** Pushing [c] bits; what [b] has above them falls on the bits already there. *)
Lemma bits_push_over w k c a b : Z.of_nat (k + c) <= w ->
  bits (k + c) (sw w (sw w (a << Z.of_nat c) .| b)) = bits k (a .| (b >> Z.of_nat c)) ++ bits c b.
Proof.
  intros Hw. rewrite bits_sw, bits_add by done. f_equal; apply bits_ext; intros i Hi.
  - rewrite Z.shiftr_spec, !Z.lor_spec, testbit_sw, testbit_shiftl, Z.shiftr_spec by lia. do 2 f_equal. lia.
  - rewrite Z.lor_spec, testbit_sw, testbit_shiftl_low by lia. done.
Qed.

Lemma bits_push_sw w k c a b : Z.of_nat (k + c) <= w -> 0 <= b < 2 ^ Z.of_nat c ->
  bits (k + c) (sw w (sw w (a << Z.of_nat c) .| b)) = bits k a ++ bits c b.
Proof.
  intros Hw Hb. rewrite bits_push_over by done.
  by rewrite Z.shiftr_div_pow2, Z.div_small, Z.lor_0_r by lia.
Qed.

(** The top 32 bits of a word shifted left so that its [q] pending bits come first. *)
Lemma bits_top w left cur n : 0 <= left -> Z.of_nat n <= w - left ->
  bits n (sw w (cur << left) >> (w - Z.of_nat n)) = bits n (cur >> (w - left - Z.of_nat n)).
Proof.
  intros Hl Hw. apply bits_ext. intros i Hi.
  rewrite !Z.shiftr_spec, testbit_sw, testbit_shiftl by lia. f_equal. lia.
Qed.

Lemma stream_group s (cur left : Z) : bs_wf s ->
  0 <= left <= 8 * WORD_SIZE - 32 ->
  stream {| p_start := p_start s; p := p s + 4; p_end := p_end s; cur_bits := cur;
            i_left := left + 32; i_bits_encoded := i_bits_encoded s;
            bs_mem := st32 (bs_mem s) (p s) (endian_fix WORD_SIZE (sword WORD_SIZE (cur << left))) |}
  = bytes_bits (written s) ++ bits (Z.to_nat (8 * WORD_SIZE - left)) cur.
Proof.
  intros [Hp _] Hl. unfold stream, Bs.stream, written, pending, st32, sword; bs_simpl.
  rewrite le_bytes_group.
  rewrite (written_store (p_start s) (p s) 4) by
    (try apply be_bytes_range; try rewrite length_be_bytes; lia).
  rewrite bytes_bits_app. change (Z.to_nat 4) with (length (be_bytes 4 (sw (8 * WORD_SIZE) (cur << left) >> (8 * WORD_SIZE - 32)))).
  rewrite firstn_all, be_bytes_bits, <- app_assoc.
  change (8 * 4)%nat with 32%nat. f_equal.
  change 32 with (Z.of_nat 32) at 1. rewrite bits_top by lia.
  replace (Z.to_nat (8 * WORD_SIZE - left))
    with (32 + Z.to_nat (8 * WORD_SIZE - (left + 32)))%nat by lia.
  rewrite bits_add. f_equal. f_equal. f_equal. lia.
Qed.

(** What the bits above the code word fall on: nothing changes if the pending bits have them. *)
Definition over_ok (s : bs_t) (h : Z) : Prop :=
  bits (pending WORD_SIZE s) (cur_bits s .| h) = bits (pending WORD_SIZE s) (cur_bits s).

(** Writing a code word appends exactly its bits to the stream. *)
Lemma bs_write_over s i_count i_bits :
  bs_wf s -> 0 <= i_count <= max_count WORD_SIZE -> over_ok s (i_bits >> i_count) ->
  bs_wf (bs_write WORD_SIZE s i_count i_bits) /\
  stream (bs_write WORD_SIZE s i_count i_bits) = stream s ++ bits (Z.to_nat i_count) i_bits.
Proof.
  intros Hwf Hc Hb. pose proof Hwf as [Hp Hl]. unfold bs_write, max_count in *.
  destruct (Z.eqb_spec WORD_SIZE 8) as [E|E].
  - set (cur := sword _ _).
    assert (bits (pending WORD_SIZE s + Z.to_nat i_count) cur =
            bits (pending WORD_SIZE s) (cur_bits s) ++ bits (Z.to_nat i_count) i_bits) as Hcur.
    { unfold cur, sword. rewrite <- (Z2Nat.id i_count) at 2 by lia.
      rewrite bits_push_over by (unfold pending; lia). by rewrite Z2Nat.id, Hb by lia. }
    assert (stream s ++ bits (Z.to_nat i_count) i_bits = bytes_bits (written s)
      ++ bits (pending WORD_SIZE s + Z.to_nat i_count) cur) as ->.
    { unfold stream, Bs.stream. by rewrite <- app_assoc, <- Hcur. }
    destruct (Z.leb_spec (i_left s - i_count) 32).
    + split; [split; bs_simpl; lia|]. rewrite stream_group by (done || lia).
      do 2 f_equal. unfold pending. lia.
    + split; [split; bs_simpl; lia|]. unfold stream, Bs.stream, written; bs_simpl.
      do 2 f_equal. unfold pending; bs_simpl. lia.
  - assert (WORD_SIZE = 4) as E4 by (destruct word_ok; lia).
    destruct (Z.ltb_spec i_count (i_left s)).
    + split; [split; bs_simpl; lia|]. unfold stream, Bs.stream, written; bs_simpl.
      rewrite <- app_assoc. f_equal. unfold sword.
      rewrite <- (Z2Nat.id i_count) at 1 3 by lia.
      replace (pending _ _) with (pending WORD_SIZE s + Z.to_nat i_count)%nat
        by (unfold pending; bs_simpl; lia).
      rewrite bits_push_over by (unfold pending; lia). by rewrite Z2Nat.id, Hb by lia.
    + split; [split; bs_simpl; lia|].
      set (left := i_left s) in *. set (c := i_count - left).
      set (cur := sword WORD_SIZE (_ .| _)).
      assert (bits 32 cur = bits (pending WORD_SIZE s) (cur_bits s)
                 ++ bits (Z.to_nat left) (i_bits >> c)) as Hcur.
      { unfold cur, sword. rewrite <- (Z2Nat.id left) at 1 by lia.
        replace 32%nat with (pending WORD_SIZE s + Z.to_nat left)%nat by (unfold pending; lia).
        rewrite bits_push_over, Z2Nat.id by (unfold pending; lia).
        rewrite Z.shiftr_shiftr by lia. replace (c + left) with i_count by lia. by rewrite Hb. }
      unfold stream, Bs.stream, written; bs_simpl. unfold st32. rewrite le_bytes_group.
      rewrite E4 at 1. change (8 * 4 - 32) with 0. rewrite Z.shiftr_0_r.
      rewrite (written_store (p_start s) (p s) 4) by
        (try apply be_bytes_range; try rewrite length_be_bytes; lia).
      rewrite bytes_bits_app, <- !app_assoc. f_equal.
      change (take (Z.to_nat 4) (be_bytes 4 cur)) with (be_bytes 4 cur).
      rewrite be_bytes_bits. change (8 * 4)%nat with 32%nat. rewrite Hcur, <- app_assoc.
      f_equal. replace (Z.to_nat i_count) with (Z.to_nat left + Z.to_nat c)%nat by lia.
      rewrite bits_add, Z2Nat.id by lia. f_equal.
      replace (pending _ _) with (Z.to_nat c) by (unfold pending; bs_simpl; lia).
      apply bits_sw. lia.
Qed.

Lemma over_ok_0 s : over_ok s 0.
Proof. unfold over_ok. by rewrite Z.lor_0_r. Qed.

Lemma bs_write_stream s i_count i_bits :
  bs_wf s -> 0 <= i_count <= max_count WORD_SIZE -> 0 <= i_bits < 2 ^ i_count ->
  bs_wf (bs_write WORD_SIZE s i_count i_bits) /\
  stream (bs_write WORD_SIZE s i_count i_bits) = stream s ++ bits (Z.to_nat i_count) i_bits.
Proof.
  intros Hwf Hc Hb. apply bs_write_over; [done|done|].
  rewrite Z.shiftr_div_pow2, Z.div_small by lia. apply over_ok_0.
Qed.

(** The bits just written may be written over with themselves. *)
Lemma over_ok_self s l n h : stream s = l ++ bits n h -> 0 <= h < 2 ^ Z.of_nat n -> over_ok s h.
Proof.
  intros E Hh. unfold over_ok. apply bits_ext. intros i Hi. rewrite Z.lor_spec.
  destruct (Z.lt_ge_cases i (Z.of_nat n)) as [Hlt|Hge].
  - set (m := Nat.min (pending WORD_SIZE s) n). unfold stream, Bs.stream in E.
    replace (pending WORD_SIZE s) with ((pending WORD_SIZE s - m) + m)%nat in E by lia.
    replace n with ((n - m) + m)%nat in E by lia. rewrite !bits_add, !app_assoc in E.
    apply app_inj_2 in E as [_ E]; [|by rewrite !length_bits].
    rewrite (bits_testbit _ _ _ i E) by lia. apply orb_diag.
  - rewrite (testbit_high h (Z.of_nat n)) by lia. apply orb_false_r.
Qed.

(** [bs_write32] does not mask the first half when it writes the second. *)
Lemma bs_write32_stream s v : bs_wf s -> 0 <= v < 2 ^ 32 ->
  bs_wf (bs_write32 WORD_SIZE s v) /\ stream (bs_write32 WORD_SIZE s v) = stream s ++ bits 32 v.
Proof.
  intros Hs Hv. unfold bs_write32.
  assert (0 <= v >> 16 < 2 ^ 16) as Hh.
  { rewrite Z.shiftr_div_pow2 by lia. split; [apply Z.div_pos; lia|apply Z.div_lt_upper_bound; lia]. }
  assert (0 <= 16 <= max_count WORD_SIZE) as Hm by (unfold max_count; destruct (_ =? _); lia).
  destruct (bs_write_stream s 16 (v >> 16) Hs Hm Hh) as [H1 E1].
  destruct (bs_write_over _ 16 v H1 Hm) as [H2 E2].
  { apply (over_ok_self _ (stream s) 16); [exact E1|exact Hh]. }
  split; [exact H2|]. rewrite E2, E1, <- app_assoc. f_equal.
  change 32%nat with (16 + 16)%nat. by rewrite bits_add.
Qed.

(** Writing a single bit. *)
Lemma bs_write1_stream s b :
  bs_wf s -> 0 <= b < 2 ->
  bs_wf (bs_write1 WORD_SIZE s b) /\ stream (bs_write1 WORD_SIZE s b) = stream s ++ bits 1 b.
Proof.
  intros Hwf Hb. pose proof Hwf as [Hp Hl]. unfold bs_write1.
  set (cur := sword WORD_SIZE (_ .| _)).
  assert (stream s ++ bits 1 b = bytes_bits (written s)
            ++ bits (pending WORD_SIZE s + 1) cur) as ->.
  { unfold stream, Bs.stream. rewrite <- app_assoc. f_equal. unfold cur, sword.
    symmetry. apply (bits_push_sw (8 * WORD_SIZE) _ 1); [unfold pending; lia|].
    change (2 ^ Z.of_nat 1) with 2. lia. }
  destruct (Z.eqb_spec (i_left s - 1) (WORD_SIZE * 8 - 32)) as [E|E].
  - split; [split; bs_simpl; lia|]. unfold stream, Bs.stream, written; bs_simpl.
    unfold st32. rewrite le_bytes_endian_fix32.
    rewrite (written_store (p_start s) (p s) 4) by
      (try apply be_bytes_range; try rewrite length_be_bytes; lia).
    change (take (Z.to_nat 4) (be_bytes 4 cur)) with (be_bytes 4 cur).
    rewrite bytes_bits_app, be_bytes_bits, <- app_assoc. f_equal.
    change (8 * 4)%nat with 32%nat.
    replace (pending WORD_SIZE s + 1)%nat with 32%nat by (unfold pending; lia).
    replace (pending _ _) with 0%nat by (unfold pending; bs_simpl; lia).
    apply app_nil_r.
  - split; [split; bs_simpl; lia|]. unfold stream, Bs.stream, written; bs_simpl.
    do 2 f_equal. unfold pending; bs_simpl. lia.
Qed.

(** Flushing pads the stream with zero bits up to a byte boundary and leaves
    nothing pending. *)
Lemma bs_flush_stream s :
  p_start s <= p s -> 8 * WORD_SIZE - 32 <= i_left s <= 8 * WORD_SIZE ->
  bs_wf (bs_flush WORD_SIZE s) /\ pending WORD_SIZE (bs_flush WORD_SIZE s) = 0%nat /\
  stream (bs_flush WORD_SIZE s) = stream s ++ replicate (Z.to_nat (i_left s mod 8)) false.
Proof.
  intros Hp Hl. unfold bs_flush.
  pose proof (Z.div_mod (i_left s) 8) as D. pose proof (Z.mod_pos_bound (i_left s) 8).
  assert (0 <= i_left s / 8 <= WORD_SIZE) as Hd.
  { destruct word_ok; subst WORD_SIZE; lia. }
  split; [split; bs_simpl; lia|]. split; [unfold pending; bs_simpl; lia|].
  unfold stream, Bs.stream, written; bs_simpl. unfold st_word. rewrite le_bytes_word.
  rewrite (written_store (p_start s) (p s)) by
    (try apply be_bytes_range; try rewrite length_be_bytes; lia).
  rewrite bytes_bits_app, be_bytes_firstn, be_bytes_bits, <- !app_assoc by lia. f_equal.
  replace (pending _ {| p_start := _ |}) with 0%nat by (unfold pending; bs_simpl; lia).
  rewrite app_nil_r, <- bits_0.
  replace (8 * Z.to_nat (WORD_SIZE - i_left s / 8))%nat
    with (pending WORD_SIZE s + Z.to_nat (i_left s mod 8))%nat by (unfold pending; lia).
  rewrite <- bits_shiftl. apply bits_ext. intros i Hi. unfold sword, pending in *.
  rewrite Z.shiftr_spec, testbit_sw, Z.shiftl_spec, Z.shiftl_spec by lia. f_equal. lia.
Qed.

(** Filling [r] of the free bits of [cur_bits] without storing. *)
Lemma set_cur_stream s r b :
  bs_wf s -> 0 <= r <= i_left s -> 0 <= b < 2 ^ r ->
  stream (set_cur s (sword WORD_SIZE (sword WORD_SIZE (cur_bits s << r) .| b)) (i_left s - r))
  = stream s ++ bits (Z.to_nat r) b.
Proof.
  intros [Hp Hl] Hr Hb. unfold stream, Bs.stream, written, set_cur; bs_simpl.
  rewrite <- app_assoc. f_equal. unfold sword.
  replace (pending _ {| p_start := _ |}) with (pending WORD_SIZE s + Z.to_nat r)%nat
    by (unfold pending; bs_simpl; lia).
  pose proof (bits_push_sw (8 * WORD_SIZE) (pending WORD_SIZE s) (Z.to_nat r) (cur_bits s) b) as X.
  rewrite Z2Nat.id in X by lia. apply X; [unfold pending|]; lia.
Qed.

Lemma land_7 x : x .& 7 = x mod 8.
Proof. exact (Z.land_ones x 3 ltac:(lia)). Qed.

Lemma land_not_7 x : x .& Z.lnot 7 = x - x mod 8.
Proof.
  change 7 with (Z.ones 3). rewrite <- Z.ldiff_land, Z.ldiff_ones_r by lia.
  rewrite Z.shiftr_div_pow2, Z.shiftl_mul_pow2 by lia. change (2 ^ 3) with 8.
  pose proof (Z.div_mod x 8). lia.
Qed.

Lemma sword_shiftl_lor_0 x : sword WORD_SIZE x = sword WORD_SIZE (sword WORD_SIZE x .| 0).
Proof.
  rewrite Z.lor_0_r. unfold sword. apply sw_uw.
  destruct word_ok; subst; rewrite sw_mod by lia; done.
Qed.

(** Aligning fills the last byte with zero (one) bits and stores it. *)
Lemma bs_align_stream s (one : bool) :
  bs_wf s ->
  let s' := if one then bs_align_1 WORD_SIZE s else bs_align_0 WORD_SIZE s in
  bs_wf s' /\ pending WORD_SIZE s' = 0%nat /\
  stream s' = stream s ++ replicate (Z.to_nat (i_left s mod 8)) one.
Proof.
  intros Hwf. pose proof Hwf as [Hp Hl]. unfold bs_align_0, bs_align_1. cbv zeta.
  rewrite land_7, land_not_7. set (r := i_left s mod 8) in *.
  assert (0 <= r < 8) as Hr by (apply Z.mod_pos_bound; lia).
  assert ((i_left s - r) mod 8 = 0) as Hr0.
  { unfold r. pose proof (Z.div_mod (i_left s) 8).
    symmetry. apply (Z.mod_unique _ _ (i_left s / 8)); lia. }
  assert (8 * WORD_SIZE - 32 <= i_left s - r) as Hmin.
  { pose proof (Z.div_mod (i_left s) 8). pose proof (Z.div_mod (i_left s - r) 8).
    destruct word_ok; subst WORD_SIZE; lia. }
  unfold i2b. destruct (Z.eqb_spec r 0) as [E|E]; cbn [negb].
  - destruct (bs_flush_stream s) as (H1 & H2 & H3); [lia|lia|]. fold r in H3.
    rewrite E in H3. rewrite E. by destruct one.
  - set (ones := if one then 2 ^ r - 1 else 0).
    assert (0 <= ones < 2 ^ r) as Hones by (pose proof (pow2_pos r); unfold ones; destruct one; lia).
    assert (bits (Z.to_nat r) ones = replicate (Z.to_nat r) one) as Hb.
    { unfold ones. destruct one; [|apply bits_0].
      rewrite <- (Z2Nat.id r) at 2 by lia. apply bits_ones. }
    pose proof (set_cur_stream s r ones Hwf ltac:(lia) Hones) as Hs.
    set (s1 := set_cur _ _ _) in Hs.
    replace (if one then _ else _) with (bs_flush WORD_SIZE s1).
    2: { unfold s1, ones. destruct one.
         - by rewrite Z.shiftl_1_l.
         - by rewrite <- sword_shiftl_lor_0. }
    destruct (bs_flush_stream s1) as (H1 & H2 & H3); [done|unfold s1, set_cur; bs_simpl; lia|].
    split; [done|]. split; [done|]. rewrite H3, Hs, Hb.
    unfold s1, set_cur; bs_simpl. rewrite Hr0. apply app_nil_r.
Qed.
End Refinement.

(** * Exponential Golomb codes and their reader

    The reader of a Golomb code, as the standard defines it: count the zero bits
    before the first one bit, then read as many bits after it. *)
Fixpoint read_ue_from (zeros : nat) (l : list bool) : option (Z * list bool) :=
  match l with
  | [] => None
  | false :: l => read_ue_from (S zeros) l
  | true :: l =>
      if (length l <? zeros)%nat then None
      else Some (2 ^ Z.of_nat zeros + bits_val (take zeros l) - 1, drop zeros l)
  end.
Definition read_ue : list bool -> option (Z * list bool) := read_ue_from 0.

(** The signed mapping: code 1, 2, 3, 4, ... stands for 1, -1, 2, -2, ... *)
Definition read_se (l : list bool) : option (Z * list bool) :=
  match read_ue l with
  | Some (k, rest) => Some (if Z.odd k then (k + 1) / 2 else - (k / 2), rest)
  | None => None
  end.

(** A truncated code of range [x]: one inverted bit when the range is 1. *)
Definition read_te (x : Z) (l : list bool) : option (Z * list bool) :=
  if x =? 1 then
    match l with
    | b :: rest => Some (b2i (negb b), rest)
    | [] => None
    end
  else read_ue l.

(** [s'] is [s] with a code word of [size] bits appended that [read] takes back
    to [val], whatever follows. *)
Definition appends (WORD_SIZE : Z) (read : list bool -> option (Z * list bool))
    (s s' : bs_t) (val size : Z) : Prop :=
  bs_wf WORD_SIZE s' /\
  exists c, stream WORD_SIZE s' = stream WORD_SIZE s ++ c /\ Z.of_nat (length c) = size /\
    forall rest, read (c ++ rest) = Some (val, rest).

(** The Golomb code word of [v >= 1]: as many zeros as [v] has bits after its
    leading one, then [v]. *)
Lemma bits_leading k v : 2 ^ Z.of_nat k <= v < 2 ^ (Z.of_nat k + 1) ->
  bits (S k) v = true :: bits k v.
Proof.
  intros Hv. cbn [bits]. f_equal. rewrite Z.pow_add_r in Hv by lia.
  apply Z.testbit_true; [lia|].
  replace (v / 2 ^ Z.of_nat k) with 1; [done|].
  apply (Z.div_unique _ _ _ (v - 2 ^ Z.of_nat k)); lia.
Qed.

Lemma golomb_bits k v : 2 ^ Z.of_nat k <= v < 2 ^ (Z.of_nat k + 1) ->
  bits (k + S k) v = replicate k false ++ true :: bits k v.
Proof.
  intros Hv. rewrite <- bits_leading, bits_add by done. f_equal.
  rewrite Z.shiftr_div_pow2, Z.div_small, bits_0 by
    (pose proof (pow2_pos (Z.of_nat k)); replace (Z.of_nat (S k)) with (Z.of_nat k + 1) by lia; lia).
  done.
Qed.

Lemma read_ue_from_zeros n k l : read_ue_from n (replicate k false ++ l) = read_ue_from (n + k) l.
Proof.
  revert n. induction k as [|k IH]; intros n; cbn [replicate app read_ue_from].
  - f_equal. lia.
  - rewrite IH. f_equal. lia.
Qed.

Lemma read_ue_golomb k v rest : 2 ^ Z.of_nat k <= v < 2 ^ (Z.of_nat k + 1) ->
  read_ue (bits (k + S k) v ++ rest) = Some (v - 1, rest).
Proof.
  intros Hv. rewrite golomb_bits, <- app_assoc by done. unfold read_ue.
  rewrite read_ue_from_zeros. cbn [app read_ue_from]. rewrite Nat.add_0_l.
  replace (_ <? _)%nat with false
    by (symmetry; apply Nat.ltb_ge; rewrite length_app, length_bits; lia).
  rewrite take_app_length', drop_app_length' by (by rewrite length_bits).
  rewrite bits_val_bits. do 3 f_equal.
  rewrite Z.pow_add_r in Hv by lia.
  replace (v mod 2 ^ Z.of_nat k) with (v - 2 ^ Z.of_nat k); [lia|].
  apply (Z.mod_unique _ _ 1); lia.
Qed.

(** The table of code sizes is the size of the Golomb code. *)
Lemma ue_size_spec v : 1 <= v < 256 -> ue_size v = 2 * Z.log2 v + 1.
Proof.
  intros Hv. apply Z.eqb_eq.
  apply (all_range_spec 1 255 (fun v => ue_size v =? 2 * Z.log2 v + 1)); [|lia].
  vm_compute. reflexivity.
Qed.

Lemma log2_nat v : 1 <= v -> exists k, Z.log2 v = Z.of_nat k /\
  2 ^ Z.of_nat k <= v < 2 ^ (Z.of_nat k + 1).
Proof.
  intros Hv. exists (Z.to_nat (Z.log2 v)). pose proof (Z.log2_nonneg v).
  rewrite Z2Nat.id by lia. split; [done|]. apply Z.log2_spec. lia.
Qed.

Lemma ue_size_shift n v : 0 <= n -> 2 ^ n <= v < 2 ^ (n + 8) ->
  ue_size (v >> n) = 2 * (Z.log2 v - n) + 1.
Proof.
  intros Hn Hv. rewrite ue_size_spec.
  - rewrite Z.log2_shiftr by (pose proof (pow2_pos n); lia).
    rewrite Z.max_r; [done|]. assert (n <= Z.log2 v); [|lia].
    apply Z.log2_le_pow2; [pose proof (pow2_pos n); lia | lia].
  - rewrite Z.shiftr_div_pow2 by lia. rewrite Z.pow_add_r in Hv by lia.
    split; [apply Z.div_le_lower_bound; [pose proof (pow2_pos n)|]; lia|].
    apply Z.div_lt_upper_bound; [pose proof (pow2_pos n)|]; lia.
Qed.

Section GolombRefinement.
Context (WORD_SIZE : Z) (word_ok : WORD_SIZE = 4 \/ WORD_SIZE = 8).
Local Abbreviation stream := (stream WORD_SIZE).
Local Abbreviation bs_wf := (bs_wf WORD_SIZE).
Local Abbreviation appends := (appends WORD_SIZE).

Lemma max_count_31 : 31 <= max_count WORD_SIZE.
Proof. unfold max_count. destruct (WORD_SIZE =? 8); lia. Qed.

(** One write of the whole code word. *)
Lemma write_golomb s k v : bs_wf s -> (k < 16)%nat ->
  2 ^ Z.of_nat k <= v < 2 ^ (Z.of_nat k + 1) ->
  appends read_ue s (bs_write WORD_SIZE s (2 * Z.of_nat k + 1) v) (v - 1) (2 * Z.of_nat k + 1).
Proof.
  intros Hs Hk Hv. pose proof max_count_31.
  destruct (bs_write_stream WORD_SIZE word_ok s (2 * Z.of_nat k + 1) v) as [Hw Hst]; [done|lia| |].
  { split; [pose proof (pow2_pos (Z.of_nat k)); lia|].
    apply Z.lt_le_trans with (2 ^ (Z.of_nat k + 1)); [lia|]. apply Z.pow_le_mono_r; lia. }
  split; [done|]. eexists. split; [exact Hst|].
  rewrite length_bits. split; [lia|]. intros rest.
  replace (Z.to_nat (2 * Z.of_nat k + 1)) with (k + S k)%nat by lia.
  by apply read_ue_golomb.
Qed.

(** Zeros first, then the value: the two writes of [bs_write_ue_big]. *)
Lemma write_golomb_big s k v : bs_wf s -> (k < 31)%nat ->
  2 ^ Z.of_nat k <= v < 2 ^ (Z.of_nat k + 1) ->
  appends read_ue s (bs_write WORD_SIZE (bs_write WORD_SIZE s (Z.of_nat k) 0) (Z.of_nat k + 1) v)
    (v - 1) (2 * Z.of_nat k + 1).
Proof.
  intros Hs Hk Hv. pose proof max_count_31. pose proof (pow2_pos (Z.of_nat k)).
  destruct (bs_write_stream WORD_SIZE word_ok s (Z.of_nat k) 0) as [H1 S1]; [done|lia|lia|].
  destruct (bs_write_stream WORD_SIZE word_ok _ (Z.of_nat k + 1) v H1) as [H2 S2]; [lia|lia|].
  split; [done|]. exists (bits (k + S k) v). split; [|split].
  - rewrite S2, S1, <- app_assoc. f_equal. rewrite golomb_bits, <- bits_leading by done.
    rewrite Nat2Z.id, bits_0. do 2 f_equal. lia.
  - rewrite length_bits. lia.
  - intros rest. by apply read_ue_golomb.
Qed.

Lemma bs_write_ue_appends s val :
  bs_wf s -> 0 <= val < 255 ->
  appends read_ue s (bs_write_ue WORD_SIZE s val) val (bs_size_ue val).
Proof.
  intros Hs Hv. unfold bs_write_ue, bs_size_ue.
  destruct (log2_nat (val + 1)) as (k & Hk & Hr); [lia|].
  rewrite ue_size_spec, Hk, uw_small by lia.
  replace val with (val + 1 - 1) at 2 by lia. apply write_golomb; [done| |done].
  assert (Z.of_nat k < 8); [|lia]. rewrite <- Hk. apply Z.log2_lt_pow2; lia.
Qed.

Lemma ue_big_size val : 0 <= val < 65535 ->
  bs_size_ue_big val = 2 * Z.log2 (val + 1) + 1.
Proof.
  intros Hv. unfold bs_size_ue_big. destruct (Z.ltb_spec val 255).
  - apply ue_size_spec. lia.
  - rewrite (ue_size_shift 8) by lia. lia.
Qed.

Lemma bs_write_ue_big_appends s val :
  bs_wf s -> 0 <= val < 2 ^ 31 - 1 ->
  appends read_ue s (bs_write_ue_big WORD_SIZE s val) val (2 * Z.log2 (val + 1) + 1) /\
  (val < 65535 -> bs_size_ue_big val = 2 * Z.log2 (val + 1) + 1).
Proof.
  intros Hs Hv. split; [|intros; apply ue_big_size; lia].
  unfold bs_write_ue_big. rewrite uw_small, sw_small by (simpl; lia).
  destruct (log2_nat (val + 1)) as (k & Hk & Hr); [lia|].
  assert (Z.of_nat k < 31) by (rewrite <- Hk; apply Z.log2_lt_pow2; lia).
  set (v := val + 1) in *.
  assert (forall w, w = 2 * Z.of_nat k + 1 ->
    appends read_ue s (bs_write WORD_SIZE (bs_write WORD_SIZE s (w >> 1) 0) ((w >> 1) + 1) v)
      val (2 * Z.log2 v + 1)) as Hfin.
  { intros w ->. rewrite Hk. replace val with (v - 1) by lia.
    replace ((2 * Z.of_nat k + 1) >> 1) with (Z.of_nat k).
    - apply write_golomb_big; [done|lia|done].
    - rewrite Z.shiftr_div_pow2 by lia. change (2 ^ 1) with 2.
      apply (Z.div_unique _ _ _ 1); lia. }
  destruct (Z.geb_spec v 0x10000) as [H1|H1].
  - destruct (Z.geb_spec (v >> 16) 0x100) as [H2|H2]; apply Hfin; rewrite <- Hk.
    + rewrite Z.shiftr_div_pow2 in H2 by lia.
      assert (2 ^ 24 <= v).
      { pose proof (Z.mul_div_le v (2 ^ 16)). lia. }
      rewrite Z.shiftr_shiftr, (ue_size_shift (16 + 8)) by lia. lia.
    + rewrite Z.shiftr_div_pow2 in H2 by lia.
      assert (v < 2 ^ 24).
      { pose proof (Z.mul_succ_div_gt v (2 ^ 16)). lia. }
      rewrite (ue_size_shift 16) by lia. lia.
  - destruct (Z.geb_spec v 0x100) as [H2|H2]; apply Hfin; rewrite <- Hk.
    + rewrite (ue_size_shift 8) by lia. lia.
    + rewrite ue_size_spec by lia. lia.
Qed.

Lemma read_se_of_ue l k rest v :
  read_ue l = Some (k, rest) ->
  v = (if Z.odd k then (k + 1) / 2 else - (k / 2)) -> read_se l = Some (v, rest).
Proof. intros H ->. unfold read_se. by rewrite H. Qed.

(** The signed value is recovered from its code number. *)
Lemma se_code val : let k := if val <=? 0 then - val * 2 else val * 2 - 1 in
  0 <= k /\ val = if Z.odd k then (k + 1) / 2 else - (k / 2).
Proof.
  cbv zeta. destruct (Z.leb_spec val 0).
  - replace (- val * 2) with (2 * - val) by lia. rewrite Z.odd_mul. cbn [Z.odd andb].
    rewrite (Z.mul_comm 2), Z.div_mul by lia. lia.
  - replace (val * 2 - 1) with (2 * (val - 1) + 1) by lia.
    rewrite Z.odd_add, Z.odd_mul. cbn [Z.odd andb xorb].
    replace (2 * (val - 1) + 1 + 1) with (val * 2) by lia. rewrite Z.div_mul by lia. lia.
Qed.

Lemma bs_write_se_appends s val :
  bs_wf s -> - 32767 <= val <= 32767 ->
  appends read_se s (bs_write_se WORD_SIZE s val) val (bs_size_se val).
Proof.
  intros Hs Hv. destruct (se_code val) as [Hk0 Hval]. cbv zeta in *.
  set (c := if val <=? 0 then - val * 2 else val * 2 - 1) in *.
  assert (0 <= c < 65535) as Hc by (unfold c; destruct (Z.leb_spec val 0); lia).
  unfold bs_write_se, bs_size_se. fold c. rewrite (uw_small 32 c) by lia.
  replace (if val <=? 0 then - val * 2 + 1 else val * 2) with (c + 1)
    by (unfold c; destruct (Z.leb_spec val 0); lia).
  rewrite ue_big_size, (uw_small 32 (c + 1)) by lia.
  destruct (log2_nat (c + 1)) as (k & Hk & Hr); [lia|].
  assert (Z.of_nat k < 16) by (rewrite <- Hk; apply Z.log2_lt_pow2; lia).
  assert (appends read_ue s (bs_write WORD_SIZE s (2 * Z.of_nat k + 1) (c + 1))
    c (2 * Z.of_nat k + 1)) as [Hw (w & S1 & S2 & S3)].
  { replace c with (c + 1 - 1) at 2 by lia. apply write_golomb; [done|lia|done]. }
  assert (appends read_se s (bs_write WORD_SIZE s (2 * Z.of_nat k + 1) (c + 1))
    val (2 * Z.of_nat k + 1)) as Hfin.
  { split; [done|]. exists w. split; [done|]. split; [done|]. intros rest.
    by apply (read_se_of_ue _ c). }
  rewrite Hk. destruct (Z.geb_spec (c + 1) 0x100).
  - rewrite (ue_size_shift 8) by lia.
    replace (16 + (2 * (Z.log2 (c + 1) - 8) + 1)) with (2 * Z.of_nat k + 1) by lia. done.
  - rewrite ue_size_spec by lia.
    replace (0 + (2 * Z.log2 (c + 1) + 1)) with (2 * Z.of_nat k + 1) by lia. done.
Qed.

Lemma bs_write_te_appends s x val :
  bs_wf s -> 1 <= x -> 0 <= val < 255 -> val <= x ->
  appends (read_te x) s (bs_write_te WORD_SIZE s x val) val (bs_size_te x val).
Proof.
  intros Hs Hx Hv Hvx. unfold bs_write_te, bs_size_te, read_te.
  destruct (Z.eqb_spec x 1) as [->|Hne].
  - assert (val = 0 \/ val = 1) as Hb by lia.
    destruct (bs_write1_stream WORD_SIZE word_ok s (1 - val)) as [H1 S1]; [done|lia|].
    replace (u32 (1 .^ val)) with (1 - val) by (destruct Hb; subst; done).
    split; [done|]. exists (bits 1 (1 - val)). split; [done|]. split; [done|].
    intros rest. destruct Hb; subst; done.
  - replace (x >? 1) with true by (symmetry; apply Z.gtb_lt; lia).
    apply bs_write_ue_appends; [done|lia].
Qed.

(** ** Sequences of syntax elements

    What the header and macroblock writers do is a sequence of these calls. *)
Inductive element :=
  | U (i_count i_bits : Z)      (* bs_write *)
  | U1 (i_bit : Z)              (* bs_write1 *)
  | UE (val : Z)                (* bs_write_ue *)
  | UE_big (val : Z)            (* bs_write_ue_big *)
  | SE (val : Z)                (* bs_write_se *)
  | TE (x val : Z).             (* bs_write_te *)

Definition element_ok (e : element) : Prop :=
  match e with
  | U n v => 0 <= n <= 31 /\ 0 <= v < 2 ^ n
  | U1 b => 0 <= b < 2
  | UE v => 0 <= v < 255
  | UE_big v => 0 <= v < 2 ^ 31 - 1
  | SE v => - 32767 <= v <= 32767
  | TE x v => 1 <= x /\ 0 <= v < 255 /\ v <= x
  end.

Definition write_element (s : bs_t) (e : element) : bs_t :=
  match e with
  | U n v => Bs.bs_write WORD_SIZE s n v
  | U1 b => bs_write1 WORD_SIZE s b
  | UE v => bs_write_ue WORD_SIZE s v
  | UE_big v => bs_write_ue_big WORD_SIZE s v
  | SE v => bs_write_se WORD_SIZE s v
  | TE x v => bs_write_te WORD_SIZE s x v
  end.

Definition read_u (n : nat) (l : list bool) : option (Z * list bool) :=
  if (length l <? n)%nat then None else Some (bits_val (take n l), drop n l).

(** The reader knows the kind of each element, not its value. *)
Definition read_element (e : element) (l : list bool) : option (Z * list bool) :=
  match e with
  | U n _ => read_u (Z.to_nat n) l
  | U1 _ => read_u 1 l
  | UE _ | UE_big _ => read_ue l
  | SE _ => read_se l
  | TE x _ => read_te x l
  end.

Definition element_val (e : element) : Z :=
  match e with
  | U _ v | U1 v | UE v | UE_big v | SE v | TE _ v => v
  end.

Fixpoint read_elements (es : list element) (l : list bool) : option (list Z * list bool) :=
  match es with
  | [] => Some ([], l)
  | e :: es =>
      match read_element e l with
      | Some (v, l) =>
          match read_elements es l with
          | Some (vs, l) => Some (v :: vs, l)
          | None => None
          end
      | None => None
      end
  end.

Lemma read_u_bits n v rest : 0 <= v < 2 ^ Z.of_nat n ->
  read_u n (bits n v ++ rest) = Some (v, rest).
Proof.
  intros Hv. unfold read_u.
  replace (_ <? _)%nat with false
    by (symmetry; apply Nat.ltb_ge; rewrite length_app, length_bits; lia).
  rewrite take_app_length', drop_app_length' by (by rewrite length_bits).
  by rewrite bits_val_bits, Z.mod_small.
Qed.

Lemma write_element_appends s e : bs_wf s -> element_ok e ->
  exists size, appends (read_element e) s (write_element s e) (element_val e) size.
Proof.
  intros Hs He. pose proof max_count_31.
  destruct e; cbn [element_ok write_element read_element element_val] in *.
  - destruct (bs_write_stream WORD_SIZE word_ok s i_count i_bits0) as [H1 S1]; [done|lia|lia|].
    exists (Z.of_nat (length (bits (Z.to_nat i_count) i_bits0))). split; [done|]. eexists. split; [exact S1|].
    split; [done|]. intros rest. apply read_u_bits. rewrite Z2Nat.id by lia. lia.
  - destruct (bs_write1_stream WORD_SIZE word_ok s i_bit) as [H1 S1]; [done|lia|].
    exists 1. split; [done|]. eexists. split; [exact S1|]. split; [done|].
    intros rest. apply (read_u_bits 1). simpl. lia.
  - eexists. by apply bs_write_ue_appends.
  - eexists. by apply bs_write_ue_big_appends.
  - eexists. by apply bs_write_se_appends.
  - eexists. apply bs_write_te_appends; tauto.
Qed.

Lemma write_elements_appends s es : bs_wf s -> Forall element_ok es ->
  bs_wf (fold_left write_element es s) /\
  exists c, stream (fold_left write_element es s) = stream s ++ c /\
    forall rest, read_elements es (c ++ rest) = Some (map element_val es, rest).
Proof.
  intros Hs Hes. revert s Hs. induction Hes as [|e es He Hes IH]; intros s Hs.
  - split; [done|]. exists []. split; [by rewrite app_nil_r|done].
  - destruct (write_element_appends s e Hs He) as (size & Hs1 & c1 & E1 & _ & R1).
    destruct (IH _ Hs1) as (Hs2 & c2 & E2 & R2).
    split; [exact Hs2|]. exists (c1 ++ c2). split; [by rewrite app_assoc, <- E1|].
    intros rest. rewrite <- app_assoc. cbn [read_elements map]. by rewrite R1, R2.
Qed.

Lemma rbsp_elements s es :
  bs_wf s -> pending WORD_SIZE s = 0%nat -> Forall element_ok es ->
  let s' := bs_rbsp_trailing WORD_SIZE (fold_left write_element es s) in
  bs_wf s' /\ pending WORD_SIZE s' = 0%nat /\
  exists c n, bytes_bits (written s') = bytes_bits (written s) ++ c ++ true :: replicate n false /\
    (n < 8)%nat /\
    forall rest, read_elements es (c ++ rest) = Some (map element_val es, rest).
Proof.
  intros Hs Hp Hes. cbv zeta.
  destruct (write_elements_appends s es Hs Hes) as (H1 & c & E1 & R1).
  set (s1 := fold_left write_element es s) in *. unfold bs_rbsp_trailing.
  destruct (bs_write1_stream WORD_SIZE word_ok s1 1) as [[H2 H2'] E2]; [done|lia|].
  destruct (bs_flush_stream WORD_SIZE word_ok (bs_write1 WORD_SIZE s1 1)) as (H3 & P3 & E3);
    [done|lia|].
  split; [done|]. split; [done|]. exists c. eexists. split; [|split; [|exact R1]].
  - unfold stream, Bs.stream in *. rewrite P3, E2, E1, Hp in E3. cbn [bits] in E3.
    rewrite !app_nil_r, <- !app_assoc in E3. exact E3.
  - pose proof (Z.mod_pos_bound (i_left (bs_write1 WORD_SIZE s1 1)) 8). lia.
Qed.

(** a sequence of header writes closed by the RBSP trailing bits puts in
    memory, between [p_start] and [p], whole bytes that the reader takes back to
    the values written, followed by one 1 bit and fewer than eight 0 bits. *)
Theorem bs_elements_roundtrip s es :
  bs_wf s -> pending WORD_SIZE s = 0%nat -> Forall element_ok es ->
  let s' := bs_rbsp_trailing WORD_SIZE (fold_left write_element es s) in
  pending WORD_SIZE s' = 0%nat /\
  exists c n, bytes_bits (written s') = bytes_bits (written s) ++ c ++ true :: replicate n false /\
    (n < 8)%nat /\
    forall rest, read_elements es (c ++ rest) = Some (map element_val es, rest).
Proof. intros Hs Hp Hes. by apply rbsp_elements. Qed.

End GolombRefinement.
(** ** What no operation touches

    The start of the writer, the bytes below [p], and the range of stored bytes. *)
Record bs_keeps (s s' : bs_t) : Prop := {
  keeps_start : p_start s' = p_start s;
  keeps_p : p s <= p s';
  keeps_below : forall a, a < p s -> bs_mem s' a = bs_mem s a;
  keeps_bytes : bytes_ok (bs_mem s) -> bytes_ok (bs_mem s')
}.

#[export] Instance bs_keeps_preorder : PreOrder bs_keeps.
Proof.
  split.
  - intros s. by split.
  - intros s1 s2 s3 [A1 A2 A3 A4] [B1 B2 B3 B4]. split; [congruence|lia| |auto].
    intros a Ha. rewrite B3, A3 by lia. done.
Qed.

Lemma bs_keeps_store s s' l :
  p_start s' = p_start s -> p s <= p s' -> bs_mem s' = st_bytes (bs_mem s) (p s) l -> bs_keeps s s'.
Proof.
  intros H1 H2 E. split; [done|done| |]; rewrite E.
  - intros a Ha. apply st_bytes_frame. lia.
  - apply st_bytes_ok.
Qed.

Lemma bs_keeps_same s s' :
  p_start s' = p_start s -> p s <= p s' -> bs_mem s' = bs_mem s -> bs_keeps s s'.
Proof. intros. by apply (bs_keeps_store s s' []). Qed.

Ltac keeps_tac :=
  first [ solve [eapply bs_keeps_store; bs_simpl; (reflexivity || lia)]
        | apply bs_keeps_same; bs_simpl; (reflexivity || lia) ].

Section Keeps.
Context (WORD_SIZE : Z).

Lemma bs_write_keeps s n v : bs_keeps s (bs_write WORD_SIZE s n v).
Proof.
  unfold bs_write.
  destruct (WORD_SIZE =? 8); [destruct (_ <=? 32)|destruct (n <? i_left s)];
    keeps_tac.
Qed.

Lemma bs_write1_keeps s v : bs_keeps s (bs_write1 WORD_SIZE s v).
Proof.
  unfold bs_write1. destruct (_ =? _);
    keeps_tac.
Qed.

Lemma bs_flush_keeps s : i_left s <= 8 * WORD_SIZE -> bs_keeps s (bs_flush WORD_SIZE s).
Proof.
  intros H. eapply bs_keeps_store; bs_simpl; [reflexivity| |reflexivity].
  unfold bs_flush; bs_simpl. assert (i_left s / 8 <= WORD_SIZE) by (apply Z.div_le_upper_bound; lia). lia.
Qed.

Lemma write_element_keeps s e : bs_keeps s (write_element WORD_SIZE s e).
Proof.
  destruct e; cbn [write_element]; unfold bs_write_ue, bs_write_ue_big, bs_write_se, bs_write_te;
    repeat match goal with
    | |- context [if ?b then _ else _] => destruct b
    | |- context [let '(_, _) := ?b in _] => destruct b
    end;
    (reflexivity || apply bs_write_keeps || apply bs_write1_keeps || idtac);
    (etransitivity; apply bs_write_keeps).
Qed.

Lemma write_elements_keeps s es : bs_keeps s (fold_left (write_element WORD_SIZE) es s).
Proof.
  revert s. induction es as [|e es IH]; intros s; [reflexivity|].
  cbn [fold_left]. etransitivity; [apply write_element_keeps|apply IH].
Qed.

End Keeps.

(** ** Opening a writer *)

(** On a word boundary the writer is empty and stands at bit 0. *)
Lemma bs_init_aligned WORD_SIZE m p_data i_data e :
  WORD_SIZE = 4 \/ WORD_SIZE = 8 -> p_data mod WORD_SIZE = 0 ->
  let s := bs_init WORD_SIZE m p_data i_data e in
  bs_wf WORD_SIZE s /\ p_start s = p_data /\ stream WORD_SIZE s = [] /\ bs_pos WORD_SIZE s = 0.
Proof.
  intros Hw Ha. cbv zeta.
  assert (p_data .& (WORD_SIZE - 1) = 0) as Ho.
  { rewrite <- Ha. destruct Hw as [-> | ->];
      [exact (Z.land_ones p_data 2 ltac:(lia)) | exact (Z.land_ones p_data 3 ltac:(lia))]. }
  unfold bs_init, stream, written, pending, bs_wf, bs_pos. rewrite Ho. bs_simpl.
  cbn [i2b Z.eqb negb]. rewrite Z.sub_0_r, Z.sub_diag.
  replace (8 * WORD_SIZE - WORD_SIZE * 8) with 0 by lia.
  split; [lia|]. split; [done|]. split; [done|]. lia.
Qed.

(** Off a word boundary it may stand elsewhere: on a 64-bit host, with seven bytes before
    [p_data] and one byte written after it, the flushed word no longer holds the seven
    bytes. *)
Example bs_init_unaligned_overwrites :
  let m := fun a => a + 1 in
  let s := bs_flush 8 (bs_write 8 (bs_init 8 m 7 100 0) 8 0xAB) in
  ld_bytes 8 m 0 = [1; 2; 3; 4; 5; 6; 7; 8] /\
  ld_bytes 8 (bs_mem s) 0 = [8; 0xAB; 0; 0; 0; 0; 0; 0].
Proof. vm_compute. split; reflexivity. Qed.

Lemma bs_elements_roundtrip_witness :
  exists c n,
    bytes_bits (written (bs_rbsp_trailing 8 (fold_left (write_element 8)
      [UE 5; SE (-300); UE_big 70000; TE 1 0; U 5 19; U1 1] (bs_init 8 (fun _ => 0) 64 100 0)))) =
    c ++ true :: replicate n false /\ (n < 8)%nat /\
    forall rest, read_elements [UE 5; SE (-300); UE_big 70000; TE 1 0; U 5 19; U1 1] (c ++ rest)
      = Some ([5; -300; 70000; 0; 19; 1], rest).
Proof.
  destruct (bs_elements_roundtrip 8 (or_intror eq_refl) (bs_init 8 (fun _ => 0) 64 100 0)
    [UE 5; SE (-300); UE_big 70000; TE 1 0; U 5 19; U1 1]) as (_ & c & n & H).
  - vm_compute. split; [discriminate|split; [reflexivity|discriminate]].
  - reflexivity.
  - repeat (constructor; [cbn; lia|]). constructor.
  - exists c, n. exact H.
Defined.
