(* ===== verification/Syntax.v ===== *)
(** * Writers of syntax and the parsers that read them

    A parser takes bits from the front of a list.  [emits f r v] says that the writer
    [f] appends bits that [r] reads back as [v], whatever follows; the lemmas compose
    it along the order of the calls, so that a proof about a syntax structure follows
    its writer line by line. *)
From S2P Require Import Prelude Bs.

(** ** Parsers *)
Definition parser (A : Type) : Type := list bool -> option (A * list bool).
Definition pret {A} (v : A) : parser A := fun l => Some (v, l).
Definition pbind {A B} (r : parser A) (k : A -> parser B) : parser B :=
  fun l => match r l with Some (v, l) => k v l | None => None end.
Definition pfail {A} : parser A := fun _ => None.

Declare Scope parser_scope.
Delimit Scope parser_scope with parser.
Notation "'get' x 'from' r ; k" := (pbind r (fun x => k))
  (at level 100, x name, r at level 99, right associativity) : parser_scope.
Open Scope parser_scope.

(** An element that is present on a condition, with the value inferred otherwise. *)
Definition pwhen {A} (b : bool) (r : parser A) (inferred : A) : parser A := if b then r else pret inferred.

(** One bit as a flag, and [n] bits as a number. *)
Definition pflag : parser bool := pbind (read_u 1) (fun v => pret (i2b v)).
Definition pu (n : Z) : parser Z := read_u (Z.to_nat n).

Fixpoint prepeat {A} (n : nat) (r : parser A) : parser (list A) :=
  match n with
  | O => pret []
  | S n => get x from r; get xs from prepeat n r; pret (x :: xs)
  end.

(** One element for each member of a list. *)
Fixpoint peach {A B} (r : A -> parser B) (l : list A) : parser (list B) :=
  match l with
  | [] => pret []
  | x :: l => get y from r x; get ys from peach r l; pret (y :: ys)
  end.

(** ** Writers *)
Definition seq {S : Type} (f g : S -> S) : S -> S := fun s => g (f s).
Definition when {S : Type} (b : bool) (f : S -> S) : S -> S := if b then f else fun s => s.
Notation "f ;> g" := (seq f g) (at level 90, right associativity, format "'[v' f  ;>  '/' g ']'") : c_scope.

Lemma seq_assoc {S} (f g h : S -> S) : ((f ;> g) ;> h) = (f ;> g ;> h).
Proof. reflexivity. Qed.

(** A loop over the elements of a list, in order. *)
Definition each {A S : Type} (f : A -> S -> S) (l : list A) : S -> S := fun s => fold_left (fun s x => f x s) l s.

Section Emits.
Context {S : Type} (wf : S -> Prop) (view : S -> list bool).

Definition emits {A} (f : S -> S) (r : parser A) (v : A) : Prop :=
  forall s, wf s -> wf (f s) /\ exists c, view (f s) = view s ++ c /\ forall rest, r (c ++ rest) = Some (v, rest).

Lemma emits_skip {A} (v : A) : emits (fun s => s) (pret v) v.
Proof. intros s Hs. split; [done|]. exists []. by rewrite app_nil_r. Qed.

Lemma emits_seq {A B} f g (r : parser A) (k : A -> parser B) a b :
  emits f r a -> emits g (k a) b -> emits (f ;> g) (pbind r k) b.
Proof.
  intros Hf Hg s Hs. destruct (Hf s Hs) as (H1 & c1 & E1 & R1). destruct (Hg _ H1) as (H2 & c2 & E2 & R2).
  split; [exact H2|]. exists (c1 ++ c2). unfold seq. split; [by rewrite E2, E1, app_assoc|].
  intros rest. unfold pbind. by rewrite <- app_assoc, R1, R2.
Qed.

(** The last writer of a structure. *)
Lemma emits_last_ext {A B} f (r : parser A) (k : A -> parser B) a b :
  emits f r a -> (forall l, k a l = Some (b, l)) -> emits f (pbind r k) b.
Proof.
  intros Hf E s Hs. destruct (Hf s Hs) as (H1 & c1 & E1 & R1). split; [done|]. exists c1. split; [done|].
  intros rest. unfold pbind. by rewrite R1, E.
Qed.

Lemma emits_last {A B} f (r : parser A) (k : A -> parser B) a b :
  emits f r a -> k a = pret b -> emits f (pbind r k) b.
Proof. intros Hf E. apply (emits_last_ext _ _ _ a); [exact Hf|]. intros l. by rewrite E. Qed.

Lemma emits_when {A} (b : bool) f (r : parser A) d v :
  (b = true -> emits f r v) -> (b = false -> v = d) -> emits (when b f) (pwhen b r d) v.
Proof. destruct b; intros H1 H2; [by apply H1|]. rewrite H2 by done. apply emits_skip. Qed.

Lemma emits_when_true {A} f (r : parser A) d v : emits f r v -> emits (when true f) (pwhen true r d) v.
Proof. done. Qed.
Lemma emits_when_false {A} f (r : parser A) d : emits (when false f) (pwhen false r d) d.
Proof. apply emits_skip. Qed.

Lemma emits_each {A B} (f : A -> S -> S) (r : parser B) (g : A -> B) l :
  Forall (fun x => emits (f x) r (g x)) l -> emits (each f l) (prepeat (length l) r) (g <$> l).
Proof.
  unfold each. induction 1 as [|x l Hx _ IH]; [apply emits_skip|].
  apply (emits_seq (f x) (fun s => fold_left (fun s x => f x s) l s) r _ (g x)); [exact Hx|].
  apply (emits_last _ _ _ (g <$> l)); [exact IH|done].
Qed.

Lemma emits_same {A} f g (r : parser A) v : (forall s, f s = g s) -> emits g r v -> emits f r v.
Proof. intros E H s Hs. rewrite E. by apply H. Qed.

(** A parser that agrees with [r] reads the same. *)
Lemma emits_ext {A} f (r r' : parser A) v : (forall l, r l = r' l) -> emits f r v -> emits f r' v.
Proof.
  intros E H s Hs. destruct (H s Hs) as (H1 & c & E1 & R). split; [done|]. exists c. split; [done|].
  intros rest. by rewrite <- E.
Qed.
End Emits.

(** ** The elements the bitstream writer has *)
Section Bitstream.
Context (WORD_SIZE : Z) (word_ok : WORD_SIZE = 4 \/ WORD_SIZE = 8).

Local Abbreviation bs_emits := (emits (bs_wf WORD_SIZE) (stream WORD_SIZE)).

Lemma appends_emits f (r : parser Z) v :
  (forall s, bs_wf WORD_SIZE s -> exists size, appends WORD_SIZE r s (f s) v size) -> bs_emits f r v.
Proof. intros H s Hs. destruct (H s Hs) as (size & H1 & c & E & _ & R). split; [done|]. by exists c. Qed.

Lemma emits_u n v : 0 <= n <= 31 -> 0 <= v < 2 ^ n -> bs_emits (fun s => bs_write WORD_SIZE s n v) (pu n) v.
Proof. intros. apply appends_emits. intros s Hs. by apply (write_element_appends WORD_SIZE word_ok s (U n v)). Qed.

Lemma emits_u1 v : 0 <= v < 2 -> bs_emits (fun s => bs_write1 WORD_SIZE s v) (pu 1) v.
Proof. intros. apply appends_emits. intros s Hs. by apply (write_element_appends WORD_SIZE word_ok s (U1 v)). Qed.

Lemma emits_ue v : 0 <= v < 255 -> bs_emits (fun s => bs_write_ue WORD_SIZE s v) read_ue v.
Proof. intros. apply appends_emits. intros s Hs. by apply (write_element_appends WORD_SIZE word_ok s (UE v)). Qed.

Lemma emits_ue_big v : 0 <= v < 2 ^ 31 - 1 -> bs_emits (fun s => bs_write_ue_big WORD_SIZE s v) read_ue v.
Proof. intros. apply appends_emits. intros s Hs. by apply (write_element_appends WORD_SIZE word_ok s (UE_big v)). Qed.

Lemma emits_se v : -32767 <= v <= 32767 -> bs_emits (fun s => bs_write_se WORD_SIZE s v) read_se v.
Proof. intros. apply appends_emits. intros s Hs. by apply (write_element_appends WORD_SIZE word_ok s (SE v)). Qed.

(** The two ways the code writes a flag. *)
Lemma emits_flag b : bs_emits (fun s => bs_write WORD_SIZE s 1 (b2i b)) pflag b.
Proof.
  eapply emits_last; [apply emits_u; [lia|by destruct b]|]. by destruct b.
Qed.
Lemma emits_flag1 b : bs_emits (fun s => bs_write1 WORD_SIZE s (b2i b)) pflag b.
Proof. eapply emits_last; [apply emits_u1; by destruct b|]. by destruct b. Qed.

(** [bs_write32] in two halves, the second with the bits of the first above it. *)
Lemma emits_u32 v : 0 <= v < 2 ^ 32 -> bs_emits (fun s => bs_write32 WORD_SIZE s v) (pu 32) v.
Proof.
  intros Hv s Hs. destruct (bs_write32_stream WORD_SIZE word_ok s v Hs Hv) as [H1 E1]. split; [done|].
  eexists. split; [exact E1|]. intros rest. by apply (read_u_bits 32).
Qed.

(** A structure closed by the trailing bits fills whole bytes. *)
Lemma rbsp_stream s s1 c : bs_wf WORD_SIZE s1 -> stream WORD_SIZE s1 = stream WORD_SIZE s ++ c -> pending WORD_SIZE s = 0%nat ->
  let s' := bs_rbsp_trailing WORD_SIZE s1 in
  bs_wf WORD_SIZE s' /\ pending WORD_SIZE s' = 0%nat /\
  exists n, bytes_bits (written s') = bytes_bits (written s) ++ c ++ true :: replicate n false /\ (n < 8)%nat.
Proof.
  intros H1 E1 Hp. cbv zeta. unfold bs_rbsp_trailing.
  destruct (bs_write1_stream WORD_SIZE word_ok s1 1) as [[H2 H2'] E2]; [done|lia|].
  destruct (bs_flush_stream WORD_SIZE word_ok (bs_write1 WORD_SIZE s1 1)) as (H3 & P3 & E3); [done|lia|].
  split; [done|]. split; [done|]. eexists. split.
  - unfold stream in *. rewrite P3, E2, E1, Hp in E3. cbn [bits] in E3.
    rewrite !app_nil_r, <- !app_assoc in E3. exact E3.
  - pose proof (Z.mod_pos_bound (i_left (bs_write1 WORD_SIZE s1 1)) 8). lia.
Qed.

Lemma emits_rbsp {A} f (r : parser A) v s : bs_emits f r v -> bs_wf WORD_SIZE s -> pending WORD_SIZE s = 0%nat ->
  let s' := bs_rbsp_trailing WORD_SIZE (f s) in
  bs_wf WORD_SIZE s' /\ pending WORD_SIZE s' = 0%nat /\
  exists c n, bytes_bits (written s') = bytes_bits (written s) ++ c ++ true :: replicate n false /\
    (n < 8)%nat /\ forall rest, r (c ++ rest) = Some (v, rest).
Proof.
  intros Hf Hs Hp. cbv zeta. destruct (Hf s Hs) as (H1 & c & E1 & R1).
  destruct (rbsp_stream s (f s) c H1 E1 Hp) as (H2 & P2 & n & E & Hn).
  split; [done|]. split; [done|]. by exists c, n.
Qed.
End Bitstream.

Abbreviation bs_emits WORD_SIZE := (emits (bs_wf WORD_SIZE) (stream WORD_SIZE)).


(** Splitting a structure along its calls: an element of the writer meets an element of
    the parser; what is left are the ranges of the values and the final equation. *)
Lemma emits_u_flag WORD_SIZE (word_ok : WORD_SIZE = 4 \/ WORD_SIZE = 8) v b : v = b2i b ->
  bs_emits WORD_SIZE (fun s => bs_write WORD_SIZE s 1 v) pflag b.
Proof. intros ->. by apply emits_flag. Qed.
Lemma emits_u1_flag WORD_SIZE (word_ok : WORD_SIZE = 4 \/ WORD_SIZE = 8) v b : v = b2i b ->
  bs_emits WORD_SIZE (fun s => bs_write1 WORD_SIZE s v) pflag b.
Proof. intros ->. by apply emits_flag1. Qed.

Ltac flag_value :=
  lazymatch goal with
  | |- _ = b2i true => reflexivity
  | |- _ = b2i false => reflexivity
  | |- b2i ?b = b2i _ => reflexivity
  | |- 0 = b2i _ => instantiate (1 := false); reflexivity
  | |- 1 = b2i _ => instantiate (1 := true); reflexivity
  end.

Ltac emit_element :=
  lazymatch goal with
  | |- emits _ _ (fun s => bs_write _ s 1 _) pflag _ => apply emits_u_flag; [assumption|flag_value]
  | |- emits _ _ (fun s => bs_write1 _ s _) pflag _ => apply emits_u1_flag; [assumption|flag_value]
  | |- emits _ _ (fun s => bs_write _ s ?n _) (pu _) _ => eapply emits_u; [eassumption|..]
  | |- emits _ _ (fun s => bs_write1 _ s _) (pu 1) _ => eapply emits_u1; [eassumption|..]
  | |- emits _ _ (fun s => bs_write32 _ s _) (pu 32) _ => eapply emits_u32; [eassumption|..]
  | |- emits _ _ (fun s => bs_write_ue_big _ s _) read_ue _ => eapply emits_ue_big; [eassumption|..]
  | |- emits _ _ (fun s => bs_write_ue _ s _) read_ue _ => eapply emits_ue; [eassumption|..]
  | |- emits _ _ (fun s => bs_write_se _ s _) read_se _ => eapply emits_se; [eassumption|..]
  | |- emits _ _ (when true _) (pwhen true _ _) _ => apply emits_when_true
  | |- emits _ _ (when false _) (pwhen false _ _) _ => apply emits_when_false
  | |- emits _ _ (when _ _) (pwhen _ _ _) _ => apply emits_when; intro
  end.

Ltac emit_step :=
  lazymatch goal with
  | |- emits _ _ (seq _ _) (pbind _ _) _ => eapply emits_seq; cbv beta
  | |- emits _ _ _ (pbind _ _) _ => eapply emits_last; cbv beta
  | |- emits _ _ _ _ _ => emit_element
  end.
