(* ===== verification/Sink.v ===== *)
(** * The interface between syntax writers and what they write to

    x264 compiles its entropy coders twice: once over [bs_t] and once, in
    encoder/rdo.c, with the writer's functions redefined as macros that only add
    up sizes.  [BitSink] is the set of functions that is redefined; the syntax
    writers are stated over it.  [SinkSim] is what one sink promises about
    another, and the two real sinks are related to the sink of plain bit lists. *)
From S2P Require Import Prelude Bs Syntax.

Class BitSink (S : Type) := {
  sk_write : S -> Z -> Z -> S;
  sk_write1 : S -> Z -> S;
  sk_write_ue : S -> Z -> S;
  sk_write_se : S -> Z -> S;
  sk_write_te : S -> Z -> Z -> S;
  (* [RDO_SKIP_BS], and the penalty [s->i_bits_encoded += n] it enables *)
  sk_skip : bool;
  sk_penalty : S -> Z -> S
}.

(** encoder/cavlc.c compiled for the bitstream. *)
Definition bs_sink (WORD_SIZE : Z) : BitSink bs_t := {|
  sk_write := Bs.bs_write WORD_SIZE;
  sk_write1 := Bs.bs_write1 WORD_SIZE;
  sk_write_ue := Bs.bs_write_ue WORD_SIZE;
  sk_write_se := Bs.bs_write_se WORD_SIZE;
  sk_write_te := Bs.bs_write_te WORD_SIZE;
  sk_skip := false;
  sk_penalty := fun s _ => s
|}.

(** encoder/cavlc.c compiled by encoder/rdo.c: the state is [i_bits_encoded]. *)
Definition size_sink : BitSink Z := {|
  sk_write := fun s n v => s + n;
  sk_write1 := fun s v => s + 1;
  sk_write_ue := fun s v => s + bs_size_ue v;
  sk_write_se := fun s v => s + bs_size_se v;
  sk_write_te := fun s x v => s + bs_size_te x v;
  sk_skip := true;
  sk_penalty := fun s n => s + n
|}.

(** The code words as bit lists. *)
Definition ue_code (v : Z) : list bool := bits (Z.to_nat (2 * Z.log2 (v + 1) + 1)) (v + 1).
Definition se_index (v : Z) : Z := if v <=? 0 then - v * 2 else v * 2 - 1.
Definition se_code (v : Z) : list bool := ue_code (se_index v).
Definition te_code (x v : Z) : list bool :=
  if x =? 1 then [v =? 0] else if x >? 1 then ue_code v else [].

Definition code_sink (skip : bool) : BitSink (list bool) := {|
  sk_write := fun l n v => l ++ bits (Z.to_nat n) v;
  sk_write1 := fun l v => l ++ bits 1 v;
  sk_write_ue := fun l v => l ++ ue_code v;
  sk_write_se := fun l v => l ++ se_code v;
  sk_write_te := fun l x v => l ++ te_code x v;
  sk_skip := skip;
  sk_penalty := fun l _ => l
|}.

(** The same calls, with arguments in range, keep two sinks related. *)
Class SinkSim {A B} (sa : BitSink A) (sb : BitSink B) (R : A -> B -> Prop) : Prop := {
  sim_write : forall a b n v, R a b -> 0 <= n <= 31 -> 0 <= v < 2 ^ n ->
    R (sk_write a n v) (sk_write b n v);
  sim_write1 : forall a b v, R a b -> 0 <= v < 2 -> R (sk_write1 a v) (sk_write1 b v);
  sim_ue : forall a b v, R a b -> 0 <= v < 255 -> R (sk_write_ue a v) (sk_write_ue b v);
  sim_se : forall a b v, R a b -> - 32767 <= v <= 32767 -> R (sk_write_se a v) (sk_write_se b v);
  sim_te : forall a b x v, R a b -> 0 <= x -> 0 <= v < 255 -> v <= x ->
    R (sk_write_te a x v) (sk_write_te b x v);
  sim_penalty : forall a b n, R a b -> @sk_skip A sa = false -> R (sk_penalty a n) (sk_penalty b n)
}.

(** ** The bitstream writer appends the codes *)
Definition bs_rel (WORD_SIZE : Z) (s0 : bs_t) (s : bs_t) (c : list bool) : Prop :=
  bs_wf WORD_SIZE s /\ stream WORD_SIZE s = stream WORD_SIZE s0 ++ c.

Lemma ue_code_write v : 0 <= v < 255 ->
  ue_code v = bits (Z.to_nat (ue_size (v + 1))) (u32 (v + 1)).
Proof. intros. unfold ue_code. by rewrite ue_size_spec, uw_small by lia. Qed.

Lemma se_index_range v : - 32767 <= v <= 32767 -> 0 <= se_index v < 65535.
Proof. unfold se_index. destruct (Z.leb_spec v 0); lia. Qed.

Lemma bs_size_se_code v : - 32767 <= v <= 32767 ->
  bs_size_se v = 2 * Z.log2 (se_index v + 1) + 1.
Proof.
  intros Hv. pose proof (se_index_range v Hv). unfold bs_size_se. fold (se_index v).
  rewrite uw_small by lia. by apply ue_big_size.
Qed.

Lemma bs_write_se_write WORD_SIZE s v : - 32767 <= v <= 32767 ->
  bs_write_se WORD_SIZE s v =
  bs_write WORD_SIZE s (2 * Z.log2 (se_index v + 1) + 1) (se_index v + 1).
Proof.
  intros Hv. pose proof (se_index_range v Hv). unfold bs_write_se.
  replace (if v <=? 0 then - v * 2 + 1 else v * 2) with (se_index v + 1)
    by (unfold se_index; destruct (v <=? 0); lia).
  rewrite uw_small by lia. destruct (Z.geb_spec (se_index v + 1) 0x100).
  - rewrite (ue_size_shift 8) by lia. f_equal. lia.
  - rewrite ue_size_spec by lia. f_equal.
Qed.

Lemma golomb_write_range v n : 0 <= v < 2 ^ n - 1 -> 0 < n ->
  0 <= 2 * Z.log2 (v + 1) + 1 <= 2 * n - 1 /\ 0 <= v + 1 < 2 ^ (2 * Z.log2 (v + 1) + 1).
Proof.
  intros Hv Hn. pose proof (Z.log2_nonneg (v + 1)).
  assert (Z.log2 (v + 1) < n) by (apply Z.log2_lt_pow2; lia).
  destruct (Z.log2_spec (v + 1)); [lia|]. split; [lia|]. split; [lia|].
  eapply Z.lt_le_trans; [eassumption|]. apply Z.pow_le_mono_r; lia.
Qed.

#[export] Instance bs_sink_sim WORD_SIZE s0 (word_ok : WORD_SIZE = 4 \/ WORD_SIZE = 8) skip :
  SinkSim (bs_sink WORD_SIZE) (code_sink skip) (bs_rel WORD_SIZE s0).
Proof.
  assert (forall s c n v, bs_rel WORD_SIZE s0 s c -> 0 <= n <= 31 -> 0 <= v < 2 ^ n ->
    bs_rel WORD_SIZE s0 (bs_write WORD_SIZE s n v) (c ++ bits (Z.to_nat n) v)) as HW.
  { intros s c n v [Hw Hs] Hn Hv.
    destruct (bs_write_stream WORD_SIZE word_ok s n v) as [H1 H2]; [done| |done|].
    - pose proof (max_count_31 WORD_SIZE). lia.
    - split; [done|]. by rewrite H2, Hs, app_assoc. }
  assert (forall s c v, bs_rel WORD_SIZE s0 s c -> 0 <= v < 2 ->
    bs_rel WORD_SIZE s0 (bs_write1 WORD_SIZE s v) (c ++ bits 1 v)) as HW1.
  { intros s c v [Hw Hs] Hv.
    destruct (bs_write1_stream WORD_SIZE word_ok s v) as [H1 H2]; [done..|].
    split; [done|]. by rewrite H2, Hs, app_assoc. }
  assert (forall s c v, bs_rel WORD_SIZE s0 s c -> 0 <= v < 255 ->
    bs_rel WORD_SIZE s0 (bs_write_ue WORD_SIZE s v) (c ++ ue_code v)) as HUE.
  { intros s c v Hr Hv. rewrite ue_code_write by done. unfold bs_write_ue.
    destruct (golomb_write_range v 8); [lia|lia|].
    apply HW; [done|..]; rewrite ?uw_small, ue_size_spec by lia; lia. }
  split; cbn [sk_write sk_write1 sk_write_ue sk_write_se sk_write_te sk_penalty sk_skip bs_sink code_sink].
  - exact HW.
  - exact HW1.
  - exact HUE.
  - intros s c v Hr Hv. rewrite bs_write_se_write by done.
    pose proof (se_index_range v Hv).
    destruct (golomb_write_range (se_index v) 16); [lia|lia|]. apply HW; [done|lia|lia].
  - intros s c x v Hr Hx Hv Hvx. unfold te_code, bs_write_te.
    destruct (Z.eqb_spec x 1) as [->|Hne].
    + assert (v = 0 \/ v = 1) as [-> | ->] by lia.
      * apply (HW1 s c 1 Hr). lia.
      * apply (HW1 s c 0 Hr). lia.
    + destruct (Z.gtb_spec x 1); [by apply HUE|by rewrite app_nil_r].
  - done.
Qed.

(** ** The size counter counts the bits of the codes *)
Definition size_rel (n0 n : Z) (c : list bool) : Prop := n = n0 + Z.of_nat (length c).

Lemma length_ue_code v : Z.of_nat (length (ue_code v)) = 2 * Z.log2 (v + 1) + 1.
Proof. unfold ue_code. rewrite length_bits. pose proof (Z.log2_nonneg (v + 1)). lia. Qed.

#[export] Instance size_sink_sim n0 skip : SinkSim size_sink (code_sink skip) (size_rel n0).
Proof.
  split; cbn [sk_write sk_write1 sk_write_ue sk_write_se sk_write_te sk_penalty sk_skip size_sink code_sink];
    unfold size_rel; intros; rewrite ?length_app; subst.
  - rewrite length_bits. lia.
  - rewrite length_bits. lia.
  - rewrite Nat2Z.inj_add, length_ue_code. unfold bs_size_ue. rewrite ue_size_spec; lia.
  - unfold se_code. rewrite Nat2Z.inj_add, length_ue_code, bs_size_se_code by lia. lia.
  - unfold te_code, bs_size_te. destruct (Z.eqb_spec x 1); [simpl; lia|].
    destruct (Z.gtb_spec x 1); [|simpl; lia].
    rewrite Nat2Z.inj_add, length_ue_code, ue_size_spec; lia.
  - discriminate.
Qed.

(** ** Writers that do not depend on the sink

    [writes f r v]: the writer [f] appends one code to whatever it writes to, and [r]
    reads the code back as [v]. *)
Definition codes_of (f : forall S, BitSink S -> S -> S) (code : list bool) : Prop :=
  forall S (sink : BitSink S) (R : S -> list bool -> Prop), SinkSim sink (code_sink false) R ->
    forall s c, R s c -> R (f S sink s) (c ++ code).

Definition reads {A} (r : parser A) (code : list bool) (v : A) : Prop := forall rest, r (code ++ rest) = Some (v, rest).

Definition writes {A} (f : forall S, BitSink S -> S -> S) (r : parser A) (v : A) : Prop :=
  exists code, reads r code v /\ codes_of f code.

Section Writes.
Lemma reads_ret {A} (v : A) : reads (pret v) [] v.
Proof. done. Qed.
Lemma reads_bind {A B} (r : parser A) (k : A -> parser B) a b c1 c2 :
  reads r c1 a -> reads (k a) c2 b -> reads (pbind r k) (c1 ++ c2) b.
Proof. intros H1 H2 rest. unfold pbind. by rewrite <- app_assoc, H1, H2. Qed.
Lemma reads_bind_ret {A B} (r : parser A) (k : A -> parser B) a b c :
  reads r c a -> (forall l, k a l = Some (b, l)) -> reads (pbind r k) c b.
Proof. intros H1 H2 rest. unfold pbind. by rewrite H1. Qed.

Lemma writes_skip {A} (v : A) : writes (fun S sink s => s) (pret v) v.
Proof. exists []. split; [done|]. intros S sink R sim s c H. by rewrite app_nil_r. Qed.

Lemma writes_seq {A B} f g (r : parser A) (k : A -> parser B) a b :
  writes f r a -> writes g (k a) b -> writes (fun S sink => f S sink ;> g S sink) (pbind r k) b.
Proof.
  intros (c1 & R1 & H1) (c2 & R2 & H2). exists (c1 ++ c2). split; [by eapply reads_bind|].
  intros S sink R sim s c H. rewrite app_assoc. unfold seq. by apply (H2 S sink R sim), (H1 S sink R sim).
Qed.

Lemma writes_last {A B} f (r : parser A) (k : A -> parser B) a b :
  writes f r a -> (forall l, k a l = Some (b, l)) -> writes f (pbind r k) b.
Proof. intros (c1 & R1 & H1) H2. exists c1. split; [by eapply reads_bind_ret|done]. Qed.

(** A part of the parser that reads nothing. *)
Lemma writes_inferred {A B} f (a : A) (k : A -> parser B) b :
  writes f (k a) b -> writes f (pbind (pret a) k) b.
Proof. intros (c1 & R1 & H1). by exists c1. Qed.

Lemma writes_when {A} (b : bool) f (r : parser A) d v :
  (b = true -> writes f r v) -> (b = false -> v = d) -> writes (fun S sink => when b (f S sink)) (pwhen b r d) v.
Proof. destruct b; intros H1 H2; [by apply H1|]. rewrite H2 by done. apply writes_skip. Qed.

Lemma writes_same {A} f g (r r' : parser A) v : writes g r v ->
  (forall S (sink : BitSink S) s, f S sink s = g S sink s) -> (forall l, r' l = r l) -> writes f r' v.
Proof.
  intros (c & R & H) E1 E2. exists c. split; [intros rest; by rewrite E2|].
  intros S sink R0 sim s c0 H0. rewrite E1. by apply H.
Qed.

Lemma writes_u n v : 0 <= n <= 31 -> 0 <= v < 2 ^ n -> writes (fun S sink s => sk_write s n v) (pu n) v.
Proof.
  intros Hn Hv. exists (bits (Z.to_nat n) v). split.
  - intros rest. apply (read_u_bits (Z.to_nat n)). by rewrite Z2Nat.id by lia.
  - intros S sink R sim s c H. by apply (@sim_write _ _ _ _ _ sim s c n v).
Qed.

Lemma writes_u1 v : 0 <= v < 2 -> writes (fun S sink s => sk_write1 s v) (pu 1) v.
Proof.
  intros Hv. exists (bits 1 v). split; [intros rest; by apply (read_u_bits 1)|].
  intros S sink R sim s c H. by apply (@sim_write1 _ _ _ _ _ sim s c v).
Qed.

Lemma writes_flag v : 0 <= v < 2 -> writes (fun S sink s => sk_write1 s v) pflag (i2b v).
Proof. intros Hv. eapply writes_last; [by apply writes_u1|done]. Qed.

Lemma read_ue_code v rest : 0 <= v -> read_ue (ue_code v ++ rest) = Some (v, rest).
Proof.
  intros Hv. destruct (log2_nat (v + 1)) as (k & E & Hk); [lia|]. unfold ue_code. rewrite E.
  replace (Z.to_nat (2 * Z.of_nat k + 1)) with (k + S k)%nat by lia.
  rewrite read_ue_golomb by done. by replace (v + 1 - 1) with v by lia.
Qed.

Lemma writes_ue v : 0 <= v < 255 -> writes (fun S sink s => sk_write_ue s v) read_ue v.
Proof.
  intros Hv. exists (ue_code v). split; [intros rest; apply read_ue_code; lia|].
  intros S sink R sim s c H. by apply (@sim_ue _ _ _ _ _ sim s c v).
Qed.

Lemma read_se_code v rest : read_se (se_code v ++ rest) = Some (v, rest).
Proof.
  unfold read_se, se_code. rewrite read_ue_code by (unfold se_index; destruct (Z.leb_spec v 0); lia).
  unfold se_index. destruct (Z.leb_spec v 0).
  - replace (Z.odd (- v * 2)) with false by (rewrite Z.odd_mul; cbn; by rewrite andb_false_r).
    by rewrite Z.div_mul, Z.opp_involutive by lia.
  - replace (v * 2 - 1) with (1 + 2 * (v - 1)) by lia. rewrite Z.odd_add_mul_2. cbn [Z.odd].
    replace (1 + 2 * (v - 1) + 1) with (v * 2) by lia. by rewrite Z.div_mul by lia.
Qed.

Lemma writes_se v : -32767 <= v <= 32767 -> writes (fun S sink s => sk_write_se s v) read_se v.
Proof.
  intros Hv. exists (se_code v). split; [intros rest; apply read_se_code|].
  intros S sink R sim s c H. by apply (@sim_se _ _ _ _ _ sim s c v).
Qed.

Lemma writes_te x v : 0 < x -> 0 <= v <= x -> v < 255 -> writes (fun S sink s => sk_write_te s x v) (read_te x) v.
Proof.
  intros Hx Hv Hb. exists (te_code x v). split.
  - intros rest. unfold read_te, te_code. destruct (Z.eqb_spec x 1) as [->|].
    + cbn [app]. assert (v = 0 \/ v = 1) as [-> | ->] by lia; done.
    + replace (x >? 1) with true by (symmetry; apply Z.gtb_lt; lia). apply read_ue_code. lia.
  - intros S sink R sim s c H. apply (@sim_te _ _ _ _ _ sim s c x v); [done|lia..].
Qed.

(** Of a range with one value nothing is written. *)
Lemma writes_te_0 {A} x v (a : A) : x = 0 -> v = 0 -> writes (fun S sink s => sk_write_te s x v) (pret a) a.
Proof.
  intros -> ->. exists []. split; [done|]. intros S sink R sim s c H.
  change (R (sk_write_te s 0 0) (sk_write_te (BitSink := code_sink false) c 0 0)). by apply (@sim_te _ _ _ _ _ sim s c 0 0).
Qed.

Lemma writes_each {A B} (f : A -> forall S, BitSink S -> S -> S) (r : A -> parser B) (g : A -> B) l :
  Forall (fun x => writes (f x) (r x) (g x)) l ->
  writes (fun S sink => each (fun x => f x S sink) l) (peach r l) (g <$> l).
Proof.
  induction 1 as [|x l Hx _ IH]; [apply writes_skip|]. cbn [peach fmap list_fmap].
  apply (writes_seq (f x) (fun S sink => each (fun x => f x S sink) l) _ _ _ _ Hx).
  by eapply writes_last; [exact IH|].
Qed.
End Writes.
