(* ===== verification/Vlc.v ===== *)
(** * The variable length code tables of CAVLC (common/vlc.c)

    Each table is the C array, entry for entry; an entry of size 0 is one the
    encoder never uses.  The theorems say that the used entries of each table
    form a uniquely decodable code. *)
From S2P Require Import Prelude Bs.

Local Abbreviation V := Vlc.

(** x264_coeff_token[0] *)
Definition x264_coeff_token_0 : list vlc_t :=
  [
    V 0x1 1; V 0x0 0; V 0x0 0; V 0x0 0;
    V 0x5 6; V 0x1 2; V 0x0 0; V 0x0 0;
    V 0x7 8; V 0x4 6; V 0x1 3; V 0x0 0;
    V 0x7 9; V 0x6 8; V 0x5 7; V 0x3 5;
    V 0x7 10; V 0x6 9; V 0x5 8; V 0x3 6;
    V 0x7 11; V 0x6 10; V 0x5 9; V 0x4 7;
    V 0xf 13; V 0x6 11; V 0x5 10; V 0x4 8;
    V 0xb 13; V 0xe 13; V 0x5 11; V 0x4 9;
    V 0x8 13; V 0xa 13; V 0xd 13; V 0x4 10;
    V 0xf 14; V 0xe 14; V 0x9 13; V 0x4 11;
    V 0xb 14; V 0xa 14; V 0xd 14; V 0xc 13;
    V 0xf 15; V 0xe 15; V 0x9 14; V 0xc 14;
    V 0xb 15; V 0xa 15; V 0xd 15; V 0x8 14;
    V 0xf 16; V 0x1 15; V 0x9 15; V 0xc 15;
    V 0xb 16; V 0xe 16; V 0xd 16; V 0x8 15;
    V 0x7 16; V 0xa 16; V 0x9 16; V 0xc 16;
    V 0x4 16; V 0x6 16; V 0x5 16; V 0x8 16 ].

(** x264_coeff_token[1] *)
Definition x264_coeff_token_1 : list vlc_t :=
  [
    V 0x3 2; V 0x0 0; V 0x0 0; V 0x0 0;
    V 0xb 6; V 0x2 2; V 0x0 0; V 0x0 0;
    V 0x7 6; V 0x7 5; V 0x3 3; V 0x0 0;
    V 0x7 7; V 0xa 6; V 0x9 6; V 0x5 4;
    V 0x7 8; V 0x6 6; V 0x5 6; V 0x4 4;
    V 0x4 8; V 0x6 7; V 0x5 7; V 0x6 5;
    V 0x7 9; V 0x6 8; V 0x5 8; V 0x8 6;
    V 0xf 11; V 0x6 9; V 0x5 9; V 0x4 6;
    V 0xb 11; V 0xe 11; V 0xd 11; V 0x4 7;
    V 0xf 12; V 0xa 11; V 0x9 11; V 0x4 9;
    V 0xb 12; V 0xe 12; V 0xd 12; V 0xc 11;
    V 0x8 12; V 0xa 12; V 0x9 12; V 0x8 11;
    V 0xf 13; V 0xe 13; V 0xd 13; V 0xc 12;
    V 0xb 13; V 0xa 13; V 0x9 13; V 0xc 13;
    V 0x7 13; V 0xb 14; V 0x6 13; V 0x8 13;
    V 0x9 14; V 0x8 14; V 0xa 14; V 0x1 13;
    V 0x7 14; V 0x6 14; V 0x5 14; V 0x4 14 ].

(** x264_coeff_token[2] *)
Definition x264_coeff_token_2 : list vlc_t :=
  [
    V 0xf 4; V 0x0 0; V 0x0 0; V 0x0 0;
    V 0xf 6; V 0xe 4; V 0x0 0; V 0x0 0;
    V 0xb 6; V 0xf 5; V 0xd 4; V 0x0 0;
    V 0x8 6; V 0xc 5; V 0xe 5; V 0xc 4;
    V 0xf 7; V 0xa 5; V 0xb 5; V 0xb 4;
    V 0xb 7; V 0x8 5; V 0x9 5; V 0xa 4;
    V 0x9 7; V 0xe 6; V 0xd 6; V 0x9 4;
    V 0x8 7; V 0xa 6; V 0x9 6; V 0x8 4;
    V 0xf 8; V 0xe 7; V 0xd 7; V 0xd 5;
    V 0xb 8; V 0xe 8; V 0xa 7; V 0xc 6;
    V 0xf 9; V 0xa 8; V 0xd 8; V 0xc 7;
    V 0xb 9; V 0xe 9; V 0x9 8; V 0xc 8;
    V 0x8 9; V 0xa 9; V 0xd 9; V 0x8 8;
    V 0xd 10; V 0x7 9; V 0x9 9; V 0xc 9;
    V 0x9 10; V 0xc 10; V 0xb 10; V 0xa 10;
    V 0x5 10; V 0x8 10; V 0x7 10; V 0x6 10;
    V 0x1 10; V 0x4 10; V 0x3 10; V 0x2 10 ].

(** x264_coeff_token[3] *)
Definition x264_coeff_token_3 : list vlc_t :=
  [
    V 0x3 6; V 0x0 0; V 0x0 0; V 0x0 0;
    V 0x0 6; V 0x1 6; V 0x0 0; V 0x0 0;
    V 0x4 6; V 0x5 6; V 0x6 6; V 0x0 0;
    V 0x8 6; V 0x9 6; V 0xa 6; V 0xb 6;
    V 0xc 6; V 0xd 6; V 0xe 6; V 0xf 6;
    V 0x10 6; V 0x11 6; V 0x12 6; V 0x13 6;
    V 0x14 6; V 0x15 6; V 0x16 6; V 0x17 6;
    V 0x18 6; V 0x19 6; V 0x1a 6; V 0x1b 6;
    V 0x1c 6; V 0x1d 6; V 0x1e 6; V 0x1f 6;
    V 0x20 6; V 0x21 6; V 0x22 6; V 0x23 6;
    V 0x24 6; V 0x25 6; V 0x26 6; V 0x27 6;
    V 0x28 6; V 0x29 6; V 0x2a 6; V 0x2b 6;
    V 0x2c 6; V 0x2d 6; V 0x2e 6; V 0x2f 6;
    V 0x30 6; V 0x31 6; V 0x32 6; V 0x33 6;
    V 0x34 6; V 0x35 6; V 0x36 6; V 0x37 6;
    V 0x38 6; V 0x39 6; V 0x3a 6; V 0x3b 6;
    V 0x3c 6; V 0x3d 6; V 0x3e 6; V 0x3f 6 ].

(** x264_coeff_token[4] *)
Definition x264_coeff_token_4 : list vlc_t :=
  [
    V 0x1 2; V 0x0 0; V 0x0 0; V 0x0 0;
    V 0x7 6; V 0x1 1; V 0x0 0; V 0x0 0;
    V 0x4 6; V 0x6 6; V 0x1 3; V 0x0 0;
    V 0x3 6; V 0x3 7; V 0x2 7; V 0x5 6;
    V 0x2 6; V 0x3 8; V 0x2 8; V 0x0 7;
    V 0x0 0; V 0x0 0; V 0x0 0; V 0x0 0;
    V 0x0 0; V 0x0 0; V 0x0 0; V 0x0 0;
    V 0x0 0; V 0x0 0; V 0x0 0; V 0x0 0;
    V 0x0 0; V 0x0 0; V 0x0 0; V 0x0 0;
    V 0x0 0; V 0x0 0; V 0x0 0; V 0x0 0;
    V 0x0 0; V 0x0 0; V 0x0 0; V 0x0 0;
    V 0x0 0; V 0x0 0; V 0x0 0; V 0x0 0;
    V 0x0 0; V 0x0 0; V 0x0 0; V 0x0 0;
    V 0x0 0; V 0x0 0; V 0x0 0; V 0x0 0;
    V 0x0 0; V 0x0 0; V 0x0 0; V 0x0 0;
    V 0x0 0; V 0x0 0; V 0x0 0; V 0x0 0;
    V 0x0 0; V 0x0 0; V 0x0 0; V 0x0 0 ].

Definition x264_coeff_token : list (list vlc_t) :=
  [x264_coeff_token_0; x264_coeff_token_1; x264_coeff_token_2; x264_coeff_token_3; x264_coeff_token_4].

(** x264_total_zeros[0] *)
Definition x264_total_zeros_0 : list vlc_t :=
  [
    V 0x1 1; V 0x3 3; V 0x2 3; V 0x3 4;
    V 0x2 4; V 0x3 5; V 0x2 5; V 0x3 6;
    V 0x2 6; V 0x3 7; V 0x2 7; V 0x3 8;
    V 0x2 8; V 0x3 9; V 0x2 9; V 0x1 9 ].

(** x264_total_zeros[1] *)
Definition x264_total_zeros_1 : list vlc_t :=
  [
    V 0x7 3; V 0x6 3; V 0x5 3; V 0x4 3;
    V 0x3 3; V 0x5 4; V 0x4 4; V 0x3 4;
    V 0x2 4; V 0x3 5; V 0x2 5; V 0x3 6;
    V 0x2 6; V 0x1 6; V 0x0 6; V 0x0 0 ].

(** x264_total_zeros[2] *)
Definition x264_total_zeros_2 : list vlc_t :=
  [
    V 0x5 4; V 0x7 3; V 0x6 3; V 0x5 3;
    V 0x4 4; V 0x3 4; V 0x4 3; V 0x3 3;
    V 0x2 4; V 0x3 5; V 0x2 5; V 0x1 6;
    V 0x1 5; V 0x0 6; V 0x0 0; V 0x0 0 ].

(** x264_total_zeros[3] *)
Definition x264_total_zeros_3 : list vlc_t :=
  [
    V 0x3 5; V 0x7 3; V 0x5 4; V 0x4 4;
    V 0x6 3; V 0x5 3; V 0x4 3; V 0x3 4;
    V 0x3 3; V 0x2 4; V 0x2 5; V 0x1 5;
    V 0x0 5; V 0x0 0; V 0x0 0; V 0x0 0 ].

(** x264_total_zeros[4] *)
Definition x264_total_zeros_4 : list vlc_t :=
  [
    V 0x5 4; V 0x4 4; V 0x3 4; V 0x7 3;
    V 0x6 3; V 0x5 3; V 0x4 3; V 0x3 3;
    V 0x2 4; V 0x1 5; V 0x1 4; V 0x0 5;
    V 0x0 0; V 0x0 0; V 0x0 0; V 0x0 0 ].

(** x264_total_zeros[5] *)
Definition x264_total_zeros_5 : list vlc_t :=
  [
    V 0x1 6; V 0x1 5; V 0x7 3; V 0x6 3;
    V 0x5 3; V 0x4 3; V 0x3 3; V 0x2 3;
    V 0x1 4; V 0x1 3; V 0x0 6; V 0x0 0;
    V 0x0 0; V 0x0 0; V 0x0 0; V 0x0 0 ].

(** x264_total_zeros[6] *)
Definition x264_total_zeros_6 : list vlc_t :=
  [
    V 0x1 6; V 0x1 5; V 0x5 3; V 0x4 3;
    V 0x3 3; V 0x3 2; V 0x2 3; V 0x1 4;
    V 0x1 3; V 0x0 6; V 0x0 0; V 0x0 0;
    V 0x0 0; V 0x0 0; V 0x0 0; V 0x0 0 ].

(** x264_total_zeros[7] *)
Definition x264_total_zeros_7 : list vlc_t :=
  [
    V 0x1 6; V 0x1 4; V 0x1 5; V 0x3 3;
    V 0x3 2; V 0x2 2; V 0x2 3; V 0x1 3;
    V 0x0 6; V 0x0 0; V 0x0 0; V 0x0 0;
    V 0x0 0; V 0x0 0; V 0x0 0; V 0x0 0 ].

(** x264_total_zeros[8] *)
Definition x264_total_zeros_8 : list vlc_t :=
  [
    V 0x1 6; V 0x0 6; V 0x1 4; V 0x3 2;
    V 0x2 2; V 0x1 3; V 0x1 2; V 0x1 5;
    V 0x0 0; V 0x0 0; V 0x0 0; V 0x0 0;
    V 0x0 0; V 0x0 0; V 0x0 0; V 0x0 0 ].

(** x264_total_zeros[9] *)
Definition x264_total_zeros_9 : list vlc_t :=
  [
    V 0x1 5; V 0x0 5; V 0x1 3; V 0x3 2;
    V 0x2 2; V 0x1 2; V 0x1 4; V 0x0 0;
    V 0x0 0; V 0x0 0; V 0x0 0; V 0x0 0;
    V 0x0 0; V 0x0 0; V 0x0 0; V 0x0 0 ].

(** x264_total_zeros[10] *)
Definition x264_total_zeros_10 : list vlc_t :=
  [
    V 0x0 4; V 0x1 4; V 0x1 3; V 0x2 3;
    V 0x1 1; V 0x3 3; V 0x0 0; V 0x0 0;
    V 0x0 0; V 0x0 0; V 0x0 0; V 0x0 0;
    V 0x0 0; V 0x0 0; V 0x0 0; V 0x0 0 ].

(** x264_total_zeros[11] *)
Definition x264_total_zeros_11 : list vlc_t :=
  [
    V 0x0 4; V 0x1 4; V 0x1 2; V 0x1 1;
    V 0x1 3; V 0x0 0; V 0x0 0; V 0x0 0;
    V 0x0 0; V 0x0 0; V 0x0 0; V 0x0 0;
    V 0x0 0; V 0x0 0; V 0x0 0; V 0x0 0 ].

(** x264_total_zeros[12] *)
Definition x264_total_zeros_12 : list vlc_t :=
  [
    V 0x0 3; V 0x1 3; V 0x1 1; V 0x1 2;
    V 0x0 0; V 0x0 0; V 0x0 0; V 0x0 0;
    V 0x0 0; V 0x0 0; V 0x0 0; V 0x0 0;
    V 0x0 0; V 0x0 0; V 0x0 0; V 0x0 0 ].

(** x264_total_zeros[13] *)
Definition x264_total_zeros_13 : list vlc_t :=
  [
    V 0x0 2; V 0x1 2; V 0x1 1; V 0x0 0;
    V 0x0 0; V 0x0 0; V 0x0 0; V 0x0 0;
    V 0x0 0; V 0x0 0; V 0x0 0; V 0x0 0;
    V 0x0 0; V 0x0 0; V 0x0 0; V 0x0 0 ].

(** x264_total_zeros[14] *)
Definition x264_total_zeros_14 : list vlc_t :=
  [
    V 0x0 1; V 0x1 1; V 0x0 0; V 0x0 0;
    V 0x0 0; V 0x0 0; V 0x0 0; V 0x0 0;
    V 0x0 0; V 0x0 0; V 0x0 0; V 0x0 0;
    V 0x0 0; V 0x0 0; V 0x0 0; V 0x0 0 ].

Definition x264_total_zeros : list (list vlc_t) :=
  [x264_total_zeros_0; x264_total_zeros_1; x264_total_zeros_2; x264_total_zeros_3; x264_total_zeros_4; x264_total_zeros_5; x264_total_zeros_6; x264_total_zeros_7; x264_total_zeros_8; x264_total_zeros_9; x264_total_zeros_10; x264_total_zeros_11; x264_total_zeros_12; x264_total_zeros_13; x264_total_zeros_14].

(** x264_total_zeros_dc[0] *)
Definition x264_total_zeros_dc_0 : list vlc_t :=
  [
    V 0x1 1; V 0x1 2; V 0x1 3; V 0x0 3 ].

(** x264_total_zeros_dc[1] *)
Definition x264_total_zeros_dc_1 : list vlc_t :=
  [
    V 0x1 1; V 0x1 2; V 0x0 2; V 0x0 0 ].

(** x264_total_zeros_dc[2] *)
Definition x264_total_zeros_dc_2 : list vlc_t :=
  [
    V 0x1 1; V 0x0 1; V 0x0 0; V 0x0 0 ].

Definition x264_total_zeros_dc : list (list vlc_t) :=
  [x264_total_zeros_dc_0; x264_total_zeros_dc_1; x264_total_zeros_dc_2].

(** x264_run_before[0] *)
Definition x264_run_before_0 : list vlc_t :=
  [
    V 0x1 1; V 0x0 1; V 0x0 0; V 0x0 0; V 0x0 0;
    V 0x0 0; V 0x0 0; V 0x0 0; V 0x0 0; V 0x0 0;
    V 0x0 0; V 0x0 0; V 0x0 0; V 0x0 0; V 0x0 0 ].

(** x264_run_before[1] *)
Definition x264_run_before_1 : list vlc_t :=
  [
    V 0x1 1; V 0x1 2; V 0x0 2; V 0x0 0; V 0x0 0;
    V 0x0 0; V 0x0 0; V 0x0 0; V 0x0 0; V 0x0 0;
    V 0x0 0; V 0x0 0; V 0x0 0; V 0x0 0; V 0x0 0 ].

(** x264_run_before[2] *)
Definition x264_run_before_2 : list vlc_t :=
  [
    V 0x3 2; V 0x2 2; V 0x1 2; V 0x0 2; V 0x0 0;
    V 0x0 0; V 0x0 0; V 0x0 0; V 0x0 0; V 0x0 0;
    V 0x0 0; V 0x0 0; V 0x0 0; V 0x0 0; V 0x0 0 ].

(** x264_run_before[3] *)
Definition x264_run_before_3 : list vlc_t :=
  [
    V 0x3 2; V 0x2 2; V 0x1 2; V 0x1 3; V 0x0 3;
    V 0x0 0; V 0x0 0; V 0x0 0; V 0x0 0; V 0x0 0;
    V 0x0 0; V 0x0 0; V 0x0 0; V 0x0 0; V 0x0 0 ].

(** x264_run_before[4] *)
Definition x264_run_before_4 : list vlc_t :=
  [
    V 0x3 2; V 0x2 2; V 0x3 3; V 0x2 3; V 0x1 3;
    V 0x0 3; V 0x0 0; V 0x0 0; V 0x0 0; V 0x0 0;
    V 0x0 0; V 0x0 0; V 0x0 0; V 0x0 0; V 0x0 0 ].

(** x264_run_before[5] *)
Definition x264_run_before_5 : list vlc_t :=
  [
    V 0x3 2; V 0x0 3; V 0x1 3; V 0x3 3; V 0x2 3;
    V 0x5 3; V 0x4 3; V 0x0 0; V 0x0 0; V 0x0 0;
    V 0x0 0; V 0x0 0; V 0x0 0; V 0x0 0; V 0x0 0 ].

(** x264_run_before[6] *)
Definition x264_run_before_6 : list vlc_t :=
  [
    V 0x7 3; V 0x6 3; V 0x5 3; V 0x4 3; V 0x3 3;
    V 0x2 3; V 0x1 3; V 0x1 4; V 0x1 5; V 0x1 6;
    V 0x1 7; V 0x1 8; V 0x1 9; V 0x1 10; V 0x1 11 ].

Definition x264_run_before : list (list vlc_t) :=
  [x264_run_before_0; x264_run_before_1; x264_run_before_2; x264_run_before_3; x264_run_before_4; x264_run_before_5; x264_run_before_6].

(** [strip c l] is what follows the bit string [c] in [l], when [l] starts with it. *)
Fixpoint strip (c l : list bool) : option (list bool) :=
  match c, l with
  | [], _ => Some l
  | b :: c, b' :: l => if Bool.eqb b b' then strip c l else None
  | _ :: _, [] => None
  end.

(** The code word of an entry. *)
Definition vlc_bits (v : vlc_t) : list bool := bits (Z.to_nat (i_size v)) (i_bits v).

Definition vlc_used (v : vlc_t) : bool := 0 <? i_size v.

(** The entry at a C index. *)
Definition vlc_at (t : list vlc_t) (i : Z) : vlc_t := nth (Z.to_nat i) t (V 0 0).

(** The reader: the first used entry whose code word comes next. *)
Fixpoint read_vlc_from (i : Z) (t : list vlc_t) (l : list bool) : option (Z * list bool) :=
  match t with
  | [] => None
  | v :: t =>
      match (if vlc_used v then strip (vlc_bits v) l else None) with
      | Some rest => Some (i, rest)
      | None => read_vlc_from (i + 1) t l
      end
  end.
Definition read_vlc : list vlc_t -> list bool -> option (Z * list bool) := read_vlc_from 0.

(** An entry that [bs_write] can write. *)
Definition vlc_fits (v : vlc_t) : bool :=
  (0 <=? i_bits v) && (i_bits v <? 2 ^ i_size v) && (0 <=? i_size v) && (i_size v <=? 16).

Definition clash (v w : vlc_t) : bool :=
  vlc_used v && vlc_used w &&
  match strip (vlc_bits v) (vlc_bits w), strip (vlc_bits w) (vlc_bits v) with
  | None, None => false
  | _, _ => true
  end.

Fixpoint prefix_free (t : list vlc_t) : bool :=
  match t with
  | [] => true
  | v :: t => vlc_fits v && negb (existsb (clash v) t) && prefix_free t
  end.

Definition all_tables : list (list vlc_t) :=
  x264_coeff_token ++ x264_total_zeros ++ x264_total_zeros_dc ++ x264_run_before.

Lemma all_tables_prefix_free : forallb prefix_free all_tables = true.
Proof. vm_compute. reflexivity. Qed.

Lemma strip_app c l : strip c (c ++ l) = Some l.
Proof. induction c as [|b c IH]; simpl; [done|]. by rewrite Bool.eqb_reflx. Qed.

Lemma strip_some c l r : strip c l = Some r -> l = c ++ r.
Proof.
  revert l. induction c as [|b c IH]; intros l; simpl; [intros [=]; by subst|].
  destruct l as [|b' l]; [done|]. destruct (Bool.eqb b b') eqn:E; [|done].
  apply Bool.eqb_prop in E as ->. intros H. f_equal. by apply IH.
Qed.

(** Of two bit strings that start the same string, one starts the other. *)
Lemma strip_clash c d l r : strip c (d ++ l) = Some r ->
  (exists x, strip c d = Some x) \/ (exists x, strip d c = Some x).
Proof.
  revert d. induction c as [|b c IH]; intros d; simpl; [eauto|].
  destruct d as [|b' d]; simpl; [eauto|].
  destruct (Bool.eqb b b') eqn:E; [|done]. apply Bool.eqb_prop in E as ->.
  rewrite Bool.eqb_reflx. apply IH.
Qed.

Lemma read_vlc_from_spec k t i rest : prefix_free t = true ->
  0 <= i < Z.of_nat (length t) -> vlc_used (vlc_at t i) = true ->
  read_vlc_from k t (vlc_bits (vlc_at t i) ++ rest) = Some (k + i, rest).
Proof.
  revert k i. induction t as [|v t IH]; intros k i Hp Hi Hu; cbn [length] in Hi; [lia|].
  cbn [prefix_free] in Hp. apply andb_prop in Hp as [Hp Ht]. apply andb_prop in Hp as [_ Hc].
  cbn [read_vlc_from]. destruct (Z.eq_dec i 0) as [->|Hne].
  - change (vlc_at (v :: t) 0) with v in *. rewrite Hu, strip_app. do 2 f_equal. lia.
  - assert (vlc_at (v :: t) i = vlc_at t (i - 1)) as E.
    { unfold vlc_at. replace (Z.to_nat i) with (S (Z.to_nat (i - 1))) by lia. done. }
    rewrite E in *. set (w := vlc_at t (i - 1)) in *.
    assert (clash v w = false) as Hcl.
    { apply Bool.negb_true_iff in Hc. destruct (clash v w) eqn:X; [|done].
      rewrite <- Hc. symmetry. apply existsb_exists. exists w. split; [|done].
      apply nth_In. lia. }
    assert ((if vlc_used v then strip (vlc_bits v) (vlc_bits w ++ rest) else None) = None) as ->.
    { destruct (vlc_used v) eqn:Uv; [|done]. unfold clash in Hcl. rewrite Uv, Hu in Hcl.
      destruct (strip (vlc_bits v) (vlc_bits w ++ rest)) eqn:S; [|done].
      apply strip_clash in S as [[x S]|[x S]]; rewrite S in Hcl; simpl in Hcl;
        [done|destruct (strip (vlc_bits v) (vlc_bits w)); done]. }
    pose proof (IH (k + 1) (i - 1) Ht ltac:(lia)) as X. fold w in X.
    rewrite X by done. do 2 f_equal. lia.
Qed.

Lemma read_vlc_spec t i rest : In t all_tables -> 0 <= i < Z.of_nat (length t) ->
  vlc_used (vlc_at t i) = true ->
  read_vlc t (vlc_bits (vlc_at t i) ++ rest) = Some (i, rest).
Proof.
  intros Ht Hi Hu. apply (read_vlc_from_spec 0); [|done..].
  pose proof all_tables_prefix_free as H. rewrite forallb_forall in H. by apply H.
Qed.

Lemma vlc_at_fits t i : In t all_tables -> vlc_fits (vlc_at t i) = true.
Proof.
  intros Ht. pose proof all_tables_prefix_free as H. rewrite forallb_forall in H.
  specialize (H t Ht). unfold vlc_at. generalize (Z.to_nat i) as k.
  clear Ht i. induction t as [|v t IH]; intros k; [by destruct k|].
  cbn [prefix_free] in H. apply andb_prop in H as [H Ht]. apply andb_prop in H as [Hv _].
  destruct k; [done|]. by apply IH.
Qed.

(** Reading a known sequence of tables. *)
Fixpoint read_vlcs (ts : list (list vlc_t)) (l : list bool) : option (list Z * list bool) :=
  match ts with
  | [] => Some ([], l)
  | t :: ts =>
      match read_vlc t l with
      | Some (i, l) =>
          match read_vlcs ts l with
          | Some (js, l) => Some (i :: js, l)
          | None => None
          end
      | None => None
      end
  end.

Definition code_ok (c : list vlc_t * Z) : Prop :=
  In c.1 all_tables /\ 0 <= c.2 < Z.of_nat (length c.1) /\ vlc_used (vlc_at c.1 c.2) = true.

(** any sequence of used code words of the CAVLC tables, whatever bits follow
    it, is read back to the indices it was made from: each table is a prefix
    code. *)
Theorem vlc_sequence_decodable cs rest :
  Forall code_ok cs ->
  read_vlcs (map fst cs) (concat (map (fun c => vlc_bits (vlc_at c.1 c.2)) cs) ++ rest)
  = Some (map snd cs, rest).
Proof.
  induction 1 as [|[t i] cs (Ht & Hi & Hu) Hcs IH]; [done|].
  cbn [map concat read_vlcs fst snd] in *. rewrite <- app_assoc.
  rewrite read_vlc_spec by done. by rewrite IH.
Qed.

Lemma vlc_sequence_decodable_witness :
  read_vlcs [x264_coeff_token_0; x264_total_zeros_4; x264_run_before_6]
    (concat [vlc_bits (vlc_at x264_coeff_token_0 22); vlc_bits (vlc_at x264_total_zeros_4 3);
             vlc_bits (vlc_at x264_run_before_6 9)] ++ [true])
  = Some ([22; 3; 9], [true]).
Proof.
  apply (vlc_sequence_decodable
    [(x264_coeff_token_0, 22); (x264_total_zeros_4, 3); (x264_run_before_6, 9)] [true]).
  repeat (constructor; [unfold code_ok; split; [cbn; tauto|split; [cbn; lia|reflexivity]]|]).
  constructor.
Defined.
