(* ===== verification/Quant.v ===== *)
(** * Quantisation and coefficient scans of x264 (common/quant.c)

    Coefficient blocks are flat arrays of [int16_t], indexed from 0 in memory
    order, as the C code walks them ([dct[0][i]]). *)
From S2P Require Import Prelude.

Definition QUANT_ONE (coef mf f : Z) : Z :=
  if 0 <? coef
  then s16 (s32 (s32 (f + coef) * mf) >> 16)
  else s16 (- (s32 (s32 (f - coef) * mf) >> 16)).

Definition quant_8x8 (dct mf bias : Z -> Z) : Z -> Z :=
  for_ 64 0 (fun i dct => upd dct i (QUANT_ONE (dct i) (mf i) (bias i))) dct.

Definition quant_4x4 (dct mf bias : Z -> Z) : Z -> Z :=
  for_ 16 0 (fun i dct => upd dct i (QUANT_ONE (dct i) (mf i) (bias i))) dct.

Definition quant_4x4_dc (dct : Z -> Z) (mf bias : Z) : Z -> Z :=
  for_ 16 0 (fun i dct => upd dct i (QUANT_ONE (dct i) mf bias)) dct.

Definition quant_2x2_dc (dct : Z -> Z) (mf bias : Z) : Z -> Z :=
  let dct := upd dct 0 (QUANT_ONE (dct 0) mf bias) in
  let dct := upd dct 1 (QUANT_ONE (dct 1) mf bias) in
  let dct := upd dct 2 (QUANT_ONE (dct 2) mf bias) in
  upd dct 3 (QUANT_ONE (dct 3) mf bias).

(** [dequant_mf[i_mf][y][x]] of a [w]x[w] block is [dequant_mf i_mf (w * y + x)]. *)
Definition DEQUANT_SHL (w : Z) (dequant_mf : Z -> Z -> Z) (i_mf i_qbits y x : Z) (dct : Z -> Z) : Z -> Z :=
  upd dct (w * y + x) (s16 (s32 (s32 (dct (w * y + x) * dequant_mf i_mf (w * y + x)) << i_qbits))).

Definition DEQUANT_SHR (w : Z) (dequant_mf : Z -> Z -> Z) (i_mf i_qbits f y x : Z) (dct : Z -> Z) : Z -> Z :=
  upd dct (w * y + x)
    (s16 (s32 (s32 (dct (w * y + x) * dequant_mf i_mf (w * y + x)) + f) >> (- i_qbits))).

Definition dequant_4x4 (dct : Z -> Z) (dequant_mf : Z -> Z -> Z) (i_qp : Z) : Z -> Z :=
  let i_mf := Z.rem i_qp 6 in
  let i_qbits := Z.quot i_qp 6 - 4 in
  if 0 <=? i_qbits then
    for_ 4 0 (fun y dct =>
      let dct := DEQUANT_SHL 4 dequant_mf i_mf i_qbits y 0 dct in
      let dct := DEQUANT_SHL 4 dequant_mf i_mf i_qbits y 1 dct in
      let dct := DEQUANT_SHL 4 dequant_mf i_mf i_qbits y 2 dct in
      DEQUANT_SHL 4 dequant_mf i_mf i_qbits y 3 dct) dct
  else
    let f := 1 << (- i_qbits - 1) in
    for_ 4 0 (fun y dct =>
      let dct := DEQUANT_SHR 4 dequant_mf i_mf i_qbits f y 0 dct in
      let dct := DEQUANT_SHR 4 dequant_mf i_mf i_qbits f y 1 dct in
      let dct := DEQUANT_SHR 4 dequant_mf i_mf i_qbits f y 2 dct in
      DEQUANT_SHR 4 dequant_mf i_mf i_qbits f y 3 dct) dct.

Definition dequant_8x8 (dct : Z -> Z) (dequant_mf : Z -> Z -> Z) (i_qp : Z) : Z -> Z :=
  let i_mf := Z.rem i_qp 6 in
  let i_qbits := Z.quot i_qp 6 - 6 in
  if 0 <=? i_qbits then
    for_ 8 0 (fun y dct =>
      let dct := DEQUANT_SHL 8 dequant_mf i_mf i_qbits y 0 dct in
      let dct := DEQUANT_SHL 8 dequant_mf i_mf i_qbits y 1 dct in
      let dct := DEQUANT_SHL 8 dequant_mf i_mf i_qbits y 2 dct in
      let dct := DEQUANT_SHL 8 dequant_mf i_mf i_qbits y 3 dct in
      let dct := DEQUANT_SHL 8 dequant_mf i_mf i_qbits y 4 dct in
      let dct := DEQUANT_SHL 8 dequant_mf i_mf i_qbits y 5 dct in
      let dct := DEQUANT_SHL 8 dequant_mf i_mf i_qbits y 6 dct in
      DEQUANT_SHL 8 dequant_mf i_mf i_qbits y 7 dct) dct
  else
    let f := 1 << (- i_qbits - 1) in
    for_ 8 0 (fun y dct =>
      let dct := DEQUANT_SHR 8 dequant_mf i_mf i_qbits f y 0 dct in
      let dct := DEQUANT_SHR 8 dequant_mf i_mf i_qbits f y 1 dct in
      let dct := DEQUANT_SHR 8 dequant_mf i_mf i_qbits f y 2 dct in
      let dct := DEQUANT_SHR 8 dequant_mf i_mf i_qbits f y 3 dct in
      let dct := DEQUANT_SHR 8 dequant_mf i_mf i_qbits f y 4 dct in
      let dct := DEQUANT_SHR 8 dequant_mf i_mf i_qbits f y 5 dct in
      let dct := DEQUANT_SHR 8 dequant_mf i_mf i_qbits f y 6 dct in
      DEQUANT_SHR 8 dequant_mf i_mf i_qbits f y 7 dct) dct.

Definition dequant_4x4_dc (dct : Z -> Z) (dequant_mf : Z -> Z -> Z) (i_qp : Z) : Z -> Z :=
  let i_qbits := Z.quot i_qp 6 - 6 in
  if 0 <=? i_qbits then
    let i_dmf := s32 (dequant_mf (Z.rem i_qp 6) 0 << i_qbits) in
    for_ 4 0 (fun y dct =>
      for_ 4 0 (fun x dct => upd dct (4 * y + x) (s16 (s32 (dct (4 * y + x) * i_dmf)))) dct) dct
  else
    let i_dmf := dequant_mf (Z.rem i_qp 6) 0 in
    let f := 1 << (- i_qbits - 1) in
    for_ 4 0 (fun y dct =>
      for_ 4 0 (fun x dct =>
        upd dct (4 * y + x) (s16 (s32 (s32 (dct (4 * y + x) * i_dmf) + f) >> (- i_qbits)))) dct) dct.

(** [sum] is an array of [uint32_t]; the loop starts at 1. *)
Definition x264_denoise_dct (dct sum offset : Z -> Z) (size : Z) : (Z -> Z) * (Z -> Z) :=
  for_ (Z.to_nat (size - 1)) 1 (fun i '(dct, sum) =>
    let level := dct i in
    let sign := level >> 15 in
    let level := (level + sign) .^ sign in
    let sum := upd sum i (u32 (sum i + level)) in
    let level := level - offset i in
    (upd dct i (s16 (if level <? 0 then 0 else (level .^ sign) - sign)), sum)) (dct, sum).

Definition x264_decimate_table4 : list Z := [3;2;2;1;1;1;0;0;0;0;0;0;0;0;0;0].
Definition x264_decimate_table8 : list Z :=
  [3;3;3;3;2;2;2;2;2;2;2;2;1;1;1;1;
   1;1;1;1;1;1;1;1;0;0;0;0;0;0;0;0;
   0;0;0;0;0;0;0;0;0;0;0;0;0;0;0;0;
   0;0;0;0;0;0;0;0;0;0;0;0;0;0;0;0].

(** [*(uint32_t* )&dct[i]] and [*(uint64_t* )&dct[i]] of a little-endian host. *)
Definition ld_coef32 (dct : Z -> Z) (i : Z) : Z := u16 (dct i) + u16 (dct (i + 1)) * 2 ^ 16.
Definition ld_coef64 (dct : Z -> Z) (i : Z) : Z :=
  ld_coef32 dct i + ld_coef32 dct (i + 2) * 2 ^ 32.

(** The run of zeros below [idx]: the inner loop of the score. *)
Definition decimate_run (fuel : nat) (dct : Z -> Z) (idx : Z) : option (Z * Z) :=
  while_ fuel (fun '(idx, i_run) => (0 <=? idx) && (dct idx =? 0))
    (fun '(idx, i_run) => (idx - 1, i_run + 1)) (idx, 0).

(** The outer loop; each round consumes at least one coefficient, so [fuel]
    above [idx] is enough. *)
Fixpoint decimate_loop (fuel : nat) (ds_table : list Z) (dct : Z -> Z) (idx i_score : Z) : option Z :=
  if 0 <=? idx then
    match fuel with
    | O => None
    | S fuel' =>
        if 2 <? u32 (dct idx + 1) then Some 9
        else match decimate_run fuel dct (idx - 1) with
             | Some (idx, i_run) =>
                 decimate_loop fuel' ds_table dct idx (i_score + nth (Z.to_nat i_run) ds_table 0)
             | None => None
             end
    end
  else Some i_score.

Definition x264_decimate_score_internal (dct : Z -> Z) (i_max : Z) : option Z :=
  let ds_table := if i_max =? 64 then x264_decimate_table8 else x264_decimate_table4 in
  match while_ (Z.to_nat i_max) (fun idx => (0 <=? idx) && (ld_coef32 dct (idx - 1) =? 0))
               (fun idx => idx - 2) (i_max - 1) with
  | Some idx =>
      let idx := if (0 <=? idx) && (dct idx =? 0) then idx - 1 else idx in
      decimate_loop (Z.to_nat i_max) ds_table dct idx 0
  | None => None
  end.

Definition x264_decimate_score15 (dct : Z -> Z) : option Z :=
  x264_decimate_score_internal (fun i => dct (i + 1)) 15.
Definition x264_decimate_score16 (dct : Z -> Z) : option Z := x264_decimate_score_internal dct 16.
Definition x264_decimate_score64 (dct : Z -> Z) : option Z := x264_decimate_score_internal dct 64.

Definition x264_coeff_last_internal (l : Z -> Z) (i_count : Z) : option Z :=
  match while_ (Z.to_nat i_count) (fun i_last => (3 <=? i_last) && (ld_coef64 l (i_last - 3) =? 0))
               (fun i_last => i_last - 4) (i_count - 1) with
  | Some i_last =>
      while_ (Z.to_nat i_count) (fun i_last => (0 <=? i_last) && (l i_last =? 0))
        (fun i_last => i_last - 1) i_last
  | None => None
  end.

Definition x264_coeff_last4 (l : Z -> Z) : option Z := x264_coeff_last_internal l 4.
Definition x264_coeff_last15 (l : Z -> Z) : option Z := x264_coeff_last_internal l 15.
Definition x264_coeff_last16 (l : Z -> Z) : option Z := x264_coeff_last_internal l 16.
Definition x264_coeff_last64 (l : Z -> Z) : option Z := x264_coeff_last_internal l 64.

(** * Quantisation *)

(** The quantiser of the standard: scale the magnitude, keep the sign. *)
Definition quant_spec (c mf bias : Z) : Z := Z.sgn c * (((Z.abs c + bias) * mf) / 2 ^ 16).

(** The products the code forms fit an [int]. *)
Definition quant_fits (c mf bias : Z) : Prop :=
  0 <= mf /\ 0 <= bias /\ (Z.abs c + bias) * mf < 2 ^ 31 /\ Z.abs c + bias < 2 ^ 31.

Lemma quant_div_range c mf bias : quant_fits c mf bias ->
  0 <= ((Z.abs c + bias) * mf) / 2 ^ 16 < 2 ^ 15.
Proof.
  intros (H1 & H2 & H3 & H4). split; [apply Z.div_pos; nia|].
  apply Z.div_lt_upper_bound; lia.
Qed.

Lemma QUANT_ONE_spec c mf bias : quant_fits c mf bias ->
  QUANT_ONE c mf bias = (if 0 <? c then quant_spec c mf bias
                         else - (((Z.abs c + bias) * mf) / 2 ^ 16)).
Proof.
  intros H. pose proof (quant_div_range _ _ _ H) as R. destruct H as (H1 & H2 & H3 & H4).
  unfold QUANT_ONE, quant_spec. destruct (Z.ltb_spec 0 c).
  - rewrite Z.abs_eq in * by lia. rewrite Z.sgn_pos, Z.mul_1_l by lia.
    rewrite (Z.add_comm bias), (sw_small 32 (c + bias)), (sw_small 32 (_ * _)) by (simpl; nia).
    rewrite Z.shiftr_div_pow2 by lia. apply sw_small; simpl; lia.
  - rewrite Z.abs_neq in * by lia.
    replace (bias - c) with (- c + bias) by lia.
    rewrite (sw_small 32 (- c + bias)), (sw_small 32 (_ * _)) by (simpl; nia).
    rewrite Z.shiftr_div_pow2 by lia. apply sw_small; simpl; lia.
Qed.

(** On a zero coefficient the code quantises the bias alone, which is 0 for the
    biases in use ([bias * mf < 2 ^ 16]). *)
Lemma QUANT_ONE_sgn c mf bias : quant_fits c mf bias -> (c = 0 -> bias * mf < 2 ^ 16) ->
  QUANT_ONE c mf bias = quant_spec c mf bias.
Proof.
  intros H H0. rewrite QUANT_ONE_spec by done. destruct (Z.ltb_spec 0 c); [done|].
  unfold quant_spec. destruct (Z.eq_dec c 0) as [->|].
  - destruct H as (? & ? & ? & ?). change (Z.abs 0) with 0 in *. rewrite Z.add_0_l.
    rewrite Z.div_small by (specialize (H0 eq_refl); nia). done.
  - rewrite Z.sgn_neg by lia. lia.
Qed.

(** every coefficient of a 4x4 or 8x8 block is quantised to
    [sgn c * ((|c| + bias) * mf >> 16)], nothing outside the block changes, and
    the scaled value is within one quantiser step of the coefficient. *)
Lemma quant_block_correct n dct mf bias :
  n = 16 \/ n = 64 ->
  (forall i, 0 <= i < n -> quant_fits (dct i) (mf i) (bias i) /\ bias i * mf i < 2 ^ 16) ->
  let dct' := if n =? 16 then quant_4x4 dct mf bias else quant_8x8 dct mf bias in
  (forall i, 0 <= i < n ->
     dct' i = quant_spec (dct i) (mf i) (bias i) /\
     Z.abs (dct' i * 2 ^ 16 - dct i * mf i) <= Z.max (bias i * mf i) (2 ^ 16 - bias i * mf i)) /\
  (forall i, ~ 0 <= i < n -> dct' i = dct i).
Proof.
  intros Hn H. cbv zeta.
  assert (forall i, (if n =? 16 then quant_4x4 dct mf bias else quant_8x8 dct mf bias) i =
    if (0 <=? i) && (i <? n) then QUANT_ONE (dct i) (mf i) (bias i) else dct i) as E.
  { intros i. unfold quant_4x4, quant_8x8.
    destruct Hn as [-> | ->]; cbn [Z.eqb Pos.eqb].
    - exact (for_upd_pointwise 16 0 (fun i c => QUANT_ONE c (mf i) (bias i)) dct i).
    - exact (for_upd_pointwise 64 0 (fun i c => QUANT_ONE c (mf i) (bias i)) dct i). }
  split; intros i Hi; rewrite E.
  - rewrite in_range_b by done. destruct (H i Hi) as [Hf Hb].
    rewrite QUANT_ONE_sgn by (done || intros; lia). split; [done|].
    destruct Hf as (H1 & H2 & _ & _). unfold quant_spec.
    set (q := ((Z.abs (dct i) + bias i) * mf i) / 2 ^ 16).
    assert (q * 2 ^ 16 <= (Z.abs (dct i) + bias i) * mf i < q * 2 ^ 16 + 2 ^ 16) as Hq.
    { pose proof (Z.div_mod ((Z.abs (dct i) + bias i) * mf i) (2 ^ 16)) as D.
      pose proof (Z.mod_pos_bound ((Z.abs (dct i) + bias i) * mf i) (2 ^ 16)). fold q in D. lia. }
    assert (0 <= bias i * mf i) by nia.
    rewrite Z.mul_add_distr_r in Hq.
    destruct (Z.sgn_spec (dct i)) as [[Hs ->]|[[Hs ->]|[Hs ->]]].
    + rewrite Z.abs_eq in Hq by lia. lia.
    + rewrite <- Hs in *. lia.
    + rewrite Z.abs_neq in Hq by lia. lia.
  - by rewrite out_range_b.
Qed.

Lemma quant_block_correct_witness :
  quant_4x4 (fun i => if i =? 3 then -500 else 7 * i) (fun _ => 13107) (fun _ => 2) 3 = -100.
Proof.
  destruct (quant_block_correct 16 (fun i => if i =? 3 then -500 else 7 * i)
    (fun _ => 13107) (fun _ => 2)) as [H _]; [by left| |].
  - intros i Hi. unfold quant_fits. destruct (i =? 3) eqn:E; cbn; lia.
  - destruct (H 3) as [E _]; [lia|]. exact E.
Defined.

(** * Dequantisation *)

(** One coefficient, with the scale of its position and the exponent of its QP. *)
Definition dequant_spec (c dmf i_qbits : Z) : Z :=
  if 0 <=? i_qbits then c * dmf * 2 ^ i_qbits
  else (c * dmf + 2 ^ (- i_qbits - 1)) / 2 ^ (- i_qbits).

Definition dequant_fits (c dmf i_qbits : Z) : Prop :=
  Z.abs (c * dmf) + 2 ^ 6 < 2 ^ 31 /\ Z.abs (c * dmf * 2 ^ Z.max 0 i_qbits) < 2 ^ 31 /\
  - 2 ^ 15 <= dequant_spec c dmf i_qbits < 2 ^ 15.

Definition DEQUANT_ONE (c dmf i_qbits : Z) : Z :=
  if 0 <=? i_qbits then s16 (s32 (s32 (c * dmf) << i_qbits))
  else s16 (s32 (s32 (c * dmf) + (1 << (- i_qbits - 1))) >> (- i_qbits)).

Lemma DEQUANT_ONE_spec c dmf i_qbits : -6 <= i_qbits -> dequant_fits c dmf i_qbits ->
  DEQUANT_ONE c dmf i_qbits = dequant_spec c dmf i_qbits.
Proof.
  intros Hq (H1 & H2 & H3). unfold DEQUANT_ONE, dequant_spec in *.
  destruct (Z.leb_spec 0 i_qbits).
  - rewrite Z.max_r in H2 by lia. rewrite (sw_small 32 (c * dmf)) by (simpl; lia).
    rewrite Z.shiftl_mul_pow2 by lia. rewrite (sw_small 32) by (simpl; lia).
    apply sw_small; simpl; lia.
  - assert (2 ^ (- i_qbits - 1) <= 2 ^ 5) by (apply Z.pow_le_mono_r; lia).
    pose proof (pow2_pos (- i_qbits - 1)).
    rewrite Z.shiftl_1_l, Z.shiftr_div_pow2 by lia.
    rewrite (sw_small 32 (c * dmf)) by (simpl; lia). rewrite (sw_small 32) by (simpl; lia).
    apply sw_small; simpl; lia.
Qed.

Lemma dequant_4x4_pointwise dct dmf i_qp j :
  dequant_4x4 dct dmf i_qp j =
  if (0 <=? j) && (j <? 16)
  then DEQUANT_ONE (dct j) (dmf (Z.rem i_qp 6) j) (Z.quot i_qp 6 - 4) else dct j.
Proof.
  rewrite <- (for_grid 4 4 (fun j c => DEQUANT_ONE c (dmf (Z.rem i_qp 6) j) (Z.quot i_qp 6 - 4))).
  unfold dequant_4x4, DEQUANT_ONE. cbv zeta.
  destruct (0 <=? Z.quot i_qp 6 - 4); reflexivity.
Qed.

Lemma dequant_8x8_pointwise dct dmf i_qp j :
  dequant_8x8 dct dmf i_qp j =
  if (0 <=? j) && (j <? 64)
  then DEQUANT_ONE (dct j) (dmf (Z.rem i_qp 6) j) (Z.quot i_qp 6 - 6) else dct j.
Proof.
  rewrite <- (for_grid 8 8 (fun j c => DEQUANT_ONE c (dmf (Z.rem i_qp 6) j) (Z.quot i_qp 6 - 6))).
  unfold dequant_8x8, DEQUANT_ONE. cbv zeta.
  destruct (0 <=? Z.quot i_qp 6 - 6); reflexivity.
Qed.

Lemma dequant_4x4_dc_pointwise dct dmf i_qp j :
  (0 <= Z.quot i_qp 6 - 6 -> Z.abs (dmf (Z.rem i_qp 6) 0 * 2 ^ (Z.quot i_qp 6 - 6)) < 2 ^ 31) ->
  (Z.quot i_qp 6 - 6 < 0 \/ Z.abs (dct j * dmf (Z.rem i_qp 6) 0) < 2 ^ 31) ->
  dequant_4x4_dc dct dmf i_qp j =
  if (0 <=? j) && (j <? 16)
  then DEQUANT_ONE (dct j) (dmf (Z.rem i_qp 6) 0) (Z.quot i_qp 6 - 6) else dct j.
Proof.
  intros H1 H2. unfold dequant_4x4_dc, DEQUANT_ONE. cbv zeta.
  destruct (Z.leb_spec 0 (Z.quot i_qp 6 - 6)).
  - rewrite (for_grid 4 4 (fun j c => s16 (s32 (c * s32 (dmf (Z.rem i_qp 6) 0 << (Z.quot i_qp 6 - 6)))))).
    change (Z.of_nat 4 * Z.of_nat 4) with 16.
    destruct ((0 <=? j) && (j <? 16)); [|done].
    specialize (H1 ltac:(assumption)). destruct H2 as [H2|H2]; [lia|].
    rewrite !Z.shiftl_mul_pow2 by lia. rewrite (sw_small 32 (dmf _ _ * _)) by lia.
    rewrite (sw_small 32 (dct j * dmf _ _)) by lia.
    by rewrite Z.mul_assoc.
  - rewrite (for_grid 4 4 (fun j c => s16 (s32 (s32 (c * dmf (Z.rem i_qp 6) 0)
       + (1 << (- (Z.quot i_qp 6 - 6) - 1))) >> (- (Z.quot i_qp 6 - 6))))).
    change (Z.of_nat 4 * Z.of_nat 4) with 16. done.
Qed.

(** every coefficient is rescaled by its factor and the QP's power of two,
    rounding to nearest when that power is a division; nothing else changes. *)
Lemma dequant_block_correct n dct dmf i_qp :
  n = 16 \/ n = 64 -> 0 <= i_qp ->
  let i_qbits := Z.quot i_qp 6 - (if n =? 16 then 4 else 6) in
  (forall i, 0 <= i < n -> dequant_fits (dct i) (dmf (Z.rem i_qp 6) i) i_qbits) ->
  let dct' := if n =? 16 then dequant_4x4 dct dmf i_qp else dequant_8x8 dct dmf i_qp in
  (forall i, 0 <= i < n -> dct' i = dequant_spec (dct i) (dmf (Z.rem i_qp 6) i) i_qbits) /\
  (forall i, ~ 0 <= i < n -> dct' i = dct i) /\
  (i_qbits < 0 -> forall i, 0 <= i < n ->
     2 * Z.abs (dct' i * 2 ^ (- i_qbits) - dct i * dmf (Z.rem i_qp 6) i) <= 2 ^ (- i_qbits)).
Proof.
  intros Hn Hqp. cbv zeta. set (qb := Z.quot i_qp 6 - _). intros Hf.
  assert (-6 <= qb) as Hqb.
  { pose proof (Z.quot_pos i_qp 6). unfold qb. destruct Hn as [-> | ->]; simpl; lia. }
  set (dct' := if n =? 16 then _ else _).
  assert (forall i, dct' i = if (0 <=? i) && (i <? n)
    then DEQUANT_ONE (dct i) (dmf (Z.rem i_qp 6) i) qb else dct i) as E.
  { intros i. unfold dct', qb. destruct Hn as [-> | ->]; cbn [Z.eqb Pos.eqb].
    - apply dequant_4x4_pointwise.
    - apply dequant_8x8_pointwise. }
  assert (forall i, 0 <= i < n -> dct' i = dequant_spec (dct i) (dmf (Z.rem i_qp 6) i) qb) as E'.
  { intros i Hi. rewrite E, in_range_b by done. apply DEQUANT_ONE_spec; [done|by apply Hf]. }
  split; [done|]. split; [intros i Hi; by rewrite E, out_range_b|].
  intros Hneg i Hi. rewrite E' by done. unfold dequant_spec.
  replace (0 <=? qb) with false by (symmetry; apply Z.leb_gt; lia).
  set (x := dct i * dmf (Z.rem i_qp 6) i).
  replace (2 ^ (- qb)) with (2 * 2 ^ (- qb - 1))
    by (rewrite <- Z.pow_succ_r by lia; f_equal; lia).
  pose proof (pow2_pos (- qb - 1)) as P. set (h := 2 ^ (- qb - 1)) in *.
  pose proof (Z.div_mod (x + h) (2 * h)) as D. pose proof (Z.mod_pos_bound (x + h) (2 * h)). lia.
Qed.

Lemma dequant_block_correct_witness :
  dequant_4x4 (fun i => 3 - i) (fun _ j => 160 + 16 * j) 20 5 = -240.
Proof.
  destruct (dequant_block_correct 16 (fun i => 3 - i) (fun _ j => 160 + 16 * j) 20) as [H _].
  - by left.
  - lia.
  - intros i Hi. assert (i = 0 \/ i = 1 \/ i = 2 \/ i = 3 \/ i = 4 \/ i = 5 \/ i = 6 \/ i = 7
      \/ i = 8 \/ i = 9 \/ i = 10 \/ i = 11 \/ i = 12 \/ i = 13 \/ i = 14 \/ i = 15) as Hc by lia.
    repeat (destruct Hc as [-> | Hc]; [vm_compute; repeat split; congruence|]).
    subst. vm_compute; repeat split; congruence.
  - rewrite H by lia. reflexivity.
Defined.

(** * Last coefficient and decimation score *)

Definition is_coef (c : Z) : Prop := - 2 ^ 15 <= c < 2 ^ 15.

Lemma u16_zero c : is_coef c -> u16 c = 0 <-> c = 0.
Proof.
  intros Hc. unfold is_coef, uw in *. split; [|intros ->; done].
  intros E. destruct (Z.lt_decidable c 0).
  - rewrite <- (Z_mod_plus_full c 1), Z.mod_small in E; lia.
  - rewrite Z.mod_small in E; lia.
Qed.

Lemma ld_coef32_zero dct i : is_coef (dct i) -> is_coef (dct (i + 1)) ->
  ld_coef32 dct i = 0 <-> dct i = 0 /\ dct (i + 1) = 0.
Proof.
  intros H1 H2. unfold ld_coef32. pose proof (u16_zero (dct i) H1). pose proof (u16_zero (dct (i + 1)) H2).
  pose proof (uw_range 16 (dct i)). pose proof (uw_range 16 (dct (i + 1))). lia.
Qed.

Lemma ld_coef64_zero dct i : (forall j, i <= j < i + 4 -> is_coef (dct j)) ->
  ld_coef64 dct i = 0 <-> (forall j, i <= j < i + 4 -> dct j = 0).
Proof.
  intros H. unfold ld_coef64.
  assert (ld_coef32 dct i + ld_coef32 dct (i + 2) * 2 ^ 32 = 0 <->
          ld_coef32 dct i = 0 /\ ld_coef32 dct (i + 2) = 0) as ->.
  { unfold ld_coef32. pose proof (uw_range 16 (dct i)). pose proof (uw_range 16 (dct (i + 1))).
    pose proof (uw_range 16 (dct (i + 2))). pose proof (uw_range 16 (dct (i + 2 + 1))). lia. }
  rewrite !ld_coef32_zero by (apply H; lia). split.
  - intros [[? ?] [? ?]] j Hj.
    assert (j = i \/ j = i + 1 \/ j = i + 2 \/ j = i + 2 + 1) as [->|[->|[->| ->]]] by lia; done.
  - intros E; repeat split; apply E; lia.
Qed.

Lemma coeff_last_internal_spec l n :
  n = 4 \/ n = 15 \/ n = 16 \/ n = 64 -> (forall i, 0 <= i < n -> is_coef (l i)) ->
  exists r, x264_coeff_last_internal l n = Some r /\ - 1 <= r < n /\
    (0 <= r -> l r <> 0) /\ (forall i, r < i < n -> l i = 0).
Proof.
  intros Hn Hl. unfold x264_coeff_last_internal.
  assert (4 <= n) as Hn4 by lia.
  destruct (while_inv (fun r => - 1 <= r < n /\ forall i, r < i < n -> l i = 0)
    (fun r => Z.to_nat (r + 1)) (Z.to_nat n)
    (fun r => (3 <=? r) && (ld_coef64 l (r - 3) =? 0)) (fun r => r - 4) (n - 1))
    as (r1 & -> & [R1 Z1] & _); [split; lia|lia| |].
  { intros r [Hr Hz] Hc. apply andb_prop in Hc as [H3 H0].
    apply Z.leb_le in H3. apply Z.eqb_eq in H0.
    rewrite ld_coef64_zero in H0 by (intros; apply Hl; lia).
    split; [|lia]. split; [lia|]. intros i Hi.
    destruct (Z.lt_decidable r i); [apply Hz; lia|apply H0; lia]. }
  destruct (while_inv (fun r => - 1 <= r < n /\ forall i, r < i < n -> l i = 0)
    (fun r => Z.to_nat (r + 1)) (Z.to_nat n)
    (fun r => (0 <=? r) && (l r =? 0)) (fun r => r - 1) r1)
    as (r & -> & [R Z] & C); [done|lia| |].
  { intros s [Hs Hz] Hc. apply andb_prop in Hc as [H3 H0].
    apply Z.leb_le in H3. apply Z.eqb_eq in H0. split; [|lia]. split; [lia|]. intros i Hi.
    destruct (Z.eq_dec i s) as [->|]; [done|apply Hz; lia]. }
  exists r. split; [done|]. split; [done|]. split; [|done].
  intros Hr E. apply andb_false_iff in C as [C|C].
  - apply Z.leb_gt in C. lia.
  - apply Z.eqb_neq in C. done.
Qed.

(** [coeff_last] of the four block kinds returns the index of the last non-zero
    coefficient, or -1 when there is none: skipping four zeros at a time with a
    64-bit load skips nothing else. *)
Lemma coeff_last_correct l n :
  n = 4 \/ n = 15 \/ n = 16 \/ n = 64 -> (forall i, 0 <= i < n -> is_coef (l i)) ->
  exists r, x264_coeff_last_internal l n = Some r /\ - 1 <= r < n /\
    (0 <= r -> l r <> 0) /\ (forall i, r < i < n -> l i = 0).
Proof. apply coeff_last_internal_spec. Qed.

Lemma coeff_last_correct_witness :
  exists r, x264_coeff_last15 (fun i => if i =? 6 then -3 else 0) = Some r /\ r = 6.
Proof.
  destruct (coeff_last_correct (fun i => if i =? 6 then -3 else 0) 15) as (r & H & Hr & H1 & H2).
  - tauto.
  - intros i Hi. unfold is_coef. destruct (i =? 6); lia.
  - exists r. split; [exact H|]. vm_compute in H. congruence.
Defined.

(** The number of zeros just below position [n], and the score of the
    coefficients below [n] by the definition of the table: each non-zero one costs
    the entry of the run of zeros that precedes it. *)
Fixpoint zrun (dct : Z -> Z) (n : nat) : nat :=
  match n with
  | O => O
  | S n => if dct (Z.of_nat n) =? 0 then S (zrun dct n) else O
  end.

Fixpoint run_score (tbl : list Z) (dct : Z -> Z) (n : nat) : Z :=
  match n with
  | O => 0
  | S n => run_score tbl dct n +
           (if dct (Z.of_nat n) =? 0 then 0 else nth (zrun dct n) tbl 0)
  end.

Fixpoint has_level2 (dct : Z -> Z) (n : nat) : bool :=
  match n with
  | O => false
  | S n => (2 <=? Z.abs (dct (Z.of_nat n))) || has_level2 dct n
  end.

Definition decimate_spec (tbl : list Z) (dct : Z -> Z) (n : nat) : Z :=
  if has_level2 dct n then 9 else run_score tbl dct n.

Lemma level2_test c : is_coef c -> (2 <? u32 (c + 1)) = (2 <=? Z.abs c).
Proof.
  intros Hc. unfold is_coef, uw in *.
  destruct (Z.lt_decidable (c + 1) 0).
  - rewrite <- (Z_mod_plus_full (c + 1) 1), Z.mod_small by lia.
    destruct (Z.ltb_spec 2 (c + 1 + 1 * 2 ^ 32)), (Z.leb_spec 2 (Z.abs c)); lia.
  - rewrite Z.mod_small by lia.
    destruct (Z.ltb_spec 2 (c + 1)), (Z.leb_spec 2 (Z.abs c)); lia.
Qed.

Lemma zrun_le dct n : (zrun dct n <= n)%nat.
Proof. induction n; simpl; [lia|]. destruct (_ =? 0); lia. Qed.

(** Zeros at the top of a block change neither the score nor the level test. *)
Lemma decimate_spec_zeros tbl dct k n : (k <= n)%nat ->
  (forall i, Z.of_nat k <= i < Z.of_nat n -> dct i = 0) ->
  has_level2 dct n = has_level2 dct k /\ run_score tbl dct n = run_score tbl dct k.
Proof.
  intros Hk. induction Hk as [|n Hk IH]; intros H; [done|]. cbn [has_level2 run_score].
  destruct IH as [-> ->]; [intros; apply H; lia|].
  rewrite (H (Z.of_nat n)) by lia. simpl. split; [done|lia].
Qed.

Lemma zrun_zeros dct n i : Z.of_nat (n - zrun dct n) <= i < Z.of_nat n -> dct i = 0.
Proof.
  induction n as [|n IH]; cbn [zrun]; [lia|].
  destruct (Z.eqb_spec (dct (Z.of_nat n)) 0) as [E|]; [|lia].
  intros Hi. destruct (Z.eq_dec i (Z.of_nat n)) as [->|]; [done|].
  apply IH. simpl in Hi. lia.
Qed.

Lemma zrun_stop dct n : (zrun dct n < n)%nat -> dct (Z.of_nat (n - zrun dct n) - 1) <> 0.
Proof.
  induction n as [|n IH]; cbn [zrun]; [lia|].
  destruct (Z.eqb_spec (dct (Z.of_nat n)) 0) as [E|E]; intros H.
  - apply IH. lia.
  - replace (Z.of_nat (S n - 0) - 1) with (Z.of_nat n) by lia. done.
Qed.

Lemma decimate_run_zrun fuel dct n : (n <= fuel)%nat ->
  decimate_run fuel dct (Z.of_nat n - 1) =
  Some (Z.of_nat (n - zrun dct n) - 1, Z.of_nat (zrun dct n)).
Proof.
  intros Hf. unfold decimate_run.
  enough (forall r, while_ fuel (fun '(idx, i_run) => (0 <=? idx) && (dct idx =? 0))
    (fun '(idx, i_run) => (idx - 1, i_run + 1)) (Z.of_nat n - 1, r) =
    Some (Z.of_nat (n - zrun dct n) - 1, r + Z.of_nat (zrun dct n))) as H by apply H.
  revert fuel Hf. induction n as [|n IH]; intros fuel Hf r.
  - rewrite while_false by done. simpl. do 2 f_equal. lia.
  - replace (Z.of_nat (S n) - 1) with (Z.of_nat n) by lia. cbn [zrun].
    destruct (dct (Z.of_nat n) =? 0) eqn:E.
    + destruct fuel as [|fuel]; [lia|]. rewrite while_true.
      * rewrite IH by lia. cbn [Nat.sub]. do 2 f_equal. lia.
      * rewrite E, andb_true_r. apply Z.leb_le. lia.
    + rewrite while_false by (by rewrite E, andb_false_r). do 2 f_equal; [f_equal|]; lia.
Qed.

Lemma decimate_loop_spec tbl dct n : forall fuel sc, (n <= fuel)%nat ->
  (forall i, 0 <= i < Z.of_nat n -> is_coef (dct i)) ->
  (n = O \/ dct (Z.of_nat n - 1) <> 0) ->
  decimate_loop fuel tbl dct (Z.of_nat n - 1) sc =
  Some (if has_level2 dct n then 9 else sc + run_score tbl dct n).
Proof.
  induction n as [n IH] using lt_wf_ind. intros fuel sc Hf Hc Hn.
  destruct n as [|n]; [destruct fuel; cbn; f_equal; lia|].
  destruct fuel as [|fuel]; [lia|]. destruct Hn as [|Hn]; [done|].
  cbn [decimate_loop has_level2 run_score].
  replace (Z.of_nat (S n) - 1) with (Z.of_nat n) in * by lia.
  replace (0 <=? Z.of_nat n) with true by (symmetry; apply Z.leb_le; lia).
  rewrite level2_test by (apply Hc; lia). apply Z.eqb_neq in Hn as ->.
  destruct (2 <=? Z.abs (dct (Z.of_nat n))); [done|]. cbn [orb].
  rewrite decimate_run_zrun by lia.
  destruct (decimate_spec_zeros tbl dct (n - zrun dct n) n) as [-> ->];
    [lia|apply zrun_zeros|].
  rewrite IH.
  - f_equal. rewrite Nat2Z.id. destruct (has_level2 _ _); lia.
  - lia.
  - lia.
  - intros. apply Hc. lia.
  - pose proof (zrun_le dct n). destruct (Nat.eq_dec (zrun dct n) n); [left; lia|right].
    apply zrun_stop. lia.
Qed.

Lemma decimate_score_internal_spec dct n :
  n = 15 \/ n = 16 \/ n = 64 -> (forall i, -1 <= i < n -> is_coef (dct i)) ->
  x264_decimate_score_internal dct n =
  Some (decimate_spec (if n =? 64 then x264_decimate_table8 else x264_decimate_table4)
          dct (Z.to_nat n)).
Proof.
  intros Hn Hc. unfold x264_decimate_score_internal, decimate_spec.
  set (tbl := if n =? 64 then _ else _).
  destruct (while_inv (fun idx => - 2 <= idx < n /\ forall i, idx < i < n -> 0 <= i -> dct i = 0)
    (fun idx => Z.to_nat (idx + 1)) (Z.to_nat n)
    (fun idx => (0 <=? idx) && (ld_coef32 dct (idx - 1) =? 0)) (fun idx => idx - 2) (n - 1))
    as (idx & -> & [R Hzero] & C); [split; lia|lia| |].
  { intros r [Hr Hz] Hcond. apply andb_prop in Hcond as [H3 H0].
    apply Z.leb_le in H3. apply Z.eqb_eq in H0.
    rewrite ld_coef32_zero in H0 by (apply Hc; lia). replace (r - 1 + 1) with r in H0 by lia.
    split; [|lia]. split; [lia|]. intros i Hi Hi0.
    assert (i = r - 1 \/ i = r \/ r < i) as [->|[->|?]] by lia; [tauto|tauto|apply Hz; lia]. }
  set (idx' := if (0 <=? idx) && (dct idx =? 0) then idx - 1 else idx).
  assert (exists k : nat, decimate_loop (Z.to_nat n) tbl dct idx' 0 =
      decimate_loop (Z.to_nat n) tbl dct (Z.of_nat k - 1) 0 /\ (k <= Z.to_nat n)%nat /\
      (forall i, Z.of_nat k <= i < n -> dct i = 0) /\
      (k = O \/ dct (Z.of_nat k - 1) <> 0)) as (k & -> & Hk & Hz & Hnz).
  { destruct (Z.leb_spec 0 idx) as [H0|H0]; cbn [andb] in C, idx'.
    - apply Z.eqb_neq in C. rewrite ld_coef32_zero in C by (apply Hc; lia).
      replace (idx - 1 + 1) with idx in C by lia.
      exists (Z.to_nat (idx' + 1)). subst idx'. destruct (Z.eqb_spec (dct idx) 0) as [E|E].
      + split; [f_equal; lia|]. split; [lia|]. split.
        * intros i Hi. destruct (Z.eq_dec i idx) as [->|]; [done|apply Hzero; lia].
        * destruct (Z.eq_dec idx 0) as [->|]; [by left|right].
          rewrite Z2Nat.id by lia. replace (idx - 1 + 1 - 1) with (idx - 1) by lia. tauto.
      + split; [f_equal; lia|]. split; [lia|]. split; [intros; apply Hzero; lia|right].
        rewrite Z2Nat.id by lia. by replace (idx + 1 - 1) with idx by lia.
    - exists O. subst idx'. split; [|split; [lia|split; [intros; apply Hzero; lia|by left]]].
      destruct (Z.to_nat n); cbn [decimate_loop];
        replace (0 <=? idx) with false by (symmetry; apply Z.leb_gt; lia); done. }
  rewrite decimate_loop_spec; [|done|intros; apply Hc; lia|done].
  destruct (decimate_spec_zeros tbl dct k (Z.to_nat n)) as [-> ->]; [done|intros; apply Hz; lia|].
  done.
Qed.

(** the decimation score of 15, 16 or 64 coefficients is 9 when a level
    exceeds 1 in magnitude and otherwise the sum, over the non-zero coefficients,
    of the table entry of the run of zeros below; the 32-bit load of two
    coefficients, which looks at [dct[-1]] for 15 of them, does not change it. *)
Lemma decimate_score_correct dct n :
  n = 15 \/ n = 16 \/ n = 64 -> (forall i, -1 <= i < n -> is_coef (dct i)) ->
  x264_decimate_score_internal dct n =
  Some (decimate_spec (if n =? 64 then x264_decimate_table8 else x264_decimate_table4)
          dct (Z.to_nat n)).
Proof. apply decimate_score_internal_spec. Qed.

Lemma decimate_score_correct_witness :
  x264_decimate_score15 (fun i => if (i =? 0) || (i =? 4) || (i =? 6) then 1 else 0) = Some 3.
Proof.
  unfold x264_decimate_score15. rewrite (decimate_score_correct _ 15).
  - reflexivity.
  - by left.
  - intros i _. unfold is_coef. destruct (_ || _); lia.
Defined.

(** * Denoising *)

Lemma coef_sign c : is_coef c -> c >> 15 = if c <? 0 then -1 else 0.
Proof.
  intros Hc. unfold is_coef in Hc. rewrite Z.shiftr_div_pow2 by lia.
  destruct (Z.ltb_spec c 0).
  - symmetry. apply (Z.div_unique c (2 ^ 15) (-1) (c + 2 ^ 15)); lia.
  - apply Z.div_small. lia.
Qed.

Lemma lxor_m1 a : a .^ (-1) = - a - 1.
Proof. rewrite Z.lxor_m1_r. unfold Z.lnot. lia. Qed.

Lemma denoise_one c : is_coef c -> (c + (c >> 15)) .^ (c >> 15) = Z.abs c.
Proof.
  intros Hc. rewrite coef_sign by done. destruct (Z.ltb_spec c 0).
  - rewrite lxor_m1. lia.
  - rewrite Z.lxor_0_r. lia.
Qed.

Lemma denoise_sign c o : is_coef c -> 0 <= o < 2 ^ 16 ->
  s16 (if Z.abs c - o <? 0 then 0 else ((Z.abs c - o) .^ (c >> 15)) - (c >> 15)) =
  Z.sgn c * Z.max 0 (Z.abs c - o).
Proof.
  intros Hc Ho. rewrite coef_sign by done. unfold is_coef in Hc.
  destruct (Z.ltb_spec (Z.abs c - o) 0).
  - rewrite Z.max_l, Z.mul_0_r by lia. done.
  - rewrite Z.max_r by lia. destruct (Z.ltb_spec c 0).
    + rewrite lxor_m1, Z.sgn_neg, sw_small by lia. lia.
    + rewrite Z.lxor_0_r, sw_small by lia. destruct (Z.eq_dec c 0) as [->|]; [simpl; lia|].
      rewrite Z.sgn_pos by lia. lia.
Qed.

(** the denoiser leaves the DC coefficient, adds every other magnitude to
    its accumulator (modulo 2^32) and shrinks that magnitude by the offset,
    to no less than 0, keeping the sign. *)
Lemma denoise_dct_correct dct sum offset size :
  0 < size -> (forall i, 0 <= i < size -> is_coef (dct i)) ->
  (forall i, 0 <= i < size -> 0 <= offset i < 2 ^ 16) ->
  let '(dct', sum') := x264_denoise_dct dct sum offset size in
  (forall i, 1 <= i < size ->
     dct' i = Z.sgn (dct i) * Z.max 0 (Z.abs (dct i) - offset i) /\
     sum' i = u32 (sum i + Z.abs (dct i))) /\
  (forall i, ~ 1 <= i < size -> dct' i = dct i /\ sum' i = sum i).
Proof.
  intros Hsz Hd Ho. unfold x264_denoise_dct.
  match goal with |- context [for_ ?n 1 ?f (dct, sum)] => set (body := f) end.
  pose proof (for_inv (fun k '(d, s) =>
    (forall i, 1 <= i < k -> d i = Z.sgn (dct i) * Z.max 0 (Z.abs (dct i) - offset i) /\
       s i = u32 (sum i + Z.abs (dct i))) /\
    (forall i, ~ 1 <= i < k -> d i = dct i /\ s i = sum i))
    (Z.to_nat (size - 1)) 1 body (dct, sum)) as H.
  replace (1 + Z.of_nat (Z.to_nat (size - 1))) with size in H by lia.
  apply H; clear H; [split; intros; [lia|done]|].
  intros k [d s] Hk [Hdone Hrest]. unfold body.
  destruct (Hrest k) as [-> ->]; [lia|].
  rewrite (denoise_one (dct k)) by (apply Hd; lia).
  assert (sign_fix : forall o, 0 <= o < 2 ^ 16 -> s16 (if Z.abs (dct k) - o <? 0 then 0
     else ((Z.abs (dct k) - o) .^ (dct k >> 15)) - (dct k >> 15)) =
     Z.sgn (dct k) * Z.max 0 (Z.abs (dct k) - o)) by (intros; apply denoise_sign; [apply Hd; lia|done]).
  rewrite sign_fix by (apply Ho; lia).
  split; intros i Hi.
  - destruct (Z.eq_dec i k) as [->|]; [by rewrite !upd_eq|].
    rewrite !upd_ne by done. apply Hdone. lia.
  - rewrite !upd_ne by lia. apply Hrest. lia.
Qed.

Lemma denoise_dct_correct_witness :
  snd (x264_denoise_dct (fun i => 5 - 4 * i) (fun i => 10) (fun i => 3) 16) 15 = 65.
Proof.
  pose proof (denoise_dct_correct (fun i => 5 - 4 * i) (fun i => 10) (fun i => 3) 16) as H.
  destruct (x264_denoise_dct _ _ _ _) as [d s].
  destruct H as [H _]; [lia|intros; unfold is_coef; lia|lia|]. exact (proj2 (H 15 ltac:(lia))).
Defined.
