(* ===== verification/Mb.v ===== *)
(** * Macroblock state, tables and predictors of x264
    (common/macroblock.h, common/macroblock.c, common/predict.h and the helpers of
    common/common.h)

    [x264_t] holds the fields of the encoder state that the macroblock writers
    read or change.  A cache array is a function of the position of
    [x264_scan8]: rows of 8, so that [- 1] is the left and [- 8] the upper
    neighbour. *)
From S2P Require Import Prelude.

(** * Enumerations (macroblock.h, predict.h, common.h) *)
Definition I_4x4 := 0.
Definition I_8x8 := 1.
Definition I_16x16 := 2.
Definition I_PCM := 3.
Definition P_L0 := 4.
Definition P_8x8 := 5.
Definition P_SKIP := 6.
Definition B_DIRECT := 7.
Definition B_L0_L0 := 8.
Definition B_8x8 := 17.
Definition B_SKIP := 18.

Definition D_L0_4x4 := 0.
Definition D_L0_8x4 := 1.
Definition D_L0_4x8 := 2.
Definition D_L0_8x8 := 3.
Definition D_L1_4x4 := 4.
Definition D_L1_8x4 := 5.
Definition D_L1_4x8 := 6.
Definition D_L1_8x8 := 7.
Definition D_BI_4x4 := 8.
Definition D_BI_8x4 := 9.
Definition D_BI_4x8 := 10.
Definition D_BI_8x8 := 11.
Definition D_DIRECT_8x8 := 12.
Definition D_16x8 := 14.
Definition D_8x16 := 15.
Definition D_16x16 := 16.

Definition SLICE_TYPE_P := 0.
Definition SLICE_TYPE_B := 1.
Definition SLICE_TYPE_I := 2.

Definition PROFILE_HIGH := 100.

Definition DCT_LUMA_DC := 0.
Definition DCT_LUMA_AC := 1.
Definition DCT_LUMA_4x4 := 2.
Definition DCT_CHROMA_DC := 3.
Definition DCT_CHROMA_AC := 4.
Definition DCT_LUMA_8x8 := 5.

Definition I_PRED_4x4_DC := 2.

Definition tbl (t : list Z) (i : Z) : Z := nth (Z.to_nat i) t 0.
Definition tbl2 (t : list (list Z)) (i j : Z) : Z := tbl (nth (Z.to_nat i) t []) j.

(** The scans: frame, field. *)
Definition x264_zigzag_scan4 : list (list Z) :=
  [ [ 0; 4; 1; 2; 5; 8; 12; 9; 6; 3; 7; 10; 13; 14; 11; 15 ];
    [ 0; 1; 4; 2; 3; 5; 6; 7; 8; 9; 10; 11; 12; 13; 14; 15 ] ].
Definition x264_zigzag_scan8 : list (list Z) :=
  [ [ 0; 8; 1; 2; 9; 16; 24; 17; 10; 3; 4; 11; 18; 25; 32; 40;
      33; 26; 19; 12; 5; 6; 13; 20; 27; 34; 41; 48; 56; 49; 42; 35;
      28; 21; 14; 7; 15; 22; 29; 36; 43; 50; 57; 58; 51; 44; 37; 30;
      23; 31; 38; 45; 52; 59; 60; 53; 46; 39; 47; 54; 61; 62; 55; 63 ];
    [ 0; 1; 2; 8; 9; 3; 4; 10; 16; 11; 5; 6; 7; 12; 17; 24;
      18; 13; 14; 15; 19; 25; 32; 26; 20; 21; 22; 23; 27; 33; 40; 34;
      28; 29; 30; 31; 35; 41; 48; 42; 36; 37; 38; 39; 43; 49; 50; 44;
      45; 46; 47; 51; 56; 57; 52; 53; 54; 55; 58; 59; 60; 61; 62; 63 ] ].

Definition x264_mb_type_list0_table : list (list Z) :=
  [ [0;0]; [0;0]; [0;0]; [0;0];
    [1;1];
    [0;0];
    [1;1];
    [0;0];
    [1;1]; [1;0]; [1;1];
    [0;1]; [0;0]; [0;1];
    [1;1]; [1;0]; [1;1];
    [0;0];
    [0;0] ].
Definition x264_mb_type_list1_table : list (list Z) :=
  [ [0;0]; [0;0]; [0;0]; [0;0];
    [0;0];
    [0;0];
    [0;0];
    [0;0];
    [0;0]; [0;1]; [0;1];
    [1;0]; [1;1]; [1;1];
    [1;0]; [1;1]; [1;1];
    [0;0];
    [0;0] ].
Definition x264_mb_partition_listX_table : list (list Z) :=
  [ [ 1; 1; 1; 1;
      0; 0; 0; 0;
      1; 1; 1; 1;
      0;
      0; 0; 0; 0 ];
    [ 0; 0; 0; 0;
      1; 1; 1; 1;
      1; 1; 1; 1;
      0;
      0; 0; 0; 0 ] ].

Definition x264_scan8 : list Z :=
  [ 4+1*8; 5+1*8; 4+2*8; 5+2*8;
    6+1*8; 7+1*8; 6+2*8; 7+2*8;
    4+3*8; 5+3*8; 4+4*8; 5+4*8;
    6+3*8; 7+3*8; 6+4*8; 7+4*8;
    1+1*8; 2+1*8;
    1+2*8; 2+2*8;
    1+4*8; 2+4*8;
    1+5*8; 2+5*8;
    4+5*8;
    5+5*8; 6+5*8 ].
Definition scan8 (i : Z) : Z := tbl x264_scan8 i.
Definition X264_SCAN8_0 : Z := 4 + 1 * 8.

Definition block_idx_x : list Z := [0; 1; 0; 1; 2; 3; 2; 3; 0; 1; 0; 1; 2; 3; 2; 3].
Definition block_idx_y : list Z := [0; 0; 1; 1; 0; 0; 1; 1; 2; 2; 3; 3; 2; 2; 3; 3].

Definition block_idx_xy_1d : list Z := [0; 1; 4; 5; 2; 3; 6; 7; 8; 9; 12; 13; 10; 11; 14; 15].
Definition block_idx_yx_1d : list Z := [0; 4; 1; 5; 8; 12; 9; 13; 2; 6; 3; 7; 10; 14; 11; 15].

Definition x264_mb_pred_mode8x8c_fix : list Z := [0; 1; 2; 3; 0; 0; 0].
Definition x264_mb_pred_mode16x16_fix : list Z := [0; 1; 2; 3; 2; 2; 2].
Definition x264_mb_pred_mode4x4_fix (t : Z) : Z :=
  tbl [-1; 0; 1; 2; 3; 4; 5; 6; 7; 8; 2; 2; 2] (t + 1).

(** * The state *)
Record x264_t := X264 {
  (* h->sh, h->sps, h->pps, h->param *)
  sh_i_type : Z;
  b_mbaff : bool;
  i_profile_idc : Z;
  b_transform_8x8_mode : bool;
  b_direct8x8_inference : bool;
  b_psub8x8 : bool;                  (* param.analyse.inter & X264_ANALYSE_PSUB8x8 *)
  (* h->mb *)
  i_type : Z;
  i_partition : Z;
  i_sub_partition : Z -> Z;
  b_transform_8x8 : Z;
  b_interlaced : Z;
  i_mb_y : Z;
  i_mb_xy : Z;
  i_mb_stride : Z;
  mb_type : Z -> Z;
  i_cbp_luma : Z;
  i_cbp_chroma : Z;
  i_qp : Z;
  i_last_qp : Z;
  i_intra16x16_pred_mode : Z;
  i_chroma_pred_mode : Z;
  i_fref : Z -> Z;                   (* mb.pic.i_fref *)
  (* h->mb.cache *)
  intra4x4_pred_mode : Z -> Z;
  non_zero_count : Z -> Z;
  cache_ref : Z -> Z -> Z;           (* [i_list] [position] *)
  cache_mv : Z -> Z -> Z * Z;
  (* h->dct *)
  luma4x4 : Z -> Z -> Z;
  luma8x8 : Z -> Z -> Z;
  luma16x16_dc : Z -> Z;
  chroma_dc : Z -> Z -> Z
}.

Definition set_non_zero_count (h : x264_t) (i v : Z) : x264_t :=
  match h with
  | X264 a1 a2 a3 a4 a5 a6 a7 a8 a9 a10 a11 a12 a13 a14 a15 a16 a17 a18 a19 a20 a21 a22 a23
      nnz a25 a26 a27 a28 a29 a30 =>
      X264 a1 a2 a3 a4 a5 a6 a7 a8 a9 a10 a11 a12 a13 a14 a15 a16 a17 a18 a19 a20 a21 a22 a23
        (upd nnz i (u8 v)) a25 a26 a27 a28 a29 a30
  end.

Definition set_i_qp (h : x264_t) (v : Z) : x264_t :=
  match h with
  | X264 a1 a2 a3 a4 a5 a6 a7 a8 a9 a10 a11 a12 a13 a14 a15 a16 a17 _ a19 a20 a21 a22 a23
      a24 a25 a26 a27 a28 a29 a30 =>
      X264 a1 a2 a3 a4 a5 a6 a7 a8 a9 a10 a11 a12 a13 a14 a15 a16 a17 v a19 a20 a21 a22 a23
        a24 a25 a26 a27 a28 a29 a30
  end.

Definition set_luma4x4 (h : x264_t) (f : Z -> Z -> Z) : x264_t :=
  match h with
  | X264 a1 a2 a3 a4 a5 a6 a7 a8 a9 a10 a11 a12 a13 a14 a15 a16 a17 a18 a19 a20 a21 a22 a23
      a24 a25 a26 _ a28 a29 a30 =>
      X264 a1 a2 a3 a4 a5 a6 a7 a8 a9 a10 a11 a12 a13 a14 a15 a16 a17 a18 a19 a20 a21 a22 a23
        a24 a25 a26 f a28 a29 a30
  end.

Definition set_luma8x8 (h : x264_t) (f : Z -> Z -> Z) : x264_t :=
  match h with
  | X264 a1 a2 a3 a4 a5 a6 a7 a8 a9 a10 a11 a12 a13 a14 a15 a16 a17 a18 a19 a20 a21 a22 a23
      a24 a25 a26 a27 _ a29 a30 =>
      X264 a1 a2 a3 a4 a5 a6 a7 a8 a9 a10 a11 a12 a13 a14 a15 a16 a17 a18 a19 a20 a21 a22 a23
      a24 a25 a26 a27 f a29 a30
  end.

Definition set_luma16x16_dc (h : x264_t) (f : Z -> Z) : x264_t :=
  match h with
  | X264 a1 a2 a3 a4 a5 a6 a7 a8 a9 a10 a11 a12 a13 a14 a15 a16 a17 a18 a19 a20 a21 a22 a23
      a24 a25 a26 a27 a28 _ a30 =>
      X264 a1 a2 a3 a4 a5 a6 a7 a8 a9 a10 a11 a12 a13 a14 a15 a16 a17 a18 a19 a20 a21 a22 a23
      a24 a25 a26 a27 a28 f a30
  end.

Definition set_chroma_dc (h : x264_t) (f : Z -> Z -> Z) : x264_t :=
  match h with
  | X264 a1 a2 a3 a4 a5 a6 a7 a8 a9 a10 a11 a12 a13 a14 a15 a16 a17 a18 a19 a20 a21 a22 a23
      a24 a25 a26 a27 a28 a29 _ =>
      X264 a1 a2 a3 a4 a5 a6 a7 a8 a9 a10 a11 a12 a13 a14 a15 a16 a17 a18 a19 a20 a21 a22 a23
      a24 a25 a26 a27 a28 a29 f
  end.

Definition set_cbp_luma (h : x264_t) (v : Z) : x264_t :=
  match h with
  | X264 a1 a2 a3 a4 a5 a6 a7 a8 a9 a10 a11 a12 a13 a14 a15 _ a17 a18 a19 a20 a21 a22 a23
      a24 a25 a26 a27 a28 a29 a30 =>
      X264 a1 a2 a3 a4 a5 a6 a7 a8 a9 a10 a11 a12 a13 a14 a15 v a17 a18 a19 a20 a21 a22 a23
      a24 a25 a26 a27 a28 a29 a30
  end.

Definition set_cbp_chroma (h : x264_t) (v : Z) : x264_t :=
  match h with
  | X264 a1 a2 a3 a4 a5 a6 a7 a8 a9 a10 a11 a12 a13 a14 a15 a16 _ a18 a19 a20 a21 a22 a23
      a24 a25 a26 a27 a28 a29 a30 =>
      X264 a1 a2 a3 a4 a5 a6 a7 a8 a9 a10 a11 a12 a13 a14 a15 a16 v a18 a19 a20 a21 a22 a23
      a24 a25 a26 a27 a28 a29 a30
  end.

(** * Arithmetic helpers (common.h) *)
Definition x264_clip_uint8 (x : Z) : Z :=
  u8 (if i2b (x .& Z.lnot 255) then s32 (- x) >> 31 else x).

Definition x264_clip3 (v i_min i_max : Z) : Z :=
  if v <? i_min then i_min else if v >? i_max then i_max else v.

Definition x264_median (a b c : Z) : Z :=
  let t := (a - b) .& ((a - b) >> 31) in
  let a := a - t in
  let b := b + t in
  let b := b - ((b - c) .& ((b - c) >> 31)) in
  b + ((a - b) .& ((a - b) >> 31)).

Definition x264_median_mv (a b c : Z * Z) : Z * Z :=
  (s16 (x264_median a.1 b.1 c.1), s16 (x264_median a.2 b.2 c.2)).

(** * Predictors *)
Definition x264_mb_predict_intra4x4_mode (h : x264_t) (idx : Z) : Z :=
  let ma := intra4x4_pred_mode h (scan8 idx - 1) in
  let mb := intra4x4_pred_mode h (scan8 idx - 8) in
  let m := Z.min (x264_mb_pred_mode4x4_fix ma) (x264_mb_pred_mode4x4_fix mb) in
  if m <? 0 then I_PRED_4x4_DC else m.

Definition x264_mb_predict_non_zero_code (h : x264_t) (idx : Z) : Z :=
  let za := non_zero_count h (scan8 idx - 1) in
  let zb := non_zero_count h (scan8 idx - 8) in
  let i_ret := za + zb in
  let i_ret := if i_ret <? 0x80 then (i_ret + 1) >> 1 else i_ret in
  i_ret .& 0x7f.

Definition partition_tab : list Z := [0;0;0;0;1;2;0;2;1;1;1;1;1;1;1;1;1;2;0].

Definition x264_mb_transform_8x8_allowed (h : x264_t) : bool :=
  if negb (b_transform_8x8_mode h) then false
  else
    let p := tbl partition_tab (i_type h) in
    if p <? 2 then i2b p
    else if i_type h =? B_DIRECT then b_direct8x8_inference h
    else if i_type h =? P_8x8 then
      if negb (b_psub8x8 h) then true
      else forallb (fun i => i_sub_partition h i =? D_L0_8x8) [0; 1; 2; 3]
    else if b_direct8x8_inference h then true
    else forallb (fun i => negb (i_sub_partition h i =? D_DIRECT_8x8)) [0; 1; 2; 3].

Definition array_non_zero_count (v : Z -> Z) : Z :=
  for_ 16 0 (fun i i_nz => if i2b (v i) then i_nz + 1 else i_nz) 0.

Definition IS_INTRA (type : Z) : bool := (type =? I_4x4) || (type =? I_8x8) || (type =? I_16x16) || (type =? I_PCM).
Definition IS_SKIP (type : Z) : bool := (type =? P_SKIP) || (type =? B_SKIP).

(** The shared end of the two motion vector predictors below. *)
Definition predict_mv_count (i_ref i_refa i_refb i_refc : Z) (mv_a mv_b mv_c : Z * Z) : Z * Z :=
  let i_count := 0 in
  let i_count := if i_refa =? i_ref then i_count + 1 else i_count in
  let i_count := if i_refb =? i_ref then i_count + 1 else i_count in
  let i_count := if i_refc =? i_ref then i_count + 1 else i_count in
  if i_count >? 1 then x264_median_mv mv_a mv_b mv_c
  else if i_count =? 1 then
    if i_refa =? i_ref then mv_a else if i_refb =? i_ref then mv_b else mv_c
  else if (i_refb =? -2) && (i_refc =? -2) && negb (i_refa =? -2) then mv_a
  else x264_median_mv mv_a mv_b mv_c.

Definition x264_mb_predict_mv (h : x264_t) (i_list idx i_width : Z) : Z * Z :=
  let i8 := scan8 idx in
  let ref := cache_ref h i_list in
  let mv := cache_mv h i_list in
  let i_ref := ref i8 in
  let i_refa := ref (i8 - 1) in
  let mv_a := mv (i8 - 1) in
  let i_refb := ref (i8 - 8) in
  let mv_b := mv (i8 - 8) in
  let i_refc := ref (i8 - 8 + i_width) in
  let mv_c := mv (i8 - 8 + i_width) in
  let '(i_refc, mv_c) :=
    if ((idx .& 3) =? 3) || ((i_width =? 2) && ((idx .& 3) =? 2)) || (i_refc =? -2)
    then (ref (i8 - 8 - 1), mv (i8 - 8 - 1)) else (i_refc, mv_c) in
  if (i_partition h =? D_16x8) && (idx =? 0) && (i_refb =? i_ref) then mv_b
  else if (i_partition h =? D_16x8) && negb (idx =? 0) && (i_refa =? i_ref) then mv_a
  else if (i_partition h =? D_8x16) && (idx =? 0) && (i_refa =? i_ref) then mv_a
  else if (i_partition h =? D_8x16) && negb (idx =? 0) && (i_refc =? i_ref) then mv_c
  else predict_mv_count i_ref i_refa i_refb i_refc mv_a mv_b mv_c.

Definition x264_mb_predict_mv_16x16 (h : x264_t) (i_list i_ref : Z) : Z * Z :=
  let ref := cache_ref h i_list in
  let mv := cache_mv h i_list in
  let i_refa := ref (X264_SCAN8_0 - 1) in
  let mv_a := mv (X264_SCAN8_0 - 1) in
  let i_refb := ref (X264_SCAN8_0 - 8) in
  let mv_b := mv (X264_SCAN8_0 - 8) in
  let i_refc := ref (X264_SCAN8_0 - 8 + 4) in
  let mv_c := mv (X264_SCAN8_0 - 8 + 4) in
  let '(i_refc, mv_c) :=
    if i_refc =? -2 then (ref (X264_SCAN8_0 - 8 - 1), mv (X264_SCAN8_0 - 8 - 1))
    else (i_refc, mv_c) in
  predict_mv_count i_ref i_refa i_refb i_refc mv_a mv_b mv_c.

Definition mv_zero (mv : Z * Z) : bool := (mv.1 =? 0) && (mv.2 =? 0).

Definition x264_mb_predict_mv_pskip (h : x264_t) : Z * Z :=
  let i_refa := cache_ref h 0 (X264_SCAN8_0 - 1) in
  let i_refb := cache_ref h 0 (X264_SCAN8_0 - 8) in
  let mv_a := cache_mv h 0 (X264_SCAN8_0 - 1) in
  let mv_b := cache_mv h 0 (X264_SCAN8_0 - 8) in
  if (i_refa =? -2) || (i_refb =? -2) || ((i_refa =? 0) && mv_zero mv_a)
     || ((i_refb =? 0) && mv_zero mv_b)
  then (0, 0)
  else x264_mb_predict_mv_16x16 h 0 0.

(** * Properties *)

(** ** Clipping and the median *)
Lemma sign_mask x : - 2 ^ 31 <= x < 2 ^ 31 -> x >> 31 = if x <? 0 then -1 else 0.
Proof.
  intros Hx. rewrite Z.shiftr_div_pow2 by lia. destruct (Z.ltb_spec x 0).
  - symmetry. apply (Z.div_unique x (2 ^ 31) (-1) (x + 2 ^ 31)); lia.
  - apply Z.div_small. lia.
Qed.

Lemma land_sign x : - 2 ^ 31 <= x < 2 ^ 31 -> x .& (x >> 31) = Z.min x 0.
Proof.
  intros Hx. rewrite sign_mask by done. destruct (Z.ltb_spec x 0).
  - rewrite Z.land_m1_r. lia.
  - rewrite Z.land_0_r. lia.
Qed.

(** The median of three numbers. *)
Definition median3 (a b c : Z) : Z := Z.max (Z.min a b) (Z.min (Z.max a b) c).

Lemma x264_median_spec a b c :
  - 2 ^ 29 <= a < 2 ^ 29 -> - 2 ^ 29 <= b < 2 ^ 29 -> - 2 ^ 29 <= c < 2 ^ 29 ->
  x264_median a b c = median3 a b c.
Proof.
  intros Ha Hb Hc. unfold x264_median, median3.
  rewrite (land_sign (a - b)) by lia. cbv zeta.
  rewrite (land_sign (b + Z.min (a - b) 0 - c)) by lia.
  rewrite land_sign by lia. lia.
Qed.

Lemma land_not_255 x : x .& Z.lnot 255 = 0 <-> 0 <= x < 256.
Proof.
  change 255 with (Z.ones 8). rewrite <- Z.ldiff_land, Z.ldiff_ones_r by lia.
  rewrite Z.shiftl_mul_pow2, Z.shiftr_div_pow2 by lia. change (2 ^ 8) with 256.
  pose proof (Z.div_mod x 256). pose proof (Z.mod_pos_bound x 256). lia.
Qed.

Lemma x264_clip_uint8_spec x : - 2 ^ 31 < x < 2 ^ 31 -> x264_clip_uint8 x = Z.max 0 (Z.min x 255).
Proof.
  intros Hx. unfold x264_clip_uint8, i2b.
  destruct (Z.eqb_spec (x .& Z.lnot 255) 0) as [E|E]; rewrite land_not_255 in E; cbn [negb].
  - rewrite uw_small by lia. lia.
  - rewrite sw_small, sign_mask by lia. destruct (Z.ltb_spec (- x) 0).
    + replace (u8 (-1)) with 255 by done. lia.
    + replace (u8 0) with 0 by done. lia.
Qed.

(** The branch-free median and the masked clip are the median and the clamp. *)
Theorem median_clip_correct a b c x lo hi :
  - 2 ^ 29 <= a < 2 ^ 29 -> - 2 ^ 29 <= b < 2 ^ 29 -> - 2 ^ 29 <= c < 2 ^ 29 ->
  - 2 ^ 31 < x < 2 ^ 31 -> lo <= hi ->
  x264_median a b c = median3 a b c /\
  x264_clip_uint8 x = Z.max 0 (Z.min x 255) /\
  x264_clip3 x lo hi = Z.max lo (Z.min x hi).
Proof.
  intros Ha Hb Hc Hx Hl. split; [by apply x264_median_spec|].
  split; [by apply x264_clip_uint8_spec|]. unfold x264_clip3.
  destruct (Z.ltb_spec x lo); [lia|]. destruct (Z.gtb_spec x hi); lia.
Qed.

Lemma median_clip_correct_witness :
  x264_median 7 (-3) 5 = 5 /\ x264_clip_uint8 300 = 255 /\ x264_clip3 300 16 235 = 235.
Proof.
  destruct (median_clip_correct 7 (-3) 5 300 16 235) as (H1 & H2 & H3);
    [lia..|]. rewrite H1, H2, H3. repeat split.
Defined.

(** ** Motion vector prediction

    The prediction of the standard (8.4.1.3): the neighbour C is the block above
    and to the right when it exists and was coded before the current one, else
    the block D above and to the left; a reference of [-2] stands for a block
    that does not exist. *)
Definition blk_index (x y : Z) : Z := (x .& 1) + 2 * (y .& 1) + 4 * (x >> 1) + 8 * (y >> 1).

Definition std_c_coded (idx w : Z) : bool :=
  let x := tbl block_idx_x idx in
  let y := tbl block_idx_y idx in
  (y =? 0) || ((x + w <? 4) && (blk_index (x + w) (y - 1) <? idx)).

(** The median rule, with B and C replaced by A when only A exists. *)
Definition std_median (i_ref : Z) (a b c : Z * (Z * Z)) : Z * Z :=
  let '(b, c) := if (b.1 =? -2) && (c.1 =? -2) && negb (a.1 =? -2) then (a, a) else (b, c) in
  match List.filter (fun n => n.1 =? i_ref) [a; b; c] with
  | [n] => n.2
  | _ => (median3 a.2.1 b.2.1 c.2.1, median3 a.2.2 b.2.2 c.2.2)
  end.

Definition std_predict_mv (h : x264_t) (i_list idx w : Z) : Z * Z :=
  let at_ := fun i => (cache_ref h i_list i, cache_mv h i_list i) in
  let i8 := scan8 idx in
  let i_ref := cache_ref h i_list i8 in
  let a := at_ (i8 - 1) in
  let b := at_ (i8 - 8) in
  let c := if std_c_coded idx w && negb (cache_ref h i_list (i8 - 8 + w) =? -2)
           then at_ (i8 - 8 + w) else at_ (i8 - 9) in
  let first := if i_partition h =? D_16x8 then Some (if idx =? 0 then b else a)
               else if i_partition h =? D_8x16 then Some (if idx =? 0 then a else c)
               else None in
  match first with
  | Some n => if n.1 =? i_ref then n.2 else std_median i_ref a b c
  | None => std_median i_ref a b c
  end.

(** The blocks that are predicted: position and width in 4x4 blocks. *)
Definition legal_blocks : list (Z * Z) :=
  map (fun i => (i, 1)) (seqZ 0 16) ++ map (fun i => (2 * i, 2)) (seqZ 0 8) ++ [(0, 4); (8, 4)].

(** What the cache holds right of the macroblock, in rows 1 to 3. *)
Definition right_unavailable (h : x264_t) (i_list : Z) : Prop :=
  forall i, In i [16; 24; 32] -> cache_ref h i_list i = -2.

Definition mv_ok (mv : Z * Z) : Prop := - 2 ^ 15 <= mv.1 < 2 ^ 15 /\ - 2 ^ 15 <= mv.2 < 2 ^ 15.

(** The code's test for C against the coding order of the blocks. *)
Definition c_test (idx w : Z) : bool :=
  ((idx .& 3) =? 3) || ((w =? 2) && ((idx .& 3) =? 2)).

Lemma c_test_ok idx w : In (idx, w) legal_blocks ->
  if c_test idx w then std_c_coded idx w = false
  else std_c_coded idx w = true \/ In (scan8 idx - 8 + w) [16; 24; 32].
Proof.
  intros H.
  assert (forallb (fun '(idx, w) => if c_test idx w then negb (std_c_coded idx w)
    else std_c_coded idx w || existsb (Z.eqb (scan8 idx - 8 + w)) [16; 24; 32]) legal_blocks = true)
    as C by (vm_compute; reflexivity).
  rewrite forallb_forall in C. specialize (C _ H). cbn beta iota in C.
  destruct (c_test idx w); [by apply negb_true_iff in C|].
  apply orb_prop in C as [C|C]; [by left|right].
  apply existsb_exists in C as (x & Hx & E). by apply Z.eqb_eq in E as ->.
Qed.

Lemma legal_blocks_range idx w : In (idx, w) legal_blocks ->
  9 <= scan8 idx < 40 /\ 0 < w /\ scan8 idx - 8 + w < 40.
Proof.
  intros H.
  assert (forallb (fun '(idx, w) => (9 <=? scan8 idx) && (scan8 idx <? 40) && (0 <? w) &&
    (scan8 idx - 8 + w <? 40)) legal_blocks = true) as C by (vm_compute; reflexivity).
  rewrite forallb_forall in C. specialize (C _ H). cbn beta iota in C. lia.
Qed.

Lemma median3_same a : median3 a a a = a.
Proof. unfold median3. lia. Qed.

Lemma x264_median_mv_spec a b c : mv_ok a -> mv_ok b -> mv_ok c ->
  x264_median_mv a b c = (median3 a.1 b.1 c.1, median3 a.2 b.2 c.2).
Proof.
  intros [] [] []. unfold x264_median_mv. rewrite !x264_median_spec by lia.
  rewrite !sw_small by (unfold median3; lia). done.
Qed.

Lemma predict_mv_count_std i_ref ra rb rc a b c :
  0 <= i_ref -> mv_ok a -> mv_ok b -> mv_ok c ->
  predict_mv_count i_ref ra rb rc a b c = std_median i_ref (ra, a) (rb, b) (rc, c).
Proof.
  intros Hr Ha Hb Hc. unfold predict_mv_count, std_median.
  rewrite (x264_median_mv_spec a b c) by done. cbn [fst snd].
  assert (forall x : Z * Z, (x.1, x.2) = x) as Hpair by (by intros []).
  assert (i_ref <> -2) as Hne by lia. clear Hr Ha Hb Hc.
  destruct (Z.eqb_spec ra i_ref), (Z.eqb_spec rb i_ref), (Z.eqb_spec rc i_ref);
    destruct (Z.eqb_spec ra (-2)), (Z.eqb_spec rb (-2)), (Z.eqb_spec rc (-2)); subst; try done;
    cbn [andb negb List.filter fst snd];
    rewrite ?Z.eqb_refl;
    repeat match goal with H : ?x <> ?y |- context [?x =? ?y] =>
      rewrite (proj2 (Z.eqb_neq x y) H) end;
    cbn [List.filter fst snd]; rewrite ?median3_same, ?Hpair; done.
Qed.

(** For every block shape of a macroblock the predicted motion vector is the
    one the standard derives from the neighbours: the test on [idx] finds exactly
    the blocks whose upper right neighbour is coded later, and the counting rule
    is the median rule. *)
Lemma predict_mv_std h i_list idx w :
  In (idx, w) legal_blocks -> right_unavailable h i_list ->
  0 <= cache_ref h i_list (scan8 idx) -> (forall i, 0 <= i < 40 -> mv_ok (cache_mv h i_list i)) ->
  x264_mb_predict_mv h i_list idx w = std_predict_mv h i_list idx w.
Proof.
  intros Hl Hr Href Hmv. pose proof (c_test_ok idx w Hl) as Hc.
  pose proof (legal_blocks_range idx w Hl) as Hrange.
  unfold x264_mb_predict_mv, std_predict_mv. cbv zeta. fold (c_test idx w).
  set (rc := cache_ref h i_list (scan8 idx - 8 + w)) in *.
  replace (scan8 idx - 8 - 1) with (scan8 idx - 9) by lia.
  assert ((if c_test idx w || (rc =? -2)
      then (cache_ref h i_list (scan8 idx - 9), cache_mv h i_list (scan8 idx - 9))
      else (rc, cache_mv h i_list (scan8 idx - 8 + w))) =
    (if std_c_coded idx w && negb (rc =? -2)
      then (rc, cache_mv h i_list (scan8 idx - 8 + w))
      else (cache_ref h i_list (scan8 idx - 9), cache_mv h i_list (scan8 idx - 9)))) as ->.
  { destruct (c_test idx w); [by rewrite Hc|].
    destruct Hc as [->|Hin]; [by destruct (rc =? -2)|].
    unfold rc. rewrite (Hr _ Hin). by rewrite andb_false_r. }
  set (c := if std_c_coded idx w && _ then _ else _).
  assert (mv_ok c.2) as Hcok by (unfold c; destruct (_ && _); apply Hmv; lia).
  destruct c as [rc' mvc]. cbn [fst snd] in *.
  rewrite predict_mv_count_std by (done || apply Hmv; lia).
  destruct (Z.eqb_spec (i_partition h) D_16x8) as [->|]; [|destruct (Z.eqb_spec (i_partition h) D_8x16)];
    destruct (idx =? 0); cbn [andb negb Z.eqb Pos.eqb D_16x8 D_8x16 fst snd];
    repeat match goal with |- context [?x =? ?y] => destruct (x =? y) end; done.
Qed.

(** A macroblock of a High profile P slice, used by the witnesses: four 8x8
    partitions of one reference, whose motion vectors grow with the position. *)
Definition sample_mb : x264_t := {|
  sh_i_type := SLICE_TYPE_P; b_mbaff := false; i_profile_idc := PROFILE_HIGH;
  b_transform_8x8_mode := false; b_direct8x8_inference := true; b_psub8x8 := true;
  i_type := P_8x8; i_partition := 13; i_sub_partition := fun _ => D_L0_8x8;
  b_transform_8x8 := 0; b_interlaced := 0; i_mb_y := 0; i_mb_xy := 0; i_mb_stride := 8;
  mb_type := fun _ => P_L0; i_cbp_luma := 1; i_cbp_chroma := 0; i_qp := 26; i_last_qp := 24;
  i_intra16x16_pred_mode := 0; i_chroma_pred_mode := 0; i_fref := fun _ => 1;
  intra4x4_pred_mode := fun _ => -1;
  non_zero_count := fun i => if i =? 12 then 3 else 0;
  cache_ref := fun _ i => if (i =? 16) || (i =? 24) || (i =? 32) then -2 else 0;
  cache_mv := fun _ i => (i, 3 * i);
  luma4x4 := fun b i => if b =? 0 then (if i =? 0 then 7 else if i =? 3 then -2 else if i =? 4 then 1 else 0) else 0;
  luma8x8 := fun _ _ => 0; luma16x16_dc := fun _ => 0; chroma_dc := fun _ _ => 0
|}.

(** ** The coefficient count predicted from the neighbours *)

(** A count of the cache: 0 to 16, or 0x80 for a macroblock that does not exist. *)
Definition nnz_ok (n : Z) : Prop := 0 <= n <= 16 \/ n = 0x80.

(** The average of the standard (9.2.1): over the neighbours that exist. *)
Definition std_nC (za zb : Z) : Z :=
  if (za =? 0x80) && (zb =? 0x80) then 0
  else if za =? 0x80 then zb
  else if zb =? 0x80 then za
  else (za + zb + 1) / 2.

Lemma predict_non_zero_code_std h idx :
  nnz_ok (non_zero_count h (scan8 idx - 1)) -> nnz_ok (non_zero_count h (scan8 idx - 8)) ->
  x264_mb_predict_non_zero_code h idx =
    std_nC (non_zero_count h (scan8 idx - 1)) (non_zero_count h (scan8 idx - 8)) /\
  0 <= x264_mb_predict_non_zero_code h idx <= 16.
Proof.
  unfold x264_mb_predict_non_zero_code, std_nC.
  generalize (non_zero_count h (scan8 idx - 1)) (non_zero_count h (scan8 idx - 8)).
  intros za zb Ha Hb. cbv zeta.
  change 0x7f with (Z.ones 7). rewrite Z.land_ones, Z.shiftr_div_pow2 by lia.
  change (2 ^ 7) with 128. change (2 ^ 1) with 2. unfold nnz_ok in *.
  pose proof (Z.div_mod (za + zb + 1) 2). pose proof (Z.mod_pos_bound (za + zb + 1) 2).
  destruct (Z.eqb_spec za 0x80), (Z.eqb_spec zb 0x80); cbn [andb]; subst.
  - vm_compute. repeat split; discriminate.
  - destruct (Z.ltb_spec (0x80 + zb) 0x80).
    + lia.
    + rewrite <- (Z.mod_unique (0x80 + zb) 128 1 zb); lia.
  - destruct (Z.ltb_spec (za + 0x80) 0x80).
    + lia.
    + rewrite <- (Z.mod_unique (za + 0x80) 128 1 za); lia.
  - destruct (Z.ltb_spec (za + zb) 0x80); [|lia].
    rewrite Z.mod_small by lia. lia.
Qed.

Lemma array_non_zero_count_spec v n :
  for_ n 0 (fun i i_nz => if i2b (v i) then i_nz + 1 else i_nz) 0 =
  Z.of_nat (length (List.filter (fun i => negb (v i =? 0)) (seqZ 0 (Z.of_nat n)))).
Proof.
  induction n as [|n IH]; [done|]. rewrite for_snoc, IH.
  replace (seqZ 0 (Z.of_nat (S n))) with (seqZ 0 (Z.of_nat n) ++ [Z.of_nat n]).
  - rewrite filter_app, length_app. cbn [List.filter]. unfold i2b. rewrite Z.add_0_l.
    destruct (negb (v (Z.of_nat n) =? 0)); simpl; lia.
  - rewrite Nat2Z.inj_succ. unfold Z.succ. rewrite seqZ_app by lia. done.
Qed.

Lemma array_non_zero_count_range v : 0 <= array_non_zero_count v <= 16.
Proof.
  unfold array_non_zero_count. rewrite array_non_zero_count_spec.
  pose proof (filter_length_le (fun i => negb (v i =? 0)) (seqZ 0 (Z.of_nat 16))).
  rewrite length_seqZ in H. lia.
Qed.

Lemma array_non_zero_count_0 v :
  array_non_zero_count v = 0 <-> (forall i, 0 <= i < 16 -> v i = 0).
Proof.
  unfold array_non_zero_count. rewrite array_non_zero_count_spec. split.
  - intros H i Hi. destruct (Z.eq_dec (v i) 0) as [|Hne]; [done|exfalso].
    assert (In i (List.filter (fun i => negb (v i =? 0)) (seqZ 0 (Z.of_nat 16)))) as Hin.
    { apply filter_In. split; [apply list_elem_of_In, elem_of_seqZ; lia|].
      by apply negb_true_iff, Z.eqb_neq. }
    destruct (List.filter _ _); [done|simpl in H; lia].
  - intros H. replace (List.filter _ _) with (@nil Z); [done|].
    destruct (List.filter _ _) as [|i l] eqn:E; [done|].
    assert (In i (i :: l)) as Hin by (by left). rewrite <- E in Hin.
    apply filter_In in Hin as [Hi Hb]. apply list_elem_of_In, elem_of_seqZ in Hi.
    rewrite H in Hb by lia. done.
Qed.
