(* ===== verification/Header.v ===== *)
(** * Parameter sets and slice headers of x264 (encoder/set.c, encoder/encoder.c)

    [x264_sps_init], [x264_sps_write], [x264_pps_init], [x264_pps_write] and the slice
    header, over the bitstream writer; and the syntax tables 7.3.2.1, 7.3.2.2, 7.3.3 and
    annex E of the H.264 standard as parsers, which read them back. *)
From S2P Require Import Prelude Bs Syntax Mb.

Definition PROFILE_BASELINE := 66.
Definition PROFILE_MAIN := 77.
Definition PROFILE_HIGH444_PREDICTIVE := 244.
Definition CQM_4IY := 0.
Definition CQM_4PY := 1.
Definition CQM_4IC := 2.
Definition CQM_4PC := 3.
Definition CQM_8IY := 0.
Definition CQM_8PY := 1.
Definition X264_CQM_FLAT := 0.
Definition X264_CQM_JVT := 1.
Definition X264_CQM_CUSTOM := 2.
Definition X264_RC_CQP := 0.
Definition X264_RC_ABR := 2.
Definition X264_ANALYSE_PSUB8x8 := 0x0020.

(** ** Scaling matrices (common/set.h) *)
Definition x264_cqm_jvt4i : list Z :=
  [ 6; 13; 20; 28;
    13; 20; 28; 32;
    20; 28; 32; 37;
    28; 32; 37; 42 ].
Definition x264_cqm_jvt4p : list Z :=
  [ 10; 14; 20; 24;
    14; 20; 24; 27;
    20; 24; 27; 30;
    24; 27; 30; 34 ].
Definition x264_cqm_jvt8i : list Z :=
  [ 6; 10; 13; 16; 18; 23; 25; 27;
    10; 11; 16; 18; 23; 25; 27; 29;
    13; 16; 18; 23; 25; 27; 29; 31;
    16; 18; 23; 25; 27; 29; 31; 33;
    18; 23; 25; 27; 29; 31; 33; 36;
    23; 25; 27; 29; 31; 33; 36; 38;
    25; 27; 29; 31; 33; 36; 38; 40;
    27; 29; 31; 33; 36; 38; 40; 42 ].
Definition x264_cqm_jvt8p : list Z :=
  [ 9; 13; 15; 17; 19; 21; 22; 24;
    13; 13; 17; 19; 21; 22; 24; 25;
    15; 17; 19; 21; 22; 24; 25; 27;
    17; 19; 21; 22; 24; 25; 27; 28;
    19; 21; 22; 24; 25; 27; 28; 30;
    21; 22; 24; 25; 27; 28; 30; 32;
    22; 24; 25; 27; 28; 30; 32; 33;
    24; 25; 27; 28; 30; 32; 33; 35 ].
Definition x264_cqm_flat16 : list Z :=
  [ 16; 16; 16; 16; 16; 16; 16; 16;
    16; 16; 16; 16; 16; 16; 16; 16;
    16; 16; 16; 16; 16; 16; 16; 16;
    16; 16; 16; 16; 16; 16; 16; 16;
    16; 16; 16; 16; 16; 16; 16; 16;
    16; 16; 16; 16; 16; 16; 16; 16;
    16; 16; 16; 16; 16; 16; 16; 16;
    16; 16; 16; 16; 16; 16; 16; 16 ].
Definition x264_cqm_jvt : list (list Z) :=
  [ x264_cqm_jvt4i; x264_cqm_jvt4p; x264_cqm_jvt4i; x264_cqm_jvt4p; x264_cqm_jvt8i; x264_cqm_jvt8p ].

(** The parameters the headers depend on. *)
Record x264_param_t := Param {
  pr_i_width : Z; pr_i_height : Z; pr_i_level_idc : Z;
  pr_i_sar_width : Z; pr_i_sar_height : Z; pr_i_overscan : Z; pr_i_vidformat : Z; pr_b_fullrange : Z;
  pr_i_colorprim : Z; pr_i_transfer : Z; pr_i_colmatrix : Z; pr_i_chroma_loc : Z;
  pr_i_fps_num : Z; pr_i_fps_den : Z;
  pr_i_frame_reference : Z; pr_i_keyint_max : Z; pr_i_bframe : Z; pr_b_bframe_pyramid : bool;
  pr_b_cabac : bool; pr_b_interlaced : bool; pr_i_cqm_preset : Z;
  pr_cqm_4iy : list Z; pr_cqm_4ic : list Z; pr_cqm_4py : list Z; pr_cqm_4pc : list Z;
  pr_cqm_8iy : list Z; pr_cqm_8py : list Z;
  pr_inter : Z; pr_b_transform_8x8 : bool; pr_b_weighted_bipred : bool; pr_i_direct_8x8_inference : Z;
  pr_i_chroma_qp_offset : Z; pr_i_mv_range : Z;
  pr_i_rc_method : Z; pr_i_qp_constant : Z
}.

Record crop_t := Crop { i_left_ : Z; i_right : Z; i_top : Z; i_bottom : Z }.

Record vui_t := Vui {
  b_aspect_ratio_info_present : bool; i_sar_width : Z; i_sar_height : Z;
  b_overscan_info_present : bool; b_overscan_info : bool;
  b_signal_type_present : bool; i_vidformat : Z; b_fullrange : bool;
  b_color_description_present : bool; i_colorprim : Z; i_transfer : Z; i_colmatrix : Z;
  b_chroma_loc_info_present : bool; i_chroma_loc_top : Z; i_chroma_loc_bottom : Z;
  b_timing_info_present : bool; i_num_units_in_tick : Z; i_time_scale : Z; b_fixed_frame_rate : bool;
  b_bitstream_restriction : bool; b_motion_vectors_over_pic_boundaries : bool;
  i_max_bytes_per_pic_denom : Z; i_max_bits_per_mb_denom : Z;
  i_log2_max_mv_length_horizontal : Z; i_log2_max_mv_length_vertical : Z;
  i_num_reorder_frames : Z; i_max_dec_frame_buffering : Z
}.

Record x264_sps_t := Sps {
  sps_i_id : Z; sps_i_profile_idc : Z; sps_i_level_idc : Z;
  b_constraint_set0 : bool; b_constraint_set1 : bool; b_constraint_set2 : bool;
  i_log2_max_frame_num : Z; i_poc_type : Z; i_log2_max_poc_lsb : Z;
  b_delta_pic_order_always_zero : bool; i_offset_for_non_ref_pic : Z; i_offset_for_top_to_bottom_field : Z;
  i_offset_for_ref_frame : list Z;   (* i_num_ref_frames_in_poc_cycle entries *)
  i_num_ref_frames : Z; b_gaps_in_frame_num_value_allowed : bool;
  i_mb_width : Z; i_mb_height : Z; b_frame_mbs_only : bool; b_mb_adaptive_frame_field : bool;
  b_direct8x8_inference : bool;
  b_crop : bool; crop : crop_t; b_vui : bool; vui : vui_t;
  b_qpprime_y_zero_transform_bypass : bool
}.

Record x264_pps_t := Pps {
  pps_i_id : Z; i_sps_id : Z; b_cabac : bool; b_pic_order : bool; i_num_slice_groups : Z;
  pps_i_num_ref_idx_l0_active : Z; pps_i_num_ref_idx_l1_active : Z;
  b_weighted_pred : bool; b_weighted_bipred : Z;
  i_pic_init_qp : Z; i_pic_init_qs : Z; i_chroma_qp_index_offset : Z;
  b_deblocking_filter_control : bool; b_constrained_intra_pred : bool; b_redundant_pic_cnt : bool;
  b_transform_8x8_mode : bool; i_cqm_preset : Z;
  scaling_list : list (list Z)     (* indexed by CQM_4xx, and 4 + CQM_8xx *)
}.

(** ** The sequence parameter set *)

(** [while( (1 << log2) <= keyint ) log2++] from 4; the shift is defined up to 30. *)
Fixpoint log2_max_frame_num (fuel : nat) (log2 keyint : Z) : Z :=
  match fuel with
  | O => log2
  | S fuel => if (1 << log2) <=? keyint then log2_max_frame_num fuel (log2 + 1) keyint else log2
  end.

Definition x264_sps_init (i_id : Z) (param : x264_param_t) : x264_sps_t :=
  let bypass := (pr_i_rc_method param =? X264_RC_CQP) && (pr_i_qp_constant param =? 0) in
  let profile :=
    if bypass then PROFILE_HIGH444_PREDICTIVE
    else if pr_b_transform_8x8 param || negb (pr_i_cqm_preset param =? X264_CQM_FLAT) then PROFILE_HIGH
    else if pr_b_cabac param || (pr_i_bframe param >? 0) then PROFILE_MAIN
    else PROFILE_BASELINE in
  let log2 := log2_max_frame_num 27 4 (pr_i_keyint_max param) + 1 in
  let mb_width := (pr_i_width param + 15) ÷ 16 in
  let mb_height := (pr_i_height param + 15) ÷ 16 in
  let mb_height := if pr_b_interlaced param then (mb_height + 1) .& Z.lnot 1 else mb_height in
  let right := mb_width * 16 - pr_i_width param in
  let bottom := (mb_height * 16 - pr_i_height param) >> b2i (pr_b_interlaced param) in
  let sar := (pr_i_sar_width param >? 0) && (pr_i_sar_height param >? 0) in
  let vidformat := if pr_i_vidformat param <=? 5 then pr_i_vidformat param else 5 in
  let fullrange := i2b (pr_b_fullrange param) in
  let colorprim := if pr_i_colorprim param <=? 9 then pr_i_colorprim param else 2 in
  let transfer := if pr_i_transfer param <=? 11 then pr_i_transfer param else 2 in
  let colmatrix := if pr_i_colmatrix param <=? 9 then pr_i_colmatrix param else 2 in
  let color := negb (colorprim =? 2) || negb (transfer =? 2) || negb (colmatrix =? 2) in
  let timing := (pr_i_fps_num param >? 0) && (pr_i_fps_den param >? 0) in
  let reorder := if pr_b_bframe_pyramid param then 2 else if i2b (pr_i_bframe param) then 1 else 0 in
  let refs := Z.min 16 (Z.max (pr_i_frame_reference param) (1 + reorder)) in
  (* (int)(log(x)/log(2)): x is odd, so that the quotient is not near an integer *)
  let mv_length := Z.log2 (pr_i_mv_range param * 4 - 1) + 1 in
  {| sps_i_id := i_id; sps_i_profile_idc := profile; sps_i_level_idc := pr_i_level_idc param;
     b_constraint_set0 := profile =? PROFILE_BASELINE; b_constraint_set1 := profile <=? PROFILE_MAIN;
     b_constraint_set2 := false;
     i_log2_max_frame_num := log2; i_poc_type := 0; i_log2_max_poc_lsb := log2 + 1;
     b_delta_pic_order_always_zero := false; i_offset_for_non_ref_pic := 0; i_offset_for_top_to_bottom_field := 0;
     i_offset_for_ref_frame := [];
     i_num_ref_frames := refs; b_gaps_in_frame_num_value_allowed := false;
     i_mb_width := mb_width; i_mb_height := mb_height;
     b_frame_mbs_only := negb (pr_b_interlaced param); b_mb_adaptive_frame_field := pr_b_interlaced param;
     b_direct8x8_inference := i2b (pr_i_direct_8x8_inference param) || pr_b_interlaced param
                              || negb (i2b (pr_inter param .& X264_ANALYSE_PSUB8x8));
     b_crop := i2b right || i2b bottom;
     crop := {| i_left_ := 0; i_right := right; i_top := 0; i_bottom := bottom |};
     b_vui := true;
     vui := {|
       b_aspect_ratio_info_present := sar;
       i_sar_width := if sar then pr_i_sar_width param else 0;
       i_sar_height := if sar then pr_i_sar_height param else 0;
       b_overscan_info_present := i2b (pr_i_overscan param); b_overscan_info := pr_i_overscan param =? 2;
       b_signal_type_present := negb (vidformat =? 5) || fullrange || color;
       i_vidformat := vidformat; b_fullrange := fullrange;
       b_color_description_present := color; i_colorprim := colorprim; i_transfer := transfer; i_colmatrix := colmatrix;
       b_chroma_loc_info_present := i2b (pr_i_chroma_loc param);
       i_chroma_loc_top := pr_i_chroma_loc param; i_chroma_loc_bottom := pr_i_chroma_loc param;
       b_timing_info_present := timing;
       i_num_units_in_tick := if timing then pr_i_fps_den param else 0;
       i_time_scale := if timing then pr_i_fps_num param * 2 else 0;
       b_fixed_frame_rate := timing;
       b_bitstream_restriction := true; b_motion_vectors_over_pic_boundaries := true;
       i_max_bytes_per_pic_denom := 0; i_max_bits_per_mb_denom := 0;
       i_log2_max_mv_length_horizontal := mv_length; i_log2_max_mv_length_vertical := mv_length;
       i_num_reorder_frames := reorder; i_max_dec_frame_buffering := refs |};
     b_qpprime_y_zero_transform_bypass := bypass |}.

Definition sar_table : list (Z * Z * Z) :=
  [ (1, 1, 1); (12, 11, 2); (10, 11, 3); (16, 11, 4);
    (40, 33, 5); (24, 11, 6); (20, 11, 7); (32, 11, 8);
    (80, 33, 9); (18, 11, 10); (15, 11, 11); (64, 33, 12);
    (160, 99, 13) ].

(** The loop over [sar[]] stops at the ratio or at the end. *)
Definition find_sar (w h : Z) : option Z :=
  snd <$> List.find (fun '(a, b, _) => (a =? w) && (b =? h)) sar_table.

Section Write.
Context (WORD_SIZE : Z).
Local Abbreviation u n v := (fun s => bs_write WORD_SIZE s n v).
Local Abbreviation u1 v := (fun s => bs_write1 WORD_SIZE s v).
Local Abbreviation u32_ v := (fun s => bs_write32 WORD_SIZE s v).
Local Abbreviation se v := (fun s => bs_write_se WORD_SIZE s v).
(* [#define bs_write_ue bs_write_ue_big] in set.c *)
Local Abbreviation ueb v := (fun s => bs_write_ue_big WORD_SIZE s v).
Local Abbreviation ue v := (fun s => bs_write_ue WORD_SIZE s v).
Local Abbreviation flag b := (fun s => bs_write WORD_SIZE s 1 (b2i b)).
Local Abbreviation flag1 b := (fun s => bs_write1 WORD_SIZE s (b2i b)).

Definition vui_write (vui : vui_t) : bs_t -> bs_t :=
  flag1 (b_aspect_ratio_info_present vui) ;>
  when (b_aspect_ratio_info_present vui)
    (match find_sar (i_sar_width vui) (i_sar_height vui) with
     | Some sar => u 8 sar
     | None => u 8 255 ;> u 16 (i_sar_width vui) ;> u 16 (i_sar_height vui)
     end) ;>
  flag1 (b_overscan_info_present vui) ;>
  when (b_overscan_info_present vui) (flag1 (b_overscan_info vui)) ;>
  flag1 (b_signal_type_present vui) ;>
  when (b_signal_type_present vui)
    (u 3 (i_vidformat vui) ;>
     flag1 (b_fullrange vui) ;>
     flag1 (b_color_description_present vui) ;>
     when (b_color_description_present vui)
       (u 8 (i_colorprim vui) ;> u 8 (i_transfer vui) ;> u 8 (i_colmatrix vui))) ;>
  flag1 (b_chroma_loc_info_present vui) ;>
  when (b_chroma_loc_info_present vui) (ueb (i_chroma_loc_top vui) ;> ueb (i_chroma_loc_bottom vui)) ;>
  flag1 (b_timing_info_present vui) ;>
  when (b_timing_info_present vui)
    (u32_ (i_num_units_in_tick vui) ;> u32_ (i_time_scale vui) ;> flag1 (b_fixed_frame_rate vui)) ;>
  u1 0 ;> u1 0 ;> u1 0 ;>
  flag1 (b_bitstream_restriction vui) ;>
  when (b_bitstream_restriction vui)
    (flag1 (b_motion_vectors_over_pic_boundaries vui) ;>
     ueb (i_max_bytes_per_pic_denom vui) ;>
     ueb (i_max_bits_per_mb_denom vui) ;>
     ueb (i_log2_max_mv_length_horizontal vui) ;>
     ueb (i_log2_max_mv_length_vertical vui) ;>
     ueb (i_num_reorder_frames vui) ;>
     ueb (i_max_dec_frame_buffering vui)).

Definition sps_data_write (sps : x264_sps_t) : bs_t -> bs_t :=
  u 8 (sps_i_profile_idc sps) ;>
  flag (b_constraint_set0 sps) ;> flag (b_constraint_set1 sps) ;> flag (b_constraint_set2 sps) ;>
  u 5 0 ;>
  u 8 (sps_i_level_idc sps) ;>
  ueb (sps_i_id sps) ;>
  when (sps_i_profile_idc sps >=? PROFILE_HIGH)
    (ueb 1 ;> ueb 0 ;> ueb 0 ;> flag (b_qpprime_y_zero_transform_bypass sps) ;> u 1 0) ;>
  ueb (i_log2_max_frame_num sps - 4) ;>
  ueb (i_poc_type sps) ;>
  when (i_poc_type sps =? 0) (ueb (i_log2_max_poc_lsb sps - 4)) ;>
  when (negb (i_poc_type sps =? 0) && (i_poc_type sps =? 1))
    (flag (b_delta_pic_order_always_zero sps) ;>
     se (i_offset_for_non_ref_pic sps) ;>
     se (i_offset_for_top_to_bottom_field sps) ;>
     ueb (Z.of_nat (length (i_offset_for_ref_frame sps))) ;>
     each (fun x => se x) (i_offset_for_ref_frame sps)) ;>
  ueb (i_num_ref_frames sps) ;>
  flag (b_gaps_in_frame_num_value_allowed sps) ;>
  ueb (i_mb_width sps - 1) ;>
  (if b_frame_mbs_only sps then ueb (i_mb_height sps - 1) else ueb (i_mb_height sps ÷ 2 - 1)) ;>
  flag (b_frame_mbs_only sps) ;>
  when (negb (b_frame_mbs_only sps)) (flag (b_mb_adaptive_frame_field sps)) ;>
  flag (b_direct8x8_inference sps) ;>
  flag (b_crop sps) ;>
  when (b_crop sps)
    (ueb (i_left_ (crop sps) ÷ 2) ;> ueb (i_right (crop sps) ÷ 2) ;>
     ueb (i_top (crop sps) ÷ 2) ;> ueb (i_bottom (crop sps) ÷ 2)) ;>
  flag (b_vui sps) ;>
  when (b_vui sps) (vui_write (vui sps)).

Definition x264_sps_write (s : bs_t) (sps : x264_sps_t) : bs_t :=
  bs_rbsp_trailing WORD_SIZE (sps_data_write sps s).

(** ** The picture parameter set *)
Definition def_list (pps : x264_pps_t) (idx : Z) : list Z :=
  if idx =? CQM_4IC then nth (Z.to_nat CQM_4IY) (scaling_list pps) []
  else if idx =? CQM_4PC then nth (Z.to_nat CQM_4PY) (scaling_list pps) []
  else nth (Z.to_nat idx) x264_cqm_jvt [].

(** The length without the run of equal values at the end. *)
Fixpoint trim_run (fuel : nat) (list zigzag : list Z) (run : Z) : Z :=
  match fuel with
  | O => run
  | S fuel =>
      if run >? 1 then
        if negb (tbl list (tbl zigzag (run - 1)) =? tbl list (tbl zigzag (run - 2))) then run
        else trim_run fuel list zigzag (run - 1)
      else run
  end.

Definition scaling_list_write (pps : x264_pps_t) (idx : Z) : bs_t -> bs_t :=
  let len := if idx <? 4 then 16 else 64 in
  let zigzag := if idx <? 4 then nth 0 x264_zigzag_scan4 [] else nth 0 x264_zigzag_scan8 [] in
  let list := nth (Z.to_nat idx) (scaling_list pps) [] in
  let jvt := nth (Z.to_nat idx) x264_cqm_jvt [] in
  if bool_decide (take (Z.to_nat len) list = take (Z.to_nat len) (def_list pps idx)) then u 1 0
  else if bool_decide (take (Z.to_nat len) list = take (Z.to_nat len) jvt) then u 1 1 ;> se (-8)
  else
    let at_ j := tbl list (tbl zigzag j) in
    let run := trim_run (Z.to_nat len) list zigzag len in
    let run := if (run <? len) && (len - run <? bs_size_se (s8 (- at_ run))) then len else run in
    u 1 1 ;>
    each (fun j => se (s8 (at_ j - (if j >? 0 then at_ (j - 1) else 8)))) (seqZ 0 run) ;>
    when (run <? len) (se (s8 (- at_ run))).

Definition pps_base_write (pps : x264_pps_t) : bs_t -> bs_t :=
  ueb (pps_i_id pps) ;>
  ueb (i_sps_id pps) ;>
  flag (b_cabac pps) ;>
  flag (b_pic_order pps) ;>
  ueb (i_num_slice_groups pps - 1) ;>
  ueb (pps_i_num_ref_idx_l0_active pps - 1) ;>
  ueb (pps_i_num_ref_idx_l1_active pps - 1) ;>
  flag (b_weighted_pred pps) ;>
  u 2 (b_weighted_bipred pps) ;>
  se (i_pic_init_qp pps - 26) ;>
  se (i_pic_init_qs pps - 26) ;>
  se (i_chroma_qp_index_offset pps) ;>
  flag (b_deblocking_filter_control pps) ;>
  flag (b_constrained_intra_pred pps) ;>
  flag (b_redundant_pic_cnt pps).

(** The elements the first version of the standard does not have. *)
Definition pps_extension_write (pps : x264_pps_t) : bs_t -> bs_t :=
    (flag (b_transform_8x8_mode pps) ;>
     flag (negb (i_cqm_preset pps =? X264_CQM_FLAT)) ;>
     when (negb (i_cqm_preset pps =? X264_CQM_FLAT))
       (scaling_list_write pps CQM_4IY ;>
        scaling_list_write pps CQM_4IC ;>
        u 1 0 ;>
        scaling_list_write pps CQM_4PY ;>
        scaling_list_write pps CQM_4PC ;>
        u 1 0 ;>
        when (b_transform_8x8_mode pps)
          (scaling_list_write pps (CQM_8IY + 4) ;> scaling_list_write pps (CQM_8PY + 4))) ;>
     se (i_chroma_qp_index_offset pps)).

Definition pps_data_write (pps : x264_pps_t) : bs_t -> bs_t :=
  pps_base_write pps ;>
  when (b_transform_8x8_mode pps || negb (i_cqm_preset pps =? X264_CQM_FLAT)) (pps_extension_write pps).

Definition x264_pps_write (s : bs_t) (pps : x264_pps_t) : bs_t :=
  bs_rbsp_trailing WORD_SIZE (pps_data_write pps s).
End Write.

(** [XCHG] of two elements. *)
Definition xchg (buf : list Z) (a b : Z) : list Z :=
  <[Z.to_nat b := tbl buf a]> (<[Z.to_nat a := tbl buf b]> buf).
Definition transpose (buf : list Z) (w : Z) : list Z :=
  for_ (Z.to_nat w) 0 (fun i => for_ (Z.to_nat i) 0 (fun j buf => xchg buf (w * i + j) (w * j + i))) buf.

(** A custom list with a zero is replaced by the default one. *)
Definition replace_zero (i : nat) (list : list Z) : Datatypes.list Z :=
  for_ (if (i <? 4)%nat then 16 else 64) 0
    (fun j list => if tbl list j =? 0 then nth i x264_cqm_jvt [] else list) list.

Definition x264_pps_init (i_id : Z) (param : x264_param_t) (sps : x264_sps_t) : x264_pps_t :=
  {| pps_i_id := i_id; i_sps_id := sps_i_id sps; b_cabac := pr_b_cabac param;
     b_pic_order := false; i_num_slice_groups := 1;
     pps_i_num_ref_idx_l0_active := 1; pps_i_num_ref_idx_l1_active := 1;
     b_weighted_pred := false; b_weighted_bipred := if pr_b_weighted_bipred param then 2 else 0;
     i_pic_init_qp := if pr_i_rc_method param =? X264_RC_ABR then 26 else pr_i_qp_constant param;
     i_pic_init_qs := 26;
     i_chroma_qp_index_offset := pr_i_chroma_qp_offset param;
     b_deblocking_filter_control := true; b_constrained_intra_pred := false; b_redundant_pic_cnt := false;
     b_transform_8x8_mode := pr_b_transform_8x8 param;
     i_cqm_preset := pr_i_cqm_preset param;
     scaling_list :=
       if pr_i_cqm_preset param =? X264_CQM_FLAT then replicate 6 x264_cqm_flat16
       else if pr_i_cqm_preset param =? X264_CQM_JVT then x264_cqm_jvt
       else if pr_i_cqm_preset param =? X264_CQM_CUSTOM then
         imap replace_zero
           [ transpose (pr_cqm_4iy param) 4; transpose (pr_cqm_4py param) 4;
             transpose (pr_cqm_4ic param) 4; transpose (pr_cqm_4pc param) 4;
             transpose (pr_cqm_8iy param) 8; transpose (pr_cqm_8py param) 8 ]
       else [] |}.

(** * The syntax of the standard *)

(** Table E-1: the sample aspect ratios with a code. *)
Definition sar_of_idc (idc : Z) : option (Z * Z) :=
  fst <$> List.find (fun '(_, _, c) => c =? idc) sar_table.

Definition read_sar : parser (Z * Z) :=
  get idc from pu 8;
  if idc =? 255 then get w from pu 16; get h from pu 16; pret (w, h)
  else match sar_of_idc idc with
       | Some r => pret r
       | None => if idc =? 0 then pret (0, 0) else pfail
       end.

(** Annex E.1.1, without hypothetical reference decoder parameters. *)
Definition read_vui : parser vui_t :=
  get has_sar from pflag;
  get sar from pwhen has_sar read_sar (0, 0);
  get has_overscan from pflag;
  get overscan from pwhen has_overscan pflag false;
  get has_signal from pflag;
  get signal from pwhen has_signal
    (get format from pu 3; get range from pflag; get has_color from pflag;
     get color from pwhen has_color (get p from pu 8; get t from pu 8; get m from pu 8; pret (p, t, m)) (2, 2, 2);
     pret (format, range, has_color, color)) (5, false, false, (2, 2, 2));
  get has_loc from pflag;
  get loc from pwhen has_loc (get t from read_ue; get b from read_ue; pret (t, b)) (0, 0);
  get has_timing from pflag;
  get timing from pwhen has_timing (get n from pu 32; get t from pu 32; get f from pflag; pret (n, t, f)) (0, 0, false);
  get nal_hrd from pflag; get vcl_hrd from pflag;
  if nal_hrd || vcl_hrd then pfail else
  get pic_struct from pflag;
  get has_restriction from pflag;
  get r from pwhen has_restriction
    (get mvs from pflag; get b from read_ue; get m from read_ue; get lh from read_ue; get lv from read_ue;
     get reorder from read_ue; get buffering from read_ue; pret (mvs, b, m, lh, lv, reorder, buffering))
    (true, 2, 1, 16, 16, 0, 0);
  let '(format, range, has_color, (p, t, m)) := signal in
  let '(num_units, time_scale, fixed) := timing in
  let '(mvs, bytes, bits, lh, lv, reorder, buffering) := r in
  pret {| b_aspect_ratio_info_present := has_sar; i_sar_width := fst sar; i_sar_height := snd sar;
    b_overscan_info_present := has_overscan; b_overscan_info := overscan;
    b_signal_type_present := has_signal; i_vidformat := format; b_fullrange := range;
    b_color_description_present := has_color; i_colorprim := p; i_transfer := t; i_colmatrix := m;
    b_chroma_loc_info_present := has_loc; i_chroma_loc_top := fst loc; i_chroma_loc_bottom := snd loc;
    b_timing_info_present := has_timing; i_num_units_in_tick := num_units; i_time_scale := time_scale;
    b_fixed_frame_rate := fixed;
    b_bitstream_restriction := has_restriction; b_motion_vectors_over_pic_boundaries := mvs;
    i_max_bytes_per_pic_denom := bytes; i_max_bits_per_mb_denom := bits;
    i_log2_max_mv_length_horizontal := lh; i_log2_max_mv_length_vertical := lv;
    i_num_reorder_frames := reorder; i_max_dec_frame_buffering := buffering |}.

Definition vui_absent : vui_t :=
  Vui false 0 0 false false false 5 false false 2 2 2 false 0 0 false 0 0 false false true 2 1 16 16 0 0.

(** Table 7.3.2.1.1 for 8-bit 4:2:0 video without a scaling matrix.  The offsets of the
    cropping rectangle are in units of two samples. *)
Definition read_sps : parser x264_sps_t :=
  get profile from pu 8;
  get c0 from pflag; get c1 from pflag; get c2 from pflag; get reserved from pu 5;
  get level from pu 8;
  get id from read_ue;
  get bypass from pwhen (existsb (Z.eqb profile) [100; 110; 122; 244])
    (get chroma from read_ue; get luma_depth from read_ue; get chroma_depth from read_ue;
     get bypass from pflag; get matrix from pflag;
     if (chroma =? 1) && (luma_depth =? 0) && (chroma_depth =? 0) && negb matrix then pret bypass else pfail) false;
  get frame_num from read_ue;
  get poc_type from read_ue;
  get poc_lsb from pwhen (poc_type =? 0) (get n from read_ue; pret (n + 4)) 0;
  get cycle from pwhen (poc_type =? 1)
    (get zero from pflag; get non_ref from read_se; get top_bottom from read_se; get n from read_ue;
     get l from prepeat (Z.to_nat n) read_se; pret (zero, non_ref, top_bottom, l)) (false, 0, 0, []);
  get refs from read_ue;
  get gaps from pflag;
  get width from read_ue;
  get map_units from read_ue;
  get frame_mbs_only from pflag;
  get mbaff from pwhen (negb frame_mbs_only) pflag false;
  get direct8x8 from pflag;
  get has_crop from pflag;
  get crop from pwhen has_crop
    (get l from read_ue; get r from read_ue; get t from read_ue; get b from read_ue;
     pret (Crop (l * 2) (r * 2) (t * 2) (b * 2))) (Crop 0 0 0 0);
  get has_vui from pflag;
  get vui from pwhen has_vui read_vui vui_absent;
  let '(zero, non_ref, top_bottom, l) := cycle in
  pret {| sps_i_id := id; sps_i_profile_idc := profile; sps_i_level_idc := level;
    b_constraint_set0 := c0; b_constraint_set1 := c1; b_constraint_set2 := c2;
    i_log2_max_frame_num := frame_num + 4; i_poc_type := poc_type; i_log2_max_poc_lsb := poc_lsb;
    b_delta_pic_order_always_zero := zero; i_offset_for_non_ref_pic := non_ref;
    i_offset_for_top_to_bottom_field := top_bottom; i_offset_for_ref_frame := l;
    i_num_ref_frames := refs; b_gaps_in_frame_num_value_allowed := gaps;
    i_mb_width := width + 1;
    i_mb_height := (2 - b2i frame_mbs_only) * (map_units + 1);
    b_frame_mbs_only := frame_mbs_only; b_mb_adaptive_frame_field := mbaff;
    b_direct8x8_inference := direct8x8;
    b_crop := has_crop; crop := crop; b_vui := has_vui; vui := vui;
    b_qpprime_y_zero_transform_bypass := bypass |}.

(** The size of the decoded frames (7.4.2.1.1). *)
Definition frame_width (sps : x264_sps_t) : Z :=
  16 * i_mb_width sps - (i_left_ (crop sps) + i_right (crop sps)).
Definition frame_height (sps : x264_sps_t) : Z :=
  16 * i_mb_height sps - (2 - b2i (b_frame_mbs_only sps)) * (i_top (crop sps) + i_bottom (crop sps)).

(** * Reading back what is written *)

(** What the parameters have to be for the writer; [x264_sps_init] sees to it. *)
Record vui_ok (v : vui_t) : Prop := {
  o_sar : if b_aspect_ratio_info_present v then 0 < i_sar_width v < 65536 /\ 0 < i_sar_height v < 65536
          else i_sar_width v = 0 /\ i_sar_height v = 0;
  o_overscan : b_overscan_info_present v = false -> b_overscan_info v = false;
  o_vidformat : 0 <= i_vidformat v < 8;
  o_color : 0 <= i_colorprim v < 256 /\ 0 <= i_transfer v < 256 /\ 0 <= i_colmatrix v < 256;
  o_no_signal : b_signal_type_present v = false ->
    i_vidformat v = 5 /\ b_fullrange v = false /\ b_color_description_present v = false;
  o_no_color : b_color_description_present v = false -> i_colorprim v = 2 /\ i_transfer v = 2 /\ i_colmatrix v = 2;
  o_loc : 0 <= i_chroma_loc_top v < 6 /\ 0 <= i_chroma_loc_bottom v < 6;
  o_no_loc : b_chroma_loc_info_present v = false -> i_chroma_loc_top v = 0 /\ i_chroma_loc_bottom v = 0;
  o_timing : 0 <= i_num_units_in_tick v < 2 ^ 32 /\ 0 <= i_time_scale v < 2 ^ 32;
  o_no_timing : b_timing_info_present v = false ->
    i_num_units_in_tick v = 0 /\ i_time_scale v = 0 /\ b_fixed_frame_rate v = false;
  o_restriction : b_bitstream_restriction v = true;
  o_lengths : 0 <= i_max_bytes_per_pic_denom v < 17 /\ 0 <= i_max_bits_per_mb_denom v < 17 /\
    0 <= i_log2_max_mv_length_horizontal v < 17 /\ 0 <= i_log2_max_mv_length_vertical v < 17 /\
    0 <= i_num_reorder_frames v < 17 /\ 0 <= i_max_dec_frame_buffering v < 17
}.

Lemma find_sar_correct w h sar : find_sar w h = Some sar -> 0 <= sar < 255 /\ sar_of_idc sar = Some (w, h).
Proof.
  unfold find_sar. destruct (List.find _ sar_table) as [[[a b] c]|] eqn:E; cbn; [|done]. intros [= <-].
  apply List.find_some in E as [Hin Hab]. apply andb_prop in Hab as [Ha Hb].
  apply Z.eqb_eq in Ha as <-. apply Z.eqb_eq in Hb as <-.
  cbn in Hin. repeat (destruct Hin as [[= <- <- <-]|Hin]; [split; [lia|reflexivity]|]). done.
Qed.

Section Roundtrip.
Context (WORD_SIZE : Z) (word_ok : WORD_SIZE = 4 \/ WORD_SIZE = 8).

Lemma read_sar_correct w h : 0 < w < 65536 -> 0 < h < 65536 ->
  bs_emits WORD_SIZE
    (match find_sar w h with
     | Some sar => fun s => bs_write WORD_SIZE s 8 sar
     | None => (fun s => bs_write WORD_SIZE s 8 255) ;> (fun s => bs_write WORD_SIZE s 16 w) ;> (fun s => bs_write WORD_SIZE s 16 h)
     end) read_sar (w, h).
Proof.
  intros Hw Hh. destruct (find_sar w h) as [sar|] eqn:E.
  - apply find_sar_correct in E as [Hr E]. unfold read_sar. emit_step; [emit_step; lia|].
    destruct (Z.eqb_spec sar 255); [lia|]. by rewrite E.
  - unfold read_sar. emit_step; [emit_step; lia|]. cbn [Z.eqb Pos.eqb]. repeat (emit_step; try lia). done.
Qed.

Lemma vui_emits v : vui_ok v -> bs_emits WORD_SIZE (vui_write WORD_SIZE v) read_vui v.
Proof.
  intros K. destruct K as [K1 K2 K3 K4 K5 K6 K7 K8 K9 K10 K11 K12]. unfold vui_write, read_vui.
  repeat (emit_step; try lia).
  - rewrite H in K1. by apply read_sar_correct; apply K1.
  - rewrite H in K1. destruct K1 as [-> ->]. done.
  - by apply K2.
  - reflexivity.
  - destruct (K6 H0) as (-> & -> & ->). done.
  - reflexivity.
  - destruct (K5 H) as (-> & -> & E). rewrite E. destruct (K6 E) as (-> & -> & ->). done.
  - reflexivity.
  - destruct (K8 H) as (-> & ->). done.
  - reflexivity.
  - destruct (K10 H) as (-> & -> & ->). done.
  - cbn [orb]. repeat (emit_step; try lia); [reflexivity|congruence|]. cbn [fst snd]. by destruct v.
Qed.

(** The same for the whole set. *)
Record sps_ok (sps : x264_sps_t) : Prop := {
  o_profile : 0 <= sps_i_profile_idc sps < 256 /\
    (sps_i_profile_idc sps >=? PROFILE_HIGH) = existsb (Z.eqb (sps_i_profile_idc sps)) [100; 110; 122; 244];
  o_level : 0 <= sps_i_level_idc sps < 256;
  o_id : 0 <= sps_i_id sps < 32;
  o_bypass : (sps_i_profile_idc sps >=? PROFILE_HIGH) = false -> b_qpprime_y_zero_transform_bypass sps = false;
  o_frame_num : 4 <= i_log2_max_frame_num sps <= 32;
  o_poc : i_poc_type sps = 0 /\ 4 <= i_log2_max_poc_lsb sps <= 33;
  o_no_cycle : (b_delta_pic_order_always_zero sps, i_offset_for_non_ref_pic sps,
    i_offset_for_top_to_bottom_field sps, i_offset_for_ref_frame sps) = (false, 0, 0, []);
  o_refs : 0 <= i_num_ref_frames sps <= 16;
  o_mb_width : 1 <= i_mb_width sps < 2 ^ 28;
  o_mb_height : 1 <= i_mb_height sps < 2 ^ 28 /\ (b_frame_mbs_only sps = false -> i_mb_height sps mod 2 = 0);
  o_mbaff : b_frame_mbs_only sps = true -> b_mb_adaptive_frame_field sps = false;
  o_crop : 0 <= i_left_ (crop sps) < 64 /\ 0 <= i_right (crop sps) < 64 /\
    0 <= i_top (crop sps) < 64 /\ 0 <= i_bottom (crop sps) < 64;
  o_no_crop : b_crop sps = false -> crop sps = Crop 0 0 0 0;
  o_vui : b_vui sps = true /\ vui_ok (vui sps)
}.

(** The cropping rectangle as it is transmitted. *)
Definition crop_seen (c : crop_t) : crop_t :=
  Crop (i_left_ c ÷ 2 * 2) (i_right c ÷ 2 * 2) (i_top c ÷ 2 * 2) (i_bottom c ÷ 2 * 2).
Definition sps_seen (sps : x264_sps_t) : x264_sps_t :=
  Sps (sps_i_id sps) (sps_i_profile_idc sps) (sps_i_level_idc sps)
    (b_constraint_set0 sps) (b_constraint_set1 sps) (b_constraint_set2 sps)
    (i_log2_max_frame_num sps) (i_poc_type sps) (i_log2_max_poc_lsb sps)
    (b_delta_pic_order_always_zero sps) (i_offset_for_non_ref_pic sps) (i_offset_for_top_to_bottom_field sps)
    (i_offset_for_ref_frame sps) (i_num_ref_frames sps) (b_gaps_in_frame_num_value_allowed sps)
    (i_mb_width sps) (i_mb_height sps) (b_frame_mbs_only sps) (b_mb_adaptive_frame_field sps)
    (b_direct8x8_inference sps) (b_crop sps) (crop_seen (crop sps)) (b_vui sps) (vui sps)
    (b_qpprime_y_zero_transform_bypass sps).

Lemma half_level_range c : 0 <= c < 64 -> 0 <= c ÷ 2 < 64.
Proof. intros H. Z.to_euclidean_division_equations. lia. Qed.

Lemma sps_emits sps : sps_ok sps -> bs_emits WORD_SIZE (sps_data_write WORD_SIZE sps) read_sps (sps_seen sps).
Proof.
  intros K. destruct K as [[K1 K1'] K2 K3 K4 K5 [K6 K6'] K7 K8 K9 [K10 K10'] K11 (C1 & C2 & C3 & C4) K13 [K14 K15]].
  apply half_level_range in C1, C2, C3, C4.
  unfold sps_data_write, read_sps. rewrite K1' in K4 |- *. rewrite K6. cbn [Z.eqb negb andb Pos.eqb].
  repeat (emit_step; try lia).
  - reflexivity.
  - by apply K4.
  - reflexivity.
  - reflexivity.
  - instantiate (1 := if b_frame_mbs_only sps then i_mb_height sps - 1 else i_mb_height sps ÷ 2 - 1).
    destruct (b_frame_mbs_only sps); [|specialize (K10' eq_refl)]; emit_step; [lia|].
    Z.to_euclidean_division_equations. lia.
  - apply K11. by apply negb_false_iff.
  - reflexivity.
  - by rewrite K13.
  - apply vui_emits. exact K15.
  - congruence.
  - injection K7 as E1 E2 E3 E4. unfold sps_seen, crop_seen. rewrite E1, E2, E3, E4, K6. do 2 f_equal; try lia.
    destruct (b_frame_mbs_only sps); cbn [b2i]; [lia|]. specialize (K10' eq_refl). Z.to_euclidean_division_equations. lia.
Qed.
End Roundtrip.

(** ** What [x264_sps_init] makes of checked parameters *)
Record param_ok (p : x264_param_t) : Prop := {
  q_width : 0 < pr_i_width p < 2 ^ 27 /\ pr_i_width p mod 2 = 0;
  q_height : 0 < pr_i_height p < 2 ^ 27 /\ pr_i_height p mod 2 = 0;
  q_level : 0 <= pr_i_level_idc p < 256;
  q_sar : pr_i_sar_width p < 65536 /\ pr_i_sar_height p < 65536;
  q_vidformat : 0 <= pr_i_vidformat p;
  q_color : 0 <= pr_i_colorprim p /\ 0 <= pr_i_transfer p /\ 0 <= pr_i_colmatrix p;
  q_loc : 0 <= pr_i_chroma_loc p < 6;
  q_fps : pr_i_fps_num p < 2 ^ 30 /\ pr_i_fps_den p < 2 ^ 31;
  q_refs : 1 <= pr_i_frame_reference p <= 16;
  q_keyint : 1 <= pr_i_keyint_max p < 2 ^ 30;
  q_mv_range : 1 <= pr_i_mv_range p <= 512
}.

Lemma log2_max_frame_num_spec fuel k keyint : 0 <= k -> keyint < 2 ^ (k + Z.of_nat fuel) ->
  let r := log2_max_frame_num fuel k keyint in
  k <= r <= k + Z.of_nat fuel /\ keyint < 2 ^ r /\ (r = k \/ 2 ^ (r - 1) <= keyint).
Proof.
  revert k. induction fuel as [|fuel IH]; intros k Hk Hf; cbv zeta; cbn [log2_max_frame_num].
  - rewrite Z.add_0_r in Hf. split; [lia|]. split; [exact Hf|by left].
  - rewrite Z.shiftl_1_l. destruct (Z.leb_spec (2 ^ k) keyint) as [Hle|Hlt].
    + destruct (IH (k + 1)) as (I1 & I2 & I3); [lia|by replace (k + 1 + Z.of_nat fuel) with (k + Z.of_nat (S fuel)) by lia|].
      split; [lia|]. split; [exact I2|]. right. destruct I3 as [->|I3]; [|exact I3].
      by replace (k + 1 - 1) with k by lia.
    + split; [lia|]. split; [exact Hlt|by left].
Qed.

Lemma mb_count_spec n : 0 < n < 2 ^ 27 -> let k := (n + 15) ÷ 16 in 1 <= k < 2 ^ 24 /\ 0 <= k * 16 - n < 16.
Proof. intros H. cbv zeta. Z.to_euclidean_division_equations. lia. Qed.

Lemma land_not_1 x : x .& Z.lnot 1 = x - x mod 2.
Proof.
  change 1 with (Z.ones 1). rewrite <- Z.ldiff_land, Z.ldiff_ones_r, Z.shiftl_mul_pow2, Z.shiftr_div_pow2 by lia.
  change (2 ^ 1) with 2. pose proof (Z.div_mod x 2). lia.
Qed.

Section Init.
Context (param : x264_param_t) (Q : param_ok param) (i_id : Z) (Hid : 0 <= i_id < 32).
Local Abbreviation sps := (x264_sps_init i_id param).

Lemma init_frame_num : let n := i_log2_max_frame_num sps in
  5 <= n <= 32 /\ pr_i_keyint_max param < 2 ^ (n - 1) /\ (pr_i_keyint_max param < 2 ^ 14 -> n <= 15).
Proof.
  destruct (q_keyint _ Q) as [Q1 Q2].
  destruct (log2_max_frame_num_spec 27 4 (pr_i_keyint_max param)) as (H1 & H2 & H3); [lia|simpl; lia|].
  cbn [x264_sps_init i_log2_max_frame_num]. set (r := log2_max_frame_num _ _ _) in *. cbv zeta in *.
  split; [lia|]. split; [by replace (r + 1 - 1) with r by lia|]. intros H.
  destruct H3 as [->|H3]; [lia|]. enough (r - 1 < 14) by lia. apply (Z.pow_lt_mono_r_iff 2); lia.
Qed.

Lemma init_mb_height : let k := i_mb_height sps in 1 <= k < 2 ^ 25 /\
  0 <= k * 16 - pr_i_height param < 16 * (1 + b2i (pr_b_interlaced param)) /\ (pr_b_interlaced param = true -> k mod 2 = 0).
Proof.
  destruct (mb_count_spec (pr_i_height param)) as [H1 H2]; [apply Q|].
  cbn [x264_sps_init i_mb_height]. set (k := (pr_i_height param + 15) ÷ 16) in *. cbv zeta in *.
  destruct (pr_b_interlaced param); cbn [b2i]; [rewrite land_not_1|]; Z.to_euclidean_division_equations; lia.
Qed.

Lemma init_vui_ok : vui_ok (vui sps).
Proof.
  destruct Q as [W H L [S1 S2] V (C1 & C2 & C3) LO [F1 F2] R K M]. cbn [x264_sps_init vui].
  split; cbn -[Z.pow Z.log2].
  - destruct (Z.gtb_spec (pr_i_sar_width param) 0), (Z.gtb_spec (pr_i_sar_height param) 0); cbn; lia.
  - unfold i2b. destruct (Z.eqb_spec (pr_i_overscan param) 0) as [->|]; cbn; done.
  - destruct (Z.leb_spec (pr_i_vidformat param) 5); lia.
  - destruct (Z.leb_spec (pr_i_colorprim param) 9), (Z.leb_spec (pr_i_transfer param) 11), (Z.leb_spec (pr_i_colmatrix param) 9); lia.
  - intros E. apply orb_false_iff in E as [E E3]. apply orb_false_iff in E as [E1 E2].
    apply negb_false_iff, Z.eqb_eq in E1. done.
  - intros E. apply orb_false_iff in E as [E E3]. apply orb_false_iff in E as [E1 E2].
    apply negb_false_iff, Z.eqb_eq in E1, E2, E3. done.
  - lia.
  - unfold i2b. intros E%negb_false_iff%Z.eqb_eq. done.
  - destruct (Z.gtb_spec (pr_i_fps_num param) 0), (Z.gtb_spec (pr_i_fps_den param) 0); cbn [andb]; lia.
  - intros ->. done.
  - done.
  - assert (0 <= Z.log2 (pr_i_mv_range param * 4 - 1) < 11).
    { split; [apply Z.log2_nonneg|]. apply Z.log2_lt_pow2; lia. }
    destruct (pr_b_bframe_pyramid param), (i2b (pr_i_bframe param)); lia.
Qed.

Lemma init_sps_ok : sps_ok sps.
Proof.
  pose proof init_frame_num as (F1 & _ & _). destruct init_mb_height as (B1 & B2 & B3).
  destruct (mb_count_spec (pr_i_width param)) as [W1 W2]; [apply Q|]. cbv zeta in *.
  split; try done.
  - cbn [x264_sps_init sps_i_profile_idc]. repeat case_match; split; (done || (vm_compute; done)).
  - apply Q.
  - cbn [x264_sps_init sps_i_profile_idc b_qpprime_y_zero_transform_bypass]. by destruct (_ && _).
  - lia.
  - split; [done|]. change (i_log2_max_poc_lsb sps) with (i_log2_max_frame_num sps + 1). lia.
  - cbn [x264_sps_init i_num_ref_frames]. destruct (q_refs _ Q). destruct (pr_b_bframe_pyramid param), (i2b (pr_i_bframe param)); lia.
  - cbn [x264_sps_init i_mb_width]. lia.
  - split; [lia|]. intros E. apply B3. by apply negb_false_iff.
  - cbn [x264_sps_init b_frame_mbs_only b_mb_adaptive_frame_field]. by destruct (pr_b_interlaced param).
  - cbn [x264_sps_init crop i_left_ i_right i_top i_bottom]. fold (i_mb_height sps).
    change (if pr_b_interlaced param then _ else _) with (i_mb_height sps).
    repeat (split; [lia|]). destruct (pr_b_interlaced param); cbn [b2i] in *; rewrite ?Z.shiftr_0_r, ?Z.shiftr_div_pow2 by lia;
      change (2 ^ 1) with 2; Z.to_euclidean_division_equations; lia.
  - cbn [x264_sps_init b_crop crop]. unfold i2b. intros E. apply orb_false_iff in E as [E1 E2].
    apply negb_false_iff, Z.eqb_eq in E1, E2. by rewrite E1, E2.
  - split; [done|]. apply init_vui_ok.
Qed.

(** The size of the decoded frames. *)
Lemma init_frame_width : frame_width (sps_seen sps) = pr_i_width param.
Proof.
  destruct (q_width _ Q) as [_ Q2]. unfold frame_width, sps_seen, crop_seen. cbn [x264_sps_init crop i_mb_width i_left_ i_right].
  Z.to_euclidean_division_equations. lia.
Qed.

Lemma init_frame_height : frame_height (sps_seen sps) = pr_i_height param +
  (if pr_b_interlaced param && (pr_i_height param mod 4 =? 2) then 2 else 0).
Proof.
  destruct (q_height _ Q) as [Q1 Q2]. destruct init_mb_height as (B1 & B2 & B3). cbv zeta in *.
  unfold frame_height, sps_seen, crop_seen. cbn [crop i_mb_height i_top i_bottom b_frame_mbs_only].
  change (i_top (crop sps)) with 0. change (b_frame_mbs_only sps) with (negb (pr_b_interlaced param)).
  change (i_bottom (crop sps)) with ((i_mb_height sps * 16 - pr_i_height param) >> b2i (pr_b_interlaced param)).
  set (k := i_mb_height sps) in *. rewrite Z.shiftr_div_pow2 by (destruct (pr_b_interlaced param); done).
  destruct (pr_b_interlaced param); cbn [b2i negb andb] in *; [specialize (B3 eq_refl)|];
    change (2 ^ 1) with 2; change (2 ^ 0) with 1; [destruct (Z.eqb_spec (pr_i_height param mod 4) 2)|];
    Z.to_euclidean_division_equations; lia.
Qed.
End Init.

(** C35: a decoder of the H.264 standard that parses the sequence parameter set x264
    writes gets the parameters the encoder was given: profile, level, aspect ratio,
    colour description, frame rate and reference frames field by field, and frames of
    exactly the width and height of the input.  The one exception is interlaced video
    whose height is not a multiple of four, of which two lines too many are shown.
    Frame numbers do not wrap around between two key frames, and their width is
    in the range of the standard if key frames are less than 2^14 frames apart. *)
Theorem sps_describes_video WORD_SIZE (word_ok : WORD_SIZE = 4 \/ WORD_SIZE = 8) param i_id s :
  param_ok param -> 0 <= i_id < 32 -> bs_wf WORD_SIZE s -> pending WORD_SIZE s = 0%nat ->
  let s' := x264_sps_write WORD_SIZE s (x264_sps_init i_id param) in
  exists c n sps, bytes_bits (written s') = bytes_bits (written s) ++ c ++ true :: replicate n false /\ (n < 8)%nat /\
    (forall rest, read_sps (c ++ rest) = Some (sps, rest)) /\
    sps = sps_seen (x264_sps_init i_id param) /\
    frame_width sps = pr_i_width param /\
    frame_height sps = pr_i_height param + (if pr_b_interlaced param && (pr_i_height param mod 4 =? 2) then 2 else 0) /\
    pr_i_keyint_max param < 2 ^ (i_log2_max_frame_num sps - 1) /\
    (pr_i_keyint_max param < 2 ^ 14 -> i_log2_max_frame_num sps <= 16 /\ i_log2_max_poc_lsb sps <= 16).
Proof.
  intros Q Hid Hs Hp. cbv zeta. unfold x264_sps_write.
  destruct (emits_rbsp WORD_SIZE word_ok _ _ _ s (sps_emits WORD_SIZE word_ok _ (init_sps_ok param Q i_id Hid)) Hs Hp)
    as (_ & _ & c & n & E & Hn & R).
  destruct (init_frame_num param Q i_id) as (_ & F2 & F3).
  exists c, n, (sps_seen (x264_sps_init i_id param)). repeat (split; [done|]).
  split; [by apply init_frame_width|]. split; [by apply init_frame_height|]. split; [exact F2|].
  intros H. specialize (F3 H). cbn [sps_seen i_log2_max_frame_num i_log2_max_poc_lsb].
  change (i_log2_max_poc_lsb (x264_sps_init i_id param)) with (i_log2_max_frame_num (x264_sps_init i_id param) + 1). lia.
Qed.

(** ** Scaling lists *)

(** The default lists of tables 7-3 and 7-4, in the order of the scan. *)
Definition Default_4x4_Intra : list Z := [6; 13; 13; 20; 20; 20; 28; 28; 28; 28; 32; 32; 32; 37; 37; 42].
Definition Default_4x4_Inter : list Z := [10; 14; 14; 20; 20; 20; 24; 24; 24; 24; 27; 27; 27; 30; 30; 34].
Definition Default_8x8_Intra : list Z :=
  [ 6; 10; 10; 13; 11; 13; 16; 16; 16; 16; 18; 18; 18; 18; 18; 23; 23; 23; 23; 23; 23; 25; 25; 25; 25; 25; 25; 25;
    27; 27; 27; 27; 27; 27; 27; 27; 29; 29; 29; 29; 29; 29; 29; 31; 31; 31; 31; 31; 31; 33; 33; 33; 33; 33;
    36; 36; 36; 36; 38; 38; 38; 40; 40; 42 ].
Definition Default_8x8_Inter : list Z :=
  [ 9; 13; 13; 15; 13; 15; 17; 17; 17; 17; 19; 19; 19; 19; 19; 21; 21; 21; 21; 21; 21; 22; 22; 22; 22; 22; 22; 22;
    24; 24; 24; 24; 24; 24; 24; 24; 25; 25; 25; 25; 25; 25; 25; 27; 27; 27; 27; 27; 27; 28; 28; 28; 28; 28;
    30; 30; 30; 30; 32; 32; 32; 33; 33; 35 ].

(** 7.3.2.1.1.1: the elements after [last], where a [next] of 0 repeats it. *)
Fixpoint read_scales (n : nat) (last next : Z) : parser (list Z) :=
  match n with
  | O => pret []
  | S n =>
      get next from pwhen (negb (next =? 0)) (get delta from read_se; pret ((last + delta + 256) mod 256)) next;
      let last := if next =? 0 then last else next in
      get l from read_scales n last next; pret (last :: l)
  end.

(** A first element of 0 asks for the default list. *)
Definition read_scaling_list (size : nat) (default : list Z) : parser (list Z) :=
  get delta from read_se;
  let next := (8 + delta + 256) mod 256 in
  if next =? 0 then pret default
  else get l from read_scales (size - 1) next next; pret (next :: l).

Definition read_list_or (size : nat) (default fallback : list Z) : parser (list Z) :=
  get present from pflag; if (present : bool) then read_scaling_list size default else pret fallback.

(** A list of x264 in the order of the scan. *)
Definition zigzag_of (idx : Z) : list Z := if idx <? 4 then nth 0 x264_zigzag_scan4 [] else nth 0 x264_zigzag_scan8 [].
Definition scan_list (idx : Z) (l : list Z) : list Z := tbl l <$> zigzag_of idx.
Definition list_size (idx : Z) : nat := if idx <? 4 then 16%nat else 64%nat.
Definition default_of (idx : Z) : list Z :=
  nth (Z.to_nat idx) [Default_4x4_Intra; Default_4x4_Inter; Default_4x4_Intra; Default_4x4_Inter; Default_8x8_Intra; Default_8x8_Inter] [].

Lemma default_scan idx : 0 <= idx < 6 -> default_of idx = scan_list idx (nth (Z.to_nat idx) x264_cqm_jvt []).
Proof.
  intros H. assert (idx = 0 \/ idx = 1 \/ idx = 2 \/ idx = 3 \/ idx = 4 \/ idx = 5) as [->|[->|[->|[->|[->| ->]]]]] by lia;
    vm_compute; reflexivity.
Qed.

Lemma zigzag_range idx : Forall (fun z => 0 <= z < Z.of_nat (list_size idx)) (zigzag_of idx) /\ length (zigzag_of idx) = list_size idx.
Proof.
  unfold zigzag_of, list_size. destruct (idx <? 4); (split; [|reflexivity]); apply (bool_decide_unpack _); vm_compute; exact I.
Qed.

(** Only the first elements count. *)
Lemma scan_take idx l l' : take (list_size idx) l = take (list_size idx) l' -> scan_list idx l = scan_list idx l'.
Proof.
  intros E. unfold scan_list. apply list_fmap_ext. intros j z Hz.
  pose proof (proj1 (zigzag_range idx)) as HF. apply (list.Forall_lookup_1 _ _ _ _ HF) in Hz.
  unfold tbl. rewrite !nth_lookup.
  assert (forall k : list Z, k !! Z.to_nat z = take (list_size idx) k !! Z.to_nat z) as HT.
  { intros k. rewrite lookup_take_lt; [done|lia]. }
  by rewrite (HT l), E, <- HT.
Qed.

Section Scaling.
Context (WORD_SIZE : Z) (word_ok : WORD_SIZE = 4 \/ WORD_SIZE = 8).
Local Abbreviation se v := (fun s => bs_write_se WORD_SIZE s v).

Fixpoint deltas (prev : Z) (l : list Z) : bs_t -> bs_t :=
  match l with [] => fun s => s | v :: l => se (s8 (v - prev)) ;> deltas v l end.

Lemma s8_range v : -128 <= s8 v < 128.
Proof. pose proof (sw_range 8 v). lia. Qed.

Lemma s8_delta prev v : 0 <= v < 256 -> (prev + s8 (v - prev) + 256) mod 256 = v.
Proof. intros H. unfold sw. change (2 ^ (8 - 1)) with 128. change (2 ^ 8) with 256. Z.to_euclidean_division_equations. lia. Qed.

Lemma read_scales_0 k last l : read_scales k last 0 l = Some (replicate k last, l).
Proof. induction k as [|k IH]; [done|]. cbn [read_scales]. unfold pbind, pwhen. cbn [Z.eqb negb]. unfold pret. cbn [Z.eqb]. by rewrite IH. Qed.

(** The elements of [l], and then the last one [k] times. *)
Lemma scales_emits l : forall prev k, Forall (fun v => 0 < v < 256) l -> 0 < prev < 256 ->
  bs_emits WORD_SIZE (deltas prev l ;> when (0 <? Z.of_nat k) (se (s8 (- List.last l prev))))
    (read_scales (length l + k) prev prev) (l ++ replicate k (List.last l prev)).
Proof.
  induction l as [|v l IH]; intros prev k HF Hp; cbn [deltas length Nat.add].
  - cbn [List.last app]. destruct k as [|k]; cbn [replicate read_scales].
    + intros s Hs. split; [done|]. exists []. by rewrite app_nil_r.
    + replace (negb (prev =? 0)) with true by (symmetry; apply negb_true_iff, Z.eqb_neq; lia).
      replace (0 <? Z.of_nat (S k)) with true by (symmetry; apply Z.ltb_lt; lia).
      cbn [when pwhen]. eapply (emits_last_ext _ _ _ _ _ 0).
      * pose proof (s8_range (- prev)). eapply emits_last; [apply (emits_se _ word_ok); lia|].
        pose proof (s8_delta prev 0 ltac:(lia)) as HD. rewrite Z.sub_0_l in HD. by rewrite HD.
      * intros l. cbn [Z.eqb]. unfold pbind. by rewrite read_scales_0.
  - apply list.Forall_cons in HF as [Hv HF]. cbn [read_scales].
    replace (negb (prev =? 0)) with true by (symmetry; apply negb_true_iff, Z.eqb_neq; lia). cbn [pwhen].
    rewrite (seq_assoc _ _ (when _ _)). eapply emits_seq.
    + pose proof (s8_range (v - prev)). eapply emits_last; [apply (emits_se _ word_ok); lia|]. by rewrite s8_delta by lia.
    + cbv beta. replace (v =? 0) with false by (symmetry; apply Z.eqb_neq; lia).
      replace (List.last (v :: l) prev) with (List.last l v).
      * eapply emits_last; [apply IH; [done|lia]|done].
      * symmetry. apply last_cons_default.
Qed.

(** The loop over the scan is [deltas] of the list. *)
Lemma each_deltas (f : Z -> Z) n : forall k prev s, 0 <= k -> prev = (if k >? 0 then f (k - 1) else 8) ->
  each (fun j => se (s8 (f j - (if j >? 0 then f (j - 1) else 8)))) (seqZ k (Z.of_nat n)) s =
  deltas prev (f <$> seqZ k (Z.of_nat n)) s.
Proof.
  induction n as [|n IH]; intros k prev s Hk ->; [done|].
  rewrite seqZ_cons by lia. cbn [fmap list_fmap deltas]. unfold each in *. cbn [fold_left]. unfold seq.
  replace (Z.pred (Z.of_nat (S n))) with (Z.of_nat n) by lia. apply IH; [lia|].
  destruct (Z.gtb_spec (Z.succ k) 0); [f_equal|]; lia.
Qed.

Lemma trim_run_spec fuel list zigzag run : 1 <= run <= Z.of_nat fuel + 1 ->
  let at_ j := tbl list (tbl zigzag j) in
  let r := trim_run fuel list zigzag run in
  1 <= r <= run /\ forall j, r - 1 <= j < run -> at_ j = at_ (r - 1).
Proof.
  cbv zeta. revert run. induction fuel as [|fuel IH]; intros run Hr; cbn [trim_run].
  - split; [lia|]. intros j Hj. f_equal. f_equal. lia.
  - destruct (Z.gtb_spec run 1); [|split; [lia|intros j Hj; do 2 f_equal; lia]].
    destruct (Z.eqb_spec (tbl list (tbl zigzag (run - 1))) (tbl list (tbl zigzag (run - 2)))) as [E|E]; cbn [negb].
    + destruct (IH (run - 1)) as [I1 I2]; [lia|]. split; [lia|]. intros j Hj.
      destruct (Z.eq_dec j (run - 1)) as [->|]; [|apply I2; lia].
      rewrite E. replace (run - 2) with (run - 1 - 1) by lia. apply I2. lia.
    + split; [lia|]. intros j Hj. do 2 f_equal. lia.
Qed.

(** A list that is constant from [r - 1] on. *)
Lemma constant_tail (f : Z -> Z) r n d : 1 <= r <= n -> (forall j, r - 1 <= j < n -> f j = f (r - 1)) ->
  f <$> seqZ 0 n = (f <$> seqZ 0 r) ++ replicate (Z.to_nat (n - r)) (List.last (f <$> seqZ 0 r) d).
Proof.
  intros Hr Hc. replace n with (r + (n - r)) at 1 by lia. rewrite seqZ_app by lia. rewrite fmap_app. f_equal.
  rewrite last_seqZ by lia.
  apply list_eq_same_length with (n := Z.to_nat (n - r)); rewrite ?length_fmap, ?length_replicate, ?length_seqZ; [done|done|].
  intros i x y Hi Hx Hy. rewrite lookup_replicate in Hy. destruct Hy as [-> _].
  apply list_lookup_fmap_Some in Hx as (z & -> & Hz). apply lookup_seqZ in Hz as [-> Hz]. apply Hc. lia.
Qed.

(** The lists a picture parameter set can have. *)
Definition list_ok (idx : Z) (l : list Z) : Prop :=
  (list_size idx <= length l)%nat /\ Forall (fun v => 0 < v < 256) (take (list_size idx) l).

Lemma scan_values idx l : list_ok idx l -> Forall (fun v => 0 < v < 256) (scan_list idx l).
Proof.
  intros [Hl HF]. unfold scan_list. apply list.Forall_fmap. apply list.Forall_forall. intros z Hz.
  pose proof (Forall_elem _ _ _ (proj1 (zigzag_range idx)) Hz) as Hr. cbn in Hr |- *.
  destruct (lookup_lt_is_Some_2 l (Z.to_nat z)) as [v Hv]; [lia|].
  unfold tbl. rewrite nth_lookup, Hv. cbn. apply (list.Forall_lookup_1 _ _ (Z.to_nat z) v HF). rewrite lookup_take_lt by lia. done.
Qed.

(** A scaling list is read back through the default lists and the fall-back rule. *)
Lemma scaling_list_emits pps idx : 0 <= idx < 6 -> list_ok idx (nth (Z.to_nat idx) (scaling_list pps) []) ->
  bs_emits WORD_SIZE (scaling_list_write WORD_SIZE pps idx)
    (read_list_or (list_size idx) (default_of idx) (scan_list idx (def_list pps idx)))
    (scan_list idx (nth (Z.to_nat idx) (scaling_list pps) [])).
Proof.
  intros Hidx Hok. unfold scaling_list_write, read_list_or.
  set (l := nth (Z.to_nat idx) (scaling_list pps) []) in *. fold (zigzag_of idx). cbv zeta.
  replace (if idx <? 4 then 16 else 64) with (Z.of_nat (list_size idx)) by (unfold list_size; by destruct (idx <? 4)).
  rewrite Nat2Z.id. set (n := list_size idx) in *.
  case_bool_decide as Hdef; [|case_bool_decide as Hjvt].
  - eapply emits_last; [emit_element|]. cbn beta iota. by rewrite (scan_take idx l _ Hdef).
  - eapply emits_seq; [emit_element|]. cbv beta iota. unfold read_scaling_list.
    eapply emits_last; [emit_element; lia|]. cbn -[default_of]. by rewrite default_scan, (scan_take idx l _ Hjvt).
  - eapply emits_seq; [emit_element|]. cbv beta iota.
    set (at_ := fun j => tbl l (tbl (zigzag_of idx) j)).
    assert (scan_list idx l = at_ <$> seqZ 0 (Z.of_nat n)) as Es.
    { unfold scan_list, at_. apply list_eq. intros i. rewrite !list_lookup_fmap.
      pose proof (proj2 (zigzag_range idx)) as Hz. fold n in Hz.
      destruct (decide (i < n)%nat) as [Hi|Hi].
      - rewrite lookup_seqZ_lt by lia. cbn [fmap option_fmap option_map].
        destruct (lookup_lt_is_Some_2 (zigzag_of idx) i) as [z E]; [lia|]. rewrite E. cbn [fmap option_fmap option_map].
        assert (tbl (zigzag_of idx) (0 + Z.of_nat i) = z) as ->; [|done].
        unfold tbl. rewrite nth_lookup. replace (Z.to_nat (0 + Z.of_nat i)) with i by lia. by rewrite E.
      - rewrite !lookup_ge_None_2; [done|rewrite length_seqZ; lia|lia]. }
    pose proof (scan_values idx l Hok) as HV. rewrite Es in HV |- *.
    assert (1 <= Z.of_nat n) as Hn by (unfold n, list_size; destruct (idx <? 4); lia).
    destruct (trim_run_spec n l (zigzag_of idx) (Z.of_nat n)) as [R1 R2]; [lia|].
    set (r0 := trim_run n l (zigzag_of idx) (Z.of_nat n)) in *.
    set (r := if _ && _ then Z.of_nat n else r0).
    assert (1 <= r <= Z.of_nat n /\ forall j, r - 1 <= j < Z.of_nat n -> at_ j = at_ (r - 1)) as [Hr Hc].
    { unfold r. destruct (_ && _); [|split; [lia|exact R2]]. split; [lia|]. intros j Hj. f_equal. lia. }
    clearbody r. clear R1 R2 r0.
    apply (emits_same _ _ _ (deltas 8 (at_ <$> seqZ 0 r) ;> when (r <? Z.of_nat n) (se (s8 (- at_ r))))).
    { intros s. unfold seq. pose proof (each_deltas at_ (Z.to_nat r) 0 8 s ltac:(lia) eq_refl) as HE.
      rewrite Z2Nat.id in HE by lia. by rewrite <- HE. }
    rewrite (constant_tail at_ r (Z.of_nat n) 0 Hr Hc) in HV |- *. apply Forall_app in HV as [HV _].
    assert (r < Z.of_nat n -> at_ r = List.last (at_ <$> seqZ 0 r) 0) as Hlast.
    { intros H. rewrite last_seqZ by lia. apply Hc. lia. }
    assert (length (at_ <$> seqZ 0 r) = Z.to_nat r) as HL by (rewrite length_fmap, length_seqZ; lia).
    destruct (at_ <$> seqZ 0 r) as [|v l'] eqn:El; [cbn in HL; lia|]. cbn [length] in HL.
    apply list.Forall_cons in HV as [Hv HV]. rewrite last_cons_default in Hlast |- *. cbn [deltas app].
    unfold read_scaling_list. rewrite seq_assoc. eapply emits_seq; [pose proof (s8_range (v - 8)); emit_element; lia|]. cbv beta zeta.
    rewrite s8_delta by lia. replace (v =? 0) with false by (symmetry; apply Z.eqb_neq; lia).
    replace (n - 1)%nat with (length l' + Z.to_nat (Z.of_nat n - r))%nat by lia.
    eapply emits_last; [|reflexivity].
    eapply emits_same; [|apply (scales_emits l' v (Z.to_nat (Z.of_nat n - r)) HV Hv)].
    intros s. unfold seq. destruct (Z.ltb_spec r (Z.of_nat n)) as [Hlt|Hge].
    + rewrite Hlast by done. by replace (0 <? _) with true by (symmetry; apply Z.ltb_lt; lia).
    + by replace (0 <? _) with false by (symmetry; apply Z.ltb_ge; lia).
Qed.
End Scaling.

(** ** The picture parameter set *)
Record pps_info := PpsInfo {
  d_id : Z; d_sps_id : Z; d_cabac : bool; d_pic_order : bool; d_l0 : Z; d_l1 : Z;
  d_weighted_pred : bool; d_weighted_bipred : Z; d_qp : Z; d_qs : Z; d_chroma_offset : Z;
  d_deblocking_control : bool; d_constrained_intra : bool; d_redundant_pic : bool;
  d_transform_8x8 : bool; d_second_chroma_offset : Z;
  d_lists : list (list Z)    (* in the order of the scan: 4x4 intra Y, Cb, Cr, inter Y, Cb, Cr, and 8x8 intra, inter *)
}.

(** Fall-back rule A: the first list of a kind falls back to the default, the next to the one before. *)
Definition read_matrices (t8x8 : bool) : parser (list (list Z)) :=
  get iy from read_list_or 16 Default_4x4_Intra Default_4x4_Intra;
  get icb from read_list_or 16 Default_4x4_Intra iy;
  get icr from read_list_or 16 Default_4x4_Intra icb;
  get py from read_list_or 16 Default_4x4_Inter Default_4x4_Inter;
  get pcb from read_list_or 16 Default_4x4_Inter py;
  get pcr from read_list_or 16 Default_4x4_Inter pcb;
  get l8 from pwhen t8x8
    (get i from read_list_or 64 Default_8x8_Intra Default_8x8_Intra;
     get p from read_list_or 64 Default_8x8_Inter Default_8x8_Inter; pret [i; p]) [];
  pret ([iy; icb; icr; py; pcb; pcr] ++ l8).

Definition flat_lists (t8x8 : bool) : list (list Z) :=
  replicate 6 (replicate 16 16) ++ if t8x8 then replicate 2 (replicate 64 16) else [].

(** 7.2: there is more than the trailing bits. *)
Definition more_rbsp_data (l : list bool) : bool :=
  match l with true :: l => existsb id l | _ => true end.

(** Table 7.3.2.2 for one slice group, under a sequence parameter set without matrices. *)
Definition read_pps_base : parser (Z * Z * bool * bool * Z * Z * bool * Z * Z * Z * Z * (bool * bool * bool)) :=
  get id from read_ue; get sps_id from read_ue;
  get cabac from pflag; get pic_order from pflag;
  get groups from read_ue;
  if negb (groups =? 0) then pfail else
  get l0 from read_ue; get l1 from read_ue;
  get wp from pflag; get wb from pu 2;
  get qp from read_se; get qs from read_se; get chroma from read_se;
  get deblocking from pflag; get cip from pflag; get redundant from pflag;
  pret (id, sps_id, cabac, pic_order, l0 + 1, l1 + 1, wp, wb, qp + 26, qs + 26, chroma, (deblocking, cip, redundant)).

Definition read_pps_extension (chroma : Z) : parser (bool * list (list Z) * Z) :=
  get t8x8 from pflag;
  get matrix from pflag;
  get lists from pwhen matrix (read_matrices t8x8) (flat_lists t8x8);
  get chroma from read_se;
  pret (t8x8, lists, chroma).

Definition read_pps : parser pps_info :=
  get base from read_pps_base;
  let '(id, sps_id, cabac, pic_order, l0, l1, wp, wb, qp, qs, chroma, (deblocking, cip, redundant)) := base in
  get ext from (fun l => if more_rbsp_data l then read_pps_extension chroma l else pret (false, flat_lists false, chroma) l);
  let '(t8x8, lists, chroma2) := ext in
  pret (PpsInfo id sps_id cabac pic_order l0 l1 wp wb qp qs chroma deblocking cip redundant t8x8 chroma2 lists).

(** The lists of a picture parameter set in the order of the standard. *)
Definition pps_list (pps : x264_pps_t) (idx : Z) : list Z := scan_list idx (nth (Z.to_nat idx) (scaling_list pps) []).
Definition pps_lists (pps : x264_pps_t) : list (list Z) :=
  [ pps_list pps CQM_4IY; pps_list pps CQM_4IC; pps_list pps CQM_4IC;
    pps_list pps CQM_4PY; pps_list pps CQM_4PC; pps_list pps CQM_4PC ]
  ++ if b_transform_8x8_mode pps then [ pps_list pps (CQM_8IY + 4); pps_list pps (CQM_8PY + 4) ] else [].

Definition pps_seen (pps : x264_pps_t) : pps_info :=
  PpsInfo (pps_i_id pps) (i_sps_id pps) (b_cabac pps) (b_pic_order pps)
    (pps_i_num_ref_idx_l0_active pps) (pps_i_num_ref_idx_l1_active pps) (b_weighted_pred pps) (b_weighted_bipred pps)
    (i_pic_init_qp pps) (i_pic_init_qs pps) (i_chroma_qp_index_offset pps)
    (b_deblocking_filter_control pps) (b_constrained_intra_pred pps) (b_redundant_pic_cnt pps)
    (b_transform_8x8_mode pps) (i_chroma_qp_index_offset pps) (pps_lists pps).

Record pps_ok (pps : x264_pps_t) : Prop := {
  p_ids : 0 <= pps_i_id pps < 256 /\ 0 <= i_sps_id pps < 32;
  p_groups : i_num_slice_groups pps = 1;
  p_active : 1 <= pps_i_num_ref_idx_l0_active pps <= 32 /\ 1 <= pps_i_num_ref_idx_l1_active pps <= 32;
  p_bipred : 0 <= b_weighted_bipred pps < 4;
  p_qp : 0 <= i_pic_init_qp pps <= 51 /\ 0 <= i_pic_init_qs pps <= 51 /\ -12 <= i_chroma_qp_index_offset pps <= 12;
  p_lists : forall idx, 0 <= idx < 6 -> list_ok idx (nth (Z.to_nat idx) (scaling_list pps) []);
  p_flat : i_cqm_preset pps = X264_CQM_FLAT -> scaling_list pps = replicate 6 x264_cqm_flat16
}.

Section PpsRoundtrip.
Context (WORD_SIZE : Z) (word_ok : WORD_SIZE = 4 \/ WORD_SIZE = 8).

Lemma matrices_emits pps : pps_ok pps ->
  bs_emits WORD_SIZE
    (scaling_list_write WORD_SIZE pps CQM_4IY ;> scaling_list_write WORD_SIZE pps CQM_4IC ;>
     (fun s => bs_write WORD_SIZE s 1 0) ;>
     scaling_list_write WORD_SIZE pps CQM_4PY ;> scaling_list_write WORD_SIZE pps CQM_4PC ;>
     (fun s => bs_write WORD_SIZE s 1 0) ;>
     when (b_transform_8x8_mode pps)
       (scaling_list_write WORD_SIZE pps (CQM_8IY + 4) ;> scaling_list_write WORD_SIZE pps (CQM_8PY + 4)))
    (read_matrices (b_transform_8x8_mode pps)) (pps_lists pps).
Proof.
  intros K. unfold read_matrices.
  assert (forall idx, 0 <= idx < 6 -> bs_emits WORD_SIZE (scaling_list_write WORD_SIZE pps idx)
    (read_list_or (list_size idx) (default_of idx) (scan_list idx (def_list pps idx))) (pps_list pps idx)) as HE.
  { intros idx Hi. apply scaling_list_emits; [done|done|]. by apply K. }
  assert (forall size d fb, bs_emits WORD_SIZE (fun s => bs_write WORD_SIZE s 1 0) (read_list_or size d fb) fb) as H0.
  { intros. unfold read_list_or. eapply emits_last; [emit_element|]. done. }
  eapply emits_seq; [exact (HE CQM_4IY ltac:(done))|]. cbv beta.
  eapply emits_seq; [exact (HE CQM_4IC ltac:(done))|]. cbv beta.
  eapply emits_seq; [apply H0|]. cbv beta.
  eapply emits_seq; [exact (HE CQM_4PY ltac:(done))|]. cbv beta.
  eapply emits_seq; [exact (HE CQM_4PC ltac:(done))|]. cbv beta.
  eapply emits_seq; [apply H0|]. cbv beta.
  apply (emits_last _ _ _ _ _ (if b_transform_8x8_mode pps then [pps_list pps (CQM_8IY + 4); pps_list pps (CQM_8PY + 4)] else []));
    [|reflexivity].
  apply emits_when; intros ->; [|done]. eapply emits_seq; [exact (HE (CQM_8IY + 4) ltac:(done))|]. cbv beta.
  eapply emits_last; [exact (HE (CQM_8PY + 4) ltac:(done))|]. reflexivity.
Qed.

Lemma flat_lists_seen pps : scaling_list pps = replicate 6 x264_cqm_flat16 -> pps_lists pps = flat_lists (b_transform_8x8_mode pps).
Proof. intros E. unfold pps_lists, pps_list. rewrite E. destruct (b_transform_8x8_mode pps); vm_compute; reflexivity. Qed.

Lemma more_rbsp_data_end n : more_rbsp_data (true :: replicate n false) = false.
Proof. cbn [more_rbsp_data]. induction n; [done|]. cbn. done. Qed.
Lemma more_rbsp_data_more c n : c <> [] -> more_rbsp_data (c ++ true :: replicate n false) = true.
Proof. destruct c as [|[] c]; [done| |done]. intros _. cbn [app more_rbsp_data]. rewrite existsb_app. cbn. by destruct (existsb id c). Qed.

Lemma pps_base_emits pps : pps_ok pps ->
  bs_emits WORD_SIZE (pps_base_write WORD_SIZE pps) read_pps_base
   (pps_i_id pps, i_sps_id pps, b_cabac pps, b_pic_order pps,
    pps_i_num_ref_idx_l0_active pps, pps_i_num_ref_idx_l1_active pps, b_weighted_pred pps, b_weighted_bipred pps,
    i_pic_init_qp pps, i_pic_init_qs pps, i_chroma_qp_index_offset pps,
    (b_deblocking_filter_control pps, b_constrained_intra_pred pps, b_redundant_pic_cnt pps)).
Proof.
  intros [[K1 K1'] K2 [K3 K3'] K4 (K5 & K5' & K5'') K6 K7]. unfold pps_base_write, read_pps_base. rewrite K2.
  repeat (emit_step; try lia). change (negb (1 - 1 =? 0)) with false. cbv iota. repeat (emit_step; try lia).
  rewrite !Z.sub_add. reflexivity.
Qed.

Lemma pps_extension_emits pps : pps_ok pps ->
  bs_emits WORD_SIZE (pps_extension_write WORD_SIZE pps) (read_pps_extension (i_chroma_qp_index_offset pps))
    (b_transform_8x8_mode pps, pps_lists pps, i_chroma_qp_index_offset pps).
Proof.
  intros K. pose proof K as [_ _ _ _ (_ & _ & K5) _ K7]. unfold pps_extension_write, read_pps_extension.
  repeat (emit_step; try lia).
  - by apply matrices_emits.
  - apply flat_lists_seen, K7. by apply negb_false_iff, Z.eqb_eq in H.
  - reflexivity.
Qed.

(** The whole set up to the trailing bits, which the reader has to see. *)
Lemma pps_emits pps s : pps_ok pps -> bs_wf WORD_SIZE s -> pending WORD_SIZE s = 0%nat ->
  let s' := x264_pps_write WORD_SIZE s pps in
  exists c n, bytes_bits (written s') = bytes_bits (written s) ++ c ++ true :: replicate n false /\ (n < 8)%nat /\
    read_pps (c ++ true :: replicate n false) = Some (pps_seen pps, true :: replicate n false).
Proof.
  intros K Hs Hp. cbv zeta. unfold x264_pps_write, pps_data_write, seq.
  destruct (pps_base_emits pps K s Hs) as (H1 & c1 & E1 & R1). set (s1 := pps_base_write WORD_SIZE pps s) in *.
  destruct (b_transform_8x8_mode pps || negb (i_cqm_preset pps =? X264_CQM_FLAT)) eqn:Eb; cbn [when].
  - destruct (pps_extension_emits pps K s1 H1) as (H2 & c2 & E2 & R2).
    destruct (rbsp_stream WORD_SIZE word_ok s _ (c1 ++ c2) H2) as (_ & _ & n & E & Hn); [by rewrite E2, E1, app_assoc|done|].
    exists (c1 ++ c2), n. split; [exact E|]. split; [exact Hn|].
    assert (c2 <> []) as Hc2 by (intros ->; specialize (R2 []); done).
    unfold read_pps, pbind at 1. rewrite <- app_assoc, R1. unfold pbind at 1. by rewrite more_rbsp_data_more, R2.
  - destruct (rbsp_stream WORD_SIZE word_ok s _ c1 H1 E1 Hp) as (_ & _ & n & E & Hn).
    exists c1, n. split; [exact E|]. split; [exact Hn|]. unfold read_pps, pbind at 1. rewrite R1. unfold pbind at 1.
    rewrite more_rbsp_data_end. unfold pret at 1. apply orb_false_iff in Eb as [Eb Ep].
    unfold pps_seen. rewrite flat_lists_seen by (by apply K; apply negb_false_iff, Z.eqb_eq in Ep). by rewrite Eb.
Qed.
End PpsRoundtrip.

(** ** What [x264_pps_init] makes of checked parameters *)
Record matrices_ok (p : x264_param_t) : Prop := {
  m_preset : 0 <= pr_i_cqm_preset p <= 2;
  m_qp : 0 <= pr_i_qp_constant p <= 51 /\ -12 <= pr_i_chroma_qp_offset p <= 12;
  m_4x4 : Forall (fun l => length l = 16%nat /\ Forall (fun v => 0 <= v < 256) l)
    [pr_cqm_4iy p; pr_cqm_4ic p; pr_cqm_4py p; pr_cqm_4pc p];
  m_8x8 : Forall (fun l => length l = 64%nat /\ Forall (fun v => 0 <= v < 256) l) [pr_cqm_8iy p; pr_cqm_8py p]
}.

(** The frame scans of figure 8-8 and of clause 8.5.7, in raster order. *)
Definition zigzag_std4 : list Z := [0; 1; 4; 8; 5; 2; 3; 6; 9; 12; 13; 10; 7; 11; 14; 15].
Definition zigzag_std8 : list Z :=
  [ 0; 1; 8; 16; 9; 2; 3; 10; 17; 24; 32; 25; 18; 11; 4; 5; 12; 19; 26; 33; 40; 48; 41; 34; 27; 20; 13; 6; 7; 14; 21; 28;
    35; 42; 49; 56; 57; 50; 43; 36; 29; 22; 15; 23; 30; 37; 44; 51; 58; 59; 52; 45; 38; 31; 39; 46; 53; 60; 61; 54; 47; 55; 62; 63 ].

Tactic Notation "explicit_list" hyp(l) integer(n) :=
  do n (destruct l as [|? l]; [discriminate|]); destruct l; [|discriminate].

Lemma transpose_scan4 l : length l = 16%nat -> scan_list 0 (transpose l 4) = tbl l <$> zigzag_std4.
Proof. intros H. explicit_list l 16. vm_compute. reflexivity. Qed.
Lemma transpose_scan8 l : length l = 64%nat -> scan_list 4 (transpose l 8) = tbl l <$> zigzag_std8.
Proof. intros H. explicit_list l 64. vm_compute. reflexivity. Qed.

Lemma xchg_keeps (P : Z -> Prop) l a b : 0 <= a < Z.of_nat (length l) -> 0 <= b < Z.of_nat (length l) -> Forall P l ->
  Forall P (xchg l a b) /\ length (xchg l a b) = length l.
Proof.
  intros Ha Hb HF. unfold xchg. split; [|by rewrite !length_insert].
  assert (forall x, 0 <= x < Z.of_nat (length l) -> P (tbl l x)) as HP.
  { intros x Hx. destruct (lookup_lt_is_Some_2 l (Z.to_nat x)) as [v Hv]; [lia|].
    unfold tbl. rewrite nth_lookup, Hv. by apply (list.Forall_lookup_1 _ _ _ _ HF Hv). }
  apply Forall_insert; [apply Forall_insert; [done|]|]; by apply HP.
Qed.

Lemma transpose_keeps (P : Z -> Prop) l w : 0 <= w -> Z.of_nat (length l) = w * w -> Forall P l ->
  Forall P (transpose l w) /\ length (transpose l w) = length l.
Proof.
  intros Hw Hl HF. unfold transpose.
  apply (for_inv (fun _ l' => Forall P l' /\ length l' = length l) (Z.to_nat w) 0); [done|].
  intros i l' Hi H'. apply (for_inv (fun _ l' => Forall P l' /\ length l' = length l) (Z.to_nat i) 0); [done|].
  intros j l2 Hj [H2 L2]. destruct (xchg_keeps P l2 (w * i + j) (w * j + i)) as [H3 L3]; [nia|nia|done|].
  split; [done|by rewrite L3].
Qed.

Lemma replace_zero_spec k l :
  (replace_zero k l = l /\ Forall (fun j => tbl l j <> 0) (seqZ 0 (if (k <? 4)%nat then 16 else 64))) \/
  replace_zero k l = nth k x264_cqm_jvt [].
Proof.
  unfold replace_zero. set (n := if (k <? 4)%nat then 16%nat else 64%nat).
  destruct (for_inv (fun j l' => (l' = l /\ Forall (fun j => tbl l j <> 0) (seqZ 0 j)) \/ l' = nth k x264_cqm_jvt []) n 0
    (fun j list => if tbl list j =? 0 then nth k x264_cqm_jvt [] else list) l) as [[E HF]|E].
  - left. split; [done|constructor].
  - intros j l' Hj [[-> HF]|E].
    + destruct (Z.eqb_spec (tbl l j) 0); [by right|]. left. split; [done|].
      rewrite seqZ_app by lia. apply Forall_app. split; [done|]. change (seqZ (0 + j) 1) with [0 + (0 + j)]. by repeat constructor.
    + right. destruct (tbl l' j =? 0); done.
  - left. split; [exact E|]. rewrite Z.add_0_l in HF. unfold n in HF. by destruct (k <? 4)%nat.
  - by right.
Qed.

(** The matrices of the parameters, in the order of the standard's scan. *)
Definition user_lists (p : x264_param_t) : list (list Z) :=
  [ tbl (pr_cqm_4iy p) <$> zigzag_std4; tbl (pr_cqm_4ic p) <$> zigzag_std4; tbl (pr_cqm_4ic p) <$> zigzag_std4;
    tbl (pr_cqm_4py p) <$> zigzag_std4; tbl (pr_cqm_4pc p) <$> zigzag_std4; tbl (pr_cqm_4pc p) <$> zigzag_std4 ]
  ++ if pr_b_transform_8x8 p then [ tbl (pr_cqm_8iy p) <$> zigzag_std8; tbl (pr_cqm_8py p) <$> zigzag_std8 ] else [].
Definition default_lists (t8x8 : bool) : list (list Z) :=
  [ Default_4x4_Intra; Default_4x4_Intra; Default_4x4_Intra; Default_4x4_Inter; Default_4x4_Inter; Default_4x4_Inter ]
  ++ if t8x8 then [ Default_8x8_Intra; Default_8x8_Inter ] else [].
Definition no_zeros (p : x264_param_t) : Prop :=
  Forall (Forall (fun v => v <> 0)) [pr_cqm_4iy p; pr_cqm_4ic p; pr_cqm_4py p; pr_cqm_4pc p; pr_cqm_8iy p; pr_cqm_8py p].

Lemma jvt_ok idx : 0 <= idx < 6 -> list_ok idx (nth (Z.to_nat idx) x264_cqm_jvt []).
Proof.
  intros H. assert (idx = 0 \/ idx = 1 \/ idx = 2 \/ idx = 3 \/ idx = 4 \/ idx = 5) as [->|[->|[->|[->|[->| ->]]]]] by lia;
    (split; [vm_compute; lia|apply (bool_decide_unpack _); vm_compute; exact I]).
Qed.

Lemma custom_ok k l w : (k < 6)%nat -> w = (if (k <? 4)%nat then 4 else 8) -> Z.of_nat (length l) = w * w ->
  Forall (fun v => 0 <= v < 256) l ->
  list_ok (Z.of_nat k) (replace_zero k (transpose l w)) /\
  (Forall (fun v => v <> 0) l -> replace_zero k (transpose l w) = transpose l w).
Proof.
  intros Hk Hw Hl HF.
  assert (0 <= w /\ list_size (Z.of_nat k) = length l /\ (if (k <? 4)%nat then 16 else 64) = w * w /\
    Z.of_nat (if (k <? 4)%nat then 16%nat else 64%nat) = w * w) as (Hw0 & Hs & Hn1 & Hn2).
  { unfold list_size. destruct (k <? 4)%nat eqn:Ek; subst w; [apply Nat.ltb_lt in Ek|apply Nat.ltb_ge in Ek];
      (destruct (Z.ltb_spec (Z.of_nat k) 4); lia). }
  destruct (transpose_keeps _ l w Hw0 Hl HF) as [T1 T2].
  assert (forall j, 0 <= j < w * w -> exists v, transpose l w !! Z.to_nat j = Some v /\ tbl (transpose l w) j = v) as Hat.
  { intros j Hj. destruct (lookup_lt_is_Some_2 (transpose l w) (Z.to_nat j)) as [v Hv]; [lia|]. exists v. split; [done|].
    unfold tbl. by rewrite nth_lookup, Hv. }
  split.
  - destruct (replace_zero_spec k (transpose l w)) as [[-> HZ]|E].
    + split; [lia|]. rewrite take_ge by lia. apply Forall_lookup. intros j v Hv.
      pose proof (list.Forall_lookup_1 _ _ _ _ T1 Hv) as HB. cbn in HB. pose proof (lookup_lt_Some _ _ _ Hv).
      assert (tbl (transpose l w) (Z.of_nat j) <> 0) as Hn.
      { apply (Forall_elem _ _ _ HZ). apply elem_of_seqZ. rewrite Hn1. lia. }
      unfold tbl in Hn. rewrite Nat2Z.id, nth_lookup, Hv in Hn. cbn in Hn. lia.
    + rewrite E. pose proof (jvt_ok (Z.of_nat k)) as HJ. rewrite Nat2Z.id in HJ. apply HJ. lia.
  - intros Hn. destruct (transpose_keeps _ l w Hw0 Hl Hn) as [T3 _].
    unfold replace_zero. set (n := if (k <? 4)%nat then 16%nat else 64%nat).
    apply (for_inv (fun _ l' => l' = transpose l w) n 0); [done|]. intros j l' Hj ->.
    destruct (Hat j) as (v & Hv & ->); [unfold n in Hj; lia|].
    pose proof (list.Forall_lookup_1 _ _ _ _ T3 Hv) as Hv0. cbn in Hv0. by destruct (Z.eqb_spec v 0).
Qed.

Section PpsInit.
Context (param : x264_param_t) (M : matrices_ok param) (i_id : Z) (sps : x264_sps_t).
Context (Hid : 0 <= i_id < 256) (Hsps : 0 <= sps_i_id sps < 32).
Local Abbreviation pps := (x264_pps_init i_id param sps).

Lemma init_custom k : pr_i_cqm_preset param = X264_CQM_CUSTOM -> (k < 6)%nat ->
  let l := nth k [pr_cqm_4iy param; pr_cqm_4py param; pr_cqm_4ic param; pr_cqm_4pc param; pr_cqm_8iy param; pr_cqm_8py param] [] in
  let w := if (k <? 4)%nat then 4 else 8 in
  nth k (scaling_list pps) [] = replace_zero k (transpose l w) /\ Z.of_nat (length l) = w * w /\ Forall (fun v => 0 <= v < 256) l.
Proof.
  intros Hp Hk. destruct M as [_ _ M4 M8]. repeat rewrite list.Forall_cons in M4. repeat rewrite list.Forall_cons in M8.
  cbn [x264_pps_init scaling_list]. rewrite Hp. cbn [X264_CQM_CUSTOM X264_CQM_FLAT X264_CQM_JVT Z.eqb Pos.eqb imap].
  destruct M4 as ((L1 & F1) & (L2 & F2) & (L3 & F3) & (L4 & F4) & _). destruct M8 as ((L5 & F5) & (L6 & F6) & _).
  do 6 (destruct k as [|k]; [split; [reflexivity|]; split; [cbn [nth Nat.ltb Nat.leb]; lia|assumption]|]). lia.
Qed.

Lemma init_pps_ok : pps_ok pps.
Proof.
  destruct M as [M1 [M2 M3] M4 M8]. split; try done.
  - cbn [x264_pps_init b_weighted_bipred]. destruct (pr_b_weighted_bipred param); lia.
  - cbn [x264_pps_init i_pic_init_qp i_pic_init_qs i_chroma_qp_index_offset]. destruct (_ =? _); lia.
  - intros idx Hidx. destruct (Z.eq_dec (pr_i_cqm_preset param) X264_CQM_FLAT) as [E|E];
      [|destruct (Z.eq_dec (pr_i_cqm_preset param) X264_CQM_JVT) as [E1|E1]].
    + cbn [x264_pps_init scaling_list]. rewrite E. cbn [X264_CQM_FLAT Z.eqb].
      assert (idx = 0 \/ idx = 1 \/ idx = 2 \/ idx = 3 \/ idx = 4 \/ idx = 5) as [->|[->|[->|[->|[->| ->]]]]] by lia;
        (split; [vm_compute; lia|apply (bool_decide_unpack _); vm_compute; exact I]).
    + cbn [x264_pps_init scaling_list]. rewrite E1. by apply jvt_ok.
    + assert (pr_i_cqm_preset param = X264_CQM_CUSTOM) as Ec by (unfold X264_CQM_CUSTOM, X264_CQM_FLAT, X264_CQM_JVT in *; lia).
      destruct (init_custom (Z.to_nat idx) Ec ltac:(lia)) as (El & Hl & HF). rewrite El.
      destruct (custom_ok (Z.to_nat idx) _ _ ltac:(lia) eq_refl Hl HF) as [HO _]. by rewrite Z2Nat.id in HO by lia.
  - intros E. cbn [x264_pps_init i_cqm_preset scaling_list] in *. by rewrite E.
Qed.

Lemma init_lists : let lists := pps_lists pps in let t8x8 := pr_b_transform_8x8 param in
  (pr_i_cqm_preset param = X264_CQM_FLAT -> lists = flat_lists t8x8) /\
  (pr_i_cqm_preset param = X264_CQM_JVT -> lists = default_lists t8x8) /\
  (pr_i_cqm_preset param = X264_CQM_CUSTOM -> no_zeros param -> lists = user_lists param).
Proof.
  cbv zeta. split; [|split].
  - intros E. apply (flat_lists_seen pps). cbn [x264_pps_init scaling_list]. by rewrite E.
  - intros E. unfold pps_lists, pps_list. cbn [x264_pps_init scaling_list b_transform_8x8_mode]. rewrite E.
    destruct (pr_b_transform_8x8 param); vm_compute; reflexivity.
  - intros E Hn. unfold no_zeros in Hn. rewrite !list.Forall_cons in Hn.
    assert (forall k, (k < 6)%nat ->
      let l := nth k [pr_cqm_4iy param; pr_cqm_4py param; pr_cqm_4ic param; pr_cqm_4pc param; pr_cqm_8iy param; pr_cqm_8py param] [] in
      pps_list pps (Z.of_nat k) = scan_list (Z.of_nat k) (transpose l (if (k <? 4)%nat then 4 else 8))) as HL.
    { intros k Hk. cbv zeta. destruct (init_custom k E Hk) as (El & Hl & HF). unfold pps_list. rewrite Nat2Z.id, El.
      destruct (custom_ok k _ _ Hk eq_refl Hl HF) as [_ HC]. rewrite HC; [done|].
      do 6 (destruct k as [|k]; [cbn [nth]; tauto|]). lia. }
    unfold pps_lists, user_lists. cbn [x264_pps_init b_transform_8x8_mode].
    change CQM_4IY with (Z.of_nat 0). change CQM_4PY with (Z.of_nat 1). change CQM_4IC with (Z.of_nat 2). change CQM_4PC with (Z.of_nat 3).
    change (CQM_8IY + 4) with (Z.of_nat 4). change (CQM_8PY + 4) with (Z.of_nat 5).
    destruct M as [_ _ M4 M8]. repeat rewrite list.Forall_cons in M4. repeat rewrite list.Forall_cons in M8. rewrite !HL by lia. cbn [nth Nat.ltb Nat.leb].
    change (scan_list (Z.of_nat 0)) with (scan_list 0). change (scan_list (Z.of_nat 1)) with (scan_list 0).
    change (scan_list (Z.of_nat 2)) with (scan_list 0). change (scan_list (Z.of_nat 3)) with (scan_list 0).
    change (scan_list (Z.of_nat 4)) with (scan_list 4). change (scan_list (Z.of_nat 5)) with (scan_list 4).
    rewrite !transpose_scan4, !transpose_scan8 by tauto. done.
Qed.
End PpsInit.

(** C36: a decoder of the standard that parses the picture parameter set x264 writes gets
    the entropy coder, the initial and chroma quantiser offsets and the 8x8 transform
    flag of the parameters, and exactly their quantisation matrices: flat ones, the
    defaults of the standard, or the custom ones, each number at its place although
    x264 keeps them transposed, omits a matrix that the fall-back rules give, and cuts
    off a constant tail when that is shorter. *)
Theorem pps_describes_matrices WORD_SIZE (word_ok : WORD_SIZE = 4 \/ WORD_SIZE = 8) param i_id sps s :
  matrices_ok param -> 0 <= i_id < 256 -> 0 <= sps_i_id sps < 32 ->
  bs_wf WORD_SIZE s -> pending WORD_SIZE s = 0%nat ->
  let s' := x264_pps_write WORD_SIZE s (x264_pps_init i_id param sps) in
  exists c n pps, bytes_bits (written s') = bytes_bits (written s) ++ c ++ true :: replicate n false /\ (n < 8)%nat /\
    read_pps (c ++ true :: replicate n false) = Some (pps, true :: replicate n false) /\
    d_id pps = i_id /\ d_sps_id pps = sps_i_id sps /\ d_cabac pps = pr_b_cabac param /\
    d_qp pps = (if pr_i_rc_method param =? X264_RC_ABR then 26 else pr_i_qp_constant param) /\
    d_chroma_offset pps = pr_i_chroma_qp_offset param /\ d_second_chroma_offset pps = pr_i_chroma_qp_offset param /\
    d_transform_8x8 pps = pr_b_transform_8x8 param /\
    (pr_i_cqm_preset param = X264_CQM_FLAT -> d_lists pps = flat_lists (pr_b_transform_8x8 param)) /\
    (pr_i_cqm_preset param = X264_CQM_JVT -> d_lists pps = default_lists (pr_b_transform_8x8 param)) /\
    (pr_i_cqm_preset param = X264_CQM_CUSTOM -> no_zeros param -> d_lists pps = user_lists param).
Proof.
  intros M Hid Hsps Hs Hp. cbv zeta.
  destruct (pps_emits WORD_SIZE word_ok _ s (init_pps_ok param M i_id sps Hid Hsps) Hs Hp) as (c & n & E & Hn & R).
  exists c, n, (pps_seen (x264_pps_init i_id param sps)). repeat (split; [done|]). by apply init_lists.
Qed.

(** ** Instances: an interlaced 720x574 clip with custom matrices *)
Definition param_example : x264_param_t := {|
  pr_i_width := 720; pr_i_height := 574; pr_i_level_idc := 30;
  pr_i_sar_width := 64; pr_i_sar_height := 45; pr_i_overscan := 1; pr_i_vidformat := 1; pr_b_fullrange := 0;
  pr_i_colorprim := 5; pr_i_transfer := 5; pr_i_colmatrix := 5; pr_i_chroma_loc := 1;
  pr_i_fps_num := 25; pr_i_fps_den := 1;
  pr_i_frame_reference := 3; pr_i_keyint_max := 250; pr_i_bframe := 2; pr_b_bframe_pyramid := true;
  pr_b_cabac := true; pr_b_interlaced := true; pr_i_cqm_preset := X264_CQM_CUSTOM;
  pr_cqm_4iy := seqZ 1 16; pr_cqm_4ic := replicate 16 20; pr_cqm_4py := x264_cqm_jvt4p; pr_cqm_4pc := seqZ 40 16;
  pr_cqm_8iy := seqZ 3 60 ++ replicate 4 62; pr_cqm_8py := x264_cqm_jvt8p;
  pr_inter := 0x0113; pr_b_transform_8x8 := true; pr_b_weighted_bipred := true; pr_i_direct_8x8_inference := 1;
  pr_i_chroma_qp_offset := -2; pr_i_mv_range := 512;
  pr_i_rc_method := 1; pr_i_qp_constant := 24
|}.

Lemma sps_describes_video_witness :
  exists c n sps, bytes_bits (written (x264_sps_write 8 (bs_init 8 (fun _ => 0) 64 100 0) (x264_sps_init 0 param_example)))
      = c ++ true :: replicate n false /\
    (forall rest, read_sps (c ++ rest) = Some (sps, rest)) /\ frame_width sps = 720 /\ frame_height sps = 576.
Proof.
  destruct (sps_describes_video 8 (or_intror eq_refl) param_example 0 (bs_init 8 (fun _ => 0) 64 100 0))
    as (c & n & sps & E & _ & R & _ & W & H & _).
  - split; apply (bool_decide_unpack _); vm_compute; exact I.
  - lia.
  - vm_compute. split; [discriminate|split; [reflexivity|discriminate]].
  - reflexivity.
  - exists c, n, sps. repeat (split; [assumption|]). exact H.
Defined.

Lemma pps_describes_matrices_witness :
  exists c n pps, bytes_bits (written (x264_pps_write 8 (bs_init 8 (fun _ => 0) 64 400 0)
        (x264_pps_init 0 param_example (x264_sps_init 0 param_example)))) = c ++ true :: replicate n false /\
    read_pps (c ++ true :: replicate n false) = Some (pps, true :: replicate n false) /\ d_qp pps = 24 /\
    d_lists pps = user_lists param_example.
Proof.
  destruct (pps_describes_matrices 8 (or_intror eq_refl) param_example 0 (x264_sps_init 0 param_example)
    (bs_init 8 (fun _ => 0) 64 400 0)) as (c & n & pps & E & _ & R & _ & _ & _ & Q & _ & _ & _ & _ & _ & U).
  - split; apply (bool_decide_unpack _); vm_compute; exact I.
  - lia.
  - cbn. lia.
  - vm_compute. split; [discriminate|split; [reflexivity|discriminate]].
  - reflexivity.
  - exists c, n, pps. split; [exact E|]. split; [exact R|]. split; [exact Q|]. apply U; [reflexivity|].
    apply (bool_decide_unpack _); vm_compute; exact I.
Defined.
