(* ===== verification/Slice.v ===== *)
(** * Slice headers of x264 (encoder/encoder.c)

    [x264_slice_header_init], [x264_slice_init] and [x264_slice_header_write], and the
    slice header syntax of the H.264 standard (tables 7.3.3, 7.3.3.1 and 7.3.3.3) as a
    parser that reads it back. *)
From S2P Require Import Prelude Bs Syntax Mb Header.

Definition SLICE_TYPE_SP := 3.
Definition SLICE_TYPE_SI := 4.
Definition X264_DIRECT_PRED_SPATIAL := 1.

Record x264_slice_header_t := SliceHeader {
  i_type : Z; i_first_mb : Z; i_last_mb : Z; i_pps_id : Z; i_frame_num : Z;
  sh_b_mbaff : bool; b_field_pic : bool; b_bottom_field : bool;
  i_idr_pic_id : Z; i_poc_lsb : Z; i_delta_poc_bottom : Z; i_delta_poc : Z * Z; i_redundant_pic_cnt : Z;
  b_direct_spatial_mv_pred : bool;
  b_num_ref_idx_override : bool; i_num_ref_idx_l0_active : Z; i_num_ref_idx_l1_active : Z;
  b_ref_pic_list_reordering_l0 : bool; b_ref_pic_list_reordering_l1 : bool;
  ref_pic_list_order : Z -> Z -> Z * Z;      (* [list][i], the fields idc and arg *)
  i_cabac_init_idc : Z; i_qp : Z; i_qp_delta : Z; b_sp_for_swidth : bool; i_qs_delta : Z;
  i_disable_deblocking_filter_idc : Z; i_alpha_c0_offset : Z; i_beta_offset : Z
}.

(** What the slice header takes from the encoder's state [x264_t]. *)
Record slice_state := SliceState {
  st_b_interlaced : bool; st_i_cabac_init_idc : Z; st_b_deblocking_filter : bool;
  st_i_deblocking_filter_alphac0 : Z; st_i_deblocking_filter_beta : Z; st_i_direct_mv_pred : Z;
  b_direct_auto_read : bool; b_direct_auto_write : bool; i_direct_score : Z * Z; b_variable_qp : bool;
  b_ref_reorder : bool * bool;
  fref0 : list Z;              (* h->fref0[i]->i_frame_num, i_ref0 entries *)
  i_ref1 : Z;
  st_i_idr_pic_id : Z; st_i_frame_num : Z; i_poc : Z;
  old_b_direct_spatial_mv_pred : bool;        (* read from the statistics of the first pass *)
  old_ref_pic_list_order : Z -> Z -> Z * Z    (* what the last header has left there *)
}.

Section Init.
Context (sps : x264_sps_t) (pps : x264_pps_t).

(** The loop that constructs the reordering commands. *)
Fixpoint reorder_commands (i pred_frame_num : Z) (frames : list Z) (order : Z -> Z -> Z * Z) : Z -> Z -> Z * Z :=
  match frames with
  | [] => order
  | frame_num :: frames =>
      let diff := frame_num - pred_frame_num in
      reorder_commands (i + 1) frame_num frames
        (fun l k => if (l =? 0) && (k =? i) then (b2i (diff >? 0), Z.abs diff - 1) else order l k)
  end.

Definition x264_slice_header_init (h : slice_state) (type idr_pic_id i_frame qp : Z) : x264_slice_header_t :=
  let deblock := st_b_deblocking_filter h &&
    (b_variable_qp h || (15 <? qp + 2 * Z.min (st_i_deblocking_filter_alphac0 h) (st_i_deblocking_filter_beta h))) in
  {| i_type := type; i_first_mb := 0; i_last_mb := i_mb_width sps * i_mb_height sps; i_pps_id := pps_i_id pps;
     i_frame_num := i_frame;
     sh_b_mbaff := st_b_interlaced h; b_field_pic := false; b_bottom_field := false;
     i_idr_pic_id := idr_pic_id; i_poc_lsb := 0; i_delta_poc_bottom := 0; i_delta_poc := (0, 0); i_redundant_pic_cnt := 0;
     b_direct_spatial_mv_pred :=
       if negb (b_direct_auto_read h) then
         if b_direct_auto_write h then snd (i_direct_score h) >? fst (i_direct_score h)
         else st_i_direct_mv_pred h =? X264_DIRECT_PRED_SPATIAL
       else old_b_direct_spatial_mv_pred h;
     b_num_ref_idx_override := false; i_num_ref_idx_l0_active := 1; i_num_ref_idx_l1_active := 1;
     b_ref_pic_list_reordering_l0 := fst (b_ref_reorder h); b_ref_pic_list_reordering_l1 := snd (b_ref_reorder h);
     ref_pic_list_order :=
       if fst (b_ref_reorder h) then reorder_commands 0 i_frame (fref0 h) (old_ref_pic_list_order h)
       else old_ref_pic_list_order h;
     i_cabac_init_idc := st_i_cabac_init_idc h; i_qp := qp; i_qp_delta := qp - i_pic_init_qp pps;
     b_sp_for_swidth := false; i_qs_delta := 0;
     i_disable_deblocking_filter_idc := if deblock then 0 else 1;
     i_alpha_c0_offset := st_i_deblocking_filter_alphac0 h << 1; i_beta_offset := st_i_deblocking_filter_beta h << 1 |}.

(** Assignments to fields of a header. *)
Definition set_active (sh : x264_slice_header_t) (override : bool) (l0 l1 : Z) : x264_slice_header_t :=
  let 'SliceHeader a1 a2 a3 a4 a5 a6 a7 a8 a9 a10 a11 a12 a13 a14 _ _ _ a18 a19 a20 a21 a22 a23 a24 a25 a26 a27 a28 := sh in
  SliceHeader a1 a2 a3 a4 a5 a6 a7 a8 a9 a10 a11 a12 a13 a14 override l0 l1 a18 a19 a20 a21 a22 a23 a24 a25 a26 a27 a28.
Definition set_poc (sh : x264_slice_header_t) (lsb bottom : Z) : x264_slice_header_t :=
  let 'SliceHeader a1 a2 a3 a4 a5 a6 a7 a8 a9 _ _ a12 a13 a14 a15 a16 a17 a18 a19 a20 a21 a22 a23 a24 a25 a26 a27 a28 := sh in
  SliceHeader a1 a2 a3 a4 a5 a6 a7 a8 a9 lsb bottom a12 a13 a14 a15 a16 a17 a18 a19 a20 a21 a22 a23 a24 a25 a26 a27 a28.

(** [x264_slice_init]: the header, and the next identifier of a key frame. *)
Definition x264_slice_init (h : slice_state) (idr : bool) (type i_global_qp : Z) : x264_slice_header_t * Z :=
  let '(sh, id) :=
    if idr then
      (x264_slice_header_init h type (st_i_idr_pic_id h) (st_i_frame_num h) i_global_qp,
       Z.rem (st_i_idr_pic_id h + 1) 65536)
    else
      let sh := x264_slice_header_init h type (-1) (st_i_frame_num h) i_global_qp in
      let ref0 := Z.of_nat (length (fref0 h)) in
      (set_active sh true (if ref0 <=? 0 then 1 else ref0) (if i_ref1 h <=? 0 then 1 else i_ref1 h), st_i_idr_pic_id h) in
  if i_poc_type sps =? 0 then
    (set_poc sh (i_poc h .& ((1 << i_log2_max_poc_lsb sps) - 1)) 0, id)
  else (sh, id).
End Init.

(** ** Writing *)
Section Write.
Context (WORD_SIZE : Z) (sps : x264_sps_t) (pps : x264_pps_t).
Local Abbreviation u n v := (fun s => bs_write WORD_SIZE s n v).
Local Abbreviation ue v := (fun s => bs_write_ue WORD_SIZE s v).
Local Abbreviation se v := (fun s => bs_write_se WORD_SIZE s v).
Local Abbreviation flag1 b := (fun s => bs_write1 WORD_SIZE s (b2i b)).
Local Abbreviation u1 v := (fun s => bs_write1 WORD_SIZE s v).

(** The commands of a reference list, closed by 3. *)
Definition write_reordering (sh : x264_slice_header_t) (list n : Z) : bs_t -> bs_t :=
  each (fun i => ue (fst (ref_pic_list_order sh list i)) ;> ue (snd (ref_pic_list_order sh list i))) (seqZ 0 n) ;>
  ue 3.

Definition x264_slice_header_write (sh : x264_slice_header_t) (i_nal_ref_idc : Z) : bs_t -> bs_t :=
  (if sh_b_mbaff sh then ue (i_first_mb sh >> 1) else ue (i_first_mb sh)) ;>
  ue (i_type sh + 5) ;>
  ue (i_pps_id sh) ;>
  u (i_log2_max_frame_num sps) (i_frame_num sh) ;>
  when (negb (b_frame_mbs_only sps))
    (flag1 (b_field_pic sh) ;>
     when (b_field_pic sh) (flag1 (b_bottom_field sh))) ;>
  when (i_idr_pic_id sh >=? 0) (ue (i_idr_pic_id sh)) ;>
  when (i_poc_type sps =? 0)
    (u (i_log2_max_poc_lsb sps) (i_poc_lsb sh) ;>
     when (b_pic_order pps && negb (b_field_pic sh)) (se (i_delta_poc_bottom sh))) ;>
  when (negb (i_poc_type sps =? 0) && ((i_poc_type sps =? 1) && negb (b_delta_pic_order_always_zero sps)))
    (se (fst (i_delta_poc sh)) ;>
     when (b_pic_order pps && negb (b_field_pic sh)) (se (snd (i_delta_poc sh)))) ;>
  when (b_redundant_pic_cnt pps) (ue (i_redundant_pic_cnt sh)) ;>
  when (i_type sh =? SLICE_TYPE_B) (flag1 (b_direct_spatial_mv_pred sh)) ;>
  when ((i_type sh =? SLICE_TYPE_P) || (i_type sh =? SLICE_TYPE_SP) || (i_type sh =? SLICE_TYPE_B))
    (flag1 (b_num_ref_idx_override sh) ;>
     when (b_num_ref_idx_override sh)
       (ue (i_num_ref_idx_l0_active sh - 1) ;>
        when (i_type sh =? SLICE_TYPE_B) (ue (i_num_ref_idx_l1_active sh - 1)))) ;>
  when (negb (i_type sh =? SLICE_TYPE_I))
    (flag1 (b_ref_pic_list_reordering_l0 sh) ;>
     when (b_ref_pic_list_reordering_l0 sh) (write_reordering sh 0 (i_num_ref_idx_l0_active sh))) ;>
  when (i_type sh =? SLICE_TYPE_B)
    (flag1 (b_ref_pic_list_reordering_l1 sh) ;>
     when (b_ref_pic_list_reordering_l1 sh) (write_reordering sh 1 (i_num_ref_idx_l1_active sh))) ;>
  when (negb (i_nal_ref_idc =? 0))
    (if i_idr_pic_id sh >=? 0 then u1 0 ;> u1 0 else u1 0) ;>
  when (b_cabac pps && negb (i_type sh =? SLICE_TYPE_I)) (ue (i_cabac_init_idc sh)) ;>
  se (i_qp_delta sh) ;>
  when (b_deblocking_filter_control pps)
    (ue (i_disable_deblocking_filter_idc sh) ;>
     when (negb (i_disable_deblocking_filter_idc sh =? 1))
       (se (i_alpha_c0_offset sh >> 1) ;> se (i_beta_offset sh >> 1))).
End Write.

(** ** The syntax of the standard *)

(** A slice header as a decoder sees it. *)
Record slice_info := SliceInfo {
  v_first_mb : Z; v_type : Z; v_pps_id : Z; v_frame_num : Z; v_field : bool; v_bottom : bool;
  v_idr_pic_id : Z; v_poc_lsb : Z; v_direct_spatial : bool; v_num_l0 : Z; v_num_l1 : Z;
  v_reordering0 : list (Z * Z); v_reordering1 : list (Z * Z);
  v_cabac_init_idc : Z; v_qp : Z; v_disable_deblocking : Z; v_alpha_offset : Z; v_beta_offset : Z
}.

(** Table 7.3.3.1 without long-term pictures: at most 32 commands and the end. *)
Fixpoint read_reordering (n : nat) : parser (list (Z * Z)) :=
  match n with
  | O => pfail
  | S n =>
      get idc from read_ue;
      if idc =? 3 then pret []
      else if (idc =? 0) || (idc =? 1) then
        get arg from read_ue; get l from read_reordering n; pret ((idc, arg) :: l)
      else pfail
  end.

Definition read_slice_header (sps : x264_sps_t) (pps : pps_info) (idr : bool) (nal_ref_idc : Z) : parser slice_info :=
  get first_mb from read_ue;
  get type from read_ue;
  let type := type mod 5 in
  let is_B := type =? 1 in
  let is_I := (type =? 2) || (type =? 4) in
  let is_P := (type =? 0) || (type =? 3) in
  get pps_id from read_ue;
  get frame_num from pu (i_log2_max_frame_num sps);
  get field from pwhen (negb (b_frame_mbs_only sps))
    (get field from pflag; get bottom from pwhen field pflag false; pret (field, bottom)) (false, false);
  get id from pwhen idr read_ue (-1);
  get poc from pwhen (i_poc_type sps =? 0)
    (get lsb from pu (i_log2_max_poc_lsb sps);
     get bottom from pwhen (d_pic_order pps && negb (fst field)) read_se 0; pret (lsb, bottom)) (0, 0);
  get delta from pwhen ((i_poc_type sps =? 1) && negb (b_delta_pic_order_always_zero sps))
    (get d0 from read_se; get d1 from pwhen (d_pic_order pps && negb (fst field)) read_se 0; pret (d0, d1)) (0, 0);
  get redundant from pwhen (d_redundant_pic pps) read_ue 0;
  get direct from pwhen is_B pflag false;
  get active from pwhen (is_P || is_B)
    (get override from pflag;
     pwhen override
       (get l0 from read_ue; get l1 from pwhen is_B (get n from read_ue; pret (n + 1)) (d_l1 pps); pret (l0 + 1, l1))
       (d_l0 pps, d_l1 pps)) (d_l0 pps, d_l1 pps);
  get r0 from pwhen (negb is_I) (get f from pflag; pwhen f (read_reordering 33) []) [];
  get r1 from pwhen is_B (get f from pflag; pwhen f (read_reordering 33) []) [];
  if (d_weighted_pred pps && is_P) || ((d_weighted_bipred pps =? 1) && is_B) then pfail else  (* no weight tables *)
  get marking from pwhen (negb (nal_ref_idc =? 0))
    (if idr then get no_output from pflag; get long_term from pflag; pret false
     else pflag) false;
  if marking then pfail else                    (* no memory management commands *)
  get cabac_init_idc from pwhen (d_cabac pps && negb is_I) read_ue 0;
  get qp_delta from read_se;
  get deblocking from pwhen (d_deblocking_control pps)
    (get disable from read_ue;
     get offsets from pwhen (negb (disable =? 1)) (get a from read_se; get b from read_se; pret (a * 2, b * 2)) (0, 0);
     pret (disable, offsets)) (0, (0, 0));
  pret (SliceInfo (first_mb * (1 + b2i (b_mb_adaptive_frame_field sps && negb (fst field)))) type pps_id frame_num
    (fst field) (snd field) id (fst poc) direct (fst active) (snd active) r0 r1 cabac_init_idc
    (d_qp pps + qp_delta) (fst deblocking) (fst (snd deblocking)) (snd (snd deblocking))).

(** The picture numbers a list of commands puts at the front of the list (8.2.4.3.1). *)
Fixpoint reordered (pred : Z) (commands : list (Z * Z)) : list Z :=
  match commands with
  | [] => []
  | (idc, arg) :: commands =>
      let n := if idc =? 0 then pred - (arg + 1) else pred + (arg + 1) in
      n :: reordered n commands
  end.

(** ** Reading back what is written *)
Definition commands (sh : x264_slice_header_t) (list n : Z) : Datatypes.list (Z * Z) := ref_pic_list_order sh list <$> seqZ 0 n.

(** The headers x264 makes; [idr] tells the type of the unit they are in. *)
Record sh_ok (sps : x264_sps_t) (pps : x264_pps_t) (idr : bool) (sh : x264_slice_header_t) : Prop := {
  k_type : i_type sh = SLICE_TYPE_P \/ i_type sh = SLICE_TYPE_B \/ i_type sh = SLICE_TYPE_I;
  k_first_mb : 0 <= i_first_mb sh < 255 /\ (sh_b_mbaff sh = true -> i_first_mb sh mod 2 = 0);
  k_pps_id : 0 <= i_pps_id sh < 255;
  k_frame_num : 0 <= i_log2_max_frame_num sps <= 31 /\ 0 <= i_frame_num sh < 2 ^ i_log2_max_frame_num sps;
  k_field : b_field_pic sh = false /\ b_bottom_field sh = false /\ b_mb_adaptive_frame_field sps = sh_b_mbaff sh;
  k_idr : if idr then 0 <= i_idr_pic_id sh < 255 else i_idr_pic_id sh = -1;
  k_poc : i_poc_type sps = 0 /\ 0 <= i_log2_max_poc_lsb sps <= 31 /\ 0 <= i_poc_lsb sh < 2 ^ i_log2_max_poc_lsb sps;
  k_flags : b_pic_order pps = false /\ b_redundant_pic_cnt pps = false /\ b_weighted_pred pps = false /\
    b_weighted_bipred pps <> 1 /\ b_deblocking_filter_control pps = true;
  k_active : if b_num_ref_idx_override sh then 1 <= i_num_ref_idx_l0_active sh <= 32 /\ 1 <= i_num_ref_idx_l1_active sh <= 32
    else i_num_ref_idx_l0_active sh = pps_i_num_ref_idx_l0_active pps /\ i_num_ref_idx_l1_active sh = pps_i_num_ref_idx_l1_active pps /\
      i_num_ref_idx_l0_active sh = 1 /\ i_num_ref_idx_l1_active sh = 1;
  k_commands : i_type sh <> SLICE_TYPE_I -> b_ref_pic_list_reordering_l0 sh = true ->
    Forall (fun '(idc, arg) => (idc = 0 \/ idc = 1) /\ 0 <= arg < 255) (commands sh 0 (i_num_ref_idx_l0_active sh));
  k_list1 : b_ref_pic_list_reordering_l1 sh = false;
  k_cabac : 0 <= i_cabac_init_idc sh <= 2;
  k_qp : -100 <= i_qp_delta sh <= 100;
  k_deblock : 0 <= i_disable_deblocking_filter_idc sh <= 2 /\
    -100 <= i_alpha_c0_offset sh <= 100 /\ -100 <= i_beta_offset sh <= 100 /\
    i_alpha_c0_offset sh mod 2 = 0 /\ i_beta_offset sh mod 2 = 0
}.

Definition slice_seen (pps : x264_pps_t) (sh : x264_slice_header_t) : slice_info :=
  let is_B := i_type sh =? SLICE_TYPE_B in
  let is_I := i_type sh =? SLICE_TYPE_I in
  let deblock := negb (i_disable_deblocking_filter_idc sh =? 1) in
  SliceInfo (i_first_mb sh) (i_type sh) (i_pps_id sh) (i_frame_num sh) false false (i_idr_pic_id sh) (i_poc_lsb sh)
    (is_B && b_direct_spatial_mv_pred sh)
    (if is_I then pps_i_num_ref_idx_l0_active pps else i_num_ref_idx_l0_active sh)
    (if is_B then i_num_ref_idx_l1_active sh else pps_i_num_ref_idx_l1_active pps)
    (if negb is_I && b_ref_pic_list_reordering_l0 sh then commands sh 0 (i_num_ref_idx_l0_active sh) else []) []
    (if b_cabac pps && negb is_I then i_cabac_init_idc sh else 0)
    (i_pic_init_qp pps + i_qp_delta sh) (i_disable_deblocking_filter_idc sh)
    (if deblock then i_alpha_c0_offset sh else 0) (if deblock then i_beta_offset sh else 0).

Section Roundtrip.
Context (WORD_SIZE : Z) (word_ok : WORD_SIZE = 4 \/ WORD_SIZE = 8).

Lemma reordering_emits sh list n fuel :
  0 <= n < Z.of_nat fuel ->
  Forall (fun '(idc, arg) => (idc = 0 \/ idc = 1) /\ 0 <= arg < 255) (commands sh list n) ->
  bs_emits WORD_SIZE (write_reordering WORD_SIZE sh list n) (read_reordering fuel) (commands sh list n).
Proof.
  intros Hn. unfold write_reordering, commands.
  assert (length (seqZ 0 n) < fuel)%nat as Hl by (rewrite length_seqZ; lia). clear Hn.
  revert fuel Hl. generalize (seqZ 0 n) as l. clear n.
  induction l as [|i l IH]; intros fuel Hn HF; (destruct fuel as [|fuel]; [cbn in Hn; lia|]); cbn [read_reordering].
  - apply (emits_last _ _ _ _ _ 3); [|reflexivity]. intros s Hs. apply (emits_ue WORD_SIZE word_ok 3 ltac:(lia) s Hs).
  - cbn [fmap list_fmap] in HF |- *. apply list.Forall_cons in HF as [Hi HF].
    destruct (ref_pic_list_order sh list i) as [idc arg] eqn:E. destruct Hi as [Hidc Harg].
    apply (emits_same _ _ _ ((fun s => bs_write_ue WORD_SIZE s idc) ;> (fun s => bs_write_ue WORD_SIZE s arg) ;>
      each (fun i => (fun s => bs_write_ue WORD_SIZE s (fst (ref_pic_list_order sh list i))) ;>
        (fun s => bs_write_ue WORD_SIZE s (snd (ref_pic_list_order sh list i)))) l ;> (fun s => bs_write_ue WORD_SIZE s 3))).
    { intros s. unfold seq, each. cbn [fold_left]. by rewrite E. }
    eapply emits_seq; [emit_element; lia|]. cbv beta.
    replace (idc =? 3) with false by (symmetry; apply Z.eqb_neq; lia).
    replace ((idc =? 0) || (idc =? 1)) with true by (destruct Hidc as [-> | ->]; done).
    eapply emits_seq; [emit_element; lia|]. cbv beta.
    eapply emits_last; [apply IH; [cbn in Hn; lia|done]|reflexivity].
Qed.

Lemma first_mb_emits sh : 0 <= i_first_mb sh < 255 -> (sh_b_mbaff sh = true -> i_first_mb sh mod 2 = 0) ->
  bs_emits WORD_SIZE (if sh_b_mbaff sh then (fun s => bs_write_ue WORD_SIZE s (i_first_mb sh >> 1)) else (fun s => bs_write_ue WORD_SIZE s (i_first_mb sh)))
    read_ue (i_first_mb sh / (1 + b2i (sh_b_mbaff sh))).
Proof.
  intros H Hm. destruct (sh_b_mbaff sh); cbn [b2i].
  - rewrite Z.shiftr_div_pow2 by lia. change (2 ^ 1) with 2. emit_element. Z.to_euclidean_division_equations. lia.
  - rewrite Z.div_1_r. emit_element. lia.
Qed.

Lemma slice_emits sps pps idr sh i_nal_ref_idc : sh_ok sps pps idr sh ->
  bs_emits WORD_SIZE (x264_slice_header_write WORD_SIZE sps pps sh i_nal_ref_idc)
    (read_slice_header (sps_seen sps) (pps_seen pps) idr i_nal_ref_idc) (slice_seen pps sh).
Proof.
  intros [K1 [K2 K2'] K3 [K4 K4'] (K5 & K5' & K5'') K6 (K7 & K7' & K7'') (F1 & F2 & F3 & F4 & F5) K9 K10 K11 K12 K13 (K14 & K15 & K16 & K17 & K18)].
  unfold x264_slice_header_write, read_slice_header.
  cbn [sps_seen pps_seen i_log2_max_frame_num b_frame_mbs_only i_poc_type i_log2_max_poc_lsb b_delta_pic_order_always_zero
    d_pic_order d_redundant_pic d_l0 d_l1 d_weighted_pred d_weighted_bipred d_cabac d_deblocking_control d_qp b_mb_adaptive_frame_field].
  rewrite K5, K5', K5'', K7, F1, F2, F3, F5. cbn [Z.eqb andb negb].
  eapply emits_seq; [by apply first_mb_emits|]. cbv beta.
  eapply emits_seq; [emit_element; destruct K1 as [-> | [-> | ->]]; done|]. cbv beta zeta.
  replace ((i_type sh + 5) mod 5) with (i_type sh) by (destruct K1 as [-> | [-> | ->]]; done).
  eapply emits_seq; [emit_element; lia|]. cbv beta.
  eapply emits_seq; [emit_element; lia|]. cbv beta.
  assert ((i_idr_pic_id sh >=? 0) = idr) as -> by (destruct idr; [destruct (Z.geb_spec (i_idr_pic_id sh) 0); lia|by rewrite K6]).
  eapply emits_seq with (a := (false, false)).
  { emit_element; [|done]. repeat emit_step. reflexivity. }
  cbv beta. cbn [fst snd]. eapply emits_seq with (a := i_idr_pic_id sh).
  { apply emits_when; intros ->; [|done]. emit_element. lia. }
  cbv beta. eapply emits_seq with (a := (i_poc_lsb sh, 0)); [repeat (emit_step; try lia); reflexivity|].
  cbv beta. eapply emits_seq with (a := (0, 0)); [emit_element|].
  cbv beta. eapply emits_seq with (a := 0); [emit_element|]. cbv beta.
  set (act := (if i_type sh =? SLICE_TYPE_I then pps_i_num_ref_idx_l0_active pps else i_num_ref_idx_l0_active sh,
    if i_type sh =? SLICE_TYPE_B then i_num_ref_idx_l1_active sh else pps_i_num_ref_idx_l1_active pps)).
  eapply emits_seq with (a := (i_type sh =? SLICE_TYPE_B) && b_direct_spatial_mv_pred sh).
  { apply emits_when; intros E; unfold SLICE_TYPE_B; rewrite E; [emit_element|done]. }
  cbv beta. eapply emits_seq with (a := act).
  { unfold act. destruct K1 as [T|[T|T]]; rewrite T in *; cbn [SLICE_TYPE_P SLICE_TYPE_B SLICE_TYPE_I SLICE_TYPE_SP Z.eqb Pos.eqb orb].
    - emit_element. eapply emits_seq; [emit_element|]. cbv beta. apply emits_when; intros Eo; rewrite Eo in K9.
      + repeat (emit_step; try lia). by rewrite Z.sub_add.
      + by destruct K9 as [-> _].
    - emit_element. eapply emits_seq; [emit_element|]. cbv beta. apply emits_when; intros Eo; rewrite Eo in K9.
      + eapply emits_seq; [emit_element; lia|]. cbv beta. eapply emits_last with (a := i_num_ref_idx_l1_active sh).
        * emit_element. eapply emits_last; [emit_element; lia|]. by rewrite Z.sub_add.
        * by rewrite Z.sub_add.
      + by destruct K9 as (-> & -> & _).
    - emit_element. }
  assert (negb ((i_type sh =? 2) || (i_type sh =? 4)) = negb (i_type sh =? SLICE_TYPE_I)) as -> by (destruct K1 as [-> | [-> | ->]]; done).
  cbv beta. eapply emits_seq with (a := if negb (i_type sh =? SLICE_TYPE_I) && b_ref_pic_list_reordering_l0 sh then commands sh 0 (i_num_ref_idx_l0_active sh) else []).
  { apply emits_when; intros E; rewrite E; cbn [andb]; [|done]. eapply emits_seq; [emit_element|]. cbv beta.
    apply emits_when; intros Er; rewrite Er; [|done]. apply reordering_emits.
    - destruct (b_num_ref_idx_override sh); lia.
    - apply K10; [|done]. by apply negb_true_iff, Z.eqb_neq in E. }
  cbv beta. eapply emits_seq with (a := []).
  { rewrite K11. apply emits_when; intros _; [|done]. eapply emits_seq; [emit_element|]. cbv beta. emit_element. }
  cbv beta. cbn [orb].
  replace ((b_weighted_bipred pps =? 1) && (i_type sh =? 1)) with false by (symmetry; apply andb_false_intro1, Z.eqb_neq; done).
  eapply emits_seq with (a := false).
  { apply emits_when; intros _; [|done]. destruct idr; repeat emit_step; reflexivity. }
  cbv beta iota. eapply emits_seq with (a := if b_cabac pps && negb (i_type sh =? SLICE_TYPE_I) then i_cabac_init_idc sh else 0).
  { apply emits_when; intros ->; [|done]. emit_element. lia. }
  cbv beta. eapply emits_seq; [emit_element; lia|]. cbv beta.
  eapply emits_last with (a := (i_disable_deblocking_filter_idc sh,
    (if negb (i_disable_deblocking_filter_idc sh =? 1) then i_alpha_c0_offset sh else 0,
     if negb (i_disable_deblocking_filter_idc sh =? 1) then i_beta_offset sh else 0))).
  { emit_element. eapply emits_seq; [emit_element; lia|]. cbv beta.
    eapply emits_last with (a := (if negb (i_disable_deblocking_filter_idc sh =? 1) then i_alpha_c0_offset sh else 0,
     if negb (i_disable_deblocking_filter_idc sh =? 1) then i_beta_offset sh else 0)); [|reflexivity].
    rewrite !Z.shiftr_div_pow2 by lia. change (2 ^ 1) with 2.
    apply emits_when; intros ->; [|done]. repeat (emit_step; try (Z.to_euclidean_division_equations; lia)).
    do 2 f_equal; Z.to_euclidean_division_equations; lia. }
  cbn [fst snd]. unfold slice_seen. do 2 f_equal. rewrite andb_true_r.
  destruct (sh_b_mbaff sh); cbn [b2i]; [specialize (K2' eq_refl)|]; Z.to_euclidean_division_equations; lia.
Qed.
End Roundtrip.

(** ** What [x264_slice_init] makes *)

(** The commands for the frame numbers [frames]. *)
Fixpoint command_list (pred : Z) (frames : list Z) : list (Z * Z) :=
  match frames with
  | [] => []
  | f :: frames => (b2i (f - pred >? 0), Z.abs (f - pred) - 1) :: command_list f frames
  end.

Lemma reorder_below frames : forall i pred order k, k < i -> reorder_commands i pred frames order 0 k = order 0 k.
Proof.
  induction frames as [|f frames IH]; intros i pred order k Hk; cbn [reorder_commands]; [done|].
  rewrite IH by lia. destruct (Z.eqb_spec k i); [lia|done].
Qed.

Lemma reorder_commands_list frames : forall i pred order,
  reorder_commands i pred frames order 0 <$> seqZ i (Z.of_nat (length frames)) = command_list pred frames.
Proof.
  induction frames as [|f frames IH]; intros i pred order; cbn [reorder_commands command_list length]; [done|].
  rewrite seqZ_cons by lia. cbn [fmap list_fmap]. f_equal.
  - rewrite reorder_below by lia. by rewrite !Z.eqb_refl.
  - replace (Z.pred (Z.of_nat (S (length frames)))) with (Z.of_nat (length frames)) by lia. apply IH.
Qed.

(** Each frame differs from the one before, by less than what a command can hold. *)
Fixpoint steps_ok (pred : Z) (frames : list Z) : Prop :=
  match frames with [] => True | f :: frames => f <> pred /\ Z.abs (f - pred) <= 255 /\ steps_ok f frames end.

Lemma command_list_ok frames : forall pred, steps_ok pred frames ->
  Forall (fun '(idc, arg) => (idc = 0 \/ idc = 1) /\ 0 <= arg < 255) (command_list pred frames) /\
  reordered pred (command_list pred frames) = frames.
Proof.
  induction frames as [|f frames IH]; intros pred; cbn [steps_ok command_list reordered]; [done|].
  intros (H1 & H2 & H3). destruct (IH f H3) as [I1 I2]. split.
  - constructor; [|done]. split; [destruct (_ >? _); cbn; lia|lia].
  - assert ((if b2i (f - pred >? 0) =? 0 then pred - (Z.abs (f - pred) - 1 + 1) else pred + (Z.abs (f - pred) - 1 + 1)) = f) as ->.
    { destruct (Z.gtb_spec (f - pred) 0); cbn [b2i Z.eqb]; lia. }
    by rewrite I2.
Qed.

(** The state of the encoder when it starts a slice. *)
Record state_ok (param : x264_param_t) (sps : x264_sps_t) (h : slice_state) (idr : bool) (type qp : Z) : Prop := {
  e_type : type = SLICE_TYPE_P \/ type = SLICE_TYPE_B \/ type = SLICE_TYPE_I;
  e_idr : idr = true -> type = SLICE_TYPE_I;
  e_interlaced : st_b_interlaced h = pr_b_interlaced param;
  e_ids : 0 <= st_i_idr_pic_id h < 255;
  e_frame_num : 0 <= st_i_frame_num h < 2 ^ i_log2_max_frame_num sps;
  e_keyint : pr_i_keyint_max param < 2 ^ 14;
  e_refs : (length (fref0 h) <= 16)%nat /\ i_ref1 h <= 16;
  e_reorder : (fst (b_ref_reorder h) = true -> fref0 h <> [] /\ steps_ok (st_i_frame_num h) (fref0 h)) /\ snd (b_ref_reorder h) = false;
  e_cabac : 0 <= st_i_cabac_init_idc h <= 2;
  e_qp : 0 <= qp <= 51;
  e_deblock : -6 <= st_i_deblocking_filter_alphac0 h <= 6 /\ -6 <= st_i_deblocking_filter_beta h <= 6
}.

Section SliceInit.
Context (param : x264_param_t) (Q : param_ok param) (M : matrices_ok param).
Context (sps_id pps_id : Z) (Hids : 0 <= sps_id < 32 /\ 0 <= pps_id < 255).
Local Abbreviation sps := (x264_sps_init sps_id param).
Local Abbreviation pps := (x264_pps_init pps_id param sps).
Context (h : slice_state) (idr : bool) (type qp : Z) (St : state_ok param sps h idr type qp).
Local Abbreviation sh := (fst (x264_slice_init sps pps h idr type qp)).

(** The fields that matter, whatever the kind of slice. *)
Lemma init_fields :
  i_type sh = type /\ i_first_mb sh = 0 /\ i_pps_id sh = pps_id /\ i_frame_num sh = st_i_frame_num h /\
  sh_b_mbaff sh = pr_b_interlaced param /\ b_field_pic sh = false /\ b_bottom_field sh = false /\
  i_idr_pic_id sh = (if idr then st_i_idr_pic_id h else -1) /\
  i_poc_lsb sh = i_poc h mod 2 ^ i_log2_max_poc_lsb sps /\
  b_num_ref_idx_override sh = negb idr /\
  i_num_ref_idx_l0_active sh = (if idr then 1 else Z.max 1 (Z.of_nat (length (fref0 h)))) /\
  i_num_ref_idx_l1_active sh = (if idr then 1 else Z.max 1 (i_ref1 h)) /\
  b_ref_pic_list_reordering_l0 sh = fst (b_ref_reorder h) /\ b_ref_pic_list_reordering_l1 sh = snd (b_ref_reorder h) /\
  i_cabac_init_idc sh = st_i_cabac_init_idc h /\ i_qp_delta sh = qp - i_pic_init_qp pps /\
  0 <= i_disable_deblocking_filter_idc sh <= 1 /\
  i_alpha_c0_offset sh = st_i_deblocking_filter_alphac0 h * 2 /\ i_beta_offset sh = st_i_deblocking_filter_beta h * 2.
Proof.
  assert (0 <= i_log2_max_poc_lsb sps) as Hp.
  { destruct (init_frame_num param Q sps_id) as [F _]. change (i_log2_max_poc_lsb sps) with (i_log2_max_frame_num sps + 1). lia. }
  assert (i_poc h .& ((1 << i_log2_max_poc_lsb sps) - 1) = i_poc h mod 2 ^ i_log2_max_poc_lsb sps) as HL.
  { rewrite Z.shiftl_1_l, Z.sub_1_r, <- Z.ones_equiv. by apply Z.land_ones. }
  unfold x264_slice_init. change (i_poc_type sps =? 0) with true. cbv iota.
  destruct idr; cbn [fst set_active set_poc x264_slice_header_init i_type i_first_mb i_pps_id i_frame_num sh_b_mbaff b_field_pic
    b_bottom_field i_idr_pic_id i_poc_lsb b_num_ref_idx_override i_num_ref_idx_l0_active i_num_ref_idx_l1_active
    b_ref_pic_list_reordering_l0 b_ref_pic_list_reordering_l1 i_cabac_init_idc i_qp_delta i_disable_deblocking_filter_idc
    i_alpha_c0_offset i_beta_offset]; rewrite HL, (e_interlaced _ _ _ _ _ _ St); rewrite !Z.shiftl_mul_pow2 by lia;
    repeat (split; [reflexivity|]).
  - split; [destruct (_ && _); lia|]. lia.
  - split; [destruct (Z.leb_spec (Z.of_nat (length (fref0 h))) 0); lia|].
    split; [destruct (Z.leb_spec (i_ref1 h) 0); lia|]. repeat (split; [reflexivity|]).
    split; [destruct (_ && _); lia|]. lia.
Qed.

Lemma init_commands : type <> SLICE_TYPE_I -> fst (b_ref_reorder h) = true ->
  commands sh 0 (i_num_ref_idx_l0_active sh) = command_list (st_i_frame_num h) (fref0 h).
Proof.
  intros Ht Hr. destruct init_fields as (_ & _ & _ & _ & _ & _ & _ & _ & _ & _ & -> & _).
  destruct (e_reorder _ _ _ _ _ _ St) as [HR _]. destruct (HR Hr) as [Hne _].
  assert (idr = false) as Hi. { destruct idr eqn:E; [|done]. exfalso. by apply Ht, (e_idr _ _ _ _ _ _ St). }
  assert (ref_pic_list_order sh = reorder_commands 0 (st_i_frame_num h) (fref0 h) (old_ref_pic_list_order h)) as E.
  { unfold x264_slice_init. change (i_poc_type sps =? 0) with true. cbv iota. rewrite Hi.
    cbn [fst set_active set_poc x264_slice_header_init ref_pic_list_order]. by rewrite Hr. }
  unfold commands. rewrite E, Hi.
  replace (Z.max 1 (Z.of_nat (length (fref0 h)))) with (Z.of_nat (length (fref0 h))) by (destruct (fref0 h); [done|cbn [length]; lia]).
  apply reorder_commands_list.
Qed.

Lemma init_sh_ok : sh_ok sps pps idr sh.
Proof.
  destruct init_fields as (F1 & F2 & F3 & F4 & F5 & F6 & F7 & F8 & F9 & F10 & F11 & F12 & F13 & F14 & F15 & F16 & F17 & F18 & F19).
  destruct (init_frame_num param Q sps_id) as (N1 & _ & N3). pose proof St as [S1 S2 S3 S4 S5 S6 [S7 S7'] [S8 S8'] S9 S10 [S11 S11']].
  specialize (N3 S6). pose proof M as [_ [M1 M2] _ _].
  split.
  - by rewrite F1.
  - rewrite F2. done.
  - rewrite F3. lia.
  - rewrite F4. split; [lia|exact S5].
  - rewrite F5, F6, F7. done.
  - rewrite F8. by destruct idr.
  - rewrite F9. change (i_log2_max_poc_lsb sps) with (i_log2_max_frame_num sps + 1). split; [done|]. split; [lia|].
    apply Z.mod_pos_bound. apply Z.pow_pos_nonneg; lia.
  - repeat (split; [done|]). split; [|done]. cbn [x264_pps_init b_weighted_bipred]. by destruct (pr_b_weighted_bipred param).
  - rewrite F10, F11, F12. destruct idr; cbn [negb]; [done|lia].
  - rewrite F1, F13. intros Ht Hr. rewrite init_commands by done. apply command_list_ok. by apply S8.
  - by rewrite F14.
  - by rewrite F15.
  - rewrite F16. cbn [x264_pps_init i_pic_init_qp]. destruct (_ =? _); lia.
  - rewrite F18, F19. split; [lia|]. Z.to_euclidean_division_equations. lia.
Qed.
End SliceInit.

(** C34: a decoder that has the parameter sets of x264 and parses the header of a slice
    gets the slice type, the frame number, the identifier of a key frame, the
    display order modulo its width, the quantiser and the deblocking offsets the
    encoder has chosen; and when the encoder reorders its reference frames, the
    commands lead the decoder to exactly the encoder's list.  Identifiers of key
    frames have to be below 255, the frame distance of the references at most 255
    and key frames less than 2^14 frames apart. *)
Theorem slice_header_describes_slice WORD_SIZE (word_ok : WORD_SIZE = 4 \/ WORD_SIZE = 8)
    param sps_id pps_id h idr type qp i_nal_ref_idc s :
  let sps := x264_sps_init sps_id param in
  let pps := x264_pps_init pps_id param sps in
  param_ok param -> matrices_ok param -> 0 <= sps_id < 32 /\ 0 <= pps_id < 255 ->
  state_ok param sps h idr type qp -> bs_wf WORD_SIZE s ->
  let sh := fst (x264_slice_init sps pps h idr type qp) in
  let s' := x264_slice_header_write WORD_SIZE sps pps sh i_nal_ref_idc s in
  bs_wf WORD_SIZE s' /\ exists c info, stream WORD_SIZE s' = stream WORD_SIZE s ++ c /\
    (forall rest, read_slice_header (sps_seen sps) (pps_seen pps) idr i_nal_ref_idc (c ++ rest) = Some (info, rest)) /\
    v_type info = type /\ v_first_mb info = 0 /\ v_pps_id info = pps_id /\ v_frame_num info = st_i_frame_num h /\
    v_idr_pic_id info = (if idr then st_i_idr_pic_id h else -1) /\
    v_poc_lsb info = i_poc h mod 2 ^ i_log2_max_poc_lsb sps /\ v_qp info = qp /\
    (type <> SLICE_TYPE_I -> idr = false -> v_num_l0 info = Z.max 1 (Z.of_nat (length (fref0 h)))) /\
    (type <> SLICE_TYPE_I -> fst (b_ref_reorder h) = true -> reordered (st_i_frame_num h) (v_reordering0 info) = fref0 h) /\
    (v_disable_deblocking info <> 1 -> v_alpha_offset info = st_i_deblocking_filter_alphac0 h * 2 /\
      v_beta_offset info = st_i_deblocking_filter_beta h * 2).
Proof.
  cbv zeta. intros Q M Hids St Hs. set (sps := x264_sps_init sps_id param) in *. set (pps := x264_pps_init pps_id param sps).
  pose proof (init_sh_ok param Q M sps_id pps_id Hids h idr type qp St) as K.
  destruct (init_fields param Q sps_id pps_id h idr type qp St)
    as (F1 & F2 & F3 & F4 & F5 & F6 & F7 & F8 & F9 & F10 & F11 & F12 & F13 & F14 & F15 & F16 & F17 & F18 & F19).
  pose proof (init_commands param Q sps_id pps_id h idr type qp St) as HC.
  fold sps in K, F1, F2, F3, F4, F5, F6, F7, F8, F9, F10, F11, F12, F13, F14, F15, F16, F17, F18, F19, HC. fold pps in K, F1, F2, F3, F4, F5, F6, F7, F8, F9, F10, F11, F12, F13, F14, F15, F16, F17, F18, F19, HC.
  set (sh := fst (x264_slice_init sps pps h idr type qp)) in *.
  destruct (slice_emits WORD_SIZE word_ok sps pps idr sh i_nal_ref_idc K s Hs) as (H1 & c & E & R).
  split; [exact H1|]. exists c, (slice_seen pps sh). split; [exact E|]. split; [exact R|].
  unfold slice_seen. cbn [v_type v_first_mb v_pps_id v_frame_num v_idr_pic_id v_poc_lsb v_qp v_num_l0 v_reordering0
    v_disable_deblocking v_alpha_offset v_beta_offset].
  repeat (split; [first [done|lia]|]). split; [|split].
  - intros Ht Hi. rewrite F1, F11, Hi. by apply Z.eqb_neq in Ht as ->.
  - intros Ht Hr. rewrite F1, F13, Hr, HC by done. apply Z.eqb_neq in Ht as ->. cbn [negb andb].
    apply command_list_ok. by apply St.
  - intros Hd. rewrite F18, F19. by apply Z.eqb_neq in Hd as ->.
Qed.

(** A P slice of the example clip whose second reference is the nearest one. *)
Definition state_example : slice_state := {|
  st_b_interlaced := true; st_i_cabac_init_idc := 0; st_b_deblocking_filter := true;
  st_i_deblocking_filter_alphac0 := -1; st_i_deblocking_filter_beta := 2; st_i_direct_mv_pred := 1;
  b_direct_auto_read := false; b_direct_auto_write := true; i_direct_score := (3, 5); b_variable_qp := true;
  b_ref_reorder := (true, false); fref0 := [7; 9; 6]; i_ref1 := 0;
  st_i_idr_pic_id := 3; st_i_frame_num := 10; i_poc := 1624;
  old_b_direct_spatial_mv_pred := false; old_ref_pic_list_order := fun _ _ => (0, 0)
|}.

Lemma slice_header_describes_slice_witness :
  let sps := x264_sps_init 0 param_example in
  let pps := x264_pps_init 0 param_example sps in
  let sh := fst (x264_slice_init sps pps state_example false SLICE_TYPE_P 30) in
  let s := bs_init 8 (fun _ => 0) 64 100 0 in
  exists c info, stream 8 (x264_slice_header_write 8 sps pps sh 2 s) = stream 8 s ++ c /\
    (forall rest, read_slice_header (sps_seen sps) (pps_seen pps) false 2 (c ++ rest) = Some (info, rest)) /\
    v_poc_lsb info = 600 /\ v_qp info = 30 /\ v_num_l0 info = 3 /\ reordered 10 (v_reordering0 info) = [7; 9; 6].
Proof.
  cbv zeta.
  destruct (slice_header_describes_slice 8 (or_intror eq_refl) param_example 0 0 state_example false SLICE_TYPE_P 30 2
    (bs_init 8 (fun _ => 0) 64 100 0)) as (_ & c & info & E & R & _ & _ & _ & _ & _ & P & Q & N & L & _).
  - split; apply (bool_decide_unpack _); vm_compute; exact I.
  - split; apply (bool_decide_unpack _); vm_compute; exact I.
  - lia.
  - split; try (apply (bool_decide_unpack _); vm_compute; exact I); try done.
  - vm_compute. split; [discriminate|split; [reflexivity|discriminate]].
  - exists c, info. split; [exact E|]. split; [exact R|]. split; [rewrite P; reflexivity|]. split; [exact Q|].
    split; [by rewrite N|]. by apply L.
Defined.
