(* ===== verification/Cavlc.v ===== *)
(** * The CAVLC residual coder of x264 (encoder/cavlc.c)

    [block_residual_write_cavlc] is stated over a sink, as the C file is compiled
    over two sets of writer functions.  [read_residual] is the residual parser of
    the standard (9.2), written independently of the encoder; the main theorem
    says that it recovers the coefficients from the bits the encoder appends. *)
From S2P Require Import Prelude Bs Sink Vlc Quant Mb.

(** * The encoder *)
Definition ct_index : list Z := [0;0;1;1;2;2;2;2;3;3;3;3;3;3;3;3;3].

(** [h->quantf.coeff_last], as [x264_quant_init] fills it. *)
Definition coeff_last (i_ctxBlockCat : Z) (l : Z -> Z) : option Z :=
  if i_ctxBlockCat =? DCT_CHROMA_DC then x264_coeff_last4 l
  else if (i_ctxBlockCat =? DCT_LUMA_AC) || (i_ctxBlockCat =? DCT_CHROMA_AC) then x264_coeff_last15 l
  else if (i_ctxBlockCat =? DCT_LUMA_4x4) || (i_ctxBlockCat =? DCT_LUMA_DC) then x264_coeff_last16 l
  else x264_coeff_last64 l.

(** The loop over levels and runs: the pairs [(level[idx], run[idx])] in order. *)
Fixpoint level_runs (fuel : nat) (l : Z -> Z) (i_last : Z) : option (list (Z * Z)) :=
  if 0 <=? i_last then
    match fuel with
    | O => None
    | S fuel' =>
        match while_ fuel (fun '(i_last, r) => (0 <=? i_last) && (l i_last =? 0))
                (fun '(i_last, r) => (i_last - 1, r + 1)) (i_last - 1, 0) with
        | Some (i_last', r) =>
            match level_runs fuel' l i_last' with
            | Some ps => Some ((l i_last, r) :: ps)
            | None => None
            end
        | None => None
        end
    end
  else Some [].

(** The loop over trailing ones: [i_trailing] and [i_sign]; [n] rounds are left. *)
Fixpoint trailing_ones (n : nat) (idx i_sign : Z) (level : list Z) : Z * Z :=
  match n with
  | O => (idx, i_sign)
  | S n =>
      let lv := nth (Z.to_nat idx) level 0 in
      if u32 (lv + 1) >? 2 then (idx, i_sign)
      else trailing_ones n (idx + 1) ((i_sign << 1) .| b2i (lv <? 0)) level
  end.

Section Encoder.
Context {S : Type} {sink : BitSink S}.

Definition bs_write_vlc (s : S) (v : vlc_t) : S := sk_write s (i_size v) (i_bits v).

Definition write_level (h : x264_t) (i i_trailing lv : Z) (s : S) (i_suffix_length : Z)
    : option (S * Z) :=
  let mask := lv >> 15 in
  let abs_level := (lv .^ mask) - mask in
  let i_level_code := abs_level * 2 - mask - 2 in
  let i_level_code :=
    if (i =? i_trailing) && (i_trailing <? 3) then i_level_code - 2 else i_level_code in
  let low := (1 << i_suffix_length) + (i_level_code .& ((1 << i_suffix_length) - 1)) in
  let s' :=
    if (i_level_code >> i_suffix_length) <? 14 then
      Some (sk_write s ((i_level_code >> i_suffix_length) + 1 + i_suffix_length) low)
    else if (i_suffix_length =? 0) && (i_level_code <? 30) then
      Some (sk_write s 19 ((1 << 4) + (i_level_code - 14)))
    else if (i_suffix_length >? 0) && ((i_level_code >> i_suffix_length) =? 14) then
      Some (sk_write s (15 + i_suffix_length) low)
    else
      let i_level_prefix := 15 in
      let i_level_code := i_level_code - (15 << i_suffix_length) in
      let i_level_code := if i_suffix_length =? 0 then i_level_code - 15 else i_level_code in
      match
        (if i_level_code >=? 1 << 12 then
           if i_profile_idc h >=? PROFILE_HIGH then
             match while_ 32 (fun '(c, p) => c >? 1 << (p - 3))
                     (fun '(c, p) => (c - (1 << (p - 3)), p + 1)) (i_level_code, i_level_prefix) with
             | Some (c, p) => Some (s, c, p)
             | None => None
             end
           else if sk_skip then Some (sk_penalty s 1000000, i_level_code, i_level_prefix)
           else Some (s, (1 << 12) - 2 + (i_level_code .& 1), i_level_prefix)
         else Some (s, i_level_code, i_level_prefix))
      with
      | Some (s, i_level_code, i_level_prefix) =>
          let s := sk_write s (i_level_prefix + 1) 1 in
          Some (sk_write s (i_level_prefix - 3)
                  (i_level_code .& ((1 << (i_level_prefix - 3)) - 1)))
      | None => None
      end in
  match s' with
  | Some s =>
      let i_suffix_length :=
        if i_suffix_length =? 0 then i_suffix_length + 1 else i_suffix_length in
      let i_suffix_length :=
        if (abs_level >? 3 << (i_suffix_length - 1)) && (i_suffix_length <? 6)
        then i_suffix_length + 1 else i_suffix_length in
      Some (s, i_suffix_length)
  | None => None
  end.

Definition write_runs (run : list Z) (i_total i_total_zero : Z) (s : S) : S :=
  (for_ (Z.to_nat (i_total - 1)) 0 (fun i '(s, i_total_zero) =>
     if i_total_zero >? 0 then
       let i_zl := Z.min (i_total_zero - 1) 6 in
       let r := nth (Z.to_nat i) run 0 in
       (bs_write_vlc s (vlc_at (nth (Z.to_nat i_zl) x264_run_before []) r), i_total_zero - r)
     else (s, i_total_zero)) (s, i_total_zero)).1.

Definition block_nC (h : x264_t) (i_idx : Z) : Z :=
  if i_idx >=? 25 then 4
  else tbl ct_index (x264_mb_predict_non_zero_code h (if i_idx =? 24 then 0 else i_idx)).

Definition block_residual_write_cavlc (h : x264_t) (s : S) (i_ctxBlockCat i_idx : Z)
    (l : Z -> Z) (i_count : Z) : option S :=
  let coeff_token := nth (Z.to_nat (block_nC h i_idx)) x264_coeff_token [] in
  if negb (i2b (non_zero_count h (scan8 i_idx))) then Some (bs_write_vlc s (vlc_at coeff_token 0))
  else
    match coeff_last i_ctxBlockCat l with
    | None => None
    | Some i_last =>
    match level_runs (Z.to_nat (i_last + 1)) l i_last with
    | None => None
    | Some pairs =>
      let level := map fst pairs in
      let run := map snd pairs in
      let i_total := Z.of_nat (length pairs) in
      let i_total_zero := i_last + 1 - i_total in
      let '(i_trailing, i_sign) := trailing_ones (Z.to_nat (Z.min 3 i_total)) 0 0 level in
      let s := bs_write_vlc s (vlc_at coeff_token (i_total * 4 + i_trailing)) in
      let i_suffix_length := if (i_total >? 10) && (i_trailing <? 3) then 1 else 0 in
      let s := if i_trailing >? 0 then sk_write s i_trailing i_sign else s in
      match for_ (Z.to_nat (i_total - i_trailing)) i_trailing (fun i st =>
              match st with
              | Some (s, i_suffix_length) =>
                  write_level h i i_trailing (nth (Z.to_nat i) level 0) s i_suffix_length
              | None => None
              end) (Some (s, i_suffix_length)) with
      | None => None
      | Some (s, _) =>
          let s :=
            if i_total <? i_count then
              if i_idx >=? 25
              then bs_write_vlc s (vlc_at (nth (Z.to_nat (i_total - 1)) x264_total_zeros_dc []) i_total_zero)
              else bs_write_vlc s (vlc_at (nth (Z.to_nat (i_total - 1)) x264_total_zeros []) i_total_zero)
            else s in
          Some (write_runs run i_total i_total_zero s)
      end
    end
    end.
End Encoder.

(** * The parser of the standard *)
Fixpoint read_zeros (l : list bool) : option (Z * list bool) :=
  match l with
  | [] => None
  | true :: l => Some (0, l)
  | false :: l => match read_zeros l with Some (n, l) => Some (n + 1, l) | None => None end
  end.

Definition read_level (first : bool) (suffixLength : Z) (l : list bool) : option (Z * list bool) :=
  match read_zeros l with
  | None => None
  | Some (level_prefix, l) =>
      let size := if (level_prefix =? 14) && (suffixLength =? 0) then 4
                  else if 15 <=? level_prefix then level_prefix - 3 else suffixLength in
      match read_u (Z.to_nat size) l with
      | None => None
      | Some (level_suffix, l) =>
          let levelCode := Z.min 15 level_prefix * 2 ^ suffixLength + level_suffix in
          let levelCode := if (15 <=? level_prefix) && (suffixLength =? 0) then levelCode + 15 else levelCode in
          let levelCode := if 16 <=? level_prefix then levelCode + 2 ^ (level_prefix - 3) - 4096 else levelCode in
          let levelCode := if first then levelCode + 2 else levelCode in
          Some (if Z.even levelCode then (levelCode + 2) / 2 else (- levelCode - 1) / 2, l)
      end
  end.

Definition next_suffixLength (suffixLength lv : Z) : Z :=
  let suffixLength := if suffixLength =? 0 then 1 else suffixLength in
  if (3 * 2 ^ (suffixLength - 1) <? Z.abs lv) && (suffixLength <? 6)
  then suffixLength + 1 else suffixLength.

Fixpoint read_levels (n : nat) (first : bool) (suffixLength : Z) (l : list bool)
    : option (list Z * list bool) :=
  match n with
  | O => Some ([], l)
  | S n =>
      match read_level first suffixLength l with
      | None => None
      | Some (lv, l) =>
          match read_levels n false (next_suffixLength suffixLength lv) l with
          | None => None
          | Some (lvs, l) => Some (lv :: lvs, l)
          end
      end
  end.

Fixpoint read_signs (n : nat) (l : list bool) : option (list Z * list bool) :=
  match n with
  | O => Some ([], l)
  | S n =>
      match l with
      | [] => None
      | b :: l =>
          match read_signs n l with
          | None => None
          | Some (lvs, l) => Some ((if b then -1 else 1) :: lvs, l)
          end
      end
  end.

(** [run_before] of all coefficients but the last, which takes the zeros left. *)
Fixpoint read_runs (n : nat) (zerosLeft : Z) (l : list bool) : option (list Z * list bool) :=
  match n with
  | O => Some ([], l)
  | S O => Some ([zerosLeft], l)
  | S n =>
      match (if 0 <? zerosLeft
             then read_vlc (nth (Z.to_nat (Z.min (zerosLeft - 1) 6)) x264_run_before []) l
             else Some (0, l)) with
      | None => None
      | Some (r, l) =>
          match read_runs n (zerosLeft - r) l with
          | None => None
          | Some (rs, l) => Some (r :: rs, l)
          end
      end
  end.

(** Coefficients in scan order from levels and runs, which go down the scan. *)
Fixpoint unrun (ps : list (Z * Z)) : list Z :=
  match ps with
  | [] => []
  | (lv, r) :: ps => unrun ps ++ replicate (Z.to_nat r) 0 ++ [lv]
  end.

Definition pad (n : Z) (cs : list Z) : list Z := cs ++ replicate (Z.to_nat n - length cs) 0.

(** The residual block of [maxNumCoeff] coefficients whose context is [nC] (4 for
    the chroma DC blocks). *)
Definition read_residual (nC maxNumCoeff : Z) (l : list bool) : option (list Z * list bool) :=
  match read_vlc (nth (Z.to_nat nC) x264_coeff_token []) l with
  | None => None
  | Some (token, l) =>
      let total := token / 4 in
      let trailing := token mod 4 in
      if total =? 0 then Some (pad maxNumCoeff [], l)
      else
        match read_signs (Z.to_nat trailing) l with
        | None => None
        | Some (ones, l) =>
            match read_levels (Z.to_nat (total - trailing)) (trailing <? 3)
                    (if (10 <? total) && (trailing <? 3) then 1 else 0) l with
            | None => None
            | Some (lvs, l) =>
                match (if total <? maxNumCoeff
                       then read_vlc (nth (Z.to_nat (total - 1))
                              (if nC =? 4 then x264_total_zeros_dc else x264_total_zeros) []) l
                       else Some (0, l)) with
                | None => None
                | Some (total_zeros, l) =>
                    match read_runs (Z.to_nat total) total_zeros l with
                    | None => None
                    | Some (runs, l) => Some (pad maxNumCoeff (unrun (zip (ones ++ lvs) runs)), l)
                    end
                end
            end
        end
  end.

(** * Levels *)

(** The code number of a level, and the word that stands for it. *)
Definition level_index (first : bool) (lv : Z) : Z :=
  (if lv <? 0 then -2 * lv - 1 else 2 * lv - 2) - (if first then 2 else 0).

Definition escape_index (sl c : Z) : Z := c - 15 * 2 ^ sl - (if sl =? 0 then 15 else 0).

Definition escape_prefix (e : Z) : Z :=
  if e <? 4096 then 15 else if e <? 12288 then 16 else if e <? 28672 then 17
  else if e <? 61440 then 18 else 19.

Definition prefixed (zeros : Z) (n v : Z) : list bool :=
  replicate (Z.to_nat zeros) false ++ true :: bits (Z.to_nat n) v.

Definition level_word (sl c : Z) : list bool :=
  if c / 2 ^ sl <? 14 then prefixed (c / 2 ^ sl) sl c
  else if (sl =? 0) && (c <? 30) then prefixed 14 4 (c - 14)
  else if (sl >? 0) && (c / 2 ^ sl =? 14) then prefixed 14 sl c
  else
    let e := escape_index sl c in
    let p := escape_prefix e in
    prefixed p (p - 3) (e - (2 ^ (p - 3) - 4096)).

(** The levels the encoder can escape: 12 bits in any profile, more in High
    profile unless the value is the first of a prefix longer than 15. *)
Definition level_safe (high : bool) (sl c : Z) : Prop :=
  let e := escape_index sl c in
  e < 4096 \/ (high = true /\ ~ In e [4096; 12288; 28672; 61440]).

Definition level_range (first : bool) (lv : Z) : Prop :=
  is_coef lv /\ lv <> 0 /\ (first = true -> 2 <= Z.abs lv).

Lemma level_index_range first lv : level_range first lv -> 0 <= level_index first lv < 65536.
Proof.
  intros (Hc & H0 & Hf). unfold is_coef, level_index in *.
  destruct first; [specialize (Hf eq_refl)|clear Hf]; destruct (Z.ltb_spec lv 0); lia.
Qed.

Lemma read_zeros_prefixed z n v rest : 0 <= z ->
  read_zeros (prefixed z n v ++ rest) = Some (z, bits (Z.to_nat n) v ++ rest).
Proof.
  intros Hz. unfold prefixed. rewrite <- app_assoc. cbn [app].
  rewrite <- (Z2Nat.id z) at 2 by done. generalize (Z.to_nat z) as k. clear.
  induction k as [|k IH]; cbn [replicate app read_zeros]; [done|]. rewrite IH.
  do 2 f_equal. lia.
Qed.

(** A write of a prefix and its suffix in one go. *)
Lemma prefixed_write q m r : 0 <= q -> 0 <= m ->
  bits (Z.to_nat (q + 1 + m)) (2 ^ m + r mod 2 ^ m) = prefixed q m r /\
  0 <= 2 ^ m + r mod 2 ^ m < 2 ^ (q + 1 + m).
Proof.
  intros Hq Hm. pose proof (pow2_pos m Hm). pose proof (Z.mod_pos_bound r (2 ^ m)).
  set (v := 2 ^ m + r mod 2 ^ m).
  assert (2 ^ (m + 1) = 2 * 2 ^ m) by (rewrite Z.pow_add_r by lia; lia).
  assert (2 ^ (m + 1) <= 2 ^ (q + 1 + m)) by (apply Z.pow_le_mono_r; lia).
  split; [|unfold v; lia]. unfold prefixed.
  replace (Z.to_nat (q + 1 + m)) with (Z.to_nat q + S (Z.to_nat m))%nat by lia.
  rewrite bits_add, bits_leading by (rewrite Z2Nat.id by lia; unfold v; lia).
  rewrite Z.shiftr_div_pow2, Z.div_small, bits_0 by
    (try replace (Z.of_nat (S (Z.to_nat m))) with (m + 1) by lia; unfold v; lia).
  do 2 f_equal. apply bits_mod. rewrite Z2Nat.id by lia. unfold v.
  rewrite Zplus_mod_idemp_r, <- Zplus_mod_idemp_l, Z_mod_same_full. done.
Qed.

Lemma land_low c n : 0 <= n -> c .& ((1 << n) - 1) = c mod 2 ^ n.
Proof.
  intros Hn. rewrite Z.shiftl_1_l, <- Z.land_ones by done. f_equal.
  rewrite Z.ones_equiv. lia.
Qed.

Lemma escape_prefix_range e : 0 <= e < 65536 ->
  let p := escape_prefix e in
  15 <= p <= 19 /\ 0 <= e - (2 ^ (p - 3) - 4096) < 2 ^ (p - 3) /\
  (p = 15 <-> e < 4096).
Proof.
  intros He. unfold escape_prefix.
  destruct (Z.ltb_spec e 4096); [cbn; lia|]. destruct (Z.ltb_spec e 12288); [cbn; lia|].
  destruct (Z.ltb_spec e 28672); [cbn; lia|]. destruct (Z.ltb_spec e 61440); cbn; lia.
Qed.

(** The escape loop finds that prefix, unless the value is on a boundary. *)
Lemma escape_loop e : 4096 <= e < 65536 -> ~ In e [4096; 12288; 28672; 61440] ->
  while_ 32 (fun '(c, p) => c >? 1 << (p - 3)) (fun '(c, p) => (c - (1 << (p - 3)), p + 1)) (e, 15) =
  Some (e - (2 ^ (escape_prefix e - 3) - 4096), escape_prefix e).
Proof.
  intros He Hb. unfold escape_prefix.
  assert (forall n c p, c > 2 ^ (p - 3) -> 3 <= p ->
    while_ (S n) (fun '(c, p) => c >? 1 << (p - 3)) (fun '(c, p) => (c - (1 << (p - 3)), p + 1)) (c, p) =
    while_ n (fun '(c, p) => c >? 1 << (p - 3)) (fun '(c, p) => (c - (1 << (p - 3)), p + 1))
      (c - 2 ^ (p - 3), p + 1)) as Hstep.
  { intros n c p Hc Hp. rewrite while_true; rewrite Z.shiftl_1_l; [done|apply Z.gtb_lt; lia]. }
  assert (forall n c p, c <= 2 ^ (p - 3) ->
    while_ n (fun '(c, p) => c >? 1 << (p - 3)) (fun '(c, p) => (c - (1 << (p - 3)), p + 1)) (c, p) =
    Some (c, p)) as Hstop.
  { intros n c p Hc. apply while_false. rewrite Z.shiftl_1_l.
    destruct (Z.gtb_spec c (2 ^ (p - 3))); [lia|done]. }
  cbn [In] in Hb. rewrite Hstep by (cbn; lia). cbn [Z.add Z.sub Z.pow Pos.add Z.opp Z.pos_sub].
  destruct (Z.ltb_spec e 4096); [lia|].
  destruct (Z.ltb_spec e 12288); [rewrite Hstop by (cbn; lia); f_equal; f_equal; cbn; lia|].
  rewrite Hstep by (cbn; lia). cbn [Z.add Z.sub Z.pow Pos.add Z.opp Z.pos_sub].
  destruct (Z.ltb_spec e 28672); [rewrite Hstop by (cbn; lia); f_equal; f_equal; cbn; lia|].
  rewrite Hstep by (cbn; lia).
  destruct (Z.ltb_spec e 61440); [rewrite Hstop by (cbn; lia); f_equal; f_equal; cbn; lia|].
  rewrite Hstep by (cbn; lia). rewrite Hstop by (cbn; lia). f_equal; f_equal; cbn; lia.
Qed.

(** The parser reads a level word back. *)
Lemma index_level first lv : level_range first lv ->
  let c := level_index first lv + (if first then 2 else 0) in
  (if Z.even c then (c + 2) / 2 else (- c - 1) / 2) = lv.
Proof.
  intros (Hc & H0 & Hf). unfold level_index. destruct (Z.ltb_spec lv 0).
  - replace (-2 * lv - 1 - (if first then 2 else 0) + (if first then 2 else 0))
      with (1 + 2 * (- lv - 1)) by (destruct first; lia).
    cbv zeta. rewrite Z.even_add_mul_2. cbn [Z.even].
    replace (- (1 + 2 * (- lv - 1)) - 1) with (lv * 2) by lia. apply Z.div_mul. lia.
  - replace (2 * lv - 2 - (if first then 2 else 0) + (if first then 2 else 0))
      with (0 + 2 * (lv - 1)) by (destruct first; lia).
    cbv zeta. rewrite Z.even_add_mul_2. cbn [Z.even].
    replace (0 + 2 * (lv - 1) + 2) with (lv * 2) by lia. apply Z.div_mul. lia.
Qed.

Lemma read_level_word first sl lv rest : level_range first lv -> 0 <= sl <= 6 ->
  read_level first sl (level_word sl (level_index first lv) ++ rest) = Some (lv, rest).
Proof.
  intros Hlv Hsl. pose proof (level_index_range _ _ Hlv) as Hc.
  pose proof (index_level _ _ Hlv) as Hi. cbv zeta in Hi.
  set (c := level_index first lv) in *.
  assert (forall z n v, 0 <= z -> 0 <= n -> 
    n = (if (z =? 14) && (sl =? 0) then 4 else if 15 <=? z then z - 3 else sl) ->
    Z.min 15 z * 2 ^ sl + v mod 2 ^ n + (if (15 <=? z) && (sl =? 0) then 15 else 0)
      + (if 16 <=? z then 2 ^ (z - 3) - 4096 else 0) = c ->
    read_level first sl (prefixed z n v ++ rest) = Some (lv, rest)) as Hread.
  { intros z n v Hz Hn En Ec. unfold read_level. rewrite read_zeros_prefixed by done.
    rewrite <- En. rewrite (bits_mod _ v (v mod 2 ^ n)) by
      (rewrite Z2Nat.id by done; symmetry; apply Z.mod_mod; pose proof (pow2_pos n); lia).
    rewrite read_u_bits by (rewrite Z2Nat.id by done; apply Z.mod_pos_bound; pose proof (pow2_pos n); lia).
    rewrite <- Hi, <- Ec.
    destruct ((15 <=? z) && (sl =? 0)), (16 <=? z), first; do 2 f_equal;
      rewrite ?Z.add_0_r; try rewrite Z.add_sub_assoc; done. }
  pose proof (pow2_pos sl) as P. pose proof (Z.div_mod c (2 ^ sl)) as D.
  pose proof (Z.mod_pos_bound c (2 ^ sl)) as M.
  unfold level_word. destruct (Z.ltb_spec (c / 2 ^ sl) 14) as [Hq|Hq].
  { assert (0 <= c / 2 ^ sl) by (apply Z.div_pos; lia). apply Hread; [done|lia|..].
    - replace (c / 2 ^ sl =? 14) with false by lia.
      replace (15 <=? c / 2 ^ sl) with false by lia. done.
    - replace (15 <=? c / 2 ^ sl) with false by lia.
      replace (16 <=? c / 2 ^ sl) with false by lia. cbn [andb]. lia. }
  destruct (Z.eqb_spec sl 0) as [->|Hsl0].
  - change (2 ^ 0) with 1 in *. rewrite Z.div_1_r in *. cbn [andb Z.gtb Z.compare].
    destruct (Z.ltb_spec c 30).
    + apply Hread; [lia|lia|done|]. rewrite Z.mod_small by lia. cbn. lia.
    + unfold escape_index. change (2 ^ 0) with 1. cbn [Z.eqb].
      pose proof (escape_prefix_range (c - 15 * 1 - 15)) as E. cbv zeta in E.
      set (p := escape_prefix _) in *. destruct E as (E1 & E2 & E3); [lia|].
      apply Hread; [lia|lia|..].
      * replace (p =? 14) with false by lia. replace (15 <=? p) with true by lia. done.
      * replace (15 <=? p) with true by lia. rewrite Z.mod_small by lia.
        rewrite Z.min_l by lia. cbn [andb Z.eqb].
        destruct (Z.leb_spec 16 p); [change (2 ^ 0) with 1; lia|].
        replace p with 15 by lia. cbn. lia.
  - cbn [andb]. replace (sl >? 0) with true by lia. cbn [andb].
    destruct (Z.eqb_spec (c / 2 ^ sl) 14) as [E|E].
    + apply Hread; [lia|lia|..].
      * replace (sl =? 0) with false by lia. done.
      * cbn. lia.
    + assert (15 * 2 ^ sl <= c) by nia.
      unfold escape_index. replace (sl =? 0) with false by lia.
      pose proof (escape_prefix_range (c - 15 * 2 ^ sl - 0)) as X. cbv zeta in X.
      set (p := escape_prefix _) in *. destruct X as (E1 & E2 & E3); [lia|].
      apply Hread; [lia|lia|..].
      * replace (p =? 14) with false by lia. replace (15 <=? p) with true by lia. done.
      * replace (15 <=? p) with true by lia. rewrite Z.mod_small by lia.
        rewrite Z.min_l by lia. replace (sl =? 0) with false by lia. cbn [andb].
        destruct (Z.leb_spec 16 p); [lia|].
        replace p with 15 by lia. cbn. lia.
Qed.

(** * The encoder writes these words *)
Section Simulation.
Context {S : Type} {sink : BitSink S} (R : S -> list bool -> Prop).
Context {sim : SinkSim sink (code_sink false) R}.

Lemma sim_bits s c n v : R s c -> 0 <= n <= 31 -> 0 <= v < 2 ^ n ->
  R (sk_write s n v) (c ++ bits (Z.to_nat n) v).
Proof. intros Hr Hn Hv. exact (sim_write (SinkSim := sim) s c n v Hr Hn Hv). Qed.

Lemma sim_vlc s c t i : R s c -> In t all_tables ->
  R (bs_write_vlc s (vlc_at t i)) (c ++ vlc_bits (vlc_at t i)).
Proof.
  intros Hr Ht. pose proof (vlc_at_fits t i Ht) as H. unfold vlc_fits in H.
  apply sim_bits; [done|lia|lia].
Qed.

Lemma sim_prefixed s c q m r : R s c -> 0 <= q -> 0 <= m -> q + 1 + m <= 31 ->
  R (sk_write s (q + 1 + m) (2 ^ m + r mod 2 ^ m)) (c ++ prefixed q m r).
Proof.
  intros Hr Hq Hm Hle. destruct (prefixed_write q m r Hq Hm) as [<- Hv].
  apply sim_bits; [done|lia|done].
Qed.

(** The escape is written in two parts. *)
Lemma sim_escape s c p e : R s c -> 15 <= p <= 19 ->
  R (sk_write (sk_write s (p + 1) 1) (p - 3) (e mod 2 ^ (p - 3))) (c ++ prefixed p (p - 3) e).
Proof.
  intros Hr Hp.
  pose proof (sim_prefixed s c p 0 0 Hr) as H1.
  replace (p + 1 + 0) with (p + 1) in H1 by lia.
  change (2 ^ 0 + 0 mod 2 ^ 0) with 1 in H1.
  assert (prefixed p (p - 3) e = prefixed p 0 0 ++ bits (Z.to_nat (p - 3)) e) as ->.
  { unfold prefixed. cbn [Z.to_nat bits]. by rewrite <- app_assoc. }
  rewrite app_assoc.
  rewrite (bits_mod _ e (e mod 2 ^ (p - 3))) by
    (rewrite Z2Nat.id by lia; symmetry; apply Z.mod_mod; pose proof (pow2_pos (p - 3)); lia).
  apply sim_bits; [apply H1; lia|lia|].
  apply Z.mod_pos_bound. apply pow2_pos. lia.
Qed.

Lemma abs_level lv : is_coef lv ->
  let mask := lv >> 15 in
  (lv .^ mask) - mask = Z.abs lv /\ mask = if lv <? 0 then -1 else 0.
Proof.
  intros Hc. cbv zeta. rewrite coef_sign by done. unfold is_coef in Hc.
  destruct (Z.ltb_spec lv 0).
  - rewrite lxor_m1. lia.
  - rewrite Z.lxor_0_r. lia.
Qed.

Lemma write_level_sim h first i i_trailing lv s sl c :
  R s c -> first = (i =? i_trailing) && (i_trailing <? 3) ->
  level_range first lv -> 0 <= sl <= 6 ->
  level_safe (i_profile_idc h >=? PROFILE_HIGH) sl (level_index first lv) ->
  exists s', write_level h i i_trailing lv s sl = Some (s', next_suffixLength sl lv) /\
    R s' (c ++ level_word sl (level_index first lv)).
Proof.
  intros Hr Hfirst Hlv Hsl Hsafe. pose proof (level_index_range _ _ Hlv) as Hk.
  destruct (abs_level lv) as [Ha Hm]; [apply Hlv|].
  unfold write_level. cbv zeta in *. rewrite Ha, Hm, <- Hfirst.
  replace (if first then _ else _) with (level_index first lv)
    by (unfold level_index; destruct first, (Z.ltb_spec lv 0); lia).
  set (k := level_index first lv) in *.
  rewrite !land_low, !Z.shiftl_1_l, !Z.shiftr_div_pow2 by lia.
  set (w := if k / 2 ^ sl <? 14 then _ else _).
  assert (exists s', w = Some s' /\ R s' (c ++ level_word sl k)) as (s' & -> & HR').
  - unfold w, level_word. destruct (Z.ltb_spec (k / 2 ^ sl) 14) as [Hq|Hq].
    { eexists. split; [done|]. pose proof (pow2_pos sl).
      assert (0 <= k / 2 ^ sl) by (apply Z.div_pos; lia). apply sim_prefixed; [done|lia..]. }
    destruct ((sl =? 0) && (k <? 30)) eqn:E1.
    { eexists. split; [done|]. assert (sl = 0) by lia. subst sl.
      change (2 ^ 0) with 1 in Hq. rewrite Z.div_1_r in Hq.
      pose proof (sim_prefixed s c 14 4 (k - 14) Hr) as X.
      rewrite Z.mod_small in X by lia. apply X; lia. }
    destruct ((sl >? 0) && (k / 2 ^ sl =? 14)) eqn:E2.
    { eexists. split; [done|].
      replace (15 + sl) with (14 + 1 + sl) by lia. apply sim_prefixed; [done|lia..]. }
    rewrite !(Z.shiftl_mul_pow2 15) by lia.
    replace (if sl =? 0 then k - 15 * 2 ^ sl - 15 else k - 15 * 2 ^ sl) with (escape_index sl k)
      by (unfold escape_index; destruct (sl =? 0); lia).
    assert (0 <= escape_index sl k < 65536) as He.
    { unfold escape_index. pose proof (pow2_pos sl). pose proof (Z.mul_div_le k (2 ^ sl)).
      destruct (Z.eqb_spec sl 0) as [->|].
      - change (2 ^ 0) with 1 in *. lia.
      - assert (k / 2 ^ sl <> 14) by lia. nia. }
    unfold level_safe in Hsafe. cbv zeta in Hsafe. set (e := escape_index sl k) in *.
    change (2 ^ 12) with 4096. pose proof (escape_prefix_range e He) as X. cbv zeta in X.
    destruct (Z.geb_spec e 4096).
    + destruct Hsafe as [|[-> Hb]]; [lia|]. rewrite escape_loop by (done || lia).
      eexists. split; [done|]. rewrite land_low by lia. apply sim_escape; [done|lia].
    + eexists. split; [done|]. rewrite land_low by lia.
      replace (escape_prefix e) with 15 by lia. change (2 ^ (15 - 3) - 4096) with 0.
      rewrite Z.sub_0_r. apply sim_escape; [done|lia].
  - exists s'. split; [|done]. do 2 f_equal. unfold next_suffixLength. cbv zeta.
    replace (if sl =? 0 then sl + 1 else sl) with (if sl =? 0 then 1 else sl)
      by (destruct (Z.eqb_spec sl 0); lia).
    rewrite Z.shiftl_mul_pow2 by (destruct (Z.eqb_spec sl 0); lia).
    rewrite Z.gtb_ltb. done.
Qed.

(** ** All the levels of a block *)
Fixpoint levels_word (first : bool) (sl : Z) (lvs : list Z) : list bool :=
  match lvs with
  | [] => []
  | lv :: lvs => level_word sl (level_index first lv) ++ levels_word false (next_suffixLength sl lv) lvs
  end.

Fixpoint levels_safe (high first : bool) (sl : Z) (lvs : list Z) : Prop :=
  match lvs with
  | [] => True
  | lv :: lvs => level_safe high sl (level_index first lv) /\
                 levels_safe high false (next_suffixLength sl lv) lvs
  end.

Lemma next_suffixLength_range sl lv : 0 <= sl <= 6 -> 0 <= next_suffixLength sl lv <= 6.
Proof.
  intros Hsl. unfold next_suffixLength. cbv zeta.
  destruct (Z.eqb_spec sl 0); destruct (_ && _) eqn:E; lia.
Qed.

Lemma read_levels_word first sl lvs rest : 0 <= sl <= 6 ->
  Forall (level_range false) lvs -> (forall lv l, lvs = lv :: l -> level_range first lv) ->
  read_levels (length lvs) first sl (levels_word first sl lvs ++ rest) = Some (lvs, rest).
Proof.
  intros Hsl Hall. revert first sl Hsl. induction Hall as [|lv lvs Hlv Hall IH];
    intros first sl Hsl Hfirst; [done|].
  cbn [length read_levels levels_word]. rewrite <- app_assoc.
  rewrite read_level_word by (done || by eapply Hfirst).
  rewrite IH; [done|by apply next_suffixLength_range|].
  intros lv' l ->. by inversion Hall.
Qed.

(** The loop of the encoder from position [k] of the level array on, once past
    the first level. *)
Lemma write_levels_rest h i_trailing lvs : forall k pre s sl c,
  k = Z.of_nat (length pre) -> i_trailing < k ->
  R s c -> 0 <= sl <= 6 -> Forall (level_range false) lvs ->
  levels_safe (i_profile_idc h >=? PROFILE_HIGH) false sl lvs ->
  exists s' sl', for_ (length lvs) k (fun i st =>
      match st with
      | Some (s, sl) => write_level h i i_trailing (nth (Z.to_nat i) (pre ++ lvs) 0) s sl
      | None => None
      end) (Some (s, sl)) = Some (s', sl') /\ R s' (c ++ levels_word false sl lvs).
Proof.
  induction lvs as [|lv lvs IH]; intros k pre s sl c -> Hk Hr Hsl Hall Hsafe.
  - exists s, sl. cbn [for_ length levels_word]. by rewrite app_nil_r.
  - cbn [length for_ levels_word levels_safe] in *. inversion Hall; subst.
    rewrite Nat2Z.id, nth_middle.
    destruct (write_level_sim h false (Z.of_nat (length pre)) i_trailing lv s sl c)
      as (s1 & -> & Hr1); [done|lia|done|done|tauto|].
    destruct (IH (Z.of_nat (length pre) + 1) (pre ++ [lv]) s1 (next_suffixLength sl lv)
      (c ++ level_word sl (level_index false lv))) as (s2 & sl2 & E & Hr2);
      [rewrite length_app; simpl; lia|lia|done|by apply next_suffixLength_range|done|tauto|].
    exists s2, sl2. rewrite <- app_assoc in E, Hr2. cbn [app] in E. by rewrite E.
Qed.

Lemma write_levels_sim h pre lvs s sl c :
  let first := Z.of_nat (length pre) <? 3 in
  R s c -> 0 <= sl <= 6 -> Forall (level_range false) lvs ->
  (forall lv l, lvs = lv :: l -> level_range first lv) ->
  levels_safe (i_profile_idc h >=? PROFILE_HIGH) first sl lvs ->
  exists s' sl', for_ (length lvs) (Z.of_nat (length pre)) (fun i st =>
      match st with
      | Some (s, sl) => write_level h i (Z.of_nat (length pre)) (nth (Z.to_nat i) (pre ++ lvs) 0) s sl
      | None => None
      end) (Some (s, sl)) = Some (s', sl') /\ R s' (c ++ levels_word first sl lvs).
Proof.
  intros first Hr Hsl Hall Hfirst Hsafe. destruct lvs as [|lv lvs].
  - exists s, sl. cbn [for_ length levels_word]. by rewrite app_nil_r.
  - cbn [length for_ levels_word levels_safe] in *. inversion Hall; subst.
    rewrite Nat2Z.id, nth_middle.
    destruct (write_level_sim h first (Z.of_nat (length pre)) (Z.of_nat (length pre)) lv s sl c)
      as (s1 & -> & Hr1); [done|unfold first; by rewrite Z.eqb_refl|by eapply Hfirst|done|tauto|].
    destruct (write_levels_rest h (Z.of_nat (length pre)) lvs (Z.of_nat (length pre) + 1)
      (pre ++ [lv]) s1 (next_suffixLength sl lv) (c ++ level_word sl (level_index first lv)))
      as (s2 & sl2 & E & Hr2);
      [rewrite length_app; simpl; lia|lia|done|by apply next_suffixLength_range|done|tauto|].
    exists s2, sl2. rewrite <- app_assoc in E, Hr2. cbn [app] in E. by rewrite E.
Qed.
End Simulation.

(** * Scanning a block *)
Definition coefs (l : Z -> Z) (n : nat) : list Z := map l (seqZ 0 (Z.of_nat n)).

Lemma coefs_S l n : coefs l (S n) = coefs l n ++ [l (Z.of_nat n)].
Proof.
  unfold coefs. rewrite Nat2Z.inj_succ. unfold Z.succ. rewrite seqZ_app, map_app by lia. done.
Qed.

Lemma length_coefs l n : length (coefs l n) = n.
Proof. unfold coefs. rewrite length_map, length_seqZ. lia. Qed.

(** Zeros at the top of a block are the padding. *)
Lemma coefs_zeros l k n : (k <= n)%nat ->
  (forall i, Z.of_nat k <= i < Z.of_nat n -> l i = 0) ->
  coefs l n = coefs l k ++ replicate (n - k) 0.
Proof.
  induction 1 as [|n Hk IH]; intros H.
  - by rewrite Nat.sub_diag, app_nil_r.
  - rewrite coefs_S, IH by (intros; apply H; lia). rewrite H by lia.
    replace (S n - k)%nat with (n - k + 1)%nat by lia.
    by rewrite replicate_add, app_assoc.
Qed.

Definition pairs_ok (ps : list (Z * Z)) : Prop := Forall (fun p => p.1 <> 0 /\ 0 <= p.2) ps.

Lemma level_runs_spec l n : forall fuel, (n <= fuel)%nat -> (n = O \/ l (Z.of_nat n - 1) <> 0) ->
  exists ps, level_runs fuel l (Z.of_nat n - 1) = Some ps /\ unrun ps = coefs l n /\ pairs_ok ps.
Proof.
  induction n as [n IH] using lt_wf_ind. intros fuel Hf Hn.
  destruct n as [|n]; [exists []; by destruct fuel; repeat constructor|].
  destruct fuel as [|fuel]; [lia|]. destruct Hn as [|Hn]; [done|].
  cbn [level_runs]. replace (Z.of_nat (S n) - 1) with (Z.of_nat n) in * by lia.
  replace (0 <=? Z.of_nat n) with true by lia.
  pose proof (decimate_run_zrun (S fuel) l n ltac:(lia)) as E. unfold decimate_run in E.
  rewrite E. clear E. pose proof (zrun_le l n).
  destruct (IH (n - zrun l n)%nat) with (fuel := fuel) as (ps & -> & Hps & Hok); [lia|lia| |].
  { destruct (Nat.eq_dec (zrun l n) n); [left; lia|right]. apply zrun_stop. lia. }
  eexists. split; [done|]. split.
  - cbn [unrun]. rewrite Hps, Nat2Z.id, coefs_S, app_assoc. f_equal.
    rewrite (coefs_zeros l (n - zrun l n) n) by (lia || apply zrun_zeros).
    do 2 f_equal. lia.
  - constructor; [|done]. cbn [fst snd]. split; [done|lia].
Qed.

Definition sum_runs (ps : list (Z * Z)) : Z := foldr (fun p acc => p.2 + acc) 0 ps.

Lemma length_unrun ps : pairs_ok ps ->
  Z.of_nat (length (unrun ps)) = Z.of_nat (length ps) + sum_runs ps /\ 0 <= sum_runs ps.
Proof.
  induction 1 as [|[lv r] ps [H1 H2] H IH]; [done|]. cbn [unrun sum_runs foldr fst snd] in *.
  rewrite !length_app, length_replicate. cbn [length]. fold (sum_runs ps). lia.
Qed.

Lemma unrun_levels ps lv : In lv (map fst ps) -> In lv (unrun ps).
Proof.
  induction ps as [|[lv' r] ps IH]; [done|]. cbn [map fst unrun In].
  rewrite !in_app_iff. cbn [In]. tauto.
Qed.

(** The trailing ones are the longest run of at most three levels of magnitude 1. *)
Definition is_one (lv : Z) : Prop := lv = 1 \/ lv = -1.

Lemma trailing_ones_from level n : forall pre rest sign,
  Forall is_coef level -> Forall (fun lv => lv <> 0) level ->
  level = pre ++ rest -> Forall is_one pre ->
  (n + length pre = Nat.min 3 (length level))%nat -> 0 <= sign < 2 ^ Z.of_nat (length pre) ->
  bits (length pre) sign = map (fun lv => lv <? 0) pre ->
  exists pre' rest' sign', level = pre' ++ rest' /\
    trailing_ones n (Z.of_nat (length pre)) sign level = (Z.of_nat (length pre'), sign') /\
    Forall is_one pre' /\ (length pre' <= 3)%nat /\ 0 <= sign' < 2 ^ Z.of_nat (length pre') /\
    bits (length pre') sign' = map (fun lv => lv <? 0) pre' /\
    ((length pre' < 3)%nat -> forall lv l, rest' = lv :: l -> 2 <= Z.abs lv).
Proof.
  induction n as [|n IH]; intros pre rest sign Hc Hz -> Hone Hn Hs Hb.
  - exists pre, rest, sign. repeat (split; [done || lia|]).
    intros H3 lv l ->. rewrite length_app in Hn. cbn [length] in Hn. lia.
  - destruct rest as [|lv rest]; [rewrite app_nil_r in Hn; lia|].
    cbn [trailing_ones]. rewrite Nat2Z.id, nth_middle.
    assert (is_coef lv) as Hlv by (apply (Forall_app is_coef) in Hc as [_ Hc]; by inversion Hc).
    assert (lv <> 0) as Hlv0 by (apply Forall_app in Hz as [_ Hz]; by inversion Hz).
    rewrite Z.gtb_ltb, level2_test by done. destruct (Z.leb_spec 2 (Z.abs lv)).
    + exists pre, (lv :: rest), sign. repeat (split; [done || lia|]).
      intros _ lv' l [= <- _]. done.
    + destruct (IH (pre ++ [lv]) rest ((sign << 1) .| b2i (lv <? 0)))
        as (pre' & rest' & sign' & E & E2 & X); try done.
      * by rewrite <- app_assoc.
      * apply Forall_app. split; [done|]. constructor; [unfold is_one; lia|constructor].
      * rewrite !length_app in *. simpl in *. lia.
      * rewrite shiftl_lor_add by (destruct (lv <? 0); simpl; lia).
        rewrite length_app, Nat2Z.inj_add, Z.pow_add_r by lia.
        simpl (2 ^ Z.of_nat (length [lv])). destruct (lv <? 0); simpl; lia.
      * rewrite length_app, map_app, <- Hb. cbn [length map].
        change (sign << 1) with (sign << Z.of_nat 1).
        rewrite bits_push by (destruct (lv <? 0); simpl; lia). f_equal.
        by destruct (lv <? 0).
      * exists pre', rest', sign'. split; [done|]. split; [|done].
        rewrite <- E2. f_equal. rewrite length_app. simpl. lia.
Qed.

Lemma trailing_ones_spec level : Forall is_coef level -> Forall (fun lv => lv <> 0) level ->
  exists pre rest sign, level = pre ++ rest /\
    trailing_ones (Z.to_nat (Z.min 3 (Z.of_nat (length level)))) 0 0 level =
      (Z.of_nat (length pre), sign) /\
    Forall is_one pre /\ (length pre <= 3)%nat /\ 0 <= sign < 2 ^ Z.of_nat (length pre) /\
    bits (length pre) sign = map (fun lv => lv <? 0) pre /\
    ((length pre < 3)%nat -> forall lv l, rest = lv :: l -> 2 <= Z.abs lv).
Proof.
  intros Hc Hz. apply (trailing_ones_from level _ [] level 0); try done; cbn [length]; lia.
Qed.

Lemma read_signs_bits pre rest : Forall is_one pre ->
  read_signs (length pre) (map (fun lv => lv <? 0) pre ++ rest) = Some (pre, rest).
Proof.
  induction 1 as [|lv pre Hlv Hpre IH]; [done|]. cbn [length read_signs map app]. rewrite IH.
  by destruct Hlv as [-> | ->].
Qed.

(** * Runs *)
Definition run_table (zl : Z) : list vlc_t := nth (Z.to_nat (Z.min (zl - 1) 6)) x264_run_before [].

Definition entry_ok (t : list vlc_t) (i : Z) : Prop :=
  In t all_tables /\ 0 <= i < Z.of_nat (length t) /\ vlc_used (vlc_at t i) = true.

Definition entry_b (t : list vlc_t) (i : Z) : bool :=
  (0 <=? i) && (i <? Z.of_nat (length t)) && vlc_used (vlc_at t i).

Lemma entry_b_ok t i : In t all_tables -> entry_b t i = true -> entry_ok t i.
Proof.
  unfold entry_ok, entry_b. intros Ht H. apply andb_prop in H as [H Hu].
  split; [done|]. split; [lia|done].
Qed.

(** The case of a check over ranges that is about the given indices. *)
Ltac by_entry H :=
  apply orb_prop in H as [H|H]; [first [lia | apply orb_prop in H as [H|H]; lia] | exact H].

Lemma run_table_ok zl r : 1 <= zl <= 14 -> 0 <= r <= zl -> entry_ok (run_table zl) r.
Proof.
  intros Hzl Hr. apply entry_b_ok.
  - unfold all_tables. rewrite !in_app_iff. right. right. right.
    apply nth_In. cbn. lia.
  - assert (all_range 1 14 (fun zl => all_range 0 15 (fun r =>
      (zl <? r) || entry_b (run_table zl) r)) = true) as H by (vm_compute; reflexivity).
    eapply all_range_spec with (i := zl) in H; [|lia].
    eapply all_range_spec with (i := r) in H; [|lia]. cbv beta in H.
    by_entry H.
Qed.

Lemma total_zeros_ok total tz : 1 <= total <= 15 -> 0 <= tz <= 16 - total ->
  entry_ok (nth (Z.to_nat (total - 1)) x264_total_zeros []) tz.
Proof.
  intros Ht Hz. apply entry_b_ok.
  - unfold all_tables. rewrite !in_app_iff. right. left. apply nth_In. cbn. lia.
  - assert (all_range 1 15 (fun t => all_range 0 16 (fun z =>
      (16 - t <? z) || entry_b (nth (Z.to_nat (t - 1)) x264_total_zeros []) z)) = true)
      as H by (vm_compute; reflexivity).
    eapply all_range_spec with (i := total) in H; [|lia].
    eapply all_range_spec with (i := tz) in H; [|lia]. cbv beta in H.
    by_entry H.
Qed.

Lemma total_zeros_dc_ok total tz : 1 <= total <= 3 -> 0 <= tz <= 4 - total ->
  entry_ok (nth (Z.to_nat (total - 1)) x264_total_zeros_dc []) tz.
Proof.
  intros Ht Hz. apply entry_b_ok.
  - unfold all_tables. rewrite !in_app_iff. right. right. left. apply nth_In. cbn. lia.
  - assert (all_range 1 3 (fun t => all_range 0 4 (fun z =>
      (4 - t <? z) || entry_b (nth (Z.to_nat (t - 1)) x264_total_zeros_dc []) z)) = true)
      as H by (vm_compute; reflexivity).
    eapply all_range_spec with (i := total) in H; [|lia].
    eapply all_range_spec with (i := tz) in H; [|lia]. cbv beta in H.
    by_entry H.
Qed.

Lemma coeff_token_ok nC total trailing :
  0 <= nC <= 4 -> 0 <= total <= (if nC =? 4 then 4 else 16) -> 0 <= trailing <= Z.min 3 total ->
  entry_ok (nth (Z.to_nat nC) x264_coeff_token []) (total * 4 + trailing).
Proof.
  intros Hn Ht Htr. apply entry_b_ok.
  - unfold all_tables. rewrite in_app_iff. left. apply nth_In. cbn. lia.
  - assert (all_range 0 5 (fun n => all_range 0 17 (fun t => all_range 0 4 (fun r =>
      ((if n =? 4 then 4 else 16) <? t) || (t <? r) ||
      entry_b (nth (Z.to_nat n) x264_coeff_token []) (t * 4 + r)))) = true)
      as H by (vm_compute; reflexivity).
    eapply all_range_spec with (i := nC) in H; [|lia].
    eapply all_range_spec with (i := total) in H; [|destruct (nC =? 4); lia].
    eapply all_range_spec with (i := trailing) in H; [|lia]. cbv beta in H.
    by_entry H.
Qed.

Lemma read_vlc_ok t i rest : entry_ok t i -> read_vlc t (vlc_bits (vlc_at t i) ++ rest) = Some (i, rest).
Proof. intros (H1 & H2 & H3). by apply read_vlc_spec. Qed.

(** What [write_runs] writes for the zeros left and the runs. *)
Fixpoint runs_word (zl : Z) (rs : list Z) : list bool :=
  match rs with
  | [] | [_] => []
  | r :: rs => (if zl >? 0 then vlc_bits (vlc_at (run_table zl) r) else []) ++ runs_word (zl - r) rs
  end.

Definition runs_sum (rs : list Z) : Z := foldr Z.add 0 rs.

Lemma runs_sum_pos rs : Forall (fun r => 0 <= r) rs -> 0 <= runs_sum rs.
Proof. induction 1; simpl; lia. Qed.

Lemma read_runs_SS n zl l :
  read_runs (S (S n)) zl l =
  match (if 0 <? zl then read_vlc (run_table zl) l else Some (0, l)) with
  | None => None
  | Some (r, l) =>
      match read_runs (S n) (zl - r) l with
      | None => None
      | Some (rs, l) => Some (r :: rs, l)
      end
  end.
Proof. done. Qed.

Lemma runs_word_cons zl r r2 rs :
  runs_word zl (r :: r2 :: rs) =
  (if zl >? 0 then vlc_bits (vlc_at (run_table zl) r) else []) ++ runs_word (zl - r) (r2 :: rs).
Proof. done. Qed.

Lemma read_runs_word rs rest : Forall (fun r => 0 <= r) rs ->
  ((2 <= length rs)%nat -> runs_sum rs <= 14) ->
  read_runs (length rs) (runs_sum rs) (runs_word (runs_sum rs) rs ++ rest) = Some (rs, rest).
Proof.
  induction 1 as [|r rs Hr Hrs IH]; intros Hs; [done|].
  destruct rs as [|r2 rs].
  - cbn. by rewrite Z.add_0_r.
  - specialize (Hs ltac:(simpl; lia)). pose proof (runs_sum_pos (r2 :: rs) Hrs) as Hp.
    change (runs_sum (r :: r2 :: rs)) with (r + runs_sum (r2 :: rs)) in *.
    change (length (r :: r2 :: rs)) with (S (S (length rs))).
    rewrite read_runs_SS, runs_word_cons, Z.gtb_ltb.
    set (zl := r + runs_sum (r2 :: rs)) in *.
    replace (zl - r) with (runs_sum (r2 :: rs)) by lia. cbn [length] in IH.
    destruct (Z.ltb_spec 0 zl).
    + rewrite <- app_assoc, read_vlc_ok by (apply run_table_ok; lia).
      replace (zl - r) with (runs_sum (r2 :: rs)) by lia. rewrite IH by lia. done.
    + rewrite app_nil_l. replace (zl - 0) with (runs_sum (r2 :: rs)) by lia.
      rewrite IH by lia. do 2 f_equal. f_equal. lia.
Qed.

Section RunSimulation.
Context {S : Type} {sink : BitSink S} (R : S -> list bool -> Prop).
Context {sim : SinkSim sink (code_sink false) R}.

(** The runs are non-negative and add up to the zeros left. *)
Lemma write_runs_from rs : forall pre s c,
  R s c -> Forall (fun r => 0 <= r) rs -> ((2 <= length rs)%nat -> runs_sum rs <= 14) ->
  R (for_ (length rs - 1) (Z.of_nat (length pre)) (fun i '(s, i_total_zero) =>
       if i_total_zero >? 0 then
         let i_zl := Z.min (i_total_zero - 1) 6 in
         let r := nth (Z.to_nat i) (pre ++ rs) 0 in
         (bs_write_vlc s (vlc_at (nth (Z.to_nat i_zl) x264_run_before []) r), i_total_zero - r)
       else (s, i_total_zero)) (s, runs_sum rs)).1 (c ++ runs_word (runs_sum rs) rs).
Proof.
  induction rs as [|r rs IH]; intros pre s c Hr Hrs Hs; [cbn [runs_word]; rewrite (app_nil_r c); exact Hr|].
  destruct rs as [|r2 rs]; [cbn [runs_word]; rewrite (app_nil_r c); exact Hr|].
  replace (length (r :: r2 :: rs) - 1)%nat with (Datatypes.S (length (r2 :: rs) - 1)) by (simpl; lia).
  specialize (Hs ltac:(simpl; lia)). inversion Hrs as [|? ? Hr0 Hrs']; subst.
  pose proof (runs_sum_pos _ Hrs') as Hp.
  change (runs_sum (r :: r2 :: rs)) with (r + runs_sum (r2 :: rs)) in *.
  set (zl := r + runs_sum (r2 :: rs)) in *.
  rewrite runs_word_cons. cbn [for_].
  replace (zl - r) with (runs_sum (r2 :: rs)) by lia.
  specialize (IH (pre ++ [r])). rewrite length_app, Nat2Z.inj_add in IH.
  change (Z.of_nat (length [r])) with 1 in IH.
  rewrite <- (app_assoc pre) in IH. cbn [app] in IH.
  rewrite Nat2Z.id, nth_middle, app_assoc. destruct (Z.gtb_spec zl 0).
  - cbv zeta. replace (zl - r) with (runs_sum (r2 :: rs)) by lia. fold (run_table zl).
    apply IH; [|done|lia].
    apply (sim_vlc R); [done|]. apply (run_table_ok zl r); lia.
  - rewrite app_nil_r. replace zl with (runs_sum (r2 :: rs)) by lia. apply IH; [done|done|lia].
Qed.

Lemma write_runs_sim rs s c :
  R s c -> Forall (fun r => 0 <= r) rs -> ((2 <= length rs)%nat -> runs_sum rs <= 14) ->
  R (write_runs rs (Z.of_nat (length rs)) (runs_sum rs) s) (c ++ runs_word (runs_sum rs) rs).
Proof.
  intros. unfold write_runs.
  replace (Z.to_nat (Z.of_nat (length rs) - 1)) with (length rs - 1)%nat by lia.
  by apply (write_runs_from rs []).
Qed.
End RunSimulation.

(** * Whole blocks *)
Definition first_suffixLength (total trailing : Z) : Z :=
  if (10 <? total) && (trailing <? 3) then 1 else 0.

Definition zeros_table (nC total : Z) : list vlc_t :=
  nth (Z.to_nat (total - 1)) (if nC =? 4 then x264_total_zeros_dc else x264_total_zeros) [].

(** The bits of a block with trailing ones [ones], further levels [lvs] and runs. *)
Definition block_word (nC maxNumCoeff : Z) (ones lvs runs : list Z) : list bool :=
  let total := Z.of_nat (length runs) in
  let trailing := Z.of_nat (length ones) in
  vlc_bits (vlc_at (nth (Z.to_nat nC) x264_coeff_token []) (total * 4 + trailing)) ++
  map (fun lv => lv <? 0) ones ++
  levels_word (trailing <? 3) (first_suffixLength total trailing) lvs ++
  (if total <? maxNumCoeff then vlc_bits (vlc_at (zeros_table nC total) (runs_sum runs)) else []) ++
  runs_word (runs_sum runs) runs.

(** What makes levels and runs those of a block. *)
Record block_ok (nC maxNumCoeff : Z) (ones lvs runs : list Z) : Prop := {
  bk_nC : 0 <= nC <= 4;
  bk_max : if nC =? 4 then maxNumCoeff = 4 else maxNumCoeff = 15 \/ maxNumCoeff = 16;
  bk_total : length runs = (length ones + length lvs)%nat;
  bk_some : (1 <= length runs)%nat;
  bk_fits : Z.of_nat (length runs) + runs_sum runs <= maxNumCoeff;
  bk_runs : Forall (fun r => 0 <= r) runs;
  bk_ones : Forall is_one ones;
  bk_three : (length ones <= 3)%nat;
  bk_lvs : Forall (level_range false) lvs;
  bk_first : forall lv l, lvs = lv :: l -> level_range (Z.of_nat (length ones) <? 3) lv
}.

Lemma first_suffixLength_range total trailing : 0 <= first_suffixLength total trailing <= 6.
Proof. unfold first_suffixLength. destruct (_ && _); lia. Qed.

Section Block.
Context {nC maxNumCoeff : Z} {ones lvs runs : list Z} (ok : block_ok nC maxNumCoeff ones lvs runs).

Lemma block_token_ok :
  entry_ok (nth (Z.to_nat nC) x264_coeff_token []) (Z.of_nat (length runs) * 4 + Z.of_nat (length ones)).
Proof.
  destruct ok as [H1 H2 H3 H4 H5 H6 H7 H8 H9 H10]. pose proof (runs_sum_pos _ H6).
  apply coeff_token_ok; [done| |lia]. destruct (nC =? 4); lia.
Qed.

Lemma block_zeros_ok : Z.of_nat (length runs) < maxNumCoeff ->
  entry_ok (zeros_table nC (Z.of_nat (length runs))) (runs_sum runs).
Proof.
  intros Hlt. destruct ok as [H1 H2 H3 H4 H5 H6 H7 H8 H9 H10]. pose proof (runs_sum_pos _ H6).
  unfold zeros_table. destruct (nC =? 4).
  - apply total_zeros_dc_ok; lia.
  - apply total_zeros_ok; lia.
Qed.

Lemma block_runs_bound : (2 <= length runs)%nat -> runs_sum runs <= 14.
Proof. destruct ok as [H1 H2 H3 H4 H5]. destruct (nC =? 4); lia. Qed.

Lemma read_block_word rest :
  read_residual nC maxNumCoeff (block_word nC maxNumCoeff ones lvs runs ++ rest) =
  Some (pad maxNumCoeff (unrun (zip (ones ++ lvs) runs)), rest).
Proof.
  pose proof block_token_ok as Htok. pose proof block_zeros_ok as Hz.
  pose proof block_runs_bound as Hb. destruct ok as [H1 H2 H3 H4 H5 H6 H7 H8 H9 H10].
  pose proof (runs_sum_pos _ H6).
  unfold block_word, read_residual. set (total := Z.of_nat (length runs)) in *.
  set (trailing := Z.of_nat (length ones)) in *. cbv zeta.
  rewrite <- !app_assoc, read_vlc_ok by done.
  rewrite (Z.add_comm (total * 4)), Z.div_add, Z.div_small, Z.add_0_l, Z.mod_add, Z.mod_small by lia.
  replace (total =? 0) with false by lia.
  unfold trailing at 1. rewrite Nat2Z.id, read_signs_bits by done.
  replace (Z.to_nat (total - trailing)) with (length lvs) by lia.
  fold (first_suffixLength total trailing).
  rewrite read_levels_word by (done || apply first_suffixLength_range).
  fold (zeros_table nC total).
  assert ((if total <? maxNumCoeff then
      read_vlc (zeros_table nC total)
        ((if total <? maxNumCoeff then vlc_bits (vlc_at (zeros_table nC total) (runs_sum runs)) else []) ++
         runs_word (runs_sum runs) runs ++ rest)
    else Some (0, (if total <? maxNumCoeff then vlc_bits (vlc_at (zeros_table nC total) (runs_sum runs)) else []) ++
         runs_word (runs_sum runs) runs ++ rest)) =
    Some (runs_sum runs, runs_word (runs_sum runs) runs ++ rest)) as ->.
  { destruct (Z.ltb_spec total maxNumCoeff).
    - apply read_vlc_ok. by apply Hz.
    - cbn [app]. do 2 f_equal. lia. }
  unfold total. rewrite Nat2Z.id, read_runs_word by done. done.
Qed.

End Block.

(** ** From a coefficient array to its block *)

(** The category, index and size of a block of a macroblock, and its array. *)
Definition block_shape (cat idx count : Z) : Prop :=
  (cat = DCT_CHROMA_DC /\ 25 <= idx <= 26 /\ count = 4) \/
  ((cat = DCT_LUMA_AC \/ cat = DCT_CHROMA_AC) /\ 0 <= idx < 24 /\ count = 15) \/
  ((cat = DCT_LUMA_4x4 \/ cat = DCT_LUMA_DC) /\ 0 <= idx <= 24 /\ count = 16).

(** A level any profile can code, or one High profile can: the escape codes of
    prefix 16 and more skip the first value of each range. *)
Definition coef_safe (high : bool) (c : Z) : Prop :=
  Z.abs c <= 2047 \/
  (high = true /\ forall first sl, 0 <= sl <= 6 ->
     ~ In (escape_index sl (level_index first c)) [4096; 12288; 28672; 61440]).

Lemma coef_safe_level high first sl c : level_range first c -> 0 <= sl <= 6 -> coef_safe high c ->
  level_safe high sl (level_index first c).
Proof.
  intros Hr Hsl [H|[-> H]].
  - left. unfold escape_index, level_index. pose proof (pow2_pos sl).
    destruct first, (Z.ltb_spec c 0), (Z.eqb_spec sl 0); lia.
  - right. split; [done|]. by apply H.
Qed.

Lemma levels_safe_all high first sl lvs : 0 <= sl <= 6 ->
  Forall (level_range false) lvs -> (forall lv l, lvs = lv :: l -> level_range first lv) ->
  Forall (coef_safe high) lvs -> levels_safe high first sl lvs.
Proof.
  intros Hsl Hr. revert first sl Hsl. induction Hr as [|lv lvs Hlv Hr IH];
    intros first sl Hsl Hf Hs; [done|]. inversion Hs; subst. split.
  - apply coef_safe_level; [by eapply Hf|done|done].
  - apply IH; [by apply next_suffixLength_range| |done]. intros lv' l ->. by inversion Hr.
Qed.

Lemma coeff_last_shape cat idx count l : block_shape cat idx count ->
  coeff_last cat l = x264_coeff_last_internal l count.
Proof.
  unfold coeff_last, block_shape.
  intros [(-> & _ & ->)|[([-> | ->] & _ & ->)|([-> | ->] & _ & ->)]]; reflexivity.
Qed.

(** The neighbours of a block have counts from the cache. *)
Definition neighbours_ok (h : x264_t) (i_idx : Z) : Prop :=
  let i := scan8 (if i_idx =? 24 then 0 else i_idx) in
  nnz_ok (non_zero_count h (i - 1)) /\ nnz_ok (non_zero_count h (i - 8)).

Lemma block_nC_range h i_idx : neighbours_ok h i_idx ->
  0 <= block_nC h i_idx <= 4 /\ (block_nC h i_idx =? 4) = (25 <=? i_idx).
Proof.
  intros [Ha Hb]. unfold block_nC. destruct (Z.geb_spec i_idx 25).
  - replace (25 <=? i_idx) with true by lia. done.
  - replace (25 <=? i_idx) with false by lia.
    destruct (predict_non_zero_code_std h (if i_idx =? 24 then 0 else i_idx)) as [_ Hn]; [done..|].
    set (n := x264_mb_predict_non_zero_code _ _) in *.
    assert (all_range 0 17 (fun n => (0 <=? tbl ct_index n) && (tbl ct_index n <? 4)) = true)
      as C by (vm_compute; reflexivity).
    eapply all_range_spec with (i := n) in C; [|lia]. cbv beta in C. lia.
Qed.

(** The levels and runs found in a non-zero array make a block, and the array is
    the padded block. *)
Lemma level_runs_block nC count l i_last : 
  0 <= nC <= 4 -> (if nC =? 4 then count = 4 else count = 15 \/ count = 16) ->
  0 <= i_last < count -> l i_last <> 0 -> (forall i, i_last < i < count -> l i = 0) ->
  (forall i, 0 <= i < count -> is_coef (l i)) ->
  exists ps ones lvs sign, level_runs (Z.to_nat (i_last + 1)) l i_last = Some ps /\
    map fst ps = ones ++ lvs /\
    trailing_ones (Z.to_nat (Z.min 3 (Z.of_nat (length ps)))) 0 0 (map fst ps) =
      (Z.of_nat (length ones), sign) /\
    0 <= sign < 2 ^ Z.of_nat (length ones) /\
    bits (length ones) sign = map (fun lv => lv <? 0) ones /\
    block_ok nC count ones lvs (map snd ps) /\
    runs_sum (map snd ps) = i_last + 1 - Z.of_nat (length ps) /\
    pad count (unrun (zip (ones ++ lvs) (map snd ps))) = coefs l (Z.to_nat count) /\
    (forall lv, In lv lvs -> exists i, 0 <= i < count /\ lv = l i).
Proof.
  intros HnC Hcount Hlast Hne Hz Hc.
  destruct (level_runs_spec l (Z.to_nat (i_last + 1)) (Z.to_nat (i_last + 1)))
    as (ps & E & Hun & Hps); [done|right; by replace (_ - 1) with i_last by lia|].
  replace (Z.of_nat (Z.to_nat (i_last + 1)) - 1) with i_last in E by lia.
  pose proof (length_unrun ps Hps) as [Hlen Hsum]. rewrite Hun, length_coefs in Hlen.
  assert (sum_runs ps = runs_sum (map snd ps)) as Hrs.
  { unfold sum_runs, runs_sum. clear. induction ps; simpl; [done|]. by rewrite IHps. }
  assert (forall lv, In lv (map fst ps) -> exists i, 0 <= i < count /\ lv = l i) as Hin.
  { intros lv H. apply unrun_levels in H. rewrite Hun in H. unfold coefs in H.
    apply in_map_iff in H as (i & <- & Hi). apply list_elem_of_In, elem_of_seqZ in Hi.
    exists i. split; [lia|done]. }
  assert (Forall is_coef (map fst ps)) as Hlc.
  { apply List.Forall_forall. intros lv H. destruct (Hin lv H) as (i & Hi & ->). by apply Hc. }
  assert (Forall (fun lv => lv <> 0) (map fst ps)) as Hl0.
  { apply Forall_map. eapply List.Forall_impl; [|exact Hps]. by intros [] []. }
  destruct (trailing_ones_spec _ Hlc Hl0)
    as (ones & lvs & sign & Elv & Etr & Hones & H3 & Hsign & Hbits & Hfirst).
  rewrite length_map in Etr.
  assert (length ps = (length ones + length lvs)%nat) as Hl
    by (by rewrite <- (length_map fst ps), Elv, length_app).
  rewrite Elv in Hlc, Hl0, Hin. apply Forall_app in Hlc as [_ Hlc]. apply Forall_app in Hl0 as [_ Hl0].
  exists ps, ones, lvs, sign. repeat (split; [done|]).
  split; [|split; [lia|split]].
  - split; rewrite ?length_map; try done; try lia.
    + destruct ps; [cbn in Hlen; lia|cbn [length]; lia].
    + apply Forall_map. eapply List.Forall_impl; [|exact Hps]. by intros [] [].
    + apply List.Forall_forall. intros lv H. rewrite List.Forall_forall in Hlc, Hl0.
      split; [by apply Hlc|]. split; [by apply Hl0|done].
    + intros lv l' ->. inversion Hlc; inversion Hl0; subst. split; [done|]. split; [done|].
      intros Ht. apply (Hfirst ltac:(lia) lv l'). done.
  - rewrite <- Elv. replace (zip (map fst ps) (map snd ps)) with ps
      by (clear; induction ps as [|[] ps IH]; simpl; congruence).
    rewrite Hun. unfold pad. rewrite length_coefs.
    rewrite (coefs_zeros l (Z.to_nat (i_last + 1)) (Z.to_nat count)); [done|lia|].
    intros i Hi. apply Hz. lia.
  - intros lv H. apply Hin. apply in_app_iff. by right.
Qed.

(** A block ready to be coded: its flag tells whether it has a coefficient, and
    each of its coefficients has a code. *)
Record coded_block (h : x264_t) (cat idx : Z) (l : Z -> Z) (count : Z) : Prop := {
  cb_shape : block_shape cat idx count;
  cb_neighbours : neighbours_ok h idx;
  cb_coef : forall i, 0 <= i < count -> is_coef (l i);
  cb_flag : non_zero_count h (scan8 idx) = 0 <-> (forall i, 0 <= i < count -> l i = 0);
  cb_safe : forall i, 0 <= i < count -> coef_safe (i_profile_idc h >=? PROFILE_HIGH) (l i)
}.

(** The code of a block: its levels and runs, or the token of an empty block. *)
Definition residual_code (h : x264_t) (idx : Z) (l : Z -> Z) (count : Z) (code : list bool) : Prop :=
  forall rest, read_residual (block_nC h idx) count (code ++ rest) = Some (coefs l (Z.to_nat count), rest).

Section Residual.
Context {S : Type} {sink : BitSink S} (R : S -> list bool -> Prop).
Context {sim : SinkSim sink (code_sink false) R}.

Lemma write_block_sim h nC count ones lvs runs level sign s c :
  R s c -> block_ok nC count ones lvs runs -> level = ones ++ lvs ->
  0 <= sign < 2 ^ Z.of_nat (length ones) -> bits (length ones) sign = map (fun lv => lv <? 0) ones ->
  Forall (coef_safe (i_profile_idc h >=? PROFILE_HIGH)) lvs ->
  let i_total := Z.of_nat (length runs) in
  let i_trailing := Z.of_nat (length ones) in
  let s1 := bs_write_vlc s (vlc_at (nth (Z.to_nat nC) x264_coeff_token []) (i_total * 4 + i_trailing)) in
  let s2 := if i_trailing >? 0 then sk_write s1 i_trailing sign else s1 in
  exists s3 sl,
    for_ (Z.to_nat (i_total - i_trailing)) i_trailing (fun i st =>
      match st with
      | Some (s, sl) => write_level h i i_trailing (nth (Z.to_nat i) level 0) s sl
      | None => None
      end) (Some (s2, if (i_total >? 10) && (i_trailing <? 3) then 1 else 0)) = Some (s3, sl) /\
    let s4 := if i_total <? count then bs_write_vlc s3 (vlc_at (zeros_table nC i_total) (runs_sum runs)) else s3 in
    R (write_runs runs i_total (runs_sum runs) s4) (c ++ block_word nC count ones lvs runs).
Proof.
  intros Hr ok -> Hs Hb Hsafe i_total i_trailing s1 s2.
  pose proof (block_token_ok ok) as [Ht _]. pose proof (block_zeros_ok ok) as Hz.
  pose proof (block_runs_bound ok) as Hrb. destruct ok as [H1 H2 H3 H4 H5 H6 H7 H8 H9 H10].
  set (tok := vlc_bits (vlc_at (nth (Z.to_nat nC) x264_coeff_token []) (i_total * 4 + i_trailing))).
  assert (R s1 (c ++ tok)) as Hr1 by (by apply (sim_vlc R)).
  assert (R s2 (c ++ tok ++ map (fun lv => lv <? 0) ones)) as Hr2.
  { rewrite app_assoc. unfold s2. destruct (Z.gtb_spec i_trailing 0).
    - rewrite <- Hb. rewrite <- (Nat2Z.id (length ones)) at 1. apply (sim_bits R); [done|lia|done].
    - destruct ones; [by rewrite app_nil_r|cbn [length] in *; lia]. }
  replace (Z.to_nat (i_total - i_trailing)) with (length lvs) by lia.
  rewrite Z.gtb_ltb. fold (first_suffixLength i_total i_trailing).
  pose proof (first_suffixLength_range i_total i_trailing) as Hsl.
  destruct (write_levels_sim R h ones lvs s2 (first_suffixLength i_total i_trailing) _ Hr2)
    as (s3 & sl & E & Hr3); [done|done|done|by apply levels_safe_all|].
  exists s3, sl. split; [exact E|]. cbv zeta. unfold block_word. fold i_total i_trailing tok.
  rewrite <- !app_assoc in Hr3.
  set (lw := levels_word _ _ lvs) in *. set (ow := map _ ones) in *. set (zw := if i_total <? count then _ else []).
  replace (c ++ tok ++ ow ++ lw ++ zw ++ runs_word (runs_sum runs) runs)
    with ((c ++ tok ++ ow ++ lw ++ zw) ++ runs_word (runs_sum runs) runs) by (by rewrite <- !app_assoc).
  apply (write_runs_sim R); [|done|done]. unfold zw. destruct (Z.ltb_spec i_total count) as [Hlt|_].
  - set (z := vlc_bits _).
    replace (c ++ tok ++ ow ++ lw ++ z) with ((c ++ tok ++ ow ++ lw) ++ z) by (by rewrite <- !app_assoc).
    apply (sim_vlc R); [done|]. by apply Hz.
  - by rewrite app_nil_r.
Qed.

End Residual.

(** The code of a block does not depend on the sink. *)
Lemma residual_sim h cat idx l count : coded_block h cat idx l count ->
  exists code, residual_code h idx l count code /\
    forall S (sink : BitSink S) (R : S -> list bool -> Prop),
      SinkSim sink (code_sink false) R -> forall s c, R s c ->
      exists s', block_residual_write_cavlc h s cat idx l count = Some s' /\ R s' (c ++ code).
Proof.
  intros [Hshape Hn Hc Hflag Hsafe].
  destruct (block_nC_range h idx Hn) as [HnC H4].
  assert (if block_nC h idx =? 4 then count = 4 else count = 15 \/ count = 16) as Hcount.
  { rewrite H4. destruct (Z.leb_spec 25 idx), Hshape as [?|[?|?]]; lia. }
  unfold block_residual_write_cavlc. unfold i2b.
  destruct (Z.eqb_spec (non_zero_count h (scan8 idx)) 0) as [E|E]; cbn [negb].
  - eexists. destruct (coeff_token_ok (block_nC h idx) 0 0) as (Ht & Ht');
      [done|destruct (_ =? 4); lia|lia|]. split.
    2: { intros S sink R sim s c Hr. eexists. split; [done|]. by apply (sim_vlc R). }
    intros rest. unfold read_residual.
    rewrite read_vlc_ok by done. cbn [Z.div Z.div_eucl fst Z.eqb]. do 2 f_equal.
    unfold pad. cbn [app length]. rewrite Nat.sub_0_r.
    rewrite (coefs_zeros l 0 (Z.to_nat count)); [by rewrite Nat.sub_0_r|lia|].
    intros i Hi. apply Hflag; [done|lia].
  - rewrite (coeff_last_shape cat idx count l) by done.
    destruct (coeff_last_internal_spec l count) as (i_last & -> & Hlast & Hne & Hz);
      [destruct Hshape as [?|[?|?]]; lia|done|].
    assert (0 <= i_last) as H0.
    { destruct (Z.lt_decidable i_last 0); [|lia]. destruct E. apply Hflag. intros i Hi. apply Hz. lia. }
    destruct (level_runs_block (block_nC h idx) count l i_last)
      as (ps & ones & lvs & sign & -> & Elv & Etr & Hsg & Hb & ok & Hsum & Hcoefs & Hin);
      [done|done|lia|by apply Hne|done|done|].
    rewrite Etr.
    assert (Forall (coef_safe (i_profile_idc h >=? PROFILE_HIGH)) lvs) as Hls.
    { apply List.Forall_forall. intros lv H. destruct (Hin lv H) as (i & Hi & ->). by apply Hsafe. }
    exists (block_word (block_nC h idx) count ones lvs (map snd ps)). split.
    { intros rest. rewrite <- Hcoefs. by apply read_block_word. }
    intros S sink R sim s c Hr.
    destruct (write_block_sim R h (block_nC h idx) count ones lvs (map snd ps) (map fst ps) sign s c)
      as (s3 & sl & X & HR); [done|done|done|done|done|done|].
    cbv zeta in X, HR. rewrite length_map in X, HR. rewrite X.
    eexists. split; [done|]. rewrite <- Hsum.
    replace (if idx >=? 25 then _ else _) with
      (bs_write_vlc s3 (vlc_at (zeros_table (block_nC h idx) (Z.of_nat (length ps))) (runs_sum (map snd ps)))).
    2: { unfold zeros_table. rewrite H4, Z.geb_leb. by destruct (25 <=? idx). }
    exact HR.
Qed.

(** C1: for every block of a macroblock whose coefficients have escape codes, the
    encoder ends and appends to the bitstream a code from which the parser of the
    standard recovers exactly the coefficients, whatever follows. *)
Theorem residual_roundtrip WORD_SIZE h cat idx l count s :
  WORD_SIZE = 4 \/ WORD_SIZE = 8 -> bs_wf WORD_SIZE s -> coded_block h cat idx l count ->
  exists s' code,
    block_residual_write_cavlc (sink := bs_sink WORD_SIZE) h s cat idx l count = Some s' /\
    bs_wf WORD_SIZE s' /\ stream WORD_SIZE s' = stream WORD_SIZE s ++ code /\
    forall rest, read_residual (block_nC h idx) count (code ++ rest) =
      Some (map l (seqZ 0 count), rest).
Proof.
  intros Hw Hs Hb. destruct (residual_sim h cat idx l count Hb) as (code & Hcode & Hsim).
  destruct (Hsim _ _ _ (bs_sink_sim WORD_SIZE s Hw false) s []) as (s' & E & H1 & H2);
    [split; [done|by rewrite app_nil_r]|].
  exists s', code. split; [done|]. split; [done|]. split; [done|].
  unfold residual_code, coefs in Hcode.
  replace (Z.of_nat (Z.to_nat count)) with count in Hcode; [done|].
  destruct Hb as [[?|[?|?]] _ _ _ _]; lia.
Qed.

(** The rate estimator of encoder/rdo.c, which is this code compiled over size
    counters, predicts for every such block exactly the number of bits by which
    the bitstream grows. *)
Theorem residual_size_exact WORD_SIZE h cat idx l count s n :
  WORD_SIZE = 4 \/ WORD_SIZE = 8 -> bs_wf WORD_SIZE s -> coded_block h cat idx l count ->
  exists s' n',
    block_residual_write_cavlc (sink := bs_sink WORD_SIZE) h s cat idx l count = Some s' /\
    block_residual_write_cavlc (sink := size_sink) h n cat idx l count = Some n' /\
    n' - n = Z.of_nat (length (stream WORD_SIZE s')) - Z.of_nat (length (stream WORD_SIZE s)).
Proof.
  intros Hw Hs Hb. destruct (residual_sim h cat idx l count Hb) as (code & Hcode & Hsim).
  destruct (Hsim _ _ _ (bs_sink_sim WORD_SIZE s Hw false) s []) as (s' & E & H1 & H2);
    [split; [done|by rewrite app_nil_r]|].
  destruct (Hsim _ _ _ (size_sink_sim n false) n []) as (n' & E' & H3);
    [unfold size_rel; simpl; lia|].
  exists s', n'. split; [done|]. split; [done|]. cbn [app] in H2, H3. unfold size_rel in H3.
  rewrite H2, length_app. lia.
Qed.

Lemma sample_block : coded_block sample_mb DCT_LUMA_4x4 0 (luma4x4 sample_mb 0) 16.
Proof.
  split.
  - right. right. split; [by left|]. split; [lia|done].
  - split; left; vm_compute; split; discriminate.
  - intros i _. unfold is_coef, luma4x4, sample_mb. repeat case_match; lia.
  - split; [done|]. intros H. by specialize (H 0 ltac:(lia)).
  - intros i _. left. unfold luma4x4, sample_mb. repeat case_match; lia.
Qed.

Definition sample_bs : bs_t := bs_init 8 (fun _ => 0) 64 100 0.
Lemma sample_bs_wf : bs_wf 8 sample_bs.
Proof. vm_compute. repeat split; discriminate. Qed.

Lemma residual_roundtrip_witness :
  exists s' code,
    block_residual_write_cavlc (sink := bs_sink 8) sample_mb sample_bs DCT_LUMA_4x4 0
      (luma4x4 sample_mb 0) 16 = Some s' /\
    stream 8 s' = stream 8 sample_bs ++ code /\
    read_residual 0 16 (code ++ [true]) = Some ([7;0;0;-2;1;0;0;0;0;0;0;0;0;0;0;0], [true]).
Proof.
  destruct (residual_roundtrip 8 sample_mb DCT_LUMA_4x4 0 (luma4x4 sample_mb 0) 16 sample_bs)
    as (s' & code & H1 & _ & H2 & H3); [by right|exact sample_bs_wf|exact sample_block|].
  exists s', code. split; [exact H1|]. split; [exact H2|]. apply (H3 [true]).
Defined.

Lemma residual_size_exact_witness :
  exists n', block_residual_write_cavlc (sink := size_sink) sample_mb 100 DCT_LUMA_4x4 0
      (luma4x4 sample_mb 0) 16 = Some n' /\ n' = 125.
Proof.
  destruct (residual_size_exact 8 sample_mb DCT_LUMA_4x4 0 (luma4x4 sample_mb 0) 16 sample_bs 100)
    as (s' & n' & _ & H & _); [by right|exact sample_bs_wf|exact sample_block|].
  exists n'. split; [exact H|]. vm_compute in H. congruence.
Defined.

(** in High profile the escape code of prefix 15 is taken for the first value
    that needs prefix 16: a block whose only level is 2065 is given, in every
    sink, the same bits as one whose only level is 17, so no parser can tell them
    apart. *)
Theorem escape_collision S (sink : BitSink S) h s cat idx :
  i_profile_idc h >= PROFILE_HIGH -> non_zero_count h (scan8 idx) <> 0 ->
  cat = DCT_LUMA_4x4 \/ cat = DCT_LUMA_DC ->
  block_residual_write_cavlc h s cat idx (fun i => if i =? 0 then 2065 else 0) 16 =
  block_residual_write_cavlc h s cat idx (fun i => if i =? 0 then 17 else 0) 16.
Proof.
  intros Hp Hnz Hcat. unfold block_residual_write_cavlc, i2b.
  rewrite (proj2 (Z.eqb_neq _ _) Hnz). cbn [negb].
  replace (coeff_last cat (fun i => if i =? 0 then 2065 else 0)) with (Some 0)
    by (destruct Hcat as [-> | ->]; reflexivity).
  replace (coeff_last cat (fun i => if i =? 0 then 17 else 0)) with (Some 0)
    by (destruct Hcat as [-> | ->]; reflexivity).
  change (level_runs (Z.to_nat (0 + 1)) (fun i => if i =? 0 then 2065 else 0) 0) with (Some [(2065, 0)]).
  change (level_runs (Z.to_nat (0 + 1)) (fun i => if i =? 0 then 17 else 0) 0) with (Some [(17, 0)]).
  cbn [map fst snd length].
  change (trailing_ones (Z.to_nat (Z.min 3 (Z.of_nat 1))) 0 0 [2065]) with (0, 0).
  change (trailing_ones (Z.to_nat (Z.min 3 (Z.of_nat 1))) 0 0 [17]) with (0, 0).
  cbn iota. generalize (bs_write_vlc s (vlc_at (nth (Z.to_nat (block_nC h idx)) x264_coeff_token [])
    (Z.of_nat 1 * 4 + 0))) as s1. intros s1.
  change (Z.to_nat (Z.of_nat 1 - 0)) with 1%nat. cbn [for_].
  assert (write_level h 0 0 2065 s1 0 = write_level h 0 0 17 s1 0) as E.
  { unfold write_level. replace (i_profile_idc h >=? PROFILE_HIGH) with true by lia. reflexivity. }
  change (0 >? 0) with false. change (if (Z.of_nat 1 >? 10) && (0 <? 3) then 1 else 0) with 0.
  cbv iota. change (nth (Z.to_nat 0) [2065] 0) with 2065. change (nth (Z.to_nat 0) [17] 0) with 17.
  rewrite E. reflexivity.
Qed.

Lemma escape_collision_witness :
  block_residual_write_cavlc (sink := size_sink) sample_mb 0 DCT_LUMA_4x4 0
    (fun i => if i =? 0 then 2065 else 0) 16 =
  block_residual_write_cavlc (sink := size_sink) sample_mb 0 DCT_LUMA_4x4 0
    (fun i => if i =? 0 then 17 else 0) 16.
Proof.
  apply escape_collision; [vm_compute; discriminate|vm_compute; discriminate|by left].
Defined.
