(* ===== verification/CavlcMb.v ===== *)
(** * Macroblocks in CAVLC (encoder/cavlc.c)

    [x264_macroblock_write_cavlc] over a sink, as the C file is compiled over two sets
    of writer functions, and the two functions compiled from it. *)
From S2P Require Import Prelude Bs Sink Syntax Vlc Quant Mb Cavlc.

Definition intra4x4_cbp_to_golomb : list Z :=
  [ 3; 29; 30; 17; 31; 18; 37;  8; 32; 38; 19;  9; 20; 10; 11;  2;
   16; 33; 34; 21; 35; 22; 39;  4; 36; 40; 23;  5; 24;  6;  7;  1;
   41; 42; 43; 25; 44; 26; 46; 12; 45; 47; 27; 13; 28; 14; 15;  0 ].
Definition inter_cbp_to_golomb : list Z :=
  [ 0;  2;  3;  7;  4;  8; 17; 13;  5; 18;  9; 14; 10; 15; 16; 11;
    1; 32; 33; 36; 34; 37; 44; 40; 35; 45; 38; 41; 39; 42; 43; 19;
    6; 24; 25; 20; 26; 21; 46; 28; 27; 47; 22; 29; 23; 30; 31; 12 ].
(** [-1] in an array of [uint8_t]. *)
Definition mb_type_b_to_golomb : list (list Z) :=
  [ [ 4;  8; 12; 10;  6; 14; 16; 18; 20 ];
    [ 5;  9; 13; 11;  7; 15; 17; 19; 21 ];
    [ 1; 255; 255; 255;  2; 255; 255; 255;  3 ] ].
Definition sub_mb_type_p_to_golomb : list Z := [ 3; 1; 2; 0 ].
Definition sub_mb_type_b_to_golomb : list Z := [ 10;  4;  5;  1; 11;  6;  7;  2; 12;  8;  9;  3;  0 ].

(** [h->zigzagf.interleave_8x8_cavlc] of C, on the four blocks from [luma4x4[4*i8]]. *)
Definition zigzag_interleave_8x8_cavlc (dst : Z -> Z -> Z) (i8 : Z) (src : Z -> Z) : Z -> Z -> Z :=
  for_ 4 0 (fun i => for_ 16 0 (fun j dst => fun b k => if (b =? i8 * 4 + i) && (k =? j) then src (i + j * 4) else dst b k)) dst.

Section Encoder.
Context {S : Type} {sink : BitSink S}.
Local Abbreviation u n v := (fun s : S => sk_write s n v).
Local Abbreviation u1 v := (fun s : S => sk_write1 s v).
Local Abbreviation ue v := (fun s : S => sk_write_ue s v).
Local Abbreviation se v := (fun s : S => sk_write_se s v).
Local Abbreviation te x v := (fun s : S => sk_write_te s x v).

Definition cavlc_qp_delta (h : x264_t) (s : S) : x264_t * S :=
  let i_dqp := i_qp h - i_last_qp h in
  let '(h, i_dqp) :=
    if (i_type h =? I_16x16) && negb (i2b (i_cbp_luma h .| i_cbp_chroma h)) && negb (i2b (non_zero_count h (scan8 24)))
    then (if sk_skip then h else set_i_qp h (i_last_qp h), 0)
    else (h, i_dqp) in
  let i_dqp :=
    if i2b i_dqp then
      if i_dqp <? -26 then i_dqp + 52
      else if i_dqp >? 25 then i_dqp - 52
      else i_dqp
    else i_dqp in
  (h, sk_write_se s i_dqp).

Definition cavlc_mb_mvd (h : x264_t) (i_list idx width : Z) : S -> S :=
  let mvp := x264_mb_predict_mv h i_list idx width in
  se ((cache_mv h i_list (scan8 idx)).1 - mvp.1) ;>
  se ((cache_mv h i_list (scan8 idx)).2 - mvp.2).

Definition cavlc_mb8x8_mvd (h : x264_t) (i_list i : Z) : S -> S :=
  when (i2b (tbl2 x264_mb_partition_listX_table i_list (i_sub_partition h i)))
    (let sub := i_sub_partition h i in
     if (sub =? D_L0_8x8) || (sub =? D_L1_8x8) || (sub =? D_BI_8x8) then
       cavlc_mb_mvd h i_list (4*i) 2
     else if (sub =? D_L0_8x4) || (sub =? D_L1_8x4) || (sub =? D_BI_8x4) then
       cavlc_mb_mvd h i_list (4*i+0) 2 ;>
       cavlc_mb_mvd h i_list (4*i+2) 2
     else if (sub =? D_L0_4x8) || (sub =? D_L1_4x8) || (sub =? D_BI_4x8) then
       cavlc_mb_mvd h i_list (4*i+0) 1 ;>
       cavlc_mb_mvd h i_list (4*i+1) 1
     else if (sub =? D_L0_4x4) || (sub =? D_L1_4x4) || (sub =? D_BI_4x4) then
       cavlc_mb_mvd h i_list (4*i+0) 1 ;>
       cavlc_mb_mvd h i_list (4*i+1) 1 ;>
       cavlc_mb_mvd h i_list (4*i+2) 1 ;>
       cavlc_mb_mvd h i_list (4*i+3) 1
     else fun s => s).

(** A block: its count is stored in the cache, and it is written; [first] is the index
    of its first coefficient. *)
Definition write_counted_block (cat first i_count : Z) (h : x264_t) (s : S) (i : Z) : option (x264_t * S) :=
  let h := set_non_zero_count h (scan8 i) (array_non_zero_count (luma4x4 h i)) in
  match block_residual_write_cavlc h s cat i (fun j => luma4x4 h i (first + j)) i_count with
  | Some s => Some (h, s)
  | None => None
  end.

(** A loop whose body may fail. *)
Definition each_h (f : x264_t -> S -> Z -> option (x264_t * S)) (l : list Z) (h : x264_t) (s : S)
    : option (x264_t * S) :=
  fold_left (fun st i => match st with Some (h, s) => f h s i | None => None end) l (Some (h, s)).

Definition interleave_coded (h : x264_t) (i8start i8end : Z) : x264_t :=
  for_ (Z.to_nat (i8end - i8start + 1)) i8start (fun i8 h =>
    if i2b (i_cbp_luma h .& (1 << i8))
    then set_luma4x4 h (zigzag_interleave_8x8_cavlc (luma4x4 h) i8 (luma8x8 h i8)) else h) h.

Definition x264_macroblock_luma_write_cavlc (h : x264_t) (s : S) (i8start i8end : Z) : option (x264_t * S) :=
  let h := if i2b (b_transform_8x8 h) then interleave_coded h i8start i8end else h in
  each_h (fun h s i8 =>
      if i2b (i_cbp_luma h .& (1 << i8)) then
        each_h (fun h s i4 => write_counted_block DCT_LUMA_4x4 0 16 h s (i4+i8*4)) (seqZ 0 4) h s
      else Some (h, s))
    (seqZ i8start (i8end - i8start + 1)) h s.

(** ** [x264_macroblock_write_cavlc] in its stages *)
Definition i_mb_i_offset (h : x264_t) : option Z :=
  if sh_i_type h =? SLICE_TYPE_I then Some 0
  else if sh_i_type h =? SLICE_TYPE_P then Some 5
  else if sh_i_type h =? SLICE_TYPE_B then Some 23
  else None.

Definition write_field_flag (h : x264_t) : S -> S :=
  when (b_mbaff h && (negb (i2b (i_mb_y h .& 1)) || IS_SKIP (mb_type h (i_mb_xy h - i_mb_stride h))))
    (u1 (b_interlaced h)).

Definition write_intra4x4_mode (h : x264_t) (i : Z) : S -> S :=
  let i_pred := x264_mb_predict_intra4x4_mode h i in
  let i_mode := x264_mb_pred_mode4x4_fix (intra4x4_pred_mode h (scan8 i)) in
  if i_pred =? i_mode then u1 1 else u 4 (i_mode - b2i (i_mode >? i_pred)).

Definition write_ref (h : x264_t) (i_list idx : Z) : S -> S :=
  te (i_fref h i_list - 1) (cache_ref h i_list (scan8 idx)).

(** A P macroblock of one or two partitions. *)
Definition write_p_l0 (h : x264_t) : S -> S :=
  if i_partition h =? D_16x16 then
    ue 0 ;>
    when (i_fref h 0 >? 1) (write_ref h 0 0) ;>
    cavlc_mb_mvd h 0 0 4
  else if i_partition h =? D_16x8 then
    ue 1 ;>
    when (i_fref h 0 >? 1) (write_ref h 0 0 ;> write_ref h 0 8) ;>
    cavlc_mb_mvd h 0 0 4 ;>
    cavlc_mb_mvd h 0 8 4
  else if i_partition h =? D_8x16 then
    ue 2 ;>
    when (i_fref h 0 >? 1) (write_ref h 0 0 ;> write_ref h 0 4) ;>
    cavlc_mb_mvd h 0 0 2 ;>
    cavlc_mb_mvd h 0 4 2
  else fun s => s.

Definition write_p_8x8 (h : x264_t) : S -> S :=
  let b_sub_ref0 :=
    negb ((cache_ref h 0 (scan8 0) .| cache_ref h 0 (scan8 4) .| cache_ref h 0 (scan8 8) .| cache_ref h 0 (scan8 12)) =? 0) in
  (if b_sub_ref0 then ue 3 else ue 4) ;>
  (if b_psub8x8 h
   then each (fun i => ue (tbl sub_mb_type_p_to_golomb (i_sub_partition h i))) (seqZ 0 4)
   else u 4 0xf) ;>
  when ((i_fref h 0 >? 1) && b_sub_ref0)
    (write_ref h 0 0 ;> write_ref h 0 4 ;> write_ref h 0 8 ;> write_ref h 0 12) ;>
  each (fun i => cavlc_mb8x8_mvd h 0 i) (seqZ 0 4).

Definition write_b_8x8 (h : x264_t) : S -> S :=
  ue 22 ;>
  each (fun i => ue (tbl sub_mb_type_b_to_golomb (i_sub_partition h i))) (seqZ 0 4) ;>
  each (fun i => when (i2b (tbl2 x264_mb_partition_listX_table 0 (i_sub_partition h i))) (write_ref h 0 (i*4))) (seqZ 0 4) ;>
  each (fun i => when (i2b (tbl2 x264_mb_partition_listX_table 1 (i_sub_partition h i))) (write_ref h 1 (i*4))) (seqZ 0 4) ;>
  each (fun i => cavlc_mb8x8_mvd h 0 i) (seqZ 0 4) ;>
  each (fun i => cavlc_mb8x8_mvd h 1 i) (seqZ 0 4).

(** A B macroblock of one or two partitions. *)
Definition write_b (h : x264_t) : S -> S :=
  let b_list i_list i :=
    i2b (tbl2 (if i_list =? 0 then x264_mb_type_list0_table else x264_mb_type_list1_table) (i_type h) i) in
  ue (tbl2 mb_type_b_to_golomb (i_partition h - D_16x8) (i_type h - B_L0_L0)) ;>
  each (fun i_list =>
      when (i2b (i_fref h i_list - 1))
        (if i_partition h =? D_16x16 then
           when (b_list i_list 0) (write_ref h i_list 0)
         else if i_partition h =? D_16x8 then
           when (b_list i_list 0) (write_ref h i_list 0) ;>
           when (b_list i_list 1) (write_ref h i_list 8)
         else if i_partition h =? D_8x16 then
           when (b_list i_list 0) (write_ref h i_list 0) ;>
           when (b_list i_list 1) (write_ref h i_list 4)
         else fun s => s))
    (seqZ 0 2) ;>
  each (fun i_list =>
      if i_partition h =? D_16x16 then
        when (b_list i_list 0) (cavlc_mb_mvd h i_list 0 4)
      else if i_partition h =? D_16x8 then
        when (b_list i_list 0) (cavlc_mb_mvd h i_list 0 4) ;>
        when (b_list i_list 1) (cavlc_mb_mvd h i_list 8 4)
      else if i_partition h =? D_8x16 then
        when (b_list i_list 0) (cavlc_mb_mvd h i_list 0 2) ;>
        when (b_list i_list 1) (cavlc_mb_mvd h i_list 4 2)
      else fun s => s)
    (seqZ 0 2).

(** Type, prediction and motion vectors. *)
Definition write_mb_pred (h : x264_t) (offset : Z) : S -> S :=
  let i_mb_type := i_type h in
  if (i_mb_type =? I_4x4) || (i_mb_type =? I_8x8) then
    let di := if i_mb_type =? I_8x8 then 4 else 1 in
    ue (offset + 0) ;>
    when (b_transform_8x8_mode h) (u1 (b_transform_8x8 h)) ;>
    each (fun i => write_intra4x4_mode h (i * di)) (seqZ 0 (16 / di)) ;>
    ue (tbl x264_mb_pred_mode8x8c_fix (i_chroma_pred_mode h))
  else if i_mb_type =? I_16x16 then
    ue (offset + 1 + tbl x264_mb_pred_mode16x16_fix (i_intra16x16_pred_mode h) +
        i_cbp_chroma h * 4 + (if i_cbp_luma h =? 0 then 0 else 12)) ;>
    ue (tbl x264_mb_pred_mode8x8c_fix (i_chroma_pred_mode h))
  else if i_mb_type =? P_L0 then write_p_l0 h
  else if i_mb_type =? P_8x8 then write_p_8x8 h
  else if i_mb_type =? B_8x8 then write_b_8x8 h
  else if negb (i_mb_type =? B_DIRECT) then write_b h
  else ue 0.

Definition write_cbp (h : x264_t) : S -> S :=
  let i_mb_type := i_type h in
  let cbp := (i_cbp_chroma h << 4) .| i_cbp_luma h in
  (if (i_mb_type =? I_4x4) || (i_mb_type =? I_8x8) then ue (tbl intra4x4_cbp_to_golomb cbp)
   else if negb (i_mb_type =? I_16x16) then ue (tbl inter_cbp_to_golomb cbp)
   else fun s => s) ;>
  when (x264_mb_transform_8x8_allowed h && i2b (i_cbp_luma h)) (u1 (b_transform_8x8 h)).

Definition write_residual (h : x264_t) (s : S) : option (x264_t * S) :=
  let luma :=
    if i_type h =? I_16x16 then
      let '(h, s) := cavlc_qp_delta h s in
      match block_residual_write_cavlc h s DCT_LUMA_DC 24 (luma16x16_dc h) 16 with
      | None => None
      | Some s =>
          if i2b (i_cbp_luma h) then each_h (write_counted_block DCT_LUMA_AC 1 15) (seqZ 0 16) h s
          else Some (h, s)
      end
    else if i2b (i_cbp_luma h .| i_cbp_chroma h) then
      let '(h, s) := cavlc_qp_delta h s in
      x264_macroblock_luma_write_cavlc h s 0 3
    else Some (h, s) in
  match luma with
  | None => None
  | Some (h, s) =>
      if i2b (i_cbp_chroma h) then
        match block_residual_write_cavlc h s DCT_CHROMA_DC 25 (chroma_dc h 0) 4 with
        | None => None
        | Some s =>
            match block_residual_write_cavlc h s DCT_CHROMA_DC 26 (chroma_dc h 1) 4 with
            | None => None
            | Some s =>
                if i2b (i_cbp_chroma h .& 2)
                then each_h (write_counted_block DCT_CHROMA_AC 1 15) (seqZ 16 8) h s
                else Some (h, s)
            end
        end
      else Some (h, s)
  end.
End Encoder.

(** ** The two functions that are compiled from it *)

(** The source and reconstructed planes of the macroblock, by offset. *)
Record mb_pic := MbPic { p_fenc : Z -> Z -> Z; p_fdec : Z -> Z -> Z }.
Record frame_stat := FrameStat { i_mv_bits : Z; i_tex_bits : Z }.
Definition FENC_STRIDE := 16.
Definition FDEC_STRIDE := 32.

(** The 4x4 blocks of a macroblock in the two buffers. *)
Definition block_idx_xy_fenc : list Z :=
  [ 0*4 + 0*4*FENC_STRIDE; 1*4 + 0*4*FENC_STRIDE;
    0*4 + 1*4*FENC_STRIDE; 1*4 + 1*4*FENC_STRIDE;
    2*4 + 0*4*FENC_STRIDE; 3*4 + 0*4*FENC_STRIDE;
    2*4 + 1*4*FENC_STRIDE; 3*4 + 1*4*FENC_STRIDE;
    0*4 + 2*4*FENC_STRIDE; 1*4 + 2*4*FENC_STRIDE;
    0*4 + 3*4*FENC_STRIDE; 1*4 + 3*4*FENC_STRIDE;
    2*4 + 2*4*FENC_STRIDE; 3*4 + 2*4*FENC_STRIDE;
    2*4 + 3*4*FENC_STRIDE; 3*4 + 3*4*FENC_STRIDE ].
Definition block_idx_xy_fdec : list Z :=
  [ 0*4 + 0*4*FDEC_STRIDE; 1*4 + 0*4*FDEC_STRIDE;
    0*4 + 1*4*FDEC_STRIDE; 1*4 + 1*4*FDEC_STRIDE;
    2*4 + 0*4*FDEC_STRIDE; 3*4 + 0*4*FDEC_STRIDE;
    2*4 + 1*4*FDEC_STRIDE; 3*4 + 1*4*FDEC_STRIDE;
    0*4 + 2*4*FDEC_STRIDE; 1*4 + 2*4*FDEC_STRIDE;
    0*4 + 3*4*FDEC_STRIDE; 1*4 + 3*4*FDEC_STRIDE;
    2*4 + 2*4*FDEC_STRIDE; 3*4 + 2*4*FDEC_STRIDE;
    2*4 + 3*4*FDEC_STRIDE; 3*4 + 3*4*FDEC_STRIDE ].

(** [h->mc.copy] of a block of [w] by [n] pixels from [p_fenc] to [p_fdec]. *)
Definition mc_copy (w n : nat) (dst src : Z -> Z) : Z -> Z :=
  for_ n 0 (fun y => for_ w 0 (fun x dst => upd dst (y * FDEC_STRIDE + x) (src (y * FENC_STRIDE + x)))) dst.

(** [memcpy( s->p + off, ... )] and [s->p += n]. *)
Definition bs_memcpy (s : bs_t) (off : Z) (l : list Z) : bs_t :=
  {| p_start := p_start s; p := p s; p_end := p_end s; cur_bits := cur_bits s; i_left := i_left s;
     i_bits_encoded := i_bits_encoded s; bs_mem := st_bytes (bs_mem s) (p s + off) l |}.
Definition bs_advance (s : bs_t) (n : Z) : bs_t :=
  {| p_start := p_start s; p := p s + n; p_end := p_end s; cur_bits := cur_bits s; i_left := i_left s;
     i_bits_encoded := i_bits_encoded s; bs_mem := bs_mem s |}.

Definition write_pcm_chroma (src : Z -> Z) : bs_t -> bs_t :=
  for_ 8 0 (fun i s => bs_memcpy s (i * 8) (src <$> seqZ (i * FENC_STRIDE) 8)) ;>
  (fun s => bs_advance s 64).

Definition write_pcm (WORD_SIZE : Z) (pic : mb_pic) : bs_t -> bs_t :=
  bs_align_0 WORD_SIZE ;>
  (fun s => bs_memcpy s 0 (p_fenc pic 0 <$> seqZ 0 256)) ;>
  (fun s => bs_advance s 256) ;>
  write_pcm_chroma (p_fenc pic 1) ;>
  write_pcm_chroma (p_fenc pic 2).

Definition copy_pcm (pic : mb_pic) : mb_pic :=
  MbPic (p_fenc pic) (fun plane =>
    if plane =? 0 then mc_copy 16 16 (p_fdec pic 0) (p_fenc pic 0)
    else if (plane =? 1) || (plane =? 2) then mc_copy 8 8 (p_fdec pic plane) (p_fenc pic plane)
    else p_fdec pic plane).

(** With [RDO_SKIP_BS] off. *)
Definition x264_macroblock_write_cavlc (WORD_SIZE : Z) (h : x264_t) (pic : mb_pic) (stat : frame_stat) (s : bs_t)
    : option (x264_t * mb_pic * frame_stat * bs_t) :=
  let sink := bs_sink WORD_SIZE in
  let i_mb_pos_start := bs_pos WORD_SIZE s in
  match i_mb_i_offset h with
  | None => Some (h, pic, stat, s)
  | Some offset =>
      let s := write_field_flag h s in
      if i_type h =? I_PCM then
        let s := bs_write_ue WORD_SIZE s (offset + 25) in
        let i_mb_pos_tex := bs_pos WORD_SIZE s in
        let mv := i_mv_bits stat + (i_mb_pos_tex - i_mb_pos_start) in
        let s := write_pcm WORD_SIZE pic s in
        let tex := i_tex_bits stat + (bs_pos WORD_SIZE s - i_mb_pos_tex) in
        Some (h, copy_pcm pic, FrameStat mv tex, s)
      else
        let s := write_mb_pred h offset s in
        let i_mb_pos_tex := bs_pos WORD_SIZE s in
        let mv := i_mv_bits stat + (i_mb_pos_tex - i_mb_pos_start) in
        match write_residual h (write_cbp h s) with
        | None => None
        | Some (h, s) =>
            let tex := i_tex_bits stat + (bs_pos WORD_SIZE s - i_mb_pos_tex) in
            Some (h, pic, FrameStat mv tex, s)
        end
  end.

(** With [RDO_SKIP_BS] on: encoder/rdo.c renames it to [x264_macroblock_size_cavlc]. *)
Definition x264_macroblock_size_cavlc (h : x264_t) (s : Z) : option (x264_t * Z) :=
  let sink := size_sink in
  match i_mb_i_offset h with
  | None => Some (h, s)
  | Some offset => write_residual h (write_cbp h (write_mb_pred h offset (write_field_flag h s)))
  end.


(** ** Sizes of parts of a macroblock, for rate distortion decisions

    [s.i_bits_encoded] is the state; the sizes leave out what does not change between
    the candidates that are compared. *)
Definition PIXEL_8x8 := 3.
Definition PIXEL_8x4 := 4.
Definition PIXEL_4x4 := 6.
(** Width and height. *)
Definition x264_pixel_size : list (Z * Z) := [ (16,16); (16,8); (8,16); (8,8); (8,4); (4,8); (4,4) ].

(** The motion vectors of the part; [None] for a macroblock type that has none. *)
Definition partition_mvd_size (h : x264_t) (i8 : Z) : option Z :=
  let sink := size_sink in
  let width := 4 >> b2i (i_partition h =? D_8x16) in
  if i_type h =? P_8x8 then Some (cavlc_mb8x8_mvd h 0 i8 0)
  else if i_type h =? P_L0 then Some (cavlc_mb_mvd h 0 (4*i8) width 0)
  else if (i_type h >? B_DIRECT) && (i_type h <? B_8x8) then
    Some ((when (i2b (tbl2 x264_mb_type_list0_table (i_type h) (b2i (i2b i8)))) (cavlc_mb_mvd h 0 (4*i8) width) ;>
           when (i2b (tbl2 x264_mb_type_list1_table (i_type h) (b2i (i2b i8)))) (cavlc_mb_mvd h 1 (4*i8) width)) 0)
  else if i_type h =? B_8x8 then Some ((cavlc_mb8x8_mvd h 0 i8 ;> cavlc_mb8x8_mvd h 1 i8) 0)
  else None.

(** The luma and chroma blocks of one quarter. *)
Definition quarter_size (h : x264_t) (s i8 : Z) : option (x264_t * Z) :=
  let sink := size_sink in
  match x264_macroblock_luma_write_cavlc h s i8 i8 with
  | Some (h, s) => each_h (write_counted_block DCT_CHROMA_AC 1 15) [16 + i8; 20 + i8] h s
  | None => None
  end.

Definition x264_partition_size_cavlc (h : x264_t) (i8 i_pixel : Z) : option (x264_t * Z) :=
  match partition_mvd_size h i8 with
  | None => Some (h, 0)
  | Some s =>
      if i_pixel <? PIXEL_8x8 then
        match quarter_size h s i8 with
        | Some (h, s) => quarter_size h s (i8 + (snd (nth (Z.to_nat i_pixel) x264_pixel_size (0, 0)) >> 3))
        | None => None
        end
      else quarter_size h s i8
  end.

Definition x264_subpartition_size_cavlc (h : x264_t) (i4 i_pixel : Z) : option (x264_t * Z) :=
  let sink := size_sink in
  let b_8x4 := b2i (i_pixel =? PIXEL_8x4) in
  let s := cavlc_mb_mvd h 0 i4 (1 + b_8x4) 0 in
  match write_counted_block DCT_LUMA_4x4 0 16 h s i4 with
  | Some (h, s) =>
      if negb (i_pixel =? PIXEL_4x4) then write_counted_block DCT_LUMA_4x4 0 16 h s (i4 + (2 - b_8x4)) else Some (h, s)
  | None => None
  end.

Definition cavlc_intra4x4_pred_size (h : x264_t) (i4 i_mode : Z) : Z :=
  if x264_mb_predict_intra4x4_mode h i4 =? x264_mb_pred_mode4x4_fix i_mode then 1 else 4.

Definition x264_partition_i8x8_size_cavlc (h : x264_t) (i8 i_mode : Z) : option (x264_t * Z) :=
  let sink := size_sink in
  let s := cavlc_intra4x4_pred_size h (4*i8) i_mode in
  let h := set_luma4x4 h (zigzag_interleave_8x8_cavlc (luma4x4 h) i8 (luma8x8 h i8)) in
  each_h (fun h s i4 => write_counted_block DCT_LUMA_4x4 0 16 h s (i4+i8*4)) (seqZ 0 4) h s.

Definition x264_partition_i4x4_size_cavlc (h : x264_t) (i4 i_mode : Z) : option (x264_t * Z) :=
  let sink := size_sink in
  write_counted_block DCT_LUMA_4x4 0 16 h (cavlc_intra4x4_pred_size h i4 i_mode) i4.

Definition x264_i8x8_chroma_size_cavlc (h : x264_t) : option (x264_t * Z) :=
  let sink := size_sink in
  let s := bs_size_ue (tbl x264_mb_pred_mode8x8c_fix (i_chroma_pred_mode h)) in
  if i2b (i_cbp_chroma h) then
    match block_residual_write_cavlc h s DCT_CHROMA_DC 25 (chroma_dc h 0) 4 with
    | None => None
    | Some s =>
        match block_residual_write_cavlc h s DCT_CHROMA_DC 26 (chroma_dc h 1) 4 with
        | None => None
        | Some s =>
            if i_cbp_chroma h =? 2
            then each_h (write_counted_block DCT_CHROMA_AC 1 15) (seqZ 16 8) h s
            else Some (h, s)
        end
    end
  else Some (h, s).
