(* ===== verification/MbLayer.v ===== *)
(** * The macroblock layer of the H.264 standard

    Tables 7.3.5, 7.3.5.1 to 7.3.5.3 with the macroblock types of clause 7.4.5 as a parser
    of CAVLC data, written independently of the encoder. *)
From S2P Require Import Prelude Bs Sink Syntax Vlc Mb Cavlc.

(** What a macroblock type says (tables 7-11, 7-13 and 7-14). A partition uses one or
    both reference lists. *)
Inductive mb_kind :=
  | K_NxN
  | K_16x16 (mode cbp : Z)
  | K_PCM
  | K_Inter (shape : Z) (lists : list (bool * bool))   (* shape 0: 16x16, 1: 16x8, 2: 8x16 *)
  | K_P8x8 (ref0 : bool)
  | K_B8x8
  | K_Direct.

Local Abbreviation L0 := (true, false).
Local Abbreviation L1 := (false, true).
Local Abbreviation Bi := (true, true).

Definition intra_kind (v : Z) : option mb_kind :=
  if v =? 0 then Some K_NxN
  else if v =? 25 then Some K_PCM
  else if (1 <=? v) && (v <? 25) then
    Some (K_16x16 ((v - 1) mod 4) (16 * ((v - 1) / 4 mod 3) + (if v <? 13 then 0 else 15)))
  else None.
Definition p_kinds : list mb_kind :=
  [ K_Inter 0 [L0]; K_Inter 1 [L0; L0]; K_Inter 2 [L0; L0]; K_P8x8 false; K_P8x8 true ].
Definition b_kinds : list mb_kind :=
  [ K_Direct; K_Inter 0 [L0]; K_Inter 0 [L1]; K_Inter 0 [Bi];
    K_Inter 1 [L0; L0]; K_Inter 2 [L0; L0]; K_Inter 1 [L1; L1]; K_Inter 2 [L1; L1];
    K_Inter 1 [L0; L1]; K_Inter 2 [L0; L1]; K_Inter 1 [L1; L0]; K_Inter 2 [L1; L0];
    K_Inter 1 [L0; Bi]; K_Inter 2 [L0; Bi]; K_Inter 1 [L1; Bi]; K_Inter 2 [L1; Bi];
    K_Inter 1 [Bi; L0]; K_Inter 2 [Bi; L0]; K_Inter 1 [Bi; L1]; K_Inter 2 [Bi; L1];
    K_Inter 1 [Bi; Bi]; K_Inter 2 [Bi; Bi]; K_B8x8 ].

Definition kind_of_type (slice v : Z) : option mb_kind :=
  let inter := if slice =? 0 then p_kinds else if slice =? 1 then b_kinds else [] in
  match inter !! Z.to_nat v with
  | Some k => Some k
  | None => intra_kind (v - Z.of_nat (length inter))
  end.

(** Sub-macroblock types (tables 7-17 and 7-18): shape 0: 8x8, 1: 8x4, 2: 4x8, 3: 4x4,
    4: direct. *)
Definition sub_type : Type := Z * (bool * bool).
Definition p_subs : list sub_type := [ (0, L0); (1, L0); (2, L0); (3, L0) ].
Definition b_subs : list sub_type :=
  [ (4, (false, false)); (0, L0); (0, L1); (0, Bi); (1, L0); (2, L0); (1, L1); (2, L1); (1, Bi); (2, Bi);
    (3, L0); (3, L1); (3, Bi) ].

Definition uses (list : Z) (ls : bool * bool) : bool := if list =? 0 then fst ls else snd ls.

(** The partitions of a macroblock and of its quarter [i]: first 4x4 block and width. *)
Definition part_blocks (shape : Z) : list (Z * Z) :=
  if shape =? 0 then [(0, 4)] else if shape =? 1 then [(0, 4); (8, 4)] else [(0, 2); (4, 2)].
Definition sub_blocks (i shape : Z) : list (Z * Z) :=
  if shape =? 0 then [(4 * i, 2)]
  else if shape =? 1 then [(4 * i, 2); (4 * i + 2, 2)]
  else if shape =? 2 then [(4 * i, 1); (4 * i + 1, 1)]
  else if shape =? 3 then [(4 * i, 1); (4 * i + 1, 1); (4 * i + 2, 1); (4 * i + 3, 1)]
  else [].

Definition used_parts (list shape : Z) (lists : Datatypes.list (bool * bool)) : Datatypes.list (Z * Z) :=
  fst <$> List.filter (fun p => uses list (snd p)) (zip (part_blocks shape) lists).
Definition used_subs (list : Z) (subs : Datatypes.list sub_type) : Datatypes.list (Z * sub_type) :=
  List.filter (fun p => uses list (snd (snd p))) (zip (seqZ 0 4) subs).

(** The blocks for which a reference index, and a motion vector, is coded for a list. *)
Definition ref_blocks (k : mb_kind) (subs : list sub_type) (list : Z) : Datatypes.list Z :=
  match k with
  | K_Inter shape lists => fst <$> used_parts list shape lists
  | K_P8x8 _ | K_B8x8 => (fun p => 4 * fst p) <$> used_subs list subs
  | _ => []
  end.
Definition mv_blocks (k : mb_kind) (subs : list sub_type) (list : Z) : Datatypes.list (Z * Z) :=
  match k with
  | K_Inter shape lists => used_parts list shape lists
  | K_P8x8 _ | K_B8x8 => mjoin ((fun p => sub_blocks (fst p) (fst (snd p))) <$> used_subs list subs)
  | _ => []
  end.

(** ** The parser *)

(** What a decoder knows before it reads a macroblock. [c_total_coeff] are the counts of
    the neighbouring blocks, with 0x80 for a macroblock that does not exist, at the
    positions of a grid of eight columns whose point 12 is the first block (the grid of
    [x264_scan8]). *)
Record mb_context := MbContext {
  c_slice : Z; c_transform_8x8_mode : bool; c_direct_8x8_inference : bool;
  c_num_ref : Z -> Z; c_field_flag : bool; c_qp : Z; c_total_coeff : Z -> Z
}.

Record mb_pred := MbPred {
  m_t8x8 : bool;
  m_modes : list (option Z);          (* [None]: the predicted mode; else the remaining mode *)
  m_chroma_mode : Z;
  m_subs : list sub_type;
  m_refs0 : list Z; m_refs1 : list Z;
  m_mvds0 : list (Z * Z); m_mvds1 : list (Z * Z)
}.
Record macroblock := Macroblock {
  m_field : bool; m_kind : mb_kind; m_pred : mb_pred;
  m_cbp : Z; m_transform_8x8 : bool; m_qp : Z;
  m_luma_dc : list Z; m_luma : list (list Z); m_chroma_dc : list (list Z); m_chroma : list (list Z)
}.

Definition read_mode : parser (option Z) :=
  get prev from pflag; if prev then pret None else get rem from pu 3; pret (Some rem).
Definition read_sub (table : list sub_type) : parser sub_type :=
  get v from read_ue; match table !! Z.to_nat v with Some t => pret t | None => pfail end.
Definition read_ref (num_ref : Z) : parser Z := pwhen (num_ref >? 1) (read_te (num_ref - 1)) 0.
Definition read_mvd : parser (Z * Z) := get x from read_se; get y from read_se; pret (x, y).

Definition read_motion (num_ref : Z -> Z) (k : mb_kind) : parser mb_pred :=
  get subs from match k with
                | K_P8x8 _ => peach (fun _ => read_sub p_subs) (seqZ 0 4)
                | K_B8x8 => peach (fun _ => read_sub b_subs) (seqZ 0 4)
                | _ => pret []
                end;
  let num l := match k with K_P8x8 true => 1 | _ => num_ref l end in
  get r0 from peach (fun _ => read_ref (num 0)) (ref_blocks k subs 0);
  get r1 from peach (fun _ => read_ref (num 1)) (ref_blocks k subs 1);
  get m0 from peach (fun _ => read_mvd) (mv_blocks k subs 0);
  get m1 from peach (fun _ => read_mvd) (mv_blocks k subs 1);
  pret (MbPred false [] 0 subs r0 r1 m0 m1).

Definition read_mb_pred (c : mb_context) (k : mb_kind) : parser mb_pred :=
  match k with
  | K_NxN =>
      get t8x8 from pwhen (c_transform_8x8_mode c) pflag false;
      get modes from peach (fun _ => read_mode) (seqZ 0 (if t8x8 then 4 else 16));
      get chroma from read_ue;
      pret (MbPred t8x8 modes chroma [] [] [] [] [])
  | K_16x16 _ _ => get chroma from read_ue; pret (MbPred false [] chroma [] [] [] [] [])
  | K_PCM => pfail
  | K_Direct => pret (MbPred false [] 0 [] [] [] [] [])
  | _ => read_motion (c_num_ref c) k
  end.

(** Table 9-4 for 4:2:0 video: intra and inter patterns by code number. *)
Definition me_intra : list Z :=
  [ 47; 31; 15; 0; 23; 27; 29; 30; 7; 11; 13; 14; 39; 43; 45; 46;
    16; 3; 5; 10; 12; 19; 21; 26; 28; 35; 37; 42; 44; 1; 2; 4;
    8; 17; 18; 20; 24; 6; 9; 22; 25; 32; 33; 34; 36; 40; 38; 41 ].
Definition me_inter : list Z :=
  [ 0; 16; 1; 2; 4; 8; 32; 3; 5; 10; 12; 15; 47; 7; 11; 13;
    14; 6; 9; 31; 35; 37; 42; 44; 33; 34; 36; 40; 39; 43; 45; 46;
    17; 18; 20; 24; 19; 21; 26; 28; 23; 27; 29; 30; 22; 25; 38; 41 ].

Definition is_NxN (k : mb_kind) : bool := match k with K_NxN => true | _ => false end.
Definition is_16x16 (k : mb_kind) : bool := match k with K_16x16 _ _ => true | _ => false end.
Definition read_cbp (k : mb_kind) : parser Z :=
  match k with
  | K_16x16 _ cbp => pret cbp
  | _ =>
      get v from read_ue;
      match (if is_NxN k then me_intra else me_inter) !! Z.to_nat v with Some cbp => pret cbp | None => pfail end
  end.

(** [NoSubMbPartSizeLessThan8x8Flag], and the rule for direct macroblocks. *)
Definition transform_8x8_possible (c : mb_context) (k : mb_kind) (subs : list sub_type) : bool :=
  match k with
  | K_NxN | K_16x16 _ _ | K_PCM => false
  | K_Direct => c_direct_8x8_inference c
  | K_Inter _ _ => true
  | K_P8x8 _ | K_B8x8 => forallb (fun t => (fst t =? 0) || ((fst t =? 4) && c_direct_8x8_inference c)) subs
  end.

(** The residual of a block: its [nC] is predicted from the blocks to the left and
    above (9.2.1). *)
Definition nC_table (n : Z) : Z := if n <? 2 then 0 else if n <? 4 then 1 else if n <? 8 then 2 else 3.
Definition predicted_nC (counts : Z -> Z) (idx : Z) : Z :=
  nC_table (std_nC (counts (scan8 idx - 1)) (counts (scan8 idx - 8))).
Definition total_coeff (l : list Z) : Z := Z.of_nat (length (List.filter (fun c => negb (c =? 0)) l)).

Fixpoint read_blocks (size : Z) (coded : Z -> bool) (idxs : list Z) (counts : Z -> Z)
    : parser (list (list Z) * (Z -> Z)) :=
  match idxs with
  | [] => pret ([], counts)
  | i :: idxs =>
      get l from pwhen (coded i) (read_residual (predicted_nC counts i) size) (replicate (Z.to_nat size) 0);
      get r from read_blocks size coded idxs (upd counts (scan8 i) (total_coeff l));
      pret (l :: fst r, snd r)
  end.

Definition read_macroblock (c : mb_context) : parser macroblock :=
  get field from pwhen (c_field_flag c) pflag false;
  get v from read_ue;
  match kind_of_type (c_slice c) v with
  | None => pfail
  | Some k =>
      get p from read_mb_pred c k;
      get cbp from read_cbp k;
      get t8x8 from pwhen (transform_8x8_possible c k (m_subs p) && c_transform_8x8_mode c && negb (cbp mod 16 =? 0))
        pflag (m_t8x8 p);
      get delta from pwhen (is_16x16 k || negb (cbp =? 0)) read_se 0;
      get dc from pwhen (is_16x16 k) (read_residual (predicted_nC (c_total_coeff c) 0) 16) [];
      get luma from read_blocks (if is_16x16 k then 15 else 16) (fun i => Z.testbit cbp (i / 4)) (seqZ 0 16) (c_total_coeff c);
      get chroma_dc from peach (fun _ => pwhen (negb (cbp / 16 =? 0)) (read_residual 4 4) (replicate 4 0)) (seqZ 0 2);
      get chroma from read_blocks 15 (fun _ => cbp / 16 =? 2) (seqZ 16 8) (snd luma);
      pret (Macroblock field k p cbp t8x8 ((c_qp c + delta + 52) mod 52) dc (fst luma) chroma_dc (fst chroma))
  end.

