(* ===== verification/MbRoundtrip.v ===== *)
(** * Reading back the macroblocks x264 writes

    The parser of MbLayer recovers what CavlcMb writes, in every sink. *)
From S2P Require Import Prelude Bs Sink Syntax Vlc Quant Mb Cavlc CavlcMb MbLayer.

Local Abbreviation L0 := (true, false).

(** ** What the parser sees of the encoder's state *)
Definition shape_seen (h : x264_t) : Z :=
  if i_partition h =? D_16x16 then 0 else if i_partition h =? D_16x8 then 1 else 2.
Definition lists_seen (h : x264_t) : list (bool * bool) :=
  (fun i => (i2b (tbl2 x264_mb_type_list0_table (i_type h) i), i2b (tbl2 x264_mb_type_list1_table (i_type h) i)))
    <$> seqZ 0 (if i_partition h =? D_16x16 then 1 else 2).
Definition ref_at (h : x264_t) (list idx : Z) : Z := cache_ref h list (scan8 idx).
Definition mvd_at (h : x264_t) (list : Z) (b : Z * Z) : Z * Z :=
  let mv := cache_mv h list (scan8 (fst b)) in
  let mvp := x264_mb_predict_mv h list (fst b) (snd b) in
  (mv.1 - mvp.1, mv.2 - mvp.2).

Definition all_refs_0 (h : x264_t) : bool := forallb (fun i => ref_at h 0 i =? 0) [0; 4; 8; 12].
Definition kind_seen (h : x264_t) : mb_kind :=
  if (i_type h =? I_4x4) || (i_type h =? I_8x8) then K_NxN
  else if i_type h =? I_16x16 then
    K_16x16 (tbl x264_mb_pred_mode16x16_fix (i_intra16x16_pred_mode h)) (16 * i_cbp_chroma h + i_cbp_luma h)
  else if i_type h =? I_PCM then K_PCM
  else if i_type h =? P_8x8 then K_P8x8 (all_refs_0 h)
  else if i_type h =? B_8x8 then K_B8x8
  else if i_type h =? B_DIRECT then K_Direct
  else K_Inter (shape_seen h) (lists_seen h).

(** The shapes and lists of [i_sub_partition]. *)
Definition sub_seen (v : Z) : sub_type :=
  if v =? D_DIRECT_8x8 then (4, (false, false))
  else (tbl [3; 1; 2; 0] (v mod 4), (negb (v / 4 =? 1), negb (v / 4 =? 0))).
Definition subs_seen (h : x264_t) : list sub_type :=
  if (i_type h =? P_8x8) || (i_type h =? B_8x8) then (fun i => sub_seen (i_sub_partition h i)) <$> seqZ 0 4 else [].

Definition mode_at (h : x264_t) (i : Z) : Z := x264_mb_pred_mode4x4_fix (intra4x4_pred_mode h (scan8 i)).
Definition mode_code (h : x264_t) (i : Z) : option Z :=
  let pred := x264_mb_predict_intra4x4_mode h i in
  if pred =? mode_at h i then None else Some (mode_at h i - b2i (mode_at h i >? pred)).

Definition pred_seen (h : x264_t) : mb_pred :=
  let k := kind_seen h in
  let nxn := is_NxN k in
  let di := if i_type h =? I_8x8 then 4 else 1 in
  MbPred (nxn && i2b (b_transform_8x8 h))
    (if nxn then (fun i => mode_code h (i * di)) <$> seqZ 0 (16 / di) else [])
    (if nxn || is_16x16 k then tbl x264_mb_pred_mode8x8c_fix (i_chroma_pred_mode h) else 0)
    (subs_seen h)
    (ref_at h 0 <$> ref_blocks k (subs_seen h) 0) (ref_at h 1 <$> ref_blocks k (subs_seen h) 1)
    (mvd_at h 0 <$> mv_blocks k (subs_seen h) 0) (mvd_at h 1 <$> mv_blocks k (subs_seen h) 1).

(** ** The prediction part *)
Lemma writes_mode h i : 0 <= x264_mb_predict_intra4x4_mode h i <= 8 -> 0 <= mode_at h i <= 8 ->
  writes (fun S sink => write_intra4x4_mode h i) read_mode (mode_code h i).
Proof.
  intros Hp Hm. unfold write_intra4x4_mode, mode_code. fold (mode_at h i).
  set (pred := x264_mb_predict_intra4x4_mode h i) in *. set (mode := mode_at h i) in *.
  destruct (Z.eqb_spec pred mode) as [E|E].
  - unfold read_mode. eapply writes_last; [by apply writes_flag|done].
  - set (v := mode - b2i (mode >? pred)).
    assert (0 <= v < 8) as Hv by (unfold v; destruct (Z.gtb_spec mode pred); cbn [b2i]; lia).
    destruct (writes_u 4 v) as (c & R & H); [lia|lia|]. exists (bits 4 v). split.
    + intros rest. change (bits 4 v) with (bits (1 + 3) v). rewrite bits_add.
      unfold read_mode, pflag, pbind at 1 2. rewrite <- app_assoc, Z.shiftr_div_pow2 by lia.
      change (2 ^ Z.of_nat 3) with 8. rewrite Z.div_small by lia. rewrite (read_u_bits 1) by done. cbn [pret i2b Z.eqb negb].
      unfold pbind, pu. by rewrite (read_u_bits 3) by (cbn; lia).
    + intros S sink R0 sim s c0 H0. apply (@sim_write _ _ _ _ _ sim s c0 4 v); [done|lia..].
Qed.

Lemma writes_mvd h l idx w : let mvd := mvd_at h l (idx, w) in
  -32767 <= mvd.1 <= 32767 -> -32767 <= mvd.2 <= 32767 ->
  writes (fun S sink => cavlc_mb_mvd h l idx w) read_mvd mvd.
Proof.
  intros mvd H1 H2. unfold cavlc_mb_mvd, read_mvd. eapply writes_seq; [by apply writes_se|].
  eapply writes_last; [by apply writes_se|done].
Qed.

Lemma writes_ref h l idx : 0 <= ref_at h l idx < i_fref h l -> i_fref h l <= 32 ->
  writes (fun S sink => write_ref h l idx) (read_ref (i_fref h l)) (ref_at h l idx).
Proof.
  intros Hr Hf. unfold write_ref, read_ref. fold (ref_at h l idx). destruct (Z.gtb_spec (i_fref h l) 1) as [H|H].
  - apply writes_te; lia.
  - assert (ref_at h l idx = 0) as E by lia. rewrite E. apply writes_te_0; lia.
Qed.

(** ** Motion *)
Definition mv_small (mv : Z * Z) : Prop := - 2 ^ 14 <= mv.1 < 2 ^ 14 /\ - 2 ^ 14 <= mv.2 < 2 ^ 14.

Lemma predict_mv_small h l idx w : In (idx, w) legal_blocks -> (forall p, 0 <= p < 40 -> mv_small (cache_mv h l p)) ->
  mv_small (x264_mb_predict_mv h l idx w).
Proof.
  intros Hl Hmv. destruct (legal_blocks_range idx w Hl) as (H1 & H2 & H3).
  assert (forall a b c, mv_small a -> mv_small b -> mv_small c -> mv_small (x264_median_mv a b c)) as HM.
  { intros a b c Ha Hb Hc. unfold mv_small in *. rewrite x264_median_mv_spec by (unfold mv_ok; lia).
    cbn [fst snd]. unfold median3. lia. }
  unfold x264_mb_predict_mv. cbv zeta. destruct (_ || _ || _); unfold predict_mv_count;
    repeat case_match; first [apply HM|idtac]; apply Hmv; lia.
Qed.

Lemma mvd_small h l b : In b legal_blocks -> (forall p, 0 <= p < 40 -> mv_small (cache_mv h l p)) ->
  -32767 <= (mvd_at h l b).1 <= 32767 /\ -32767 <= (mvd_at h l b).2 <= 32767.
Proof.
  destruct b as [idx w]. intros Hl Hmv. destruct (predict_mv_small h l idx w Hl Hmv) as [P1 P2].
  destruct (legal_blocks_range idx w Hl) as (H1 & _ & _).
  destruct (Hmv (scan8 idx)) as [M1 M2]; [lia|]. unfold mvd_at. cbn [fst snd]. lia.
Qed.

Definition write_mvds {S} {sink : BitSink S} (h : x264_t) (l : Z) (bs : list (Z * Z)) : S -> S :=
  each (fun b => cavlc_mb_mvd h l (fst b) (snd b)) bs.
Definition write_refs {S} {sink : BitSink S} (h : x264_t) (g : bool) (l : Z) (idxs : list Z) : S -> S :=
  when g (each (fun idx => write_ref h l idx) idxs).

Lemma writes_mvds h l bs : Forall (fun b => In b legal_blocks) bs -> (forall p, 0 <= p < 40 -> mv_small (cache_mv h l p)) ->
  writes (fun S sink => write_mvds h l bs) (peach (fun _ => read_mvd) bs) (mvd_at h l <$> bs).
Proof.
  intros HF Hmv. apply (writes_each (fun b S sink => cavlc_mb_mvd h l (fst b) (snd b)) (fun _ => read_mvd) (mvd_at h l)).
  eapply List.Forall_impl; [|exact HF]. intros [idx w] Hl. destruct (mvd_small h l _ Hl Hmv) as [H1 H2].
  by apply writes_mvd.
Qed.

Lemma peach_ret {A B} (r : A -> parser B) (g : A -> B) l rest :
  Forall (fun x => forall rest, r x rest = Some (g x, rest)) l -> peach r l rest = Some (g <$> l, rest).
Proof.
  intros HF. revert rest. induction HF as [|x l Hx _ IH]; intros rest; [done|]. cbn [peach fmap list_fmap].
  unfold pbind at 1. rewrite Hx. unfold pbind. by rewrite IH.
Qed.

Lemma writes_refs h g l num idxs : Forall (fun idx => 0 <= ref_at h l idx < num) idxs -> num <= 32 ->
  (g = true -> num = i_fref h l) -> (g = false -> num <= 1) ->
  writes (fun S sink => write_refs h g l idxs) (peach (fun _ => read_ref num) idxs) (ref_at h l <$> idxs).
Proof.
  intros HF Hn H1 H2. destruct g.
  - rewrite H1 in HF, Hn |- * by done. apply (writes_each (fun idx S sink => write_ref h l idx) (fun _ => read_ref (i_fref h l)) (ref_at h l)).
    eapply List.Forall_impl; [|exact HF]. intros idx Hi. by apply writes_ref.
  - eapply writes_same; [apply (writes_skip (ref_at h l <$> idxs))|done|]. intros rest.
    apply peach_ret. eapply List.Forall_impl; [|exact HF]. intros idx Hi rest'. cbv beta in Hi. unfold read_ref. specialize (H2 eq_refl).
    destruct (Z.gtb_spec num 1); [lia|]. cbn [pwhen]. unfold pret. do 2 f_equal. lia.
Qed.

(** The order of references and motion vectors that all inter types share. *)
Definition write_units {S} {sink : BitSink S} (h : x264_t) (g0 g1 : bool) (k : mb_kind) (subs : list sub_type) : S -> S :=
  write_refs h g0 0 (ref_blocks k subs 0) ;>
  write_refs h g1 1 (ref_blocks k subs 1) ;>
  write_mvds h 0 (mv_blocks k subs 0) ;>
  write_mvds h 1 (mv_blocks k subs 1).

(** The references a macroblock uses exist, and its vectors have their range. *)
Record motion_ok (h : x264_t) (k : mb_kind) (subs : list sub_type) : Prop := {
  mo_refs : forall l, l = 0 \/ l = 1 -> Forall (fun idx => 0 <= ref_at h l idx < i_fref h l) (ref_blocks k subs l);
  mo_num : forall l, i_fref h l <= 32;
  mo_blocks : forall l, Forall (fun b => In b legal_blocks) (mv_blocks k subs l);
  mo_mvs : forall l p, 0 <= p < 40 -> mv_small (cache_mv h l p)
}.

Definition num_of (h : x264_t) (k : mb_kind) (l : Z) : Z := match k with K_P8x8 true => 1 | _ => i_fref h l end.

Lemma writes_motion h k fsubs subs g0 g1 :
  writes fsubs match k with
               | K_P8x8 _ => peach (fun _ => read_sub p_subs) (seqZ 0 4)
               | K_B8x8 => peach (fun _ => read_sub b_subs) (seqZ 0 4)
               | _ => pret []
               end subs ->
  motion_ok h k subs ->
  (g0 = true -> num_of h k 0 = i_fref h 0) -> (g0 = false -> num_of h k 0 <= 1 \/ ref_blocks k subs 0 = []) ->
  (g1 = true -> num_of h k 1 = i_fref h 1) -> (g1 = false -> num_of h k 1 <= 1 \/ ref_blocks k subs 1 = []) ->
  (k = K_P8x8 true -> Forall (fun idx => ref_at h 0 idx = 0) (ref_blocks k subs 0) /\ ref_blocks k subs 1 = []) ->
  writes (fun S sink => fsubs S sink ;> write_units h g0 g1 k subs) (read_motion (i_fref h) k)
    (MbPred false [] 0 subs (ref_at h 0 <$> ref_blocks k subs 0) (ref_at h 1 <$> ref_blocks k subs 1)
      (mvd_at h 0 <$> mv_blocks k subs 0) (mvd_at h 1 <$> mv_blocks k subs 1)).
Proof.
  intros Hs [M1 M2 M3 M4] A0 B0 A1 B1 Hz. unfold read_motion.
  eapply writes_seq; [exact Hs|]. fold (num_of h k 0). fold (num_of h k 1).
  assert (forall l, l = 0 \/ l = 1 -> Forall (fun idx => 0 <= ref_at h l idx < num_of h k l) (ref_blocks k subs l)) as HR.
  { intros l Hl. destruct k as [| | | |[]| |]; cbn [num_of]; try by apply M1.
    destruct (Hz eq_refl) as [Hz0 Hz1]. destruct Hl as [-> | ->]; [|rewrite Hz1; constructor].
    eapply List.Forall_impl; [|exact Hz0]. intros idx E. cbv beta in E. lia. }
  assert (forall l, num_of h k l <= 32) as HN.
  { intros l. pose proof (M2 l). destruct k as [| | | |[]| |]; cbn [num_of]; lia. }
  assert (forall g l, l = 0 \/ l = 1 -> (g = true -> num_of h k l = i_fref h l) ->
    (g = false -> num_of h k l <= 1 \/ ref_blocks k subs l = []) ->
    writes (fun S sink => write_refs h g l (ref_blocks k subs l)) (peach (fun _ => read_ref (num_of h k l)) (ref_blocks k subs l))
      (ref_at h l <$> ref_blocks k subs l)) as HW.
  { intros g l Hl Ha Hb. destruct (ref_blocks k subs l) as [|idx idxs] eqn:E.
    - destruct g; [eapply writes_same; [apply writes_skip|done|done]|apply writes_skip].
    - apply writes_refs; [rewrite <- E; by apply HR|apply HN|done|]. intros Hg. destruct (Hb Hg); done. }
  unfold write_units. eapply writes_seq; [by apply HW; [left|..]|]. eapply writes_seq; [by apply HW; [right|..]|].
  eapply writes_seq; [apply writes_mvds; [apply M3|apply M4]|].
  eapply writes_last; [apply writes_mvds; [apply M3|apply M4]|done].
Qed.

(** ** Sub-macroblocks *)
Lemma write_mvds_app {S} {sink : BitSink S} h l a b s : write_mvds h l (a ++ b) s = write_mvds h l b (write_mvds h l a s).
Proof. apply fold_left_app. Qed.

Lemma sub_cases v : 0 <= v < 13 ->
  v = 0 \/ v = 1 \/ v = 2 \/ v = 3 \/ v = 4 \/ v = 5 \/ v = 6 \/ v = 7 \/ v = 8 \/ v = 9 \/ v = 10 \/ v = 11 \/ v = 12.
Proof. lia. Qed.

Definition sub_units (l i v : Z) : list (Z * Z) :=
  if uses l (snd (sub_seen v)) then sub_blocks i (fst (sub_seen v)) else [].

Lemma mb8x8_mvd_units {S} {sink : BitSink S} h l i s : l = 0 \/ l = 1 -> 0 <= i_sub_partition h i < 13 ->
  cavlc_mb8x8_mvd h l i s = write_mvds h l (sub_units l i (i_sub_partition h i)) s.
Proof.
  intros Hl Hv. unfold cavlc_mb8x8_mvd. set (v := i_sub_partition h i) in *.
  apply sub_cases in Hv. rewrite Z.add_0_r.
  destruct Hl as [-> | ->]; repeat destruct Hv as [Hv|Hv]; rewrite Hv; reflexivity.
Qed.

Lemma used_mv_blocks k l (v0 v1 v2 v3 : Z) : k = K_B8x8 \/ (exists ref0, k = K_P8x8 ref0) ->
  mv_blocks k (sub_seen <$> [v0; v1; v2; v3]) l = sub_units l 0 v0 ++ sub_units l 1 v1 ++ sub_units l 2 v2 ++ sub_units l 3 v3.
Proof.
  intros Hk. assert (mv_blocks k = mv_blocks K_B8x8) as -> by (destruct Hk as [-> | [ref0 ->]]; reflexivity).
  unfold mv_blocks, used_subs, sub_units. change (seqZ 0 4) with [0; 1; 2; 3]. cbn [fmap list_fmap zip_with List.filter snd].
  destruct (uses l (snd (sub_seen v0))), (uses l (snd (sub_seen v1))), (uses l (snd (sub_seen v2))), (uses l (snd (sub_seen v3)));
    cbn [fmap list_fmap mjoin list_join fst snd]; by rewrite ?app_nil_r.
Qed.

Lemma used_ref_blocks k l (v0 v1 v2 v3 : Z) : k = K_B8x8 \/ (exists ref0, k = K_P8x8 ref0) ->
  let ref i v := if uses l (snd (sub_seen v)) then [4 * i] else [] in
  ref_blocks k (sub_seen <$> [v0; v1; v2; v3]) l = ref 0 v0 ++ ref 1 v1 ++ ref 2 v2 ++ ref 3 v3.
Proof.
  intros Hk. assert (ref_blocks k = ref_blocks K_B8x8) as -> by (destruct Hk as [-> | [ref0 ->]]; reflexivity).
  cbv zeta. unfold ref_blocks, used_subs. change (seqZ 0 4) with [0; 1; 2; 3]. cbn [fmap list_fmap zip_with List.filter snd].
  destruct (uses l (snd (sub_seen v0))), (uses l (snd (sub_seen v1))), (uses l (snd (sub_seen v2))), (uses l (snd (sub_seen v3)));
    reflexivity.
Qed.

(** The motion vectors of the four quarters, in order. *)
Lemma each_mb8x8_mvd {S} {sink : BitSink S} h l k s : l = 0 \/ l = 1 -> k = K_B8x8 \/ (exists ref0, k = K_P8x8 ref0) ->
  (forall i, 0 <= i < 4 -> 0 <= i_sub_partition h i < 13) ->
  each (fun i => cavlc_mb8x8_mvd h l i) (seqZ 0 4) s =
  write_mvds h l (mv_blocks k ((fun i => sub_seen (i_sub_partition h i)) <$> seqZ 0 4) l) s.
Proof.
  intros Hl Hk Hv. change (seqZ 0 4) with [0; 1; 2; 3].
  change ((fun i => sub_seen (i_sub_partition h i)) <$> [0; 1; 2; 3]) with
    (sub_seen <$> [i_sub_partition h 0; i_sub_partition h 1; i_sub_partition h 2; i_sub_partition h 3]).
  rewrite used_mv_blocks, !write_mvds_app by done. unfold each. cbn [fold_left].
  rewrite !mb8x8_mvd_units by (done || (apply Hv; lia)). reflexivity.
Qed.

Lemma sub_units_legal l i v : 0 <= i < 4 -> Forall (fun b => In b legal_blocks) (sub_units l i v).
Proof.
  intros Hi. unfold sub_units. destruct (uses l _); [|constructor].
  assert (forallb (fun i => forallb (fun sh => forallb (fun b => existsb (fun b' => (fst b =? fst b') && (snd b =? snd b')) legal_blocks)
    (sub_blocks i sh)) [0; 1; 2; 3]) [0; 1; 2; 3] = true) as C by (vm_compute; reflexivity).
  rewrite forallb_forall in C. assert (In i [0; 1; 2; 3]) as Hin by (cbn; lia). specialize (C i Hin). cbv beta in C.
  rewrite forallb_forall in C. set (sh := fst (sub_seen v)).
  assert (In sh [0; 1; 2; 3] \/ sub_blocks i sh = []) as [Hs| ->]; [|clear Hin|constructor].
  { unfold sub_blocks. destruct (Z.eqb_spec sh 0), (Z.eqb_spec sh 1), (Z.eqb_spec sh 2), (Z.eqb_spec sh 3);
      [left; cbn; lia..|by right]. }
  specialize (C sh Hs). rewrite forallb_forall in C. apply List.Forall_forall. intros b Hb. specialize (C b Hb).
  apply existsb_exists in C as (b' & Hb' & E). apply andb_prop in E as [E1 E2].
  apply Z.eqb_eq in E1, E2. destruct b, b'. cbn [fst snd] in *. by subst.
Qed.

Lemma writes_sub (golomb : list Z) table v : 0 <= tbl golomb v < 255 -> table !! Z.to_nat (tbl golomb v) = Some (sub_seen v) ->
  writes (fun S sink s => sk_write_ue s (tbl golomb v)) (read_sub table) (sub_seen v).
Proof.
  intros Hr Ht. unfold read_sub. eapply writes_last; [by apply writes_ue|]. intros rest. cbv beta. by rewrite Ht.
Qed.

Lemma writes_p_subs h (Hv : forall i, 0 <= i < 4 -> 0 <= i_sub_partition h i < 4) :
  (b_psub8x8 h = false -> forall i, 0 <= i < 4 -> i_sub_partition h i = D_L0_8x8) ->
  writes (fun S sink => if b_psub8x8 h
      then each (fun i s => sk_write_ue s (tbl sub_mb_type_p_to_golomb (i_sub_partition h i))) (seqZ 0 4)
      else fun s => sk_write s 4 0xf)
    (peach (fun _ => read_sub p_subs) (seqZ 0 4)) ((fun i => sub_seen (i_sub_partition h i)) <$> seqZ 0 4).
Proof.
  intros Hp. destruct (b_psub8x8 h).
  - apply (writes_each (fun i S sink s => sk_write_ue s (tbl sub_mb_type_p_to_golomb (i_sub_partition h i))) (fun _ => read_sub p_subs)
      (fun i => sub_seen (i_sub_partition h i))).
    apply List.Forall_forall. intros i Hi. apply list_elem_of_In, elem_of_seqZ in Hi. specialize (Hv i ltac:(lia)).
    assert (i_sub_partition h i = 0 \/ i_sub_partition h i = 1 \/ i_sub_partition h i = 2 \/ i_sub_partition h i = 3) as HE by lia.
    destruct HE as [-> | [-> | [-> | ->]]]; apply writes_sub; vm_compute; done.
  - change ((fun i => sub_seen (i_sub_partition h i)) <$> seqZ 0 4) with
      (sub_seen <$> [i_sub_partition h 0; i_sub_partition h 1; i_sub_partition h 2; i_sub_partition h 3]).
    rewrite !Hp by (done || lia). exists (bits 4 15). split; [done|].
    intros S sink R sim s c H. apply (@sim_write _ _ _ _ _ sim s c 4 15); [done|lia..].
Qed.

Lemma writes_b_subs h (Hv : forall i, 0 <= i < 4 -> 0 <= i_sub_partition h i < 13) :
  writes (fun S sink => each (fun i s => sk_write_ue s (tbl sub_mb_type_b_to_golomb (i_sub_partition h i))) (seqZ 0 4))
    (peach (fun _ => read_sub b_subs) (seqZ 0 4)) ((fun i => sub_seen (i_sub_partition h i)) <$> seqZ 0 4).
Proof.
  apply (writes_each (fun i S sink s => sk_write_ue s (tbl sub_mb_type_b_to_golomb (i_sub_partition h i))) (fun _ => read_sub b_subs)
    (fun i => sub_seen (i_sub_partition h i))).
  apply List.Forall_forall. intros i Hi. apply list_elem_of_In, elem_of_seqZ in Hi. specialize (Hv i ltac:(lia)).
  apply sub_cases in Hv. repeat destruct Hv as [-> |Hv]; [..|rewrite Hv]; apply writes_sub; vm_compute; done.
Qed.

(** ** The macroblocks the encoder makes *)
Record mb_ok (h : x264_t) : Prop := {
  o_type : (In (i_type h) [I_4x4; I_8x8; I_16x16] /\ In (sh_i_type h) [SLICE_TYPE_P; SLICE_TYPE_B; SLICE_TYPE_I]) \/
    (In (i_type h) [P_L0; P_8x8] /\ sh_i_type h = SLICE_TYPE_P) \/
    (B_DIRECT <= i_type h <= B_8x8 /\ sh_i_type h = SLICE_TYPE_B);
  o_partition : i_type h = P_L0 \/ B_DIRECT < i_type h < B_8x8 ->
    In (i_partition h) [D_16x8; D_8x16] \/
    (i_partition h = D_16x16 /\ In (i_type h) [P_L0; B_L0_L0; B_L0_L0 + 4; B_L0_L0 + 8]);
  o_sub_p : i_type h = P_8x8 -> forall i, 0 <= i < 4 ->
    0 <= i_sub_partition h i < 4 /\ (b_psub8x8 h = false -> i_sub_partition h i = D_L0_8x8);
  o_sub_b : i_type h = B_8x8 -> forall i, 0 <= i < 4 ->
    In (i_sub_partition h i) [D_L0_8x8; D_L1_8x8; D_BI_8x8; D_DIRECT_8x8];
  o_refs : forall l, l = 0 \/ l = 1 ->
    Forall (fun idx => 0 <= ref_at h l idx < i_fref h l) (ref_blocks (kind_seen h) (subs_seen h) l);
  o_num : forall l, i_fref h l <= 32;
  o_mvs : forall l p, 0 <= p < 40 -> mv_small (cache_mv h l p);
  o_modes : (forall p, -1 <= intra4x4_pred_mode h p <= 11) /\ 
    (is_NxN (kind_seen h) = true -> forall i, 0 <= i < 16 -> 0 <= intra4x4_pred_mode h (scan8 i));
  o_intra : 0 <= i_intra16x16_pred_mode h <= 6 /\ 0 <= i_chroma_pred_mode h <= 6;
  o_transform : (b_transform_8x8 h = 0 \/ b_transform_8x8 h = 1) /\ (i_type h = I_4x4 -> b_transform_8x8 h = 0) /\
    (i_type h = I_8x8 -> b_transform_8x8 h = 1 /\ b_transform_8x8_mode h = true) /\
    (is_NxN (kind_seen h) = false -> b_transform_8x8 h = 1 -> x264_mb_transform_8x8_allowed h = true);
  o_field : b_interlaced h = 0 \/ b_interlaced h = 1;
  o_cbp : 0 <= i_cbp_luma h < 16 /\ 0 <= i_cbp_chroma h <= 2 /\ (i_type h = I_16x16 -> i_cbp_luma h = 0 \/ i_cbp_luma h = 15);
  o_qp : 0 <= i_qp h <= 51 /\ 0 <= i_last_qp h <= 51
}.

(** What a decoder knows before this macroblock. *)
Definition current_blocks : list Z := scan8 <$> seqZ 0 24.
Definition field_flag_present (h : x264_t) : bool :=
  b_mbaff h && (negb (i2b (i_mb_y h .& 1)) || IS_SKIP (mb_type h (i_mb_xy h - i_mb_stride h))).
Definition context_of (h : x264_t) : mb_context :=
  MbContext (sh_i_type h) (b_transform_8x8_mode h) (b_direct8x8_inference h) (i_fref h) (field_flag_present h) (i_last_qp h)
    (fun p => if existsb (Z.eqb p) current_blocks then 0 else non_zero_count h p).

Lemma mode_fix_range p : -1 <= p <= 11 -> -1 <= x264_mb_pred_mode4x4_fix p <= 8 /\ (0 <= p -> 0 <= x264_mb_pred_mode4x4_fix p).
Proof.
  intros Hp. assert (all_range (-1) 13 (fun p => (-1 <=? x264_mb_pred_mode4x4_fix p) && (x264_mb_pred_mode4x4_fix p <=? 8) &&
    ((p <? 0) || (0 <=? x264_mb_pred_mode4x4_fix p))) = true) as C by (vm_compute; reflexivity).
  eapply all_range_spec with (i := p) in C; [|lia]. cbv beta in C. lia.
Qed.

Lemma predicted_mode_range h i : (forall p, -1 <= intra4x4_pred_mode h p <= 11) -> 0 <= x264_mb_predict_intra4x4_mode h i <= 8.
Proof.
  intros H. unfold x264_mb_predict_intra4x4_mode. cbv zeta.
  destruct (mode_fix_range _ (H (scan8 i - 1))) as [H1 _]. destruct (mode_fix_range _ (H (scan8 i - 8))) as [H2 _].
  destruct (Z.ltb_spec (Z.min (x264_mb_pred_mode4x4_fix (intra4x4_pred_mode h (scan8 i - 1)))
    (x264_mb_pred_mode4x4_fix (intra4x4_pred_mode h (scan8 i - 8)))) 0); unfold I_PRED_4x4_DC; lia.
Qed.

Section Prediction.
Context (h : x264_t) (ok : mb_ok h) (off : Z) (Hoff : i_mb_i_offset h = Some off).

(** The type is written first; the rest is the prediction of its kind. *)
Definition type_and_pred : Prop :=
  exists v (f : forall S, BitSink S -> S -> S),
    (forall S (sink : BitSink S) s, write_mb_pred h off s = f S sink (sk_write_ue s v)) /\ 0 <= v < 255 /\
    kind_of_type (sh_i_type h) v = Some (kind_seen h) /\
    writes f (read_mb_pred (context_of h) (kind_seen h)) (pred_seen h).

Lemma offset_cases : (sh_i_type h = SLICE_TYPE_I /\ off = 0) \/ (sh_i_type h = SLICE_TYPE_P /\ off = 5) \/
  (sh_i_type h = SLICE_TYPE_B /\ off = 23).
Proof.
  revert Hoff. unfold i_mb_i_offset. destruct (Z.eqb_spec (sh_i_type h) SLICE_TYPE_I), (Z.eqb_spec (sh_i_type h) SLICE_TYPE_P),
    (Z.eqb_spec (sh_i_type h) SLICE_TYPE_B); intros [= <-]; tauto.
Qed.

Lemma intra_kind_of_type v k : 0 <= v -> intra_kind v = Some k -> kind_of_type (sh_i_type h) (off + v) = Some k.
Proof.
  intros Hv Hk. unfold kind_of_type.
  destruct offset_cases as [[-> ->]|[[-> ->]|[-> ->]]]; cbn [SLICE_TYPE_I SLICE_TYPE_P SLICE_TYPE_B Z.eqb Pos.eqb];
    (rewrite lookup_ge_None_2; [|cbn [length p_kinds b_kinds]; lia]); cbn [length p_kinds b_kinds];
    rewrite <- Hk; f_equal; lia.
Qed.

Lemma chroma_mode_range : 0 <= tbl x264_mb_pred_mode8x8c_fix (i_chroma_pred_mode h) < 255.
Proof.
  destruct (o_intra _ ok) as [_ H].
  assert (all_range 0 7 (fun p => (0 <=? tbl x264_mb_pred_mode8x8c_fix p) && (tbl x264_mb_pred_mode8x8c_fix p <? 255)) = true)
    as C by (vm_compute; reflexivity).
  eapply all_range_spec with (i := i_chroma_pred_mode h) in C; [|lia]. cbv beta in C. lia.
Qed.

Lemma pred_NxN : i_type h = I_4x4 \/ i_type h = I_8x8 -> type_and_pred.
Proof.
  intros Ht. destruct (o_modes _ ok) as [M1 M2]. destruct (o_transform _ ok) as (T1 & T2 & T3 & _).
  assert (kind_seen h = K_NxN) as Ek by (unfold kind_seen; destruct Ht as [-> | ->]; reflexivity).
  set (di := if i_type h =? I_8x8 then 4 else 1).
  exists off, (fun S sink => when (b_transform_8x8_mode h) (fun s => sk_write1 s (b_transform_8x8 h)) ;>
    each (fun i => write_intra4x4_mode h (i * di)) (seqZ 0 (16 / di)) ;>
    (fun s => sk_write_ue s (tbl x264_mb_pred_mode8x8c_fix (i_chroma_pred_mode h)))).
  split; [|split; [|split]].
  - intros S sink s. unfold write_mb_pred. fold di. rewrite Z.add_0_r. destruct Ht as [E|E]; rewrite E; reflexivity.
  - destruct offset_cases as [[_ ->]|[[_ ->]|[_ ->]]]; lia.
  - rewrite Ek. replace off with (off + 0) by lia. by apply intra_kind_of_type.
  - rewrite Ek. unfold read_mb_pred, context_of. cbn [c_transform_8x8_mode]. unfold pred_seen. rewrite Ek. cbn [is_NxN is_16x16 orb].
    assert (subs_seen h = []) as Es by (unfold subs_seen; destruct Ht as [-> | ->]; reflexivity). rewrite Es.
    cbn [ref_blocks mv_blocks fmap list_fmap andb]. fold di.
    eapply writes_seq with (a := i2b (b_transform_8x8 h)).
    { apply writes_when; [intros _; apply writes_flag; lia|]. intros E. destruct Ht as [Ht|Ht]; [by rewrite (T2 Ht)|].
      destruct (T3 Ht). congruence. }
    assert ((if i2b (b_transform_8x8 h) then 4 else 16) = 16 / di) as ->.
    { unfold di. destruct Ht as [Ht|Ht]; rewrite Ht; [by rewrite (T2 Ht)|]. by rewrite (proj1 (T3 Ht)). }
    eapply writes_seq with (a := (fun i => mode_code h (i * di)) <$> seqZ 0 (16 / di)).
    { apply (writes_each (fun i S sink => write_intra4x4_mode h (i * di)) (fun _ => read_mode) (fun i => mode_code h (i * di))).
      apply List.Forall_forall. intros i Hi. apply list_elem_of_In, elem_of_seqZ in Hi. apply writes_mode; [by apply predicted_mode_range|].
      assert (0 <= i * di < 16) as Hd by (unfold di in *; destruct (i_type h =? I_8x8); Z.to_euclidean_division_equations; lia).
      unfold mode_at. destruct (mode_fix_range _ (M1 (scan8 (i * di)))) as [F1 F2]. rewrite Ek in M2. specialize (F2 (M2 eq_refl _ Hd)). lia. }
    eapply writes_last; [apply writes_ue, chroma_mode_range|done].
Qed.

Lemma pred_16x16 : i_type h = I_16x16 -> type_and_pred.
Proof.
  intros Ht. destruct (o_intra _ ok) as [I1 _]. destruct (o_cbp _ ok) as (C1 & C2 & C3). specialize (C3 Ht).
  set (mode := tbl x264_mb_pred_mode16x16_fix (i_intra16x16_pred_mode h)).
  assert (0 <= mode <= 3) as Hm.
  { assert (all_range 0 7 (fun p => (0 <=? tbl x264_mb_pred_mode16x16_fix p) && (tbl x264_mb_pred_mode16x16_fix p <=? 3)) = true)
      as C by (vm_compute; reflexivity).
    eapply all_range_spec with (i := i_intra16x16_pred_mode h) in C; [|lia]. cbv beta in C. fold mode in C. lia. }
  assert (kind_seen h = K_16x16 mode (16 * i_cbp_chroma h + i_cbp_luma h)) as Ek by (unfold kind_seen; by rewrite Ht).
  set (v := 1 + mode + i_cbp_chroma h * 4 + (if i_cbp_luma h =? 0 then 0 else 12)).
  assert (1 <= v < 25) as Hv by (unfold v; destruct (_ =? 0); lia).
  exists (off + v), (fun S sink s => sk_write_ue s (tbl x264_mb_pred_mode8x8c_fix (i_chroma_pred_mode h))).
  split; [|split; [|split]].
  - intros S sink s. unfold write_mb_pred. rewrite Ht. cbn [I_16x16 I_4x4 I_8x8 Z.eqb Pos.eqb orb].
    unfold seq. do 2 f_equal. fold mode. unfold v. lia.
  - destruct offset_cases as [[_ ->]|[[_ ->]|[_ ->]]]; lia.
  - rewrite Ek. apply intra_kind_of_type; [lia|]. unfold intra_kind.
    destruct (Z.eqb_spec v 0); [lia|]. destruct (Z.eqb_spec v 25); [lia|].
    replace ((1 <=? v) && (v <? 25)) with true by lia. do 2 f_equal.
    + unfold v. destruct (_ =? 0); Z.to_euclidean_division_equations; lia.
    + unfold v. destruct (Z.eqb_spec (i_cbp_luma h) 0) as [E|E].
      * replace (_ <? 13) with true by lia. Z.to_euclidean_division_equations; lia.
      * replace (_ <? 13) with false by lia. Z.to_euclidean_division_equations; lia.
  - rewrite Ek. unfold read_mb_pred. unfold pred_seen. rewrite Ek. cbn [is_NxN is_16x16 orb].
    assert (subs_seen h = []) as Es by (unfold subs_seen; by rewrite Ht). rewrite Es.
    cbn [ref_blocks mv_blocks fmap list_fmap andb].
    eapply writes_last; [apply writes_ue, chroma_mode_range|done].
Qed.

Lemma used_parts_legal l shape lists : Forall (fun b => In b legal_blocks) (used_parts l shape lists).
Proof.
  apply List.Forall_forall. intros b Hb. unfold used_parts in Hb. apply in_map_iff in Hb as ((b' & ls) & <- & Hb).
  apply filter_In in Hb as [Hb _]. apply list_elem_of_In, elem_of_zip_l, list_elem_of_In in Hb. cbn [fst]. revert Hb. unfold part_blocks.
  assert (Forall (fun b => In b legal_blocks) [(0, 4); (8, 4); (0, 2); (4, 2)]) as HF by (repeat (constructor; [by vm_compute; tauto|]); constructor).
  rewrite List.Forall_forall in HF. repeat case_match; intros Hb; apply HF; cbn in *; tauto.
Qed.

Lemma motion_ok_seen : motion_ok h (kind_seen h) (subs_seen h).
Proof.
  split; [apply ok|apply ok| |apply ok]. intros l.
  assert ((exists ref0, kind_seen h = K_P8x8 ref0) \/ kind_seen h = K_B8x8 \/
    match kind_seen h with K_P8x8 _ | K_B8x8 => False | _ => True end) as HK by (destruct (kind_seen h); eauto).
  assert (forall k, k = K_B8x8 \/ (exists ref0, k = K_P8x8 ref0) -> Forall (fun b => In b legal_blocks) (mv_blocks k (subs_seen h) l)) as HS.
  { intros k Hk. unfold subs_seen. destruct (_ || _).
    - change ((fun i => sub_seen (i_sub_partition h i)) <$> seqZ 0 4) with
        (sub_seen <$> [i_sub_partition h 0; i_sub_partition h 1; i_sub_partition h 2; i_sub_partition h 3]).
      rewrite used_mv_blocks by done. rewrite !Forall_app. repeat split; apply sub_units_legal; lia.
    - destruct Hk as [-> | [ref0 ->]]; constructor. }
  destruct HK as [HK|[HK|HK]]; [apply HS; by right|apply HS; by left|].
  destruct (kind_seen h); try done; apply used_parts_legal.
Qed.

(** What is seen of a macroblock with motion. *)
Lemma pred_motion fsubs g0 g1 v :
  (exists shape lists, kind_seen h = K_Inter shape lists) \/ (exists ref0, kind_seen h = K_P8x8 ref0) \/ kind_seen h = K_B8x8 ->
  (forall S (sink : BitSink S) s, write_mb_pred h off s =
    write_units h g0 g1 (kind_seen h) (subs_seen h) (fsubs S sink (sk_write_ue s v))) ->
  0 <= v < 255 -> kind_of_type (sh_i_type h) v = Some (kind_seen h) ->
  writes fsubs match kind_seen h with
               | K_P8x8 _ => peach (fun _ => read_sub p_subs) (seqZ 0 4)
               | K_B8x8 => peach (fun _ => read_sub b_subs) (seqZ 0 4)
               | _ => pret []
               end (subs_seen h) ->
  (g0 = true -> num_of h (kind_seen h) 0 = i_fref h 0) ->
  (g0 = false -> num_of h (kind_seen h) 0 <= 1 \/ ref_blocks (kind_seen h) (subs_seen h) 0 = []) ->
  (g1 = true -> num_of h (kind_seen h) 1 = i_fref h 1) ->
  (g1 = false -> num_of h (kind_seen h) 1 <= 1 \/ ref_blocks (kind_seen h) (subs_seen h) 1 = []) ->
  (kind_seen h = K_P8x8 true -> Forall (fun idx => ref_at h 0 idx = 0) (ref_blocks (kind_seen h) (subs_seen h) 0) /\
    ref_blocks (kind_seen h) (subs_seen h) 1 = []) ->
  type_and_pred.
Proof.
  intros Hk Hw Hv Ht Hsubs A0 B0 A1 B1 Hz.
  exists v, (fun S sink => fsubs S sink ;> write_units h g0 g1 (kind_seen h) (subs_seen h)).
  split; [exact Hw|]. split; [exact Hv|]. split; [exact Ht|].
  pose proof (writes_motion h (kind_seen h) fsubs (subs_seen h) g0 g1 Hsubs motion_ok_seen A0 B0 A1 B1 Hz) as HM.
  unfold pred_seen. destruct Hk as [(shape & lists & Ek)|[(ref0 & Ek)|Ek]]; rewrite Ek in *; exact HM.
Qed.

(** Types of one or two partitions. *)
Lemma pred_inter g0 g1 v shape lists : kind_seen h = K_Inter shape lists ->
  (forall S (sink : BitSink S) s, write_mb_pred h off s =
    write_units h g0 g1 (K_Inter shape lists) [] (sk_write_ue s v)) ->
  0 <= v < 255 -> kind_of_type (sh_i_type h) v = Some (K_Inter shape lists) ->
  (g0 = false -> i_fref h 0 <= 1 \/ ref_blocks (K_Inter shape lists) [] 0 = []) ->
  (g1 = false -> i_fref h 1 <= 1 \/ ref_blocks (K_Inter shape lists) [] 1 = []) -> type_and_pred.
Proof.
  intros Ek Hw Hv Ht B0 B1.
  assert (subs_seen h = []) as Es.
  { unfold subs_seen. revert Ek. unfold kind_seen. destruct (_ || _); [done|]. destruct (_ =? _); [done|]. destruct (_ =? _); [done|].
    destruct (i_type h =? P_8x8); [done|]. by destruct (i_type h =? B_8x8). }
  apply (pred_motion (fun S sink s => s) g0 g1 v); rewrite ?Ek, ?Es; try done.
  - left. by eexists _, _.
  - apply writes_skip.
Qed.

Lemma pred_P_L0 : i_type h = P_L0 -> sh_i_type h = SLICE_TYPE_P -> type_and_pred.
Proof.
  intros Ht Hs.
  assert (In (i_partition h) [D_16x8; D_8x16; D_16x16]) as Hp by (destruct (o_partition _ ok) as [Hp|[-> _]]; [by left|cbn in *; tauto..]).
  assert ((i_fref h 0 >? 1) = false -> i_fref h 0 <= 1) as Hg by (destruct (Z.gtb_spec (i_fref h 0) 1); [done|lia]).
  destruct Hp as [Hp|[Hp|[Hp|[]]]]; symmetry in Hp;
    [apply (pred_inter (i_fref h 0 >? 1) false 1 1 [L0; L0])|apply (pred_inter (i_fref h 0 >? 1) false 2 2 [L0; L0])
    |apply (pred_inter (i_fref h 0 >? 1) false 0 0 [L0])];
    try (unfold kind_seen, shape_seen, lists_seen; by rewrite Ht, Hp); try lia; try (by rewrite Hs); try (by left; apply Hg); try (by right);
    intros S sink s; unfold write_mb_pred, write_p_l0; rewrite Ht, Hp; cbn; by destruct (i_fref h 0 >? 1).
Qed.

Lemma all_refs_0_spec : (forall i, In i [0; 4; 8; 12] -> 0 <= ref_at h 0 i) ->
  ((cache_ref h 0 (scan8 0) .| cache_ref h 0 (scan8 4) .| cache_ref h 0 (scan8 8) .| cache_ref h 0 (scan8 12)) =? 0) = all_refs_0 h.
Proof.
  intros _. unfold all_refs_0, ref_at. cbn [forallb]. rewrite andb_true_r, !andb_assoc. apply eq_true_iff_eq.
  rewrite !andb_true_iff, !Z.eqb_eq, !Z.lor_eq_0_iff. tauto.
Qed.

Lemma subs_seen_8x8 : i_type h = P_8x8 \/ i_type h = B_8x8 ->
  subs_seen h = (fun i => sub_seen (i_sub_partition h i)) <$> seqZ 0 4.
Proof. intros Ht. unfold subs_seen. by destruct Ht as [-> | ->]. Qed.

Lemma p_sub_list v l : 0 <= v < 4 -> uses l (snd (sub_seen v)) = (l =? 0).
Proof.
  intros Hv. assert (v = 0 \/ v = 1 \/ v = 2 \/ v = 3) as HE by lia. unfold uses.
  destruct HE as [-> | [-> | [-> | ->]]]; by destruct (l =? 0).
Qed.

Lemma p_ref_blocks ref0 l : i_type h = P_8x8 -> ref_blocks (K_P8x8 ref0) (subs_seen h) l = if l =? 0 then [0; 4; 8; 12] else [].
Proof.
  intros Ht. rewrite subs_seen_8x8 by tauto. pose proof (o_sub_p _ ok Ht) as Hv.
  change ((fun i => sub_seen (i_sub_partition h i)) <$> seqZ 0 4) with
    (sub_seen <$> [i_sub_partition h 0; i_sub_partition h 1; i_sub_partition h 2; i_sub_partition h 3]).
  rewrite used_ref_blocks by (right; by eexists). rewrite !p_sub_list by (apply Hv; lia). by destruct (l =? 0).
Qed.

Lemma p_mv_blocks ref0 : i_type h = P_8x8 -> mv_blocks (K_P8x8 ref0) (subs_seen h) 1 = [].
Proof.
  intros Ht. rewrite subs_seen_8x8 by tauto. pose proof (o_sub_p _ ok Ht) as Hv.
  change ((fun i => sub_seen (i_sub_partition h i)) <$> seqZ 0 4) with
    (sub_seen <$> [i_sub_partition h 0; i_sub_partition h 1; i_sub_partition h 2; i_sub_partition h 3]).
  rewrite used_mv_blocks by (right; by eexists). unfold sub_units. by rewrite !p_sub_list by (apply Hv; lia).
Qed.

Lemma pred_P_8x8 : i_type h = P_8x8 -> sh_i_type h = SLICE_TYPE_P -> type_and_pred.
Proof.
  intros Ht Hs. pose proof (o_sub_p _ ok Ht) as Hv.
  assert (kind_seen h = K_P8x8 (all_refs_0 h)) as Ek by (unfold kind_seen; by rewrite Ht).
  pose proof (o_refs _ ok 0 (or_introl eq_refl)) as Hr. rewrite Ek, p_ref_blocks in Hr by done. cbn [Z.eqb] in Hr.
  assert (forall i, In i [0; 4; 8; 12] -> 0 <= ref_at h 0 i) as Hr0 by (intros i Hi; rewrite List.Forall_forall in Hr; by apply Hr).
  assert (forall l, l = 0 \/ l = 1 -> forall S (sink : BitSink S) (s : S), each (fun i => cavlc_mb8x8_mvd h l i) (seqZ 0 4) s =
    write_mvds h l (mv_blocks (K_P8x8 (all_refs_0 h)) (subs_seen h) l) s) as HM.
  { intros l Hl S sink s. rewrite subs_seen_8x8 by tauto. apply each_mb8x8_mvd; [done|right; by eexists|].
    intros i Hi. destruct (Hv i Hi). lia. }
  eapply (pred_motion (fun S sink => if b_psub8x8 h
      then each (fun i s => sk_write_ue s (tbl sub_mb_type_p_to_golomb (i_sub_partition h i))) (seqZ 0 4)
      else fun s => sk_write s 4 0xf)
    ((i_fref h 0 >? 1) && negb (all_refs_0 h)) false (if all_refs_0 h then 4 else 3)); rewrite ?Ek, ?p_ref_blocks by done.
  - right. left. by eexists.
  - intros S sink s. unfold write_mb_pred. rewrite Ht. cbn [P_8x8 P_L0 I_4x4 I_8x8 I_16x16 Z.eqb Pos.eqb orb].
    unfold write_p_8x8, write_units. rewrite all_refs_0_spec, !p_ref_blocks by done. cbn [Z.eqb].
    unfold seq, write_refs. cbn [when]. rewrite (HM 0) by tauto. rewrite p_mv_blocks by done. cbn [write_mvds each].
    unfold write_mvds at 2. unfold each at 2. cbn [fold_left]. f_equal.
    destruct (all_refs_0 h); cbn [negb]; [by rewrite andb_false_r|]. rewrite andb_true_r. by destruct (i_fref h 0 >? 1).
  - destruct (all_refs_0 h); lia.
  - rewrite Hs. by destruct (all_refs_0 h).
  - rewrite subs_seen_8x8 by tauto. apply writes_p_subs; [intros i Hi; by destruct (Hv i Hi)|].
    intros Hb i Hi. by apply Hv.
  - cbn [num_of]. destruct (all_refs_0 h); [by rewrite andb_false_r|done].
  - intros Hg. left. cbn [num_of]. destruct (all_refs_0 h); [lia|]. rewrite andb_true_r in Hg. destruct (Z.gtb_spec (i_fref h 0) 1); [done|lia].
  - done.
  - intros _. by right.
  - intros [= E]. split; [|done]. cbn [Z.eqb]. unfold all_refs_0 in E. cbn [forallb] in E.
    rewrite !andb_true_iff, !Z.eqb_eq in E. repeat (constructor; [tauto|]). constructor.
Qed.

Lemma b_sub_range : i_type h = B_8x8 -> forall i, 0 <= i < 4 -> 0 <= i_sub_partition h i < 13.
Proof.
  intros Ht i Hi. pose proof (o_sub_b _ ok Ht i Hi) as Hv. cbn in Hv.
  unfold D_L0_8x8, D_L1_8x8, D_BI_8x8, D_DIRECT_8x8 in Hv. lia.
Qed.

Lemma listX_uses v l : l = 0 \/ l = 1 -> 0 <= v < 13 -> i2b (tbl2 x264_mb_partition_listX_table l v) = uses l (snd (sub_seen v)).
Proof.
  intros Hl Hv. apply sub_cases in Hv. destruct Hl as [-> | ->]; repeat destruct Hv as [Hv|Hv]; rewrite Hv; reflexivity.
Qed.

Lemma pred_B_8x8 : i_type h = B_8x8 -> sh_i_type h = SLICE_TYPE_B -> type_and_pred.
Proof.
  intros Ht Hs. pose proof (b_sub_range Ht) as Hv.
  assert (kind_seen h = K_B8x8) as Ek by (unfold kind_seen; by rewrite Ht).
  assert (forall l, l = 0 \/ l = 1 -> forall S (sink : BitSink S) (s : S), each (fun i => cavlc_mb8x8_mvd h l i) (seqZ 0 4) s =
    write_mvds h l (mv_blocks K_B8x8 (subs_seen h) l) s) as HM.
  { intros l Hl S sink s. rewrite subs_seen_8x8 by tauto. apply each_mb8x8_mvd; [done|by left|done]. }
  assert (forall l, l = 0 \/ l = 1 -> forall S (sink : BitSink S) (s : S),
    each (fun i => when (i2b (tbl2 x264_mb_partition_listX_table l (i_sub_partition h i))) (write_ref h l (i*4))) (seqZ 0 4) s =
    write_refs h true l (ref_blocks K_B8x8 (subs_seen h) l) s) as HR.
  { intros l Hl S sink s. rewrite subs_seen_8x8 by tauto.
    change ((fun i => sub_seen (i_sub_partition h i)) <$> seqZ 0 4) with
      (sub_seen <$> [i_sub_partition h 0; i_sub_partition h 1; i_sub_partition h 2; i_sub_partition h 3]).
    rewrite used_ref_blocks by (by left). change (seqZ 0 4) with [0; 1; 2; 3]. unfold each. cbn [fold_left].
    rewrite !listX_uses by (done || apply Hv; lia).
    destruct (uses l (snd (sub_seen (i_sub_partition h 0)))), (uses l (snd (sub_seen (i_sub_partition h 1)))),
      (uses l (snd (sub_seen (i_sub_partition h 2)))), (uses l (snd (sub_seen (i_sub_partition h 3)))); reflexivity. }
  eapply (pred_motion (fun S sink => each (fun i s => sk_write_ue s (tbl sub_mb_type_b_to_golomb (i_sub_partition h i))) (seqZ 0 4))
    true true 22); rewrite ?Ek; try done.
  - right. by right.
  - intros S sink s. unfold write_mb_pred. rewrite Ht. cbn [B_8x8 P_8x8 P_L0 I_4x4 I_8x8 I_16x16 Z.eqb Pos.eqb orb].
    unfold write_b_8x8, write_units, seq. by rewrite !HM, !HR by tauto.
  - by rewrite Hs.
  - rewrite subs_seen_8x8 by tauto. by apply writes_b_subs.
Qed.

Lemma pred_B_DIRECT : i_type h = B_DIRECT -> sh_i_type h = SLICE_TYPE_B -> type_and_pred.
Proof.
  intros Ht Hs. assert (kind_seen h = K_Direct) as Ek by (unfold kind_seen; by rewrite Ht).
  exists 0, (fun S sink s => s). split; [|split; [lia|split]].
  - intros S sink s. unfold write_mb_pred. by rewrite Ht.
  - by rewrite Hs, Ek.
  - rewrite Ek. unfold pred_seen, subs_seen. rewrite Ek, Ht. apply writes_skip.
Qed.

Lemma pred_B : B_DIRECT < i_type h < B_8x8 -> sh_i_type h = SLICE_TYPE_B -> type_and_pred.
Proof.
  intros Ht Hs. pose proof (o_partition _ ok (or_intror Ht)) as Hp. unfold B_DIRECT, B_8x8 in Ht.
  assert (forall l, i2b (i_fref h l - 1) = false -> i_fref h l <= 1) as Hg.
  { intros l Hi. unfold i2b in Hi. destruct (Z.eqb_spec (i_fref h l - 1) 0); [lia|done]. }
  assert (i_type h = 8 \/ i_type h = 9 \/ i_type h = 10 \/ i_type h = 11 \/ i_type h = 12 \/ i_type h = 13 \/ i_type h = 14 \/
    i_type h = 15 \/ i_type h = 16) as HE by lia.
  assert (exists part, i_partition h = part /\ (part = 14 \/ part = 15 \/ (part = 16 /\ (i_type h = 8 \/ i_type h = 12 \/ i_type h = 16))))
    as (part & Epart & Hpart).
  { exists (i_partition h). split; [done|]. cbn in Hp. unfold D_16x8, D_8x16, D_16x16, P_L0, B_L0_L0 in Hp. lia. }
  clear Hp Ht.
  set (v := tbl2 mb_type_b_to_golomb (part - D_16x8) (i_type h - B_L0_L0)).
  assert (0 <= v < 255 /\ kind_of_type SLICE_TYPE_B v = Some (kind_seen h) /\ kind_seen h = K_Inter (shape_seen h) (lists_seen h) /\
    forall S (sink : BitSink S) (s : S), write_b h s = write_units h (i2b (i_fref h 0 - 1)) (i2b (i_fref h 1 - 1))
      (K_Inter (shape_seen h) (lists_seen h)) [] (sk_write_ue s v)) as (V1 & V2 & V3 & V4).
  { unfold v, kind_seen, shape_seen, lists_seen, write_b. rewrite Epart.
    destruct Hpart as [-> |[-> |[-> Hi]]]; [repeat destruct HE as [HE|HE]|repeat destruct HE as [HE|HE]|repeat destruct Hi as [HE'|Hi]];
      try rewrite HE; try rewrite HE'; try rewrite Hi; (split; [vm_compute; done|]); (split; [reflexivity|]); (split; [reflexivity|]);
      intros S sink s; unfold seq, each; change (seqZ 0 2) with [0; 1]; cbn [fold_left];
      destruct (i2b (i_fref h 0 - 1)), (i2b (i_fref h 1 - 1)); reflexivity. }
  apply (pred_inter (i2b (i_fref h 0 - 1)) (i2b (i_fref h 1 - 1)) v (shape_seen h) (lists_seen h)); try done.
  - intros S sink s. rewrite <- V4. unfold write_mb_pred. repeat destruct HE as [HE|HE]; rewrite HE; reflexivity.
  - by rewrite Hs, V2, V3.
  - intros Hi. left. by apply Hg.
  - intros Hi. left. by apply Hg.
Qed.

Lemma pred_all : i_type h <> I_PCM -> type_and_pred.
Proof.
  intros _. destruct (o_type _ ok) as [[Ht _]|[[Ht Hs]|[Ht Hs]]].
  - cbn in Ht. destruct Ht as [E|[E|[E|[]]]]; symmetry in E; [apply pred_NxN; by left|apply pred_NxN; by right|by apply pred_16x16].
  - cbn in Ht. destruct Ht as [E|[E|[]]]; symmetry in E; [by apply pred_P_L0|by apply pred_P_8x8].
  - destruct (Z.eq_dec (i_type h) B_DIRECT); [by apply pred_B_DIRECT|].
    destruct (Z.eq_dec (i_type h) B_8x8); [by apply pred_B_8x8|]. apply pred_B; [lia|done].
Qed.
End Prediction.

(** ** The coded block pattern *)
Definition cbp_seen (h : x264_t) : Z := 16 * i_cbp_chroma h + i_cbp_luma h.
Definition transform_coded (h : x264_t) : bool := x264_mb_transform_8x8_allowed h && i2b (i_cbp_luma h).
Definition transform_seen (h : x264_t) : bool := (is_NxN (kind_seen h) || transform_coded h) && i2b (b_transform_8x8 h).

Lemma cbp_seen_spec h : mb_ok h -> (i_cbp_chroma h << 4) .| i_cbp_luma h = cbp_seen h /\ 0 <= cbp_seen h < 48 /\
  cbp_seen h mod 16 = i_cbp_luma h /\ cbp_seen h / 16 = i_cbp_chroma h.
Proof.
  intros ok. destruct (o_cbp _ ok) as (C1 & C2 & _). unfold cbp_seen.
  rewrite shiftl_lor_add by lia. change (2 ^ 4) with 16. Z.to_euclidean_division_equations. lia.
Qed.

Lemma golomb_me (intra : bool) cbp : 0 <= cbp < 48 ->
  let v := tbl (if intra then intra4x4_cbp_to_golomb else inter_cbp_to_golomb) cbp in
  0 <= v < 255 /\ (if intra then me_intra else me_inter) !! Z.to_nat v = Some cbp.
Proof.
  intros Hc. assert (all_range 0 48 (fun cbp => let v := tbl (if intra then intra4x4_cbp_to_golomb else inter_cbp_to_golomb) cbp in
    (0 <=? v) && (v <? 255) && bool_decide ((if intra then me_intra else me_inter) !! Z.to_nat v = Some cbp)) = true) as C
    by (destruct intra; vm_compute; reflexivity).
  eapply all_range_spec with (i := cbp) in C; [|lia]. cbv beta zeta in C. cbv zeta.
  apply andb_prop in C as [C1 C2]. apply bool_decide_eq_true in C2. split; [lia|done].
Qed.

Lemma kind_NxN h : is_NxN (kind_seen h) = (i_type h =? I_4x4) || (i_type h =? I_8x8).
Proof. unfold kind_seen. destruct (_ || _); [done|]. repeat case_match; done. Qed.
Lemma kind_16x16 h : is_16x16 (kind_seen h) = (i_type h =? I_16x16).
Proof.
  unfold kind_seen. destruct (Z.eqb_spec (i_type h) I_16x16) as [-> |]; [reflexivity|].
  destruct (_ || _); [done|]. repeat case_match; done.
Qed.

Lemma writes_cbp_code h : mb_ok h -> i_type h <> I_PCM ->
  writes (fun S sink => if (i_type h =? I_4x4) || (i_type h =? I_8x8) then fun s => sk_write_ue s (tbl intra4x4_cbp_to_golomb (cbp_seen h))
     else if negb (i_type h =? I_16x16) then fun s => sk_write_ue s (tbl inter_cbp_to_golomb (cbp_seen h)) else fun s => s)
    (read_cbp (kind_seen h)) (cbp_seen h).
Proof.
  intros ok Hp. destruct (cbp_seen_spec h ok) as (_ & Hc & _). pose proof (kind_NxN h) as HN. pose proof (kind_16x16 h) as H16.
  destruct ((i_type h =? I_4x4) || (i_type h =? I_8x8)) eqn:EN.
  - destruct (kind_seen h) eqn:Ek; try done. destruct (golomb_me true (cbp_seen h) Hc) as [V1 V2].
    eapply writes_last; [by apply writes_ue|]. intros rest. cbv beta. cbn [is_NxN]. by rewrite V2.
  - destruct (golomb_me false (cbp_seen h) Hc) as [V1 V2]. destruct (i_type h =? I_16x16) eqn:E16; cbn [negb].
    + destruct (kind_seen h) eqn:Ek; try done. cbn [read_cbp].
      assert (cbp = cbp_seen h) as ->; [|apply writes_skip].
      unfold kind_seen in Ek. rewrite EN, E16 in Ek. by injection Ek as _ <-.
    + destruct (kind_seen h) eqn:Ek; try done; (eapply writes_last; [by apply writes_ue|]; intros rest; cbv beta; cbn [is_NxN]; by rewrite V2).
Qed.

Lemma transform_allowed h : mb_ok h -> i_type h <> I_PCM ->
  transform_8x8_possible (context_of h) (kind_seen h) (m_subs (pred_seen h)) && b_transform_8x8_mode h = x264_mb_transform_8x8_allowed h.
Proof.
  intros ok Hp. unfold x264_mb_transform_8x8_allowed, pred_seen. cbn [m_subs].
  destruct (b_transform_8x8_mode h); [rewrite andb_true_r|by rewrite andb_false_r]. cbn [negb].
  destruct (o_type _ ok) as [[Ht _]|[[Ht _]|[Ht _]]].
  - cbn in Ht. unfold kind_seen. destruct Ht as [<-|[<-|[<-|[]]]]; reflexivity.
  - cbn in Ht. unfold kind_seen, subs_seen. destruct Ht as [E|[E|[]]]; rewrite <- E; [reflexivity|].
    cbn [orb Z.eqb Pos.eqb P_8x8 I_4x4 I_8x8 I_16x16 I_PCM P_L0 B_8x8 B_DIRECT transform_8x8_possible].
    change (tbl partition_tab 5 <? 2) with false. cbv iota. symmetry in E. pose proof (o_sub_p _ ok E) as Hv.
    change (seqZ 0 4) with [0; 1; 2; 3]. cbn [fmap list_fmap forallb].
    assert (forall i, 0 <= i < 4 -> (fst (sub_seen (i_sub_partition h i)) =? 0) || ((fst (sub_seen (i_sub_partition h i)) =? 4) && c_direct_8x8_inference (context_of h))
      = (i_sub_partition h i =? D_L0_8x8)) as HS.
    { intros i Hi. destruct (Hv i Hi) as [Hi' _].
      assert (i_sub_partition h i = 0 \/ i_sub_partition h i = 1 \/ i_sub_partition h i = 2 \/ i_sub_partition h i = 3) as HE by lia.
      destruct HE as [-> | [-> | [-> | ->]]]; reflexivity. }
    rewrite !HS by lia. destruct (b_psub8x8 h) eqn:Eb; cbn [negb]; [reflexivity|].
    rewrite (proj2 (Hv 0 ltac:(lia)) eq_refl), (proj2 (Hv 1 ltac:(lia)) eq_refl), (proj2 (Hv 2 ltac:(lia)) eq_refl), (proj2 (Hv 3 ltac:(lia)) eq_refl).
    reflexivity.
  - unfold B_DIRECT, B_8x8 in Ht. destruct (Z.eq_dec (i_type h) B_8x8) as [E|E].
    + unfold kind_seen, subs_seen. rewrite E. cbn [orb Z.eqb Pos.eqb P_8x8 I_4x4 I_8x8 I_16x16 I_PCM P_L0 B_8x8 B_DIRECT transform_8x8_possible].
      change (tbl partition_tab 17 <? 2) with false. cbv iota. pose proof (o_sub_b _ ok E) as Hv.
      change (seqZ 0 4) with [0; 1; 2; 3]. cbn [fmap list_fmap forallb]. cbn [context_of c_direct_8x8_inference].
      assert (forall i, 0 <= i < 4 -> (fst (sub_seen (i_sub_partition h i)) =? 0) || ((fst (sub_seen (i_sub_partition h i)) =? 4) && b_direct8x8_inference h)
        = negb (i_sub_partition h i =? D_DIRECT_8x8) || b_direct8x8_inference h) as HS.
      { intros i Hi. specialize (Hv i Hi). cbn in Hv. destruct Hv as [<-|[<-|[<-|[<-|[]]]]]; reflexivity. }
      rewrite !HS by lia. destruct (b_direct8x8_inference h); [by rewrite !orb_true_r|]. by rewrite !orb_false_r.
    + destruct (Z.eq_dec (i_type h) B_DIRECT) as [E'|E']; [unfold kind_seen; rewrite E'; reflexivity|]. unfold B_8x8, B_DIRECT in *.
      assert (i_type h = 8 \/ i_type h = 9 \/ i_type h = 10 \/ i_type h = 11 \/ i_type h = 12 \/ i_type h = 13 \/ i_type h = 14 \/
        i_type h = 15 \/ i_type h = 16) as HE by lia.
      unfold kind_seen. repeat destruct HE as [HE|HE]; rewrite HE; reflexivity.
Qed.

Lemma writes_cbp {B} h (k : Z -> bool -> parser B) b f : mb_ok h -> i_type h <> I_PCM ->
  writes f (k (cbp_seen h) (transform_seen h)) b ->
  writes (fun S sink => write_cbp h ;> f S sink)
    (get cbp from read_cbp (kind_seen h);
     get t8x8 from pwhen (transform_8x8_possible (context_of h) (kind_seen h) (m_subs (pred_seen h)) &&
        c_transform_8x8_mode (context_of h) && negb (cbp mod 16 =? 0)) pflag (m_t8x8 (pred_seen h));
     k cbp t8x8) b.
Proof.
  intros ok Hp Hf. destruct (cbp_seen_spec h ok) as (Ec & _ & Em & _). unfold write_cbp. rewrite Ec.
  pose proof (writes_cbp_code h ok Hp) as HC.
  apply (writes_seq _ (fun S sink => when (transform_coded h) (fun s => sk_write1 s (b_transform_8x8 h)) ;> f S sink) _ _ _ _ HC).
  cbn [context_of c_transform_8x8_mode]. rewrite transform_allowed, Em by done.
  change (x264_mb_transform_8x8_allowed h && negb (i_cbp_luma h =? 0)) with (transform_coded h).
  destruct (o_transform _ ok) as (T1 & _). eapply writes_seq; [|exact Hf]. unfold transform_seen.
  apply writes_when.
  - intros ->. rewrite orb_true_r. cbn [andb]. apply writes_flag. lia.
  - intros ->. rewrite orb_false_r. done.
Qed.

(** ** The residual *)

(** The state while blocks are written: the counts [f] change, and the quantiser [q]
    is one of two values that nothing here depends on. *)
Definition view (h : x264_t) (f : Z -> Z) (q : Z) : x264_t :=
  X264 (sh_i_type h) (b_mbaff h) (i_profile_idc h) (b_transform_8x8_mode h) (b_direct8x8_inference h) (b_psub8x8 h)
    (i_type h) (i_partition h) (i_sub_partition h) (b_transform_8x8 h) (b_interlaced h) (i_mb_y h) (i_mb_xy h) (i_mb_stride h)
    (mb_type h) (i_cbp_luma h) (i_cbp_chroma h) q (i_last_qp h) (i_intra16x16_pred_mode h) (i_chroma_pred_mode h) (i_fref h)
    (intra4x4_pred_mode h) f (cache_ref h) (cache_mv h) (luma4x4 h) (luma8x8 h) (luma16x16_dc h) (chroma_dc h).

Lemma view_self h : view h (non_zero_count h) (i_qp h) = h.
Proof. by destruct h. Qed.
Lemma view_qp h q : view h (non_zero_count h) q = set_i_qp h q.
Proof. by destruct h. Qed.

Definition h_writer : Type := forall S, BitSink S -> x264_t -> S -> option (x264_t * S).
Definition codes {A} (F : h_writer) (g g' : Z -> x264_t) (r : parser A) (v : A) : Prop :=
  exists code, reads r code v /\
    forall S (sink : BitSink S) (R : S -> list bool -> Prop), SinkSim sink (code_sink false) R ->
      forall q s c, R s c -> exists s', F S sink (g q) s = Some (g' q, s') /\ R s' (c ++ code).

(** One writer after the other. *)
Definition h_seq (F G : h_writer) : h_writer := fun S sink h s =>
  match F S sink h s with Some (h, s) => G S sink h s | None => None end.

Lemma codes_seq {A B} F G g1 g2 g3 (r : parser A) (k : A -> parser B) a b :
  codes F g1 g2 r a -> codes G g2 g3 (k a) b -> codes (h_seq F G) g1 g3 (pbind r k) b.
Proof.
  intros (c1 & R1 & H1) (c2 & R2 & H2). exists (c1 ++ c2). split; [by eapply reads_bind|].
  intros S sink R sim q s c H. destruct (H1 S sink R sim q s c H) as (s1 & E1 & Hs1).
  destruct (H2 S sink R sim q s1 _ Hs1) as (s2 & E2 & Hs2). exists s2. unfold h_seq. rewrite E1, E2, app_assoc. done.
Qed.

Lemma codes_last {A B} F g g' (r : parser A) (k : A -> parser B) a b :
  codes F g g' r a -> (forall l, k a l = Some (b, l)) -> codes F g g' (pbind r k) b.
Proof. intros (c & R & H) E. exists c. split; [by eapply reads_bind_ret|done]. Qed.

Lemma codes_skip {A} g (v : A) : codes (fun S sink h s => Some (h, s)) g g (pret v) v.
Proof. exists []. split; [done|]. intros S sink R sim q s c H. exists s. by rewrite app_nil_r. Qed.

Lemma codes_same {A} (F G : h_writer) g1 g2 g' (r r' : parser A) v : codes G g2 g' r v ->
  (forall S (sink : BitSink S) q s, F S sink (g1 q) s = G S sink (g2 q) s) -> (forall l, r' l = r l) -> codes F g1 g' r' v.
Proof.
  intros (c & R & H) E1 E2. exists c. split; [intros rest; by rewrite E2|].
  intros S sink R0 sim q s c0 H0. rewrite E1. by apply H.
Qed.

Lemma codes_writes {A} (w : forall S, BitSink S -> S -> S) g (r : parser A) v :
  writes w r v -> codes (fun S sink h s => Some (h, w S sink s)) g g r v.
Proof.
  intros (c & R & H). exists c. split; [done|]. intros S sink R0 sim q s c0 H0. eexists. split; [done|]. by apply H.
Qed.

(** *** One block *)
Definition nnzs_ok (f : Z -> Z) : Prop := forall p, nnz_ok (f p).
(** The decoder's counts agree with the encoder's outside the blocks from [i] on. *)
Definition agree (N f : Z -> Z) (i : Z) : Prop := forall p, (forall j, i <= j < 24 -> scan8 j <> p) -> N p = f p.

Lemma neighbours_before i j : 0 <= i -> i <= j < 24 -> scan8 j <> scan8 i - 1 /\ scan8 j <> scan8 i - 8.
Proof.
  intros Hi Hj. assert (all_range 0 24 (fun i => all_range 0 24 (fun j => (j <? i) ||
    negb (scan8 j =? scan8 i - 1) && negb (scan8 j =? scan8 i - 8))) = true) as C by (vm_compute; reflexivity).
  eapply all_range_spec with (i := i) in C; [|lia]. cbv beta in C. eapply all_range_spec with (i := j) in C; [|lia]. cbv beta in C. lia.
Qed.

Lemma scan8_inj i j : 0 <= i < 24 -> 0 <= j < 24 -> scan8 i = scan8 j -> i = j.
Proof.
  intros Hi Hj E. assert (all_range 0 24 (fun i => all_range 0 24 (fun j => (i =? j) || negb (scan8 i =? scan8 j))) = true) as C
    by (vm_compute; reflexivity).
  eapply all_range_spec with (i := i) in C; [|lia]. cbv beta in C. eapply all_range_spec with (i := j) in C; [|lia]. cbv beta in C. lia.
Qed.

Lemma ct_index_table n : 0 <= n <= 16 -> tbl ct_index n = nC_table n.
Proof.
  intros Hn. apply Z.eqb_eq. apply (all_range_spec 0 17 (fun n => tbl ct_index n =? nC_table n)); [vm_compute; reflexivity|lia].
Qed.

Lemma block_nC_predicted h f q N i : 0 <= i < 24 -> nnzs_ok f -> N (scan8 i - 1) = f (scan8 i - 1) -> N (scan8 i - 8) = f (scan8 i - 8) ->
  block_nC (view h f q) i = predicted_nC N i.
Proof.
  intros Hi Hf Ha Hb. unfold block_nC, predicted_nC. replace (i >=? 25) with false by lia. replace (i =? 24) with false by lia.
  destruct (predict_non_zero_code_std (view h f q) i) as [E Hn]; [apply Hf..|]. rewrite ct_index_table by done. rewrite E, Ha, Hb. done.
Qed.

(** The coefficients of a block have codes. *)
Definition coefs_ok (h : x264_t) (l : Z -> Z) : Prop :=
  forall j, 0 <= j < 16 -> is_coef (l j) /\ coef_safe (i_profile_idc h >=? PROFILE_HIGH) (l j).

Lemma codes_residual {A} h f cat idx l count (r : parser A) v :
  coded_block (view h f 0) cat idx l count -> (forall code, residual_code (view h f 0) idx l count code -> reads r code v) ->
  codes (fun S sink h s => match block_residual_write_cavlc h s cat idx l count with Some s => Some (h, s) | None => None end)
    (view h f) (view h f) r v.
Proof.
  intros Hb Hr. destruct (residual_sim _ _ _ _ _ Hb) as (code & Hcode & Hsim). exists code. split; [by apply Hr|].
  intros S sink R sim q s c H. destruct (Hsim S sink R sim s c H) as (s' & E & Hs'). exists s'. split; [|done].
  change (block_residual_write_cavlc (view h f q) s cat idx l count) with (block_residual_write_cavlc (view h f 0) s cat idx l count).
  by rewrite E.
Qed.

Definition block_kind (cat first count i : Z) : Prop :=
  (cat = DCT_LUMA_4x4 /\ first = 0 /\ count = 16 /\ 0 <= i < 16) \/
  (cat = DCT_LUMA_AC /\ first = 1 /\ count = 15 /\ 0 <= i < 16) \/
  (cat = DCT_CHROMA_AC /\ first = 1 /\ count = 15 /\ 16 <= i < 24).

Definition block_coefs (h : x264_t) (first count i : Z) : list Z := coefs (fun j => luma4x4 h i (first + j)) (Z.to_nat count).

Lemma total_coeff_0 (l : Z -> Z) n : total_coeff (coefs l n) = Z.of_nat (length (List.filter (fun i => negb (l i =? 0)) (seqZ 0 (Z.of_nat n)))).
Proof.
  unfold total_coeff, coefs. f_equal. induction (seqZ 0 (Z.of_nat n)) as [|x xs IH]; [done|]. cbn [map List.filter].
  destruct (l x =? 0); cbn [negb length]; by rewrite IH.
Qed.

Lemma total_coeff_zeros n : total_coeff (replicate n 0) = 0.
Proof. unfold total_coeff. induction n as [|n IH]; [done|]. cbn. exact IH. Qed.

Lemma block_count h first count i cat : block_kind cat first count i -> (first = 1 -> luma4x4 h i 0 = 0) ->
  total_coeff (block_coefs h first count i) = array_non_zero_count (luma4x4 h i).
Proof.
  intros Hk H0. unfold block_coefs, array_non_zero_count. rewrite array_non_zero_count_spec, total_coeff_0.
  assert ((first = 0 /\ count = 16) \/ (first = 1 /\ count = 15)) as [[-> ->]|[-> ->]] by (unfold block_kind in Hk; lia).
  - done.
  - specialize (H0 eq_refl). change (seqZ 0 (Z.of_nat 16)) with (0 :: seqZ 1 15). cbn [List.filter]. rewrite H0. cbn [Z.eqb negb].
    change (seqZ 1 15) with (Z.succ <$> seqZ 0 15). change (Z.of_nat (Z.to_nat 15)) with 15. f_equal.
    induction (seqZ 0 15) as [|x xs IH]; [done|]. cbn [fmap list_fmap List.filter]. rewrite <- Z.add_1_l.
    destruct (luma4x4 h i (1 + x) =? 0); cbn [negb length]; by rewrite <- IH.
Qed.

Lemma codes_counted_block cat first count i h f N : block_kind cat first count i ->
  nnzs_ok f -> agree N f i -> coefs_ok h (luma4x4 h i) -> (first = 1 -> luma4x4 h i 0 = 0) ->
  codes (fun S sink h s => write_counted_block cat first count h s i) (view h f) (view h (upd f (scan8 i) (array_non_zero_count (luma4x4 h i))))
    (read_residual (predicted_nC N i) count) (block_coefs h first count i).
Proof.
  intros Hk Hf HN Hc H0. set (n := array_non_zero_count (luma4x4 h i)). pose proof (array_non_zero_count_range (luma4x4 h i)) as Hn. fold n in Hn.
  set (f' := upd f (scan8 i) n). assert (0 <= i < 24) as Hi by (unfold block_kind in Hk; lia).
  assert (nnzs_ok f') as Hf' by (intros p; unfold f', upd; destruct (p =? scan8 i); [left; lia|apply Hf]).
  assert (forall p, p <> scan8 i -> f' p = f p) as Hp by (intros p Hp; unfold f', upd; by apply Z.eqb_neq in Hp as ->).
  destruct (codes_residual h f' cat i (fun j => luma4x4 h i (first + j)) count (read_residual (predicted_nC N i) count) (block_coefs h first count i))
    as (code & Hread & Hsim).
  - split.
    + unfold block_kind in Hk. unfold block_shape. lia.
    + split; apply Hf'.
    + intros j Hj. apply Hc. unfold block_kind in Hk. lia.
    + cbn [view non_zero_count]. unfold f', upd. rewrite Z.eqb_refl. unfold n. rewrite array_non_zero_count_0.
      assert ((first = 0 /\ count = 16) \/ (first = 1 /\ count = 15)) as [[-> ->]|[-> ->]] by (unfold block_kind in Hk; lia).
      * split; intros H j Hj; apply (H j Hj).
      * split; intros H j Hj; [apply H; lia|]. destruct (Z.eq_dec j 0) as [->|]; [by apply H0|].
        specialize (H (j - 1) ltac:(lia)). by replace (1 + (j - 1)) with j in H by lia.
    + intros j Hj. apply Hc. unfold block_kind in Hk. lia.
  - intros code Hcode rest. rewrite <- (block_nC_predicted h f' 0 N i); [apply Hcode|done|done|..].
    + rewrite Hp by lia. apply HN. intros j Hj. apply neighbours_before; lia.
    + rewrite Hp by lia. apply HN. intros j Hj. apply neighbours_before; lia.
  - exists code. split; [exact Hread|]. intros S sink R sim q s c H. destruct (Hsim S sink R sim q s c H) as (s' & E & Hs').
    exists s'. split; [|exact Hs']. unfold write_counted_block.
    change (set_non_zero_count (view h f q) (scan8 i) (array_non_zero_count (luma4x4 (view h f q) i))) with (view h (upd f (scan8 i) (u8 n)) q).
    rewrite (uw_small 8 n) by lia. exact E.
Qed.

(** *** Loops over blocks *)
Lemma each_h_cons {S} {sink : BitSink S} f i l (h : x264_t) (s : S) :
  each_h f (i :: l) h s = match f h s i with Some (h, s) => each_h f l h s | None => None end.
Proof.
  unfold each_h. cbn [fold_left]. destruct (f h s i) as [[h' s']|]; [done|]. induction l as [|x l IH]; [done|]. exact IH.
Qed.

Lemma each_h_app {S} {sink : BitSink S} f l1 l2 (h : x264_t) (s : S) :
  each_h f (l1 ++ l2) h s = match each_h f l1 h s with Some (h, s) => each_h f l2 h s | None => None end.
Proof.
  revert h s. induction l1 as [|i l1 IH]; intros h s; [done|]. cbn [app]. rewrite !each_h_cons.
  destruct (f h s i) as [[h' s']|]; [apply IH|done].
Qed.

Lemma each_h_ext {S} {sink : BitSink S} f g l (h : x264_t) (s : S) : (forall h s i, In i l -> f h s i = g h s i) ->
  each_h f l h s = each_h g l h s.
Proof.
  revert h s. induction l as [|i l IH]; intros h s E; [done|]. rewrite !each_h_cons, E by (by left).
  destruct (g h s i) as [[h' s']|]; [|done]. apply IH. intros h0 s0 j Hj. apply E. by right.
Qed.

(** A condition on the state that the body does not change can be tested in each round. *)
Lemma each_h_guard {S} {sink : BitSink S} (c : x264_t -> bool) f l (h : x264_t) (s : S) :
  (forall h s i h' s', f h s i = Some (h', s') -> c h' = c h) ->
  (if c h then each_h f l h s else Some (h, s)) = each_h (fun h s i => if c h then f h s i else Some (h, s)) l h s.
Proof.
  intros Hc. revert h s. induction l as [|i l IH]; intros h s; [by destruct (c h)|]. rewrite !each_h_cons.
  destruct (c h) eqn:E.
  - destruct (f h s i) as [[h' s']|] eqn:Ef; [|done]. rewrite <- IH, (Hc _ _ _ _ _ Ef), E. done.
  - rewrite <- IH, E. done.
Qed.

Definition blocks_seen (h : x264_t) (first count : Z) (coded : Z -> bool) (l : list Z) : list (list Z) :=
  (fun j => if coded j then block_coefs h first count j else replicate (Z.to_nat count) 0) <$> l.

Lemma codes_blocks cat first count (coded : Z -> bool) h (body : forall S, BitSink S -> x264_t -> S -> Z -> option (x264_t * S)) lo hi :
  (forall S (sink : BitSink S) f q s j, lo <= j < hi -> body S sink (view h f q) s j =
    if coded j then write_counted_block cat first count (view h f q) s j else Some (view h f q, s)) ->
  0 <= lo -> hi <= 24 -> forall n i N f, lo <= i -> i + Z.of_nat n <= hi ->
  (forall j, i <= j < i + Z.of_nat n -> block_kind cat first count j) ->
  (forall j, i <= j < i + Z.of_nat n -> coded j = true -> coefs_ok h (luma4x4 h j) /\ (first = 1 -> luma4x4 h j 0 = 0)) ->
  (forall j, i <= j < i + Z.of_nat n -> coded j = false -> f (scan8 j) = 0) -> nnzs_ok f -> agree N f i ->
  exists f' N', codes (fun S sink h s => each_h (body S sink) (seqZ i (Z.of_nat n)) h s) (view h f) (view h f')
    (read_blocks count coded (seqZ i (Z.of_nat n)) N) (blocks_seen h first count coded (seqZ i (Z.of_nat n)), N') /\
    agree N' f' (i + Z.of_nat n) /\ nnzs_ok f' /\ (forall p, (forall j, i <= j < i + Z.of_nat n -> scan8 j <> p) -> f' p = f p).
Proof.
  intros Hbody Hlo Hhi. induction n as [|n IH]; intros i N f Hi Hn Hk Hc Hu Hf HN.
  - exists f, N. rewrite Z.add_0_r. split; [apply codes_skip|]. done.
  - rewrite seqZ_cons by lia. replace (Z.pred (Z.of_nat (S n))) with (Z.of_nat n) by lia. change (Z.succ i) with (i + 1) in *.
    set (t := if coded i then array_non_zero_count (luma4x4 h i) else 0).
    set (f1 := if coded i then upd f (scan8 i) t else f). set (N1 := upd N (scan8 i) t).
    assert (agree N1 f1 (i + 1)) as HN1.
    { intros p Hp. unfold N1, f1, upd. destruct (Z.eqb_spec p (scan8 i)) as [->|Hne].
      - destruct (coded i) eqn:E; [by rewrite Z.eqb_refl|]. unfold t. symmetry. apply Hu; [lia|done].
      - assert (N p = f p) as E1. { apply HN. intros j Hj. destruct (Z.eq_dec j i) as [->|]; [congruence|]. apply Hp. lia. }
        destruct (coded i); [|done]. by apply Z.eqb_neq in Hne as ->. }
    assert (nnzs_ok f1) as Hf1.
    { unfold f1. destruct (coded i) eqn:E; [|done]. intros p. unfold upd, t. destruct (p =? _); [|apply Hf]. left. apply array_non_zero_count_range. }
    destruct (IH (i + 1) N1 f1) as (f' & N' & C & HN' & Hf' & Hp'); [lia|lia|intros; apply Hk; lia|intros; apply Hc; [lia|done]| |done|done|].
    { intros j Hj E. rewrite <- (Hu j ltac:(lia) E). unfold f1. destruct (coded i); [|done]. unfold upd.
      destruct (Z.eqb_spec (scan8 j) (scan8 i)) as [Es|]; [|done]. apply scan8_inj in Es; lia. }
    exists f', N'. replace (i + Z.of_nat (S n)) with (i + 1 + Z.of_nat n) by lia. split; [|split; [done|split; [done|]]].
    + cbn [read_blocks]. change (blocks_seen h first count coded (i :: seqZ (i + 1) (Z.of_nat n))) with
        ((if coded i then block_coefs h first count i else replicate (Z.to_nat count) 0) ::
          blocks_seen h first count coded (seqZ (i + 1) (Z.of_nat n))).
      set (l := if coded i then _ else _).
      assert (codes (fun S sink h s => if coded i then write_counted_block cat first count h s i else Some (h, s)) (view h f) (view h f1)
        (pwhen (coded i) (read_residual (predicted_nC N i) count) (replicate (Z.to_nat count) 0)) l) as C1.
      { unfold l, f1, t. destruct (coded i) eqn:E; [|apply codes_skip]. destruct (Hc i ltac:(lia) E).
        apply codes_counted_block; try done. apply Hk. lia. }
      assert (total_coeff l = t) as Et.
      { unfold l, t. destruct (coded i) eqn:E.
        - destruct (Hc i ltac:(lia) E). apply (block_count h first count i cat); [apply Hk; lia|done].
        - apply total_coeff_zeros. }
      eapply codes_same; [| |done].
      * eapply codes_seq; [exact C1|]. cbv beta. rewrite Et. fold N1. eapply codes_last; [exact C|done].
      * intros S sink q s. cbv beta. rewrite each_h_cons, Hbody by lia. reflexivity.
    + intros p Hp. rewrite Hp' by (intros j Hj; apply Hp; lia). unfold f1. destruct (coded i); [|done]. unfold upd.
      destruct (Z.eqb_spec p (scan8 i)) as [->|]; [|done]. exfalso. apply (Hp i); [lia|done].
Qed.

(** *** Blocks of the 8x8 transform *)
Lemma interleave_8x8_spec dst i8 src b k : zigzag_interleave_8x8_cavlc dst i8 src b k =
  if (4 * i8 <=? b) && (b <? 4 * i8 + 4) && (0 <=? k) && (k <? 16) then src (b - 4 * i8 + k * 4) else dst b k.
Proof.
  unfold zigzag_interleave_8x8_cavlc.
  pose (P := fun i d => forall b k, d b k = if (4 * i8 <=? b) && (b <? 4 * i8 + i) && (0 <=? k) && (k <? 16)
    then src (b - 4 * i8 + k * 4) else dst b k : Z).
  enough (P 4 (for_ 4 0 (fun i => for_ 16 0 (fun j dst => fun b k => if (b =? i8 * 4 + i) && (k =? j) then src (i + j * 4) else dst b k)) dst))
    as HP by apply HP.
  apply (for_inv P 4 0).
  - intros b' k'. replace ((4 * i8 <=? b') && (b' <? 4 * i8 + 0)) with false by lia. done.
  - intros i d Hi HP.
    pose (Q := fun j d' => forall b k, d' b k = if (b =? i8 * 4 + i) && (0 <=? k) && (k <? j) then src (i + k * 4) else d b k : Z).
    assert (Q 16 (for_ 16 0 (fun j dst => fun b k => if (b =? i8 * 4 + i) && (k =? j) then src (i + j * 4) else dst b k) d)) as HQ.
    { apply (for_inv Q 16 0).
      - intros b' k'. destruct (b' =? i8 * 4 + i); cbn [andb]; [|done]. by replace ((0 <=? k') && (k' <? 0)) with false by lia.
      - intros j d' Hj HQ b' k'. rewrite HQ.
        destruct (Z.eqb_spec b' (i8 * 4 + i)), (Z.eqb_spec k' j); cbn [andb]; [subst|..].
        + replace ((0 <=? j) && (j <? j + 1)) with true by lia. done.
        + replace ((0 <=? k') && (k' <? j + 1)) with ((0 <=? k') && (k' <? j)) by lia. done.
        + done.
        + done. }
    intros b' k'. rewrite HQ, HP. destruct (Z.eqb_spec b' (i8 * 4 + i)) as [->|Hne]; cbn [andb].
    + replace (4 * i8 <=? i8 * 4 + i) with true by lia. replace (i8 * 4 + i <? 4 * i8 + i) with false by lia.
      replace (i8 * 4 + i <? 4 * i8 + (i + 1)) with true by lia. cbn [andb].
      by replace (i8 * 4 + i - 4 * i8 + k' * 4) with (i + k' * 4) by lia.
    + by replace ((4 * i8 <=? b') && (b' <? 4 * i8 + (i + 1))) with ((4 * i8 <=? b') && (b' <? 4 * i8 + i)) by lia.
Qed.

Lemma coded_bit cbp i8 : 0 <= cbp -> 0 <= i8 -> i2b (cbp .& (1 << i8)) = Z.testbit cbp i8.
Proof.
  intros Hc Hi. unfold i2b. rewrite Z.shiftl_1_l. destruct (Z.eqb_spec (cbp .& 2 ^ i8) 0) as [E|E]; cbn [negb].
  - assert (Z.testbit (cbp .& 2 ^ i8) i8 = false) as T by (rewrite E; apply Z.bits_0).
    rewrite Z.land_spec, Z.pow2_bits_true, andb_true_r in T by done. by rewrite T.
  - destruct (Z.testbit cbp i8) eqn:T; [done|]. destruct E. apply Z.bits_inj'. intros j Hj.
    rewrite Z.land_spec, Z.bits_0, Z.pow2_bits_eqb by done. destruct (Z.eqb_spec i8 j) as [->|]; [by rewrite T|apply andb_false_r].
Qed.

Lemma set_luma4x4_fields h L : luma4x4 (set_luma4x4 h L) = L /\ luma8x8 (set_luma4x4 h L) = luma8x8 h /\
  i_cbp_luma (set_luma4x4 h L) = i_cbp_luma h /\ (forall L', set_luma4x4 (set_luma4x4 h L) L' = set_luma4x4 h L').
Proof. by destruct h. Qed.

(** The coefficients after the blocks of the 8x8 transform have been dealt out. *)
Definition dealt (h : x264_t) : Z -> Z -> Z := fun b k =>
  if i2b (b_transform_8x8 h) && (0 <=? b) && (b <? 16) && (0 <=? k) && (k <? 16) && Z.testbit (i_cbp_luma h) (b / 4)
  then luma8x8 h (b / 4) (b mod 4 + k * 4) else luma4x4 h b k.

Lemma interleave_coded_spec h : 0 <= i_cbp_luma h -> i2b (b_transform_8x8 h) = true ->
  exists L, interleave_coded h 0 3 = set_luma4x4 h L /\ forall b k, L b k = dealt h b k.
Proof.
  intros Hc Ht. unfold interleave_coded, dealt. rewrite Ht. cbn [andb].
  pose (P := fun i8 h' => exists L, h' = set_luma4x4 h L /\ forall b k,
    L b k = if (0 <=? b) && (b <? 4 * i8) && (0 <=? k) && (k <? 16) && Z.testbit (i_cbp_luma h) (b / 4)
      then luma8x8 h (b / 4) (b mod 4 + k * 4) else luma4x4 h b k).
  apply (for_inv P 4 0).
  - exists (luma4x4 h). split; [by destruct h|]. intros b k. by replace ((0 <=? b) && (b <? 4 * 0)) with false by lia.
  - intros i8 h' Hi (L & -> & HL). destruct (set_luma4x4_fields h L) as (F1 & F2 & F3 & F4).
    rewrite F3, coded_bit by lia. destruct (Z.testbit (i_cbp_luma h) i8) eqn:T.
    + rewrite F1, F2, F4. eexists. split; [done|]. intros b k. rewrite interleave_8x8_spec, HL.
      destruct (Z.leb_spec (4 * i8) b), (Z.ltb_spec b (4 * i8 + 4)); cbn [andb].
      * assert (b / 4 = i8 /\ b mod 4 = b - 4 * i8) as [-> ->] by (Z.to_euclidean_division_equations; lia). rewrite T, andb_true_r.
        replace ((0 <=? b) && (b <? 4 * (i8 + 1))) with true by lia. replace (b <? 4 * i8) with false by lia.
        rewrite andb_false_r. cbn [andb]. destruct ((0 <=? k) && (k <? 16)); done.
      * replace ((0 <=? b) && (b <? 4 * (i8 + 1))) with false by lia. by replace ((0 <=? b) && (b <? 4 * i8)) with false by lia.
      * by replace ((0 <=? b) && (b <? 4 * (i8 + 1))) with ((0 <=? b) && (b <? 4 * i8)) by lia.
      * lia.
    + exists L. split; [done|]. intros b k. rewrite HL.
      destruct (Z.leb_spec (4 * i8) b), (Z.ltb_spec b (4 * i8 + 4)).
      * assert (b / 4 = i8) as -> by (Z.to_euclidean_division_equations; lia). by rewrite T, !andb_false_r.
      * replace ((0 <=? b) && (b <? 4 * (i8 + 1))) with false by lia. by replace ((0 <=? b) && (b <? 4 * i8)) with false by lia.
      * by replace ((0 <=? b) && (b <? 4 * (i8 + 1))) with ((0 <=? b) && (b <? 4 * i8)) by lia.
      * lia.
Qed.

Lemma write_counted_block_cbp {S} {sink : BitSink S} cat first count h s i h' s' :
  write_counted_block cat first count h s i = Some (h', s') -> i_cbp_luma h' = i_cbp_luma h.
Proof. unfold write_counted_block. case_match; [|done]. intros [= <- _]. by destruct h. Qed.

(** The two loops of the luma blocks as one. *)
Lemma luma_loop_flat {S} {sink : BitSink S} h s :
  each_h (fun h s i8 =>
      if i2b (i_cbp_luma h .& (1 << i8)) then
        each_h (fun h s i4 => write_counted_block DCT_LUMA_4x4 0 16 h s (i4+i8*4)) (seqZ 0 4) h s
      else Some (h, s)) (seqZ 0 4) h s =
  each_h (fun h s j => if i2b (i_cbp_luma h .& (1 << (j / 4))) then write_counted_block DCT_LUMA_4x4 0 16 h s j else Some (h, s))
    (seqZ 0 16) h s.
Proof.
  assert (forall i8 h s,
    (if i2b (i_cbp_luma h .& (1 << i8)) then each_h (fun h s i4 => write_counted_block DCT_LUMA_4x4 0 16 h s (i4+i8*4)) (seqZ 0 4) h s
     else Some (h, s)) =
    each_h (fun h s i4 => if i2b (i_cbp_luma h .& (1 << i8)) then write_counted_block DCT_LUMA_4x4 0 16 h s (i4+i8*4) else Some (h, s))
      (seqZ 0 4) h s) as HG.
  { intros i8 h0 s0. apply (each_h_guard (fun h => i2b (i_cbp_luma h .& (1 << i8)))). intros h1 s1 i h' s' E.
    by rewrite (write_counted_block_cbp _ _ _ _ _ _ _ _ E). }
  erewrite each_h_ext by (intros; apply HG). clear HG.
  set (g := fun h s j => if i2b (i_cbp_luma h .& (1 << (j / 4))) then write_counted_block DCT_LUMA_4x4 0 16 h s j else Some (h, s)).
  set (b := fun h s i8 => each_h _ (seqZ 0 4) h s).
  assert (forall i8, 0 <= i8 -> forall h s, b h s i8 = each_h g ((fun i4 => i4 + i8 * 4) <$> seqZ 0 4) h s) as HB.
  { intros i8 Hi h0 s0. unfold b. change (seqZ 0 4) with [0; 1; 2; 3]. cbn [fmap list_fmap]. unfold each_h. cbn [fold_left]. unfold g.
    assert ((0 + i8 * 4) / 4 = i8 /\ (1 + i8 * 4) / 4 = i8 /\ (2 + i8 * 4) / 4 = i8 /\ (3 + i8 * 4) / 4 = i8) as (-> & -> & -> & ->)
      by (Z.to_euclidean_division_equations; lia). reflexivity. }
  change (seqZ 0 16) with (((fun i4 => i4 + 0 * 4) <$> seqZ 0 4) ++ ((fun i4 => i4 + 1 * 4) <$> seqZ 0 4) ++
    ((fun i4 => i4 + 2 * 4) <$> seqZ 0 4) ++ ((fun i4 => i4 + 3 * 4) <$> seqZ 0 4)).
  change (each_h b (seqZ 0 4) h s) with (each_h b [0; 1; 2; 3] h s).
  rewrite !each_h_app, each_h_cons, (HB 0) by lia. destruct (each_h g ((fun i4 => i4 + 0 * 4) <$> _) h s) as [[h1 s1]|]; [|done].
  rewrite each_h_cons, (HB 1), each_h_app by lia. destruct (each_h g ((fun i4 => i4 + 1 * 4) <$> _) h1 s1) as [[h2 s2]|]; [|done].
  rewrite each_h_cons, (HB 2), each_h_app by lia. destruct (each_h g ((fun i4 => i4 + 2 * 4) <$> _) h2 s2) as [[h3 s3]|]; [|done].
  rewrite each_h_cons, (HB 3) by lia. by destruct (each_h g _ h3 s3) as [[h4 s4]|].
Qed.

(** *** The parts of the residual *)
Definition write_if_some {S} (h : x264_t) (o : option S) : option (x264_t * S) :=
  match o with Some s => Some (h, s) | None => None end.
Definition w_dc : h_writer := fun S sink h s =>
  if i_type h =? I_16x16 then write_if_some h (block_residual_write_cavlc h s DCT_LUMA_DC 24 (luma16x16_dc h) 16) else Some (h, s).
Definition w_luma : h_writer := fun S sink h s =>
  if i_type h =? I_16x16 then
    if i2b (i_cbp_luma h) then each_h (write_counted_block DCT_LUMA_AC 1 15) (seqZ 0 16) h s else Some (h, s)
  else if i2b (i_cbp_luma h .| i_cbp_chroma h) then x264_macroblock_luma_write_cavlc h s 0 3 else Some (h, s).
Definition w_chroma_dc (idx : Z) : h_writer := fun S sink h s =>
  if i2b (i_cbp_chroma h) then
    write_if_some h (block_residual_write_cavlc h s DCT_CHROMA_DC idx (chroma_dc h (idx - 25)) 4)
  else Some (h, s).
Definition w_chroma : h_writer := fun S sink h s =>
  if i2b (i_cbp_chroma h) && i2b (i_cbp_chroma h .& 2)
  then each_h (write_counted_block DCT_CHROMA_AC 1 15) (seqZ 16 8) h s else Some (h, s).
Definition w_residual : h_writer := h_seq w_dc (h_seq w_luma (h_seq (w_chroma_dc 25) (h_seq (w_chroma_dc 26) w_chroma))).

Definition delta_coded (h : x264_t) : bool := (i_type h =? I_16x16) || i2b (i_cbp_luma h .| i_cbp_chroma h).

Lemma qp_delta_fields {S} {sink : BitSink S} h s : let h' := fst (cavlc_qp_delta h s) in
  i_type h' = i_type h /\ i_cbp_luma h' = i_cbp_luma h /\ i_cbp_chroma h' = i_cbp_chroma h.
Proof. unfold cavlc_qp_delta. destruct h. repeat case_match; simplify_eq; done. Qed.

Lemma write_residual_parts {S} {sink : BitSink S} h s : write_residual h s =
  let '(h, s) := if delta_coded h then cavlc_qp_delta h s else (h, s) in w_residual S sink h s.
Proof.
  assert (forall h (s : S), match i2b (i_cbp_chroma h) with
    | true => match block_residual_write_cavlc h s DCT_CHROMA_DC 25 (chroma_dc h 0) 4 with
        | None => None
        | Some s =>
            match block_residual_write_cavlc h s DCT_CHROMA_DC 26 (chroma_dc h 1) 4 with
            | None => None
            | Some s =>
                if i2b (i_cbp_chroma h .& 2) then each_h (write_counted_block DCT_CHROMA_AC 1 15) (seqZ 16 8) h s else Some (h, s)
            end
        end
    | false => Some (h, s) end = h_seq (w_chroma_dc 25) (h_seq (w_chroma_dc 26) w_chroma) S sink h s) as HC.
  { intros h0 s0. unfold h_seq, w_chroma_dc, w_chroma, write_if_some.
    destruct (i2b (i_cbp_chroma h0)) eqn:E; cbn [andb]; [|rewrite E; cbv beta iota; rewrite E; done].
    change (25 - 25) with 0. change (26 - 25) with 1.
    destruct (block_residual_write_cavlc h0 s0 _ 25 _ _); [|done]. rewrite E. destruct (block_residual_write_cavlc h0 _ _ 26 _ _); [|done].
    by rewrite E. }
  unfold write_residual, w_residual, h_seq at 1 2, w_dc, w_luma, delta_coded, write_if_some.
  pose proof (qp_delta_fields h s) as (F1 & F2 & F3). cbv zeta in F1, F2, F3.
  destruct (i_type h =? I_16x16) eqn:Ei; cbn [orb].
  - destruct (cavlc_qp_delta h s) as [h1 s1]. cbn [fst] in *. rewrite F1, Ei.
    destruct (block_residual_write_cavlc h1 s1 _ 24 _ _) as [s2|]; [|done]. rewrite F1, Ei.
    destruct (if i2b (i_cbp_luma h1) then _ else _) as [[h3 s3]|]; [|done]. apply HC.
  - destruct (i2b (i_cbp_luma h .| i_cbp_chroma h)) eqn:El.
    + destruct (cavlc_qp_delta h s) as [h1 s1]. cbn [fst] in *. rewrite F1, Ei, F1, Ei, F2, F3, El.
      destruct (x264_macroblock_luma_write_cavlc h1 s1 0 3) as [[h3 s3]|]; [|done]. apply HC.
    + rewrite Ei, Ei, El. apply HC.
Qed.

(** What the encoder has established about its coefficients and counts. *)
Record residual_ok (h : x264_t) : Prop := {
  r_counts : nnzs_ok (non_zero_count h);
  r_uncoded : forall j, 0 <= j < 16 -> Z.testbit (i_cbp_luma h) (j / 4) = false -> non_zero_count h (scan8 j) = 0;
  r_coefs : forall j, 0 <= j < 24 -> coefs_ok h (luma4x4 h j);
  r_coefs8 : forall i8 k, 0 <= i8 < 4 -> 0 <= k < 64 ->
    is_coef (luma8x8 h i8 k) /\ coef_safe (i_profile_idc h >=? PROFILE_HIGH) (luma8x8 h i8 k);
  r_ac : forall j, 0 <= j < 24 -> i_type h = I_16x16 \/ 16 <= j -> luma4x4 h j 0 = 0;
  r_dc : i_type h = I_16x16 -> coefs_ok h (luma16x16_dc h) /\
    (non_zero_count h (scan8 24) = 0 <-> (forall k, 0 <= k < 16 -> luma16x16_dc h k = 0));
  r_chroma_dc : forall i, 0 <= i < 2 -> (forall k, 0 <= k < 4 -> is_coef (chroma_dc h i k) /\
      coef_safe (i_profile_idc h >=? PROFILE_HIGH) (chroma_dc h i k)) /\
    (non_zero_count h (scan8 (25 + i)) = 0 <-> (forall k, 0 <= k < 4 -> chroma_dc h i k = 0))
}.

(** The state when the luma blocks have been dealt out. *)
Definition dealt_mb (h : x264_t) : x264_t :=
  if negb (i_type h =? I_16x16) && delta_coded h && i2b (b_transform_8x8 h) then interleave_coded h 0 3 else h.

Lemma dealt_mb_spec h : mb_ok h -> exists L, dealt_mb h = set_luma4x4 h L /\
  (i2b (i_cbp_luma h .| i_cbp_chroma h) = true \/ i_type h = I_16x16 -> forall b k, L b k = dealt h b k).
Proof.
  intros ok. unfold dealt_mb. destruct (o_cbp _ ok) as (C1 & _). destruct (o_transform _ ok) as (T1 & T2 & T3 & T4).
  destruct (Z.eqb_spec (i_type h) I_16x16) as [E|E]; cbn [negb andb].
  - exists (luma4x4 h). split; [by destruct h|]. intros _ b k. unfold dealt.
    assert (b_transform_8x8 h = 0) as ->; [|done].
    destruct T1 as [T1|T1]; [done|]. assert (is_NxN (kind_seen h) = false) as EN by (rewrite kind_NxN, E; reflexivity).
    specialize (T4 EN T1). unfold x264_mb_transform_8x8_allowed in T4. rewrite E in T4. by destruct (b_transform_8x8_mode h).
  - destruct (i2b (b_transform_8x8 h)) eqn:Et.
    + unfold delta_coded. replace (i_type h =? I_16x16) with false by (symmetry; by apply Z.eqb_neq). cbn [orb].
      destruct (i2b (i_cbp_luma h .| i_cbp_chroma h)) eqn:El; cbn [andb].
      * destruct (interleave_coded_spec h ltac:(lia) Et) as (L & E1 & E2). exists L. split; [done|]. intros _. exact E2.
      * exists (luma4x4 h). split; [by destruct h|]. intros [|]; done.
    + rewrite andb_false_r. exists (luma4x4 h). split; [by destruct h|]. intros _ b k. unfold dealt. by rewrite Et.
Qed.

Section Residual.
Context (h : x264_t) (ok : mb_ok h) (rok : residual_ok h).
Local Abbreviation hd := (dealt_mb h).
Local Abbreviation coded := (fun j => Z.testbit (cbp_seen h) (j / 4)).

Lemma dealt_fields : i_type hd = i_type h /\ i_cbp_luma hd = i_cbp_luma h /\ i_cbp_chroma hd = i_cbp_chroma h /\
  i_profile_idc hd = i_profile_idc h /\ luma16x16_dc hd = luma16x16_dc h /\ chroma_dc hd = chroma_dc h /\
  non_zero_count hd = non_zero_count h.
Proof. destruct (dealt_mb_spec h ok) as (L & -> & _). by destruct h. Qed.

Lemma luma_bit j : 0 <= j < 16 -> Z.testbit (cbp_seen h) (j / 4) = Z.testbit (i_cbp_luma h) (j / 4).
Proof.
  intros Hj. destruct (cbp_seen_spec h ok) as (<- & _). rewrite Z.lor_spec, Z.shiftl_spec by (Z.to_euclidean_division_equations; lia).
  rewrite Z.testbit_neg_r by (Z.to_euclidean_division_equations; lia). done.
Qed.

Lemma dealt_coefs j : 0 <= j < 24 -> delta_coded h = true -> coefs_ok hd (luma4x4 hd j) /\
  (i_type h = I_16x16 \/ 16 <= j -> luma4x4 hd j 0 = 0).
Proof.
  intros Hj Hd. destruct (dealt_mb_spec h ok) as (L & E & EL).
  assert (forall b k, L b k = dealt h b k) as HL.
  { apply EL. unfold delta_coded in Hd. apply orb_prop in Hd as [Hd|Hd]; [right; by apply Z.eqb_eq|by left]. }
  assert (i_profile_idc hd = i_profile_idc h) as Ep by apply dealt_fields.
  destruct (set_luma4x4_fields h L) as (F1 & _). split.
  - intros k Hk. rewrite Ep, E, F1, HL. unfold dealt. destruct (_ && _) eqn:Ec; [|by apply (r_coefs _ rok)].
    rewrite !andb_true_iff in Ec. apply (r_coefs8 _ rok); Z.to_euclidean_division_equations; lia.
  - intros Hc. rewrite E, F1, HL. unfold dealt. destruct (_ && _) eqn:Ec; [|by apply (r_ac _ rok)].
    rewrite !andb_true_iff in Ec. destruct Ec as [[[[[Ec _] Hb] _] _] _]. destruct Hc as [Hc|Hc]; [|lia]. exfalso.
    destruct (o_transform _ ok) as (T1 & _ & _ & T4). assert (b_transform_8x8 h = 1) as Et by (destruct T1 as [T1|T1]; [by rewrite T1 in Ec|done]).
    assert (is_NxN (kind_seen h) = false) as EN by (rewrite kind_NxN, Hc; reflexivity).
    specialize (T4 EN Et). unfold x264_mb_transform_8x8_allowed in T4. rewrite Hc in T4. by destruct (b_transform_8x8_mode h).
Qed.

(** The DC block of a 16x16 prediction. *)
Definition dc_seen : list Z := if i_type h =? I_16x16 then coefs (luma16x16_dc h) 16 else [].

Lemma codes_dc N : agree N (non_zero_count h) 0 ->
  codes w_dc (view h (non_zero_count h)) (view h (non_zero_count h))
    (pwhen (is_16x16 (kind_seen h)) (read_residual (predicted_nC N 0) 16) []) dc_seen.
Proof.
  intros HN. rewrite kind_16x16. unfold dc_seen. destruct (i_type h =? I_16x16) eqn:E; cbn [pwhen].
  - apply Z.eqb_eq in E. destruct (r_dc _ rok E) as [D1 D2].
    eapply codes_same; [| |done].
    + eapply (codes_residual h (non_zero_count h) DCT_LUMA_DC 24 (luma16x16_dc h) 16). 
      * split.
        -- right. right. split; [by right|]. lia.
        -- split; apply (r_counts _ rok).
        -- intros k Hk. by apply D1.
        -- exact D2.
        -- intros k Hk. by apply D1.
      * intros code Hcode rest. unfold residual_code in Hcode.
        change (block_nC (view h (non_zero_count h) 0) 24) with (block_nC (view h (non_zero_count h) 0) 0) in Hcode.
        rewrite (block_nC_predicted h _ 0 N 0) in Hcode; [apply Hcode|lia|apply rok|..]; apply HN; intros j Hj; apply neighbours_before; lia.
    + intros S sink q s. unfold w_dc. cbn [view i_type]. by rewrite E.
  - eapply codes_same; [apply codes_skip| |done]. intros S sink q s. unfold w_dc. cbn [view i_type]. by rewrite E.
Qed.

(** The luma blocks. *)
Definition luma_first : Z := if i_type h =? I_16x16 then 1 else 0.
Definition luma_count : Z := if i_type h =? I_16x16 then 15 else 16.

Lemma luma_write_view {S} {sink : BitSink S} f q (s : S) : i_type h <> I_16x16 -> delta_coded h = true ->
  x264_macroblock_luma_write_cavlc (view h f q) s 0 3 =
  each_h (fun h s j => if i2b (i_cbp_luma h .& (1 << (j / 4))) then write_counted_block DCT_LUMA_4x4 0 16 h s j else Some (h, s))
    (seqZ 0 16) (view hd f q) s.
Proof.
  intros Ht Hd. unfold x264_macroblock_luma_write_cavlc. change (3 - 0 + 1) with 4. rewrite luma_loop_flat.
  assert ((if i2b (b_transform_8x8 (view h f q)) then interleave_coded (view h f q) 0 3 else view h f q) = view hd f q) as ->; [|done].
  unfold dealt_mb. apply Z.eqb_neq in Ht as ->. rewrite Hd. cbn [negb andb view b_transform_8x8].
  destruct (i2b (b_transform_8x8 h)); [|done]. unfold interleave_coded. change (Z.to_nat (3 - 0 + 1)) with 4%nat.
  assert (forall n i8 h, for_ n i8 (fun i8 h => if i2b (i_cbp_luma h .& (1 << i8))
      then set_luma4x4 h (zigzag_interleave_8x8_cavlc (luma4x4 h) i8 (luma8x8 h i8)) else h) (view h f q) =
    view (for_ n i8 (fun i8 h => if i2b (i_cbp_luma h .& (1 << i8))
      then set_luma4x4 h (zigzag_interleave_8x8_cavlc (luma4x4 h) i8 (luma8x8 h i8)) else h) h) f q) as HV; [|apply HV].
  intros n. induction n as [|n IH]; intros i8 h0; [done|]. cbn [for_]. rewrite <- IH. f_equal.
  cbn [view i_cbp_luma]. destruct (i2b (i_cbp_luma h0 .& (1 << i8))); [|done]. by destruct h0.
Qed.

Lemma codes_luma_blocks N body : agree N (non_zero_count h) 0 ->
  let cat := if i_type h =? I_16x16 then DCT_LUMA_AC else DCT_LUMA_4x4 in
  (forall S (sink : BitSink S) f q s j, 0 <= j < 16 -> body S sink (view hd f q) s j =
    if Z.testbit (i_cbp_luma h) (j / 4) then write_counted_block cat luma_first luma_count (view hd f q) s j else Some (view hd f q, s)) ->
  exists f' N', codes (fun S sink h s => each_h (body S sink) (seqZ 0 16) h s) (view hd (non_zero_count h)) (view hd f')
    (read_blocks luma_count coded (seqZ 0 16) N) (blocks_seen hd luma_first luma_count coded (seqZ 0 16), N') /\
    agree N' f' 16 /\ nnzs_ok f' /\ (forall p, (forall j, 0 <= j < 16 -> scan8 j <> p) -> f' p = non_zero_count h p).
Proof.
  intros HN cat Hbody.
  apply (codes_blocks cat luma_first luma_count coded hd body 0 16) with (n := 16%nat) (i := 0); try done.
  - intros S sink f q s j Hj. rewrite Hbody, luma_bit by done. done.
  - intros j Hj. unfold block_kind, cat, luma_first, luma_count. destruct (i_type h =? I_16x16); lia.
  - intros j Hj Ec. rewrite luma_bit in Ec by lia.
    assert (delta_coded h = true) as Hd.
    { unfold delta_coded. apply orb_true_iff. right. unfold i2b. apply negb_true_iff, Z.eqb_neq. intros E. apply Z.lor_eq_0_iff in E as [E _].
      by rewrite E, Z.bits_0 in Ec. }
    destruct (dealt_coefs j ltac:(lia) Hd) as [K1 K2]. split; [done|]. unfold luma_first. intros Hf. apply K2. left.
    destruct (Z.eqb_spec (i_type h) I_16x16); [done|lia].
  - intros j Hj Ec. rewrite luma_bit in Ec by lia. by apply (r_uncoded _ rok).
  - apply rok.
Qed.

Lemma each_h_skip {S} {sink : BitSink S} l h0 (s : S) : each_h (fun h s _ => Some (h, s)) l h0 s = Some (h0, s).
Proof. induction l; [done|]. by rewrite each_h_cons. Qed.

Lemma codes_luma N : agree N (non_zero_count h) 0 ->
  exists f' N', codes w_luma (view h (non_zero_count h)) (view hd f')
    (read_blocks (if is_16x16 (kind_seen h) then 15 else 16) coded (seqZ 0 16) N) (blocks_seen hd luma_first luma_count coded (seqZ 0 16), N') /\
    agree N' f' 16 /\ nnzs_ok f' /\ (forall p, (forall j, 0 <= j < 16 -> scan8 j <> p) -> f' p = non_zero_count h p).
Proof.
  intros HN. rewrite kind_16x16. fold luma_count. destruct (o_cbp _ ok) as (C1 & C2 & C3). destruct dealt_fields as (D1 & D2 & D3 & _).
  assert ((i_type h = I_16x16 /\ i_cbp_luma h = 15) \/ (i_type h <> I_16x16 /\ i2b (i_cbp_luma h .| i_cbp_chroma h) = true) \/
    (i_cbp_luma h = 0 /\ hd = h /\ (i_type h <> I_16x16 -> i2b (i_cbp_luma h .| i_cbp_chroma h) = false))) as [[E1 E2]|[[E1 E2]|(E1 & E2 & E3)]].
  { destruct (Z.eq_dec (i_type h) I_16x16) as [E|E].
    - destruct (C3 E) as [E0|E0]; [|by left]. right. right. split; [done|]. split; [|done]. unfold dealt_mb. by rewrite E.
    - destruct (i2b (i_cbp_luma h .| i_cbp_chroma h)) eqn:El; [right; by left|]. right. right.
      assert (i_cbp_luma h = 0) as E0.
      { unfold i2b in El. apply negb_false_iff, Z.eqb_eq, Z.lor_eq_0_iff in El. tauto. }
      split; [done|]. split; [|done]. unfold dealt_mb, delta_coded. apply Z.eqb_neq in E as ->. by rewrite El. }
  - destruct (codes_luma_blocks N (fun S sink => write_counted_block DCT_LUMA_AC 1 15) HN) as (f' & N' & C & HP).
    { intros S sink f q s j Hj. unfold luma_first, luma_count. rewrite E1, E2. cbn [I_16x16 Z.eqb Pos.eqb].
      replace (Z.testbit 15 (j / 4)) with true; [done|].
      assert (j / 4 = 0 \/ j / 4 = 1 \/ j / 4 = 2 \/ j / 4 = 3) as HJ by (Z.to_euclidean_division_equations; lia).
      by destruct HJ as [-> | [-> | [-> | ->]]]. }
    exists f', N'. split; [|done]. eapply codes_same; [exact C| |done]. intros S sink q s.
    assert (hd = h) as -> by (unfold dealt_mb; by rewrite E1). unfold w_luma. cbn [view i_type i_cbp_luma]. by rewrite E1, E2.
  - destruct (codes_luma_blocks N (fun S sink h s j =>
      if i2b (i_cbp_luma h .& (1 << (j / 4))) then write_counted_block DCT_LUMA_4x4 0 16 h s j else Some (h, s)) HN) as (f' & N' & C & HP).
    { intros S sink f q s j Hj. unfold luma_first, luma_count. apply Z.eqb_neq in E1 as ->. cbn [view i_cbp_luma].
      by rewrite D2, coded_bit by (Z.to_euclidean_division_equations; lia). }
    exists f', N'. split; [|done]. eapply codes_same; [exact C| |done]. intros S sink q s. cbv beta.
    rewrite <- luma_write_view by (done || (unfold delta_coded; rewrite E2; apply orb_true_r)).
    unfold w_luma. cbn [view i_type i_cbp_luma i_cbp_chroma]. apply Z.eqb_neq in E1 as ->. by rewrite E2.
  - destruct (codes_luma_blocks N (fun S sink h s _ => Some (h, s)) HN) as (f' & N' & C & HP).
    { intros S sink f q s j Hj. by rewrite E1, Z.bits_0. }
    exists f', N'. split; [|done]. eapply codes_same; [exact C| |done]. intros S sink q s. cbv beta. rewrite each_h_skip, E2.
    unfold w_luma. cbn [view i_type i_cbp_luma i_cbp_chroma]. destruct (Z.eqb_spec (i_type h) I_16x16) as [E|E]; [by rewrite E1|].
    by rewrite E3.
Qed.

(** The chroma blocks. *)
Lemma codes_chroma_dc f' i : 0 <= i < 2 -> nnzs_ok f' -> (forall p, (forall j, 0 <= j < 16 -> scan8 j <> p) -> f' p = non_zero_count h p) ->
  codes (w_chroma_dc (25 + i)) (view hd f') (view hd f')
    (pwhen (negb (cbp_seen h / 16 =? 0)) (read_residual 4 4) (replicate 4 0))
    (if negb (cbp_seen h / 16 =? 0) then coefs (chroma_dc h i) 4 else replicate 4 0).
Proof.
  intros Hi Hf Hp. destruct (cbp_seen_spec h ok) as (_ & _ & _ & ->). destruct dealt_fields as (D1 & D2 & D3 & D4 & D5 & D6 & D7).
  destruct (r_chroma_dc _ rok i Hi) as [R1 R2].
  destruct (negb (i_cbp_chroma h =? 0)) eqn:Ec; cbn [pwhen].
  - eapply codes_same; [| |done].
    + eapply (codes_residual hd f' DCT_CHROMA_DC (25 + i) (chroma_dc h i) 4).
      * split.
        -- left. split; [done|]. lia.
        -- split; apply Hf.
        -- intros k Hk. by apply R1.
        -- cbn [view non_zero_count]. rewrite Hp; [exact R2|]. intros j Hj.
           assert (all_range 0 16 (fun j => negb (scan8 j =? scan8 25) && negb (scan8 j =? scan8 26)) = true) as C by (vm_compute; reflexivity).
           eapply all_range_spec with (i := j) in C; [|lia]. cbv beta in C. assert (i = 0 \/ i = 1) as [-> | ->] by lia; change (25 + 0) with 25; change (25 + 1) with 26; lia.
        -- intros k Hk. cbn [view i_profile_idc]. rewrite D4. by apply R1.
      * intros code Hcode rest. unfold residual_code, block_nC in Hcode. replace (25 + i >=? 25) with true in Hcode by lia. apply Hcode.
    + intros S sink q s. unfold w_chroma_dc, write_if_some. cbn [view i_cbp_chroma chroma_dc]. rewrite D3, D6. unfold i2b. rewrite Ec.
      by replace (25 + i - 25) with i by lia.
  - eapply codes_same; [apply codes_skip| |done]. intros S sink q s. unfold w_chroma_dc. cbn [view i_cbp_chroma]. rewrite D3. unfold i2b. by rewrite Ec.
Qed.

Lemma codes_chroma f' N : nnzs_ok f' -> agree N f' 16 ->
  exists f'' N', codes w_chroma (view hd f') (view hd f'')
    (read_blocks 15 (fun _ => cbp_seen h / 16 =? 2) (seqZ 16 8) N) (blocks_seen hd 1 15 (fun _ => cbp_seen h / 16 =? 2) (seqZ 16 8), N').
Proof.
  intros Hf HN. destruct (cbp_seen_spec h ok) as (_ & _ & _ & ->). destruct dealt_fields as (D1 & D2 & D3 & _).
  destruct (o_cbp _ ok) as (_ & C2 & _). destruct (Z.eqb_spec (i_cbp_chroma h) 2) as [E|E].
  - destruct (codes_blocks DCT_CHROMA_AC 1 15 (fun _ => true) hd (fun S sink => write_counted_block DCT_CHROMA_AC 1 15) 16 24)
      with (n := 8%nat) (i := 16) (N := N) (f := f') as (f'' & N' & C & _); try done.
    + intros j Hj. unfold block_kind. lia.
    + intros j Hj _. destruct (dealt_coefs j ltac:(lia)) as [K1 K2].
      { unfold delta_coded. apply orb_true_iff. right. unfold i2b. apply negb_true_iff, Z.eqb_neq. intros E'. apply Z.lor_eq_0_iff in E'. lia. }
      split; [done|]. intros _. apply K2. right. lia.
    + exists f'', N'. eapply codes_same; [exact C| |done]. intros S sink q s. unfold w_chroma. cbn [view i_cbp_chroma]. by rewrite D3, E.
  - exists f'. assert (exists N', forall rest, read_blocks 15 (fun _ => false) (seqZ 16 8) N rest =
      Some (blocks_seen hd 1 15 (fun _ => false) (seqZ 16 8), N', rest)) as [N1 HN1].
    { eexists. intros rest. reflexivity. }
    exists N1. eapply codes_same; [apply codes_skip| |exact HN1].
    intros S sink q s. unfold w_chroma. cbn [view i_cbp_chroma]. rewrite D3.
    assert (i_cbp_chroma h = 0 \/ i_cbp_chroma h = 1) as [-> | ->] by lia; done.
Qed.

Definition chroma_dc_seen : list (list Z) :=
  (fun i => if negb (cbp_seen h / 16 =? 0) then coefs (chroma_dc h i) 4 else replicate 4 0) <$> seqZ 0 2.

(** The whole residual, after the quantiser. *)
Lemma codes_w_residual {A} (mk : list Z -> list (list Z) -> list (list Z) -> list (list Z) -> A) :
  exists f', codes w_residual (view h (non_zero_count h)) (view hd f')
    (get dc from pwhen (is_16x16 (kind_seen h)) (read_residual (predicted_nC (c_total_coeff (context_of h)) 0) 16) [];
     get luma from read_blocks (if is_16x16 (kind_seen h) then 15 else 16) (fun i => Z.testbit (cbp_seen h) (i / 4)) (seqZ 0 16)
       (c_total_coeff (context_of h));
     get chroma_dc from peach (fun _ => pwhen (negb (cbp_seen h / 16 =? 0)) (read_residual 4 4) (replicate 4 0)) (seqZ 0 2);
     get chroma from read_blocks 15 (fun _ => cbp_seen h / 16 =? 2) (seqZ 16 8) (snd luma);
     pret (mk dc (fst luma) chroma_dc (fst chroma)))
    (mk dc_seen (blocks_seen hd luma_first luma_count coded (seqZ 0 16)) chroma_dc_seen
      (blocks_seen hd 1 15 (fun _ => cbp_seen h / 16 =? 2) (seqZ 16 8))).
Proof.
  assert (agree (c_total_coeff (context_of h)) (non_zero_count h) 0) as HN.
  { intros p Hp. cbn [context_of c_total_coeff]. destruct (existsb (Z.eqb p) current_blocks) eqn:E; [|done].
    apply existsb_exists in E as (x & Hx & E). apply Z.eqb_eq in E as <-. unfold current_blocks in Hx.
    apply in_map_iff in Hx as (j & <- & Hj). apply list_elem_of_In, elem_of_seqZ in Hj. exfalso. by apply (Hp j). }
  destruct (codes_luma _ HN) as (f1 & N1 & C1 & HN1 & Hf1 & Hp1). destruct (codes_chroma f1 N1 Hf1 HN1) as (f2 & N2 & C2).
  exists f2. unfold w_residual.
  eapply codes_seq; [by apply codes_dc|]. cbv beta. eapply codes_seq; [exact C1|]. cbv beta. cbn [snd fst].
  set (r := pwhen _ (read_residual 4 4) _).
  eapply codes_same with (r := (get c0 from r; get c1 from r;
    get chroma from read_blocks 15 (fun _ => cbp_seen h / 16 =? 2) (seqZ 16 8) N1;
    pret (mk dc_seen (blocks_seen hd luma_first luma_count coded (seqZ 0 16)) [c0; c1] (fst chroma)))); [|done|].
  - eapply codes_seq; [apply (codes_chroma_dc f1 0); [lia|done|done]|]. cbv beta.
    eapply codes_seq; [apply (codes_chroma_dc f1 1); [lia|done|done]|]. cbv beta.
    eapply codes_last; [exact C2|done].
  - intros l. change (seqZ 0 2) with [0; 1]. cbn [peach]. unfold pbind, pret. destruct (r l) as [[c0 l0]|]; [|done].
    by destruct (r l0) as [[c1 l1]|].
Qed.
End Residual.

(** ** The quantiser *)
Definition empty_16x16 (h : x264_t) : bool :=
  (i_type h =? I_16x16) && negb (i2b (i_cbp_luma h .| i_cbp_chroma h)) && negb (i2b (non_zero_count h (scan8 24))).
Definition dqp_seen (h : x264_t) : Z :=
  let d := if empty_16x16 h then 0 else i_qp h - i_last_qp h in
  if d <? -26 then d + 52 else if d >? 25 then d - 52 else d.
Definition qp_after (skip : bool) (h : x264_t) : Z :=
  if delta_coded h && empty_16x16 h && negb skip then i_last_qp h else i_qp h.
(** The quantiser a decoder uses: the last one when none is coded. *)
Definition qp_seen (h : x264_t) : Z := if delta_coded h && negb (empty_16x16 h) then i_qp h else i_last_qp h.

Lemma qp_delta_spec {S} {sink : BitSink S} h (s : S) : delta_coded h = true ->
  cavlc_qp_delta h s = (view h (non_zero_count h) (qp_after sk_skip h), sk_write_se s (dqp_seen h)).
Proof.
  intros Hd. unfold cavlc_qp_delta, dqp_seen, qp_after. rewrite Hd. fold (empty_16x16 h). cbn [andb].
  destruct (empty_16x16 h); cbn [negb andb i2b Z.eqb].
  - destruct sk_skip; cbn [negb]; [by rewrite view_self|by rewrite view_qp].
  - rewrite view_self. unfold i2b. destruct (Z.eqb_spec (i_qp h - i_last_qp h) 0) as [->|]; done.
Qed.

Lemma qp_decoded h : mb_ok h -> -26 <= dqp_seen h <= 25 /\
  (i_last_qp h + (if delta_coded h then dqp_seen h else 0) + 52) mod 52 = qp_seen h.
Proof.
  intros ok. destruct (o_qp _ ok) as [Q1 Q2].
  assert ((i_last_qp h + 0 + 52) mod 52 = i_last_qp h) as E0.
  { replace (i_last_qp h + 0 + 52) with (i_last_qp h + 1 * 52) by lia. rewrite Z.mod_add, Z.mod_small by lia. done. }
  unfold dqp_seen, qp_seen. destruct (empty_16x16 h); cbn [negb]; [rewrite andb_false_r; by destruct (delta_coded h)|].
  destruct (delta_coded h); cbn [andb]; destruct (Z.ltb_spec (i_qp h - i_last_qp h) (-26)), (Z.gtb_spec (i_qp h - i_last_qp h) 25);
    (split; [lia|]); try exact E0; Z.to_euclidean_division_equations; lia.
Qed.

(** ** The macroblock *)
Definition mb_seen (h : x264_t) : macroblock :=
  let hd := dealt_mb h in
  let coded j := Z.testbit (cbp_seen h) (j / 4) in
  Macroblock (field_flag_present h && i2b (b_interlaced h)) (kind_seen h) (pred_seen h) (cbp_seen h) (transform_seen h) (qp_seen h)
    (dc_seen h) (blocks_seen hd (luma_first h) (luma_count h) coded (seqZ 0 16)) (chroma_dc_seen h)
    (blocks_seen hd 1 15 (fun _ => cbp_seen h / 16 =? 2) (seqZ 16 8)).

(** The writer that both compilations share. *)
Definition write_layer (off : Z) : h_writer := fun S sink h s =>
  write_residual h (write_cbp h (write_mb_pred h off (write_field_flag h s))).

Lemma delta_coded_seen h : mb_ok h -> delta_coded h = is_16x16 (kind_seen h) || negb (cbp_seen h =? 0).
Proof.
  intros ok. unfold delta_coded. rewrite kind_16x16. f_equal. unfold i2b. f_equal.
  destruct (o_cbp _ ok) as (C1 & C2 & _). unfold cbp_seen. apply eq_true_iff_eq. rewrite !Z.eqb_eq, Z.lor_eq_0_iff. lia.
Qed.

(** The code of a macroblock does not depend on the sink, and is read back. *)
Lemma layer_codes h off : mb_ok h -> residual_ok h -> i_type h <> I_PCM -> i_mb_i_offset h = Some off ->
  exists f' code, reads (read_macroblock (context_of h)) code (mb_seen h) /\
    forall S (sink : BitSink S) (R : S -> list bool -> Prop), SinkSim sink (code_sink false) R -> forall s c, R s c ->
      exists s', write_layer off S sink h s = Some (view (dealt_mb h) f' (qp_after sk_skip h), s') /\ R s' (c ++ code).
Proof.
  intros ok rok Hp Hoff. destruct (pred_all h ok off Hoff Hp) as (v & f & Hpred & Hv & Hk & Hf).
  set (mk := fun dc luma cdc chroma => Macroblock (field_flag_present h && i2b (b_interlaced h)) (kind_seen h) (pred_seen h)
    (cbp_seen h) (transform_seen h) (qp_seen h) dc luma cdc chroma).
  destruct (codes_w_residual h ok rok mk) as (f' & cr & Rr & Hr).
  set (tail := pbind (pwhen (is_16x16 (kind_seen h)) _ _) _) in Rr.
  assert (writes (fun S sink => write_field_flag h ;> (fun s => sk_write_ue s v) ;> f S sink ;> write_cbp h ;>
      when (delta_coded h) (fun s => sk_write_se s (dqp_seen h)))
    (get field from pwhen (field_flag_present h) pflag false;
     get v from read_ue;
     match kind_of_type (sh_i_type h) v with
     | None => pfail
     | Some k =>
        get p from read_mb_pred (context_of h) k;
        get cbp from read_cbp k;
        get t8x8 from pwhen (transform_8x8_possible (context_of h) k (m_subs p) && c_transform_8x8_mode (context_of h) && negb (cbp mod 16 =? 0))
          pflag (m_t8x8 p);
        get delta from pwhen (is_16x16 k || negb (cbp =? 0)) read_se 0;
        pret (field, k, p, cbp, t8x8, delta)
     end)
    (field_flag_present h && i2b (b_interlaced h), kind_seen h, pred_seen h, cbp_seen h, transform_seen h, if delta_coded h then dqp_seen h else 0))
    as (ch & Rh & Hh).
  { eapply writes_seq with (a := field_flag_present h && i2b (b_interlaced h)).
    { unfold write_field_flag. fold (field_flag_present h). apply writes_when; [intros ->; apply writes_flag; destruct (o_field _ ok); lia|by intros ->]. }
    eapply writes_seq; [by apply writes_ue|]. cbv beta. rewrite Hk. eapply writes_seq; [exact Hf|]. cbv beta.
    apply (writes_cbp h (fun cbp t8x8 => get delta from pwhen (is_16x16 (kind_seen h) || negb (cbp =? 0)) read_se 0;
      pret (field_flag_present h && i2b (b_interlaced h), kind_seen h, pred_seen h, cbp, t8x8, delta))); [done|done|].
    rewrite <- delta_coded_seen by done. eapply writes_last; [|done].
    apply writes_when; [|by intros ->]. intros ->. apply writes_se. destruct (qp_decoded h ok) as [Q _]. lia. }
  exists f', (ch ++ cr). split.
  - intros rest. specialize (Rh (cr ++ rest)). rewrite <- app_assoc.
    set (head := pbind _ _) in Rh. specialize (Rr rest). set (l := ch ++ cr ++ rest) in *.
    assert (read_macroblock (context_of h) l = match head l with
      | Some (field, k, p, cbp, t8x8, delta, l) =>
          (get dc from pwhen (is_16x16 k) (read_residual (predicted_nC (c_total_coeff (context_of h)) 0) 16) [];
           get luma from read_blocks (if is_16x16 k then 15 else 16) (fun i => Z.testbit cbp (i / 4)) (seqZ 0 16) (c_total_coeff (context_of h));
           get chroma_dc from peach (fun _ => pwhen (negb (cbp / 16 =? 0)) (read_residual 4 4) (replicate 4 0)) (seqZ 0 2);
           get chroma from read_blocks 15 (fun _ => cbp / 16 =? 2) (seqZ 16 8) (snd luma);
           pret (Macroblock field k p cbp t8x8 ((c_qp (context_of h) + delta + 52) mod 52) dc (fst luma) chroma_dc (fst chroma))) l
      | None => None end) as ->.
    { unfold read_macroblock, head, pbind, pret. cbn [context_of c_field_flag c_slice].
      destruct (pwhen (field_flag_present h) pflag false l) as [[field l1]|]; [|done].
      destruct (read_ue l1) as [[v' l2]|]; [|done]. destruct (kind_of_type (sh_i_type h) v') as [k|]; [|done].
      destruct (read_mb_pred (context_of h) k l2) as [[p l3]|]; [|done].
      destruct (read_cbp k l3) as [[cbp l4]|]; [|done].
      destruct (pwhen _ pflag (m_t8x8 p) l4) as [[t8x8 l5]|]; [|done].
      destruct (pwhen _ read_se 0 l5) as [[delta l6]|]; [|done]. reflexivity. }
    rewrite Rh. cbn [context_of c_qp]. rewrite (proj2 (qp_decoded h ok)). exact Rr.
  - intros S sink R sim s c Hs. unfold write_layer. rewrite write_residual_parts.
    pose proof (Hh S sink R sim s c Hs) as Hs1. unfold seq in Hs1. rewrite <- Hpred in Hs1.
    set (s1 := write_cbp h (write_mb_pred h off (write_field_flag h s))) in *.
    assert ((if delta_coded h then cavlc_qp_delta h s1 else (h, s1)) =
      (view h (non_zero_count h) (qp_after sk_skip h), when (delta_coded h) (fun s => sk_write_se s (dqp_seen h)) s1)) as ->.
    { destruct (delta_coded h) eqn:Ed; [by apply qp_delta_spec|]. unfold qp_after. rewrite Ed. by rewrite view_self. }
    destruct (Hr S sink R sim (qp_after sk_skip h) _ _ Hs1) as (s' & E & Hs'). exists s'. by rewrite app_assoc.
Qed.

(** ** The two compilations *)
Lemma offset_ok h : mb_ok h -> exists off, i_mb_i_offset h = Some off.
Proof.
  intros ok. unfold i_mb_i_offset. destruct (o_type _ ok) as [[_ Hs]|[[_ Hs]|[_ Hs]]].
  - cbn in Hs. destruct Hs as [<-|[<-|[<-|[]]]]; by eexists.
  - rewrite Hs. by eexists.
  - rewrite Hs. by eexists.
Qed.

Lemma not_pcm h : mb_ok h -> i_type h <> I_PCM.
Proof.
  intros ok E. destruct (o_type _ ok) as [[Ht _]|[[Ht _]|[Ht _]]]; rewrite E in Ht; cbn in Ht.
  - by destruct Ht as [Ht|[Ht|[Ht|[]]]].
  - by destruct Ht as [Ht|[Ht|[]]].
  - unfold I_PCM, B_DIRECT in Ht. lia.
Qed.

(** The position counts the bits of the stream. *)
Lemma bs_pos_stream WORD_SIZE s : WORD_SIZE = 4 \/ WORD_SIZE = 8 -> bs_wf WORD_SIZE s ->
  bs_pos WORD_SIZE s = Z.of_nat (length (stream WORD_SIZE s)).
Proof.
  intros Hw [Hp Hl]. unfold bs_pos, stream, written. rewrite length_app, length_bits, length_bytes_bits, length_ld_bytes.
  unfold pending. lia.
Qed.

(** The coefficients a decoder has, by block; with the 8x8 transform the four lists of
    a quarter are put together again (7.3.5.3.2). *)
Definition level4x4 (m : macroblock) (j k : Z) : Z := nth (Z.to_nat k) (nth (Z.to_nat j) (m_luma m) []) 0.
Definition level8x8 (m : macroblock) (i8 n : Z) : Z := level4x4 m (4 * i8 + n mod 4) (n / 4).

Lemma nth_map_seqZ {A} (f : Z -> A) n i d : 0 <= i < n -> nth (Z.to_nat i) (f <$> seqZ 0 n) d = f i.
Proof.
  intros Hi. rewrite nth_lookup, list_lookup_fmap, (lookup_seqZ_lt 0 n (Z.to_nat i)) by lia. cbn. f_equal. lia.
Qed.

Lemma level_seen h j k : mb_ok h -> 0 <= j < 16 -> 0 <= k < luma_count h -> Z.testbit (i_cbp_luma h) (j / 4) = true ->
  level4x4 (mb_seen h) j k = dealt h j (luma_first h + k).
Proof.
  intros ok Hj Hk Hb. unfold level4x4, mb_seen. cbn [m_luma]. unfold blocks_seen. rewrite nth_map_seqZ by lia.
  rewrite luma_bit, Hb by done. unfold block_coefs, coefs.
  assert (luma_count h <= 16) as Hc by (unfold luma_count; destruct (_ =? _); lia). rewrite Z2Nat.id by lia.
  change (map ?f ?l) with (f <$> l). rewrite nth_map_seqZ by lia.
  destruct (dealt_mb_spec h ok) as (L & -> & HL). rewrite (proj1 (set_luma4x4_fields h L)). apply HL.
  left. unfold i2b. apply negb_true_iff, Z.eqb_neq. intros E. apply Z.lor_eq_0_iff in E as [E _]. by rewrite E, Z.bits_0 in Hb.
Qed.

(** C2: a decoder of the standard parses the bits x264 appends for a macroblock and
    recovers all of it: type, prediction modes, sub-macroblock types, references, motion
    vector differences, pattern and residual, with the contexts of the residual taken
    from the counts it has decoded itself; the quantiser it ends with is the
    encoder's, and every luma coefficient is at its place, whichever transform is used.
    The statistics of the frame grow by exactly the bits appended. *)
Theorem macroblock_roundtrip WORD_SIZE h pic stat s :
  WORD_SIZE = 4 \/ WORD_SIZE = 8 -> mb_ok h -> residual_ok h -> bs_wf WORD_SIZE s ->
  exists h' stat' s' code,
    x264_macroblock_write_cavlc WORD_SIZE h pic stat s = Some (h', pic, stat', s') /\
    bs_wf WORD_SIZE s' /\ stream WORD_SIZE s' = stream WORD_SIZE s ++ code /\
    (forall rest, read_macroblock (context_of h) (code ++ rest) = Some (mb_seen h, rest)) /\
    (delta_coded h = true -> m_qp (mb_seen h) = i_qp h') /\
    (forall i8 n, 0 <= i8 < 4 -> 0 <= n < 64 -> Z.testbit (i_cbp_luma h) i8 = true -> i_type h <> I_16x16 ->
      i2b (b_transform_8x8 h) = true -> level8x8 (mb_seen h) i8 n = luma8x8 h i8 n) /\
    (forall j k, 0 <= j < 16 -> 0 <= k < luma_count h -> Z.testbit (i_cbp_luma h) (j / 4) = true ->
      i2b (b_transform_8x8 h) = false -> level4x4 (mb_seen h) j k = luma4x4 h j (luma_first h + k)) /\
    i_mv_bits stat' + i_tex_bits stat' = i_mv_bits stat + i_tex_bits stat + Z.of_nat (length code).
Proof.
  intros Hw ok rok Hs. destruct (offset_ok h ok) as [off Hoff]. pose proof (not_pcm h ok) as Hp.
  destruct (layer_codes h off ok rok Hp Hoff) as (f' & code & Hread & Hsim).
  destruct (Hsim _ _ _ (bs_sink_sim WORD_SIZE s Hw false) s []) as (s' & E & H1 & H2); [split; [done|by rewrite app_nil_r]|].
  unfold x264_macroblock_write_cavlc. rewrite Hoff. apply Z.eqb_neq in Hp as ->. unfold write_layer in E. cbv zeta. rewrite E.
  do 4 eexists. split; [done|]. split; [done|]. split; [done|]. split; [done|]. split; [|split; [|split]].
  - intros Hd. cbn [mb_seen m_qp view i_qp sk_skip bs_sink]. unfold qp_seen, qp_after. rewrite Hd. by destruct (empty_16x16 h).
  - intros i8 n Hi Hn Hb Ht Htr. unfold level8x8.
    assert (luma_first h = 0 /\ luma_count h = 16) as [F C] by (unfold luma_first, luma_count; by apply Z.eqb_neq in Ht as ->).
    assert ((4 * i8 + n mod 4) / 4 = i8 /\ (4 * i8 + n mod 4) mod 4 = n mod 4) as [D1 D2] by (Z.to_euclidean_division_equations; lia).
    rewrite level_seen; [|done|Z.to_euclidean_division_equations; lia|rewrite C; Z.to_euclidean_division_equations; lia|by rewrite D1].
    unfold dealt. rewrite F, D1, D2, Hb, Htr. rewrite (proj2 (andb_true_iff _ _)).
    + f_equal. Z.to_euclidean_division_equations; lia.
    + split; [|done]. Z.to_euclidean_division_equations; lia.
  - intros j k Hj Hk Hb Htr. rewrite level_seen by done. unfold dealt. by rewrite Htr.
  - cbn [i_mv_bits i_tex_bits]. rewrite (bs_pos_stream WORD_SIZE s'), (bs_pos_stream WORD_SIZE s) by done.
    cbn [app] in H2 |- *. rewrite H2, length_app. lia.
Qed.

(** C6: the rate that encoder/rdo.c computes for a macroblock, by compiling the same file
    over size counters, is exactly the number of bits the bitstream grows by. *)
Theorem macroblock_size_exact WORD_SIZE h pic stat s n :
  WORD_SIZE = 4 \/ WORD_SIZE = 8 -> mb_ok h -> residual_ok h -> bs_wf WORD_SIZE s ->
  exists h1 stat' s' h2 n',
    x264_macroblock_write_cavlc WORD_SIZE h pic stat s = Some (h1, pic, stat', s') /\
    x264_macroblock_size_cavlc h n = Some (h2, n') /\
    n' - n = Z.of_nat (length (stream WORD_SIZE s')) - Z.of_nat (length (stream WORD_SIZE s)).
Proof.
  intros Hw ok rok Hs. destruct (offset_ok h ok) as [off Hoff]. pose proof (not_pcm h ok) as Hp.
  destruct (layer_codes h off ok rok Hp Hoff) as (f' & code & _ & Hsim).
  destruct (Hsim _ _ _ (bs_sink_sim WORD_SIZE s Hw false) s []) as (s' & E & H1 & H2); [split; [done|by rewrite app_nil_r]|].
  destruct (Hsim _ _ _ (size_sink_sim n false) n []) as (n' & E' & H3); [unfold size_rel; simpl; lia|].
  unfold x264_macroblock_write_cavlc, x264_macroblock_size_cavlc. rewrite Hoff. apply Z.eqb_neq in Hp as ->.
  unfold write_layer in E, E'. cbv zeta. rewrite E, E'. do 5 eexists. split; [done|]. split; [done|].
  cbn [app] in H2, H3. unfold size_rel in H3. rewrite H2, length_app. lia.
Qed.

Lemma sample_mb_ok : mb_ok sample_mb.
Proof.
  split.
  - right. left. split; [right; by left|done].
  - cbn. unfold P_8x8, P_L0, B_DIRECT, B_8x8. lia.
  - intros _ i Hi. cbn. unfold D_L0_8x8. lia.
  - done.
  - intros l [-> | ->]; vm_compute; repeat (constructor; [split; [discriminate|reflexivity]|]); constructor.
  - intros l. cbn. lia.
  - intros l p Hp. unfold mv_small. cbn. lia.
  - split; [intros p; cbn; lia|done].
  - cbn. lia.
  - repeat split; [by left|done..].
  - by left.
  - repeat split; cbn; try lia. done.
  - cbn. lia.
Qed.

Lemma sample_residual_ok : residual_ok sample_mb.
Proof.
  assert (forall j k, is_coef (luma4x4 sample_mb j k) /\ Z.abs (luma4x4 sample_mb j k) <= 2047) as HC.
  { intros j k. unfold is_coef. cbn. repeat case_match; lia. }
  split.
  - intros p. unfold nnz_ok. cbn. case_match; lia.
  - intros j Hj. cbn [sample_mb i_cbp_luma non_zero_count]. intros Hb.
    assert (all_range 0 16 (fun j => Z.testbit 1 (j / 4) || negb (scan8 j =? 12)) = true) as C by (vm_compute; reflexivity).
    eapply all_range_spec with (i := j) in C; [|lia]. cbv beta in C. rewrite Hb in C. cbn [orb] in C. apply negb_true_iff in C. by rewrite C.
  - intros j Hj k Hk. destruct (HC j k). split; [done|by left].
  - intros i8 k _ _. split; [unfold is_coef; cbn; lia|left; cbn; lia].
  - intros j Hj [Ht|Ht]; [done|]. cbn. by destruct (Z.eqb_spec j 0); [lia|].
  - done.
  - intros i Hi. split.
    + intros k _. split; [unfold is_coef; cbn; lia|left; cbn; lia].
    + split; [done|]. intros _. assert (i = 0 \/ i = 1) as [-> | ->] by lia; reflexivity.
Qed.

Lemma macroblock_roundtrip_witness :
  exists h' stat' s' code,
    x264_macroblock_write_cavlc 8 sample_mb (MbPic (fun _ _ => 0) (fun _ _ => 0)) (FrameStat 0 0) sample_bs =
      Some (h', MbPic (fun _ _ => 0) (fun _ _ => 0), stat', s') /\
    stream 8 s' = stream 8 sample_bs ++ code /\ read_macroblock (context_of sample_mb) (code ++ [true]) = Some (mb_seen sample_mb, [true]) /\
    level4x4 (mb_seen sample_mb) 0 3 = -2 /\ i_qp h' = 26.
Proof.
  destruct (macroblock_roundtrip 8 sample_mb (MbPic (fun _ _ => 0) (fun _ _ => 0)) (FrameStat 0 0) sample_bs)
    as (h' & stat' & s' & code & E & _ & H2 & H3 & H4 & _ & H5 & _);
    [by right|exact sample_mb_ok|exact sample_residual_ok|exact sample_bs_wf|].
  exists h', stat', s', code. split; [exact E|]. split; [exact H2|]. split; [apply H3|]. split.
  - rewrite H5; [reflexivity|lia|unfold luma_count; cbn; lia|reflexivity|reflexivity].
  - rewrite <- H4; reflexivity.
Defined.

Lemma macroblock_size_exact_witness :
  exists h2 n', x264_macroblock_size_cavlc sample_mb 100 = Some (h2, n') /\ n' = 221.
Proof.
  destruct (macroblock_size_exact 8 sample_mb (MbPic (fun _ _ => 0) (fun _ _ => 0)) (FrameStat 0 0) sample_bs 100)
    as (h1 & stat' & s' & h2 & n' & _ & E & _);
    [by right|exact sample_mb_ok|exact sample_residual_ok|exact sample_bs_wf|].
  exists h2, n'. split; [exact E|]. vm_compute in E. congruence.
Defined.
