(* ===== verification/MbMotion.v ===== *)
(** * Prediction modes and motion, as a decoder derives them

    The parsed macroblock has differences to predictions only. Here a decoder goes
    through its blocks in order, predicts each from what it has decoded so far (clauses
    8.3.1.1 and 8.4.1.3 of the standard) and adds the difference; it ends with exactly
    the modes, references and motion vectors of the encoder's cache. *)
From S2P Require Import Prelude Bs Sink Syntax Vlc Quant Mb Cavlc CavlcMb MbLayer MbRoundtrip.

(** ** Intra prediction modes *)

(** The predicted mode: DC unless both neighbours exist; [-1] is a block that does not. *)
Definition std_mode (modes : Z -> Z) (idx : Z) : Z :=
  let a := modes (scan8 idx - 1) in
  let b := modes (scan8 idx - 8) in
  if (a <? 0) || (b <? 0) then 2 else Z.min a b.

Definition decode_mode (modes : Z -> Z) (idx : Z) (code : option Z) : Z :=
  let pred := std_mode modes idx in
  match code with
  | None => pred
  | Some rem => if rem <? pred then rem else rem + 1
  end.

(** A mode holds for all 4x4 blocks from [idx] on that it covers: one, or a quarter. *)
Definition covers (idx di p : Z) : bool := existsb (fun j => p =? scan8 j) (seqZ idx di).
Fixpoint decode_modes (di : Z) (idxs : list Z) (codes : list (option Z)) (modes : Z -> Z) : Z -> Z :=
  match idxs, codes with
  | idx :: idxs, code :: codes =>
      let mode := decode_mode modes idx code in
      decode_modes di idxs codes (fun p => if covers idx di p then mode else modes p)
  | _, _ => modes
  end.

Definition block_step (h : x264_t) : Z := if i_type h =? I_8x8 then 4 else 1.
Definition block_firsts (di : Z) : list Z := (fun i => i * di) <$> seqZ 0 (16 / di).
Definition mode_field (h : x264_t) (p : Z) : Z := x264_mb_pred_mode4x4_fix (intra4x4_pred_mode h p).
Definition in_macroblock (p : Z) : bool := existsb (fun j => p =? scan8 j) (seqZ 0 16).

Lemma std_mode_predicted h idx modes : (forall p, -1 <= intra4x4_pred_mode h p <= 11) ->
  modes (scan8 idx - 1) = mode_field h (scan8 idx - 1) -> modes (scan8 idx - 8) = mode_field h (scan8 idx - 8) ->
  std_mode modes idx = x264_mb_predict_intra4x4_mode h idx.
Proof.
  intros HM Ha Hb. unfold std_mode, x264_mb_predict_intra4x4_mode. cbv zeta. rewrite Ha, Hb. unfold mode_field, I_PRED_4x4_DC.
  destruct (Z.ltb_spec (x264_mb_pred_mode4x4_fix (intra4x4_pred_mode h (scan8 idx - 1))) 0),
    (Z.ltb_spec (x264_mb_pred_mode4x4_fix (intra4x4_pred_mode h (scan8 idx - 8))) 0); cbn [orb];
    destruct (Z.ltb_spec (Z.min (x264_mb_pred_mode4x4_fix (intra4x4_pred_mode h (scan8 idx - 1)))
      (x264_mb_pred_mode4x4_fix (intra4x4_pred_mode h (scan8 idx - 8)))) 0); lia.
Qed.

Lemma decode_mode_code h idx modes : std_mode modes idx = x264_mb_predict_intra4x4_mode h idx ->
  decode_mode modes idx (mode_code h idx) = mode_at h idx.
Proof.
  intros E. unfold decode_mode, mode_code. rewrite E. set (pred := x264_mb_predict_intra4x4_mode h idx).
  destruct (Z.eqb_spec pred (mode_at h idx)) as [E'|E']; [done|].
  destruct (Z.gtb_spec (mode_at h idx) pred); cbn [b2i]; destruct (Z.ltb_spec (mode_at h idx - 1) pred), (Z.ltb_spec (mode_at h idx - 0) pred); lia.
Qed.

Lemma covers_spec idx di p : covers idx di p = true <-> exists j, idx <= j < idx + di /\ p = scan8 j.
Proof.
  unfold covers. rewrite existsb_exists. split; intros (j & Hj & E).
  - apply list_elem_of_In, elem_of_seqZ in Hj. exists j. split; [done|]. by apply Z.eqb_eq.
  - exists j. split; [apply list_elem_of_In, elem_of_seqZ; done|]. by apply Z.eqb_eq.
Qed.

Section Modes.
Context (h : x264_t) (di : Z) (Hdi : di = 1 \/ di = 4).
Context (HM : forall p, -1 <= intra4x4_pred_mode h p <= 11).
Context (HU : forall i j, 0 <= i < 16 / di -> i * di <= j < i * di + di -> mode_field h (scan8 j) = mode_at h (i * di)).

Lemma decode_modes_from n : forall i modes, 0 <= i -> i + Z.of_nat n = 16 / di ->
  (forall p, (forall j, i * di <= j < 16 -> scan8 j <> p) -> modes p = mode_field h p) ->
  forall p, decode_modes di ((fun i => i * di) <$> seqZ i (Z.of_nat n)) ((fun i => mode_code h (i * di)) <$> seqZ i (Z.of_nat n)) modes p =
    mode_field h p.
Proof.
  induction n as [|n IH]; intros i modes Hi Hn HD p.
  - apply HD. intros j Hj. destruct Hdi as [-> | ->]; rewrite ?Z.div_1_r in Hn; [lia|]. change (16 / 4) with 4 in Hn. lia.
  - rewrite seqZ_cons by lia. replace (Z.pred (Z.of_nat (S n))) with (Z.of_nat n) by lia. cbn [fmap list_fmap decode_modes].
    change (Z.succ i) with (i + 1).
    assert (i * di < 16) as Hlt by (destruct Hdi as [-> | ->]; rewrite ?Z.div_1_r in Hn; [lia|]; change (16 / 4) with 4 in Hn; lia).
    assert (forall j, i * di <= j < 16 -> scan8 j <> scan8 (i * di) - 1 /\ scan8 j <> scan8 (i * di) - 8) as HB
      by (intros j Hj; apply neighbours_before; destruct Hdi as [-> | ->]; lia).
    assert (decode_mode modes (i * di) (mode_code h (i * di)) = mode_at h (i * di)) as ->.
    { apply decode_mode_code, std_mode_predicted; [done|..]; apply HD; intros j Hj; by apply HB. }
    apply IH; [lia|lia|]. intros p' Hp'. destruct (covers (i * di) di p') eqn:E.
    + apply covers_spec in E as (j & Hj & ->). symmetry. apply HU; [lia|done].
    + apply HD. intros j Hj Ep. destruct (Z.lt_decidable j (i * di + di)) as [Hd|Hd].
      * assert (covers (i * di) di p' = true) as Ec by (apply covers_spec; exists j; split; [lia|done]). congruence.
      * apply (Hp' j); [lia|done].
Qed.
End Modes.

(** C4: from the modes that are parsed and the modes of the neighbouring macroblocks a
    decoder derives, block by block, the mode that the encoder has chosen for every
    4x4 or 8x8 block. *)
Theorem intra_modes_decoded h :
  mb_ok h -> is_NxN (kind_seen h) = true ->
  (forall i j, 0 <= i < 16 / block_step h -> i * block_step h <= j < i * block_step h + block_step h ->
    mode_field h (scan8 j) = mode_at h (i * block_step h)) ->
  forall p, decode_modes (block_step h) (block_firsts (block_step h)) (m_modes (m_pred (mb_seen h)))
    (fun p => if in_macroblock p then -1 else mode_field h p) p = mode_field h p.
Proof.
  intros ok Hk HU p. cbn [mb_seen m_pred pred_seen m_modes]. rewrite Hk. fold (block_step h). unfold block_firsts.
  assert (block_step h = 1 \/ block_step h = 4) as Hdi by (unfold block_step; destruct (_ =? _); tauto).
  replace (16 / block_step h) with (Z.of_nat (Z.to_nat (16 / block_step h))) by (destruct Hdi as [-> | ->]; reflexivity).
  apply decode_modes_from; [done|apply ok|done|lia|destruct Hdi as [-> | ->]; reflexivity|].
  intros p' Hp'. destruct (in_macroblock p') eqn:E; [|done]. apply existsb_exists in E as (j & Hj & E).
  apply list_elem_of_In, elem_of_seqZ in Hj. apply Z.eqb_eq in E. exfalso. by apply (Hp' j).
Qed.

(** ** Motion

    A block is its first 4x4 block, its width and its height, in 4x4 blocks. *)
Definition unit_ : Type := (Z * Z) * Z.
Definition cells (u : unit_) : list Z :=
  let '((idx, w), hgt) := u in y ← seqZ 0 hgt; (fun x => scan8 idx + x + 8 * y) <$> seqZ 0 w.
Definition in_cells (u : unit_) (p : Z) : bool := existsb (Z.eqb p) (cells u).
Definition pending (us : list unit_) (p : Z) : bool := existsb (fun u => in_cells u p) us.
Definition fill {A} (u : unit_) (v : A) (f : Z -> A) (p : Z) : A := if in_cells u p then v else f p.

Definition block_height (k : mb_kind) (subs : list sub_type) (idx : Z) : Z :=
  match k with
  | K_Inter shape _ => if shape =? 1 then 2 else 4
  | _ => match subs !! Z.to_nat (idx / 4) with Some (shape, _) => if (shape =? 0) || (shape =? 2) then 2 else 1 | None => 0 end
  end.
(** The units that share a motion vector, and those that share a reference. *)
Definition mv_units (k : mb_kind) (subs : list sub_type) (list : Z) : Datatypes.list unit_ :=
  (fun b => (b, block_height k subs (fst b))) <$> mv_blocks k subs list.
Definition ref_units (k : mb_kind) (subs : list sub_type) (list : Z) : Datatypes.list unit_ :=
  (fun idx => match k with
              | K_Inter shape _ => ((idx, if shape =? 2 then 2 else 4), if shape =? 1 then 2 else 4)
              | _ => ((idx, 2), 2)
              end) <$> ref_blocks k subs list.

(** The blocks whose motion is derived from other macroblocks (direct prediction). *)
Definition direct_cell (k : mb_kind) (subs : list sub_type) (p : Z) : bool :=
  match k with
  | K_Direct => in_macroblock p
  | K_B8x8 => existsb (fun i => match subs !! Z.to_nat i with Some (4, _) => in_cells ((4 * i, 2), 2) p | _ => false end) (seqZ 0 4)
  | _ => false
  end.

(** The prediction of the standard from a map of references and of vectors. *)
Definition std_predict (shape : Z) (ref : Z -> Z) (mv : Z -> Z * Z) (idx w : Z) : Z * Z :=
  let at_ := fun i => (ref i, mv i) in
  let i8 := scan8 idx in
  let a := at_ (i8 - 1) in
  let b := at_ (i8 - 8) in
  let c := if std_c_coded idx w && negb (ref (i8 - 8 + w) =? -2) then at_ (i8 - 8 + w) else at_ (i8 - 9) in
  let first := if shape =? 1 then Some (if idx =? 0 then b else a)
               else if shape =? 2 then Some (if idx =? 0 then a else c)
               else None in
  match first with
  | Some n => if n.1 =? ref i8 then n.2 else std_median (ref i8) a b c
  | None => std_median (ref i8) a b c
  end.

Fixpoint decode_refs (us : list unit_) (refs : list Z) (ref : Z -> Z) : Z -> Z :=
  match us, refs with
  | u :: us, r :: refs => decode_refs us refs (fill u r ref)
  | _, _ => ref
  end.
Fixpoint decode_mvs (shape : Z) (ref : Z -> Z) (us : list unit_) (mvds : list (Z * Z)) (mv : Z -> Z * Z) : Z -> Z * Z :=
  match us, mvds with
  | u :: us, d :: mvds =>
      let mvp := std_predict shape ref mv (fst (fst u)) (snd (fst u)) in
      decode_mvs shape ref us mvds (fill u (mvp.1 + d.1, mvp.2 + d.2) mv)
  | _, _ => mv
  end.

Definition kind_shape (k : mb_kind) : Z := match k with K_Inter shape _ => shape | _ => 0 end.
(** The motion of one list: [ref] and [mv] are the neighbours' and, for direct blocks,
    the derived motion; what uses neither has no reference. *)
Definition decode_motion (k : mb_kind) (subs : list sub_type) (list : Z) (refs : Datatypes.list Z) (mvds : Datatypes.list (Z * Z))
    (ref : Z -> Z) (mv : Z -> Z * Z) : (Z -> Z) * (Z -> Z * Z) :=
  let known p := negb (in_macroblock p) || direct_cell k subs p in
  let ref := decode_refs (ref_units k subs list) refs (fun p => if known p then ref p else -1) in
  (ref, decode_mvs (kind_shape k) ref (mv_units k subs list) mvds (fun p => if known p then mv p else (0, 0))).

(** What the prediction of a block reads, and that it is decoded before the block. *)
Definition reads (b : Z * Z) : list Z :=
  let '(idx, w) := b in
  [scan8 idx - 1; scan8 idx - 8; scan8 idx - 9] ++ (if std_c_coded idx w then [scan8 idx - 8 + w] else []).
Fixpoint ordered (us : list unit_) : bool :=
  match us with
  | [] => true
  | u :: us' => forallb (fun p => negb (pending (u :: us') p)) (reads (fst u)) && ordered us'
  end.
Definition units_ok (k : mb_kind) (subs : list sub_type) (list : Z) : bool :=
  ordered (mv_units k subs list) &&
  forallb (fun u => pending (ref_units k subs list) (scan8 (fst (fst u)))) (mv_units k subs list).

Definition quads (l : list Z) : list (list Z) := a ← l; b ← l; c ← l; d ← l; [[a; b; c; d]].
Lemma quads_spec l a b c d : In a l -> In b l -> In c l -> In d l -> In [a; b; c; d] (quads l).
Proof.
  rewrite <- !list_elem_of_In. intros Ha Hb Hc Hd. unfold quads.
  apply list_elem_of_bind. exists a. split; [|done]. apply list_elem_of_bind. exists b. split; [|done].
  apply list_elem_of_bind. exists c. split; [|done]. apply list_elem_of_bind. exists d. split; [|done].
  by apply list_elem_of_singleton.
Qed.

Lemma quads_units_ok l : l = 0 \/ l = 1 -> forallb (fun vs => units_ok K_B8x8 (sub_seen <$> vs) l) (quads [0; 1; 2; 3]) = true /\
  forallb (fun vs => units_ok K_B8x8 (sub_seen <$> vs) l) (quads [3; 7; 11; 12]) = true.
Proof. intros [-> | ->]; split; vm_compute; reflexivity. Qed.

Definition bools : list bool := [false; true].
Lemma inter_units_ok l shape lists : l = 0 \/ l = 1 -> 0 <= shape <= 2 -> length lists = (if shape =? 0 then 1%nat else 2%nat) ->
  units_ok (K_Inter shape lists) [] l = true.
Proof.
  intros Hl Hs Hn. assert (shape = 0 \/ shape = 1 \/ shape = 2) as HS by lia.
  destruct lists as [|[a1 b1] [|[a2 b2] [|]]]; destruct HS as [-> |[-> | ->]]; try done;
    destruct Hl as [-> | ->]; destruct a1, b1; try (vm_compute; reflexivity); destruct a2, b2; vm_compute; reflexivity.
Qed.


(** The macroblocks with coded motion: partitions, or quarters. *)
Lemma motion_kinds h : mb_ok h ->
  (kind_seen h = K_Inter (shape_seen h) (lists_seen h) /\ subs_seen h = [] /\ In (i_partition h) [D_16x8; D_8x16; D_16x16]) \/
  ((i_type h = P_8x8 \/ i_type h = B_8x8) /\ (kind_seen h = K_B8x8 \/ exists ref0, kind_seen h = K_P8x8 ref0)) \/
  (subs_seen h = [] /\ forall l, mv_blocks (kind_seen h) [] l = [] /\ ref_blocks (kind_seen h) [] l = []).
Proof.
  intros ok. destruct (o_type h ok) as [[Ht _]|[[Ht _]|[Ht _]]].
  - right. right. unfold kind_seen, subs_seen. cbn in Ht. by destruct Ht as [<-|[<-|[<-|[]]]].
  - cbn in Ht. destruct Ht as [E|[E|[]]].
    + left. destruct (o_partition h ok) as [Hp|[Hp _]]; [by left|..]; unfold kind_seen, subs_seen; rewrite <- E;
        (split; [done|split; [done|]]); [cbn in Hp |- *; tauto|rewrite Hp; cbn; tauto].
    + right. left. split; [by left|]. unfold kind_seen. rewrite <- E. right. by eexists.
  - destruct (Z.eq_dec (i_type h) B_DIRECT) as [E|H1]; [right; right; unfold kind_seen, subs_seen; by rewrite E|].
    destruct (Z.eq_dec (i_type h) B_8x8) as [E|H2]; [right; left; split; [by right|]; unfold kind_seen; rewrite E; by left|].
    left. assert (B_DIRECT < i_type h < B_8x8) as Hb by lia. unfold kind_seen, subs_seen, I_4x4, I_8x8, I_16x16, I_PCM, P_8x8 in *.
    unfold B_DIRECT, B_8x8 in *.
    repeat match goal with |- context [i_type h =? ?c] => rewrite (proj2 (Z.eqb_neq (i_type h) c)) by lia end.
    split; [done|split; [done|]]. destruct (o_partition h ok) as [Hp|[-> _]]; [by right|cbn in Hp |- *; tauto|cbn; tauto].
Qed.

Lemma shape_seen_length h : 0 <= shape_seen h <= 2 /\ length (lists_seen h) = (if shape_seen h =? 0 then 1%nat else 2%nat).
Proof.
  unfold shape_seen, lists_seen. rewrite length_fmap, length_seqZ.
  destruct (i_partition h =? D_16x16); [by split|]. destruct (i_partition h =? D_16x8); by split.
Qed.

Lemma units_ok_seen h l : mb_ok h -> l = 0 \/ l = 1 -> units_ok (kind_seen h) (subs_seen h) l = true.
Proof.
  intros ok Hl. destruct (motion_kinds h ok) as [(-> & -> & _)|[[Ht Hk]|[-> Hk]]].
  - destruct (shape_seen_length h). by apply inter_units_ok.
  - assert (units_ok (kind_seen h) = units_ok K_B8x8) as -> by (destruct Hk as [-> | [ref0 ->]]; reflexivity).
    rewrite subs_seen_8x8 by done. change ((fun i => sub_seen (i_sub_partition h i)) <$> seqZ 0 4) with
      (sub_seen <$> [i_sub_partition h 0; i_sub_partition h 1; i_sub_partition h 2; i_sub_partition h 3]).
    destruct (quads_units_ok l Hl) as [H1 H2]. destruct Ht as [Ht|Ht].
    + rewrite forallb_forall in H1. apply (H1 [_; _; _; _]).
      apply quads_spec; match goal with |- In (i_sub_partition h ?i) _ => destruct (o_sub_p h ok Ht i) as [? _]; [lia|cbn; lia] end.
    + rewrite forallb_forall in H2. apply (H2 [_; _; _; _]). apply quads_spec; apply (o_sub_b h ok Ht); lia.
  - unfold units_ok, mv_units, ref_units. by destruct (Hk l) as [-> ->].
Qed.

Lemma std_predict_local shape ref mv mv' idx w : (forall p, In p (reads (idx, w)) -> mv p = mv' p) ->
  std_predict shape ref mv idx w = std_predict shape ref mv' idx w.
Proof.
  intros HE. unfold std_predict. cbn [reads] in HE.
  rewrite (HE (scan8 idx - 1)), (HE (scan8 idx - 8)), (HE (scan8 idx - 9)) by (cbn; tauto).
  destruct (std_c_coded idx w); [|done]. by rewrite (HE (scan8 idx - 8 + w)) by (cbn; tauto).
Qed.

Lemma std_predict_ext shape ref ref' mv idx w : (forall p, ref p = ref' p) -> std_predict shape ref mv idx w = std_predict shape ref' mv idx w.
Proof. intros HE. unfold std_predict. by rewrite !HE. Qed.

Section Motion.
Context (h : x264_t) (l : Z).

Definition unit_shared {A} (f : Z -> A) (u : unit_) : Prop := forall p, In p (cells u) -> f p = f (scan8 (fst (fst u))).

Lemma in_cells_spec u p : in_cells u p = true <-> In p (cells u).
Proof.
  unfold in_cells. rewrite existsb_exists. split; [|intros H; exists p; by rewrite Z.eqb_refl].
  intros (q & Hq & E). by apply Z.eqb_eq in E as ->.
Qed.

(** A field is decoded unit by unit: each value written is the one of the field. *)
Lemma fill_field {A} (f g : Z -> A) us u p : unit_shared f u ->
  (forall p, pending (u :: us) p = false -> g p = f p) -> pending us p = false -> fill u (f (scan8 (fst (fst u)))) g p = f p.
Proof.
  intros Hu Hg Hp. unfold fill. destruct (in_cells u p) eqn:E; [symmetry; by apply Hu, in_cells_spec|].
  apply Hg. unfold pending in *. cbn [existsb]. by rewrite E.
Qed.

Lemma decode_refs_field us : Forall (unit_shared (cache_ref h l)) us -> forall ref,
  (forall p, pending us p = false -> ref p = cache_ref h l p) ->
  forall p, decode_refs us ((fun u => ref_at h l (fst (fst u))) <$> us) ref p = cache_ref h l p.
Proof.
  induction 1 as [|u us Hu _ IH]; intros ref Hr p; [by apply Hr|]. cbn [fmap list_fmap decode_refs].
  apply IH. intros p' Hp'. by apply (fill_field _ _ us).
Qed.

Lemma decode_mvs_field shape ref us : Forall (unit_shared (cache_mv h l)) us -> ordered us = true ->
  (forall u, In u us -> std_predict shape ref (cache_mv h l) (fst (fst u)) (snd (fst u)) = x264_mb_predict_mv h l (fst (fst u)) (snd (fst u))) ->
  forall mv, (forall p, pending us p = false -> mv p = cache_mv h l p) ->
  forall p, decode_mvs shape ref us ((fun u => mvd_at h l (fst u)) <$> us) mv p = cache_mv h l p.
Proof.
  induction 1 as [|u us Hu _ IH]; intros Ho Hpred mv Hmv p; [by apply Hmv|]. cbn [fmap list_fmap decode_mvs].
  cbn [ordered] in Ho. apply andb_prop in Ho as [Hreads Ho]. rewrite forallb_forall in Hreads.
  apply IH; [done|intros u' Hu'; apply Hpred; by right|].
  rewrite (std_predict_local shape ref mv (cache_mv h l)).
  - rewrite Hpred by (by left). intros p' Hp'.
    replace (_, _) with (cache_mv h l (scan8 (fst (fst u)))).
    + by apply (fill_field _ _ us).
    + unfold mvd_at. cbn [fst snd]. destruct (cache_mv h l (scan8 (fst (fst u)))). cbn [fst snd]. f_equal; lia.
  - intros p' Hp'. apply Hmv. destruct u as [[idx w] hgt]. apply negb_true_iff. by apply Hreads.
Qed.

(** The cache of a list is filled as x264_macroblock_cache_ref and x264_macroblock_cache_mv
    fill it: over whole blocks, and with no reference where the list is not used. *)
Record motion_cached : Prop := {
  mc_refs : Forall (unit_shared (cache_ref h l)) (ref_units (kind_seen h) (subs_seen h) l);
  mc_mvs : Forall (unit_shared (cache_mv h l)) (mv_units (kind_seen h) (subs_seen h) l);
  mc_no_ref : forall p, in_macroblock p = true -> direct_cell (kind_seen h) (subs_seen h) p = false ->
    pending (ref_units (kind_seen h) (subs_seen h) l) p = false -> cache_ref h l p = -1;
  mc_no_mv : forall p, in_macroblock p = true -> direct_cell (kind_seen h) (subs_seen h) p = false ->
    pending (mv_units (kind_seen h) (subs_seen h) l) p = false -> cache_mv h l p = (0, 0);
  mc_right : right_unavailable h l;
  mc_8x8 : i_type h = P_8x8 \/ i_type h = B_8x8 -> i_partition h <> D_16x8 /\ i_partition h <> D_8x16
}.
End Motion.

Lemma refs_seen_units h l : ref_at h l <$> ref_blocks (kind_seen h) (subs_seen h) l =
  (fun u => ref_at h l (fst (fst u))) <$> ref_units (kind_seen h) (subs_seen h) l.
Proof. unfold ref_units. rewrite <- list_fmap_compose. apply list_fmap_ext. intros _ idx _. cbn. by destruct (kind_seen h). Qed.
Lemma mvds_seen_units h l : mvd_at h l <$> mv_blocks (kind_seen h) (subs_seen h) l =
  (fun u => mvd_at h l (fst u)) <$> mv_units (kind_seen h) (subs_seen h) l.
Proof. unfold mv_units. by rewrite <- list_fmap_compose. Qed.

Lemma std_predict_shape h l ref idx w : mb_ok h -> motion_cached h l -> (forall p, ref p = cache_ref h l p) ->
  In (idx, w) (mv_blocks (kind_seen h) (subs_seen h) l) ->
  std_predict (kind_shape (kind_seen h)) ref (cache_mv h l) idx w = std_predict_mv h l idx w.
Proof.
  intros ok mc Hr Hin. rewrite (std_predict_ext _ _ (cache_ref h l)) by done.
  unfold std_predict, std_predict_mv. cbv zeta.
  destruct (motion_kinds h ok) as [(-> & _ & Hp)|[[Ht Hk]|[Es Hk]]].
  - cbn [kind_shape]. unfold shape_seen. cbn in Hp. by destruct Hp as [<-|[<-|[<-|[]]]].
  - destruct (mc_8x8 h l mc Ht) as [H1 H2]. apply Z.eqb_neq in H1 as ->, H2 as ->.
    assert (kind_shape (kind_seen h) = 0) as -> by (destruct Hk as [-> | [ref0 ->]]; reflexivity). reflexivity.
  - rewrite Es in Hin. destruct (Hk l) as [E _]. by rewrite E in Hin.
Qed.

Lemma predict_decoded h l ref u : mb_ok h -> l = 0 \/ l = 1 -> motion_cached h l -> (forall p, ref p = cache_ref h l p) ->
  In u (mv_units (kind_seen h) (subs_seen h) l) ->
  std_predict (kind_shape (kind_seen h)) ref (cache_mv h l) (fst (fst u)) (snd (fst u)) =
  x264_mb_predict_mv h l (fst (fst u)) (snd (fst u)).
Proof.
  intros ok Hl mc Hr Hu. pose proof Hu as Hb. unfold mv_units in Hb. apply in_map_iff in Hb as (b & <- & Hb). destruct b as [idx w]. cbn [fst snd].
  rewrite std_predict_shape by done. symmetry. apply predict_mv_std.
  - pose proof (mo_blocks _ _ _ (motion_ok_seen h ok) l) as HF. rewrite List.Forall_forall in HF. by apply HF.
  - apply mc.
  - pose proof (units_ok_seen h l ok Hl) as HU. apply andb_prop in HU as [_ HU]. rewrite forallb_forall in HU.
    specialize (HU _ Hu). apply existsb_exists in HU as (v & Hv & Hc). apply in_cells_spec in Hc. cbn [fst] in Hc.
    pose proof (mc_refs h l mc) as HS. rewrite List.Forall_forall in HS. rewrite (HS v Hv _ Hc).
    pose proof (o_refs h ok l Hl) as HR. rewrite List.Forall_forall in HR. unfold ref_units in Hv. apply in_map_iff in Hv as (i & <- & Hi).
    specialize (HR i Hi). cbv beta in HR. unfold ref_at in HR. destruct (kind_seen h); cbn [fst]; lia.
  - intros i Hi. pose proof (o_mvs h ok l i Hi) as []. split; lia.
Qed.

(** C3: from the references and the vector differences that are parsed, the motion of the
    neighbouring macroblocks and the derived motion of direct blocks, a decoder that
    predicts every block by the rules of the standard from what it has decoded before
    obtains the references and the motion vectors of the encoder, in every 4x4 block and
    for both lists. *)
Theorem motion_field_decoded h l :
  mb_ok h -> l = 0 \/ l = 1 -> motion_cached h l ->
  let m := m_pred (mb_seen h) in
  let '(ref, mv) := decode_motion (m_kind (mb_seen h)) (m_subs m) l (if l =? 0 then m_refs0 m else m_refs1 m)
    (if l =? 0 then m_mvds0 m else m_mvds1 m)
    (fun p => if in_macroblock p && negb (direct_cell (kind_seen h) (subs_seen h) p) then 0 else cache_ref h l p)
    (fun p => if in_macroblock p && negb (direct_cell (kind_seen h) (subs_seen h) p) then (0, 0) else cache_mv h l p) in
  forall p, ref p = cache_ref h l p /\ mv p = cache_mv h l p.
Proof.
  intros ok Hl mc. cbn [mb_seen m_pred m_kind pred_seen m_subs m_refs0 m_refs1 m_mvds0 m_mvds1]. cbv zeta.
  unfold decode_motion. cbv zeta.
  replace (if l =? 0 then _ else _) with (ref_at h l <$> ref_blocks (kind_seen h) (subs_seen h) l) by (by destruct Hl as [-> | ->]).
  replace (if l =? 0 then _ else _) with (mvd_at h l <$> mv_blocks (kind_seen h) (subs_seen h) l) by (by destruct Hl as [-> | ->]).
  rewrite refs_seen_units, mvds_seen_units.
  match goal with |- context [decode_refs ?us ?rs ?f] => set (ref := decode_refs us rs f) end.
  assert (forall p, ref p = cache_ref h l p) as Href.
  { apply decode_refs_field; [apply mc|]. intros p Hp. destruct (in_macroblock p) eqn:E; cbn [negb orb andb]; [|done].
    destruct (direct_cell _ _ p) eqn:Ed; cbn [negb]; [done|]. symmetry. by apply mc. }
  intros p. split; [apply Href|]. pose proof (units_ok_seen h l ok Hl) as HU. apply andb_prop in HU as [HU _].
  apply decode_mvs_field; [apply mc|done|intros u Hu; by apply predict_decoded|].
  intros p' Hp'. destruct (in_macroblock p') eqn:E; cbn [negb orb andb]; [|done].
  destruct (direct_cell _ _ p') eqn:Ed; cbn [negb]; [done|]. symmetry. by apply mc.
Qed.

(** ** Samples *)

(** An Intra_4x4 macroblock of an I slice, whose modes change with the position. *)
Definition intra_mb : x264_t := {|
  sh_i_type := SLICE_TYPE_I; b_mbaff := false; i_profile_idc := PROFILE_HIGH;
  b_transform_8x8_mode := false; b_direct8x8_inference := true; b_psub8x8 := true;
  i_type := I_4x4; i_partition := D_16x16; i_sub_partition := fun _ => 0;
  b_transform_8x8 := 0; b_interlaced := 0; i_mb_y := 0; i_mb_xy := 0; i_mb_stride := 8;
  mb_type := fun _ => I_4x4; i_cbp_luma := 0; i_cbp_chroma := 0; i_qp := 26; i_last_qp := 26;
  i_intra16x16_pred_mode := 0; i_chroma_pred_mode := 0; i_fref := fun _ => 0;
  intra4x4_pred_mode := fun p => if p <? 8 then -1 else p mod 9;
  non_zero_count := fun _ => 0; cache_ref := fun _ _ => -1; cache_mv := fun _ _ => (0, 0);
  luma4x4 := fun _ _ => 0; luma8x8 := fun _ _ => 0; luma16x16_dc := fun _ => 0; chroma_dc := fun _ _ => 0
|}.

Lemma intra_mb_ok : mb_ok intra_mb.
Proof.
  split.
  - left. split; [by left|right; right; by left].
  - cbn. unfold I_4x4, P_L0, B_DIRECT, B_8x8. lia.
  - done.
  - done.
  - intros l [-> | ->]; constructor.
  - intros l. cbn. lia.
  - intros l p _. unfold mv_small. cbn. lia.
  - split; [|intros _ i Hi].
    + intros p. cbn. destruct (p <? 8); pose proof (Z.mod_pos_bound p 9 ltac:(lia)); lia.
    + assert (all_range 0 16 (fun i => 8 <=? scan8 i) = true) as C by (vm_compute; reflexivity).
      eapply all_range_spec with (i := i) in C; [|lia]. cbv beta in C. cbn [intra4x4_pred_mode intra_mb].
      destruct (Z.ltb_spec (scan8 i) 8); [lia|]. apply Z.mod_pos_bound. lia.
  - cbn. lia.
  - split; [by left|]. split; [done|]. by split.
  - by left.
  - repeat split; cbn; try lia.
  - cbn. lia.
Qed.

Lemma intra_modes_decoded_witness :
  decode_modes 1 (block_firsts 1) (m_modes (m_pred (mb_seen intra_mb)))
    (fun p => if in_macroblock p then -1 else mode_field intra_mb p) (scan8 15) = 39 mod 9.
Proof.
  rewrite (intra_modes_decoded intra_mb intra_mb_ok); [reflexivity|reflexivity|].
  cbn [block_step intra_mb i_type]. intros i j Hi Hj. assert (j = i * 1) as -> by (change (block_step intra_mb) with 1 in Hj; lia). reflexivity.
Defined.

(** A P_8x8 macroblock with a quarter of each shape, and a motion vector per block. *)
Definition motion_subs : list Z := [D_L0_4x4; D_L0_8x4; D_L0_4x8; D_L0_8x8].
Definition motion_units : list unit_ := mv_units (K_P8x8 true) (sub_seen <$> motion_subs) 0.
Definition motion_mb : x264_t := {|
  sh_i_type := SLICE_TYPE_P; b_mbaff := false; i_profile_idc := PROFILE_HIGH;
  b_transform_8x8_mode := false; b_direct8x8_inference := true; b_psub8x8 := true;
  i_type := P_8x8; i_partition := 13; i_sub_partition := tbl motion_subs;
  b_transform_8x8 := 0; b_interlaced := 0; i_mb_y := 0; i_mb_xy := 0; i_mb_stride := 8;
  mb_type := fun _ => P_L0; i_cbp_luma := 0; i_cbp_chroma := 0; i_qp := 26; i_last_qp := 26;
  i_intra16x16_pred_mode := 0; i_chroma_pred_mode := 0; i_fref := fun _ => 1;
  intra4x4_pred_mode := fun _ => -1; non_zero_count := fun _ => 0;
  cache_ref := fun l i => if l =? 0 then (if (i =? 16) || (i =? 24) || (i =? 32) then -2 else 0) else -1;
  cache_mv := fun l p => if l =? 0 then fold_right (fun u => fill u (7 * fst (fst u), - 3 * fst (fst u))) (fun p => (p mod 64, 5)) motion_units p
              else (0, 0);
  luma4x4 := fun _ _ => 0; luma8x8 := fun _ _ => 0; luma16x16_dc := fun _ => 0; chroma_dc := fun _ _ => 0
|}.

Lemma motion_mb_ok : mb_ok motion_mb.
Proof.
  split.
  - right. left. split; [right; by left|done].
  - cbn. unfold P_8x8, P_L0, B_DIRECT, B_8x8. lia.
  - intros _ i Hi. assert (i = 0 \/ i = 1 \/ i = 2 \/ i = 3) as HE by lia. cbn. destruct HE as [-> | [-> | [-> | ->]]]; vm_compute; split; done.
  - done.
  - intros l [-> | ->]; vm_compute; repeat (constructor; [split; [discriminate|reflexivity]|]); constructor.
  - intros l. cbn. lia.
  - intros l p Hp. unfold mv_small. cbn [cache_mv motion_mb]. destruct (l =? 0); [|cbn; lia].
    assert (all_range 0 40 (fun p => (- 2 ^ 14 <=? (cache_mv motion_mb 0 p).1) && ((cache_mv motion_mb 0 p).1 <? 2 ^ 14) &&
      (- 2 ^ 14 <=? (cache_mv motion_mb 0 p).2) && ((cache_mv motion_mb 0 p).2 <? 2 ^ 14)) = true) as C by (vm_compute; reflexivity).
    eapply all_range_spec with (i := p) in C; [|lia]. cbn [cache_mv motion_mb] in C. change (0 =? 0) with true in C. cbv iota in C. lia.
  - split; [intros p; cbn; lia|done].
  - cbn. lia.
  - repeat split; [by left|done..].
  - by left.
  - repeat split; cbn; try lia.
  - cbn. lia.
Qed.

Lemma all_in_macroblock (P : Z -> bool) : forallb (fun i => P (scan8 i)) (seqZ 0 16) = true -> forall p, in_macroblock p = true -> P p = true.
Proof.
  rewrite forallb_forall. intros H p Hp. apply existsb_exists in Hp as (i & Hi & E). apply Z.eqb_eq in E as ->. by apply H.
Qed.

Lemma shared_units {A} `{EqDecision A} (f : Z -> A) us :
  forallb (fun u => forallb (fun p => bool_decide (f p = f (scan8 (fst (fst u))))) (cells u)) us = true -> Forall (unit_shared f) us.
Proof.
  intros H. apply List.Forall_forall. intros u Hu p Hp. rewrite forallb_forall in H. specialize (H u Hu). rewrite forallb_forall in H.
  apply (bool_decide_eq_true_1 _ (H p Hp)).
Qed.

Lemma motion_mb_cached : motion_cached motion_mb 0.
Proof.
  split.
  - apply shared_units. vm_compute. reflexivity.
  - apply shared_units. vm_compute. reflexivity.
  - intros p Hp _ Hn. enough (pending (ref_units (kind_seen motion_mb) (subs_seen motion_mb) 0) p = true) by congruence.
    clear Hn. revert p Hp. apply all_in_macroblock. vm_compute. reflexivity.
  - intros p Hp _ Hn. enough (pending (mv_units (kind_seen motion_mb) (subs_seen motion_mb) 0) p = true) by congruence.
    clear Hn. revert p Hp. apply all_in_macroblock. vm_compute. reflexivity.
  - intros i [<-|[<-|[<-|[]]]]; reflexivity.
  - intros _. by split.
Qed.

Lemma motion_field_decoded_witness :
  let m := m_pred (mb_seen motion_mb) in
  length (m_mvds0 m) = 9%nat /\
  (decode_motion (m_kind (mb_seen motion_mb)) (m_subs m) 0 (m_refs0 m) (m_mvds0 m)
    (fun p => if in_macroblock p && negb (direct_cell (kind_seen motion_mb) (subs_seen motion_mb) p) then 0 else cache_ref motion_mb 0 p)
    (fun p => if in_macroblock p && negb (direct_cell (kind_seen motion_mb) (subs_seen motion_mb) p) then (0, 0) else cache_mv motion_mb 0 p)).2
    (scan8 11) = (63, -27).
Proof.
  cbv zeta. split; [reflexivity|]. pose proof (motion_field_decoded motion_mb 0 motion_mb_ok (or_introl eq_refl) motion_mb_cached) as H.
  cbv zeta in H. change (0 =? 0) with true in H. cbv iota in H. destruct (decode_motion _ _ _ _ _ _ _) as [ref mv] eqn:E.
  cbn [snd]. rewrite (proj2 (H (scan8 11))). reflexivity.
Defined.
