(* ===== verification/MbPcm.v ===== *)
(** * PCM macroblocks (encoder/cavlc.c)

    An I_PCM macroblock holds its samples: after the type the writer is aligned to a byte
    and the 384 samples are copied to memory, behind the back of the bit writer.  A reader
    gets the samples back, and the encoder's reconstruction is its source. *)
From S2P Require Import Prelude Bs Sink Syntax Vlc Quant Mb Cavlc CavlcMb MbLayer MbRoundtrip.

(** ** The samples, as the standard reads them (7.3.5) *)
Definition plane_samples (w n stride : Z) (p : Z -> Z) : list Z := y ← seqZ 0 n; (fun x => p (y * stride + x)) <$> seqZ 0 w.
Definition pcm_samples (pic : mb_pic) : list Z :=
  plane_samples 16 16 FENC_STRIDE (p_fenc pic 0) ++
  plane_samples 8 8 FENC_STRIDE (p_fenc pic 1) ++ plane_samples 8 8 FENC_STRIDE (p_fenc pic 2).

(** [pos] is the bit position of the macroblock in its unit. *)
Definition read_align (pos start : Z) : parser unit := fun l =>
  let pad := (- (pos + (start - Z.of_nat (length l)))) mod 8 in
  match read_u (Z.to_nat pad) l with
  | Some (0, l) => Some (tt, l)
  | _ => None
  end.
Definition read_type (c : mb_context) : parser Z := get field from pwhen (c_field_flag c) pflag false; read_ue.
Definition read_pcm (c : mb_context) (pos : Z) : parser (list Z) := fun l =>
  (get v from read_type c;
   match kind_of_type (c_slice c) v with
   | Some K_PCM => get _ from read_align pos (Z.of_nat (length l)); prepeat 384 (pu 8)
   | _ => pfail
   end) l.

(** ** Copying bytes through the writer *)
Section Copy.
Context (WORD_SIZE : Z) (word_ok : WORD_SIZE = 4 \/ WORD_SIZE = 8).

Definition aligned (s : bs_t) : Prop := bs_wf WORD_SIZE s /\ pending WORD_SIZE s = 0%nat.

(** Copies that lie one after the other are one copy. *)
Lemma memcpy_app s off l1 l2 :
  bs_memcpy (bs_memcpy s off l1) (off + Z.of_nat (length l1)) l2 = bs_memcpy s off (l1 ++ l2).
Proof. unfold bs_memcpy. cbn. by rewrite st_bytes_app, Z.add_assoc. Qed.

Lemma memcpy_rows (f : Z -> list Z) n w : (forall i, Z.of_nat (length (f i)) = w) -> forall lo off s l,
  off + Z.of_nat (length l) = lo * w ->
  for_ n lo (fun i s => bs_memcpy s (i * w) (f i)) (bs_memcpy s off l) =
  bs_memcpy s off (l ++ (y ← seqZ lo (Z.of_nat n); f y)).
Proof.
  intros Hf. induction n as [|n IH]; intros lo off s l Hl.
  - by rewrite app_nil_r.
  - cbn [for_]. rewrite seqZ_cons by lia. replace (Z.pred (Z.of_nat (S n))) with (Z.of_nat n) by lia.
    cbn [mbind list_bind]. rewrite <- Hl, memcpy_app, app_assoc. apply IH. rewrite length_app. specialize (Hf lo). lia.
Qed.

Lemma memcpy_advance_stream s l n : aligned s -> Forall is_byte l -> n = Z.of_nat (length l) ->
  let s' := bs_advance (bs_memcpy s 0 l) n in
  aligned s' /\ stream WORD_SIZE s' = stream WORD_SIZE s ++ bytes_bits l.
Proof.
  intros [[Hp Hl] P] HF ->. cbv zeta. unfold aligned, bs_wf, stream, written, pending, bs_advance, bs_memcpy in *.
  cbn [p_start p i_left bs_mem cur_bits] in *. rewrite P, Z.add_0_r. split; [lia|]. cbn [bits].
  rewrite written_store by (done || lia). rewrite Nat2Z.id, firstn_all, bytes_bits_app. by rewrite !app_nil_r.
Qed.

Lemma length_plane w (n : nat) stride p : 0 <= w -> length (plane_samples w (Z.of_nat n) stride p) = (n * Z.to_nat w)%nat.
Proof.
  intros Hw. unfold plane_samples.
  enough (forall lo, length (y ← seqZ lo (Z.of_nat n); (fun x => p (y * stride + x)) <$> seqZ 0 w) = (n * Z.to_nat w)%nat) as H by apply H.
  induction n as [|n IH]; intros lo; [done|].
  rewrite (seqZ_cons lo) by lia. replace (Z.pred (Z.of_nat (S n))) with (Z.of_nat n) by lia.
  cbn [mbind list_bind]. rewrite length_app, length_fmap, length_seqZ, IH. done.
Qed.

Lemma luma_samples p : p <$> seqZ 0 256 = plane_samples 16 16 FENC_STRIDE p.
Proof. unfold plane_samples. vm_compute. reflexivity. Qed.

Lemma pcm_chroma_stream s src : aligned s -> Forall is_byte (plane_samples 8 8 FENC_STRIDE src) ->
  aligned (write_pcm_chroma src s) /\ stream WORD_SIZE (write_pcm_chroma src s) = stream WORD_SIZE s ++ bytes_bits (plane_samples 8 8 FENC_STRIDE src).
Proof.
  intros Hs HF.
  assert (write_pcm_chroma src s = bs_advance (bs_memcpy s 0 (plane_samples 8 8 FENC_STRIDE src)) 64) as ->.
  { apply (f_equal (fun s => bs_advance s 64)).
    pose proof (memcpy_rows (fun i => src <$> seqZ (i * FENC_STRIDE) 8) 8 8 (fun i => eq_refl) 0 0 s [] eq_refl) as E.
    assert (bs_memcpy s 0 [] = s) as E0 by (destruct s; reflexivity). rewrite E0 in E. etransitivity; [exact E|]. clear.
    apply (f_equal (bs_memcpy s 0)). vm_compute. reflexivity. }
  apply (memcpy_advance_stream s _ 64 Hs HF). by rewrite (length_plane 8 8).
Qed.
End Copy.

(** ** The macroblock *)
Lemma prepeat_bytes l rest : Forall is_byte l -> prepeat (length l) (pu 8) (bytes_bits l ++ rest) = Some (l, rest).
Proof.
  intros HF. revert rest. induction HF as [|b l Hb _ IH]; intros rest; [done|].
  cbn [length prepeat bytes_bits]. unfold pbind at 1. unfold pu. rewrite <- app_assoc, (read_u_bits 8) by (cbn; lia).
  unfold pbind, pu in *. by rewrite IH.
Qed.

Lemma read_align_spec pos start k l rest : (k < 8)%nat -> l = replicate k false ++ rest ->
  Z.of_nat k = (- (pos + (start - Z.of_nat (length l)))) mod 8 -> read_align pos start l = Some (tt, rest).
Proof. intros Hk -> E. unfold read_align. rewrite <- E, Nat2Z.id, <- bits_0, read_u_bits by (split; [lia|apply Z.pow_pos_nonneg; lia]). done. Qed.

Record pcm_ok (h : x264_t) (pic : mb_pic) : Prop := {
  pcm_type : i_type h = I_PCM;
  pcm_slice : In (sh_i_type h) [SLICE_TYPE_P; SLICE_TYPE_B; SLICE_TYPE_I];
  pcm_field : b_interlaced h = 0 \/ b_interlaced h = 1;
  pcm_bytes : Forall is_byte (pcm_samples pic)
}.

Lemma pcm_offset h pic : pcm_ok h pic -> exists off, i_mb_i_offset h = Some off /\ 0 <= off + 25 < 255 /\
  kind_of_type (sh_i_type h) (off + 25) = Some K_PCM.
Proof. intros [_ Hs _ _]. unfold i_mb_i_offset. cbn in Hs. destruct Hs as [<-|[<-|[<-|[]]]]; eexists; split; try reflexivity; split; done. Qed.

Lemma writes_pcm_type h pic off : pcm_ok h pic -> 0 <= off + 25 < 255 ->
  writes (fun S sink => write_field_flag h ;> (fun s => sk_write_ue s (off + 25))) (read_type (context_of h)) (off + 25).
Proof.
  intros ok Hv. unfold read_type. eapply writes_seq with (a := field_flag_present h && i2b (b_interlaced h)).
  - unfold write_field_flag. fold (field_flag_present h). cbn [context_of c_field_flag].
    apply writes_when; [intros ->; apply writes_flag; destruct (pcm_field _ _ ok); lia|by intros ->].
  - by apply writes_ue.
Qed.

Lemma write_pcm_stream WORD_SIZE pic s : WORD_SIZE = 4 \/ WORD_SIZE = 8 -> bs_wf WORD_SIZE s -> Forall is_byte (pcm_samples pic) ->
  aligned WORD_SIZE (write_pcm WORD_SIZE pic s) /\
  stream WORD_SIZE (write_pcm WORD_SIZE pic s) = stream WORD_SIZE s ++ replicate (Z.to_nat (i_left s mod 8)) false ++ bytes_bits (pcm_samples pic).
Proof.
  intros Hw Hs HF. unfold pcm_samples in *. rewrite !Forall_app in HF. destruct HF as (F0 & F1 & F2). unfold write_pcm, seq.
  destruct (bs_align_stream WORD_SIZE Hw s false Hs) as (A1 & A2 & E0). cbv zeta in *.
  set (s0 := bs_align_0 WORD_SIZE s) in *. rewrite luma_samples.
  destruct (memcpy_advance_stream WORD_SIZE s0 (plane_samples 16 16 FENC_STRIDE (p_fenc pic 0)) 256 (conj A1 A2) F0 eq_refl) as [W1 E1].
  destruct (pcm_chroma_stream WORD_SIZE _ (p_fenc pic 1) W1 F1) as [W2 E2].
  destruct (pcm_chroma_stream WORD_SIZE _ (p_fenc pic 2) W2 F2) as [W3 E3].
  split; [done|]. rewrite E3, E2, E1, E0, !bytes_bits_app. by rewrite <- !app_assoc.
Qed.

(** The reconstruction of the encoder is its source. *)
Lemma mc_copy_spec (w n : nat) dst src : (w <= 32)%nat -> forall y x, 0 <= y < Z.of_nat n -> 0 <= x < Z.of_nat w ->
  mc_copy w n dst src (y * FDEC_STRIDE + x) = src (y * FENC_STRIDE + x).
Proof.
  intros Hw y x Hy Hx. unfold mc_copy, FDEC_STRIDE.
  by apply (for_block n w (fun y x => y * 32 + x) (fun y x _ => src (y * FENC_STRIDE + x))); [lia| |].
Qed.

(** C5: a PCM macroblock puts its type, a byte boundary and its 384 samples into the
    stream, from which a reader that knows its bit position gets the samples back; the
    reconstructed planes become the source planes, and the frame statistics grow by the
    number of bits. *)
Theorem pcm_roundtrip WORD_SIZE h pic stat s :
  WORD_SIZE = 4 \/ WORD_SIZE = 8 -> pcm_ok h pic -> bs_wf WORD_SIZE s ->
  exists pic' stat' s' code,
    x264_macroblock_write_cavlc WORD_SIZE h pic stat s = Some (h, pic', stat', s') /\
    bs_wf WORD_SIZE s' /\ stream WORD_SIZE s' = stream WORD_SIZE s ++ code /\
    (length (stream WORD_SIZE s') mod 8 = 0)%nat /\
    (forall rest, read_pcm (context_of h) (Z.of_nat (length (stream WORD_SIZE s))) (code ++ rest) = Some (pcm_samples pic, rest)) /\
    (forall plane y x, 0 <= plane < 3 -> let w := if plane =? 0 then 16 else 8 in 0 <= y < w -> 0 <= x < w ->
      p_fdec pic' plane (y * FDEC_STRIDE + x) = p_fenc pic plane (y * FENC_STRIDE + x)) /\
    i_mv_bits stat' + i_tex_bits stat' = i_mv_bits stat + i_tex_bits stat + Z.of_nat (length code).
Proof.
  intros Hw ok Hs. destruct (pcm_offset h pic ok) as (off & Hoff & Hv & Hk).
  unfold x264_macroblock_write_cavlc. rewrite Hoff, (pcm_type _ _ ok). cbn [Z.eqb Pos.eqb I_PCM].
  destruct (writes_pcm_type h pic off ok Hv) as (c & Hread & Hsim).
  destruct (Hsim _ _ _ (bs_sink_sim WORD_SIZE s Hw false) s []) as [W1 E1]; [split; [done|by rewrite app_nil_r]|].
  change ((write_field_flag h ;> (fun s => sk_write_ue s (off + 25))) s) with
    (bs_write_ue WORD_SIZE (write_field_flag (sink := bs_sink WORD_SIZE) h s) (off + 25)) in W1, E1.
  set (s1 := bs_write_ue WORD_SIZE _ (off + 25)) in *. cbn [app] in E1.
  destruct (write_pcm_stream WORD_SIZE pic s1 Hw W1 (pcm_bytes _ _ ok)) as [[W2 P2] E2].
  set (s2 := write_pcm WORD_SIZE pic s1) in *. rewrite E1, <- app_assoc in E2.
  assert (Z.of_nat (length (stream WORD_SIZE s1)) = 8 * (p s1 - p_start s1) + WORD_SIZE * 8 - i_left s1) as L1 by (rewrite <- bs_pos_stream; done).
  eexists _, _, s2, _. split; [reflexivity|]. split; [done|]. split; [exact E2|]. split; [|split; [|split]].
  - unfold stream. rewrite P2. cbn [bits]. rewrite app_nil_r, length_bytes_bits, Nat.mul_comm. by rewrite Nat.Div0.mod_mul.
  - intros rest. unfold read_pcm, pbind. rewrite <- !app_assoc, Hread. cbn [context_of c_slice]. rewrite Hk.
    rewrite (read_align_spec _ _ (Z.to_nat (i_left s1 mod 8)) _ (bytes_bits (pcm_samples pic) ++ rest)).
    + apply (prepeat_bytes _ rest (pcm_bytes _ _ ok)).
    + pose proof (Z.mod_pos_bound (i_left s1) 8). lia.
    + done.
    + rewrite Z2Nat.id by (apply Z.mod_pos_bound; lia). rewrite E1, length_app in L1. rewrite !length_app.
      destruct Hw as [-> | ->]; Z.to_euclidean_division_equations; lia.
  - intros plane y x Hp. cbv zeta. intros Hy Hx. unfold copy_pcm. cbn [p_fdec].
    destruct (Z.eqb_spec plane 0) as [-> |]; [apply (mc_copy_spec 16 16); cbn in *; lia|].
    assert (plane = 1 \/ plane = 2) as HP by lia. destruct HP as [-> | ->]; apply (mc_copy_spec 8 8); cbn in *; lia.
  - cbn [i_mv_bits i_tex_bits]. rewrite !bs_pos_stream by done. rewrite E2, E1, !length_app. lia.
Qed.

Definition pcm_mb : x264_t :=
  match sample_mb with
  | X264 a1 a2 a3 a4 a5 a6 _ a8 a9 a10 a11 a12 a13 a14 a15 a16 a17 a18 a19 a20 a21 a22 a23 a24 a25 a26 a27 a28 a29 a30 =>
      X264 a1 a2 a3 a4 a5 a6 I_PCM a8 a9 a10 a11 a12 a13 a14 a15 a16 a17 a18 a19 a20 a21 a22 a23 a24 a25 a26 a27 a28 a29 a30
  end.
Definition pcm_pic : mb_pic := MbPic (fun plane i => (plane + 3 * i) mod 256) (fun _ _ => 0).

Lemma pcm_roundtrip_witness :
  exists s' code, option_map snd (x264_macroblock_write_cavlc 8 pcm_mb pcm_pic (FrameStat 0 0) sample_bs) = Some s' /\
    stream 8 s' = stream 8 sample_bs ++ code /\
    option_map (fun r => (length r.1, nth 300 r.1 0)) (read_pcm (context_of pcm_mb) (Z.of_nat (length (stream 8 sample_bs))) code) =
      Some (384%nat, (1 + 3 * 84) mod 256).
Proof.
  destruct (pcm_roundtrip 8 pcm_mb pcm_pic (FrameStat 0 0) sample_bs) as (pic' & stat' & s' & code & E & _ & H1 & _ & H2 & _).
  - by right.
  - split; [reflexivity|by left|by left|]. apply List.Forall_forall. intros b Hb.
    assert (forallb (fun b => (0 <=? b) && (b <? 256)) (pcm_samples pcm_pic) = true) as C by (vm_compute; reflexivity).
    rewrite forallb_forall in C. specialize (C b Hb). cbv beta. lia.
  - exact sample_bs_wf.
  - exists s', code. rewrite E. split; [reflexivity|]. split; [exact H1|]. specialize (H2 []). rewrite app_nil_r in H2. rewrite H2.
    vm_compute. reflexivity.
Defined.
