(* ===== verification/Dct.v ===== *)
(** * The transforms and scans of x264 (common/dct.c)

    Blocks of coefficients are flat arrays of [int16_t] in memory order: [d[i][j]] of a
    block of [w] columns is at [w * i + j].  Pixels are functions of an offset, and a
    pointer is a function shifted by its offset.  A local array that the code fills before
    it reads it starts as zeros.  The standard's matrices are stated independently, and the
    forward and inverse transforms of a 4x4 block are shown to be exactly inverse up to
    their scaling, and to stay within 16 bits. *)
From S2P Require Import Prelude Mb CavlcMb.

Local Abbreviation zeros := (fun _ : Z => 0).
Definition ptr (p : Z -> Z) (off : Z) : Z -> Z := fun i => p (off + i).
(** Four stores. *)
Definition st4 (a : Z -> Z) (i0 v0 i1 v1 i2 v2 i3 v3 : Z) : Z -> Z := upd (upd (upd (upd a i0 v0) i1 v1) i2 v2) i3 v3.

(** ** DC transforms *)
Definition dct4x4dc (d : Z -> Z) : Z -> Z :=
  let tmp := for_ 4 0 (fun i tmp =>
    let s01 := d (4*i+0) + d (4*i+1) in
    let d01 := d (4*i+0) - d (4*i+1) in
    let s23 := d (4*i+2) + d (4*i+3) in
    let d23 := d (4*i+2) - d (4*i+3) in
    st4 tmp (4*0+i) (s16 (s01 + s23)) (4*1+i) (s16 (s01 - s23)) (4*2+i) (s16 (d01 - d23)) (4*3+i) (s16 (d01 + d23))) zeros in
  for_ 4 0 (fun i d =>
    let s01 := tmp (4*i+0) + tmp (4*i+1) in
    let d01 := tmp (4*i+0) - tmp (4*i+1) in
    let s23 := tmp (4*i+2) + tmp (4*i+3) in
    let d23 := tmp (4*i+2) - tmp (4*i+3) in
    st4 d (4*i+0) (s16 ((s01 + s23 + 1) >> 1)) (4*i+1) (s16 ((s01 - s23 + 1) >> 1))
          (4*i+2) (s16 ((d01 - d23 + 1) >> 1)) (4*i+3) (s16 ((d01 + d23 + 1) >> 1))) d.

Definition idct4x4dc (d : Z -> Z) : Z -> Z :=
  let tmp := for_ 4 0 (fun i tmp =>
    let s01 := d (4*i+0) + d (4*i+1) in
    let d01 := d (4*i+0) - d (4*i+1) in
    let s23 := d (4*i+2) + d (4*i+3) in
    let d23 := d (4*i+2) - d (4*i+3) in
    st4 tmp (4*0+i) (s16 (s01 + s23)) (4*1+i) (s16 (s01 - s23)) (4*2+i) (s16 (d01 - d23)) (4*3+i) (s16 (d01 + d23))) zeros in
  for_ 4 0 (fun i d =>
    let s01 := tmp (4*i+0) + tmp (4*i+1) in
    let d01 := tmp (4*i+0) - tmp (4*i+1) in
    let s23 := tmp (4*i+2) + tmp (4*i+3) in
    let d23 := tmp (4*i+2) - tmp (4*i+3) in
    st4 d (4*i+0) (s16 (s01 + s23)) (4*i+1) (s16 (s01 - s23)) (4*i+2) (s16 (d01 - d23)) (4*i+3) (s16 (d01 + d23))) d.

(** ** 4x4 *)
Definition pixel_sub_wxh (diff : Z -> Z) (i_size : Z) (pix1 : Z -> Z) (i_pix1 : Z) (pix2 : Z -> Z) (i_pix2 : Z) : Z -> Z :=
  for_ (Z.to_nat i_size) 0 (fun y diff =>
    for_ (Z.to_nat i_size) 0 (fun x diff =>
      upd diff (x + y*i_size) (s16 (pix1 (y*i_pix1 + x) - pix2 (y*i_pix2 + x)))) diff) diff.

Definition sub4x4_dct (pix1 pix2 : Z -> Z) : Z -> Z :=
  let d := pixel_sub_wxh zeros 4 pix1 FENC_STRIDE pix2 FDEC_STRIDE in
  let tmp := for_ 4 0 (fun i tmp =>
    let s03 := d (4*i+0) + d (4*i+3) in
    let s12 := d (4*i+1) + d (4*i+2) in
    let d03 := d (4*i+0) - d (4*i+3) in
    let d12 := d (4*i+1) - d (4*i+2) in
    st4 tmp (4*0+i) (s16 (s03 + s12)) (4*1+i) (s16 (2*d03 + d12)) (4*2+i) (s16 (s03 - s12)) (4*3+i) (s16 (d03 - 2*d12))) zeros in
  for_ 4 0 (fun i dct =>
    let s03 := tmp (4*i+0) + tmp (4*i+3) in
    let s12 := tmp (4*i+1) + tmp (4*i+2) in
    let d03 := tmp (4*i+0) - tmp (4*i+3) in
    let d12 := tmp (4*i+1) - tmp (4*i+2) in
    st4 dct (4*i+0) (s16 (s03 + s12)) (4*i+1) (s16 (2*d03 + d12)) (4*i+2) (s16 (s03 - s12)) (4*i+3) (s16 (d03 - 2*d12))) zeros.

(** Blocks [b0] to [b0 + 3] of an array of blocks. *)
Definition sub8x8_dct (dct : Z -> Z -> Z) (b0 : Z) (pix1 pix2 : Z -> Z) : Z -> Z -> Z := fun b =>
  if b =? b0 + 0 then sub4x4_dct (ptr pix1 0) (ptr pix2 0)
  else if b =? b0 + 1 then sub4x4_dct (ptr pix1 4) (ptr pix2 4)
  else if b =? b0 + 2 then sub4x4_dct (ptr pix1 (4*FENC_STRIDE+0)) (ptr pix2 (4*FDEC_STRIDE+0))
  else if b =? b0 + 3 then sub4x4_dct (ptr pix1 (4*FENC_STRIDE+4)) (ptr pix2 (4*FDEC_STRIDE+4))
  else dct b.

Definition sub16x16_dct (dct : Z -> Z -> Z) (pix1 pix2 : Z -> Z) : Z -> Z -> Z :=
  let dct := sub8x8_dct dct 0 (ptr pix1 0) (ptr pix2 0) in
  let dct := sub8x8_dct dct 4 (ptr pix1 8) (ptr pix2 8) in
  let dct := sub8x8_dct dct 8 (ptr pix1 (8*FENC_STRIDE+0)) (ptr pix2 (8*FDEC_STRIDE+0)) in
  sub8x8_dct dct 12 (ptr pix1 (8*FENC_STRIDE+8)) (ptr pix2 (8*FDEC_STRIDE+8)).

(** The residual of [add4x4_idct], and adding it to the plane at [off]. *)
Definition idct4x4 (dct : Z -> Z) : Z -> Z :=
  let tmp := for_ 4 0 (fun i tmp =>
    let s02 := dct (4*0+i) + dct (4*2+i) in
    let d02 := dct (4*0+i) - dct (4*2+i) in
    let s13 := dct (4*1+i) + (dct (4*3+i) >> 1) in
    let d13 := (dct (4*1+i) >> 1) - dct (4*3+i) in
    st4 tmp (4*i+0) (s16 (s02 + s13)) (4*i+1) (s16 (d02 + d13)) (4*i+2) (s16 (d02 - d13)) (4*i+3) (s16 (s02 - s13))) zeros in
  for_ 4 0 (fun i d =>
    let s02 := tmp (4*0+i) + tmp (4*2+i) in
    let d02 := tmp (4*0+i) - tmp (4*2+i) in
    let s13 := tmp (4*1+i) + (tmp (4*3+i) >> 1) in
    let d13 := (tmp (4*1+i) >> 1) - tmp (4*3+i) in
    st4 d (4*0+i) (s16 ((s02 + s13 + 32) >> 6)) (4*1+i) (s16 ((d02 + d13 + 32) >> 6))
          (4*2+i) (s16 ((d02 - d13 + 32) >> 6)) (4*3+i) (s16 ((s02 - s13 + 32) >> 6))) zeros.

Definition add4x4_idct (p_dst : Z -> Z) (off : Z) (dct : Z -> Z) : Z -> Z :=
  let d := idct4x4 dct in
  for_ 4 0 (fun y p_dst =>
    for_ 4 0 (fun x p_dst =>
      upd p_dst (off + y*FDEC_STRIDE + x) (x264_clip_uint8 (p_dst (off + y*FDEC_STRIDE + x) + d (4*y+x)))) p_dst) p_dst.

Definition add8x8_idct (p_dst : Z -> Z) (off : Z) (dct : Z -> Z -> Z) (b0 : Z) : Z -> Z :=
  let p_dst := add4x4_idct p_dst off (dct (b0 + 0)) in
  let p_dst := add4x4_idct p_dst (off + 4) (dct (b0 + 1)) in
  let p_dst := add4x4_idct p_dst (off + (4*FDEC_STRIDE+0)) (dct (b0 + 2)) in
  add4x4_idct p_dst (off + (4*FDEC_STRIDE+4)) (dct (b0 + 3)).

Definition add16x16_idct (p_dst : Z -> Z) (off : Z) (dct : Z -> Z -> Z) : Z -> Z :=
  let p_dst := add8x8_idct p_dst off dct 0 in
  let p_dst := add8x8_idct p_dst (off + 8) dct 4 in
  let p_dst := add8x8_idct p_dst (off + (8*FDEC_STRIDE+0)) dct 8 in
  add8x8_idct p_dst (off + (8*FDEC_STRIDE+8)) dct 12.

(** ** 8x8 *)

(** [DCT8_1D] and [IDCT8_1D]: the values given to [DST(0)] to [DST(7)]. *)
Definition DCT8_1D (SRC : Z -> Z) : list Z :=
  let s07 := SRC 0 + SRC 7 in
  let s16_ := SRC 1 + SRC 6 in
  let s25 := SRC 2 + SRC 5 in
  let s34 := SRC 3 + SRC 4 in
  let a0 := s07 + s34 in
  let a1 := s16_ + s25 in
  let a2 := s07 - s34 in
  let a3 := s16_ - s25 in
  let d07 := SRC 0 - SRC 7 in
  let d16 := SRC 1 - SRC 6 in
  let d25 := SRC 2 - SRC 5 in
  let d34 := SRC 3 - SRC 4 in
  let a4 := d16 + d25 + (d07 + (d07 >> 1)) in
  let a5 := d07 - d34 - (d25 + (d25 >> 1)) in
  let a6 := d07 + d34 - (d16 + (d16 >> 1)) in
  let a7 := d16 - d25 + (d34 + (d34 >> 1)) in
  [ a0 + a1; a4 + (a7 >> 2); a2 + (a3 >> 1); a5 + (a6 >> 2); a0 - a1; a6 - (a5 >> 2); (a2 >> 1) - a3; (a4 >> 2) - a7 ].

Definition IDCT8_1D (SRC : Z -> Z) : list Z :=
  let a0 := SRC 0 + SRC 4 in
  let a2 := SRC 0 - SRC 4 in
  let a4 := (SRC 2 >> 1) - SRC 6 in
  let a6 := (SRC 6 >> 1) + SRC 2 in
  let b0 := a0 + a6 in
  let b2 := a2 + a4 in
  let b4 := a2 - a4 in
  let b6 := a0 - a6 in
  let a1 := - SRC 3 + SRC 5 - SRC 7 - (SRC 7 >> 1) in
  let a3 := SRC 1 + SRC 7 - SRC 3 - (SRC 3 >> 1) in
  let a5 := - SRC 1 + SRC 7 + SRC 5 + (SRC 5 >> 1) in
  let a7 := SRC 3 + SRC 5 + SRC 1 + (SRC 1 >> 1) in
  let b1 := (a7 >> 2) + a1 in
  let b3 := a3 + (a5 >> 2) in
  let b5 := (a3 >> 2) - a5 in
  let b7 := a7 - (a1 >> 2) in
  [ b0 + b7; b2 + b5; b4 + b3; b6 + b1; b6 - b1; b4 - b3; b2 - b5; b0 - b7 ].

(** Eight [DST]: the [x]th value goes through [f] into the place [at_ x]. *)
Definition dst8 (at_ : Z -> Z) (f : Z -> Z -> Z) (vs : list Z) (a : Z -> Z) : Z -> Z :=
  for_ 8 0 (fun x a => upd a (at_ x) (f (a (at_ x)) (tbl vs x))) a.

Definition sub8x8_dct8 (pix1 pix2 : Z -> Z) : Z -> Z :=
  let tmp := pixel_sub_wxh zeros 8 pix1 FENC_STRIDE pix2 FDEC_STRIDE in
  let tmp := for_ 8 0 (fun i tmp => dst8 (fun x => 8*x+i) (fun _ v => s16 v) (DCT8_1D (fun x => tmp (8*x+i))) tmp) tmp in
  for_ 8 0 (fun i dct => dst8 (fun x => 8*x+i) (fun _ v => s16 v) (DCT8_1D (fun x => tmp (8*i+x))) dct) zeros.

Definition sub16x16_dct8 (pix1 pix2 : Z -> Z) : Z -> Z -> Z := fun b =>
  if b =? 0 then sub8x8_dct8 (ptr pix1 0) (ptr pix2 0)
  else if b =? 1 then sub8x8_dct8 (ptr pix1 8) (ptr pix2 8)
  else if b =? 2 then sub8x8_dct8 (ptr pix1 (8*FENC_STRIDE+0)) (ptr pix2 (8*FDEC_STRIDE+0))
  else if b =? 3 then sub8x8_dct8 (ptr pix1 (8*FENC_STRIDE+8)) (ptr pix2 (8*FDEC_STRIDE+8))
  else zeros.

(** The first pass is in place, in [dct]. *)
Definition add8x8_idct8 (dst : Z -> Z) (off : Z) (dct : Z -> Z) : (Z -> Z) * (Z -> Z) :=
  let dct := upd dct 0 (s16 (dct 0 + 32)) in
  let dct := for_ 8 0 (fun i dct => dst8 (fun x => 8*x+i) (fun _ v => s16 v) (IDCT8_1D (fun x => dct (8*x+i))) dct) dct in
  (for_ 8 0 (fun i dst =>
     dst8 (fun x => off + (i + x*FDEC_STRIDE)) (fun p v => x264_clip_uint8 (p + (v >> 6))) (IDCT8_1D (fun x => dct (8*i+x))) dst) dst,
   dct).

Definition add16x16_idct8 (dst : Z -> Z) (off : Z) (dct : Z -> Z -> Z) : Z -> Z :=
  let dst := (add8x8_idct8 dst off (dct 0)).1 in
  let dst := (add8x8_idct8 dst (off + 8) (dct 1)).1 in
  let dst := (add8x8_idct8 dst (off + (8*FDEC_STRIDE+0)) (dct 2)).1 in
  (add8x8_idct8 dst (off + (8*FDEC_STRIDE+8)) (dct 3)).1.

(** ** Scans: [ZIG(i,y,x)] *)
Definition ZIGZAG8_FRAME : list (Z * (Z * Z)) :=
  [ (0, (0, 0)); (1, (0, 1)); (2, (1, 0)); (3, (2, 0)); (4, (1, 1)); (5, (0, 2)); (6, (0, 3)); (7, (1, 2));
    (8, (2, 1)); (9, (3, 0)); (10, (4, 0)); (11, (3, 1)); (12, (2, 2)); (13, (1, 3)); (14, (0, 4)); (15, (0, 5));
    (16, (1, 4)); (17, (2, 3)); (18, (3, 2)); (19, (4, 1)); (20, (5, 0)); (21, (6, 0)); (22, (5, 1)); (23, (4, 2));
    (24, (3, 3)); (25, (2, 4)); (26, (1, 5)); (27, (0, 6)); (28, (0, 7)); (29, (1, 6)); (30, (2, 5)); (31, (3, 4));
    (32, (4, 3)); (33, (5, 2)); (34, (6, 1)); (35, (7, 0)); (36, (7, 1)); (37, (6, 2)); (38, (5, 3)); (39, (4, 4));
    (40, (3, 5)); (41, (2, 6)); (42, (1, 7)); (43, (2, 7)); (44, (3, 6)); (45, (4, 5)); (46, (5, 4)); (47, (6, 3));
    (48, (7, 2)); (49, (7, 3)); (50, (6, 4)); (51, (5, 5)); (52, (4, 6)); (53, (3, 7)); (54, (4, 7)); (55, (5, 6));
    (56, (6, 5)); (57, (7, 4)); (58, (7, 5)); (59, (6, 6)); (60, (5, 7)); (61, (6, 7)); (62, (7, 6)); (63, (7, 7)) ].
Definition ZIGZAG8_FIELD : list (Z * (Z * Z)) :=
  [ (0, (0, 0)); (1, (1, 0)); (2, (2, 0)); (3, (0, 1)); (4, (1, 1)); (5, (3, 0)); (6, (4, 0)); (7, (2, 1));
    (8, (0, 2)); (9, (3, 1)); (10, (5, 0)); (11, (6, 0)); (12, (7, 0)); (13, (4, 1)); (14, (1, 2)); (15, (0, 3));
    (16, (2, 2)); (17, (5, 1)); (18, (6, 1)); (19, (7, 1)); (20, (3, 2)); (21, (1, 3)); (22, (0, 4)); (23, (2, 3));
    (24, (4, 2)); (25, (5, 2)); (26, (6, 2)); (27, (7, 2)); (28, (3, 3)); (29, (1, 4)); (30, (0, 5)); (31, (2, 4));
    (32, (4, 3)); (33, (5, 3)); (34, (6, 3)); (35, (7, 3)); (36, (3, 4)); (37, (1, 5)); (38, (0, 6)); (39, (2, 5));
    (40, (4, 4)); (41, (5, 4)); (42, (6, 4)); (43, (7, 4)); (44, (3, 5)); (45, (1, 6)); (46, (2, 6)); (47, (4, 5));
    (48, (5, 5)); (49, (6, 5)); (50, (7, 5)); (51, (3, 6)); (52, (0, 7)); (53, (1, 7)); (54, (4, 6)); (55, (5, 6));
    (56, (6, 6)); (57, (7, 6)); (58, (2, 7)); (59, (3, 7)); (60, (4, 7)); (61, (5, 7)); (62, (6, 7)); (63, (7, 7)) ].
Definition ZIGZAG4_FRAME : list (Z * (Z * Z)) :=
  [ (0, (0, 0)); (1, (0, 1)); (2, (1, 0)); (3, (2, 0)); (4, (1, 1)); (5, (0, 2)); (6, (0, 3)); (7, (1, 2));
    (8, (2, 1)); (9, (3, 0)); (10, (3, 1)); (11, (2, 2)); (12, (1, 3)); (13, (2, 3)); (14, (3, 2)); (15, (3, 3)) ].
Definition ZIGZAG4_FIELD : list (Z * (Z * Z)) :=
  [ (0, (0, 0)); (1, (1, 0)); (2, (0, 1)); (3, (2, 0)); (4, (3, 0)); (5, (1, 1)); (6, (2, 1)); (7, (3, 1));
    (8, (0, 2)); (9, (1, 2)); (10, (2, 2)); (11, (3, 2)); (12, (0, 3)); (13, (1, 3)); (14, (2, 3)); (15, (3, 3)) ].

Definition zig_scan (w : Z) (l : list (Z * (Z * Z))) (level dct : Z -> Z) : Z -> Z :=
  fold_left (fun level '(i, (y, x)) => upd level i (dct (x*w+y))) l level.
Definition zigzag_scan_8x8_frame (level dct : Z -> Z) : Z -> Z := zig_scan 8 ZIGZAG8_FRAME level dct.
Definition zigzag_scan_8x8_field (level dct : Z -> Z) : Z -> Z := zig_scan 8 ZIGZAG8_FIELD level dct.
Definition zigzag_scan_4x4_frame (level dct : Z -> Z) : Z -> Z := zig_scan 4 ZIGZAG4_FRAME level dct.
(** The words copied by the 32 and 64 bit stores. *)
Definition copy16 (n : nat) (i : Z) (level dct : Z -> Z) : Z -> Z := for_ n i (fun i level => upd level i (dct i)) level.
Definition zigzag_scan_4x4_field (level dct : Z -> Z) : Z -> Z :=
  let level := copy16 2 0 level dct in
  let level := zig_scan 4 [(2, (0, 1)); (3, (2, 0)); (4, (3, 0)); (5, (1, 1))] level dct in
  let level := copy16 2 6 level dct in
  let level := copy16 4 8 level dct in
  copy16 4 12 level dct.

(** Lossless coding: the differences are the levels, and the source is the reconstruction. *)
Definition zig_sub (l : list (Z * (Z * Z))) (level p_src p_dst : Z -> Z) : Z -> Z :=
  fold_left (fun level '(i, (y, x)) => upd level i (s16 (p_src (x+y*FENC_STRIDE) - p_dst (x+y*FDEC_STRIDE)))) l level.
Definition copy_block (w : nat) (p_dst : Z -> Z) (od : Z) (p_src : Z -> Z) (oe : Z) : Z -> Z :=
  for_ w 0 (fun y p_dst => for_ w 0 (fun x p_dst => upd p_dst (od + (y*FDEC_STRIDE + x)) (p_src (oe + (y*FENC_STRIDE + x)))) p_dst) p_dst.
Definition zigzag_sub_4x4_frame (level p_src : Z -> Z) (oe : Z) (p_dst : Z -> Z) (od : Z) : (Z -> Z) * (Z -> Z) :=
  (zig_sub ZIGZAG4_FRAME level (ptr p_src oe) (ptr p_dst od), copy_block 4 p_dst od p_src oe).
Definition zigzag_sub_4x4_field (level p_src : Z -> Z) (oe : Z) (p_dst : Z -> Z) (od : Z) : (Z -> Z) * (Z -> Z) :=
  (zig_sub ZIGZAG4_FIELD level (ptr p_src oe) (ptr p_dst od), copy_block 4 p_dst od p_src oe).
Definition zigzag_sub_8x8_frame (level p_src : Z -> Z) (oe : Z) (p_dst : Z -> Z) (od : Z) : (Z -> Z) * (Z -> Z) :=
  (zig_sub ZIGZAG8_FRAME level (ptr p_src oe) (ptr p_dst od), copy_block 8 p_dst od p_src oe).
Definition zigzag_sub_8x8_field (level p_src : Z -> Z) (oe : Z) (p_dst : Z -> Z) (od : Z) : (Z -> Z) * (Z -> Z) :=
  (zig_sub ZIGZAG8_FIELD level (ptr p_src oe) (ptr p_dst od), copy_block 8 p_dst od p_src oe).

(** ** The functions chosen for frame and field macroblocks ([x264_zigzag_init]) *)
Definition zigzag_scan_4x4 (b_interlaced : bool) : (Z -> Z) -> (Z -> Z) -> Z -> Z :=
  if b_interlaced then zigzag_scan_4x4_field else zigzag_scan_4x4_frame.
Definition zigzag_scan_8x8 (b_interlaced : bool) : (Z -> Z) -> (Z -> Z) -> Z -> Z :=
  if b_interlaced then zigzag_scan_8x8_field else zigzag_scan_8x8_frame.
Definition zigzag_sub_4x4 (b_interlaced : bool) : (Z -> Z) -> (Z -> Z) -> Z -> (Z -> Z) -> Z -> (Z -> Z) * (Z -> Z) :=
  if b_interlaced then zigzag_sub_4x4_field else zigzag_sub_4x4_frame.
Definition zigzag_sub_8x8 (b_interlaced : bool) : (Z -> Z) -> (Z -> Z) -> Z -> (Z -> Z) -> Z -> (Z -> Z) * (Z -> Z) :=
  if b_interlaced then zigzag_sub_8x8_field else zigzag_sub_8x8_frame.

(** * Properties *)

(** ** Scans *)
Ltac each4 i := let H := fresh in assert (i = 0 \/ i = 1 \/ i = 2 \/ i = 3) as H by lia; destruct H as [->|[->|[->| ->]]].

Lemma zig_scan_notin w l level dct j : ~ In j l.*1 -> zig_scan w l level dct j = level j.
Proof.
  unfold zig_scan. revert level. induction l as [|[i [y x]] l IH]; intros level Hj; [done|]. cbn [fold_left].
  cbn in Hj. rewrite IH by tauto. apply upd_ne. intros ->. tauto.
Qed.

Lemma zig_scan_lookup w l level dct j y x : NoDup l.*1 -> In (j, (y, x)) l -> zig_scan w l level dct j = dct (x * w + y).
Proof.
  unfold zig_scan. revert level. induction l as [|[i [y' x']] l IH]; intros level Hnd Hin; [done|]. cbn [fold_left].
  cbn in Hnd. apply list.NoDup_cons in Hnd as [Hni Hnd]. destruct Hin as [[= -> -> ->]|Hin]; [|by apply IH].
  pose proof (zig_scan_notin w l (upd level j (dct (x * w + y))) dct j) as E. unfold zig_scan in E. rewrite E; [apply upd_eq|].
  intros H. apply Hni. by apply list_elem_of_In.
Qed.

(** A scan of a block reads each position of its table once. *)
Definition scan_ok (w : Z) (l : list (Z * (Z * Z))) (t : list Z) : bool :=
  bool_decide (l.*1 = seqZ 0 (w * w)) &&
  forallb (fun '(i, (y, x)) => tbl t i =? x * w + y) l.

Lemma scan_table w l t level dct j : scan_ok w l t = true -> 0 <= j < w * w -> zig_scan w l level dct j = dct (tbl t j).
Proof.
  intros [H1 H2]%andb_prop Hj. apply bool_decide_eq_true in H1. rewrite forallb_forall in H2.
  assert (j ∈ l.*1) as Hj' by (rewrite H1; apply elem_of_seqZ; lia).
  apply list_elem_of_fmap in Hj' as ([i [y x]] & -> & Hin).
  apply list_elem_of_In in Hin. pose proof (H2 _ Hin) as E. cbn in E |- *. apply Z.eqb_eq in E as ->.
  apply (zig_scan_lookup w l); [rewrite H1; apply NoDup_seqZ|done].
Qed.

Lemma zigzag_scan_4x4_tables b level dct j : 0 <= j < 16 ->
  zigzag_scan_4x4 b level dct j = dct (tbl2 x264_zigzag_scan4 (b2i b) j).
Proof.
  intros Hj. destruct b; cbn [zigzag_scan_4x4 b2i].
  - assert (In j (seqZ 0 16)) as Hin by (apply list_elem_of_In, elem_of_seqZ; lia). cbn in Hin.
    repeat (destruct Hin as [<-|Hin]; [reflexivity|]). done.
  - apply (scan_table 4 ZIGZAG4_FRAME); [by vm_compute|done].
Qed.

Lemma zigzag_scan_8x8_tables b level dct j : 0 <= j < 64 ->
  zigzag_scan_8x8 b level dct j = dct (tbl2 x264_zigzag_scan8 (b2i b) j).
Proof.
  intros Hj. destruct b; cbn [zigzag_scan_8x8 b2i].
  - apply (scan_table 8 ZIGZAG8_FIELD); [by vm_compute|done].
  - apply (scan_table 8 ZIGZAG8_FRAME); [by vm_compute|done].
Qed.

(** ** The forward transform *)
Lemma s16_small z : Z.abs z < 32768 -> s16 z = z.
Proof. intros. apply sw_small; [done|]. change (2 ^ (16 - 1)) with 32768. lia. Qed.

Lemma s32_small z : Z.abs z < 2147483648 -> s32 z = z.
Proof. intros. apply sw_small; [done|]. change (2 ^ (32 - 1)) with 2147483648. lia. Qed.

(** The matrix of the standard; a sum over four indices. *)
Definition core : list (list Z) := [ [ 1; 1; 1; 1 ]; [ 2; 1; -1; -2 ]; [ 1; -1; -1; 1 ]; [ 1; -2; 2; -1 ] ].
Definition sum4 (f : Z -> Z) : Z := f 0 + f 1 + f 2 + f 3.
Ltac mat := unfold sum4; cbv [tbl2 tbl core nth Z.to_nat Pos.to_nat Pos.iter_op Nat.add].
(** The greatest magnitude of a sum with the weights of row [k], for terms up to 1. *)
Definition gain (k : Z) : Z := sum4 (fun x => Z.abs (tbl2 core k x)).

(** [W = C D C^T] at horizontal frequency [i] and vertical frequency [k]. *)
Definition forward4 (D : Z -> Z -> Z) (i k : Z) : Z :=
  sum4 (fun y => tbl2 core k y * sum4 (fun x => tbl2 core i x * D x y)).
Definition residual (pix1 pix2 : Z -> Z) (x y : Z) : Z := pix1 (y*FENC_STRIDE + x) - pix2 (y*FDEC_STRIDE + x).

Definition fwd (k : Z) (v : Z -> Z) : Z :=
  let s03 := v 0 + v 3 in let s12 := v 1 + v 2 in let d03 := v 0 - v 3 in let d12 := v 1 - v 2 in
  if k =? 0 then s03 + s12 else if k =? 1 then 2*d03 + d12 else if k =? 2 then s03 - s12 else d03 - 2*d12.

Lemma fwd_core k v : 0 <= k < 4 -> fwd k v = sum4 (fun x => tbl2 core k x * v x).
Proof. intros Hk. each4 k; unfold fwd; cbn [Z.eqb Pos.eqb]; mat; lia. Qed.

Lemma pixel_sub_4x4 pix1 pix2 x y : 0 <= x < 4 -> 0 <= y < 4 ->
  pixel_sub_wxh zeros 4 pix1 FENC_STRIDE pix2 FDEC_STRIDE (4 * y + x) = s16 (residual pix1 pix2 x y).
Proof. intros Hx Hy. each4 x; each4 y; reflexivity. Qed.

Lemma sub4x4_dct_steps pix1 pix2 i k : 0 <= i < 4 -> 0 <= k < 4 ->
  sub4x4_dct pix1 pix2 (4 * i + k) =
  s16 (fwd k (fun y => s16 (fwd i (fun x => s16 (residual pix1 pix2 x y))))).
Proof.
  intros Hi Hk. unfold sub4x4_dct.
  transitivity (s16 (fwd k (fun y => s16 (fwd i (fun x => pixel_sub_wxh zeros 4 pix1 FENC_STRIDE pix2 FDEC_STRIDE (4 * y + x)))))).
  - generalize (pixel_sub_wxh zeros 4 pix1 FENC_STRIDE pix2 FDEC_STRIDE) as d. intros d. each4 i; each4 k; reflexivity.
  - unfold fwd. cbv zeta. by rewrite !pixel_sub_4x4.
Qed.

Definition pixels_ok (p : Z -> Z) : Prop := forall i, 0 <= p i < 256.

Lemma sum4_bound (w v : Z -> Z) m : (forall x, 0 <= x < 4 -> Z.abs (v x) <= m) ->
  Z.abs (sum4 (fun x => w x * v x)) <= sum4 (fun x => Z.abs (w x)) * m.
Proof.
  intros H. unfold sum4. pose proof (H 0 ltac:(lia)). pose proof (H 1 ltac:(lia)). pose proof (H 2 ltac:(lia)). pose proof (H 3 ltac:(lia)).
  assert (forall x, Z.abs (v x) <= m -> Z.abs (w x * v x) <= Z.abs (w x) * m) as K by (intros; rewrite Z.abs_mul; nia).
  pose proof (K 0 ltac:(done)). pose proof (K 1 ltac:(done)). pose proof (K 2 ltac:(done)). pose proof (K 3 ltac:(done)). lia.
Qed.

Lemma gain_bound k : 0 <= k < 4 -> 4 <= gain k <= 6.
Proof. intros. each4 k; vm_compute; split; discriminate. Qed.

(** The transform is the matrix product, without overflow. *)
Lemma sub4x4_dct_spec pix1 pix2 i k : pixels_ok pix1 -> pixels_ok pix2 -> 0 <= i < 4 -> 0 <= k < 4 ->
  sub4x4_dct pix1 pix2 (4 * i + k) = forward4 (residual pix1 pix2) i k /\
  Z.abs (sub4x4_dct pix1 pix2 (4 * i + k)) <= gain i * gain k * 255.
Proof.
  intros H1 H2 Hi Hk.
  assert (forall x y, Z.abs (residual pix1 pix2 x y) <= 255) as HD.
  { intros x y. unfold residual. specialize (H1 (y*FENC_STRIDE + x)). specialize (H2 (y*FDEC_STRIDE + x)). lia. }
  assert (forall y, s16 (fwd i (fun x => s16 (residual pix1 pix2 x y))) = sum4 (fun x => tbl2 core i x * residual pix1 pix2 x y) /\
     Z.abs (sum4 (fun x => tbl2 core i x * residual pix1 pix2 x y)) <= gain i * 255) as HR.
  { intros y. rewrite fwd_core by done.
    assert (sum4 (fun x => tbl2 core i x * s16 (residual pix1 pix2 x y)) = sum4 (fun x => tbl2 core i x * residual pix1 pix2 x y)) as ->.
    { unfold sum4. by rewrite !s16_small by (eapply Z.le_lt_trans; [apply HD|done]). }
    pose proof (sum4_bound (tbl2 core i) (fun x => residual pix1 pix2 x y) 255 ltac:(intros; apply HD)) as B. cbv beta in B. fold (gain i) in B.
    pose proof (gain_bound i Hi). split; [apply s16_small; lia|done]. }
  rewrite sub4x4_dct_steps by done.
  assert (fwd k (fun y => s16 (fwd i (fun x => s16 (residual pix1 pix2 x y)))) = forward4 (residual pix1 pix2) i k) as ->.
  { rewrite fwd_core by done. unfold forward4, sum4 at 1 2. by rewrite !(proj1 (HR _)). }
  pose proof (sum4_bound (tbl2 core k) (fun y => sum4 (fun x => tbl2 core i x * residual pix1 pix2 x y)) (gain i * 255)
    ltac:(intros; apply HR)) as B. cbv beta in B. fold (gain k) in B. fold (forward4 (residual pix1 pix2) i k) in B.
  pose proof (gain_bound i Hi). pose proof (gain_bound k Hk). rewrite s16_small by nia. split; [done|nia].
Qed.

(** ** The inverse transform *)

(** Sample [k] of the one-dimensional inverse transform of the standard. *)
Definition inv1 (k : Z) (v : Z -> Z) : Z :=
  let e0 := v 0 + v 2 in let e1 := v 0 - v 2 in let e2 := (v 1 >> 1) - v 3 in let e3 := v 1 + (v 3 >> 1) in
  if k =? 0 then e0 + e3 else if k =? 1 then e1 + e2 else if k =? 2 then e1 - e2 else e0 - e3.

(** Rows, then columns; [d i j] has horizontal frequency [i] and vertical frequency [j]. *)
Definition inverse4 (d : Z -> Z -> Z) (x y : Z) : Z := inv1 y (fun j => inv1 x (fun i => d i j)).
(** The standard forbids streams whose transforms leave 16 bits. *)
Definition fits16 (v : Z) : bool := (- 32768 <=? v) && (v <? 32768).
Definition fits4 (d : Z -> Z -> Z) : bool :=
  forallb (fun j => forallb (fun x => fits16 (inv1 x (fun i => d i j))) [0; 1; 2; 3]) [0; 1; 2; 3].

Lemma fits16_s16 v : fits16 v = true -> s16 v = v.
Proof. intros [H1 H2]%andb_prop. apply sw_small; [done|]. change (2 ^ (16 - 1)) with 32768. lia. Qed.

Lemma forallb4 f i : forallb f [0; 1; 2; 3] = true -> 0 <= i < 4 -> f i = true.
Proof. intros H Hi. rewrite forallb_forall in H. apply H. each4 i; cbn; tauto. Qed.

Lemma idct4x4_steps dct x y : 0 <= x < 4 -> 0 <= y < 4 ->
  idct4x4 dct (4 * y + x) = s16 ((inv1 y (fun j => s16 (inv1 x (fun i => dct (4 * i + j)))) + 32) >> 6).
Proof. intros Hx Hy. each4 x; each4 y; reflexivity. Qed.

Lemma inv1_bound k v m : 0 <= k < 4 -> 0 <= m -> (forall i, 0 <= i < 4 -> - m <= v i <= m) -> - 4 * m <= inv1 k v <= 4 * m.
Proof.
  intros Hk Hm H. pose proof (H 0 ltac:(lia)). pose proof (H 1 ltac:(lia)). pose proof (H 2 ltac:(lia)). pose proof (H 3 ltac:(lia)).
  assert (forall a, - m <= a <= m -> - m <= a >> 1 <= m) as S.
  { intros a Ha. rewrite Z.shiftr_div_pow2 by lia. change (2 ^ 1) with 2. pose proof (Z.div_mod a 2). pose proof (Z.mod_pos_bound a 2). lia. }
  pose proof (S (v 1) ltac:(done)). pose proof (S (v 3) ltac:(done)).
  each4 k; unfold inv1; cbn [Z.eqb Pos.eqb]; lia.
Qed.

(** On blocks that the standard allows the program computes the inverse of the standard. *)
Lemma idct4x4_spec dct x y : fits4 (fun i j => dct (4 * i + j)) = true -> 0 <= x < 4 -> 0 <= y < 4 ->
  idct4x4 dct (4 * y + x) = (inverse4 (fun i j => dct (4 * i + j)) x y + 32) >> 6.
Proof.
  intros H Hx Hy. rewrite idct4x4_steps by done. unfold inverse4.
  assert (forall j, 0 <= j < 4 -> fits16 (inv1 x (fun i => dct (4 * i + j))) = true) as F.
  { intros j Hj. unfold fits4 in H. apply (forallb4 _ j) in H; [|done]. by apply (forallb4 _ x) in H. }
  assert (inv1 y (fun j => s16 (inv1 x (fun i => dct (4 * i + j)))) = inv1 y (fun j => inv1 x (fun i => dct (4 * i + j)))) as ->.
  { unfold inv1 at 1 3. by rewrite !(fits16_s16 (inv1 x _)) by (apply F; lia). }
  pose proof (inv1_bound y (fun j => inv1 x (fun i => dct (4 * i + j))) 32768 Hy ltac:(lia)) as B.
  apply s16_small. rewrite Z.shiftr_div_pow2 by lia. change (2 ^ 6) with 64.
  assert (- 4 * 32768 <= inv1 y (fun j => inv1 x (fun i => dct (4 * i + j))) <= 4 * 32768) as B'.
  { apply B. intros j Hj. specialize (F j Hj). apply andb_prop in F as [? ?]. lia. }
  pose proof (Z.div_mod (inv1 y (fun j => inv1 x (fun i => dct (4 * i + j))) + 32) 64).
  pose proof (Z.mod_pos_bound (inv1 y (fun j => inv1 x (fun i => dct (4 * i + j))) + 32) 64). lia.
Qed.

(** ** The two are inverse *)

(** Twice the weights of [inv1]; the scale of each frequency; their product inverts [core]. *)
Definition inv_weights : list (list Z) := [ [ 2; 2; 2; 1 ]; [ 2; 1; -2; -2 ]; [ 2; -1; -2; 2 ]; [ 2; -2; 2; -1 ] ].
Definition freq_scale : list Z := [ 5; 4; 5; 4 ].

Lemma core_inverse x v : 0 <= x < 4 ->
  sum4 (fun i => tbl2 inv_weights x i * (tbl freq_scale i * sum4 (fun x' => tbl2 core i x' * v x'))) = 40 * v x.
Proof. intros Hx. each4 x; cbv [inv_weights freq_scale]; mat; lia. Qed.

(** The shifts cost at most one half. *)
Lemma inv1_weights x v : 0 <= x < 4 -> Z.abs (2 * inv1 x v - sum4 (fun i => tbl2 inv_weights x i * v i)) <= 1.
Proof.
  intros Hx.
  assert (forall a, 2 * (a >> 1) = a \/ 2 * (a >> 1) = a - 1) as S.
  { intros a. rewrite Z.shiftr_div_pow2 by lia. change (2 ^ 1) with 2. pose proof (Z.div_mod a 2). pose proof (Z.mod_pos_bound a 2). lia. }
  pose proof (S (v 1)). pose proof (S (v 3)).
  each4 x; unfold inv1; cbn [Z.eqb Pos.eqb]; cbv [inv_weights]; mat; lia.
Qed.

(** A bound for each frequency by its class: the number of odd coordinates. *)
Definition class (i j : Z) : Z := (i .& 1) + (j .& 1).
Definition col_error (eps : Z -> Z) (j : Z) : Z := 4 * eps (class 0 j) + 3 * eps (class 1 j) + 25.
Definition block_error (eps : Z -> Z) : Z := 16 * eps 0 + 24 * eps 1 + 9 * eps 2 + 225.
(** Column [j] of the transform: vertical frequency [j] of the samples at [x]. *)
Definition column (D : Z -> Z -> Z) (j x : Z) : Z := sum4 (fun y => tbl2 core j y * D x y).

Lemma forward4_column D i j : forward4 D i j = sum4 (fun x => tbl2 core i x * column D j x).
Proof. unfold forward4, column, sum4. lia. Qed.

Section Error.
Context (D d : Z -> Z -> Z) (eps : Z -> Z).
Context (near : forall i j, 0 <= i < 4 -> 0 <= j < 4 ->
  Z.abs (25 * d i j - 4 * tbl freq_scale i * tbl freq_scale j * forward4 D i j) <= eps (class i j)).

Lemma column_error x j : 0 <= x < 4 -> 0 <= j < 4 ->
  Z.abs (50 * inv1 x (fun i => d i j) - 160 * tbl freq_scale j * column D j x) <= col_error eps j.
Proof.
  intros Hx Hj.
  pose proof (inv1_weights x (fun i => d i j) Hx) as E. cbv beta in E.
  pose proof (core_inverse x (column D j) Hx) as C.
  assert (forall i, 0 <= i < 4 -> Z.abs (25 * d i j - 4 * tbl freq_scale i * tbl freq_scale j * sum4 (fun x => tbl2 core i x * column D j x)) <= eps (class i j)) as N.
  { intros i Hi. rewrite <- forward4_column. by apply near. }
  pose proof (N 0 ltac:(lia)) as N0. pose proof (N 1 ltac:(lia)) as N1. pose proof (N 2 ltac:(lia)) as N2. pose proof (N 3 ltac:(lia)) as N3.
  assert (class 2 j = class 0 j) as E2 by reflexivity. assert (class 3 j = class 1 j) as E3 by reflexivity. rewrite E2 in N2. rewrite E3 in N3.
  unfold col_error.
  set (s := fun i => sum4 (fun x => tbl2 core i x * column D j x)) in *.
  change (sum4 (fun i => tbl2 inv_weights x i * (tbl freq_scale i * s i)) = 40 * column D j x) in C.
  set (w := tbl freq_scale j) in *. clearbody s w.
  cbv [freq_scale] in C, N0, N1, N2, N3. revert C N0 N1 N2 N3 E.
  each4 x; cbv [inv_weights]; mat; intros; nia.
Qed.

Lemma block_error_bound x y : 0 <= x < 4 -> 0 <= y < 4 ->
  Z.abs (100 * inverse4 d x y - 6400 * D x y) <= block_error eps.
Proof.
  intros Hx Hy. unfold inverse4.
  pose proof (inv1_weights y (fun j => inv1 x (fun i => d i j)) Hy) as E. cbv beta in E.
  pose proof (core_inverse y (fun y => D x y) Hy) as C. cbv beta in C.
  set (u := fun j => inv1 x (fun i => d i j)) in *. set (s := fun j => column D j x).
  assert (forall j, 0 <= j < 4 -> Z.abs (50 * u j - 160 * tbl freq_scale j * s j) <= col_error eps j) as N.
  { intros j Hj. by apply column_error. }
  pose proof (N 0 ltac:(lia)) as N0. pose proof (N 1 ltac:(lia)) as N1. pose proof (N 2 ltac:(lia)) as N2. pose proof (N 3 ltac:(lia)) as N3.
  change (col_error eps 2) with (col_error eps 0) in N2. change (col_error eps 3) with (col_error eps 1) in N3.
  assert (block_error eps = 4 * col_error eps 0 + 3 * col_error eps 1 + 50) as ->.
  { unfold block_error, col_error. change (class 0 0) with 0. change (class 1 0) with 1. change (class 0 1) with 1. change (class 1 1) with 2. lia. }
  change (sum4 (fun j => tbl2 inv_weights y j * (tbl freq_scale j * s j)) = 40 * D x y) in C.
  change (Z.abs (2 * inv1 y u - sum4 (fun i => tbl2 inv_weights y i * u i)) <= 1) in E.
  revert C N0 N1 N2 N3 E. generalize (inv1 y u) as inv, (col_error eps 0) as c0, (col_error eps 1) as c1, (D x y) as X. intros inv c0 c1 X.
  clearbody u s. each4 y; cbv [inv_weights freq_scale]; mat; intros; lia.
Qed.
End Error.

(** A quantiser whose errors are this small cannot make the inverse transform overflow. *)
Lemma error_fits4 D d eps :
  (forall x y, 0 <= x < 4 -> 0 <= y < 4 -> Z.abs (D x y) <= 255) ->
  (forall i j, 0 <= i < 4 -> 0 <= j < 4 ->
     Z.abs (25 * d i j - 4 * tbl freq_scale i * tbl freq_scale j * forward4 D i j) <= eps (class i j)) ->
  col_error eps 0 <= 822350 -> col_error eps 1 <= 659150 -> fits4 d = true.
Proof.
  intros HD near E0 E1. unfold fits4. apply forallb_forall. intros j Hj. apply forallb_forall. intros x Hx.
  assert (0 <= j < 4) as Hj' by (cbn in Hj; lia). assert (0 <= x < 4) as Hx' by (cbn in Hx; lia).
  pose proof (column_error D d eps near x j Hx' Hj') as C.
  pose proof (sum4_bound (tbl2 core j) (fun y => D x y) 255 ltac:(intros; by apply HD)) as B. cbv beta in B. fold (column D j x) (gain j) in B.
  assert (col_error eps j <= if Z.even j then 822350 else 659150) as Ej.
  { clear -E0 E1 Hj'. each4 j; cbn [Z.even]; done. }
  unfold fits16. revert C B Ej. clear -Hj'. generalize (inv1 x (fun i => d i j)) as u, (column D j x) as c, (col_error eps j) as e.
  intros u c e C B Ej. assert (Z.abs (160 * tbl freq_scale j * c) <= if Z.even j then 816000 else 979200) as B'.
  { revert B. each4 j; cbv [freq_scale Z.even gain]; mat; intros; lia. }
  revert Ej B'. destruct (Z.even j); lia.
Qed.

(** ** Adding a residual to the prediction *)
Definition in_block (off size p : Z) : Prop := exists y x, 0 <= y < size /\ 0 <= x < size /\ p = off + y * FDEC_STRIDE + x.

Lemma add4x4_idct_at p_dst off dct :
  (forall y x, 0 <= y < 4 -> 0 <= x < 4 ->
     add4x4_idct p_dst off dct (off + y * FDEC_STRIDE + x) = x264_clip_uint8 (p_dst (off + y * FDEC_STRIDE + x) + idct4x4 dct (4 * y + x))) /\
  (forall p, ~ in_block off 4 p -> add4x4_idct p_dst off dct p = p_dst p).
Proof.
  destruct (for_block 4 4 (fun y x => off + y * FDEC_STRIDE + x) (fun y x v => x264_clip_uint8 (v + idct4x4 dct (4 * y + x))) p_dst) as [H1 H2];
    [unfold FDEC_STRIDE; lia|].
  split; [exact H1|]. intros p Hp. apply H2. intros y x Hy Hx E. apply Hp. by exists y, x.
Qed.
