(* ===== verification/Cqm.v ===== *)
(** * Quantisation tables of x264 ([x264_cqm_init] of common/set.c)

    A table is a function of its list, its quantiser (modulo 6 for the inverse scales) and
    the position in the block.  Tables of equal matrices share their memory in the program;
    they then hold the same values, so here each list has its own. *)
From S2P Require Import Prelude Mb Header.

Definition SHIFT (x s : Z) : Z :=
  if s <? 0 then x << - s else if s =? 0 then x else (x + (1 << (s - 1))) >> s.
Definition DIV (n d : Z) : Z := Z.quot (n + (d >> 1)) d.

Definition dequant4_scale : list (list Z) :=
  [ [ 10; 13; 16 ];
    [ 11; 14; 18 ];
    [ 13; 16; 20 ];
    [ 14; 18; 23 ];
    [ 16; 20; 25 ];
    [ 18; 23; 29 ] ].
Definition quant4_scale : list (list Z) :=
  [ [ 13107; 8066; 5243 ];
    [ 11916; 7490; 4660 ];
    [ 10082; 6554; 4194 ];
    [ 9362; 5825; 3647 ];
    [ 8192; 5243; 3355 ];
    [ 7282; 4559; 2893 ] ].
Definition quant8_scan : list Z := [ 0;3;4;3; 3;1;5;1; 4;5;2;5; 3;1;5;1 ].
Definition dequant8_scale : list (list Z) :=
  [ [ 20; 18; 32; 19; 25; 24 ];
    [ 22; 19; 35; 21; 28; 26 ];
    [ 26; 23; 42; 24; 33; 31 ];
    [ 28; 25; 45; 26; 35; 33 ];
    [ 32; 28; 51; 30; 40; 38 ];
    [ 36; 32; 58; 34; 46; 43 ] ].
Definition quant8_scale : list (list Z) :=
  [ [ 13107; 11428; 20972; 12222; 16777; 15481 ];
    [ 11916; 10826; 19174; 11058; 14980; 14290 ];
    [ 10082; 8943; 15978; 9675; 12710; 11985 ];
    [ 9362; 8228; 14913; 8931; 11984; 11259 ];
    [ 8192; 7346; 13159; 7740; 10486; 9777 ];
    [ 7282; 6428; 11570; 6830; 9118; 8640 ] ].

(** The table members of [x264_t]. *)
Record cqm_t := Cqm {
  dequant4_mf : Z -> Z -> Z -> Z;
  dequant8_mf : Z -> Z -> Z -> Z;
  unquant4_mf : Z -> Z -> Z -> Z;
  unquant8_mf : Z -> Z -> Z -> Z;
  quant4_mf : Z -> Z -> Z -> Z;
  quant8_mf : Z -> Z -> Z -> Z;
  quant4_bias : Z -> Z -> Z -> Z;
  quant8_bias : Z -> Z -> Z -> Z
}.

(** What it reads of [h->param] and [h->mb]. *)
Record cqm_param := CqmParam {
  i_luma_deadzone : Z * Z;           (* inter, intra *)
  cp_b_transform_8x8 : bool;
  cp_i_qp_min : Z;
  cp_b_lossless : bool
}.

Section Init.
Context (param : cqm_param) (scaling_list : list (list Z)).

Definition deadzone : list Z :=
  [ 32 - (i_luma_deadzone param).2; 32 - (i_luma_deadzone param).1; 32 - 11; 32 - 21 ].

Definition def_dequant4 (q i : Z) : Z := tbl2 dequant4_scale q ((i .& 1) + ((i >> 2) .& 1)).
Definition def_quant4 (q i : Z) : Z := tbl2 quant4_scale q ((i .& 1) + ((i >> 2) .& 1)).
Definition def_dequant8 (q i : Z) : Z := tbl2 dequant8_scale q (tbl quant8_scan (((i >> 1) .& 12) .| (i .& 3))).
Definition def_quant8 (q i : Z) : Z := tbl2 quant8_scale q (tbl quant8_scan (((i >> 1) .& 12) .| (i .& 3))).

(** The local tables [quant4_mf] and [quant8_mf]. *)
Definition base_quant4_mf (i_list q i : Z) : Z := DIV (def_quant4 q i * 16) (tbl2 scaling_list i_list i).
Definition base_quant8_mf (i_list q i : Z) : Z := DIV (def_quant8 q i * 16) (tbl2 scaling_list (4 + i_list) i).

(** [j], before it is stored in 16 bits. *)
Definition mf4 (i_list q i : Z) : Z := SHIFT (base_quant4_mf i_list (Z.rem q 6) i) (Z.quot q 6 - 1).
Definition mf8 (i_list q i : Z) : Z := SHIFT (base_quant8_mf i_list (Z.rem q 6) i) (Z.quot q 6).
Definition bias (i_list j : Z) : Z := u16 (Z.min (DIV (tbl deadzone i_list << 10) j) (Z.quot (1 << 15) j)).

Definition cqm_tables : cqm_t := {|
  dequant4_mf i_list q i := def_dequant4 q i * tbl2 scaling_list i_list i;
  dequant8_mf i_list q i := def_dequant8 q i * tbl2 scaling_list (4 + i_list) i;
  unquant4_mf i_list q i := s32 (Z.quot (1 << (Z.quot q 6 + 15 + 8)) (base_quant4_mf i_list (Z.rem q 6) i));
  unquant8_mf i_list q i := s32 (Z.quot (1 << (Z.quot q 6 + 16 + 8)) (base_quant8_mf i_list (Z.rem q 6) i));
  quant4_mf i_list q i := u16 (mf4 i_list q i);
  quant8_mf i_list q i := u16 (mf8 i_list q i);
  quant4_bias i_list q i := bias i_list (mf4 i_list q i);
  quant8_bias i_list q i := bias i_list (mf8 i_list q i) |}.

(** The last quantiser with a scale that does not fit its 16 bits. *)
Definition max_qp_err : Z :=
  for_ 52 0 (fun q max_qp_err =>
    let max_qp_err := for_ 4 0 (fun i_list max_qp_err =>
      for_ 16 0 (fun i max_qp_err =>
        if (mf4 i_list q i >? 0xffff) && (q >? max_qp_err) then q else max_qp_err) max_qp_err) max_qp_err in
    if cp_b_transform_8x8 param then
      for_ 2 0 (fun i_list max_qp_err =>
        for_ 64 0 (fun i max_qp_err =>
          if (mf8 i_list q i >? 0xffff) && (q >? max_qp_err) then q else max_qp_err) max_qp_err) max_qp_err
    else max_qp_err) (-1).

(** The return value and the tables; those of 8x8 blocks but the inverse scales are left
    uninitialised when the 8x8 transform is off. *)
Definition x264_cqm_init : Z * cqm_t :=
  (if negb (cp_b_lossless param) && (max_qp_err >=? cp_i_qp_min param) then -1 else 0, cqm_tables).

End Init.

(** ** Soundness *)

(** Lists as the picture parameter set holds them. *)
Definition lists_ok (scaling_list : list (list Z)) : Prop :=
  forall i_list, 0 <= i_list < 6 -> list_ok i_list (nth (Z.to_nat i_list) scaling_list []).

Lemma lists_ok_at sl i_list i : lists_ok sl -> 0 <= i_list < 6 -> 0 <= i < (if i_list <? 4 then 16 else 64) -> 1 <= tbl2 sl i_list i <= 255.
Proof.
  intros H Hl Hi. destruct (H i_list Hl) as [Hn HF]. unfold tbl2. set (l := nth (Z.to_nat i_list) sl []) in *.
  assert (Z.of_nat (list_size i_list) = if i_list <? 4 then 16 else 64) as Es by (unfold list_size; by destruct (i_list <? 4)).
  set (n := list_size i_list) in *. enough (0 < tbl l i < 256) by lia.
  unfold tbl. apply (Forall_elem (fun v => 0 < v < 256) (take n l)); [done|]. apply list_elem_of_In.
  rewrite <- (List.firstn_skipn n l) at 1. rewrite app_nth1 by (rewrite length_firstn; lia). apply nth_In. rewrite length_firstn. lia.
Qed.

Lemma DIV_range n d lo : 1 <= d <= 255 -> 0 <= lo -> 255 * lo <= n -> lo <= DIV n d <= n + 127.
Proof.
  intros Hd Hlo Hn. unfold DIV. rewrite Z.shiftr_div_pow2 by lia. change (2 ^ 1) with 2.
  assert (0 <= d / 2 <= 127) by (Z.to_euclidean_division_equations; lia).
  rewrite Z.quot_div_nonneg by lia. split; [apply Z.div_le_lower_bound; nia|]. apply Z.div_le_upper_bound; nia.
Qed.

(** A shifted scale stays positive. *)
Lemma SHIFT_pos v s : 0 <= v -> s <= 8 -> 2 ^ Z.max 0 (s - 1) <= v -> 1 <= SHIFT v s.
Proof.
  intros Hv Hs H. unfold SHIFT. destruct (Z.ltb_spec s 0) as [Hn|Hn].
  - rewrite Z.shiftl_mul_pow2 by lia. pose proof (pow2_pos (- s)). rewrite Z.max_l in H by lia. nia.
  - destruct (Z.eqb_spec s 0) as [->|Hne]; [rewrite Z.max_l in H by lia; lia|].
    rewrite Z.max_r in H by lia. rewrite Z.shiftr_div_pow2, Z.shiftl_mul_pow2, Z.mul_1_l by lia.
    apply Z.div_le_lower_bound; [apply pow2_pos; lia|]. replace (2 ^ s) with (2 * 2 ^ (s - 1)) by (rewrite <- Z.pow_succ_r by lia; f_equal; lia). lia.
Qed.

(** *** The check *)
Definition mark (q : Z) (b : bool) (m : Z) : Z := if b then Z.max m q else m.

Lemma for_mark n q (P : Z -> bool) m : for_ n 0 (fun i m => mark q (P i) m) m = mark q (existsb P (seqZ 0 (Z.of_nat n))) m.
Proof.
  induction n as [|n IH]; [done|]. rewrite for_snoc, IH, Z.add_0_l.
  replace (Z.of_nat (S n)) with (Z.of_nat n + 1) by lia.
  assert (seqZ 0 (Z.of_nat n + 1) = seqZ 0 (Z.of_nat n) ++ [Z.of_nat n]) as -> by (rewrite seqZ_app by lia; done).
  rewrite existsb_app. cbn [existsb].
  unfold mark. rewrite orb_false_r. destruct (existsb P _), (P _); cbn [orb]; lia.
Qed.

Lemma mark_step (b : bool) q m : (if b && (q >? m) then q else m) = mark q b m.
Proof. unfold mark. destruct b; [|done]. cbn [andb]. destruct (Z.gtb_spec q m); lia. Qed.

Lemma for_mark_step n q (P : Z -> bool) m : for_ n 0 (fun i m => if P i && (q >? m) then q else m) m = mark q (existsb P (seqZ 0 (Z.of_nat n))) m.
Proof. rewrite <- for_mark. apply for_ext. intros i s _. apply mark_step. Qed.

(** Below [k] nothing is marked from [k] on. *)
Lemma for_marks n (B : Z -> bool) k : 0 <= k -> for_ n 0 (fun q m => mark q (B q) m) (-1) < k <-> (forall q, k <= q < Z.of_nat n -> B q = false).
Proof.
  intros Hk. induction n as [|n IH]; [split; [intros _ q Hq; lia|cbn; lia]|]. rewrite for_snoc, Z.add_0_l.
  set (m := for_ n 0 _ _) in *. unfold mark. destruct (B (Z.of_nat n)) eqn:E.
  - split; [|intros H].
    + intros Hlt q Hq. assert (q <> Z.of_nat n) by lia. apply IH; lia.
    + destruct (Z_lt_le_dec (Z.of_nat n) k) as [Hn|Hn]; [|rewrite H in E by lia; done]. apply Z.max_lub_lt; [|done]. apply IH. intros; apply H; lia.
  - rewrite IH. split; intros H q Hq; [|apply H; lia]. destruct (Z.eq_dec q (Z.of_nat n)) as [->|]; [done|apply H; lia].
Qed.

(** A scale of quantiser [q] does not fit. *)
Definition overflows (param : cqm_param) (sl : list (list Z)) (q : Z) : bool :=
  existsb (fun i_list => existsb (fun i => mf4 sl i_list q i >? 0xffff) (seqZ 0 16)) (seqZ 0 4) ||
  cp_b_transform_8x8 param && existsb (fun i_list => existsb (fun i => mf8 sl i_list q i >? 0xffff) (seqZ 0 64)) (seqZ 0 2).

Lemma max_qp_err_spec param sl k : 0 <= k -> max_qp_err param sl < k <-> (forall q, k <= q < 52 -> overflows param sl q = false).
Proof.
  intros Hk. rewrite <- (for_marks 52 (overflows param sl) k Hk). unfold max_qp_err.
  match goal with |- ?a < k <-> ?b < k => replace a with b; [done|] end.
  apply for_ext. intros q m _. unfold overflows.
  rewrite (for_ext 4 0 _ (fun i_list m => mark q (existsb (fun i => mf4 sl i_list q i >? 0xffff) (seqZ 0 16)) m)) by (intros; apply (for_mark_step 16)).
  rewrite (for_ext 2 0 _ (fun i_list m => mark q (existsb (fun i => mf8 sl i_list q i >? 0xffff) (seqZ 0 64)) m)) by (intros; apply (for_mark_step 64)).
  rewrite (for_mark 4), (for_mark 2). change (Z.of_nat 4) with 4. change (Z.of_nat 2) with 2. unfold mark. set (a := existsb _ (seqZ 0 4)). set (b := existsb _ (seqZ 0 2)).
  destruct a, b, (cp_b_transform_8x8 param); cbn [andb orb]; lia.
Qed.

Lemma existsb_seqZ P n : existsb P (seqZ 0 n) = false <-> (forall i, 0 <= i < n -> P i = false).
Proof.
  rewrite <- not_true_iff_false, existsb_exists. split.
  - intros H i Hi. apply not_true_iff_false. intros E. apply H. exists i. split; [apply list_elem_of_In, elem_of_seqZ; lia|done].
  - intros H (i & Hi & E). apply list_elem_of_In, elem_of_seqZ in Hi. rewrite H in E by lia. done.
Qed.

Lemma overflows_spec param sl q : overflows param sl q = false <->
  (forall i_list i, 0 <= i_list < 4 -> 0 <= i < 16 -> mf4 sl i_list q i <= 0xffff) /\
  (cp_b_transform_8x8 param = true -> forall i_list i, 0 <= i_list < 2 -> 0 <= i < 64 -> mf8 sl i_list q i <= 0xffff).
Proof.
  unfold overflows. rewrite orb_false_iff, andb_false_iff, !existsb_seqZ. setoid_rewrite existsb_seqZ.
  assert (forall v, (v >? 0xffff) = false <-> v <= 0xffff) as E by (intros; lia). setoid_rewrite E.
  destruct (cp_b_transform_8x8 param); intuition (done || auto).
Qed.

(** *** The entries *)
Lemma land_ones_range k x : 0 <= x .& (2 ^ Z.of_nat k - 1) < 2 ^ Z.of_nat k.
Proof. rewrite Z.sub_1_r, <- Z.ones_equiv, Z.land_ones by lia. apply Z.mod_pos_bound. apply pow2_pos. lia. Qed.

Lemma def_quant4_range q i : 0 <= q < 6 -> 2893 <= def_quant4 q i <= 13107.
Proof.
  intros Hq. unfold def_quant4. assert (0 <= (i .& 1) + ((i >> 2) .& 1) < 3) as Hp.
  { assert (forall x, 0 <= x .& 1 < 2) as B by (intros x; apply (land_ones_range 1)).
    pose proof (B i). pose proof (B (i >> 2)). lia. }
  revert Hp. generalize ((i .& 1) + ((i >> 2) .& 1)). intros p Hp.
  assert (all_range 0 6 (fun q => all_range 0 3 (fun p => (2893 <=? tbl2 quant4_scale q p) && (tbl2 quant4_scale q p <=? 13107))) = true) as C by (vm_compute; reflexivity).
  apply (all_range_spec 0 6 _ q) in C; [|lia]. apply (all_range_spec 0 3 _ p) in C; [|lia]. cbv beta in C. lia.
Qed.

Lemma def_quant8_range q i : 0 <= q < 6 -> 0 <= i < 64 -> 6428 <= def_quant8 q i <= 20972.
Proof.
  intros Hq Hi.
  assert (all_range 0 6 (fun q => all_range 0 64 (fun i => (6428 <=? def_quant8 q i) && (def_quant8 q i <=? 20972))) = true) as C by (vm_compute; reflexivity).
  apply (all_range_spec 0 6 _ q) in C; [|lia]. apply (all_range_spec 0 64 _ i) in C; [|lia]. cbv beta in C. lia.
Qed.

Lemma mf4_pos sl i_list q i : lists_ok sl -> 0 <= i_list < 4 -> 0 <= q < 52 -> 0 <= i < 16 -> 1 <= mf4 sl i_list q i.
Proof.
  intros H Hl Hq Hi. unfold mf4, base_quant4_mf. rewrite Z.rem_mod_nonneg, Z.quot_div_nonneg by lia.
  pose proof (def_quant4_range (q mod 6) i ltac:(apply Z.mod_pos_bound; lia)) as D.
  pose proof (lists_ok_at sl i_list i H ltac:(lia)) as L. replace (i_list <? 4) with true in L by lia. specialize (L Hi).
  pose proof (DIV_range (def_quant4 (q mod 6) i * 16) _ 181 L ltac:(lia) ltac:(lia)) as B.
  apply SHIFT_pos; [lia|Z.to_euclidean_division_equations; lia|].
  transitivity (2 ^ 7); [apply Z.pow_le_mono_r; Z.to_euclidean_division_equations; lia|lia].
Qed.

Lemma mf8_pos sl i_list q i : lists_ok sl -> 0 <= i_list < 2 -> 0 <= q < 52 -> 0 <= i < 64 -> 1 <= mf8 sl i_list q i.
Proof.
  intros H Hl Hq Hi. unfold mf8, base_quant8_mf. rewrite Z.rem_mod_nonneg, Z.quot_div_nonneg by lia.
  pose proof (def_quant8_range (q mod 6) i ltac:(apply Z.mod_pos_bound; lia) Hi) as D.
  pose proof (lists_ok_at sl (4 + i_list) i H ltac:(lia)) as L. replace (4 + i_list <? 4) with false in L by lia. specialize (L Hi).
  pose proof (DIV_range (def_quant8 (q mod 6) i * 16) _ 403 L ltac:(lia) ltac:(lia)) as B.
  apply SHIFT_pos; [lia|Z.to_euclidean_division_equations; lia|].
  transitivity (2 ^ 8); [apply Z.pow_le_mono_r; Z.to_euclidean_division_equations; lia|lia].
Qed.

(** The bias is at most half a level, and is not truncated. *)
Lemma bias_range param i_list j : 0 <= tbl (deadzone param) i_list <= 32 -> 1 <= j <= 0xffff -> 0 <= bias param i_list j /\ bias param i_list j * j <= 2 ^ 15.
Proof.
  intros Hd Hj. unfold bias. rewrite (Z.quot_div_nonneg (1 << 15)) by (rewrite ?Z.shiftl_mul_pow2; lia). change (1 << 15) with 32768.
  assert (0 <= DIV (tbl (deadzone param) i_list << 10) j) as HD.
  { unfold DIV. rewrite Z.shiftr_div_pow2, Z.shiftl_mul_pow2 by lia. apply Z.quot_pos; [|lia]. assert (0 <= j / 2 ^ 1) by (apply Z.div_pos; lia). nia. }
  assert (0 <= 32768 / j <= 32768) as Hq by (split; [apply Z.div_pos; lia|apply Z.div_le_upper_bound; nia]).
  rewrite uw_small by lia. pose proof (Z.mul_div_le 32768 j ltac:(lia)). change (2 ^ 15) with 32768. split; [lia|]. nia.
Qed.

Definition entry_ok (mf bias scale : Z) : Prop := 0 < mf < 2 ^ 16 /\ 0 <= bias /\ bias * mf <= 2 ^ 15 /\ 0 < scale <= 2 ^ 14.

Lemma def_dequant_range q i : 0 <= q < 6 -> 0 <= i < 64 -> (i < 16 -> 10 <= def_dequant4 q i <= 29) /\ 18 <= def_dequant8 q i <= 58.
Proof.
  intros Hq Hi.
  assert (all_range 0 6 (fun q => all_range 0 64 (fun i => (10 <=? def_dequant4 q i) && (def_dequant4 q i <=? 29) && (18 <=? def_dequant8 q i) && (def_dequant8 q i <=? 58))) = true) as C by (vm_compute; reflexivity).
  apply (all_range_spec 0 6 _ q) in C; [|lia]. apply (all_range_spec 0 64 _ i) in C; [|lia]. cbv beta in C. lia.
Qed.

Definition deadzones_ok (param : cqm_param) : Prop := 0 <= (i_luma_deadzone param).1 <= 32 /\ 0 <= (i_luma_deadzone param).2 <= 32.

Lemma deadzone_range param i_list : deadzones_ok param -> 0 <= i_list < 4 -> 0 <= tbl (deadzone param) i_list <= 32.
Proof.
  intros [H1 H2] Hl. assert (i_list = 0 \/ i_list = 1 \/ i_list = 2 \/ i_list = 3) as [->|[->|[->| ->]]] by lia; cbv -[Z.sub Z.le i_luma_deadzone fst snd]; lia.
Qed.

(** C24: The check of [x264_cqm_init] is exact. It returns 0 precisely when every scale that a
    quantiser from the minimum on uses fits the 16 bits it is stored in; and then, for any
    valid scaling lists and dead zones, each entry of the tables is what the quantisers need:
    the scale is positive and was not truncated, the bias is at most half a level and the
    inverse scale is at most 14 bits. *)
Theorem cqm_init_exact param sl : lists_ok sl -> cp_b_lossless param = false -> 0 <= cp_i_qp_min param -> deadzones_ok param ->
  let '(result, t) := x264_cqm_init param sl in
  (result = 0 <-> forall q, cp_i_qp_min param <= q < 52 ->
     (forall i_list i, 0 <= i_list < 4 -> 0 <= i < 16 -> mf4 sl i_list q i < 2 ^ 16) /\
     (cp_b_transform_8x8 param = true -> forall i_list i, 0 <= i_list < 2 -> 0 <= i < 64 -> mf8 sl i_list q i < 2 ^ 16)) /\
  (result = 0 -> forall q, cp_i_qp_min param <= q < 52 ->
     (forall i_list i, 0 <= i_list < 4 -> 0 <= i < 16 ->
        quant4_mf t i_list q i = mf4 sl i_list q i /\
        entry_ok (quant4_mf t i_list q i) (quant4_bias t i_list q i) (dequant4_mf t i_list (q mod 6) i)) /\
     (cp_b_transform_8x8 param = true -> forall i_list i, 0 <= i_list < 2 -> 0 <= i < 64 ->
        quant8_mf t i_list q i = mf8 sl i_list q i /\
        entry_ok (quant8_mf t i_list q i) (quant8_bias t i_list q i) (dequant8_mf t i_list (q mod 6) i))).
Proof.
  intros H L Hq0 Hdz. unfold x264_cqm_init. rewrite L. cbn [negb andb].
  assert ((if max_qp_err param sl >=? cp_i_qp_min param then -1 else 0) = 0 <-> max_qp_err param sl < cp_i_qp_min param) as E.
  { rewrite Z.geb_leb. destruct (Z.leb_spec (cp_i_qp_min param) (max_qp_err param sl)); lia. }
  rewrite E, max_qp_err_spec by done. setoid_rewrite overflows_spec. split.
  - split; intros K q Hq; destruct (K q Hq) as [K4 K8]; (split; [intros l i Hl Hi; specialize (K4 l i Hl Hi)|intros T8 l i Hl Hi; specialize (K8 T8 l i Hl Hi)]); lia.
  - intros K q Hq. destruct (K q Hq) as [K4 K8]. assert (0 <= q mod 6 < 6) by (apply Z.mod_pos_bound; lia). unfold entry_ok.
    cbn [cqm_tables quant4_mf quant4_bias dequant4_mf quant8_mf quant8_bias dequant8_mf]. split.
    + intros l i Hl Hi. specialize (K4 l i Hl Hi). pose proof (mf4_pos sl l q i H Hl ltac:(lia) Hi). rewrite uw_small by lia.
      destruct (def_dequant_range (q mod 6) i) as [D _]; [lia..|]. pose proof (lists_ok_at sl l i H ltac:(lia)) as W. replace (l <? 4) with true in W by lia.
      destruct (bias_range param l (mf4 sl l q i)); [by apply deadzone_range|lia|]. split; [done|]. specialize (W Hi). split; [lia|]. split; [done|]. split; [done|]. nia.
    + intros T8 l i Hl Hi. specialize (K8 T8 l i Hl Hi). pose proof (mf8_pos sl l q i H Hl ltac:(lia) Hi). rewrite uw_small by lia.
      destruct (def_dequant_range (q mod 6) i) as [_ D]; [lia..|]. pose proof (lists_ok_at sl (4 + l) i H ltac:(lia)) as W. replace (4 + l <? 4) with false in W by lia.
      destruct (bias_range param l (mf8 sl l q i)); [apply deadzone_range; [done|lia]|lia|]. split; [done|]. specialize (W Hi). split; [lia|]. split; [done|]. split; [done|]. nia.
Qed.

(** ** Examples *)
Definition default_lists : list (list Z) := replicate 6 x264_cqm_flat16.

Lemma cqm_init_exact_witness :
  let param := CqmParam (21, 11) true 10 false in
  (x264_cqm_init param default_lists).1 = 0 /\
  forall i, 0 <= i < 16 -> 0 < quant4_mf (x264_cqm_init param default_lists).2 0 26 i < 2 ^ 16.
Proof.
  cbv zeta. set (param := CqmParam (21, 11) true 10 false).
  assert (lists_ok default_lists) as H.
  { intros l Hl. assert (forall n, Forall (fun v => 0 < v < 256) (take n x264_cqm_flat16)) as F
      by (intros n; apply list.Forall_take; apply (list.Forall_replicate _ 64 16); lia).
    assert (l = 0 \/ l = 1 \/ l = 2 \/ l = 3 \/ l = 4 \/ l = 5) as [->|[->|[->|[->|[->| ->]]]]] by lia; (split; [vm_compute; lia|apply F]). }
  assert ((x264_cqm_init param default_lists).1 = 0) as R by (vm_compute; reflexivity). split; [exact R|].
  pose proof (cqm_init_exact param default_lists H eq_refl ltac:(done) ltac:(unfold deadzones_ok; cbn; lia)) as T.
  destruct (x264_cqm_init param default_lists) as [r t]. destruct T as [_ T]. intros i Hi.
  destruct (T R 26 ltac:(cbn; lia)) as [T4 _]. apply (T4 0 i ltac:(lia) Hi).
Defined.
