(* ===== verification/Encode.v ===== *)
(** * Transform coding of a macroblock (encoder/macroblock.c)

    The functions take the encoder state and the planes of the macroblock, whose [p_fdec]
    holds the prediction, and return them with the levels in [h->dct] and the reconstruction
    in [p_fdec].  The trellis searches of encoder/rdo.c, which choose levels by rate and
    distortion, are arguments; they are used when [b_trellis] is set.

    Decimation scores are computed by loops with fuel, so that the functions that use them
    return an [option]. *)
From S2P Require Import Prelude Quant Mb Header CavlcMb Dct Cqm.
Local Abbreviation zeros := (fun _ : Z => 0).

(** ** Local helpers *)

(** [array_non_zero] of [n] 16-bit words, by 64-bit loads. *)
Definition array_non_zero (n : Z) (v : Z -> Z) : bool := existsb (fun k => negb (ld_coef64 v (4 * k) =? 0)) (seqZ 0 (n / 4)).

(** A loop whose body can fail. *)
Fixpoint foldM {A S} (f : S -> A -> option S) (s : S) (l : list A) : option S :=
  match l with
  | [] => Some s
  | x :: l => s ← f s x; foldM f s l
  end.

(** Replacing one block of an array of blocks. *)
Definition upd_block (f : Z -> Z -> Z) (i : Z) (b : Z -> Z) : Z -> Z -> Z := fun j => if j =? i then b else f j.
Definition put_luma4x4 (h : x264_t) (i : Z) (b : Z -> Z) : x264_t := set_luma4x4 h (upd_block (luma4x4 h) i b).
Definition put_luma8x8 (h : x264_t) (i : Z) (b : Z -> Z) : x264_t := set_luma8x8 h (upd_block (luma8x8 h) i b).
Definition put_chroma_dc (h : x264_t) (ch : Z) (b : Z -> Z) : x264_t := set_chroma_dc h (upd_block (chroma_dc h) ch b).
Definition put_fdec (pic : mb_pic) (plane : Z) (p : Z -> Z) : mb_pic := MbPic (p_fenc pic) (upd_block (p_fdec pic) plane p).

(** ** Chroma DC *)
Definition zigzag_scan_2x2_dc (level dct : Z -> Z) : Z -> Z :=
  st4 level 0 (dct (2*0+0)) 1 (dct (2*1+0)) 2 (dct (2*0+1)) 3 (dct (2*1+1)).

Definition idct_dequant_2x2_dc (dct : Z -> Z) (dct4x4 : Z -> Z -> Z) (dequant_mf : Z -> Z -> Z) (i_qp : Z) : Z -> Z -> Z :=
  let d0 := dct 0 + dct 1 in
  let d1 := dct 2 + dct 3 in
  let d2 := dct 0 - dct 1 in
  let d3 := dct 2 - dct 3 in
  let dmf := dequant_mf (Z.rem i_qp 6) 0 in
  let qbits := Z.quot i_qp 6 - 5 in
  let '(dmf, qbits) := if qbits >? 0 then (s32 (dmf << qbits), 0) else (dmf, qbits) in
  let put b v dct4x4 := upd_block dct4x4 b (upd (dct4x4 b) 0 (s16 (s32 (v * dmf) >> - qbits))) in
  put 3 (d2 - d3) (put 2 (d2 + d3) (put 1 (d0 - d1) (put 0 (d0 + d1) dct4x4))).

(** The DC block, and the blocks with their DC cleared. *)
Definition dct2x2dc (dct4x4 : Z -> Z -> Z) : (Z -> Z) * (Z -> Z -> Z) :=
  let d0 := dct4x4 0 0 + dct4x4 1 0 in
  let d1 := dct4x4 2 0 + dct4x4 3 0 in
  let d2 := dct4x4 0 0 - dct4x4 1 0 in
  let d3 := dct4x4 2 0 - dct4x4 3 0 in
  (st4 zeros 0 (s16 (d0 + d1)) 2 (s16 (d2 + d3)) 1 (s16 (d0 - d1)) 3 (s16 (d2 - d3)),
   fun b => if (0 <=? b) && (b <? 4) then upd (dct4x4 b) 0 0 else dct4x4 b).

(** ** The encoder *)

(** What it reads of [h->param] and [h->mb]. *)
Record enc_t := Enc {
  cqm : cqm_t;
  b_lossless : bool;
  b_trellis : bool;
  b_noise_reduction : bool;
  b_dct_decimate : bool;
  param_b_interlaced : bool;         (* chooses the scans *)
  nr_offset : Z -> Z -> Z
}.

Section Encoder.
Context (e : enc_t).
(** The results of [x264_quant_4x4_trellis], [x264_quant_8x8_trellis] (categories: matrix,
    block) and [x264_quant_dc_trellis]. *)
Context (quant_4x4_trellis : x264_t -> (Z -> Z) -> Z -> Z -> Z -> bool -> Z -> Z -> Z)
        (quant_8x8_trellis : x264_t -> (Z -> Z) -> Z -> Z -> bool -> Z -> Z -> Z)
        (quant_dc_trellis : x264_t -> (Z -> Z) -> Z -> Z -> Z -> bool -> Z -> Z).

Definition x264_quant_4x4 (h : x264_t) (dct : Z -> Z) (i_qp i_ctxBlockCat : Z) (b_intra : bool) (idx : Z) : Z -> Z :=
  let i_quant_cat := if b_intra then CQM_4IY else CQM_4PY in
  if b_trellis e then quant_4x4_trellis h dct i_quant_cat i_qp i_ctxBlockCat b_intra idx
  else quant_4x4 dct (quant4_mf (cqm e) i_quant_cat i_qp) (quant4_bias (cqm e) i_quant_cat i_qp).

Definition x264_quant_8x8 (h : x264_t) (dct : Z -> Z) (i_qp : Z) (b_intra : bool) (idx : Z) : Z -> Z :=
  let i_quant_cat := if b_intra then CQM_8IY else CQM_8PY in
  if b_trellis e then quant_8x8_trellis h dct i_quant_cat i_qp b_intra idx
  else quant_8x8 dct (quant8_mf (cqm e) i_quant_cat i_qp) (quant8_bias (cqm e) i_quant_cat i_qp).

Definition scan_4x4 := zigzag_scan_4x4 (param_b_interlaced e).
Definition scan_8x8 := zigzag_scan_8x8 (param_b_interlaced e).
(** [sub_4x4] of the block at [oe] of the source and [od] of the prediction of a plane. *)
Definition sub_4x4 (level : Z -> Z) (pic : mb_pic) (plane oe od : Z) : (Z -> Z) * mb_pic :=
  let '(level, p_dst) := zigzag_sub_4x4 (param_b_interlaced e) level (p_fenc pic plane) oe (p_fdec pic plane) od in
  (level, put_fdec pic plane p_dst).
Definition sub_8x8 (level : Z -> Z) (pic : mb_pic) (plane oe od : Z) : (Z -> Z) * mb_pic :=
  let '(level, p_dst) := zigzag_sub_8x8 (param_b_interlaced e) level (p_fenc pic plane) oe (p_fdec pic plane) od in
  (level, put_fdec pic plane p_dst).

Definition x264_mb_encode_i4x4 (h : x264_t) (pic : mb_pic) (idx i_qp : Z) : x264_t * mb_pic :=
  let oe := tbl block_idx_xy_fenc idx in
  let od := tbl block_idx_xy_fdec idx in
  if b_lossless e then
    let '(level, pic) := sub_4x4 (luma4x4 h idx) pic 0 oe od in
    (put_luma4x4 h idx level, pic)
  else
    let dct4x4 := sub4x4_dct (ptr (p_fenc pic 0) oe) (ptr (p_fdec pic 0) od) in
    let dct4x4 := x264_quant_4x4 h dct4x4 i_qp DCT_LUMA_4x4 true idx in
    if array_non_zero 16 dct4x4 then
      let h := put_luma4x4 h idx (scan_4x4 (luma4x4 h idx) dct4x4) in
      let dct4x4 := dequant_4x4 dct4x4 (dequant4_mf (cqm e) CQM_4IY) i_qp in
      (h, put_fdec pic 0 (add4x4_idct (p_fdec pic 0) od dct4x4))
    else (put_luma4x4 h idx zeros, pic).

Definition x264_mb_encode_i8x8 (h : x264_t) (pic : mb_pic) (idx i_qp : Z) : x264_t * mb_pic :=
  let x := 8 * (idx .& 1) in
  let y := 8 * (idx >> 1) in
  let oe := x + y * FENC_STRIDE in
  let od := x + y * FDEC_STRIDE in
  if b_lossless e then
    let '(level, pic) := sub_8x8 (luma8x8 h idx) pic 0 oe od in
    (put_luma8x8 h idx level, pic)
  else
    let dct8x8 := sub8x8_dct8 (ptr (p_fenc pic 0) oe) (ptr (p_fdec pic 0) od) in
    let dct8x8 := x264_quant_8x8 h dct8x8 i_qp true idx in
    let h := put_luma8x8 h idx (scan_8x8 (luma8x8 h idx) dct8x8) in
    let dct8x8 := dequant_8x8 dct8x8 (dequant8_mf (cqm e) CQM_8IY) i_qp in
    (h, put_fdec pic 0 (add8x8_idct8 (p_fdec pic 0) od dct8x8).1).

Definition x264_mb_encode_i16x16 (h : x264_t) (pic : mb_pic) (i_qp : Z) : x264_t * mb_pic :=
  if b_lossless e then
    let '(h, pic, dct_dc4x4) := for_ 16 0 (fun i '(h, pic, dct_dc4x4) =>
      let '(level, pic) := sub_4x4 (luma4x4 h i) pic 0 (tbl block_idx_xy_fenc i) (tbl block_idx_xy_fdec i) in
      (put_luma4x4 h i (upd level 0 0), pic, upd dct_dc4x4 (tbl block_idx_yx_1d i) (level 0))) (h, pic, zeros) in
    (set_luma16x16_dc h (scan_4x4 (luma16x16_dc h) dct_dc4x4), pic)
  else
    let dct4x4 := sub16x16_dct (fun _ => zeros) (p_fenc pic 0) (p_fdec pic 0) in
    let '(h, dct4x4, dct_dc4x4) := for_ 16 0 (fun i '(h, dct4x4, dct_dc4x4) =>
      let dct_dc4x4 := upd dct_dc4x4 (tbl block_idx_xy_1d i) (dct4x4 i 0) in
      let d := upd (dct4x4 i) 0 0 in
      let d := x264_quant_4x4 h d i_qp DCT_LUMA_AC true i in
      let h := put_luma4x4 h i (scan_4x4 (luma4x4 h i) d) in
      let d := dequant_4x4 d (dequant4_mf (cqm e) CQM_4IY) i_qp in
      (h, upd_block dct4x4 i d, dct_dc4x4)) (h, dct4x4, zeros) in
    let dct_dc4x4 := dct4x4dc dct_dc4x4 in
    let dct_dc4x4 :=
      if b_trellis e then quant_dc_trellis h dct_dc4x4 CQM_4IY i_qp DCT_LUMA_DC true
      else quant_4x4_dc dct_dc4x4 (quant4_mf (cqm e) CQM_4IY i_qp 0 >> 1) (quant4_bias (cqm e) CQM_4IY i_qp 0 << 1) in
    let h := set_luma16x16_dc h (scan_4x4 (luma16x16_dc h) dct_dc4x4) in
    let dct_dc4x4 := idct4x4dc dct_dc4x4 in
    let dct_dc4x4 := dequant_4x4_dc dct_dc4x4 (dequant4_mf (cqm e) CQM_4IY) i_qp in
    let dct4x4 := for_ 16 0 (fun i dct4x4 =>
      upd_block dct4x4 i (upd (dct4x4 i) 0 (dct_dc4x4 (tbl block_idx_xy_1d i)))) dct4x4 in
    (h, put_fdec pic 0 (add16x16_idct (p_fdec pic 0) 0 dct4x4)).

(** *** Chroma *)

(** The four AC blocks of one component: quantised, scanned, and their decimation score. *)
Definition chroma_ac_block (ch i_qp i_quant_cat : Z) (b_intra b_decimate : bool)
    (st : x264_t * (Z -> Z -> Z) * Z) (i : Z) : option (x264_t * (Z -> Z -> Z) * Z) :=
  let '(h, dct4x4, i_decimate_score) := st in
  let d :=
    if b_trellis e then quant_4x4_trellis h (dct4x4 i) i_quant_cat i_qp DCT_CHROMA_AC b_intra 0
    else quant_4x4 (dct4x4 i) (quant4_mf (cqm e) i_quant_cat i_qp) (quant4_bias (cqm e) i_quant_cat i_qp) in
  let h := put_luma4x4 h (16+i+ch*4) (scan_4x4 (luma4x4 h (16+i+ch*4)) d) in
  if b_decimate then
    s ← x264_decimate_score15 (luma4x4 h (16+i+ch*4));
    Some (h, upd_block dct4x4 i d, i_decimate_score + s)
  else Some (h, upd_block dct4x4 i d, i_decimate_score).
Definition chroma_ac (h : x264_t) (ch i_qp i_quant_cat : Z) (b_intra b_decimate : bool) (dct4x4 : Z -> Z -> Z)
    : option (x264_t * (Z -> Z -> Z) * Z) :=
  foldM (chroma_ac_block ch i_qp i_quant_cat b_intra b_decimate) (h, dct4x4, 0) [0; 1; 2; 3].

Definition chroma_lossless (h : x264_t) (pic : mb_pic) (ch : Z) : x264_t * mb_pic :=
  for_ 4 0 (fun i '(h, pic) =>
    let oe := tbl block_idx_x i * 4 + tbl block_idx_y i * 4 * FENC_STRIDE in
    let od := tbl block_idx_x i * 4 + tbl block_idx_y i * 4 * FDEC_STRIDE in
    let '(level, pic) := sub_4x4 (luma4x4 h (16+i+ch*4)) pic (1 + ch) oe od in
    let h := put_chroma_dc h ch (upd (chroma_dc h ch) i (level 0)) in
    (put_luma4x4 h (16+i+ch*4) (upd level 0 0), pic)) (h, pic).

Definition chroma_plane (h : x264_t) (pic : mb_pic) (ch : Z) (b_inter : bool) (i_qp : Z) (b_decimate : bool)
    : option (x264_t * mb_pic) :=
  let i_quant_cat := CQM_4IC + b2i b_inter in
  let dct4x4 := sub8x8_dct (fun _ => zeros) 0 (p_fenc pic (1 + ch)) (p_fdec pic (1 + ch)) in
  let '(dct2x2, dct4x4) := dct2x2dc dct4x4 in
  '(h, dct4x4, i_decimate_score) ← chroma_ac h ch i_qp i_quant_cat (negb b_inter) b_decimate dct4x4;
  let dct2x2 :=
    if b_trellis e then quant_dc_trellis h dct2x2 i_quant_cat i_qp DCT_CHROMA_DC (negb b_inter)
    else quant_2x2_dc dct2x2 (quant4_mf (cqm e) i_quant_cat i_qp 0 >> 1) (quant4_bias (cqm e) i_quant_cat i_qp 0 << 1) in
  let finish h dct4x4 :=
    let h := put_chroma_dc h ch (zigzag_scan_2x2_dc (chroma_dc h ch) dct2x2) in
    let dct4x4 := idct_dequant_2x2_dc dct2x2 dct4x4 (dequant4_mf (cqm e) i_quant_cat) i_qp in
    Some (h, put_fdec pic (1 + ch) (add8x8_idct (p_fdec pic (1 + ch)) 0 dct4x4 0)) in
  if b_decimate && (i_decimate_score <? 7) then
    let h := for_ 4 0 (fun i h => put_luma4x4 h (16+i+ch*4) zeros) h in
    if negb (array_non_zero 4 dct2x2) then Some (put_chroma_dc h ch zeros, pic)
    else finish h (fun _ => zeros)
  else finish h (for_ 4 0 (fun i dct4x4 => upd_block dct4x4 i (dequant_4x4 (dct4x4 i) (dequant4_mf (cqm e) i_quant_cat) i_qp)) dct4x4).

(** The coded block pattern of chroma. *)
Definition chroma_cbp (h : x264_t) : x264_t :=
  let h := set_cbp_chroma h 0 in
  let h := for_ 8 0 (fun i h =>
    let nz := b2i (array_non_zero 16 (luma4x4 h (16+i))) in
    set_cbp_chroma (set_non_zero_count h (scan8 (16+i)) nz) (i_cbp_chroma h .| nz)) h in
  let h := set_non_zero_count h (scan8 25) (b2i (array_non_zero 4 (chroma_dc h 0))) in
  let h := set_non_zero_count h (scan8 26) (b2i (array_non_zero 4 (chroma_dc h 1))) in
  if i2b (i_cbp_chroma h) then set_cbp_chroma h 2
  else if i2b (non_zero_count h (scan8 25) .| non_zero_count h (scan8 26)) then set_cbp_chroma h 1
  else h.

Definition x264_mb_encode_8x8_chroma (h : x264_t) (pic : mb_pic) (b_inter : bool) (i_qp : Z) : option (x264_t * mb_pic) :=
  let b_decimate := b_inter && ((sh_i_type h =? SLICE_TYPE_B) || b_dct_decimate e) in
  let plane h pic ch :=
    if b_lossless e then Some (chroma_lossless h pic ch) else chroma_plane h pic ch b_inter i_qp b_decimate in
  '(h, pic) ← plane h pic 0;
  '(h, pic) ← plane h pic 1;
  Some (chroma_cbp h, pic).
End Encoder.
