(* ===== verification/Recon.v ===== *)
(** * The reconstruction of a decoder, and the encoder's (encoder/macroblock.c against the standard)

    The first part writes down the scaling and transform processes of the standard
    (clause 8.5), for a decoder that has the levels, the quantiser and the scaling lists it
    parsed.  The encoder keeps its own reconstruction, which it predicts from: if it differed
    from the decoder's, the error would grow from block to block.  The theorems show that it
    is the same, and, for flat scaling lists, how far it is from the source. *)
From S2P Require Import Prelude Quant Mb Header CavlcMb Dct Cqm Encode.
Local Abbreviation zeros := (fun _ : Z => 0).

(** * The decoder of the standard *)

(** Scans are lists of positions (column, row): the zig-zag walks the diagonals, up on odd
    and down on even ones; the field scan is a table. *)
Definition diagonal (n s : Z) : list (Z * Z) :=
  let xs := filter (fun x => x <= s /\ s - x < n) (seqZ 0 n) in
  (fun x => (x, s - x)) <$> (if Z.even s then xs else reverse xs).
Definition zigzag_positions (n : Z) : list (Z * Z) := s ← seqZ 0 (2 * n - 1); diagonal n s.
Definition field_positions4 : list (Z * Z) :=
  [ (0,0); (0,1); (1,0); (0,2); (0,3); (1,1); (1,2); (1,3); (2,0); (2,1); (2,2); (2,3); (3,0); (3,1); (3,2); (3,3) ].
Definition positions4 (field : bool) : list (Z * Z) := if field then field_positions4 else zigzag_positions 4.

Fixpoint index_of (pos : list (Z * Z)) (x y : Z) : Z :=
  match pos with
  | [] => 0
  | p :: pos => if (p.1 =? x) && (p.2 =? y) then 0 else 1 + index_of pos x y
  end.
(** The value of a scanned list at a position. *)
Definition at_pos (pos : list (Z * Z)) (l : Z -> Z) (x y : Z) : Z := l (index_of pos x y).

(** [normAdjust4x4], [LevelScale4x4] for the list [ws] of the matrix, and the scaling of one
    level. *)
Definition norm_adjust4 (m x y : Z) : Z :=
  let v := nth (Z.to_nat m) [ [10; 16; 13]; [11; 18; 14]; [13; 20; 16]; [14; 23; 18]; [16; 25; 20]; [18; 29; 23] ] [] in
  if Z.even x && Z.even y then tbl v 0 else if Z.odd x && Z.odd y then tbl v 1 else tbl v 2.
Definition level_scale4 (ws : list Z) (m x y : Z) : Z := at_pos (zigzag_positions 4) (tbl ws) x y * norm_adjust4 m x y.
Definition scale_level (scale qp c : Z) : Z :=
  if 24 <=? qp then (c * scale) << (qp / 6 - 4) else (c * scale + 2 ^ (3 - qp / 6)) >> (4 - qp / 6).

Definition scaled4 (field : bool) (ws : list Z) (qp : Z) (lev : Z -> Z) (x y : Z) : Z :=
  scale_level (level_scale4 ws (qp mod 6) x y) qp (at_pos (positions4 field) lev x y).

(** Rounding, and the sample: [pred] plus the residual, clipped. *)
Definition round6 (v : Z) : Z := (v + 32) >> 6.
Definition clip1 (v : Z) : Z := Z.max 0 (Z.min v 255).
Definition decode_residual4 (d : Z -> Z -> Z) (x y : Z) : Z := round6 (inverse4 d x y).

(** What the standard asks of a stream: the scaled values and the first pass fit 16 bits. *)
Definition conforms4 (d : Z -> Z -> Z) : bool :=
  forallb (fun x => forallb (fun y => fits16 (d x y)) [0; 1; 2; 3]) [0; 1; 2; 3] && fits4 d.

(** * The encoder's reconstruction is the decoder's *)

(** ** Scans *)
Lemma at_pos_scan field level dct x y : 0 <= x < 4 -> 0 <= y < 4 ->
  at_pos (positions4 field) (zigzag_scan_4x4 field level dct) x y = dct (4 * x + y).
Proof.
  intros Hx Hy. unfold at_pos.
  assert (forall j, 0 <= j < 16 -> index_of (positions4 field) x y = j -> tbl2 x264_zigzag_scan4 (b2i field) j = 4 * x + y ->
    zigzag_scan_4x4 field level dct (index_of (positions4 field) x y) = dct (4 * x + y)) as K.
  { intros j Hj -> E. rewrite zigzag_scan_4x4_tables by done. by rewrite E. }
  destruct field; each4 x; each4 y; (eapply K; [|vm_compute; reflexivity|vm_compute; reflexivity]; lia).
Qed.

Lemma at_pos_zeros pos x y : at_pos pos zeros x y = 0.
Proof. reflexivity. Qed.

(** The decoder's matrix is the one the encoder computes with, for lists it has parsed
    from the picture parameter set. *)
Lemma weight_scan_list idx l x y : 0 <= idx < 4 -> 0 <= x < 4 -> 0 <= y < 4 ->
  at_pos (zigzag_positions 4) (tbl (scan_list idx l)) x y = tbl l (4 * x + y).
Proof.
  intros Hi Hx Hy. unfold scan_list, zigzag_of. replace (idx <? 4) with true by (symmetry; apply Z.ltb_lt; lia).
  unfold at_pos. each4 x; each4 y; reflexivity.
Qed.

Lemma norm_adjust4_table m x y : 0 <= m < 6 -> 0 <= x < 4 -> 0 <= y < 4 -> def_dequant4 m (4 * x + y) = norm_adjust4 m x y.
Proof.
  intros Hm Hx Hy. assert (m = 0 \/ m = 1 \/ m = 2 \/ m = 3 \/ m = 4 \/ m = 5) as [->|[->|[->|[->|[->| ->]]]]] by lia;
    each4 x; each4 y; reflexivity.
Qed.

(** ** Scaling *)
Lemma inverse4_ext d d' x y : 0 <= x < 4 -> 0 <= y < 4 ->
  (forall i j, 0 <= i < 4 -> 0 <= j < 4 -> d i j = d' i j) -> inverse4 d x y = inverse4 d' x y.
Proof. intros Hx Hy E. unfold inverse4, inv1. by rewrite !E by lia. Qed.

Lemma fits4_ext d d' : (forall i j, 0 <= i < 4 -> 0 <= j < 4 -> d i j = d' i j) -> fits4 d = fits4 d'.
Proof. intros E. unfold fits4. cbn [forallb]. unfold inv1. by rewrite !E by lia. Qed.

Lemma conforms4_at d : conforms4 d = true -> (forall x y, 0 <= x < 4 -> 0 <= y < 4 -> fits16 (d x y) = true) /\ fits4 d = true.
Proof.
  intros [H F]%andb_prop. split; [|done]. intros x y Hx Hy. apply (forallb4 _ x) in H; [|done]. by apply (forallb4 _ y) in H.
Qed.

Lemma DEQUANT_ONE_scale c scale qp : 0 <= qp < 52 -> is_coef c -> 0 <= scale <= 2 ^ 13 -> fits16 (scale_level scale qp c) = true ->
  DEQUANT_ONE c scale (Z.quot qp 6 - 4) = scale_level scale qp c.
Proof.
  intros Hqp Hc Hs F. unfold is_coef in Hc. rewrite Z.quot_div_nonneg by lia.
  pose proof (Z.div_mod qp 6 ltac:(lia)) as D. pose proof (Z.mod_pos_bound qp 6 ltac:(lia)).
  assert (dequant_spec c scale (qp / 6 - 4) = scale_level scale qp c) as E.
  { unfold dequant_spec, scale_level. destruct (Z.leb_spec 24 qp), (Z.leb_spec 0 (qp / 6 - 4)); try lia.
    - by rewrite Z.shiftl_mul_pow2 by lia.
    - rewrite Z.shiftr_div_pow2 by lia. do 3 f_equal; lia. }
  rewrite <- E. apply DEQUANT_ONE_spec; [lia|].
  apply andb_prop in F as [F1 F2]. rewrite <- E in F1, F2.
  unfold dequant_fits. assert (Z.abs (c * scale) <= 2 ^ 28) by nia. split; [lia|]. split; [|lia].
  destruct (Z.leb_spec 0 (qp / 6 - 4)).
  - rewrite Z.max_r by lia. unfold dequant_spec in F1, F2. replace (0 <=? qp / 6 - 4) with true in F1, F2 by (symmetry; apply Z.leb_le; lia). lia.
  - rewrite Z.max_l by lia. lia.
Qed.

(** A block from its levels in memory order, its scale factors [scale] and its quantiser. *)
Section Block.
Context (dct : Z -> Z) (dequant_mf : Z -> Z -> Z) (scale : Z -> Z -> Z) (qp : Z).
Context (Hqp : 0 <= qp < 52) (Hdct : forall i, 0 <= i < 16 -> is_coef (dct i)).
Context (Hscale : forall x y, 0 <= x < 4 -> 0 <= y < 4 -> dequant_mf (Z.rem qp 6) (4 * x + y) = scale x y /\ 0 <= scale x y <= 2 ^ 13).
Let d x y := scale_level (scale x y) qp (dct (4 * x + y)).

Lemma dequant_4x4_scaled x y : conforms4 d = true -> 0 <= x < 4 -> 0 <= y < 4 -> dequant_4x4 dct dequant_mf qp (4 * x + y) = d x y.
Proof.
  intros C Hx Hy. rewrite dequant_4x4_pointwise, in_range_b by lia. destruct (Hscale x y Hx Hy) as [-> Hs].
  apply DEQUANT_ONE_scale; [done|apply Hdct; lia|done|]. by apply conforms4_at in C as [C _]; apply C.
Qed.

Lemma idct4x4_decodes x y : conforms4 d = true -> 0 <= x < 4 -> 0 <= y < 4 ->
  idct4x4 (dequant_4x4 dct dequant_mf qp) (4 * y + x) = decode_residual4 d x y.
Proof.
  intros C Hx Hy. rewrite idct4x4_spec; [|rewrite (fits4_ext _ d)|done|done].
  - unfold decode_residual4, round6. do 2 f_equal. apply inverse4_ext; [done|done|]. intros. by apply dequant_4x4_scaled.
  - apply (proj2 (conforms4_at _ C)).
  - intros. by apply dequant_4x4_scaled.
Qed.
End Block.

Lemma idct4x4_range dct x y : 0 <= x < 4 -> 0 <= y < 4 -> - 2 ^ 15 <= idct4x4 dct (4 * y + x) < 2 ^ 15.
Proof. intros. rewrite idct4x4_steps by done. apply (sw_range 16). done. Qed.

(** The sample that [add4x4_idct] stores. *)
Lemma add4x4_sample p_dst off dct y x : (forall i, 0 <= p_dst i < 256) -> 0 <= y < 4 -> 0 <= x < 4 ->
  add4x4_idct p_dst off dct (off + y * FDEC_STRIDE + x) = clip1 (p_dst (off + y * FDEC_STRIDE + x) + idct4x4 dct (4 * y + x)).
Proof.
  intros Hp Hy Hx. rewrite (proj1 (add4x4_idct_at p_dst off dct)) by done.
  pose proof (idct4x4_range dct x y Hx Hy). specialize (Hp (off + y * FDEC_STRIDE + x)). apply x264_clip_uint8_spec. lia.
Qed.

(** ** Fidelity: the error of the quantiser, for one coefficient of magnitude at most [M],
    in units of 1/25; [K] is the product of the transform scales of its class and [step]
    the value of one level. *)
Definition quant_error (K M mf bias step : Z) : Z :=
  (Z.abs (25 * step * mf - 2 ^ 16 * K) * M + 25 * step * Z.max (bias * mf) (2 ^ 16 - bias * mf)) / 2 ^ 16 + 1.

Lemma quant_error_bound K M mf bias step c : 0 <= mf -> 0 <= bias -> bias * mf < 2 ^ 16 -> 0 <= step -> Z.abs c <= M ->
  Z.abs (25 * (quant_spec c mf bias * step) - K * c) <= quant_error K M mf bias step.
Proof.
  intros Hmf Hb Hbm Hs Hc. unfold quant_spec, quant_error.
  set (q := ((Z.abs c + bias) * mf) / 2 ^ 16).
  assert (q * 2 ^ 16 <= Z.abs c * mf + bias * mf < q * 2 ^ 16 + 2 ^ 16) as Hq.
  { pose proof (Z.div_mod ((Z.abs c + bias) * mf) (2 ^ 16)) as D. pose proof (Z.mod_pos_bound ((Z.abs c + bias) * mf) (2 ^ 16)). fold q in D. lia. }
  set (r := bias * mf) in *. set (E := _ * M + _).
  assert (Z.abs (25 * step * (q * 2 ^ 16) - 2 ^ 16 * K * Z.abs c) <= E) as B.
  { replace (25 * step * (q * 2 ^ 16) - 2 ^ 16 * K * Z.abs c)
      with ((25 * step * mf - 2 ^ 16 * K) * Z.abs c + 25 * step * (q * 2 ^ 16 - Z.abs c * mf)) by ring.
    subst E. assert (Z.abs ((25 * step * mf - 2 ^ 16 * K) * Z.abs c) <= Z.abs (25 * step * mf - 2 ^ 16 * K) * M) by (rewrite Z.abs_mul; nia).
    assert (Z.abs (25 * step * (q * 2 ^ 16 - Z.abs c * mf)) <= 25 * step * Z.max r (2 ^ 16 - r)) by (rewrite Z.abs_mul; nia). lia. }
  pose proof (Z.div_mod E (2 ^ 16)). pose proof (Z.mod_pos_bound E (2 ^ 16)).
  assert (c = 0 \/ c = Z.abs c \/ c = - Z.abs c) as [->|[Hc'|Hc']] by lia.
  - change (Z.sgn 0) with 0. assert (0 <= E) by lia. pose proof (Z.div_pos E (2 ^ 16)). lia.
  - destruct (Z.eq_dec c 0) as [->|]; [change (Z.sgn 0) with 0; assert (0 <= E) by lia; pose proof (Z.div_pos E (2 ^ 16)); lia|].
    rewrite Z.sgn_pos by lia. rewrite <- Hc' in B. lia.
  - destruct (Z.eq_dec c 0) as [->|]; [change (Z.sgn 0) with 0; assert (0 <= E) by lia; pose proof (Z.div_pos E (2 ^ 16)); lia|].
    rewrite Z.sgn_neg by lia. replace (Z.abs c) with (- c) in B by lia. lia.
Qed.

(** ** Flat scaling lists *)
Definition flat_matrices : list (list Z) := replicate 6 x264_cqm_flat16.

(** The tables of a list with dead zone [dz]; they do not depend on the list otherwise. *)
Definition flat_mf (qp p : Z) : Z := u16 (mf4 flat_matrices 0 qp p).
Definition flat_bias (dz qp p : Z) : Z :=
  u16 (Z.min (DIV ((32 - dz) << 10) (mf4 flat_matrices 0 qp p)) (Z.quot (1 << 15) (mf4 flat_matrices 0 qp p))).
Definition flat_step (qp p : Z) : Z := def_dequant4 (qp mod 6) p * 2 ^ (qp / 6).

Lemma flat_row i : 0 <= i < 6 -> tbl2 flat_matrices i = tbl x264_cqm_flat16.
Proof. intros Hi. assert (i = 0 \/ i = 1 \/ i = 2 \/ i = 3 \/ i = 4 \/ i = 5) as [->|[->|[->|[->|[->| ->]]]]] by lia; reflexivity. Qed.

Lemma flat_tables param cat qp p : 0 <= cat < 4 ->
  quant4_mf (cqm_tables param flat_matrices) cat qp p = flat_mf qp p /\
  quant4_bias (cqm_tables param flat_matrices) cat qp p = flat_bias (32 - tbl (deadzone param) cat) qp p.
Proof.
  intros Hc. cbn [cqm_tables quant4_mf quant4_bias]. unfold bias, flat_mf, flat_bias, mf4, base_quant4_mf.
  rewrite !flat_row by lia. split; [done|]. replace (32 - (32 - tbl (deadzone param) cat)) with (tbl (deadzone param) cat) by lia. done.
Qed.

Lemma flat_dequant param cat m p : 0 <= cat < 4 -> 0 <= p < 16 ->
  dequant4_mf (cqm_tables param flat_matrices) cat m p = 16 * def_dequant4 m p.
Proof.
  intros Hc Hp. cbn [cqm_tables dequant4_mf]. rewrite flat_row by lia.
  assert (tbl x264_cqm_flat16 p = 16) as ->; [|lia].
  assert (In p (seqZ 0 16)) as Hin by (apply list_elem_of_In, elem_of_seqZ; lia). cbn in Hin.
  repeat (destruct Hin as [<-|Hin]; [reflexivity|]). done.
Qed.

(** One level is worth a step, exactly. *)
Lemma scale_level_flat v qp c : 0 <= qp -> scale_level (16 * v) qp c = c * (v * 2 ^ (qp / 6)).
Proof.
  intros Hqp. unfold scale_level. pose proof (Z.div_mod qp 6 ltac:(lia)). pose proof (Z.mod_pos_bound qp 6 ltac:(lia)).
  destruct (Z.leb_spec 24 qp).
  - rewrite Z.shiftl_mul_pow2 by lia. assert (2 ^ (qp / 6) = 2 ^ 4 * 2 ^ (qp / 6 - 4)) as -> by (rewrite <- Z.pow_add_r by lia; f_equal; lia). lia.
  - rewrite Z.shiftr_div_pow2 by lia.
    replace (c * (16 * v)) with (c * (v * 2 ^ (qp / 6)) * 2 ^ (4 - qp / 6))
      by (change 16 with (2 ^ 4); replace (2 ^ 4) with (2 ^ (qp / 6) * 2 ^ (4 - qp / 6)) by (rewrite <- Z.pow_add_r by lia; f_equal; lia); ring).
    rewrite Z.div_add_l by (pose proof (pow2_pos (4 - qp / 6)); lia). rewrite (Z.div_small (2 ^ _)); [lia|].
    split; [pose proof (pow2_pos (3 - qp / 6)); lia|]. apply Z.pow_lt_mono_r; lia.
Qed.

(** A position of each class, with the scale and the greatest magnitude of a coefficient. *)
Definition rep (cls : Z) : Z := tbl [0; 1; 5] cls.
Definition class_scale (cls : Z) : Z := tbl [100; 80; 64] cls.
Definition class_max (cls : Z) : Z := tbl [4080; 6120; 9180] cls.

Lemma class_values i j : 0 <= i < 4 -> 0 <= j < 4 ->
  4 * tbl freq_scale i * tbl freq_scale j = class_scale (class i j) /\ gain i * gain j * 255 = class_max (class i j) /\ 0 <= class i j < 3.
Proof. intros Hi Hj. each4 i; each4 j; vm_compute; intuition discriminate. Qed.

Lemma class_tables qp i j : 0 <= i < 4 -> 0 <= j < 4 ->
  mf4 flat_matrices 0 qp (4 * i + j) = mf4 flat_matrices 0 qp (rep (class i j)) /\ flat_step qp (4 * i + j) = flat_step qp (rep (class i j)).
Proof. intros Hi Hj. each4 i; each4 j; split; reflexivity. Qed.

Definition flat_eps (dz qp cls : Z) : Z :=
  quant_error (class_scale cls) (class_max cls) (flat_mf qp (rep cls)) (flat_bias dz qp (rep cls)) (flat_step qp (rep cls)).
(** The greatest distance of a decoded sample from the source. *)
Definition flat_error (dz qp : Z) : Z := (3200 + block_error (flat_eps dz qp)) / 6400.

Definition flat_check (dz qp : Z) : bool :=
  forallb (fun cls =>
    let mf := flat_mf qp (rep cls) in let b := flat_bias dz qp (rep cls) in
    (0 <=? mf) && (mf <? 2 ^ 16) && (0 <=? b) && (b <? 2 ^ 16) && (b * mf <? 2 ^ 16) && (0 <=? flat_step qp (rep cls)) &&
    (class_scale cls * class_max cls + flat_eps dz qp cls <=? 819175)) [0; 1; 2] &&
  (col_error (flat_eps dz qp) 0 <=? 822350) && (col_error (flat_eps dz qp) 1 <=? 659150).

Definition flat_range (dz qp : Z) : Prop := 0 <= dz <= 32 /\ 0 <= qp < 52 /\ (qp < 49 \/ dz <= 11).

Lemma flat_checked dz qp : flat_range dz qp -> flat_check dz qp = true.
Proof.
  intros (Hd & Hq & Hr).
  assert (all_range 0 33 (fun dz => all_range 0 52 (fun qp => negb ((qp <? 49) || (dz <=? 11)) || flat_check dz qp)) = true) as C by (vm_compute; reflexivity).
  apply (all_range_spec 0 33 _ dz) in C; [|lia]. apply (all_range_spec 0 52 _ qp) in C; [|lia].
  apply orb_prop in C as [C|C]; [|done]. apply negb_true_iff, orb_false_iff in C as [C1 C2]. lia.
Qed.

Lemma flat_checked_at dz qp i j : flat_range dz qp -> 0 <= i < 4 -> 0 <= j < 4 ->
  let p := 4 * i + j in
  let mf := flat_mf qp p in let b := flat_bias dz qp p in
  let K := 4 * tbl freq_scale i * tbl freq_scale j in let M := gain i * gain j * 255 in
  0 <= mf < 2 ^ 16 /\ 0 <= b < 2 ^ 16 /\ b * mf < 2 ^ 16 /\ 0 <= flat_step qp p /\
  quant_error K M mf b (flat_step qp p) = flat_eps dz qp (class i j) /\ K * M + flat_eps dz qp (class i j) <= 819175.
Proof.
  intros R Hi Hj. cbv zeta. destruct (class_values i j Hi Hj) as (-> & -> & Hc). destruct (class_tables qp i j Hi Hj) as [Em ->].
  unfold flat_mf at 1 2 3 4, flat_bias at 1 2 3 4. rewrite Em. fold (flat_mf qp (rep (class i j))) (flat_bias dz qp (rep (class i j))).
  pose proof (flat_checked dz qp R) as C. unfold flat_check in C. do 2 apply andb_prop in C as [C _].
  rewrite forallb_forall in C. specialize (C (class i j)). cbv beta zeta in C. fold (flat_eps dz qp (class i j)).
  revert C. generalize (flat_eps dz qp (class i j)), (flat_mf qp (rep (class i j))), (flat_bias dz qp (rep (class i j))), (flat_step qp (rep (class i j))).
  intros e mf b st C. assert (In (class i j) [0; 1; 2]) as Hin by (cbn; lia). specialize (C Hin).
  repeat (apply andb_prop in C as [C ?]). lia.
Qed.

Lemma flat_checked_col dz qp : flat_range dz qp -> col_error (flat_eps dz qp) 0 <= 822350 /\ col_error (flat_eps dz qp) 1 <= 659150.
Proof. intros R. pose proof (flat_checked dz qp R) as C. unfold flat_check in C. lia. Qed.

(** A block of the difference of source and prediction, quantised and scaled as a decoder does. *)
Section FlatBlock.
Context (dz qp : Z) (R : flat_range dz qp) (pix1 pix2 : Z -> Z) (P1 : pixels_ok pix1) (P2 : pixels_ok pix2).
Let W := sub4x4_dct pix1 pix2.
Let D := residual pix1 pix2.
Let level p := quant_spec (W p) (flat_mf qp p) (flat_bias dz qp p).
Let d x y := scale_level (16 * def_dequant4 (qp mod 6) (4 * x + y)) qp (level (4 * x + y)).

Lemma flat_near i j : 0 <= i < 4 -> 0 <= j < 4 ->
  Z.abs (25 * d i j - 4 * tbl freq_scale i * tbl freq_scale j * forward4 D i j) <= flat_eps dz qp (class i j).
Proof.
  intros Hi Hj. destruct (flat_checked_at dz qp i j R Hi Hj) as (H1 & H2 & H3 & H4 & H5 & _). cbv zeta in *.
  destruct (sub4x4_dct_spec pix1 pix2 i j P1 P2 Hi Hj) as [E B]. fold W D in E, B.
  unfold d. rewrite scale_level_flat by (destruct R as (_ & ? & _); lia). fold (flat_step qp (4 * i + j)). unfold level. rewrite <- E.
  rewrite <- H5. apply quant_error_bound; lia.
Qed.

Lemma flat_conforms : conforms4 d = true.
Proof.
  unfold conforms4. apply andb_true_intro. split.
  - apply forallb_forall. intros i Hi. apply forallb_forall. intros j Hj.
    assert (0 <= i < 4) as Hi' by (cbn in Hi; lia). assert (0 <= j < 4) as Hj' by (cbn in Hj; lia).
    pose proof (flat_near i j Hi' Hj') as N. destruct (sub4x4_dct_spec pix1 pix2 i j P1 P2 Hi' Hj') as [E B]. fold W D in E, B. rewrite E in B.
    destruct (flat_checked_at dz qp i j R Hi' Hj') as (_ & _ & _ & _ & _ & H6). cbv zeta in H6.
    assert (0 < 4 * tbl freq_scale i * tbl freq_scale j) as HK by (clear -Hi' Hj'; each4 i; each4 j; reflexivity).
    revert N B H6 HK. generalize (4 * tbl freq_scale i * tbl freq_scale j) as K, (gain i * gain j * 255) as M, (forward4 D i j) as w, (flat_eps dz qp (class i j)) as e.
    intros K M w e N B H6 HK. assert (Z.abs (K * w) <= K * M) by (rewrite Z.abs_mul; nia). unfold fits16. lia.
  - destruct (flat_checked_col dz qp R). apply (error_fits4 D d (flat_eps dz qp)); [|apply flat_near|done|done].
    intros x y _ _. unfold D, residual. specialize (P1 (y*FENC_STRIDE + x)). specialize (P2 (y*FDEC_STRIDE + x)). lia.
Qed.

(** The decoded difference is near the difference. *)
Lemma flat_residual x y : 0 <= x < 4 -> 0 <= y < 4 -> Z.abs (decode_residual4 d x y - D x y) <= flat_error dz qp.
Proof.
  intros Hx Hy. pose proof (block_error_bound D d (flat_eps dz qp) flat_near x y Hx Hy) as B.
  unfold decode_residual4, round6, flat_error. rewrite Z.shiftr_div_pow2 by lia. change (2 ^ 6) with 64.
  revert B. generalize (inverse4 d x y) as v, (D x y) as X, (block_error (flat_eps dz qp)) as E. intros v X E B.
  pose proof (Z.div_mod (v + 32) 64). pose proof (Z.mod_pos_bound (v + 32) 64). apply Z.div_le_lower_bound; lia.
Qed.

(** The code's quantiser computes these levels, which fit 16 bits. *)
Lemma flat_quant (mf bias : Z -> Z) p : 0 <= p < 16 -> mf p = flat_mf qp p -> bias p = flat_bias dz qp p ->
  quant_4x4 W mf bias p = level p /\ is_coef (level p).
Proof.
  intros Hp Emf Eb. assert (exists i j, 0 <= i < 4 /\ 0 <= j < 4 /\ p = 4 * i + j) as (i & j & Hi & Hj & ->).
  { exists (p / 4), (p mod 4). pose proof (Z.div_mod p 4). pose proof (Z.mod_pos_bound p 4). lia. }
  destruct (flat_checked_at dz qp i j R Hi Hj) as (H1 & H2 & H3 & _). cbv zeta in *.
  destruct (sub4x4_dct_spec pix1 pix2 i j P1 P2 Hi Hj) as [_ B]. fold W in B.
  pose proof (gain_bound i Hi). pose proof (gain_bound j Hj).
  assert (Z.abs (W (4 * i + j)) <= 9180) by nia.
  assert (quant_fits (W (4 * i + j)) (flat_mf qp (4 * i + j)) (flat_bias dz qp (4 * i + j))) as F.
  { unfold quant_fits. nia. }
  split.
  - etransitivity; [exact (for_upd_pointwise 16 0 (fun i c => QUANT_ONE c (mf i) (bias i)) W (4 * i + j))|].
    rewrite in_range_b by lia. rewrite Emf, Eb. unfold level. apply QUANT_ONE_sgn; [done|intros; lia].
  - unfold level, quant_spec, is_coef. pose proof (quant_div_range _ _ _ F) as Q. revert Q.
    generalize (((Z.abs (W (4 * i + j)) + flat_bias dz qp (4 * i + j)) * flat_mf qp (4 * i + j)) / 2 ^ 16). intros q Q.
    destruct (Z.sgn_spec (W (4 * i + j))) as [[_ ->]|[[_ ->]|[_ ->]]]; lia.
Qed.
End FlatBlock.

(** ** Blocks of the encoder *)

Lemma scaled4_scan field ws qp level dct x y : 0 <= x < 4 -> 0 <= y < 4 ->
  scaled4 field ws qp (zigzag_scan_4x4 field level dct) x y = scale_level (level_scale4 ws (qp mod 6) x y) qp (dct (4 * x + y)).
Proof. intros Hx Hy. unfold scaled4. by rewrite at_pos_scan. Qed.

Lemma index_of_range field x y : 0 <= x < 4 -> 0 <= y < 4 -> 0 <= index_of (positions4 field) x y < 16.
Proof. intros Hx Hy. destruct field; each4 x; each4 y; vm_compute; split; congruence. Qed.

(** Only the sixteen levels count. *)
Lemma scaled4_ext field ws qp l l' x y : (forall i, 0 <= i < 16 -> l i = l' i) -> 0 <= x < 4 -> 0 <= y < 4 ->
  scaled4 field ws qp l x y = scaled4 field ws qp l' x y.
Proof. intros E Hx Hy. unfold scaled4, at_pos. rewrite E; [done|]. by apply index_of_range. Qed.

Lemma conforms4_ext d d' : (forall i j, 0 <= i < 4 -> 0 <= j < 4 -> d i j = d' i j) -> conforms4 d = conforms4 d'.
Proof.
  intros E. unfold conforms4. rewrite (fits4_ext d d' E). f_equal. cbn [forallb]. by rewrite !E by lia.
Qed.

Lemma decode_residual4_ext d d' x y : 0 <= x < 4 -> 0 <= y < 4 ->
  (forall i j, 0 <= i < 4 -> 0 <= j < 4 -> d i j = d' i j) -> decode_residual4 d x y = decode_residual4 d' x y.
Proof. intros Hx Hy E. unfold decode_residual4. by rewrite (inverse4_ext d d'). Qed.

Lemma scaled4_zero ws field qp i j : 0 <= qp -> scaled4 field ws qp zeros i j = 0.
Proof.
  intros Hqp. unfold scaled4. rewrite at_pos_zeros. unfold scale_level. rewrite Z.mul_0_l. destruct (Z.leb_spec 24 qp).
  - apply Z.shiftl_0_l.
  - assert (qp / 6 < 4) by (apply Z.div_lt_upper_bound; lia). pose proof (Z.div_pos qp 6). rewrite Z.shiftr_div_pow2 by lia.
    apply Z.div_small. split; [pose proof (pow2_pos (3 - qp / 6)); lia|]. apply Z.pow_lt_mono_r; lia.
Qed.

Lemma decode_zero_levels field ws qp x y : 0 <= qp -> decode_residual4 (scaled4 field ws qp zeros) x y = 0 /\ conforms4 (scaled4 field ws qp zeros) = true.
Proof.
  intros Hqp. pose proof (fun i j => scaled4_zero ws field qp i j Hqp) as Z0. split.
  - unfold decode_residual4, round6, inverse4, inv1. rewrite !Z0. by destruct (x =? 0), (x =? 1), (x =? 2), (y =? 0), (y =? 1), (y =? 2).
  - unfold conforms4, fits4. cbn [forallb]. unfold inv1. rewrite !Z0. reflexivity.
Qed.

Lemma array_non_zero_spec n v : (forall i, 0 <= i < 4 * (n / 4) -> is_coef (v i)) ->
  array_non_zero n v = false -> forall i, 0 <= i < 4 * (n / 4) -> v i = 0.
Proof.
  intros Hv H i Hi. unfold array_non_zero in H.
  assert (ld_coef64 v (4 * (i / 4)) = 0) as E.
  { destruct (Z.eqb_spec (ld_coef64 v (4 * (i / 4))) 0) as [E|E]; [done|]. exfalso.
    assert (existsb (fun k => negb (ld_coef64 v (4 * k) =? 0)) (seqZ 0 (n / 4)) = true) as H'; [|congruence].
    apply existsb_exists. exists (i / 4). split.
    - apply list_elem_of_In, elem_of_seqZ. split; [apply Z.div_pos; lia|]. apply Z.div_lt_upper_bound; lia.
    - apply negb_true_iff. by apply Z.eqb_neq. }
  pose proof (Z.div_mod i 4 ltac:(lia)). pose proof (Z.mod_pos_bound i 4 ltac:(lia)).
  rewrite ld_coef64_zero in E; [apply E; lia|]. intros j Hj. apply Hv.
  assert (i / 4 < n / 4) by (apply Z.div_lt_upper_bound; lia). pose proof (Z.div_pos i 4). lia.
Qed.

(** The tables the encoder computes from a picture parameter set with valid lists. *)
Record tables_of (e : enc_t) (param : cqm_param) (pps : x264_pps_t) : Prop := {
  t_cqm : cqm e = cqm_tables param (scaling_list pps);
  t_lists : forall idx, 0 <= idx < 6 -> list_ok idx (nth (Z.to_nat idx) (scaling_list pps) [])
}.

Lemma dequant_table e param pps cat m x y : tables_of e param pps -> 0 <= cat < 4 -> 0 <= m < 6 -> 0 <= x < 4 -> 0 <= y < 4 ->
  dequant4_mf (cqm e) cat m (4 * x + y) = level_scale4 (pps_list pps cat) m x y /\ 0 <= level_scale4 (pps_list pps cat) m x y <= 2 ^ 13.
Proof.
  intros T Hc Hm Hx Hy. rewrite (t_cqm _ _ _ T). cbn [cqm_tables dequant4_mf]. unfold level_scale4, pps_list.
  rewrite weight_scan_list, norm_adjust4_table by done. unfold tbl2. split; [lia|].
  destruct (t_lists _ _ _ T cat ltac:(lia)) as [Hl HF]. set (l := nth (Z.to_nat cat) (scaling_list pps) []) in *.
  assert (list_size cat = 16%nat) as Es by (unfold list_size; by replace (cat <? 4) with true by (symmetry; apply Z.ltb_lt; lia)). rewrite Es in *.
  assert (0 < tbl l (4 * x + y) < 256) as Hw.
  { unfold tbl. apply (Forall_elem (fun v => 0 < v < 256) (take 16 l)); [done|]. apply list_elem_of_In.
    rewrite <- (List.firstn_skipn 16 l) at 1. rewrite app_nth1 by (rewrite length_firstn; lia). apply nth_In. rewrite length_firstn. lia. }
  assert (0 <= norm_adjust4 m x y <= 29) as Hn.
  { assert (m = 0 \/ m = 1 \/ m = 2 \/ m = 3 \/ m = 4 \/ m = 5) as [->|[->|[->|[->|[->| ->]]]]] by lia;
      each4 x; each4 y; vm_compute; split; discriminate. }
  nia.
Qed.

(** A quantised block, its levels in scan order and the residual the program makes of it. *)
Lemma block_decodes e param pps cat field qp level dct : tables_of e param pps -> 0 <= cat < 4 -> 0 <= qp < 52 ->
  (forall i, 0 <= i < 16 -> is_coef (dct i)) ->
  let d := scaled4 field (pps_list pps cat) qp (zigzag_scan_4x4 field level dct) in
  conforms4 d = true -> forall x y, 0 <= x < 4 -> 0 <= y < 4 ->
  idct4x4 (dequant_4x4 dct (dequant4_mf (cqm e) cat) qp) (4 * y + x) = decode_residual4 d x y.
Proof.
  intros T Hc Hqp Hd d C x y Hx Hy.
  assert (forall i j, 0 <= i < 4 -> 0 <= j < 4 -> d i j = scale_level (level_scale4 (pps_list pps cat) (qp mod 6) i j) qp (dct (4 * i + j))) as E
    by (intros; by apply scaled4_scan).
  rewrite (decode_residual4_ext d _ x y Hx Hy E). rewrite (conforms4_ext d _ E) in C.
  apply idct4x4_decodes; try done. intros i j Hi Hj. rewrite Z.rem_mod_nonneg by lia.
  apply (dequant_table e param); try done. apply Z.mod_pos_bound. lia.
Qed.

Lemma QUANT_ONE_coef c mf f : is_coef (QUANT_ONE c mf f).
Proof. unfold QUANT_ONE, is_coef. destruct (0 <? c); apply (sw_range 16); done. Qed.

Lemma quant_4x4_coef dct mf b i : 0 <= i < 16 -> is_coef (quant_4x4 dct mf b i).
Proof.
  intros Hi. assert (quant_4x4 dct mf b i = QUANT_ONE (dct i) (mf i) (b i)) as ->; [|apply QUANT_ONE_coef].
  etransitivity; [exact (for_upd_pointwise 16 0 (fun i c => QUANT_ONE c (mf i) (b i)) dct i)|]. by rewrite in_range_b by lia.
Qed.

(** What a decoder makes of a plane from the prediction, at the block at [off]: its residual
    is added there, and nothing else changes. *)
Definition decodes_at (before after : Z -> Z) (off size : Z) (residual : Z -> Z -> Z) : Prop :=
  (forall y x, 0 <= y < size -> 0 <= x < size ->
     after (off + y * FDEC_STRIDE + x) = clip1 (before (off + y * FDEC_STRIDE + x) + residual x y)) /\
  (forall p, ~ in_block off size p -> after p = before p).

Lemma clip1_byte v : 0 <= clip1 v < 256.
Proof. unfold clip1. lia. Qed.
Lemma clip1_id v : 0 <= v < 256 -> clip1 (v + 0) = v.
Proof. unfold clip1. lia. Qed.

Lemma in_block_dec off size p : in_block off size p \/ ~ in_block off size p.
Proof.
  unfold FDEC_STRIDE, in_block. destruct (decide (0 < size)) as [Hs|Hs]; [|right; intros (y & x & ? & ? & _); lia].
  destruct (decide (Exists (fun y => Exists (fun x => p = off + y * 32 + x) (seqZ 0 size)) (seqZ 0 size))) as [H|H].
  - left. apply list.Exists_exists in H as (y & Hy%elem_of_seqZ & (x & Hx%elem_of_seqZ & ->)%list.Exists_exists). exists y, x. repeat split; lia.
  - right. intros (y & x & Hy & Hx & ->). apply H. apply list.Exists_exists. exists y. split; [apply elem_of_seqZ; lia|].
    apply list.Exists_exists. exists x. split; [apply elem_of_seqZ; lia|done].
Qed.

Lemma decodes_at_bytes before after off size r : pixels_ok before -> decodes_at before after off size r -> pixels_ok after.
Proof.
  intros Hb [H1 H2] p. destruct (in_block_dec off size p) as [(y & x & Hy & Hx & ->)|Hn].
  - rewrite H1 by done. apply clip1_byte.
  - rewrite H2 by done. apply Hb.
Qed.

Lemma decodes_at_ext before after off size r r' : (forall x y, 0 <= x < size -> 0 <= y < size -> r x y = r' x y) ->
  decodes_at before after off size r -> decodes_at before after off size r'.
Proof. intros E [H1 H2]. split; [|done]. intros y x Hy Hx. rewrite <- E by done. by apply H1. Qed.

(** Near the source [src], rows of which are [FENC_STRIDE] apart. *)
Definition near_source (err : Z) (after src : Z -> Z) (od oe size : Z) : Prop :=
  forall y x, 0 <= y < size -> 0 <= x < size -> Z.abs (after (od + y * FDEC_STRIDE + x) - src (oe + y * FENC_STRIDE + x)) <= err.

Lemma add4x4_decodes p_dst off dct r : pixels_ok p_dst -> (forall x y, 0 <= x < 4 -> 0 <= y < 4 -> idct4x4 dct (4 * y + x) = r x y) ->
  decodes_at p_dst (add4x4_idct p_dst off dct) off 4 r.
Proof.
  intros Hp E. split; [|apply add4x4_idct_at]. intros y x Hy Hx. rewrite <- E by done. by apply add4x4_sample.
Qed.

(** Four blocks side by side. *)
Definition quad (s : Z) (r : Z -> Z -> Z -> Z) (x y : Z) : Z :=
  r (b2i (s <=? x) + 2 * b2i (s <=? y)) (if s <=? x then x - s else x) (if s <=? y then y - s else y).

Lemma in_block_at off size dy dx p : 0 <= dy -> 0 <= dx -> dx + size <= 32 ->
  forall y x, 0 <= x < 32 -> p = off + y * FDEC_STRIDE + x -> ~ (dy <= y < dy + size /\ dx <= x < dx + size) ->
  ~ in_block (off + (dy * FDEC_STRIDE + dx)) size p.
Proof. unfold FDEC_STRIDE. intros Hdy Hdx Hs y x Hx -> Hn (y' & x' & Hy' & Hx' & E). unfold FDEC_STRIDE in E. apply Hn. lia. Qed.

Lemma decodes_quad p0 p1 p2 p3 p4 off s r : 0 < s <= 16 ->
  decodes_at p0 p1 off s (r 0) -> decodes_at p1 p2 (off + s) s (r 1) ->
  decodes_at p2 p3 (off + (s * FDEC_STRIDE + 0)) s (r 2) -> decodes_at p3 p4 (off + (s * FDEC_STRIDE + s)) s (r 3) ->
  decodes_at p0 p4 off (2 * s) (quad s r).
Proof.
  intros Hs [A1 A2] [B1 B2] [C1 C2] [D1 D2].
  replace (off + s) with (off + (0 * FDEC_STRIDE + s)) in * by lia.
  replace off with (off + (0 * FDEC_STRIDE + 0)) in A1, A2 by lia.
  assert (forall y x, 0 <= x < 2 * s -> 0 <= y < 2 * s ->
    let p := off + y * FDEC_STRIDE + x in
    (~ (0 <= y < 0 + s /\ 0 <= x < 0 + s) -> p1 p = p0 p) /\ (~ (0 <= y < 0 + s /\ s <= x < s + s) -> p2 p = p1 p) /\
    (~ (s <= y < s + s /\ 0 <= x < 0 + s) -> p3 p = p2 p) /\ (~ (s <= y < s + s /\ s <= x < s + s) -> p4 p = p3 p)) as F.
  { intros y x Hx Hy p. repeat split; intros Hn; [apply A2|apply B2|apply C2|apply D2];
      (eapply in_block_at; [..|reflexivity|exact Hn]; lia). }
  split.
  - intros y x Hy Hx. destruct (F y x Hx Hy) as (F1 & F2 & F3 & F4). unfold quad. revert F1 F2 F3 F4.
    destruct (Z.leb_spec s x), (Z.leb_spec s y); cbn [b2i]; intros F1 F2 F3 F4.
    + specialize (D1 (y - s) (x - s) ltac:(lia) ltac:(lia)). replace (off + (s * FDEC_STRIDE + s) + (y - s) * FDEC_STRIDE + (x - s)) with (off + y * FDEC_STRIDE + x) in D1 by lia.
      rewrite D1, F3, F2, F1 by lia. done.
    + rewrite F4, F3 by lia. specialize (B1 y (x - s) ltac:(lia) ltac:(lia)). replace (off + (0 * FDEC_STRIDE + s) + y * FDEC_STRIDE + (x - s)) with (off + y * FDEC_STRIDE + x) in B1 by lia.
      rewrite B1, F1 by lia. done.
    + rewrite F4 by lia. specialize (C1 (y - s) x ltac:(lia) ltac:(lia)). replace (off + (s * FDEC_STRIDE + 0) + (y - s) * FDEC_STRIDE + x) with (off + y * FDEC_STRIDE + x) in C1 by lia.
      rewrite C1, F2, F1 by lia. done.
    + rewrite F4, F3, F2 by lia. specialize (A1 y x ltac:(lia) ltac:(lia)). replace (off + (0 * FDEC_STRIDE + 0) + y * FDEC_STRIDE + x) with (off + y * FDEC_STRIDE + x) in A1 by lia.
      rewrite A1. done.
  - intros p Hn.
    assert (forall dy dx q, 0 <= dy <= s -> 0 <= dx <= s -> q = off + (dy * FDEC_STRIDE + dx) -> ~ in_block q s p) as G.
    { intros dy dx q Hdy Hdx -> (y & x & Hy & Hx & E). apply Hn. exists (dy + y), (dx + x). split; [lia|]. split; lia. }
    rewrite D2, C2, B2, A2; [done|..]; (eapply G; [..|reflexivity]; lia).
Qed.

Lemma add8x8_decodes p_dst off dct b0 r : pixels_ok p_dst ->
  (forall b x y, 0 <= b < 4 -> 0 <= x < 4 -> 0 <= y < 4 -> idct4x4 (dct (b0 + b)) (4 * y + x) = r b x y) ->
  decodes_at p_dst (add8x8_idct p_dst off dct b0) off 8 (quad 4 r).
Proof.
  intros Hp E. unfold add8x8_idct. cbv zeta.
  assert (forall b q o, 0 <= b < 4 -> pixels_ok q -> decodes_at q (add4x4_idct q o (dct (b0 + b))) o 4 (r b)) as A
    by (intros; apply add4x4_decodes; [done|intros; by apply E]).
  pose proof (A 0 p_dst off ltac:(lia) Hp) as A0. pose proof (decodes_at_bytes _ _ _ _ _ Hp A0) as P0.
  pose proof (A 1 _ (off + 4) ltac:(lia) P0) as A1. pose proof (decodes_at_bytes _ _ _ _ _ P0 A1) as P1.
  pose proof (A 2 _ (off + (4 * FDEC_STRIDE + 0)) ltac:(lia) P1) as A2. pose proof (decodes_at_bytes _ _ _ _ _ P1 A2) as P2.
  pose proof (A 3 _ (off + (4 * FDEC_STRIDE + 4)) ltac:(lia) P2) as A3.
  apply (decodes_quad _ _ _ _ _ off 4 r ltac:(lia) A0 A1 A2 A3).
Qed.

Lemma add16x16_decodes p_dst off dct r : pixels_ok p_dst ->
  (forall b x y, 0 <= b < 16 -> 0 <= x < 4 -> 0 <= y < 4 -> idct4x4 (dct b) (4 * y + x) = r b x y) ->
  decodes_at p_dst (add16x16_idct p_dst off dct) off 16 (quad 8 (fun b8 => quad 4 (fun b4 => r (4 * b8 + b4)))).
Proof.
  intros Hp E. unfold add16x16_idct. cbv zeta.
  assert (forall b q o, 0 <= b < 4 -> pixels_ok q -> decodes_at q (add8x8_idct q o dct (4 * b)) o 8 (quad 4 (fun b4 => r (4 * b + b4)))) as A
    by (intros; apply add8x8_decodes; [done|intros; apply E; lia]).
  pose proof (A 0 p_dst off ltac:(lia) Hp) as A0. pose proof (decodes_at_bytes _ _ _ _ _ Hp A0) as P0.
  pose proof (A 1 _ (off + 8) ltac:(lia) P0) as A1. pose proof (decodes_at_bytes _ _ _ _ _ P0 A1) as P1.
  pose proof (A 2 _ (off + (8 * FDEC_STRIDE + 0)) ltac:(lia) P1) as A2. pose proof (decodes_at_bytes _ _ _ _ _ P1 A2) as P2.
  pose proof (A 3 _ (off + (8 * FDEC_STRIDE + 8)) ltac:(lia) P2) as A3.
  apply (decodes_quad _ _ _ _ _ off 8 (fun b8 => quad 4 (fun b4 => r (4 * b8 + b4))) ltac:(lia) A0 A1 A2 A3).
Qed.
