(* ===== verification/MbRecon.v ===== *)
(** * The reconstruction of macroblocks (encoder/macroblock.c)

    For each function that codes a part of a macroblock: the reconstruction it keeps is what
    a decoder makes of its levels, with the scaling lists of the picture parameter set.  The
    levels may come from any quantiser, the trellis search included, as long as the standard
    allows them; with flat lists and the plain quantiser it always does, and the
    reconstruction is near the source. *)
From S2P Require Import Prelude Quant Mb Header CavlcMb Dct Cqm Encode Recon.
Local Abbreviation zeros := (fun _ : Z => 0).

(** ** Projections of the updated state *)
Lemma luma4x4_put h i b : luma4x4 (put_luma4x4 h i b) = upd_block (luma4x4 h) i b.
Proof. by destruct h. Qed.
Lemma chroma_dc_put h i b : chroma_dc (put_chroma_dc h i b) = upd_block (chroma_dc h) i b.
Proof. by destruct h. Qed.
Lemma luma4x4_put_chroma_dc h i b : luma4x4 (put_chroma_dc h i b) = luma4x4 h.
Proof. by destruct h. Qed.
Lemma chroma_dc_put_luma h i b : chroma_dc (put_luma4x4 h i b) = chroma_dc h.
Proof. by destruct h. Qed.
Lemma luma4x4_set_dc h f : luma4x4 (set_luma16x16_dc h f) = luma4x4 h.
Proof. by destruct h. Qed.
Lemma luma16x16_dc_set h f : luma16x16_dc (set_luma16x16_dc h f) = f.
Proof. by destruct h. Qed.
Lemma upd_block_eq f i b : upd_block f i b i = b.
Proof. unfold upd_block. by rewrite Z.eqb_refl. Qed.
Lemma upd_block_ne f i b j : j <> i -> upd_block f i b j = f j.
Proof. unfold upd_block. intros Hn. by apply Z.eqb_neq in Hn as ->. Qed.
Lemma for_blocks n (g : Z -> (Z -> Z) -> Z -> Z) D b :
  for_ n 0 (fun i D => upd_block D i (g i (D i))) D b = if (0 <=? b) && (b <? Z.of_nat n) then g b (D b) else D b.
Proof.
  induction n as [|n IH]; [by rewrite out_range_b by lia|]. rewrite for_snoc, Z.add_0_l.
  destruct (Z.eq_dec b (Z.of_nat n)) as [->|Hne].
  - rewrite upd_block_eq, in_range_b by lia. by rewrite IH, out_range_b by lia.
  - rewrite upd_block_ne, IH by done. destruct (Z.leb_spec 0 b); [|done]. cbn [andb].
    destruct (Z.ltb_spec b (Z.of_nat n)), (Z.ltb_spec b (Z.of_nat (S n))); done || lia.
Qed.
Ltac at_block := repeat match goal with
  | |- context [upd_block ?f ?i ?b ?j] => first [rewrite (upd_block_ne f i b j) by lia | replace j with i by lia; rewrite (upd_block_eq f i b)]
  end.
Lemma p_fdec_put pic plane p q : p_fdec (put_fdec pic plane p) q = upd_block (p_fdec pic) plane p q.
Proof. done. Qed.

(** ** The coded block pattern of chroma *)
Definition any_chroma_ac (h : x264_t) : bool := existsb (fun i => array_non_zero 16 (luma4x4 h (16 + i))) (seqZ 0 8).
Definition any_chroma_dc (h : x264_t) : bool := array_non_zero 4 (chroma_dc h 0) || array_non_zero 4 (chroma_dc h 1).

Lemma chroma_cbp_spec h : let h' := chroma_cbp h in
  luma4x4 h' = luma4x4 h /\ chroma_dc h' = chroma_dc h /\
  i_cbp_chroma h' = (if any_chroma_ac h then 2 else if any_chroma_dc h then 1 else 0).
Proof.
  unfold chroma_cbp. cbv zeta. set (loop := for_ 8 0 _ _).
  assert (luma4x4 loop = luma4x4 h /\ chroma_dc loop = chroma_dc h /\ i_cbp_chroma loop = b2i (any_chroma_ac h)) as (E1 & E2 & E3).
  { unfold loop, any_chroma_ac.
    refine (for_inv (fun k s => luma4x4 s = luma4x4 h /\ chroma_dc s = chroma_dc h /\
      i_cbp_chroma s = b2i (existsb (fun i => array_non_zero 16 (luma4x4 h (16 + i))) (seqZ 0 k))) 8 0 _ _ _ _); [by destruct h|].
    intros i s Hi (H1 & H2 & H3). rewrite <- H1, <- H2.
    assert (seqZ 0 (i + 1) = seqZ 0 i ++ [i]) as -> by (rewrite seqZ_app by lia; done).
    rewrite existsb_app. cbn [existsb]. rewrite orb_false_r, <- H1 in *.
    split; [by destruct s|]. split; [by destruct s|].
    transitivity (i_cbp_chroma s .| b2i (array_non_zero 16 (luma4x4 s (16 + i)))); [by destruct s|]. rewrite H3.
    by destruct (existsb _ _), (array_non_zero _ _). }
  clearbody loop. rewrite <- E1, <- E2. unfold any_chroma_dc. rewrite <- E2. revert E3. generalize (any_chroma_ac h). intros b E3.
  destruct loop as [? ? ? ? ? ? ? ? ? ? ? ? ? ? ? ? cc ? ? ? ? ? ? nnz ? ? l4 l8 l16 cdc]. cbn [chroma_dc i_cbp_chroma luma4x4 non_zero_count set_non_zero_count] in *. subst cc.
  rewrite upd_ne by done. rewrite !upd_eq. destruct b; [done|]. cbn [b2i i2b Z.eqb negb].
  by destruct (array_non_zero 4 (cdc 0)), (array_non_zero 4 (cdc 1)).
Qed.

(** ** The decoder: blocks whose DC is coded apart *)

(** Scaled AC levels under a scaled DC. *)
Definition with_dc (dc : Z) (d : Z -> Z -> Z) (x y : Z) : Z := if (x =? 0) && (y =? 0) then dc else d x y.

(** The chroma DC of block [b] (two by two) from the four levels in raster order. *)
Definition chroma_dc_sum (lev : Z -> Z) (b : Z) : Z :=
  let sx := if Z.odd b then -1 else 1 in let sy := if 2 <=? b then -1 else 1 in
  lev 0 + sx * lev 1 + sy * lev 2 + sx * sy * lev 3.
Definition chroma_dc_scaled (ws : list Z) (qp : Z) (lev : Z -> Z) (b : Z) : Z :=
  ((chroma_dc_sum lev b * level_scale4 ws (qp mod 6) 0 0) << (qp / 6)) >> 5.

(** The scaled coefficients of block [b] of chroma component [ch]. *)
Definition chroma_scaled (field : bool) (ws : list Z) (qp : Z) (h : x264_t) (ch b : Z) : Z -> Z -> Z :=
  with_dc (chroma_dc_scaled ws qp (chroma_dc h ch) b) (scaled4 field ws qp (luma4x4 h (16 + b + ch * 4))).
Definition conforms_blocks (n : Z) (d : Z -> Z -> Z -> Z) : bool := forallb (fun b => conforms4 (d b)) (seqZ 0 n).

Lemma conforms_blocks_at n d b : conforms_blocks n d = true -> 0 <= b < n -> conforms4 (d b) = true.
Proof.
  intros H Hb. unfold conforms_blocks in H. rewrite forallb_forall in H. apply H. by apply list_elem_of_In, elem_of_seqZ.
Qed.

Lemma with_dc_at dc d x y : 0 <= x -> 0 <= y -> (x <> 0 \/ y <> 0) -> with_dc dc d x y = d x y.
Proof. intros. unfold with_dc. destruct (Z.eqb_spec x 0), (Z.eqb_spec y 0); try done. lia. Qed.

(** Luma DC of a 16x16 macroblock. *)
Definition hadamard : list (list Z) := [ [ 1; 1; 1; 1 ]; [ 1; 1; -1; -1 ]; [ 1; -1; -1; 1 ]; [ 1; -1; 1; -1 ] ].
Definition luma_dc_column (c : Z -> Z -> Z) (i y : Z) : Z := sum4 (fun j => tbl2 hadamard y j * c i j).
Definition luma_dc_sum (c : Z -> Z -> Z) (x y : Z) : Z := sum4 (fun i => tbl2 hadamard x i * luma_dc_column c i y).
Definition dc_scale_level (scale qp f : Z) : Z :=
  if 36 <=? qp then (f * scale) << (qp / 6 - 6) else (f * scale + 2 ^ (5 - qp / 6)) >> (6 - qp / 6).

(** The scaled coefficients of block [b]. *)
Definition luma16_dc (field : bool) (h : x264_t) : Z -> Z -> Z := at_pos (positions4 field) (luma16x16_dc h).
Definition luma16_scaled (field : bool) (ws : list Z) (qp : Z) (h : x264_t) (b : Z) : Z -> Z -> Z :=
  with_dc (dc_scale_level (level_scale4 ws (qp mod 6) 0 0) qp (luma_dc_sum (luma16_dc field h) (tbl block_idx_x b) (tbl block_idx_y b)))
    (scaled4 field ws qp (luma4x4 h b)).
Definition conforms_luma_dc (c : Z -> Z -> Z) : bool :=
  forallb (fun y => forallb (fun x => fits16 (luma_dc_column c x y) && fits16 (luma_dc_sum c x y)) [0; 1; 2; 3]) [0; 1; 2; 3].

Definition had (k : Z) (v : Z -> Z) : Z :=
  let s01 := v 0 + v 1 in let d01 := v 0 - v 1 in let s23 := v 2 + v 3 in let d23 := v 2 - v 3 in
  if k =? 0 then s01 + s23 else if k =? 1 then s01 - s23 else if k =? 2 then d01 - d23 else d01 + d23.

Lemma had_hadamard k v : 0 <= k < 4 -> had k v = sum4 (fun x => tbl2 hadamard k x * v x).
Proof. intros Hk. each4 k; unfold had; cbn [Z.eqb Pos.eqb]; cbv [hadamard]; mat; lia. Qed.

Lemma idct4x4dc_steps d x y : 0 <= x < 4 -> 0 <= y < 4 ->
  idct4x4dc d (4 * y + x) = s16 (had x (fun i => s16 (had y (fun j => d (4 * i + j))))).
Proof. intros Hx Hy. each4 x; each4 y; reflexivity. Qed.

Lemma idct4x4dc_spec d c x y : (forall i j, 0 <= i < 4 -> 0 <= j < 4 -> d (4 * i + j) = c i j) -> conforms_luma_dc c = true ->
  0 <= x < 4 -> 0 <= y < 4 -> idct4x4dc d (4 * y + x) = luma_dc_sum c x y /\ fits16 (luma_dc_sum c x y) = true.
Proof.
  intros E C Hx Hy.
  assert (forall i, 0 <= i < 4 -> fits16 (luma_dc_column c i y) = true /\ fits16 (luma_dc_sum c i y) = true) as F.
  { intros i Hi. unfold conforms_luma_dc in C. apply (forallb4 _ y) in C; [|done]. apply (forallb4 _ i) in C; [|done]. by apply andb_prop in C. }
  split; [|by apply F]. rewrite idct4x4dc_steps, had_hadamard by done.
  assert (forall i, 0 <= i < 4 -> s16 (had y (fun j => d (4 * i + j))) = luma_dc_column c i y) as E1.
  { intros i Hi. rewrite had_hadamard by done. rewrite <- (fits16_s16 (luma_dc_column c i y)) by (by apply F).
    f_equal. unfold luma_dc_column, sum4. by rewrite !E. }
  rewrite <- (fits16_s16 (luma_dc_sum c x y)) by (by apply F). f_equal. unfold luma_dc_sum, sum4. by rewrite !E1.
Qed.

Lemma DEQUANT_ONE_dc f scale qp : 0 <= qp < 52 -> fits16 f = true -> 0 <= scale <= 2 ^ 13 -> fits16 (dc_scale_level scale qp f) = true ->
  DEQUANT_ONE f scale (Z.quot qp 6 - 6) = dc_scale_level scale qp f.
Proof.
  intros Hqp Hc Hs F. rewrite Z.quot_div_nonneg by lia.
  pose proof (Z.div_mod qp 6 ltac:(lia)) as D. pose proof (Z.mod_pos_bound qp 6 ltac:(lia)).
  assert (dequant_spec f scale (qp / 6 - 6) = dc_scale_level scale qp f) as E.
  { unfold dequant_spec, dc_scale_level. destruct (Z.leb_spec 36 qp), (Z.leb_spec 0 (qp / 6 - 6)); try lia.
    - by rewrite Z.shiftl_mul_pow2 by lia.
    - rewrite Z.shiftr_div_pow2 by lia. do 3 f_equal; lia. }
  rewrite <- E. apply DEQUANT_ONE_spec; [lia|].
  apply andb_prop in F as [F1 F2]. rewrite <- E in F1, F2. apply andb_prop in Hc as [Hc1 Hc2].
  unfold dequant_fits. assert (Z.abs (f * scale) <= 2 ^ 28) by nia. split; [lia|]. split; [|lia].
  destruct (Z.leb_spec 0 (qp / 6 - 6)).
  - rewrite Z.max_r by lia. unfold dequant_spec in F1, F2. replace (0 <=? qp / 6 - 6) with true in F1, F2 by (symmetry; apply Z.leb_le; lia). lia.
  - rewrite Z.max_l by lia. lia.
Qed.

Lemma block_idx_xy b : 0 <= b < 16 ->
  0 <= tbl block_idx_x b < 4 /\ 0 <= tbl block_idx_y b < 4 /\ tbl block_idx_xy_1d b = 4 * tbl block_idx_y b + tbl block_idx_x b.
Proof.
  intros Hb. assert (In b (seqZ 0 16)) as Hin by (apply list_elem_of_In, elem_of_seqZ; lia). cbn in Hin.
  repeat (destruct Hin as [<-|Hin]; [vm_compute; intuition congruence|]). done.
Qed.

(** A block whose first coefficient is replaced after dequantisation. *)
Lemma dc_block_decodes e param pps cat field qp L level dct dc dq : tables_of e param pps -> 0 <= cat < 4 -> 0 <= qp < 52 ->
  (forall i, 0 <= i < 16 -> is_coef (dct i)) ->
  (forall i, 0 < i < 16 -> dq i = dequant_4x4 dct (dequant4_mf (cqm e) cat) qp i) ->
  (forall i, 0 <= i < 16 -> L i = zigzag_scan_4x4 field level dct i) ->
  let d := with_dc dc (scaled4 field (pps_list pps cat) qp L) in
  conforms4 d = true -> dq 0 = dc -> forall x y, 0 <= x < 4 -> 0 <= y < 4 -> idct4x4 dq (4 * y + x) = decode_residual4 d x y.
Proof.
  intros T Hc Hqp Hd Hdq HL d C Hdc x y Hx Hy.
  assert (forall i j, 0 <= i < 4 -> 0 <= j < 4 -> dq (4 * i + j) = d i j) as E.
  { intros i j Hi Hj. unfold d, with_dc. destruct (Z.eqb_spec i 0) as [->|Hi0], (Z.eqb_spec j 0) as [->|Hj0]; cbn [andb]; [done|..];
      (rewrite Hdq by lia; rewrite (scaled4_ext field _ qp L _ _ _ HL), scaled4_scan by done; rewrite dequant_4x4_pointwise, in_range_b by lia;
       rewrite Z.rem_mod_nonneg by lia;
       match goal with |- DEQUANT_ONE _ (dequant4_mf _ _ _ (4 * ?a + ?b)) _ = _ =>
         destruct (dequant_table e param pps cat (qp mod 6) a b T Hc (Z.mod_pos_bound qp 6 eq_refl) ltac:(lia) ltac:(lia)) as [-> Hs];
         apply DEQUANT_ONE_scale; [done|apply Hd; lia|done|];
         apply conforms4_at in C as [C _]; specialize (C a b ltac:(lia) ltac:(lia)); unfold d in C;
         rewrite with_dc_at, (scaled4_ext field _ qp L _ _ _ HL), scaled4_scan in C by lia; exact C end). }
  rewrite idct4x4_spec; [|rewrite (fits4_ext _ d E); apply (proj2 (conforms4_at _ C))|done|done].
  unfold decode_residual4, round6. do 2 f_equal. by apply inverse4_ext.
Qed.

Lemma dc_2x2_dequant v dmf qp : 0 <= qp < 52 -> 0 <= dmf <= 2 ^ 13 -> fits16 (((v * dmf) << (qp / 6)) >> 5) = true ->
  (let '(dmf, qbits) := if Z.quot qp 6 - 5 >? 0 then (s32 (dmf << (Z.quot qp 6 - 5)), 0) else (dmf, Z.quot qp 6 - 5) in
   s16 (s32 (v * dmf) >> - qbits)) = ((v * dmf) << (qp / 6)) >> 5.
Proof.
  intros Hqp Hd F. rewrite Z.quot_div_nonneg by lia.
  assert (0 <= qp / 6 < 9) as Hq by (split; [apply Z.div_pos; lia|apply Z.div_lt_upper_bound; lia]).
  revert F. rewrite !Z.shiftr_div_pow2, !Z.shiftl_mul_pow2 by lia. revert Hq. generalize (qp / 6). intros q Hq F.
  rewrite Z.gtb_ltb. destruct (Z.ltb_spec 0 (q - 5)) as [H5|H5].
  - replace (2 ^ q) with (2 ^ (q - 5) * 2 ^ 5) in * by (rewrite <- Z.pow_add_r by lia; f_equal; lia).
    rewrite Z.mul_assoc, Z.div_mul in * by lia. rewrite <- Z.mul_assoc in *.
    assert (2 ^ (q - 5) <= 2 ^ 3) by (apply Z.pow_le_mono_r; lia). pose proof (pow2_pos (q - 5)).
    rewrite Z.shiftl_mul_pow2, (s32_small (dmf * _)) by nia.
    assert (Z.abs (v * (dmf * 2 ^ (q - 5))) <= 32768) by (apply andb_prop in F as [? ?]; lia).
    rewrite s32_small by lia. rewrite Z.shiftr_0_r. by apply fits16_s16.
  - replace (2 ^ 5) with (2 ^ (5 - q) * 2 ^ q) in * by (rewrite <- Z.pow_add_r by lia; f_equal; lia).
    rewrite Z.div_mul_cancel_r in * by (pose proof (pow2_pos (5 - q)); pose proof (pow2_pos q); lia).
    assert (Z.abs (v * dmf) < 2 ^ 21) as B.
    { assert (2 ^ (5 - q) <= 2 ^ 5) by (apply Z.pow_le_mono_r; lia). pose proof (pow2_pos (5 - q)).
      pose proof (Z.div_mod (v * dmf) (2 ^ (5 - q))). pose proof (Z.mod_pos_bound (v * dmf) (2 ^ (5 - q))). apply andb_prop in F as [? ?]. nia. }
    rewrite s32_small by lia.
    rewrite Z.shiftr_div_pow2 by lia. replace (- (q - 5)) with (5 - q) by lia. by apply fits16_s16.
Qed.

Lemma idct_dequant_2x2_spec e param pps cat qp lev dct D b : tables_of e param pps -> 0 <= cat < 4 -> 0 <= qp < 52 -> 0 <= b < 4 ->
  let v := chroma_dc_scaled (pps_list pps cat) qp (zigzag_scan_2x2_dc lev dct) b in
  let D' := idct_dequant_2x2_dc dct D (dequant4_mf (cqm e) cat) qp in
  (fits16 v = true -> D' b 0 = v) /\ (forall i, i <> 0 -> D' b i = D b i).
Proof.
  intros T Hc Hqp Hb. cbv zeta. unfold idct_dequant_2x2_dc.
  destruct (dequant_table e param pps cat (qp mod 6) 0 0 T Hc (Z.mod_pos_bound qp 6 eq_refl) ltac:(lia) ltac:(lia)) as [E Hs].
  change (4 * 0 + 0) with 0 in E. rewrite Z.rem_mod_nonneg, E by lia. cbv zeta.
  pose proof (fun v => dc_2x2_dequant v (level_scale4 (pps_list pps cat) (qp mod 6) 0 0) qp Hqp Hs) as K.
  unfold chroma_dc_scaled. revert K.
  destruct (if Z.quot qp 6 - 5 >? 0 then _ else _) as [dmf qbits]. intros K. split.
  - intros F. etransitivity; [|exact (K _ F)]. unfold chroma_dc_sum.
    each4 b; unfold upd_block; cbn [Z.eqb Pos.eqb]; rewrite upd_eq; do 4 f_equal;
      unfold zigzag_scan_2x2_dc, st4, upd; cbn -[Z.mul Z.add Z.sub];
      change (2 * 0 + 0) with 0; change (2 * 1 + 0) with 2; change (2 * 0 + 1) with 1; change (2 * 1 + 1) with 3; lia.
  - intros i Hi. apply Z.eqb_neq in Hi. each4 b; unfold upd_block, upd; cbn [Z.eqb Pos.eqb]; by rewrite Hi.
Qed.

(** Only the reconstruction of one plane changes. *)
Definition other_planes (pic pic' : mb_pic) (plane : Z) : Prop :=
  p_fenc pic' = p_fenc pic /\ forall q, q <> plane -> p_fdec pic' q = p_fdec pic q.

Section Encoder.
Context (e : enc_t) (param : cqm_param) (pps : x264_pps_t).
Context (q4 : x264_t -> (Z -> Z) -> Z -> Z -> Z -> bool -> Z -> Z -> Z)
        (q8 : x264_t -> (Z -> Z) -> Z -> Z -> bool -> Z -> Z -> Z)
        (qdc : x264_t -> (Z -> Z) -> Z -> Z -> Z -> bool -> Z -> Z).
(** The trellis search returns 16-bit levels. *)
Context (q4_coef : forall h dct cat qp ctx intra idx i, is_coef (q4 h dct cat qp ctx intra idx i)).
Context (T : tables_of e param pps) (lossy : b_lossless e = false).
Let field := param_b_interlaced e.

Lemma x264_quant_4x4_coef h dct qp ctx intra idx i : 0 <= i < 16 -> is_coef (x264_quant_4x4 e q4 h dct qp ctx intra idx i).
Proof. intros Hi. unfold x264_quant_4x4. destruct (b_trellis e); [apply q4_coef|by apply quant_4x4_coef]. Qed.

Lemma i4x4_decodes h pic idx qp : 0 <= qp < 52 -> pixels_ok (p_fdec pic 0) ->
  let '(h', pic') := x264_mb_encode_i4x4 e q4 h pic idx qp in
  let d := scaled4 field (pps_list pps CQM_4IY) qp (luma4x4 h' idx) in
  conforms4 d = true -> decodes_at (p_fdec pic 0) (p_fdec pic' 0) (tbl block_idx_xy_fdec idx) 4 (decode_residual4 d).
Proof.
  intros Hqp Hp. unfold x264_mb_encode_i4x4. rewrite lossy. cbv zeta.
  set (c := x264_quant_4x4 e q4 h _ qp DCT_LUMA_4x4 true idx).
  assert (forall i, 0 <= i < 16 -> is_coef (c i)) as Hc by (intros; by apply x264_quant_4x4_coef).
  destruct (array_non_zero 16 c) eqn:Ez; rewrite luma4x4_put, upd_block_eq; intros C.
  - cbn [put_fdec p_fdec]. rewrite upd_block_eq. apply add4x4_decodes; [done|]. intros x y Hx Hy.
    eapply (block_decodes e param pps CQM_4IY); done.
  - split; [|done]. intros y x Hy Hx. rewrite (proj1 (decode_zero_levels field (pps_list pps CQM_4IY) qp x y (proj1 Hqp))), clip1_id by apply Hp. done.
Qed.
(** *** Chroma *)
Lemma scan_4x4_coef level dct : (forall i, 0 <= i < 16 -> is_coef (dct i)) -> forall i, 0 <= i < 16 -> is_coef (zigzag_scan_4x4 field level dct i).
Proof.
  intros Hd i Hi. rewrite zigzag_scan_4x4_tables by done. apply Hd.
  assert (all_range 0 16 (fun i => forallb (fun b => (0 <=? tbl2 x264_zigzag_scan4 b i) && (tbl2 x264_zigzag_scan4 b i <? 16)) [0; 1]) = true) as C by (vm_compute; reflexivity).
  apply (all_range_spec 0 16 _ i) in C; [|lia]. cbn [forallb] in C. destruct field; cbn [b2i]; lia.
Qed.

Lemma decimate_score15_some l : (forall i, 0 <= i < 16 -> is_coef (l i)) -> exists s, x264_decimate_score15 l = Some s.
Proof. intros Hl. eexists. apply decimate_score_internal_spec; [by left|]. intros i Hi. apply Hl. lia. Qed.

Lemma chroma_ac_block_spec ch qp cat intra dec h D s i :
  exists d lev s', chroma_ac_block e q4 ch qp cat intra dec (h, D, s) i =
    Some (put_luma4x4 h (16+i+ch*4) (zigzag_scan_4x4 field lev d), upd_block D i d, s') /\ (forall k, 0 <= k < 16 -> is_coef (d k)).
Proof.
  unfold chroma_ac_block, scan_4x4. fold field. cbv zeta. set (d := if b_trellis e then _ else _).
  assert (forall k, 0 <= k < 16 -> is_coef (d k)) as Hd by (intros k Hk; subst d; destruct (b_trellis e); [apply q4_coef|by apply quant_4x4_coef]).
  exists d, (luma4x4 h (16+i+ch*4)). destruct dec; [|by eexists].
  destruct (decimate_score15_some (luma4x4 (put_luma4x4 h (16+i+ch*4) (zigzag_scan_4x4 field (luma4x4 h (16+i+ch*4)) d)) (16+i+ch*4))) as [sc Es].
  - intros k Hk. rewrite luma4x4_put, upd_block_eq. by apply scan_4x4_coef.
  - rewrite Es. cbn. by eexists.
Qed.

(** The levels of the four blocks are scans of the quantised blocks. *)
Definition scanned (h : x264_t) (D : Z -> Z -> Z) (first : Z) (b : Z) : Prop :=
  (forall i, 0 <= i < 16 -> is_coef (D b i)) /\ exists lev, forall i, 0 <= i < 16 -> luma4x4 h (first + b) i = zigzag_scan_4x4 field lev (D b) i.

Lemma chroma_ac_spec h ch qp cat intra dec D : exists h' D' s,
  chroma_ac e q4 h ch qp cat intra dec D = Some (h', D', s) /\ chroma_dc h' = chroma_dc h /\
  (forall b, 0 <= b < 4 -> scanned h' D' (16 + ch * 4) b) /\
  (forall j, ~ 16 + ch * 4 <= j < 16 + ch * 4 + 4 -> luma4x4 h' j = luma4x4 h j).
Proof.
  unfold chroma_ac. cbn [foldM].
  destruct (chroma_ac_block_spec ch qp cat intra dec h D 0 0) as (d0 & l0 & s0 & -> & C0). cbn [mbind option_bind].
  destruct (chroma_ac_block_spec ch qp cat intra dec (put_luma4x4 h (16+0+ch*4) (zigzag_scan_4x4 field l0 d0)) (upd_block D 0 d0) s0 1) as (d1 & l1 & s1 & -> & C1). cbn [mbind option_bind].
  set (h1 := put_luma4x4 (put_luma4x4 h _ _) _ _). set (D1 := upd_block (upd_block D 0 d0) 1 d1).
  destruct (chroma_ac_block_spec ch qp cat intra dec h1 D1 s1 2) as (d2 & l2 & s2 & -> & C2). cbn [mbind option_bind].
  set (h2 := put_luma4x4 h1 _ _). set (D2 := upd_block D1 2 d2).
  destruct (chroma_ac_block_spec ch qp cat intra dec h2 D2 s2 3) as (d3 & l3 & s3 & -> & C3). cbn [mbind option_bind].
  eexists _, _, s3. split; [reflexivity|]. subst h1 h2 D1 D2. split; [by rewrite !chroma_dc_put_luma|]. split.
  - intros b Hb. unfold scanned. rewrite !luma4x4_put.
    each4 b; at_block; (split; [done|]); eexists; reflexivity.
  - intros j Hj. rewrite !luma4x4_put, !upd_block_ne by lia. done.
Qed.

Lemma DEQUANT_ONE_0 dmf qb : - 6 <= qb -> DEQUANT_ONE 0 dmf qb = 0.
Proof.
  intros Hq. unfold DEQUANT_ONE. rewrite Z.mul_0_l. change (s32 0) with 0. destruct (Z.leb_spec 0 qb); [by rewrite Z.shiftl_0_l|].
  assert (qb = -1 \/ qb = -2 \/ qb = -3 \/ qb = -4 \/ qb = -5 \/ qb = -6) as [->|[->|[->|[->|[->| ->]]]]] by lia; reflexivity.
Qed.

Lemma dequant_4x4_zeros dmf qp i : 0 <= qp -> 0 <= i < 16 -> dequant_4x4 zeros dmf qp i = 0.
Proof.
  intros Hqp Hi. rewrite dequant_4x4_pointwise, in_range_b by done. apply DEQUANT_ONE_0.
  rewrite Z.quot_div_nonneg by lia. pose proof (Z.div_pos qp 6). lia.
Qed.

Lemma scan_zeros level i : 0 <= i < 16 -> zigzag_scan_4x4 field level zeros i = 0.
Proof. intros Hi. by rewrite zigzag_scan_4x4_tables. Qed.

Lemma with_dc_ext dc d d' x y : d x y = d' x y -> with_dc dc d x y = with_dc dc d' x y.
Proof. intros E. unfold with_dc. by destruct (_ && _). Qed.

(** What [finish] of the chroma function makes of quantised blocks [D] and their DC [dc]. *)
Lemma chroma_finish_decodes h D Dq (pic : mb_pic) ch cat qp dc : 0 <= cat < 4 -> 0 <= qp < 52 -> pixels_ok (p_fdec pic (1 + ch)) ->
  (forall b, 0 <= b < 4 -> scanned h D (16 + ch * 4) b) ->
  (forall b i, 0 <= b < 4 -> 0 <= i < 16 -> Dq b i = dequant_4x4 (D b) (dequant4_mf (cqm e) cat) qp i) ->
  let h' := put_chroma_dc h ch (zigzag_scan_2x2_dc (chroma_dc h ch) dc) in
  let d := chroma_scaled field (pps_list pps cat) qp h' ch in
  conforms_blocks 4 d = true ->
  decodes_at (p_fdec pic (1 + ch)) (add8x8_idct (p_fdec pic (1 + ch)) 0 (idct_dequant_2x2_dc dc Dq (dequant4_mf (cqm e) cat) qp) 0)
    0 8 (quad 4 (fun b => decode_residual4 (d b))).
Proof.
  intros Hc Hqp Hp HD HDq h' d C. apply add8x8_decodes; [done|]. intros b x y Hb Hx Hy. rewrite Z.add_0_l.
  pose proof (conforms_blocks_at _ _ _ C Hb) as Cb. destruct (HD b Hb) as [Hco [lev HL]].
  unfold d, chroma_scaled in Cb |- *. rewrite (Z.add_comm 16 b), <- Z.add_assoc, (Z.add_comm b) in Cb |- *.
  assert (chroma_dc h' ch = zigzag_scan_2x2_dc (chroma_dc h ch) dc) as Edc by (unfold h'; by rewrite chroma_dc_put, upd_block_eq).
  assert (luma4x4 h' = luma4x4 h) as El by (unfold h'; by rewrite luma4x4_put_chroma_dc). rewrite Edc, El in Cb |- *.
  destruct (idct_dequant_2x2_spec e param pps cat qp (chroma_dc h ch) dc Dq b T Hc Hqp Hb) as [I0 I1]. cbv zeta in I0, I1.
  eapply (dc_block_decodes e param pps cat field qp _ lev (D b)); try done.
  - intros i Hi. rewrite I1 by lia. apply HDq; lia.
  - apply I0. apply conforms4_at in Cb as [Cb _]. apply (Cb 0 0); lia.
Qed.

(** The four blocks set to zero. *)
Definition clear_chroma (h : x264_t) (ch : Z) : x264_t := for_ 4 0 (fun i h => put_luma4x4 h (16+i+ch*4) zeros) h.

Lemma clear_chroma_spec h ch :
  (forall b, 0 <= b < 4 -> scanned (clear_chroma h ch) (fun _ => zeros) (16 + ch * 4) b) /\ chroma_dc (clear_chroma h ch) = chroma_dc h /\
  (forall b, 0 <= b < 4 -> luma4x4 (clear_chroma h ch) (16 + ch * 4 + b) = zeros) /\
  (forall j, ~ 16 + ch * 4 <= j < 16 + ch * 4 + 4 -> luma4x4 (clear_chroma h ch) j = luma4x4 h j).
Proof.
  unfold clear_chroma. cbn [for_].
  assert (forall b, 0 <= b < 4 -> luma4x4 (clear_chroma h ch) (16 + ch * 4 + b) = zeros) as Z0.
  { intros b Hb. unfold clear_chroma. cbn [for_]. rewrite !luma4x4_put. each4 b; by at_block. }
  split; [|split; [|split]].
  - intros b Hb. split; [intros; unfold is_coef; lia|]. exists zeros. intros i Hi. rewrite scan_zeros by done. pose proof (Z0 b Hb) as E. unfold clear_chroma in E. cbn [for_] in E. by rewrite E.
  - by rewrite !chroma_dc_put_luma.
  - exact Z0.
  - intros j Hj. rewrite !luma4x4_put. by at_block.
Qed.

Lemma chroma_zero_residual ws qp h ch b x y : 0 <= qp -> chroma_dc h ch = zeros -> luma4x4 h (16 + b + ch * 4) = zeros ->
  decode_residual4 (chroma_scaled field ws qp h ch b) x y = 0.
Proof.
  intros Hqp E1 E2. unfold chroma_scaled. rewrite E1, E2.
  assert (chroma_dc_scaled ws qp zeros b = 0) as ->.
  { unfold chroma_dc_scaled, chroma_dc_sum. replace (0 + _ * 0 + _ * 0 + _ * 0) with 0 by lia. by rewrite Z.mul_0_l, Z.shiftl_0_l. }
  destruct (decode_zero_levels field ws qp x y Hqp) as [E _].
  etransitivity; [|exact E]. unfold decode_residual4, round6. do 2 f_equal.
  assert (forall i j, with_dc 0 (scaled4 field ws qp zeros) i j = scaled4 field ws qp zeros i j) as W.
  { intros i j. unfold with_dc. destruct ((i =? 0) && (j =? 0)); [|done]. by rewrite scaled4_zero. }
  unfold inverse4, inv1. by rewrite !W.
Qed.

Lemma other_planes_put pic plane p : other_planes pic (put_fdec pic plane p) plane.
Proof. split; [done|]. intros q Hq. rewrite p_fdec_put. by apply upd_block_ne. Qed.

(** The levels of component [ch] only are replaced, by 16-bit values. *)
Definition chroma_keeps (h h' : x264_t) (ch : Z) : Prop :=
  (forall j, ~ 16 + ch * 4 <= j < 16 + ch * 4 + 4 -> luma4x4 h' j = luma4x4 h j) /\ (forall c, c <> ch -> chroma_dc h' c = chroma_dc h c).
Definition chroma_coefs (h : x264_t) (ch : Z) : Prop :=
  (forall b i, 0 <= b < 4 -> 0 <= i < 16 -> is_coef (luma4x4 h (16 + ch * 4 + b) i)) /\ (forall i, 0 <= i < 4 -> is_coef (chroma_dc h ch i)).

Lemma scanned_coef h D first b i : scanned h D first b -> 0 <= i < 16 -> is_coef (luma4x4 h (first + b) i).
Proof. intros [Hc [lev E]] Hi. rewrite E by done. by apply scan_4x4_coef. Qed.

Context (qdc_coef : forall h dct cat qp ctx intra i, is_coef (qdc h dct cat qp ctx intra i)).

Lemma quant_2x2_coef dct mf b i : 0 <= i < 4 -> is_coef (quant_2x2_dc dct mf b i).
Proof. intros Hi. unfold quant_2x2_dc, upd. each4 i; cbn [Z.eqb Pos.eqb]; apply QUANT_ONE_coef. Qed.

Lemma zigzag_2x2_coef lev dct i : 0 <= i < 4 -> (forall i, 0 <= i < 4 -> is_coef (dct i)) -> is_coef (zigzag_scan_2x2_dc lev dct i).
Proof. intros Hi Hd. unfold zigzag_scan_2x2_dc, st4, upd. each4 i; cbn [Z.eqb Pos.eqb]; apply Hd; lia. Qed.

Lemma chroma_put_keeps h h1 ch D v : (forall j, ~ 16 + ch * 4 <= j < 16 + ch * 4 + 4 -> luma4x4 h1 j = luma4x4 h j) -> chroma_dc h1 = chroma_dc h ->
  (forall b, 0 <= b < 4 -> scanned h1 D (16 + ch * 4) b) -> (forall i, 0 <= i < 4 -> is_coef (v i)) ->
  chroma_keeps h (put_chroma_dc h1 ch v) ch /\ chroma_coefs (put_chroma_dc h1 ch v) ch.
Proof.
  intros Hl Edc HD Hv. unfold chroma_keeps, chroma_coefs. rewrite luma4x4_put_chroma_dc, chroma_dc_put. split; split.
  - done.
  - intros c Hc. by rewrite upd_block_ne, Edc.
  - intros b i Hb Hi. by apply (scanned_coef h1 D); [apply HD|].
  - rewrite upd_block_eq. done.
Qed.

Lemma chroma_plane_decodes h pic ch b_inter qp dec : 0 <= qp < 52 -> pixels_ok (p_fdec pic (1 + ch)) ->
  exists h' pic', chroma_plane e q4 qdc h pic ch b_inter qp dec = Some (h', pic') /\
  (let d := chroma_scaled field (pps_list pps (CQM_4IC + b2i b_inter)) qp h' ch in
   conforms_blocks 4 d = true -> decodes_at (p_fdec pic (1 + ch)) (p_fdec pic' (1 + ch)) 0 8 (quad 4 (fun b => decode_residual4 (d b)))) /\
  other_planes pic pic' (1 + ch) /\
  chroma_keeps h h' ch /\ chroma_coefs h' ch.
Proof.
  intros Hqp Hp. unfold chroma_plane. destruct (dct2x2dc _) as [d2 D0].
  assert (0 <= CQM_4IC + b2i b_inter < 4) as Hc by (by destruct b_inter). cbv zeta. set (cat := CQM_4IC + b2i b_inter) in *.
  destruct (chroma_ac_spec h ch qp cat (negb b_inter) dec D0) as (h1 & D & sc & -> & Edc & HD & Hl). cbn [mbind option_bind].
  set (dc := if b_trellis e then _ else _).
  assert (forall i, 0 <= i < 4 -> is_coef (dc i)) as Hdc by (intros i Hi; subst dc; destruct (b_trellis e); [apply qdc_coef|by apply quant_2x2_coef]).
  destruct (dec && (sc <? 7)).
  - fold (clear_chroma h1 ch). destruct (clear_chroma_spec h1 ch) as (HZ & Edc2 & HZ0 & HlZ).
    assert (forall j, ~ 16 + ch * 4 <= j < 16 + ch * 4 + 4 -> luma4x4 (clear_chroma h1 ch) j = luma4x4 h j) as HL by (intros; by rewrite HlZ, Hl).
    destruct (array_non_zero 4 dc); cbn [negb].
    + eexists _, _. split; [reflexivity|]. split; [|split; [apply other_planes_put|apply (chroma_put_keeps h _ ch (fun _ => zeros)); [done|congruence|apply HZ|intros; by apply zigzag_2x2_coef]]].
      rewrite p_fdec_put, upd_block_eq. apply (chroma_finish_decodes (clear_chroma h1 ch) (fun _ => zeros)); try done.
      intros b i Hb Hi. by rewrite dequant_4x4_zeros by lia.
    + eexists _, pic. split; [reflexivity|]. split; [|split; [done|apply (chroma_put_keeps h _ ch (fun _ => zeros)); [done|congruence|apply HZ|intros; unfold is_coef; lia]]].
      intros _. split; [|done]. intros y x Hy Hx. unfold quad. rewrite chroma_zero_residual; [by rewrite clip1_id by apply Hp|lia|by rewrite chroma_dc_put, upd_block_eq|].
      rewrite luma4x4_put_chroma_dc. rewrite (Z.add_comm 16), <- Z.add_assoc, Z.add_comm. apply HZ0. destruct (4 <=? x), (4 <=? y); cbn; lia.
  - eexists _, _. split; [reflexivity|]. split; [|split; [apply other_planes_put|apply (chroma_put_keeps h _ ch D); [done|done|apply HD|intros; by apply zigzag_2x2_coef]]].
    rewrite p_fdec_put, upd_block_eq. apply (chroma_finish_decodes h1 D); try done. intros b i Hb Hi. cbn [for_]. each4 b; at_block; done.
Qed.

(** What a decoder is sent of chroma: nothing of the AC blocks unless the pattern is 2, and
    of the DC blocks unless it is 1 or 2. *)
Definition chroma_pattern_ok (h : x264_t) : Prop :=
  (i_cbp_chroma h <> 2 -> forall b i, 0 <= b < 8 -> 0 <= i < 16 -> luma4x4 h (16 + b) i = 0) /\
  (i_cbp_chroma h = 0 -> forall ch i, 0 <= ch < 2 -> 0 <= i < 4 -> chroma_dc h ch i = 0).

Lemma chroma_cbp_ok h : chroma_coefs h 0 -> chroma_coefs h 1 -> chroma_pattern_ok (chroma_cbp h).
Proof.
  intros [A0 D0] [A1 D1]. destruct (chroma_cbp_spec h) as (El & Ed & Ec). unfold chroma_pattern_ok. rewrite El, Ed, Ec. clear El Ed Ec. split.
  - destruct (any_chroma_ac h) eqn:Ea; [done|]. intros _ b i Hb Hi.
    assert (array_non_zero 16 (luma4x4 h (16 + b)) = false) as En.
    { destruct (array_non_zero 16 (luma4x4 h (16 + b))) eqn:En; [|done]. exfalso.
      assert (any_chroma_ac h = true); [|congruence]. apply existsb_exists. exists b. split; [|done]. apply list_elem_of_In, elem_of_seqZ. lia. }
    assert (forall j, 0 <= j < 16 -> is_coef (luma4x4 h (16 + b) j)) as Hc.
    { intros j Hj. destruct (Z_lt_le_dec b 4).
      - pose proof (A0 b j ltac:(lia) Hj) as K. by rewrite Z.add_0_r in K.
      - pose proof (A1 (b - 4) j ltac:(lia) Hj) as K. by replace (16 + 1 * 4 + (b - 4)) with (16 + b) in K by lia. }
    exact (array_non_zero_spec 16 _ Hc En i Hi).
  - destruct (any_chroma_ac h); [done|]. destruct (any_chroma_dc h) eqn:Ea; [done|]. intros _ ch i Hch Hi.
    apply orb_false_iff in Ea as [E0 E1]. assert (ch = 0 \/ ch = 1) as [->| ->] by lia.
    + exact (array_non_zero_spec 4 _ ltac:(intros j Hj; apply D0; exact Hj) E0 i Hi).
    + exact (array_non_zero_spec 4 _ ltac:(intros j Hj; apply D1; exact Hj) E1 i Hi).
Qed.

Lemma chroma_decodes h pic b_inter qp : 0 <= qp < 52 -> pixels_ok (p_fdec pic 1) -> pixels_ok (p_fdec pic 2) ->
  exists h' pic', x264_mb_encode_8x8_chroma e q4 qdc h pic b_inter qp = Some (h', pic') /\
  (forall ch, 0 <= ch < 2 ->
     let d := chroma_scaled field (pps_list pps (CQM_4IC + b2i b_inter)) qp h' ch in
     conforms_blocks 4 d = true -> decodes_at (p_fdec pic (1 + ch)) (p_fdec pic' (1 + ch)) 0 8 (quad 4 (fun b => decode_residual4 (d b)))) /\
  chroma_pattern_ok h' /\ p_fenc pic' = p_fenc pic /\ p_fdec pic' 0 = p_fdec pic 0 /\ (forall j, j < 16 -> luma4x4 h' j = luma4x4 h j).
Proof.
  intros Hqp P1 P2. unfold x264_mb_encode_8x8_chroma. rewrite lossy. cbv zeta. set (dec := b_inter && _).
  destruct (chroma_plane_decodes h pic 0 b_inter qp dec Hqp P1) as (h1 & pic1 & -> & R1 & [F1 O1] & [Kl1 Kd1] & [C1a C1d]). cbn [mbind option_bind].
  assert (p_fdec pic1 2 = p_fdec pic 2) as E2 by (by apply O1).
  destruct (chroma_plane_decodes h1 pic1 1 b_inter qp dec Hqp ltac:(change (1 + 1) with 2; by rewrite E2)) as (h2 & pic2 & -> & R2 & [F2 O2] & [Kl2 Kd2] & C2). cbn [mbind option_bind].
  destruct (chroma_cbp_spec h2) as (El & Ed & _). eexists _, pic2. split; [reflexivity|]. split; [|split; [|split; [|split]]].
  - intros ch Hch. assert (ch = 0 \/ ch = 1) as [->| ->] by lia; intros C.
    + set (ws := pps_list pps _) in *.
      assert (forall b, 0 <= b < 4 -> chroma_scaled field ws qp (chroma_cbp h2) 0 b = chroma_scaled field ws qp h1 0 b) as E.
      { intros b Hb. unfold chroma_scaled. rewrite El, Ed, (Kd2 0), Kl2 by lia. done. }
      rewrite O2 by done. eapply decodes_at_ext; [|apply R1].
      * intros x y Hx Hy. unfold quad. rewrite E; [done|]. destruct (4 <=? x), (4 <=? y); cbn; lia.
      * unfold conforms_blocks in *. rewrite forallb_forall in *. intros b Hb. rewrite <- E; [by apply C|]. apply list_elem_of_In, elem_of_seqZ in Hb. lia.
    + unfold chroma_scaled in *. rewrite El, Ed in *. change (1 + 1) with 2 in *. rewrite <- E2. exact (R2 C).
  - apply chroma_cbp_ok; [|exact C2]. split.
    + intros b i Hb Hi. rewrite Kl2 by lia. by apply C1a.
    + intros i Hi. rewrite Kd2 by done. by apply C1d.
  - congruence.
  - rewrite O2, O1; done.
  - intros j Hj. rewrite El, Kl2, Kl1 by lia. done.
Qed.

(** *** 16x16 *)
Lemma quant_4x4_dc_coef dct mf b i : 0 <= i < 16 -> is_coef (quant_4x4_dc dct mf b i).
Proof.
  intros Hi. assert (quant_4x4_dc dct mf b i = QUANT_ONE (dct i) mf b) as ->; [|apply QUANT_ONE_coef].
  etransitivity; [exact (for_upd_pointwise 16 0 (fun i c => QUANT_ONE c mf b) dct i)|]. by rewrite in_range_b by lia.
Qed.

(** The DC values the program computes from the quantised DC block [q]. *)
Lemma luma_dc_dequant q c qp x y : 0 <= qp < 52 -> (forall i j, 0 <= i < 4 -> 0 <= j < 4 -> q (4 * i + j) = c i j) ->
  conforms_luma_dc c = true -> 0 <= x < 4 -> 0 <= y < 4 ->
  let v := dc_scale_level (level_scale4 (pps_list pps CQM_4IY) (qp mod 6) 0 0) qp (luma_dc_sum c x y) in
  fits16 v = true -> dequant_4x4_dc (idct4x4dc q) (dequant4_mf (cqm e) CQM_4IY) qp (4 * y + x) = v.
Proof.
  intros Hqp E C Hx Hy v F. destruct (idct4x4dc_spec q c x y E C Hx Hy) as [Ei Fi].
  destruct (dequant_table e param pps CQM_4IY (qp mod 6) 0 0 T ltac:(done) (Z.mod_pos_bound qp 6 eq_refl) ltac:(lia) ltac:(lia)) as [Es Hs].
  change (4 * 0 + 0) with 0 in Es. set (sc := level_scale4 _ _ 0 0) in *.
  rewrite dequant_4x4_dc_pointwise; rewrite Z.rem_mod_nonneg, Es by lia.
  - rewrite in_range_b by lia. rewrite Ei. by apply DEQUANT_ONE_dc.
  - rewrite Z.quot_div_nonneg by lia. intros H6. assert (qp / 6 < 9) by (apply Z.div_lt_upper_bound; lia).
    assert (2 ^ (qp / 6 - 6) <= 2 ^ 2) by (apply Z.pow_le_mono_r; lia). pose proof (pow2_pos (qp / 6 - 6)). nia.
  - right. rewrite Ei. apply andb_prop in Fi as [? ?]. nia.
Qed.

Lemma i16x16_decodes h pic qp : 0 <= qp < 52 -> pixels_ok (p_fdec pic 0) ->
  let '(h', pic') := x264_mb_encode_i16x16 e q4 qdc h pic qp in
  let d := luma16_scaled field (pps_list pps CQM_4IY) qp h' in
  conforms_luma_dc (luma16_dc field h') = true -> conforms_blocks 16 d = true ->
  decodes_at (p_fdec pic 0) (p_fdec pic' 0) 0 16 (quad 8 (fun b8 => quad 4 (fun b4 => decode_residual4 (d (4 * b8 + b4))))).
Proof.
  intros Hqp Hp. unfold x264_mb_encode_i16x16. rewrite lossy. set (loop := for_ 16 0 _ _).
  assert (exists Q, forall b, 0 <= b < 16 -> scanned loop.1.1 Q 0 b /\ forall i, loop.1.2 b i = dequant_4x4 (Q b) (dequant4_mf (cqm e) CQM_4IY) qp i) as (Q & HQ).
  { refine (for_inv (fun k s => exists Q, forall b, 0 <= b < k -> scanned s.1.1 Q 0 b /\ forall i, s.1.2 b i = dequant_4x4 (Q b) (dequant4_mf (cqm e) CQM_4IY) qp i) 16 0 _ _ _ _).
    - exists (fun _ => zeros). lia.
    - intros i [[h1 D] dc] Hi [Q HQ]. cbn [fst snd] in *. set (qd := x264_quant_4x4 _ _ _ _ _ _ _ _).
      exists (upd_block Q i qd). intros b Hb. unfold scanned. rewrite luma4x4_put, Z.add_0_l. destruct (Z.eq_dec b i) as [->|Hne].
      + rewrite !upd_block_eq. split; [|done]. split; [|by exists (luma4x4 h1 i)]. intros j Hj. by apply x264_quant_4x4_coef.
      + rewrite !upd_block_ne by done. by apply (HQ b ltac:(lia)). }
  destruct loop as [[h1 D] dc0]. cbn [fst snd] in HQ. cbv zeta.
  set (q := if b_trellis e then _ else _).
  assert (forall i, 0 <= i < 16 -> is_coef (q i)) as Hq by (intros i Hi; subst q; destruct (b_trellis e); [apply qdc_coef|by apply quant_4x4_dc_coef]).
  set (dcs := dequant_4x4_dc _ _ _). set (h' := set_luma16x16_dc h1 _). intros Cdc C.
  cbn [p_fdec put_fdec]. rewrite upd_block_eq.
  apply (add16x16_decodes _ _ _ (fun b => decode_residual4 (luma16_scaled field (pps_list pps CQM_4IY) qp h' b))); [done|]. intros b x y Hb Hx Hy.
  pose proof (conforms_blocks_at _ _ _ C Hb) as Cb. destruct (HQ b Hb) as [[Hco [lev HL]] HDq]. rewrite Z.add_0_l in HL.
  pose proof (for_blocks 16 (fun i d => upd d 0 (dcs (tbl block_idx_xy_1d i))) D b) as ->. rewrite in_range_b by lia.
  assert (luma4x4 h' = luma4x4 h1) as El by apply luma4x4_set_dc.
  unfold luma16_scaled in Cb |- *. rewrite El in Cb |- *.
  eapply (dc_block_decodes e param pps CQM_4IY field qp _ lev (Q b)); try done.
  - intros i Hi. rewrite upd_ne by lia. apply HDq.
  - rewrite upd_eq. destruct (block_idx_xy b Hb) as (Hbx & Hby & ->). apply luma_dc_dequant; try done.
    + intros i j Hi Hj. unfold luma16_dc, h'. rewrite luma16x16_dc_set. symmetry. by apply at_pos_scan.
    + apply conforms4_at in Cb as [Cb _]. apply (Cb 0 0); lia.
Qed.

End Encoder.

(** ** Flat lists and the plain quantiser *)
Definition no_trellis : x264_t -> (Z -> Z) -> Z -> Z -> Z -> bool -> Z -> Z -> Z := fun _ _ _ _ _ _ _ _ => 0.

Lemma i4x4_plain e q4 h pic idx qp : b_trellis e = false ->
  x264_mb_encode_i4x4 e q4 h pic idx qp = x264_mb_encode_i4x4 e no_trellis h pic idx qp.
Proof. intros Hb. unfold x264_mb_encode_i4x4, x264_quant_4x4. by rewrite Hb. Qed.

Section Flat.
Context (e : enc_t) (param : cqm_param) (pps : x264_pps_t) (T : tables_of e param pps) (flat : scaling_list pps = flat_matrices).
Let dz := (i_luma_deadzone param).2.

Lemma flat_level_scale m x y : 0 <= m < 6 -> 0 <= x < 4 -> 0 <= y < 4 ->
  level_scale4 (pps_list pps CQM_4IY) m x y = 16 * def_dequant4 m (4 * x + y).
Proof.
  intros Hm Hx Hy. destruct (dequant_table e param pps CQM_4IY m x y T ltac:(done) Hm Hx Hy) as [<- _].
  rewrite (t_cqm _ _ _ T), flat. apply flat_dequant; [done|lia].
Qed.

(** The levels of a block in the raster order of the decoder. *)
Lemma flat_i4x4_levels qp h pic idx (lossy : b_lossless e = false) (plain : b_trellis e = false) :
  flat_range dz qp -> pixels_ok (p_fenc pic 0) -> pixels_ok (p_fdec pic 0) -> forall x y, 0 <= x < 4 -> 0 <= y < 4 ->
  let pix1 := ptr (p_fenc pic 0) (tbl block_idx_xy_fenc idx) in let pix2 := ptr (p_fdec pic 0) (tbl block_idx_xy_fdec idx) in
  scaled4 (param_b_interlaced e) (pps_list pps CQM_4IY) qp (luma4x4 (x264_mb_encode_i4x4 e no_trellis h pic idx qp).1 idx) x y =
  scale_level (16 * def_dequant4 (qp mod 6) (4 * x + y)) qp (quant_spec (sub4x4_dct pix1 pix2 (4 * x + y)) (flat_mf qp (4 * x + y)) (flat_bias dz qp (4 * x + y))).
Proof.
  intros R P1 P2 x y Hx Hy pix1 pix2. assert (0 <= qp) as Hqp by apply R.
  unfold x264_mb_encode_i4x4. rewrite lossy. cbv zeta. set (c := x264_quant_4x4 _ _ _ _ _ _ _ _).
  assert (forall p, 0 <= p < 16 -> c p = quant_spec (sub4x4_dct pix1 pix2 p) (flat_mf qp p) (flat_bias dz qp p) /\ is_coef (c p)) as Ec.
  { intros p Hp. destruct (flat_tables param CQM_4IY qp p ltac:(done)) as [Em Eb].
    destruct (flat_quant dz qp R pix1 pix2 (fun i => P1 _) (fun i => P2 _) (quant4_mf (cqm e) CQM_4IY qp) (quant4_bias (cqm e) CQM_4IY qp) p Hp) as [El Hl].
    - by rewrite (t_cqm _ _ _ T), flat, Em.
    - rewrite (t_cqm _ _ _ T), flat, Eb. f_equal. change (tbl (deadzone param) CQM_4IY) with (32 - dz). lia.
    - assert (c p = quant_4x4 (sub4x4_dct pix1 pix2) (quant4_mf (cqm e) CQM_4IY qp) (quant4_bias (cqm e) CQM_4IY qp) p) as -> by (unfold c, x264_quant_4x4; rewrite plain; done).
      rewrite El. by split. }
  destruct (Ec (4 * x + y) ltac:(lia)) as [<- _]. destruct (array_non_zero 16 c) eqn:Ez; cbn [fst]; rewrite luma4x4_put, upd_block_eq.
  - unfold scan_4x4. rewrite scaled4_scan by done. rewrite flat_level_scale by (done || apply Z.mod_pos_bound; lia). done.
  - pose proof (array_non_zero_spec 16 c) as N. change (4 * (16 / 4)) with 16 in N. rewrite scaled4_zero by exact Hqp.
    rewrite (N (fun i Hi => proj2 (Ec i Hi)) Ez (4 * x + y)) by lia.
    by rewrite scale_level_flat, Z.mul_0_l by done.
Qed.
End Flat.

Lemma clip1_near v s err : 0 <= s < 256 -> Z.abs (v - s) <= err -> Z.abs (clip1 v - s) <= err.
Proof. unfold clip1. lia. Qed.

(** ** Claims *)

(** C9: Intra macroblocks do not drift. For any scaling lists, any quantiser (the trellis
    search of encoder/rdo.c is an argument) and any state: whenever the levels that
    [x264_mb_encode_i4x4] and [x264_mb_encode_i16x16] store are levels the standard allows
    (their scaled values and the intermediate values of the inverse transform fit 16 bits),
    the plane the encoder goes on predicting from is sample for sample what a decoder
    reconstructs from those levels and the lists of the picture parameter set, and is
    unchanged outside the block. *)
Theorem intra_luma_no_drift e param pps q4 qdc h pic idx qp :
  (forall h dct cat qp ctx intra idx i, is_coef (q4 h dct cat qp ctx intra idx i)) ->
  (forall h dct cat qp ctx intra i, is_coef (qdc h dct cat qp ctx intra i)) ->
  tables_of e param pps -> b_lossless e = false -> 0 <= qp < 52 -> pixels_ok (p_fdec pic 0) ->
  (let '(h', pic') := x264_mb_encode_i4x4 e q4 h pic idx qp in
   let d := scaled4 (param_b_interlaced e) (pps_list pps CQM_4IY) qp (luma4x4 h' idx) in
   conforms4 d = true -> decodes_at (p_fdec pic 0) (p_fdec pic' 0) (tbl block_idx_xy_fdec idx) 4 (decode_residual4 d)) /\
  (let '(h', pic') := x264_mb_encode_i16x16 e q4 qdc h pic qp in
   let d := luma16_scaled (param_b_interlaced e) (pps_list pps CQM_4IY) qp h' in
   conforms_luma_dc (luma16_dc (param_b_interlaced e) h') = true -> conforms_blocks 16 d = true ->
   decodes_at (p_fdec pic 0) (p_fdec pic' 0) 0 16 (quad 8 (fun b8 => quad 4 (fun b4 => decode_residual4 (d (4 * b8 + b4)))))).
Proof.
  intros Hq4 Hqdc T L Hqp Hp. split; [by apply (i4x4_decodes e param pps q4)|by apply (i16x16_decodes e param pps q4 qdc)].
Qed.

(** C10: Chroma does not drift, in intra and inter macroblocks. [x264_mb_encode_8x8_chroma]
    completes, also when it decimates; each chroma plane it leaves is what a decoder
    reconstructs from the stored DC and AC levels, when these are levels the standard allows;
    and the coded block pattern it computes drops only levels that are zero, so the decoder
    gets them all.  The luma plane and levels are untouched. *)
Theorem chroma_no_drift e param pps q4 qdc h pic b_inter qp :
  (forall h dct cat qp ctx intra idx i, is_coef (q4 h dct cat qp ctx intra idx i)) ->
  (forall h dct cat qp ctx intra i, is_coef (qdc h dct cat qp ctx intra i)) ->
  tables_of e param pps -> b_lossless e = false -> 0 <= qp < 52 -> pixels_ok (p_fdec pic 1) -> pixels_ok (p_fdec pic 2) ->
  exists h' pic', x264_mb_encode_8x8_chroma e q4 qdc h pic b_inter qp = Some (h', pic') /\
  (forall ch, 0 <= ch < 2 ->
     let d := chroma_scaled (param_b_interlaced e) (pps_list pps (CQM_4IC + b2i b_inter)) qp h' ch in
     conforms_blocks 4 d = true -> decodes_at (p_fdec pic (1 + ch)) (p_fdec pic' (1 + ch)) 0 8 (quad 4 (fun b => decode_residual4 (d b)))) /\
  chroma_pattern_ok h' /\ p_fenc pic' = p_fenc pic /\ p_fdec pic' 0 = p_fdec pic 0 /\ (forall j, j < 16 -> luma4x4 h' j = luma4x4 h j).
Proof. intros Hq4 Hqdc T L Hqp P1 P2. by apply (chroma_decodes e param pps q4 qdc). Qed.


(** ** Examples *)

(** A flat picture parameter set, the default dead zones, a gradient and a prediction of 128. *)
Definition flat_pps : x264_pps_t :=
  Pps 0 0 false false 1 1 1 false 0 26 26 0 true false false false 0 flat_matrices.
Definition flat_param : cqm_param := CqmParam (21, 11) false 10 false.
Definition flat_enc : enc_t := Enc (cqm_tables flat_param flat_matrices) false false false true false (fun _ _ => 0).
Definition gradient_pic : mb_pic := MbPic (fun _ i => 8 * (i mod 16) + 3 * (i / 16) mod 100) (fun _ _ => 128).

Lemma flat_enc_tables : tables_of flat_enc flat_param flat_pps.
Proof.
  split; [done|]. intros idx Hi. assert (idx = 0 \/ idx = 1 \/ idx = 2 \/ idx = 3 \/ idx = 4 \/ idx = 5) as H by lia.
  assert (forall n, (n <= 64)%nat -> Forall (fun v => 0 < v < 256) (take n x264_cqm_flat16)) as F.
  { intros n _. apply list.Forall_take. apply (list.Forall_replicate _ 64 16). lia. }
  destruct H as [->|[->|[->|[->|[->| ->]]]]]; (split; [vm_compute; lia|apply F; vm_compute; lia]).
Qed.

Lemma gradient_ok q : pixels_ok (p_fenc gradient_pic q) /\ pixels_ok (p_fdec gradient_pic q).
Proof.
  split; intros i; cbn; [|lia]. pose proof (Z.mod_pos_bound i 16). pose proof (Z.mod_pos_bound (3 * (i / 16)) 100). lia.
Qed.

Lemma zero_coef : is_coef 0.
Proof. unfold is_coef. lia. Qed.

Lemma intra_luma_no_drift_witness :
  let '(h', pic') := x264_mb_encode_i4x4 flat_enc no_trellis sample_mb gradient_pic 0 26 in
  decodes_at (p_fdec gradient_pic 0) (p_fdec pic' 0) (tbl block_idx_xy_fdec 0) 4
    (decode_residual4 (scaled4 (param_b_interlaced flat_enc) (pps_list flat_pps CQM_4IY) 26 (luma4x4 h' 0))).
Proof.
  assert (conforms4 (scaled4 (param_b_interlaced flat_enc) (pps_list flat_pps CQM_4IY) 26
    (luma4x4 (x264_mb_encode_i4x4 flat_enc no_trellis sample_mb gradient_pic 0 26).1 0)) = true) as C by (vm_compute; reflexivity).
  destruct (intra_luma_no_drift flat_enc flat_param flat_pps no_trellis (fun _ _ _ _ _ _ _ => 0) sample_mb gradient_pic 0 26
    ltac:(intros; exact zero_coef) ltac:(intros; exact zero_coef) flat_enc_tables eq_refl ltac:(lia) (proj2 (gradient_ok 0))) as [H _].
  destruct (x264_mb_encode_i4x4 flat_enc no_trellis sample_mb gradient_pic 0 26) as [h' pic']. exact (H C).
Defined.

Lemma chroma_no_drift_witness :
  exists h' pic', x264_mb_encode_8x8_chroma flat_enc no_trellis (fun _ _ _ _ _ _ _ => 0) sample_mb gradient_pic true 26 = Some (h', pic') /\
  chroma_pattern_ok h'.
Proof.
  destruct (chroma_no_drift flat_enc flat_param flat_pps no_trellis (fun _ _ _ _ _ _ _ => 0) sample_mb gradient_pic true 26
    ltac:(intros; exact zero_coef) ltac:(intros; exact zero_coef) flat_enc_tables eq_refl ltac:(lia) (proj2 (gradient_ok 1)) (proj2 (gradient_ok 2)))
    as (h' & pic' & E & _ & C & _).
  exists h', pic'. split; [exact E|exact C].
Defined.

