(* ===== verification/Predict.v ===== *)
(** * Intra prediction (common/predict.c)

    A pointer into a plane is a function of the offset from it, so [src] is the plane seen
    from the block's first sample; the neighbours have negative offsets.  The last part
    states the prediction of the standard over neighbouring samples and shows that every
    mode computes it and writes nothing outside its block. *)
From S2P Require Import Prelude Mb CavlcMb Dct Recon.

(** ** Modes (predict.h) and neighbours (macroblock.h) *)
Definition I_PRED_CHROMA_DC := 0.
Definition I_PRED_CHROMA_H := 1.
Definition I_PRED_CHROMA_V := 2.
Definition I_PRED_CHROMA_P := 3.
Definition I_PRED_CHROMA_DC_LEFT := 4.
Definition I_PRED_CHROMA_DC_TOP := 5.
Definition I_PRED_CHROMA_DC_128 := 6.
Definition I_PRED_16x16_V := 0.
Definition I_PRED_16x16_H := 1.
Definition I_PRED_16x16_DC := 2.
Definition I_PRED_16x16_P := 3.
Definition I_PRED_16x16_DC_LEFT := 4.
Definition I_PRED_16x16_DC_TOP := 5.
Definition I_PRED_16x16_DC_128 := 6.
Definition MB_LEFT := 1.
Definition MB_TOP := 2.
Definition MB_TOPRIGHT := 4.
Definition MB_TOPLEFT := 8.
(** By mode of a 4x4 or 8x8 block. *)
Definition x264_pred_i4x4_neighbors : list Z :=
  [ MB_TOP; MB_LEFT; MB_LEFT .| MB_TOP; MB_TOP .| MB_TOPRIGHT; MB_LEFT .| MB_TOPLEFT .| MB_TOP;
    MB_LEFT .| MB_TOPLEFT .| MB_TOP; MB_LEFT .| MB_TOPLEFT .| MB_TOP; MB_TOP .| MB_TOPRIGHT; MB_LEFT;
    MB_LEFT; MB_TOP; 0 ].

(** ** Access *)
Definition SRC (src : mem) (x y : Z) : Z := src (x + y * FDEC_STRIDE).
Definition SRC32 (src : mem) (x y : Z) : Z := ld32 src (x + y * FDEC_STRIDE).
(** The assignments [SRC(x,y) = ... = v] and [SRC32(x,y) = ... = v]. *)
Definition put (l : list (Z * Z)) (v : Z) (src : mem) : mem := fold_right (fun '(x, y) src => st8 src (x + y * FDEC_STRIDE) v) src l.
Definition put32 (l : list (Z * Z)) (v : Z) (src : mem) : mem := fold_right (fun '(x, y) src => st32 src (x + y * FDEC_STRIDE) v) src l.
Definition pack8to16 (a b : Z) : Z := u32 (a + (b << 8)).
Definition pack16to32 (a b : Z) : Z := u32 (a + (b << 16)).
Definition F1 (a b : Z) : Z := (a + b + 1) >> 1.
Definition F2 (a b c : Z) : Z := (a + 2 * b + c + 2) >> 2.
(** [w] words of each of [h] rows from row [y0], the [j]th being [v j]. *)
Definition fill_rows (w h : nat) (y0 : Z) (v : Z -> Z) (src : mem) : mem :=
  for_ h y0 (fun y src => for_ w 0 (fun j src => st32 src (y * FDEC_STRIDE + 4 * j) (v j)) src) src.
Definition sum_ (n : nat) (f : Z -> Z) : Z := for_ n 0 (fun i s => s + f i) 0.

(** ** 16x16 *)
Definition PREDICT_16x16_DC (v : Z) : mem -> mem := fill_rows 4 16 0 (fun _ => v).
Definition predict_16x16_dc (src : mem) : mem :=
  let dc := for_ 16 0 (fun i dc => u32 (u32 (dc + src (-1 + i * FDEC_STRIDE)) + src (i - FDEC_STRIDE))) 0 in
  let dc := u32 (((dc + 16) >> 5) * 0x01010101) in
  PREDICT_16x16_DC dc src.
Definition predict_16x16_dc_left (src : mem) : mem :=
  let dc := for_ 16 0 (fun i dc => u32 (dc + src (-1 + i * FDEC_STRIDE))) 0 in
  let dc := u32 (((dc + 8) >> 4) * 0x01010101) in
  PREDICT_16x16_DC dc src.
Definition predict_16x16_dc_top (src : mem) : mem :=
  let dc := for_ 16 0 (fun i dc => u32 (dc + src (i - FDEC_STRIDE))) 0 in
  let dc := u32 (((dc + 8) >> 4) * 0x01010101) in
  PREDICT_16x16_DC dc src.
Definition predict_16x16_dc_128 (src : mem) : mem := PREDICT_16x16_DC 0x80808080 src.
Definition predict_16x16_h (src : mem) : mem :=
  for_ 16 0 (fun i src =>
    let v := u32 (0x01010101 * src (i * FDEC_STRIDE - 1)) in
    for_ 4 0 (fun j src => st32 src (i * FDEC_STRIDE + 4 * j) v) src) src.
Definition predict_16x16_v (src : mem) : mem :=
  fill_rows 4 16 0 (fun j => ld32 src (4 * j - FDEC_STRIDE)) src.

(** The samples of a plane: rows from [i00], each adding [b] per sample and [c] per row. *)
Definition plane_rows (n : nat) (i00 b c : Z) (src : mem) : mem :=
  (for_ n 0 (fun y '(src, i00) =>
     ((for_ n 0 (fun x '(src, pix) => (st8 src (y * FDEC_STRIDE + x) (x264_clip_uint8 (pix >> 5)), pix + b)) (src, i00)).1,
      i00 + c)) (src, i00)).1.
Definition predict_16x16_p (src : mem) : mem :=
  let H := sum_ 8 (fun i => (i + 1) * (src (8 + i - FDEC_STRIDE) - src (6 - i - FDEC_STRIDE))) in
  let V := sum_ 8 (fun i => (i + 1) * (src (-1 + (8+i)*FDEC_STRIDE) - src (-1 + (6-i)*FDEC_STRIDE))) in
  let a := 16 * (src (-1 + 15*FDEC_STRIDE) + src (15 - FDEC_STRIDE)) in
  let b := (5 * H + 32) >> 6 in
  let c := (5 * V + 32) >> 6 in
  plane_rows 16 (a - b * 7 - c * 7 + 16) b c src.

(** ** 8x8 chroma *)
Definition predict_8x8c_dc_128 (src : mem) : mem := fill_rows 2 8 0 (fun _ => 0x80808080) src.
Definition predict_8x8c_dc_left (src : mem) : mem :=
  let dc0 := sum_ 4 (fun y => src (y * FDEC_STRIDE - 1)) in
  let dc1 := sum_ 4 (fun y => src ((y+4) * FDEC_STRIDE - 1)) in
  let dc0 := u32 (((dc0 + 2) >> 2) * 0x01010101) in
  let dc1 := u32 (((dc1 + 2) >> 2) * 0x01010101) in
  fill_rows 2 4 4 (fun _ => dc1) (fill_rows 2 4 0 (fun _ => dc0) src).
Definition predict_8x8c_dc_top (src : mem) : mem :=
  let dc0 := sum_ 4 (fun x => src (x - FDEC_STRIDE)) in
  let dc1 := sum_ 4 (fun x => src (x + 4 - FDEC_STRIDE)) in
  let dc0 := u32 (((dc0 + 2) >> 2) * 0x01010101) in
  let dc1 := u32 (((dc1 + 2) >> 2) * 0x01010101) in
  fill_rows 2 8 0 (fun j => if j =? 0 then dc0 else dc1) src.
Definition predict_8x8c_dc (src : mem) : mem :=
  let s0 := sum_ 4 (fun i => src (i - FDEC_STRIDE)) in
  let s1 := sum_ 4 (fun i => src (i + 4 - FDEC_STRIDE)) in
  let s2 := sum_ 4 (fun i => src (-1 + i * FDEC_STRIDE)) in
  let s3 := sum_ 4 (fun i => src (-1 + (i+4)*FDEC_STRIDE)) in
  let dc0 := u32 (((s0 + s2 + 4) >> 3) * 0x01010101) in
  let dc1 := u32 (((s1 + 2) >> 2) * 0x01010101) in
  let dc2 := u32 (((s3 + 2) >> 2) * 0x01010101) in
  let dc3 := u32 (((s1 + s3 + 4) >> 3) * 0x01010101) in
  fill_rows 2 4 4 (fun j => if j =? 0 then dc2 else dc3) (fill_rows 2 4 0 (fun j => if j =? 0 then dc0 else dc1) src).
Definition predict_8x8c_h (src : mem) : mem :=
  for_ 8 0 (fun i src =>
    let v := u32 (0x01010101 * src (i * FDEC_STRIDE - 1)) in
    for_ 2 0 (fun j src => st32 src (i * FDEC_STRIDE + 4 * j) v) src) src.
Definition predict_8x8c_v (src : mem) : mem := fill_rows 2 8 0 (fun j => ld32 src (4 * j - FDEC_STRIDE)) src.
Definition predict_8x8c_p (src : mem) : mem :=
  let H := sum_ 4 (fun i => (i + 1) * (src (4+i - FDEC_STRIDE) - src (2 - i - FDEC_STRIDE))) in
  let V := sum_ 4 (fun i => (i + 1) * (src (-1 + (i+4)*FDEC_STRIDE) - src (-1 + (2-i)*FDEC_STRIDE))) in
  let a := 16 * (src (-1 + 7*FDEC_STRIDE) + src (7 - FDEC_STRIDE)) in
  let b := (17 * H + 16) >> 5 in
  let c := (17 * V + 16) >> 5 in
  plane_rows 8 (a - 3*b - 3*c + 16) b c src.

(** ** 4x4 *)
Definition PREDICT_4x4_DC (v : Z) : mem -> mem := put32 [(0, 0); (0, 1); (0, 2); (0, 3)] v.
Definition predict_4x4_dc_128 (src : mem) : mem := PREDICT_4x4_DC 0x80808080 src.
Definition predict_4x4_dc_left (src : mem) : mem :=
  PREDICT_4x4_DC (u32 (((SRC src (-1) 0 + SRC src (-1) 1 + SRC src (-1) 2 + SRC src (-1) 3 + 2) >> 2) * 0x01010101)) src.
Definition predict_4x4_dc_top (src : mem) : mem :=
  PREDICT_4x4_DC (u32 (((SRC src 0 (-1) + SRC src 1 (-1) + SRC src 2 (-1) + SRC src 3 (-1) + 2) >> 2) * 0x01010101)) src.
Definition predict_4x4_dc (src : mem) : mem :=
  PREDICT_4x4_DC (u32 (((SRC src (-1) 0 + SRC src (-1) 1 + SRC src (-1) 2 + SRC src (-1) 3 +
                         SRC src 0 (-1) + SRC src 1 (-1) + SRC src 2 (-1) + SRC src 3 (-1) + 4) >> 3) * 0x01010101)) src.
Definition predict_4x4_h (src : mem) : mem :=
  let src := put32 [(0, 0)] (u32 (SRC src (-1) 0 * 0x01010101)) src in
  let src := put32 [(0, 1)] (u32 (SRC src (-1) 1 * 0x01010101)) src in
  let src := put32 [(0, 2)] (u32 (SRC src (-1) 2 * 0x01010101)) src in
  put32 [(0, 3)] (u32 (SRC src (-1) 3 * 0x01010101)) src.
Definition predict_4x4_v (src : mem) : mem := PREDICT_4x4_DC (SRC32 src 0 (-1)) src.

Definition predict_4x4_ddl (src : mem) : mem :=
  let t0 := SRC src 0 (-1) in let t1 := SRC src 1 (-1) in let t2 := SRC src 2 (-1) in let t3 := SRC src 3 (-1) in
  let t4 := SRC src 4 (-1) in let t5 := SRC src 5 (-1) in let t6 := SRC src 6 (-1) in let t7 := SRC src 7 (-1) in
  let src := put [(0, 0)] (F2 t0 t1 t2) src in
  let src := put [(1, 0); (0, 1)] (F2 t1 t2 t3) src in
  let src := put [(2, 0); (1, 1); (0, 2)] (F2 t2 t3 t4) src in
  let src := put [(3, 0); (2, 1); (1, 2); (0, 3)] (F2 t3 t4 t5) src in
  let src := put [(3, 1); (2, 2); (1, 3)] (F2 t4 t5 t6) src in
  let src := put [(3, 2); (2, 3)] (F2 t5 t6 t7) src in
  put [(3, 3)] (F2 t6 t7 t7) src.

Definition predict_4x4_ddr (src : mem) : mem :=
  let lt := SRC src (-1) (-1) in
  let l0 := SRC src (-1) 0 in let l1 := SRC src (-1) 1 in let l2 := SRC src (-1) 2 in let l3 := SRC src (-1) 3 in
  let t0 := SRC src 0 (-1) in let t1 := SRC src 1 (-1) in let t2 := SRC src 2 (-1) in let t3 := SRC src 3 (-1) in
  let src := put [(3, 0)] (F2 t3 t2 t1) src in
  let src := put [(2, 0); (3, 1)] (F2 t2 t1 t0) src in
  let src := put [(1, 0); (2, 1); (3, 2)] (F2 t1 t0 lt) src in
  let src := put [(0, 0); (1, 1); (2, 2); (3, 3)] (F2 t0 lt l0) src in
  let src := put [(0, 1); (1, 2); (2, 3)] (F2 lt l0 l1) src in
  let src := put [(0, 2); (1, 3)] (F2 l0 l1 l2) src in
  put [(0, 3)] (F2 l1 l2 l3) src.

Definition predict_4x4_vr (src : mem) : mem :=
  let lt := SRC src (-1) (-1) in
  let l0 := SRC src (-1) 0 in let l1 := SRC src (-1) 1 in let l2 := SRC src (-1) 2 in
  let t0 := SRC src 0 (-1) in let t1 := SRC src 1 (-1) in let t2 := SRC src 2 (-1) in let t3 := SRC src 3 (-1) in
  let src := put [(0, 3)] (F2 l2 l1 l0) src in
  let src := put [(0, 2)] (F2 l1 l0 lt) src in
  let src := put [(0, 1); (1, 3)] (F2 l0 lt t0) src in
  let src := put [(0, 0); (1, 2)] (F1 lt t0) src in
  let src := put [(1, 1); (2, 3)] (F2 lt t0 t1) src in
  let src := put [(1, 0); (2, 2)] (F1 t0 t1) src in
  let src := put [(2, 1); (3, 3)] (F2 t0 t1 t2) src in
  let src := put [(2, 0); (3, 2)] (F1 t1 t2) src in
  let src := put [(3, 1)] (F2 t1 t2 t3) src in
  put [(3, 0)] (F1 t2 t3) src.

Definition predict_4x4_hd (src : mem) : mem :=
  let lt := SRC src (-1) (-1) in
  let l0 := SRC src (-1) 0 in let l1 := SRC src (-1) 1 in let l2 := SRC src (-1) 2 in let l3 := SRC src (-1) 3 in
  let t0 := SRC src 0 (-1) in let t1 := SRC src 1 (-1) in let t2 := SRC src 2 (-1) in
  let src := put [(0, 3)] (F1 l2 l3) src in
  let src := put [(1, 3)] (F2 l1 l2 l3) src in
  let src := put [(0, 2); (2, 3)] (F1 l1 l2) src in
  let src := put [(1, 2); (3, 3)] (F2 l0 l1 l2) src in
  let src := put [(0, 1); (2, 2)] (F1 l0 l1) src in
  let src := put [(1, 1); (3, 2)] (F2 lt l0 l1) src in
  let src := put [(0, 0); (2, 1)] (F1 lt l0) src in
  let src := put [(1, 0); (3, 1)] (F2 t0 lt l0) src in
  let src := put [(2, 0)] (F2 t1 t0 lt) src in
  put [(3, 0)] (F2 t2 t1 t0) src.

Definition predict_4x4_vl (src : mem) : mem :=
  let t0 := SRC src 0 (-1) in let t1 := SRC src 1 (-1) in let t2 := SRC src 2 (-1) in let t3 := SRC src 3 (-1) in
  let t4 := SRC src 4 (-1) in let t5 := SRC src 5 (-1) in let t6 := SRC src 6 (-1) in
  let src := put [(0, 0)] (F1 t0 t1) src in
  let src := put [(0, 1)] (F2 t0 t1 t2) src in
  let src := put [(1, 0); (0, 2)] (F1 t1 t2) src in
  let src := put [(1, 1); (0, 3)] (F2 t1 t2 t3) src in
  let src := put [(2, 0); (1, 2)] (F1 t2 t3) src in
  let src := put [(2, 1); (1, 3)] (F2 t2 t3 t4) src in
  let src := put [(3, 0); (2, 2)] (F1 t3 t4) src in
  let src := put [(3, 1); (2, 3)] (F2 t3 t4 t5) src in
  let src := put [(3, 2)] (F1 t4 t5) src in
  put [(3, 3)] (F2 t4 t5 t6) src.

Definition predict_4x4_hu (src : mem) : mem :=
  let l0 := SRC src (-1) 0 in let l1 := SRC src (-1) 1 in let l2 := SRC src (-1) 2 in let l3 := SRC src (-1) 3 in
  let src := put [(0, 0)] (F1 l0 l1) src in
  let src := put [(1, 0)] (F2 l0 l1 l2) src in
  let src := put [(2, 0); (0, 1)] (F1 l1 l2) src in
  let src := put [(3, 0); (1, 1)] (F2 l1 l2 l3) src in
  let src := put [(2, 1); (0, 2)] (F1 l2 l3) src in
  let src := put [(3, 1); (1, 2)] (F2 l2 l3 l3) src in
  put [(3, 2); (1, 3); (0, 3); (2, 2); (2, 3); (3, 3)] l3 src.

(** ** 8x8 *)

(** [edge] is filled where the mode needs it; 7 to 14 are the left samples from the bottom,
    15 the corner, 16 to 31 the samples above and to the right. *)
Definition x264_predict_8x8_filter (src : mem) (edge : Z -> Z) (i_neighbor i_filters : Z) : Z -> Z :=
  let have_lt := i2b (i_neighbor .& MB_TOPLEFT) in
  let PL y edge := upd edge (14 - y) (u8 (F2 (SRC src (-1) (y-1)) (SRC src (-1) y) (SRC src (-1) (y+1)))) in
  let PT x edge := upd edge (16 + x) (u8 (F2 (SRC src (x-1) (-1)) (SRC src x (-1)) (SRC src (x+1) (-1)))) in
  let edge :=
    if i2b (i_filters .& MB_LEFT) then
      let edge := upd edge 15 (u8 ((SRC src (-1) 0 + 2 * SRC src (-1) (-1) + SRC src 0 (-1) + 2) >> 2)) in
      let edge := upd edge 14 (u8 (((if have_lt then SRC src (-1) (-1) else SRC src (-1) 0) + 2 * SRC src (-1) 0 + SRC src (-1) 1 + 2) >> 2)) in
      let edge := PL 6 (PL 5 (PL 4 (PL 3 (PL 2 (PL 1 edge))))) in
      upd edge 7 (u8 ((SRC src (-1) 6 + 3 * SRC src (-1) 7 + 2) >> 2))
    else edge in
  if i2b (i_filters .& MB_TOP) then
    let have_tr := i2b (i_neighbor .& MB_TOPRIGHT) in
    let edge := upd edge 16 (u8 (((if have_lt then SRC src (-1) (-1) else SRC src 0 (-1)) + 2 * SRC src 0 (-1) + SRC src 1 (-1) + 2) >> 2)) in
    let edge := PT 6 (PT 5 (PT 4 (PT 3 (PT 2 (PT 1 edge))))) in
    let edge := upd edge 23 (u8 (((if have_tr then SRC src 8 (-1) else SRC src 7 (-1)) + 2 * SRC src 7 (-1) + SRC src 6 (-1) + 2) >> 2)) in
    if i2b (i_filters .& MB_TOPRIGHT) then
      if have_tr then
        let edge := PT 14 (PT 13 (PT 12 (PT 11 (PT 10 (PT 9 (PT 8 edge)))))) in
        let v := u8 ((SRC src 14 (-1) + 3 * SRC src 15 (-1) + 2) >> 2) in
        upd (upd edge 32 v) 31 v
      else
        upd (st64 edge 24 (u64 (SRC src 7 (-1) * 0x0101010101010101))) 32 (SRC src 7 (-1))
    else edge
  else edge.

Definition PREDICT_8x8_DC (v : Z) : mem -> mem := fill_rows 2 8 0 (fun _ => v).
Definition predict_8x8_dc_128 (src : mem) (edge : Z -> Z) : mem := PREDICT_8x8_DC 0x80808080 src.
Definition predict_8x8_dc_left (src : mem) (edge : Z -> Z) : mem :=
  PREDICT_8x8_DC (u32 (((sum_ 8 (fun y => edge (14-y)) + 4) >> 3) * 0x01010101)) src.
Definition predict_8x8_dc_top (src : mem) (edge : Z -> Z) : mem :=
  PREDICT_8x8_DC (u32 (((sum_ 8 (fun x => edge (16+x)) + 4) >> 3) * 0x01010101)) src.
Definition predict_8x8_dc (src : mem) (edge : Z -> Z) : mem :=
  PREDICT_8x8_DC (u32 (((sum_ 8 (fun y => edge (14-y)) + sum_ 8 (fun x => edge (16+x)) + 8) >> 4) * 0x01010101)) src.
Definition predict_8x8_h (src : mem) (edge : Z -> Z) : mem :=
  for_ 8 0 (fun y src => put32 [(0, y); (4, y)] (u32 (0x01010101 * edge (14-y))) src) src.
Definition predict_8x8_v (src : mem) (edge : Z -> Z) : mem :=
  let top := ld64 edge 16 in
  for_ 8 0 (fun y src => st64 src (y * FDEC_STRIDE) top) src.
Definition predict_8x8_ddl (src : mem) (edge : Z -> Z) : mem :=
  let t0 := edge (16+0) in let t1 := edge (16+1) in let t2 := edge (16+2) in let t3 := edge (16+3) in let t4 := edge (16+4) in let t5 := edge (16+5) in let t6 := edge (16+6) in let t7 := edge (16+7) in
  let t8 := edge (16+8) in let t9 := edge (16+9) in let t10 := edge (16+10) in let t11 := edge (16+11) in let t12 := edge (16+12) in let t13 := edge (16+13) in let t14 := edge (16+14) in let t15 := edge (16+15) in
  let src := put [(0, 0)] (F2 t0 t1 t2) src in
  let src := put [(0, 1); (1, 0)] (F2 t1 t2 t3) src in
  let src := put [(0, 2); (1, 1); (2, 0)] (F2 t2 t3 t4) src in
  let src := put [(0, 3); (1, 2); (2, 1); (3, 0)] (F2 t3 t4 t5) src in
  let src := put [(0, 4); (1, 3); (2, 2); (3, 1); (4, 0)] (F2 t4 t5 t6) src in
  let src := put [(0, 5); (1, 4); (2, 3); (3, 2); (4, 1); (5, 0)] (F2 t5 t6 t7) src in
  let src := put [(0, 6); (1, 5); (2, 4); (3, 3); (4, 2); (5, 1); (6, 0)] (F2 t6 t7 t8) src in
  let src := put [(0, 7); (1, 6); (2, 5); (3, 4); (4, 3); (5, 2); (6, 1); (7, 0)] (F2 t7 t8 t9) src in
  let src := put [(1, 7); (2, 6); (3, 5); (4, 4); (5, 3); (6, 2); (7, 1)] (F2 t8 t9 t10) src in
  let src := put [(2, 7); (3, 6); (4, 5); (5, 4); (6, 3); (7, 2)] (F2 t9 t10 t11) src in
  let src := put [(3, 7); (4, 6); (5, 5); (6, 4); (7, 3)] (F2 t10 t11 t12) src in
  let src := put [(4, 7); (5, 6); (6, 5); (7, 4)] (F2 t11 t12 t13) src in
  let src := put [(5, 7); (6, 6); (7, 5)] (F2 t12 t13 t14) src in
  let src := put [(6, 7); (7, 6)] (F2 t13 t14 t15) src in
  put [(7, 7)] (F2 t14 t15 t15) src.

Definition predict_8x8_ddr (src : mem) (edge : Z -> Z) : mem :=
  let lt := edge 15 in
  let l0 := edge (14-0) in let l1 := edge (14-1) in let l2 := edge (14-2) in let l3 := edge (14-3) in let l4 := edge (14-4) in let l5 := edge (14-5) in let l6 := edge (14-6) in let l7 := edge (14-7) in
  let t0 := edge (16+0) in let t1 := edge (16+1) in let t2 := edge (16+2) in let t3 := edge (16+3) in let t4 := edge (16+4) in let t5 := edge (16+5) in let t6 := edge (16+6) in let t7 := edge (16+7) in
  let src := put [(0, 7)] (F2 l7 l6 l5) src in
  let src := put [(0, 6); (1, 7)] (F2 l6 l5 l4) src in
  let src := put [(0, 5); (1, 6); (2, 7)] (F2 l5 l4 l3) src in
  let src := put [(0, 4); (1, 5); (2, 6); (3, 7)] (F2 l4 l3 l2) src in
  let src := put [(0, 3); (1, 4); (2, 5); (3, 6); (4, 7)] (F2 l3 l2 l1) src in
  let src := put [(0, 2); (1, 3); (2, 4); (3, 5); (4, 6); (5, 7)] (F2 l2 l1 l0) src in
  let src := put [(0, 1); (1, 2); (2, 3); (3, 4); (4, 5); (5, 6); (6, 7)] (F2 l1 l0 lt) src in
  let src := put [(0, 0); (1, 1); (2, 2); (3, 3); (4, 4); (5, 5); (6, 6); (7, 7)] (F2 l0 lt t0) src in
  let src := put [(1, 0); (2, 1); (3, 2); (4, 3); (5, 4); (6, 5); (7, 6)] (F2 lt t0 t1) src in
  let src := put [(2, 0); (3, 1); (4, 2); (5, 3); (6, 4); (7, 5)] (F2 t0 t1 t2) src in
  let src := put [(3, 0); (4, 1); (5, 2); (6, 3); (7, 4)] (F2 t1 t2 t3) src in
  let src := put [(4, 0); (5, 1); (6, 2); (7, 3)] (F2 t2 t3 t4) src in
  let src := put [(5, 0); (6, 1); (7, 2)] (F2 t3 t4 t5) src in
  let src := put [(6, 0); (7, 1)] (F2 t4 t5 t6) src in
  put [(7, 0)] (F2 t5 t6 t7) src.

Definition predict_8x8_vr (src : mem) (edge : Z -> Z) : mem :=
  let lt := edge 15 in
  let l0 := edge (14-0) in let l1 := edge (14-1) in let l2 := edge (14-2) in let l3 := edge (14-3) in let l4 := edge (14-4) in let l5 := edge (14-5) in let l6 := edge (14-6) in
  let t0 := edge (16+0) in let t1 := edge (16+1) in let t2 := edge (16+2) in let t3 := edge (16+3) in let t4 := edge (16+4) in let t5 := edge (16+5) in let t6 := edge (16+6) in let t7 := edge (16+7) in
  let src := put [(0, 6)] (F2 l5 l4 l3) src in
  let src := put [(0, 7)] (F2 l6 l5 l4) src in
  let src := put [(0, 4); (1, 6)] (F2 l3 l2 l1) src in
  let src := put [(0, 5); (1, 7)] (F2 l4 l3 l2) src in
  let src := put [(0, 2); (1, 4); (2, 6)] (F2 l1 l0 lt) src in
  let src := put [(0, 3); (1, 5); (2, 7)] (F2 l2 l1 l0) src in
  let src := put [(0, 1); (1, 3); (2, 5); (3, 7)] (F2 l0 lt t0) src in
  let src := put [(0, 0); (1, 2); (2, 4); (3, 6)] (F1 lt t0) src in
  let src := put [(1, 1); (2, 3); (3, 5); (4, 7)] (F2 lt t0 t1) src in
  let src := put [(1, 0); (2, 2); (3, 4); (4, 6)] (F1 t0 t1) src in
  let src := put [(2, 1); (3, 3); (4, 5); (5, 7)] (F2 t0 t1 t2) src in
  let src := put [(2, 0); (3, 2); (4, 4); (5, 6)] (F1 t1 t2) src in
  let src := put [(3, 1); (4, 3); (5, 5); (6, 7)] (F2 t1 t2 t3) src in
  let src := put [(3, 0); (4, 2); (5, 4); (6, 6)] (F1 t2 t3) src in
  let src := put [(4, 1); (5, 3); (6, 5); (7, 7)] (F2 t2 t3 t4) src in
  let src := put [(4, 0); (5, 2); (6, 4); (7, 6)] (F1 t3 t4) src in
  let src := put [(5, 1); (6, 3); (7, 5)] (F2 t3 t4 t5) src in
  let src := put [(5, 0); (6, 2); (7, 4)] (F1 t4 t5) src in
  let src := put [(6, 1); (7, 3)] (F2 t4 t5 t6) src in
  let src := put [(6, 0); (7, 2)] (F1 t5 t6) src in
  let src := put [(7, 1)] (F2 t5 t6 t7) src in
  put [(7, 0)] (F1 t6 t7) src.

Definition predict_8x8_hd (src : mem) (edge : Z -> Z) : mem :=
  let lt := edge 15 in
  let l0 := edge (14-0) in let l1 := edge (14-1) in let l2 := edge (14-2) in let l3 := edge (14-3) in let l4 := edge (14-4) in let l5 := edge (14-5) in let l6 := edge (14-6) in let l7 := edge (14-7) in
  let t0 := edge (16+0) in let t1 := edge (16+1) in let t2 := edge (16+2) in let t3 := edge (16+3) in let t4 := edge (16+4) in let t5 := edge (16+5) in let t6 := edge (16+6) in
  let p1 := pack8to16 (F1 l6 l7) (F2 l5 l6 l7) in
  let p2 := pack8to16 (F1 l5 l6) (F2 l4 l5 l6) in
  let p3 := pack8to16 (F1 l4 l5) (F2 l3 l4 l5) in
  let p4 := pack8to16 (F1 l3 l4) (F2 l2 l3 l4) in
  let p5 := pack8to16 (F1 l2 l3) (F2 l1 l2 l3) in
  let p6 := pack8to16 (F1 l1 l2) (F2 l0 l1 l2) in
  let p7 := pack8to16 (F1 l0 l1) (F2 lt l0 l1) in
  let p8 := pack8to16 (F1 lt l0) (F2 l0 lt t0) in
  let p9 := pack8to16 (F2 t1 t0 lt) (F2 t2 t1 t0) in
  let p10 := pack8to16 (F2 t3 t2 t1) (F2 t4 t3 t2) in
  let p11 := pack8to16 (F2 t5 t4 t3) (F2 t6 t5 t4) in
  let src := put32 [(0, 7)] (pack16to32 p1 p2) src in
  let src := put32 [(0, 6)] (pack16to32 p2 p3) src in
  let src := put32 [(4, 7); (0, 5)] (pack16to32 p3 p4) src in
  let src := put32 [(4, 6); (0, 4)] (pack16to32 p4 p5) src in
  let src := put32 [(4, 5); (0, 3)] (pack16to32 p5 p6) src in
  let src := put32 [(4, 4); (0, 2)] (pack16to32 p6 p7) src in
  let src := put32 [(4, 3); (0, 1)] (pack16to32 p7 p8) src in
  let src := put32 [(4, 2); (0, 0)] (pack16to32 p8 p9) src in
  let src := put32 [(4, 1)] (pack16to32 p9 p10) src in
  put32 [(4, 0)] (pack16to32 p10 p11) src.

Definition predict_8x8_vl (src : mem) (edge : Z -> Z) : mem :=
  let t0 := edge (16+0) in let t1 := edge (16+1) in let t2 := edge (16+2) in let t3 := edge (16+3) in let t4 := edge (16+4) in let t5 := edge (16+5) in let t6 := edge (16+6) in let t7 := edge (16+7) in
  let t8 := edge (16+8) in let t9 := edge (16+9) in let t10 := edge (16+10) in let t11 := edge (16+11) in let t12 := edge (16+12) in
  let src := put [(0, 0)] (F1 t0 t1) src in
  let src := put [(0, 1)] (F2 t0 t1 t2) src in
  let src := put [(0, 2); (1, 0)] (F1 t1 t2) src in
  let src := put [(0, 3); (1, 1)] (F2 t1 t2 t3) src in
  let src := put [(0, 4); (1, 2); (2, 0)] (F1 t2 t3) src in
  let src := put [(0, 5); (1, 3); (2, 1)] (F2 t2 t3 t4) src in
  let src := put [(0, 6); (1, 4); (2, 2); (3, 0)] (F1 t3 t4) src in
  let src := put [(0, 7); (1, 5); (2, 3); (3, 1)] (F2 t3 t4 t5) src in
  let src := put [(1, 6); (2, 4); (3, 2); (4, 0)] (F1 t4 t5) src in
  let src := put [(1, 7); (2, 5); (3, 3); (4, 1)] (F2 t4 t5 t6) src in
  let src := put [(2, 6); (3, 4); (4, 2); (5, 0)] (F1 t5 t6) src in
  let src := put [(2, 7); (3, 5); (4, 3); (5, 1)] (F2 t5 t6 t7) src in
  let src := put [(3, 6); (4, 4); (5, 2); (6, 0)] (F1 t6 t7) src in
  let src := put [(3, 7); (4, 5); (5, 3); (6, 1)] (F2 t6 t7 t8) src in
  let src := put [(4, 6); (5, 4); (6, 2); (7, 0)] (F1 t7 t8) src in
  let src := put [(4, 7); (5, 5); (6, 3); (7, 1)] (F2 t7 t8 t9) src in
  let src := put [(5, 6); (6, 4); (7, 2)] (F1 t8 t9) src in
  let src := put [(5, 7); (6, 5); (7, 3)] (F2 t8 t9 t10) src in
  let src := put [(6, 6); (7, 4)] (F1 t9 t10) src in
  let src := put [(6, 7); (7, 5)] (F2 t9 t10 t11) src in
  let src := put [(7, 6)] (F1 t10 t11) src in
  put [(7, 7)] (F2 t10 t11 t12) src.

Definition predict_8x8_hu (src : mem) (edge : Z -> Z) : mem :=
  let l0 := edge (14-0) in let l1 := edge (14-1) in let l2 := edge (14-2) in let l3 := edge (14-3) in let l4 := edge (14-4) in let l5 := edge (14-5) in let l6 := edge (14-6) in let l7 := edge (14-7) in
  let p1 := pack8to16 (F1 l0 l1) (F2 l0 l1 l2) in
  let p2 := pack8to16 (F1 l1 l2) (F2 l1 l2 l3) in
  let p3 := pack8to16 (F1 l2 l3) (F2 l2 l3 l4) in
  let p4 := pack8to16 (F1 l3 l4) (F2 l3 l4 l5) in
  let p5 := pack8to16 (F1 l4 l5) (F2 l4 l5 l6) in
  let p6 := pack8to16 (F1 l5 l6) (F2 l5 l6 l7) in
  let p7 := pack8to16 (F1 l6 l7) (F2 l6 l7 l7) in
  let p8 := pack8to16 l7 l7 in
  let src := put32 [(0, 0)] (pack16to32 p1 p2) src in
  let src := put32 [(0, 1)] (pack16to32 p2 p3) src in
  let src := put32 [(4, 0); (0, 2)] (pack16to32 p3 p4) src in
  let src := put32 [(4, 1); (0, 3)] (pack16to32 p4 p5) src in
  let src := put32 [(4, 2); (0, 4)] (pack16to32 p5 p6) src in
  let src := put32 [(4, 3); (0, 5)] (pack16to32 p6 p7) src in
  let src := put32 [(4, 4); (0, 6)] (pack16to32 p7 p8) src in
  put32 [(4, 5); (4, 6); (0, 7); (4, 7)] (pack16to32 p8 p8) src.

(** ** Tables of the C functions ([x264_predict_16x16_init], ...) *)
Definition predict_16x16 : list (mem -> mem) :=
  [ predict_16x16_v; predict_16x16_h; predict_16x16_dc; predict_16x16_p;
    predict_16x16_dc_left; predict_16x16_dc_top; predict_16x16_dc_128 ].
Definition predict_8x8c : list (mem -> mem) :=
  [ predict_8x8c_dc; predict_8x8c_h; predict_8x8c_v; predict_8x8c_p;
    predict_8x8c_dc_left; predict_8x8c_dc_top; predict_8x8c_dc_128 ].
Definition predict_8x8 : list (mem -> (Z -> Z) -> mem) :=
  [ predict_8x8_v; predict_8x8_h; predict_8x8_dc; predict_8x8_ddl; predict_8x8_ddr; predict_8x8_vr;
    predict_8x8_hd; predict_8x8_vl; predict_8x8_hu; predict_8x8_dc_left; predict_8x8_dc_top; predict_8x8_dc_128 ].
Definition predict_4x4 : list (mem -> mem) :=
  [ predict_4x4_v; predict_4x4_h; predict_4x4_dc; predict_4x4_ddl; predict_4x4_ddr; predict_4x4_vr;
    predict_4x4_hd; predict_4x4_vl; predict_4x4_hu; predict_4x4_dc_left; predict_4x4_dc_top; predict_4x4_dc_128 ].

(** * Prediction of the standard (clause 8.3)

    [p x y] are the neighbouring samples of a block of [n] rows and columns, with [x] or [y]
    equal to -1; of 8x8 blocks they are filtered first. *)
Definition std_directional (mode n : Z) (p : Z -> Z -> Z) (x y : Z) : Z :=
  let top i := p i (-1) in let left i := p (-1) i in
  if mode =? 0 then top x
  else if mode =? 1 then left y
  else if mode =? 3 then (* diagonal down left *)
    if (x =? n - 1) && (y =? n - 1) then F2 (top (2*n-2)) (top (2*n-1)) (top (2*n-1))
    else F2 (top (x+y)) (top (x+y+1)) (top (x+y+2))
  else if mode =? 4 then (* diagonal down right *)
    if y <? x then F2 (top (x-y-2)) (top (x-y-1)) (top (x-y))
    else if x <? y then F2 (left (y-x-2)) (left (y-x-1)) (left (y-x))
    else F2 (top 0) (top (-1)) (left 0)
  else if mode =? 5 then (* vertical right *)
    let z := 2*x - y in
    if 0 <=? z then
      if Z.even z then F1 (top (x-(y>>1)-1)) (top (x-(y>>1)))
      else F2 (top (x-(y>>1)-2)) (top (x-(y>>1)-1)) (top (x-(y>>1)))
    else if z =? -1 then F2 (left 0) (top (-1)) (top 0)
    else F2 (left (y-2*x-1)) (left (y-2*x-2)) (left (y-2*x-3))
  else if mode =? 6 then (* horizontal down *)
    let z := 2*y - x in
    if 0 <=? z then
      if Z.even z then F1 (left (y-(x>>1)-1)) (left (y-(x>>1)))
      else F2 (left (y-(x>>1)-2)) (left (y-(x>>1)-1)) (left (y-(x>>1)))
    else if z =? -1 then F2 (left 0) (top (-1)) (top 0)
    else F2 (top (x-2*y-1)) (top (x-2*y-2)) (top (x-2*y-3))
  else if mode =? 7 then (* vertical left *)
    if Z.even y then F1 (top (x+(y>>1))) (top (x+(y>>1)+1))
    else F2 (top (x+(y>>1))) (top (x+(y>>1)+1)) (top (x+(y>>1)+2))
  else (* horizontal up *)
    let z := x + 2*y in
    if z >? 2*n-3 then left (n-1)
    else if z =? 2*n-3 then F2 (left (n-2)) (left (n-1)) (left (n-1))
    else if Z.even z then F1 (left (y+(x>>1))) (left (y+(x>>1)+1))
    else F2 (left (y+(x>>1))) (left (y+(x>>1)+1)) (left (y+(x>>1)+2)).

(** DC of [2 ^ k] rows and columns, with the neighbours that are available. *)
Definition std_dc (k : Z) (has_left has_top : bool) (p : Z -> Z -> Z) : Z :=
  let n := 2 ^ k in
  let top := sum_ (Z.to_nat n) (fun x => p x (-1)) in let left := sum_ (Z.to_nat n) (fun y => p (-1) y) in
  if has_left && has_top then (left + top + n) >> (k + 1)
  else if has_left then (left + n / 2) >> k
  else if has_top then (top + n / 2) >> k
  else 128.

(** The modes the encoder distinguishes by the neighbours it has. *)
Definition std_4x4 (mode : Z) (p : Z -> Z -> Z) (x y : Z) : Z :=
  if mode =? 2 then std_dc 2 true true p else if mode =? 9 then std_dc 2 true false p
  else if mode =? 10 then std_dc 2 false true p else if mode =? 11 then std_dc 2 false false p
  else std_directional mode 4 p x y.

(** * Properties *)
Definition predicts (n : Z) (std : Z -> Z -> Z) (before after : mem) : Prop :=
  (forall x y, 0 <= x < n -> 0 <= y < n -> SRC after x y = std x y) /\
  (forall q, ~ in_block 0 n q -> after q = before q).

Lemma byte_id v : 0 <= v < 256 -> u8 v = v.
Proof. intros. by apply uw_small. Qed.

Lemma F1_byte a b : 0 <= a < 256 -> 0 <= b < 256 -> 0 <= F1 a b < 256.
Proof. intros. unfold F1. rewrite Z.shiftr_div_pow2 by lia. change (2 ^ 1) with 2. pose proof (Z.div_mod (a + b + 1) 2). pose proof (Z.mod_pos_bound (a + b + 1) 2). lia. Qed.
Lemma F2_byte a b c : 0 <= a < 256 -> 0 <= b < 256 -> 0 <= c < 256 -> 0 <= F2 a b c < 256.
Proof. intros. unfold F2. rewrite Z.shiftr_div_pow2 by lia. change (2 ^ 2) with 4. pose proof (Z.div_mod (a + 2 * b + c + 2) 4). pose proof (Z.mod_pos_bound (a + 2 * b + c + 2) 4). lia. Qed.
Lemma F1_comm a b : F1 a b = F1 b a.
Proof. unfold F1. f_equal. lia. Qed.
Lemma F2_comm a b c : F2 a b c = F2 c b a.
Proof. unfold F2. f_equal. lia. Qed.
Create HintDb pred.
#[local] Hint Resolve F1_byte F2_byte : pred.

Ltac pred_sample := lazy -[F1 F2 uw]; rewrite ?byte_id by auto with pred; try reflexivity; (apply F2_comm || apply F1_comm).

Lemma predict_4x4_directional src x y : bytes_ok src -> 0 <= x < 4 -> 0 <= y < 4 ->
  SRC (predict_4x4_ddl src) x y = std_directional 3 4 (SRC src) x y /\
  SRC (predict_4x4_ddr src) x y = std_directional 4 4 (SRC src) x y /\
  SRC (predict_4x4_vr src) x y = std_directional 5 4 (SRC src) x y /\
  SRC (predict_4x4_hd src) x y = std_directional 6 4 (SRC src) x y /\
  SRC (predict_4x4_vl src) x y = std_directional 7 4 (SRC src) x y /\
  SRC (predict_4x4_hu src) x y = std_directional 8 4 (SRC src) x y.
Proof.
  intros Hs Hx Hy. unfold bytes_ok in Hs. each4 x; each4 y; repeat split; pred_sample.
Qed.

(** ** Stores *)
Lemma in_block_0 n x y : 0 <= x < n -> 0 <= y < n -> in_block 0 n (x + y * FDEC_STRIDE).
Proof. intros. exists y, x. repeat split; lia. Qed.

Definition coords_in (n : Z) (l : list (Z * Z)) : bool := forallb (fun '(x, y) => (0 <=? x) && (x <? n) && (0 <=? y) && (y <? n)) l.

Lemma put_out n l v src q : coords_in n l = true -> ~ in_block 0 n q -> put l v src q = src q.
Proof.
  intros Hl Hq. induction l as [|[x y] l IH]; [done|]. cbn [coords_in forallb] in Hl. apply andb_prop in Hl as [Hc Hl].
  cbn [put fold_right]. unfold st8. rewrite upd_ne; [by apply IH|]. intros ->. apply Hq. apply in_block_0; lia.
Qed.

Lemma st32_digits v b0 b1 b2 b3 src a : 0 <= b0 < 256 -> 0 <= b1 < 256 -> 0 <= b2 < 256 -> 0 <= b3 < 256 ->
  v = b0 + 256 * (b1 + 256 * (b2 + 256 * b3)) -> st32 src a v = st_bytes src a [b0; b1; b2; b3].
Proof.
  intros H0 H1 H2 H3 ->. unfold st32. rewrite <- (Z.add_0_r b3), <- (Z.mul_0_r 256) at 1. rewrite !le_bytes_cons by done. done.
Qed.

Lemma st32_rep b src a : 0 <= b < 256 -> st32 src a (u32 (b * 0x01010101)) = st_bytes src a [b; b; b; b].
Proof. intros Hb. apply st32_digits; try done. rewrite uw_small by lia. lia. Qed.

Lemma st32_copy m src a b : bytes_ok m -> st32 src a (ld32 m b) = st_bytes src a [m b; m (b + 1); m (b + 2); m (b + 3)].
Proof.
  intros Hm. apply st32_digits; [apply Hm..|]. unfold ld32, le_val. cbn [ld_bytes foldr].
  replace (b + 1 + 1) with (b + 2) by lia. replace (b + 2 + 1) with (b + 3) by lia. lia.
Qed.

Lemma st_bytes_out n src x y l q : 0 <= x -> x + Z.of_nat (length l) <= n -> 0 <= y < n -> ~ in_block 0 n q -> st_bytes src (x + y * FDEC_STRIDE) l q = src q.
Proof.
  intros Hx Hl Hy Hq. apply st_bytes_frame.
  destruct (Z.lt_decidable q (x + y * FDEC_STRIDE)); [by left|]. right. destruct (Z.le_decidable (x + y * FDEC_STRIDE + Z.of_nat (length l)) q); [done|].
  exfalso. apply Hq. exists y, (q - y * FDEC_STRIDE). repeat split; lia.
Qed.

Lemma st32_out n src x y v q : 0 <= x -> x + 4 <= n -> 0 <= y < n -> ~ in_block 0 n q -> st32 src (x + y * FDEC_STRIDE) v q = src q.
Proof. intros Hx Hl Hy Hq. unfold st32. apply (st_bytes_out n); [done|by rewrite length_le_bytes|done|done]. Qed.

Lemma put32_out n l v src q : forallb (fun '(x, y) => (0 <=? x) && (x + 4 <=? n) && (0 <=? y) && (y <? n)) l = true ->
  ~ in_block 0 n q -> put32 l v src q = src q.
Proof.
  intros Hl Hq. induction l as [|[x y] l IH]; [done|]. cbn [forallb] in Hl. apply andb_prop in Hl as [Hc Hl].
  cbn [put32 fold_right]. rewrite (st32_out n) by (done || lia). by apply IH.
Qed.

Lemma shiftr_byte v k : 0 <= k -> 0 <= v < 256 * 2 ^ k -> 0 <= v >> k < 256.
Proof.
  intros Hk Hv. rewrite Z.shiftr_div_pow2 by lia. pose proof (pow2_pos k Hk).
  split; [apply Z.div_pos; lia|apply Z.div_lt_upper_bound; lia].
Qed.

(** A loop of which one round at most writes the place [q]; [I] is kept by every round. *)
Lemma for_point (I : mem -> Prop) n lo (f : Z -> mem -> mem) m q i0 v : I m ->
  (forall i m, lo <= i < lo + Z.of_nat n -> I m -> I (f i m) /\ (i <> i0 -> f i m q = m q)) ->
  (forall m, lo <= i0 < lo + Z.of_nat n -> I m -> f i0 m q = v) ->
  I (for_ n lo f m) /\ for_ n lo f m q = if (lo <=? i0) && (i0 <? lo + Z.of_nat n) then v else m q.
Proof.
  intros H0 Hf Hv. revert Hf Hv. induction n as [|n IH]; intros Hf Hv; [cbn [for_]; by rewrite out_range_b by lia|].
  rewrite for_snoc. destruct IH as [HI E]; [intros; apply Hf; [lia|done]|intros; apply Hv; [lia|done]|].
  destruct (Hf (lo + Z.of_nat n) _ ltac:(lia) HI) as [HI' Hne]. split; [done|].
  destruct (Z.eq_dec (lo + Z.of_nat n) i0) as [<-|Hn].
  - rewrite in_range_b by lia. apply Hv; [lia|done].
  - rewrite Hne, E by done. destruct (Z.leb_spec lo i0); [|done]. cbn [andb].
    destruct (Z.ltb_spec i0 (lo + Z.of_nat n)), (Z.ltb_spec i0 (lo + Z.of_nat (S n))); done || lia.
Qed.

(** The words of one row, and of the rows of [fill_rows]; outside the block nothing changes. *)
Definition same_outside (n : Z) (src m : mem) : Prop := forall q, ~ in_block 0 n q -> m q = src q.

Lemma st32_row n src m y j v x : same_outside n src m -> 0 <= y < n -> 0 <= j -> 4 * j + 4 <= n -> n <= 16 ->
  same_outside n src (st32 m (y * FDEC_STRIDE + 4 * j) v) /\
  (forall y' , 0 <= x < n -> 0 <= y' < n -> (y', x / 4) <> (y, j) -> st32 m (y * FDEC_STRIDE + 4 * j) v (x + y' * FDEC_STRIDE) = m (x + y' * FDEC_STRIDE)).
Proof.
  intros Hm Hy Hj Hj' Hn. rewrite (Z.add_comm (y * _)). split.
  - intros q Hq. rewrite (st32_out n) by (done || lia). by apply Hm.
  - intros y' Hx Hy' Hne. apply st_bytes_frame. rewrite length_le_bytes. pose proof (Z.div_mod x 4 ltac:(lia)). pose proof (Z.mod_pos_bound x 4 ltac:(lia)).
    unfold FDEC_STRIDE. destruct (Z.eq_dec y' y) as [->|]; [|lia]. assert (x / 4 <> j) by congruence. lia.
Qed.

Lemma st32_rep_at src a b x : 0 <= b < 256 -> a <= x < a + 4 -> st32 src a (u32 (b * 0x01010101)) x = b.
Proof.
  intros Hb Hx. rewrite st32_rep by done. cbn [st_bytes]. unfold st8, upd. rewrite byte_id by done.
  repeat match goal with |- context [?u =? ?w] => destruct (Z.eqb_spec u w) end; lia || done.
Qed.

(** Rows of words: [V y j m] is the [j]th word of row [y], computed from the memory before
    the row; its bytes are the samples [g]. *)
Lemma rows_spec n (w h : nat) y0 (V : Z -> Z -> mem -> Z) (g : Z -> Z -> Z) (src : mem) :
  4 * Z.of_nat w = n -> 0 < n <= 16 -> 0 <= y0 -> y0 + Z.of_nat h <= n ->
  (forall m y j, same_outside n src m -> y0 <= y < y0 + Z.of_nat h -> 0 <= j < Z.of_nat w ->
     forall m' k, 0 <= k < 4 -> st32 m' (y * FDEC_STRIDE + 4 * j) (V y j m) (y * FDEC_STRIDE + 4 * j + k) = g (4 * j + k) y) ->
  let r := for_ h y0 (fun y m => for_ w 0 (fun j m' => st32 m' (y * FDEC_STRIDE + 4 * j) (V y j m)) m) src in
  same_outside n src r /\
  (forall x y, 0 <= x < n -> 0 <= y < n -> SRC r x y = if (y0 <=? y) && (y <? y0 + Z.of_nat h) then g x y else SRC src x y).
Proof.
  intros Hw Hn Hy0 Hh HV. cbv zeta.
  assert (forall x y m, 0 <= x < n -> 0 <= y < n -> forall i, y0 <= i < y0 + Z.of_nat h -> same_outside n src m ->
    let r := for_ w 0 (fun j m' => st32 m' (i * FDEC_STRIDE + 4 * j) (V i j m)) m in
    same_outside n src r /\ r (x + y * FDEC_STRIDE) = if i =? y then g x y else m (x + y * FDEC_STRIDE)) as R.
  { intros x y m Hx Hy i Hi Hm. pose proof (Z.div_mod x 4 ltac:(lia)) as D. pose proof (Z.mod_pos_bound x 4 ltac:(lia)) as M.
    pose proof (fun j m' (Hj : 0 <= j < 0 + Z.of_nat w) (Hm' : same_outside n src m') => st32_row n src m' i j (V i j m) x Hm' ltac:(lia) (proj1 Hj) ltac:(lia) (proj2 Hn)) as S. cbv zeta.
    destruct (Z.eqb_spec i y) as [->|Hne].
    - destruct (for_point (same_outside n src) w 0 (fun j m' => st32 m' (y * FDEC_STRIDE + 4 * j) (V y j m)) m (x + y * FDEC_STRIDE) (x / 4) (g x y) Hm) as [RI RE].
      + intros j m' Hj Hm'. destruct (S j m' Hj Hm') as [S1 S2]. split; [done|]. intros Hne. apply S2; [done|done|congruence].
      + intros m' Hj Hm'. pose proof (HV m y (x / 4) Hm Hi Hj m' (x mod 4) M) as E. rewrite <- D in E.
        replace (x + y * FDEC_STRIDE) with (y * FDEC_STRIDE + 4 * (x / 4) + x mod 4) by lia. done.
      + split; [done|]. rewrite RE, in_range_b; [done|]. split; [apply Z.div_pos; lia|]. apply Z.div_lt_upper_bound; lia.
    - destruct (for_point (same_outside n src) w 0 (fun j m' => st32 m' (i * FDEC_STRIDE + 4 * j) (V i j m)) m (x + y * FDEC_STRIDE) (-1) 0 Hm) as [RI RE].
      + intros j m' Hj Hm'. destruct (S j m' Hj Hm') as [S1 S2]. split; [done|]. intros _. apply S2; [done|done|congruence].
      + lia.
      + done. }
  assert (forall x y, 0 <= x < n -> 0 <= y < n ->
    let r := for_ h y0 (fun y m => for_ w 0 (fun j m' => st32 m' (y * FDEC_STRIDE + 4 * j) (V y j m)) m) src in
    same_outside n src r /\ r (x + y * FDEC_STRIDE) = if (y0 <=? y) && (y <? y0 + Z.of_nat h) then g x y else SRC src x y) as K.
  { intros x y Hx Hy.
    apply (for_point (same_outside n src) h y0 (fun y m => for_ w 0 (fun j m' => st32 m' (y * FDEC_STRIDE + 4 * j) (V y j m)) m) src (x + y * FDEC_STRIDE) y (g x y)); [done|..].
    + intros i m Hi Hm. destruct (R x y m Hx Hy i Hi Hm) as [R1 R2]. split; [done|]. intros Hne. rewrite R2. by apply Z.eqb_neq in Hne as ->.
    + intros m Hi Hm. destruct (R x y m Hx Hy y Hi Hm) as [_ R2]. by rewrite R2, Z.eqb_refl. }
  split; [by apply (K 0 0); lia|]. intros x y Hx Hy. by apply K.
Qed.

(** ** 4x4 *)
Lemma predict_4x4_flat d src x y : 0 <= d < 256 -> 0 <= x < 4 -> 0 <= y < 4 -> SRC (PREDICT_4x4_DC (u32 (d * 0x01010101)) src) x y = d.
Proof. intros Hd Hx Hy. unfold PREDICT_4x4_DC, put32. cbn [fold_right]. rewrite !st32_rep by done. each4 x; each4 y; by pred_sample. Qed.

Lemma sum_bytes n (f : Z -> Z) : (forall i, 0 <= f i < 256) -> 0 <= sum_ n f <= 255 * Z.of_nat n.
Proof.
  intros Hf. unfold sum_. refine (for_inv (fun k s => 0 <= s <= 255 * k) n 0 _ 0 _ _); [lia|].
  intros i s Hi Hs. specialize (Hf i). lia.
Qed.

Lemma std_dc_byte k l t p : 0 <= k -> (forall x y, 0 <= p x y < 256) -> 0 <= std_dc k l t p < 256.
Proof.
  intros Hk Hp. unfold std_dc. pose proof (pow2_pos k Hk). set (n := 2 ^ k) in *.
  pose proof (sum_bytes (Z.to_nat n) (fun x => p x (-1)) ltac:(intros; apply Hp)). pose proof (sum_bytes (Z.to_nat n) (fun y => p (-1) y) ltac:(intros; apply Hp)).
  assert (0 <= n / 2 < n) by (split; [apply Z.div_pos; lia|apply Z.div_lt; lia]).
  destruct l, t; cbn [andb]; [..|lia].
  - apply shiftr_byte; [lia|]. rewrite Z.pow_add_r by lia. fold n. change (2 ^ 1) with 2. lia.
  - apply shiftr_byte; [lia|]. fold n. lia.
  - apply shiftr_byte; [lia|]. fold n. lia.
Qed.

Lemma sum_4 f : sum_ 4 f = f 0 + f 1 + f 2 + f 3.
Proof. reflexivity. Qed.
Lemma sum_8 f : sum_ 8 f = f 0 + f 1 + f 2 + f 3 + f 4 + f 5 + f 6 + f 7.
Proof. reflexivity. Qed.
Ltac std_sums := unfold std_dc; cbn [andb]; change (Z.to_nat (2 ^ 2)) with 4%nat; change (Z.to_nat (2 ^ 3)) with 8%nat;
  rewrite ?sum_4, ?sum_8; change (2 ^ 2) with 4; change (2 ^ 3) with 8; f_equal; lia.

Lemma predict_4x4_others src x y : bytes_ok src -> 0 <= x < 4 -> 0 <= y < 4 ->
  SRC (predict_4x4_dc src) x y = std_dc 2 true true (SRC src) /\
  SRC (predict_4x4_dc_left src) x y = std_dc 2 true false (SRC src) /\
  SRC (predict_4x4_dc_top src) x y = std_dc 2 false true (SRC src) /\
  SRC (predict_4x4_dc_128 src) x y = std_dc 2 false false (SRC src) /\
  SRC (predict_4x4_v src) x y = std_directional 0 4 (SRC src) x y /\
  SRC (predict_4x4_h src) x y = std_directional 1 4 (SRC src) x y.
Proof.
  intros Hs Hx Hy.
  assert (forall l t, 0 <= std_dc 2 l t (SRC src) < 256) as Hd by (intros; apply std_dc_byte; [done|intros; apply Hs]).
  repeat split.
  - unfold predict_4x4_dc. match goal with |- context [u32 ((?v >> ?k) * _)] => replace (v >> k) with (std_dc 2 true true (SRC src)) by std_sums end. by apply predict_4x4_flat.
  - unfold predict_4x4_dc_left. match goal with |- context [u32 ((?v >> ?k) * _)] => replace (v >> k) with (std_dc 2 true false (SRC src)) by std_sums end. by apply predict_4x4_flat.
  - unfold predict_4x4_dc_top. match goal with |- context [u32 ((?v >> ?k) * _)] => replace (v >> k) with (std_dc 2 false true (SRC src)) by std_sums end. by apply predict_4x4_flat.
  - by rewrite <- (predict_4x4_flat (std_dc 2 false false (SRC src)) src x y) by done.
  - unfold predict_4x4_v, PREDICT_4x4_DC, put32, SRC32. cbn [fold_right]. rewrite !st32_copy by done. unfold bytes_ok in Hs. each4 x; each4 y; pred_sample.
  - unfold predict_4x4_h, put32. cbn [fold_right]. rewrite !st32_rep by apply Hs. unfold bytes_ok in Hs. each4 x; each4 y; pred_sample.
Qed.

Lemma nth_cases {A} (P : Z -> A -> Prop) (l : list A) d mode : Forall2 P (seqZ 0 (Z.of_nat (length l))) l ->
  0 <= mode < Z.of_nat (length l) -> P mode (nth (Z.to_nat mode) l d).
Proof.
  intros H Hm. destruct (lookup_lt_is_Some_2 l (Z.to_nat mode) ltac:(lia)) as [f Ef].
  rewrite (nth_lookup_Some l _ d f Ef). apply (Forall2_lookup_lr _ _ _ (Z.to_nat mode) mode f H); [|done].
  apply lookup_seqZ. lia.
Qed.

Theorem predict_4x4_spec mode src : bytes_ok src -> 0 <= mode < 12 ->
  predicts 4 (std_4x4 mode (SRC src)) src (nth (Z.to_nat mode) predict_4x4 id src).
Proof.
  intros Hs. apply (nth_cases (fun mode f => predicts 4 (std_4x4 mode (SRC src)) src (f src)) predict_4x4).
  cbn [length Z.of_nat predict_4x4].
  assert (forall x y, 0 <= x < 4 -> 0 <= y < 4 -> _) as D by (intros x y Hx Hy; exact (predict_4x4_directional src x y Hs Hx Hy)).
  assert (forall x y, 0 <= x < 4 -> 0 <= y < 4 -> _) as O by (intros x y Hx Hy; exact (predict_4x4_others src x y Hs Hx Hy)).
  repeat (apply List.Forall2_cons; [split; [intros x y Hx Hy; (apply O || apply D); done|]|]); try apply List.Forall2_nil; intros q Hq.
  all: try (unfold predict_4x4_v, predict_4x4_h, predict_4x4_dc, predict_4x4_dc_left, predict_4x4_dc_top, predict_4x4_dc_128, PREDICT_4x4_DC;
     cbv zeta; rewrite !(put32_out 4) by done; done).
  all: try (unfold predict_4x4_ddl, predict_4x4_ddr, predict_4x4_vr, predict_4x4_hd, predict_4x4_vl, predict_4x4_hu;
     cbv zeta; rewrite !(put_out 4) by done; done).
Qed.

(** ** 8x8 *)

(** The filtered neighbours in [edge]. *)
Definition edge_at (edge : Z -> Z) (x y : Z) : Z := if y =? -1 then edge (16 + x) else edge (14 - y).
Definition std_8x8 (mode : Z) (p : Z -> Z -> Z) (x y : Z) : Z :=
  if mode =? 2 then std_dc 3 true true p else if mode =? 9 then std_dc 3 true false p
  else if mode =? 10 then std_dc 3 false true p else if mode =? 11 then std_dc 3 false false p
  else std_directional mode 8 p x y.

Ltac each8 i := let H := fresh in
  assert (i = 0 \/ i = 1 \/ i = 2 \/ i = 3 \/ i = 4 \/ i = 5 \/ i = 6 \/ i = 7) as H by lia; destruct H as [->|[->|[->|[->|[->|[->|[->| ->]]]]]]].

Lemma st32_pack a b c d src o : 0 <= a < 256 -> 0 <= b < 256 -> 0 <= c < 256 -> 0 <= d < 256 ->
  st32 src o (pack16to32 (pack8to16 a b) (pack8to16 c d)) = st_bytes src o [a; b; c; d].
Proof.
  intros Ha Hb Hc Hd. apply st32_digits; try done. unfold pack16to32, pack8to16.
  rewrite !Z.shiftl_mul_pow2 by lia. change (2 ^ 8) with 256. change (2 ^ 16) with 65536. rewrite !(uw_small 32) by (change (2 ^ 32) with 4294967296; lia || (rewrite !uw_small; change (2 ^ 32) with 4294967296; lia)). lia.
Qed.

Lemma predict_8x8_directional src edge x y : bytes_ok edge -> 0 <= x < 8 -> 0 <= y < 8 ->
  SRC (predict_8x8_ddl src edge) x y = std_directional 3 8 (edge_at edge) x y /\
  SRC (predict_8x8_ddr src edge) x y = std_directional 4 8 (edge_at edge) x y /\
  SRC (predict_8x8_vr src edge) x y = std_directional 5 8 (edge_at edge) x y /\
  SRC (predict_8x8_vl src edge) x y = std_directional 7 8 (edge_at edge) x y.
Proof. intros Hs Hx Hy. unfold bytes_ok in Hs. each8 x; each8 y; repeat split; pred_sample. Qed.

Lemma predict_8x8_packed src edge x y : bytes_ok edge -> 0 <= x < 8 -> 0 <= y < 8 ->
  SRC (predict_8x8_hd src edge) x y = std_directional 6 8 (edge_at edge) x y /\
  SRC (predict_8x8_hu src edge) x y = std_directional 8 8 (edge_at edge) x y.
Proof.
  intros Hs Hx Hy. unfold bytes_ok in Hs. unfold predict_8x8_hd, predict_8x8_hu, put32. cbv zeta. cbn [fold_right].
  rewrite !st32_pack by auto with pred. each8 x; each8 y; split; pred_sample.
Qed.

(** Rows of words that repeat a byte of the row. *)
Lemma fill_rows_rep n (w h : nat) y0 (d : Z -> Z) src : 4 * Z.of_nat w = n -> 0 < n <= 16 -> 0 <= y0 -> y0 + Z.of_nat h <= n ->
  (forall j, 0 <= d j < 256) ->
  let r := fill_rows w h y0 (fun j => u32 (d j * 0x01010101)) src in
  same_outside n src r /\ (forall x y, 0 <= x < n -> 0 <= y < n -> SRC r x y = if (y0 <=? y) && (y <? y0 + Z.of_nat h) then d (x / 4) else SRC src x y).
Proof.
  intros Hw Hn Hy0 Hh Hd. apply (rows_spec n w h y0 (fun _ j _ => u32 (d j * 0x01010101)) (fun x _ => d (x / 4))); try done.
  intros m y j _ _ Hj m' k Hk. rewrite st32_rep_at by (done || lia). f_equal. symmetry. rewrite (Z.mul_comm 4), Z.div_add_l, Z.div_small by lia. lia.
Qed.

Lemma fill_flat n (w : nat) d src : 4 * Z.of_nat w = n -> 0 < n <= 16 -> 0 <= d < 256 ->
  predicts n (fun _ _ => d) src (fill_rows w (Z.to_nat n) 0 (fun _ => u32 (d * 0x01010101)) src).
Proof.
  intros Hw Hn Hd. destruct (fill_rows_rep n w (Z.to_nat n) 0 (fun _ => d) src Hw Hn ltac:(lia) ltac:(lia) ltac:(done)) as [H1 H2].
  split; [|exact H1]. intros x y Hx Hy. by rewrite H2, in_range_b by lia.
Qed.

Lemma predicts_ext n s s' src after : (forall x y, 0 <= x < n -> 0 <= y < n -> s x y = s' x y) -> predicts n s src after -> predicts n s' src after.
Proof. intros E [H1 H2]. split; [|done]. intros x y Hx Hy. rewrite <- E by done. by apply H1. Qed.

Lemma st64_out n src y v q : 8 <= n -> 0 <= y < n -> ~ in_block 0 n q -> st64 src (y * FDEC_STRIDE) v q = src q.
Proof. intros Hn Hy Hq. apply (st_bytes_out n _ 0 y); [done|by rewrite length_le_bytes|done|done]. Qed.

Lemma st64_copy m src a b : bytes_ok m -> st64 src a (ld64 m b) = st_bytes src a (ld_bytes 8 m b).
Proof. intros Hm. unfold st64, ld64. f_equal. rewrite <- (length_ld_bytes 8 m b) at 1. apply le_bytes_val. by apply ld_bytes_ok. Qed.

Lemma edge_at_byte edge x y : bytes_ok edge -> 0 <= edge_at edge x y < 256.
Proof. intros He. unfold edge_at. destruct (_ =? _); apply He. Qed.

Lemma predict_8x8_others src edge : bytes_ok edge ->
  predicts 8 (std_directional 0 8 (edge_at edge)) src (predict_8x8_v src edge) /\
  predicts 8 (std_directional 1 8 (edge_at edge)) src (predict_8x8_h src edge) /\
  predicts 8 (fun _ _ => std_dc 3 true true (edge_at edge)) src (predict_8x8_dc src edge) /\
  predicts 8 (fun _ _ => std_dc 3 true false (edge_at edge)) src (predict_8x8_dc_left src edge) /\
  predicts 8 (fun _ _ => std_dc 3 false true (edge_at edge)) src (predict_8x8_dc_top src edge) /\
  predicts 8 (fun _ _ => std_dc 3 false false (edge_at edge)) src (predict_8x8_dc_128 src edge).
Proof.
  intros He.
  assert (forall l t, 0 <= std_dc 3 l t (edge_at edge) < 256) as Hd by (intros; apply std_dc_byte; [done|intros; by apply edge_at_byte]).
  assert (forall l t, predicts 8 (fun _ _ => std_dc 3 l t (edge_at edge)) src (PREDICT_8x8_DC (u32 (std_dc 3 l t (edge_at edge) * 0x01010101)) src)) as F
    by (intros; by apply (fill_flat 8 2)).
  split; [|split; [|split; [|split; [|split]]]].
  - unfold predict_8x8_v. cbv zeta. cbn [for_]. rewrite !st64_copy by done. split.
    + intros x y Hx Hy. unfold bytes_ok in He. each8 x; each8 y; pred_sample.
    + intros q Hq. rewrite <- !st64_copy by done. rewrite !(st64_out 8) by (done || lia). done.
  - unfold predict_8x8_h, put32. cbn [for_ fold_right]. split.
    + intros x y Hx Hy. rewrite !(Z.mul_comm 0x01010101), !st32_rep by apply He. unfold bytes_ok in He. each8 x; each8 y; pred_sample.
    + intros q Hq. rewrite !(st32_out 8) by (done || lia). done.
  - unfold predict_8x8_dc. replace ((_ + _ + 8) >> 4) with (std_dc 3 true true (edge_at edge)) by std_sums. apply F.
  - unfold predict_8x8_dc_left. replace ((_ + 4) >> 3) with (std_dc 3 true false (edge_at edge)) by std_sums. apply F.
  - unfold predict_8x8_dc_top. replace ((_ + 4) >> 3) with (std_dc 3 false true (edge_at edge)) by std_sums. apply F.
  - apply (F false false).
Qed.

Lemma predict_8x8_spec mode src edge : bytes_ok edge -> 0 <= mode < 12 ->
  predicts 8 (std_8x8 mode (edge_at edge)) src (nth (Z.to_nat mode) predict_8x8 (fun src _ => src) src edge).
Proof.
  intros He. apply (nth_cases (fun mode f => predicts 8 (std_8x8 mode (edge_at edge)) src (f src edge)) predict_8x8).
  cbn [length Z.of_nat predict_8x8].
  assert (forall x y, 0 <= x < 8 -> 0 <= y < 8 -> _) as D by (intros x y Hx Hy; exact (predict_8x8_directional src edge x y He Hx Hy)).
  assert (forall x y, 0 <= x < 8 -> 0 <= y < 8 -> _) as K by (intros x y Hx Hy; exact (predict_8x8_packed src edge x y He Hx Hy)).
  pose proof (predict_8x8_others src edge He) as (O1 & O2 & O3 & O4 & O5 & O6).
  assert (forall (f : mem -> (Z -> Z) -> mem) m, (forall x y, 0 <= x < 8 -> 0 <= y < 8 -> SRC (f src edge) x y = std_8x8 m (edge_at edge) x y) ->
    (forall q, ~ in_block 0 8 q -> f src edge q = src q) -> predicts 8 (std_8x8 m (edge_at edge)) src (f src edge)) as B by (by split).
  apply List.Forall2_cons; [exact O1|]. apply List.Forall2_cons; [exact O2|]. apply List.Forall2_cons; [exact O3|].
  apply List.Forall2_cons; [apply B; [apply D|]|]. 2: apply List.Forall2_cons; [apply B; [apply D|]|].
  3: apply List.Forall2_cons; [apply B; [apply D|]|]. 4: apply List.Forall2_cons; [apply B; [apply K|]|].
  5: apply List.Forall2_cons; [apply B; [apply D|]|]. 6: apply List.Forall2_cons; [apply B; [apply K|]|].
  7: apply List.Forall2_cons; [exact O4|]. 7: apply List.Forall2_cons; [exact O5|].
  7: apply List.Forall2_cons; [exact O6|]. 7: apply List.Forall2_nil.
  all: intros q Hq; unfold predict_8x8_ddl, predict_8x8_ddr, predict_8x8_vr, predict_8x8_vl, predict_8x8_hd, predict_8x8_hu; cbv zeta;
    rewrite ?(put32_out 8), ?(put_out 8) by done; done.
Qed.

(** *** Filtering of the neighbours (clause 8.3.2.2.1) *)

(** [lt] and [tr]: the corner and the samples above to the right are available. *)
Definition std_filter (lt tr : bool) (p : Z -> Z -> Z) (x y : Z) : Z :=
  let top i := if (7 <? i) && negb tr then p 7 (-1) else p i (-1) in let left i := p (-1) i in
  if y =? -1 then
    if x =? -1 then F2 (top 0) (p (-1) (-1)) (left 0)
    else if x =? 0 then F2 (if lt then p (-1) (-1) else top 0) (top 0) (top 1)
    else if x =? 15 then F2 (top 14) (top 15) (top 15)
    else F2 (top (x - 1)) (top x) (top (x + 1))
  else if y =? 0 then F2 (if lt then p (-1) (-1) else left 0) (left 0) (left 1)
  else if y =? 7 then F2 (left 6) (left 7) (left 7)
  else F2 (left (y - 1)) (left y) (left (y + 1)).

(** The neighbours a mode reads, by [x264_pred_i4x4_neighbors]. *)
Definition filtered_at (needs x y : Z) : bool :=
  if y =? -1 then (if x <? 0 then i2b (needs .& MB_LEFT) else if x <? 8 then i2b (needs .& MB_TOP) else i2b (needs .& MB_TOP) && i2b (needs .& MB_TOPRIGHT))
  else i2b (needs .& MB_LEFT).

Lemma st64_rep v m a : 0 <= v < 256 -> st64 m a (u64 (v * 0x0101010101010101)) = st_bytes m a (replicate 8 v).
Proof.
  intros Hv. unfold st64. f_equal. rewrite <- (le_bytes_val (replicate 8 v)) by (by apply Forall_replicate).
  cbn [length replicate]. f_equal. unfold le_val. cbn [foldr]. rewrite uw_small by lia. lia.
Qed.

Ltac each_index v lo hi := let H := fresh in
  match eval compute in (lo <? hi) with
  | true => let lo' := eval compute in (lo + 1) in
            assert (v = lo \/ lo' <= v) as H by lia; destruct H as [->|H]; [|each_index v lo' hi]
  | false => assert (v = lo) as -> by lia
  end.

Lemma F2_same a : F2 a a a = a.
Proof. unfold F2. replace (a + 2 * a + a + 2) with (2 + a * 4) by lia. rewrite Z.shiftr_div_pow2 by lia. change (2 ^ 2) with 4. by rewrite Z.div_add by lia. Qed.

Ltac filter_sample lt := try destruct lt; rewrite byte_id by (auto with pred); rewrite ?F2_same; reflexivity || apply F2_comm || (unfold F2; f_equal; lia).

Lemma x264_predict_8x8_filter_spec src edge nb fl x y : bytes_ok src -> filtered_at fl x y = true ->
  y = -1 /\ -1 <= x < 16 \/ x = -1 /\ 0 <= y < 8 ->
  edge_at (x264_predict_8x8_filter src edge nb fl) x y = std_filter (i2b (nb .& MB_TOPLEFT)) (i2b (nb .& MB_TOPRIGHT)) (SRC src) x y.
Proof.
  intros Hs Hf Hxy. unfold x264_predict_8x8_filter, std_filter. unfold bytes_ok in Hs. cbv zeta. rewrite st64_rep by apply Hs.
  assert (forall a b, (a + 3 * b + 2) >> 2 = F2 a b b) as E3 by (intros; unfold F2; f_equal; lia). rewrite !E3.
  repeat match goal with |- context [(?a + 2 * ?b + ?c + 2) >> 2] => change ((a + 2 * b + c + 2) >> 2) with (F2 a b c) end.
  unfold filtered_at in Hf. revert Hf. generalize (i2b (fl .& MB_LEFT)) as a, (i2b (fl .& MB_TOP)) as b, (i2b (fl .& MB_TOPRIGHT)) as c.
  generalize (i2b (nb .& MB_TOPLEFT)) as lt, (i2b (nb .& MB_TOPRIGHT)) as tr. intros lt tr a b c Hf.
  destruct Hxy as [[-> Hx]|[-> Hy]]; [each_index x (-1) 15|each_index y 0 7]; cbn in Hf.
  all: destruct a; try discriminate Hf; destruct b; try discriminate Hf.
  all: destruct c; try discriminate Hf; destruct tr.
  all: (lazy -[F1 F2 uw]; filter_sample lt).
Qed.

(** The neighbours a mode reads suffice. *)
Definition neighbour (x y : Z) : bool := (y =? -1) && (-1 <=? x) && (x <? 16) || (x =? -1) && (0 <=? y) && (y <? 8).

Lemma std_8x8_ext mode p p' x y : 0 <= mode < 12 -> 0 <= x < 8 -> 0 <= y < 8 ->
  (forall x y, filtered_at (tbl x264_pred_i4x4_neighbors mode) x y && neighbour x y = true -> p x y = p' x y) ->
  std_8x8 mode p x y = std_8x8 mode p' x y.
Proof.
  intros Hm Hx Hy E. each_index mode 0 11.
  all: try (unfold std_8x8; cbn [Z.eqb Pos.eqb]; unfold std_dc; cbn [andb]; change (Z.to_nat (2 ^ 3)) with 8%nat; rewrite ?sum_8, ?E by reflexivity; reflexivity).
  all: each8 x; each8 y; lazy -[F1 F2]; rewrite !E by reflexivity; reflexivity.
Qed.

Lemma x264_predict_8x8_filter_ok src edge nb fl : bytes_ok src -> bytes_ok edge -> bytes_ok (x264_predict_8x8_filter src edge nb fl).
Proof.
  intros Hs He. assert (forall e i v, bytes_ok e -> bytes_ok (upd e i (u8 v))) as U.
  { intros e i v He' a. unfold upd. destruct (_ =? _); [apply uw_range; lia|apply He']. }
  assert (forall e i x y, bytes_ok e -> bytes_ok (upd e i (SRC src x y))) as U'.
  { intros e i x y He' a. unfold upd. destruct (_ =? _); [apply Hs|apply He']. }
  unfold x264_predict_8x8_filter. cbv zeta.
  repeat first [done | apply U | apply U' | apply st_bytes_ok | match goal with |- bytes_ok (if ?b then _ else _) => destruct b end].
Qed.

Lemma predict_8x8_filtered mode src edge nb : bytes_ok src -> bytes_ok edge -> 0 <= mode < 12 ->
  predicts 8 (std_8x8 mode (std_filter (i2b (nb .& MB_TOPLEFT)) (i2b (nb .& MB_TOPRIGHT)) (SRC src))) src
    (nth (Z.to_nat mode) predict_8x8 (fun src _ => src) src (x264_predict_8x8_filter src edge nb (tbl x264_pred_i4x4_neighbors mode))).
Proof.
  intros Hs He Hm. eapply predicts_ext; [|apply predict_8x8_spec; [by apply x264_predict_8x8_filter_ok|done]].
  intros x y Hx Hy. apply std_8x8_ext; [done..|]. intros x' y' E. apply andb_prop in E as [E N].
  apply x264_predict_8x8_filter_spec; [done|done|]. unfold neighbour in N. lia.
Qed.

(** ** 16x16 and chroma *)
Definition std_plane (n : Z) (p : Z -> Z -> Z) (x y : Z) : Z :=
  let h := n / 2 in
  let grad f := sum_ (Z.to_nat h) (fun i => (i + 1) * (f (h + i) - f (h - 2 - i))) in
  let slope s := if n =? 16 then (5 * s + 32) >> 6 else (34 * s + 32) >> 6 in
  let b := slope (grad (fun i => p i (-1))) in let c := slope (grad (fun i => p (-1) i)) in
  let a := 16 * (p (-1) (n - 1) + p (n - 1) (-1)) in
  clip1 ((a + b * (x - (h - 1)) + c * (y - (h - 1)) + 16) >> 5).

Definition std_16x16 (mode : Z) (p : Z -> Z -> Z) (x y : Z) : Z :=
  if mode =? I_PRED_16x16_V then p x (-1)
  else if mode =? I_PRED_16x16_H then p (-1) y
  else if mode =? I_PRED_16x16_DC then std_dc 4 true true p
  else if mode =? I_PRED_16x16_P then std_plane 16 p x y
  else if mode =? I_PRED_16x16_DC_LEFT then std_dc 4 true false p
  else if mode =? I_PRED_16x16_DC_TOP then std_dc 4 false true p
  else std_dc 4 false false p.

(** The mean of each quarter of a chroma block (clause 8.3.4): of both sides on the diagonal,
    elsewhere of the side it touches when that is available. *)
Definition std_chroma_dc (has_left has_top : bool) (p : Z -> Z -> Z) (x y : Z) : Z :=
  let top := sum_ 4 (fun i => p (4 * (x / 4) + i) (-1)) in let left := sum_ 4 (fun i => p (-1) (4 * (y / 4) + i)) in
  let by_top := (top + 2) >> 2 in let by_left := (left + 2) >> 2 in
  if x / 4 =? y / 4 then
    if has_left && has_top then (top + left + 4) >> 3 else if has_left then by_left else if has_top then by_top else 128
  else if y / 4 <? x / 4 then if has_top then by_top else if has_left then by_left else 128
  else if has_left then by_left else if has_top then by_top else 128.

Definition std_8x8c (mode : Z) (p : Z -> Z -> Z) (x y : Z) : Z :=
  if mode =? I_PRED_CHROMA_DC then std_chroma_dc true true p x y
  else if mode =? I_PRED_CHROMA_H then p (-1) y
  else if mode =? I_PRED_CHROMA_V then p x (-1)
  else if mode =? I_PRED_CHROMA_P then std_plane 8 p x y
  else if mode =? I_PRED_CHROMA_DC_LEFT then std_chroma_dc true false p x y
  else if mode =? I_PRED_CHROMA_DC_TOP then std_chroma_dc false true p x y
  else std_chroma_dc false false p x y.

Lemma sum_16 f : sum_ 16 f = f 0 + f 1 + f 2 + f 3 + f 4 + f 5 + f 6 + f 7 + f 8 + f 9 + f 10 + f 11 + f 12 + f 13 + f 14 + f 15.
Proof. reflexivity. Qed.

(** A sum kept in 32 bits. *)
Lemma sum_u32 n f : (forall i, 0 <= f i < 512) -> (n <= 16)%nat -> for_ n 0 (fun i dc => u32 (dc + f i)) 0 = sum_ n f.
Proof.
  intros Hf Hn. enough (for_ n 0 (fun i dc => u32 (dc + f i)) 0 = sum_ n f /\ 0 <= sum_ n f <= 512 * Z.of_nat n) as [E _] by done.
  unfold sum_. induction n as [|n IH]; [done|]. rewrite !for_snoc. destruct IH as [-> B]; [lia|]. specialize (Hf (0 + Z.of_nat n)).
  rewrite uw_small by lia. lia.
Qed.

Lemma predict_rows_h n (w : nat) src : bytes_ok src -> 4 * Z.of_nat w = n -> 0 < n <= 16 ->
  predicts n (fun _ y => SRC src (-1) y) src
    (for_ (Z.to_nat n) 0 (fun i src => let v := u32 (0x01010101 * src (i * FDEC_STRIDE - 1)) in for_ w 0 (fun j src => st32 src (i * FDEC_STRIDE + 4 * j) v) src) src).
Proof.
  intros Hs Hw Hn.
  destruct (rows_spec n w (Z.to_nat n) 0 (fun y _ m => u32 (0x01010101 * m (y * FDEC_STRIDE - 1))) (fun _ y => SRC src (-1) y) src) as [H1 H2]; [lia..| |].
  - intros m y j Hm Hy Hj m' k Hk. rewrite (Z.mul_comm 0x01010101), Hm, st32_rep_at; [|apply Hs|lia|].
    + unfold SRC. f_equal. lia.
    + intros (y' & x' & Hy' & Hx' & E). unfold FDEC_STRIDE in E. lia.
  - split; [|exact H1]. intros x y Hx Hy. cbv zeta. by rewrite H2, in_range_b by lia.
Qed.

Lemma predict_rows_v n (w : nat) src : bytes_ok src -> 4 * Z.of_nat w = n -> 0 < n <= 16 ->
  predicts n (fun x _ => SRC src x (-1)) src (fill_rows w (Z.to_nat n) 0 (fun j => ld32 src (4 * j - FDEC_STRIDE)) src).
Proof.
  intros Hs Hw Hn.
  destruct (rows_spec n w (Z.to_nat n) 0 (fun _ j _ => ld32 src (4 * j - FDEC_STRIDE)) (fun x _ => SRC src x (-1)) src) as [H1 H2]; [lia..| |].
  - intros m y j Hm Hy Hj m' k Hk. rewrite st32_copy by done. cbn [st_bytes]. unfold st8, upd, SRC. rewrite !byte_id by apply Hs.
    repeat match goal with |- context [?u =? ?w] => destruct (Z.eqb_spec u w) end; (f_equal; unfold FDEC_STRIDE in *; lia) || lia.
  - split; [|exact H1]. intros x y Hx Hy. cbv zeta. unfold fill_rows. by rewrite H2, in_range_b by lia.
Qed.

(** The accumulators of [plane_rows] in closed form. *)
Lemma for_accumulate {A} n lo (f : Z -> Z -> A -> A) b a k :
  for_ n lo (fun x '(s, k) => (f x k s, k + b)) (a, k) = (for_ n lo (fun x s => f x (k + (x - lo) * b) s) a, k + Z.of_nat n * b).
Proof.
  induction n as [|n IH]; [cbn [for_]; f_equal; lia|]. rewrite !for_snoc, IH. cbv beta iota. f_equal; [f_equal|]; lia.
Qed.

Lemma plane_rows_spec n i00 b c src : 0 < n <= 16 -> Z.abs i00 + 32 * (Z.abs b + Z.abs c) < 2 ^ 31 ->
  predicts n (fun x y => clip1 ((i00 + b * x + c * y) >> 5)) src (plane_rows (Z.to_nat n) i00 b c src).
Proof.
  intros Hn Hb. unfold plane_rows.
  rewrite (for_accumulate (Z.to_nat n) 0 (fun y i00 src => (for_ (Z.to_nat n) 0 (fun x '(src, pix) => (st8 src (y * FDEC_STRIDE + x) (x264_clip_uint8 (pix >> 5)), pix + b)) (src, i00)).1)). cbn [fst].
  rewrite (for_ext _ _ _ (fun y p => for_ (Z.to_nat n) 0 (fun x p => upd p (y * FDEC_STRIDE + x) (clip1 ((i00 + b * x + c * y) >> 5))) p)).
  - destruct (for_block (Z.to_nat n) (Z.to_nat n) (fun y x => y * FDEC_STRIDE + x) (fun y x _ => clip1 ((i00 + b * x + c * y) >> 5)) src) as [H1 H2]; [unfold FDEC_STRIDE; lia|].
    split.
    + intros x y Hx Hy. unfold SRC. rewrite Z.add_comm. apply H1; lia.
    + intros q Hq. apply H2. intros y x Hy Hx E. apply Hq. exists y, x. lia.
  - intros y s Hy. rewrite (for_accumulate (Z.to_nat n) 0 (fun x pix src => st8 src (y * FDEC_STRIDE + x) (x264_clip_uint8 (pix >> 5)))). cbn [fst].
    apply for_ext. intros x m Hx. unfold st8. f_equal. replace (i00 + (y - 0) * c + (x - 0) * b) with (i00 + b * x + c * y) by lia.
    assert (Z.abs (i00 + b * x + c * y) < 2 ^ 31) by nia.
    rewrite x264_clip_uint8_spec; [apply byte_id, clip1_byte|]. rewrite Z.shiftr_div_pow2 by lia. change (2 ^ 5) with 32. Z.to_euclidean_division_equations. lia.
Qed.

Lemma grad_bound n f h : (forall i, 0 <= f i < 256) -> (n <= 8)%nat -> Z.abs (sum_ n (fun i => (i + 1) * (f (h + i) - f (h - 2 - i)))) <= 8 * 255 * Z.of_nat n.
Proof.
  intros Hf Hn. unfold sum_. induction n as [|n IH]; [done|]. rewrite for_snoc. specialize (IH ltac:(lia)).
  pose proof (Hf (h + (0 + Z.of_nat n))). pose proof (Hf (h - 2 - (0 + Z.of_nat n))). nia.
Qed.

Lemma sum_ext n f g : (forall i, 0 <= i < Z.of_nat n -> f i = g i) -> sum_ n f = sum_ n g.
Proof. intros E. apply for_ext. intros i s Hi. rewrite E; [done|lia]. Qed.

Lemma predict_plane n src i00 b c : bytes_ok src -> n = 8 \/ n = 16 ->
  (forall x y, i00 + b * x + c * y = 16 * (SRC src (-1) (n - 1) + SRC src (n - 1) (-1)) + b * (x - (n / 2 - 1)) + c * (y - (n / 2 - 1)) + 16) ->
  b = (let s := sum_ (Z.to_nat (n / 2)) (fun i => (i + 1) * (SRC src (n / 2 + i) (-1) - SRC src (n / 2 - 2 - i) (-1))) in if n =? 16 then (5 * s + 32) >> 6 else (34 * s + 32) >> 6) ->
  c = (let s := sum_ (Z.to_nat (n / 2)) (fun i => (i + 1) * (SRC src (-1) (n / 2 + i) - SRC src (-1) (n / 2 - 2 - i))) in if n =? 16 then (5 * s + 32) >> 6 else (34 * s + 32) >> 6) ->
  predicts n (std_plane n (SRC src)) src (plane_rows (Z.to_nat n) i00 b c src).
Proof.
  intros Hs Hn E Eb Ec.
  assert (forall f, (forall i, 0 <= f i < 256) -> let s := sum_ (Z.to_nat (n / 2)) (fun i => (i + 1) * (f (n / 2 + i) - f (n / 2 - 2 - i))) in
    Z.abs (if n =? 16 then (5 * s + 32) >> 6 else (34 * s + 32) >> 6) <= 20000) as B.
  { intros f Hf s. pose proof (grad_bound (Z.to_nat (n / 2)) f (n / 2) Hf ltac:(destruct Hn as [->| ->]; vm_compute; lia)) as G. fold s in G. rewrite !Z.shiftr_div_pow2 by lia. change (2 ^ 6) with 64.
    assert (Z.abs s <= 16320) by (destruct Hn as [->| ->]; change (Z.of_nat (Z.to_nat (8 / 2))) with 4 in G || change (Z.of_nat (Z.to_nat (16 / 2))) with 8 in G; lia). destruct (n =? 16); Z.to_euclidean_division_equations; lia. }
  pose proof (B (fun i => SRC src i (-1)) ltac:(intros; apply Hs)) as Bb. pose proof (B (fun i => SRC src (-1) i) ltac:(intros; apply Hs)) as Bc.
  cbv beta zeta in Bb, Bc, Eb, Ec. rewrite <- Eb in Bb. rewrite <- Ec in Bc.
  eapply predicts_ext; [|apply plane_rows_spec].
  - intros x y Hx Hy. cbv beta. unfold std_plane. cbv zeta. rewrite <- Eb, <- Ec, E. done.
  - destruct Hn as [->| ->]; lia.
  - pose proof (E 0 0). pose proof (Hs (-1 + (n - 1) * FDEC_STRIDE)). pose proof (Hs (n - 1 + -1 * FDEC_STRIDE)). unfold SRC in *.
    assert (0 <= n / 2 - 1 <= 7) by (destruct Hn as [->| ->]; vm_compute; split; discriminate). nia.
Qed.

Lemma predict_16x16_flat d src : 0 <= d < 256 -> predicts 16 (fun _ _ => d) src (PREDICT_16x16_DC (u32 (d * 0x01010101)) src).
Proof. by apply (fill_flat 16 4). Qed.

Ltac mem_eq := unfold SRC; repeat (f_equal; []); (reflexivity || lia || (f_equal; unfold FDEC_STRIDE; lia)).

Lemma u32_add_l a b : u32 (u32 a + b) = u32 (a + b).
Proof. unfold uw. by rewrite Zplus_mod_idemp_l. Qed.

Lemma dc_16 (f g : Z -> Z) : sum_ 16 (fun i => f i + g i) = sum_ 16 f + sum_ 16 g.
Proof. rewrite !sum_16. lia. Qed.

Lemma std_dc_4 p : std_dc 4 true true p = (sum_ 16 (fun y => p (-1) y) + sum_ 16 (fun x => p x (-1)) + 16) >> 5 /\
  std_dc 4 true false p = (sum_ 16 (fun y => p (-1) y) + 8) >> 4 /\ std_dc 4 false true p = (sum_ 16 (fun x => p x (-1)) + 8) >> 4.
Proof. repeat split. Qed.

Lemma predict_16x16_dcs src : bytes_ok src ->
  predicts 16 (fun _ _ => std_dc 4 true true (SRC src)) src (predict_16x16_dc src) /\
  predicts 16 (fun _ _ => std_dc 4 true false (SRC src)) src (predict_16x16_dc_left src) /\
  predicts 16 (fun _ _ => std_dc 4 false true (SRC src)) src (predict_16x16_dc_top src) /\
  predicts 16 (fun _ _ => std_dc 4 false false (SRC src)) src (predict_16x16_dc_128 src).
Proof.
  intros Hs. assert (forall l t, 0 <= std_dc 4 l t (SRC src) < 256) as Hd by (intros; apply std_dc_byte; [done|intros; apply Hs]).
  assert (forall i, 0 <= src i < 512) as H9 by (intros i; specialize (Hs i); lia).
  pose proof (fun l t => predict_16x16_flat (std_dc 4 l t (SRC src)) src (Hd l t)) as F.
  assert (sum_ 16 (fun i => src (-1 + i * FDEC_STRIDE)) = sum_ 16 (fun y => SRC src (-1) y)) as EL by done.
  assert (sum_ 16 (fun i => src (i - FDEC_STRIDE)) = sum_ 16 (fun x => SRC src x (-1))) as ET by (apply sum_ext; intros; unfold SRC; f_equal; lia).
  assert (for_ 16 0 (fun i dc => u32 (u32 (dc + src (-1 + i * FDEC_STRIDE)) + src (i - FDEC_STRIDE))) 0 =
    sum_ 16 (fun y => SRC src (-1) y) + sum_ 16 (fun x => SRC src x (-1))) as E2.
  { rewrite <- EL, <- ET, <- dc_16, <- sum_u32; [|intros i|done].
    - apply for_ext. intros i s Hi. by rewrite u32_add_l, Z.add_assoc.
    - pose proof (Hs (-1 + i * FDEC_STRIDE)). pose proof (Hs (i - FDEC_STRIDE)). lia. }
  assert (for_ 16 0 (fun i dc => u32 (dc + src (-1 + i * FDEC_STRIDE))) 0 = sum_ 16 (fun y => SRC src (-1) y)) as E1 by (by rewrite <- EL, <- sum_u32).
  assert (for_ 16 0 (fun i dc => u32 (dc + src (i - FDEC_STRIDE))) 0 = sum_ 16 (fun x => SRC src x (-1))) as E0 by (by rewrite <- ET, <- sum_u32).
  split; [|split; [|split]]; [| | |apply (F false false)].
  all: destruct (std_dc_4 (SRC src)) as (S1 & S2 & S3).
  - unfold predict_16x16_dc. cbv zeta. rewrite E2, <- S1. apply F.
  - unfold predict_16x16_dc_left. cbv zeta. rewrite E1, <- S2. apply F.
  - unfold predict_16x16_dc_top. cbv zeta. rewrite E0, <- S3. apply F.
Qed.

Lemma predict_16x16_spec mode src : bytes_ok src -> 0 <= mode < 7 ->
  predicts 16 (std_16x16 mode (SRC src)) src (nth (Z.to_nat mode) predict_16x16 id src).
Proof.
  intros Hs. apply (nth_cases (fun mode f => predicts 16 (std_16x16 mode (SRC src)) src (f src)) predict_16x16).
  pose proof (predict_16x16_dcs src Hs) as (D1 & D2 & D3 & D4).
  apply List.Forall2_cons; [exact (predict_rows_v 16 4 src Hs eq_refl ltac:(lia))|].
  apply List.Forall2_cons; [exact (predict_rows_h 16 4 src Hs eq_refl ltac:(lia))|].
  apply List.Forall2_cons; [exact D1|].
  apply List.Forall2_cons; [|apply List.Forall2_cons; [exact D2|apply List.Forall2_cons; [exact D3|apply List.Forall2_cons; [exact D4|apply List.Forall2_nil]]]].
  unfold predict_16x16_p. cbv zeta. apply (predict_plane 16); [done|by right|..].
  - intros x y. change (16 / 2) with 8. unfold SRC. replace (-1 + (16 - 1) * FDEC_STRIDE) with (-1 + 15 * FDEC_STRIDE) by lia. replace (16 - 1 + -1 * FDEC_STRIDE) with (15 - FDEC_STRIDE) by lia. lia.
  - cbv zeta. change (Z.to_nat (16 / 2)) with 8%nat. change (16 / 2) with 8. cbn [Z.eqb Pos.eqb]. apply (f_equal (fun s => (5 * s + 32) >> 6)). apply sum_ext. intros i _. unfold SRC. do 3 f_equal; lia.
  - cbv zeta. change (Z.to_nat (16 / 2)) with 8%nat. change (16 / 2) with 8. cbn [Z.eqb Pos.eqb]. reflexivity.
Qed.

(** Quarters, or halves, of one value. *)
Lemma fill_quarters (d : Z -> Z -> Z) src : (forall i j, 0 <= d i j < 256) ->
  predicts 8 (fun x y => d (x / 4) (y / 4)) src
    (fill_rows 2 4 4 (fun j => u32 (d j 1 * 0x01010101)) (fill_rows 2 4 0 (fun j => u32 (d j 0 * 0x01010101)) src)).
Proof.
  intros Hd. set (src1 := fill_rows 2 4 0 _ src).
  destruct (fill_rows_rep 8 2 4 0 (fun j => d j 0) src) as [A1 A2]; [lia..|done|].
  destruct (fill_rows_rep 8 2 4 4 (fun j => d j 1) src1) as [B1 B2]; [lia..|done|]. fold src1 in A1, A2. split.
  - intros x y Hx Hy. rewrite B2 by done. destruct (Z.le_gt_cases 4 y).
    + rewrite in_range_b by lia. by replace (y / 4) with 1 by (Z.to_euclidean_division_equations; lia).
    + rewrite out_range_b, A2, in_range_b by lia. by replace (y / 4) with 0 by (Z.to_euclidean_division_equations; lia).
  - intros q Hq. rewrite B1 by done. by apply A1.
Qed.

Lemma fill_halves (d : Z -> Z) src : (forall j, 0 <= d j < 256) ->
  predicts 8 (fun x _ => d (x / 4)) src (fill_rows 2 8 0 (fun j => u32 (d j * 0x01010101)) src).
Proof.
  intros Hd. destruct (fill_rows_rep 8 2 8 0 d src) as [H1 H2]; [lia..|done|].
  split; [|exact H1]. intros x y Hx Hy. by rewrite H2, in_range_b by lia.
Qed.

Lemma fill_rows_ext w h y0 v v' src : (forall j, 0 <= j < Z.of_nat w -> v j = v' j) -> fill_rows w h y0 v src = fill_rows w h y0 v' src.
Proof. intros E. apply for_ext. intros y s _. apply for_ext. intros j s' Hj. rewrite E; [done|lia]. Qed.

(** The modes without a plane, by quarter [i, j]. *)
Definition quarter_dc (l t : bool) (p : Z -> Z -> Z) (i j : Z) : Z := std_chroma_dc l t p (4 * i) (4 * j).

Lemma std_chroma_dc_byte l t p x y : (forall x y, 0 <= p x y < 256) -> 0 <= std_chroma_dc l t p x y < 256.
Proof.
  intros Hp. unfold std_chroma_dc. cbv zeta.
  pose proof (sum_bytes 4 (fun i => p (4 * (x / 4) + i) (-1)) (fun i => Hp _ _)). pose proof (sum_bytes 4 (fun i => p (-1) (4 * (y / 4) + i)) (fun i => Hp _ _)).
  destruct (x / 4 =? y / 4), (y / 4 <? x / 4), l, t; cbn [andb]; try lia; (apply shiftr_byte; [lia|]); change (2 ^ 2) with 4; change (2 ^ 3) with 8; lia.
Qed.

Lemma quarter_dc_at l t p x y : 0 <= x < 8 -> 0 <= y < 8 -> quarter_dc l t p (x / 4) (y / 4) = std_chroma_dc l t p x y.
Proof. intros Hx Hy. unfold quarter_dc, std_chroma_dc. by rewrite !(Z.mul_comm 4 (_ / 4)), !Z.div_mul by lia. Qed.

Lemma quarter_dc_byte src l t i j : bytes_ok src -> 0 <= quarter_dc l t (SRC src) i j < 256.
Proof. intros Hs. apply std_chroma_dc_byte. intros; apply Hs. Qed.

Lemma fill_quarter_dc l t v0 v1 src : bytes_ok src ->
  (forall i, 0 <= i < 2 -> v0 i = u32 (quarter_dc l t (SRC src) i 0 * 0x01010101)) ->
  (forall i, 0 <= i < 2 -> v1 i = u32 (quarter_dc l t (SRC src) i 1 * 0x01010101)) ->
  predicts 8 (std_chroma_dc l t (SRC src)) src (fill_rows 2 4 4 v1 (fill_rows 2 4 0 v0 src)).
Proof.
  intros Hs H0 H1. rewrite (fill_rows_ext 2 4 4 v1 (fun i => u32 (quarter_dc l t (SRC src) i 1 * 0x01010101)) _ H1), (fill_rows_ext 2 4 0 v0 (fun i => u32 (quarter_dc l t (SRC src) i 0 * 0x01010101)) src H0).
  eapply predicts_ext; [|apply (fill_quarters (quarter_dc l t (SRC src))); intros; by apply quarter_dc_byte].
  intros x y Hx Hy. by apply quarter_dc_at.
Qed.

Ltac half i := assert (i = 0 \/ i = 1) as [->| ->] by lia.

(** Quarter [i, j] from the sums of the eight half sides. *)
Lemma quarter_dc_sums l t src i j : 0 <= i < 2 -> 0 <= j < 2 ->
  quarter_dc l t (SRC src) i j =
  let top := sum_ 4 (fun k => src (k + 4 * i - FDEC_STRIDE)) in let left := sum_ 4 (fun k => src (-1 + (k + 4 * j) * FDEC_STRIDE)) in
  if i =? j then if l && t then (top + left + 4) >> 3 else if l then (left + 2) >> 2 else if t then (top + 2) >> 2 else 128
  else if j <? i then if t then (top + 2) >> 2 else if l then (left + 2) >> 2 else 128
  else if l then (left + 2) >> 2 else if t then (top + 2) >> 2 else 128.
Proof.
  intros Hi Hj. unfold quarter_dc, std_chroma_dc. cbv zeta. rewrite !(Z.mul_comm 4 (_ / 4)), !(Z.mul_comm 4 i), !(Z.mul_comm 4 j), !Z.div_mul by lia.
  rewrite (sum_ext 4 (fun k => SRC src (i * 4 + k) (-1)) (fun k => src (k + i * 4 - FDEC_STRIDE))) by (intros k _; unfold SRC; f_equal; lia).
  by rewrite (sum_ext 4 (fun k => SRC src (-1) (j * 4 + k)) (fun k => src (-1 + (k + j * 4) * FDEC_STRIDE))) by (intros k _; unfold SRC; f_equal; lia).
Qed.

(** Without the left samples the quarters of a column are alike. *)
Lemma fill_half_dc t v src : bytes_ok src -> (forall i, 0 <= i < 2 -> v i = u32 (quarter_dc false t (SRC src) i 0 * 0x01010101)) ->
  predicts 8 (std_chroma_dc false t (SRC src)) src (fill_rows 2 8 0 v src).
Proof.
  intros Hs H0. rewrite (fill_rows_ext 2 8 0 v (fun i => u32 (quarter_dc false t (SRC src) i 0 * 0x01010101)) src H0).
  eapply predicts_ext; [|apply (fill_halves (fun i => quarter_dc false t (SRC src) i 0)); intros; by apply quarter_dc_byte].
  intros x y Hx Hy. cbv beta. rewrite <- quarter_dc_at, !quarter_dc_sums by (done || (Z.to_euclidean_division_equations; lia)). cbv zeta. cbn [andb].
  destruct t; repeat match goal with |- context [if ?c then _ else _] => destruct c end; done.
Qed.

Lemma predict_8x8c_dcs src : bytes_ok src ->
  predicts 8 (std_chroma_dc true true (SRC src)) src (predict_8x8c_dc src) /\
  predicts 8 (std_chroma_dc true false (SRC src)) src (predict_8x8c_dc_left src) /\
  predicts 8 (std_chroma_dc false true (SRC src)) src (predict_8x8c_dc_top src) /\
  predicts 8 (std_chroma_dc false false (SRC src)) src (predict_8x8c_dc_128 src).
Proof.
  intros Hs.
  assert (forall f g, (forall i, f i = g i) -> sum_ 4 (fun i => src (f i)) = sum_ 4 (fun i => src (g i))) as E by (intros f g H; apply sum_ext; intros; by rewrite H).
  split; [|split; [|split]].
  - unfold predict_8x8c_dc. cbv zeta.
    apply fill_quarter_dc; [done|..]; intros i Hi; half i; cbn [Z.eqb Pos.eqb]; (apply (f_equal (fun v => u32 (v * 0x01010101)))); rewrite quarter_dc_sums by lia; cbv zeta; cbn [Z.eqb Pos.eqb Z.ltb Z.compare Pos.compare andb];
    (apply (f_equal (fun v => (v + 4) >> 3)) || apply (f_equal (fun v => (v + 2) >> 2))); first [apply E; intros; lia | apply (f_equal2 Z.add); apply E; intros; lia].
  - unfold predict_8x8c_dc_left. cbv zeta.
    apply fill_quarter_dc; [done|..]; intros i Hi; half i; (apply (f_equal (fun v => u32 (v * 0x01010101)))); rewrite quarter_dc_sums by lia; cbv zeta; cbn [Z.eqb Pos.eqb Z.ltb Z.compare Pos.compare andb];
    apply (f_equal (fun v => (v + 2) >> 2)); apply E; intros; lia.
  - unfold predict_8x8c_dc_top. cbv zeta.
    apply fill_half_dc; [done|]; intros i Hi; half i; cbn [Z.eqb Pos.eqb]; (apply (f_equal (fun v => u32 (v * 0x01010101)))); rewrite quarter_dc_sums by lia; cbv zeta; cbn [Z.eqb Pos.eqb Z.ltb Z.compare Pos.compare andb];
    apply (f_equal (fun v => (v + 2) >> 2)); apply E; intros; lia.
  - apply fill_half_dc; [done|]. intros i Hi. half i; reflexivity.
Qed.

Lemma predict_8x8c_spec mode src : bytes_ok src -> 0 <= mode < 7 ->
  predicts 8 (std_8x8c mode (SRC src)) src (nth (Z.to_nat mode) predict_8x8c id src).
Proof.
  intros Hs. apply (nth_cases (fun mode f => predicts 8 (std_8x8c mode (SRC src)) src (f src)) predict_8x8c).
  pose proof (predict_8x8c_dcs src Hs) as (D1 & D2 & D3 & D4).
  apply List.Forall2_cons; [exact D1|].
  apply List.Forall2_cons; [exact (predict_rows_h 8 2 src Hs eq_refl ltac:(lia))|].
  apply List.Forall2_cons; [exact (predict_rows_v 8 2 src Hs eq_refl ltac:(lia))|].
  apply List.Forall2_cons; [|apply List.Forall2_cons; [exact D2|apply List.Forall2_cons; [exact D3|apply List.Forall2_cons; [exact D4|apply List.Forall2_nil]]]].
  assert (forall s, (17 * s + 16) >> 5 = (34 * s + 32) >> 6) as H2.
  { intros s. rewrite !Z.shiftr_div_pow2 by lia. change (2 ^ 5) with 32. change (2 ^ 6) with 64. Z.to_euclidean_division_equations. lia. }
  unfold predict_8x8c_p. cbv zeta. rewrite !H2. apply (predict_plane 8); [done|by left|..].
  - intros x y. change (8 / 2) with 4. unfold SRC. replace (-1 + (8 - 1) * FDEC_STRIDE) with (-1 + 7 * FDEC_STRIDE) by lia. replace (8 - 1 + -1 * FDEC_STRIDE) with (7 - FDEC_STRIDE) by lia. lia.
  - cbv zeta. change (Z.to_nat (8 / 2)) with 4%nat. change (8 / 2) with 4. cbn [Z.eqb Pos.eqb]. apply (f_equal (fun s => (34 * s + 32) >> 6)). apply sum_ext. intros i _. unfold SRC. do 3 f_equal; lia.
  - cbv zeta. change (Z.to_nat (8 / 2)) with 4%nat. change (8 / 2) with 4. cbn [Z.eqb Pos.eqb]. apply (f_equal (fun s => (34 * s + 32) >> 6)). apply sum_ext. intros i _. unfold SRC. do 3 f_equal; lia.
Qed.

(** ** Claims *)

(** C12: Intra prediction of small luma blocks is the standard's: for each of the twelve modes
    of the table the C function for 4x4 blocks, and the one for 8x8 blocks run on the
    neighbours that the filter prepared for that mode, gives every sample of the block the
    value of clause 8.3.1 or 8.3.2, computed from the neighbouring samples, and changes no
    sample outside the block; what the mode does not read of the filter's buffer may be
    anything. *)
Theorem small_intra_prediction_standard src edge nb mode : bytes_ok src -> bytes_ok edge -> 0 <= mode < 12 ->
  predicts 4 (std_4x4 mode (SRC src)) src (nth (Z.to_nat mode) predict_4x4 id src) /\
  predicts 8 (std_8x8 mode (std_filter (i2b (nb .& MB_TOPLEFT)) (i2b (nb .& MB_TOPRIGHT)) (SRC src))) src
    (nth (Z.to_nat mode) predict_8x8 (fun src _ => src) src (x264_predict_8x8_filter src edge nb (tbl x264_pred_i4x4_neighbors mode))).
Proof. intros Hs He Hm. split; [by apply predict_4x4_spec|by apply predict_8x8_filtered]. Qed.

(** C13: Intra prediction of whole macroblocks is the standard's: for each of the seven modes of
    the two tables the C function gives every sample of the 16x16 luma or 8x8 chroma block the
    value of clause 8.3.3 or 8.3.4 (the means of the four chroma quarters and the planes
    included) and changes no sample outside the block. *)
Theorem large_intra_prediction_standard src mode : bytes_ok src -> 0 <= mode < 7 ->
  predicts 16 (std_16x16 mode (SRC src)) src (nth (Z.to_nat mode) predict_16x16 id src) /\
  predicts 8 (std_8x8c mode (SRC src)) src (nth (Z.to_nat mode) predict_8x8c id src).
Proof. intros Hs Hm. split; [by apply predict_16x16_spec|by apply predict_8x8c_spec]. Qed.

(** ** Examples *)
Definition ramp : mem := fun q => (7 * q + 100) mod 256.

Lemma ramp_ok : bytes_ok ramp.
Proof. intros q. apply Z.mod_pos_bound. lia. Qed.

Lemma small_intra_prediction_standard_witness :
  SRC (predict_4x4_vr ramp) 2 1 = 139 /\
  predicts 4 (std_4x4 5 (SRC ramp)) ramp (nth 5 predict_4x4 id ramp).
Proof.
  destruct (small_intra_prediction_standard ramp ramp (MB_LEFT .| MB_TOP .| MB_TOPLEFT) 5 ramp_ok ramp_ok ltac:(lia)) as [H _].
  split; [vm_compute; reflexivity|exact H].
Defined.

Lemma large_intra_prediction_standard_witness :
  SRC (predict_8x8c_dc ramp) 6 1 = 171 /\ predicts 8 (std_8x8c 0 (SRC ramp)) ramp (predict_8x8c_dc ramp).
Proof.
  destruct (large_intra_prediction_standard ramp 0 ramp_ok ltac:(lia)) as [_ H].
  split; [vm_compute; reflexivity|exact H].
Defined.
