(* ===== verification/Mc.v ===== *)
(** * Motion compensation of blocks (common/mc.c)

    A plane is a function of the offset from its pointer.  The functions that return a block
    write it at offset [od] of the plane [dst], the rows [i_dst] apart; sources are seen
    through [ptr].  The last part states the sample interpolation of the standard and shows
    that the filtered planes and the functions compute it. *)
From S2P Require Import Prelude Mb CavlcMb Dct Recon.

(** ** Averages *)
Definition pixel_avg (dst : mem) (od i_dst_stride : Z) (src1 : mem) (i_src1_stride : Z) (src2 : mem) (i_src2_stride : Z) (i_width i_height : nat) : mem :=
  for_ i_height 0 (fun y dst => for_ i_width 0 (fun x dst =>
    st8 dst (od + y * i_dst_stride + x) ((src1 (y * i_src1_stride + x) + src2 (y * i_src2_stride + x) + 1) >> 1)) dst) dst.

Definition pixel_avg_wxh (dst : mem) (od i_dst : Z) (src1 : mem) (i_src1 : Z) (src2 : mem) (i_src2 : Z) (width height : nat) : mem :=
  for_ height 0 (fun y dst => for_ width 0 (fun x dst =>
    st8 dst (od + y * i_dst + x) ((src1 (y * i_src1 + x) + src2 (y * i_src2 + x) + 1) >> 1)) dst) dst.

(** Rows of 2, 4, 8 or 16 samples. *)
Definition pixel_avg_weight_wxh (dst : mem) (od i_dst : Z) (src1 : mem) (i_src1 : Z) (src2 : mem) (i_src2 : Z) (width height : nat) (i_weight1 : Z) : mem :=
  let i_weight2 := 64 - i_weight1 in
  for_ height 0 (fun y dst =>
    let op_scale2 x dst := st8 dst (od + y * i_dst + x)
      (x264_clip_uint8 ((src1 (y * i_src1 + x) * i_weight1 + src2 (y * i_src2 + x) * i_weight2 + (1 << 5)) >> 6)) in
    let ops l dst := fold_left (fun dst x => op_scale2 x dst) l dst in
    let dst := ops [0; 1] dst in
    if (width =? 2)%nat then dst else
    let dst := ops [2; 3] dst in
    if (width =? 4)%nat then dst else
    let dst := ops [4; 5; 6; 7] dst in
    if (width =? 8)%nat then dst else
    ops [8; 9; 10; 11; 12; 13; 14; 15] dst) dst.

Definition PIXEL_AVG_C (width height : nat) (pix1 : mem) (o1 i_stride_pix1 : Z) (pix2 : mem) (i_stride_pix2 : Z) (pix3 : mem) (i_stride_pix3 weight : Z) : mem :=
  if weight =? 32 then pixel_avg_wxh pix1 o1 i_stride_pix1 pix2 i_stride_pix2 pix3 i_stride_pix3 width height
  else pixel_avg_weight_wxh pix1 o1 i_stride_pix1 pix2 i_stride_pix2 pix3 i_stride_pix3 width height weight.

(** [h->mc.avg] (the C functions), by [PIXEL_16x16], ... *)
Definition mc_avg_size : list (nat * nat) :=
  [ (16, 16); (16, 8); (8, 16); (8, 8); (8, 4); (4, 8); (4, 4); (4, 2); (2, 4); (2, 2) ]%nat.
Definition mc_avg (i_mode : Z) : mem -> Z -> Z -> mem -> Z -> mem -> Z -> Z -> mem :=
  let '(w, h) := nth (Z.to_nat i_mode) mc_avg_size (0%nat, 0%nat) in PIXEL_AVG_C w h.

(** ** Copies *)
Definition mc_copy (src : mem) (i_src_stride : Z) (dst : mem) (od i_dst_stride : Z) (i_width i_height : nat) : mem :=
  for_ i_height 0 (fun y dst => for_ i_width 0 (fun x dst => st8 dst (od + y * i_dst_stride + x) (src (y * i_src_stride + x))) dst) dst.

(** ** The half sample planes *)
Definition TAPFILTER (pix : mem) (x d : Z) : Z :=
  pix (x - 2*d) + pix (x + 3*d) - 5 * (pix (x - d) + pix (x + 2*d)) + 20 * (pix x + pix (x + d)).

(** All planes from the same offset [offs]; [buf] is fresh memory of 16-bit words. *)
Definition hpel_filter (dsth dstv dstc src : mem) (offs stride : Z) (width height : nat) (buf : mem) : mem * mem * mem :=
  let '(dsth, dstv, dstc, _) :=
    for_ height 0 (fun y '(dsth, dstv, dstc, buf) =>
      let row := offs + y * stride in
      let '(dstv, buf) := for_ (width + 5) (-2) (fun x '(dstv, buf) =>
        let v := TAPFILTER (ptr src row) x stride in
        (st8 dstv (row + x) (x264_clip_uint8 ((v + 16) >> 5)), upd buf (x + 2) (s16 v))) (dstv, buf) in
      let dstc := for_ width 0 (fun x dstc => st8 dstc (row + x) (x264_clip_uint8 ((TAPFILTER (ptr buf 2) x 1 + 512) >> 10))) dstc in
      let dsth := for_ width 0 (fun x dsth => st8 dsth (row + x) (x264_clip_uint8 ((TAPFILTER (ptr src row) x 1 + 16) >> 5))) dsth in
      (dsth, dstv, dstc, buf)) (dsth, dstv, dstc, buf) in
  (dsth, dstv, dstc).

(** ** Luma *)
Definition hpel_ref0 : list Z := [0;1;1;1;0;1;1;1;2;3;3;3;0;1;1;1].
Definition hpel_ref1 : list Z := [0;0;0;0;2;2;3;2;2;2;3;2;2;2;3;2].

(** [src] are the four planes, from the block's position. *)
Definition mc_luma (dst : mem) (od i_dst_stride : Z) (src : Z -> mem) (i_src_stride mvx mvy : Z) (i_width i_height : nat) : mem :=
  let qpel_idx := ((mvy .& 3) << 2) + (mvx .& 3) in
  let offset := (mvy >> 2) * i_src_stride + (mvx >> 2) in
  let src1 := ptr (src (tbl hpel_ref0 qpel_idx)) (offset + b2i ((mvy .& 3) =? 3) * i_src_stride) in
  if i2b (qpel_idx .& 5) then
    let src2 := ptr (src (tbl hpel_ref1 qpel_idx)) (offset + b2i ((mvx .& 3) =? 3)) in
    pixel_avg dst od i_dst_stride src1 i_src_stride src2 i_src_stride i_width i_height
  else mc_copy src1 i_src_stride dst od i_dst_stride i_width i_height.

(** The returned pointer and stride; [dst] is a scratch block. *)
Definition get_ref (dst : mem) (i_dst_stride : Z) (src : Z -> mem) (i_src_stride mvx mvy : Z) (i_width i_height : nat) : mem * Z :=
  let qpel_idx := ((mvy .& 3) << 2) + (mvx .& 3) in
  let offset := (mvy >> 2) * i_src_stride + (mvx >> 2) in
  let src1 := ptr (src (tbl hpel_ref0 qpel_idx)) (offset + b2i ((mvy .& 3) =? 3) * i_src_stride) in
  if i2b (qpel_idx .& 5) then
    let src2 := ptr (src (tbl hpel_ref1 qpel_idx)) (offset + b2i ((mvx .& 3) =? 3)) in
    (pixel_avg dst 0 i_dst_stride src1 i_src_stride src2 i_src_stride i_width i_height, i_dst_stride)
  else (src1, i_src_stride).

(** ** Chroma, in eighths of a sample *)
Definition mc_chroma (dst : mem) (od i_dst_stride : Z) (src : mem) (i_src_stride mvx mvy : Z) (i_width i_height : nat) : mem :=
  let d8x := mvx .& 0x07 in
  let d8y := mvy .& 0x07 in
  let cA := (8 - d8x) * (8 - d8y) in
  let cB := d8x * (8 - d8y) in
  let cC := (8 - d8x) * d8y in
  let cD := d8x * d8y in
  let src := ptr src ((mvy >> 3) * i_src_stride + (mvx >> 3)) in
  for_ i_height 0 (fun y dst => for_ i_width 0 (fun x dst =>
    st8 dst (od + y * i_dst_stride + x)
      ((cA * src (y * i_src_stride + x) + cB * src (y * i_src_stride + x + 1) +
        cC * src ((y + 1) * i_src_stride + x) + cD * src ((y + 1) * i_src_stride + x + 1) + 32) >> 6)) dst) dst.

(** ** Half resolution planes of the lookahead *)
Definition FILTER (a b c d : Z) : Z := (((a + b + 1) >> 1) + ((c + d + 1) >> 1) + 1) >> 1.
Definition frame_init_lowres_core (src0 dst0 dsth dstv dstc : mem) (src_stride dst_stride : Z) (width height : nat) : mem * mem * mem * mem :=
  for_ height 0 (fun y st =>
    let s0 x := src0 (2 * y * src_stride + x) in
    let s1 x := src0 ((2 * y + 1) * src_stride + x) in
    let s2 x := src0 ((2 * y + 2) * src_stride + x) in
    for_ width 0 (fun x '(dst0, dsth, dstv, dstc) =>
      let at_ := y * dst_stride + x in
      (st8 dst0 at_ (FILTER (s0 (2*x)) (s1 (2*x)) (s0 (2*x+1)) (s1 (2*x+1))),
       st8 dsth at_ (FILTER (s0 (2*x+1)) (s1 (2*x+1)) (s0 (2*x+2)) (s1 (2*x+2))),
       st8 dstv at_ (FILTER (s1 (2*x)) (s2 (2*x)) (s1 (2*x+1)) (s2 (2*x+1))),
       st8 dstc at_ (FILTER (s1 (2*x+1)) (s2 (2*x+1)) (s1 (2*x+2)) (s2 (2*x+2))))) st) (dst0, dsth, dstv, dstc).

(** * Sample interpolation of the standard (clause 8.4.2.2)

    [p x y] is the reference picture, extended beyond its edges. *)
Definition tap6 (f : Z -> Z) : Z := f (-2) - 5 * f (-1) + 20 * f 0 + 20 * f 1 - 5 * f 2 + f 3.
Definition std_h1 (p : Z -> Z -> Z) (x y : Z) : Z := tap6 (fun i => p (x + i) y).
Definition std_v1 (p : Z -> Z -> Z) (x y : Z) : Z := tap6 (fun i => p x (y + i)).
(** The half samples b, h and j of the sample at [x, y]. *)
Definition std_b (p : Z -> Z -> Z) (x y : Z) : Z := clip1 ((std_h1 p x y + 16) >> 5).
Definition std_h (p : Z -> Z -> Z) (x y : Z) : Z := clip1 ((std_v1 p x y + 16) >> 5).
Definition std_j (p : Z -> Z -> Z) (x y : Z) : Z := clip1 ((tap6 (fun i => std_v1 p (x + i) y) + 512) >> 10).
Definition avg (a b : Z) : Z := (a + b + 1) >> 1.
(** The sample at quarters [xf, yf] of the sample at [x, y]. *)
Definition std_luma (p : Z -> Z -> Z) (x y xf yf : Z) : Z :=
  let G := p x y in let b := std_b p x y in let h := std_h p x y in let j := std_j p x y in
  let m := std_h p (x + 1) y in let s := std_b p x (y + 1) in
  nth (Z.to_nat (4 * yf + xf))
    [ G; avg G b; b; avg (p (x + 1) y) b;
      avg G h; avg b h; avg b j; avg b m;
      h; avg h j; j; avg j m;
      avg (p x (y + 1)) h; avg h s; avg j s; avg m s ] 0.
(** Chroma at eighths [xf, yf]. *)
Definition std_chroma (p : Z -> Z -> Z) (x y xf yf : Z) : Z :=
  ((8 - xf) * (8 - yf) * p x y + xf * (8 - yf) * p (x + 1) y + (8 - xf) * yf * p x (y + 1) + xf * yf * p (x + 1) (y + 1) + 32) >> 6.
(** The weighted mean of two predictions with weights of 64ths (implicit mode), or the mean. *)
Definition std_bipred (w0 : Z) (a b : Z) : Z := if w0 =? 32 then avg a b else clip1 ((a * w0 + b * (64 - w0) + 32) >> 6).

(** * Properties *)
Definition bytes_2d (p : Z -> Z -> Z) : Prop := forall x y, 0 <= p x y < 256.

Lemma avg_byte a b : 0 <= a < 256 -> 0 <= b < 256 -> 0 <= avg a b < 256.
Proof. intros. unfold avg. rewrite Z.shiftr_div_pow2 by lia. change (2 ^ 1) with 2. Z.to_euclidean_division_equations. lia. Qed.
Lemma avg_comm a b : avg a b = avg b a.
Proof. unfold avg. f_equal. lia. Qed.
Lemma std_b_byte p x y : 0 <= std_b p x y < 256.
Proof. apply clip1_byte. Qed.
Lemma std_h_byte p x y : 0 <= std_h p x y < 256.
Proof. apply clip1_byte. Qed.
Lemma std_j_byte p x y : 0 <= std_j p x y < 256.
Proof. apply clip1_byte. Qed.
Create HintDb mc.
#[export] Hint Resolve avg_byte std_b_byte std_h_byte std_j_byte : mc.

(** Block [od] of rows [stride] apart holds [g]; the rest of the memory is as before. *)
Definition in_rect (od stride w h q : Z) : Prop := exists y x, 0 <= y < h /\ 0 <= x < w /\ q = od + y * stride + x.
Definition block_is (before after : mem) (od stride w h : Z) (g : Z -> Z -> Z) : Prop :=
  (forall x y, 0 <= x < w -> 0 <= y < h -> after (od + y * stride + x) = g x y) /\
  (forall q, ~ in_rect od stride w h q -> after q = before q).

Lemma rect_inj od stride w h : 0 <= w <= stride -> forall y x y' x', 0 <= y < h -> 0 <= x < w -> 0 <= y' < h -> 0 <= x' < w ->
  od + y * stride + x = od + y' * stride + x' -> y = y' /\ x = x'.
Proof. intros Hw y x y' x' Hy Hx Hy' Hx' E. assert (y = y') by nia. subst. lia. Qed.

(** A block written byte by byte. *)
Lemma write_block dst od stride (w h : nat) (v : Z -> Z -> Z) g : Z.of_nat w <= stride ->
  (forall x y, 0 <= x < Z.of_nat w -> 0 <= y < Z.of_nat h -> v x y = g x y /\ 0 <= g x y < 256) ->
  block_is dst (for_ h 0 (fun y dst => for_ w 0 (fun x dst => st8 dst (od + y * stride + x) (v x y)) dst) dst) od stride (Z.of_nat w) (Z.of_nat h) g.
Proof.
  intros Hw Hv.
  destruct (for_block h w (fun y x => od + y * stride + x) (fun y x _ => u8 (v x y)) dst) as [H1 H2].
  { intros y x y' x'. apply rect_inj. lia. }
  split.
  - intros x y Hx Hy. destruct (Hv x y Hx Hy) as [E B]. etransitivity; [by apply H1|]. rewrite E. by apply uw_small.
  - intros q Hq. apply H2. intros y x Hy Hx ->. apply Hq. by exists y, x.
Qed.

Lemma block_is_ext before after od stride w h g g' : (forall x y, 0 <= x < w -> 0 <= y < h -> g x y = g' x y) ->
  block_is before after od stride w h g -> block_is before after od stride w h g'.
Proof. intros E [H1 H2]. split; [|done]. intros x y Hx Hy. rewrite <- E by done. by apply H1. Qed.

(** ** Averages *)
Lemma pixel_avg_spec dst od i_dst src1 i1 src2 i2 w h : Z.of_nat w <= i_dst -> bytes_ok src1 -> bytes_ok src2 ->
  block_is dst (pixel_avg dst od i_dst src1 i1 src2 i2 w h) od i_dst (Z.of_nat w) (Z.of_nat h)
    (fun x y => avg (src1 (y * i1 + x)) (src2 (y * i2 + x))).
Proof. intros Hw H1 H2. apply write_block; [done|]. intros x y _ _. split; [done|]. apply avg_byte; auto. Qed.

Lemma fold_left_snoc {A B} (f : A -> B -> A) l x a : fold_left f (l ++ [x]) a = f (fold_left f l a) x.
Proof. by rewrite fold_left_app. Qed.

(** The unrolled row is the loop over its width. *)
Lemma weight_row (w : nat) (op : Z -> mem -> mem) dst : w = 2%nat \/ w = 4%nat \/ w = 8%nat \/ w = 16%nat ->
  (let ops l dst := fold_left (fun dst x => op x dst) l dst in
   let dst := ops [0; 1] dst in
   if (w =? 2)%nat then dst else
   let dst := ops [2; 3] dst in
   if (w =? 4)%nat then dst else
   let dst := ops [4; 5; 6; 7] dst in
   if (w =? 8)%nat then dst else
   ops [8; 9; 10; 11; 12; 13; 14; 15] dst) = for_ w 0 op dst.
Proof. by intros [->|[->|[->| ->]]]. Qed.

Lemma mc_avg_spec w h dst od i_dst src1 i1 src2 i2 weight : w = 2%nat \/ w = 4%nat \/ w = 8%nat \/ w = 16%nat ->
  Z.of_nat w <= i_dst -> bytes_ok src1 -> bytes_ok src2 -> -128 <= weight <= 192 ->
  block_is dst (PIXEL_AVG_C w h dst od i_dst src1 i1 src2 i2 weight) od i_dst (Z.of_nat w) (Z.of_nat h)
    (fun x y => std_bipred weight (src1 (y * i1 + x)) (src2 (y * i2 + x))).
Proof.
  intros Hw Hi H1 H2 Hwt. unfold PIXEL_AVG_C, std_bipred. destruct (weight =? 32).
  - apply write_block; [done|]. intros x y _ _. split; [done|]. apply avg_byte; auto.
  - unfold pixel_avg_weight_wxh.
    rewrite (for_ext _ _ _ (fun y dst => for_ w 0 (fun x dst => st8 dst (od + y * i_dst + x)
      (x264_clip_uint8 ((src1 (y * i1 + x) * weight + src2 (y * i2 + x) * (64 - weight) + (1 << 5)) >> 6))) dst))
      by (intros y s _; apply (weight_row w (fun x dst => st8 dst (od + y * i_dst + x) _)); done).
    apply write_block; [done|]. intros x y _ _. split; [|apply clip1_byte].
    specialize (H1 (y * i1 + x)). specialize (H2 (y * i2 + x)). change (1 << 5) with 32.
    rewrite x264_clip_uint8_spec; [done|]. rewrite Z.shiftr_div_pow2 by lia. change (2 ^ 6) with 64. Z.to_euclidean_division_equations. nia.
Qed.

(** ** The planes *)

(** Plane [k] of the reference is G, b, h or j of [p] at the positions of a rectangle. *)
Definition std_plane_k (k : Z) (p : Z -> Z -> Z) (x y : Z) : Z :=
  if k =? 0 then p x y else if k =? 1 then std_b p x y else if k =? 2 then std_h p x y else std_j p x y.
Definition planes_of (src : Z -> mem) (stride : Z) (p : Z -> Z -> Z) (x0 x1 y0 y1 : Z) : Prop :=
  forall k x y, 0 <= k < 4 -> x0 <= x < x1 -> y0 <= y < y1 -> src k (y * stride + x) = std_plane_k k p x y.

Lemma land3 v : 0 <= v .& 3 < 4.
Proof. change 3 with (Z.ones 2). rewrite Z.land_ones by lia. by apply Z.mod_pos_bound. Qed.

Lemma std_plane_k_byte k p x y : bytes_2d p -> 0 <= std_plane_k k p x y < 256.
Proof. intros Hp. unfold std_plane_k. repeat match goal with |- context [if ?b then _ else _] => destruct b end; auto with mc. Qed.

(** What [mc_luma] and [get_ref] read is the pair of half samples of the standard's table. *)
Lemma qpel_tables src stride p x0 x1 y0 y1 mvx mvy x y : planes_of src stride p x0 x1 y0 y1 ->
  let xi := (mvx >> 2) + x in let yi := (mvy >> 2) + y in
  x0 <= xi -> xi + 1 < x1 -> y0 <= yi -> yi + 1 < y1 ->
  let xf := mvx .& 3 in let yf := mvy .& 3 in let idx := (yf << 2) + xf in
  let offset := (mvy >> 2) * stride + (mvx >> 2) in
  let src1 := ptr (src (tbl hpel_ref0 idx)) (offset + b2i (yf =? 3) * stride) in
  let src2 := ptr (src (tbl hpel_ref1 idx)) (offset + b2i (xf =? 3)) in
  std_luma p xi yi xf yf = if i2b (idx .& 5) then avg (src1 (y * stride + x)) (src2 (y * stride + x)) else src1 (y * stride + x).
Proof.
  intros P xi yi H1 H2 H3 H4 xf yf. pose proof (land3 mvx) as Hx. pose proof (land3 mvy) as Hy. fold xf in Hx. fold yf in Hy.
  clearbody xf yf. intros idx offset src1 src2.
  assert (forall k dx dy, 0 <= k < 4 -> 0 <= dx <= 1 -> 0 <= dy <= 1 -> src k (offset + dy * stride + dx + (y * stride + x)) = std_plane_k k p (xi + dx) (yi + dy)) as E.
  { intros k dx dy Hk Hdx Hdy. rewrite <- P by (done || lia). f_equal. unfold offset, xi, yi. lia. }
  assert (forall k dy, 0 <= k < 4 -> 0 <= dy <= 1 -> ptr (src k) (offset + dy * stride) (y * stride + x) = std_plane_k k p xi (yi + dy)) as E1.
  { intros k dy Hk Hdy. rewrite <- (Z.add_0_r xi), <- E by lia. unfold ptr. f_equal. lia. }
  assert (forall k dx, 0 <= k < 4 -> 0 <= dx <= 1 -> ptr (src k) (offset + dx) (y * stride + x) = std_plane_k k p (xi + dx) yi) as E2.
  { intros k dx Hk Hdx. rewrite <- (Z.add_0_r yi), <- E by lia. unfold ptr. f_equal. lia. }
  subst src1 src2 idx. unfold std_luma. clearbody offset.
  assert (forall x y, std_plane_k 0 p x y = p x y) as K0 by done. assert (forall x y, std_plane_k 1 p x y = std_b p x y) as K1 by done.
  assert (forall x y, std_plane_k 2 p x y = std_h p x y) as K2 by done. assert (forall x y, std_plane_k 3 p x y = std_j p x y) as K3 by done.
  revert E1 E2 K0 K1 K2 K3. generalize (std_plane_k) as pl, (std_b p) as fb, (std_h p) as fh, (std_j p) as fj. clear -Hx Hy.
  intros pl fb fh fj E1 E2 K0 K1 K2 K3.
  each4 yf; each4 xf; cbn [Z.eqb Pos.eqb b2i]; rewrite E1, ?E2 by (vm_compute; intuition congruence);
    repeat match goal with |- context [tbl ?t ?i] => let k := eval vm_compute in (tbl t i) in change (tbl t i) with k end;
    rewrite ?K0, ?K1, ?K2, ?K3, ?Z.add_0_r; (reflexivity || apply avg_comm).
Qed.

Lemma mc_luma_spec src stride p x0 x1 y0 y1 dst od i_dst mvx mvy (w h : nat) :
  planes_of src stride p x0 x1 y0 y1 -> (forall k, bytes_ok (src k)) -> Z.of_nat w <= i_dst ->
  x0 <= mvx >> 2 -> (mvx >> 2) + Z.of_nat w < x1 -> y0 <= mvy >> 2 -> (mvy >> 2) + Z.of_nat h < y1 ->
  block_is dst (mc_luma dst od i_dst src stride mvx mvy w h) od i_dst (Z.of_nat w) (Z.of_nat h)
    (fun x y => std_luma p ((mvx >> 2) + x) ((mvy >> 2) + y) (mvx .& 3) (mvy .& 3)).
Proof.
  intros P Hb Hw Hx0 Hx1 Hy0 Hy1. unfold mc_luma.
  pose proof (fun x y => qpel_tables src stride p x0 x1 y0 y1 mvx mvy x y P) as Q. cbv zeta in Q |- *.
  destruct (i2b (_ .& 5)).
  - eapply block_is_ext; [|apply pixel_avg_spec; [done|intros a; apply Hb|intros a; apply Hb]]. intros x y Hx Hy. by rewrite Q by lia.
  - apply write_block; [done|]. intros x y Hx Hy. rewrite Q by lia. split; [done|apply Hb].
Qed.

Lemma in_rect_dec od stride w h q : in_rect od stride w h q \/ ~ in_rect od stride w h q.
Proof.
  unfold in_rect. destruct (decide (Exists (fun y => Exists (fun x => q = od + y * stride + x) (seqZ 0 w)) (seqZ 0 h))) as [H|H].
  - left. apply list.Exists_exists in H as (y & Hy%elem_of_seqZ & (x & Hx%elem_of_seqZ & ->)%list.Exists_exists). exists y, x. repeat split; lia.
  - right. intros (y & x & Hy & Hx & ->). apply H. apply list.Exists_exists. exists y. split; [apply elem_of_seqZ; lia|].
    apply list.Exists_exists. exists x. split; [apply elem_of_seqZ; lia|done].
Qed.

(** The view that [get_ref] returns. *)
Lemma get_ref_spec src stride p x0 x1 y0 y1 dst i_dst mvx mvy (w h : nat) :
  planes_of src stride p x0 x1 y0 y1 -> (forall k, bytes_ok (src k)) -> bytes_ok dst -> Z.of_nat w <= i_dst ->
  x0 <= mvx >> 2 -> (mvx >> 2) + Z.of_nat w < x1 -> y0 <= mvy >> 2 -> (mvy >> 2) + Z.of_nat h < y1 ->
  let '(r, i_r) := get_ref dst i_dst src stride mvx mvy w h in
  bytes_ok r /\ forall x y, 0 <= x < Z.of_nat w -> 0 <= y < Z.of_nat h ->
    r (y * i_r + x) = std_luma p ((mvx >> 2) + x) ((mvy >> 2) + y) (mvx .& 3) (mvy .& 3).
Proof.
  intros P Hb Hd Hw Hx0 Hx1 Hy0 Hy1. unfold get_ref.
  pose proof (fun x y => qpel_tables src stride p x0 x1 y0 y1 mvx mvy x y P) as Q. cbv zeta in Q |- *.
  destruct (i2b (_ .& 5)).
  - match goal with |- bytes_ok (pixel_avg _ _ _ ?a _ ?b _ _ _) /\ _ =>
      destruct (pixel_avg_spec dst 0 i_dst a stride b stride w h Hw (fun q => Hb _ _) (fun q => Hb _ _)) as [H1 H2] end.
    split.
    + intros q. destruct (in_rect_dec 0 i_dst (Z.of_nat w) (Z.of_nat h) q) as [(y & x & Hy & Hx & ->)|Hn]; [|by rewrite H2].
      rewrite H1 by done. apply avg_byte; apply Hb.
    + intros x y Hx Hy. rewrite <- (Z.add_0_l (y * i_dst)), H1, Q by lia. done.
  - split; [intros q; apply Hb|]. intros x y Hx Hy. by rewrite Q by lia.
Qed.

(** ** Chroma *)
Lemma land7 v : 0 <= v .& 7 < 8.
Proof. change 7 with (Z.ones 3). rewrite Z.land_ones by lia. by apply Z.mod_pos_bound. Qed.

Lemma std_chroma_byte p x y xf yf : bytes_2d p -> 0 <= xf < 8 -> 0 <= yf < 8 -> 0 <= std_chroma p x y xf yf < 256.
Proof.
  intros Hp Hx Hy. unfold std_chroma.
  pose proof (Hp x y) as A. pose proof (Hp (x + 1) y) as B. pose proof (Hp x (y + 1)) as C. pose proof (Hp (x + 1) (y + 1)) as D.
  revert A B C D. generalize (p x y), (p (x + 1) y), (p x (y + 1)), (p (x + 1) (y + 1)). intros a b c d A B C D.
  rewrite Z.shiftr_div_pow2 by lia. change (2 ^ 6) with 64.
  assert (0 <= (8 - xf) * (8 - yf) /\ 0 <= xf * (8 - yf) /\ 0 <= (8 - xf) * yf /\ 0 <= xf * yf /\
    (8 - xf) * (8 - yf) + xf * (8 - yf) + (8 - xf) * yf + xf * yf = 64) as W by (repeat split; nia).
  revert W. generalize ((8 - xf) * (8 - yf)), (xf * (8 - yf)), ((8 - xf) * yf), (xf * yf). intros u v w t W.
  split; [apply Z.div_pos; nia|]. apply Z.div_lt_upper_bound; nia.
Qed.

Lemma mc_chroma_spec src stride p dst od i_dst mvx mvy (w h : nat) : bytes_2d p -> Z.of_nat w <= i_dst ->
  (forall x y, mvx >> 3 <= x <= (mvx >> 3) + Z.of_nat w -> mvy >> 3 <= y <= (mvy >> 3) + Z.of_nat h -> src (y * stride + x) = p x y) ->
  block_is dst (mc_chroma dst od i_dst src stride mvx mvy w h) od i_dst (Z.of_nat w) (Z.of_nat h)
    (fun x y => std_chroma p ((mvx >> 3) + x) ((mvy >> 3) + y) (mvx .& 7) (mvy .& 7)).
Proof.
  intros Hp Hw Hsrc. unfold mc_chroma. cbv zeta. apply write_block; [done|]. intros x y Hx Hy.
  split; [|apply std_chroma_byte; [done|apply land7|apply land7]].
  assert (forall dx dy, 0 <= dx <= 1 -> 0 <= dy <= 1 ->
    ptr src ((mvy >> 3) * stride + (mvx >> 3)) ((y + dy) * stride + x + dx) = p ((mvx >> 3) + x + dx) ((mvy >> 3) + y + dy)) as E.
  { intros dx dy Hdx Hdy. rewrite <- Hsrc by lia. unfold ptr. f_equal. lia. }
  pose proof (E 0 0) as E00. pose proof (E 1 0) as E10. pose proof (E 0 1) as E01. pose proof (E 1 1) as E11. rewrite ?Z.add_0_r in *.
  unfold std_chroma. by rewrite E00, E10, E01, E11 by lia.
Qed.

(** ** The filter of half samples *)
Lemma for_pair {A B} n lo (f : Z -> A -> A) (g : Z -> B -> B) a b :
  for_ n lo (fun i '(a, b) => (f i a, g i b)) (a, b) = (for_ n lo f a, for_ n lo g b).
Proof. induction n as [|n IH]; [done|]. by rewrite !for_snoc, IH. Qed.

Lemma for_from0 {A} n lo (f : Z -> A -> A) a : for_ n lo f a = for_ n 0 (fun i => f (lo + i)) a.
Proof. by rewrite for_shift, Z.add_0_r. Qed.

(** Columns [x0] to [x1 - 1] of the row at [row] hold [g]; nothing else changes. *)
Definition row_is (before after : mem) (row x0 x1 : Z) (g : Z -> Z) : Prop :=
  (forall x, x0 <= x < x1 -> after (row + x) = g x) /\ (forall q, ~ row + x0 <= q < row + x1 -> after q = before q).

Lemma write_row (w : nat) m row x0 x1 (v g : Z -> Z) : x1 = x0 + Z.of_nat w -> (forall x, x0 <= x < x1 -> v x = g x /\ 0 <= g x < 256) ->
  row_is m (for_ w x0 (fun x m => st8 m (row + x) (v x)) m) row x0 x1 g.
Proof.
  intros -> Hv. rewrite for_from0.
  destruct (for_row w (fun x => row + (x0 + x)) (fun x _ => u8 (v (x0 + x))) m) as [R1 R2]; [lia|]. split.
  - intros x Hx. destruct (Hv x Hx) as [E B]. pose proof (R1 (x - x0) ltac:(lia)) as R. cbv beta in R. replace (x0 + (x - x0)) with x in R by lia.
    etransitivity; [exact R|]. rewrite E. by apply uw_small.
  - intros q Hq. apply R2. intros x Hx ->. apply Hq. lia.
Qed.

Lemma tap6_range (f : Z -> Z) lo hi : (forall i, lo <= f i <= hi) -> 42 * lo - 10 * hi <= tap6 f <= 42 * hi - 10 * lo.
Proof. intros Hf. unfold tap6. pose proof (Hf (-2)). pose proof (Hf (-1)). pose proof (Hf 0). pose proof (Hf 1). pose proof (Hf 2). pose proof (Hf 3). lia. Qed.

Lemma TAPFILTER_tap6 pix x d : TAPFILTER pix x d = tap6 (fun i => pix (x + i * d)).
Proof.
  unfold TAPFILTER, tap6. replace (x + -2 * d) with (x - 2 * d) by lia. replace (x + -1 * d) with (x - d) by lia. replace (x + 0 * d) with x by lia.
  replace (x + 1 * d) with (x + d) by lia. lia.
Qed.

Lemma shift_clip v k : 0 <= k -> Z.abs v < 2 ^ 31 -> x264_clip_uint8 (v >> k) = clip1 (v >> k).
Proof.
  intros Hk Hv. apply x264_clip_uint8_spec. rewrite Z.shiftr_div_pow2 by done. pose proof (pow2_pos k Hk).
  split; [apply Z.lt_le_trans with (- 2 ^ 31 + 1); [lia|apply Z.div_le_lower_bound; nia]|apply Z.div_lt_upper_bound; nia].
Qed.

(** The source seen from [offs]. *)
Definition view (m : mem) (offs stride x y : Z) : Z := m (offs + y * stride + x).

(** What a row of [hpel_filter] does. *)
Definition hpel_row (src : mem) (offs stride : Z) (width : nat) (y : Z) (st : mem * mem * mem * mem) : mem * mem * mem * mem :=
  let '(dsth, dstv, dstc, buf) := st in
  let row := offs + y * stride in
  let '(dstv, buf) := for_ (width + 5) (-2) (fun x '(dstv, buf) =>
    let v := TAPFILTER (ptr src row) x stride in
    (st8 dstv (row + x) (x264_clip_uint8 ((v + 16) >> 5)), upd buf (x + 2) (s16 v))) (dstv, buf) in
  let dstc := for_ width 0 (fun x dstc => st8 dstc (row + x) (x264_clip_uint8 ((TAPFILTER (ptr buf 2) x 1 + 512) >> 10))) dstc in
  let dsth := for_ width 0 (fun x dsth => st8 dsth (row + x) (x264_clip_uint8 ((TAPFILTER (ptr src row) x 1 + 16) >> 5))) dsth in
  (dsth, dstv, dstc, buf).

Lemma view_taps src offs stride x y : bytes_ok src ->
  TAPFILTER (ptr src (offs + y * stride)) x stride = std_v1 (view src offs stride) x y /\
  TAPFILTER (ptr src (offs + y * stride)) x 1 = std_h1 (view src offs stride) x y /\
  - 2550 <= std_v1 (view src offs stride) x y <= 10710 /\ - 2550 <= std_h1 (view src offs stride) x y <= 10710.
Proof.
  intros Hs. rewrite !TAPFILTER_tap6. unfold std_v1, std_h1.
  assert (forall a, 0 <= src a <= 255) as B by (intros a; specialize (Hs a); lia).
  split; [|split; [|split]].
  - unfold tap6, view, ptr. repeat (f_equal; try lia).
  - unfold tap6, view, ptr. repeat (f_equal; try lia).
  - apply (tap6_range _ 0 255). intros i. apply B.
  - apply (tap6_range _ 0 255). intros i. apply B.
Qed.

Lemma hpel_row_spec src offs stride (width : nat) y dsth dstv dstc buf : bytes_ok src ->
  let '(dsth', dstv', dstc', _) := hpel_row src offs stride width y (dsth, dstv, dstc, buf) in
  let p := view src offs stride in let row := offs + y * stride in
  row_is dsth dsth' row 0 (Z.of_nat width) (fun x => std_b p x y) /\
  row_is dstv dstv' row (-2) (Z.of_nat width + 3) (fun x => std_h p x y) /\
  row_is dstc dstc' row 0 (Z.of_nat width) (fun x => std_j p x y).
Proof.
  intros Hs. unfold hpel_row.
  pose proof (fun x => view_taps src offs stride x y Hs) as V. set (p := view src offs stride) in *. set (row := offs + y * stride) in *.
  cbv zeta. rewrite (for_pair (width + 5) (-2) (fun x dstv => st8 dstv (row + x) (x264_clip_uint8 ((TAPFILTER (ptr src row) x stride + 16) >> 5)))
    (fun x buf => upd buf (x + 2) (s16 (TAPFILTER (ptr src row) x stride)))).
  set (buf' := for_ (width + 5) (-2) _ buf).
  assert (forall x, -2 <= x < Z.of_nat width + 3 -> buf' (x + 2) = std_v1 p x y) as B.
  { intros x Hx. subst buf'. rewrite for_from0.
    destruct (for_row (width + 5) (fun x => -2 + x + 2) (fun x _ => s16 (TAPFILTER (ptr src row) (-2 + x) stride)) buf) as [R _]; [lia|].
    specialize (R (x + 2) ltac:(lia)). cbv beta in R. replace (-2 + (x + 2) + 2) with (x + 2) in R by lia. rewrite R.
    replace (-2 + (x + 2)) with x by lia. destruct (V x) as (-> & _ & Bv & _). apply sw_small; lia. }
  assert (forall f x x1 x2, (forall x, x1 <= x < x2 -> f x = std_v1 p x y) -> x1 <= x - 2 -> x + 3 < x2 -> TAPFILTER f x 1 = tap6 (fun i => std_v1 p (x + i) y)) as TC.
  { intros f x x1 x2 Hf H1 H2. rewrite TAPFILTER_tap6. unfold tap6. rewrite !Z.mul_1_r, !Hf by lia. done. }
  split; [|split].
  - apply (write_row width dsth row 0 (Z.of_nat width) (fun x => x264_clip_uint8 ((TAPFILTER (ptr src row) x 1 + 16) >> 5)) (fun x => std_b p x y)); [lia|].
    intros x _. split; [|apply std_b_byte]. destruct (V x) as (_ & -> & _ & Bh). apply shift_clip; lia.
  - apply (write_row (width + 5) dstv row (-2) (Z.of_nat width + 3) (fun x => x264_clip_uint8 ((TAPFILTER (ptr src row) x stride + 16) >> 5)) (fun x => std_h p x y)); [lia|].
    intros x _. split; [|apply std_h_byte]. destruct (V x) as (-> & _ & Bv & _). apply shift_clip; lia.
  - apply (write_row width dstc row 0 (Z.of_nat width) (fun x => x264_clip_uint8 ((TAPFILTER (ptr buf' 2) x 1 + 512) >> 10)) (fun x => std_j p x y)); [lia|].
    intros x Hx. split; [|apply std_j_byte].
    rewrite (TC (ptr buf' 2) x (-2) (Z.of_nat width + 3)) by (lia || (intros x' Hx'; unfold ptr; rewrite Z.add_comm; by apply B)).
    apply shift_clip; [lia|]. pose proof (tap6_range (fun i => std_v1 p (x + i) y) (-2550) 10710 (fun i => proj1 (proj2 (proj2 (V (x + i)))))). lia.
Qed.

(** The rows of a plane: those of the rectangle hold [g], and nothing else changes. *)
Definition rows_are (before after : mem) (offs stride x0 x1 h : Z) (g : Z -> Z -> Z) : Prop :=
  (forall x y, x0 <= x < x1 -> 0 <= y < h -> after (offs + y * stride + x) = g x y) /\
  (forall q, ~ in_rect (offs + x0) stride (x1 - x0) h q -> after q = before q).

Lemma rows_are_step before m after offs stride x0 x1 h g : 0 <= h -> x1 - x0 <= stride ->
  rows_are before m offs stride x0 x1 h g -> row_is m after (offs + h * stride) x0 x1 (fun x => g x h) ->
  rows_are before after offs stride x0 x1 (h + 1) g.
Proof.
  intros Hh Hs [H1 H2] [R1 R2]. split.
  - intros x y Hx Hy. destruct (Z.eq_dec y h) as [->|Hne]; [by apply R1|]. rewrite R2 by nia. apply H1; lia.
  - intros q Hq. rewrite R2, H2; [done|..].
    + intros (y & x & Hy & Hx & ->). apply Hq. exists y, x. lia.
    + intros Hr. apply Hq. exists h, (q - (offs + x0) - h * stride). lia.
Qed.

(** [hpel_filter] computes the half samples of its rectangle. *)
Lemma hpel_filter_spec dsth dstv dstc src offs stride (width height : nat) buf : bytes_ok src -> Z.of_nat width + 5 <= stride ->
  let '(dsth', dstv', dstc') := hpel_filter dsth dstv dstc src offs stride width height buf in
  let p := view src offs stride in let w := Z.of_nat width in let h := Z.of_nat height in
  rows_are dsth dsth' offs stride 0 w h (std_b p) /\ rows_are dstv dstv' offs stride (-2) (w + 3) h (std_h p) /\ rows_are dstc dstc' offs stride 0 w h (std_j p).
Proof.
  intros Hs Hw. unfold hpel_filter. change (fun y '(dsth, dstv, dstc, buf) => _) with (hpel_row src offs stride width).
  assert (forall m x0 x1 g, rows_are m m offs stride x0 x1 0 g) as R0 by (split; [lia|done]).
  set (p := view src offs stride).
  assert (let '(a, b, c, _) := for_ height 0 (hpel_row src offs stride width) (dsth, dstv, dstc, buf) in
    rows_are dsth a offs stride 0 (Z.of_nat width) (Z.of_nat height) (std_b p) /\
    rows_are dstv b offs stride (-2) (Z.of_nat width + 3) (Z.of_nat height) (std_h p) /\
    rows_are dstc c offs stride 0 (Z.of_nat width) (Z.of_nat height) (std_j p)) as K.
  { refine (for_inv (fun k st => let '(a, b, c, _) := st in rows_are dsth a offs stride 0 (Z.of_nat width) k (std_b p) /\
      rows_are dstv b offs stride (-2) (Z.of_nat width + 3) k (std_h p) /\ rows_are dstc c offs stride 0 (Z.of_nat width) k (std_j p)) height 0 _ _ _ _); [done|].
    intros y [[[a b] c] bf] Hy (Ka & Kb & Kc). pose proof (hpel_row_spec src offs stride width y a b c bf Hs) as R.
    destruct (hpel_row src offs stride width y (a, b, c, bf)) as [[[a' b'] c'] bf']. destruct R as (Ra & Rb & Rc).
    split; [|split]; (eapply rows_are_step; [lia|lia|eassumption|assumption]). }
  by destruct (for_ height 0 _ _) as [[[a b] c] bf].
Qed.
