(* ===== verification/MbMc.v ===== *)
(** * Inter prediction of macroblocks (common/macroblock.c)

    [x264_mb_mc] and the functions under it fill [p_fdec] from the reference planes.  They
    are shown to make every sample of the macroblock what the standard interpolates for the
    reference and motion vector that the cache holds for the sample's 4x4 block. *)
From S2P Require Import Prelude Mb CavlcMb Dct Encode Recon MbRecon Mc.

(** ** State *)

(** What motion compensation reads of [h->mb] beside the caches.  [p_fref list ref plane] is
    the plane seen from the macroblock's first sample: luma and its half sample planes are 0
    to 3, chroma 4 and 5. *)
Record mc_ctx := McCtx {
  mv_min : Z * Z;
  mv_max : Z * Z;
  p_fref : Z -> Z -> Z -> mem;
  i_stride : Z -> Z;
  bipred_weight : Z -> Z -> Z
}.

Definition x264_size2pixel : list (list Z) :=
  [ [ 0; 0; 0; 0; 0 ];
    [ 0; 6; 4; 0; 0 ];
    [ 0; 5; 3; 0; 1 ];
    [ 0; 0; 0; 0; 0 ];
    [ 0; 0; 2; 0; 0 ] ].

Section Mc.
Context (m : mc_ctx) (h : x264_t).
(** What the local blocks [tmp0] and [tmp1] hold before each call that fills them: the
    theorems are for any [undef]. *)
Context (undef : mem).

Definition mvx_of (list i8 : Z) : Z := x264_clip3 (cache_mv h list i8).1 (mv_min m).1 (mv_max m).1.
Definition mvy_of (list i8 : Z) : Z := x264_clip3 (cache_mv h list i8).2 (mv_min m).2 (mv_max m).2.
(** Chroma is offset when it comes from a field of the other parity. *)
Definition chroma_mvy (mvy i_ref : Z) : Z := if i2b (b_interlaced h .& i_ref) then mvy + ((i_mb_y h .& 1) * 4 - 2) else mvy.
Definition fdec_luma (x y : Z) : Z := 4 * y * FDEC_STRIDE + 4 * x.
Definition fdec_chroma (x y : Z) : Z := 2 * y * FDEC_STRIDE + 2 * x.

(** [x264_mb_mc_0xywh] and [x264_mb_mc_1xywh], which differ in the list. *)
Definition x264_mb_mc_lxywh (list : Z) (pic : mb_pic) (x y : Z) (width height : nat) : mb_pic :=
  let i8 := scan8 0 + x + 8 * y in
  let i_ref := cache_ref h list i8 in
  let mvx := mvx_of list i8 in
  let mvy := mvy_of list i8 in
  let pic := put_fdec pic 0 (mc_luma (p_fdec pic 0) (fdec_luma x y) FDEC_STRIDE (p_fref m list i_ref) (i_stride m 0)
    (mvx + 4*4*x) (mvy + 4*4*y) (4 * width) (4 * height)) in
  let mvy := chroma_mvy mvy i_ref in
  let pic := put_fdec pic 1 (mc_chroma (p_fdec pic 1) (fdec_chroma x y) FDEC_STRIDE
    (ptr (p_fref m list i_ref 4) (2*y*i_stride m 1 + 2*x)) (i_stride m 1) mvx mvy (2 * width) (2 * height)) in
  put_fdec pic 2 (mc_chroma (p_fdec pic 2) (fdec_chroma x y) FDEC_STRIDE
    (ptr (p_fref m list i_ref 5) (2*y*i_stride m 2 + 2*x)) (i_stride m 2) mvx mvy (2 * width) (2 * height)).
Definition x264_mb_mc_0xywh := x264_mb_mc_lxywh 0.
Definition x264_mb_mc_1xywh := x264_mb_mc_lxywh 1.

Definition x264_mb_mc_01xywh (pic : mb_pic) (x y : Z) (width height : nat) : mb_pic :=
  let i8 := scan8 0 + x + 8 * y in
  let i_ref0 := cache_ref h 0 i8 in
  let i_ref1 := cache_ref h 1 i8 in
  let weight := bipred_weight m i_ref0 i_ref1 in
  let mvx0 := mvx_of 0 i8 in
  let mvx1 := mvx_of 1 i8 in
  let mvy0 := mvy_of 0 i8 in
  let mvy1 := mvy_of 1 i8 in
  let i_mode := tbl2 x264_size2pixel (Z.of_nat height) (Z.of_nat width) in
  let '(src0, i_stride0) := get_ref undef 16 (p_fref m 0 i_ref0) (i_stride m 0) (mvx0 + 4*4*x) (mvy0 + 4*4*y) (4 * width) (4 * height) in
  let '(src1, i_stride1) := get_ref undef 16 (p_fref m 1 i_ref1) (i_stride m 0) (mvx1 + 4*4*x) (mvy1 + 4*4*y) (4 * width) (4 * height) in
  let pic := put_fdec pic 0 (mc_avg i_mode (p_fdec pic 0) (fdec_luma x y) FDEC_STRIDE src0 i_stride0 src1 i_stride1 weight) in
  let mvy0 := chroma_mvy mvy0 i_ref0 in
  let mvy1 := chroma_mvy mvy1 i_ref1 in
  let chroma plane pic :=
    let tmp0 := mc_chroma undef 0 16 (ptr (p_fref m 0 i_ref0 (3 + plane)) (2*y*i_stride m plane + 2*x)) (i_stride m plane) mvx0 mvy0 (2 * width) (2 * height) in
    let tmp1 := mc_chroma undef 0 16 (ptr (p_fref m 1 i_ref1 (3 + plane)) (2*y*i_stride m plane + 2*x)) (i_stride m plane) mvx1 mvy1 (2 * width) (2 * height) in
    put_fdec pic plane (mc_avg (i_mode + 3) (p_fdec pic plane) (fdec_chroma x y) FDEC_STRIDE tmp0 16 tmp1 16 weight) in
  chroma 2 (chroma 1 pic).

(** The prediction a direct block takes, by its references. *)
Definition mc_by_ref (pic : mb_pic) (i8 x y : Z) (width height : nat) : mb_pic :=
  if 0 <=? cache_ref h 0 i8 then
    if 0 <=? cache_ref h 1 i8 then x264_mb_mc_01xywh pic x y width height else x264_mb_mc_0xywh pic x y width height
  else x264_mb_mc_1xywh pic x y width height.

Definition x264_mb_mc_direct8x8 (pic : mb_pic) (x y : Z) : mb_pic :=
  let i8 := scan8 0 + x + 8 * y in
  if b_direct8x8_inference h then mc_by_ref pic i8 x y 2 2
  else
    let pic := mc_by_ref pic i8 (x + 0) (y + 0) 1 1 in
    let pic := mc_by_ref pic i8 (x + 1) (y + 0) 1 1 in
    let pic := mc_by_ref pic i8 (x + 0) (y + 1) 1 1 in
    mc_by_ref pic i8 (x + 1) (y + 1) 1 1.

(** The four shapes of an 8x8 block. *)
Definition mc_8x8 (mc : mb_pic -> Z -> Z -> nat -> nat -> mb_pic) (pic : mb_pic) (x y : Z) : mb_pic := mc pic x y 2%nat 2%nat.
Definition mc_8x4 (mc : mb_pic -> Z -> Z -> nat -> nat -> mb_pic) (pic : mb_pic) (x y : Z) : mb_pic :=
  let pic := mc pic x (y + 0) 2%nat 1%nat in
  mc pic x (y + 1) 2%nat 1%nat.
Definition mc_4x8 (mc : mb_pic -> Z -> Z -> nat -> nat -> mb_pic) (pic : mb_pic) (x y : Z) : mb_pic :=
  let pic := mc pic (x + 0) y 1%nat 2%nat in
  mc pic (x + 1) y 1%nat 2%nat.
Definition mc_4x4 (mc : mb_pic -> Z -> Z -> nat -> nat -> mb_pic) (pic : mb_pic) (x y : Z) : mb_pic :=
  let pic := mc pic (x + 0) (y + 0) 1%nat 1%nat in
  let pic := mc pic (x + 1) (y + 0) 1%nat 1%nat in
  let pic := mc pic (x + 0) (y + 1) 1%nat 1%nat in
  mc pic (x + 1) (y + 1) 1%nat 1%nat.

Definition x264_mb_mc_8x8 (pic : mb_pic) (i8 : Z) : mb_pic :=
  let x := 2 * (i8 .& 1) in
  let y := 2 * (i8 >> 1) in
  let sub := i_sub_partition h i8 in
  if sub =? D_L0_8x8 then mc_8x8 x264_mb_mc_0xywh pic x y
  else if sub =? D_L0_8x4 then mc_8x4 x264_mb_mc_0xywh pic x y
  else if sub =? D_L0_4x8 then mc_4x8 x264_mb_mc_0xywh pic x y
  else if sub =? D_L0_4x4 then mc_4x4 x264_mb_mc_0xywh pic x y
  else if sub =? D_L1_8x8 then mc_8x8 x264_mb_mc_1xywh pic x y
  else if sub =? D_L1_8x4 then mc_8x4 x264_mb_mc_1xywh pic x y
  else if sub =? D_L1_4x8 then mc_4x8 x264_mb_mc_1xywh pic x y
  else if sub =? D_L1_4x4 then mc_4x4 x264_mb_mc_1xywh pic x y
  else if sub =? D_BI_8x8 then mc_8x8 x264_mb_mc_01xywh pic x y
  else if sub =? D_BI_8x4 then mc_8x4 x264_mb_mc_01xywh pic x y
  else if sub =? D_BI_4x8 then mc_4x8 x264_mb_mc_01xywh pic x y
  else if sub =? D_BI_4x4 then mc_4x4 x264_mb_mc_01xywh pic x y
  else if sub =? D_DIRECT_8x8 then x264_mb_mc_direct8x8 pic x y
  else pic.

(** The prediction of part [i] of a B macroblock, by the tables of the lists it uses. *)
Definition mc_by_type (i : Z) (pic : mb_pic) (x y : Z) (width height : nat) : mb_pic :=
  let b_list0 := i2b (tbl2 x264_mb_type_list0_table (i_type h) i) in
  let b_list1 := i2b (tbl2 x264_mb_type_list1_table (i_type h) i) in
  if b_list0 && b_list1 then x264_mb_mc_01xywh pic x y width height
  else if b_list0 then x264_mb_mc_0xywh pic x y width height
  else if b_list1 then x264_mb_mc_1xywh pic x y width height
  else pic.

Definition x264_mb_mc (pic : mb_pic) : mb_pic :=
  if i_type h =? P_L0 then
    if i_partition h =? D_16x16 then x264_mb_mc_0xywh pic 0 0 4 4
    else if i_partition h =? D_16x8 then x264_mb_mc_0xywh (x264_mb_mc_0xywh pic 0 0 4 2) 0 2 4 2
    else if i_partition h =? D_8x16 then x264_mb_mc_0xywh (x264_mb_mc_0xywh pic 0 0 2 4) 2 0 2 4
    else pic
  else if (i_type h =? P_8x8) || (i_type h =? B_8x8) then for_ 4 0 (fun i pic => x264_mb_mc_8x8 pic i) pic
  else if (i_type h =? B_SKIP) || (i_type h =? B_DIRECT) then
    let pic := x264_mb_mc_direct8x8 pic 0 0 in
    let pic := x264_mb_mc_direct8x8 pic 2 0 in
    let pic := x264_mb_mc_direct8x8 pic 0 2 in
    x264_mb_mc_direct8x8 pic 2 2
  else
    if i_partition h =? D_16x16 then mc_by_type 0 pic 0 0 4 4
    else if i_partition h =? D_16x8 then mc_by_type 1 (mc_by_type 0 pic 0 0 4 2) 0 2 4 2
    else if i_partition h =? D_8x16 then mc_by_type 1 (mc_by_type 0 pic 0 0 2 4) 2 0 2 4
    else pic.
End Mc.

(** * The prediction of the standard

    [P list ref] is the luma plane of a reference and [C list ref plane] its chroma planes,
    extended beyond their edges, seen from the macroblock. *)
Section Standard.
Context (m : mc_ctx) (h : x264_t) (P : Z -> Z -> Z -> Z -> Z) (C : Z -> Z -> Z -> Z -> Z -> Z).

(** The lists a macroblock of the standard predicts a block from: those with a reference; P
    macroblocks have only list 0. *)
Definition pred_flag (list i8 : Z) : bool :=
  if (i_type h =? P_L0) || (i_type h =? P_8x8) then list =? 0 else 0 <=? cache_ref h list i8.

Definition std_mc_luma (list i8 X Y : Z) : Z :=
  let mvx := mvx_of m h list i8 in let mvy := mvy_of m h list i8 in
  std_luma (P list (cache_ref h list i8)) (X + (mvx >> 2)) (Y + (mvy >> 2)) (mvx .& 3) (mvy .& 3).
Definition std_mc_chroma (plane list i8 X Y : Z) : Z :=
  let r := cache_ref h list i8 in
  let mvx := mvx_of m h list i8 in let mvy := chroma_mvy h (mvy_of m h list i8) r in
  std_chroma (C list r plane) (X + (mvx >> 3)) (Y + (mvy >> 3)) (mvx .& 7) (mvy .& 7).
(** One prediction, or the weighted mean of two. *)
Definition std_combine (flag0 flag1 : bool) (w0 a b : Z) : Z :=
  if flag0 then if flag1 then std_bipred w0 a b else a else b.
Definition block_of (bx by_ : Z) : Z := scan8 0 + bx + 8 * by_.
Definition std_inter_luma (X Y : Z) : Z :=
  let i8 := block_of (X / 4) (Y / 4) in
  std_combine (pred_flag 0 i8) (pred_flag 1 i8) (bipred_weight m (cache_ref h 0 i8) (cache_ref h 1 i8)) (std_mc_luma 0 i8 X Y) (std_mc_luma 1 i8 X Y).
Definition std_inter_chroma (plane X Y : Z) : Z :=
  let i8 := block_of (X / 2) (Y / 2) in
  std_combine (pred_flag 0 i8) (pred_flag 1 i8) (bipred_weight m (cache_ref h 0 i8) (cache_ref h 1 i8))
    (std_mc_chroma plane 0 i8 X Y) (std_mc_chroma plane 1 i8 X Y).
End Standard.

(** * Partitions *)
Record part := Part { uses0 : bool; uses1 : bool; px : Z; py : Z; pw : nat; ph : nat }.

Definition mc_of (m : mc_ctx) (h : x264_t) (undef : mem) (u0 u1 : bool) : mb_pic -> Z -> Z -> nat -> nat -> mb_pic :=
  if u0 then if u1 then x264_mb_mc_01xywh m h undef else x264_mb_mc_0xywh m h else x264_mb_mc_1xywh m h.
Definition mc_part (m : mc_ctx) (h : x264_t) (undef : mem) (pic : mb_pic) (p : part) : mb_pic :=
  mc_of m h undef (uses0 p) (uses1 p) pic (px p) (py p) (pw p) (ph p).

Definition shape_8x8 (u0 u1 : bool) (x y : Z) : list part := [Part u0 u1 x y 2 2].
Definition shape_8x4 (u0 u1 : bool) (x y : Z) : list part := [Part u0 u1 x (y + 0) 2 1; Part u0 u1 x (y + 1) 2 1].
Definition shape_4x8 (u0 u1 : bool) (x y : Z) : list part := [Part u0 u1 (x + 0) y 1 2; Part u0 u1 (x + 1) y 1 2].
Definition shape_4x4 (u0 u1 : bool) (x y : Z) : list part :=
  [Part u0 u1 (x + 0) (y + 0) 1 1; Part u0 u1 (x + 1) (y + 0) 1 1; Part u0 u1 (x + 0) (y + 1) 1 1; Part u0 u1 (x + 1) (y + 1) 1 1].

Definition direct_parts (h : x264_t) (x y : Z) : list part :=
  let i8 := scan8 0 + x + 8 * y in
  let u0 := 0 <=? cache_ref h 0 i8 in let u1 := if u0 then 0 <=? cache_ref h 1 i8 else true in
  if b_direct8x8_inference h then shape_8x8 u0 u1 x y else shape_4x4 u0 u1 x y.

Definition sub_parts (h : x264_t) (i8 : Z) : list part :=
  let x := 2 * (i8 .& 1) in let y := 2 * (i8 >> 1) in
  let sub := i_sub_partition h i8 in
  if sub =? D_L0_8x8 then shape_8x8 true false x y else if sub =? D_L0_8x4 then shape_8x4 true false x y
  else if sub =? D_L0_4x8 then shape_4x8 true false x y else if sub =? D_L0_4x4 then shape_4x4 true false x y
  else if sub =? D_L1_8x8 then shape_8x8 false true x y else if sub =? D_L1_8x4 then shape_8x4 false true x y
  else if sub =? D_L1_4x8 then shape_4x8 false true x y else if sub =? D_L1_4x4 then shape_4x4 false true x y
  else if sub =? D_BI_8x8 then shape_8x8 true true x y else if sub =? D_BI_8x4 then shape_8x4 true true x y
  else if sub =? D_BI_4x8 then shape_4x8 true true x y else if sub =? D_BI_4x4 then shape_4x4 true true x y
  else if sub =? D_DIRECT_8x8 then direct_parts h x y else [].

Definition typed_part (h : x264_t) (i x y : Z) (w hh : nat) : list part :=
  let u0 := i2b (tbl2 x264_mb_type_list0_table (i_type h) i) in let u1 := i2b (tbl2 x264_mb_type_list1_table (i_type h) i) in
  if u0 || u1 then [Part u0 u1 x y w hh] else [].

Definition mb_parts (h : x264_t) : list part :=
  if i_type h =? P_L0 then
    if i_partition h =? D_16x16 then [Part true false 0 0 4 4]
    else if i_partition h =? D_16x8 then [Part true false 0 0 4 2; Part true false 0 2 4 2]
    else if i_partition h =? D_8x16 then [Part true false 0 0 2 4; Part true false 2 0 2 4] else []
  else if (i_type h =? P_8x8) || (i_type h =? B_8x8) then sub_parts h 0 ++ sub_parts h 1 ++ sub_parts h 2 ++ sub_parts h 3
  else if (i_type h =? B_SKIP) || (i_type h =? B_DIRECT) then direct_parts h 0 0 ++ direct_parts h 2 0 ++ direct_parts h 0 2 ++ direct_parts h 2 2
  else if i_partition h =? D_16x16 then typed_part h 0 0 0 4 4
  else if i_partition h =? D_16x8 then typed_part h 0 0 0 4 2 ++ typed_part h 1 0 2 4 2
  else if i_partition h =? D_8x16 then typed_part h 0 0 0 2 4 ++ typed_part h 1 2 0 2 4 else [].

Section Parts.
Context (m : mc_ctx) (h : x264_t) (undef : mem).
Let run := fold_left (mc_part m h undef).

Lemma run_app l l' pic : run (l ++ l') pic = run l' (run l pic).
Proof. apply fold_left_app. Qed.

Lemma run_part u0 u1 x y w hh l pic : run (Part u0 u1 x y w hh :: l) pic = run l (mc_of m h undef u0 u1 pic x y w hh).
Proof. reflexivity. Qed.
Lemma run_nil pic : run [] pic = pic.
Proof. reflexivity. Qed.
Lemma mc_of_0 : mc_of m h undef true false = x264_mb_mc_0xywh m h.
Proof. reflexivity. Qed.
Lemma mc_of_1 : mc_of m h undef false true = x264_mb_mc_1xywh m h.
Proof. reflexivity. Qed.
Lemma mc_of_01 : mc_of m h undef true true = x264_mb_mc_01xywh m h undef.
Proof. reflexivity. Qed.

Lemma by_ref_of pic i8 x y w hh : let u0 := 0 <=? cache_ref h 0 i8 in
  mc_by_ref m h undef pic i8 x y w hh = mc_of m h undef u0 (if u0 then 0 <=? cache_ref h 1 i8 else true) pic x y w hh.
Proof.
  unfold mc_by_ref. cbv zeta. destruct (0 <=? cache_ref h 0 i8), (0 <=? cache_ref h 1 i8); rewrite ?mc_of_0, ?mc_of_1, ?mc_of_01; reflexivity.
Qed.

Ltac run_shapes := unfold shape_8x8, shape_8x4, shape_4x8, shape_4x4, mc_8x8, mc_8x4, mc_4x8, mc_4x4; cbv zeta;
  rewrite ?run_part, ?run_nil, ?mc_of_0, ?mc_of_1, ?mc_of_01; try reflexivity.

Lemma direct_parts_run pic x y : x264_mb_mc_direct8x8 m h undef pic x y = run (direct_parts h x y) pic.
Proof.
  unfold x264_mb_mc_direct8x8, direct_parts. cbv zeta. rewrite !by_ref_of. cbv zeta. destruct (b_direct8x8_inference h); run_shapes.
Qed.

Lemma sub_parts_run pic i8 : x264_mb_mc_8x8 m h undef pic i8 = run (sub_parts h i8) pic.
Proof.
  unfold x264_mb_mc_8x8, sub_parts. cbv zeta.
  repeat match goal with |- (if ?c then _ else _) = _ => destruct c; [run_shapes|] end; [apply direct_parts_run|run_shapes].
Qed.

Lemma typed_part_run i pic x y w hh : mc_by_type m h undef i pic x y w hh = run (typed_part h i x y w hh) pic.
Proof.
  unfold mc_by_type, typed_part. cbv zeta. repeat match goal with |- context [i2b ?v] => destruct (i2b v) end; cbn [andb orb]; run_shapes.
Qed.

(** [x264_mb_mc] predicts the partitions one after the other. *)
Lemma mb_parts_run pic : x264_mb_mc m h undef pic = run (mb_parts h) pic.
Proof.
  unfold x264_mb_mc, mb_parts. destruct (i_type h =? P_L0).
  { repeat match goal with |- (if ?c then _ else _) = _ => destruct c; [run_shapes|] end; run_shapes. }
  destruct ((i_type h =? P_8x8) || _); [cbn [for_ Z.add Pos.add Pos.succ]; by rewrite !run_app, !sub_parts_run|].
  destruct ((i_type h =? B_SKIP) || _); [cbv zeta; by rewrite !run_app, !direct_parts_run|].
  repeat match goal with |- (if ?c then _ else _) = _ => destruct c; [rewrite ?run_app, !typed_part_run; reflexivity|] end; run_shapes.
Qed.
End Parts.

(** ** Which partition predicts a block *)
Definition contains (bx by_ : Z) (p : part) : bool :=
  (px p <=? bx) && (bx <? px p + Z.of_nat (pw p)) && (py p <=? by_) && (by_ <? py p + Z.of_nat (ph p)).
(** The last partition that has the block. *)
Definition owner (l : list part) (bx by_ : Z) : option part := find (contains bx by_) (rev l).

Lemma owner_snoc l p bx by_ : owner (l ++ [p]) bx by_ = if contains bx by_ p then Some p else owner l bx by_.
Proof. unfold owner. rewrite rev_app_distr. done. Qed.

Lemma owner_contains l bx by_ : existsb (contains bx by_) l = true -> exists p, owner l bx by_ = Some p /\ p ∈ l /\ contains bx by_ p = true.
Proof.
  intros H. unfold owner. destruct (find (contains bx by_) (rev l)) as [p|] eqn:E.
  - apply find_some in E as [E1 E2]. exists p. split; [done|]. split; [|done]. apply list_elem_of_In. by apply in_rev.
  - exfalso. apply existsb_exists in H as (p & Hp & Hc). pose proof (find_none _ _ E p (proj1 (in_rev l p) Hp)) as Hn. congruence.
Qed.

(** The geometry of a partition. *)
Definition part_sizes : list (nat * nat) := [(4, 4); (4, 2); (2, 4); (2, 2); (2, 1); (1, 2); (1, 1)]%nat.
Definition part_ok (p : part) : bool :=
  (0 <=? px p) && (px p + Z.of_nat (pw p) <=? 4) && (0 <=? py p) && (py p + Z.of_nat (ph p) <=? 4) &&
  existsb (fun s => (s.1 =? pw p)%nat && (s.2 =? ph p)%nat) part_sizes && (uses0 p || uses1 p).

Lemma direct_parts_ok h x y : x = 0 \/ x = 2 -> y = 0 \/ y = 2 -> forallb part_ok (direct_parts h x y) = true.
Proof.
  intros Hx Hy. unfold direct_parts. destruct (b_direct8x8_inference h), (0 <=? cache_ref h 0 (scan8 0 + x + 8 * y)), (0 <=? cache_ref h 1 (scan8 0 + x + 8 * y));
    destruct Hx as [->| ->], Hy as [->| ->]; reflexivity.
Qed.

Lemma sub_parts_ok h i8 : 0 <= i8 < 4 -> forallb part_ok (sub_parts h i8) = true.
Proof.
  intros Hi. unfold sub_parts. cbv zeta. each4 i8;
    (repeat match goal with |- forallb _ (if ?c then _ else _) = _ => destruct c; [first [reflexivity | apply direct_parts_ok; vm_compute; tauto]|] end; reflexivity).
Qed.

Lemma mb_parts_ok h : forallb part_ok (mb_parts h) = true.
Proof.
  unfold mb_parts. destruct (i_type h =? P_L0); [repeat match goal with |- forallb _ (if ?c then _ else _) = _ => destruct c; [reflexivity|] end; reflexivity|].
  destruct ((i_type h =? P_8x8) || _); [rewrite !forallb_app, !sub_parts_ok by lia; done|].
  destruct ((i_type h =? B_SKIP) || _); [rewrite !forallb_app, !direct_parts_ok by lia; done|].
  unfold typed_part. cbv zeta. repeat match goal with |- context [i2b ?v] => destruct (i2b v) end; repeat match goal with |- context [i_partition h =? ?k] => destruct (i_partition h =? k) end; reflexivity.
Qed.

(** ** Every block has a partition *)

(** Macroblock types that are predicted from references, with a partition of their kind. *)
Definition inter_ok (h : x264_t) : Prop :=
  (i_type h = P_L0 /\ In (i_partition h) [D_16x16; D_16x8; D_8x16]) \/
  ((i_type h = P_8x8 \/ i_type h = B_8x8) /\ forall i8, 0 <= i8 < 4 -> 0 <= i_sub_partition h i8 <= D_DIRECT_8x8) \/
  (i_type h = B_SKIP \/ i_type h = B_DIRECT) \/
  (B_L0_L0 <= i_type h < B_8x8 /\ In (i_partition h) [D_16x16; D_16x8; D_8x16]).

(** Concrete blocks of a quadrant. *)
Ltac each_block Hx Hy Hbx Hby := match type of Hbx with ?x <= ?bx < _ => match type of Hby with ?y <= ?by_ < _ =>
  let E1 := fresh in let E2 := fresh in
  assert (bx = x \/ bx = x + 1) as E1 by lia; assert (by_ = y \/ by_ = y + 1) as E2 by lia; clear Hbx Hby;
  destruct Hx as [->| ->], Hy as [->| ->], E1 as [->| ->], E2 as [->| ->] end end.

Lemma direct_parts_cover h x y bx by_ : x = 0 \/ x = 2 -> y = 0 \/ y = 2 -> x <= bx < x + 2 -> y <= by_ < y + 2 ->
  existsb (contains bx by_) (direct_parts h x y) = true.
Proof.
  intros Hx Hy Hbx Hby. unfold direct_parts. cbv zeta.
  each_block Hx Hy Hbx Hby; destruct (b_direct8x8_inference h); reflexivity.
Qed.

Lemma sub_parts_cover h i8 x y bx by_ : 0 <= i_sub_partition h i8 <= D_DIRECT_8x8 ->
  2 * (i8 .& 1) = x -> 2 * (i8 >> 1) = y -> x = 0 \/ x = 2 -> y = 0 \/ y = 2 -> x <= bx < x + 2 -> y <= by_ < y + 2 ->
  existsb (contains bx by_) (sub_parts h i8) = true.
Proof.
  intros Hs Ex Ey Hx Hy Hbx Hby. unfold sub_parts. cbv zeta. rewrite Ex, Ey. clear Ex Ey.
  destruct (Z.eqb_spec (i_sub_partition h i8) D_DIRECT_8x8) as [->|Hd]; [by apply direct_parts_cover|].
  each_block Hx Hy Hbx Hby;
  (repeat match goal with |- context [i_sub_partition h i8 =? ?k] => destruct (Z.eqb_spec (i_sub_partition h i8) k) as [?|?]; [reflexivity|] end;
   exfalso; unfold D_DIRECT_8x8, D_L0_8x8, D_L0_8x4, D_L0_4x8, D_L0_4x4, D_L1_8x8, D_L1_8x4, D_L1_4x8, D_L1_4x4, D_BI_8x8, D_BI_8x4, D_BI_4x8, D_BI_4x4 in *; lia).
Qed.

Lemma typed_tables t : B_L0_L0 <= t < B_8x8 -> forall i, 0 <= i < 2 -> i2b (tbl2 x264_mb_type_list0_table t i) || i2b (tbl2 x264_mb_type_list1_table t i) = true.
Proof.
  intros Ht i Hi.
  assert (all_range 8 9 (fun t => all_range 0 2 (fun i => i2b (tbl2 x264_mb_type_list0_table t i) || i2b (tbl2 x264_mb_type_list1_table t i))) = true) as C by (vm_compute; reflexivity).
  unfold B_L0_L0, B_8x8 in Ht. apply (all_range_spec 8 9 _ t) in C; [|lia]. by apply (all_range_spec 0 2 _ i) in C; [|lia].
Qed.

Lemma quadrants bx by_ : 0 <= bx < 4 -> 0 <= by_ < 4 ->
  (bx < 2 /\ by_ < 2) \/ (2 <= bx /\ by_ < 2) \/ (bx < 2 /\ 2 <= by_) \/ (2 <= bx /\ 2 <= by_).
Proof. lia. Qed.

Lemma mb_parts_cover h bx by_ : inter_ok h -> 0 <= bx < 4 -> 0 <= by_ < 4 -> existsb (contains bx by_) (mb_parts h) = true.
Proof.
  intros Hok Hbx Hby. unfold mb_parts. destruct Hok as [[-> Hp]|[[Ht Hs]|[Ht|[Ht Hp]]]].
  - cbn [Z.eqb Pos.eqb P_L0]. each4 bx; each4 by_; destruct Hp as [<-|[<-|[<-|[]]]]; reflexivity.
  - assert ((i_type h =? P_L0) = false) as -> by (destruct Ht as [-> | ->]; done).
    assert (((i_type h =? P_8x8) || (i_type h =? B_8x8)) = true) as -> by (destruct Ht as [-> | ->]; done).
    rewrite !existsb_app. destruct (quadrants bx by_ Hbx Hby) as [[? ?]|[[? ?]|[[? ?]|[? ?]]]].
    + rewrite (sub_parts_cover h 0 0 0) by (reflexivity || (apply Hs; lia) || lia); done.
    + rewrite (sub_parts_cover h 1 2 0) by (reflexivity || (apply Hs; lia) || lia); by rewrite !orb_true_r.
    + rewrite (sub_parts_cover h 2 0 2) by (reflexivity || (apply Hs; lia) || lia); by rewrite !orb_true_r.
    + rewrite (sub_parts_cover h 3 2 2) by (reflexivity || (apply Hs; lia) || lia); by rewrite !orb_true_r.
  - assert ((i_type h =? P_L0) = false) as -> by (destruct Ht as [-> | ->]; done).
    assert (((i_type h =? P_8x8) || (i_type h =? B_8x8)) = false) as -> by (destruct Ht as [-> | ->]; done).
    assert (((i_type h =? B_SKIP) || (i_type h =? B_DIRECT)) = true) as -> by (destruct Ht as [-> | ->]; done).
    rewrite !existsb_app. destruct (quadrants bx by_ Hbx Hby) as [[? ?]|[[? ?]|[[? ?]|[? ?]]]].
    + rewrite (direct_parts_cover h 0 0) by lia; done.
    + rewrite (direct_parts_cover h 2 0) by lia; by rewrite !orb_true_r.
    + rewrite (direct_parts_cover h 0 2) by lia; by rewrite !orb_true_r.
    + rewrite (direct_parts_cover h 2 2) by lia; by rewrite !orb_true_r.
  - unfold B_L0_L0, B_8x8 in Ht. assert ((i_type h =? P_L0) = false) as -> by (apply Z.eqb_neq; unfold P_L0; lia).
    assert (((i_type h =? P_8x8) || (i_type h =? B_8x8)) = false) as -> by (apply orb_false_iff; split; apply Z.eqb_neq; unfold P_8x8, B_8x8; lia).
    assert (((i_type h =? B_SKIP) || (i_type h =? B_DIRECT)) = false) as -> by (apply orb_false_iff; split; apply Z.eqb_neq; unfold B_SKIP, B_DIRECT; lia).
    unfold typed_part. rewrite !(typed_tables (i_type h)) by (unfold B_L0_L0, B_8x8; lia).
    each4 bx; each4 by_; destruct Hp as [<-|[<-|[<-|[]]]]; reflexivity.
Qed.

(** ** What a partition is predicted to be *)
Section Predict.
Context (m : mc_ctx) (h : x264_t) (undef : mem) (P : Z -> Z -> Z -> Z -> Z) (C : Z -> Z -> Z -> Z -> Z -> Z).

(** The planes of a reference over all the positions that clipped motion vectors reach. *)
Record ref_ok (list ref : Z) : Prop := {
  ro_luma : planes_of (p_fref m list ref) (i_stride m 0) (P list ref) ((mv_min m).1 >> 2) (((mv_max m).1 >> 2) + 17) ((mv_min m).2 >> 2) (((mv_max m).2 >> 2) + 17);
  ro_bytes : forall k, bytes_ok (p_fref m list ref k);
  ro_pixels : forall plane, bytes_2d (C list ref plane);
  ro_chroma : forall plane x y, 1 <= plane <= 2 -> (mv_min m).1 >> 3 <= x <= ((mv_max m).1 >> 3) + 8 ->
    ((mv_min m).2 - 2) >> 3 <= y <= (((mv_max m).2 + 2) >> 3) + 8 ->
    p_fref m list ref (3 + plane) (y * i_stride m plane + x) = C list ref plane x y
}.

Definition mv_range_ok : Prop := (mv_min m).1 <= (mv_max m).1 /\ (mv_min m).2 <= (mv_max m).2.

(** The references of a partition, which its first block has. *)
Definition part_refs (p : part) : Prop :=
  let i8 := block_of (px p) (py p) in
  (uses0 p = true -> ref_ok 0 (cache_ref h 0 i8)) /\ (uses1 p = true -> ref_ok 1 (cache_ref h 1 i8)) /\
  - 128 <= bipred_weight m (cache_ref h 0 i8) (cache_ref h 1 i8) <= 192.

(** The prediction by the vectors of the partition's first block. *)
Definition part_luma (p : part) (X Y : Z) : Z :=
  let i8 := block_of (px p) (py p) in
  std_combine (uses0 p) (uses1 p) (bipred_weight m (cache_ref h 0 i8) (cache_ref h 1 i8)) (std_mc_luma m h P 0 i8 X Y) (std_mc_luma m h P 1 i8 X Y).
Definition part_chroma (p : part) (plane X Y : Z) : Z :=
  let i8 := block_of (px p) (py p) in
  std_combine (uses0 p) (uses1 p) (bipred_weight m (cache_ref h 0 i8) (cache_ref h 1 i8))
    (std_mc_chroma m h C plane 0 i8 X Y) (std_mc_chroma m h C plane 1 i8 X Y).

Context (V : mv_range_ok).

Lemma clip3_range v lo hi : lo <= hi -> lo <= x264_clip3 v lo hi <= hi.
Proof. intros H. unfold x264_clip3. destruct (Z.ltb_spec v lo); [lia|]. destruct (Z.gtb_spec v hi); lia. Qed.
Lemma mvx_range list i8 : (mv_min m).1 <= mvx_of m h list i8 <= (mv_max m).1.
Proof. apply clip3_range, V. Qed.
Lemma mvy_range list i8 : (mv_min m).2 <= mvy_of m h list i8 <= (mv_max m).2.
Proof. apply clip3_range, V. Qed.
Lemma chroma_mvy_range list i8 r : (mv_min m).2 - 2 <= chroma_mvy h (mvy_of m h list i8) r <= (mv_max m).2 + 2.
Proof.
  pose proof (mvy_range list i8). unfold chroma_mvy. destruct (i2b _); [|lia].
  change 1 with (Z.ones 1). rewrite Z.land_ones by lia. pose proof (Z.mod_pos_bound (i_mb_y h) (2 ^ 1)). lia.
Qed.

Lemma shiftr_add_mul v k n : 0 <= n -> (v + 2 ^ n * k) >> n = (v >> n) + k.
Proof. intros Hn. rewrite !Z.shiftr_div_pow2 by lia. rewrite Z.mul_comm, Z.div_add by (pose proof (pow2_pos n); lia). done. Qed.
Lemma land_add_mul v k n : 0 <= n -> (v + 2 ^ n * k) .& Z.ones n = v .& Z.ones n.
Proof. intros Hn. rewrite !Z.land_ones by lia. rewrite Z.mul_comm, Z_mod_plus_full. done. Qed.

(** An offset of whole 4x4 blocks. *)
Lemma mv_offset v k : (v + 4*4*k) >> 2 = (v >> 2) + 4 * k /\ (v + 4*4*k) .& 3 = v .& 3.
Proof.
  replace (4*4*k) with (2 ^ 2 * (4 * k)) by (change (2 ^ 2) with 4; lia). split; [by apply shiftr_add_mul|]. by apply (land_add_mul v (4 * k) 2).
Qed.

Lemma shiftr_mono a b n : 0 <= n -> a <= b -> a >> n <= b >> n.
Proof. intros Hn H. rewrite !Z.shiftr_div_pow2 by lia. apply Z.div_le_mono; [apply pow2_pos; lia|done]. Qed.

(** *** Luma of one list *)
Lemma luma_block list i8 x y (w hh : nat) : ref_ok list (cache_ref h list i8) -> 0 <= x -> x + Z.of_nat w <= 4 -> 0 <= y -> y + Z.of_nat hh <= 4 ->
  forall dst od, block_is dst (mc_luma dst od FDEC_STRIDE (p_fref m list (cache_ref h list i8)) (i_stride m 0)
      (mvx_of m h list i8 + 4*4*x) (mvy_of m h list i8 + 4*4*y) (4 * w) (4 * hh)) od FDEC_STRIDE (Z.of_nat (4 * w)) (Z.of_nat (4 * hh))
    (fun x' y' => std_mc_luma m h P list i8 (4 * x + x') (4 * y + y')).
Proof.
  intros R Hx Hx4 Hy Hy4 dst od. destruct (mv_offset (mvx_of m h list i8) x) as [Ex Fx]. destruct (mv_offset (mvy_of m h list i8) y) as [Ey Fy].
  pose proof (mvx_range list i8) as [X1 X2]. pose proof (mvy_range list i8) as [Y1 Y2].
  pose proof (shiftr_mono _ _ 2 ltac:(lia) X1). pose proof (shiftr_mono _ _ 2 ltac:(lia) X2). pose proof (shiftr_mono _ _ 2 ltac:(lia) Y1). pose proof (shiftr_mono _ _ 2 ltac:(lia) Y2).
  eapply block_is_ext; [|apply (mc_luma_spec _ _ (P list (cache_ref h list i8)) _ _ _ _ dst od FDEC_STRIDE _ _ (4 * w) (4 * hh) (ro_luma _ _ R))];
    [|apply (ro_bytes _ _ R)|unfold FDEC_STRIDE; lia|rewrite ?Ex, ?Ey; lia..].
  intros x' y' _ _. cbv beta. rewrite Ex, Ey, Fx, Fy. unfold std_mc_luma. f_equal; lia.
Qed.

Lemma luma_ref list i8 x y (w hh : nat) : ref_ok list (cache_ref h list i8) -> bytes_ok undef -> 0 <= x -> x + Z.of_nat w <= 4 -> 0 <= y -> y + Z.of_nat hh <= 4 ->
  let '(r, i_r) := get_ref undef 16 (p_fref m list (cache_ref h list i8)) (i_stride m 0) (mvx_of m h list i8 + 4*4*x) (mvy_of m h list i8 + 4*4*y) (4 * w) (4 * hh) in
  bytes_ok r /\ forall x' y', 0 <= x' < Z.of_nat (4 * w) -> 0 <= y' < Z.of_nat (4 * hh) -> r (y' * i_r + x') = std_mc_luma m h P list i8 (4 * x + x') (4 * y + y').
Proof.
  intros R U Hx Hx4 Hy Hy4. destruct (mv_offset (mvx_of m h list i8) x) as [Ex Fx]. destruct (mv_offset (mvy_of m h list i8) y) as [Ey Fy].
  pose proof (mvx_range list i8) as [X1 X2]. pose proof (mvy_range list i8) as [Y1 Y2].
  pose proof (shiftr_mono _ _ 2 ltac:(lia) X1). pose proof (shiftr_mono _ _ 2 ltac:(lia) X2). pose proof (shiftr_mono _ _ 2 ltac:(lia) Y1). pose proof (shiftr_mono _ _ 2 ltac:(lia) Y2).
  pose proof (get_ref_spec _ _ (P list (cache_ref h list i8)) _ _ _ _ undef 16 (mvx_of m h list i8 + 4*4*x) (mvy_of m h list i8 + 4*4*y) (4 * w) (4 * hh) (ro_luma _ _ R) (ro_bytes _ _ R) U
    ltac:(lia) ltac:(rewrite Ex; lia) ltac:(rewrite Ex; lia) ltac:(rewrite Ey; lia) ltac:(rewrite Ey; lia)) as G.
  destruct (get_ref _ _ _ _ _ _ _ _) as [r i_r]. destruct G as [G1 G2]. split; [done|]. intros x' y' Hx' Hy'.
  rewrite G2 by done. rewrite Ex, Ey, Fx, Fy. unfold std_mc_luma. f_equal; lia.
Qed.

(** *** Chroma of one list *)
Lemma chroma_block plane list i8 x y (w hh : nat) : 1 <= plane <= 2 -> ref_ok list (cache_ref h list i8) -> 0 <= x -> x + Z.of_nat w <= 4 -> 0 <= y -> y + Z.of_nat hh <= 4 ->
  forall dst od stride, Z.of_nat (2 * w) <= stride -> let r := cache_ref h list i8 in
  block_is dst (mc_chroma dst od stride (ptr (p_fref m list r (3 + plane)) (2*y*i_stride m plane + 2*x)) (i_stride m plane)
      (mvx_of m h list i8) (chroma_mvy h (mvy_of m h list i8) r) (2 * w) (2 * hh)) od stride (Z.of_nat (2 * w)) (Z.of_nat (2 * hh))
    (fun x' y' => std_mc_chroma m h C plane list i8 (2 * x + x') (2 * y + y')).
Proof.
  intros Hp R Hx Hx4 Hy Hy4 dst od stride Hs r.
  pose proof (mvx_range list i8) as [X1 X2]. pose proof (chroma_mvy_range list i8 r) as [Y1 Y2].
  pose proof (shiftr_mono _ _ 3 ltac:(lia) X1). pose proof (shiftr_mono _ _ 3 ltac:(lia) X2). pose proof (shiftr_mono _ _ 3 ltac:(lia) Y1). pose proof (shiftr_mono _ _ 3 ltac:(lia) Y2).
  eapply block_is_ext; [|apply (mc_chroma_spec _ _ (fun x' y' => C list r plane (2 * x + x') (2 * y + y')))].
  - intros x' y' _ _. cbv beta. unfold std_mc_chroma, std_chroma. cbv zeta. fold r.
    replace (2 * x + x' + (mvx_of m h list i8 >> 3)) with (2 * x + ((mvx_of m h list i8 >> 3) + x')) by lia.
    replace (2 * y + y' + (chroma_mvy h (mvy_of m h list i8) r >> 3)) with (2 * y + ((chroma_mvy h (mvy_of m h list i8) r >> 3) + y')) by lia.
    rewrite <- !Z.add_assoc. done.
  - intros x' y'. apply (ro_pixels _ _ R).
  - done.
  - intros x' y' Hx' Hy'. rewrite <- (ro_chroma _ _ R) by lia. unfold ptr. f_equal. lia.
Qed.

(** *** A partition *)
Lemma avg_modes w hh : existsb (fun s => (s.1 =? w)%nat && (s.2 =? hh)%nat) part_sizes = true ->
  let i_mode := tbl2 x264_size2pixel (Z.of_nat hh) (Z.of_nat w) in
  mc_avg i_mode = PIXEL_AVG_C (4 * w) (4 * hh) /\ mc_avg (i_mode + 3) = PIXEL_AVG_C (2 * w) (2 * hh) /\ (w = 1 \/ w = 2 \/ w = 4)%nat.
Proof.
  intros Hs. apply existsb_exists in Hs as ((w', h') & Hin & E). cbn [fst snd] in E. apply andb_prop in E as [E1 E2].
  apply Nat.eqb_eq in E1 as <-, E2 as <-. cbn in Hin. repeat (destruct Hin as [[= <- <-]|Hin]; [split; [reflexivity|split; [reflexivity|tauto]]|]). done.
Qed.

Lemma lxywh_spec list pic x y (w hh : nat) : let r := cache_ref h list (block_of x y) in ref_ok list r ->
  0 <= x -> x + Z.of_nat w <= 4 -> 0 <= y -> y + Z.of_nat hh <= 4 ->
  let pic' := x264_mb_mc_lxywh m h list pic x y w hh in
  p_fenc pic' = p_fenc pic /\
  block_is (p_fdec pic 0) (p_fdec pic' 0) (fdec_luma x y) FDEC_STRIDE (Z.of_nat (4 * w)) (Z.of_nat (4 * hh))
    (fun x' y' => std_mc_luma m h P list (block_of x y) (4 * x + x') (4 * y + y')) /\
  (forall plane, 1 <= plane <= 2 -> block_is (p_fdec pic plane) (p_fdec pic' plane) (fdec_chroma x y) FDEC_STRIDE (Z.of_nat (2 * w)) (Z.of_nat (2 * hh))
    (fun x' y' => std_mc_chroma m h C plane list (block_of x y) (2 * x + x') (2 * y + y'))).
Proof.
  intros r R Hx Hx4 Hy Hy4. unfold x264_mb_mc_lxywh. cbv zeta. fold (block_of x y). split; [done|]. split.
  - exact (luma_block list (block_of x y) x y w hh R Hx Hx4 Hy Hy4 (p_fdec pic 0) (fdec_luma x y)).
  - intros plane Hp. assert (plane = 1 \/ plane = 2) as [->| ->] by lia.
    + exact (chroma_block 1 list (block_of x y) x y w hh Hp R Hx Hx4 Hy Hy4 (p_fdec pic 1) (fdec_chroma x y) FDEC_STRIDE ltac:(unfold FDEC_STRIDE; lia)).
    + exact (chroma_block 2 list (block_of x y) x y w hh Hp R Hx Hx4 Hy Hy4 (p_fdec pic 2) (fdec_chroma x y) FDEC_STRIDE ltac:(unfold FDEC_STRIDE; lia)).
Qed.

Lemma chroma_tmp plane list x y (w hh : nat) : 1 <= plane <= 2 -> ref_ok list (cache_ref h list (block_of x y)) -> bytes_ok undef ->
  0 <= x -> x + Z.of_nat w <= 4 -> 0 <= y -> y + Z.of_nat hh <= 4 ->
  let r := cache_ref h list (block_of x y) in
  let t := mc_chroma undef 0 16 (ptr (p_fref m list r (3 + plane)) (2*y*i_stride m plane + 2*x)) (i_stride m plane)
      (mvx_of m h list (block_of x y)) (chroma_mvy h (mvy_of m h list (block_of x y)) r) (2 * w) (2 * hh) in
  bytes_ok t /\ forall x' y', 0 <= x' < Z.of_nat (2 * w) -> 0 <= y' < Z.of_nat (2 * hh) -> t (y' * 16 + x') = std_mc_chroma m h C plane list (block_of x y) (2 * x + x') (2 * y + y').
Proof.
  intros Hp R U Hx Hx4 Hy Hy4 r t. destruct (chroma_block plane list (block_of x y) x y w hh Hp R Hx Hx4 Hy Hy4 undef 0 16 ltac:(lia)) as [H1 H2]. fold r t in H1, H2. split.
  - intros q. destruct (in_rect_dec 0 16 (Z.of_nat (2 * w)) (Z.of_nat (2 * hh)) q) as [(y' & x' & Hy' & Hx' & ->)|Hn]; [|by rewrite H2].
    rewrite H1 by done. apply std_chroma_byte; [apply (ro_pixels _ _ R)|apply land7|apply land7].
  - intros x' y' Hx' Hy'. by rewrite <- H1.
Qed.

Lemma bi_spec pic x y (w hh : nat) : let i8 := block_of x y in let weight := bipred_weight m (cache_ref h 0 i8) (cache_ref h 1 i8) in
  ref_ok 0 (cache_ref h 0 i8) -> ref_ok 1 (cache_ref h 1 i8) -> bytes_ok undef -> -128 <= weight <= 192 ->
  existsb (fun s => (s.1 =? w)%nat && (s.2 =? hh)%nat) part_sizes = true ->
  0 <= x -> x + Z.of_nat w <= 4 -> 0 <= y -> y + Z.of_nat hh <= 4 ->
  let pic' := x264_mb_mc_01xywh m h undef pic x y w hh in
  p_fenc pic' = p_fenc pic /\
  block_is (p_fdec pic 0) (p_fdec pic' 0) (fdec_luma x y) FDEC_STRIDE (Z.of_nat (4 * w)) (Z.of_nat (4 * hh))
    (fun x' y' => std_bipred weight (std_mc_luma m h P 0 i8 (4 * x + x') (4 * y + y')) (std_mc_luma m h P 1 i8 (4 * x + x') (4 * y + y'))) /\
  (forall plane, 1 <= plane <= 2 -> block_is (p_fdec pic plane) (p_fdec pic' plane) (fdec_chroma x y) FDEC_STRIDE (Z.of_nat (2 * w)) (Z.of_nat (2 * hh))
    (fun x' y' => std_bipred weight (std_mc_chroma m h C plane 0 i8 (2 * x + x') (2 * y + y')) (std_mc_chroma m h C plane 1 i8 (2 * x + x') (2 * y + y')))).
Proof.
  intros i8 weight R0 R1 U W Hs Hx Hx4 Hy Hy4. destruct (avg_modes w hh Hs) as (E1 & E2 & Hw). cbv zeta in E1, E2.
  unfold x264_mb_mc_01xywh. cbv zeta. fold (block_of x y). fold i8. fold weight.
  pose proof (luma_ref 0 i8 x y w hh R0 U Hx Hx4 Hy Hy4) as G0. pose proof (luma_ref 1 i8 x y w hh R1 U Hx Hx4 Hy Hy4) as G1.
  destruct (get_ref undef 16 (p_fref m 0 (cache_ref h 0 i8)) _ _ _ _ _) as [s0 i0]. destruct (get_ref undef 16 (p_fref m 1 (cache_ref h 1 i8)) _ _ _ _ _) as [s1 i1].
  destruct G0 as [B0 G0]. destruct G1 as [B1 G1]. rewrite E1, E2. split; [done|].
  pose proof (fun plane Hp => chroma_tmp plane 0 x y w hh Hp R0 U Hx Hx4 Hy Hy4) as T0. pose proof (fun plane Hp => chroma_tmp plane 1 x y w hh Hp R1 U Hx Hx4 Hy Hy4) as T1.
  cbv zeta in T0, T1. fold i8 in T0, T1. split.
  - eapply block_is_ext; [|exact (mc_avg_spec (4 * w) (4 * hh) (p_fdec pic 0) (fdec_luma x y) FDEC_STRIDE s0 i0 s1 i1 weight ltac:(lia) ltac:(unfold FDEC_STRIDE; lia) B0 B1 W)].
    intros x' y' Hx' Hy'. cbv beta. by rewrite G0, G1.
  - intros plane Hp. destruct (T0 plane Hp) as [BT0 ET0]. destruct (T1 plane Hp) as [BT1 ET1]. assert (plane = 1 \/ plane = 2) as [->| ->] by lia.
    + eapply block_is_ext; [|exact (mc_avg_spec (2 * w) (2 * hh) (p_fdec pic 1) (fdec_chroma x y) FDEC_STRIDE _ 16 _ 16 weight ltac:(lia) ltac:(unfold FDEC_STRIDE; lia) BT0 BT1 W)].
      intros x' y' Hx' Hy'. cbv beta. by rewrite ET0, ET1.
    + eapply block_is_ext; [|exact (mc_avg_spec (2 * w) (2 * hh) (p_fdec pic 2) (fdec_chroma x y) FDEC_STRIDE _ 16 _ 16 weight ltac:(lia) ltac:(unfold FDEC_STRIDE; lia) BT0 BT1 W)].
      intros x' y' Hx' Hy'. cbv beta. by rewrite ET0, ET1.
Qed.

Lemma mc_part_spec pic p : part_ok p = true -> part_refs p -> bytes_ok undef ->
  let pic' := mc_part m h undef pic p in
  p_fenc pic' = p_fenc pic /\
  block_is (p_fdec pic 0) (p_fdec pic' 0) (fdec_luma (px p) (py p)) FDEC_STRIDE (Z.of_nat (4 * pw p)) (Z.of_nat (4 * ph p))
    (fun x y => part_luma p (4 * px p + x) (4 * py p + y)) /\
  (forall plane, 1 <= plane <= 2 -> block_is (p_fdec pic plane) (p_fdec pic' plane) (fdec_chroma (px p) (py p)) FDEC_STRIDE (Z.of_nat (2 * pw p)) (Z.of_nat (2 * ph p))
    (fun x y => part_chroma p plane (2 * px p + x) (2 * py p + y))).
Proof.
  intros Hok (R0 & R1 & W) U. unfold part_ok in Hok. apply andb_prop in Hok as [Hok Hu]. apply andb_prop in Hok as [Hok Hs]. do 3 apply andb_prop in Hok as [Hok ?].
  unfold mc_part, mc_of, part_luma, part_chroma, std_combine. destruct p as [u0 u1 x y w hh]. cbn [uses0 uses1 px py pw ph] in *.
  destruct u0, u1; [|..|done].
  - apply bi_spec; auto; lia.
  - apply lxywh_spec; auto; lia.
  - apply lxywh_spec; auto; lia.
Qed.

(** ** All partitions *)
Lemma part_block p X Y s : part_ok p = true -> s = 2 \/ s = 4 -> 0 <= X < 4 * s -> 0 <= Y < 4 * s ->
  in_rect (s * py p * FDEC_STRIDE + s * px p) FDEC_STRIDE (s * Z.of_nat (pw p)) (s * Z.of_nat (ph p)) (Y * FDEC_STRIDE + X) <->
  contains (X / s) (Y / s) p = true.
Proof.
  intros Hok Hs HX HY. unfold part_ok in Hok. apply andb_prop in Hok as [Hok _]. apply andb_prop in Hok as [Hok _].
  unfold contains. assert (s * (X / s) <= X < s * (X / s) + s) by (Z.to_euclidean_division_equations; lia).
  assert (s * (Y / s) <= Y < s * (Y / s) + s) by (Z.to_euclidean_division_equations; lia). split.
  - intros (y & x & Hy & Hx & E). unfold FDEC_STRIDE in E. assert (Y = s * py p + y /\ X = s * px p + x) as [-> ->] by nia. nia.
  - intros Hc. exists (Y - s * py p), (X - s * px p). split; [nia|]. split; [nia|]. unfold FDEC_STRIDE. nia.
Qed.

Lemma fold_parts l pic : bytes_ok undef -> Forall (fun p => part_ok p = true /\ part_refs p) l ->
  let pic' := fold_left (mc_part m h undef) l pic in
  p_fenc pic' = p_fenc pic /\
  (forall X Y, 0 <= X < 16 -> 0 <= Y < 16 ->
     p_fdec pic' 0 (Y * FDEC_STRIDE + X) = match owner l (X / 4) (Y / 4) with Some p => part_luma p X Y | None => p_fdec pic 0 (Y * FDEC_STRIDE + X) end) /\
  (forall plane X Y, 1 <= plane <= 2 -> 0 <= X < 8 -> 0 <= Y < 8 ->
     p_fdec pic' plane (Y * FDEC_STRIDE + X) = match owner l (X / 2) (Y / 2) with Some p => part_chroma p plane X Y | None => p_fdec pic plane (Y * FDEC_STRIDE + X) end).
Proof.
  intros U. induction l as [|p l IH] using rev_ind; intros HF; [done|].
  apply list.Forall_app in HF as [HF Hp]. apply list.Forall_cons in Hp as [[Hok Hr] _]. specialize (IH HF).
  cbv zeta in IH |- *. rewrite fold_left_app. cbn [fold_left]. set (pic1 := fold_left _ l pic) in *. destruct IH as (E0 & E1 & E2).
  destruct (mc_part_spec pic1 p Hok Hr U) as (F0 & F1 & F2). split; [congruence|]. split.
  - intros X Y HX HY. rewrite owner_snoc. destruct F1 as [B1 B2]. pose proof (part_block p X Y 4 Hok ltac:(by right) HX HY) as K.
    replace (4 * py p * FDEC_STRIDE + 4 * px p) with (fdec_luma (px p) (py p)) in K by (unfold fdec_luma; lia).
    rewrite <- !(Nat2Z.inj_mul 4) in K. destruct (contains (X / 4) (Y / 4) p).
    + destruct (proj2 K eq_refl) as (y & x & Hy & Hx & E). rewrite E, B1 by done. unfold fdec_luma, FDEC_STRIDE in E.
      assert (Y = 4 * py p + y /\ X = 4 * px p + x) as [-> ->]; [|done]. unfold part_ok in Hok. nia.
    + rewrite B2; [by apply E1|]. intros Hin. apply K in Hin. done.
  - intros plane X Y Hpl HX HY. rewrite owner_snoc. destruct (F2 plane Hpl) as [B1 B2]. pose proof (part_block p X Y 2 Hok ltac:(by left) HX HY) as K.
    replace (2 * py p * FDEC_STRIDE + 2 * px p) with (fdec_chroma (px p) (py p)) in K by (unfold fdec_chroma; lia).
    rewrite <- !(Nat2Z.inj_mul 2) in K. destruct (contains (X / 2) (Y / 2) p).
    + destruct (proj2 K eq_refl) as (y & x & Hy & Hx & E). rewrite E, B1 by done. unfold fdec_chroma, FDEC_STRIDE in E.
      assert (Y = 2 * py p + y /\ X = 2 * px p + x) as [-> ->]; [|done]. unfold part_ok in Hok. nia.
    + rewrite B2; [by apply E2|]. intros Hin. apply K in Hin. done.
Qed.
End Predict.

(** ** The macroblock *)

(** The caches as the analysis fills them: the blocks of a partition share references and
    vectors, and have no reference in a list it does not use. *)
Definition motion_uniform (h : x264_t) : Prop := forall p bx by_, p ∈ mb_parts h -> contains bx by_ p = true ->
  let b := block_of bx by_ in let b0 := block_of (px p) (py p) in
  (pred_flag h 0 b = uses0 p /\ pred_flag h 1 b = uses1 p) /\
  (uses0 p = true -> cache_ref h 0 b = cache_ref h 0 b0 /\ cache_mv h 0 b = cache_mv h 0 b0) /\
  (uses1 p = true -> cache_ref h 1 b = cache_ref h 1 b0 /\ cache_mv h 1 b = cache_mv h 1 b0).

(** Every reference that a block uses has its planes. *)
Definition references_ok (m : mc_ctx) (h : x264_t) (P : Z -> Z -> Z -> Z -> Z) (C : Z -> Z -> Z -> Z -> Z -> Z) : Prop :=
  (forall list bx by_, 0 <= list < 2 -> 0 <= bx < 4 -> 0 <= by_ < 4 -> pred_flag h list (block_of bx by_) = true ->
     ref_ok m P C list (cache_ref h list (block_of bx by_))) /\
  (forall r0 r1, - 128 <= bipred_weight m r0 r1 <= 192).

Lemma part_origin p : part_ok p = true -> contains (px p) (py p) p = true /\ 0 <= px p < 4 /\ 0 <= py p < 4.
Proof.
  intros Hok. unfold part_ok in Hok. apply andb_prop in Hok as [Hok _]. apply andb_prop in Hok as [Hok Hs].
  apply existsb_exists in Hs as ((w & hh) & Hin & E). cbn [fst snd] in E. apply andb_prop in E as [E1 E2].
  apply Nat.eqb_eq in E1, E2. rewrite <- E1, <- E2 in Hok. unfold contains. rewrite <- E1, <- E2.
  assert (0 < Z.of_nat w /\ 0 < Z.of_nat hh) by (cbn in Hin; repeat (destruct Hin as [[= <- <-]|Hin]; [split; reflexivity|]); done). lia.
Qed.

Lemma part_uses h p : p ∈ mb_parts h -> uses0 p || uses1 p = true.
Proof.
  intros Hp. pose proof (mb_parts_ok h) as Hok. rewrite forallb_forall in Hok. specialize (Hok p (proj1 (list_elem_of_In _ _) Hp)).
  unfold part_ok in Hok. by apply andb_prop in Hok as [_ Hok].
Qed.

Lemma parts_refs m h P C : motion_uniform h -> references_ok m h P C -> Forall (fun p => part_ok p = true /\ part_refs m h P C p) (mb_parts h).
Proof.
  intros HU [HR HW]. apply list.Forall_forall. intros p Hp.
  pose proof (mb_parts_ok h) as Hok. rewrite forallb_forall in Hok. specialize (Hok p (proj1 (list_elem_of_In _ _) Hp)). split; [done|].
  destruct (part_origin p Hok) as (Hc & Hx & Hy). destruct (HU p _ _ Hp Hc) as ((E0 & E1) & _).
  split; [|split; [|apply HW]]; intros Hu; apply HR; try lia; congruence.
Qed.

Lemma std_mc_luma_eq m h P list b b' X Y : cache_ref h list b = cache_ref h list b' -> cache_mv h list b = cache_mv h list b' ->
  std_mc_luma m h P list b X Y = std_mc_luma m h P list b' X Y.
Proof. intros E1 E2. unfold std_mc_luma, mvx_of, mvy_of. by rewrite E1, E2. Qed.
Lemma std_mc_chroma_eq m h C plane list b b' X Y : cache_ref h list b = cache_ref h list b' -> cache_mv h list b = cache_mv h list b' ->
  std_mc_chroma m h C plane list b X Y = std_mc_chroma m h C plane list b' X Y.
Proof. intros E1 E2. unfold std_mc_chroma, mvx_of, mvy_of. by rewrite E1, E2. Qed.

(** C14: Inter prediction of a macroblock is the standard's. For every type of P and B
    macroblock, partition and sub-partition, direct and skipped blocks included,
    [x264_mb_mc] gives each luma and chroma sample the value that clause 8.4.2 interpolates,
    at a quarter or an eighth of a sample and with implicit weights, for the references and
    the (clipped) vectors that the cache holds for the sample's own 4x4 block; nothing of
    the source changes.  The half sample planes of the references are those of the
    standard, which [hpel_filter_spec] shows of the program's. *)
Theorem inter_prediction_standard m h undef pic P C : inter_ok h -> motion_uniform h -> mv_range_ok m -> references_ok m h P C -> bytes_ok undef ->
  let pic' := x264_mb_mc m h undef pic in
  p_fenc pic' = p_fenc pic /\
  (forall X Y, 0 <= X < 16 -> 0 <= Y < 16 -> p_fdec pic' 0 (Y * FDEC_STRIDE + X) = std_inter_luma m h P X Y) /\
  (forall plane X Y, 1 <= plane <= 2 -> 0 <= X < 8 -> 0 <= Y < 8 -> p_fdec pic' plane (Y * FDEC_STRIDE + X) = std_inter_chroma m h C plane X Y).
Proof.
  intros Hok HU V HR U. cbv zeta. rewrite mb_parts_run.
  destruct (fold_parts m h undef P C V (mb_parts h) pic U (parts_refs m h P C HU HR)) as (E0 & E1 & E2). split; [done|].
  assert (forall bx by_, 0 <= bx < 4 -> 0 <= by_ < 4 -> exists p, owner (mb_parts h) bx by_ = Some p /\ p ∈ mb_parts h /\ contains bx by_ p = true) as O
    by (intros bx by_ Hx Hy; apply owner_contains; by apply mb_parts_cover). split.
  - intros X Y HX HY. rewrite E1 by done.
    destruct (O (X / 4) (Y / 4)) as (p & -> & Hp & Hc); [Z.to_euclidean_division_equations; lia..|].
    destruct (HU p _ _ Hp Hc) as ((F0 & F1) & G0 & G1). pose proof (part_uses h p Hp) as Hu. unfold part_luma, std_inter_luma, std_combine. rewrite F0, F1.
    destruct (uses0 p), (uses1 p); try destruct (G0 eq_refl) as [R0 M0]; try destruct (G1 eq_refl) as [R1 M1].
    + by rewrite R0, R1, (std_mc_luma_eq m h P 0 _ _ X Y R0 M0), (std_mc_luma_eq m h P 1 _ _ X Y R1 M1).
    + by rewrite (std_mc_luma_eq m h P 0 _ _ X Y R0 M0).
    + by rewrite (std_mc_luma_eq m h P 1 _ _ X Y R1 M1).
    + done.
  - intros plane X Y Hpl HX HY. rewrite E2 by done.
    destruct (O (X / 2) (Y / 2)) as (p & -> & Hp & Hc); [Z.to_euclidean_division_equations; lia..|].
    destruct (HU p _ _ Hp Hc) as ((F0 & F1) & G0 & G1). pose proof (part_uses h p Hp) as Hu. unfold part_chroma, std_inter_chroma, std_combine. rewrite F0, F1.
    destruct (uses0 p), (uses1 p); try destruct (G0 eq_refl) as [R0 M0]; try destruct (G1 eq_refl) as [R1 M1].
    + by rewrite R0, R1, (std_mc_chroma_eq m h C plane 0 _ _ X Y R0 M0), (std_mc_chroma_eq m h C plane 1 _ _ X Y R1 M1).
    + by rewrite (std_mc_chroma_eq m h C plane 0 _ _ X Y R0 M0).
    + by rewrite (std_mc_chroma_eq m h C plane 1 _ _ X Y R1 M1).
    + done.
Qed.

(** ** Example *)

(** Sixteen vectors of a P macroblock over a reference with a pattern. *)
Definition mc_mb : x264_t :=
  match sample_mb with
  | X264 a1 a2 a3 a4 a5 a6 a7 a8 _ a10 a11 a12 a13 a14 a15 a16 a17 a18 a19 a20 a21 a22 a23 a24 a25 a26 a27 a28 a29 a30 =>
      X264 a1 a2 a3 a4 a5 a6 a7 a8 (fun _ => D_L0_4x4) a10 a11 a12 a13 a14 a15 a16 a17 a18 a19 a20 a21 a22 a23 a24 a25 a26 a27 a28 a29 a30
  end.
Definition pattern (x y : Z) : Z := (37 * x * x + 11 * y + 7) mod 256.
Definition pattern_ctx : mc_ctx :=
  McCtx (0, 0) (40, 40) (fun _ _ k q => if k <? 4 then std_plane_k k pattern (q mod 64) (q / 64) else pattern (q mod 64) (q / 64)) (fun _ => 64) (fun _ _ => 32).

Lemma pattern_ok : bytes_2d pattern.
Proof. intros x y. apply Z.mod_pos_bound. lia. Qed.

Lemma row_column x y : 0 <= x < 64 -> (y * 64 + x) mod 64 = x /\ (y * 64 + x) / 64 = y.
Proof. intros Hx. split; Z.to_euclidean_division_equations; lia. Qed.

Lemma pattern_refs list ref : ref_ok pattern_ctx (fun _ _ => pattern) (fun _ _ _ => pattern) list ref.
Proof.
  split.
  - intros k x y Hk Hx Hy. change (0 <= x < 27) in Hx. cbn. replace (k <? 4) with true by lia. by destruct (row_column x y ltac:(lia)) as [-> ->].
  - intros k q. cbn. destruct (k <? 4); [apply std_plane_k_byte|]; apply pattern_ok.
  - intros plane. apply pattern_ok.
  - intros plane x y Hp Hx Hy. change (0 <= x <= 13) in Hx. assert (plane = 1 \/ plane = 2) as [-> | ->] by lia; cbn; by destruct (row_column x y ltac:(lia)) as [-> ->].
Qed.

Lemma contains_unit bx by_ p : pw p = 1%nat -> ph p = 1%nat -> contains bx by_ p = true -> bx = px p /\ by_ = py p.
Proof. unfold contains. intros -> -> H. rewrite !andb_true_iff in H. destruct H as [[[H1%Z.leb_le H2%Z.ltb_lt] H3%Z.leb_le] H4%Z.ltb_lt]. lia. Qed.

Lemma inter_prediction_standard_witness :
  let pic' := x264_mb_mc pattern_ctx mc_mb (fun _ => 0) (MbPic (fun _ _ => 0) (fun _ _ => 0)) in
  p_fdec pic' 0 (5 * FDEC_STRIDE + 6) = std_inter_luma pattern_ctx mc_mb (fun _ _ => pattern) 6 5 /\ p_fdec pic' 0 (5 * FDEC_STRIDE + 6) = 69.
Proof.
  cbv zeta. split; [|vm_compute; reflexivity].
  apply (inter_prediction_standard pattern_ctx mc_mb (fun _ => 0) (MbPic (fun _ _ => 0) (fun _ _ => 0)) (fun _ _ => pattern) (fun _ _ _ => pattern)); [..|lia|lia].
  - right. left. split; [by left|]. intros i8 _. split; vm_compute; discriminate.
  - intros p bx by_ Hp Hc. apply list_elem_of_In in Hp. let l := eval vm_compute in (mb_parts mc_mb) in change (mb_parts mc_mb) with l in Hp.
    assert (bx = px p /\ by_ = py p) as [-> ->] by (apply contains_unit; [by repeat (destruct Hp as [<-|Hp]; [done|])..|done]).
    repeat (destruct Hp as [<-|Hp]; [repeat split; by vm_compute|]). done.
  - by vm_compute.
  - split; [intros; apply pattern_refs | intros; cbn; lia].
  - intros q. lia.
Defined.
