(* ===== verification/Cabac.v ===== *)
(** * The CABAC arithmetic coder of x264 (common/cabac.c, common/cabac.h)

    The encoder keeps a window of the code value in [i_low] and hands finished
    bytes to memory, delaying those a carry could still reach.  It is refined in
    two steps: an exact encoder on unbounded integers, of which the bytes and the
    window are a representation ([rep]), and the decoder of the standard, which
    recovers every bin from any value of the exact encoder's final interval. *)
From S2P Require Import Prelude Mb CabacTables.

(** [x264_cabac_t], with the memory its pointers point into. *)
Record x264_cabac_t := Cabac_t {
  i_low : Z;
  i_range : Z;
  i_queue : Z;
  i_bytes_outstanding : Z;
  cb_p_start : Z;
  cb_p : Z;
  cb_p_end : Z;
  f8_bits_encoded : Z;
  state : Z -> Z;
  cb_mem : mem
}.

(** Field updates of the coding engine. *)
Definition set_engine (cb : x264_cabac_t) (low range queue : Z) : x264_cabac_t :=
  {| i_low := s32 low; i_range := range; i_queue := queue;
     i_bytes_outstanding := i_bytes_outstanding cb; cb_p_start := cb_p_start cb;
     cb_p := cb_p cb; cb_p_end := cb_p_end cb; f8_bits_encoded := f8_bits_encoded cb;
     state := state cb; cb_mem := cb_mem cb |}.

Definition set_output (cb : x264_cabac_t) (outstanding p : Z) (m : mem) : x264_cabac_t :=
  {| i_low := i_low cb; i_range := i_range cb; i_queue := i_queue cb;
     i_bytes_outstanding := outstanding; cb_p_start := cb_p_start cb;
     cb_p := p; cb_p_end := cb_p_end cb; f8_bits_encoded := f8_bits_encoded cb;
     state := state cb; cb_mem := m |}.

Definition set_state (cb : x264_cabac_t) (st : Z -> Z) (f8 : Z) : x264_cabac_t :=
  {| i_low := i_low cb; i_range := i_range cb; i_queue := i_queue cb;
     i_bytes_outstanding := i_bytes_outstanding cb; cb_p_start := cb_p_start cb;
     cb_p := cb_p cb; cb_p_end := cb_p_end cb; f8_bits_encoded := f8;
     state := st; cb_mem := cb_mem cb |}.

Definition x264_cabac_context_init (cb : x264_cabac_t) (i_slice_type i_qp i_model : Z) : x264_cabac_t :=
  let cabac_context_init :=
    if i_slice_type =? SLICE_TYPE_I then x264_cabac_context_init_I
    else nth (Z.to_nat i_model) x264_cabac_context_init_PB [] in
  for_ 460 0 (fun i cb =>
    let '(m, n) := nth (Z.to_nat i) cabac_context_init (0, 0) in
    set_state cb (upd (state cb) i (u8 (x264_clip3 (((m * i_qp) >> 4) + n) 1 126)))
      (f8_bits_encoded cb)) cb.

Definition x264_cabac_encode_init (cb : x264_cabac_t) (p_data p_end : Z) : x264_cabac_t :=
  {| i_low := 0; i_range := 0x01FE; i_queue := -1; i_bytes_outstanding := 0;
     cb_p_start := p_data; cb_p := p_data; cb_p_end := p_end;
     f8_bits_encoded := f8_bits_encoded cb; state := state cb; cb_mem := cb_mem cb |}.

Definition x264_cabac_putbyte (cb : x264_cabac_t) : x264_cabac_t :=
  if i_queue cb >=? 8 then
    let out := i_low cb >> (i_queue cb + 2) in
    let cb := set_engine cb (i_low cb .& ((4 << i_queue cb) - 1)) (i_range cb) (i_queue cb - 8) in
    if (out .& 0xff) =? 0xff then
      set_output cb (i_bytes_outstanding cb + 1) (cb_p cb) (cb_mem cb)
    else
      let carry := out >> 8 in
      let m := st8 (cb_mem cb) (cb_p cb - 1) (cb_mem cb (cb_p cb - 1) + carry) in
      let '(p, m) := for_ (Z.to_nat (i_bytes_outstanding cb)) 0
                       (fun _ '(p, m) => (p + 1, st8 m p (carry - 1))) (cb_p cb, m) in
      set_output cb 0 (p + 1) (st8 m p out)
  else cb.

Definition x264_cabac_encode_renorm (cb : x264_cabac_t) : x264_cabac_t :=
  let shift := tbl x264_cabac_renorm_shift (i_range cb >> 3) in
  x264_cabac_putbyte (set_engine cb (i_low cb << shift) (i_range cb << shift) (i_queue cb + shift)).

Definition x264_cabac_encode_decision_c (cb : x264_cabac_t) (i_ctx b : Z) : x264_cabac_t :=
  let i_state := state cb i_ctx in
  let i_range_lps := tbl2 x264_cabac_range_lps i_state ((i_range cb >> 6) .& 0x03) in
  let range := i_range cb - i_range_lps in
  let cb :=
    if negb (b =? i_state >> 6)
    then set_engine cb (i_low cb + range) i_range_lps (i_queue cb)
    else set_engine cb (i_low cb) range (i_queue cb) in
  let cb := set_state cb (upd (state cb) i_ctx (tbl2 x264_cabac_transition i_state b))
              (f8_bits_encoded cb) in
  x264_cabac_encode_renorm cb.

Definition x264_cabac_encode_bypass (cb : x264_cabac_t) (b : Z) : x264_cabac_t :=
  x264_cabac_putbyte
    (set_engine cb (s32 (i_low cb << 1) + ((- b) .& i_range cb)) (i_range cb) (i_queue cb + 1)).

(** The escape prefix: [for( k = exp_bits; val >= (1<<k); k++ ) val -= 1<<k]. *)
Definition ue_bypass_k (exp_bits val : Z) : option (Z * Z) :=
  while_ 31 (fun '(k, val) => val >=? 1 << k) (fun '(k, val) => (k + 1, val - (1 << k)))
    (exp_bits, val).

(** The [do ... while] loop that writes the [k] bits of [x], [i] first. *)
Fixpoint ue_bypass_bits (fuel : nat) (cb : x264_cabac_t) (x k i : Z) : option x264_cabac_t :=
  match fuel with
  | O => None
  | S fuel =>
      let k := k - i in
      let cb := x264_cabac_putbyte
        (set_engine cb (s32 (i_low cb << i) + ((x >> k) .& 0xff) * i_range cb) (i_range cb)
           (i_queue cb + i)) in
      if k >? 0 then ue_bypass_bits fuel cb x k 8 else Some cb
  end.

Definition x264_cabac_encode_ue_bypass (cb : x264_cabac_t) (exp_bits val : Z) : option x264_cabac_t :=
  match ue_bypass_k exp_bits val with
  | Some (k, val) =>
      let x := u32 ((((1 << (k - exp_bits)) - 1) << (k + 1)) + val) in
      let k := 2 * k + 1 - exp_bits in
      let i := ((k - 1) .& 7) + 1 in
      ue_bypass_bits 9 cb x k i
  | None => None
  end.

Definition x264_cabac_encode_terminal (cb : x264_cabac_t) : x264_cabac_t :=
  x264_cabac_encode_renorm (set_engine cb (i_low cb) (i_range cb - 2) (i_queue cb)).

Definition x264_cabac_encode_flush (i_frame : Z) (cb : x264_cabac_t) : x264_cabac_t :=
  let low := s32 (i_low cb + (i_range cb - 2)) .| 1 in
  let cb := set_engine cb (low << 9) (i_range cb) (i_queue cb + 9) in
  let cb := x264_cabac_putbyte cb in
  let cb := x264_cabac_putbyte cb in
  let low := s32 (i_low cb << (8 - i_queue cb)) in
  let cb := set_engine cb (low .| (((0x35a4e4f5 >> (i_frame .& 31)) .& 1) << 10)) (i_range cb) 8 in
  let cb := x264_cabac_putbyte cb in
  let '(p, m) := for_ (Z.to_nat (i_bytes_outstanding cb)) 0
                   (fun _ '(p, m) => (p + 1, st8 m p 0xff)) (cb_p cb, cb_mem cb) in
  set_output cb 0 p m.

Definition x264_cabac_pos (cb : x264_cabac_t) : Z :=
  (cb_p cb - cb_p_start cb + i_bytes_outstanding cb) * 8 + i_queue cb.

(** ** The bit cost counters (cabac.h) *)
Definition x264_cabac_size_decision (cb : x264_cabac_t) (i_ctx b : Z) : x264_cabac_t :=
  let i_state := state cb i_ctx in
  set_state cb (upd (state cb) i_ctx (tbl2 x264_cabac_transition i_state b))
    (f8_bits_encoded cb + tbl2 x264_cabac_entropy i_state b).

Definition x264_cabac_size_decision_noup (cb : x264_cabac_t) (i_ctx b : Z) : x264_cabac_t :=
  set_state cb (state cb) (f8_bits_encoded cb + tbl2 x264_cabac_entropy (state cb i_ctx) b).

Definition x264_cabac_size_decision2 (i_state b : Z) : Z * Z :=
  (tbl2 x264_cabac_transition i_state b, tbl2 x264_cabac_entropy i_state b).

Definition x264_cabac_size_decision_noup2 (i_state b : Z) : Z := tbl2 x264_cabac_entropy i_state b.

(** * Bins and the encoder on them *)
Inductive bin :=
  | Decision (i_ctx b : Z)
  | Bypass (b : Z)
  | UeBypass (exp_bits val : Z)
  | Terminal.                    (* the end of slice flag, 0 *)

Definition encode_bin (cb : x264_cabac_t) (x : bin) : option x264_cabac_t :=
  match x with
  | Decision i_ctx b => Some (x264_cabac_encode_decision_c cb i_ctx b)
  | Bypass b => Some (x264_cabac_encode_bypass cb b)
  | UeBypass e v => x264_cabac_encode_ue_bypass cb e v
  | Terminal => Some (x264_cabac_encode_terminal cb)
  end.

Fixpoint encode_bins (cb : x264_cabac_t) (l : list bin) : option x264_cabac_t :=
  match l with
  | [] => Some cb
  | x :: l => match encode_bin cb x with Some cb => encode_bins cb l | None => None end
  end.

(** * The exact encoder

    [eL] is the low end of the interval with every bit kept, [eN] the number of
    shifts so far: the interval lies in [0, 2 ^ (eN + 9)]. *)
Record exact := Exact { eL : Z; eR : Z; eN : Z; eS : Z -> Z }.

Definition range_lps (s R : Z) : Z := tbl2 x264_cabac_range_lps s ((R >> 6) .& 3).
Definition shift_of (R : Z) : Z := tbl x264_cabac_renorm_shift (R >> 3).

Definition exact_shift (e : exact) : exact :=
  let k := shift_of (eR e) in
  Exact (eL e * 2 ^ k) (eR e * 2 ^ k) (eN e + k) (eS e).

Definition exact_decision (e : exact) (ctx b : Z) : exact :=
  let s := eS e ctx in
  let lps := range_lps s (eR e) in
  let st := upd (eS e) ctx (tbl2 x264_cabac_transition s b) in
  exact_shift (if b =? s >> 6 then Exact (eL e) (eR e - lps) (eN e) st
               else Exact (eL e + (eR e - lps)) lps (eN e) st).

Definition exact_bypass (e : exact) (b : Z) : exact :=
  Exact (2 * eL e + b * eR e) (eR e) (eN e + 1) (eS e).

Definition exact_terminal (e : exact) : exact :=
  exact_shift (Exact (eL e) (eR e - 2) (eN e) (eS e)).

(** The bypass bits of an escape value: ones, a zero, then [k] bits. *)
Definition ue_bits (exp_bits k val : Z) : list bool :=
  replicate (Z.to_nat (k - exp_bits)) true ++ false :: bits (Z.to_nat k) val.

Definition exact_bits (e : exact) (l : list bool) : exact :=
  fold_left (fun e b => exact_bypass e (b2i b)) l e.

Definition state_ok (s : Z) : Prop := 1 <= s <= 126.

Definition exact_ok (e : exact) : Prop :=
  256 <= eR e <= 510 /\ 0 <= eL e /\ 0 <= eN e /\ eL e + eR e <= 2 ^ (eN e + 9) /\
  forall i, 0 <= i < 460 -> state_ok (eS e i).

(** [f] lies in [e], scaled to the number of shifts of [f]. *)
Definition within (e f : exact) : Prop :=
  eN e <= eN f /\ eL e * 2 ^ (eN f - eN e) <= eL f /\
  eL f + eR f <= (eL e + eR e) * 2 ^ (eN f - eN e).

Lemma within_refl e : within e e.
Proof. unfold within. rewrite Z.sub_diag. change (2 ^ 0) with 1. lia. Qed.

Lemma within_trans e f g : within e f -> within f g -> within e g.
Proof.
  unfold within. intros (H1 & H2 & H3) (H4 & H5 & H6). split; [lia|].
  replace (eN g - eN e) with ((eN f - eN e) + (eN g - eN f)) by lia.
  rewrite Z.pow_add_r by lia. pose proof (pow2_pos (eN g - eN f)). nia.
Qed.

(** ** The tables *)
Lemma range_lps_ok s R : state_ok s -> 256 <= R <= 510 ->
  6 <= range_lps s R /\ 6 <= R - range_lps s R.
Proof.
  intros Hs HR. unfold state_ok in Hs.
  assert (all_range 1 126 (fun s => all_range 256 255 (fun R =>
    (6 <=? range_lps s R) && (6 <=? R - range_lps s R))) = true) as H by (vm_compute; reflexivity).
  eapply all_range_spec with (i := s) in H; [|lia].
  eapply all_range_spec with (i := R) in H; [|lia]. cbv beta in H. lia.
Qed.

(** The shift is the least that brings the range back to 9 bits. *)
Lemma shift_of_ok R : 6 <= R <= 510 ->
  0 <= shift_of R <= 6 /\ 256 <= R * 2 ^ shift_of R <= 510 /\
  (0 < shift_of R -> R * 2 ^ (shift_of R - 1) < 256).
Proof.
  intros HR.
  assert (all_range 6 505 (fun R => (0 <=? shift_of R) && (shift_of R <=? 6) &&
    (256 <=? R * 2 ^ shift_of R) && (R * 2 ^ shift_of R <=? 510) &&
    ((shift_of R <=? 0) || (R * 2 ^ (shift_of R - 1) <? 256))) = true) as H by (vm_compute; reflexivity).
  eapply all_range_spec with (i := R) in H; [|lia]. cbv beta in H. lia.
Qed.

Lemma transition_ok s b : state_ok s -> b = 0 \/ b = 1 ->
  state_ok (tbl2 x264_cabac_transition s b).
Proof.
  intros Hs Hb. unfold state_ok in *.
  assert (all_range 1 126 (fun s => all_range 0 2 (fun b =>
    (1 <=? tbl2 x264_cabac_transition s b) && (tbl2 x264_cabac_transition s b <=? 126))) = true)
    as H by (vm_compute; reflexivity).
  eapply all_range_spec with (i := s) in H; [|lia].
  eapply all_range_spec with (i := b) in H; [|lia]. cbv beta in H. lia.
Qed.

(** ** Every bin narrows the interval *)
Lemma exact_shift_ok e : 6 <= eR e <= 510 -> 0 <= eL e -> 0 <= eN e ->
  eL e + eR e <= 2 ^ (eN e + 9) -> (forall i, 0 <= i < 460 -> state_ok (eS e i)) ->
  exact_ok (exact_shift e) /\ within e (exact_shift e).
Proof.
  intros HR HL HN Hb Hs. destruct (shift_of_ok (eR e)) as (H1 & H2 & _); [done|].
  unfold exact_ok, within, exact_shift. cbn [eL eR eN eS]. set (k := shift_of (eR e)) in *.
  pose proof (pow2_pos k). replace (eN e + k - eN e) with k by lia.
  replace (eN e + k + 9) with ((eN e + 9) + k) by lia. rewrite Z.pow_add_r by lia.
  split; [|nia]. split; [lia|]. split; [nia|]. split; [lia|]. split; [nia|done].
Qed.

Lemma exact_decision_ok e ctx b : exact_ok e -> 0 <= ctx < 460 -> b = 0 \/ b = 1 ->
  exact_ok (exact_decision e ctx b) /\ within e (exact_decision e ctx b).
Proof.
  intros (HR & HL & HN & Hb & Hs) Hc Hbit. pose proof (Hs ctx Hc) as Hst.
  destruct (range_lps_ok (eS e ctx) (eR e) Hst HR) as [H1 H2].
  unfold exact_decision. set (st := upd _ _ _).
  assert (forall i, 0 <= i < 460 -> state_ok (st i)) as Hs'.
  { intros i Hi. unfold st, upd. destruct (i =? ctx); [by apply transition_ok|by apply Hs]. }
  set (e1 := if b =? eS e ctx >> 6 then _ else _).
  assert (within e e1 /\ exact_ok (exact_shift e1) /\ within e1 (exact_shift e1)) as (Hw & Ho & Hw').
  { unfold e1. destruct (b =? eS e ctx >> 6).
    - split; [unfold within; cbn [eL eR eN]; rewrite Z.sub_diag; change (2 ^ 0) with 1; lia|].
      apply exact_shift_ok; cbn [eL eR eN eS]; try done; lia.
    - split; [unfold within; cbn [eL eR eN]; rewrite Z.sub_diag; change (2 ^ 0) with 1; lia|].
      apply exact_shift_ok; cbn [eL eR eN eS]; try done; lia. }
  split; [done|]. by eapply within_trans.
Qed.

Lemma exact_bypass_ok e b : exact_ok e -> b = 0 \/ b = 1 ->
  exact_ok (exact_bypass e b) /\ within e (exact_bypass e b).
Proof.
  intros (HR & HL & HN & Hb & Hs) Hbit. unfold exact_ok, within, exact_bypass. cbn [eL eR eN eS].
  replace (eN e + 1 - eN e) with 1 by lia. replace (eN e + 1 + 9) with ((eN e + 9) + 1) by lia.
  rewrite Z.pow_add_r by lia. change (2 ^ 1) with 2.
  destruct Hbit as [-> | ->]; (split; [|lia]); (split; [lia|]); (split; [lia|]);
    (split; [lia|]); (split; [lia|done]).
Qed.

Lemma exact_terminal_ok e : exact_ok e -> exact_ok (exact_terminal e) /\ within e (exact_terminal e).
Proof.
  intros (HR & HL & HN & Hb & Hs). unfold exact_terminal.
  destruct (exact_shift_ok (Exact (eL e) (eR e - 2) (eN e) (eS e))) as [H1 H2];
    cbn [eL eR eN eS]; try done; try lia.
  split; [done|]. eapply within_trans; [|exact H2].
  unfold within; cbn [eL eR eN]. rewrite Z.sub_diag. change (2 ^ 0) with 1. lia.
Qed.

Lemma exact_bits_ok l : forall e, exact_ok e ->
  exact_ok (exact_bits e l) /\ within e (exact_bits e l).
Proof.
  induction l as [|b l IH]; intros e He; [split; [done|apply within_refl]|]. cbn [exact_bits fold_left].
  destruct (exact_bypass_ok e (b2i b)) as [H1 H2]; [done|by destruct b; [right|left]|].
  destruct (IH _ H1) as [H3 H4]. split; [done|]. by eapply within_trans.
Qed.

(** Bypass bits are one multiplication. *)
Lemma exact_bits_val l : forall e, exact_bits e l =
  Exact (eL e * 2 ^ Z.of_nat (length l) + bits_val l * eR e) (eR e)
        (eN e + Z.of_nat (length l)) (eS e).
Proof.
  induction l as [|b l IH]; intros e.
  - destruct e. cbn. f_equal; lia.
  - cbn [exact_bits fold_left]. fold (exact_bits (exact_bypass e (b2i b)) l). rewrite IH.
    unfold exact_bypass. cbn [eL eR eN eS length].
    change (b :: l) with ([b] ++ l). rewrite bits_val_app. cbn [app length].
    rewrite Nat2Z.inj_succ, Z.pow_succ_r by lia.
    assert (bits_val [b] = b2i b) as -> by (unfold bits_val; cbn [bits_acc]; lia).
    f_equal; lia.
Qed.

(** * The decoding engine of the standard (9.3.1.2, 9.3.3.2)

    The bit string still to be read is part of its state; reading past the end is
    an error. *)
Record decoder := Decoder { codIRange : Z; codIOffset : Z; ctxState : Z -> Z; to_read : list bool }.

Definition dec_init (st : Z -> Z) (l : list bool) : option decoder :=
  if (length l <? 9)%nat then None
  else Some (Decoder 510 (bits_val (take 9 l)) st (drop 9 l)).

Fixpoint renormD (fuel : nat) (d : decoder) : option decoder :=
  if codIRange d <? 256 then
    match fuel, to_read d with
    | S fuel, b :: l =>
        renormD fuel (Decoder (2 * codIRange d) (2 * codIOffset d + b2i b) (ctxState d) l)
    | _, _ => None
    end
  else Some d.

Definition dec_decision (d : decoder) (ctx : Z) : option (Z * decoder) :=
  let s := ctxState d ctx in
  let valMPS := s >> 6 in
  let lps := range_lps s (codIRange d) in
  let R := codIRange d - lps in
  let '(b, R, Of) := if codIOffset d >=? R then (1 - valMPS, lps, codIOffset d - R)
                    else (valMPS, R, codIOffset d) in
  match renormD 8 (Decoder R Of (upd (ctxState d) ctx (tbl2 x264_cabac_transition s b)) (to_read d)) with
  | Some d => Some (b, d)
  | None => None
  end.

Definition dec_bypass (d : decoder) : option (bool * decoder) :=
  match to_read d with
  | [] => None
  | b :: l =>
      let Of := 2 * codIOffset d + b2i b in
      Some (if Of >=? codIRange d then (true, Decoder (codIRange d) (Of - codIRange d) (ctxState d) l)
            else (false, Decoder (codIRange d) Of (ctxState d) l))
  end.

Fixpoint dec_bypass_n (n : nat) (d : decoder) : option (list bool * decoder) :=
  match n with
  | O => Some ([], d)
  | S n =>
      match dec_bypass d with
      | Some (b, d) =>
          match dec_bypass_n n d with Some (bs, d) => Some (b :: bs, d) | None => None end
      | None => None
      end
  end.

(** A UEGk suffix (9.3.2.3): each leading 1 adds [2 ^ k] and increments [k]. *)
Fixpoint dec_ue (fuel : nat) (k : Z) (acc : Z) (d : decoder) : option (Z * decoder) :=
  match dec_bypass d with
  | Some (true, d) =>
      match fuel with S fuel => dec_ue fuel (k + 1) (acc + 2 ^ k) d | O => None end
  | Some (false, d) =>
      match dec_bypass_n (Z.to_nat k) d with
      | Some (bs, d) => Some (acc + bits_val bs, d)
      | None => None
      end
  | None => None
  end.

Definition dec_terminal (d : decoder) : option (Z * decoder) :=
  let R := codIRange d - 2 in
  if codIOffset d >=? R then Some (1, d)
  else match renormD 8 (Decoder R (codIOffset d) (ctxState d) (to_read d)) with
       | Some d => Some (0, d)
       | None => None
       end.

(** The decoder is told the kind of each bin and returns its value. *)
Definition dec_bin (x : bin) (d : decoder) : option (Z * decoder) :=
  match x with
  | Decision ctx _ => dec_decision d ctx
  | Bypass _ => match dec_bypass d with Some (b, d) => Some (b2i b, d) | None => None end
  | UeBypass e _ => dec_ue 31 e 0 d
  | Terminal => dec_terminal d
  end.

Definition bin_val (x : bin) : Z :=
  match x with Decision _ b | Bypass b | UeBypass _ b => b | Terminal => 0 end.

Fixpoint dec_bins (l : list bin) (d : decoder) : option (list Z * decoder) :=
  match l with
  | [] => Some ([], d)
  | x :: l =>
      match dec_bin x d with
      | Some (v, d) =>
          match dec_bins l d with Some (vs, d) => Some (v :: vs, d) | None => None end
      | None => None
      end
  end.

(** ** The decoder follows the exact encoder

    [B] is the whole bit string and [f] an interval its first bits lie in. *)
Definition prefix_val (B : list bool) (n : Z) : Z := bits_val (take (Z.to_nat n) B).

Definition hits (B : list bool) (f : exact) : Prop :=
  eN f + 9 <= Z.of_nat (length B) /\ eL f <= prefix_val B (eN f + 9) < eL f + eR f.

Record tracks (B : list bool) (e : exact) (d : decoder) : Prop := {
  tr_range : codIRange d = eR e;
  tr_offset : codIOffset d = prefix_val B (eN e + 9) - eL e;
  tr_state : ctxState d = eS e;
  tr_read : to_read d = drop (Z.to_nat (eN e + 9)) B
}.

Lemma prefix_val_add B n k : 0 <= n -> 0 <= k -> n + k <= Z.of_nat (length B) ->
  prefix_val B (n + k) = prefix_val B n * 2 ^ k + bits_val (take (Z.to_nat k) (drop (Z.to_nat n) B)) /\
  0 <= bits_val (take (Z.to_nat k) (drop (Z.to_nat n) B)) < 2 ^ k.
Proof.
  intros Hn Hk Hl. unfold prefix_val.
  assert (length (take (Z.to_nat k) (drop (Z.to_nat n) B)) = Z.to_nat k) as E
    by (rewrite length_take, length_drop; lia).
  pose proof (bits_val_range (take (Z.to_nat k) (drop (Z.to_nat n) B))) as R.
  rewrite E, Z2Nat.id in R by lia. split; [|done].
  replace (Z.to_nat (n + k)) with (Z.to_nat n + Z.to_nat k)%nat by lia.
  rewrite <- (take_drop (Z.to_nat n) B) at 1.
  rewrite take_app, take_take, Nat.min_r, length_take by lia.
  replace (Z.to_nat n + Z.to_nat k - _)%nat with (Z.to_nat k) by lia.
  by rewrite bits_val_app, E, Z2Nat.id by lia.
Qed.

(** A bit string in the final interval is in every earlier one. *)
Lemma hits_within B e f : within e f -> 0 <= eN e -> hits B f -> hits B e.
Proof.
  intros (H1 & H2 & H3) HN [Hl Hv]. split; [lia|].
  destruct (prefix_val_add B (eN e + 9) (eN f - eN e)) as [E R]; [lia|lia|lia|].
  replace (eN e + 9 + (eN f - eN e)) with (eN f + 9) in E by lia. rewrite E in Hv.
  pose proof (pow2_pos (eN f - eN e)). nia.
Qed.

(** Renormalisation reads as many bits as the encoder shifted. *)
Lemma renormD_steps n : forall fuel R Of st l, (n <= fuel)%nat -> (n <= length l)%nat ->
  256 <= R * 2 ^ Z.of_nat n -> (n = 0%nat \/ R * 2 ^ (Z.of_nat n - 1) < 256) -> 0 <= R ->
  renormD fuel (Decoder R Of st l) =
  Some (Decoder (R * 2 ^ Z.of_nat n) (Of * 2 ^ Z.of_nat n + bits_val (take n l)) st (drop n l)).
Proof.
  induction n as [|n IH]; intros fuel R Of st l Hf Hl HR Hmin H0.
  - change (2 ^ Z.of_nat 0) with 1 in *. rewrite Z.mul_1_r in *.
    assert (renormD fuel (Decoder R Of st l) = Some (Decoder R Of st l)) as ->.
    { destruct fuel; cbn [renormD codIRange];
        (replace (R <? 256) with false by lia; done). }
    rewrite Z.mul_1_r. cbn [take drop]. unfold bits_val. cbn [bits_acc]. by rewrite Z.add_0_r.
  - destruct Hmin as [|Hmin]; [done|]. destruct fuel as [|fuel]; [lia|].
    destruct l as [|b l]; [simpl in Hl; lia|].
    assert (2 ^ Z.of_nat (S n) = 2 * 2 ^ Z.of_nat n) as E
      by (rewrite Nat2Z.inj_succ, Z.pow_succ_r by lia; done).
    replace (Z.of_nat (S n) - 1) with (Z.of_nat n) in Hmin by lia.
    pose proof (pow2_pos (Z.of_nat n)) as P.
    assert (R < 256) by nia.
    cbn [renormD codIRange to_read]. replace (R <? 256) with true by lia. cbn [codIOffset ctxState].
    rewrite IH; [|lia|simpl in Hl; lia|lia| |lia].
    + cbn [take drop]. change (b :: take n l) with ([b] ++ take n l).
      rewrite bits_val_app, length_take, Nat.min_l by (simpl in Hl; lia).
      assert (bits_val [b] = b2i b) as -> by (unfold bits_val; cbn [bits_acc]; lia).
      do 2 f_equal; lia.
    + destruct n as [|n]; [by left|right].
      replace (Z.of_nat (S n)) with (Z.succ (Z.of_nat n)) in Hmin by lia.
      rewrite Z.pow_succ_r in Hmin by lia.
      replace (Z.of_nat (S n) - 1) with (Z.of_nat n) by lia. lia.
Qed.

Lemma tracks_shift B e d : 6 <= eR e <= 510 -> 0 <= eN e -> tracks B e d ->
  eN (exact_shift e) + 9 <= Z.of_nat (length B) ->
  exists d', renormD 8 d = Some d' /\ tracks B (exact_shift e) d'.
Proof.
  intros HR HN [T1 T2 T3 T4] Hl. destruct d as [R Of st l]. cbn [codIRange codIOffset ctxState to_read] in *.
  subst. destruct (shift_of_ok (eR e)) as (K1 & K2 & K3); [done|].
  unfold exact_shift in *. cbn [eL eR eN eS] in *. set (k := shift_of (eR e)) in *.
  destruct (prefix_val_add B (eN e + 9) k) as [E _]; [lia|lia|lia|].
  rewrite (renormD_steps (Z.to_nat k)); rewrite ?Z2Nat.id by lia; try lia.
  - eexists. split; [done|]. split; cbn [codIRange codIOffset ctxState to_read eL eR eN eS]; try done.
    + replace (eN e + k + 9) with (eN e + 9 + k) by lia. rewrite E. lia.
    + rewrite drop_drop. f_equal. lia.
  - rewrite length_drop. lia.
Qed.

Lemma decision_symbol s b : state_ok s -> b = 0 \/ b = 1 ->
  s >> 6 = 0 \/ s >> 6 = 1.
Proof.
  intros Hs _. unfold state_ok in Hs. rewrite Z.shiftr_div_pow2 by lia. change (2 ^ 6) with 64.
  pose proof (Z.div_mod s 64). pose proof (Z.mod_pos_bound s 64). lia.
Qed.

Lemma dec_decision_tracks B e d ctx b f :
  exact_ok e -> 0 <= ctx < 460 -> b = 0 \/ b = 1 -> tracks B e d ->
  within (exact_decision e ctx b) f -> hits B f ->
  exists d', dec_decision d ctx = Some (b, d') /\ tracks B (exact_decision e ctx b) d'.
Proof.
  intros He Hc Hb Ht Hw Hh. pose proof He as (HR & HL & HN & Hbd & Hs). pose proof (Hs ctx Hc) as Hst.
  destruct (exact_decision_ok e ctx b He Hc Hb) as [(HR' & HL' & HN' & _) _].
  pose proof (hits_within B _ f Hw HN' Hh) as Hh'.
  destruct (range_lps_ok (eS e ctx) (eR e) Hst HR) as [L1 L2].
  destruct Ht as [T1 T2 T3 T4]. unfold dec_decision. rewrite T1, T2, T3, T4.
  set (s := eS e ctx) in *. set (lps := range_lps s (eR e)) in *.
  set (V := prefix_val B (eN e + 9) - eL e).
  set (e1 := if b =? s >> 6 then Exact (eL e) (eR e - lps) (eN e) (upd (eS e) ctx (tbl2 x264_cabac_transition s b))
             else Exact (eL e + (eR e - lps)) lps (eN e) (upd (eS e) ctx (tbl2 x264_cabac_transition s b))).
  change (exact_decision e ctx b) with (exact_shift e1) in *.
  assert (6 <= eR e1 <= 510 /\ eN e1 = eN e) as [R1 N1] by (unfold e1; destruct (_ =? _); cbn [eR eN]; lia).
  assert (hits B e1) as [_ Hin].
  { eapply hits_within; [|rewrite N1; done|exact Hh'].
    unfold within, exact_shift. cbn [eL eR eN]. destruct (shift_of_ok (eR e1)) as (K1 & _); [done|].
    replace (eN e1 + shift_of (eR e1) - eN e1) with (shift_of (eR e1)) by lia. lia. }
  rewrite N1 in Hin.
  assert ((if V >=? eR e - lps then (1 - (s >> 6), lps, V - (eR e - lps)) else (s >> 6, eR e - lps, V)) =
    (b, eR e1, prefix_val B (eN e1 + 9) - eL e1)) as ->.
  { destruct (decision_symbol s b Hst Hb) as [Es|Es]; rewrite N1; unfold e1, V in *;
      destruct (Z.eqb_spec b (s >> 6)); cbn [eL eR] in *; destruct (Z.geb_spec (prefix_val B (eN e + 9) - eL e) (eR e - lps));
      try lia; (apply (f_equal2 pair); [apply (f_equal2 pair)|]; lia). }
  destruct (tracks_shift B e1 (Decoder (eR e1) (prefix_val B (eN e1 + 9) - eL e1)
    (upd (eS e) ctx (tbl2 x264_cabac_transition s b)) (drop (Z.to_nat (eN e1 + 9)) B)))
    as (d' & E & Ht'); [done|lia| |exact (proj1 Hh')|].
  { split; try done. unfold e1. by destruct (_ =? _). }
  rewrite N1 in E. rewrite N1, E. exists d'. done.
Qed.

Lemma dec_bypass_tracks B e d b f :
  exact_ok e -> tracks B e d -> within (exact_bypass e (b2i b)) f -> hits B f ->
  exists d', dec_bypass d = Some (b, d') /\ tracks B (exact_bypass e (b2i b)) d'.
Proof.
  intros He Ht Hw Hh. pose proof He as (HR & HL & HN & _).
  destruct (exact_bypass_ok e (b2i b) He) as [(_ & _ & HN' & _) _]; [by destruct b; [right|left]|].
  pose proof (hits_within B _ f Hw HN' Hh) as [Hl Hv]. unfold exact_bypass in *. cbn [eL eR eN eS] in *.
  destruct Ht as [T1 T2 T3 T4]. unfold dec_bypass. rewrite T1, T2, T3, T4.
  destruct (prefix_val_add B (eN e + 9) 1) as [E R]; [lia|lia|lia|].
  replace (eN e + 9 + 1) with (eN e + 1 + 9) in E by lia. change (Z.to_nat 1) with 1%nat in *.
  destruct (drop (Z.to_nat (eN e + 9)) B) as [|x l] eqn:D.
  { apply (f_equal length) in D. rewrite length_drop in D. simpl in D. lia. }
  assert (bits_val (take 1 (x :: l)) = b2i x) as Ex by (unfold bits_val; cbn; destruct x; reflexivity).
  rewrite Ex in E. change (2 ^ 1) with 2 in E.
  assert (l = drop (Z.to_nat (eN e + 1 + 9)) B) as El.
  { replace (Z.to_nat (eN e + 1 + 9)) with (Z.to_nat (eN e + 9) + 1)%nat by lia.
    by rewrite <- drop_drop, D. }
  destruct (Z.geb_spec (2 * (prefix_val B (eN e + 9) - eL e) + b2i x) (eR e)); destruct b; cbn [b2i] in *; try lia.
  - eexists. split; [done|]. split; cbn [codIRange codIOffset ctxState to_read eL eR eN eS]; try done; lia.
  - eexists. split; [done|]. split; cbn [codIRange codIOffset ctxState to_read eL eR eN eS]; try done; lia.
Qed.

Lemma dec_terminal_tracks B e d f :
  exact_ok e -> tracks B e d -> within (exact_terminal e) f -> hits B f ->
  exists d', dec_terminal d = Some (0, d') /\ tracks B (exact_terminal e) d'.
Proof.
  intros He Ht Hw Hh. pose proof He as (HR & HL & HN & _).
  destruct (exact_terminal_ok e He) as [(_ & _ & HN' & _) _].
  pose proof (hits_within B _ f Hw HN' Hh) as Hh'.
  set (e1 := Exact (eL e) (eR e - 2) (eN e) (eS e)). change (exact_terminal e) with (exact_shift e1) in *.
  assert (hits B e1) as [_ Hin].
  { eapply hits_within; [|unfold e1; done|exact Hh'].
    unfold within, exact_shift. cbn [eL eR eN]. destruct (shift_of_ok (eR e1)) as (K1 & _); [unfold e1; cbn [eR]; lia|].
    replace (eN e1 + shift_of (eR e1) - eN e1) with (shift_of (eR e1)) by lia. lia. }
  unfold e1 in Hin. cbn [eL eR eN] in Hin.
  destruct Ht as [T1 T2 T3 T4]. unfold dec_terminal. rewrite T1, T2, T3, T4.
  destruct (Z.geb_spec (prefix_val B (eN e + 9) - eL e) (eR e - 2)); [lia|].
  destruct (tracks_shift B e1 (Decoder (eR e - 2) (prefix_val B (eN e + 9) - eL e) (eS e)
    (drop (Z.to_nat (eN e + 9)) B))) as (d' & E & Ht'); [unfold e1; cbn [eR]; lia|done|done|exact (proj1 Hh')|].
  rewrite E. by exists d'.
Qed.

Lemma dec_bypass_n_tracks B l f : forall e d,
  exact_ok e -> tracks B e d -> within (exact_bits e l) f -> hits B f ->
  exists d', dec_bypass_n (length l) d = Some (l, d') /\ tracks B (exact_bits e l) d'.
Proof.
  induction l as [|b l IH]; intros e d He Ht Hw Hh; [by exists d|].
  cbn [exact_bits fold_left length dec_bypass_n] in *.
  destruct (exact_bypass_ok e (b2i b) He) as [He' _]; [by destruct b; [right|left]|].
  destruct (exact_bits_ok l _ He') as [_ Hwl].
  destruct (dec_bypass_tracks B e d b f) as (d1 & -> & Ht1);
    [done|done|eapply within_trans; [exact Hwl|exact Hw]|done|].
  destruct (IH _ d1 He' Ht1 Hw Hh) as (d2 & -> & Ht2). by exists d2.
Qed.

(** ** Escape values *)
Lemma ue_bypass_k_spec e v : 0 <= e <= 15 -> 0 <= v < 2 ^ 15 ->
  exists k v', ue_bypass_k e v = Some (k, v') /\ e <= k <= 15 /\ 0 <= v' < 2 ^ k /\
    v = v' + 2 ^ k - 2 ^ e.
Proof.
  intros He Hv. unfold ue_bypass_k.
  destruct (while_inv (fun '(k, v') => e <= k <= 15 /\ 0 <= v' /\ v = v' + 2 ^ k - 2 ^ e)
    (fun '(k, _) => Z.to_nat (15 - k)) 31 (fun '(k, v) => v >=? 1 << k)
    (fun '(k, v) => (k + 1, v - (1 << k))) (e, v)) as ([k v'] & -> & (H1 & H2 & H3) & Hc).
  - lia.
  - lia.
  - intros [k v'] (H1 & H2 & H3) Hc. rewrite Z.shiftl_1_l in *.
    assert (2 ^ (k + 1) = 2 * 2 ^ k) as E by (rewrite Z.pow_add_r by lia; lia).
    assert (k < 15).
    { destruct (Z.eq_dec k 15) as [->|]; [|lia].
      assert (2 ^ e <= 2 ^ 15) by (apply Z.pow_le_mono_r; lia). lia. }
    split; [split; [lia|split; [lia|rewrite E; lia]]|lia].
  - exists k, v'. rewrite Z.shiftl_1_l in Hc. split; [done|]. split; [done|]. split; [lia|done].
Qed.

Lemma dec_ue_tracks B f v' n : forall fuel k0 acc e d,
  exact_ok e -> tracks B e d -> 0 <= k0 -> (n <= fuel)%nat ->
  0 <= v' < 2 ^ (k0 + Z.of_nat n) ->
  let code := replicate n true ++ false :: bits (Z.to_nat (k0 + Z.of_nat n)) v' in
  within (exact_bits e code) f -> hits B f ->
  exists d', dec_ue fuel k0 acc d = Some (acc + (2 ^ (k0 + Z.of_nat n) - 2 ^ k0) + v', d') /\
    tracks B (exact_bits e code) d'.
Proof.
  induction n as [|n IH]; intros fuel k0 acc e d He Ht Hk Hf Hv code Hw Hh.
  - change (Z.of_nat 0) with 0 in *. rewrite Z.add_0_r in *. unfold code in *. clear code.
    cbn [replicate app] in *. rewrite Z.add_0_r in *. set (bs := bits (Z.to_nat k0) v') in *.
    change (exact_bits e (false :: bs)) with (exact_bits (exact_bypass e (b2i false)) bs) in *.
    destruct (exact_bypass_ok e (b2i false) He) as [He' _]; [by left|].
    destruct (exact_bits_ok bs _ He') as [_ Hwb].
    destruct (dec_bypass_tracks B e d false f) as (d1 & E1 & Ht1);
      [done|done|eapply within_trans; [exact Hwb|exact Hw]|done|].
    destruct (dec_bypass_n_tracks B bs f _ d1 He' Ht1 Hw Hh) as (d2 & E2 & Ht2).
    assert (length bs = Z.to_nat k0) as El by apply length_bits. rewrite El in E2.
    exists d2. split; [|done].
    assert (dec_ue fuel k0 acc d = Some (acc + bits_val bs, d2)) as ->.
    { destruct fuel; cbn [dec_ue]; rewrite E1, E2; done. }
    unfold bs. rewrite bits_val_bits, Z2Nat.id, Z.mod_small by lia. do 2 f_equal. lia.
  - destruct fuel as [|fuel]; [lia|].
    assert (code = true :: replicate n true ++ false :: bits (Z.to_nat (k0 + 1 + Z.of_nat n)) v') as Ec.
    { unfold code. cbn [replicate app]. do 4 f_equal. lia. }
    rewrite Ec in *. clear Ec code. set (code' := replicate n true ++ _) in *.
    change (exact_bits e (true :: code')) with (exact_bits (exact_bypass e (b2i true)) code') in *.
    destruct (exact_bypass_ok e (b2i true) He) as [He' _]; [by right|].
    destruct (exact_bits_ok code' _ He') as [_ Hwb].
    destruct (dec_bypass_tracks B e d true f) as (d1 & E1 & Ht1);
      [done|done|eapply within_trans; [exact Hwb|exact Hw]|done|].
    cbn [dec_ue]. rewrite E1.
    destruct (IH fuel (k0 + 1) (acc + 2 ^ k0) _ d1 He' Ht1) as (d2 & E2 & Ht2);
      [lia|lia| |exact Hw|exact Hh|].
    + replace (k0 + 1 + Z.of_nat n) with (k0 + Z.of_nat (S n)) by lia. done.
    + exists d2. split; [|done]. rewrite E2. do 2 f_equal.
      replace (k0 + 1 + Z.of_nat n) with (k0 + Z.of_nat (S n)) by lia.
      rewrite (Z.pow_add_r 2 k0 1) by lia. lia.
Qed.

(** * The encoder represents the exact one *)
Definition bytes_val (l : list Z) : Z := bits_val (bytes_bits l).

Lemma bytes_val_snoc l b : 0 <= b < 256 -> bytes_val (l ++ [b]) = 256 * bytes_val l + b.
Proof.
  intros Hb. unfold bytes_val. rewrite bytes_bits_app, bits_val_app. cbn [bytes_bits].
  rewrite app_nil_r, bits_val_bits, length_bits. change (2 ^ Z.of_nat 8) with 256.
  rewrite Z.mod_small by lia. lia.
Qed.

Lemma bytes_val_app l k :
  bytes_val (l ++ k) = bytes_val l * 256 ^ Z.of_nat (length k) + bytes_val k.
Proof.
  unfold bytes_val. rewrite bytes_bits_app, bits_val_app, length_bytes_bits. f_equal. f_equal.
  change 256 with (2 ^ 8). rewrite <- Z.pow_mul_r by lia. f_equal. lia.
Qed.

Lemma bytes_val_replicate n c : 0 <= c < 256 ->
  255 * bytes_val (replicate n c) = c * (256 ^ Z.of_nat n - 1).
Proof.
  intros Hc. induction n as [|n IH]; [cbn; lia|].
  replace (replicate (S n) c) with (replicate n c ++ [c]) by (by rewrite <- replicate_S_end).
  rewrite bytes_val_snoc by done. rewrite Nat2Z.inj_succ, Z.pow_succ_r by lia. lia.
Qed.

(** The bytes written since [cb_p_start]. *)
Definition cb_bytes (cb : x264_cabac_t) : list Z :=
  ld_bytes (Z.to_nat (cb_p cb - cb_p_start cb)) (cb_mem cb) (cb_p_start cb).

(** The value of the bytes, of the outstanding 0xff ones and of the window. *)
Definition cb_value (cb : x264_cabac_t) : Z :=
  ((bytes_val (cb_bytes cb) + 1) * 256 ^ i_bytes_outstanding cb - 1) * 2 ^ (i_queue cb + 10) + i_low cb.

(** A carry can only reach the last byte written, and that byte can take it. *)
Record rep (cb : x264_cabac_t) (L N : Z) : Prop := {
  rep_p : cb_p_start cb <= cb_p cb;
  rep_out : 0 <= i_bytes_outstanding cb;
  rep_bytes : Forall (fun b => 0 <= b < 256) (cb_bytes cb);
  rep_last : forall l b, cb_bytes cb = l ++ [b] -> b <> 255;
  rep_val : cb_value cb = L;
  rep_count : 8 * (cb_p cb - cb_p_start cb + i_bytes_outstanding cb) + i_queue cb = N - 1
}.

Definition window_ok (cb : x264_cabac_t) (bound : Z) : Prop :=
  -1 <= i_queue cb <= bound /\ 0 <= i_low cb /\ i_low cb < 1022 * 2 ^ (i_queue cb + 1).

Lemma s32_window cb low q : -1 <= q <= 17 -> 0 <= low < 1022 * 2 ^ (q + 1) ->
  i_low (set_engine cb low (i_range cb) q) = low.
Proof.
  intros Hq Hl. cbn [set_engine i_low]. apply sw_small; [lia|].
  assert (2 ^ (q + 1) <= 2 ^ 18) by (apply Z.pow_le_mono_r; lia). lia.
Qed.

(** ** Memory *)
Lemma st_bytes_u8 m a l : st_bytes m a l = st_bytes m a (map u8 l).
Proof.
  revert m a. induction l as [|b l IH]; intros m a; cbn [st_bytes map]; [done|].
  rewrite IH. f_equal. unfold st8. f_equal. unfold uw. by rewrite Z.mod_mod.
Qed.

Lemma fill_loop v n : forall lo p m,
  for_ n lo (fun _ '(p, m) => (p + 1, st8 m p v)) (p, m) =
  (p + Z.of_nat n, st_bytes m p (replicate n v)).
Proof.
  induction n as [|n IH]; intros lo p m; cbn [for_ replicate st_bytes].
  - by rewrite Z.add_0_r.
  - rewrite IH. f_equal. lia.
Qed.

(** Bytes stored at the end of those already there. *)
Lemma ld_bytes_append n m a l :
  ld_bytes (n + length l) (st_bytes m (a + Z.of_nat n) l) a = ld_bytes n m a ++ map u8 l.
Proof.
  rewrite ld_bytes_app. f_equal; [apply ld_bytes_st_frame; lia|].
  rewrite st_bytes_u8. rewrite <- (length_map u8 l). apply ld_st_bytes.
  apply Forall_map. apply Forall_true. intros b. apply uw_range. lia.
Qed.

Lemma ld_bytes_snoc n m a : ld_bytes (S n) m a = ld_bytes n m a ++ [m (a + Z.of_nat n)].
Proof. replace (S n) with (n + 1)%nat by lia. by rewrite ld_bytes_app. Qed.

(** Adding a carry to the byte before [a + n]. *)
Lemma ld_bytes_carry n m a c :
  ld_bytes (S n) (st8 m (a + Z.of_nat (S n) - 1) (m (a + Z.of_nat (S n) - 1) + c)) a =
  ld_bytes n m a ++ [u8 (m (a + Z.of_nat n) + c)].
Proof.
  replace (a + Z.of_nat (S n) - 1) with (a + Z.of_nat n) by lia.
  rewrite ld_bytes_snoc. f_equal.
  - apply ld_bytes_ext. intros x Hx. apply upd_ne. lia.
  - unfold st8. by rewrite upd_eq.
Qed.

Lemma land_255 x : x .& 0xff = x mod 256.
Proof. exact (Z.land_ones x 8 ltac:(lia)). Qed.

Lemma map_replicate (f : Z -> Z) n x : map f (replicate n x) = replicate n (f x).
Proof. induction n; simpl; congruence. Qed.

(** ** Handing over a byte *)
Section Putbyte.
Context (cb : x264_cabac_t) (L N : Z).
Context (Hrep : rep cb L N) (Hwin : window_ok cb 16) (Hq : 8 <= i_queue cb) (HL : L < 2 ^ (N + 9)).
Let q := i_queue cb.
Let out := i_low cb / 2 ^ (q + 2).
Let rest := i_low cb mod 2 ^ (q + 2).
Let o := i_bytes_outstanding cb.
Let bv := bytes_val (cb_bytes cb).

Lemma put_split : i_low cb = out * 2 ^ (q + 2) + rest /\ 0 <= rest < 2 ^ (q + 2) /\ 0 <= out <= 510.
Proof.
  destruct Hwin as (H1 & H2 & H3). unfold out, rest, q in *.
  pose proof (pow2_pos (i_queue cb + 2)) as P. specialize (P ltac:(lia)).
  pose proof (Z.div_mod (i_low cb) (2 ^ (i_queue cb + 2))) as D.
  pose proof (Z.mod_pos_bound (i_low cb) (2 ^ (i_queue cb + 2))) as M.
  split; [lia|]. split; [lia|]. split; [apply Z.div_pos; lia|].
  assert (i_low cb / 2 ^ (i_queue cb + 2) < 511); [|lia].
  apply Z.div_lt_upper_bound; [lia|].
  replace (i_queue cb + 2) with (i_queue cb + 1 + 1) by lia. rewrite Z.pow_add_r by lia. lia.
Qed.

Lemma put_scale : 2 ^ (q + 10) = 256 * 2 ^ (q + 2).
Proof. replace (q + 10) with (8 + (q + 2)) by lia. rewrite Z.pow_add_r by (unfold q; lia). done. Qed.

(** The value in terms of the byte handed over. *)
Lemma put_value : L = (((bv + 1) * 256 ^ o - 1) * 256 + out) * 2 ^ (q + 2) + rest.
Proof.
  destruct put_split as (E & _). pose proof (rep_val _ _ _ Hrep) as V. unfold cb_value in V.
  fold q o bv in V. rewrite E, put_scale in V. lia.
Qed.

(** Before the first byte nothing carries. *)
Lemma put_first : cb_p cb = cb_p_start cb -> out < 256.
Proof.
  intros Hp. destruct (Z.lt_decidable out 256) as [|Hge]; [done|exfalso].
  destruct put_split as (_ & R & _). pose proof put_value as V.
  assert (bv = 0) as Hb.
  { unfold bv, cb_bytes. replace (cb_p cb - cb_p_start cb) with 0 by lia. reflexivity. }
  pose proof (rep_count _ _ _ Hrep) as C. fold q o in C.
  pose proof (rep_out _ _ _ Hrep) as Ho. fold o in Ho.
  assert (2 ^ (N + 9) = 256 ^ o * 256 * 2 ^ (q + 2)) as E.
  { replace (N + 9) with (8 * o + 8 + (q + 2)) by lia.
    rewrite !Z.pow_add_r, Z.pow_mul_r by (unfold q; lia). done. }
  rewrite E, V, Hb in HL. pose proof (pow2_pos (q + 2)) as P. specialize (P ltac:(unfold q; lia)).
  assert (0 < 256 ^ o) by (apply Z.pow_pos_nonneg; lia). nia.
Qed.

Lemma put_engine :
  i_low (set_engine cb (i_low cb .& ((4 << q) - 1)) (i_range cb) (q - 8)) = rest.
Proof.
  destruct put_split as (_ & R & _). cbn [set_engine i_low].
  replace ((4 << q) - 1) with (Z.ones (q + 2)).
  2: { rewrite Z.ones_equiv, Z.shiftl_mul_pow2 by (unfold q; lia).
       rewrite Z.add_comm, Z.pow_add_r by (unfold q; lia). change (2 ^ 2) with 4. lia. }
  rewrite Z.land_ones by (unfold q; lia). fold rest. apply sw_small; [lia|].
  destruct Hwin as (H1 & _).
  assert (2 ^ (q + 2) <= 2 ^ 18) by (apply Z.pow_le_mono_r; unfold q in *; lia). lia.
Qed.

Definition put_post (cb' : x264_cabac_t) : Prop :=
  rep cb' L N /\ i_queue cb' = q - 8 /\ 0 <= i_low cb' < 2 ^ (q + 2) /\
  i_range cb' = i_range cb /\ state cb' = state cb /\ cb_p_start cb' = cb_p_start cb.

Lemma put_outstanding : out = 255 ->
  put_post (set_output (set_engine cb (i_low cb .& ((4 << q) - 1)) (i_range cb) (q - 8))
              (o + 1) (cb_p cb) (cb_mem cb)).
Proof.
  intros Ho. destruct put_split as (_ & R & _).
  split; [|split; [done|split; [change (i_low (set_output _ _ _ _)) with
    (i_low (set_engine cb (i_low cb .& ((4 << q) - 1)) (i_range cb) (q - 8))); by rewrite put_engine|done]]].
  destruct Hrep as [R1 R2 R3 R4 R5 R6]. split; try done.
  - cbn [set_output i_bytes_outstanding]. unfold o. lia.
  - unfold cb_value. change (i_low (set_output _ _ _ _)) with
      (i_low (set_engine cb (i_low cb .& ((4 << q) - 1)) (i_range cb) (q - 8))). rewrite put_engine.
    change (cb_bytes (set_output _ _ _ _)) with (cb_bytes cb). fold bv.
    cbn [set_output set_engine i_bytes_outstanding i_queue].
    rewrite put_value, Ho. replace (q - 8 + 10) with (q + 2) by lia.
    rewrite Z.pow_add_r by (unfold o; lia). change (256 ^ 1) with 256. lia.
  - cbn [set_output set_engine i_bytes_outstanding i_queue cb_p cb_p_start]. unfold o, q. lia.
Qed.

(** A carry added to the last byte. *)
Lemma put_carry carry : (cb_p cb = cb_p_start cb -> carry = 0) -> 0 <= carry <= 1 ->
  let m := st8 (cb_mem cb) (cb_p cb - 1) (cb_mem cb (cb_p cb - 1) + carry) in
  let b1 := ld_bytes (Z.to_nat (cb_p cb - cb_p_start cb)) m (cb_p_start cb) in
  Forall (fun b => 0 <= b < 256) b1 /\ bytes_val b1 = bv + carry.
Proof.
  intros H0 Hc. cbv zeta. destruct Hrep as [R1 _ R3 R4 _ _]. unfold bv, cb_bytes in *.
  destruct (Z.to_nat (cb_p cb - cb_p_start cb)) as [|n] eqn:En.
  - assert (carry = 0) as -> by (apply H0; lia). split; [constructor|done].
  - rewrite ld_bytes_snoc in R3, R4. apply Forall_app in R3 as [Rl Rb]. inversion Rb; subst.
    specialize (R4 _ _ eq_refl).
    replace (cb_p cb) with (cb_p_start cb + Z.of_nat (S n)) by lia.
    rewrite ld_bytes_carry, ld_bytes_snoc.
    set (b := cb_mem cb (cb_p_start cb + Z.of_nat n)) in *.
    rewrite uw_small by lia. split.
    + apply Forall_app. split; [done|]. repeat constructor; lia.
    + rewrite !bytes_val_snoc by lia. lia.
Qed.

Lemma put_written : out mod 256 <> 255 ->
  let cb1 := set_engine cb (i_low cb .& ((4 << q) - 1)) (i_range cb) (q - 8) in
  let carry := out / 256 in
  let m := st8 (cb_mem cb) (cb_p cb - 1) (cb_mem cb (cb_p cb - 1) + carry) in
  put_post (set_output cb1 0 (cb_p cb + o + 1)
    (st_bytes m (cb_p cb) (replicate (Z.to_nat o) (carry - 1) ++ [out]))).
Proof.
  intros Hne cb1 carry m. destruct put_split as (_ & R & Ro).
  assert (0 <= carry <= 1 /\ out = 256 * carry + out mod 256 /\ 0 <= out mod 256 < 256) as (Hc & Hout & Hb).
  { unfold carry. pose proof (Z.div_mod out 256). pose proof (Z.mod_pos_bound out 256). lia. }
  destruct (put_carry carry) as [B1 B2]; [|done|].
  { intros Hp. unfold carry. apply Z.div_small. split; [lia|by apply put_first]. }
  fold m in B1, B2. set (b1 := ld_bytes _ m _) in *.
  set (n := Z.to_nat (cb_p cb - cb_p_start cb)) in *.
  pose proof Hrep as [R1 R2 R3 R4 R5 R6]. fold o in R2, R6.
  set (l := replicate (Z.to_nat o) (carry - 1) ++ [out]).
  set (cb' := set_output cb1 0 (cb_p cb + o + 1) (st_bytes m (cb_p cb) l)).
  set (fill := replicate (Z.to_nat o) (u8 (carry - 1))).
  assert (map u8 l = fill ++ [out mod 256]) as El by (unfold l; by rewrite map_app, map_replicate).
  assert (length l = S (Z.to_nat o)) as Ell by (unfold l; rewrite length_app, length_replicate; simpl; lia).
  assert (cb_bytes cb' = b1 ++ fill ++ [out mod 256]) as Eb.
  { unfold cb_bytes, cb'. cbn [set_output cb_p cb_p_start cb_mem cb1 set_engine].
    replace (Z.to_nat (cb_p cb + o + 1 - cb_p_start cb)) with (n + length l)%nat by lia.
    replace (cb_p cb) with (cb_p_start cb + Z.of_nat n) by lia.
    rewrite ld_bytes_append, El. done. }
  assert (0 <= u8 (carry - 1) < 256) as Hfill by (apply uw_range; lia).
  split; [|split; [done|split; [|done]]].
  2: { change (i_low cb') with (i_low cb1). unfold cb1. by rewrite put_engine. }
  split.
  - unfold cb'. cbn [set_output cb_p cb_p_start cb1 set_engine]. lia.
  - done.
  - rewrite Eb. apply Forall_app. split; [done|]. apply Forall_app. split.
    + apply Forall_replicate. done.
    + constructor; [exact Hb|constructor].
  - intros l' b E. rewrite Eb, app_assoc in E. apply app_inj_tail in E as [_ <-]. done.
  - unfold cb_value. change (i_low cb') with (i_low cb1). unfold cb1 at 1. rewrite put_engine, Eb.
    unfold cb'. cbn [set_output i_bytes_outstanding i_queue cb1 set_engine].
    rewrite app_assoc, bytes_val_snoc, bytes_val_app, B2 by done.
    unfold fill at 1. rewrite length_replicate, Z2Nat.id by lia.
    pose proof (bytes_val_replicate (Z.to_nat o) (u8 (carry - 1)) Hfill) as F. fold fill in F.
    rewrite Z2Nat.id in F by lia.
    assert (bytes_val fill = (1 - carry) * (256 ^ o - 1)) as ->.
    { assert (carry = 0 \/ carry = 1) as [Ec|Ec] by lia; rewrite Ec in *.
      - change (u8 (0 - 1)) with 255 in F. lia.
      - change (u8 (1 - 1)) with 0 in F. lia. }
    rewrite put_value. replace (q - 8 + 10) with (q + 2) by lia.
    change (256 ^ 0) with 1. f_equal. f_equal.
    assert (carry = 0 \/ carry = 1) as [Ec|Ec] by lia; rewrite Ec in *; lia.
  - unfold cb'. cbn [set_output i_bytes_outstanding i_queue cb_p cb_p_start cb1 set_engine].
    fold q in R6. lia.
Qed.
End Putbyte.

Lemma putbyte_spec cb L N : rep cb L N -> window_ok cb 16 -> L < 2 ^ (N + 9) ->
  let cb' := x264_cabac_putbyte cb in
  rep cb' L N /\ i_range cb' = i_range cb /\ state cb' = state cb /\ cb_p_start cb' = cb_p_start cb /\
  0 <= i_low cb' /\
  if i_queue cb <? 8 then i_queue cb' = i_queue cb /\ i_low cb' = i_low cb
  else i_queue cb' = i_queue cb - 8 /\ i_low cb' < 2 ^ (i_queue cb' + 10).
Proof.
  intros Hrep Hwin HL. cbv zeta. unfold x264_cabac_putbyte.
  destruct (Z.geb_spec (i_queue cb) 8) as [Hq|Hq].
  2: { replace (i_queue cb <? 8) with true by lia. destruct Hwin as (_ & H & _). done. }
  replace (i_queue cb <? 8) with false by lia.
  pose proof (put_split cb N Hwin Hq) as (_ & _ & Ro).
  rewrite (Z.shiftr_div_pow2 (i_low cb)) by lia. set (out := i_low cb / 2 ^ (i_queue cb + 2)) in *.
  rewrite land_255. rewrite (Z.shiftr_div_pow2 out) by lia. change (2 ^ 8) with 256.
  cbn [set_engine cb_p cb_mem i_bytes_outstanding].
  assert (forall cb', put_post cb L N cb' -> rep cb' L N /\ i_range cb' = i_range cb /\
    state cb' = state cb /\ cb_p_start cb' = cb_p_start cb /\ 0 <= i_low cb' /\
    i_queue cb' = i_queue cb - 8 /\ i_low cb' < 2 ^ (i_queue cb' + 10)) as Hpost.
  { intros cb' (H1 & H2 & H3 & H4 & H5 & H6). repeat (split; [done || lia|]).
    rewrite H2. replace (i_queue cb - 8 + 10) with (i_queue cb + 2) by lia. lia. }
  apply Hpost. destruct (Z.eqb_spec (out mod 256) 255) as [E|E].
  - apply (put_outstanding cb L N Hrep Hwin Hq).
    change (out = 255). pose proof (Z.div_mod out 256). lia.
  - rewrite fill_loop. 
    pose proof (put_written cb L N Hrep Hwin Hq HL E) as H. cbv zeta in H.
    rewrite st_bytes_app in H. cbn [st_bytes] in H.
    rewrite length_replicate in H. destruct Hrep as [_ R2 _ _ _ _].
    rewrite Z2Nat.id in * by lia. exact H.
Qed.

(** ** Every operation *)
Record refines (cb : x264_cabac_t) (e : exact) : Prop := {
  rf_rep : rep cb (eL e) (eN e);
  rf_queue : -1 <= i_queue cb <= 7;
  rf_low : 0 <= i_low cb;
  rf_window : i_low cb + eR e <= 1022 * 2 ^ (i_queue cb + 1);
  rf_range : i_range cb = eR e;
  rf_state : state cb = eS e;
  rf_ok : exact_ok e
}.

Lemma rep_shift cb L N k a r : rep cb L N -> -1 <= i_queue cb -> 0 <= k -> i_queue cb + k <= 17 ->
  0 <= i_low cb * 2 ^ k + a < 1022 * 2 ^ (i_queue cb + k + 1) ->
  let cb' := set_engine cb (i_low cb * 2 ^ k + a) r (i_queue cb + k) in
  rep cb' (L * 2 ^ k + a) (N + k) /\ i_low cb' = i_low cb * 2 ^ k + a.
Proof.
  intros [R1 R2 R3 R4 R5 R6] Hq Hk Hle Hl cb'.
  assert (i_low cb' = i_low cb * 2 ^ k + a) as El by exact (s32_window cb _ (i_queue cb + k) ltac:(lia) Hl).
  split; [|done]. split; try done.
  - unfold cb_value. rewrite El. change (cb_bytes cb') with (cb_bytes cb).
    unfold cb'. cbn [set_engine i_bytes_outstanding i_queue]. rewrite <- R5. unfold cb_value.
    replace (i_queue cb + k + 10) with (i_queue cb + 10 + k) by lia.
    rewrite Z.pow_add_r by lia. lia.
  - unfold cb'. cbn [set_engine i_bytes_outstanding i_queue cb_p cb_p_start]. lia.
Qed.

Lemma refines_put cb e k a e' :
  refines cb e -> 0 <= k <= 8 -> 0 <= a -> exact_ok e' ->
  eL e' = eL e * 2 ^ k + a -> eN e' = eN e + k -> a + eR e' <= eR e * 2 ^ k ->
  forall cb1, cb1 = set_engine cb (i_low cb * 2 ^ k + a) (eR e') (i_queue cb + k) ->
  forall cb2, i_low cb2 = i_low cb1 -> i_range cb2 = i_range cb1 -> i_queue cb2 = i_queue cb1 ->
    i_bytes_outstanding cb2 = i_bytes_outstanding cb1 -> cb_p cb2 = cb_p cb1 ->
    cb_p_start cb2 = cb_p_start cb1 -> cb_mem cb2 = cb_mem cb1 -> state cb2 = eS e' ->
  refines (x264_cabac_putbyte cb2) e'.
Proof.
  intros [F1 F2 F3 F4 F5 F6 F7] Hk Ha He' EL EN ER cb1 -> cb2 Q1 Q2 Q3 Q4 Q5 Q6 Q7 Q8.
  pose proof (pow2_pos k) as P. specialize (P ltac:(lia)).
  assert (2 ^ (i_queue cb + k + 1) = 2 ^ (i_queue cb + 1) * 2 ^ k) as E2
    by (rewrite <- Z.pow_add_r by lia; f_equal; lia).
  pose proof He' as (HR' & HL' & HN' & Hb' & _).
  assert (i_low cb * 2 ^ k + a + eR e' <= 1022 * 2 ^ (i_queue cb + k + 1)) as Hw by (rewrite E2; nia).
  destruct (rep_shift cb (eL e) (eN e) k a (eR e') F1) as [Hrep Hlow]; [lia|lia|lia|split; [nia|lia]|].
  rewrite <- EL, <- EN in Hrep. set (cb1 := set_engine _ _ _ _) in *.
  assert (i_queue cb1 = i_queue cb + k) as Hq1 by done.
  assert (rep cb2 (eL e') (eN e')) as Hrep2.
  { destruct Hrep as [R1 R2 R3 R4 R5 R6].
    assert (cb_bytes cb2 = cb_bytes cb1) as Eb by (unfold cb_bytes; by rewrite Q5, Q6, Q7).
    split; rewrite ?Q3, ?Q4, ?Q5, ?Q6, ?Eb; try done.
    unfold cb_value. rewrite Eb, Q4, Q3, Q1. exact R5. }
  destruct (putbyte_spec cb2 (eL e') (eN e') Hrep2) as (G1 & G2 & G3 & _ & G4 & G5).
  { split; [rewrite Q3; lia|]. rewrite Q1, Q3, Hlow, Hq1. lia. }
  { lia. }
  rewrite Q1, Q2, Q3, Hlow, Hq1 in *.
  destruct (Z.ltb_spec (i_queue cb + k) 8).
  - destruct G5 as [G5 G6].
    split; try done; try congruence; try lia.
  - destruct G5 as [G5 G6].
    replace (2 ^ (i_queue (x264_cabac_putbyte cb2) + 10))
      with (512 * 2 ^ (i_queue (x264_cabac_putbyte cb2) + 1)) in G6
      by (change 512 with (2 ^ 9); rewrite <- Z.pow_add_r by lia; f_equal; lia).
    assert (1 <= 2 ^ (i_queue (x264_cabac_putbyte cb2) + 1)) as P1
      by (apply (Z.pow_le_mono_r 2 0); lia).
    split; try done; try congruence; try lia.
Qed.

(** Renormalisation after the interval was narrowed to [low + a], [R1]. *)
Lemma refines_renorm cb e a R1 st :
  refines cb e -> 0 <= a -> 6 <= R1 <= 510 -> a + R1 <= eR e ->
  (forall i, 0 <= i < 460 -> state_ok (st i)) ->
  forall cb1, i_low cb1 = i_low cb + a -> i_range cb1 = R1 -> i_queue cb1 = i_queue cb ->
    i_bytes_outstanding cb1 = i_bytes_outstanding cb -> cb_p cb1 = cb_p cb ->
    cb_p_start cb1 = cb_p_start cb -> cb_mem cb1 = cb_mem cb -> state cb1 = st ->
  refines (x264_cabac_encode_renorm cb1) (exact_shift (Exact (eL e + a) R1 (eN e) st)).
Proof.
  intros Hf Ha HR1 Hle Hst cb1 Q1 Q2 Q3 Q4 Q5 Q6 Q7 Q8.
  pose proof (rf_ok _ _ Hf) as (HR & HL & HN & Hb & _).
  destruct (exact_shift_ok (Exact (eL e + a) R1 (eN e) st)) as [He' _]; cbn [eL eR eN eS]; try done; try lia.
  destruct (shift_of_ok R1 HR1) as (K1 & K2 & _).
  unfold x264_cabac_encode_renorm. rewrite Q2. fold (shift_of R1).
  assert (0 < 2 ^ shift_of R1) by (apply pow2_pos; lia).
  eapply (refines_put cb e (shift_of R1) (a * 2 ^ shift_of R1) _ Hf); try exact He'; try done; try nia.
  all: unfold exact_shift; cbn [eL eR eN eS]; cbn [set_engine i_low i_range i_queue i_bytes_outstanding
    cb_p cb_p_start cb_mem state]; rewrite ?Q1, ?Q3, ?Z.shiftl_mul_pow2 by lia; try done; try nia; try lia.
  all: try (f_equal; lia).
Qed.

Lemma encode_decision_refines cb e ctx b : refines cb e -> 0 <= ctx < 460 -> b = 0 \/ b = 1 ->
  refines (x264_cabac_encode_decision_c cb ctx b) (exact_decision e ctx b).
Proof.
  intros Hf Hc Hb. pose proof (rf_ok _ _ Hf) as (HR & HL & HN & _ & Hs).
  pose proof Hf as [F1 F2 F3 F4 F5 F6 F7]. pose proof (Hs ctx Hc) as Hst.
  destruct (range_lps_ok (eS e ctx) (eR e) Hst HR) as [L1 L2].
  unfold x264_cabac_encode_decision_c, exact_decision. cbv zeta. rewrite F5, F6.
  fold (range_lps (eS e ctx) (eR e)). set (lps := range_lps (eS e ctx) (eR e)) in *.
  set (st := upd (eS e) ctx _).
  assert (forall i, 0 <= i < 460 -> state_ok (st i)) as Hs'.
  { intros i Hi. unfold st, upd. destruct (i =? ctx); [by apply transition_ok|by apply Hs]. }
  assert (forall low q, -1 <= q <= 7 -> 0 <= low <= 1022 * 2 ^ (q + 1) -> s32 low = low) as Hs32.
  { intros low q Hq Hl. apply sw_small; [lia|].
    assert (2 ^ (q + 1) <= 2 ^ 8) by (apply Z.pow_le_mono_r; lia). lia. }
  destruct (b =? eS e ctx >> 6); cbn [negb].
  - replace (Exact (eL e) (eR e - lps) (eN e) st) with (Exact (eL e + 0) (eR e - lps) (eN e) st)
      by (f_equal; lia).
    apply (refines_renorm cb e 0 (eR e - lps) st Hf); try done; try lia.
    + cbn [set_state set_engine i_low]. rewrite (Hs32 _ (i_queue cb)) by lia. lia.
    + cbn [set_state set_engine state]. by rewrite F6.
  - apply (refines_renorm cb e (eR e - lps) lps st Hf); try done; try lia.
    + cbn [set_state set_engine i_low]. rewrite (Hs32 _ (i_queue cb)) by lia. lia.
    + cbn [set_state set_engine state]. by rewrite F6.
Qed.

Lemma encode_terminal_refines cb e : refines cb e ->
  refines (x264_cabac_encode_terminal cb) (exact_terminal e).
Proof.
  intros Hf. pose proof (rf_ok _ _ Hf) as (HR & HL & HN & _ & Hs).
  pose proof Hf as [F1 F2 F3 F4 F5 F6 F7]. unfold x264_cabac_encode_terminal, exact_terminal.
  replace (Exact (eL e) (eR e - 2) (eN e) (eS e)) with (Exact (eL e + 0) (eR e - 2) (eN e) (eS e))
    by (f_equal; lia).
  apply (refines_renorm cb e 0 (eR e - 2) (eS e) Hf); try done; try lia.
  - cbn [set_engine i_low]. rewrite Z.add_0_r. apply sw_small; [lia|].
    assert (2 ^ (i_queue cb + 1) <= 2 ^ 8) by (apply Z.pow_le_mono_r; lia). lia.
  - cbn [set_engine i_range]. by rewrite F5.
Qed.

(** A chunk of [i] bypass bits at once. *)
Lemma chunk_refines cb e i l : refines cb e -> i = Z.of_nat (length l) -> 0 <= i <= 8 ->
  refines (x264_cabac_putbyte (set_engine cb (s32 (i_low cb << i) + bits_val l * i_range cb)
             (i_range cb) (i_queue cb + i)))
    (exact_bits e l).
Proof.
  intros Hf -> Hi. pose proof Hf as [F1 F2 F3 F4 F5 F6 F7]. pose proof F7 as (HR & HL & HN & _ & _).
  destruct (exact_bits_ok l e F7) as [He' _]. pose proof (bits_val_range l) as Hv.
  pose proof (pow2_pos (Z.of_nat (length l))) as P.
  assert (2 ^ (i_queue cb + 1) <= 2 ^ 8) by (apply Z.pow_le_mono_r; lia).
  assert (2 ^ Z.of_nat (length l) <= 2 ^ 8) by (apply Z.pow_le_mono_r; lia).
  rewrite Z.shiftl_mul_pow2 by lia. rewrite sw_small by (lia || nia).
  rewrite exact_bits_val in *. rewrite F5.
  eapply (refines_put cb e (Z.of_nat (length l)) (bits_val l * eR e) _ Hf); try exact He'; try done; try nia. cbn [eR]. nia.
Qed.

Lemma encode_bypass_refines cb e b : refines cb e -> b = 0 \/ b = 1 ->
  refines (x264_cabac_encode_bypass cb b) (exact_bypass e b).
Proof.
  intros Hf Hb. unfold x264_cabac_encode_bypass.
  pose proof (chunk_refines cb e 1 [b =? 1] Hf eq_refl ltac:(lia)) as H.
  pose proof (rf_ok _ _ Hf) as (HR & _). pose proof (rf_range _ _ Hf) as F5.
  destruct Hb as [-> | ->].
  - exact H.
  - replace (- (1) .& i_range cb) with (i_range cb)
      by (change (- (1)) with (-1); by rewrite Z.land_m1_l).
    replace (bits_val [1 =? 1] * i_range cb) with (i_range cb) in H
      by (change (bits_val [1 =? 1]) with 1; lia). exact H.
Qed.

Lemma exact_bits_app e l k : exact_bits e (l ++ k) = exact_bits (exact_bits e l) k.
Proof. unfold exact_bits. by rewrite fold_left_app. Qed.

Lemma ue_bypass_bits_refines x fuel : forall cb e kk i,
  refines cb e -> 0 <= x -> 1 <= i <= 8 -> i <= kk -> (kk - i) mod 8 = 0 ->
  (i = 8 \/ x / 2 ^ (kk - i) < 2 ^ i) -> (kk - i) / 8 < Z.of_nat fuel ->
  exists cb', ue_bypass_bits fuel cb x kk i = Some cb' /\
    refines cb' (exact_bits e (bits (Z.to_nat kk) x)).
Proof.
  induction fuel as [|fuel IH]; intros cb e kk i Hf Hx Hi Hk Hm Htop Hfuel.
  { pose proof (Z.div_pos (kk - i) 8). lia. }
  cbn [ue_bypass_bits].
  assert ((x >> (kk - i)) .& 0xff = bits_val (bits (Z.to_nat i) (x >> (kk - i)))) as Ev.
  { rewrite bits_val_bits, Z2Nat.id, land_255, Z.shiftr_div_pow2 by lia.
    destruct Htop as [-> | Htop]; [done|].
    pose proof (Z.div_pos x (2 ^ (kk - i)) Hx ltac:(apply pow2_pos; lia)).
    rewrite !Z.mod_small; [done|lia|].
    assert (2 ^ i <= 2 ^ 8) by (apply Z.pow_le_mono_r; lia). lia. }
  rewrite Ev. set (l1 := bits (Z.to_nat i) (x >> (kk - i))).
  pose proof (chunk_refines cb e i l1 Hf) as Hc.
  specialize (Hc ltac:(unfold l1; rewrite length_bits; lia) ltac:(lia)).
  set (cb1 := x264_cabac_putbyte _) in *.
  assert (bits (Z.to_nat kk) x = l1 ++ bits (Z.to_nat (kk - i)) x) as ->.
  { replace (Z.to_nat kk) with (Z.to_nat i + Z.to_nat (kk - i))%nat by lia.
    rewrite bits_add. unfold l1. do 2 f_equal. f_equal. lia. }
  rewrite exact_bits_app. pose proof (Z.div_mod (kk - i) 8) as D.
  destruct (Z.gtb_spec (kk - i) 0).
  - apply IH; try done; try lia.
    + replace (kk - i - 8) with (kk - i + (-1) * 8) by lia. by rewrite Z.mod_add.
    + replace (kk - i - 8) with (kk - i + (-1) * 8) by lia. rewrite Z.div_add by lia. lia.
  - exists cb1. split; [done|]. replace (kk - i) with 0 by lia. exact Hc.
Qed.

Lemma ue_bits_val e k v' : 0 <= e <= k -> k <= 15 -> 0 <= v' < 2 ^ k ->
  let x := u32 ((((1 << (k - e)) - 1) << (k + 1)) + v') in
  ue_bits e k v' = bits (Z.to_nat (2 * k + 1 - e)) x /\ 0 <= x < 2 ^ (2 * k + 1 - e).
Proof.
  intros He Hk Hv. cbv zeta. rewrite Z.shiftl_1_l, Z.shiftl_mul_pow2 by lia.
  pose proof (pow2_pos (k - e) ltac:(lia)). pose proof (pow2_pos k ltac:(lia)).
  assert (2 ^ (k + 1) = 2 * 2 ^ k) as E1 by (rewrite Z.pow_add_r by lia; lia).
  assert (2 ^ (2 * k + 1 - e) = 2 ^ (k - e) * 2 ^ (k + 1)) as E2
    by (rewrite <- Z.pow_add_r by lia; f_equal; lia).
  assert (2 ^ (2 * k + 1 - e) <= 2 ^ 31) by (apply Z.pow_le_mono_r; lia).
  assert (0 <= (2 ^ (k - e) - 1) * 2 ^ (k + 1) + v' < 2 ^ (2 * k + 1 - e)) as Hx by nia.
  rewrite uw_small by lia. split; [|done].
  rewrite <- (shiftl_lor_add (2 ^ (k - e) - 1) v') by lia.
  replace (Z.to_nat (2 * k + 1 - e)) with (Z.to_nat (k - e) + Z.to_nat (k + 1))%nat by lia.
  replace (k + 1) with (Z.of_nat (Z.to_nat (k + 1))) at 2 by lia.
  rewrite bits_push by (rewrite Z2Nat.id by lia; lia).
  unfold ue_bits. replace (2 ^ (k - e) - 1) with (2 ^ Z.of_nat (Z.to_nat (k - e)) - 1)
    by (rewrite Z2Nat.id by lia; done). rewrite bits_ones. f_equal.
  replace (Z.to_nat (k + 1)) with (S (Z.to_nat k)) by lia. cbn [bits]. f_equal.
  symmetry. rewrite Z2Nat.id by lia. apply (testbit_high _ k); lia.
Qed.

Lemma encode_ue_bypass_refines cb e exp v : refines cb e -> 0 <= exp <= 15 -> 0 <= v < 2 ^ 15 ->
  exists cb' k v', x264_cabac_encode_ue_bypass cb exp v = Some cb' /\
    exp <= k <= 15 /\ 0 <= v' < 2 ^ k /\ v = v' + 2 ^ k - 2 ^ exp /\
    refines cb' (exact_bits e (ue_bits exp k v')).
Proof.
  intros Hf He Hv. unfold x264_cabac_encode_ue_bypass.
  destruct (ue_bypass_k_spec exp v He Hv) as (k & v' & -> & H1 & H2 & H3).
  destruct (ue_bits_val exp k v') as [Eb Hx]; [lia|lia|done|]. cbv zeta in Eb, Hx.
  set (x := u32 _) in *. set (n := 2 * k + 1 - exp) in *.
  assert ((n - 1) .& 7 = (n - 1) mod 8) as -> by exact (Z.land_ones (n - 1) 3 ltac:(lia)).
  pose proof (Z.mod_pos_bound (n - 1) 8). pose proof (Z.div_mod (n - 1) 8).
  assert (n - ((n - 1) mod 8 + 1) = 8 * ((n - 1) / 8)) as En by lia.
  destruct (ue_bypass_bits_refines x 9 cb e n ((n - 1) mod 8 + 1)) as (cb' & -> & Hr);
    [done|lia|lia|lia| | | |].
  - rewrite En, Z.mul_comm. by apply Z.mod_mul.
  - right. apply Z.div_lt_upper_bound; [apply pow2_pos; lia|].
    rewrite <- Z.pow_add_r by lia. replace (_ + _) with n by lia. lia.
  - rewrite En, Z.mul_comm, Z.div_mul by lia.
    assert ((n - 1) / 8 < 9); [|lia]. apply Z.div_lt_upper_bound; lia.
  - exists cb', k, v'. rewrite <- Eb in Hr. done.
Qed.

(** ** Sequences of bins *)
Definition bin_ok (x : bin) : Prop :=
  match x with
  | Decision ctx b => 0 <= ctx < 460 /\ (b = 0 \/ b = 1)
  | Bypass b => b = 0 \/ b = 1
  | UeBypass e v => 0 <= e <= 15 /\ 0 <= v < 2 ^ 15
  | Terminal => True
  end.

(** One bin keeps the representation, and the decoder follows. *)
Lemma bin_step cb e x : refines cb e -> bin_ok x ->
  exists cb' e', encode_bin cb x = Some cb' /\ refines cb' e' /\ within e e' /\
    forall B d f, tracks B e d -> within e' f -> hits B f ->
      exists d', dec_bin x d = Some (bin_val x, d') /\ tracks B e' d'.
Proof.
  intros Hf Hx. pose proof (rf_ok _ _ Hf) as He. destruct x as [ctx b|b|exp v|]; cbn [bin_ok encode_bin] in *.
  - destruct Hx as [Hc Hb]. exists (x264_cabac_encode_decision_c cb ctx b), (exact_decision e ctx b).
    split; [done|]. split; [by apply encode_decision_refines|].
    split; [by apply exact_decision_ok|]. intros B d f Ht Hw Hh.
    by apply (dec_decision_tracks B e d ctx b f).
  - exists (x264_cabac_encode_bypass cb b), (exact_bypass e b).
    split; [done|]. split; [by apply encode_bypass_refines|].
    split; [by apply exact_bypass_ok|]. intros B d f Ht Hw Hh. cbn [dec_bin bin_val].
    assert (b = b2i (b =? 1)) as Eb by (by destruct Hx as [-> | ->]). rewrite Eb in Hw.
    destruct (dec_bypass_tracks B e d (b =? 1) f) as (d' & -> & Ht'); [done..|].
    exists d'. by rewrite <- Eb in *.
  - destruct Hx as [Hexp Hv].
    destruct (encode_ue_bypass_refines cb e exp v Hf Hexp Hv) as (cb' & k & v' & E & Hk & Hv' & Ev & Hr).
    exists cb', (exact_bits e (ue_bits exp k v')). split; [done|]. split; [done|].
    split; [by apply exact_bits_ok|]. intros B d f Ht Hw Hh. cbn [dec_bin bin_val].
    assert (k = exp + Z.of_nat (Z.to_nat (k - exp))) as Ek by lia.
    destruct (dec_ue_tracks B f v' (Z.to_nat (k - exp)) 31 exp 0 e d He Ht) as (d' & E' & Ht');
      [lia|lia|rewrite <- Ek; done|rewrite <- Ek; exact Hw|exact Hh|].
    rewrite <- Ek in *. exists d'. split; [|exact Ht']. rewrite E'. do 2 f_equal. lia.
  - exists (x264_cabac_encode_terminal cb), (exact_terminal e).
    split; [done|]. split; [by apply encode_terminal_refines|].
    split; [by apply exact_terminal_ok|]. intros B d f Ht Hw Hh. by apply (dec_terminal_tracks B e d f).
Qed.

Lemma bins_step l : forall cb e, refines cb e -> Forall bin_ok l ->
  exists cb' e', encode_bins cb l = Some cb' /\ refines cb' e' /\ within e e' /\
    forall B d f, tracks B e d -> within e' f -> hits B f ->
      exists d', dec_bins l d = Some (map bin_val l, d') /\ tracks B e' d'.
Proof.
  induction l as [|x l IH]; intros cb e Hf Hl.
  - exists cb, e. split; [done|]. split; [done|]. split; [apply within_refl|].
    intros B d f Ht _ _. by exists d.
  - inversion Hl as [|? ? Hx Hl']; subst.
    destruct (bin_step cb e x Hf Hx) as (cb1 & e1 & E1 & Hf1 & Hw1 & Hd1).
    destruct (IH cb1 e1 Hf1 Hl') as (cb2 & e2 & E2 & Hf2 & Hw2 & Hd2).
    exists cb2, e2. cbn [encode_bins]. rewrite E1. split; [done|]. split; [done|].
    split; [by eapply within_trans|]. intros B d f Ht Hw Hh. cbn [dec_bins map].
    destruct (Hd1 B d f Ht) as (d1 & -> & Ht1); [by eapply within_trans|done|].
    destruct (Hd2 B d1 f Ht1 Hw Hh) as (d2 & -> & Ht2). by exists d2.
Qed.

Lemma encode_init_refines cb p_data p_end : (forall i, 0 <= i < 460 -> state_ok (state cb i)) ->
  refines (x264_cabac_encode_init cb p_data p_end) (Exact 0 510 0 (state cb)).
Proof.
  intros Hs.
  assert (cb_bytes (x264_cabac_encode_init cb p_data p_end) = []) as Eb.
  { unfold cb_bytes. cbn [x264_cabac_encode_init cb_p cb_p_start]. by rewrite Z.sub_diag. }
  split; cbn [eL eR eN eS x264_cabac_encode_init i_queue i_low i_range state]; try done.
  - split; rewrite ?Eb; try done; cbn [x264_cabac_encode_init cb_p cb_p_start i_bytes_outstanding i_queue];
      try lia.
    + intros l b E. by destruct l.
    + unfold cb_value. rewrite Eb. reflexivity.
Qed.

(** ** The end of a slice *)
Lemma lor_1 x : exists d, x .| 1 = x + d /\ (d = 0 \/ d = 1) /\ (x .| 1) mod 2 = 1.
Proof.
  exists (1 - x mod 2). pose proof (Z.div_mod x 2). pose proof (Z.mod_pos_bound x 2).
  assert (x .| 1 = 2 * (x / 2) + 1) as E.
  { pose proof (shiftl_lor_add (x / 2) 1 1 ltac:(lia) ltac:(lia)) as Eo. change (2 ^ 1) with 2 in Eo.
    assert (x mod 2 = 0 \/ x mod 2 = 1) as [Hm|Hm] by lia.
    - replace (x .| 1) with ((x / 2 << 1) .| 1); [lia|]. f_equal.
      rewrite Z.shiftl_mul_pow2 by lia. change (2 ^ 1) with 2. lia.
    - replace x with ((x / 2 << 1) .| 1) at 1 by lia. rewrite <- Z.lor_assoc, Z.lor_diag. lia. }
  split; [lia|]. split; [lia|]. rewrite E, Z.add_comm, (Z.mul_comm 2), Z.mod_add by lia. done.
Qed.

(** Writing out the outstanding bytes. *)
Lemma flush_outstanding cb L N : rep cb L N -> i_queue cb = 0 -> 0 <= i_low cb < 2 ^ 10 -> L mod 2 ^ 10 = 0 ->
  let '(p, m) := for_ (Z.to_nat (i_bytes_outstanding cb)) 0
                   (fun _ '(p, m) => (p + 1, st8 m p 0xff)) (cb_p cb, cb_mem cb) in
  let cb' := set_output cb 0 p m in
  8 * Z.of_nat (length (cb_bytes cb')) = N - 1 /\ bytes_val (cb_bytes cb') = L / 2 ^ 10 /\
  Forall (fun b => 0 <= b < 256) (cb_bytes cb').
Proof.
  intros [R1 R2 R3 R4 R5 R6] Hq Hlow HL. rewrite fill_loop. cbv zeta.
  set (o := Z.to_nat (i_bytes_outstanding cb)). set (cb' := set_output _ _ _ _).
  set (n := Z.to_nat (cb_p cb - cb_p_start cb)).
  assert (cb_bytes cb' = cb_bytes cb ++ replicate o 255) as Eb.
  { unfold cb_bytes, cb'. cbn [set_output cb_p cb_p_start cb_mem].
    replace (Z.to_nat (cb_p cb + Z.of_nat o - cb_p_start cb)) with (n + length (replicate o 255%Z))%nat
      by (rewrite length_replicate; lia).
    replace (st_bytes (cb_mem cb) (cb_p cb)) with (st_bytes (cb_mem cb) (cb_p_start cb + Z.of_nat n))
      by (f_equal; lia).
    by rewrite ld_bytes_append, map_replicate. }
  assert (length (cb_bytes cb) = n) as En by apply length_ld_bytes.
  rewrite Eb, length_app, length_replicate, En. split; [lia|]. split.
  - rewrite bytes_val_app, length_replicate.
    pose proof (bytes_val_replicate o 255 ltac:(lia)) as F.
    unfold cb_value in R5. rewrite Hq in R5. change (0 + 10) with 10 in R5.
    replace (i_bytes_outstanding cb) with (Z.of_nat o) in R5 by lia.
    apply (Z.div_unique _ _ _ 0); [lia|].
    assert (i_low cb = 0) as Hl.
    { rewrite <- R5, Z.add_comm, Z.mod_add in HL by lia. rewrite Z.mod_small in HL by lia. done. }
    lia.
  - apply Forall_app. split; [done|]. apply Forall_replicate. lia.
Qed.

Lemma lor_bit z b : b = 0 \/ b = 1 -> exists r, z .| b = z + r /\ 0 <= r <= 1 /\ (z mod 2 = 1 -> r = 0).
Proof.
  intros [-> | ->].
  - exists 0. rewrite Z.lor_0_r. lia.
  - destruct (lor_1 z) as (d & E & Hd & Hm). exists d. split; [done|]. split; [lia|].
    intros Hz. rewrite E in Hm. destruct Hd as [-> | ->]; [done|].
    rewrite Z.add_mod, Hz in Hm by lia. done.
Qed.

Lemma flush_spec cb e i_frame : refines cb e ->
  let cb' := x264_cabac_encode_flush i_frame cb in
  exists t d, 0 <= t <= 7 /\ (d = 0 \/ d = 1) /\
    8 * Z.of_nat (length (cb_bytes cb')) = eN e + 9 + t /\
    bytes_val (cb_bytes cb') / 2 ^ t = eL e + eR e - 2 + d /\
    Forall (fun b => 0 <= b < 256) (cb_bytes cb').
Proof.
  intros [F1 F2 F3 F4 F5 F6 (HR & HL & HN & Hb & _)]. unfold x264_cabac_encode_flush. rewrite F5.
  assert (2 ^ (i_queue cb + 1) <= 2 ^ 8) as P8 by (apply Z.pow_le_mono_r; lia).
  rewrite (sw_small 32 (i_low cb + _)) by lia.
  destruct (lor_1 (i_low cb + (eR e - 2))) as (d & Ed & Hd & Hodd). rewrite Ed in *.
  set (a := eR e - 2 + d). set (M := eL e + a).
  (* the nine bits *)
  replace ((i_low cb + (eR e - 2) + d) << 9) with (i_low cb * 2 ^ 9 + a * 2 ^ 9)
    by (rewrite Z.shiftl_mul_pow2 by lia; unfold a; lia).
  destruct (rep_shift cb (eL e) (eN e) 9 (a * 2 ^ 9) (eR e) F1) as [H1 L1]; [lia|lia|lia| |].
  { replace (i_queue cb + 9 + 1) with (i_queue cb + 1 + 9) by lia. rewrite Z.pow_add_r by lia.
    unfold a. lia. }
  set (cb1 := set_engine _ _ _ _) in *. assert (i_queue cb1 = i_queue cb + 9) as Q1 by done.
  replace (eL e * 2 ^ 9 + a * 2 ^ 9) with (M * 2 ^ 9) in H1 by (unfold M; lia).
  assert (M * 2 ^ 9 < 2 ^ (eN e + 9 + 9)) as HM.
  { rewrite Z.pow_add_r by lia. unfold M, a. lia. }
  destruct (putbyte_spec cb1 (M * 2 ^ 9) (eN e + 9) H1) as (H2 & Rg2 & _ & _ & L2 & X2).
  { split; [lia|]. rewrite L1, Q1. replace (i_queue cb + 9 + 1) with (i_queue cb + 1 + 9) by lia.
    rewrite Z.pow_add_r by lia. unfold a. lia. }
  { exact HM. }
  set (cb2 := x264_cabac_putbyte cb1) in *.
  replace (i_queue cb1 <? 8) with false in X2 by lia. destruct X2 as [Q2 W2].
  assert (2 ^ (i_queue cb2 + 10) = 512 * 2 ^ (i_queue cb2 + 1)) as P2
    by (change 512 with (2 ^ 9); rewrite <- Z.pow_add_r by lia; f_equal; lia).
  destruct (putbyte_spec cb2 (M * 2 ^ 9) (eN e + 9) H2) as (H3 & Rg3 & _ & _ & L3 & X3);
    [split; [lia|split; [done|lia]]|exact HM|].
  set (cb3 := x264_cabac_putbyte cb2) in *.
  assert (0 <= i_queue cb3 <= 7 /\ i_low cb3 < 2 ^ (i_queue cb3 + 10)) as [Q3 W3].
  { destruct (Z.ltb_spec (i_queue cb2) 8); destruct X3 as [-> X3].
    - rewrite X3. split; [lia|done].
    - split; [lia|done]. }
  set (t := 7 - i_queue cb3).
  (* the window is an odd multiple of 2 ^ 9 *)
  assert (exists y, i_low cb3 = y * 2 ^ 9 /\ y mod 2 = 1) as (y & Ey & Yodd).
  { pose proof (rep_val _ _ _ F1) as V0. pose proof (rep_val _ _ _ H3) as V3. unfold cb_value in V0, V3.
    set (X0 := (_ + 1) * _ - 1) in V0. set (X3' := (_ + 1) * _ - 1) in V3.
    replace (i_queue cb3 + 10) with (i_queue cb3 + 1 + 9) in V3 by lia. rewrite Z.pow_add_r in V3 by lia.
    exists (M - X3' * 2 ^ (i_queue cb3 + 1)). split; [lia|].
    replace (M - X3' * 2 ^ (i_queue cb3 + 1)) with
      (i_low cb + (eR e - 2) + d + (X0 * 2 ^ (i_queue cb + 9) - X3' * 2 ^ i_queue cb3) * 2).
    - rewrite Z.mod_add by lia. done.
    - unfold M, a. rewrite <- V0. replace (i_queue cb + 10) with (i_queue cb + 9 + 1) by lia.
      rewrite (Z.pow_add_r 2 (i_queue cb + 9) 1), (Z.pow_add_r 2 (i_queue cb3) 1) by lia. lia. }
  (* the last byte *)
  set (b := (_ .& 1)).
  assert (b = 0 \/ b = 1) as Hbit.
  { unfold b. pose proof (Z.land_ones (0x35a4e4f5 >> (i_frame .& 31)) 1 ltac:(lia)) as E.
    change (Z.ones 1) with 1 in E. rewrite E. change (2 ^ 1) with 2.
    pose proof (Z.mod_pos_bound (0x35a4e4f5 >> (i_frame .& 31)) 2). lia. }
  pose proof (pow2_pos t ltac:(unfold t; lia)) as Pt.
  destruct (lor_bit (y * 2 ^ t) b Hbit) as (r & Er & Hr & Hr0).
  assert (2 ^ (8 - i_queue cb3) * 2 ^ 9 = 2 ^ t * 2 ^ 10) as Ep
    by (rewrite <- !Z.pow_add_r by (unfold t; lia); f_equal; unfold t; lia).
  assert (i_low cb3 * 2 ^ (8 - i_queue cb3) = (y * 2 ^ t) * 2 ^ 10) as Elow by (rewrite Ey; lia).
  assert (i_low cb3 * 2 ^ (8 - i_queue cb3) < 2 ^ 18) as Hlow.
  { replace 18 with ((i_queue cb3 + 10) + (8 - i_queue cb3)) by lia. rewrite Z.pow_add_r by lia.
    apply Z.mul_lt_mono_pos_r; [apply pow2_pos; lia|done]. }
  assert (0 <= i_low cb3 * 2 ^ (8 - i_queue cb3))
    by (apply Z.mul_nonneg_nonneg; [done|apply Z.pow_nonneg; lia]).
  replace (s32 (i_low cb3 << (8 - i_queue cb3)) .| (b << 10))
    with (i_low cb3 * 2 ^ (8 - i_queue cb3) + r * 2 ^ 10).
  2: { rewrite Z.shiftl_mul_pow2, sw_small by lia. rewrite Elow.
       assert ((y * 2 ^ t) * 2 ^ 10 .| (b << 10) = (y * 2 ^ t + r) * 2 ^ 10) as ->; [|lia].
       rewrite <- (Z.shiftl_mul_pow2 (y * 2 ^ t)), <- Z.shiftl_lor, Er by lia.
       apply Z.shiftl_mul_pow2. lia. }
  destruct (rep_shift cb3 (M * 2 ^ 9) (eN e + 9) (8 - i_queue cb3) (r * 2 ^ 10) (i_range cb3) H3)
    as [H4 L4]; [lia|lia|lia| |].
  { replace (i_queue cb3 + (8 - i_queue cb3) + 1) with 9 by lia. lia. }
  replace (i_queue cb3 + (8 - i_queue cb3)) with 8 in H4, L4 by lia.
  set (cb4 := set_engine _ _ _ 8) in *. assert (i_queue cb4 = 8) as Q4 by done.
  replace (M * 2 ^ 9 * 2 ^ (8 - i_queue cb3) + r * 2 ^ 10) with ((M * 2 ^ t + r) * 2 ^ 10) in H4 by lia.
  replace (eN e + 9 + (8 - i_queue cb3)) with (eN e + 10 + t) in H4 by (unfold t; lia).
  assert (t = 0 -> r = 0) as Hrt.
  { intros Ht. apply Hr0. rewrite Ht. change (2 ^ 0) with 1. by rewrite Z.mul_1_r. }
  assert (r < 2 ^ t) as Hrlt.
  { destruct (Z.eq_dec t 0) as [Ht|]; [rewrite Hrt by done; lia|].
    assert (2 ^ 1 <= 2 ^ t) by (apply Z.pow_le_mono_r; unfold t in *; lia). lia. }
  assert ((M * 2 ^ t + r) * 2 ^ 10 < 2 ^ (eN e + 10 + t + 9)) as HM4.
  { replace (eN e + 10 + t + 9) with (eN e + 9 + t + 10) by lia. rewrite !Z.pow_add_r by (unfold t; lia).
    apply Z.mul_lt_mono_pos_r; [lia|]. assert (M + 1 <= 2 ^ eN e * 2 ^ 9); [|nia].
    rewrite <- Z.pow_add_r by lia. unfold M, a. lia. }
  destruct (putbyte_spec cb4 _ _ H4) as (H5 & _ & _ & _ & L5 & X5);
    [split; [lia|split; [lia|rewrite L4, Q4; lia]]|exact HM4|].
  set (cb5 := x264_cabac_putbyte cb4) in *. rewrite Q4 in X5. cbn [Z.ltb Z.compare Pos.compare Pos.compare_cont] in X5.
  destruct X5 as [Q5 W5]. change (8 - 8) with 0 in Q5. rewrite Q5 in W5.
  pose proof (flush_outstanding cb5 _ _ H5 Q5 ltac:(split; [done|exact W5])) as G.
  specialize (G ltac:(apply Z.mod_mul; lia)).
  destruct (for_ _ 0 _ (cb_p cb5, cb_mem cb5)) as [p m]. cbv zeta in G. destruct G as (G1 & G2 & G3).
  exists t, d. split; [unfold t; lia|]. split; [done|]. split; [lia|]. split; [|done].
  rewrite G2, Z.div_mul by lia. rewrite Z.add_comm, Z.div_add by lia.
  rewrite Z.div_small by lia. unfold M, a. lia.
Qed.

(** Whatever bins are coded, the standard's engine reads them back from the bytes. *)
Lemma bins_decoded cb0 p_data p_end i_frame l :
  (forall i, 0 <= i < 460 -> state_ok (state cb0 i)) -> Forall bin_ok l ->
  exists cb, encode_bins (x264_cabac_encode_init cb0 p_data p_end) l = Some cb /\
    let cb' := x264_cabac_encode_flush i_frame cb in
    Forall (fun b => 0 <= b < 256) (cb_bytes cb') /\
    exists d d', dec_init (state cb0) (bytes_bits (cb_bytes cb')) = Some d /\
      dec_bins l d = Some (map bin_val l, d') /\ dec_terminal d' = Some (1, d').
Proof.
  intros Hs Hl. pose proof (encode_init_refines cb0 p_data p_end Hs) as Hf0.
  destruct (bins_step l _ _ Hf0 Hl) as (cb & e & E & Hf & Hw & Hd).
  exists cb. split; [done|]. cbv zeta.
  destruct (flush_spec cb e i_frame Hf) as (t & dd & Ht & Hdd & Hlen & Hval & Hbytes).
  set (cb' := x264_cabac_encode_flush i_frame cb) in *. split; [done|].
  pose proof (rf_ok _ _ Hf) as (HR & HL & HN & _).
  set (B := bytes_bits (cb_bytes cb')) in *.
  assert (Z.of_nat (length B) = eN e + 9 + t) as HB by (unfold B; rewrite length_bytes_bits; lia).
  assert (prefix_val B (eN e + 9) = eL e + eR e - 2 + dd) as HV.
  { rewrite <- Hval. destruct (prefix_val_add B (eN e + 9) t) as [P R]; [lia|lia|lia|].
    unfold bytes_val. fold B. replace (bits_val B) with (prefix_val B (eN e + 9 + t)).
    - apply (Z.div_unique_pos _ _ _ _ R). rewrite P. lia.
    - unfold prefix_val. rewrite take_ge by lia. done. }
  assert (hits B e) as Hh by (split; lia).
  set (d0 := Decoder 510 (bits_val (take 9 B)) (state cb0) (drop 9 B)).
  assert (tracks B (Exact 0 510 0 (state cb0)) d0) as Ht0.
  { split; try done. unfold d0. cbn [codIOffset eL eN]. unfold prefix_val. change (Z.to_nat (0 + 9)) with 9%nat. lia. }
  destruct (Hd B d0 e Ht0 (within_refl e) Hh) as (d1 & E1 & Ht1).
  exists d0, d1. split; [|split; [exact E1|]].
  - unfold dec_init. destruct (Nat.ltb_spec (length B) 9); [lia|done].
  - unfold dec_terminal. destruct Ht1 as [T1 T2 _ _]. rewrite T1, T2, HV.
    replace (_ >=? _) with true by lia. done.
Qed.

(** C25: whatever context states the coder starts from, for any sequence of
    decisions, bypass bits, escape values and end of slice flags the encoder ends,
    and the decoding engine of the standard, run on the bytes found in memory after
    the flush, returns exactly the values encoded and then the end of the slice;
    delayed carries never reach a byte that could not take them. *)
Theorem cabac_roundtrip cb0 p_data p_end i_frame l :
  (forall i, 0 <= i < 460 -> state_ok (state cb0 i)) -> Forall bin_ok l ->
  exists cb, encode_bins (x264_cabac_encode_init cb0 p_data p_end) l = Some cb /\
    let cb' := x264_cabac_encode_flush i_frame cb in
    Forall (fun b => 0 <= b < 256) (cb_bytes cb') /\
    exists d d', dec_init (state cb0) (bytes_bits (cb_bytes cb')) = Some d /\
      dec_bins l d = Some (map bin_val l, d') /\ dec_terminal d' = Some (1, d').
Proof. apply bins_decoded. Qed.

Definition sample_cabac : x264_cabac_t :=
  x264_cabac_context_init (Cabac_t 0 0 0 0 0 0 0 0 (fun _ => 0) (fun _ => 0)) SLICE_TYPE_P 26 1.

(** ** Context states *)
Lemma context_init_state cb t qp model i : 0 <= i < 460 ->
  state (x264_cabac_context_init cb t qp model) i =
  let '(m, n) := nth (Z.to_nat i) (if t =? SLICE_TYPE_I then x264_cabac_context_init_I
                                   else nth (Z.to_nat model) x264_cabac_context_init_PB []) (0, 0) in
  Z.max 1 (Z.min (((m * qp) >> 4) + n) 126).
Proof.
  unfold x264_cabac_context_init. set (tab := if t =? SLICE_TYPE_I then _ else _).
  set (val := fun i => let '(m, n) := nth (Z.to_nat i) tab (0, 0) in Z.max 1 (Z.min (((m * qp) >> 4) + n) 126)).
  intros Hi0. match goal with |- ?L = _ => change (L = val i) end.
  revert i Hi0. enough (forall n, Z.of_nat n <= 460 -> forall i, 0 <= i < Z.of_nat n ->
    state (for_ n 0 (fun i cb => let '(m, n) := nth (Z.to_nat i) tab (0, 0) in
      set_state cb (upd (state cb) i (u8 (x264_clip3 (((m * qp) >> 4) + n) 1 126)))
        (f8_bits_encoded cb)) cb) i = val i) as H by (intros; by apply (H 460%nat)).
  induction n as [|n IH]; intros Hn i Hi; [lia|].
  rewrite for_snoc, Z.add_0_l. unfold val. 
  destruct (Z.eq_dec i (Z.of_nat n)) as [->|Hne].
  - destruct (nth (Z.to_nat (Z.of_nat n)) tab (0, 0)) as [m k]. cbn [set_state state]. rewrite upd_eq.
    unfold x264_clip3. set (v := ((m * qp) >> 4) + k).
    destruct (Z.ltb_spec v 1); [rewrite uw_small; lia|].
    destruct (Z.gtb_spec v 126); rewrite uw_small; lia.
  - destruct (nth (Z.to_nat (Z.of_nat n)) tab (0, 0)) as [m k]. cbn [set_state state].
    rewrite upd_ne by lia. apply IH; lia.
Qed.

Lemma context_init_ok cb t qp model i : 0 <= i < 460 ->
  state_ok (state (x264_cabac_context_init cb t qp model) i).
Proof.
  intros Hi. rewrite context_init_state by done. destruct (nth _ _ _) as [m n]. unfold state_ok. lia.
Qed.

(** The probability index and the most probable symbol of the standard. *)
Definition pStateIdx (s : Z) : Z := if s <? 64 then 63 - s else s - 64.
Definition valMPS (s : Z) : Z := if s <? 64 then 0 else 1.

Definition transIdxLPS : list Z :=
  [  0;  0;  1;  2;  2;  4;  4;  5;  6;  7;  8;  9;  9; 11; 11; 12;
    13; 13; 15; 15; 16; 16; 18; 18; 19; 19; 21; 21; 22; 22; 23; 24;
    24; 25; 26; 26; 27; 27; 28; 29; 29; 30; 30; 30; 31; 32; 32; 33;
    33; 33; 34; 34; 35; 35; 35; 36; 36; 36; 37; 37; 37; 38; 38; 63 ].

(** The transition of 9.3.3.2.1.1. *)
Definition std_transition (p mps b : Z) : Z * Z :=
  if b =? mps then (Z.min (p + 1) 62, mps)
  else (tbl transIdxLPS p, if p =? 0 then 1 - mps else mps).

(** the coder's one-byte states are those of the standard: they start at its
    clipped initial state for every slice type, model and QP, and every bin moves
    them, and picks the range of the less probable symbol, as its probability
    index and most probable symbol would. *)
Lemma context_states_standard cb t qp model i s b q :
  0 <= i < 460 -> 1 <= s <= 126 -> b = 0 \/ b = 1 -> 0 <= q <= 3 ->
  (let pre := state (x264_cabac_context_init cb t qp model) i in
   let '(m, n) := nth (Z.to_nat i) (if t =? SLICE_TYPE_I then x264_cabac_context_init_I
                                    else nth (Z.to_nat model) x264_cabac_context_init_PB []) (0, 0) in
   pre = Z.max 1 (Z.min 126 (((m * qp) >> 4) + n)) /\
   0 <= pStateIdx pre <= 62) /\
  (let s' := tbl2 x264_cabac_transition s b in
   1 <= s' <= 126 /\ (pStateIdx s', valMPS s') = std_transition (pStateIdx s) (valMPS s) b) /\
  s >> 6 = valMPS s /\ tbl2 x264_cabac_range_lps s q = tbl2 x264_cabac_range_lps (64 + pStateIdx s) q.
Proof.
  intros Hi Hs Hb Hq. split; [|split; [|split]].
  - cbv zeta. pose proof (context_init_ok cb t qp model i Hi) as Ho. unfold state_ok in Ho.
    rewrite context_init_state in * by done. destruct (nth _ _ _) as [m n].
    split; [lia|]. unfold pStateIdx. destruct (Z.ltb_spec (1 `max` (((m * qp >> 4) + n) `min` 126)) 64); lia.
  - assert (all_range 1 126 (fun s => all_range 0 2 (fun b =>
      (1 <=? tbl2 x264_cabac_transition s b) && (tbl2 x264_cabac_transition s b <=? 126) &&
      bool_decide ((pStateIdx (tbl2 x264_cabac_transition s b), valMPS (tbl2 x264_cabac_transition s b)) =
                   std_transition (pStateIdx s) (valMPS s) b))) = true) as H by (vm_compute; reflexivity).
    eapply all_range_spec with (i := s) in H; [|lia].
    eapply all_range_spec with (i := b) in H; [|lia]. cbv beta in H.
    apply andb_prop in H as [H He]. apply bool_decide_eq_true in He. cbv zeta. split; [lia|done].
  - rewrite Z.shiftr_div_pow2 by lia. change (2 ^ 6) with 64. unfold valMPS.
    pose proof (Z.div_mod s 64). pose proof (Z.mod_pos_bound s 64). destruct (Z.ltb_spec s 64); lia.
  - assert (all_range 1 126 (fun s => all_range 0 4 (fun q =>
      tbl2 x264_cabac_range_lps s q =? tbl2 x264_cabac_range_lps (64 + pStateIdx s) q)) = true)
      as H by (vm_compute; reflexivity).
    eapply all_range_spec with (i := s) in H; [|lia].
    eapply all_range_spec with (i := q) in H; [|lia]. cbv beta in H. by apply Z.eqb_eq.
Qed.

Lemma context_states_standard_witness :
  tbl2 x264_cabac_transition 63 1 = 64 /\ std_transition 0 0 1 = (0, 1).
Proof.
  destruct (context_states_standard sample_cabac SLICE_TYPE_P 26 1 5 63 1 2) as (_ & [_ H] & _);
    [lia|lia|by right|lia|]. split; [reflexivity|exact (eq_sym H)].
Defined.

Lemma cabac_roundtrip_witness :
  exists cb d d', encode_bins (x264_cabac_encode_init sample_cabac 1000 2000)
      [Decision 60 1; UeBypass 3 70; Bypass 1; Decision 60 0; Terminal] = Some cb /\
    dec_init (state sample_cabac) (bytes_bits (cb_bytes (x264_cabac_encode_flush 0 cb))) = Some d /\
    dec_bins [Decision 60 0; UeBypass 3 0; Bypass 0; Decision 60 0; Terminal] d = Some ([1; 70; 1; 0; 0], d').
Proof.
  destruct (cabac_roundtrip sample_cabac 1000 2000 0 [Decision 60 1; UeBypass 3 70; Bypass 1; Decision 60 0; Terminal])
    as (cb & E & _ & d & d' & H1 & H2 & _).
  - intros i Hi. apply context_init_ok. lia.
  - repeat (constructor; [cbn; lia|]). constructor.
  - exists cb, d, d'. split; [exact E|]. split; [exact H1|exact H2].
Defined.
