(* ===== verification/CabacMb.v ===== *)
(** * Macroblocks in CABAC (encoder/cabac.c)

    The macroblock writer over the functions of the arithmetic coder that encoder/rdo.c
    redefines when it compiles the file a second time to estimate rates. *)
From S2P Require Import Prelude Bs Sink Syntax Vlc Quant Mb Cavlc CavlcMb Encode Predict CabacTables Cabac.

(** ** What the file is compiled over *)
Class CabacSink (S : Type) := {
  ck_decision : S -> Z -> Z -> S;
  ck_decision_noup : S -> Z -> Z -> S;
  ck_bypass : S -> Z -> S;
  ck_ue_bypass : S -> Z -> Z -> S;
  ck_terminal : S -> S;
  ck_flush : S -> S;
  (* [RDO_SKIP_BS], and what it enables: the tables of unary codes *)
  ck_skip : bool;
  ck_unary : S -> Z -> Z -> S;
  ck_5ones : S -> Z -> S
}.

(** For the bitstream; [None] when an escape code does not end. *)
Definition cabac_sink (i_frame : Z) : CabacSink (option x264_cabac_t) := {|
  ck_decision := fun cb i_ctx b => (fun cb => x264_cabac_encode_decision_c cb i_ctx b) <$> cb;
  ck_decision_noup := fun cb i_ctx b => (fun cb => x264_cabac_encode_decision_c cb i_ctx b) <$> cb;
  ck_bypass := fun cb b => (fun cb => x264_cabac_encode_bypass cb b) <$> cb;
  ck_ue_bypass := fun cb exp_bits val => cb ≫= fun cb => x264_cabac_encode_ue_bypass cb exp_bits val;
  ck_terminal := fun cb => x264_cabac_encode_terminal <$> cb;
  ck_flush := fun cb => x264_cabac_encode_flush i_frame <$> cb;
  ck_skip := false;
  ck_unary := fun cb _ _ => cb;
  ck_5ones := fun cb _ => cb
|}.

(** *** For encoder/rdo.c *)
Definition CABAC_SIZE_BITS := 8.

(** A row of [x264_rdo_init]: transition and size. *)
Definition unary_row (i_prefix i_ctx : Z) : Z * Z :=
  let step b '(ctx, f8_bits) := ((x264_cabac_size_decision2 ctx b).1, f8_bits + (x264_cabac_size_decision2 ctx b).2) in
  let st := for_ (Z.to_nat (i_prefix - 1)) 1 (fun _ => step 1) (i_ctx, 0) in
  let st := if (i_prefix >? 0) && (i_prefix <? 14) then step 0 st else st in
  (st.1, st.2 + (1 << CABAC_SIZE_BITS)).
Definition ones_row (i_ctx : Z) : Z * Z :=
  let st := for_ 5 0 (fun _ '(ctx, f8_bits) =>
    ((x264_cabac_size_decision2 ctx 1).1, f8_bits + (x264_cabac_size_decision2 ctx 1).2)) (i_ctx, 0) in
  (st.1, st.2 + (1 << CABAC_SIZE_BITS)).
(** [x264_rdo_init]. *)
Definition unary_tables : list (list (Z * Z)) := (fun p => unary_row p <$> seqZ 0 128) <$> seqZ 0 15.
Definition ones_table : list (Z * Z) := ones_row <$> seqZ 0 128.
Definition cabac_transition_unary (i_prefix i_ctx : Z) : Z := u8 (nth (Z.to_nat i_ctx) (nth (Z.to_nat i_prefix) unary_tables []) (0, 0)).1.
Definition cabac_size_unary (i_prefix i_ctx : Z) : Z := u16 (nth (Z.to_nat i_ctx) (nth (Z.to_nat i_prefix) unary_tables []) (0, 0)).2.
Definition cabac_transition_5ones (i_ctx : Z) : Z := u8 (nth (Z.to_nat i_ctx) ones_table (0, 0)).1.
Definition cabac_size_5ones (i_ctx : Z) : Z := u16 (nth (Z.to_nat i_ctx) ones_table (0, 0)).2.

Definition add_size (cb : x264_cabac_t) (f8 : Z) : x264_cabac_t := set_state cb (state cb) (f8_bits_encoded cb + f8).
Definition size_cabac_sink : CabacSink x264_cabac_t := {|
  ck_decision := x264_cabac_size_decision;
  ck_decision_noup := x264_cabac_size_decision_noup;
  ck_bypass := fun cb _ => add_size cb 256;
  ck_ue_bypass := fun cb e v => add_size cb ((bs_size_ue_big (v + (1 << e) - 1) - e) << 8);
  ck_terminal := fun cb => x264_cabac_size_decision_noup cb 276 0;
  ck_flush := fun cb => cb;
  ck_skip := true;
  ck_unary := fun cb i_prefix ctx =>
    set_state cb (upd (state cb) ctx (cabac_transition_unary i_prefix (state cb ctx)))
      (f8_bits_encoded cb + cabac_size_unary i_prefix (state cb ctx));
  ck_5ones := fun cb ctx =>
    set_state cb (upd (state cb) ctx (cabac_transition_5ones (state cb ctx))) (f8_bits_encoded cb + cabac_size_5ones (state cb ctx))
|}.

(** ** The fields of [h] that only this writer uses *)
Record cabac_mb := CabacMb {
  i_mb_type_left : Z;
  i_mb_type_top : Z;
  i_neighbour : Z;
  i_mb_top_xy : Z;
  i_mb_prev_xy : Z;
  i_last_dqp : Z;
  mb_cbp : Z -> Z;                     (* mb.cbp, by macroblock *)
  mb_chroma_pred_mode : Z -> Z;
  mb_transform_size : Z -> Z;
  cache_skip : Z -> Z;
  cache_mvd : Z -> Z -> Z * Z;
  i_neighbour_transform_size : Z;
  i_neighbour_interlaced : Z
}.
Definition set_cache_mvd (k : cabac_mb) (mvd : Z -> Z -> Z * Z) : cabac_mb :=
  CabacMb (i_mb_type_left k) (i_mb_type_top k) (i_neighbour k) (i_mb_top_xy k) (i_mb_prev_xy k) (i_last_dqp k) (mb_cbp k)
    (mb_chroma_pred_mode k) (mb_transform_size k) (cache_skip k) mvd (i_neighbour_transform_size k) (i_neighbour_interlaced k).


(** [x264_macroblock_cache_rect4] of one list of the cache of vector differences. *)
Definition x264_macroblock_cache_rect4 (dst : Z -> Z * Z) (pos width height : Z) (val : Z * Z) : Z -> Z * Z :=
  for_ (Z.to_nat height) 0 (fun dy => for_ (Z.to_nat width) 0 (fun dx dst q => if q =? pos + dx + 8 * dy then val else dst q)) dst.
Definition x264_macroblock_cache_mvd (k : cabac_mb) (x y width height i_list : Z) (mv : Z * Z) : cabac_mb :=
  set_cache_mvd k (fun l => if l =? i_list
    then x264_macroblock_cache_rect4 (cache_mvd k i_list) (X264_SCAN8_0 + x + 8 * y) width height mv else cache_mvd k l).

(** *** Tables *)
Definition i_mb_len : list Z :=
  [ 6; 6; 3;
    6; 6; 0;
    7; 7; 0;
    6; 6; 0;
    6; 6; 3;
    7; 7; 0;
    7; 7; 0;
    7; 7; 0;
    7; 7; 6 ].
Definition i_mb_bits : list (list Z) :=
  [ [ 1;1;0;0;0;1 ]; [ 1;1;0;0;1;0 ]; [ 1;0;0 ];
    [ 1;1;0;1;0;1 ]; [ 1;1;0;1;1;0 ]; [0];
    [ 1;1;1;0;0;0;0 ]; [ 1;1;1;0;0;0;1 ]; [0];
    [ 1;1;0;1;1;1 ]; [ 1;1;1;1;1;0 ]; [0];
    [ 1;1;0;0;1;1 ]; [ 1;1;0;1;0;0 ]; [ 1;0;1 ];
    [ 1;1;1;0;0;1;0 ]; [ 1;1;1;0;0;1;1 ]; [0];
    [ 1;1;1;0;1;0;0 ]; [ 1;1;1;0;1;0;1 ]; [0];
    [ 1;1;1;0;1;1;0 ]; [ 1;1;1;0;1;1;1 ]; [0];
    [ 1;1;1;1;0;0;0 ]; [ 1;1;1;1;0;0;1 ]; [ 1;1;0;0;0;0 ] ].
Definition part_bits : list (list Z) :=
  [ [6;1;1;1;0;1;1];
    [5;1;1;0;0;1];
    [5;1;1;0;1;0];
    [3;1;0;0];
    [5;1;1;1;1;0];
    [5;1;1;0;1;1];
    [6;1;1;1;0;0;0];
    [3;1;0;1];
    [5;1;1;1;1;1];
    [6;1;1;1;0;0;1];
    [6;1;1;1;0;1;0];
    [5;1;1;0;0;0] ].
Definition mvd_ctxes : list Z := [ 0;3;4;5;6;6;6;6;6 ].

Definition significant_coeff_flag_offset : list (list Z) := [ [ 105; 120; 134; 149; 152; 402 ]; [ 277; 292; 306; 321; 324; 436 ] ].
Definition last_coeff_flag_offset : list (list Z) := [ [ 166; 181; 195; 210; 213; 417 ]; [ 338; 353; 367; 382; 385; 451 ] ].
Definition coeff_abs_level_m1_offset : list Z := [ 227; 237; 247; 257; 266; 426 ].
Definition significant_coeff_flag_offset_8x8 : list (list Z) :=
  [ [ 0; 1; 2; 3; 4; 5; 5; 4; 4; 3; 3; 4; 4; 4; 5; 5;
      4; 4; 4; 4; 3; 3; 6; 7; 7; 7; 8; 9;10; 9; 8; 7;
      7; 6;11;12;13;11; 6; 7; 8; 9;14;10; 9; 8; 6;11;
     12;13;11; 6; 9;14;10; 9;11;12;13;11;14;10;12 ];
    [ 0; 1; 1; 2; 2; 3; 3; 4; 5; 6; 7; 7; 7; 8; 4; 5;
      6; 9;10;10; 8;11;12;11; 9; 9;10;10; 8;11;12;11;
      9; 9;10;10; 8;11;12;11; 9; 9;10;10; 8;13;13; 9;
      9;10;10; 8;13;13; 9; 9;10;10;14;14;14;14;14 ] ].
Definition last_coeff_flag_offset_8x8 : list Z :=
  [ 0; 1; 1; 1; 1; 1; 1; 1; 1; 1; 1; 1; 1; 1; 1; 1;
    2; 2; 2; 2; 2; 2; 2; 2; 2; 2; 2; 2; 2; 2; 2; 2;
    3; 3; 3; 3; 3; 3; 3; 3; 4; 4; 4; 4; 4; 4; 4; 4;
    5; 5; 5; 5; 6; 6; 6; 6; 7; 7; 7; 7; 8; 8; 8 ].
Definition coeff_abs_level1_ctx : list Z := [ 1; 2; 3; 4; 0; 0; 0; 0 ].
Definition coeff_abs_levelgt1_ctx : list Z := [ 5; 5; 5; 5; 6; 7; 8; 9 ].
Definition coeff_abs_level_transition : list (list Z) := [ [ 1; 2; 3; 3; 4; 5; 6; 7 ]; [ 4; 4; 4; 4; 5; 6; 7; 7 ] ].

Section Encoder.
Context {S : Type} {sink : CabacSink S}.
Local Abbreviation dec ctx b := (fun s : S => ck_decision s ctx b).
Local Abbreviation noup ctx b := (fun s : S => ck_decision_noup s ctx b).
Local Abbreviation byp b := (fun s : S => ck_bypass s b).

(** ** Macroblock type *)
Definition x264_cabac_mb_type_intra (h : x264_t) (i_mb_type ctx0 ctx1 ctx2 ctx3 ctx4 ctx5 : Z) : S -> S :=
  if (i_mb_type =? I_4x4) || (i_mb_type =? I_8x8) then noup ctx0 0
  else if i_mb_type =? I_PCM then noup ctx0 1 ;> ck_flush
  else
    let i_pred := tbl x264_mb_pred_mode16x16_fix (i_intra16x16_pred_mode h) in
    noup ctx0 1 ;>
    ck_terminal ;>
    noup ctx1 (b2i (i2b (i_cbp_luma h))) ;>
    (if i_cbp_chroma h =? 0 then noup ctx2 0
     else dec ctx2 1 ;> noup ctx3 (b2i (negb (i_cbp_chroma h =? 1)))) ;>
    dec ctx4 (i_pred >> 1) ;>
    noup ctx5 (i_pred .& 1).

(** The prefixes of a P macroblock that is not intra. *)
Definition mb_type_p (h : x264_t) : S -> S :=
  if i_type h =? P_L0 then
    if i_partition h =? D_16x16 then noup 14 0 ;> noup 15 0 ;> noup 16 0
    else if i_partition h =? D_16x8 then noup 14 0 ;> noup 15 1 ;> noup 17 1
    else if i_partition h =? D_8x16 then noup 14 0 ;> noup 15 1 ;> noup 17 0
    else fun s => s
  else if i_type h =? P_8x8 then noup 14 0 ;> noup 15 0 ;> noup 16 1
  else noup 14 1 ;> x264_cabac_mb_type_intra h (i_type h) (17+0) (17+1) (17+2) (17+2) (17+3) (17+3).

Definition mb_type_b (h : x264_t) (ctx : Z) : S -> S :=
  if i_type h =? B_DIRECT then noup (27+ctx) 0
  else if i_type h =? B_8x8 then
    noup (27+ctx) 1 ;> noup (27+3) 1 ;> noup (27+4) 1 ;>
    dec (27+5) 1 ;> dec (27+5) 1 ;> noup (27+5) 1
  else if IS_INTRA (i_type h) then
    noup (27+ctx) 1 ;> noup (27+3) 1 ;> noup (27+4) 1 ;>
    dec (27+5) 1 ;> dec (27+5) 0 ;> dec (27+5) 1 ;>
    x264_cabac_mb_type_intra h (i_type h) (32+0) (32+1) (32+2) (32+2) (32+3) (32+3)
  else
    let idx := (i_type h - B_L0_L0) * 3 + (i_partition h - D_16x8) in
    noup (27+ctx) (tbl2 i_mb_bits idx 0) ;>
    noup (27+3) (tbl2 i_mb_bits idx 1) ;>
    dec (27+5-tbl2 i_mb_bits idx 1) (tbl2 i_mb_bits idx 2) ;>
    for_ (Z.to_nat (tbl i_mb_len idx - 3)) 3 (fun i s => ck_decision s (27+5) (tbl2 i_mb_bits idx i)).

Definition x264_cabac_mb_type (h : x264_t) (k : cabac_mb) : S -> S :=
  when (b_mbaff h && (negb (i2b (i_mb_y h .& 1)) || IS_SKIP (mb_type h (i_mb_xy h - i_mb_stride h))))
    (noup (70 + i_neighbour_interlaced k) (b_interlaced h)) ;>
  (if sh_i_type h =? SLICE_TYPE_I then
     let ctx := b2i ((i_mb_type_left k >=? 0) && negb (i_mb_type_left k =? I_4x4)) +
                b2i ((i_mb_type_top k >=? 0) && negb (i_mb_type_top k =? I_4x4)) in
     x264_cabac_mb_type_intra h (i_type h) (3+ctx) (3+3) (3+4) (3+5) (3+6) (3+7)
   else if sh_i_type h =? SLICE_TYPE_P then mb_type_p h
   else if sh_i_type h =? SLICE_TYPE_B then
     let other t := (t >=? 0) && negb (t =? B_SKIP) && negb (t =? B_DIRECT) in
     mb_type_b h (b2i (other (i_mb_type_left k)) + b2i (other (i_mb_type_top k)))
   else fun s => s).

(** ** Intra modes, pattern and quantiser *)
Definition x264_cabac_mb_intra4x4_pred_mode (i_pred i_mode : Z) : S -> S :=
  if i_pred =? i_mode then dec 68 1
  else
    let i_mode' := if i_mode >? i_pred then i_mode - 1 else i_mode in
    dec 68 0 ;>
    dec 69 (i_mode' .& 0x01) ;> dec 69 ((i_mode' >> 1) .& 0x01) ;> dec 69 ((i_mode' >> 2) .& 0x01).

Definition x264_cabac_mb_intra_chroma_pred_mode (h : x264_t) (k : cabac_mb) : S -> S :=
  let i_mode := tbl x264_mb_pred_mode8x8c_fix (i_chroma_pred_mode h) in
  let ctx := b2i (i2b (i_neighbour k .& MB_LEFT) && negb (mb_chroma_pred_mode k (i_mb_xy h - 1) =? 0)) +
             b2i (i2b (i_neighbour k .& MB_TOP) && negb (mb_chroma_pred_mode k (i_mb_top_xy k) =? 0)) in
  noup (64 + ctx) (b2i (i_mode >? 0)) ;>
  when (i_mode >? 0) (dec (64 + 3) (b2i (i_mode >? 1)) ;> when (i_mode >? 1) (noup (64 + 3) (b2i (i_mode >? 2)))).

Definition x264_cabac_mb_cbp_luma (h : x264_t) (k : cabac_mb) : S -> S :=
  let cbp := i_cbp_luma h in
  let cbp_l := if i2b (i_neighbour k .& MB_LEFT) then mb_cbp k (i_mb_xy h - 1) else -1 in
  let cbp_t := if i2b (i_neighbour k .& MB_TOP) then mb_cbp k (i_mb_top_xy k) else -1 in
  dec (76 - ((cbp_l >> 1) .& 1) - ((cbp_t >> 1) .& 2)) ((i_cbp_luma h >> 0) .& 1) ;>
  dec (76 - ((cbp >> 0) .& 1) - ((cbp_t >> 2) .& 2)) ((i_cbp_luma h >> 1) .& 1) ;>
  dec (76 - ((cbp_l >> 3) .& 1) - ((cbp << 1) .& 2)) ((i_cbp_luma h >> 2) .& 1) ;>
  noup (76 - ((cbp >> 2) .& 1) - ((cbp >> 0) .& 2)) ((i_cbp_luma h >> 3) .& 1).

Definition x264_cabac_mb_cbp_chroma (h : x264_t) (k : cabac_mb) : S -> S :=
  let cbp_a := if i2b (i_neighbour k .& MB_LEFT) then (mb_cbp k (i_mb_xy h - 1) >> 4) .& 0x3 else -1 in
  let cbp_b := if i2b (i_neighbour k .& MB_TOP) then (mb_cbp k (i_mb_top_xy k) >> 4) .& 0x3 else -1 in
  let ctx := b2i (cbp_a >? 0) + 2 * b2i (cbp_b >? 0) in
  if i_cbp_chroma h =? 0 then noup (77 + ctx) 0
  else
    noup (77 + ctx) 1 ;>
    noup (77 + (4 + b2i (cbp_a =? 2) + 2 * b2i (cbp_b =? 2))) (b2i (i_cbp_chroma h >? 1)).

Definition x264_cabac_mb_qp_delta (h : x264_t) (k : cabac_mb) (s : S) : x264_t * S :=
  let i_dqp := i_qp h - i_last_qp h in
  let '(h, i_dqp) :=
    if (i_type h =? I_16x16) && negb (i2b (mb_cbp k (i_mb_xy h)))
    then (if ck_skip then h else set_i_qp h (i_last_qp h), 0) else (h, i_dqp) in
  let ctx := b2i (i2b (i_last_dqp k) && ((mb_type h (i_mb_prev_xy k) =? I_16x16) || i2b (mb_cbp k (i_mb_prev_xy k) .& 0x3f))) in
  let '(ctx, s) :=
    if negb (i_dqp =? 0) then
      let val := if i_dqp <=? 0 then -2 * i_dqp else 2 * i_dqp - 1 in
      let val := if (val >=? 51) && negb (val =? 52) then 103 - val else val in
      for_ (Z.to_nat val) 0 (fun _ '(ctx, s) => (if ctx <? 2 then 2 else 3, ck_decision s (60 + ctx) 1)) (ctx, s)
    else (ctx, s) in
  (h, ck_decision_noup s (60 + ctx) 0).

(** Not compiled for encoder/rdo.c. *)
Definition x264_cabac_mb_skip (h : x264_t) (k : cabac_mb) (b_skip : Z) : S -> S :=
  let ctx := b2i ((i_mb_type_left k >=? 0) && negb (IS_SKIP (i_mb_type_left k))) +
             b2i ((i_mb_type_top k >=? 0) && negb (IS_SKIP (i_mb_type_top k))) +
             (if sh_i_type h =? SLICE_TYPE_P then 11 else 24) in
  dec ctx b_skip.

Definition x264_cabac_mb_transform_size (h : x264_t) (k : cabac_mb) : S -> S :=
  noup (399 + i_neighbour_transform_size k) (b_transform_8x8 h).

(** ** Partitions, references and motion vectors *)
Definition x264_cabac_mb_sub_p_partition (i_sub : Z) : S -> S :=
  if i_sub =? D_L0_8x8 then dec 21 1
  else if i_sub =? D_L0_8x4 then dec 21 0 ;> dec 22 0
  else if i_sub =? D_L0_4x8 then dec 21 0 ;> dec 22 1 ;> dec 23 1
  else if i_sub =? D_L0_4x4 then dec 21 0 ;> dec 22 1 ;> dec 23 0
  else fun s => s.

Definition x264_cabac_mb_sub_b_partition (i_sub : Z) : S -> S :=
  if i_sub =? D_DIRECT_8x8 then dec 36 0
  else
    let len := tbl2 part_bits i_sub 0 in
    dec 36 (tbl2 part_bits i_sub 1) ;>
    dec 37 (tbl2 part_bits i_sub 2) ;>
    (if len =? 3 then dec 39 (tbl2 part_bits i_sub 3)
     else
       dec 38 (tbl2 part_bits i_sub 3) ;>
       dec 39 (tbl2 part_bits i_sub 4) ;>
       dec 39 (tbl2 part_bits i_sub 5) ;>
       when (len =? 6) (dec 39 (tbl2 part_bits i_sub 6))).

Definition x264_cabac_mb_ref (h : x264_t) (k : cabac_mb) (i_list idx : Z) (s : S) : S :=
  let i8 := scan8 idx in
  let i_refa := cache_ref h i_list (i8 - 1) in
  let i_refb := cache_ref h i_list (i8 - 8) in
  let i_ref := cache_ref h i_list i8 in
  let ctx := b2i ((i_refa >? 0) && (cache_skip k (i8 - 1) =? 0)) + 2 * b2i ((i_refb >? 0) && (cache_skip k (i8 - 8) =? 0)) in
  let '(ctx, s) := for_ (Z.to_nat i_ref) 0 (fun _ '(ctx, s) => (if ctx <? 4 then 4 else 5, ck_decision s (54 + ctx) 1)) (ctx, s) in
  ck_decision s (54 + ctx) 0.

Definition x264_cabac_mb_mvd_cpn (k : cabac_mb) (i_list idx l mvd : Z) : S -> S :=
  let cpn (v : Z * Z) := if l =? 0 then v.1 else v.2 in
  let amvd := Z.abs (cpn (cache_mvd k i_list (scan8 idx - 1))) + Z.abs (cpn (cache_mvd k i_list (scan8 idx - 8))) in
  let i_abs := Z.abs mvd in
  let ctxbase := if i2b l then 47 else 40 in
  let ctx := b2i (amvd >? 2) + b2i (amvd >? 32) in
  let ones n := for_ n 1 (fun i s => ck_decision s (ctxbase + tbl mvd_ctxes i) 1) in
  if i_abs =? 0 then dec (ctxbase + ctx) 0
  else if i_abs <? 9 then
    dec (ctxbase + ctx) 1 ;>
    (if ck_skip && (i_abs >? 4) then ones 3%nat ;> (fun s => ck_unary s (i_abs - 3) (ctxbase + 6))
     else ones (Z.to_nat (i_abs - 1)) ;> dec (ctxbase + tbl mvd_ctxes i_abs) 0 ;> byp (b2i (mvd <? 0)))
  else
    dec (ctxbase + ctx) 1 ;>
    (if ck_skip then
       ones 3%nat ;> (fun s => ck_5ones s (ctxbase + 6)) ;> (fun s => ck_ue_bypass s 3 (i_abs - 9))
     else ones 8%nat ;> (fun s => ck_ue_bypass s 3 (i_abs - 9)) ;> byp (b2i (mvd <? 0))).

(** The writers of motion vectors also save the difference in the cache. *)
Definition x264_cabac_mb_mvd (h : x264_t) (i_list idx width height : Z) : cabac_mb * S -> cabac_mb * S := fun '(k, s) =>
  let mvp := x264_mb_predict_mv h i_list idx width in
  let mdx := (cache_mv h i_list (scan8 idx)).1 - mvp.1 in
  let mdy := (cache_mv h i_list (scan8 idx)).2 - mvp.2 in
  let s := x264_cabac_mb_mvd_cpn k i_list idx 0 mdx s in
  let s := x264_cabac_mb_mvd_cpn k i_list idx 1 mdy s in
  (x264_macroblock_cache_mvd k (tbl block_idx_x idx) (tbl block_idx_y idx) width height i_list (s16 mdx, s16 mdy), s).

Definition x264_cabac_mb8x8_mvd (h : x264_t) (i_list i : Z) : cabac_mb * S -> cabac_mb * S :=
  when (i2b (tbl2 x264_mb_partition_listX_table i_list (i_sub_partition h i)))
    (let sub := i_sub_partition h i in
     if (sub =? D_L0_8x8) || (sub =? D_L1_8x8) || (sub =? D_BI_8x8) then
       x264_cabac_mb_mvd h i_list (4*i) 2 2
     else if (sub =? D_L0_8x4) || (sub =? D_L1_8x4) || (sub =? D_BI_8x4) then
       x264_cabac_mb_mvd h i_list (4*i+0) 2 1 ;>
       x264_cabac_mb_mvd h i_list (4*i+2) 2 1
     else if (sub =? D_L0_4x8) || (sub =? D_L1_4x8) || (sub =? D_BI_4x8) then
       x264_cabac_mb_mvd h i_list (4*i+0) 1 2 ;>
       x264_cabac_mb_mvd h i_list (4*i+1) 1 2
     else if (sub =? D_L0_4x4) || (sub =? D_L1_4x4) || (sub =? D_BI_4x4) then
       x264_cabac_mb_mvd h i_list (4*i+0) 1 1 ;>
       x264_cabac_mb_mvd h i_list (4*i+1) 1 1 ;>
       x264_cabac_mb_mvd h i_list (4*i+2) 1 1 ;>
       x264_cabac_mb_mvd h i_list (4*i+3) 1 1
     else fun ks => ks).

(** ** Residual blocks *)
Definition x264_cabac_mb_cbf_ctxidxinc (h : x264_t) (k : cabac_mb) (i_cat i_idx : Z) : Z :=
  let left := i2b (i_neighbour k .& MB_LEFT) in
  let top := i2b (i_neighbour k .& MB_TOP) in
  let left_xy := if left then i_mb_xy h - 1 else -1 in
  let top_xy := if top then i_mb_top_xy k else -1 in
  let dc (mask : Z) := (left_xy, if left then mb_cbp k left_xy .& mask else 0, top_xy, if top then mb_cbp k top_xy .& mask else 0) in
  let ac (inner_x inner_y : bool) :=
    let i_mba_xy := if inner_x then i_mb_xy h else left_xy in
    let i_mbb_xy := if inner_y then i_mb_xy h else top_xy in
    (i_mba_xy, if i_mba_xy >=? 0 then non_zero_count h (scan8 i_idx - 1) else 0,
     i_mbb_xy, if i_mbb_xy >=? 0 then non_zero_count h (scan8 i_idx - 8) else 0) in
  let '(i_mba_xy, i_nza, i_mbb_xy, i_nzb) :=
    if i_cat =? DCT_LUMA_DC then dc 0x100
    else if (i_cat =? DCT_LUMA_AC) || (i_cat =? DCT_LUMA_4x4) then ac (i2b (i_idx .& Z.lnot 10)) (i2b (i_idx .& Z.lnot 5))
    else if i_cat =? DCT_CHROMA_DC then dc (0x200 << (i_idx - 25))
    else if i_cat =? DCT_CHROMA_AC then ac (i2b (i_idx .& 1)) (i2b (i_idx .& 2))
    else (-1, 0, -1, 0) in
  let '(i_nza, i_nzb) :=
    if IS_INTRA (i_type h) then (i_nza .| b2i (i_mba_xy <? 0), i_nzb .| b2i (i_mbb_xy <? 0)) else (i_nza, i_nzb) in
  4 * i_cat + 2 * b2i (i2b i_nzb) + b2i (i2b i_nza).

(** [h->quantf.coeff_last] of the 8x8 blocks too. *)
Definition coeff_last_cabac (i_ctxBlockCat : Z) (l : Z -> Z) : option Z :=
  if i_ctxBlockCat =? DCT_LUMA_8x8 then x264_coeff_last64 l else coeff_last i_ctxBlockCat l.

(** The significance map; the state is [i_coeff], the arrays [i_coeff_abs_m1] and
    [i_coeff_sign], and what is written. *)
Definition WRITE_SIGMAP (sig last : Z -> Z) (l : Z -> Z) (i_last i_sigmap_size : Z) (s : S) : Z * (Z -> Z) * (Z -> Z) * S :=
  for_ (Z.to_nat i_sigmap_size) 0 (fun i '(i_coeff, i_coeff_abs_m1, i_coeff_sign, s) =>
    if i2b (l i) then
      (i_coeff + 1, upd i_coeff_abs_m1 i_coeff (Z.abs (l i) - 1),
       if negb ck_skip then upd i_coeff_sign i_coeff (b2i (l i <? 0)) else i_coeff_sign,
       ck_decision (ck_decision s (sig i) 1) (last i) (b2i (i =? i_last)))
    else (i_coeff, i_coeff_abs_m1, i_coeff_sign, ck_decision s (sig i) 0))
  (0, (fun _ => 0), (fun _ => 0), s).

(** The loop over the coefficients from [i_coeff - 1] down to 0. *)
Fixpoint write_levels (i_coeff : nat) (i_ctx_level : Z) (i_coeff_abs_m1 i_coeff_sign : Z -> Z) (node_ctx : Z) (s : S) : S :=
  match i_coeff with
  | O => s
  | Datatypes.S i_coeff =>
      let abs_m1 := i_coeff_abs_m1 (Z.of_nat i_coeff) in
      let i_prefix := Z.min abs_m1 14 in
      let ctx := tbl coeff_abs_level1_ctx node_ctx + i_ctx_level in
      let '(s, node_ctx) :=
        if i2b i_prefix then
          let s := ck_decision s ctx 1 in
          let ctx := tbl coeff_abs_levelgt1_ctx node_ctx + i_ctx_level in
          let s :=
            if ck_skip then ck_unary s i_prefix ctx
            else
              let s := for_ (Z.to_nat (i_prefix - 1)) 0 (fun _ s => ck_decision s ctx 1) s in
              when (i_prefix <? 14) (dec ctx 0) s in
          let s := when (i_prefix >=? 14) (fun s : S => ck_ue_bypass s 0 (abs_m1 - 14)) s in
          (s, tbl2 coeff_abs_level_transition 1 node_ctx)
        else
          let s := ck_decision s ctx 0 in
          (when ck_skip (byp 0) s, tbl2 coeff_abs_level_transition 0 node_ctx) in
      let s := when (negb ck_skip) (byp (i_coeff_sign (Z.of_nat i_coeff))) s in
      write_levels i_coeff i_ctx_level i_coeff_abs_m1 i_coeff_sign node_ctx s
  end.

(** [None]: the block has no coefficient although it is marked as coded, and the last
    loop reads before its arrays. *)
Definition block_residual_write_cabac (h : x264_t) (k : cabac_mb) (i_ctxBlockCat i_idx : Z) (l : Z -> Z) (i_count : Z) (s : S) : option S :=
  let i_ctx_sig := tbl2 significant_coeff_flag_offset (b_interlaced h) i_ctxBlockCat in
  let i_ctx_last := tbl2 last_coeff_flag_offset (b_interlaced h) i_ctxBlockCat in
  let i_ctx_level := tbl coeff_abs_level_m1_offset i_ctxBlockCat in
  let ctx := 85 + x264_cabac_mb_cbf_ctxidxinc h k i_ctxBlockCat i_idx in
  let coded := i2b (non_zero_count h (scan8 i_idx)) in
  let s := when (negb (i_count =? 64)) (dec ctx (b2i coded)) s in
  if negb (i_count =? 64) && negb coded then Some s
  else
    match coeff_last_cabac i_ctxBlockCat l with
    | None => None
    | Some i_last =>
        let i_sigmap_size := Z.min (i_last + 1) (i_count - 1) in
        let l8x8 := i_ctxBlockCat =? DCT_LUMA_8x8 in
        let sig i := i_ctx_sig + (if l8x8 then tbl2 significant_coeff_flag_offset_8x8 (b_interlaced h) i else i) in
        let last i := i_ctx_last + (if l8x8 then tbl last_coeff_flag_offset_8x8 i else i) in
        let '(i_coeff, abs_m1, sign, s) := WRITE_SIGMAP sig last l i_last i_sigmap_size s in
        let '(i_coeff, abs_m1, sign) :=
          if Z.max 0 i_sigmap_size =? i_last
          then (i_coeff + 1, upd abs_m1 i_coeff (Z.abs (l i_last) - 1),
                if negb ck_skip then upd sign i_coeff (b2i (l i_last <? 0)) else sign)
          else (i_coeff, abs_m1, sign) in
        if i_coeff =? 0 then None else Some (write_levels (Z.to_nat i_coeff) i_ctx_level abs_m1 sign 0 s)
    end.

(** ** [x264_macroblock_write_cabac] in its stages *)
Definition with_mb (f : cabac_mb -> S -> S) : cabac_mb * S -> cabac_mb * S := fun '(k, s) => (k, f k s).
Local Abbreviation ref h i_list idx := (with_mb (fun k => x264_cabac_mb_ref h k i_list idx)).
Local Abbreviation mvd := x264_cabac_mb_mvd.

Definition write_intra_cabac (h : x264_t) (k : cabac_mb) : S -> S :=
  when (b_transform_8x8_mode h && negb (i_type h =? I_16x16)) (x264_cabac_mb_transform_size h k) ;>
  when (negb (i_type h =? I_16x16))
    (let di := if i_type h =? I_8x8 then 4 else 1 in
     each (fun i => x264_cabac_mb_intra4x4_pred_mode (x264_mb_predict_intra4x4_mode h (i * di))
         (x264_mb_pred_mode4x4_fix (intra4x4_pred_mode h (scan8 (i * di))))) (seqZ 0 (16 / di))) ;>
  x264_cabac_mb_intra_chroma_pred_mode h k.

Definition write_p_l0_cabac (h : x264_t) : cabac_mb * S -> cabac_mb * S :=
  if i_partition h =? D_16x16 then
    when (i_fref h 0 >? 1) (ref h 0 0) ;>
    mvd h 0 0 4 4
  else if i_partition h =? D_16x8 then
    when (i_fref h 0 >? 1) (ref h 0 0 ;> ref h 0 8) ;>
    mvd h 0 0 4 2 ;>
    mvd h 0 8 4 2
  else if i_partition h =? D_8x16 then
    when (i_fref h 0 >? 1) (ref h 0 0 ;> ref h 0 4) ;>
    mvd h 0 0 2 4 ;>
    mvd h 0 4 2 4
  else fun ks => ks.

Definition write_p_8x8_cabac (h : x264_t) : cabac_mb * S -> cabac_mb * S :=
  with_mb (fun _ => each (fun i => x264_cabac_mb_sub_p_partition (i_sub_partition h i)) (seqZ 0 4)) ;>
  when (i_fref h 0 >? 1) (ref h 0 0 ;> ref h 0 4 ;> ref h 0 8 ;> ref h 0 12) ;>
  each (fun i => x264_cabac_mb8x8_mvd h 0 i) (seqZ 0 4).

Definition write_b_8x8_cabac (h : x264_t) : cabac_mb * S -> cabac_mb * S :=
  with_mb (fun _ => each (fun i => x264_cabac_mb_sub_b_partition (i_sub_partition h i)) (seqZ 0 4)) ;>
  each (fun i_list => when (negb (i_fref h i_list =? 1))
      (each (fun i => when (i2b (tbl2 x264_mb_partition_listX_table i_list (i_sub_partition h i))) (ref h i_list (4*i))) (seqZ 0 4)))
    (seqZ 0 2) ;>
  each (fun i => x264_cabac_mb8x8_mvd h 0 i) (seqZ 0 4) ;>
  each (fun i => x264_cabac_mb8x8_mvd h 1 i) (seqZ 0 4).

Definition write_b_cabac (h : x264_t) : cabac_mb * S -> cabac_mb * S :=
  let b_list i_list i := i2b (tbl2 (if i_list =? 0 then x264_mb_type_list0_table else x264_mb_type_list1_table) (i_type h) i) in
  each (fun i_list => when (i_fref h i_list >? 1)
      (if i_partition h =? D_16x16 then
         when (b_list i_list 0) (ref h i_list 0)
       else if i_partition h =? D_16x8 then
         when (b_list i_list 0) (ref h i_list 0) ;>
         when (b_list i_list 1) (ref h i_list 8)
       else if i_partition h =? D_8x16 then
         when (b_list i_list 0) (ref h i_list 0) ;>
         when (b_list i_list 1) (ref h i_list 4)
       else fun ks => ks))
    (seqZ 0 2) ;>
  each (fun i_list =>
      if i_partition h =? D_16x16 then
        when (b_list i_list 0) (mvd h i_list 0 4 4)
      else if i_partition h =? D_16x8 then
        when (b_list i_list 0) (mvd h i_list 0 4 2) ;>
        when (b_list i_list 1) (mvd h i_list 8 4 2)
      else if i_partition h =? D_8x16 then
        when (b_list i_list 0) (mvd h i_list 0 2 4) ;>
        when (b_list i_list 1) (mvd h i_list 4 2 4)
      else fun ks => ks)
    (seqZ 0 2).

Definition write_mb_pred_cabac (h : x264_t) : cabac_mb * S -> cabac_mb * S :=
  if IS_INTRA (i_type h) then with_mb (write_intra_cabac h)
  else if i_type h =? P_L0 then write_p_l0_cabac h
  else if i_type h =? P_8x8 then write_p_8x8_cabac h
  else if i_type h =? B_8x8 then write_b_8x8_cabac h
  else if negb (i_type h =? B_DIRECT) then write_b_cabac h
  else fun ks => ks.

Definition write_cbp_cabac (h : x264_t) (k : cabac_mb) : S -> S :=
  when (negb (i_type h =? I_16x16)) (x264_cabac_mb_cbp_luma h k ;> x264_cabac_mb_cbp_chroma h k) ;>
  when (x264_mb_transform_8x8_allowed h && i2b (i_cbp_luma h)) (x264_cabac_mb_transform_size h k).

(** Blocks in order, until one fails. *)
Definition each_o {A} (f : A -> S -> option S) (l : list A) (s : S) : option S :=
  fold_left (fun s x => s ≫= f x) l (Some s).

Definition write_luma_cabac (h : x264_t) (k : cabac_mb) (s : S) : option S :=
  if i_type h =? I_16x16 then
    block_residual_write_cabac h k DCT_LUMA_DC 24 (luma16x16_dc h) 16 s ≫= fun s =>
    if negb (i_cbp_luma h =? 0)
    then each_o (fun i => block_residual_write_cabac h k DCT_LUMA_AC i (fun j => luma4x4 h i (1 + j)) 15) (seqZ 0 16) s
    else Some s
  else if i2b (b_transform_8x8 h) then
    each_o (fun i s => if i2b (i_cbp_luma h .& (1 << i))
      then block_residual_write_cabac h k DCT_LUMA_8x8 i (luma8x8 h i) 64 s else Some s) (seqZ 0 4) s
  else
    each_o (fun i s => if i2b (i_cbp_luma h .& (1 << (i / 4)))
      then block_residual_write_cabac h k DCT_LUMA_4x4 i (luma4x4 h i) 16 s else Some s) (seqZ 0 16) s.

Definition write_chroma_cabac (h : x264_t) (k : cabac_mb) (s : S) : option S :=
  (if i2b (i_cbp_chroma h .& 0x03) then
     block_residual_write_cabac h k DCT_CHROMA_DC 25 (chroma_dc h 0) 4 s ≫=
     block_residual_write_cabac h k DCT_CHROMA_DC 26 (chroma_dc h 1) 4
   else Some s) ≫= fun s =>
  if i2b (i_cbp_chroma h .& 0x02)
  then each_o (fun i => block_residual_write_cabac h k DCT_CHROMA_AC i (fun j => luma4x4 h i (1 + j)) 15) (seqZ 16 8) s
  else Some s.

Definition write_residual_cabac (h : x264_t) (k : cabac_mb) (s : S) : option (x264_t * S) :=
  if (i_cbp_luma h >? 0) || (i_cbp_chroma h >? 0) || (i_type h =? I_16x16) then
    let '(h, s) := x264_cabac_mb_qp_delta h k s in
    (fun s => (h, s)) <$> (write_luma_cabac h k s ≫= write_chroma_cabac h k)
  else Some (h, s).
End Encoder.

(** ** The two functions that are compiled from it *)
Definition cb_memcpy (cb : x264_cabac_t) (off : Z) (l : list Z) : x264_cabac_t :=
  set_output cb (i_bytes_outstanding cb) (cb_p cb) (st_bytes (cb_mem cb) (cb_p cb + off) l).
Definition cb_advance (cb : x264_cabac_t) (n : Z) : x264_cabac_t := set_output cb (i_bytes_outstanding cb) (cb_p cb + n) (cb_mem cb).
Definition write_pcm_chroma_cabac (src : Z -> Z) : x264_cabac_t -> x264_cabac_t :=
  for_ 8 0 (fun i cb => cb_memcpy cb (i * 8) (src <$> seqZ (i * FENC_STRIDE) 8)) ;>
  (fun cb => cb_advance cb 64).
(** The samples, and the engine as at the start of a slice. *)
Definition write_pcm_cabac (pic : mb_pic) : x264_cabac_t -> x264_cabac_t :=
  (fun cb => cb_memcpy cb 0 (p_fenc pic 0 <$> seqZ 0 256)) ;>
  (fun cb => cb_advance cb 256) ;>
  write_pcm_chroma_cabac (p_fenc pic 1) ;>
  write_pcm_chroma_cabac (p_fenc pic 2) ;>
  (fun cb => set_output (set_engine cb 0 0x01FE (-1)) 0 (cb_p cb) (cb_mem cb)).

(** With [RDO_SKIP_BS] off. *)
Definition x264_macroblock_write_cabac (i_frame : Z) (h : x264_t) (k : cabac_mb) (pic : mb_pic) (stat : frame_stat) (cb : x264_cabac_t)
    : option (x264_t * cabac_mb * mb_pic * frame_stat * x264_cabac_t) :=
  let sink := cabac_sink i_frame in
  let i_mb_pos_start := x264_cabac_pos cb in
  x264_cabac_mb_type h k (Some cb) ≫= fun cb =>
  if i_type h =? I_PCM then
    let i_mb_pos_tex := x264_cabac_pos cb in
    let mv := i_mv_bits stat + (i_mb_pos_tex - i_mb_pos_start) in
    let cb := write_pcm_cabac pic cb in
    let tex := i_tex_bits stat + (x264_cabac_pos cb - i_mb_pos_tex) in
    Some (h, k, copy_pcm pic, FrameStat mv tex, cb)
  else
    let '(k, s) := write_mb_pred_cabac h (k, Some cb) in
    s ≫= fun cb =>
    let i_mb_pos_tex := x264_cabac_pos cb in
    let mv := i_mv_bits stat + (i_mb_pos_tex - i_mb_pos_start) in
    write_residual_cabac h k (write_cbp_cabac h k (Some cb)) ≫= fun '(h, s) =>
    s ≫= fun cb =>
    let tex := i_tex_bits stat + (x264_cabac_pos cb - i_mb_pos_tex) in
    Some (h, k, pic, FrameStat mv tex, cb).

(** With [RDO_SKIP_BS] on: encoder/rdo.c renames it to [x264_macroblock_size_cabac]. *)
Definition x264_macroblock_size_cabac (h : x264_t) (k : cabac_mb) (cb : x264_cabac_t) : option (x264_t * cabac_mb * x264_cabac_t) :=
  let sink := size_cabac_sink in
  let '(k, cb) := write_mb_pred_cabac h (k, x264_cabac_mb_type h k cb) in
  (fun hs => (hs.1, k, hs.2)) <$> write_residual_cabac h k (write_cbp_cabac h k cb).

(** ** Sizes of parts of a macroblock, for rate distortion decisions *)
Local Abbreviation size := x264_cabac_t.
Definition set_nnz2 (h : x264_t) (pos v : Z) : x264_t := set_non_zero_count (set_non_zero_count h pos v) (pos + 1) v.
Definition set_nnz8x8 (h : x264_t) (i8 v : Z) : x264_t := set_nnz2 (set_nnz2 h (scan8 (i8 * 4 + 0)) v) (scan8 (i8 * 4 + 2)) v.
(** A 4x4 block with its flag. *)
Definition size_block4 (k : cabac_mb) (cat first i_count : Z) (i : Z) (hs : x264_t * size) : option (x264_t * size) :=
  let h := set_non_zero_count hs.1 (scan8 i) (b2i (array_non_zero 16 (luma4x4 hs.1 i))) in
  (fun s => (h, s)) <$> block_residual_write_cabac (sink := size_cabac_sink) h k cat i (fun j => luma4x4 h i (first + j)) i_count hs.2.

Definition x264_partition_mvd_size_cabac (h : x264_t) (i8 : Z) (ks : cabac_mb * size) : option (cabac_mb * size) :=
  let sink := size_cabac_sink in
  let b_8x16 := b2i (i_partition h =? D_8x16) in
  if i_type h =? P_8x8 then Some (x264_cabac_mb8x8_mvd h 0 i8 ks)
  else if i_type h =? P_L0 then Some (x264_cabac_mb_mvd h 0 (4*i8) (4 >> b_8x16) (2 << b_8x16) ks)
  else if (i_type h >? B_DIRECT) && (i_type h <? B_8x8) then
    Some ((when (i2b (tbl2 x264_mb_type_list0_table (i_type h) (b2i (i2b i8)))) (x264_cabac_mb_mvd h 0 (4*i8) (4 >> b_8x16) (2 << b_8x16)) ;>
           when (i2b (tbl2 x264_mb_type_list1_table (i_type h) (b2i (i2b i8)))) (x264_cabac_mb_mvd h 1 (4*i8) (4 >> b_8x16) (2 << b_8x16))) ks)
  else if i_type h =? B_8x8 then Some ((x264_cabac_mb8x8_mvd h 0 i8 ;> x264_cabac_mb8x8_mvd h 1 i8) ks)
  else None.

Definition x264_quarter_size_cabac (k : cabac_mb) (i8 : Z) (hs : x264_t * size) : option (x264_t * size) :=
  let sink := size_cabac_sink in
  let '(h, s) := hs in
  (if i2b (i_cbp_luma h .& (1 << i8)) then
     if i2b (b_transform_8x8 h) then
       let h := set_nnz8x8 h i8 1 in
       (fun s => (h, s)) <$> block_residual_write_cabac h k DCT_LUMA_8x8 i8 (luma8x8 h i8) 64 s
     else each_o (fun i4 => size_block4 k DCT_LUMA_4x4 0 16 (i4 + i8 * 4)) (seqZ 0 4) (h, s)
   else Some (set_nnz8x8 h i8 0, s)) ≫= fun hs =>
  let h := set_non_zero_count (set_non_zero_count hs.1 (scan8 (16 + i8)) (b2i (array_non_zero 16 (luma4x4 hs.1 (16 + i8)))))
    (scan8 (20 + i8)) (b2i (array_non_zero 16 (luma4x4 hs.1 (20 + i8)))) in
  block_residual_write_cabac h k DCT_CHROMA_AC (16 + i8) (fun j => luma4x4 h (16 + i8) (1 + j)) 15 hs.2 ≫= fun s =>
  (fun s => (h, s)) <$> block_residual_write_cabac h k DCT_CHROMA_AC (20 + i8) (fun j => luma4x4 h (20 + i8) (1 + j)) 15 s.

Definition x264_partition_size_cabac (h : x264_t) (i8 i_pixel : Z) (ks : cabac_mb * size) : option (x264_t * cabac_mb * size) :=
  match x264_partition_mvd_size_cabac h i8 ks with
  | None => Some (h, ks.1, ks.2)
  | Some (k, s) =>
      let parts := if i_pixel <? PIXEL_8x8 then [i8; i8 + (snd (nth (Z.to_nat i_pixel) x264_pixel_size (0, 0)) >> 3)] else [i8] in
      (fun hs => (hs.1, k, hs.2)) <$> each_o (x264_quarter_size_cabac k) parts (h, s)
  end.

Definition x264_subpartition_size_cabac (h : x264_t) (i4 i_pixel : Z) (ks : cabac_mb * size) : option (x264_t * cabac_mb * size) :=
  let sink := size_cabac_sink in
  let b_8x4 := b2i (i_pixel =? PIXEL_8x4) in
  size_block4 ks.1 DCT_LUMA_4x4 0 16 i4 (h, ks.2) ≫= fun '(h, s) =>
  if i_pixel =? PIXEL_4x4 then
    let '(k, s) := x264_cabac_mb_mvd h 0 i4 1 1 (ks.1, s) in Some (h, k, s)
  else
    let '(k, s) := x264_cabac_mb_mvd h 0 i4 (1 + b_8x4) (2 - b_8x4) (ks.1, s) in
    (fun hs => (hs.1, k, hs.2)) <$> size_block4 k DCT_LUMA_4x4 0 16 (i4 + 2 - b_8x4) (h, s).

Definition x264_partition_i8x8_size_cabac (h : x264_t) (k : cabac_mb) (i8 i_mode : Z) (s : size) : option (x264_t * size) :=
  let sink := size_cabac_sink in
  let i_pred := x264_mb_predict_intra4x4_mode h (4*i8) in
  let s := x264_cabac_mb_intra4x4_pred_mode i_pred (x264_mb_pred_mode4x4_fix i_mode) s in
  if array_non_zero 64 (luma8x8 h i8) then
    let h := set_nnz8x8 h i8 1 in
    (fun s => (h, s)) <$> block_residual_write_cabac h k DCT_LUMA_8x8 (4*i8) (luma8x8 h i8) 64 s
  else Some (set_nnz8x8 h i8 0, s).

Definition x264_partition_i4x4_size_cabac (h : x264_t) (k : cabac_mb) (i4 i_mode : Z) (s : size) : option (x264_t * size) :=
  let sink := size_cabac_sink in
  let i_pred := x264_mb_predict_intra4x4_mode h i4 in
  size_block4 k DCT_LUMA_4x4 0 16 i4 (h, x264_cabac_mb_intra4x4_pred_mode i_pred (x264_mb_pred_mode4x4_fix i_mode) s).

Definition x264_i8x8_chroma_size_cabac (h : x264_t) (k : cabac_mb) (s : size) : option size :=
  let sink := size_cabac_sink in
  let s := x264_cabac_mb_cbp_chroma h k (x264_cabac_mb_intra_chroma_pred_mode h k s) in
  if i_cbp_chroma h >? 0 then
    block_residual_write_cabac h k DCT_CHROMA_DC 25 (chroma_dc h 0) 4 s ≫= fun s =>
    block_residual_write_cabac h k DCT_CHROMA_DC 26 (chroma_dc h 1) 4 s ≫= fun s =>
    if i_cbp_chroma h =? 2
    then each_o (fun i => block_residual_write_cabac h k DCT_CHROMA_AC i (fun j => luma4x4 h i (1 + j)) 15) (seqZ 16 8) s
    else Some s
  else Some s.
