(* ===== verification/CabacLayer.v ===== *)
(** * The macroblock layer of the H.264 standard in CABAC

    Tables 7.3.5 to 7.3.5.3.3 with the binarizations and context selections of clause 9.3,
    as a parser that asks for one bin after another, written independently of the
    encoder.  It runs on a list of bins or on the arithmetic decoder of [Cabac]. *)
From S2P Require Import Prelude Mb MbLayer Cabac.

(** ** Parsers of bins *)
Inductive cparser (A : Type) : Type :=
  | CRet (a : A)
  | CFail
  | CDecision (ctxIdx : Z) (k : Z -> cparser A)
  | CBypass (k : Z -> cparser A)
  | CEscape (k0 : Z) (k : Z -> cparser A)       (* the suffix of a UEGk code *)
  | CTerminate (k : Z -> cparser A).
Arguments CRet {A}.
Arguments CFail {A}.
Arguments CDecision {A}.
Arguments CBypass {A}.
Arguments CEscape {A}.
Arguments CTerminate {A}.

Fixpoint cbind {A B} (f : A -> cparser B) (r : cparser A) : cparser B :=
  match r with
  | CRet a => f a
  | CFail => CFail
  | CDecision c k => CDecision c (fun b => cbind f (k b))
  | CBypass k => CBypass (fun b => cbind f (k b))
  | CEscape e k => CEscape e (fun v => cbind f (k v))
  | CTerminate k => CTerminate (fun b => cbind f (k b))
  end.
#[export] Instance cparser_ret : MRet cparser := @CRet.
#[export] Instance cparser_bind : MBind cparser := @cbind.

Definition decision (ctxIdx : Z) : cparser Z := CDecision ctxIdx CRet.
Definition flag (ctxIdx : Z) : cparser bool := CDecision ctxIdx (fun b => CRet (i2b b)).
Definition bypass : cparser Z := CBypass CRet.
Definition escape (k0 : Z) : cparser Z := CEscape k0 CRet.
Definition cwhen {A} (b : bool) (r : cparser A) (inferred : A) : cparser A := if b then r else mret inferred.
Fixpoint ceach {A B} (r : A -> cparser B) (l : list A) : cparser (list B) :=
  match l with
  | [] => mret []
  | x :: l => y ← r x; ys ← ceach r l; mret (y :: ys)
  end.

(** On bins whose kind and context have to be those asked for. *)
Fixpoint run_bins {A} (r : cparser A) (l : list bin) : option (A * list bin) :=
  match r, l with
  | CRet a, _ => Some (a, l)
  | CDecision c k, Decision c' b :: l => if c =? c' then run_bins (k b) l else None
  | CBypass k, Bypass b :: l => run_bins (k b) l
  | CEscape e k, UeBypass e' v :: l => if e =? e' then run_bins (k v) l else None
  | CTerminate k, Terminal :: l => run_bins (k 0) l
  | _, _ => None
  end.

(** On the arithmetic decoder. *)
Fixpoint run_dec {A} (r : cparser A) (d : decoder) : option (A * decoder) :=
  match r with
  | CRet a => Some (a, d)
  | CFail => None
  | CDecision c k => '(b, d) ← dec_decision d c; run_dec (k b) d
  | CBypass k => '(b, d) ← dec_bypass d; run_dec (k (b2i b)) d
  | CEscape e k => '(v, d) ← dec_ue 31 e 0 d; run_dec (k v) d
  | CTerminate k => '(b, d) ← dec_terminal d; run_dec (k b) d
  end.

(** ** Binarizations (9.3.2) *)

(** Truncated unary with cMax [i + n]; [ctx] selects the context by the index of the bin. *)
Fixpoint read_tu (n : nat) (ctx : Z -> Z) (i : Z) : cparser Z :=
  match n with
  | O => mret i
  | S n => b ← decision (ctx i); if b =? 0 then mret i else read_tu n ctx (i + 1)
  end.
(** Unary, of at most [n] bins. *)
Fixpoint read_unary (n : nat) (ctx : Z -> Z) (i : Z) : cparser Z :=
  match n with
  | O => CFail
  | S n => b ← decision (ctx i); if b =? 0 then mret i else read_unary n ctx (i + 1)
  end.
Fixpoint code_eqb (a b : list Z) : bool :=
  match a, b with
  | [], [] => true
  | x :: a, y :: b => (x =? y) && code_eqb a b
  | _, _ => false
  end.
(** By a table of bin strings; [ctx] selects by the bins already read. *)
Fixpoint read_code {A} (n : nat) (ctx : list Z -> Z) (table : list (list Z * A)) (pre : list Z) : cparser A :=
  match n with
  | O => CFail
  | S n =>
      b ← decision (ctx pre);
      match find (fun e => code_eqb (fst e) (pre ++ [b])) table with
      | Some e => mret (snd e)
      | None => read_code n ctx table (pre ++ [b])
      end
  end.

(** ** Contexts (9.3.3.1.1) *)

(** What is known of a neighbouring macroblock. [n_cbp]: pattern, luma and 16 times chroma;
    [n_dc]: the coded block flags of its luma, Cb and Cr DC blocks. *)
Record neighbour := Neighbour {
  n_skip : bool; n_direct : bool; n_nxn : bool; n_pcm : bool; n_intra : bool;
  n_chroma_mode : Z; n_cbp : Z; n_transform_8x8 : bool; n_dc : Z -> bool
}.

(** The last three are at the positions of the grid of [x264_scan8]; in the macroblock
    itself they are filled while it is parsed. *)
Record cabac_context := CabacContext {
  k_slice : Z; k_transform_8x8_mode : bool; k_direct_8x8_inference : bool; k_num_ref : Z -> Z;
  k_field_flag : bool; k_field_inc : Z; k_field : bool; k_qp : Z;
  k_left : option neighbour; k_top : option neighbour;
  k_prev_delta : bool;                         (* the last macroblock changed the quantiser *)
  k_mvd : Z -> Z -> Z * Z;                     (* [list] [position] *)
  k_ref_gt0 : Z -> Z -> bool;                  (* coded, and a reference other than the first *)
  k_cbf : Z -> bool                            (* of 4x4 blocks *)
}.

Definition cond (n : option neighbour) (f : neighbour -> bool) : Z := match n with Some n => b2i (f n) | None => 0 end.
Definition inc (c : cabac_context) (f : neighbour -> bool) : Z := cond (k_left c) f + cond (k_top c) f.

(** ** Macroblock type *)
Definition read_16x16 (c2 c3 c4 c5 c6 : Z) : cparser mb_kind :=
  luma ← decision c2;
  ch ← decision c3;
  chroma ← (if ch =? 0 then mret 0 else x ← decision c4; mret (1 + x));
  hi ← decision c5;
  lo ← decision c6;
  mret (K_16x16 (2 * hi + lo) (16 * chroma + (if luma =? 0 then 0 else 15))).
Definition read_i_type (c0 : Z) (r : cparser mb_kind) : cparser mb_kind :=
  b0 ← decision c0;
  if b0 =? 0 then mret K_NxN else CTerminate (fun t => if t =? 1 then mret K_PCM else r).
(** In I slices (offset 3), and as a suffix in P and B slices (offsets 17 and 32). *)
Definition read_i_slice_type (ctxInc : Z) : cparser mb_kind :=
  read_i_type (3 + ctxInc) (read_16x16 (3 + 3) (3 + 4) (3 + 5) (3 + 6) (3 + 7)).
Definition read_i_suffix (o : Z) : cparser mb_kind :=
  read_i_type o (read_16x16 (o + 1) (o + 2) (o + 2) (o + 3) (o + 3)).

Local Abbreviation L0 := (true, false).
Definition read_p_type : cparser mb_kind :=
  b0 ← decision 14;
  if b0 =? 1 then read_i_suffix 17
  else
    b1 ← decision 15;
    b2 ← decision (if b1 =? 1 then 17 else 16);
    mret (if b1 =? 0 then (if b2 =? 0 then K_Inter 0 [L0] else K_P8x8 false)
          else (if b2 =? 1 then K_Inter 1 [L0; L0] else K_Inter 2 [L0; L0])).

(** Table 9-37, in the order of the types, then the prefix of the intra types. *)
Definition b_codes : list (list Z) :=
  [ [0]; [1;0;0]; [1;0;1]; [1;1;0;0;0;0];
    [1;1;0;0;0;1]; [1;1;0;0;1;0]; [1;1;0;0;1;1]; [1;1;0;1;0;0];
    [1;1;0;1;0;1]; [1;1;0;1;1;0]; [1;1;0;1;1;1]; [1;1;1;1;1;0];
    [1;1;1;0;0;0;0]; [1;1;1;0;0;0;1]; [1;1;1;0;0;1;0]; [1;1;1;0;0;1;1];
    [1;1;1;0;1;0;0]; [1;1;1;0;1;0;1]; [1;1;1;0;1;1;0]; [1;1;1;0;1;1;1];
    [1;1;1;1;0;0;0]; [1;1;1;1;0;0;1]; [1;1;1;1;1;1] ].
Definition b_table : list (list Z * option mb_kind) := zip b_codes (Some <$> b_kinds) ++ [([1;1;1;1;0;1], None)].
Definition b_ctx (ctxInc : Z) (pre : list Z) : Z :=
  27 + match pre with [] => ctxInc | [_] => 3 | [_; b1] => if b1 =? 0 then 5 else 4 | _ => 5 end.
Definition read_b_type (ctxInc : Z) : cparser mb_kind :=
  k ← read_code 7 (b_ctx ctxInc) b_table [];
  match k with Some k => mret k | None => read_i_suffix 32 end.

Definition read_mb_type (c : cabac_context) : cparser mb_kind :=
  if k_slice c =? 2 then read_i_slice_type (inc c (fun n => negb (n_nxn n)))
  else if k_slice c =? 0 then read_p_type
  else read_b_type (inc c (fun n => negb (n_skip n || n_direct n))).

(** ** Prediction *)
Definition read_mode_cabac : cparser (option Z) :=
  prev ← decision 68;
  if prev =? 1 then mret None
  else b0 ← decision 69; b1 ← decision 69; b2 ← decision 69; mret (Some (b0 + 2 * b1 + 4 * b2)).
Definition read_chroma_mode (c : cabac_context) : cparser Z :=
  let ctxInc := inc c (fun n => n_intra n && negb (n_pcm n) && negb (n_chroma_mode n =? 0)) in
  read_tu 3 (fun i => if i =? 0 then 64 + ctxInc else 64 + 3) 0.
Definition read_transform_flag (c : cabac_context) : cparser bool := flag (399 + inc c n_transform_8x8).

(** Table 9-38. *)
Definition p_sub_codes : list (list Z) := [ [1]; [0;0]; [0;1;1]; [0;1;0] ].
Definition b_sub_codes : list (list Z) :=
  [ [0]; [1;0;0]; [1;0;1]; [1;1;0;0;0];
    [1;1;0;0;1]; [1;1;0;1;0]; [1;1;0;1;1]; [1;1;1;0;0;0];
    [1;1;1;0;0;1]; [1;1;1;0;1;0]; [1;1;1;0;1;1]; [1;1;1;1;0]; [1;1;1;1;1] ].
Definition read_p_sub : cparser sub_type :=
  read_code 3 (fun pre => 21 + Z.of_nat (length pre)) (zip p_sub_codes p_subs) [].
Definition read_b_sub : cparser sub_type :=
  read_code 6 (fun pre => 36 + match pre with [] => 0 | [_] => 1 | [_; b1] => if b1 =? 0 then 3 else 2 | _ => 3 end)
    (zip b_sub_codes b_subs) [].

(** Partitions: first block, width and height in blocks. *)
Definition rect : Type := Z * Z * Z.
Definition part_rects (shape : Z) : list rect :=
  if shape =? 0 then [(0, 4, 4)] else if shape =? 1 then [(0, 4, 2); (8, 4, 2)] else [(0, 2, 4); (4, 2, 4)].
Definition sub_rects (i shape : Z) : list rect :=
  if shape =? 0 then [(4 * i, 2, 2)]
  else if shape =? 1 then [(4 * i, 2, 1); (4 * i + 2, 2, 1)]
  else if shape =? 2 then [(4 * i, 1, 2); (4 * i + 1, 1, 2)]
  else if shape =? 3 then [(4 * i, 1, 1); (4 * i + 1, 1, 1); (4 * i + 2, 1, 1); (4 * i + 3, 1, 1)]
  else [].
Definition used_rects (list shape : Z) (lists : Datatypes.list (bool * bool)) : Datatypes.list rect :=
  fst <$> List.filter (fun p => uses list (snd p)) (zip (part_rects shape) lists).
Definition ref_rects (k : mb_kind) (subs : list sub_type) (list : Z) : Datatypes.list rect :=
  match k with
  | K_Inter shape lists => used_rects list shape lists
  | K_P8x8 _ | K_B8x8 => (fun p => (4 * fst p, 2, 2)) <$> used_subs list subs
  | _ => []
  end.
Definition mv_rects (k : mb_kind) (subs : list sub_type) (list : Z) : Datatypes.list rect :=
  match k with
  | K_Inter shape lists => used_rects list shape lists
  | K_P8x8 _ | K_B8x8 => mjoin ((fun p => sub_rects (fst p) (fst (snd p))) <$> used_subs list subs)
  | _ => []
  end.
(** The positions of a partition in the grid. *)
Definition positions (r : rect) : list Z :=
  let '(idx, w, h) := r in mjoin ((fun dy => (fun dx => scan8 idx + dx + 8 * dy) <$> seqZ 0 w) <$> seqZ 0 h).
Definition covers (r : rect) (q : Z) : bool := existsb (Z.eqb q) (positions r).
Definition fill {A} (g : Z -> A) (r : rect) (v : A) : Z -> A := fun q => if covers r q then v else g q.

Definition ref_ctx (g : Z -> bool) (idx i : Z) : Z :=
  if i =? 0 then 54 + b2i (g (scan8 idx - 1)) + 2 * b2i (g (scan8 idx - 8)) else if i =? 1 then 54 + 4 else 54 + 5.
Fixpoint read_refs (num_ref : Z) (l : list rect) (g : Z -> bool) : cparser (list Z) :=
  match l with
  | [] => mret []
  | r :: l =>
      v ← cwhen (num_ref >? 1) (read_unary 33 (ref_ctx g (fst (fst r))) 0) 0;
      vs ← read_refs num_ref l (fill g r (v >? 0));
      mret (v :: vs)
  end.

(** UEG3 with the sign, uCoff 9. *)
Definition mvd_ctx (base sum i : Z) : Z :=
  base + (if i =? 0 then (if sum <? 3 then 0 else if sum >? 32 then 2 else 1) else Z.min (i + 2) 6).
Definition read_mvd_comp (base a b : Z) : cparser Z :=
  v ← read_tu 9 (mvd_ctx base (Z.abs a + Z.abs b)) 0;
  v ← (if v <? 9 then mret v else x ← escape 3; mret (9 + x));
  if v =? 0 then mret 0 else s ← bypass; mret (if s =? 1 then - v else v).
Fixpoint read_mvds (l : list rect) (g : Z -> Z * Z) : cparser (list (Z * Z)) :=
  match l with
  | [] => mret []
  | r :: l =>
      let a := g (scan8 (fst (fst r)) - 1) in
      let b := g (scan8 (fst (fst r)) - 8) in
      x ← read_mvd_comp 40 a.1 b.1;
      y ← read_mvd_comp 47 a.2 b.2;
      vs ← read_mvds l (fill g r (x, y));
      mret ((x, y) :: vs)
  end.

(** What the grids hold in the macroblock before it is parsed. *)
Definition inside (q : Z) : bool := covers (0, 4, 4) q.
Definition clear {A} (g : Z -> A) (v : A) : Z -> A := fill g (0, 4, 4) v.

Definition read_motion_cabac (c : cabac_context) (k : mb_kind) : cparser mb_pred :=
  subs ← match k with
         | K_P8x8 _ => ceach (fun _ => read_p_sub) (seqZ 0 4)
         | K_B8x8 => ceach (fun _ => read_b_sub) (seqZ 0 4)
         | _ => mret []
         end;
  let refs l := read_refs (k_num_ref c l) (ref_rects k subs l) (clear (k_ref_gt0 c l) false) in
  let mvds l := read_mvds (mv_rects k subs l) (clear (k_mvd c l) (0, 0)) in
  r0 ← refs 0;
  r1 ← refs 1;
  m0 ← mvds 0;
  m1 ← mvds 1;
  mret (MbPred false [] 0 subs r0 r1 m0 m1).

Definition read_mb_pred_cabac (c : cabac_context) (k : mb_kind) : cparser mb_pred :=
  match k with
  | K_NxN =>
      t8x8 ← cwhen (k_transform_8x8_mode c) (read_transform_flag c) false;
      modes ← ceach (fun _ => read_mode_cabac) (seqZ 0 (if t8x8 then 4 else 16));
      chroma ← read_chroma_mode c;
      mret (MbPred t8x8 modes chroma [] [] [] [] [])
  | K_16x16 _ _ => chroma ← read_chroma_mode c; mret (MbPred false [] chroma [] [] [] [] [])
  | K_PCM => CFail
  | K_Direct => mret (MbPred false [] 0 [] [] [] [] [])
  | _ => read_motion_cabac c k
  end.

(** ** Pattern, quantiser *)

(** Bit [i] of the pattern, with the bits [acc] already read (9.3.3.1.1.4). *)
Definition cbp_luma_cond (n : option neighbour) (inner : bool) (acc : Z) (bit_in bit_out : Z) : Z :=
  if inner then b2i (negb (Z.testbit acc bit_in)) else cond n (fun n => negb (n_pcm n) && negb (Z.testbit (n_cbp n) bit_out)).
Definition cbp_luma_ctx (c : cabac_context) (acc i : Z) : Z :=
  73 + cbp_luma_cond (k_left c) (Z.odd i) acc (i - 1) (i + 1) + 2 * cbp_luma_cond (k_top c) (2 <=? i) acc (i - 2) (i + 2).
Fixpoint read_cbp_luma (c : cabac_context) (l : list Z) (acc : Z) : cparser Z :=
  match l with
  | [] => mret acc
  | i :: l => b ← decision (cbp_luma_ctx c acc i); read_cbp_luma c l (acc + b * 2 ^ i)
  end.
Definition cbp_chroma_ctx (c : cabac_context) (i : Z) : Z :=
  let f n := n_pcm n || (if i =? 0 then negb (n_skip n) && negb (n_cbp n / 16 =? 0) else negb (n_skip n) && (n_cbp n / 16 =? 2)) in
  77 + cond (k_left c) f + 2 * cond (k_top c) f + (if i =? 0 then 0 else 4).
Definition read_cbp_cabac (c : cabac_context) (k : mb_kind) : cparser Z :=
  match k with
  | K_16x16 _ cbp => mret cbp
  | _ =>
      luma ← read_cbp_luma c (seqZ 0 4) 0;
      chroma ← read_tu 2 (cbp_chroma_ctx c) 0;
      mret (luma + 16 * chroma)
  end.

(** Table 9-3: the value of code number [v]. *)
Definition se_value (v : Z) : Z := if Z.odd v then (v + 1) / 2 else - (v / 2).
Definition read_qp_delta (c : cabac_context) : cparser Z :=
  v ← read_unary 104 (fun i => if i =? 0 then 60 + b2i (k_prev_delta c) else if i =? 1 then 60 + 2 else 60 + 3) 0;
  mret (se_value v).

(** ** Residual (7.3.5.3.3) *)

(** Table 9-34: the offsets of frame and field macroblocks; ctxBlockCat 5 is 8x8 luma. *)
Definition cat_offset (cat : Z) : Z := tbl [0; 15; 29; 44; 47; 0] cat.
Definition sig_offset (field : bool) (cat : Z) : Z :=
  cat_offset cat + (if cat <? 5 then (if field then 277 else 105) else (if field then 436 else 402)).
Definition last_offset (field : bool) (cat : Z) : Z :=
  cat_offset cat + (if cat <? 5 then (if field then 338 else 166) else (if field then 451 else 417)).
Definition abs_offset (cat : Z) : Z := tbl [0; 10; 20; 30; 39; 0] cat + (if cat <? 5 then 227 else 426).

(** Table 9-43: frame, field, last. *)
Definition sig_8x8_frame : list Z :=
  [ 0;  1;  2;  3;  4;  5;  5;  4;  4;  3;  3;  4;  4;  4;  5;  5;  4;  4;  4;  4;  3;
    3;  6;  7;  7;  7;  8;  9; 10;  9;  8;  7;  7;  6; 11; 12; 13; 11;  6;  7;  8;  9;
   14; 10;  9;  8;  6; 11; 12; 13; 11;  6;  9; 14; 10;  9; 11; 12; 13; 11; 14; 10; 12 ].
Definition sig_8x8_field : list Z :=
  [ 0;  1;  1;  2;  2;  3;  3;  4;  5;  6;  7;  7;  7;  8;  4;  5;  6;  9; 10; 10;  8;
   11; 12; 11;  9;  9; 10; 10;  8; 11; 12; 11;  9;  9; 10; 10;  8; 11; 12; 11;  9;  9;
   10; 10;  8; 13; 13;  9;  9; 10; 10;  8; 13; 13;  9;  9; 10; 10; 14; 14; 14; 14; 14 ].
Definition last_8x8 (i : Z) : Z :=
  if i =? 0 then 0 else if i <? 16 then 1 else if i <? 32 then 2 else if i <? 40 then 3 else if i <? 48 then 4
  else if i <? 52 then 5 else if i <? 56 then 6 else if i <? 60 then 7 else 8.
Definition sig_ctx (field : bool) (cat i : Z) : Z :=
  sig_offset field cat + (if cat =? 5 then tbl (if field then sig_8x8_field else sig_8x8_frame) i
                          else if cat =? 3 then Z.min i 2 else i).
Definition last_ctx (field : bool) (cat i : Z) : Z :=
  last_offset field cat + (if cat =? 5 then last_8x8 i else if cat =? 3 then Z.min i 2 else i).

(** The positions of the significant coefficients; [n]: positions left, the last of which
    is inferred. *)
Fixpoint read_sigmap (n : nat) (field : bool) (cat i : Z) : cparser (list Z) :=
  match n with
  | O => mret [i]
  | S n =>
      sig ← decision (sig_ctx field cat i);
      if sig =? 0 then read_sigmap n field cat (i + 1)
      else
        last ← decision (last_ctx field cat i);
        if last =? 1 then mret [i] else l ← read_sigmap n field cat (i + 1); mret (i :: l)
  end.
(** UEG0 with the sign, uCoff 14; [eq1] and [gt1] count the levels of magnitude one and
    more that were read. *)
Definition abs_ctx (cat eq1 gt1 i : Z) : Z :=
  abs_offset cat + (if i =? 0 then (if gt1 =? 0 then Z.min 4 (1 + eq1) else 0) else 5 + Z.min (4 - b2i (cat =? 3)) gt1).
Definition read_level_cabac (cat eq1 gt1 : Z) : cparser Z :=
  v ← read_tu 14 (abs_ctx cat eq1 gt1) 0;
  v ← (if v <? 14 then mret v else x ← escape 0; mret (14 + x));
  s ← bypass;
  mret (if s =? 1 then - (v + 1) else v + 1).
Fixpoint read_levels (cat : Z) (l : list Z) (eq1 gt1 : Z) : cparser (list (Z * Z)) :=
  match l with
  | [] => mret []
  | i :: l =>
      v ← read_level_cabac cat eq1 gt1;
      r ← read_levels cat l (eq1 + b2i (Z.abs v =? 1)) (gt1 + b2i (Z.abs v >? 1));
      mret ((i, v) :: r)
  end.
Definition level_of (l : list (Z * Z)) (i : Z) : Z := match find (fun e => fst e =? i) l with Some e => snd e | None => 0 end.
(** A block of [n] levels; 8x8 blocks have no coded block flag. *)
Definition read_block_cabac (field : bool) (cat n : Z) (cbf_ctx : option Z) : cparser (list Z) :=
  coded ← match cbf_ctx with Some ctx => decision (85 + ctx) | None => mret 1 end;
  if coded =? 0 then mret (replicate (Z.to_nat n) 0)
  else
    l ← read_sigmap (Z.to_nat (n - 1)) field cat 0;
    r ← read_levels cat (rev l) 0 0;
    mret (level_of r <$> seqZ 0 n).

(** [None]: the neighbouring block is not available. *)
Definition cbf_inc (intra : bool) (cat : Z) (a b : option bool) : Z :=
  let f o := match o with Some x => b2i x | None => b2i intra end in 4 * cat + f a + 2 * f b.
Definition dc_cbf (n : option neighbour) (i : Z) : option bool := (fun n => n_pcm n || n_dc n i) <$> n.
(** The blocks to the left and above; [true]: of this macroblock. *)
Definition left_inner (idx : Z) : bool := if idx <? 16 then negb (tbl block_idx_x idx =? 0) else Z.odd idx.
Definition top_inner (idx : Z) : bool := if idx <? 16 then negb (tbl block_idx_y idx =? 0) else Z.odd (idx / 2).
Definition block_cbf (g : Z -> bool) (inner : bool) (n : option neighbour) (q : Z) : option bool :=
  if inner then Some (g q) else (fun _ => g q) <$> n.
Definition read_4x4_block (c : cabac_context) (field intra : bool) (cat n : Z) (g : Z -> bool) (idx : Z) : cparser (list Z) :=
  read_block_cabac field cat n (Some (cbf_inc intra cat (block_cbf g (left_inner idx) (k_left c) (scan8 idx - 1))
    (block_cbf g (top_inner idx) (k_top c) (scan8 idx - 8)))).
Definition nonzero (l : list Z) : bool := existsb (fun v => negb (v =? 0)) l.
Fixpoint read_4x4_blocks (c : cabac_context) (field intra : bool) (cat n : Z) (coded : Z -> bool) (idxs : list Z) (g : Z -> bool)
    : cparser (list (list Z)) :=
  match idxs with
  | [] => mret []
  | i :: idxs =>
      l ← cwhen (coded i) (read_4x4_block c field intra cat n g i) (replicate (Z.to_nat n) 0);
      ls ← read_4x4_blocks c field intra cat n coded idxs (fun q => if q =? scan8 i then nonzero l else g q);
      mret (l :: ls)
  end.

Definition kind_intra (k : mb_kind) : bool := match k with K_NxN | K_16x16 _ _ | K_PCM => true | _ => false end.
Definition transform_8x8_possible_cabac (c : cabac_context) (k : mb_kind) (subs : list sub_type) : bool :=
  transform_8x8_possible (MbContext (k_slice c) (k_transform_8x8_mode c) (k_direct_8x8_inference c) (k_num_ref c) (k_field_flag c) (k_qp c) (fun _ => 0)) k subs.

(** With the 8x8 transform the luma levels are four lists of 64. *)
Definition read_luma_cabac (c : cabac_context) (field t8x8 : bool) (k : mb_kind) (cbp : Z) : cparser (list (list Z)) :=
  let intra := kind_intra k in
  let coded i := Z.testbit cbp (i / 4) in
  if is_16x16 k then read_4x4_blocks c field intra 1 15 coded (seqZ 0 16) (k_cbf c)
  else if t8x8 then ceach (fun i => cwhen (Z.testbit cbp i) (read_block_cabac field 5 64 None) (replicate 64 0)) (seqZ 0 4)
  else read_4x4_blocks c field intra 2 16 coded (seqZ 0 16) (k_cbf c).

Definition read_macroblock_cabac (c : cabac_context) : cparser macroblock :=
  f ← cwhen (k_field_flag c) (flag (70 + k_field_inc c)) (k_field c);
  k ← read_mb_type c;
  p ← read_mb_pred_cabac c k;
  cbp ← read_cbp_cabac c k;
  t8x8 ← cwhen (transform_8x8_possible_cabac c k (m_subs p) && k_transform_8x8_mode c && negb (cbp mod 16 =? 0))
    (read_transform_flag c) (m_t8x8 p);
  delta ← cwhen (is_16x16 k || negb (cbp =? 0)) (read_qp_delta c) 0;
  let intra := kind_intra k in
  let dc cat n i := read_block_cabac f cat n (Some (cbf_inc intra cat (dc_cbf (k_left c) i) (dc_cbf (k_top c) i))) in
  luma_dc ← cwhen (is_16x16 k) (dc 0 16 0) [];
  luma ← read_luma_cabac c f t8x8 k cbp;
  chroma_dc ← ceach (fun i => cwhen (negb (cbp / 16 =? 0)) (dc 3 4 (1 + i)) (replicate 4 0)) (seqZ 0 2);
  chroma ← read_4x4_blocks c f intra 4 15 (fun _ => cbp / 16 =? 2) (seqZ 16 8) (k_cbf c);
  mret (Macroblock f k p cbp t8x8 ((k_qp c + delta + 52) mod 52) luma_dc luma chroma_dc chroma).

Definition read_skip_flag (c : cabac_context) : cparser Z :=
  decision ((if k_slice c =? 0 then 11 else 24) + inc c (fun n => negb (n_skip n))).
