(* ===== verification/CabacCodes.v ===== *)
(** * From the CABAC writer to bins and back

    What [CabacMb] calls, whatever it is compiled over, is a list of operations; a parser
    of [CabacLayer] that reads the bins of these operations back also reads them from the
    arithmetic decoder. *)
From S2P Require Import Prelude Syntax Mb CabacTables Cabac CabacMb CabacLayer.

(** ** Operations *)
Inductive cop := Op (x : bin) | Noup (i_ctx b : Z).
Definition op_bin (o : cop) : bin := match o with Op x => x | Noup ctx b => Decision ctx b end.
Definition op_ok (o : cop) : Prop := bin_ok (op_bin o).
Definition put_op {S} {sink : CabacSink S} (s : S) (o : cop) : S :=
  match o with
  | Op (Decision ctx b) => ck_decision s ctx b
  | Op (Bypass b) => ck_bypass s b
  | Op (UeBypass e v) => ck_ue_bypass s e v
  | Op Terminal => ck_terminal s
  | Noup ctx b => ck_decision_noup s ctx b
  end.
Definition put_ops {S} {sink : CabacSink S} (s : S) (l : list cop) : S := fold_left put_op l s.

Definition Dec (ctx b : Z) : cop := Op (Decision ctx b).
(** What the tables of encoder/rdo.c stand for. *)
Definition unary_ops (i_prefix ctx : Z) : list cop :=
  replicate (Z.to_nat (i_prefix - 1)) (Dec ctx 1) ++ (if i_prefix <? 14 then [Dec ctx 0] else []) ++ [Op (Bypass 0)].
Definition ones_ops (ctx : Z) : list cop := replicate 5 (Dec ctx 1) ++ [Op (Bypass 0)].

(** [R s l]: the state [s] stands for the operations [l]. Where only sizes are counted the
    value of a sign does not matter, and it may come before an escape code. *)
Class CabacSim {S} (sink : CabacSink S) (R : S -> list cop -> Prop) : Prop := {
  csim_op : forall s l o, R s l -> op_ok o -> R (put_op s o) (l ++ [o]);
  csim_unary : forall s l p ctx, @ck_skip S sink = true -> R s l -> 0 < p <= 14 -> 0 <= ctx < 460 -> R (ck_unary s p ctx) (l ++ unary_ops p ctx);
  csim_5ones : forall s l ctx, @ck_skip S sink = true -> R s l -> 0 <= ctx < 460 -> R (ck_5ones s ctx) (l ++ ones_ops ctx);
  csim_sign : forall s l b, @ck_skip S sink = true -> R s (l ++ [Op (Bypass 0)]) -> R s (l ++ [Op (Bypass b)]);
  csim_swap : forall s l e v b, @ck_skip S sink = true ->
    R s (l ++ [Op (Bypass 0); Op (UeBypass e v)]) -> R s (l ++ [Op (UeBypass e v); Op (Bypass b)])
}.

Definition c_writer : Type := forall S, CabacSink S -> S -> S.
Definition emits_ops (f : c_writer) (ops : list cop) : Prop :=
  forall S (sink : CabacSink S) (R : S -> list cop -> Prop), CabacSim sink R -> forall s l, R s l -> R (f S sink s) (l ++ ops).
Definition creads {A} (r : cparser A) (l : list bin) (v : A) : Prop := forall rest, run_bins r (l ++ rest) = Some (v, rest).
Definition cwrites {A} (f : c_writer) (r : cparser A) (v : A) : Prop :=
  exists ops, creads r (op_bin <$> ops) v /\ Forall op_ok ops /\ emits_ops f ops.

(** ** Parsers *)
Lemma run_bind {A B} (r : cparser A) (k : A -> cparser B) : forall l,
  run_bins (r ≫= k) l = match run_bins r l with Some (a, l) => run_bins (k a) l | None => None end.
Proof.
  unfold mbind, cparser_bind. induction r as [a| |c k0 IH|k0 IH|e k0 IH|k0 IH]; intros l; cbn.
  - by destruct l.
  - by destruct l.
  - destruct l as [|[c' b|b|e v|] l]; try done. by destruct (c =? c').
  - by destruct l as [|[c' b|b|e v|] l].
  - destruct l as [|[c' b|b|e' v|] l]; try done. by destruct (e =? e').
  - by destruct l as [|[c' b|b|e v|] l].
Qed.
Lemma run_ret {A} (a : A) l : run_bins (mret a) l = Some (a, l).
Proof. by destruct l. Qed.

Lemma creads_ret {A} (a : A) : creads (mret a) [] a.
Proof. intros rest. apply run_ret. Qed.
Lemma creads_bind {A B} (r : cparser A) (k : A -> cparser B) l1 l2 a b :
  creads r l1 a -> creads (k a) l2 b -> creads (r ≫= k) (l1 ++ l2) b.
Proof. intros H1 H2 rest. by rewrite run_bind, <- app_assoc, H1, H2. Qed.
Lemma creads_ext {A} (r r' : cparser A) l v : creads r l v -> (forall l, run_bins r' l = run_bins r l) -> creads r' l v.
Proof. intros H E rest. by rewrite E. Qed.
Lemma bind_assoc {A B C} (r : cparser A) (f : A -> cparser B) (g : B -> cparser C) l :
  run_bins ((r ≫= f) ≫= g) l = run_bins (r ≫= fun a => f a ≫= g) l.
Proof. rewrite !run_bind. destruct (run_bins r l) as [[a l']|]; [by rewrite run_bind|done]. Qed.

(** The values of the bins of a list are those the arithmetic decoder returns. *)
Lemma run_dec_bins {A} (r : cparser A) : forall l v l' d0 d d', run_bins r l = Some (v, l') ->
  dec_bins l d0 = Some (bin_val <$> l, d') -> d = d0 ->
  exists d1, run_dec r d = Some (v, d1) /\ dec_bins l' d1 = Some (bin_val <$> l', d').
Proof.
  assert (forall x l d0 d', dec_bins (x :: l) d0 = Some (bin_val <$> x :: l, d') ->
    exists d1, dec_bin x d0 = Some (bin_val x, d1) /\ dec_bins l d1 = Some (bin_val <$> l, d')) as step.
  { intros x l d0 d' H. cbn [dec_bins] in H. destruct (dec_bin x d0) as [[v1 d1]|]; [|done].
    destruct (dec_bins l d1) as [[vs d2]|] eqn:E; [|done]. injection H as <- E2 <-. exists d1. split; [done|]. rewrite E. do 2 f_equal. exact E2. }
  induction r as [a| |c k IH|k IH|e k IH|k IH]; intros l v l' d0 d d' H HD ->.
  - exists d0. rewrite run_ret in H. injection H as <- <-. done.
  - by destruct l.
  - destruct l as [|[c' b|b|e' v'|] l]; try done. cbn [run_bins] in H. destruct (Z.eqb_spec c c') as [->|]; [|done].
    destruct (step _ _ _ _ HD) as (d1 & E1 & E2). cbn [dec_bin bin_val] in E1. cbn [run_dec]. rewrite E1. cbn. by eapply IH.
  - destruct l as [|[c' b|b|e' v'|] l]; try done. cbn [run_bins] in H.
    destruct (step _ _ _ _ HD) as (d1 & E1 & E2). cbn [dec_bin bin_val] in E1. cbn [run_dec]. destruct (dec_bypass d0) as [[b' d2]|]; [|done].
    injection E1 as E1 <-. cbn. rewrite E1. by eapply IH.
  - destruct l as [|[c' b|b|e' v'|] l]; try done. cbn [run_bins] in H. destruct (Z.eqb_spec e e') as [->|]; [|done].
    destruct (step _ _ _ _ HD) as (d1 & E1 & E2). cbn [dec_bin bin_val] in E1. cbn [run_dec]. rewrite E1. cbn. by eapply IH.
  - destruct l as [|[c' b|b|e' v'|] l]; try done. cbn [run_bins] in H.
    destruct (step _ _ _ _ HD) as (d1 & E1 & E2). cbn [dec_bin bin_val] in E1. cbn [run_dec]. rewrite E1. cbn. by eapply IH.
Qed.

(** ** Writers *)
Lemma emits_nil : emits_ops (fun S sink s => s) [].
Proof. intros S sink R sim s l H. by rewrite app_nil_r. Qed.
Lemma emits_app f g o1 o2 : emits_ops f o1 -> emits_ops g o2 -> emits_ops (fun S sink => f S sink ;> g S sink) (o1 ++ o2).
Proof. intros H1 H2 S sink R sim s l H. rewrite app_assoc. apply (H2 S sink R sim), (H1 S sink R sim), H. Qed.
Lemma emits_op o : op_ok o -> emits_ops (fun S sink s => put_op s o) [o].
Proof. intros Ho S sink R sim s l H. by apply csim_op. Qed.
Lemma emits_ops_all ops : Forall op_ok ops -> emits_ops (fun S sink s => put_ops s ops) ops.
Proof.
  intros H S sink R sim. unfold put_ops. induction H as [|o ops Ho _ IH]; intros s l HR; [by rewrite app_nil_r|].
  replace (l ++ o :: ops) with ((l ++ [o]) ++ ops) by by rewrite <- app_assoc. cbn [fold_left]. apply IH. by apply csim_op.
Qed.

Lemma cwrites_skip {A} (v : A) : cwrites (fun S sink s => s) (mret v) v.
Proof. exists []. split; [apply creads_ret|]. split; [constructor|apply emits_nil]. Qed.

Lemma cwrites_seq {A B} f g (r : cparser A) (k : A -> cparser B) a b :
  cwrites f r a -> cwrites g (k a) b -> cwrites (fun S sink => f S sink ;> g S sink) (r ≫= k) b.
Proof.
  intros (o1 & R1 & F1 & E1) (o2 & R2 & F2 & E2). exists (o1 ++ o2). split; [|split; [by apply Forall_app|by apply emits_app]].
  rewrite fmap_app. by eapply creads_bind.
Qed.
(** A step of the parser that reads nothing. *)
Lemma cwrites_inferred {A B} f (r : cparser A) (k : A -> cparser B) a b :
  (forall l, run_bins r l = Some (a, l)) -> cwrites f (k a) b -> cwrites f (r ≫= k) b.
Proof. intros E (o & R & F & H). exists o. split; [|done]. intros rest. by rewrite run_bind, E. Qed.
(** The last element of a structure. *)
Lemma cwrites_last {A B} f (r : cparser A) (k : A -> cparser B) a b :
  cwrites f r a -> (forall l, run_bins (k a) l = Some (b, l)) -> cwrites f (r ≫= k) b.
Proof. intros (o & R & F & H) E. exists o. split; [|done]. intros rest. by rewrite run_bind, R, E. Qed.
Lemma cwrites_ext {A} f (r r' : cparser A) v : cwrites f r v -> (forall l, run_bins r' l = run_bins r l) -> cwrites f r' v.
Proof. intros (o & R & F & H) E. exists o. split; [by eapply creads_ext|done]. Qed.
Lemma cwrites_same {A} f g (r : cparser A) v : cwrites g r v -> (forall S (sink : CabacSink S) s, f S sink s = g S sink s) -> cwrites f r v.
Proof. intros (o & R & F & H) E. exists o. split; [done|]. split; [done|]. intros S sink R0 sim s l HR. rewrite E. by apply H. Qed.
Lemma cwrites_when {A} (b : bool) f (r : cparser A) d v :
  (b = true -> cwrites f r v) -> (b = false -> v = d) -> cwrites (fun S sink => when b (f S sink)) (cwhen b r d) v.
Proof. destruct b; intros H1 H2; [by apply H1|]. rewrite H2 by done. apply cwrites_skip. Qed.
Lemma cwrites_each {A B} (f : A -> c_writer) (r : A -> cparser B) (g : A -> B) l :
  Forall (fun x => cwrites (f x) (r x) (g x)) l -> cwrites (fun S sink => each (fun x => f x S sink) l) (ceach r l) (g <$> l).
Proof.
  induction 1 as [|x l Hx _ IH]; [apply cwrites_skip|]. cbn [ceach fmap list_fmap].
  apply (cwrites_seq (f x) (fun S sink => each (fun x => f x S sink) l) _ _ _ _ Hx). eapply cwrites_last; [exact IH|]. apply run_ret.
Qed.

Lemma cwrites_op {A} o (r : cparser A) v : op_ok o -> creads r [op_bin o] v -> cwrites (fun S sink s => put_op s o) r v.
Proof. intros Ho Hr. exists [o]. split; [done|]. split; [by constructor|by apply emits_op]. Qed.
Lemma creads_decision ctx b : creads (decision ctx) [Decision ctx b] b.
Proof. intros rest. cbn. by rewrite Z.eqb_refl. Qed.

Definition ctx_ok (ctx : Z) : Prop := 0 <= ctx < 460.
Definition is_bit (b : Z) : Prop := b = 0 \/ b = 1.
Lemma cwrites_dec ctx b : ctx_ok ctx -> is_bit b -> cwrites (fun S sink s => ck_decision s ctx b) (decision ctx) b.
Proof. intros H1 H2. apply (cwrites_op (Dec ctx b)); [done|apply creads_decision]. Qed.
Lemma cwrites_noup ctx b : ctx_ok ctx -> is_bit b -> cwrites (fun S sink s => ck_decision_noup s ctx b) (decision ctx) b.
Proof. intros H1 H2. apply (cwrites_op (Noup ctx b)); [done|apply creads_decision]. Qed.
Lemma cwrites_bypass b : is_bit b -> cwrites (fun S sink s => ck_bypass s b) bypass b.
Proof. intros H. by apply (cwrites_op (Op (Bypass b))). Qed.
Lemma cwrites_escape e v : 0 <= e <= 15 -> 0 <= v < 2 ^ 15 -> cwrites (fun S sink s => ck_ue_bypass s e v) (escape e) v.
Proof. intros H1 H2. apply (cwrites_op (Op (UeBypass e v))); [done|]. intros rest. cbn. by rewrite Z.eqb_refl. Qed.

(** A fixed sequence of operations. *)
Lemma cwrites_ops {A} f ops (r : cparser A) v :
  (forall S (sink : CabacSink S) s, f S sink s = put_ops s ops) -> Forall op_ok ops -> creads r (op_bin <$> ops) v -> cwrites f r v.
Proof. intros E F Hr. exists ops. split; [done|]. split; [done|]. intros S sink R sim s l H. rewrite E. by apply emits_ops_all. Qed.

Lemma b2i_bit b : is_bit (b2i b).
Proof. destruct b; [by right|by left]. Qed.
#[export] Hint Resolve b2i_bit : cint.
Lemma bit_0 : is_bit 0.
Proof. by left. Qed.
Lemma bit_1 : is_bit 1.
Proof. by right. Qed.
Lemma dec_ok ctx b : ctx_ok ctx -> is_bit b -> op_ok (Dec ctx b).
Proof. done. Qed.
Lemma noup_ok ctx b : ctx_ok ctx -> is_bit b -> op_ok (Noup ctx b).
Proof. done. Qed.
Lemma terminal_ok : op_ok (Op Terminal).
Proof. done. Qed.
Lemma bypass_ok b : is_bit b -> op_ok (Op (Bypass b)).
Proof. done. Qed.
Lemma ctx_ok_range ctx : 0 <= ctx < 460 -> ctx_ok ctx.
Proof. done. Qed.
#[export] Hint Resolve bit_0 bit_1 dec_ok noup_ok terminal_ok bypass_ok : cint.
#[export] Hint Extern 3 (ctx_ok _) => (apply ctx_ok_range; lia) : cint.
Ltac ctxs_ok := repeat (apply Forall_cons_2; [apply ctx_ok_range; lia|]); apply Forall_nil_2.
Ltac ops_ok := repeat first [apply Forall_nil_2 | apply Forall_cons_2]; auto with cint.
(** Running a parser on explicit bins. *)
Ltac run_bins_step := repeat first [rewrite Z.eqb_refl | progress cbn].
(** The same, leaving arithmetic as it is. *)
Ltac run_bins_soft := repeat first [rewrite Z.eqb_refl |
  progress cbn [run_bins mbind cparser_bind cbind mret cparser_ret decision flag bypass escape op_bin fmap list_fmap app Dec Z.eqb Pos.eqb negb b2i]].

(** ** Unary codes *)
Definition unary_code (ctx : Z -> Z) (lo n : Z) : list cop := (fun i => Dec (ctx i) 1) <$> seqZ lo n.

Lemma unary_code_S ctx lo n : 0 <= n -> unary_code ctx lo (n + 1) = unary_code ctx lo n ++ [Dec (ctx (lo + n)) 1].
Proof. intros Hn. unfold unary_code. rewrite seqZ_app by lia. by rewrite fmap_app. Qed.
Lemma unary_code_cons ctx lo n : 0 < n -> unary_code ctx lo n = Dec (ctx lo) 1 :: unary_code ctx (lo + 1) (n - 1).
Proof. intros Hn. unfold unary_code. rewrite seqZ_cons by lia. cbn [fmap list_fmap]. do 3 f_equal; lia. Qed.
Lemma unary_code_ok ctx lo n : (forall i, lo <= i < lo + n -> ctx_ok (ctx i)) -> Forall op_ok (unary_code ctx lo n).
Proof. intros H. apply list.Forall_fmap, list.Forall_forall. intros i Hi%elem_of_seqZ. apply dec_ok; [by apply H|by right]. Qed.
Lemma put_ops_app {S} {sink : CabacSink S} (s : S) l1 l2 : put_ops s (l1 ++ l2) = put_ops (put_ops s l1) l2.
Proof. apply fold_left_app. Qed.

(** A loop that writes ones and moves from context to context. *)
Lemma unary_loop {S} {sink : CabacSink S} base next (c : Z -> Z) n (s : S) : (forall i, 0 <= i < Z.of_nat n -> next (c i) = c (i + 1)) ->
  for_ n 0 (fun _ '(x, s) => (next x, ck_decision s (base + x) 1)) (c 0, s) =
  (c (Z.of_nat n), put_ops s (unary_code (fun i => base + c i) 0 (Z.of_nat n))).
Proof.
  intros Hn. apply (for_inv (fun i st => st = (c i, put_ops s (unary_code (fun i => base + c i) 0 i))) n 0); [done|].
  intros i st Hi ->. cbn beta iota. rewrite Hn by lia. rewrite unary_code_S by lia. by rewrite put_ops_app.
Qed.

(** A loop that writes ones. *)
Lemma ones_loop {S} {sink : CabacSink S} (ctx : Z -> Z) n lo (s : S) :
  for_ n lo (fun i s => ck_decision s (ctx i) 1) s = put_ops s (unary_code ctx lo (Z.of_nat n)).
Proof.
  pose proof (for_inv (fun i st => st = put_ops s (unary_code ctx lo (i - lo))) n lo (fun i s => ck_decision s (ctx i) 1) s) as H.
  cbv beta in H. rewrite H; [f_equal; f_equal; lia| |].
  - by rewrite Z.sub_diag.
  - intros i st Hi ->. replace (i + 1 - lo) with (i - lo + 1) by lia. rewrite unary_code_S by lia. rewrite put_ops_app.
    cbn [put_ops fold_left put_op Dec]. do 2 f_equal. lia.
Qed.

Lemma read_unary_code ctx rest n : forall fuel i v, 0 <= i -> v = i + Z.of_nat n -> (n < fuel)%nat ->
  run_bins (read_unary fuel ctx i) ((op_bin <$> unary_code ctx i (Z.of_nat n) ++ [Dec (ctx v) 0]) ++ rest) = Some (v, rest).
Proof.
  induction n as [|n IH]; intros fuel i v Hi Hv Hf; (destruct fuel as [|fuel]; [lia|]).
  - replace v with i by lia. change (unary_code ctx i (Z.of_nat 0)) with (@nil cop). run_bins_soft. cbn [read_unary]. run_bins_soft. done.
  - rewrite unary_code_cons by lia. replace (Z.of_nat (S n) - 1) with (Z.of_nat n) by lia.
    cbn [app fmap list_fmap Dec op_bin read_unary mbind cparser_bind cbind decision run_bins]. rewrite Z.eqb_refl. cbn [Z.eqb]. apply IH; lia.
Qed.

(** Truncated unary: the value is below its maximum, or there is no closing zero. *)
Lemma read_tu_code ctx rest n : forall m i v, 0 <= i -> v = i + Z.of_nat n -> (n <= m)%nat ->
  run_bins (read_tu m ctx i) ((op_bin <$> unary_code ctx i (Z.of_nat n) ++ (if (n <? m)%nat then [Dec (ctx v) 0] else [])) ++ rest) = Some (v, rest).
Proof.
  induction n as [|n IH]; intros m i v Hi Hv Hm.
  - replace v with i by lia. change (unary_code ctx i (Z.of_nat 0)) with (@nil cop). destruct m as [|m]; [apply run_ret|].
    cbn [Nat.ltb Nat.leb read_tu]. run_bins_soft. done.
  - destruct m as [|m]; [lia|]. rewrite unary_code_cons by lia. replace (Z.of_nat (S n) - 1) with (Z.of_nat n) by lia.
    cbn [app fmap list_fmap Dec op_bin read_tu mbind cparser_bind cbind decision run_bins]. rewrite Z.eqb_refl. cbn [Z.eqb].
    change (S n <? S m)%nat with (n <? m)%nat. apply IH; lia.
Qed.
