(* ===== verification/CabacElements.v ===== *)
(** * Syntax elements in CABAC, written and read back

    The elements of a macroblock other than references, motion vectors and residual. *)
From S2P Require Import Prelude Syntax Mb MbLayer Cavlc CavlcMb MbRoundtrip Predict CabacTables Cabac CabacMb CabacLayer CabacCodes.

(** ** What the decoder knows *)

(** CABAC has no macroblock type for references that are all 0. *)
Definition cabac_kind (h : x264_t) : mb_kind := if i_type h =? P_8x8 then K_P8x8 false else kind_seen h.

Definition neighbour_of (h : x264_t) (k : cabac_mb) (xy : Z) : neighbour :=
  let t := mb_type h xy in
  Neighbour (IS_SKIP t) (t =? B_DIRECT) (t =? I_4x4) (t =? I_PCM) (IS_INTRA t) (mb_chroma_pred_mode k xy) (mb_cbp k xy .& 0x3f)
    (i2b (mb_transform_size k xy)) (fun i => Z.testbit (mb_cbp k xy) (8 + i)).
Definition has_left (k : cabac_mb) : bool := i2b (i_neighbour k .& MB_LEFT).
Definition has_top (k : cabac_mb) : bool := i2b (i_neighbour k .& MB_TOP).
Definition left_of (h : x264_t) (k : cabac_mb) : option neighbour := if has_left k then Some (neighbour_of h k (i_mb_xy h - 1)) else None.
Definition top_of (h : x264_t) (k : cabac_mb) : option neighbour := if has_top k then Some (neighbour_of h k (i_mb_top_xy k)) else None.

Definition prev_delta (h : x264_t) (k : cabac_mb) : bool :=
  i2b (i_last_dqp k) && ((mb_type h (i_mb_prev_xy k) =? I_16x16) || i2b (mb_cbp k (i_mb_prev_xy k) .& 0x3f)).
Definition ref_gt0 (h : x264_t) (k : cabac_mb) (l q : Z) : bool := (cache_ref h l q >? 0) && (cache_skip k q =? 0).
Definition cabac_context_of (h : x264_t) (k : cabac_mb) : cabac_context :=
  CabacContext (sh_i_type h) (b_transform_8x8_mode h) (b_direct8x8_inference h) (i_fref h) (field_flag_present h)
    (i_neighbour_interlaced k) (i2b (b_interlaced h)) (i_last_qp h) (left_of h k) (top_of h k) (prev_delta h k)
    (cache_mvd k) (ref_gt0 h k) (fun q => if existsb (Z.eqb q) current_blocks then false else negb (non_zero_count h q =? 0)).

(** What [x264_macroblock_cache_load] and [x264_macroblock_cache_save] establish about a
    neighbour. *)
Record saved_ok (h : x264_t) (k : cabac_mb) (xy : Z) : Prop := {
  s_xy : 0 <= xy;
  s_type : 0 <= mb_type h xy <= B_SKIP /\ mb_type h xy <> I_8x8;
  s_slice : sh_i_type h = SLICE_TYPE_B -> mb_type h xy <> P_SKIP;
  s_cbp : 0 <= mb_cbp k xy /\ (mb_cbp k xy .& 0x3f) / 16 <= 2;
  s_pcm : mb_type h xy = I_PCM -> mb_cbp k xy = 0x72f;
  s_skip : IS_SKIP (mb_type h xy) = true -> mb_cbp k xy .& 0x3f = 0;
  s_chroma_mode : mb_chroma_pred_mode k xy <> 0 -> IS_INTRA (mb_type h xy) = true /\ mb_type h xy <> I_PCM
}.
Record loaded_ok (h : x264_t) (k : cabac_mb) : Prop := {
  l_xy : 0 <= i_mb_xy h;
  l_left : if has_left k then saved_ok h k (i_mb_xy h - 1) /\ i_mb_type_left k = mb_type h (i_mb_xy h - 1) else i_mb_type_left k < 0;
  l_top : if has_top k then saved_ok h k (i_mb_top_xy k) /\ i_mb_type_top k = mb_type h (i_mb_top_xy k) else i_mb_type_top k < 0;
  l_transform : i_neighbour_transform_size k =
    b2i (has_left k && i2b (mb_transform_size k (i_mb_xy h - 1))) + b2i (has_top k && i2b (mb_transform_size k (i_mb_top_xy k)));
  l_interlaced : 0 <= i_neighbour_interlaced k <= 2;
  l_prev : saved_ok h k (i_mb_prev_xy k) \/ i_last_dqp k = 0
}.

(** ** Macroblock type *)
Lemma tbl_bit_ok l i : forallb (fun v => (v =? 0) || (v =? 1)) l = true -> is_bit (tbl l i).
Proof.
  intros H. unfold tbl. rewrite forallb_forall in H. destruct (nth_in_or_default (Z.to_nat i) l 0) as [Hin|E]; [|rewrite E; by left].
  apply H, orb_prop in Hin. unfold is_bit. lia.
Qed.

Lemma pred16_range h : 0 <= i_intra16x16_pred_mode h <= 6 -> 0 <= tbl x264_mb_pred_mode16x16_fix (i_intra16x16_pred_mode h) <= 3.
Proof.
  intros H. assert (all_range 0 7 (fun p => (0 <=? tbl x264_mb_pred_mode16x16_fix p) && (tbl x264_mb_pred_mode16x16_fix p <=? 3)) = true) as C by (vm_compute; reflexivity).
  eapply all_range_spec with (i := i_intra16x16_pred_mode h) in C; [|lia]. cbv beta in C. lia.
Qed.

Lemma cwrites_type_intra h c0 c1 c2 c3 c4 c5 : mb_ok h -> IS_INTRA (i_type h) = true ->
  Forall ctx_ok [c0; c1; c2; c3; c4; c5] ->
  cwrites (fun S sink => x264_cabac_mb_type_intra h (i_type h) c0 c1 c2 c3 c4 c5)
    (read_i_type c0 (read_16x16 c1 c2 c3 c4 c5)) (cabac_kind h).
Proof.
  intros ok Hi Hc. pose proof (not_pcm h ok) as Hp. rewrite !list.Forall_cons in Hc. destruct Hc as (? & ? & ? & ? & ? & ? & _).
  unfold x264_cabac_mb_type_intra, cabac_kind, kind_seen.
  destruct ((i_type h =? I_4x4) || (i_type h =? I_8x8)) eqn:E1.
  { replace (i_type h =? P_8x8) with false by (unfold P_8x8, I_4x4, I_8x8 in *; lia).
    apply (cwrites_op (Noup c0 0)); [auto with cint|]. intros rest. by run_bins_step. }
  assert (i_type h = I_16x16) as E.
  { unfold IS_INTRA in Hi. rewrite E1 in Hi. cbn [orb] in Hi. apply orb_prop in Hi as [Hi|Hi]; [lia|]. exfalso. lia. }
  rewrite E. cbn [Z.eqb Pos.eqb I_16x16 I_4x4 I_8x8 I_PCM P_8x8 orb].
  destruct (o_cbp _ ok) as (C1 & C2 & C3). specialize (C3 E). pose proof (pred16_range h (proj1 (o_intra _ ok))) as Hm.
  set (m := tbl x264_mb_pred_mode16x16_fix _) in *.
  assert (m >> 1 = m / 2 /\ m .& 1 = m mod 2) as [-> ->].
  { split; [by rewrite Z.shiftr_div_pow2|]. change 1 with (Z.ones 1). by rewrite Z.land_ones. }
  assert (is_bit (m / 2) /\ is_bit (m mod 2) /\ 2 * (m / 2) + m mod 2 = m) as (M1 & M2 & M3) by (unfold is_bit; Z.to_euclidean_division_equations; lia).
  set (lum := i2b (i_cbp_luma h)).
  assert (i_cbp_luma h = if b2i lum =? 0 then 0 else 15) as EL by (unfold lum; destruct C3 as [-> | ->]; done).
  assert (i_cbp_chroma h = 0 \/ i_cbp_chroma h = 1 \/ i_cbp_chroma h = 2) as C4 by lia.
  destruct C4 as [E2|[E2|E2]]; rewrite E2; cbn [Z.eqb Pos.eqb negb b2i].
  - apply (cwrites_ops _ [Noup c0 1; Op Terminal; Noup c1 (b2i lum); Noup c2 0; Dec c4 (m / 2); Noup c5 (m mod 2)]); [done| |].
    + ops_ok.
    + intros rest. unfold read_i_type, read_16x16. run_bins_soft. rewrite M3, EL. done.
  - apply (cwrites_ops _ [Noup c0 1; Op Terminal; Noup c1 (b2i lum); Dec c2 1; Noup c3 0; Dec c4 (m / 2); Noup c5 (m mod 2)]); [done| |].
    + ops_ok.
    + intros rest. unfold read_i_type, read_16x16. run_bins_soft. rewrite M3, EL. done.
  - apply (cwrites_ops _ [Noup c0 1; Op Terminal; Noup c1 (b2i lum); Dec c2 1; Noup c3 1; Dec c4 (m / 2); Noup c5 (m mod 2)]); [done| |].
    + ops_ok.
    + intros rest. unfold read_i_type, read_16x16. run_bins_soft. rewrite M3, EL. done.
Qed.

Lemma ctx_inc h k f g : loaded_ok h k ->
  (forall xy, saved_ok h k xy -> f (mb_type h xy) = g (neighbour_of h k xy)) ->
  b2i ((i_mb_type_left k >=? 0) && f (i_mb_type_left k)) + b2i ((i_mb_type_top k >=? 0) && f (i_mb_type_top k)) =
  inc (cabac_context_of h k) g.
Proof.
  intros L E. unfold inc. cbn [cabac_context_of k_left k_top]. unfold left_of, top_of. pose proof (l_left h k L) as H1. pose proof (l_top h k L) as H2.
  f_equal.
  - destruct (has_left k); cbn [cond]; [|replace (i_mb_type_left k >=? 0) with false by lia; done].
    destruct H1 as [Hs ->]. destruct (s_type _ _ _ Hs). replace (mb_type h (i_mb_xy h - 1) >=? 0) with true by lia. cbn [andb]. by rewrite (E _ Hs).
  - destruct (has_top k); cbn [cond]; [|replace (i_mb_type_top k >=? 0) with false by lia; done].
    destruct H2 as [Hs ->]. destruct (s_type _ _ _ Hs). replace (mb_type h (i_mb_top_xy k) >=? 0) with true by lia. cbn [andb]. by rewrite (E _ Hs).
Qed.

Lemma cond_range n f : 0 <= cond n f <= 1.
Proof. unfold cond. destruct n; [destruct (f _)|]; cbn; lia. Qed.
Lemma inc_range c f : 0 <= inc c f <= 2.
Proof. unfold inc. pose proof (cond_range (k_left c) f). pose proof (cond_range (k_top c) f). lia. Qed.

Lemma cwrites_type_p h : mb_ok h -> sh_i_type h = SLICE_TYPE_P ->
  cwrites (fun S sink => mb_type_p h) read_p_type (cabac_kind h).
Proof.
  intros ok Hs. destruct (o_type _ ok) as [[Ht _]|[[Ht _]|[_ Hb]]]; [| |by rewrite Hs in Hb].
  - assert (IS_INTRA (i_type h) = true /\ (i_type h =? P_L0) = false /\ (i_type h =? P_8x8) = false) as (Hi & E1 & E2)
      by (destruct Ht as [<-|[<-|[<-|[]]]]; done).
    unfold mb_type_p. rewrite E1, E2. unfold read_p_type. eapply (cwrites_seq (fun S sink s => ck_decision_noup s 14 1)).
    + by apply cwrites_noup; [apply ctx_ok_range; lia|right].
    + cbv beta. cbn [Z.eqb Pos.eqb]. apply cwrites_type_intra; [done|done|ctxs_ok].
  - destruct Ht as [Ht|[Ht|[]]].
    + assert (kind_seen h = K_Inter (shape_seen h) (lists_seen h)) as EK by (unfold kind_seen; by rewrite <- Ht).
      unfold mb_type_p, cabac_kind. rewrite EK. rewrite <- Ht. cbn [Z.eqb Pos.eqb P_L0 P_8x8].
      unfold shape_seen, lists_seen. rewrite <- Ht.
      destruct (o_partition _ ok ltac:(left; symmetry; exact Ht)) as [[Hp|[Hp|[]]]|[Hp _]]; [rewrite <- Hp|rewrite <- Hp|rewrite Hp]; cbn [Z.eqb Pos.eqb D_16x16 D_16x8 D_8x16].
      * apply (cwrites_ops _ [Noup 14 0; Noup 15 1; Noup 17 1]); [done|ops_ok|intros rest; by run_bins_step].
      * apply (cwrites_ops _ [Noup 14 0; Noup 15 1; Noup 17 0]); [done|ops_ok|intros rest; by run_bins_step].
      * apply (cwrites_ops _ [Noup 14 0; Noup 15 0; Noup 16 0]); [done|ops_ok|intros rest; by run_bins_step].
    + unfold mb_type_p, cabac_kind. rewrite <- Ht. cbn [Z.eqb Pos.eqb P_L0 P_8x8].
      apply (cwrites_ops _ [Noup 14 0; Noup 15 0; Noup 16 1]); [done|ops_ok|intros rest; by run_bins_step].
Qed.

(** The operations of a B type of table [i_mb_bits]. *)
Definition b_type_ops (ctx idx : Z) : list cop :=
  [Noup (27 + ctx) (tbl2 i_mb_bits idx 0); Noup (27 + 3) (tbl2 i_mb_bits idx 1);
   Dec (27 + 5 - tbl2 i_mb_bits idx 1) (tbl2 i_mb_bits idx 2)] ++
  ((fun i => Dec (27 + 5) (tbl2 i_mb_bits idx i)) <$> seqZ 3 (tbl i_mb_len idx - 3)).

Lemma b_type_ops_ok ctx idx : 0 <= ctx <= 2 -> Forall op_ok (b_type_ops ctx idx).
Proof.
  intros Hc. assert (forall i, is_bit (tbl2 i_mb_bits idx i)) as B.
  { intros i. unfold tbl2. apply tbl_bit_ok. destruct (nth_in_or_default (Z.to_nat idx) i_mb_bits []) as [Hin|E]; [|by rewrite E].
    assert (forallb (forallb (fun v => (v =? 0) || (v =? 1))) i_mb_bits = true) as C by reflexivity. rewrite forallb_forall in C. by apply C. }
  unfold b_type_ops. apply Forall_app. split.
  - ops_ok. apply dec_ok; auto with cint. destruct (B 1) as [-> | ->]; auto with cint.
  - apply list.Forall_fmap, list.Forall_forall. intros i _. apply dec_ok; auto with cint.
Qed.

Lemma b_types h : mb_ok h -> B_DIRECT < i_type h < B_8x8 ->
  exists t p, In (t, p) (list_prod [8; 9; 10; 11; 12; 13; 14; 15; 16] [14; 15] ++ [(8, 16); (12, 16); (16, 16)]) /\ i_type h = t /\ i_partition h = p.
Proof.
  intros ok Ht. exists (i_type h), (i_partition h). split; [|done]. unfold B_DIRECT, B_8x8 in Ht.
  assert (i_type h = 8 \/ i_type h = 9 \/ i_type h = 10 \/ i_type h = 11 \/ i_type h = 12 \/ i_type h = 13 \/ i_type h = 14 \/ i_type h = 15 \/ i_type h = 16) as E by lia.
  apply in_app_iff. destruct (o_partition _ ok ltac:(by right)) as [Hp|[Hp Hq]].
  - left. apply in_prod; [cbn; intuition auto|]. destruct Hp as [<-|[<-|[]]]; cbn; auto.
  - right. rewrite Hp. cbn in Hq |- *. unfold P_L0, B_L0_L0, D_16x16 in *. destruct Hq as [Hq|[Hq|[Hq|[Hq|[]]]]]; rewrite <- Hq; auto.
    exfalso. lia.
Qed.

Lemma cwrites_type_b h ctx : mb_ok h -> sh_i_type h = SLICE_TYPE_B -> 0 <= ctx <= 2 ->
  cwrites (fun S sink => mb_type_b h ctx) (read_b_type ctx) (cabac_kind h).
Proof.
  intros ok Hs Hc. assert (ctx_ok (27 + ctx)) as H1 by (apply ctx_ok_range; lia).
  destruct (o_type _ ok) as [[Ht _]|[[_ Hb]|[Ht _]]]; [|by rewrite Hs in Hb|].
  - assert (IS_INTRA (i_type h) = true /\ (i_type h =? B_DIRECT) = false /\ (i_type h =? B_8x8) = false) as (Hi & E1 & E2)
      by (destruct Ht as [<-|[<-|[<-|[]]]]; done).
    unfold mb_type_b. rewrite E1, E2, Hi. unfold read_b_type.
    destruct (cwrites_type_intra h 32 33 34 34 35 35 ok Hi ltac:(ctxs_ok)) as (o & R & F & E).
    exists ([Noup (27 + ctx) 1; Noup 30 1; Noup 31 1; Dec 32 1; Dec 32 0; Dec 32 1] ++ o). split; [|split].
    + rewrite fmap_app. intros rest. rewrite <- app_assoc. specialize (R rest). unfold read_i_suffix. run_bins_step. exact R.
    + apply Forall_app. split; [|done]. ops_ok.
    + intros S sink R0 sim s l HR. rewrite app_assoc. apply (E S sink R0 sim).
      refine (emits_ops_all [Noup (27 + ctx) 1; Noup 30 1; Noup 31 1; Dec 32 1; Dec 32 0; Dec 32 1] _ S sink R0 sim s l HR). ops_ok.
  - destruct (Z.eq_dec (i_type h) B_DIRECT) as [E|E]; [|destruct (Z.eq_dec (i_type h) B_8x8) as [E'|E']].
    + unfold mb_type_b, cabac_kind, kind_seen. rewrite E. cbn [Z.eqb Pos.eqb B_DIRECT I_4x4 I_8x8 I_16x16 I_PCM P_8x8 B_8x8 orb].
      apply (cwrites_ops _ [Noup (27 + ctx) 0]); [done|ops_ok|intros rest; unfold read_b_type; by run_bins_step].
    + unfold mb_type_b, cabac_kind, kind_seen. rewrite E'. cbn [Z.eqb Pos.eqb B_DIRECT I_4x4 I_8x8 I_16x16 I_PCM P_8x8 B_8x8 orb].
      apply (cwrites_ops _ [Noup (27 + ctx) 1; Noup 30 1; Noup 31 1; Dec 32 1; Dec 32 1; Noup 32 1]); [done| |intros rest; unfold read_b_type; by run_bins_step].
      ops_ok.
    + destruct (b_types h ok ltac:(lia)) as (t & p & Hin & Et & Ep). clear E E' Ht.
      unfold mb_type_b, cabac_kind, kind_seen, shape_seen, lists_seen. rewrite Et, Ep.
      cbn [In list_prod map app] in Hin.
      repeat (destruct Hin as [[= <- <-]|Hin]; [cbn [Z.eqb Pos.eqb B_DIRECT I_4x4 I_8x8 I_16x16 I_PCM P_8x8 B_8x8 D_16x16 D_16x8 D_8x16 orb IS_INTRA];
        match goal with _ : i_type h = ?t, _ : i_partition h = ?p |- _ => apply (cwrites_ops _ (b_type_ops ctx ((t - B_L0_L0) * 3 + (p - D_16x8)))) end;
        [reflexivity|by apply b_type_ops_ok|intros rest; unfold read_b_type, b_type_ops; run_bins_step; reflexivity]|]). done.
Qed.

(** The type without the field flag. *)
Definition write_type (h : x264_t) (k : cabac_mb) : c_writer := fun S sink =>
  if sh_i_type h =? SLICE_TYPE_I then
    let ctx := b2i ((i_mb_type_left k >=? 0) && negb (i_mb_type_left k =? I_4x4)) +
               b2i ((i_mb_type_top k >=? 0) && negb (i_mb_type_top k =? I_4x4)) in
    x264_cabac_mb_type_intra h (i_type h) (3+ctx) (3+3) (3+4) (3+5) (3+6) (3+7)
  else if sh_i_type h =? SLICE_TYPE_P then mb_type_p h
  else if sh_i_type h =? SLICE_TYPE_B then
    let other t := (t >=? 0) && negb (t =? B_SKIP) && negb (t =? B_DIRECT) in
    mb_type_b h (b2i (other (i_mb_type_left k)) + b2i (other (i_mb_type_top k)))
  else fun s => s.

Lemma cwrites_type h k : mb_ok h -> loaded_ok h k -> cwrites (write_type h k) (read_mb_type (cabac_context_of h k)) (cabac_kind h).
Proof.
  intros ok L. unfold write_type, read_mb_type. cbn [cabac_context_of k_slice].
  assert (sh_i_type h = SLICE_TYPE_I \/ sh_i_type h = SLICE_TYPE_P \/ sh_i_type h = SLICE_TYPE_B) as [E|[E|E]].
  { destruct (o_type _ ok) as [[_ H]|[[_ H]|[_ H]]]; [|by right; left|by right; right].
    cbn in H. destruct H as [H|[H|[H|[]]]]; rewrite <- H; auto. }
  - rewrite E. cbn [Z.eqb Pos.eqb SLICE_TYPE_I].
    rewrite (ctx_inc h k (fun t => negb (t =? I_4x4)) (fun n => negb (n_nxn n)) L) by done.
    pose proof (inc_range (cabac_context_of h k) (fun n => negb (n_nxn n))).
    apply cwrites_type_intra; [done| |ctxs_ok].
    destruct (o_type _ ok) as [[Ht _]|[[_ H1]|[_ H1]]]; [|by rewrite E in H1..]. by destruct Ht as [<-|[<-|[<-|[]]]].
  - rewrite E. by apply cwrites_type_p.
  - rewrite E. cbn [Z.eqb Pos.eqb SLICE_TYPE_I SLICE_TYPE_P SLICE_TYPE_B]. cbv zeta. rewrite <- !andb_assoc.
    rewrite (ctx_inc h k (fun t => negb (t =? B_SKIP) && negb (t =? B_DIRECT)) (fun n => negb (n_skip n || n_direct n)) L).
    + apply cwrites_type_b; [done|done|apply inc_range].
    + intros xy Hs. cbn [neighbour_of n_skip n_direct]. unfold IS_SKIP. rewrite negb_orb. f_equal.
      destruct (Z.eqb_spec (mb_type h xy) P_SKIP) as [E1|E1]; [|done]. by destruct (s_slice _ _ _ Hs E).
Qed.

Lemma cwrites_skip_flag h k b : loaded_ok h k -> sh_i_type h = SLICE_TYPE_P \/ sh_i_type h = SLICE_TYPE_B ->
  cwrites (fun S sink => x264_cabac_mb_skip h k (b2i b)) (read_skip_flag (cabac_context_of h k)) (b2i b).
Proof.
  intros L Hs. unfold x264_cabac_mb_skip, read_skip_flag. cbn [cabac_context_of k_slice].
  rewrite (ctx_inc h k (fun t => negb (IS_SKIP t)) (fun n => negb (n_skip n)) L) by done.
  pose proof (inc_range (cabac_context_of h k) (fun n => negb (n_skip n))).
  rewrite (Z.add_comm (inc _ _)). apply cwrites_dec; [|apply b2i_bit]. destruct Hs as [-> | ->]; apply ctx_ok_range; cbn; lia.
Qed.

(** ** Intra modes *)
Lemma cwrites_mode h i : 0 <= x264_mb_predict_intra4x4_mode h i <= 8 -> 0 <= mode_at h i <= 8 ->
  cwrites (fun S sink => x264_cabac_mb_intra4x4_pred_mode (x264_mb_predict_intra4x4_mode h i) (mode_at h i)) read_mode_cabac (mode_code h i).
Proof.
  intros Hp Hm. unfold x264_cabac_mb_intra4x4_pred_mode, mode_code.
  set (pred := x264_mb_predict_intra4x4_mode h i) in *. set (mode := mode_at h i) in *.
  destruct (Z.eqb_spec pred mode) as [E|E].
  - apply (cwrites_op (Dec 68 1)); [auto with cint|]. intros rest. by run_bins_step.
  - replace (if mode >? pred then mode - 1 else mode) with (mode - b2i (mode >? pred)) by (destruct (mode >? pred); cbn; lia).
    set (v := mode - b2i (mode >? pred)).
    assert (0 <= v < 8) as Hv by (unfold v; destruct (Z.gtb_spec mode pred); cbn [b2i]; lia).
    clearbody v. assert (In v [0; 1; 2; 3; 4; 5; 6; 7]) as Hin by (cbn; lia).
    apply (cwrites_ops _ [Dec 68 0; Dec 69 (v .& 1); Dec 69 ((v >> 1) .& 1); Dec 69 ((v >> 2) .& 1)]); [done| |].
    + cbn in Hin. repeat (destruct Hin as [<-|Hin]; [ops_ok|]). done.
    + cbn in Hin. repeat (destruct Hin as [<-|Hin]; [intros rest; by run_bins_step|]). done.
Qed.

Lemma read_tu_step n ctx i v rest : 0 <= i ->
  run_bins (read_tu (S n) ctx i) (Decision (ctx i) v :: rest) = if v =? 0 then Some (i, rest) else run_bins (read_tu n ctx (i + 1)) rest.
Proof. intros Hi. cbn. rewrite Z.eqb_refl. destruct (v =? 0); [apply run_ret|done]. Qed.

(** The condition on both neighbours for a test of the arrays of macroblocks. *)
Lemma neighbour_inc h k f g : loaded_ok h k -> (forall xy, saved_ok h k xy -> f xy = g (neighbour_of h k xy)) ->
  b2i (has_left k && f (i_mb_xy h - 1)) + b2i (has_top k && f (i_mb_top_xy k)) = inc (cabac_context_of h k) g.
Proof.
  intros L E. unfold inc. cbn [cabac_context_of k_left k_top]. unfold left_of, top_of. pose proof (l_left h k L) as H1. pose proof (l_top h k L) as H2.
  destruct (has_left k), (has_top k); cbn [cond andb b2i]; rewrite ?E; try done; (apply H1 || apply H2).
Qed.

Lemma cwrites_chroma_mode h k : mb_ok h -> loaded_ok h k ->
  cwrites (fun S sink => x264_cabac_mb_intra_chroma_pred_mode h k) (read_chroma_mode (cabac_context_of h k))
    (tbl x264_mb_pred_mode8x8c_fix (i_chroma_pred_mode h)).
Proof.
  intros ok L. unfold x264_cabac_mb_intra_chroma_pred_mode, read_chroma_mode. fold (has_left k). fold (has_top k).
  rewrite (neighbour_inc h k (fun xy => negb (mb_chroma_pred_mode k xy =? 0))
    (fun n => n_intra n && negb (n_pcm n) && negb (n_chroma_mode n =? 0)) L).
  2:{ intros xy Hs. cbn [neighbour_of n_intra n_pcm n_chroma_mode]. destruct (Z.eqb_spec (mb_chroma_pred_mode k xy) 0) as [E|E]; [by rewrite andb_false_r|].
    destruct (s_chroma_mode _ _ _ Hs E) as [-> Hp]. apply Z.eqb_neq in Hp as ->. done. }
  set (ci := inc _ _). assert (0 <= ci <= 2) by apply inc_range. clearbody ci.
  assert (In (i_chroma_pred_mode h) [0; 1; 2; 3; 4; 5; 6]) as Hin by (pose proof (proj2 (o_intra _ ok)); cbn; lia).
  cbn [In] in Hin. repeat (destruct Hin as [<-|Hin]; [
    cbn [tbl x264_mb_pred_mode8x8c_fix Z.to_nat Pos.to_nat Pos.iter_op nth Z.gtb Z.compare Pos.compare Pos.compare_cont when b2i Nat.add]|]); [..|done].
  - apply (cwrites_ops _ [Noup (64 + ci) 0]); [done|ops_ok|intros rest; by run_bins_step].
  - apply (cwrites_ops _ [Noup (64 + ci) 1; Dec 67 0]); [done|ops_ok|intros rest; by run_bins_step].
  - apply (cwrites_ops _ [Noup (64 + ci) 1; Dec 67 1; Noup 67 0]); [done|ops_ok|intros rest; by run_bins_step].
  - apply (cwrites_ops _ [Noup (64 + ci) 1; Dec 67 1; Noup 67 1]); [done|ops_ok|intros rest; by run_bins_step].
  - apply (cwrites_ops _ [Noup (64 + ci) 0]); [done|ops_ok|intros rest; by run_bins_step].
  - apply (cwrites_ops _ [Noup (64 + ci) 0]); [done|ops_ok|intros rest; by run_bins_step].
  - apply (cwrites_ops _ [Noup (64 + ci) 0]); [done|ops_ok|intros rest; by run_bins_step].
Qed.

Lemma cwrites_transform_flag h k : mb_ok h -> loaded_ok h k ->
  cwrites (fun S sink => x264_cabac_mb_transform_size h k) (read_transform_flag (cabac_context_of h k)) (i2b (b_transform_8x8 h)).
Proof.
  intros ok L. unfold x264_cabac_mb_transform_size, read_transform_flag. rewrite (l_transform h k L).
  rewrite (neighbour_inc h k (fun xy => i2b (mb_transform_size k xy)) n_transform_8x8 L) by done.
  pose proof (inc_range (cabac_context_of h k) n_transform_8x8).
  apply (cwrites_op (Noup (399 + inc (cabac_context_of h k) n_transform_8x8) (b_transform_8x8 h))).
  - apply noup_ok; [apply ctx_ok_range; lia|apply (o_transform _ ok)].
  - intros rest. unfold flag. by run_bins_step.
Qed.

(** ** Coded block pattern *)
Lemma land_1 x a : 0 <= a -> (x >> a) .& 1 = b2i (Z.testbit x a).
Proof. intros Ha. change 1 with (Z.ones 1). rewrite Z.land_ones, Z.shiftr_div_pow2 by lia. rewrite <- Z.testbit_spec' by lia. by destruct (Z.testbit x a). Qed.
Lemma land_2 x a : 0 <= a -> (x >> a) .& 2 = 2 * b2i (Z.testbit x (a + 1)).
Proof.
  intros Ha. apply Z.bits_inj'. intros i Hi. rewrite Z.land_spec, Z.shiftr_spec by lia.
  destruct (Z.eq_dec i 1) as [->|Hne].
  - rewrite (Z.add_comm 1). destruct (Z.testbit x (a + 1)); done.
  - replace (Z.testbit 2 i) with false by (symmetry; destruct (Z.eq_dec i 0) as [->|]; [done|]; apply (testbit_high 2 2 i); lia).
    rewrite andb_false_r. symmetry. destruct (Z.testbit x (a + 1)); cbn [b2i]; [|by rewrite Z.bits_0].
    destruct (Z.eq_dec i 0) as [->|]; [done|]. apply (testbit_high (2 * 1) 2 i); lia.
Qed.

(** A bit of a neighbour's pattern. *)
Lemma cbp_bit_cond h k avail xy i : 0 <= i < 4 -> (avail = true -> saved_ok h k xy) ->
  cond (if avail then Some (neighbour_of h k xy) else None) (fun n => negb (n_pcm n) && negb (Z.testbit (n_cbp n) i)) =
  1 - b2i (Z.testbit (if avail then mb_cbp k xy else -1) i).
Proof.
  intros Hi Hs. destruct avail; cbn [cond neighbour_of n_pcm n_cbp].
  - specialize (Hs eq_refl). rewrite Z.land_spec. change 0x3f with (Z.ones 6). rewrite Z.ones_spec_low by lia. rewrite andb_true_r.
    destruct (Z.eqb_spec (mb_type h xy) I_PCM) as [E|E]; cbn [negb andb].
    + rewrite (s_pcm _ _ _ Hs E). assert (i = 0 \/ i = 1 \/ i = 2 \/ i = 3) as [-> |[-> |[-> | ->]]] by lia; done.
    + by destruct (Z.testbit _ _).
  - rewrite Z.bits_m1 by lia. done.
Qed.

Lemma cbp_luma_ctx_ok h k acc i : loaded_ok h k -> 0 <= i < 4 ->
  let cbp_l := if has_left k then mb_cbp k (i_mb_xy h - 1) else -1 in
  let cbp_t := if has_top k then mb_cbp k (i_mb_top_xy k) else -1 in
  cbp_luma_ctx (cabac_context_of h k) acc i =
  76 - b2i (if Z.odd i then Z.testbit acc (i - 1) else Z.testbit cbp_l (i + 1)) - 2 * b2i (if 2 <=? i then Z.testbit acc (i - 2) else Z.testbit cbp_t (i + 2)).
Proof.
  intros L Hi. cbv zeta. unfold cbp_luma_ctx, cbp_luma_cond. cbn [cabac_context_of k_left k_top]. unfold left_of, top_of.
  pose proof (l_left h k L) as H1. pose proof (l_top h k L) as H2.
  assert (i = 0 \/ i = 1 \/ i = 2 \/ i = 3) as [-> |[-> |[-> | ->]]] by lia; cbn [Z.odd Z.leb Z.compare Pos.compare Pos.compare_cont];
    rewrite ?cbp_bit_cond by (first [lia | intros E; rewrite E in *; tauto]); repeat (match goal with |- context [b2i (negb ?b)] => destruct b; cbn [negb b2i] end); lia.
Qed.

Lemma cwrites_cbp_luma h k : mb_ok h -> loaded_ok h k ->
  cwrites (fun S sink => x264_cabac_mb_cbp_luma h k) (read_cbp_luma (cabac_context_of h k) (seqZ 0 4) 0) (i_cbp_luma h).
Proof.
  intros ok L. unfold x264_cabac_mb_cbp_luma. fold (has_left k). fold (has_top k).
  set (cbp_l := if has_left k then _ else _). set (cbp_t := if has_top k then _ else _).
  assert ((i_cbp_luma h << 1) .& 2 = 2 * b2i (Z.testbit (i_cbp_luma h) 0)) as E1.
  { replace (i_cbp_luma h << 1) with ((i_cbp_luma h << 1) >> 0) by apply Z.shiftr_0_r. rewrite land_2 by lia. do 2 f_equal. rewrite testbit_shiftl by lia. done. }
  destruct (o_cbp _ ok) as (C1 & _). set (cbp := i_cbp_luma h) in *.
  set (ops := [Dec (76 - b2i (Z.testbit cbp_l 1) - 2 * b2i (Z.testbit cbp_t 2)) (b2i (Z.testbit cbp 0));
    Dec (76 - b2i (Z.testbit cbp 0) - 2 * b2i (Z.testbit cbp_t 3)) (b2i (Z.testbit cbp 1));
    Dec (76 - b2i (Z.testbit cbp_l 3) - 2 * b2i (Z.testbit cbp 0)) (b2i (Z.testbit cbp 2));
    Noup (76 - b2i (Z.testbit cbp 2) - 2 * b2i (Z.testbit cbp 1)) (b2i (Z.testbit cbp 3))]).
  apply (cwrites_ops _ ops).
  - intros S sink s. unfold seq, ops. cbn [put_ops fold_left put_op Dec]. rewrite E1, !land_1, !land_2 by lia. done.
  - unfold ops. assert (forall a b : bool, ctx_ok (76 - b2i a - 2 * b2i b)) by (intros [] []; apply ctx_ok_range; cbn; lia). ops_ok.
  - assert (exists c, c = cabac_context_of h k) as (c & Ec) by eauto. pose proof (fun acc i => cbp_luma_ctx_ok h k acc i L) as H. cbv zeta in H.
    fold cbp_l cbp_t in H. rewrite <- Ec in H |- *. clear Ec. clearbody cbp_l cbp_t cbp. unfold ops.
    intros rest. change (seqZ 0 4) with [0; 1; 2; 3]. clear E1.
    assert (In cbp [0; 1; 2; 3; 4; 5; 6; 7; 8; 9; 10; 11; 12; 13; 14; 15]) as Hin by (cbn; lia). cbn [In] in Hin.
    repeat (destruct Hin as [<-|Hin]; [repeat first [rewrite H by lia | rewrite Z.eqb_refl | progress cbn]; done|]). done.
Qed.

Lemma cbp_chroma_bits x : (x >> 4) .& 3 = (x .& 0x3f) / 16.
Proof.
  change 3 with (Z.ones 2). change 0x3f with (Z.ones 6). rewrite !Z.land_ones, Z.shiftr_div_pow2 by lia.
  change (2 ^ 4) with 16. change (2 ^ 2) with 4. change (2 ^ 6) with 64. Z.to_euclidean_division_equations. lia.
Qed.

Lemma cbp_chroma_cond h k avail xy : (avail = true -> saved_ok h k xy) ->
  let n := if avail then Some (neighbour_of h k xy) else None in
  let cbp := if avail then (mb_cbp k xy >> 4) .& 0x3 else -1 in
  b2i (cbp >? 0) = cond n (fun n => n_pcm n || negb (n_skip n) && negb (n_cbp n / 16 =? 0)) /\
  b2i (cbp =? 2) = cond n (fun n => n_pcm n || negb (n_skip n) && (n_cbp n / 16 =? 2)).
Proof.
  intros Hs. destruct avail; cbv zeta; cbn [cond neighbour_of n_pcm n_cbp n_skip]; [|done]. specialize (Hs eq_refl).
  rewrite cbp_chroma_bits. destruct (Z.eqb_spec (mb_type h xy) I_PCM) as [E|E].
  - by rewrite (s_pcm _ _ _ Hs E).
  - destruct (IS_SKIP (mb_type h xy)) eqn:Es; [by rewrite (s_skip _ _ _ Hs Es)|]. cbn [orb negb andb].
    split; [|done]. f_equal. destruct (s_cbp _ _ _ Hs) as [H0 _].
    assert (0 <= (mb_cbp k xy .& 63) / 16) by (apply Z.div_pos; [apply Z.land_nonneg; lia|lia]).
    destruct (Z.gtb_spec ((mb_cbp k xy .& 63) / 16) 0), (Z.eqb_spec ((mb_cbp k xy .& 63) / 16) 0); done || lia.
Qed.

Lemma cwrites_cbp_chroma h k : mb_ok h -> loaded_ok h k ->
  cwrites (fun S sink => x264_cabac_mb_cbp_chroma h k) (read_tu 2 (cbp_chroma_ctx (cabac_context_of h k)) 0) (i_cbp_chroma h).
Proof.
  intros ok L. unfold x264_cabac_mb_cbp_chroma. fold (has_left k). fold (has_top k).
  destruct (cbp_chroma_cond h k (has_left k) (i_mb_xy h - 1)) as [A0 A1]; [intros E; pose proof (l_left h k L) as H; rewrite E in H; tauto|].
  destruct (cbp_chroma_cond h k (has_top k) (i_mb_top_xy k)) as [B0 B1]; [intros E; pose proof (l_top h k L) as H; rewrite E in H; tauto|].
  cbv zeta. rewrite A0, A1, B0, B1. fold (left_of h k) (top_of h k). clear A0 A1 B0 B1.
  assert (cbp_chroma_ctx (cabac_context_of h k) 0 = 77 + (cond (left_of h k) (fun n => n_pcm n || negb (n_skip n) && negb (n_cbp n / 16 =? 0)) +
    2 * cond (top_of h k) (fun n => n_pcm n || negb (n_skip n) && negb (n_cbp n / 16 =? 0)))) as <- by (unfold cbp_chroma_ctx; cbn [Z.eqb cabac_context_of k_left k_top]; lia).
  assert (cbp_chroma_ctx (cabac_context_of h k) 1 = 77 + (4 + cond (left_of h k) (fun n => n_pcm n || negb (n_skip n) && (n_cbp n / 16 =? 2)) +
    2 * cond (top_of h k) (fun n => n_pcm n || negb (n_skip n) && (n_cbp n / 16 =? 2)))) as <- by (unfold cbp_chroma_ctx; cbn [Z.eqb cabac_context_of k_left k_top]; lia).
  set (ctx := cbp_chroma_ctx _). assert (forall i, 0 <= i < 2 -> ctx_ok (ctx i)) as Hc.
  { intros i Hi. unfold ctx, cbp_chroma_ctx. apply ctx_ok_range. cbv zeta. set (f := fun n => _).
    pose proof (cond_range (k_left (cabac_context_of h k)) f). pose proof (cond_range (k_top (cabac_context_of h k)) f). destruct (i =? 0); lia. }
  clearbody ctx. pose proof (Hc 0 ltac:(lia)). pose proof (Hc 1 ltac:(lia)). destruct (o_cbp _ ok) as (_ & C2 & _).
  assert (i_cbp_chroma h = 0 \/ i_cbp_chroma h = 1 \/ i_cbp_chroma h = 2) as [-> |[-> | ->]] by lia; cbn [Z.eqb Z.gtb Z.compare Pos.compare Pos.compare_cont b2i].
  - apply (cwrites_ops _ [Noup (ctx 0) 0]); [done|ops_ok|intros rest; by run_bins_step].
  - apply (cwrites_ops _ [Noup (ctx 0) 1; Noup (ctx 1) 0]); [done|ops_ok|intros rest; by run_bins_step].
  - apply (cwrites_ops _ [Noup (ctx 0) 1; Noup (ctx 1) 1]); [done|ops_ok|intros rest; by run_bins_step].
Qed.

(** The pattern of a macroblock that is not 16x16 intra. *)
Lemma cwrites_cbp h k : mb_ok h -> loaded_ok h k -> i_type h <> I_16x16 ->
  cwrites (fun S sink => x264_cabac_mb_cbp_luma h k ;> x264_cabac_mb_cbp_chroma h k) (read_cbp_cabac (cabac_context_of h k) (cabac_kind h)) (cbp_seen h).
Proof.
  intros ok L Ht. assert (is_16x16 (cabac_kind h) = false) as E16.
  { unfold cabac_kind. destruct (i_type h =? P_8x8); [done|]. rewrite kind_16x16. by apply Z.eqb_neq. }
  eapply cwrites_ext with (r := (luma ← read_cbp_luma (cabac_context_of h k) (seqZ 0 4) 0;
      chroma ← read_tu 2 (cbp_chroma_ctx (cabac_context_of h k)) 0; mret (luma + 16 * chroma))).
  - eapply cwrites_seq; [by apply cwrites_cbp_luma|]. cbv beta. eapply cwrites_last; [by apply cwrites_cbp_chroma|].
    intros l. rewrite run_ret. unfold cbp_seen. by rewrite Z.add_comm.
  - intros l. by destruct (cabac_kind h).
Qed.

(** ** Quantiser *)
Definition empty_16x16_cabac (h : x264_t) (k : cabac_mb) : bool := (i_type h =? I_16x16) && negb (i2b (mb_cbp k (i_mb_xy h))).
(** The difference a decoder gets, and the code number that stands for it. *)
Definition dqp_cabac (h : x264_t) (k : cabac_mb) : Z :=
  let d := if empty_16x16_cabac h k then 0 else i_qp h - i_last_qp h in
  if d <? -26 then d + 52 else if d >? 25 then d - 52 else d.
Definition dqp_code (d : Z) : Z := if d <=? 0 then -2 * d else 2 * d - 1.
Definition dqp_ctx (h : x264_t) (k : cabac_mb) (i : Z) : Z := if i =? 0 then 60 + b2i (prev_delta h k) else if i =? 1 then 60 + 2 else 60 + 3.
Definition dqp_ops (h : x264_t) (k : cabac_mb) : list cop :=
  ((fun i => Dec (dqp_ctx h k i) 1) <$> seqZ 0 (dqp_code (dqp_cabac h k))) ++ [Noup (dqp_ctx h k (dqp_code (dqp_cabac h k))) 0].

(** The wrapped code number. *)
Lemma dqp_code_wrap d : -51 <= d <= 51 ->
  (let val := if d <=? 0 then -2 * d else 2 * d - 1 in if (val >=? 51) && negb (val =? 52) then 103 - val else val) =
  dqp_code (if d <? -26 then d + 52 else if d >? 25 then d - 52 else d).
Proof.
  intros Hd. unfold dqp_code. cbv zeta.
  destruct (Z.ltb_spec d (-26)), (Z.gtb_spec d 25), (Z.leb_spec d 0), (Z.leb_spec (d + 52) 0), (Z.leb_spec (d - 52) 0); try lia;
    repeat case_match; lia.
Qed.
Lemma se_value_code d : se_value (dqp_code d) = d.
Proof.
  unfold se_value, dqp_code. destruct (Z.leb_spec d 0).
  - replace (Z.odd (-2 * d)) with false by (rewrite Z.odd_mul; done). Z.to_euclidean_division_equations. lia.
  - replace (2 * d - 1) with (1 + 2 * (d - 1)) by lia. rewrite Z.odd_add_mul_2. cbn [Z.odd]. Z.to_euclidean_division_equations. lia.
Qed.

Lemma dqp_cabac_range h k : mb_ok h -> -26 <= dqp_cabac h k <= 25.
Proof.
  intros ok. destruct (o_qp _ ok). unfold dqp_cabac. destruct (empty_16x16_cabac h k); [done|].
  destruct (Z.ltb_spec (i_qp h - i_last_qp h) (-26)); [lia|]. destruct (Z.gtb_spec (i_qp h - i_last_qp h) 25); lia.
Qed.

Lemma qp_delta_cabac_spec {S} {sink : CabacSink S} h k (s : S) : mb_ok h ->
  x264_cabac_mb_qp_delta h k s =
  (if empty_16x16_cabac h k && negb ck_skip then set_i_qp h (i_last_qp h) else h, put_ops s (dqp_ops h k)).
Proof.
  intros ok. destruct (o_qp _ ok). unfold x264_cabac_mb_qp_delta, dqp_ops. fold (empty_16x16_cabac h k). fold (prev_delta h k).
  assert (forall d, -51 <= d <= 51 -> dqp_cabac h k = (if d <? -26 then d + 52 else if d >? 25 then d - 52 else d) -> forall h' : x264_t,
    (let ctx := b2i (prev_delta h k) in
     let '(ctx, s) := if negb (d =? 0) then
        let val := if d <=? 0 then -2 * d else 2 * d - 1 in
        let val := if (val >=? 51) && negb (val =? 52) then 103 - val else val in
        for_ (Z.to_nat val) 0 (fun _ '(ctx, s) => (if ctx <? 2 then 2 else 3, ck_decision s (60 + ctx) 1)) (ctx, s)
      else (ctx, s) in (h', ck_decision_noup s (60 + ctx) 0)) =
    (h', put_ops s (unary_code (dqp_ctx h k) 0 (dqp_code (dqp_cabac h k)) ++ [Noup (dqp_ctx h k (dqp_code (dqp_cabac h k))) 0]))) as M.
  { intros d Hd E h'. cbv zeta. rewrite E, <- dqp_code_wrap by done. cbv zeta.
    set (c := fun i => if i =? 0 then b2i (prev_delta h k) else if i =? 1 then 2 else 3).
    assert (forall i, dqp_ctx h k i = 60 + c i) as EC by (intros i; unfold dqp_ctx, c; repeat case_match; lia).
    destruct (Z.eqb_spec d 0) as [->|Hne]; cbn [negb].
    - cbn. by rewrite EC.
    - set (val := if _ && _ then _ else _). assert (0 <= val) as Hv by (unfold val; destruct (d <=? 0) eqn:E0; repeat case_match; lia).
      change (b2i (prev_delta h k)) with (c 0). rewrite (unary_loop 60 (fun x => if x <? 2 then 2 else 3) c).
      + rewrite Z2Nat.id by lia. rewrite put_ops_app. cbn [put_ops fold_left put_op]. rewrite EC. f_equal. f_equal.
        unfold put_ops. f_equal. apply list_fmap_ext. intros _ i _. by rewrite EC.
      + intros i Hi. unfold c. destruct (Z.eqb_spec i 0) as [->|]; [by destruct (prev_delta h k)|].
        replace (i + 1 =? 0) with false by lia. replace (i + 1 =? 1) with false by lia. by destruct (i =? 1). }
  cbv zeta. fold (unary_code (dqp_ctx h k) 0 (dqp_code (dqp_cabac h k))).
  unfold dqp_cabac in M |- *. destruct (empty_16x16_cabac h k) eqn:E; cbn [andb].
  - rewrite <- (M 0) by done. assert (mb_type (if ck_skip then h else set_i_qp h (i_last_qp h)) = mb_type h) as -> by (destruct ck_skip; by destruct h).
    fold (prev_delta h k). by destruct ck_skip.
  - by rewrite <- (M (i_qp h - i_last_qp h)) by (done || lia).
Qed.

Lemma dqp_ops_ok h k : Forall op_ok (dqp_ops h k).
Proof.
  assert (forall i, ctx_ok (dqp_ctx h k i)) as C by (intros i; unfold dqp_ctx; apply ctx_ok_range; destruct (prev_delta h k); cbn [b2i]; repeat case_match; lia).
  apply Forall_app. split; [apply unary_code_ok; intros; apply C|]. ops_ok.
Qed.

Lemma dqp_read h k : mb_ok h -> creads (read_qp_delta (cabac_context_of h k)) (op_bin <$> dqp_ops h k) (dqp_cabac h k).
Proof.
  intros ok rest. pose proof (dqp_cabac_range h k ok) as Hd. unfold read_qp_delta. rewrite run_bind. cbn [cabac_context_of k_prev_delta].
  set (v := dqp_code (dqp_cabac h k)). assert (0 <= v <= 52) as Hv by (unfold v, dqp_code; destruct (Z.leb_spec (dqp_cabac h k) 0); lia).
  pose proof (read_unary_code (dqp_ctx h k) rest (Z.to_nat v) 104 0 v ltac:(lia) ltac:(lia) ltac:(lia)) as E. rewrite Z2Nat.id in E by lia.
  fold (dqp_ctx h k). 
  assert (op_bin <$> dqp_ops h k = op_bin <$> unary_code (dqp_ctx h k) 0 v ++ [Dec (dqp_ctx h k v) 0]) as -> by (unfold dqp_ops; fold v; by rewrite !fmap_app).
  rewrite E, run_ret. unfold v. by rewrite se_value_code.
Qed.
