(* ===== verification/CabacMotion.v ===== *)
(** * References and motion vectors in CABAC, written and read back *)
From S2P Require Import Prelude Syntax Mb MbLayer Cavlc CavlcMb MbRoundtrip MbMotion CabacTables Cabac CabacMb CabacLayer CabacCodes CabacElements.

(** ** Sub-macroblock types *)
Lemma cwrites_p_sub v : 0 <= v < 4 -> cwrites (fun S sink => x264_cabac_mb_sub_p_partition v) read_p_sub (sub_seen v).
Proof.
  intros Hv. assert (v = 0 \/ v = 1 \/ v = 2 \/ v = 3) as [-> |[-> |[-> | ->]]] by lia; unfold read_p_sub.
  - apply (cwrites_ops _ [Dec 21 0; Dec 22 1; Dec 23 0]); [done|ops_ok|intros rest; by run_bins_step].
  - apply (cwrites_ops _ [Dec 21 0; Dec 22 0]); [done|ops_ok|intros rest; by run_bins_step].
  - apply (cwrites_ops _ [Dec 21 0; Dec 22 1; Dec 23 1]); [done|ops_ok|intros rest; by run_bins_step].
  - apply (cwrites_ops _ [Dec 21 1]); [done|ops_ok|intros rest; by run_bins_step].
Qed.

(** The operations of a sub-macroblock type of table [part_bits]. *)
Definition b_sub_ops (v : Z) : list cop :=
  if v =? D_DIRECT_8x8 then [Dec 36 0]
  else
    let b i := tbl2 part_bits v i in
    [Dec 36 (b 1); Dec 37 (b 2)] ++
    (if b 0 =? 3 then [Dec 39 (b 3)] else [Dec 38 (b 3); Dec 39 (b 4); Dec 39 (b 5)] ++ if b 0 =? 6 then [Dec 39 (b 6)] else []).

Lemma cwrites_b_sub v : 0 <= v <= 12 -> cwrites (fun S sink => x264_cabac_mb_sub_b_partition v) read_b_sub (sub_seen v).
Proof.
  intros Hv. assert (In v [0; 1; 2; 3; 4; 5; 6; 7; 8; 9; 10; 11; 12]) as Hin by (cbn; lia). cbn [In] in Hin. unfold read_b_sub.
  repeat (destruct Hin as [<-|Hin]; [match goal with |- cwrites (fun S sink => x264_cabac_mb_sub_b_partition ?v) _ _ =>
    apply (cwrites_ops _ (b_sub_ops v)) end; [reflexivity|cbn -[op_ok]; ops_ok|intros rest; unfold b_sub_ops; run_bins_step; reflexivity]|]). done.
Qed.

(** ** A reference index *)
Lemma ref_ctx_range g idx i : ctx_ok (ref_ctx g idx i).
Proof. apply ctx_ok_range. unfold ref_ctx. destruct (g (scan8 idx - 1)), (g (scan8 idx - 8)); cbn [b2i]; repeat case_match; lia. Qed.

Lemma cwrites_ref h k l idx g : 0 <= ref_at h l idx <= 32 ->
  g (scan8 idx - 1) = ref_gt0 h k l (scan8 idx - 1) -> g (scan8 idx - 8) = ref_gt0 h k l (scan8 idx - 8) ->
  cwrites (fun S sink => x264_cabac_mb_ref h k l idx) (read_unary 33 (ref_ctx g idx) 0) (ref_at h l idx).
Proof.
  intros Hr Ga Gb. unfold x264_cabac_mb_ref. fold (ref_at h l idx). fold (ref_gt0 h k l (scan8 idx - 1)). fold (ref_gt0 h k l (scan8 idx - 8)).
  rewrite <- Ga, <- Gb. set (v := ref_at h l idx) in *.
  apply (cwrites_ops _ (unary_code (ref_ctx g idx) 0 v ++ [Dec (ref_ctx g idx v) 0])).
  - intros S sink s. cbv zeta.
    set (c := fun i => if i =? 0 then b2i (g (scan8 idx - 1)) + 2 * b2i (g (scan8 idx - 8)) else if i =? 1 then 4 else 5).
    assert (forall i, ref_ctx g idx i = 54 + c i) as EC by (intros i; unfold ref_ctx, c; repeat case_match; lia).
    change (b2i (g (scan8 idx - 1)) + 2 * b2i (g (scan8 idx - 8))) with (c 0).
    rewrite (unary_loop 54 (fun x => if x <? 4 then 4 else 5) c).
    + rewrite Z2Nat.id by lia. rewrite put_ops_app. cbn [put_ops fold_left put_op Dec]. rewrite EC. f_equal.
      unfold put_ops. f_equal. apply list_fmap_ext. intros _ i _. by rewrite EC.
    + intros i Hi. unfold c. destruct (Z.eqb_spec i 0) as [->|]; [by destruct (g (scan8 idx - 1)), (g (scan8 idx - 8))|].
      replace (i + 1 =? 0) with false by lia. replace (i + 1 =? 1) with false by lia. by destruct (i =? 1).
  - apply Forall_app. split; [apply unary_code_ok; intros; apply ref_ctx_range|]. ops_ok. apply dec_ok; [apply ref_ctx_range|by left].
  - intros rest. pose proof (read_unary_code (ref_ctx g idx) rest (Z.to_nat v) 33 0 v ltac:(lia) ltac:(lia) ltac:(lia)) as E.
    rewrite Z2Nat.id in E by lia. exact E.
Qed.

(** ** A component of a vector difference *)
Definition mvd_ops (base sum mvd : Z) : list cop :=
  unary_code (mvd_ctx base sum) 0 (Z.min (Z.abs mvd) 9) ++
  (if Z.abs mvd <? 9 then [Dec (mvd_ctx base sum (Z.abs mvd)) 0] else [Op (UeBypass 3 (Z.abs mvd - 9))]) ++
  (if mvd =? 0 then [] else [Op (Bypass (b2i (mvd <? 0)))]).

Lemma mvd_ctx_range base sum i : base = 40 \/ base = 47 -> 0 <= i -> ctx_ok (mvd_ctx base sum i).
Proof. intros Hb Hi. apply ctx_ok_range. unfold mvd_ctx. repeat case_match; lia. Qed.
Lemma mvd_ops_ok base sum mvd : base = 40 \/ base = 47 -> -32767 <= mvd <= 32767 -> Forall op_ok (mvd_ops base sum mvd).
Proof.
  intros Hb Hm. unfold mvd_ops. apply Forall_app. split; [apply unary_code_ok; intros; apply mvd_ctx_range; [done|lia]|]. apply Forall_app. split.
  - destruct (Z.ltb_spec (Z.abs mvd) 9); ops_ok; [apply dec_ok; [apply mvd_ctx_range; [done|lia]|by left]|split; lia].
  - destruct (mvd =? 0); ops_ok.
Qed.

Lemma mvd_read base a b mvd : creads (read_mvd_comp base a b) (op_bin <$> mvd_ops base (Z.abs a + Z.abs b) mvd) mvd.
Proof.
  intros rest. unfold read_mvd_comp, mvd_ops. set (ctx := mvd_ctx base _). set (v := Z.min (Z.abs mvd) 9). rewrite run_bind.
  destruct (Z.ltb_spec (Z.abs mvd) 9) as [H|H].
  - rewrite app_assoc, fmap_app, <- app_assoc.
    pose proof (read_tu_code ctx ((op_bin <$> (if mvd =? 0 then [] else [Op (Bypass (b2i (mvd <? 0)))])) ++ rest) (Z.to_nat v) 9 0 v ltac:(lia) ltac:(lia) ltac:(lia)) as E.
    rewrite (proj2 (Nat.ltb_lt _ _)) in E by lia. rewrite Z2Nat.id in E by lia. replace (Z.abs mvd) with v by lia. rewrite E.
    rewrite run_bind. replace (v <? 9) with true by lia. rewrite run_ret.
    destruct (Z.eqb_spec mvd 0) as [->|Hne]; [apply run_ret|]. replace (v =? 0) with false by lia. cbn [fmap list_fmap app op_bin]. run_bins_soft.
    destruct (Z.ltb_spec mvd 0); cbn [b2i Z.eqb Pos.eqb]; do 2 f_equal; lia.
  - rewrite fmap_app, <- app_assoc.
    pose proof (read_tu_code ctx ((op_bin <$> [Op (UeBypass 3 (Z.abs mvd - 9))] ++ (if mvd =? 0 then [] else [Op (Bypass (b2i (mvd <? 0)))])) ++ rest) (Z.to_nat v) 9 0 v ltac:(lia) ltac:(lia) ltac:(lia)) as E.
    rewrite (proj2 (Nat.ltb_ge _ _)) in E by lia. rewrite Z2Nat.id, app_nil_r in E by lia. rewrite E.
    rewrite run_bind. replace (v <? 9) with false by lia. replace (mvd =? 0) with false by lia. run_bins_soft.
    replace (9 + (Z.abs mvd - 9) =? 0) with false by lia. run_bins_soft.
    destruct (Z.ltb_spec mvd 0); cbn [b2i Z.eqb Pos.eqb]; do 2 f_equal; lia.
Qed.

Section Component.
Context (k : cabac_mb) (l idx comp : Z).
Let cpn (v : Z * Z) : Z := if comp =? 0 then v.1 else v.2.
Let sum : Z := Z.abs (cpn (cache_mvd k l (scan8 idx - 1))) + Z.abs (cpn (cache_mvd k l (scan8 idx - 8))).
Let base : Z := if i2b comp then 47 else 40.

Lemma mvd_ctx_0 : base + (b2i (sum >? 2) + b2i (sum >? 32)) = mvd_ctx base sum 0.
Proof. unfold mvd_ctx. cbn [Z.eqb]. destruct (Z.gtb_spec sum 2), (Z.gtb_spec sum 32), (Z.ltb_spec sum 3); cbn [b2i]; lia. Qed.
Lemma mvd_ctx_i i : 1 <= i <= 8 -> base + tbl mvd_ctxes i = mvd_ctx base sum i.
Proof.
  intros Hi. unfold mvd_ctx. replace (i =? 0) with false by lia. f_equal.
  assert (all_range 1 8 (fun i => tbl mvd_ctxes i =? Z.min (i + 2) 6) = true) as C by (vm_compute; reflexivity).
  eapply all_range_spec with (i := i) in C; [|lia]. cbv beta in C. lia.
Qed.
Lemma mvd_ones {S} {sink : CabacSink S} n (s : S) : (n <= 8)%nat ->
  for_ n 1 (fun i s => ck_decision s (base + tbl mvd_ctxes i) 1) (ck_decision s (mvd_ctx base sum 0) 1) =
  put_ops s (unary_code (mvd_ctx base sum) 0 (Z.of_nat n + 1)).
Proof.
  intros Hn. rewrite ones_loop. rewrite (unary_code_cons _ 0) by lia. cbn [put_ops fold_left put_op Dec]. unfold put_ops, unary_code.
  replace (Z.of_nat n + 1 - 1) with (Z.of_nat n) by lia. f_equal.
  apply list_fmap_ext. intros _ i Hi%list_elem_of_lookup_2%elem_of_seqZ. f_equal. apply mvd_ctx_i. lia.
Qed.

(** The codes of encoder/rdo.c leave the sign out. *)
Lemma emits_mvd_cpn mvd : -32767 <= mvd <= 32767 ->
  emits_ops (fun S sink => x264_cabac_mb_mvd_cpn k l idx comp mvd) (mvd_ops base sum mvd).
Proof.
  intros Hm S sink R sim s c HR. assert (base = 40 \/ base = 47) as Hb by (unfold base; destruct (i2b comp); auto).
  pose proof (mvd_ops_ok base sum mvd Hb Hm) as Ok. pose proof (emits_ops_all) as All.
  unfold x264_cabac_mb_mvd_cpn. cbv zeta beta.
  match goal with |- context [b2i (?x >? 2)] => change x with sum end. change (if i2b comp then 47 else 40) with base. rewrite mvd_ctx_0.
  destruct (Z.eqb_spec (Z.abs mvd) 0) as [E|E].
  { replace mvd with 0 by lia. apply (csim_op s c (Dec (mvd_ctx base sum 0) 0)); [done|]. apply dec_ok; [by apply mvd_ctx_range|by left]. }
  assert (forall b, put_ops s (unary_code (mvd_ctx base sum) 0 4) = b -> R b (c ++ unary_code (mvd_ctx base sum) 0 4)) as Four.
  { intros b <-. apply (All (unary_code (mvd_ctx base sum) 0 4)); [|done|done]. apply unary_code_ok. intros. apply mvd_ctx_range; [done|lia]. }
  assert (mvd_ctx base sum 4 = base + 6 /\ mvd_ctx base sum 5 = base + 6 /\ mvd_ctx base sum 6 = base + 6 /\ mvd_ctx base sum 7 = base + 6 /\
    mvd_ctx base sum 8 = base + 6) as (C4 & C5 & C6 & C7 & C8) by done.
  destruct (Z.ltb_spec (Z.abs mvd) 9) as [H9|H9].
  - destruct (ck_skip && (Z.abs mvd >? 4)) eqn:Ek.
    + apply andb_prop in Ek as [Ek H4]. unfold seq. rewrite mvd_ones by lia.
      unfold mvd_ops. replace (Z.abs mvd <? 9) with true by lia. replace (mvd =? 0) with false by lia. rewrite !app_assoc. apply csim_sign; [done|].
      replace (((c ++ _) ++ _) ++ _) with ((c ++ unary_code (mvd_ctx base sum) 0 4) ++ unary_ops (Z.abs mvd - 3) (base + 6)).
      * apply csim_unary; [done|by apply Four|lia|destruct Hb; lia].
      * rewrite <- !app_assoc. f_equal. unfold unary_ops. replace (Z.abs mvd - 3 <? 14) with true by lia.
        assert (Z.abs mvd = 5 \/ Z.abs mvd = 6 \/ Z.abs mvd = 7 \/ Z.abs mvd = 8) as [A|[A|[A|A]]] by lia; rewrite A; cbn; rewrite ?C4, ?C5, ?C6, ?C7, ?C8; done.
    + unfold seq. rewrite mvd_ones by lia. unfold mvd_ops in Ok |- *. replace (Z.abs mvd <? 9) with true in * by lia. replace (mvd =? 0) with false in * by lia.
      replace (Z.min (Z.abs mvd) 9) with (Z.abs mvd) in * by lia. replace (Z.of_nat (Z.to_nat (Z.abs mvd - 1)) + 1) with (Z.abs mvd) by lia.
      rewrite mvd_ctx_i by lia. specialize (All _ Ok S sink R sim s c HR). cbv beta in All. rewrite !put_ops_app in All. exact All.
  - unfold seq. replace (Z.min (Z.abs mvd) 9) with 9 in * by lia. unfold mvd_ops in Ok |- *. replace (Z.abs mvd <? 9) with false in * by lia.
    replace (mvd =? 0) with false in * by lia. replace (Z.min (Z.abs mvd) 9) with 9 in * by lia. destruct ck_skip eqn:Ek.
    + rewrite mvd_ones by lia. rewrite app_assoc. apply csim_swap; [done|].
      replace ((c ++ _) ++ _) with (((c ++ unary_code (mvd_ctx base sum) 0 4) ++ ones_ops (base + 6)) ++ [Op (UeBypass 3 (Z.abs mvd - 9))]).
      * apply (csim_op _ _ (Op (UeBypass 3 (Z.abs mvd - 9)))); [|split; lia]. apply csim_5ones; [done|by apply Four|destruct Hb; lia].
      * by rewrite <- !app_assoc.
    + rewrite mvd_ones by lia. specialize (All _ Ok S sink R sim s c HR). cbv beta in All. rewrite !put_ops_app in All. exact All.
Qed.
End Component.

Lemma cwrites_mvd_cpn k l idx comp mvd (g : Z -> Z * Z) : comp = 0 \/ comp = 1 -> -32767 <= mvd <= 32767 ->
  g (scan8 idx - 1) = cache_mvd k l (scan8 idx - 1) -> g (scan8 idx - 8) = cache_mvd k l (scan8 idx - 8) ->
  let cpn (v : Z * Z) := if comp =? 0 then v.1 else v.2 in
  cwrites (fun S sink => x264_cabac_mb_mvd_cpn k l idx comp mvd)
    (read_mvd_comp (if i2b comp then 47 else 40) (cpn (g (scan8 idx - 1))) (cpn (g (scan8 idx - 8)))) mvd.
Proof.
  intros Hc Hm Ga Gb. cbv zeta. rewrite Ga, Gb. eexists. split; [apply mvd_read|]. split; [|by apply emits_mvd_cpn].
  apply mvd_ops_ok; [destruct Hc as [-> | ->]; auto|done].
Qed.

(** ** Writers that also save what they write *)
Definition k_writer : Type := forall S, CabacSink S -> cabac_mb * S -> cabac_mb * S.
Definition kwrites {A} (k : cabac_mb) (W : k_writer) (r : cparser A) (v : A) (k' : cabac_mb) : Prop :=
  exists f, (forall S (sink : CabacSink S) s, W S sink (k, s) = (k', f S sink s)) /\ cwrites f r v.

Lemma kwrites_with {A} k f (r : cparser A) v : cwrites f r v -> kwrites k (fun S sink => with_mb (fun _ => f S sink)) r v k.
Proof. intros H. by exists f. Qed.
Lemma kwrites_skip {A} k (v : A) : kwrites k (fun S sink ks => ks) (mret v) v k.
Proof. eexists. split; [done|apply cwrites_skip]. Qed.
Lemma kwrites_seq {A B} k k1 k2 V W (r : cparser A) (q : A -> cparser B) a b :
  kwrites k V r a k1 -> kwrites k1 W (q a) b k2 -> kwrites k (fun S sink => V S sink ;> W S sink) (r ≫= q) b k2.
Proof.
  intros (f & Ef & Hf) (g & Eg & Hg). exists (fun S sink => f S sink ;> g S sink). split; [|by eapply cwrites_seq].
  intros S sink s. unfold seq. by rewrite Ef, Eg.
Qed.
Lemma kwrites_last {A B} k k' W (r : cparser A) (q : A -> cparser B) a b :
  kwrites k W r a k' -> (forall l, run_bins (q a) l = Some (b, l)) -> kwrites k W (r ≫= q) b k'.
Proof. intros (f & Ef & Hf) E. exists f. split; [done|by eapply cwrites_last]. Qed.
Lemma kwrites_same {A} k k' V W (r : cparser A) v : kwrites k W r v k' ->
  (forall S (sink : CabacSink S) s, V S sink (k, s) = W S sink (k, s)) -> kwrites k V r v k'.
Proof. intros (f & Ef & Hf) E. exists f. split; [|done]. intros S sink s. by rewrite E. Qed.

(** ** Fields that are written block by block *)
Lemma positions_cells u : positions u = cells u.
Proof.
  destruct u as [[idx w] hgt]. unfold positions, cells. generalize (seqZ 0 hgt). intros l. induction l as [|y l IH]; [done|].
  cbn [mbind list_bind]. by rewrite <- IH.
Qed.
Lemma fill_units {A} (g : Z -> A) u v q : fill g u v q = MbMotion.fill u v g q.
Proof. unfold fill, covers, MbMotion.fill, in_cells. by rewrite positions_cells. Qed.

Lemma ordered_cons u us : ordered (u :: us) = true ->
  pending (u :: us) (scan8 (fst (fst u)) - 1) = false /\ pending (u :: us) (scan8 (fst (fst u)) - 8) = false /\ ordered us = true.
Proof.
  cbn [ordered]. intros [H Ho]%andb_prop. rewrite forallb_forall in H. destruct u as [[idx w] hgt]. cbn [fst reads] in *.
  split; [|split; [|done]]; apply negb_true_iff, H; cbn; tauto.
Qed.
Lemma pending_cons u us q : pending (u :: us) q = in_cells u q || pending us q.
Proof. done. Qed.

(** *** References *)
Definition write_refs_cabac (h : x264_t) (k : cabac_mb) (l : Z) (us : list unit_) : c_writer := fun S sink =>
  each (fun u => x264_cabac_mb_ref h k l (fst (fst u))) us.

Lemma cwrites_refs h k l us : Forall (fun u => 0 <= ref_at h l (fst (fst u)) < i_fref h l) us -> i_fref h l <= 32 ->
  Forall (unit_shared (ref_gt0 h k l)) us -> Forall (fun u => cache_skip k (scan8 (fst (fst u))) = 0) us ->
  ordered us = true -> forall g, (forall p, pending us p = false -> g p = ref_gt0 h k l p) ->
  cwrites (fun S sink => when (i_fref h l >? 1) (write_refs_cabac h k l us S sink))
    (read_refs (i_fref h l) us g) ((fun u => ref_at h l (fst (fst u))) <$> us).
Proof.
  intros HF Hn HS HK. induction HF as [|u us Hu HF IH]; intros Ho g Hg; cbn [read_refs fmap list_fmap].
  { eapply cwrites_same; [apply cwrites_skip|]. intros S sink s. by destruct (i_fref h l >? 1). }
  apply list.Forall_cons in HS as [HS1 HS], HK as [HK1 HK]. destruct (ordered_cons _ _ Ho) as (P1 & P2 & Ho'). specialize (IH HS HK Ho').
  eapply cwrites_same with (g := fun S sink => when (i_fref h l >? 1) (x264_cabac_mb_ref h k l (fst (fst u))) ;>
    when (i_fref h l >? 1) (write_refs_cabac h k l us S sink)).
  2:{ intros S sink s. by destruct (i_fref h l >? 1). }
  eapply cwrites_seq with (a := ref_at h l (fst (fst u))).
  - apply (cwrites_when _ (fun S sink => x264_cabac_mb_ref h k l (fst (fst u)))).
    + intros _. apply cwrites_ref; [lia|by apply Hg..].
    + intros E. lia.
  - cbv beta. eapply cwrites_last; [apply IH|intros rest; apply run_ret].
    intros p Hp. rewrite fill_units. unfold MbMotion.fill. destruct (in_cells u p) eqn:E.
    + rewrite (HS1 p) by by apply in_cells_spec. unfold ref_gt0. by rewrite HK1, andb_true_r.
    + apply Hg. by rewrite pending_cons, E.
Qed.

(** *** Motion vector differences *)
Definition write_mvd_unit (h : x264_t) (l : Z) (u : unit_) : k_writer := fun S sink =>
  x264_cabac_mb_mvd h l (fst (fst u)) (snd (fst u)) (snd u).
Definition save_mvd (h : x264_t) (l : Z) (k : cabac_mb) (u : unit_) : cabac_mb :=
  let '((idx, w), hgt) := u in
  let d := mvd_at h l (idx, w) in
  x264_macroblock_cache_mvd k (tbl block_idx_x idx) (tbl block_idx_y idx) w hgt l (s16 d.1, s16 d.2).

Definition rect_in (pos w hgt q : Z) : bool := existsb (fun y => existsb (fun x => q =? pos + x + 8 * y) (seqZ 0 w)) (seqZ 0 hgt).
Lemma in_cells_rect idx w hgt q : in_cells ((idx, w), hgt) q = rect_in (scan8 idx) w hgt q.
Proof.
  unfold in_cells, cells, rect_in. generalize (seqZ 0 hgt). intros l. induction l as [|y l IH]; [done|].
  cbn [mbind list_bind existsb]. rewrite existsb_app, <- IH. f_equal. generalize (seqZ 0 w). intros xs.
  induction xs as [|x xs IHx]; [done|]. cbn [fmap list_fmap existsb]. by rewrite IHx.
Qed.
Lemma existsb_seqZ_S (f : Z -> bool) n : 0 <= n -> existsb f (seqZ 0 (n + 1)) = existsb f (seqZ 0 n) || f n.
Proof. intros Hn. rewrite seqZ_app by lia. rewrite existsb_app, (seqZ_cons (0 + n)) by lia. change (seqZ (Z.succ (0 + n)) (Z.pred 1)) with (@nil Z). cbn [existsb]. by rewrite orb_false_r. Qed.

Lemma rect4_spec dst pos w hgt val q : 0 <= w -> 0 <= hgt ->
  x264_macroblock_cache_rect4 dst pos w hgt val q = if rect_in pos w hgt q then val else dst q.
Proof.
  intros Hw Hh. unfold x264_macroblock_cache_rect4.
  assert (forall dy (st : Z -> Z * Z) q, for_ (Z.to_nat w) 0 (fun dx dst q => if q =? pos + dx + 8 * dy then val else dst q) st q =
    if existsb (fun x => q =? pos + x + 8 * dy) (seqZ 0 w) then val else st q) as Inner.
  { intros dy st q'. replace (seqZ 0 w) with (seqZ 0 (0 + Z.of_nat (Z.to_nat w))) by (f_equal; lia).
    pattern (for_ (Z.to_nat w) 0 (fun dx dst q => if q =? pos + dx + 8 * dy then val else dst q) st). revert q'.
    apply (for_inv (fun i st' => forall q, st' q = if existsb (fun x => q =? pos + x + 8 * dy) (seqZ 0 i) then val else st q)); [done|].
    intros i st' Hi IH q'. cbv beta. rewrite existsb_seqZ_S, IH by lia. cbv beta. destruct (q' =? pos + i + 8 * dy); [by rewrite orb_true_r|by rewrite orb_false_r]. }
  replace hgt with (0 + Z.of_nat (Z.to_nat hgt)) at 2 by lia. revert q.
  apply (for_inv (fun i (st : Z -> Z * Z) => forall q, st q = if rect_in pos w i q then val else dst q)); [done|].
  intros i st Hi IH q. cbv beta. rewrite Inner, IH. unfold rect_in. rewrite existsb_seqZ_S by lia. cbv beta.
  destruct (existsb (fun x => q =? pos + x + 8 * i) (seqZ 0 w)); [by rewrite orb_true_r|by rewrite orb_false_r].
Qed.

Lemma scan8_xy idx : 0 <= idx < 16 -> X264_SCAN8_0 + tbl block_idx_x idx + 8 * tbl block_idx_y idx = scan8 idx.
Proof.
  intros Hi. assert (all_range 0 16 (fun i => X264_SCAN8_0 + tbl block_idx_x i + 8 * tbl block_idx_y i =? scan8 i) = true) as C by (vm_compute; reflexivity).
  eapply all_range_spec with (i := idx) in C; [|lia]. cbv beta in C. lia.
Qed.

Record unit_ok (u : unit_) : Prop := { u_legal : In (fst u) legal_blocks; u_first : 0 <= fst (fst u) < 16; u_size : 0 <= snd (fst u) /\ 0 <= snd u }.

Lemma save_mvd_spec h l k u : unit_ok u -> (forall p, 0 <= p < 40 -> mv_small (cache_mv h l p)) -> forall q,
  cache_mvd (save_mvd h l k u) l q = MbMotion.fill u (mvd_at h l (fst u)) (cache_mvd k l) q.
Proof.
  intros [U1 U2 U3] Hmv q. destruct (mvd_small h l _ U1 Hmv) as [M1 M2]. destruct u as [[idx w] hgt]. cbn [fst snd] in *.
  unfold save_mvd, x264_macroblock_cache_mvd. cbv zeta. cbn [set_cache_mvd cache_mvd]. rewrite Z.eqb_refl. rewrite scan8_xy by done.
  rewrite rect4_spec by lia. unfold MbMotion.fill. rewrite in_cells_rect. rewrite !sw_small by lia. by destruct (mvd_at h l (idx, w)).
Qed.
Lemma save_mvd_other h l l' k u q : l' <> l -> cache_mvd (save_mvd h l k u) l' q = cache_mvd k l' q.
Proof. intros Hl. destruct u as [[idx w] hgt]. unfold save_mvd, x264_macroblock_cache_mvd. cbn. by replace (l' =? l) with false by lia. Qed.
Lemma save_mvd_fields h l us k : exists m, fold_left (save_mvd h l) us k = set_cache_mvd k m.
Proof.
  revert k. induction us as [|u us IH]; intros k; [exists (cache_mvd k); by destruct k|]. cbn [fold_left].
  destruct (IH (save_mvd h l k u)) as [m ->]. exists m. by destruct u as [[idx w] hgt].
Qed.
Lemma save_mvds_other h l l' us k q : l' <> l -> cache_mvd (fold_left (save_mvd h l) us k) l' q = cache_mvd k l' q.
Proof. intros Hl. revert k. induction us as [|u us IH]; intros k; [done|]. cbn [fold_left]. rewrite IH. by apply save_mvd_other. Qed.

Lemma kwrites_mvds h l us : Forall unit_ok us -> (forall p, 0 <= p < 40 -> mv_small (cache_mv h l p)) -> ordered us = true ->
  forall k g, (forall p, pending us p = false -> g p = cache_mvd k l p) ->
  kwrites k (fun S sink => each (fun u => write_mvd_unit h l u S sink) us) (read_mvds us g) ((fun u => mvd_at h l (fst u)) <$> us)
    (fold_left (save_mvd h l) us k).
Proof.
  intros HF Hmv. induction HF as [|u us Hu _ IH]; intros Ho k g Hg; [apply kwrites_skip|]. cbn [fmap list_fmap read_mvds fold_left].
  destruct (ordered_cons _ _ Ho) as (P1 & P2 & Ho'). specialize (IH Ho' (save_mvd h l k u)).
  destruct (mvd_small h l _ (u_legal _ Hu) Hmv) as [M1 M2].
  specialize (IH (fill g u (mvd_at h l (fst u)))). destruct IH as (f & Ef & Hf).
  { intros p Hp. rewrite fill_units, save_mvd_spec by done. unfold MbMotion.fill. destruct (in_cells u p) eqn:E; [done|].
    apply Hg. by rewrite pending_cons, E. }
  exists (fun S sink => x264_cabac_mb_mvd_cpn k l (fst (fst u)) 0 (mvd_at h l (fst u)).1 ;>
    (x264_cabac_mb_mvd_cpn k l (fst (fst u)) 1 (mvd_at h l (fst u)).2 ;> f S sink)). split.
  - intros S sink s. unfold each. cbn [fold_left]. unfold seq. rewrite <- Ef. unfold each. f_equal. destruct u as [[idx w] hgt]. reflexivity.
  - eapply cwrites_seq; [apply (cwrites_mvd_cpn k l (fst (fst u)) 0 _ g); [by left|done|by apply Hg..]|].
    eapply cwrites_seq; [apply (cwrites_mvd_cpn k l (fst (fst u)) 1 _ g); [by right|done|by apply Hg..]|].
    eapply cwrites_last; [|intros rest; rewrite run_ret; by destruct (mvd_at h l (fst u))].
    by destruct (mvd_at h l (fst u)).
Qed.

(** ** The blocks of a macroblock *)
Definition units_good (k : mb_kind) (subs : list sub_type) (l : Z) : bool :=
  bool_decide (mv_rects k subs l = mv_units k subs l) && bool_decide (ref_rects k subs l = ref_units k subs l) &&
  ordered (ref_units k subs l) &&
  forallb (fun u => bool_decide (fst u ∈ legal_blocks) && (0 <=? fst (fst u)) && (fst (fst u) <? 16) && (0 <=? snd (fst u)) && (0 <=? snd u))
    (mv_units k subs l).

Lemma inter_units_good l shape lists : l = 0 \/ l = 1 -> 0 <= shape <= 2 -> length lists = (if shape =? 0 then 1%nat else 2%nat) ->
  units_good (K_Inter shape lists) [] l = true.
Proof.
  intros Hl Hs Hn. assert (shape = 0 \/ shape = 1 \/ shape = 2) as HS by lia.
  destruct lists as [|[a1 b1] [|[a2 b2] [|]]]; destruct HS as [-> |[-> | ->]]; try done;
    destruct Hl as [-> | ->]; destruct a1, b1; try (vm_compute; reflexivity); destruct a2, b2; vm_compute; reflexivity.
Qed.
Lemma quads_units_good l : l = 0 \/ l = 1 -> forallb (fun vs => units_good K_B8x8 (sub_seen <$> vs) l) (quads [0; 1; 2; 3]) = true /\
  forallb (fun vs => units_good K_B8x8 (sub_seen <$> vs) l) (quads [3; 7; 11; 12]) = true.
Proof. intros [-> | ->]; split; vm_compute; reflexivity. Qed.

Lemma units_good_seen h l : mb_ok h -> l = 0 \/ l = 1 -> units_good (kind_seen h) (subs_seen h) l = true.
Proof.
  intros ok Hl. destruct (motion_kinds h ok) as [(-> & -> & _)|[[Ht Hk]|[-> Hk]]].
  - destruct (shape_seen_length h). by apply inter_units_good.
  - assert (units_good (kind_seen h) = units_good K_B8x8) as -> by (destruct Hk as [-> | [ref0 ->]]; reflexivity).
    rewrite subs_seen_8x8 by done. change ((fun i => sub_seen (i_sub_partition h i)) <$> seqZ 0 4) with
      (sub_seen <$> [i_sub_partition h 0; i_sub_partition h 1; i_sub_partition h 2; i_sub_partition h 3]).
    destruct (quads_units_good l Hl) as [H1 H2]. destruct Ht as [Ht|Ht].
    + rewrite forallb_forall in H1. apply (H1 [_; _; _; _]).
      apply quads_spec; match goal with |- In (i_sub_partition h ?i) _ => destruct (o_sub_p h ok Ht i) as [? _]; [lia|cbn; lia] end.
    + rewrite forallb_forall in H2. apply (H2 [_; _; _; _]). apply quads_spec; apply (o_sub_b h ok Ht); lia.
  - destruct (Hk l) as [H1 H2]. unfold units_good, mv_units, ref_units. rewrite H1, H2. cbn [fmap list_fmap forallb ordered].
    assert (mv_rects (kind_seen h) [] l = [] /\ ref_rects (kind_seen h) [] l = []) as [-> ->]; [|done].
    revert H1 H2. clear. destruct (kind_seen h) as [| | |shape lists| | |]; try done. cbn [mv_blocks mv_rects ref_rects].
    unfold used_parts, used_rects, part_blocks, part_rects. intros H _.
    destruct (shape =? 0), (shape =? 1), lists as [|a [|b lists]]; try done; cbn [zip_with List.filter snd] in *;
      repeat match goal with |- context [uses l ?x] => destruct (uses l x) end; done.
Qed.

Lemma units_seen h l : mb_ok h -> l = 0 \/ l = 1 ->
  mv_rects (cabac_kind h) (subs_seen h) l = mv_units (kind_seen h) (subs_seen h) l /\
  ref_rects (cabac_kind h) (subs_seen h) l = ref_units (kind_seen h) (subs_seen h) l /\
  ordered (ref_units (kind_seen h) (subs_seen h) l) = true /\ Forall unit_ok (mv_units (kind_seen h) (subs_seen h) l).
Proof.
  intros ok Hl. pose proof (units_good_seen h l ok Hl) as H. unfold units_good in H. rewrite !andb_true_iff in H. destruct H as (((H1 & H2) & H3) & H4).
  apply bool_decide_eq_true_1 in H1, H2. rewrite <- H1, <- H2.
  split; [|split; [|split; [by rewrite H2|]]].
  1, 2: unfold cabac_kind; destruct (Z.eqb_spec (i_type h) P_8x8) as [E|]; [|done]; unfold kind_seen; rewrite E; reflexivity.
  rewrite H1. rewrite forallb_forall in H4. apply List.Forall_forall. intros u Hu. specialize (H4 u Hu). rewrite !andb_true_iff in H4.
  destruct H4 as ((((U1 & U2) & U3) & U4) & U5). apply bool_decide_eq_true_1, list_elem_of_In in U1. split; [done|lia..].
Qed.
