(* ===== verification/CabacPred.v ===== *)
(** * The prediction of a macroblock in CABAC, written and read back *)
From S2P Require Import Prelude Syntax Mb MbLayer Cavlc CavlcMb MbRoundtrip MbMotion Predict CabacTables Cabac CabacMb CabacLayer CabacCodes CabacElements CabacMotion.

(** What the caches hold when a macroblock with motion is written: a coded block has one
    reference, and where a list is not used there is none, and no vector difference. *)
Record motion_known (h : x264_t) (k : cabac_mb) : Prop := {
  mk_refs : forall l, l = 0 \/ l = 1 -> Forall (unit_shared (ref_gt0 h k l)) (ref_units (kind_seen h) (subs_seen h) l);
  mk_skip : forall l, l = 0 \/ l = 1 -> Forall (fun u => cache_skip k (scan8 (fst (fst u))) = 0) (ref_units (kind_seen h) (subs_seen h) l);
  mk_no_ref : forall l q, l = 0 \/ l = 1 -> ref_units (kind_seen h) (subs_seen h) l <> [] -> inside q = true ->
    pending (ref_units (kind_seen h) (subs_seen h) l) q = false -> ref_gt0 h k l q = false;
  mk_no_mvd : forall l q, l = 0 \/ l = 1 -> mv_units (kind_seen h) (subs_seen h) l <> [] -> inside q = true ->
    pending (mv_units (kind_seen h) (subs_seen h) l) q = false -> cache_mvd k l q = (0, 0)
}.

(** The order of the writers of all inter types. *)
Definition put_refs (h : x264_t) (l : Z) (us : list unit_) : k_writer := fun S sink =>
  with_mb (fun k => when (i_fref h l >? 1) (write_refs_cabac h k l us S sink)).
Definition put_mvds (h : x264_t) (l : Z) (us : list unit_) : k_writer := fun S sink => each (fun u => write_mvd_unit h l u S sink) us.
Definition put_motion (h : x264_t) (fsubs : c_writer) (refs mvs : Z -> list unit_) : k_writer := fun S sink =>
  with_mb (fun _ => fsubs S sink) ;> (put_refs h 0 (refs 0) S sink ;> (put_refs h 1 (refs 1) S sink ;>
    (put_mvds h 0 (mvs 0) S sink ;> put_mvds h 1 (mvs 1) S sink))).

Definition read_subs (k : mb_kind) : cparser (list sub_type) :=
  match k with
  | K_P8x8 _ => ceach (fun _ => read_p_sub) (seqZ 0 4)
  | K_B8x8 => ceach (fun _ => read_b_sub) (seqZ 0 4)
  | _ => mret []
  end.

Section Motion.
Context (h : x264_t) (k : cabac_mb) (ok : mb_ok h) (mok : motion_known h k).
Let refs := ref_units (kind_seen h) (subs_seen h).
Let mvs := mv_units (kind_seen h) (subs_seen h).

Lemma kwrites_put_refs k' l : l = 0 \/ l = 1 -> ref_gt0 h k' = ref_gt0 h k -> cache_skip k' = cache_skip k ->
  kwrites k' (put_refs h l (refs l)) (read_refs (i_fref h l) (ref_rects (cabac_kind h) (subs_seen h) l) (clear (ref_gt0 h k l) false))
    (ref_at h l <$> ref_blocks (kind_seen h) (subs_seen h) l) k'.
Proof.
  intros Hl E1 E2. destruct (units_seen h l ok Hl) as (_ & -> & Ho & _). rewrite refs_seen_units. fold (refs l) in Ho |- *.
  pose proof (mk_no_ref _ _ mok l) as Hno. fold (refs l) in Hno.
  assert (Forall (fun u => 0 <= ref_at h l (fst (fst u)) < i_fref h l) (refs l)) as HF.
  { unfold refs, ref_units. pose proof (o_refs _ ok l Hl) as H. clear -H.
    induction H as [|idx b Hi _ IH]; cbn [fmap list_fmap]; constructor; [by destruct (kind_seen h)|done]. }
  pose proof (mk_refs _ _ mok l Hl) as HS. pose proof (mk_skip _ _ mok l Hl) as HK. fold (refs l) in HS, HK.
  eexists. split; [intros S sink s; reflexivity|]. destruct (refs l) as [|u us] eqn:E.
  { eapply cwrites_same; [apply cwrites_skip|]. intros S sink s. by destruct (i_fref h l >? 1). }
  apply cwrites_refs; [done|apply ok|by rewrite E1|by rewrite E2|done|].
  intros p Hp. rewrite E1. unfold clear, fill. fold (inside p). destruct (inside p) eqn:Ei; [|done]. symmetry. by apply Hno.
Qed.

Lemma kwrites_put_mvds k' l : l = 0 \/ l = 1 -> (forall q, cache_mvd k' l q = cache_mvd k l q) ->
  kwrites k' (put_mvds h l (mvs l)) (read_mvds (mv_rects (cabac_kind h) (subs_seen h) l) (clear (cache_mvd k l) (0, 0)))
    (mvd_at h l <$> mv_blocks (kind_seen h) (subs_seen h) l) (fold_left (save_mvd h l) (mvs l) k').
Proof.
  intros Hl E1. destruct (units_seen h l ok Hl) as (-> & _ & _ & HU). rewrite mvds_seen_units. fold (mvs l) in HU |- *.
  pose proof (mk_no_mvd _ _ mok l) as Hno. fold (mvs l) in Hno.
  assert (ordered (mvs l) = true) as Ho by (pose proof (units_ok_seen h l ok Hl) as H; by apply andb_prop in H as [H _]).
  destruct (mvs l) as [|u us] eqn:E; [apply kwrites_skip|].
  apply kwrites_mvds; [done|by apply ok|done|]. intros p Hp. rewrite E1. unfold clear, fill. fold (inside p).
  destruct (inside p) eqn:Ei; [|done]. symmetry. by apply Hno.
Qed.

Lemma kwrites_motion fsubs : match cabac_kind h with K_Inter _ _ | K_P8x8 _ | K_B8x8 => True | _ => False end ->
  cwrites fsubs (read_subs (cabac_kind h)) (subs_seen h) ->
  exists m, kwrites k (put_motion h fsubs refs mvs) (read_motion_cabac (cabac_context_of h k) (cabac_kind h)) (pred_seen h) (set_cache_mvd k m).
Proof.
  intros Hk Hs. destruct (save_mvd_fields h 0 (mvs 0) k) as [m0 E0]. destruct (save_mvd_fields h 1 (mvs 1) (fold_left (save_mvd h 0) (mvs 0) k)) as [m1 E1].
  exists m1. replace (set_cache_mvd k m1) with (set_cache_mvd (fold_left (save_mvd h 0) (mvs 0) k) m1) by by rewrite E0.
  rewrite <- E1. unfold put_motion, read_motion_cabac. cbv zeta. cbn [cabac_context_of k_num_ref k_ref_gt0 k_mvd].
  eapply kwrites_seq; [by apply kwrites_with|].
  eapply kwrites_seq; [by apply kwrites_put_refs; [left|..]|].
  eapply kwrites_seq; [by apply kwrites_put_refs; [right|..]|].
  eapply kwrites_seq; [by apply kwrites_put_mvds; [left|]|].
  eapply kwrites_last; [apply kwrites_put_mvds; [by right|intros q; by apply save_mvds_other]|].
  intros l. rewrite run_ret. do 2 f_equal. unfold pred_seen. revert Hk. unfold cabac_kind.
  destruct (Z.eqb_spec (i_type h) P_8x8) as [E|_]; [|by destruct (kind_seen h)].
  assert (kind_seen h = K_P8x8 (all_refs_0 h)) as -> by (unfold kind_seen; by rewrite E). done.
Qed.
End Motion.

(** ** Intra *)
Lemma intra_pred_k {S} {sink : CabacSink S} h ks : IS_INTRA (i_type h) = true -> write_mb_pred_cabac h ks = with_mb (write_intra_cabac h) ks.
Proof. intros H. unfold write_mb_pred_cabac. by rewrite H. Qed.

Lemma pred_NxN_cabac h k : mb_ok h -> loaded_ok h k -> i_type h = I_4x4 \/ i_type h = I_8x8 ->
  kwrites k (fun S sink => write_mb_pred_cabac h) (read_mb_pred_cabac (cabac_context_of h k) (cabac_kind h)) (pred_seen h) k.
Proof.
  intros ok L Ht. destruct (o_modes _ ok) as [M1 M2]. destruct (o_transform _ ok) as (T1 & T2 & T3 & _).
  assert (kind_seen h = K_NxN) as Ek by (unfold kind_seen; destruct Ht as [-> | ->]; reflexivity).
  assert (cabac_kind h = K_NxN) as -> by (unfold cabac_kind; rewrite Ek; by destruct Ht as [-> | ->]).
  assert (subs_seen h = []) as Es by (unfold subs_seen; destruct Ht as [-> | ->]; reflexivity).
  set (di := if i_type h =? I_8x8 then 4 else 1).
  exists (fun S sink => write_intra_cabac h k). split; [intros S sink s; rewrite intra_pred_k; [done|by destruct Ht as [-> | ->]]|].
  eapply cwrites_same with (g := fun S sink => when (b_transform_8x8_mode h) (x264_cabac_mb_transform_size h k) ;>
    (each (fun i => x264_cabac_mb_intra4x4_pred_mode (x264_mb_predict_intra4x4_mode h (i * di)) (mode_at h (i * di))) (seqZ 0 (16 / di)) ;>
     x264_cabac_mb_intra_chroma_pred_mode h k)).
  2:{ intros S sink s. unfold write_intra_cabac. fold di.
      replace (negb (i_type h =? I_16x16)) with true by (by destruct Ht as [-> | ->]). by rewrite andb_true_r. }
  unfold read_mb_pred_cabac. cbn [cabac_context_of k_transform_8x8_mode]. unfold pred_seen. rewrite Ek, Es. cbn [is_NxN is_16x16 orb ref_blocks mv_blocks fmap list_fmap andb]. fold di.
  eapply cwrites_seq with (a := i2b (b_transform_8x8 h)).
  { apply (cwrites_when _ (fun S sink => x264_cabac_mb_transform_size h k)); [intros _; by apply cwrites_transform_flag|].
    intros E. destruct Ht as [Ht|Ht]; [by rewrite (T2 Ht)|]. destruct (T3 Ht). congruence. }
  assert ((if i2b (b_transform_8x8 h) then 4 else 16) = 16 / di) as ->.
  { unfold di. destruct Ht as [Ht|Ht]; rewrite Ht; [by rewrite (T2 Ht)|]. by rewrite (proj1 (T3 Ht)). }
  eapply cwrites_seq with (a := (fun i => mode_code h (i * di)) <$> seqZ 0 (16 / di)).
  { apply (cwrites_each (fun i S sink => x264_cabac_mb_intra4x4_pred_mode (x264_mb_predict_intra4x4_mode h (i * di)) (mode_at h (i * di)))
      (fun _ => read_mode_cabac) (fun i => mode_code h (i * di))).
    apply List.Forall_forall. intros i Hi. apply list_elem_of_In, elem_of_seqZ in Hi. apply cwrites_mode; [by apply predicted_mode_range|].
    assert (0 <= i * di < 16) as Hd by (unfold di in *; destruct (i_type h =? I_8x8); Z.to_euclidean_division_equations; lia).
    unfold mode_at. destruct (mode_fix_range _ (M1 (scan8 (i * di)))) as [F1 F2]. rewrite Ek in M2. specialize (F2 (M2 eq_refl _ Hd)). lia. }
  eapply cwrites_last; [by apply cwrites_chroma_mode|intros l; apply run_ret].
Qed.

Lemma pred_16x16_cabac h k : mb_ok h -> loaded_ok h k -> i_type h = I_16x16 ->
  kwrites k (fun S sink => write_mb_pred_cabac h) (read_mb_pred_cabac (cabac_context_of h k) (cabac_kind h)) (pred_seen h) k.
Proof.
  intros ok L Ht. assert (exists mode cbp, kind_seen h = K_16x16 mode cbp) as (mode & cbp & Ek) by (unfold kind_seen; rewrite Ht; by do 2 eexists).
  assert (cabac_kind h = K_16x16 mode cbp) as -> by (unfold cabac_kind; rewrite Ek; by rewrite Ht).
  assert (subs_seen h = []) as Es by (unfold subs_seen; by rewrite Ht).
  exists (fun S sink => x264_cabac_mb_intra_chroma_pred_mode h k). split.
  - intros S sink s. rewrite intra_pred_k by by rewrite Ht. unfold with_mb, write_intra_cabac. rewrite Ht. cbn [Z.eqb Pos.eqb I_16x16 negb]. by rewrite andb_false_r.
  - unfold read_mb_pred_cabac, pred_seen. rewrite Ek, Es. cbn [is_NxN is_16x16 orb ref_blocks mv_blocks fmap list_fmap andb].
    eapply cwrites_last; [by apply cwrites_chroma_mode|intros l; apply run_ret].
Qed.

(** ** Partitions *)
Lemma pred_p_l0_cabac {S} {sink : CabacSink S} h k s : mb_ok h -> i_type h = P_L0 ->
  write_mb_pred_cabac h (k, s) = put_motion h (fun S sink s => s) (ref_units (kind_seen h) (subs_seen h)) (mv_units (kind_seen h) (subs_seen h)) S sink (k, s).
Proof.
  intros ok Ht. assert (kind_seen h = K_Inter (shape_seen h) (lists_seen h)) as -> by (unfold kind_seen; by rewrite Ht).
  unfold write_mb_pred_cabac, write_p_l0_cabac, subs_seen, shape_seen, lists_seen. rewrite Ht.
  unfold put_motion, put_refs.
  destruct (o_partition _ ok ltac:(left; exact Ht)) as [[Hp|[Hp|[]]]|[Hp _]]; [rewrite <- Hp|rewrite <- Hp|rewrite Hp];
    destruct (i_fref h 0 >? 1), (i_fref h 1 >? 1); reflexivity.
Qed.

Lemma pred_b_cabac {S} {sink : CabacSink S} h k s : mb_ok h -> B_DIRECT < i_type h < B_8x8 ->
  write_mb_pred_cabac h (k, s) = put_motion h (fun S sink s => s) (ref_units (kind_seen h) (subs_seen h)) (mv_units (kind_seen h) (subs_seen h)) S sink (k, s).
Proof.
  intros ok Ht. destruct (b_types h ok Ht) as (t & p & Hin & Et & Ep). clear Ht.
  unfold write_mb_pred_cabac, write_b_cabac, kind_seen, subs_seen, shape_seen, lists_seen. rewrite Et, Ep.
  unfold put_motion, put_refs, each. change (seqZ 0 2) with [0; 1]. cbn [fold_left]. unfold seq. cbn [In list_prod map app] in Hin.
  repeat (destruct Hin as [[= <- <-]|Hin]; [destruct (i_fref h 0 >? 1), (i_fref h 1 >? 1); reflexivity|]). done.
Qed.

(** ** Quarters *)
Definition sub_mv_rects (l i v : Z) : list rect := if uses l (snd (sub_seen v)) then sub_rects i (fst (sub_seen v)) else [].
Definition sub_ref_rects (l i v : Z) : list rect := if uses l (snd (sub_seen v)) then [(4 * i, 2, 2)] else [].

Lemma quarter_rects k l (v0 v1 v2 v3 : Z) : k = K_B8x8 \/ (exists ref0, k = K_P8x8 ref0) ->
  mv_rects k (sub_seen <$> [v0; v1; v2; v3]) l = sub_mv_rects l 0 v0 ++ sub_mv_rects l 1 v1 ++ sub_mv_rects l 2 v2 ++ sub_mv_rects l 3 v3 /\
  ref_rects k (sub_seen <$> [v0; v1; v2; v3]) l = sub_ref_rects l 0 v0 ++ sub_ref_rects l 1 v1 ++ sub_ref_rects l 2 v2 ++ sub_ref_rects l 3 v3.
Proof.
  intros Hk. assert (mv_rects k = mv_rects K_B8x8 /\ ref_rects k = ref_rects K_B8x8) as [-> ->] by (destruct Hk as [-> | [ref0 ->]]; done).
  unfold mv_rects, ref_rects, used_subs, sub_mv_rects, sub_ref_rects. change (seqZ 0 4) with [0; 1; 2; 3]. cbn [fmap list_fmap zip_with List.filter snd].
  destruct (uses l (snd (sub_seen v0))), (uses l (snd (sub_seen v1))), (uses l (snd (sub_seen v2))), (uses l (snd (sub_seen v3)));
    cbn [fmap list_fmap mjoin list_join fst snd]; by rewrite ?app_nil_r.
Qed.

Lemma mb8x8_mvd_rects {S} {sink : CabacSink S} h l i ks : l = 0 \/ l = 1 -> 0 <= i_sub_partition h i < 13 ->
  x264_cabac_mb8x8_mvd h l i ks = put_mvds h l (sub_mv_rects l i (i_sub_partition h i)) S sink ks.
Proof.
  intros Hl Hv. unfold x264_cabac_mb8x8_mvd. set (v := i_sub_partition h i) in *. apply sub_cases in Hv. rewrite Z.add_0_r.
  destruct Hl as [-> | ->]; repeat destruct Hv as [Hv|Hv]; rewrite Hv; reflexivity.
Qed.
Lemma put_mvds_app {S} {sink : CabacSink S} h l a b ks : put_mvds h l (a ++ b) S sink ks = put_mvds h l b S sink (put_mvds h l a S sink ks).
Proof. apply fold_left_app. Qed.
Lemma each_quarter_mvds {S} {sink : CabacSink S} h l k ks : l = 0 \/ l = 1 -> k = K_B8x8 \/ (exists ref0, k = K_P8x8 ref0) ->
  (forall i, 0 <= i < 4 -> 0 <= i_sub_partition h i < 13) ->
  each (fun i => x264_cabac_mb8x8_mvd h l i) (seqZ 0 4) ks =
  put_mvds h l (mv_rects k ((fun i => sub_seen (i_sub_partition h i)) <$> seqZ 0 4) l) S sink ks.
Proof.
  intros Hl Hk Hv. change (seqZ 0 4) with [0; 1; 2; 3].
  change ((fun i => sub_seen (i_sub_partition h i)) <$> [0; 1; 2; 3]) with
    (sub_seen <$> [i_sub_partition h 0; i_sub_partition h 1; i_sub_partition h 2; i_sub_partition h 3]).
  destruct (quarter_rects k l (i_sub_partition h 0) (i_sub_partition h 1) (i_sub_partition h 2) (i_sub_partition h 3) Hk) as [-> _].
  rewrite !put_mvds_app. unfold each. cbn [fold_left]. rewrite !mb8x8_mvd_rects by (done || (apply Hv; lia)). reflexivity.
Qed.

(** The references of the quarters that use a list. *)
Lemma quarter_refs {S} {sink : CabacSink S} h l k kind s : kind = K_B8x8 \/ (exists ref0, kind = K_P8x8 ref0) ->
  each (fun i => when (uses l (snd (sub_seen (i_sub_partition h i)))) (with_mb (fun k => x264_cabac_mb_ref h k l (4 * i)))) (seqZ 0 4) (k, s) =
  (k, write_refs_cabac h k l (ref_rects kind ((fun i => sub_seen (i_sub_partition h i)) <$> seqZ 0 4) l) S sink s).
Proof.
  intros Hk. change (seqZ 0 4) with [0; 1; 2; 3].
  change ((fun i => sub_seen (i_sub_partition h i)) <$> [0; 1; 2; 3]) with
    (sub_seen <$> [i_sub_partition h 0; i_sub_partition h 1; i_sub_partition h 2; i_sub_partition h 3]).
  destruct (quarter_rects kind l (i_sub_partition h 0) (i_sub_partition h 1) (i_sub_partition h 2) (i_sub_partition h 3) Hk) as [_ ->].
  unfold write_refs_cabac, each, sub_ref_rects. rewrite !fold_left_app. cbn [fold_left].
  destruct (uses l (snd (sub_seen (i_sub_partition h 0)))), (uses l (snd (sub_seen (i_sub_partition h 1)))),
    (uses l (snd (sub_seen (i_sub_partition h 2)))), (uses l (snd (sub_seen (i_sub_partition h 3)))); reflexivity.
Qed.

(** The units of quarters, as partitions of [CabacLayer]. *)
Lemma quarter_units h l : mb_ok h -> l = 0 \/ l = 1 -> i_type h = P_8x8 \/ i_type h = B_8x8 ->
  let subs := (fun i => sub_seen (i_sub_partition h i)) <$> seqZ 0 4 in
  subs_seen h = subs /\ mv_units (kind_seen h) (subs_seen h) l = mv_rects (cabac_kind h) subs l /\
  ref_units (kind_seen h) (subs_seen h) l = ref_rects (cabac_kind h) subs l.
Proof.
  intros ok Hl Ht. cbv zeta. destruct (units_seen h l ok Hl) as (<- & <- & _). assert (subs_seen h = (fun i => sub_seen (i_sub_partition h i)) <$> seqZ 0 4) as ->.
  { unfold subs_seen. by destruct Ht as [-> | ->]. }
  done.
Qed.

(** The order of all inter types, quarter by quarter. *)
Definition put_quarters (h : x264_t) (fsubs : c_writer) : k_writer := fun S sink =>
  let refs l := when (i_fref h l >? 1)
    (each (fun i => when (uses l (snd (sub_seen (i_sub_partition h i)))) (with_mb (fun k => x264_cabac_mb_ref h k l (4 * i)))) (seqZ 0 4)) in
  let mvds l := each (fun i => x264_cabac_mb8x8_mvd h l i) (seqZ 0 4) in
  with_mb (fun _ => fsubs S sink) ;> (refs 0 ;> (refs 1 ;> (mvds 0 ;> mvds 1))).

Lemma put_quarters_motion {S} {sink : CabacSink S} h fsubs k s : mb_ok h -> i_type h = P_8x8 \/ i_type h = B_8x8 ->
  put_quarters h fsubs S sink (k, s) =
  put_motion h fsubs (ref_units (kind_seen h) (subs_seen h)) (mv_units (kind_seen h) (subs_seen h)) S sink (k, s).
Proof.
  intros ok Ht. pose proof (fun l Hl => quarter_units h l ok Hl Ht) as HU. cbv zeta in HU.
  destruct (HU 0 (or_introl eq_refl)) as (_ & M0 & R0). destruct (HU 1 (or_intror eq_refl)) as (_ & M1 & R1). clear HU.
  assert (cabac_kind h = K_B8x8 \/ exists ref0, cabac_kind h = K_P8x8 ref0) as Ek.
  { unfold cabac_kind, kind_seen. destruct Ht as [-> | ->]; [right; by eexists|by left]. }
  assert (forall i, 0 <= i < 4 -> 0 <= i_sub_partition h i < 13) as Hv.
  { intros i Hi. destruct Ht as [Ht|Ht]; [destruct (o_sub_p _ ok Ht i Hi); lia|].
    pose proof (o_sub_b _ ok Ht i Hi) as H. cbn in H. unfold D_L0_8x8, D_L1_8x8, D_BI_8x8, D_DIRECT_8x8 in H. lia. }
  assert (forall l (k : cabac_mb) s, l = 0 \/ l = 1 -> when (i_fref h l >? 1) (each (fun i => when (uses l (snd (sub_seen (i_sub_partition h i))))
      (with_mb (fun k => x264_cabac_mb_ref h k l (4 * i)))) (seqZ 0 4)) (k, s) =
    put_refs h l (ref_rects (cabac_kind h) ((fun i => sub_seen (i_sub_partition h i)) <$> seqZ 0 4) l) S sink (k, s)) as HR.
  { intros l k' s' Hl. unfold put_refs, with_mb at 2. destruct (i_fref h l >? 1); [|done]. cbn [when]. by apply quarter_refs. }
  unfold put_quarters, put_motion, seq. rewrite M0, M1, R0, R1.
  change (with_mb (fun _ => fsubs S sink) (k, s)) with (k, fsubs S sink s). rewrite HR by (by left).
  change (put_refs h 0 ?us S sink (k, ?x)) with (k, when (i_fref h 0 >? 1) (write_refs_cabac h k 0 us S sink) x). rewrite HR by (by right).
  rewrite !(each_quarter_mvds h _ (cabac_kind h)) by (auto || done). reflexivity.
Qed.

Lemma pred_p_8x8_cabac {S} {sink : CabacSink S} h k s : mb_ok h -> i_type h = P_8x8 ->
  write_mb_pred_cabac h (k, s) = put_quarters h (fun S sink => each (fun i => x264_cabac_mb_sub_p_partition (i_sub_partition h i)) (seqZ 0 4)) S sink (k, s).
Proof.
  intros ok Ht. assert (forall v, 0 <= v < 4 -> uses 0 (snd (sub_seen v)) = true /\ uses 1 (snd (sub_seen v)) = false /\ tbl2 x264_mb_partition_listX_table 1 v = 0) as HP.
  { intros v Hr. assert (v = 0 \/ v = 1 \/ v = 2 \/ v = 3) as [-> |[-> |[-> | ->]]] by lia; done. }
  unfold write_mb_pred_cabac, write_p_8x8_cabac, put_quarters. rewrite Ht. cbn [IS_INTRA Z.eqb Pos.eqb P_8x8 P_L0 I_4x4 I_8x8 I_16x16 I_PCM orb].
  unfold seq, each. change (seqZ 0 4) with [0; 1; 2; 3]. cbn [fold_left]. unfold x264_cabac_mb8x8_mvd at 5 6 7 8.
  destruct (HP _ (proj1 (o_sub_p _ ok Ht 0 ltac:(lia)))) as (-> & -> & ->), (HP _ (proj1 (o_sub_p _ ok Ht 1 ltac:(lia)))) as (-> & -> & ->),
    (HP _ (proj1 (o_sub_p _ ok Ht 2 ltac:(lia)))) as (-> & -> & ->), (HP _ (proj1 (o_sub_p _ ok Ht 3 ltac:(lia)))) as (-> & -> & ->).
  destruct (i_fref h 0 >? 1), (i_fref h 1 >? 1); reflexivity.
Qed.

(** A list without references is used by no quarter. *)
Lemma b_quarter_refs {S} {sink : CabacSink S} h k l s : mb_ok h -> i_type h = B_8x8 -> l = 0 \/ l = 1 ->
  when (negb (i_fref h l =? 1)) (each (fun i => when (i2b (tbl2 x264_mb_partition_listX_table l (i_sub_partition h i)))
    (with_mb (fun k => x264_cabac_mb_ref h k l (4*i)))) (seqZ 0 4)) (k, s) =
  when (i_fref h l >? 1) (each (fun i => when (uses l (snd (sub_seen (i_sub_partition h i))))
    (with_mb (fun k => x264_cabac_mb_ref h k l (4 * i)))) (seqZ 0 4)) (k, s).
Proof.
  intros ok Ht Hl. assert (forall i, 0 <= i < 4 -> i2b (tbl2 x264_mb_partition_listX_table l (i_sub_partition h i)) = uses l (snd (sub_seen (i_sub_partition h i)))) as E.
  { intros i Hi. pose proof (o_sub_b _ ok Ht i Hi) as H. cbn [In] in H. destruct Hl as [-> | ->]; destruct H as [<-|[<-|[<-|[<-|[]]]]]; reflexivity. }
  assert (each (fun i => when (i2b (tbl2 x264_mb_partition_listX_table l (i_sub_partition h i))) (with_mb (fun k => x264_cabac_mb_ref h k l (4*i)))) (seqZ 0 4) (k, s) =
    each (fun i => when (uses l (snd (sub_seen (i_sub_partition h i)))) (with_mb (fun k => x264_cabac_mb_ref h k l (4 * i)))) (seqZ 0 4) (k, s)) as E'.
  { change (seqZ 0 4) with [0; 1; 2; 3]. unfold each. cbn [fold_left]. by rewrite !E by lia. }
  destruct (Z.eqb_spec (i_fref h l) 1) as [->|H1]; [done|]. cbn [negb when]. rewrite E'. destruct (Z.gtb_spec (i_fref h l) 1); [done|]. cbn [when].
  assert (cabac_kind h = K_B8x8) as Ek by (unfold cabac_kind, kind_seen; by rewrite Ht).
  rewrite (quarter_refs h l k (cabac_kind h)) by by left. destruct (quarter_units h l ok Hl (or_intror Ht)) as (_ & _ & <-).
  assert (ref_blocks (kind_seen h) (subs_seen h) l = []) as Er.
  { pose proof (o_refs _ ok l Hl) as Hr. destruct (ref_blocks (kind_seen h) (subs_seen h) l); [done|]. inversion Hr as [|? ? Hi]; lia. }
  unfold ref_units. by rewrite Er.
Qed.

Lemma pred_b_8x8_cabac {S} {sink : CabacSink S} h k s : mb_ok h -> i_type h = B_8x8 ->
  write_mb_pred_cabac h (k, s) = put_quarters h (fun S sink => each (fun i => x264_cabac_mb_sub_b_partition (i_sub_partition h i)) (seqZ 0 4)) S sink (k, s).
Proof.
  intros ok Ht. unfold write_mb_pred_cabac, write_b_8x8_cabac, put_quarters. rewrite Ht. cbn [IS_INTRA Z.eqb Pos.eqb B_8x8 P_8x8 P_L0 I_4x4 I_8x8 I_16x16 I_PCM orb].
  change (seqZ 0 2) with [0; 1]. unfold seq. 
  change (with_mb (fun _ => ?f) (k, ?x)) with (k, f x). match goal with |- context [(k, each ?f ?l s)] => set (x := each f l s) end.
  change (each ?f [0; 1] ?ks) with (f 1 (f 0 ks)). cbv beta. rewrite (b_quarter_refs h k 0) by (auto || done).
  set (y := when (i_fref h 0 >? 1) _ (k, x)).
  assert (y = (k, y.2)) as Ey.
  { unfold y. destruct (i_fref h 0 >? 1); [|done]. cbn [when]. by rewrite (quarter_refs h 0 k K_B8x8) by by left. }
  rewrite Ey, (b_quarter_refs h k 1) by (auto || done). reflexivity.
Qed.

(** ** Every type *)
Lemma cwrites_p_subs h : mb_ok h -> i_type h = P_8x8 ->
  cwrites (fun S sink => each (fun i => x264_cabac_mb_sub_p_partition (i_sub_partition h i)) (seqZ 0 4)) (ceach (fun _ => read_p_sub) (seqZ 0 4)) (subs_seen h).
Proof.
  intros ok Ht. unfold subs_seen. rewrite Ht. cbn [Z.eqb Pos.eqb P_8x8 B_8x8 orb].
  apply (cwrites_each (fun i S sink => x264_cabac_mb_sub_p_partition (i_sub_partition h i)) (fun _ => read_p_sub) (fun i => sub_seen (i_sub_partition h i))).
  apply List.Forall_forall. intros i Hi. apply list_elem_of_In, elem_of_seqZ in Hi. apply cwrites_p_sub. by apply (o_sub_p _ ok Ht).
Qed.
Lemma cwrites_b_subs h : mb_ok h -> i_type h = B_8x8 ->
  cwrites (fun S sink => each (fun i => x264_cabac_mb_sub_b_partition (i_sub_partition h i)) (seqZ 0 4)) (ceach (fun _ => read_b_sub) (seqZ 0 4)) (subs_seen h).
Proof.
  intros ok Ht. unfold subs_seen. rewrite Ht. cbn [Z.eqb Pos.eqb P_8x8 B_8x8 orb].
  apply (cwrites_each (fun i S sink => x264_cabac_mb_sub_b_partition (i_sub_partition h i)) (fun _ => read_b_sub) (fun i => sub_seen (i_sub_partition h i))).
  apply List.Forall_forall. intros i Hi. apply list_elem_of_In, elem_of_seqZ in Hi. apply cwrites_b_sub.
  pose proof (o_sub_b _ ok Ht i Hi) as H. cbn in H. unfold D_L0_8x8, D_L1_8x8, D_BI_8x8, D_DIRECT_8x8 in H. lia.
Qed.

(** What [x264_macroblock_write_cabac] writes of the prediction is read back, with the
    contexts of the references and vector differences the decoder has read itself. *)
Lemma kwrites_pred h k : mb_ok h -> loaded_ok h k -> motion_known h k ->
  exists m, kwrites k (fun S sink => write_mb_pred_cabac h) (read_mb_pred_cabac (cabac_context_of h k) (cabac_kind h)) (pred_seen h) (set_cache_mvd k m).
Proof.
  intros ok L mok. assert (k = set_cache_mvd k (cache_mvd k)) as Ek by by destruct k.
  destruct (o_type _ ok) as [[Ht _]|[[Ht _]|[Ht _]]].
  - exists (cache_mvd k). rewrite <- Ek. destruct Ht as [Ht|[Ht|[Ht|[]]]]; [apply pred_NxN_cabac|apply pred_NxN_cabac|apply pred_16x16_cabac]; auto.
  - destruct Ht as [Ht|[Ht|[]]]; symmetry in Ht.
    + assert (cabac_kind h = K_Inter (shape_seen h) (lists_seen h)) as Ec by (unfold cabac_kind, kind_seen; by rewrite Ht).
      destruct (kwrites_motion h k ok mok (fun S sink s => s)) as [m H]; [by rewrite Ec|rewrite Ec; unfold subs_seen; rewrite Ht; apply cwrites_skip|].
      exists m. rewrite Ec in H |- *. eapply kwrites_same; [exact H|]. intros S sink s. by apply pred_p_l0_cabac.
    + assert (cabac_kind h = K_P8x8 false) as Ec by (unfold cabac_kind; by rewrite Ht).
      destruct (kwrites_motion h k ok mok _ ltac:(by rewrite Ec) ltac:(rewrite Ec; by apply cwrites_p_subs)) as [m H].
      exists m. rewrite Ec in H |- *. eapply kwrites_same; [exact H|]. intros S sink s. rewrite pred_p_8x8_cabac by done. apply put_quarters_motion; auto.
  - destruct (Z.eq_dec (i_type h) B_DIRECT) as [E|H1]; [|destruct (Z.eq_dec (i_type h) B_8x8) as [E|H2]].
    + exists (cache_mvd k). rewrite <- Ek. assert (cabac_kind h = K_Direct) as -> by (unfold cabac_kind, kind_seen; by rewrite E).
      eapply kwrites_same; [|intros S sink s; unfold write_mb_pred_cabac; rewrite E; reflexivity].
      assert (pred_seen h = MbPred false [] 0 [] [] [] [] []) as -> by (unfold pred_seen, subs_seen, kind_seen; by rewrite E). apply kwrites_skip.
    + assert (cabac_kind h = K_B8x8) as Ec by (unfold cabac_kind, kind_seen; by rewrite E).
      destruct (kwrites_motion h k ok mok _ ltac:(by rewrite Ec) ltac:(rewrite Ec; by apply cwrites_b_subs)) as [m H].
      exists m. rewrite Ec in H |- *. eapply kwrites_same; [exact H|]. intros S sink s. rewrite pred_b_8x8_cabac by done. apply put_quarters_motion; auto.
    + assert (B_DIRECT < i_type h < B_8x8) as Hb by lia.
      destruct (motion_kinds h ok) as [(Ek1 & Es & _)|[[[E|E] _]|[_ Hk]]]; [|unfold B_DIRECT, P_8x8 in *; lia|done|].
      * assert (cabac_kind h = K_Inter (shape_seen h) (lists_seen h)) as Ec.
        { unfold cabac_kind. replace (i_type h =? P_8x8) with false by (unfold B_DIRECT, P_8x8 in *; lia). done. }
        destruct (kwrites_motion h k ok mok (fun S sink s => s)) as [m H]; [by rewrite Ec|rewrite Ec, Es; apply cwrites_skip|].
        exists m. rewrite Ec in H |- *. eapply kwrites_same; [exact H|]. intros S sink s. by apply pred_b_cabac.
      * exfalso. destruct (b_types h ok Hb) as (t & p & Hin & Et & Ep). destruct (Hk 0) as [_ K0]. destruct (Hk 1) as [_ K1].
        unfold kind_seen, shape_seen, lists_seen in K0, K1. rewrite Et, Ep in K0, K1. cbn [In list_prod map app] in Hin.
        repeat (destruct Hin as [[= <- <-]|Hin]; [vm_compute in K0, K1; discriminate|]). done.
Qed.
