(* ===== verification/CabacResidual.v ===== *)
(** * Residual blocks in CABAC, written and read back *)
From S2P Require Import Prelude Syntax Quant Mb MbLayer Cavlc CavlcMb MbRoundtrip CabacTables Cabac CabacMb CabacLayer CabacCodes CabacElements.

(** ** Significance map *)
Definition nz (l : Z -> Z) (i : Z) : bool := negb (l i =? 0).
Definition significant (l : Z -> Z) (lo n : Z) : list Z := List.filter (nz l) (seqZ lo n).
Definition sig_step (sig last : Z -> Z) (l : Z -> Z) (i_last i : Z) : list cop :=
  if nz l i then [Dec (sig i) 1; Dec (last i) (b2i (i =? i_last))] else [Dec (sig i) 0].
Definition sig_ops (sig last : Z -> Z) (l : Z -> Z) (i_last lo n : Z) : list cop := mjoin (sig_step sig last l i_last <$> seqZ lo n).

Lemma significant_S l lo n : 0 <= n -> significant l lo (n + 1) = significant l lo n ++ (if nz l (lo + n) then [lo + n] else []).
Proof.
  intros Hn. unfold significant. rewrite seqZ_app, filter_app by lia. done.
Qed.
Lemma significant_cons l lo n : 0 < n -> significant l lo n = (if nz l lo then [lo] else []) ++ significant l (lo + 1) (n - 1).
Proof.
  intros Hn. unfold significant. rewrite seqZ_cons by lia. replace (Z.succ lo) with (lo + 1) by lia. replace (Z.pred n) with (n - 1) by lia.
  cbn [List.filter]. by destruct (nz l lo).
Qed.
Lemma sig_ops_S sig last l i_last lo n : 0 <= n -> sig_ops sig last l i_last lo (n + 1) = sig_ops sig last l i_last lo n ++ sig_step sig last l i_last (lo + n).
Proof.
  intros Hn. unfold sig_ops. rewrite seqZ_app, fmap_app by lia. rewrite (seqZ_cons (lo + n)) by lia.
  change (seqZ (Z.succ (lo + n)) (Z.pred 1)) with (@nil Z). cbn [fmap list_fmap]. rewrite join_app. cbn [mjoin list_join]. by rewrite app_nil_r.
Qed.
Lemma sig_ops_cons sig last l i_last lo n : 0 < n -> sig_ops sig last l i_last lo n = sig_step sig last l i_last lo ++ sig_ops sig last l i_last (lo + 1) (n - 1).
Proof. intros Hn. unfold sig_ops. rewrite seqZ_cons by lia. replace (Z.succ lo) with (lo + 1) by lia. by replace (Z.pred n) with (n - 1) by lia. Qed.

Lemma read_sigmap_ops field cat l i_last rest m : forall i, 0 <= i <= i_last -> i_last <= i + Z.of_nat m -> nz l i_last = true ->
  run_bins (read_sigmap m field cat i)
    ((op_bin <$> sig_ops (sig_ctx field cat) (last_ctx field cat) l i_last i (Z.min (i_last + 1) (i + Z.of_nat m) - i)) ++ rest) =
  Some (significant l i (i_last + 1 - i), rest).
Proof.
  induction m as [|m IH]; intros i Hi Hm Hnz.
  - replace i_last with i in * by lia. replace (Z.min (i + 1) (i + Z.of_nat 0) - i) with 0 by lia. replace (i + 1 - i) with (0 + 1) by lia.
    rewrite significant_S, Z.add_0_r, Hnz by lia. cbn [read_sigmap]. apply run_ret.
  - rewrite sig_ops_cons, significant_cons by lia. rewrite fmap_app, <- app_assoc.
    replace (Z.min (i_last + 1) (i + Z.of_nat (S m)) - i - 1) with (Z.min (i_last + 1) (i + 1 + Z.of_nat m) - (i + 1)) by lia.
    replace (i_last + 1 - i - 1) with (i_last + 1 - (i + 1)) by lia.
    unfold sig_step. destruct (nz l i) eqn:E.
    + cbn [fmap list_fmap Dec op_bin app read_sigmap mbind cparser_bind cbind decision run_bins]. rewrite !Z.eqb_refl. cbn [Z.eqb].
      cbn [mbind cparser_bind cbind decision run_bins]. rewrite Z.eqb_refl. destruct (Z.eqb_spec i i_last) as [->|Hne]; cbn [b2i Z.eqb Pos.eqb].
      * replace (Z.min (i_last + 1) (i_last + 1 + Z.of_nat m) - (i_last + 1)) with 0 by lia. replace (i_last + 1 - (i_last + 1)) with 0 by lia.
        rewrite run_ret. done.
      * fold (cbind (A := list Z) (B := list Z)). change (cbind ?f ?r) with (r ≫= f). rewrite run_bind, IH by (lia || done). apply run_ret.
    + cbn [fmap list_fmap Dec op_bin app read_sigmap mbind cparser_bind cbind decision run_bins]. rewrite !Z.eqb_refl. cbn [Z.eqb].
      apply IH; [|lia|done]. split; [lia|]. destruct (Z.eq_dec i i_last) as [->|]; [congruence|lia].
Qed.

(** The arrays hold the magnitudes and, for the bitstream, the signs of the levels at [P]. *)
Definition arrays_of (skip : bool) (l : Z -> Z) (P : list Z) (am sg : Z -> Z) : Prop :=
  forall j p, P !! j = Some p -> am (Z.of_nat j) = Z.abs (l p) - 1 /\ (skip = false -> sg (Z.of_nat j) = b2i (l p <? 0)).

Lemma arrays_snoc skip l P am sg p : arrays_of skip l P am sg ->
  arrays_of skip l (P ++ [p]) (upd am (Z.of_nat (length P)) (Z.abs (l p) - 1))
    (if negb skip then upd sg (Z.of_nat (length P)) (b2i (l p <? 0)) else sg).
Proof.
  intros H j q Hq. apply lookup_snoc_Some in Hq as [[Hj Hq]|[-> ->]].
  - destruct (H j q Hq) as [H1 H2]. destruct skip; unfold upd; cbn [negb]; replace (Z.of_nat j =? Z.of_nat (length P)) with false by lia; done.
  - unfold upd. rewrite Z.eqb_refl. destruct skip; [done|]. cbn [negb]. by rewrite Z.eqb_refl.
Qed.

Lemma sigmap_written {S} {sink : CabacSink S} sig last l i_last n (s : S) : 0 <= n ->
  exists am sg, WRITE_SIGMAP sig last l i_last n s =
    (Z.of_nat (length (significant l 0 n)), am, sg, put_ops s (sig_ops sig last l i_last 0 n)) /\
    arrays_of ck_skip l (significant l 0 n) am sg.
Proof.
  intros Hn. unfold WRITE_SIGMAP. set (m := Z.to_nat n). replace n with (0 + Z.of_nat m) by lia. clearbody m.
  apply (for_inv (fun i st => exists am sg, st = (Z.of_nat (length (significant l 0 i)), am, sg, put_ops s (sig_ops sig last l i_last 0 i)) /\
    arrays_of ck_skip l (significant l 0 i) am sg)).
  - exists (fun _ => 0), (fun _ => 0). split; [done|]. intros j p Hp. done.
  - intros i st Hi (am & sg & -> & HA). rewrite significant_S, sig_ops_S, put_ops_app by lia. rewrite !Z.add_0_l. unfold sig_step, nz. unfold i2b.
    destruct (Z.eqb_spec (l i) 0) as [E|E]; cbn [negb].
    + rewrite app_nil_r. by exists am, sg.
    + do 2 eexists. split; [|by apply arrays_snoc]. rewrite length_app. cbn [length]. do 3 f_equal. lia.
Qed.

(** ** Levels *)
Definition level_ops (cat eq1 gt1 v : Z) : list cop :=
  let a := Z.abs v - 1 in
  unary_code (abs_ctx cat eq1 gt1) 0 (Z.min a 14) ++
  (if a <? 14 then [Dec (abs_ctx cat eq1 gt1 a) 0] else [Op (UeBypass 0 (a - 14))]) ++ [Op (Bypass (b2i (v <? 0)))].
Fixpoint levels_ops (cat : Z) (vs : list Z) (eq1 gt1 : Z) : list cop :=
  match vs with
  | [] => []
  | v :: vs => level_ops cat eq1 gt1 v ++ levels_ops cat vs (eq1 + b2i (Z.abs v =? 1)) (gt1 + b2i (Z.abs v >? 1))
  end.

Lemma level_read cat eq1 gt1 v : v <> 0 -> creads (read_level_cabac cat eq1 gt1) (op_bin <$> level_ops cat eq1 gt1 v) v.
Proof.
  intros Hv rest. unfold read_level_cabac, level_ops. cbv zeta. set (ctx := abs_ctx cat eq1 gt1). set (a := Z.abs v - 1). set (p := Z.min a 14). rewrite run_bind.
  destruct (Z.ltb_spec a 14) as [H|H].
  - rewrite app_assoc, fmap_app, <- app_assoc.
    pose proof (read_tu_code ctx ((op_bin <$> [Op (Bypass (b2i (v <? 0)))]) ++ rest) (Z.to_nat p) 14 0 p ltac:(lia) ltac:(lia) ltac:(lia)) as E.
    rewrite (proj2 (Nat.ltb_lt _ _)) in E by lia. rewrite Z2Nat.id in E by lia. replace a with p by lia. rewrite E.
    rewrite run_bind. replace (p <? 14) with true by lia. rewrite run_ret. run_bins_soft.
    destruct (Z.ltb_spec v 0); cbn [b2i Z.eqb Pos.eqb]; do 2 f_equal; lia.
  - rewrite fmap_app, <- app_assoc.
    pose proof (read_tu_code ctx ((op_bin <$> [Op (UeBypass 0 (a - 14))] ++ [Op (Bypass (b2i (v <? 0)))]) ++ rest) (Z.to_nat p) 14 0 p ltac:(lia) ltac:(lia) ltac:(lia)) as E.
    rewrite (proj2 (Nat.ltb_ge _ _)) in E by lia. rewrite Z2Nat.id, app_nil_r in E by lia. rewrite E.
    rewrite run_bind. replace (p <? 14) with false by lia. run_bins_soft.
    destruct (Z.ltb_spec v 0); cbn [b2i Z.eqb Pos.eqb]; do 2 f_equal; lia.
Qed.

Lemma levels_read cat (l : Z -> Z) P : Forall (fun i => l i <> 0) P -> forall eq1 gt1,
  creads (read_levels cat P eq1 gt1) (op_bin <$> levels_ops cat (l <$> P) eq1 gt1) ((fun i => (i, l i)) <$> P).
Proof.
  induction 1 as [|i P Hi _ IH]; intros eq1 gt1; [apply creads_ret|]. cbn [fmap list_fmap read_levels levels_ops].
  rewrite fmap_app. eapply creads_bind; [by apply level_read|]. cbv beta. intros rest. by rewrite run_bind, IH, run_ret.
Qed.

(** The contexts of the encoder's automaton. *)
Definition node_of (eq1 gt1 : Z) : Z := if gt1 =? 0 then Z.min eq1 3 else Z.min (3 + gt1) 7.
Lemma node_ctx eq1 gt1 : 0 <= eq1 -> 0 <= gt1 ->
  tbl coeff_abs_level1_ctx (node_of eq1 gt1) = (if gt1 =? 0 then Z.min 4 (1 + eq1) else 0) /\
  tbl coeff_abs_levelgt1_ctx (node_of eq1 gt1) = 5 + Z.min 4 gt1 /\
  tbl2 coeff_abs_level_transition 0 (node_of eq1 gt1) = node_of (eq1 + 1) gt1 /\
  tbl2 coeff_abs_level_transition 1 (node_of eq1 gt1) = node_of eq1 (gt1 + 1).
Proof.
  intros H1 H2. unfold node_of. replace (gt1 + 1 =? 0) with false by lia. destruct (Z.eqb_spec gt1 0) as [->|Hg].
  - assert (eq1 = 0 \/ eq1 = 1 \/ eq1 = 2 \/ 3 <= eq1) as [-> |[-> |[-> |H]]] by lia; [by repeat split..|].
    replace (Z.min eq1 3) with 3 by lia. replace (Z.min (eq1 + 1) 3) with 3 by lia. split; [change (4 = Z.min 4 (1 + eq1)); lia|by repeat split].
  - assert (gt1 = 1 \/ gt1 = 2 \/ gt1 = 3 \/ 4 <= gt1) as [-> |[-> |[-> |H]]] by lia; [by repeat split..|].
    replace (Z.min (3 + gt1) 7) with 7 by lia. replace (Z.min (3 + (gt1 + 1)) 7) with 7 by lia. replace (Z.min 4 gt1) with 4 by lia. by repeat split.
Qed.

Lemma abs_offset_source cat : 0 <= cat <= 5 -> tbl coeff_abs_level_m1_offset cat = abs_offset cat /\ 227 <= abs_offset cat <= 426.
Proof. intros Hc. assert (cat = 0 \/ cat = 1 \/ cat = 2 \/ cat = 3 \/ cat = 4 \/ cat = 5) as [-> |[-> |[-> |[-> |[-> | ->]]]]] by lia; split; (reflexivity || (vm_compute; split; discriminate)). Qed.
Lemma abs_ctx_ok cat eq1 gt1 i : 0 <= cat <= 5 -> 0 <= eq1 -> 0 <= gt1 -> ctx_ok (abs_ctx cat eq1 gt1 i).
Proof.
  intros Hc H1 H2. apply ctx_ok_range. destruct (abs_offset_source cat Hc) as [_ Ho]. unfold abs_ctx.
  destruct (i =? 0), (gt1 =? 0), (cat =? 3); cbn [b2i]; lia.
Qed.
Definition level_fits (v : Z) : Prop := v <> 0 /\ Z.abs v <= 2 ^ 15.
Lemma level_ops_ok cat eq1 gt1 v : 0 <= cat <= 5 -> 0 <= eq1 -> 0 <= gt1 -> level_fits v -> Forall op_ok (level_ops cat eq1 gt1 v).
Proof.
  intros Hc H1 H2 [Hv Hm]. unfold level_ops. cbv zeta. apply Forall_app. split; [apply unary_code_ok; intros; by apply abs_ctx_ok|]. apply Forall_app. split; [|ops_ok].
  destruct (Z.ltb_spec (Z.abs v - 1) 14); ops_ok; [apply dec_ok; [by apply abs_ctx_ok|by left]|split; lia].
Qed.
Lemma levels_ops_ok cat vs : 0 <= cat <= 5 -> Forall level_fits vs -> forall eq1 gt1, 0 <= eq1 -> 0 <= gt1 -> Forall op_ok (levels_ops cat vs eq1 gt1).
Proof.
  intros Hc. induction 1 as [|v vs Hv _ IH]; intros eq1 gt1 H1 H2; [constructor|]. cbn [levels_ops]. apply Forall_app. split; [by apply level_ops_ok|].
  apply IH; destruct (Z.abs v =? 1), (Z.abs v >? 1); cbn [b2i]; lia.
Qed.

Fixpoint lev_match (skip : bool) (vs : list Z) (am sg : Z -> Z) : Prop :=
  match vs with
  | [] => True
  | v :: vs => (am (Z.of_nat (length vs)) = Z.abs v - 1 /\ (skip = false -> sg (Z.of_nat (length vs)) = b2i (v <? 0))) /\ lev_match skip vs am sg
  end.
Lemma arrays_match skip l P am sg : arrays_of skip l P am sg -> lev_match skip (l <$> rev P) am sg.
Proof.
  induction P as [|p P IH] using rev_ind; intros H; [done|]. rewrite rev_app_distr. cbn [rev app fmap list_fmap lev_match].
  rewrite length_fmap, length_rev. split.
  - apply H. by rewrite lookup_app_r, Nat.sub_diag by lia.
  - apply IH. intros j q Hq. apply H. rewrite lookup_app_l; [done|]. by eapply lookup_lt_Some.
Qed.

Lemma unary_const (x : Z) lo n : unary_code (fun _ => x) lo n = replicate (Z.to_nat n) (Dec x 1).
Proof. unfold unary_code. rewrite (const_fmap _ _ (Dec x 1)) by done. by rewrite length_seqZ. Qed.
(** A magnitude above one: the second context is that of all later bins. *)
Lemma abs_unary cat eq1 gt1 p : 0 < p -> unary_code (abs_ctx cat eq1 gt1) 0 p =
  Dec (abs_ctx cat eq1 gt1 0) 1 :: replicate (Z.to_nat (p - 1)) (Dec (abs_ctx cat eq1 gt1 1) 1).
Proof.
  intros Hp. rewrite unary_code_cons by lia. f_equal. rewrite <- (unary_const _ 1). unfold unary_code. apply list_fmap_ext.
  intros _ i Hi%list_elem_of_lookup_2%elem_of_seqZ. unfold abs_ctx. replace (i =? 0) with false by lia. done.
Qed.

(** The same operations, grouped differently. *)
Ltac same_ops H := match type of H with ?R ?s ?c => match goal with |- ?R ?s ?c' =>
  replace c' with c; [exact H|repeat (first [rewrite <- app_assoc | progress cbn [app]]); reflexivity] end end.

Section Levels.
Context {S : Type} {sink : CabacSink S} {R : S -> list cop -> Prop} {sim : CabacSim sink R}.

(** What the loop does with one level. *)
Definition put_magnitude (ctx1 ctxg a : Z) (s : S) : S :=
  let p := Z.min a 14 in
  if i2b p then
    let s := ck_decision s ctx1 1 in
    let s := if ck_skip then ck_unary s p ctxg
             else when (p <? 14) (fun s => ck_decision s ctxg 0) (for_ (Z.to_nat (p - 1)) 0 (fun _ s => ck_decision s ctxg 1) s) in
    when (p >=? 14) (fun s : S => ck_ue_bypass s 0 (a - 14)) s
  else when ck_skip (fun s => ck_bypass s 0) (ck_decision s ctx1 0).
Definition put_sign (b : Z) (s : S) : S := when (negb ck_skip) (fun s => ck_bypass s b) s.

Lemma level_written cat eq1 gt1 v b s c : 0 <= cat <= 5 -> 0 <= eq1 -> 0 <= gt1 -> level_fits v -> (ck_skip = false -> b = b2i (v <? 0)) -> R s c ->
  R (put_sign b (put_magnitude (abs_ctx cat eq1 gt1 0) (abs_ctx cat eq1 gt1 1) (Z.abs v - 1) s)) (c ++ level_ops cat eq1 gt1 v).
Proof.
  intros Hc H1 H2 Hv Hb HR. destruct Hv as [Hv0 Hv1]. pose proof (abs_ctx_ok cat eq1 gt1 0 Hc H1 H2) as C0. pose proof (abs_ctx_ok cat eq1 gt1 1 Hc H1 H2) as C1.
  assert (forall i, 1 <= i -> abs_ctx cat eq1 gt1 i = abs_ctx cat eq1 gt1 1) as CE.
  { intros i Hi. unfold abs_ctx. by replace (i =? 0) with false by lia. }
  unfold put_sign, put_magnitude, level_ops. cbv zeta. set (a := Z.abs v - 1) in *.
  assert (0 <= a < 2 ^ 15) as Ha by lia. set (c0 := abs_ctx cat eq1 gt1 0) in *. set (c1 := abs_ctx cat eq1 gt1 1) in *.
  unfold i2b. destruct (Z.eqb_spec (Z.min a 14) 0) as [E|E]; cbn [negb].
  - replace a with 0 by lia. change (c ++ _) with (c ++ [Dec c0 0] ++ [Op (Bypass (b2i (v <? 0)))]). rewrite app_assoc.
    assert (R (ck_decision s c0 0) (c ++ [Dec c0 0])) as HR1 by (apply (csim_op s c (Dec c0 0)); [done|by apply dec_ok; [|left]]).
    destruct ck_skip eqn:Ek; cbn [when negb].
    + apply csim_sign; [done|]. apply (csim_op _ _ (Op (Bypass 0))); [done|by left].
    + rewrite Hb by done. apply (csim_op _ _ (Op (Bypass (b2i (v <? 0))))); [done|apply b2i_bit].
  - rewrite abs_unary by lia. fold c0 c1.
    assert (R (ck_decision s c0 1) (c ++ [Dec c0 1])) as HR1 by (apply (csim_op s c (Dec c0 1)); [done|by apply dec_ok; [|right]]).
    destruct ck_skip eqn:Ek; cbn [when negb].
    + pose proof (csim_unary _ _ (Z.min a 14) c1 Ek HR1 ltac:(lia) C1) as HR2. unfold unary_ops in HR2.
      destruct (Z.ltb_spec a 14) as [H14|H14].
      * replace (Z.min a 14 >=? 14) with false by lia. replace (Z.min a 14 <? 14) with true in HR2 by lia. cbn [when].
        rewrite (CE a) by lia. rewrite !app_assoc. apply csim_sign; [done|]. same_ops HR2.
      * replace (Z.min a 14 >=? 14) with true by lia. replace (Z.min a 14 <? 14) with false in HR2 by lia. cbn [when].
        cbn [app] in HR2 |- *. apply (csim_op _ _ (Op (UeBypass 0 (a - 14)))) in HR2; [|split; lia].
        rewrite app_comm_cons, app_assoc. apply csim_swap; [done|]. same_ops HR2.
    + rewrite Hb by done. pose proof (level_ops_ok cat eq1 gt1 v Hc H1 H2 (conj Hv0 Hv1)) as Ok. unfold level_ops in Ok. cbv zeta in Ok. fold a in Ok.
      rewrite abs_unary in Ok by lia. fold c0 c1 in Ok. cbn [app] in Ok |- *. apply list.Forall_cons in Ok as [_ Ok].
      pose proof (emits_ops_all _ Ok S sink R sim _ _ HR1) as HR2. cbv beta in HR2. rewrite !put_ops_app in HR2.
      rewrite (ones_loop (fun _ => c1)), unary_const. replace (Z.to_nat (Z.of_nat (Z.to_nat (Z.min a 14 - 1)))) with (Z.to_nat (Z.min a 14 - 1)) by lia.
      destruct (Z.ltb_spec a 14) as [H14|H14].
      * replace (Z.min a 14 >=? 14) with false by lia. replace (Z.min a 14 <? 14) with true by lia. rewrite (CE a) in HR2 |- * by lia. same_ops HR2.
      * replace (Z.min a 14 >=? 14) with true by lia. replace (Z.min a 14 <? 14) with false by lia. same_ops HR2.
Qed.

Lemma write_levels_S n i_ctx am sg node (s : S) : write_levels (Datatypes.S n) i_ctx am sg node s =
  write_levels n i_ctx am sg (tbl2 coeff_abs_level_transition (if i2b (Z.min (am (Z.of_nat n)) 14) then 1 else 0) node)
    (put_sign (sg (Z.of_nat n)) (put_magnitude (tbl coeff_abs_level1_ctx node + i_ctx) (tbl coeff_abs_levelgt1_ctx node + i_ctx) (am (Z.of_nat n)) s)).
Proof.
  cbn [write_levels]. unfold put_magnitude, put_sign. cbv zeta.
  destruct (i2b (Z.min (am (Z.of_nat n)) 14)); [|done]. by destruct ck_skip.
Qed.

Lemma levels_written cat am sg vs : 0 <= cat <= 5 -> Forall level_fits vs -> lev_match ck_skip vs am sg ->
  forall eq1 gt1 s c, 0 <= eq1 -> 0 <= gt1 -> (cat = 3 -> eq1 + gt1 + Z.of_nat (length vs) <= 4) -> R s c ->
  R (write_levels (length vs) (tbl coeff_abs_level_m1_offset cat) am sg (node_of eq1 gt1) s) (c ++ levels_ops cat vs eq1 gt1).
Proof.
  intros Hc HF. induction HF as [|v vs Hv _ IH]; intros HM eq1 gt1 s c H1 H2 H3 HR; cbn [length levels_ops]; [by rewrite app_nil_r|].
  cbn [lev_match length] in HM, H3. destruct HM as [[Ha Hb] HM]. rewrite write_levels_S, Ha.
  destruct (node_ctx eq1 gt1 H1 H2) as (N1 & N2 & N3 & N4). destruct (abs_offset_source cat Hc) as [Ho _]. rewrite Ho in IH |- *. rewrite N1, N2.
  replace ((if gt1 =? 0 then Z.min 4 (1 + eq1) else 0) + abs_offset cat) with (abs_ctx cat eq1 gt1 0) by (unfold abs_ctx; cbn [Z.eqb]; lia).
  replace (5 + Z.min 4 gt1 + abs_offset cat) with (abs_ctx cat eq1 gt1 1) by (unfold abs_ctx; cbn [Z.eqb]; destruct (Z.eqb_spec cat 3); cbn [b2i]; lia).
  rewrite app_assoc. destruct (proj1 (conj Hv I)) as [Hv0 Hv1].
  assert (tbl2 coeff_abs_level_transition (if i2b (Z.min (Z.abs v - 1) 14) then 1 else 0) (node_of eq1 gt1) =
    node_of (eq1 + b2i (Z.abs v =? 1)) (gt1 + b2i (Z.abs v >? 1))) as ->.
  { unfold i2b. destruct (Z.eqb_spec (Z.min (Z.abs v - 1) 14) 0) as [E|E]; cbn [negb].
    - replace (Z.abs v =? 1) with true by lia. replace (Z.abs v >? 1) with false by lia. cbn [b2i]. by rewrite N3, Z.add_0_r.
    - replace (Z.abs v =? 1) with false by lia. replace (Z.abs v >? 1) with true by lia. cbn [b2i]. by rewrite N4, Z.add_0_r. }
  apply IH; [done|destruct (Z.abs v =? 1); cbn [b2i]; lia|destruct (Z.abs v >? 1); cbn [b2i]; lia| |by apply level_written].
  intros E. specialize (H3 E). destruct (Z.eqb_spec (Z.abs v) 1), (Z.gtb_spec (Z.abs v) 1); cbn [b2i]; lia.
Qed.
End Levels.

(** ** A block *)
Definition o_writer : Type := forall S, CabacSink S -> S -> option S.
Definition owrites {A} (f : o_writer) (r : cparser A) (v : A) : Prop :=
  exists ops, creads r (op_bin <$> ops) v /\ Forall op_ok ops /\
    forall S (sink : CabacSink S) (R : S -> list cop -> Prop), CabacSim sink R -> forall s c, R s c ->
      exists s', f S sink s = Some s' /\ R s' (c ++ ops).

Definition cat_count (cat count : Z) : Prop :=
  (cat = 0 /\ count = 16) \/ (cat = 1 /\ count = 15) \/ (cat = 2 /\ count = 16) \/ (cat = 3 /\ count = 4) \/ (cat = 4 /\ count = 15) \/ (cat = 5 /\ count = 64).

(** The contexts of the source's tables are the standard's. *)
Lemma contexts_source b cat count i : b = 0 \/ b = 1 -> cat_count cat count -> 0 <= i < count - 1 ->
  tbl2 significant_coeff_flag_offset b cat + (if cat =? DCT_LUMA_8x8 then tbl2 significant_coeff_flag_offset_8x8 b i else i) = sig_ctx (i2b b) cat i /\
  tbl2 last_coeff_flag_offset b cat + (if cat =? DCT_LUMA_8x8 then tbl last_coeff_flag_offset_8x8 i else i) = last_ctx (i2b b) cat i /\
  ctx_ok (sig_ctx (i2b b) cat i) /\ ctx_ok (last_ctx (i2b b) cat i).
Proof.
  intros Hb Hc Hi.
  assert (all_range 0 (Z.to_nat (count - 1)) (fun i =>
    (tbl2 significant_coeff_flag_offset b cat + (if cat =? DCT_LUMA_8x8 then tbl2 significant_coeff_flag_offset_8x8 b i else i) =? sig_ctx (i2b b) cat i) &&
    (tbl2 last_coeff_flag_offset b cat + (if cat =? DCT_LUMA_8x8 then tbl last_coeff_flag_offset_8x8 i else i) =? last_ctx (i2b b) cat i) &&
    (0 <=? sig_ctx (i2b b) cat i) && (sig_ctx (i2b b) cat i <? 460) && (0 <=? last_ctx (i2b b) cat i) && (last_ctx (i2b b) cat i <? 460)) = true) as C.
  { destruct Hb as [-> | ->]; unfold cat_count in Hc; repeat (destruct Hc as [[-> ->]|Hc]; [vm_compute; reflexivity|]); destruct Hc as [-> ->]; vm_compute; reflexivity. }
  eapply all_range_spec with (i := i) in C; [|lia]. cbv beta in C. rewrite !andb_true_iff in C.
  destruct C as (((((C1 & C2) & C3) & C4) & C5) & C6). unfold ctx_ok. lia.
Qed.

Lemma sig_ops_ext sig last sig' last' l i_last lo n : (forall i, lo <= i < lo + n -> sig i = sig' i /\ last i = last' i) ->
  sig_ops sig last l i_last lo n = sig_ops sig' last' l i_last lo n.
Proof.
  intros H. unfold sig_ops. f_equal. apply list_fmap_ext. intros _ i Hi%list_elem_of_lookup_2%elem_of_seqZ.
  unfold sig_step. destruct (H i ltac:(lia)) as [-> ->]. done.
Qed.
Lemma sig_ops_ok sig last l i_last lo n : (forall i, lo <= i < lo + n -> ctx_ok (sig i) /\ ctx_ok (last i)) -> Forall op_ok (sig_ops sig last l i_last lo n).
Proof.
  intros H. unfold sig_ops. apply Forall_join, list.Forall_fmap, list.Forall_forall. intros i Hi%elem_of_seqZ.
  destruct (H i ltac:(lia)). unfold compose, sig_step. destruct (nz l i); ops_ok.
Qed.

Lemma level_of_spec l Q i : level_of ((fun i => (i, l i)) <$> Q) i = if existsb (Z.eqb i) Q then l i else 0.
Proof.
  unfold level_of. induction Q as [|q Q IH]; [done|]. cbn [fmap list_fmap find existsb fst]. rewrite (Z.eqb_sym i q).
  destruct (Z.eqb_spec q i) as [->|]; [done|exact IH].
Qed.
Lemma levels_decoded l count i_last : i_last < count -> (forall i, i_last < i < count -> l i = 0) ->
  level_of ((fun i => (i, l i)) <$> rev (significant l 0 (i_last + 1))) <$> seqZ 0 count = l <$> seqZ 0 count.
Proof.
  intros Hn Hz. apply list_fmap_ext. intros _ i Hi%list_elem_of_lookup_2%elem_of_seqZ. rewrite level_of_spec.
  destruct (existsb (Z.eqb i) (rev (significant l 0 (i_last + 1)))) eqn:E; [done|].
  destruct (Z.eq_dec (l i) 0) as [->|Hne]; [done|]. exfalso.
  assert (existsb (Z.eqb i) (rev (significant l 0 (i_last + 1))) = true) as E'; [|congruence].
  apply existsb_exists. exists i. split; [|apply Z.eqb_refl]. apply in_rev. rewrite rev_involutive. apply filter_In. split.
  - apply list_elem_of_In, elem_of_seqZ. destruct (Z.lt_decidable i_last i); [|lia]. destruct Hne. apply Hz. lia.
  - unfold nz. apply negb_true_iff. by apply Z.eqb_neq.
Qed.
Lemma significant_fits l count n : n <= count -> (forall i, 0 <= i < count -> is_coef (l i)) -> Forall level_fits (l <$> rev (significant l 0 n)).
Proof.
  intros Hn Hc. apply list.Forall_fmap, Forall_rev, List.Forall_forall. intros i Hi. apply filter_In in Hi as [Hi Hnz].
  apply list_elem_of_In, elem_of_seqZ in Hi. unfold compose, nz in *. specialize (Hc i ltac:(lia)). unfold is_coef in Hc. split; [|lia].
  by apply negb_true_iff, Z.eqb_neq in Hnz.
Qed.

Section Block.
Context (h : x264_t) (k : cabac_mb) (cat idx count : Z) (l : Z -> Z).
Context (Hb : b_interlaced h = 0 \/ b_interlaced h = 1) (Hcc : cat_count cat count) (Hl : forall i, 0 <= i < count -> is_coef (l i)).
Let field : bool := i2b (b_interlaced h).
Let flagged : bool := negb (count =? 64).
Let coded : bool := i2b (non_zero_count h (scan8 idx)).
Let ctx : Z := 85 + x264_cabac_mb_cbf_ctxidxinc h k cat idx.

Definition coded_ops (i_last : Z) : list cop :=
  sig_ops (sig_ctx field cat) (last_ctx field cat) l i_last 0 (Z.min (i_last + 1) (count - 1)) ++
  levels_ops cat (l <$> rev (significant l 0 (i_last + 1))) 0 0.

Lemma coeff_last_spec : exists r, coeff_last_cabac cat l = Some r /\ - 1 <= r < count /\ (0 <= r -> l r <> 0) /\ (forall i, r < i < count -> l i = 0).
Proof.
  destruct (coeff_last_internal_spec l count) as (r & E & H).
  - unfold cat_count in Hcc. lia.
  - exact Hl.
  - exists r. split; [|exact H]. rewrite <- E. unfold cat_count in Hcc. by destruct Hcc as [[-> ->]|[[-> ->]|[[-> ->]|[[-> ->]|[[-> ->]|[-> ->]]]]]].
Qed.

Lemma coded_ops_ok i_last : 0 <= i_last < count -> Forall op_ok (coded_ops i_last).
Proof.
  intros Hi. unfold coded_ops. apply Forall_app. split.
  - apply sig_ops_ok. intros i Hr. unfold field. destruct (contexts_source (b_interlaced h) cat count i Hb Hcc ltac:(lia)) as (_ & _ & H). exact H.
  - apply levels_ops_ok; [unfold cat_count in Hcc; lia|apply (significant_fits l count); [lia|done]|lia..].
Qed.

Lemma coded_read i_last rest : 0 <= i_last < count -> l i_last <> 0 -> (forall i, i_last < i < count -> l i = 0) ->
  run_bins (l0 ← read_sigmap (Z.to_nat (count - 1)) field cat 0; r ← read_levels cat (rev l0) 0 0; mret (level_of r <$> seqZ 0 count))
    ((op_bin <$> coded_ops i_last) ++ rest) = Some (l <$> seqZ 0 count, rest).
Proof.
  intros Hi Hnz Hz. unfold coded_ops. rewrite fmap_app, <- app_assoc, run_bind.
  pose proof (read_sigmap_ops field cat l i_last ((op_bin <$> levels_ops cat (l <$> rev (significant l 0 (i_last + 1))) 0 0) ++ rest) (Z.to_nat (count - 1)) 0
    ltac:(lia) ltac:(lia)) as E.
  rewrite Z2Nat.id, Z.sub_0_r, Z.sub_0_r, Z.add_0_l in E by lia. rewrite E by (unfold nz; by apply negb_true_iff, Z.eqb_neq).
  rewrite run_bind, (levels_read cat l).
  - rewrite run_ret, (levels_decoded l count); [done|lia|exact Hz].
  - apply Forall_rev, List.Forall_forall. intros i Hin. apply filter_In in Hin as [_ Hin]. by apply negb_true_iff, Z.eqb_neq in Hin.
Qed.

(** The coded part of the function. *)
Definition write_coded {S} {sink : CabacSink S} (s : S) : option S :=
  match coeff_last_cabac cat l with
  | None => None
  | Some i_last =>
      let i_sigmap_size := Z.min (i_last + 1) (count - 1) in
      let l8x8 := cat =? DCT_LUMA_8x8 in
      let sig i := tbl2 significant_coeff_flag_offset (b_interlaced h) cat + (if l8x8 then tbl2 significant_coeff_flag_offset_8x8 (b_interlaced h) i else i) in
      let last i := tbl2 last_coeff_flag_offset (b_interlaced h) cat + (if l8x8 then tbl last_coeff_flag_offset_8x8 i else i) in
      let '(i_coeff, abs_m1, sign, s) := WRITE_SIGMAP sig last l i_last i_sigmap_size s in
      let '(i_coeff, abs_m1, sign) :=
        if Z.max 0 i_sigmap_size =? i_last
        then (i_coeff + 1, upd abs_m1 i_coeff (Z.abs (l i_last) - 1),
              if negb ck_skip then upd sign i_coeff (b2i (l i_last <? 0)) else sign)
        else (i_coeff, abs_m1, sign) in
      if i_coeff =? 0 then None else Some (write_levels (Z.to_nat i_coeff) (tbl coeff_abs_level_m1_offset cat) abs_m1 sign 0 s)
  end.
Lemma write_block_parts {S} {sink : CabacSink S} (s : S) : block_residual_write_cabac h k cat idx l count s =
  (let s := when flagged (fun s => ck_decision s ctx (b2i coded)) s in if flagged && negb coded then Some s else write_coded s).
Proof. reflexivity. Qed.

Lemma coded_written {S} (sink : CabacSink S) (R : S -> list cop -> Prop) (sim : CabacSim sink R) i_last s c :
  coeff_last_cabac cat l = Some i_last -> 0 <= i_last < count -> l i_last <> 0 -> R s c ->
  exists s', write_coded s = Some s' /\ R s' (c ++ coded_ops i_last).
Proof.
  intros E Hi Hnz HR. unfold write_coded. rewrite E. cbv zeta. set (size := Z.min (i_last + 1) (count - 1)).
  assert (4 <= count) as H4 by (unfold cat_count in Hcc; lia).
  destruct (sigmap_written (fun i => tbl2 significant_coeff_flag_offset (b_interlaced h) cat + (if cat =? DCT_LUMA_8x8 then tbl2 significant_coeff_flag_offset_8x8 (b_interlaced h) i else i))
    (fun i => tbl2 last_coeff_flag_offset (b_interlaced h) cat + (if cat =? DCT_LUMA_8x8 then tbl last_coeff_flag_offset_8x8 i else i)) l i_last size s ltac:(lia))
    as (am & sg & -> & HA).
  rewrite (sig_ops_ext _ _ (sig_ctx field cat) (last_ctx field cat)).
  2:{ intros i Hr. destruct (contexts_source (b_interlaced h) cat count i Hb Hcc ltac:(lia)) as (C1 & C2 & _). split; [exact C1|exact C2]. }
  assert (exists am' sg', (if Z.max 0 size =? i_last
      then (Z.of_nat (length (significant l 0 size)) + 1, upd am (Z.of_nat (length (significant l 0 size))) (Z.abs (l i_last) - 1),
            if negb ck_skip then upd sg (Z.of_nat (length (significant l 0 size))) (b2i (l i_last <? 0)) else sg)
      else (Z.of_nat (length (significant l 0 size)), am, sg)) = (Z.of_nat (length (significant l 0 (i_last + 1))), am', sg') /\
    arrays_of ck_skip l (significant l 0 (i_last + 1)) am' sg') as (am' & sg' & -> & HA').
  { destruct (Z.eqb_spec (Z.max 0 size) i_last) as [Em|Em].
    - replace size with i_last in * by lia. rewrite significant_S by lia. unfold nz. rewrite Z.add_0_l. apply Z.eqb_neq in Hnz as Hnz'. rewrite Hnz'. cbn [negb].
      do 2 eexists. split; [|by apply arrays_snoc]. rewrite length_app. cbn [length]. do 2 f_equal. lia.
    - replace size with (i_last + 1) in * by lia. by exists am, sg. }
  assert (length (significant l 0 (i_last + 1)) <> 0%nat) as Hne.
  { rewrite significant_S, length_app by lia. unfold nz. rewrite Z.add_0_l. apply Z.eqb_neq in Hnz as ->. cbn [negb length]. lia. }
  replace (Z.of_nat (length (significant l 0 (i_last + 1))) =? 0) with false by lia. eexists. split; [done|].
  unfold coded_ops. rewrite app_assoc. rewrite Nat2Z.id.
  replace (length (significant l 0 (i_last + 1))) with (length (l <$> rev (significant l 0 (i_last + 1)))) by by rewrite length_fmap, length_rev.
  apply (levels_written (sim := sim) cat am' sg' _ ltac:(unfold cat_count in Hcc; lia)) with (eq1 := 0) (gt1 := 0); [|by apply arrays_match|lia|lia| |].
  - apply (significant_fits l count); [lia|done].
  - intros Ec. rewrite length_fmap, length_rev. unfold significant. pose proof (filter_length_le (nz l) (seqZ 0 (i_last + 1))) as Hle.
    rewrite length_seqZ in Hle. unfold cat_count in Hcc. lia.
  - apply (emits_ops_all (sig_ops (sig_ctx field cat) (last_ctx field cat) l i_last 0 size)); [|done|done].
    apply sig_ops_ok. intros i Hr. unfold field. destruct (contexts_source (b_interlaced h) cat count i Hb Hcc ltac:(lia)) as (_ & _ & H). exact H.
Qed.

(** A block is read back if its flag says whether it has coefficients; an 8x8 block has
    coefficients. *)
Lemma owrites_block : ctx_ok ctx -> (if flagged then coded = true else True) <-> (exists i, 0 <= i < count /\ l i <> 0) ->
  owrites (fun S sink => block_residual_write_cabac h k cat idx l count)
    (read_block_cabac field cat count (if flagged then Some (x264_cabac_mb_cbf_ctxidxinc h k cat idx) else None)) (l <$> seqZ 0 count).
Proof.
  intros Hctx Hcoded. destruct coeff_last_spec as (r & Er & Hr & Hnz & Hz).
  assert (forall rest, 0 <= r -> run_bins (l0 ← read_sigmap (Z.to_nat (count - 1)) field cat 0; r ← read_levels cat (rev l0) 0 0; mret (level_of r <$> seqZ 0 count))
    ((op_bin <$> coded_ops r) ++ rest) = Some (l <$> seqZ 0 count, rest)) as HRead by (intros rest H0; apply coded_read; [lia|by apply Hnz|done]).
  assert ((exists i, 0 <= i < count /\ l i <> 0) -> 0 <= r) as Hpos.
  { intros (i & Hi & Hli). destruct (Z.lt_decidable r 0); [|lia]. destruct Hli. apply Hz. lia. }
  unfold read_block_cabac. destruct flagged eqn:Ef.
  - destruct coded eqn:Ec.
    + assert (0 <= r) as H0 by by apply Hpos, Hcoded. exists (Dec ctx 1 :: coded_ops r). split; [|split].
      * intros rest. cbn [fmap list_fmap app Dec op_bin]. rewrite run_bind. cbn [decision run_bins]. rewrite Z.eqb_refl. by apply HRead.
      * constructor; [by apply dec_ok; [|right]|]. apply coded_ops_ok. lia.
      * intros S sink R sim s c HR. setoid_rewrite write_block_parts. rewrite Ef, Ec. cbv zeta. cbn [when andb negb b2i].
        destruct (coded_written sink R sim r (ck_decision s ctx 1) (c ++ [Dec ctx 1]) Er ltac:(lia) (Hnz H0)) as (s' & E1 & E2).
        { apply (csim_op s c (Dec ctx 1)); [done|by apply dec_ok; [|right]]. }
        exists s'. split; [exact E1|]. by rewrite <- app_assoc in E2.
    + assert (forall i, 0 <= i < count -> l i = 0) as H0.
      { intros i Hi. destruct (Z.eq_dec (l i) 0); [done|]. assert (false = true); [|done]. apply Hcoded. by exists i. }
      exists [Dec ctx 0]. split; [|split].
      * intros rest. cbn [fmap list_fmap app Dec op_bin]. rewrite run_bind. cbn [decision run_bins]. rewrite Z.eqb_refl. cbn [Z.eqb]. rewrite run_ret. do 2 f_equal.
        rewrite <- (length_seqZ 0 count), <- (const_fmap (fun _ => 0) (seqZ 0 count) 0) by done.
        apply list_fmap_ext. intros _ i Hi%list_elem_of_lookup_2%elem_of_seqZ. symmetry. apply H0. lia.
      * ops_ok.
      * intros S sink R sim s c HR. eexists. setoid_rewrite write_block_parts. rewrite Ef, Ec. split; [done|].
        apply (csim_op s c (Dec ctx 0)); [done|by apply dec_ok; [|left]].
  - assert (0 <= r) as H0 by by apply Hpos, Hcoded. exists (coded_ops r). split; [|split].
    + intros rest. rewrite run_bind, run_ret. by apply HRead.
    + apply coded_ops_ok. lia.
    + intros S sink R sim s c HR. setoid_rewrite write_block_parts. rewrite Ef. cbv zeta. cbn [when andb].
      apply coded_written; [done|done|lia|by apply Hnz|done].
Qed.
End Block.
