(* ===== verification/CabacBlocks.v ===== *)
(** * The residual of a macroblock in CABAC, written and read back *)
From S2P Require Import Prelude Syntax Quant Mb MbLayer Cavlc CavlcMb MbRoundtrip Encode CabacTables Cabac CabacMb CabacLayer CabacCodes CabacElements CabacResidual.

(** ** Writers that can fail *)
Lemma owrites_pure {A} f (r : cparser A) v : cwrites f r v -> owrites (fun S sink s => Some (f S sink s)) r v.
Proof. intros (o & H1 & H2 & H3). exists o. split; [done|]. split; [done|]. intros S sink R sim s c HR. eexists. split; [done|]. by apply (H3 S sink R sim). Qed.
Lemma owrites_seq {A B} f g (r : cparser A) (q : A -> cparser B) a b :
  owrites f r a -> owrites g (q a) b -> owrites (fun S sink s => f S sink s ≫= g S sink) (r ≫= q) b.
Proof.
  intros (o1 & R1 & F1 & E1) (o2 & R2 & F2 & E2). exists (o1 ++ o2). split; [rewrite fmap_app; by eapply creads_bind|]. split; [by apply Forall_app|].
  intros S sink R sim s c HR. destruct (E1 S sink R sim s c HR) as (s1 & Es1 & HR1). destruct (E2 S sink R sim s1 _ HR1) as (s2 & Es2 & HR2).
  exists s2. rewrite Es1. split; [done|]. by rewrite app_assoc.
Qed.
Lemma owrites_last {A B} f (r : cparser A) (q : A -> cparser B) a b :
  owrites f r a -> (forall l, run_bins (q a) l = Some (b, l)) -> owrites f (r ≫= q) b.
Proof. intros (o & R & F & E) H. exists o. split; [|done]. intros rest. by rewrite run_bind, R, H. Qed.
Lemma owrites_same {A} f g (r : cparser A) v : owrites g r v -> (forall S (sink : CabacSink S) s, f S sink s = g S sink s) -> owrites f r v.
Proof.
  intros (o & R & F & E) H. exists o. split; [done|]. split; [done|]. intros S sink R0 sim s c HR.
  destruct (E S sink R0 sim s c HR) as (s' & Es & HR'). exists s'. by rewrite H.
Qed.
Lemma owrites_skip {A} (v : A) : owrites (fun S sink s => Some s) (mret v) v.
Proof. apply owrites_pure, cwrites_skip. Qed.
Lemma owrites_when {A} (b : bool) f (r : cparser A) d v :
  (b = true -> owrites f r v) -> (b = false -> v = d) -> owrites (fun S sink s => if b then f S sink s else Some s) (cwhen b r d) v.
Proof. destruct b; intros H1 H2; [by apply H1|]. rewrite H2 by done. apply owrites_skip. Qed.

Lemma each_o_nil {S A} (f : A -> S -> option S) s : each_o f [] s = Some s.
Proof. done. Qed.
Lemma each_o_cons {S A} (f : A -> S -> option S) x l s : each_o f (x :: l) s = f x s ≫= each_o f l.
Proof.
  unfold each_o. cbn [fold_left mbind option_bind]. destruct (f x s) as [s'|]; [done|]. cbn. induction l as [|y l IH]; [done|exact IH].
Qed.
Lemma each_o_ext {S A} (f g : A -> S -> option S) l s : (forall x s, In x l -> f x s = g x s) -> each_o f l s = each_o g l s.
Proof.
  revert s. induction l as [|x l IH]; intros s H; [done|]. rewrite !each_o_cons, H by (by left). destruct (g x s) as [s'|]; [|done]. cbn. apply IH. intros. apply H. by right.
Qed.
Lemma owrites_each {A B} (f : A -> o_writer) (r : A -> cparser B) (g : A -> B) l :
  Forall (fun x => owrites (f x) (r x) (g x)) l -> owrites (fun S sink => each_o (fun x => f x S sink) l) (ceach r l) (g <$> l).
Proof.
  induction 1 as [|x l Hx _ IH]; [apply owrites_skip|]. cbn [ceach fmap list_fmap].
  eapply owrites_same with (g := fun S sink s => f x S sink s ≫= each_o (fun x => f x S sink) l); [|intros S sink s; by rewrite each_o_cons].
  eapply owrites_seq; [exact Hx|]. eapply owrites_last; [exact IH|]. intros rest. apply run_ret.
Qed.

(** ** Contexts of the coded block flags *)
Lemma land_pow2 x n : 0 <= n -> i2b (x .& 2 ^ n) = Z.testbit x n.
Proof.
  intros Hn. unfold i2b. destruct (Z.testbit x n) eqn:E.
  - apply negb_true_iff, Z.eqb_neq. intros H. assert (Z.testbit (x .& 2 ^ n) n = false) as H' by (by rewrite H, Z.bits_0).
    rewrite Z.land_spec, E, Z.pow2_bits_true in H' by lia. done.
  - apply negb_false_iff, Z.eqb_eq. apply Z.bits_inj'. intros m Hm. rewrite Z.land_spec, Z.bits_0, Z.pow2_bits_eqb by lia.
    destruct (Z.eqb_spec n m) as [->|]; [by rewrite E|by rewrite andb_false_r].
Qed.

Lemma kind_intra_seen h : mb_ok h -> kind_intra (cabac_kind h) = IS_INTRA (i_type h).
Proof.
  intros ok. unfold cabac_kind, kind_seen, IS_INTRA. destruct (Z.eqb_spec (i_type h) P_8x8) as [->|H]; [done|].
  destruct ((i_type h =? I_4x4) || (i_type h =? I_8x8)) eqn:E1; [done|]. cbn [orb]. destruct (i_type h =? I_16x16); [done|]. destruct (i_type h =? I_PCM); [done|].
  repeat case_match; done.
Qed.

(** One neighbour: [nz] of the encoder, from a macroblock that may not exist. *)
Definition cbf_of (intra : bool) (xy v : Z) : Z := if intra then v .| b2i (xy <? 0) else v.
Lemma cbf_of_spec intra (avail : bool) xy v : (avail = true -> 0 <= xy) ->
  b2i (i2b (cbf_of intra (if avail then xy else -1) (if avail then v else 0))) =
  match (if avail then Some (i2b v) else None) with Some x => b2i x | None => b2i intra end.
Proof.
  intros Hxy. unfold cbf_of. destruct avail.
  - specialize (Hxy eq_refl). replace (xy <? 0) with false by lia. cbn [b2i]. rewrite Z.lor_0_r. by destruct intra.
  - by destruct intra.
Qed.

Section Contexts.
Context (h : x264_t) (k : cabac_mb) (ok : mb_ok h) (L : loaded_ok h k).
Let intra : bool := kind_intra (cabac_kind h).

Lemma cbf_ctxidxinc cat idx xa va xb vb :
  (let left := has_left k in let top := has_top k in
   let left_xy := if left then i_mb_xy h - 1 else -1 in
   let top_xy := if top then i_mb_top_xy k else -1 in
   let dc (mask : Z) := (left_xy, if left then mb_cbp k left_xy .& mask else 0, top_xy, if top then mb_cbp k top_xy .& mask else 0) in
   let ac (inner_x inner_y : bool) :=
     let i_mba_xy := if inner_x then i_mb_xy h else left_xy in
     let i_mbb_xy := if inner_y then i_mb_xy h else top_xy in
     (i_mba_xy, if i_mba_xy >=? 0 then non_zero_count h (scan8 idx - 1) else 0,
      i_mbb_xy, if i_mbb_xy >=? 0 then non_zero_count h (scan8 idx - 8) else 0) in
   if cat =? DCT_LUMA_DC then dc 0x100
   else if (cat =? DCT_LUMA_AC) || (cat =? DCT_LUMA_4x4) then ac (i2b (idx .& Z.lnot 10)) (i2b (idx .& Z.lnot 5))
   else if cat =? DCT_CHROMA_DC then dc (0x200 << (idx - 25))
   else if cat =? DCT_CHROMA_AC then ac (i2b (idx .& 1)) (i2b (idx .& 2))
   else (-1, 0, -1, 0)) = (xa, va, xb, vb) ->
  x264_cabac_mb_cbf_ctxidxinc h k cat idx = 4 * cat + b2i (i2b (cbf_of intra xa va)) + 2 * b2i (i2b (cbf_of intra xb vb)).
Proof.
  intros E. unfold x264_cabac_mb_cbf_ctxidxinc. fold (has_left k). fold (has_top k). cbv zeta in E |- *. rewrite E.
  unfold cbf_of, intra. rewrite (kind_intra_seen h ok). destruct (IS_INTRA (i_type h)); lia.
Qed.

Lemma left_xy_pos : has_left k = true -> 0 <= i_mb_xy h - 1.
Proof. intros E. pose proof (l_left h k L) as H. rewrite E in H. by apply H. Qed.
Lemma top_xy_pos : has_top k = true -> 0 <= i_mb_top_xy k.
Proof. intros E. pose proof (l_top h k L) as H. rewrite E in H. by apply H. Qed.

Lemma dc_ctx cat idx i : (cat = 0 /\ idx = 24 /\ i = 0) \/ (cat = 3 /\ idx = 24 + i /\ (i = 1 \/ i = 2)) ->
  x264_cabac_mb_cbf_ctxidxinc h k cat idx =
  cbf_inc intra cat (dc_cbf (left_of h k) i) (dc_cbf (top_of h k) i).
Proof.
  intros Hc. erewrite cbf_ctxidxinc.
  2:{ cbv zeta. instantiate (1 := if has_top k then mb_cbp k (i_mb_top_xy k) .& 2 ^ (8 + i) else 0).
      instantiate (1 := if has_top k then i_mb_top_xy k else -1).
      instantiate (1 := if has_left k then mb_cbp k (i_mb_xy h - 1) .& 2 ^ (8 + i) else 0).
      instantiate (1 := if has_left k then i_mb_xy h - 1 else -1).
      destruct Hc as [(-> & -> & ->)|(-> & -> & [-> | ->])]; destruct (has_left k), (has_top k); reflexivity. }
  assert (0 <= 8 + i) as Hi by lia. unfold cbf_inc.
  assert (forall avail xy, (avail = true -> saved_ok h k xy) ->
    b2i (i2b (cbf_of intra (if avail then xy else -1) (if avail then mb_cbp k xy .& 2 ^ (8 + i) else 0))) =
    match dc_cbf (if avail then Some (neighbour_of h k xy) else None) i with Some x => b2i x | None => b2i intra end) as E.
  { intros avail xy Hs. destruct avail; [|by unfold cbf_of; destruct intra]. specialize (Hs eq_refl).
    unfold cbf_of. replace (xy <? 0) with false by (pose proof (s_xy _ _ _ Hs); lia). cbn [b2i]. rewrite Z.lor_0_r.
    replace (if intra then _ else _) with (mb_cbp k xy .& 2 ^ (8 + i)) by by destruct intra. rewrite land_pow2 by lia.
    cbn [dc_cbf fmap option_fmap option_map neighbour_of n_pcm n_dc]. f_equal.
    destruct (Z.eqb_spec (mb_type h xy) I_PCM) as [Ep|]; [|done]. rewrite (s_pcm _ _ _ Hs Ep).
    destruct Hc as [(-> & -> & ->)|(-> & -> & [-> | ->])]; reflexivity. }
  unfold left_of, top_of. rewrite !E; [done|..].
  - intros Et. pose proof (l_top h k L) as H. rewrite Et in H. by apply H.
  - intros El. pose proof (l_left h k L) as H. rewrite El in H. by apply H.
Qed.

Lemma inner_source cat idx : ((cat = 1 \/ cat = 2) /\ 0 <= idx < 16) \/ (cat = 4 /\ 16 <= idx < 24) ->
  (if (cat =? DCT_LUMA_AC) || (cat =? DCT_LUMA_4x4) then (i2b (idx .& Z.lnot 10), i2b (idx .& Z.lnot 5)) else (i2b (idx .& 1), i2b (idx .& 2))) =
  (left_inner idx, top_inner idx).
Proof.
  intros [[Hc Hi]|[-> Hi]].
  - replace ((cat =? DCT_LUMA_AC) || (cat =? DCT_LUMA_4x4)) with true by (by destruct Hc as [-> | ->]).
    assert (all_range 0 16 (fun idx => Bool.eqb (i2b (idx .& Z.lnot 10)) (left_inner idx) && Bool.eqb (i2b (idx .& Z.lnot 5)) (top_inner idx)) = true) as C by (vm_compute; reflexivity).
    eapply all_range_spec with (i := idx) in C; [|lia]. cbv beta in C. apply andb_prop in C as [C1%eqb_prop C2%eqb_prop]. by rewrite C1, C2.
  - cbn [Z.eqb Pos.eqb DCT_LUMA_AC DCT_LUMA_4x4 orb].
    assert (all_range 16 8 (fun idx => Bool.eqb (i2b (idx .& 1)) (left_inner idx) && Bool.eqb (i2b (idx .& 2)) (top_inner idx)) = true) as C by (vm_compute; reflexivity).
    eapply all_range_spec with (i := idx) in C; [|lia]. cbv beta in C. apply andb_prop in C as [C1%eqb_prop C2%eqb_prop]. by rewrite C1, C2.
Qed.

Lemma block_ctx cat idx (g : Z -> bool) : ((cat = 1 \/ cat = 2) /\ 0 <= idx < 16) \/ (cat = 4 /\ 16 <= idx < 24) ->
  g (scan8 idx - 1) = i2b (non_zero_count h (scan8 idx - 1)) -> g (scan8 idx - 8) = i2b (non_zero_count h (scan8 idx - 8)) ->
  x264_cabac_mb_cbf_ctxidxinc h k cat idx =
  cbf_inc intra cat (block_cbf g (left_inner idx) (left_of h k) (scan8 idx - 1)) (block_cbf g (top_inner idx) (top_of h k) (scan8 idx - 8)).
Proof.
  intros Hc Ga Gb. pose proof (inner_source cat idx Hc) as HI. pose proof (l_xy h k L) as Hxy.
  erewrite cbf_ctxidxinc.
  2:{ cbv zeta. instantiate (1 := if top_inner idx || has_top k then non_zero_count h (scan8 idx - 8) else 0).
      instantiate (1 := if top_inner idx || has_top k then (if top_inner idx then i_mb_xy h else i_mb_top_xy k) else -1).
      instantiate (1 := if left_inner idx || has_left k then non_zero_count h (scan8 idx - 1) else 0).
      instantiate (1 := if left_inner idx || has_left k then (if left_inner idx then i_mb_xy h else i_mb_xy h - 1) else -1).
      pose proof left_xy_pos as HL. pose proof top_xy_pos as HT. unfold DCT_LUMA_DC, DCT_CHROMA_DC, DCT_CHROMA_AC.
      replace (cat =? 0) with false by lia. replace (cat =? 3) with false by lia.
      destruct ((cat =? DCT_LUMA_AC) || (cat =? DCT_LUMA_4x4)) eqn:Ecat; injection HI as -> ->; [|replace (cat =? 4) with true by (unfold DCT_LUMA_AC, DCT_LUMA_4x4 in *; lia)];
        destruct (left_inner idx), (top_inner idx), (has_left k), (has_top k); cbn [orb];
        repeat match goal with |- context [?x >=? 0] => replace (x >=? 0) with true by lia | |- context [-1 >=? 0] => change (-1 >=? 0) with false end; reflexivity. }
  unfold cbf_inc. rewrite (cbf_of_spec intra (left_inner idx || has_left k)), (cbf_of_spec intra (top_inner idx || has_top k)).
  - unfold block_cbf, left_of, top_of. rewrite Ga, Gb. destruct (left_inner idx), (top_inner idx), (has_left k), (has_top k); reflexivity.
  - destruct (top_inner idx); [done|apply top_xy_pos].
  - destruct (left_inner idx); [done|apply left_xy_pos].
Qed.
End Contexts.

(** ** The blocks of a macroblock *)

(** What the encoder has established about its coefficients and flags. *)
Record residual_known (h : x264_t) : Prop := {
  rk_coefs : forall j i, 0 <= j < 24 -> 0 <= i < 16 -> is_coef (luma4x4 h j i);
  rk_coefs8 : forall i8 i, 0 <= i8 < 4 -> 0 <= i < 64 -> is_coef (luma8x8 h i8 i);
  rk_dc : forall i, 0 <= i < 16 -> is_coef (luma16x16_dc h i);
  rk_chroma_dc : forall c i, 0 <= c < 2 -> 0 <= i < 4 -> is_coef (chroma_dc h c i);
  (* the flags of blocks that are written: whether they have coefficients *)
  rk_luma : forall j, 0 <= j < 16 -> Z.testbit (i_cbp_luma h) (j / 4) = true -> i2b (b_transform_8x8 h) = false ->
    i2b (non_zero_count h (scan8 j)) = true <-> (exists i, 0 <= i < luma_count h /\ luma4x4 h j (luma_first h + i) <> 0);
  rk_luma_uncoded : forall j, 0 <= j < 16 -> Z.testbit (i_cbp_luma h) (j / 4) = false -> non_zero_count h (scan8 j) = 0;
  rk_luma8 : forall i8, 0 <= i8 < 4 -> Z.testbit (i_cbp_luma h) i8 = true -> i2b (b_transform_8x8 h) = true ->
    exists i, 0 <= i < 64 /\ luma8x8 h i8 i <> 0;
  rk_luma_dc : i_type h = I_16x16 -> i2b (non_zero_count h (scan8 24)) = true <-> (exists i, 0 <= i < 16 /\ luma16x16_dc h i <> 0);
  rk_cdc : forall c, 0 <= c < 2 -> i_cbp_chroma h <> 0 ->
    i2b (non_zero_count h (scan8 (25 + c))) = true <-> (exists i, 0 <= i < 4 /\ chroma_dc h c i <> 0);
  rk_chroma : forall j, 16 <= j < 24 -> i_cbp_chroma h = 2 ->
    i2b (non_zero_count h (scan8 j)) = true <-> (exists i, 0 <= i < 15 /\ luma4x4 h j (1 + i) <> 0)
}.

(** The decoder's flags agree with the encoder's beside the blocks from [i] on, except at
    these blocks. *)
Definition beside (i hi p : Z) : Prop := exists j, i <= j < hi /\ (p = scan8 j - 1 \/ p = scan8 j - 8).
Definition flags_agree (g : Z -> bool) (h : x264_t) (i hi : Z) : Prop :=
  forall p, beside i hi p -> (forall j, i <= j < hi -> scan8 j <> p) -> g p = i2b (non_zero_count h p).

Lemma block_coefs_list h first count j : 0 <= count -> block_coefs h first count j = (fun i => luma4x4 h j (first + i)) <$> seqZ 0 count.
Proof. intros Hc. unfold block_coefs, coefs. by rewrite Z2Nat.id. Qed.
Lemma nonzero_list (l : Z -> Z) n : nonzero (l <$> seqZ 0 n) = true <-> exists i, 0 <= i < n /\ l i <> 0.
Proof.
  unfold nonzero. rewrite existsb_exists. split.
  - intros (v & Hv & Hnz). apply in_map_iff in Hv as (i & <- & Hi). apply list_elem_of_In, elem_of_seqZ in Hi. exists i. split; [lia|].
    by apply negb_true_iff, Z.eqb_neq in Hnz.
  - intros (i & Hi & Hnz). exists (l i). split; [|by apply negb_true_iff, Z.eqb_neq]. apply in_map_iff. exists i. split; [done|].
    apply list_elem_of_In, elem_of_seqZ. lia.
Qed.
Lemma nonzero_zeros n : nonzero (replicate n 0) = false.
Proof. by induction n. Qed.

Section Blocks.
Context (h : x264_t) (k : cabac_mb) (ok : mb_ok h) (L : loaded_ok h k) (rok : residual_known h).
Local Abbreviation ctx := (cabac_context_of h k).
Local Abbreviation intra := (kind_intra (cabac_kind h)).
Local Abbreviation field := (i2b (b_interlaced h)).

Lemma cbf_inc_range (b : bool) cat x y : 0 <= cat <= 4 -> ctx_ok (85 + cbf_inc b cat x y).
Proof.
  intros Hc. apply ctx_ok_range. unfold cbf_inc.
  destruct x as [[]|], y as [[]|], b; cbn [b2i]; lia.
Qed.

Definition write_4x4 (cat first count : Z) (coded : Z -> bool) (j : Z) : o_writer := fun S sink s =>
  if coded j then block_residual_write_cabac h k cat j (fun i => luma4x4 h j (first + i)) count s else Some s.
Definition ac_kind (cat first count lo hi : Z) : Prop :=
  (cat = 1 /\ first = 1 /\ count = 15 /\ 0 <= lo /\ hi <= 16) \/ (cat = 2 /\ first = 0 /\ count = 16 /\ 0 <= lo /\ hi <= 16) \/
  (cat = 4 /\ first = 1 /\ count = 15 /\ 16 <= lo /\ hi <= 24).

Lemma owrites_4x4 cat first count coded lo hi n : forall i g, ac_kind cat first count lo hi -> lo <= i -> i + Z.of_nat n <= hi ->
  (forall j, lo <= j < hi -> coded j = true -> i2b (non_zero_count h (scan8 j)) = true <-> (exists m, 0 <= m < count /\ luma4x4 h j (first + m) <> 0)) ->
  (forall j, lo <= j < hi -> coded j = false -> non_zero_count h (scan8 j) = 0) -> flags_agree g h i hi ->
  owrites (fun S sink => each_o (fun j => write_4x4 cat first count coded j S sink) (seqZ i (Z.of_nat n)))
    (read_4x4_blocks ctx field intra cat count coded (seqZ i (Z.of_nat n)) g) (blocks_seen h first count coded (seqZ i (Z.of_nat n))).
Proof.
  induction n as [|n IH]; intros i g Hk Hi Hn Hc Hu Hg; [apply owrites_skip|].
  rewrite seqZ_cons by lia. replace (Z.succ i) with (i + 1) by lia. replace (Z.pred (Z.of_nat (Datatypes.S n))) with (Z.of_nat n) by lia.
  cbn [read_4x4_blocks]. unfold blocks_seen. cbn [fmap list_fmap]. fold (blocks_seen h first count coded (seqZ (i + 1) (Z.of_nat n))).
  assert (0 <= i < 24 /\ hi <= 24) as [Hi24 Hhi] by (unfold ac_kind in Hk; lia). assert (0 <= count) as Hcount by (unfold ac_kind in Hk; lia).
  eapply owrites_same with (g := fun S sink s => write_4x4 cat first count coded i S sink s ≫=
    each_o (fun j => write_4x4 cat first count coded j S sink) (seqZ (i + 1) (Z.of_nat n))); [|intros S sink s; by rewrite each_o_cons].
  eapply owrites_seq with (a := if coded i then block_coefs h first count i else replicate (Z.to_nat count) 0).
  - apply (owrites_when (coded i) (fun S sink => block_residual_write_cabac h k cat i (fun m => luma4x4 h i (first + m)) count)).
    + intros Ec. unfold read_4x4_block. rewrite Ec, block_coefs_list by done. cbn [cabac_context_of k_left k_top].
      assert (((cat = 1 \/ cat = 2) /\ 0 <= i < 16) \/ (cat = 4 /\ 16 <= i < 24)) as Hcat by (unfold ac_kind in Hk; lia).
      destruct (neighbours_before i i) as [_ _]; [lia|lia|].
      rewrite <- (block_ctx h k ok L cat i g Hcat); [|apply Hg; [exists i; lia|intros j Hj; by apply neighbours_before; lia]..].
      assert (count <> 64) as H64 by (unfold ac_kind in Hk; lia).
      pose proof (owrites_block h k cat i count (fun m => luma4x4 h i (first + m)) (o_field _ ok)) as HB. apply Z.eqb_neq in H64. rewrite H64 in HB. cbn [negb] in HB.
      apply HB.
      * unfold ac_kind in Hk. unfold cat_count. lia.
      * intros m Hm. apply (rk_coefs _ rok); [lia|unfold ac_kind in Hk; lia].
      * rewrite (block_ctx h k ok L cat i g Hcat); [|apply Hg; [exists i; lia|intros j Hj; by apply neighbours_before; lia]..]. apply cbf_inc_range. lia.
      * apply Hc; [lia|done].
    + intros Ec. by rewrite Ec.
  - cbv beta. eapply owrites_last; [|intros rest; apply run_ret]. apply IH; [done|lia|lia|done|done|].
    intros p (j0 & Hj0 & Hb) Hp. destruct (Z.eqb_spec p (scan8 i)) as [->|Hne].
    + destruct (coded i) eqn:Ec.
      * rewrite block_coefs_list by done. apply eq_true_iff_eq. rewrite nonzero_list. symmetry. apply Hc; [lia|done].
      * rewrite nonzero_zeros. by rewrite (Hu i ltac:(lia) Ec).
    + apply Hg; [exists j0; lia|]. intros j Hj. destruct (Z.eq_dec j i) as [->|]; [done|]. apply Hp. lia.
Qed.

(** No block is coded. *)
Lemma read_uncoded cat count coded l g rest : (forall j, In j l -> coded j = false) ->
  run_bins (read_4x4_blocks ctx field intra cat count coded l g) rest = Some (blocks_seen h 0 count coded l, rest).
Proof.
  revert g rest. induction l as [|j l IH]; intros g rest Hc; cbn [read_4x4_blocks blocks_seen fmap list_fmap]; [apply run_ret|].
  rewrite (Hc j) by (by left). cbn [cwhen]. rewrite run_bind, run_ret, run_bind, IH by (intros; apply Hc; by right). apply run_ret.
Qed.

Lemma flags_start lo hi : (lo = 0 /\ hi = 16) \/ (lo = 16 /\ hi = 24) -> flags_agree (k_cbf ctx) h lo hi.
Proof.
  intros Hr p (j & Hj & Hp) Hn. cbn [cabac_context_of k_cbf]. destruct (existsb (Z.eqb p) current_blocks) eqn:E; [|done]. exfalso.
  assert (all_range lo (Z.to_nat (hi - lo)) (fun j => forallb (fun p => negb (existsb (Z.eqb p) current_blocks) || existsb (Z.eqb p) (scan8 <$> seqZ lo (hi - lo))) [scan8 j - 1; scan8 j - 8]) = true) as C
    by (destruct Hr as [[-> ->]|[-> ->]]; vm_compute; reflexivity).
  eapply all_range_spec with (i := j) in C; [|lia]. cbv beta in C. rewrite forallb_forall in C.
  specialize (C p ltac:(cbn [In]; destruct Hp; auto)). rewrite E in C. cbn [negb orb] in C.
  apply existsb_exists in C as (x & Hx & Ex). apply Z.eqb_eq in Ex as <-. apply in_map_iff in Hx as (m & Hm & Hin).
  apply list_elem_of_In, elem_of_seqZ in Hin. apply (Hn m); [lia|done].
Qed.

(** *** Luma *)
Lemma luma_bit_cabac j : 0 <= j < 4 -> Z.testbit (cbp_seen h) j = Z.testbit (i_cbp_luma h) j.
Proof.
  intros Hj. destruct (cbp_seen_spec h ok) as (<- & _). rewrite Z.lor_spec, Z.shiftl_spec by lia. by rewrite Z.testbit_neg_r by lia.
Qed.
Lemma quarter j : 0 <= j < 16 -> 0 <= j / 4 < 4.
Proof. intros Hj. Z.to_euclidean_division_equations. lia. Qed.

Definition w_luma_cabac : o_writer := fun S sink s =>
  if i_type h =? I_16x16 then
    if negb (i_cbp_luma h =? 0)
    then each_o (fun i => block_residual_write_cabac h k DCT_LUMA_AC i (fun j => luma4x4 h i (1 + j)) 15) (seqZ 0 16) s
    else Some s
  else if i2b (b_transform_8x8 h) then
    each_o (fun i s => if i2b (i_cbp_luma h .& (1 << i))
      then block_residual_write_cabac h k DCT_LUMA_8x8 i (luma8x8 h i) 64 s else Some s) (seqZ 0 4) s
  else
    each_o (fun i s => if i2b (i_cbp_luma h .& (1 << (i / 4)))
      then block_residual_write_cabac h k DCT_LUMA_4x4 i (luma4x4 h i) 16 s else Some s) (seqZ 0 16) s.
Definition luma_coded (j : Z) : bool := Z.testbit (cbp_seen h) (j / 4).
(** With the 8x8 transform, four lists of 64. *)
Definition luma_seen_cabac : list (list Z) :=
  if negb (i_type h =? I_16x16) && transform_seen h
  then (fun i => if Z.testbit (cbp_seen h) i then luma8x8 h i <$> seqZ 0 64 else replicate 64 0) <$> seqZ 0 4
  else blocks_seen h (luma_first h) (luma_count h) luma_coded (seqZ 0 16).

Lemma owrites_luma4x4 cat first count : (cat = 1 /\ first = 1 /\ count = 15) \/ (cat = 2 /\ first = 0 /\ count = 16) -> luma_first h = first -> luma_count h = count ->
  i2b (b_transform_8x8 h) = false ->
  owrites (fun S sink => each_o (fun j => write_4x4 cat first count luma_coded j S sink) (seqZ 0 16))
    (read_4x4_blocks ctx field intra cat count luma_coded (seqZ 0 16) (k_cbf ctx)) (blocks_seen h first count luma_coded (seqZ 0 16)).
Proof.
  intros Hc Hf Hn Ht. apply (owrites_4x4 cat first count luma_coded 0 16 16); [unfold ac_kind; lia|lia|lia| | |apply flags_start; by left].
  - intros j Hj Hcoded. unfold luma_coded in Hcoded. rewrite luma_bit_cabac in Hcoded by (by apply quarter).
    rewrite (rk_luma _ rok j Hj Hcoded Ht). by rewrite Hf, Hn.
  - intros j Hj Hcoded. unfold luma_coded in Hcoded. rewrite luma_bit_cabac in Hcoded by (by apply quarter). by apply (rk_luma_uncoded _ rok).
Qed.

Lemma owrites_luma : owrites w_luma_cabac (read_luma_cabac ctx field (transform_seen h) (cabac_kind h) (cbp_seen h)) luma_seen_cabac.
Proof.
  assert (is_16x16 (cabac_kind h) = (i_type h =? I_16x16)) as E16.
  { unfold cabac_kind. destruct (Z.eqb_spec (i_type h) P_8x8) as [->|]; [done|]. apply kind_16x16. }
  destruct (o_cbp _ ok) as (C1 & C2 & C3). unfold read_luma_cabac, luma_seen_cabac, w_luma_cabac. rewrite E16. cbv zeta. fold luma_coded.
  destruct (Z.eqb_spec (i_type h) I_16x16) as [Et|Et]; cbn [negb andb].
  - assert (luma_first h = 1 /\ luma_count h = 15) as [F C] by (unfold luma_first, luma_count; by rewrite Et). rewrite F, C.
    assert (i2b (b_transform_8x8 h) = false) as Etr.
    { destruct (o_transform _ ok) as (T1 & _ & _ & T4). destruct T1 as [-> |T1]; [done|].
      assert (is_NxN (kind_seen h) = false) as EN by (rewrite kind_NxN, Et; reflexivity).
      specialize (T4 EN T1). unfold x264_mb_transform_8x8_allowed in T4. rewrite Et in T4. by destruct (b_transform_8x8_mode h). }
    eapply owrites_same; [apply (owrites_luma4x4 1 1 15); auto|]. intros S sink s. unfold write_4x4.
    destruct (C3 Et) as [E0|E0]; rewrite E0; cbn [Z.eqb Pos.eqb negb].
    + symmetry. transitivity (each_o (fun (_ : Z) (s : S) => Some s) (seqZ 0 16) s); [|done]. apply each_o_ext. intros j s' Hj.
      apply list_elem_of_In, elem_of_seqZ in Hj. unfold luma_coded. rewrite luma_bit_cabac, E0, Z.bits_0 by (apply quarter; lia). done.
    + apply each_o_ext. intros j s' Hj. apply list_elem_of_In, elem_of_seqZ in Hj. unfold luma_coded. rewrite luma_bit_cabac, E0 by (apply quarter; lia).
      pose proof (quarter j ltac:(lia)) as Hq. assert (j / 4 = 0 \/ j / 4 = 1 \/ j / 4 = 2 \/ j / 4 = 3) as [-> |[-> |[-> | ->]]] by lia; done.
  - assert (luma_first h = 0 /\ luma_count h = 16) as [F C] by (unfold luma_first, luma_count; by apply Z.eqb_neq in Et as ->). rewrite F, C.
    destruct (i2b (b_transform_8x8 h)) eqn:Etr.
    + destruct (transform_seen h) eqn:Ets.
      * apply owrites_each with (f := fun i S sink s => if i2b (i_cbp_luma h .& (1 << i)) then block_residual_write_cabac h k DCT_LUMA_8x8 i (luma8x8 h i) 64 s else Some s)
          (r := fun i => cwhen (Z.testbit (cbp_seen h) i) (read_block_cabac field 5 64 None) (replicate 64 0))
          (g := fun i => if Z.testbit (cbp_seen h) i then luma8x8 h i <$> seqZ 0 64 else replicate 64 0).
        apply List.Forall_forall. intros i Hi. apply list_elem_of_In, elem_of_seqZ in Hi. rewrite luma_bit_cabac by lia.
        rewrite coded_bit by lia. apply (owrites_when _ (fun S sink => block_residual_write_cabac h k DCT_LUMA_8x8 i (luma8x8 h i) 64)); [|by intros ->].
        intros Eb. rewrite Eb. apply (owrites_block h k 5 i 64 (luma8x8 h i) (o_field _ ok)).
        -- unfold cat_count. lia.
        -- intros m Hm. by apply (rk_coefs8 _ rok); [lia|].
        -- assert (x264_cabac_mb_cbf_ctxidxinc h k 5 i = if IS_INTRA (i_type h) then 23 else 20) as ->
             by (unfold x264_cabac_mb_cbf_ctxidxinc; cbv zeta; by destruct (IS_INTRA (i_type h))).
           apply ctx_ok_range. destruct (IS_INTRA _); lia.
        -- split; [|done]. intros _. apply (rk_luma8 _ rok); [lia|done|done].
      * assert (i_cbp_luma h = 0) as E0.
        { unfold transform_seen in Ets. rewrite Etr, andb_true_r in Ets. apply orb_false_iff in Ets as [En Ets].
          destruct (o_transform _ ok) as (T1 & _ & _ & T4). destruct T1 as [T1|T1]; [by rewrite T1 in Etr|].
          unfold transform_coded in Ets. rewrite (T4 En T1) in Ets. cbn [andb] in Ets. unfold i2b in Ets. by apply negb_false_iff, Z.eqb_eq in Ets. }
        eapply owrites_same with (g := fun S sink s => Some s).
        { exists []. split; [|split; [constructor|]].
          - intros rest. cbn [fmap list_fmap app]. rewrite (read_uncoded 2 16 luma_coded); [done|]. intros j Hj. apply list_elem_of_In, elem_of_seqZ in Hj.
            unfold luma_coded. rewrite luma_bit_cabac, E0, Z.bits_0 by (apply quarter; lia). done.
          - intros S sink R sim s c HR. exists s. by rewrite app_nil_r. }
        intros S sink s. rewrite E0. reflexivity.
    + assert (transform_seen h = false) as -> by (unfold transform_seen; by rewrite Etr, andb_false_r).
      eapply owrites_same; [apply (owrites_luma4x4 2 0 16); auto|]. intros S sink s. apply each_o_ext. intros j s' Hj.
      apply list_elem_of_In, elem_of_seqZ in Hj. unfold write_4x4, luma_coded. rewrite luma_bit_cabac, coded_bit by (first [apply quarter; lia|pose proof (quarter j ltac:(lia)); lia]). done.
Qed.

(** *** DC and chroma *)
Definition read_dc (cat n i : Z) : cparser (list Z) :=
  read_block_cabac field cat n (Some (cbf_inc intra cat (dc_cbf (left_of h k) i) (dc_cbf (top_of h k) i))).
Lemma owrites_dc cat n idx i (l : Z -> Z) : (cat = 0 /\ n = 16 /\ idx = 24 /\ i = 0) \/ (cat = 3 /\ n = 4 /\ idx = 24 + i /\ (i = 1 \/ i = 2)) ->
  (forall j, 0 <= j < n -> is_coef (l j)) -> i2b (non_zero_count h (scan8 idx)) = true <-> (exists j, 0 <= j < n /\ l j <> 0) ->
  owrites (fun S sink => block_residual_write_cabac h k cat idx l n) (read_dc cat n i) (l <$> seqZ 0 n).
Proof.
  intros Hc Hl Hn. assert ((cat = 0 /\ idx = 24 /\ i = 0) \/ (cat = 3 /\ idx = 24 + i /\ (i = 1 \/ i = 2))) as Hc' by lia.
  unfold read_dc. rewrite <- (dc_ctx h k ok L cat idx i Hc').
  pose proof (owrites_block h k cat idx n l (o_field _ ok)) as HB. replace (n =? 64) with false in HB by lia. cbn [negb] in HB. apply HB.
  - unfold cat_count. lia.
  - exact Hl.
  - rewrite (dc_ctx h k ok L cat idx i Hc'). apply cbf_inc_range. lia.
  - exact Hn.
Qed.

Definition w_luma_dc_cabac : o_writer := fun S sink s =>
  if i_type h =? I_16x16 then block_residual_write_cabac h k DCT_LUMA_DC 24 (luma16x16_dc h) 16 s else Some s.
Lemma owrites_luma_dc : owrites w_luma_dc_cabac (cwhen (i_type h =? I_16x16) (read_dc 0 16 0) []) (dc_seen h).
Proof.
  apply (owrites_when _ (fun S sink => block_residual_write_cabac h k DCT_LUMA_DC 24 (luma16x16_dc h) 16)); unfold dc_seen; intros E; rewrite E; [|done].
  apply (owrites_dc 0 16 24 0); [lia|apply (rk_dc _ rok)|apply (rk_luma_dc _ rok); lia].
Qed.

Definition w_chroma_dc_cabac (c : Z) : o_writer := fun S sink s =>
  if i2b (i_cbp_chroma h .& 0x03) then block_residual_write_cabac h k DCT_CHROMA_DC (25 + c) (chroma_dc h c) 4 s else Some s.
Lemma owrites_chroma_dc c : 0 <= c < 2 ->
  owrites (w_chroma_dc_cabac c) (cwhen (negb (cbp_seen h / 16 =? 0)) (read_dc 3 4 (1 + c)) (replicate 4 0))
    (if negb (cbp_seen h / 16 =? 0) then coefs (chroma_dc h c) 4 else replicate 4 0).
Proof.
  intros Hc. destruct (cbp_seen_spec h ok) as (_ & _ & _ & ->). destruct (o_cbp _ ok) as (_ & C2 & _).
  assert (i2b (i_cbp_chroma h .& 3) = negb (i_cbp_chroma h =? 0)) as E.
  { assert (i_cbp_chroma h = 0 \/ i_cbp_chroma h = 1 \/ i_cbp_chroma h = 2) as [-> |[-> | ->]] by lia; done. }
  unfold w_chroma_dc_cabac. rewrite E.
  apply (owrites_when _ (fun S sink => block_residual_write_cabac h k DCT_CHROMA_DC (25 + c) (chroma_dc h c) 4)); intros E0; rewrite E0; [|done].
  apply (owrites_dc 3 4 (25 + c) (1 + c)); [lia|intros j Hj; by apply (rk_chroma_dc _ rok)|apply (rk_cdc _ rok); [done|]].
  by apply negb_true_iff, Z.eqb_neq in E0.
Qed.

Definition w_chroma_cabac : o_writer := fun S sink s =>
  if i2b (i_cbp_chroma h .& 0x02)
  then each_o (fun i => block_residual_write_cabac h k DCT_CHROMA_AC i (fun j => luma4x4 h i (1 + j)) 15) (seqZ 16 8) s
  else Some s.
Lemma owrites_chroma : owrites w_chroma_cabac
  (read_4x4_blocks ctx field intra 4 15 (fun _ => cbp_seen h / 16 =? 2) (seqZ 16 8) (k_cbf ctx)) (blocks_seen h 1 15 (fun _ => cbp_seen h / 16 =? 2) (seqZ 16 8)).
Proof.
  destruct (cbp_seen_spec h ok) as (_ & _ & _ & ->). destruct (o_cbp _ ok) as (_ & C2 & _).
  assert (i2b (i_cbp_chroma h .& 2) = (i_cbp_chroma h =? 2)) as E.
  { assert (i_cbp_chroma h = 0 \/ i_cbp_chroma h = 1 \/ i_cbp_chroma h = 2) as [-> |[-> | ->]] by lia; done. }
  unfold w_chroma_cabac. rewrite E. destruct (Z.eqb_spec (i_cbp_chroma h) 2) as [Ec|Ec].
  - apply (owrites_4x4 4 1 15 (fun _ => true) 16 24 8); [unfold ac_kind; lia|lia|lia| |done|apply flags_start; by right].
    intros j Hj _. by apply (rk_chroma _ rok).
  - exists []. split; [|split; [constructor|]].
    + intros rest. cbn [fmap list_fmap app]. by rewrite (read_uncoded 4 15 (fun _ => false)).
    + intros S sink R sim s c HR. exists s. by rewrite app_nil_r.
Qed.

(** *** All of it *)
Definition residual_coded : bool := (i_cbp_luma h >? 0) || (i_cbp_chroma h >? 0) || (i_type h =? I_16x16).
Definition read_residual_cabac (t8x8 : bool) : cparser (list Z * list (list Z) * list (list Z) * list (list Z)) :=
  luma_dc ← cwhen (i_type h =? I_16x16) (read_dc 0 16 0) [];
  luma ← read_luma_cabac ctx field t8x8 (cabac_kind h) (cbp_seen h);
  chroma_dc ← ceach (fun i => cwhen (negb (cbp_seen h / 16 =? 0)) (read_dc 3 4 (1 + i)) (replicate 4 0)) (seqZ 0 2);
  chroma ← read_4x4_blocks ctx field intra 4 15 (fun _ => cbp_seen h / 16 =? 2) (seqZ 16 8) (k_cbf ctx);
  mret (luma_dc, luma, chroma_dc, chroma).

Lemma write_luma_parts {S} {sink : CabacSink S} (s : S) : write_luma_cabac h k s = w_luma_dc_cabac S sink s ≫= w_luma_cabac S sink.
Proof. unfold write_luma_cabac, w_luma_dc_cabac, w_luma_cabac. destruct (i_type h =? I_16x16); reflexivity. Qed.
Lemma write_chroma_parts {S} {sink : CabacSink S} (s : S) :
  write_chroma_cabac h k s = each_o (fun c => w_chroma_dc_cabac c S sink) (seqZ 0 2) s ≫= w_chroma_cabac S sink.
Proof.
  unfold write_chroma_cabac, w_chroma_cabac. change (seqZ 0 2) with [0; 1]. rewrite each_o_cons. unfold w_chroma_dc_cabac.
  destruct (i2b (i_cbp_chroma h .& 3)); [|reflexivity]. change (25 + 0) with 25.
  destruct (block_residual_write_cabac h k DCT_CHROMA_DC 25 (chroma_dc h 0) 4 s) as [s1|]; [|done]. cbn [mbind option_bind]. rewrite each_o_cons. change (25 + 1) with 26.
  by destruct (block_residual_write_cabac h k DCT_CHROMA_DC 26 (chroma_dc h 1) 4 s1) as [s2|].
Qed.

Lemma owrites_blocks : owrites (fun S sink s => write_luma_cabac h k s ≫= write_chroma_cabac h k) (read_residual_cabac (transform_seen h))
  (dc_seen h, luma_seen_cabac, chroma_dc_seen h, blocks_seen h 1 15 (fun _ => cbp_seen h / 16 =? 2) (seqZ 16 8)).
Proof.
  eapply owrites_same with (g := fun S sink s => w_luma_dc_cabac S sink s ≫= fun s => w_luma_cabac S sink s ≫= fun s =>
    each_o (fun c => w_chroma_dc_cabac c S sink) (seqZ 0 2) s ≫= w_chroma_cabac S sink).
  - unfold read_residual_cabac. eapply (owrites_seq w_luma_dc_cabac); [apply owrites_luma_dc|]. cbv beta.
    eapply (owrites_seq w_luma_cabac); [apply owrites_luma|]. cbv beta.
    eapply (owrites_seq (fun S sink => each_o (fun c => w_chroma_dc_cabac c S sink) (seqZ 0 2))).
    + apply (owrites_each w_chroma_dc_cabac (fun i => cwhen (negb (cbp_seen h / 16 =? 0)) (read_dc 3 4 (1 + i)) (replicate 4 0))
        (fun c => if negb (cbp_seen h / 16 =? 0) then coefs (chroma_dc h c) 4 else replicate 4 0)).
      apply List.Forall_forall. intros c Hc. apply list_elem_of_In, elem_of_seqZ in Hc. apply owrites_chroma_dc. lia.
    + cbv beta. eapply owrites_last; [apply owrites_chroma|]. intros rest. apply run_ret.
  - intros S sink s. rewrite write_luma_parts. destruct (w_luma_dc_cabac S sink s) as [s1|]; [|done]. cbn [mbind option_bind].
    destruct (w_luma_cabac S sink s1) as [s2|]; [|done]. cbn [mbind option_bind]. apply write_chroma_parts.
Qed.
End Blocks.
