(* ===== verification/CabacRoundtrip.v ===== *)
(** * Reading back the macroblocks x264 writes in CABAC

    The parser of CabacLayer recovers what CabacMb writes, from the bins and, through the
    arithmetic decoder, from the bytes. *)
From S2P Require Import Prelude Syntax Quant Mb MbLayer Cavlc CavlcMb MbRoundtrip Encode CabacTables Cabac CabacMb CabacLayer CabacCodes CabacElements CabacMotion CabacPred CabacResidual CabacBlocks.

(** ** The encoder *)
Definition encodes (cb0 : x264_cabac_t) (s : option x264_cabac_t) (ops : list cop) : Prop := s = encode_bins cb0 (op_bin <$> ops).

Lemma encode_bins_app l r : forall cb, encode_bins cb (l ++ r) = encode_bins cb l ≫= fun cb => encode_bins cb r.
Proof.
  induction l as [|y l IH]; intros cb; [done|]. cbn [app encode_bins].
  destruct (encode_bin cb y) as [cb'|]; [apply IH|done].
Qed.
Lemma encode_bins_snoc l x cb : encode_bins cb (l ++ [x]) = encode_bins cb l ≫= fun cb => encode_bin cb x.
Proof. rewrite encode_bins_app. destruct (encode_bins cb l) as [cb'|]; [|done]. cbn. by destruct (encode_bin cb' x). Qed.

#[export] Instance cabac_sim i_frame cb0 : CabacSim (cabac_sink i_frame) (encodes cb0).
Proof.
  split; [|done..]. intros s l o -> Ho. unfold encodes. rewrite fmap_app. cbn [fmap list_fmap]. rewrite encode_bins_snoc.
  destruct o as [[ctx b|b|e v|]|ctx b]; cbn [put_op op_bin encode_bin]; destruct (encode_bins cb0 (op_bin <$> l)) as [cb|]; reflexivity.
Qed.

(** ** The residual with the quantiser *)
Definition with_qp (skip : bool) (h : x264_t) (k : cabac_mb) : x264_t :=
  if residual_coded h && empty_16x16_cabac h k && negb skip then set_i_qp h (i_last_qp h) else h.
Definition qp_cabac (h : x264_t) (k : cabac_mb) : Z := if residual_coded h && negb (empty_16x16_cabac h k) then i_qp h else i_last_qp h.
Definition delta_ops (h : x264_t) (k : cabac_mb) : list cop := if residual_coded h then dqp_ops h k else [].

Lemma write_blocks_qp {S} {sink : CabacSink S} h k q (s : S) :
  write_luma_cabac (set_i_qp h q) k s ≫= write_chroma_cabac (set_i_qp h q) k = write_luma_cabac h k s ≫= write_chroma_cabac h k.
Proof. by destruct h. Qed.
Lemma write_residual_cabac_parts {S} {sink : CabacSink S} h k (s : S) : mb_ok h ->
  write_residual_cabac h k s = (fun s => (with_qp ck_skip h k, s)) <$> (write_luma_cabac h k (put_ops s (delta_ops h k)) ≫= write_chroma_cabac h k).
Proof.
  intros ok. unfold write_residual_cabac, with_qp, delta_ops. fold (residual_coded h). destruct (residual_coded h) eqn:E; cbn [andb].
  - rewrite qp_delta_cabac_spec by done. destruct (empty_16x16_cabac h k && negb ck_skip); [by rewrite write_blocks_qp|done].
  - unfold residual_coded in E. rewrite !orb_false_iff in E. destruct E as [[E1 E2] E3]. destruct (o_cbp _ ok) as (C1 & C2 & _).
    assert (i_cbp_luma h = 0) as L0 by lia. assert (i_cbp_chroma h = 0) as C0 by lia.
    unfold write_luma_cabac, write_chroma_cabac. rewrite E3, L0, C0. destruct (i2b (b_transform_8x8 h)); reflexivity.
Qed.

Lemma delta_read h k : mb_ok h -> creads (cwhen (is_16x16 (cabac_kind h) || negb (cbp_seen h =? 0)) (read_qp_delta (cabac_context_of h k)) 0)
  (op_bin <$> delta_ops h k) (if residual_coded h then dqp_cabac h k else 0).
Proof.
  intros ok. assert (is_16x16 (cabac_kind h) || negb (cbp_seen h =? 0) = residual_coded h) as ->.
  { unfold residual_coded. destruct (o_cbp _ ok) as (C1 & C2 & _). unfold cbp_seen.
    assert (is_16x16 (cabac_kind h) = (i_type h =? I_16x16)) as ->.
    { unfold cabac_kind. destruct (Z.eqb_spec (i_type h) P_8x8) as [->|]; [done|]. apply kind_16x16. }
    lia. }
  unfold delta_ops. destruct (residual_coded h); [by apply dqp_read|apply creads_ret].
Qed.
Lemma delta_ops_ok h k : Forall op_ok (delta_ops h k).
Proof. unfold delta_ops. destruct (residual_coded h); [apply dqp_ops_ok|constructor]. Qed.
Lemma qp_cabac_decoded h k : mb_ok h -> (i_last_qp h + (if residual_coded h then dqp_cabac h k else 0) + 52) mod 52 = qp_cabac h k.
Proof.
  intros ok. destruct (o_qp _ ok) as [Q1 Q2].
  assert ((i_last_qp h + 0 + 52) mod 52 = i_last_qp h) as E0.
  { replace (i_last_qp h + 0 + 52) with (i_last_qp h + 1 * 52) by lia. rewrite Z.mod_add, Z.mod_small by lia. done. }
  unfold dqp_cabac, qp_cabac. destruct (empty_16x16_cabac h k); cbn [negb]; [rewrite andb_false_r; by destruct (residual_coded h)|].
  destruct (residual_coded h); cbn [andb]; [|done].
  destruct (Z.ltb_spec (i_qp h - i_last_qp h) (-26)), (Z.gtb_spec (i_qp h - i_last_qp h) 25); Z.to_euclidean_division_equations; lia.
Qed.

(** ** Type, pattern and transform *)
Lemma cwrites_field_and_type h k : mb_ok h -> loaded_ok h k -> forall A (q : bool -> mb_kind -> cparser A) (f : c_writer) v,
  cwrites f (q (i2b (b_interlaced h)) (cabac_kind h)) v ->
  cwrites (fun S sink => x264_cabac_mb_type h k ;> f S sink)
    (b ← cwhen (field_flag_present h) (flag (70 + i_neighbour_interlaced k)) (i2b (b_interlaced h)); kd ← read_mb_type (cabac_context_of h k); q b kd) v.
Proof.
  intros ok L A q f v Hf.
  eapply cwrites_same with (g := fun S sink => when (field_flag_present h) (fun s => ck_decision_noup s (70 + i_neighbour_interlaced k) (b_interlaced h)) ;>
    (write_type h k S sink ;> f S sink)); [|done].
  eapply cwrites_seq with (a := i2b (b_interlaced h)).
  - apply (cwrites_when _ (fun S sink s => ck_decision_noup s (70 + i_neighbour_interlaced k) (b_interlaced h))); [|done].
    intros _. apply (cwrites_op (Noup (70 + i_neighbour_interlaced k) (b_interlaced h))).
    + pose proof (l_interlaced _ _ L). apply noup_ok; [apply ctx_ok_range; lia|destruct (o_field _ ok) as [-> | ->]; [by left|by right]].
    + intros rest. unfold flag. by run_bins_step.
  - cbv beta. eapply cwrites_seq; [by apply cwrites_type|exact Hf].
Qed.

Lemma transform_allowed_cabac h k : mb_ok h ->
  transform_8x8_possible_cabac (cabac_context_of h k) (cabac_kind h) (m_subs (pred_seen h)) && b_transform_8x8_mode h = x264_mb_transform_8x8_allowed h.
Proof.
  intros ok. rewrite <- (transform_allowed h ok (not_pcm h ok)). f_equal. unfold transform_8x8_possible_cabac, cabac_kind.
  destruct (Z.eqb_spec (i_type h) P_8x8) as [E|]; [|done]. unfold kind_seen. by rewrite E.
Qed.

Lemma cwrites_pattern h k : mb_ok h -> loaded_ok h k ->
  cwrites (fun S sink => write_cbp_cabac h k)
    (cbp ← read_cbp_cabac (cabac_context_of h k) (cabac_kind h);
     t8x8 ← cwhen (transform_8x8_possible_cabac (cabac_context_of h k) (cabac_kind h) (m_subs (pred_seen h)) && b_transform_8x8_mode h && negb (cbp mod 16 =? 0))
       (read_transform_flag (cabac_context_of h k)) (m_t8x8 (pred_seen h));
     mret (cbp, t8x8)) (cbp_seen h, transform_seen h).
Proof.
  intros ok L. destruct (cbp_seen_spec h ok) as (_ & _ & Em & _).
  eapply cwrites_seq with (a := cbp_seen h) (f := fun S sink => when (negb (i_type h =? I_16x16)) (x264_cabac_mb_cbp_luma h k ;> x264_cabac_mb_cbp_chroma h k))
    (g := fun S sink => when (x264_mb_transform_8x8_allowed h && i2b (i_cbp_luma h)) (x264_cabac_mb_transform_size h k)).
  - destruct (Z.eqb_spec (i_type h) I_16x16) as [E|E]; cbn [negb when]; [|by apply cwrites_cbp].
    assert (cabac_kind h = K_16x16 (tbl x264_mb_pred_mode16x16_fix (i_intra16x16_pred_mode h)) (16 * i_cbp_chroma h + i_cbp_luma h)) as ->
      by (unfold cabac_kind, kind_seen; by rewrite E). apply cwrites_skip.
  - cbv beta. rewrite transform_allowed_cabac, Em by done. eapply cwrites_last; [|intros l; apply run_ret].
    change (x264_mb_transform_8x8_allowed h && negb (i_cbp_luma h =? 0)) with (transform_coded h).
    change (x264_mb_transform_8x8_allowed h && i2b (i_cbp_luma h)) with (transform_coded h). unfold transform_seen.
    apply (cwrites_when _ (fun S sink => x264_cabac_mb_transform_size h k)).
    + intros ->. rewrite orb_true_r. cbn [andb]. by apply cwrites_transform_flag.
    + intros ->. rewrite orb_false_r. done.
Qed.

(** ** The macroblock *)

(** What is seen of a macroblock in CABAC: the references of quarters are always coded,
    and the luma of the 8x8 transform is not dealt out. *)
Definition mb_seen_cabac (h : x264_t) (k : cabac_mb) : macroblock :=
  Macroblock (i2b (b_interlaced h)) (cabac_kind h) (pred_seen h) (cbp_seen h) (transform_seen h) (qp_cabac h k)
    (dc_seen h) (luma_seen_cabac h) (chroma_dc_seen h) (blocks_seen h 1 15 (fun _ => cbp_seen h / 16 =? 2) (seqZ 16 8)).

(** The parser in the groups of the writer. *)
Definition read_head (c : cabac_context) : cparser (bool * mb_kind) :=
  f ← cwhen (k_field_flag c) (flag (70 + k_field_inc c)) (k_field c); k ← read_mb_type c; mret (f, k).
Definition read_pattern (c : cabac_context) (k : mb_kind) (p : mb_pred) : cparser (Z * bool) :=
  cbp ← read_cbp_cabac c k;
  t8x8 ← cwhen (transform_8x8_possible_cabac c k (m_subs p) && k_transform_8x8_mode c && negb (cbp mod 16 =? 0)) (read_transform_flag c) (m_t8x8 p);
  mret (cbp, t8x8).
Definition read_blocks_cabac (c : cabac_context) (f : bool) (k : mb_kind) (cbp : Z) (t8x8 : bool) : cparser (list Z * list (list Z) * list (list Z) * list (list Z)) :=
  let intra := kind_intra k in
  let dc cat n i := read_block_cabac f cat n (Some (cbf_inc intra cat (dc_cbf (k_left c) i) (dc_cbf (k_top c) i))) in
  luma_dc ← cwhen (is_16x16 k) (dc 0 16 0) [];
  luma ← read_luma_cabac c f t8x8 k cbp;
  chroma_dc ← ceach (fun i => cwhen (negb (cbp / 16 =? 0)) (dc 3 4 (1 + i)) (replicate 4 0)) (seqZ 0 2);
  chroma ← read_4x4_blocks c f intra 4 15 (fun _ => cbp / 16 =? 2) (seqZ 16 8) (k_cbf c);
  mret (luma_dc, luma, chroma_dc, chroma).
Definition read_groups (c : cabac_context) : cparser macroblock :=
  '(f, k) ← read_head c;
  p ← read_mb_pred_cabac c k;
  '(cbp, t8x8) ← read_pattern c k p;
  delta ← cwhen (is_16x16 k || negb (cbp =? 0)) (read_qp_delta c) 0;
  '(luma_dc, luma, chroma_dc, chroma) ← read_blocks_cabac c f k cbp t8x8;
  mret (Macroblock f k p cbp t8x8 ((k_qp c + delta + 52) mod 52) luma_dc luma chroma_dc chroma).

Ltac run_same := match goal with
  | |- match run_bins ?r ?l with _ => _ end = match run_bins ?r ?l with _ => _ end => destruct (run_bins r l) as [[? ?]|]; [|reflexivity]
  | |- context [match (match run_bins ?r ?l with _ => _ end) with _ => _ end] => destruct (run_bins r l) as [[? ?]|]; [|reflexivity]
  end.
Lemma read_groups_same c l : run_bins (read_macroblock_cabac c) l = run_bins (read_groups c) l.
Proof.
  unfold read_macroblock_cabac, read_groups, read_head, read_pattern, read_blocks_cabac. cbv zeta.
  repeat first [progress rewrite !run_bind | progress rewrite !run_ret | progress cbv beta iota | run_same]. reflexivity.
Qed.

(** What the caches and arrays of the encoder satisfy when a macroblock is written. *)
Record cabac_ready (h : x264_t) (k : cabac_mb) : Prop := {
  cr_mb : mb_ok h; cr_loaded : loaded_ok h k; cr_motion : motion_known h k; cr_residual : residual_known h
}.

Lemma cwrites_head h k : mb_ok h -> loaded_ok h k ->
  cwrites (fun S sink => x264_cabac_mb_type h k) (read_head (cabac_context_of h k)) (i2b (b_interlaced h), cabac_kind h).
Proof.
  intros ok L. eapply cwrites_same with (g := fun S sink => x264_cabac_mb_type h k ;> fun s => s); [|done].
  apply (cwrites_field_and_type h k ok L _ (fun f k => mret (f, k)) (fun S sink s => s)). apply cwrites_skip.
Qed.

Lemma owrites_residual h k : mb_ok h -> loaded_ok h k -> residual_known h ->
  owrites (fun S sink s => write_luma_cabac h k s ≫= write_chroma_cabac h k)
    (read_blocks_cabac (cabac_context_of h k) (i2b (b_interlaced h)) (cabac_kind h) (cbp_seen h) (transform_seen h))
    (dc_seen h, luma_seen_cabac h, chroma_dc_seen h, blocks_seen h 1 15 (fun _ => cbp_seen h / 16 =? 2) (seqZ 16 8)).
Proof.
  intros ok L rok. destruct (owrites_blocks h k ok L rok) as (o & R & F & E). exists o. split; [|done]. intros rest. rewrite <- (R rest).
  unfold read_blocks_cabac, read_residual_cabac, read_dc. cbv zeta. cbn [cabac_context_of k_left k_top].
  assert (is_16x16 (cabac_kind h) = (i_type h =? I_16x16)) as ->; [|done].
  unfold cabac_kind. destruct (Z.eqb_spec (i_type h) P_8x8) as [->|]; [done|]. apply kind_16x16.
Qed.

(** The operations of the four parts. *)
Record layer (h : x264_t) (k : cabac_mb) (m : Z -> Z -> Z * Z) (f : c_writer) (o1 o2 o3 o4 : list cop) : Prop := {
  ly_read : creads (read_macroblock_cabac (cabac_context_of h k)) (op_bin <$> o1 ++ o2 ++ o3 ++ delta_ops h k ++ o4) (mb_seen_cabac h k);
  ly_ok : Forall op_ok (o1 ++ o2 ++ o3 ++ delta_ops h k ++ o4);
  ly_type : emits_ops (fun S sink => x264_cabac_mb_type h k) o1;
  ly_saved : forall S (sink : CabacSink S) s, write_mb_pred_cabac h (k, s) = (set_cache_mvd k m, f S sink s);
  ly_pred : emits_ops f o2;
  ly_pattern : emits_ops (fun S sink => write_cbp_cabac h k) o3;
  ly_blocks : forall S (sink : CabacSink S) (R : S -> list cop -> Prop), CabacSim sink R -> forall s c, R s c ->
    exists s', write_luma_cabac h k s ≫= write_chroma_cabac h k = Some s' /\ R s' (c ++ o4)
}.
Lemma layer_ops h k : cabac_ready h k -> exists m f o1 o2 o3 o4, layer h k m f o1 o2 o3 o4.
Proof.
  intros [ok L mok rok].
  destruct (cwrites_head h k ok L) as (o1 & R1 & F1 & E1). destruct (kwrites_pred h k ok L mok) as (m & f & Ef & o2 & R2 & F2 & E2).
  destruct (cwrites_pattern h k ok L) as (o3 & R3 & F3 & E3). destruct (owrites_residual h k ok L rok) as (o4 & R4 & F4 & E4).
  exists m, f, o1, o2, o3, o4. split; [| |done..].
  - eapply creads_ext; [|apply read_groups_same]. unfold read_groups. rewrite !fmap_app.
    eapply creads_bind; [exact R1|]. cbv beta iota. eapply creads_bind; [exact R2|]. cbv beta. eapply creads_bind; [exact R3|]. cbv beta iota.
    eapply creads_bind; [by apply delta_read|]. cbv beta. rewrite <- (app_nil_r (op_bin <$> o4)). eapply creads_bind; [exact R4|]. cbv beta iota.
    cbn [cabac_context_of k_qp]. rewrite qp_cabac_decoded by done. apply creads_ret.
  - pose proof (delta_ops_ok h k). rewrite !Forall_app. done.
Qed.

(** The layer in a sink, part by part. *)
Lemma layer_sim h k m f o1 o2 o3 o4 : mb_ok h -> layer h k m f o1 o2 o3 o4 ->
  forall S (sink : CabacSink S) (R : S -> list cop -> Prop), CabacSim sink R -> forall s c, R s c ->
  let s1 := x264_cabac_mb_type h k s in
  R s1 (c ++ o1) /\ R (f S sink s1) (c ++ o1 ++ o2) /\
  exists s', write_residual_cabac h (set_cache_mvd k m) (write_cbp_cabac h (set_cache_mvd k m) (f S sink s1)) = Some (with_qp ck_skip h k, s') /\
    R s' (c ++ o1 ++ o2 ++ o3 ++ delta_ops h k ++ o4).
Proof.
  intros ok Y S sink R sim s c HR. cbv zeta. pose proof (ly_type _ _ _ _ _ _ _ _ Y S sink R sim _ _ HR) as H1.
  pose proof (ly_pred _ _ _ _ _ _ _ _ Y S sink R sim _ _ H1) as H2. pose proof (ly_pattern _ _ _ _ _ _ _ _ Y S sink R sim _ _ H2) as H3.
  pose proof (emits_ops_all _ (delta_ops_ok h k) S sink R sim _ _ H3) as H4. cbv beta in H4.
  destruct (ly_blocks _ _ _ _ _ _ _ _ Y S sink R sim _ _ H4) as (s' & E & H5). rewrite <- !app_assoc in *.
  split; [exact H1|]. split; [exact H2|]. exists s'. split; [|exact H5]. rewrite write_residual_cabac_parts by done.
  change (write_luma_cabac h (set_cache_mvd k m)) with (write_luma_cabac h k). change (write_chroma_cabac h (set_cache_mvd k m)) with (write_chroma_cabac h k).
  change (delta_ops h (set_cache_mvd k m)) with (delta_ops h k). change (write_cbp_cabac h (set_cache_mvd k m)) with (write_cbp_cabac h k).
  by rewrite E.
Qed.

(** The bits x264 appends for a macroblock, from whatever state the engine is in. *)
Lemma layer_written i_frame h k pic stat cb m f o1 o2 o3 o4 : mb_ok h -> layer h k m f o1 o2 o3 o4 ->
  (forall l, Forall bin_ok l -> is_Some (encode_bins cb l)) ->
  exists cb' stat', encode_bins cb (op_bin <$> o1 ++ o2 ++ o3 ++ delta_ops h k ++ o4) = Some cb' /\
    x264_macroblock_write_cabac i_frame h k pic stat cb = Some (with_qp false h k, set_cache_mvd k m, pic, stat', cb') /\
    i_mv_bits stat' + i_tex_bits stat' = i_mv_bits stat + i_tex_bits stat + (x264_cabac_pos cb' - x264_cabac_pos cb).
Proof.
  intros ok Y HB. assert (forall o, Forall op_ok o -> exists cb', encode_bins cb (op_bin <$> o) = Some cb') as HS.
  { intros o Ho. apply HB. by apply list.Forall_fmap. }
  destruct (layer_sim _ _ _ _ _ _ _ _ ok Y _ (cabac_sink i_frame) _ (cabac_sim i_frame cb) (Some cb) [] eq_refl) as (H1 & H2 & s' & E & H3).
  pose proof (ly_ok _ _ _ _ _ _ _ _ Y) as HF. destruct (HS _ HF) as (cb4 & B4). rewrite !Forall_app in HF. destruct HF as (F1 & F2 & _).
  destruct (HS o1 F1) as (cb1 & B1). destruct (HS (o1 ++ o2) ltac:(by apply Forall_app)) as (cb2 & B2).
  unfold encodes in H1, H2, H3. cbn [app] in H1, H2, H3. rewrite B1 in H1. rewrite B2 in H2. rewrite B4 in H3.
  exists cb4. eexists. split; [exact B4|]. unfold x264_macroblock_write_cabac. cbv zeta. rewrite H1. cbn [mbind option_bind].
  rewrite (proj2 (Z.eqb_neq _ _) (not_pcm h ok)). rewrite H1 in H2, E. rewrite (ly_saved _ _ _ _ _ _ _ _ Y), H2. rewrite H2, H3 in E. cbn [mbind option_bind].
  rewrite E. cbn [mbind option_bind]. split; [reflexivity|]. cbn [i_mv_bits i_tex_bits]. lia.
Qed.

(** ** Within a slice *)
Lemma dec_bins_app a b d d' : dec_bins (a ++ b) d = Some (bin_val <$> a ++ b, d') ->
  exists d1, dec_bins a d = Some (bin_val <$> a, d1) /\ dec_bins b d1 = Some (bin_val <$> b, d').
Proof.
  revert d. induction a as [|x a IH]; intros d H; [by exists d|]. cbn [app dec_bins] in H.
  destruct (dec_bin x d) as [[v d1]|] eqn:E; [|done]. destruct (dec_bins (a ++ b) d1) as [[vs d2]|] eqn:E2; [|done].
  injection H as -> -> ->. destruct (IH d1 E2) as (d3 & H1 & H2). exists d3. cbn [dec_bins]. by rewrite E, H1.
Qed.

Lemma sub_list_nth (l : list (list Z)) i j n f : l !! i = Some ((fun k => f k) <$> seqZ 0 n) -> 0 <= j < n -> nth (Z.to_nat j) (nth i l []) 0 = f j.
Proof. intros E Hj. rewrite (nth_lookup_Some _ _ _ _ E). by rewrite nth_map_seqZ. Qed.

Lemma luma_list h i : 0 <= i < (if negb (i_type h =? I_16x16) && transform_seen h then 4 else 16) ->
  luma_seen_cabac h !! Z.to_nat i = Some (if negb (i_type h =? I_16x16) && transform_seen h
    then (if Z.testbit (cbp_seen h) i then luma8x8 h i <$> seqZ 0 64 else replicate 64 0)
    else (if luma_coded h i then block_coefs h (luma_first h) (luma_count h) i else replicate (Z.to_nat (luma_count h)) 0)).
Proof.
  intros Hi. unfold luma_seen_cabac, blocks_seen. destruct (negb (i_type h =? I_16x16) && transform_seen h); rewrite list_lookup_fmap, lookup_seqZ_lt by lia; cbn; by rewrite Z2Nat.id by lia.
Qed.

(** The levels at their places. *)
Lemma levels_seen_8x8 h k i8 n : mb_ok h -> 0 <= i8 < 4 -> 0 <= n < 64 -> Z.testbit (i_cbp_luma h) i8 = true -> i_type h <> I_16x16 ->
  i2b (b_transform_8x8 h) = true -> nth (Z.to_nat n) (nth (Z.to_nat i8) (m_luma (mb_seen_cabac h k)) []) 0 = luma8x8 h i8 n.
Proof.
  intros ok Hi Hn Hb Ht Htr. cbn [mb_seen_cabac m_luma].
  assert (transform_seen h = true) as Es.
  { unfold transform_seen. rewrite Htr, andb_true_r. destruct (is_NxN (kind_seen h)) eqn:EN; [done|]. cbn [orb]. unfold transform_coded.
    destruct (o_transform _ ok) as (T1 & _ & _ & T4). rewrite (T4 EN) by (destruct T1 as [T1|T1]; [by rewrite T1 in Htr|done]). cbn [andb].
    unfold i2b. apply negb_true_iff, Z.eqb_neq. intros E. by rewrite E, Z.bits_0 in Hb. }
  apply Z.eqb_neq in Ht. pose proof (luma_list h i8) as E. rewrite Ht, Es in E. cbn [negb andb] in E. specialize (E Hi).
  rewrite (luma_bit_cabac h ok), Hb in E by done. by apply (sub_list_nth _ _ _ 64 (luma8x8 h i8) E).
Qed.
Lemma levels_seen_4x4 h k j n : mb_ok h -> 0 <= j < 16 -> 0 <= n < luma_count h -> Z.testbit (i_cbp_luma h) (j / 4) = true ->
  i2b (b_transform_8x8 h) = false -> nth (Z.to_nat n) (nth (Z.to_nat j) (m_luma (mb_seen_cabac h k)) []) 0 = luma4x4 h j (luma_first h + n).
Proof.
  intros ok Hj Hn Hb Htr. cbn [mb_seen_cabac m_luma].
  assert (transform_seen h = false) as Es by (unfold transform_seen; by rewrite Htr, andb_false_r).
  pose proof (luma_list h j) as E. rewrite Es, andb_false_r in E. specialize (E Hj). unfold luma_coded in E.
  rewrite (luma_bit_cabac h ok), Hb, block_coefs_list in E by (first [by apply quarter|lia]).
  by apply (sub_list_nth _ _ _ (luma_count h) (fun i => luma4x4 h j (luma_first h + i)) E).
Qed.

(** C7: at any point of a slice, the bits x264 appends for a macroblock in CABAC are
    parsed back, from the bytes of the finished slice, by the arithmetic decoder and the
    syntax of the standard: type, prediction modes, references, vector differences,
    pattern, quantiser and every level; the contexts are chosen by what the decoder
    knows of the neighbours and has itself read of the macroblock. What was coded before
    and what is coded after are read back too. *)
Theorem cabac_macroblock_roundtrip cb0 p_data p_end i_frame pre post h k pic stat :
  (forall i, 0 <= i < 460 -> state_ok (state cb0 i)) -> Forall bin_ok pre -> Forall bin_ok post -> cabac_ready h k ->
  exists cb1 h' k' stat' cb2 cb3 d0 d1 d2 d3,
    encode_bins (x264_cabac_encode_init cb0 p_data p_end) pre = Some cb1 /\
    x264_macroblock_write_cabac i_frame h k pic stat cb1 = Some (h', k', pic, stat', cb2) /\
    encode_bins cb2 post = Some cb3 /\
    dec_init (state cb0) (bytes_bits (cb_bytes (x264_cabac_encode_flush i_frame cb3))) = Some d0 /\
    dec_bins pre d0 = Some (bin_val <$> pre, d1) /\
    run_dec (read_macroblock_cabac (cabac_context_of h k)) d1 = Some (mb_seen_cabac h k, d2) /\
    dec_bins post d2 = Some (bin_val <$> post, d3) /\ dec_terminal d3 = Some (1, d3) /\
    (residual_coded h = true -> m_qp (mb_seen_cabac h k) = i_qp h') /\
    (forall i8 n, 0 <= i8 < 4 -> 0 <= n < 64 -> Z.testbit (i_cbp_luma h) i8 = true -> i_type h <> I_16x16 ->
      i2b (b_transform_8x8 h) = true -> nth (Z.to_nat n) (nth (Z.to_nat i8) (m_luma (mb_seen_cabac h k)) []) 0 = luma8x8 h i8 n) /\
    (forall j n, 0 <= j < 16 -> 0 <= n < luma_count h -> Z.testbit (i_cbp_luma h) (j / 4) = true -> i2b (b_transform_8x8 h) = false ->
      nth (Z.to_nat n) (nth (Z.to_nat j) (m_luma (mb_seen_cabac h k)) []) 0 = luma4x4 h j (luma_first h + n)) /\
    i_mv_bits stat' + i_tex_bits stat' = i_mv_bits stat + i_tex_bits stat + (x264_cabac_pos cb2 - x264_cabac_pos cb1).
Proof.
  intros Hs Hpre Hpost Hr. pose proof (encode_init_refines cb0 p_data p_end Hs) as Hf0.
  destruct (bins_step pre _ _ Hf0 Hpre) as (cb1 & e1 & E1 & Hf1 & _).
  destruct (layer_ops h k Hr) as (m & f & o1 & o2 & o3 & o4 & Y). set (bins := op_bin <$> o1 ++ o2 ++ o3 ++ delta_ops h k ++ o4).
  destruct (layer_written i_frame h k pic stat cb1 _ _ _ _ _ _ (cr_mb _ _ Hr) Y) as (cb2 & stat' & E2 & EW & Est).
  { intros l Hl. destruct (bins_step l _ _ Hf1 Hl) as (cb & e & E & _). by exists cb. }
  pose proof (ly_read _ _ _ _ _ _ _ _ Y post) as HR. fold bins in E2, HR.
  assert (Forall bin_ok bins) as Hb by (apply list.Forall_fmap, (ly_ok _ _ _ _ _ _ _ _ Y)).
  destruct (bins_decoded cb0 p_data p_end i_frame (pre ++ bins ++ post) Hs) as (cb3 & E3 & _ & d0 & d3 & D0 & D & Dt); [by rewrite !Forall_app|].
  rewrite encode_bins_app, E1 in E3. cbn [mbind option_bind] in E3. rewrite encode_bins_app, E2 in E3. cbn [mbind option_bind] in E3.
  destruct (dec_bins_app _ _ _ _ D) as (d1 & D1 & D2).
  destruct (run_dec_bins _ _ _ _ _ d1 _ HR D2 eq_refl) as (d2 & D3 & D4).
  exists cb1, (with_qp false h k), (set_cache_mvd k m), stat', cb2, cb3, d0, d1, d2, d3. repeat (split; [eassumption|]). split.
  { intros Ec. cbn [mb_seen_cabac m_qp]. unfold qp_cabac, with_qp. rewrite Ec. cbn [andb negb]. destruct (empty_16x16_cabac h k); by destruct h. }
  split; [intros; by apply levels_seen_8x8; [apply Hr|..]|]. split; [intros; by apply levels_seen_4x4; [apply Hr|..]|exact Est].
Qed.

(** *** A macroblock without neighbours *)
Definition sample_cabac_mb : cabac_mb :=
  CabacMb (-1) (-1) 0 0 0 0 (fun _ => 0) (fun _ => 0) (fun _ => 0) (fun _ => 0) (fun _ _ => (0, 0)) 0 0.

Lemma sample_cabac_ready : cabac_ready sample_mb sample_cabac_mb.
Proof.
  assert (forall l q, ref_gt0 sample_mb sample_cabac_mb l q = false) as Href.
  { intros l q. unfold ref_gt0. cbn [sample_mb cache_ref]. by destruct ((q =? 16) || (q =? 24) || (q =? 32)). }
  split; [exact sample_mb_ok|split; [done|done|done|done|by split|by right]| |].
  - split.
    + intros l _. apply list.Forall_forall. intros u _ p _. by rewrite !Href.
    + intros l _. apply list.Forall_forall. done.
    + intros. apply Href.
    + done.
  - assert (forall j i, is_coef (luma4x4 sample_mb j i)) as HC by (intros j i; unfold is_coef; cbn; repeat case_match; lia).
    assert (forall j, 0 <= j < 16 -> non_zero_count sample_mb (scan8 j) = if j =? 0 then 3 else 0) as HN.
    { intros j Hj. assert (all_range 0 16 (fun j => non_zero_count sample_mb (scan8 j) =? if j =? 0 then 3 else 0) = true) as C by (vm_compute; reflexivity).
      eapply all_range_spec with (i := j) in C; [|lia]. cbv beta in C. lia. }
    split.
    + intros j i _ _. apply HC.
    + intros i8 i _ _. unfold is_coef. cbn. lia.
    + intros i _. unfold is_coef. cbn. lia.
    + intros c i _ _. unfold is_coef. cbn. lia.
    + intros j Hj _ _. rewrite HN by done. destruct (Z.eqb_spec j 0) as [->|Hne].
      * split; [intros _; by exists 0|done].
      * split; [done|]. intros (i & _ & Hi). cbn [sample_mb luma4x4] in Hi. by replace (j =? 0) with false in Hi by lia.
    + intros j Hj Hb. rewrite HN by done. destruct (Z.eqb_spec j 0) as [->|Hne]; done.
    + done.
    + done.
    + done.
    + done.
Qed.

Lemma cabac_macroblock_roundtrip_witness :
  exists cb1 h' k' stat' cb2 cb3 d0 d1 d2,
    encode_bins (x264_cabac_encode_init sample_cabac 1000 2000) [Decision 11 0] = Some cb1 /\
    x264_macroblock_write_cabac 0 sample_mb sample_cabac_mb (MbPic (fun _ _ => 0) (fun _ _ => 0)) (FrameStat 0 0) cb1 =
      Some (h', k', MbPic (fun _ _ => 0) (fun _ _ => 0), stat', cb2) /\
    encode_bins cb2 [Terminal] = Some cb3 /\
    dec_init (state sample_cabac) (bytes_bits (cb_bytes (x264_cabac_encode_flush 0 cb3))) = Some d0 /\
    run_dec (read_macroblock_cabac (cabac_context_of sample_mb sample_cabac_mb)) d1 = Some (mb_seen_cabac sample_mb sample_cabac_mb, d2) /\
    nth 3 (nth 0 (m_luma (mb_seen_cabac sample_mb sample_cabac_mb)) []) 0 = -2 /\ i_qp h' = 26.
Proof.
  destruct (cabac_macroblock_roundtrip sample_cabac 1000 2000 0 [Decision 11 0] [Terminal] sample_mb sample_cabac_mb (MbPic (fun _ _ => 0) (fun _ _ => 0)) (FrameStat 0 0))
    as (cb1 & h' & k' & stat' & cb2 & cb3 & d0 & d1 & d2 & d3 & E1 & E2 & E3 & D0 & _ & D2 & _ & _ & Q & _ & V & _).
  - intros i Hi. apply context_init_ok. lia.
  - constructor; [cbn; lia|constructor].
  - constructor; [done|constructor].
  - exact sample_cabac_ready.
  - exists cb1, h', k', stat', cb2, cb3, d0, d1, d2. repeat (split; [eassumption|]). split.
    + pose proof (V 0 3 ltac:(lia) ltac:(unfold luma_count; cbn; lia) eq_refl eq_refl) as V'. exact V'.
    + rewrite <- Q; reflexivity.
Defined.
