(* ===== verification/CabacSize.v ===== *)
(** * The rate encoder/rdo.c estimates in CABAC

    The second compilation of encoder/cabac.c adds up entropies from tables, with whole
    runs of bins at a time; the result is the entropy of the bins of the first. *)
From S2P Require Import Prelude Bs Syntax Quant Mb MbLayer Cavlc CavlcMb MbRoundtrip CabacTables Cabac CabacMb CabacLayer CabacCodes CabacElements CabacMotion CabacPred CabacResidual CabacBlocks CabacRoundtrip.

(** ** The entropy of bins, in 1/256 bit *)
Definition cost_op (sf : (Z -> Z) * Z) (o : cop) : (Z -> Z) * Z :=
  let '(st, f) := sf in
  match o with
  | Op (Decision ctx b) => (upd st ctx (tbl2 x264_cabac_transition (st ctx) b), f + tbl2 x264_cabac_entropy (st ctx) b)
  | Noup ctx b => (st, f + tbl2 x264_cabac_entropy (st ctx) b)
  | Op (Bypass _) => (st, f + 256)
  | Op (UeBypass e v) => (st, f + 256 * (2 * Z.log2 (v + 2 ^ e) + 1 - e))
  | Op Terminal => (st, f + tbl2 x264_cabac_entropy (st 276) 0)
  end.
Definition cost (sf : (Z -> Z) * Z) (l : list cop) : (Z -> Z) * Z := fold_left cost_op l sf.

(** The escape code has that many bits. *)
Lemma ue_bypass_length e k v' v : 0 <= e <= k -> 0 <= v' < 2 ^ k -> v = v' + 2 ^ k - 2 ^ e ->
  Z.of_nat (length (ue_bits e k v')) = 2 * Z.log2 (v + 2 ^ e) + 1 - e.
Proof.
  intros He Hv ->. replace (v' + 2 ^ k - 2 ^ e + 2 ^ e) with (2 ^ k + v') by lia.
  rewrite (Z.log2_unique (2 ^ k + v') k) by (rewrite ?Z.pow_succ_r by lia; lia).
  unfold ue_bits. rewrite length_app, length_replicate. cbn [length]. rewrite length_bits. lia.
Qed.

(** ** One context *)
Definition walk_step (sf : Z * Z) (b : Z) : Z * Z := (tbl2 x264_cabac_transition (fst sf) b, snd sf + tbl2 x264_cabac_entropy (fst sf) b).
Definition walk (bs : list Z) (sf : Z * Z) : Z * Z := fold_left walk_step bs sf.

Lemma walk_shift bs : forall s f, walk bs (s, f) = (fst (walk bs (s, 0)), f + snd (walk bs (s, 0))).
Proof.
  induction bs as [|b bs IH]; intros s f; [cbn; f_equal; lia|]. unfold walk in *. cbn [fold_left]. unfold walk_step at 2 4 6. cbn [fst snd].
  rewrite IH. rewrite (IH _ (0 + _)). cbn [fst snd]. f_equal. lia.
Qed.

Lemma cost_walk ctx bs : forall st f, let '(st', f') := cost (st, f) (Dec ctx <$> bs) in
  (forall c, st' c = if c =? ctx then fst (walk bs (st ctx, 0)) else st c) /\ f' = f + snd (walk bs (st ctx, 0)).
Proof.
  induction bs as [|b bs IH]; intros st f.
  - cbn. split; [|lia]. intros c. by destruct (Z.eqb_spec c ctx) as [->|].
  - unfold cost in *. cbn [fmap list_fmap fold_left Dec cost_op].
    specialize (IH (upd st ctx (tbl2 x264_cabac_transition (st ctx) b)) (f + tbl2 x264_cabac_entropy (st ctx) b)).
    destruct (fold_left cost_op (Dec ctx <$> bs) _) as [st' f']. destruct IH as [IH1 IH2].
    unfold walk. cbn [fold_left]. unfold walk_step at 2 4. cbn [fst snd]. fold (walk bs). rewrite walk_shift. cbn [fst snd].
    unfold upd in *. rewrite Z.eqb_refl in *. split; [|lia]. intros c. rewrite IH1. by destruct (c =? ctx).
Qed.

(** The rows of [x264_rdo_init]. *)
Definition unary_bins (p : Z) : list Z := replicate (Z.to_nat (p - 1)) 1 ++ (if p <? 14 then [0] else []).
Lemma unary_rows p s : 1 <= p <= 14 -> 0 <= s < 128 ->
  cabac_transition_unary p s = fst (walk (unary_bins p) (s, 0)) /\ cabac_size_unary p s = snd (walk (unary_bins p) (s, 0)) + 256.
Proof.
  intros Hp Hs.
  assert (all_range 1 14 (fun p => all_range 0 128 (fun s => (cabac_transition_unary p s =? fst (walk (unary_bins p) (s, 0))) &&
    (cabac_size_unary p s =? snd (walk (unary_bins p) (s, 0)) + 256))) = true) as C by (vm_compute; reflexivity).
  eapply all_range_spec with (i := p) in C; [|lia]. cbv beta in C. eapply all_range_spec with (i := s) in C; [|lia]. cbv beta in C. lia.
Qed.
Lemma ones_rows s : 0 <= s < 128 ->
  cabac_transition_5ones s = fst (walk (replicate 5 1) (s, 0)) /\ cabac_size_5ones s = snd (walk (replicate 5 1) (s, 0)) + 256.
Proof.
  intros Hs. assert (all_range 0 128 (fun s => (cabac_transition_5ones s =? fst (walk (replicate 5 1) (s, 0))) &&
    (cabac_size_5ones s =? snd (walk (replicate 5 1) (s, 0)) + 256)) = true) as C by (vm_compute; reflexivity).
  eapply all_range_spec with (i := s) in C; [|lia]. cbv beta in C. lia.
Qed.

(** ** The counters *)
Definition states_ok (st : Z -> Z) : Prop := forall c, 0 <= c < 460 -> 0 <= st c < 128.
Definition counts (cb0 cb : x264_cabac_t) (ops : list cop) : Prop :=
  (forall c, state cb c = fst (cost (state cb0, f8_bits_encoded cb0) ops) c) /\
  f8_bits_encoded cb = snd (cost (state cb0, f8_bits_encoded cb0) ops) /\ states_ok (state cb).

Lemma transition_range s b : 0 <= s < 128 -> b = 0 \/ b = 1 -> 0 <= tbl2 x264_cabac_transition s b < 128.
Proof.
  intros Hs Hb. assert (all_range 0 128 (fun s => (0 <=? tbl2 x264_cabac_transition s b) && (tbl2 x264_cabac_transition s b <? 128)) = true) as C
    by (destruct Hb as [-> | ->]; vm_compute; reflexivity).
  eapply all_range_spec with (i := s) in C; [|lia]. cbv beta in C. lia.
Qed.
Lemma walk_range bs s f : Forall (fun b => b = 0 \/ b = 1) bs -> 0 <= s < 128 -> 0 <= fst (walk bs (s, f)) < 128.
Proof. intros H. revert s f. induction H as [|b bs Hb _ IH]; intros s f Hs; [done|]. apply IH. by apply transition_range. Qed.

Lemma cost_app sf a b : cost sf (a ++ b) = cost (cost sf a) b.
Proof. apply fold_left_app. Qed.
Lemma cost_snoc sf a o : cost sf (a ++ [o]) = cost_op (cost sf a) o.
Proof. by rewrite cost_app. Qed.

(** The costs depend on the values of the states only. *)
Lemma cost_ext l : forall st st' f, (forall c, st c = st' c) -> snd (cost (st, f) l) = snd (cost (st', f) l) /\ forall c, fst (cost (st, f) l) c = fst (cost (st', f) l) c.
Proof.
  induction l as [|o l IH]; intros st st' f H; [done|]. unfold cost in *. cbn [fold_left].
  destruct o as [[ctx b|b|e v|]|ctx b]; cbn [cost_op]; rewrite ?H; apply IH; try done. intros c. unfold upd. by rewrite H.
Qed.

(** A run of decisions in one context, then a sign. *)
Lemma counts_run cb0 cb l ctx bs t f : counts cb0 cb l -> 0 <= ctx < 460 -> Forall (fun b => b = 0 \/ b = 1) bs ->
  t = fst (walk bs (state cb ctx, 0)) -> f = snd (walk bs (state cb ctx, 0)) + 256 ->
  counts cb0 (set_state cb (upd (state cb) ctx t) (f8_bits_encoded cb + f)) (l ++ (Dec ctx <$> bs) ++ [Op (Bypass 0)]).
Proof.
  intros (H1 & H2 & H3) Hc Hb -> ->. unfold counts. rewrite app_assoc, cost_snoc, cost_app.
  destruct (cost (state cb0, f8_bits_encoded cb0) l) as [st f0] eqn:E. cbn [fst snd] in H1, H2.
  pose proof (cost_walk ctx bs st f0) as W. destruct (cost (st, f0) (Dec ctx <$> bs)) as [st' f'] eqn:E'. destruct W as [W1 W2].
  cbn [cost_op set_state state f8_bits_encoded fst snd]. split; [|split].
  - intros c. unfold upd. rewrite W1, <- !H1. done.
  - rewrite W2, <- H1, H2. lia.
  - intros c Hcc. unfold upd. destruct (c =? ctx); [|by apply H3]. apply walk_range; [done|by apply H3].
Qed.

#[export] Instance size_cabac_sim cb0 : CabacSim size_cabac_sink (counts cb0).
Proof.
  split.
  - intros s l o (H1 & H2 & H3) Ho. unfold counts. rewrite cost_snoc. destruct (cost (state cb0, f8_bits_encoded cb0) l) as [st f]. cbn [fst snd] in H1, H2.
    destruct o as [[ctx b|b|e v|]|ctx b]; cbn [put_op size_cabac_sink ck_decision ck_decision_noup ck_bypass ck_ue_bypass ck_terminal cost_op fst snd].
    + destruct Ho as [Hc Hb]. unfold x264_cabac_size_decision. cbv zeta. cbn [set_state state f8_bits_encoded]. split; [|split].
      * intros c. unfold upd. by rewrite !H1.
      * by rewrite H2, H1.
      * intros c Hcc. unfold upd. destruct (c =? ctx); [|by apply H3]. apply transition_range; [by apply H3|done].
    + unfold add_size. cbn [set_state state f8_bits_encoded]. split; [done|]. split; [by rewrite H2|done].
    + destruct Ho as [He Hv]. unfold add_size. cbn [set_state state f8_bits_encoded]. split; [done|]. split; [|done]. rewrite H2. f_equal.
      rewrite Z.shiftl_1_l, Z.shiftl_mul_pow2 by lia. change (2 ^ 8) with 256.
      assert (0 < 2 ^ e <= 2 ^ 15) by (split; [apply Z.pow_pos_nonneg; lia|apply Z.pow_le_mono_r; lia]).
      rewrite ue_big_size by lia. replace (v + 2 ^ e - 1 + 1) with (v + 2 ^ e) by lia. lia.
    + unfold x264_cabac_size_decision_noup. cbn [set_state state f8_bits_encoded]. split; [done|]. split; [by rewrite H2, H1|done].
    + unfold x264_cabac_size_decision_noup. cbn [set_state state f8_bits_encoded]. split; [done|]. split; [by rewrite H2, H1|done].
  - intros s l p ctx _ HR Hp Hc. destruct (unary_rows p (state s ctx)) as [T F]; [lia|by apply HR|].
    replace (unary_ops p ctx) with ((Dec ctx <$> unary_bins p) ++ [Op (Bypass 0)]).
    + cbn [size_cabac_sink ck_unary]. apply counts_run; [done|done| |exact T|exact F].
      unfold unary_bins. apply Forall_app. split; [apply Forall_replicate; by right|]. destruct (p <? 14); repeat constructor. 
    + unfold unary_ops, unary_bins. rewrite fmap_app, fmap_replicate, <- app_assoc. by destruct (p <? 14).
  - intros s l ctx _ HR Hc. destruct (ones_rows (state s ctx)) as [T F]; [by apply HR|].
    change (ones_ops ctx) with ((Dec ctx <$> replicate 5 1) ++ [Op (Bypass 0)]).
    cbn [size_cabac_sink ck_5ones]. apply counts_run; [done|done|apply Forall_replicate; by right|exact T|exact F].
  - intros s l b _ HR. unfold counts in *. rewrite cost_snoc in *. by destruct (cost (state cb0, f8_bits_encoded cb0) l) as [st f].
  - intros s l e v b _ HR. unfold counts in *. rewrite cost_app in *. destruct (cost (state cb0, f8_bits_encoded cb0) l) as [st f]. cbn in *.
    destruct HR as (H1 & H2 & H3). split; [done|]. split; [lia|done].
Qed.


