(* ===== verification/Deblock.v ===== *)
(** * The deblocking filter (common/frame.c)

    What [x264_frame_deblock_row] reads of the encoder is the record [deblock_t]; its state
    is the three planes of [h->fdec], seen from their first sample. *)
From S2P Require Import Prelude Mb.

(** ** Tables, for indices from -12 *)
Definition i_alpha_table : list Z :=
  [ 0; 0; 0; 0; 0; 0; 0; 0; 0; 0; 0; 0; 0; 0; 0; 0; 0; 0; 0;
    0; 0; 0; 0; 0; 0; 0; 0; 0; 4; 4; 5; 6; 7; 8; 9; 10; 12; 13;
    15; 17; 20; 22; 25; 28; 32; 36; 40; 45; 50; 56; 63; 71; 80; 90; 101; 113; 127;
    144; 162; 182; 203; 226; 255; 255; 255; 255; 255; 255; 255; 255; 255; 255; 255; 255; 255; 255 ].
Definition i_beta_table : list Z :=
  [ 0; 0; 0; 0; 0; 0; 0; 0; 0; 0; 0; 0; 0; 0; 0; 0; 0; 0; 0;
    0; 0; 0; 0; 0; 0; 0; 0; 0; 2; 2; 2; 3; 3; 3; 3; 4; 4; 4;
    6; 6; 7; 7; 8; 8; 9; 9; 10; 10; 11; 11; 12; 12; 13; 13; 14; 14; 15;
    15; 16; 16; 17; 17; 18; 18; 18; 18; 18; 18; 18; 18; 18; 18; 18; 18; 18; 18 ].
Definition i_tc0_table : list (list Z) :=
  [ [-1;0;0;0]; [-1;0;0;0]; [-1;0;0;0]; [-1;0;0;0]; [-1;0;0;0]; [-1;0;0;0];
    [-1;0;0;0]; [-1;0;0;0]; [-1;0;0;0]; [-1;0;0;0]; [-1;0;0;0]; [-1;0;0;0];
    [-1;0;0;0]; [-1;0;0;0]; [-1;0;0;0]; [-1;0;0;0]; [-1;0;0;0]; [-1;0;0;0];
    [-1;0;0;0]; [-1;0;0;0]; [-1;0;0;0]; [-1;0;0;0]; [-1;0;0;0]; [-1;0;0;0];
    [-1;0;0;0]; [-1;0;0;0]; [-1;0;0;0]; [-1;0;0;0]; [-1;0;0;0]; [-1;0;0;1];
    [-1;0;0;1]; [-1;0;0;1]; [-1;0;0;1]; [-1;0;1;1]; [-1;0;1;1]; [-1;1;1;1];
    [-1;1;1;1]; [-1;1;1;1]; [-1;1;1;1]; [-1;1;1;2]; [-1;1;1;2]; [-1;1;1;2];
    [-1;1;1;2]; [-1;1;2;3]; [-1;1;2;3]; [-1;2;2;3]; [-1;2;2;4]; [-1;2;3;4];
    [-1;2;3;4]; [-1;3;3;5]; [-1;3;4;6]; [-1;3;4;6]; [-1;4;5;7]; [-1;4;5;8];
    [-1;4;6;9]; [-1;5;7;10]; [-1;6;8;11]; [-1;6;8;13]; [-1;7;10;14]; [-1;8;11;16];
    [-1;9;12;18]; [-1;10;13;20]; [-1;11;15;23]; [-1;13;17;25]; [-1;13;17;25]; [-1;13;17;25];
    [-1;13;17;25]; [-1;13;17;25]; [-1;13;17;25]; [-1;13;17;25]; [-1;13;17;25]; [-1;13;17;25];
    [-1;13;17;25]; [-1;13;17;25]; [-1;13;17;25]; [-1;13;17;25] ].
Definition alpha_table (x : Z) : Z := tbl i_alpha_table (x + 12).
Definition beta_table (x : Z) : Z := tbl i_beta_table (x + 12).
Definition tc0_table (x bS : Z) : Z := tbl2 i_tc0_table (x + 12) bS.
Definition i_chroma_qp_table : list Z :=
  [ 0; 0; 0; 0; 0; 0; 0; 0; 0; 0; 0; 0; 0; 1; 2; 3; 4; 5; 6;
    7; 8; 9; 10; 11; 12; 13; 14; 15; 16; 17; 18; 19; 20; 21; 22; 23; 24; 25;
    26; 27; 28; 29; 29; 30; 31; 32; 32; 33; 34; 34; 35; 35; 36; 36; 37; 37; 37;
    38; 38; 38; 39; 39; 39; 39; 39; 39; 39; 39; 39; 39; 39; 39; 39; 39; 39; 39 ].

(** ** The filters of an edge

    [pix] is the offset of the first sample after the edge, [xstride] the step across the
    edge and [ystride] the one along it. *)
(** The samples of one line: the body of the inner loop of [deblock_luma_c]. *)
Definition luma_line (m : mem) (pix xstride alpha beta tc0 : Z) : mem :=
  let p2 := m (pix + -3 * xstride) in
  let p1 := m (pix + -2 * xstride) in
  let p0 := m (pix + -1 * xstride) in
  let q0 := m (pix + 0 * xstride) in
  let q1 := m (pix + 1 * xstride) in
  let q2 := m (pix + 2 * xstride) in
  if (Z.abs (p0 - q0) <? alpha) && (Z.abs (p1 - p0) <? beta) && (Z.abs (q1 - q0) <? beta) then
    let tc := tc0 in
    let '(m, tc) :=
      if Z.abs (p2 - p0) <? beta then
        (st8 m (pix + -2 * xstride) (p1 + x264_clip3 (((p2 + ((p0 + q0 + 1) >> 1)) >> 1) - p1) (- tc0) tc0), tc + 1)
      else (m, tc) in
    let '(m, tc) :=
      if Z.abs (q2 - q0) <? beta then
        (st8 m (pix + 1 * xstride) (q1 + x264_clip3 (((q2 + ((p0 + q0 + 1) >> 1)) >> 1) - q1) (- tc0) tc0), tc + 1)
      else (m, tc) in
    let delta := x264_clip3 ((((q0 - p0) << 2) + (p1 - q1) + 4) >> 3) (- tc) tc in
    let m := st8 m (pix + -1 * xstride) (x264_clip_uint8 (p0 + delta)) in
    st8 m (pix + 0 * xstride) (x264_clip_uint8 (q0 - delta))
  else m.
Definition deblock_luma_c (m : mem) (pix xstride ystride alpha beta : Z) (tc0 : Z -> Z) : mem :=
  for_ 4 0 (fun i m =>
    if tc0 i <? 0 then m
    else for_ 4 0 (fun d m => luma_line m (pix + (4 * i + d) * ystride) xstride alpha beta (tc0 i)) m) m.
Definition deblock_v_luma_c (m : mem) (pix stride : Z) := deblock_luma_c m pix stride 1.
Definition deblock_h_luma_c (m : mem) (pix stride : Z) := deblock_luma_c m pix 1 stride.

Definition chroma_line (m : mem) (pix xstride alpha beta tc : Z) : mem :=
  let p1 := m (pix + -2 * xstride) in
  let p0 := m (pix + -1 * xstride) in
  let q0 := m (pix + 0 * xstride) in
  let q1 := m (pix + 1 * xstride) in
  if (Z.abs (p0 - q0) <? alpha) && (Z.abs (p1 - p0) <? beta) && (Z.abs (q1 - q0) <? beta) then
    let delta := x264_clip3 ((((q0 - p0) << 2) + (p1 - q1) + 4) >> 3) (- tc) tc in
    let m := st8 m (pix + -1 * xstride) (x264_clip_uint8 (p0 + delta)) in
    st8 m (pix + 0 * xstride) (x264_clip_uint8 (q0 - delta))
  else m.
Definition deblock_chroma_c (m : mem) (pix xstride ystride alpha beta : Z) (tc0 : Z -> Z) : mem :=
  for_ 4 0 (fun i m =>
    let tc := tc0 i in
    if tc <=? 0 then m
    else for_ 2 0 (fun d m => chroma_line m (pix + (2 * i + d) * ystride) xstride alpha beta tc) m) m.
Definition deblock_v_chroma_c (m : mem) (pix stride : Z) := deblock_chroma_c m pix stride 1.
Definition deblock_h_chroma_c (m : mem) (pix stride : Z) := deblock_chroma_c m pix 1 stride.

Definition luma_intra_line (m : mem) (pix xstride alpha beta : Z) : mem :=
  let p2 := m (pix + -3 * xstride) in
  let p1 := m (pix + -2 * xstride) in
  let p0 := m (pix + -1 * xstride) in
  let q0 := m (pix + 0 * xstride) in
  let q1 := m (pix + 1 * xstride) in
  let q2 := m (pix + 2 * xstride) in
  if (Z.abs (p0 - q0) <? alpha) && (Z.abs (p1 - p0) <? beta) && (Z.abs (q1 - q0) <? beta) then
    if Z.abs (p0 - q0) <? (alpha >> 2) + 2 then
      let m :=
        if Z.abs (p2 - p0) <? beta then
          let p3 := m (pix + -4 * xstride) in
          let m := st8 m (pix + -1 * xstride) ((p2 + 2*p1 + 2*p0 + 2*q0 + q1 + 4) >> 3) in
          let m := st8 m (pix + -2 * xstride) ((p2 + p1 + p0 + q0 + 2) >> 2) in
          st8 m (pix + -3 * xstride) ((2*p3 + 3*p2 + p1 + p0 + q0 + 4) >> 3)
        else st8 m (pix + -1 * xstride) ((2*p1 + p0 + q1 + 2) >> 2) in
      if Z.abs (q2 - q0) <? beta then
        let q3 := m (pix + 3 * xstride) in
        let m := st8 m (pix + 0 * xstride) ((p1 + 2*p0 + 2*q0 + 2*q1 + q2 + 4) >> 3) in
        let m := st8 m (pix + 1 * xstride) ((p0 + q0 + q1 + q2 + 2) >> 2) in
        st8 m (pix + 2 * xstride) ((2*q3 + 3*q2 + q1 + q0 + p0 + 4) >> 3)
      else st8 m (pix + 0 * xstride) ((2*q1 + q0 + p1 + 2) >> 2)
    else
      let m := st8 m (pix + -1 * xstride) ((2*p1 + p0 + q1 + 2) >> 2) in
      st8 m (pix + 0 * xstride) ((2*q1 + q0 + p1 + 2) >> 2)
  else m.
Definition deblock_luma_intra_c (m : mem) (pix xstride ystride alpha beta : Z) : mem :=
  for_ 16 0 (fun d m => luma_intra_line m (pix + d * ystride) xstride alpha beta) m.
Definition deblock_v_luma_intra_c (m : mem) (pix stride : Z) := deblock_luma_intra_c m pix stride 1.
Definition deblock_h_luma_intra_c (m : mem) (pix stride : Z) := deblock_luma_intra_c m pix 1 stride.

Definition chroma_intra_line (m : mem) (pix xstride alpha beta : Z) : mem :=
  let p1 := m (pix + -2 * xstride) in
  let p0 := m (pix + -1 * xstride) in
  let q0 := m (pix + 0 * xstride) in
  let q1 := m (pix + 1 * xstride) in
  if (Z.abs (p0 - q0) <? alpha) && (Z.abs (p1 - p0) <? beta) && (Z.abs (q1 - q0) <? beta) then
    let m := st8 m (pix + -1 * xstride) ((2*p1 + p0 + q1 + 2) >> 2) in
    st8 m (pix + 0 * xstride) ((2*q1 + q0 + p1 + 2) >> 2)
  else m.
Definition deblock_chroma_intra_c (m : mem) (pix xstride ystride alpha beta : Z) : mem :=
  for_ 8 0 (fun d m => chroma_intra_line m (pix + d * ystride) xstride alpha beta) m.
Definition deblock_v_chroma_intra_c (m : mem) (pix stride : Z) := deblock_chroma_intra_c m pix stride 1.
Definition deblock_h_chroma_intra_c (m : mem) (pix stride : Z) := deblock_chroma_intra_c m pix 1 stride.

(** ** State *)
Record deblock_t := DeblockT {
  d_type : Z;                       (* sh.i_type *)
  d_mbaff : Z;                      (* sh.b_mbaff *)
  d_alpha_offset : Z;               (* sh.i_alpha_c0_offset *)
  d_beta_offset : Z;                (* sh.i_beta_offset *)
  d_chroma_offset : Z;              (* param.analyse.i_chroma_qp_offset *)
  d_psub8x8 : bool;                 (* param.analyse.inter & X264_ANALYSE_PSUB8x8 *)
  d_cabac : bool;                   (* pps->b_cabac *)
  d_transform_8x8_mode : bool;      (* pps->b_transform_8x8_mode *)
  d_width : Z;                      (* sps->i_mb_width *)
  d_height : Z;                     (* sps->i_mb_height *)
  d_mb_stride : Z;                  (* mb.i_mb_stride *)
  d_mb_type : Z -> Z;
  d_qp : Z -> Z;
  d_transform_size : Z -> Z;
  d_nnz : Z -> Z -> Z;              (* mb.non_zero_count, by macroblock *)
  d_ref : Z -> Z -> Z;              (* mb.ref, by list and 8x8 block *)
  d_mv : Z -> Z -> Z * Z;           (* mb.mv, by list and 4x4 block *)
  d_stride : Z -> Z                 (* fdec->i_stride *)
}.
Definition planes : Type := Z -> mem.
Definition set_plane (p : planes) (i : Z) (m : mem) : planes := fun j => if j =? i then m else p j.
Definition set_nnz (h : deblock_t) (nnz : Z -> Z -> Z) : deblock_t :=
  DeblockT (d_type h) (d_mbaff h) (d_alpha_offset h) (d_beta_offset h) (d_chroma_offset h) (d_psub8x8 h) (d_cabac h)
    (d_transform_8x8_mode h) (d_width h) (d_height h) (d_mb_stride h) (d_mb_type h) (d_qp h) (d_transform_size h) nnz
    (d_ref h) (d_mv h) (d_stride h).
(** [h->chroma_qp_table], a pointer into the table set from the offset of the parameters. *)
Definition chroma_qp_table (h : deblock_t) (qp : Z) : Z := tbl i_chroma_qp_table (12 + d_chroma_offset h + qp).

(** ** Counts of coefficients for the filter *)

(** A row of four counts is a word; with 8x8 transforms the counts of an 8x8 block become
    equal. *)
Definition nnz_word (nnz : Z -> Z) (i : Z) : Z := le_val ((fun x => nnz (4 * i + x)) <$> seqZ 0 4).
Definition set_nnz_word (nnz : Z -> Z) (i v : Z) : Z -> Z :=
  for_ 4 0 (fun x nnz => upd nnz (4 * i + x) (nth (Z.to_nat x) (le_bytes 4 v) 0)) nnz.
Definition munge_mb (nnz : Z -> Z) : Z -> Z :=
  let pair i nnz :=
    let n := nnz_word nnz i .| nnz_word nnz (i + 1) in
    let v := (if i2b (u16 n) then 0x0101 else 0) + (if i2b (n >> 16) then 0x01010000 else 0) in
    set_nnz_word (set_nnz_word nnz i v) (i + 1) v in
  pair 2 (pair 0 nnz).
Definition nnz_table : Type := Z -> Z -> Z.
Definition set_mb (t : nnz_table) (mb : Z) (f : Z -> Z) : nnz_table := fun i => if i =? mb then f else t i.
Definition munge_cavlc_nnz_row (h : deblock_t) (mb_y : Z) (buf : Z) (st : nnz_table * nnz_table) : nnz_table * nnz_table :=
  for_ (Z.to_nat (d_width h)) 0 (fun x '(nnz, bak) =>
    let mb := mb_y * d_width h + x in
    (if i2b (d_transform_size h mb) then set_mb nnz mb (munge_mb (nnz mb)) else nnz,
     set_mb bak (buf + x) (nnz mb))) st.
(** The first 16 counts come back. *)
Definition restore_cavlc_nnz_row (h : deblock_t) (mb_y : Z) (buf : Z) (st : nnz_table * nnz_table) : nnz_table * nnz_table :=
  for_ (Z.to_nat (d_width h)) 0 (fun x '(nnz, bak) =>
    let mb := mb_y * d_width h + x in
    (set_mb nnz mb (fun i => if (0 <=? i) && (i <? 16) then bak (buf + x) i else nnz mb i), bak)) st.
Definition munge_cavlc_nnz (h : deblock_t) (mb_y : Z) (func : deblock_t -> Z -> Z -> nnz_table * nnz_table -> nnz_table * nnz_table)
    (st : nnz_table * nnz_table) : nnz_table * nnz_table :=
  let st := func h mb_y 0 st in
  let st := if mb_y >? 0 then func h (mb_y - 1) (d_width h) st else st in
  if i2b (d_mbaff h) then
    let st := func h (mb_y + 1) (d_width h * 2) st in
    if mb_y >? 0 then func h (mb_y - 2) (d_width h * 3) st else st
  else st.

(** ** The filter of a row of macroblocks *)
Section Row.
Context (h : deblock_t).

Definition tc_of (index_a b_chroma : Z) (bS : Z -> Z) (i : Z) : Z := s8 (tc0_table index_a (bS i) + b_chroma).

(** [pix2] and [pf_inter] of the second plane are used only for chroma; [plane1] is the
    plane of [pix1]. *)
Definition deblock_edge (p : planes) (plane1 pix1 pix2 i_stride : Z) (bS : Z -> Z) (i_qp b_chroma : Z)
    (pf_inter : mem -> Z -> Z -> Z -> Z -> (Z -> Z) -> mem) : planes :=
  let index_a := i_qp + d_alpha_offset h in
  let alpha := alpha_table index_a in
  let beta := beta_table (i_qp + d_beta_offset h) in
  if negb (i2b alpha) || negb (i2b beta) then p else
  let tc := tc_of index_a b_chroma bS in
  let p := set_plane p plane1 (pf_inter (p plane1) pix1 i_stride alpha beta tc) in
  if i2b b_chroma then set_plane p 2 (pf_inter (p 2) pix2 i_stride alpha beta tc) else p.

Definition deblock_edge_intra (p : planes) (plane1 pix1 pix2 i_stride : Z) (bS : Z -> Z) (i_qp b_chroma : Z)
    (pf_intra : mem -> Z -> Z -> Z -> Z -> mem) : planes :=
  let alpha := alpha_table (i_qp + d_alpha_offset h) in
  let beta := beta_table (i_qp + d_beta_offset h) in
  if negb (i2b alpha) || negb (i2b beta) then p else
  let p := set_plane p plane1 (pf_intra (p plane1) pix1 i_stride alpha beta) in
  if i2b b_chroma then set_plane p 2 (pf_intra (p 2) pix2 i_stride alpha beta) else p.

(** The locals of a macroblock. *)
Definition s8x8 : Z := 2 * d_mb_stride h.
Definition s4x4 : Z := 4 * d_mb_stride h.
Definition mvy_limit : Z := 4 >> d_mbaff h.
Definition qp_thresh : Z := 15 - Z.min (d_alpha_offset h) (d_beta_offset h) - Z.max 0 (d_chroma_offset h).
Definition no_sub8x8 : Z := b2i (negb (d_psub8x8 h)).
Definition stride2y : Z := d_stride h 0 << d_mbaff h.
Definition stride2uv : Z := d_stride h 1 << d_mbaff h.
Definition mb_xy_of (mb_x mb_y : Z) : Z := mb_y * d_mb_stride h + mb_x.
Definition mb_8x8_of (mb_x mb_y : Z) : Z := 2 * s8x8 * mb_y + 2 * mb_x.
Definition mb_4x4_of (mb_x mb_y : Z) : Z := 4 * s4x4 * mb_y + 4 * mb_x.
Definition pixy_of (mb_x mb_y : Z) : Z :=
  16 * mb_y * d_stride h 0 + 16 * mb_x - (if i2b (d_mbaff h) && i2b (mb_y .& 1) then 15 * d_stride h 0 else 0).
Definition pixuv_of (mb_x mb_y : Z) : Z :=
  8 * mb_y * d_stride h 1 + 8 * mb_x - (if i2b (d_mbaff h) && i2b (mb_y .& 1) then 7 * d_stride h 1 else 0).

(** The macro with its argument [intra]; [fl] and [fc] are the pairs of functions for
    vertical and horizontal edges. *)
Definition FILTER_DIR (intra : bool) (i_dir mb_x mb_y mbn_xy i_edge : Z) (bS : Z -> Z) (p : planes) : planes :=
  let i_qp := d_qp h (mb_xy_of mb_x mb_y) in
  let i_qpn := d_qp h mbn_xy in
  let edge p plane pix1 pix2 stride qp b_chroma fi f :=
    if intra then deblock_edge_intra p plane pix1 pix2 stride bS qp b_chroma fi
    else deblock_edge p plane pix1 pix2 stride bS qp b_chroma f in
  let i_qpc := (chroma_qp_table h i_qp + chroma_qp_table h i_qpn + 1) >> 1 in
  if i_dir =? 0 then
    let p := edge p 0 (pixy_of mb_x mb_y + 4 * i_edge) 0 stride2y ((i_qp + i_qpn + 1) >> 1) 0 deblock_h_luma_intra_c deblock_h_luma_c in
    if negb (i2b (i_edge .& 1)) then
      edge p 1 (pixuv_of mb_x mb_y + 2 * i_edge) (pixuv_of mb_x mb_y + 2 * i_edge) stride2uv i_qpc 1
        deblock_h_chroma_intra_c deblock_h_chroma_c
    else p
  else
    let p := edge p 0 (pixy_of mb_x mb_y + 4 * i_edge * stride2y) 0 stride2y ((i_qp + i_qpn + 1) >> 1) 0
               deblock_v_luma_intra_c deblock_v_luma_c in
    if negb (i2b (i_edge .& 1)) then
      edge p 1 (pixuv_of mb_x mb_y + 2 * i_edge * stride2uv) (pixuv_of mb_x mb_y + 2 * i_edge * stride2uv) stride2uv i_qpc 1
        deblock_v_chroma_intra_c deblock_v_chroma_c
    else p.

Definition DEBLOCK_STRENGTH (i_dir mb_x mb_y mbn_xy mbn_8x8 mbn_4x4 i_edge : Z) : Z -> Z :=
  let mb_xy := mb_xy_of mb_x mb_y in
  if IS_INTRA (d_mb_type h mb_xy) || IS_INTRA (d_mb_type h mbn_xy) then fun _ => 3
  else
    for_ 4 0 (fun i bS =>
      let x := if i_dir =? 0 then i_edge else i in
      let y := if i_dir =? 0 then i else i_edge in
      let xn := if i_dir =? 0 then (x - 1) .& 0x03 else x in
      let yn := if i_dir =? 0 then y else (y - 1) .& 0x03 in
      if negb (d_nnz h mb_xy (x + y * 4) =? 0) || negb (d_nnz h mbn_xy (xn + yn * 4) =? 0) then upd bS i 2
      else if negb (i2b (i_edge .& no_sub8x8)) then
        if i2b (i .& no_sub8x8) && negb (bS (i - 1) =? 2) then upd bS i (bS (i - 1))
        else
          let i8p := mb_8x8_of mb_x mb_y + (x >> 1) + (y >> 1) * s8x8 in
          let i8q := mbn_8x8 + (xn >> 1) + (yn >> 1) * s8x8 in
          let i4p := mb_4x4_of mb_x mb_y + x + y * s4x4 in
          let i4q := mbn_4x4 + xn + yn * s4x4 in
          let differ l :=
            negb (d_ref h l i8p =? d_ref h l i8q) ||
            (Z.abs ((d_mv h l i4p).1 - (d_mv h l i4q).1) >=? 4) ||
            (Z.abs ((d_mv h l i4p).2 - (d_mv h l i4q).2) >=? mvy_limit) in
          if differ 0 || ((d_type h =? SLICE_TYPE_B) && differ 1) then upd bS i 1 else bS
      else bS) (fun _ => 0).
(** The four strengths, read as a word. *)
Definition bS_word (bS : Z -> Z) : Z := le_val (bS <$> seqZ 0 4).

Definition DEBLOCK_DIR (i_dir mb_x mb_y i_edge_end : Z) (p : planes) : planes :=
  let b_interlaced := d_mbaff h in
  let mb_xy := mb_xy_of mb_x mb_y in
  let b_8x8_transform := d_transform_size h mb_xy in
  let strong p mbn_xy mbn_8x8 mbn_4x4 i_edge :=
    let bS := DEBLOCK_STRENGTH i_dir mb_x mb_y mbn_xy mbn_8x8 mbn_4x4 i_edge in
    if i2b (bS_word bS) then FILTER_DIR false i_dir mb_x mb_y mbn_xy i_edge bS p else p in
  let i_edge := b2i (if i2b i_dir then mb_y <=? b_interlaced else mb_x =? 0) in
  let '(p, i_edge) :=
    if i2b i_edge then (p, i_edge + b_8x8_transform)
    else
      let mbn_xy := if i_dir =? 0 then mb_xy - 1 else mb_xy - d_mb_stride h in
      let mbn_8x8 := if i_dir =? 0 then mb_8x8_of mb_x mb_y - 2 else mb_8x8_of mb_x mb_y - 2 * s8x8 in
      let mbn_4x4 := if i_dir =? 0 then mb_4x4_of mb_x mb_y - 4 else mb_4x4_of mb_x mb_y - 4 * s4x4 in
      let p :=
        if i2b b_interlaced && (i_dir =? 1) then
          strong p (mbn_xy - d_mb_stride h) (mbn_8x8 - 2 * s8x8) (mbn_4x4 - 4 * s4x4) i_edge
        else if IS_INTRA (d_mb_type h mb_xy) || IS_INTRA (d_mb_type h mbn_xy) then
          FILTER_DIR true i_dir mb_x mb_y mbn_xy i_edge (fun _ => 0) p
        else strong p mbn_xy mbn_8x8 mbn_4x4 i_edge in
      (p, i_edge + (b_8x8_transform + 1)) in
  (* at most three edges are left *)
  (for_ 4 0 (fun _ '(p, i_edge) =>
     if i_edge <? i_edge_end then
       (strong p mb_xy (mb_8x8_of mb_x mb_y) (mb_4x4_of mb_x mb_y) i_edge, i_edge + (b_8x8_transform + 1))
     else (p, i_edge)) (p, i_edge)).1.

Definition deblock_mb (mb_x mb_y : Z) (p : planes) : planes :=
  let mb_xy := mb_xy_of mb_x mb_y in
  let i_edge_end := if d_mb_type h mb_xy =? P_SKIP then 1 else 4 in
  let i_edge_end := if d_qp h mb_xy <=? qp_thresh then 1 else i_edge_end in
  DEBLOCK_DIR 1 mb_x mb_y i_edge_end (DEBLOCK_DIR 0 mb_x mb_y i_edge_end p).

(** The loop over a row, or over a row of pairs: at most [2 * i_mb_width] macroblocks. *)
Definition deblock_row_loop (mb_y : Z) (p : planes) : planes :=
  (for_ (Z.to_nat (2 * d_width h)) 0 (fun _ '(mb_x, mb_y, p) =>
     if mb_x <? d_width h then
       (mb_x + ((Z.lnot (d_mbaff h) .| mb_y) .& 1), mb_y .^ d_mbaff h, deblock_mb mb_x mb_y p)
     else (mb_x, mb_y, p)) (0, mb_y, p)).2.

End Row.

(** What [mb.nnz_backup] holds before; it is written before it is read. *)
Definition no_backup : nnz_table := fun _ _ => 0.

(** The counts that are changed for the filter are restored after it. *)
Definition x264_frame_deblock_row (h : deblock_t) (mb_y : Z) (st : nnz_table * planes) : nnz_table * planes :=
  let munge := negb (d_cabac h) && d_transform_8x8_mode h in
  let '(nnz, bak) := if munge then munge_cavlc_nnz h mb_y munge_cavlc_nnz_row (st.1, no_backup) else (st.1, no_backup) in
  let p := deblock_row_loop (set_nnz h nnz) mb_y st.2 in
  let '(nnz, _) := if munge then munge_cavlc_nnz h mb_y restore_cavlc_nnz_row (nnz, bak) else (nnz, bak) in
  (nnz, p).

Definition x264_frame_deblock (h : deblock_t) (p : planes) : nnz_table * planes :=
  let step := 1 + d_mbaff h in
  for_ (Z.to_nat ((d_height h + step - 1) / step)) 0 (fun i => x264_frame_deblock_row h (step * i)) (d_nnz h, p).
