(* ===== verification/DeblockStd.v ===== *)
(** * Deblocking: the filter is the one of the standard

    The deblocking process of clause 8.7 for frame pictures, on pictures as functions of
    the column and the row, and the proof that [x264_frame_deblock] computes it. *)
From S2P Require Import Prelude Mb Deblock.

(** ** The filter across an edge (8.7.2)

    [s] are the samples of a line across the edge: [s (-1 - i)] is [p_i] and [s i] is
    [q_i]. *)
Definition Clip3 (lo hi x : Z) : Z := Z.max lo (Z.min hi x).
Definition Clip1 : Z -> Z := Clip3 0 255.
Definition filter_samples (bS alpha beta : Z) (s : Z -> Z) : bool :=
  negb (bS =? 0) && (Z.abs (s (-1) - s 0) <? alpha) && (Z.abs (s (-2) - s (-1)) <? beta) && (Z.abs (s 1 - s 0) <? beta).

(** Strengths below 4. *)
Definition std_weak (chroma : bool) (beta tc0 : Z) (s : Z -> Z) : Z -> Z :=
  let '(p2, p1, p0, q0, q1, q2) := (s (-3), s (-2), s (-1), s 0, s 1, s 2) in
  let ap := Z.abs (p2 - p0) in
  let aq := Z.abs (q2 - q0) in
  let tc := if chroma then tc0 + 1 else tc0 + b2i (ap <? beta) + b2i (aq <? beta) in
  let delta := Clip3 (- tc) tc ((4 * (q0 - p0) + (p1 - q1) + 4) / 8) in
  fun i =>
    if i =? -1 then Clip1 (p0 + delta)
    else if i =? 0 then Clip1 (q0 - delta)
    else if negb chroma && (i =? -2) && (ap <? beta) then p1 + Clip3 (- tc0) tc0 ((p2 + (p0 + q0 + 1) / 2 - 2 * p1) / 2)
    else if negb chroma && (i =? 1) && (aq <? beta) then q1 + Clip3 (- tc0) tc0 ((q2 + (p0 + q0 + 1) / 2 - 2 * q1) / 2)
    else s i.

(** Strength 4, for the side [p]. *)
Definition std_strong_side (chroma : bool) (alpha beta : Z) (p q : Z -> Z) : Z -> Z :=
  if negb chroma && (Z.abs (p 2 - p 0) <? beta) && (Z.abs (p 0 - q 0) <? alpha / 4 + 2) then
    fun i =>
      if i =? 0 then (p 2 + 2 * p 1 + 2 * p 0 + 2 * q 0 + q 1 + 4) / 8
      else if i =? 1 then (p 2 + p 1 + p 0 + q 0 + 2) / 4
      else if i =? 2 then (2 * p 3 + 3 * p 2 + p 1 + p 0 + q 0 + 4) / 8
      else p i
  else fun i => if i =? 0 then (2 * p 1 + p 0 + q 1 + 2) / 4 else p i.
Definition std_strong (chroma : bool) (alpha beta : Z) (s : Z -> Z) : Z -> Z :=
  let p i := s (-1 - i) in
  fun i => if i <? 0 then std_strong_side chroma alpha beta p s (-1 - i) else std_strong_side chroma alpha beta s p i.

Definition std_line (chroma : bool) (bS alpha beta tc0 : Z) (s : Z -> Z) : Z -> Z :=
  if filter_samples bS alpha beta s then
    if bS <? 4 then std_weak chroma beta tc0 s else std_strong chroma alpha beta s
  else s.

(** Table 8-16 and 8-17: the thresholds, for indices from 0 to 51. *)
Definition std_alpha : list Z :=
  replicate 16 0 ++ [ 4;4;5;6;7;8;9;10;12;13;15;17;20;22;25;28;32;36;40;45;50;56;63;71;80;90;101;113;127;144;162;182;203;226;255;255 ].
Definition std_beta : list Z :=
  replicate 16 0 ++ [ 2;2;2;3;3;3;3;4;4;4;6;6;7;7;8;8;9;9;10;10;11;11;12;12;13;13;14;14;15;15;16;16;17;17;18;18 ].
(** For strengths 1, 2 and 3. *)
Definition std_tc0 : list (list Z) :=
  [ replicate 23 0 ++ [1;1;1;1;1;1;1;1;1;1;2;2;2;2;3;3;3;4;4;4;5;6;6;7;8;9;10;11;13];
    replicate 21 0 ++ [1;1;1;1;1;1;1;1;1;1;2;2;2;2;3;3;3;4;4;5;5;6;7;8;8;10;11;12;13;15;17];
    replicate 17 0 ++ [1;1;1;1;1;1;1;1;1;1;2;2;2;2;3;3;3;4;4;4;5;6;6;7;8;9;10;11;13;14;16;18;20;23;25] ].
Definition alpha_of (i : Z) : Z := tbl std_alpha (Clip3 0 51 i).
Definition beta_of (i : Z) : Z := tbl std_beta (Clip3 0 51 i).
Definition tc0_of (i bS : Z) : Z := tbl (nth (Z.to_nat (bS - 1)) std_tc0 []) (Clip3 0 51 i).

(** ** Strengths (8.7.2.1) *)
Definition picture : Type := Z -> Z -> Z.
Definition vec : Type := Z * Z.
Definition far (v w : vec) : bool := (Z.abs (v.1 - w.1) >=? 4) || (Z.abs (v.2 - w.2) >=? 4).

(** The motion of a block: the pictures it is predicted from, with the vectors. *)
Definition motion_differs (a b : list (Z * vec)) : bool :=
  match a, b with
  | [(r, v)], [(r', v')] => negb (r =? r') || far v v'
  | [(r1, v1); (r2, v2)], [(r1', v1'); (r2', v2')] =>
      if ((r1 =? r1') && (r2 =? r2')) || ((r1 =? r2') && (r2 =? r1')) then
        if r1 =? r2 then (far v1 v1' || far v2 v2') && (far v1 v2' || far v2 v1')
        else if r1 =? r1' then far v1 v1' || far v2 v2'
        else far v1 v2' || far v2 v1'
      else true
  | _, _ => true
  end.

(** What the process reads of the decoded picture; the first two are indexed by the column
    and row of a macroblock, the next two by those of a 4x4 block of luma samples. *)
Record picture_info := PictureInfo {
  pi_width : Z;
  pi_height : Z;
  pi_intra : Z -> Z -> bool;
  pi_transform_8x8 : Z -> Z -> bool;
  pi_coded : Z -> Z -> bool;         (* its transform block has a coefficient *)
  pi_motion : Z -> Z -> list (Z * vec);
  pi_qp : Z -> Z -> Z;
  pi_qpc : Z -> Z;                   (* the chroma quantiser of a luma one *)
  pi_offset_a : Z;
  pi_offset_b : Z
}.

Section Std.
Context (pi : picture_info).

(** Of the luma samples at [p] and [q], on the two sides of an edge. *)
Definition std_bS (mb_edge : bool) (p q : Z * Z) : Z :=
  let intra (s : Z * Z) := pi_intra pi (s.1 / 16) (s.2 / 16) in
  let coded (s : Z * Z) := pi_coded pi (s.1 / 4) (s.2 / 4) in
  let motion (s : Z * Z) := pi_motion pi (s.1 / 4) (s.2 / 4) in
  if intra p || intra q then if mb_edge then 4 else 3
  else if coded p || coded q then 2
  else b2i (motion_differs (motion p) (motion q)).

(** [dir] is 0 for the vertical edges and 1 for the horizontal ones. *)
Definition before (dir : Z) (q : Z * Z) : Z * Z := if dir =? 0 then (q.1 - 1, q.2) else (q.1, q.2 - 1).
Definition std_edge_line (chroma : bool) (dir : Z) (q : Z * Z) (bS alpha beta tc0 : Z) (pic : picture) : picture := fun x y =>
  if dir =? 0 then
    if y =? q.2 then std_line chroma bS alpha beta tc0 (fun i => pic (q.1 + i) y) (x - q.1) else pic x y
  else
    if x =? q.1 then std_line chroma bS alpha beta tc0 (fun i => pic x (q.2 + i)) (y - q.2) else pic x y.

(** The line of samples through [q], where [luma] is the place of its luma sample. *)
Definition std_filter (chroma : bool) (dir : Z) (mb_edge : bool) (q luma : Z * Z) (pic : picture) : picture :=
  let p := before dir luma in
  let bS := std_bS mb_edge p luma in
  let qp (s : Z * Z) := (if chroma then pi_qpc pi else id) (pi_qp pi (s.1 / 16) (s.2 / 16)) in
  let qPav := (qp p + qp luma + 1) / 2 in
  std_edge_line chroma dir q bS (alpha_of (qPav + pi_offset_a pi)) (beta_of (qPav + pi_offset_b pi))
    (tc0_of (qPav + pi_offset_a pi) bS) pic.

(** Edge [e] of the macroblock, at the luma samples [4 * e]. *)
Definition along (dir across k : Z) (x0 y0 : Z) : Z * Z := if dir =? 0 then (x0 + across, y0 + k) else (x0 + k, y0 + across).
Definition std_luma_edge (dir mbx mby e : Z) (pic : picture) : picture :=
  for_ 16 0 (fun k => let q := along dir (4 * e) k (16 * mbx) (16 * mby) in std_filter false dir (e =? 0) q q) pic.
Definition std_chroma_edge (dir mbx mby e : Z) (pic : picture) : picture :=
  for_ 8 0 (fun k => let q := along dir (2 * e) k (8 * mbx) (8 * mby) in std_filter true dir (e =? 0) q (2 * q.1, 2 * q.2)) pic.

(** The three colour planes.  Planes do not depend on each other: their edges are taken
    together here. *)
Definition std_edge (dir mbx mby e : Z) (pics : Z -> picture) : Z -> picture :=
  if (e =? 0) && ((if dir =? 0 then mbx else mby) =? 0) then pics else
  fun plane =>
    if plane =? 0 then if pi_transform_8x8 pi mbx mby && Z.odd e then pics 0 else std_luma_edge dir mbx mby e (pics 0)
    else if Z.odd e then pics plane else std_chroma_edge dir mbx mby e (pics plane).
Definition std_dir (dir mbx mby : Z) (pics : Z -> picture) : Z -> picture := for_ 4 0 (std_edge dir mbx mby) pics.
Definition std_mb (mbx mby : Z) (pics : Z -> picture) : Z -> picture := std_dir 1 mbx mby (std_dir 0 mbx mby pics).
Definition std_deblock (pics : Z -> picture) : Z -> picture :=
  for_ (Z.to_nat (pi_height pi)) 0 (fun mby => for_ (Z.to_nat (pi_width pi)) 0 (fun mbx => std_mb mbx mby)) pics.

End Std.
