(* ===== verification/DeblockLine.v ===== *)
(** * Deblocking: the lines of an edge

    Each of the four loop bodies of the filter functions computes the filter of the
    standard on the samples of its line and touches nothing else. *)
From S2P Require Import Prelude Mb Deblock DeblockStd.

(** The line across the edge at [pix]; the window of eight samples that filters see. *)
Definition line (m : mem) (pix xs : Z) : Z -> Z := fun i => m (pix + i * xs).
Definition window (i : Z) : Prop := -4 <= i < 4.
Definition byte_line (s : Z -> Z) : Prop := forall i, window i -> 0 <= s i < 256.

(** [m'] is [m] with the line replaced by [s]. *)
Record rewritten (m m' : mem) (pix xs : Z) (s : Z -> Z) : Prop := {
  rw_line : forall i, window i -> m' (pix + i * xs) = s i;
  rw_rest : forall a, (forall i, window i -> a <> pix + i * xs) -> m' a = m a
}.

Lemma window_cases (P : Z -> Prop) : P (-4) -> P (-3) -> P (-2) -> P (-1) -> P 0 -> P 1 -> P 2 -> P 3 -> forall i, window i -> P i.
Proof.
  unfold window. intros ? ? ? ? ? ? ? ? i Hi.
  assert (i = -4 \/ i = -3 \/ i = -2 \/ i = -1 \/ i = 0 \/ i = 1 \/ i = 2 \/ i = 3) as [->|[->|[->|[->|[->|[->|[->| ->]]]]]]] by lia; done.
Qed.

Lemma st8_ne m a v x : x <> a -> st8 m a v x = m x.
Proof. apply upd_ne. Qed.

(** A write of the byte [v] at sample [j] of the line. *)
Lemma rewritten_refl m pix xs : rewritten m m pix xs (line m pix xs).
Proof. split; done. Qed.
Lemma rewritten_st8 m m' pix xs s j v : 0 < xs -> window j -> 0 <= v < 256 -> rewritten m m' pix xs s ->
  rewritten m (st8 m' (pix + j * xs) v) pix xs (fun i => if i =? j then v else s i).
Proof.
  intros Hxs Hj Hv [H1 H2]. unfold st8. rewrite uw_small by (change (2 ^ 8) with 256; lia). split.
  - intros i Hi. unfold upd. rewrite (Z.eqb_compare _ _), (Z.eqb_compare i j).
    destruct (Z.eq_dec i j) as [->|Hne]; [by rewrite !Z.compare_refl|].
    destruct (Z.compare_spec i j) as [E|E|E], (Z.compare_spec (pix + i * xs) (pix + j * xs)) as [F|F|F]; try nia; by apply H1.
  - intros a Ha. rewrite upd_ne by (by apply Ha). by apply H2.
Qed.
Lemma rewritten_ext m m' pix xs s s' : (forall i, window i -> s i = s' i) -> rewritten m m' pix xs s -> rewritten m m' pix xs s'.
Proof. intros E [H1 H2]. split; [|done]. intros i Hi. rewrite <- E by done. by apply H1. Qed.

(** ** Arithmetic *)
Lemma shr1 a : a >> 1 = a / 2. Proof. rewrite Z.shiftr_div_pow2 by lia. done. Qed.
Lemma shr2 a : a >> 2 = a / 4. Proof. rewrite Z.shiftr_div_pow2 by lia. done. Qed.
Lemma shr3 a : a >> 3 = a / 8. Proof. rewrite Z.shiftr_div_pow2 by lia. done. Qed.
Lemma shl2 a : a << 2 = 4 * a. Proof. rewrite Z.shiftl_mul_pow2 by lia. change (2 ^ 2) with 4. lia. Qed.
Lemma clip3_std v tc : 0 <= tc -> x264_clip3 v (- tc) tc = Clip3 (- tc) tc v.
Proof. intros. unfold x264_clip3, Clip3. destruct (Z.ltb_spec v (- tc)); [lia|]. rewrite Z.gtb_ltb. destruct (Z.ltb_spec tc v); lia. Qed.
Lemma clip1_std v : -1000 <= v <= 1000 -> x264_clip_uint8 v = Clip1 v.
Proof. intros. rewrite x264_clip_uint8_spec by lia. unfold Clip1, Clip3. lia. Qed.
Lemma Clip1_byte v : 0 <= Clip1 v < 256. Proof. unfold Clip1, Clip3. lia. Qed.
Lemma Clip3_abs tc v : 0 <= tc -> - tc <= Clip3 (- tc) tc v <= tc. Proof. unfold Clip3. lia. Qed.
Lemma pull_std p2 p1 avg tc : 0 <= tc ->
  p1 + x264_clip3 (((p2 + (avg >> 1)) >> 1) - p1) (- tc) tc = p1 + Clip3 (- tc) tc ((p2 + avg / 2 - 2 * p1) / 2).
Proof.
  intros. rewrite clip3_std by done. rewrite !shr1. do 2 f_equal.
  replace (p2 + avg / 2 - 2 * p1) with (p2 + avg / 2 + (- p1) * 2) by lia. rewrite Z.div_add by lia. lia.
Qed.
Lemma pull_byte p2 p1 avg tc : 0 <= tc -> 0 <= p2 < 256 -> 0 <= p1 < 256 -> 0 <= avg < 512 ->
  0 <= p1 + Clip3 (- tc) tc ((p2 + avg / 2 - 2 * p1) / 2) < 256.
Proof.
  intros. unfold Clip3. assert (0 <= avg / 2 < 256) by (Z.to_euclidean_division_equations; lia).
  set (a := avg / 2) in *. clearbody a. Z.to_euclidean_division_equations. lia.
Qed.

(** ** The four bodies *)
Create HintDb deblock discriminated.
Section Lines.
Context (m : mem) (pix xs : Z).
Hypothesis Hxs : 0 < xs.
Local Abbreviation s := (line m pix xs).
Hypothesis Hs : byte_line s.

Lemma sample_byte i : window i -> 0 <= m (pix + i * xs) < 256.
Proof. apply Hs. Qed.
Local Hint Extern 1 (window _) => unfold window; lia : deblock.

(** The conditions of the code are those of the standard, once the strength is not 0. *)
Lemma filter_samples_code bS alpha beta : bS <> 0 ->
  (Z.abs (m (pix + -1 * xs) - m (pix + 0 * xs)) <? alpha) && (Z.abs (m (pix + -2 * xs) - m (pix + -1 * xs)) <? beta) &&
  (Z.abs (m (pix + 1 * xs) - m (pix + 0 * xs)) <? beta) = filter_samples bS alpha beta s.
Proof. intros H. unfold filter_samples. by rewrite (proj2 (Z.eqb_neq bS 0) H). Qed.

Lemma delta_std p0 q0 p1 q1 tc : 0 <= tc ->
  x264_clip3 ((((q0 - p0) << 2) + (p1 - q1) + 4) >> 3) (- tc) tc = Clip3 (- tc) tc ((4 * (q0 - p0) + (p1 - q1) + 4) / 8).
Proof. intros. by rewrite clip3_std, shl2, shr3 by done. Qed.

Ltac by_sample := apply window_cases; try reflexivity; cbn -[Z.add Z.mul Z.div]; f_equal; lia.
Ltac name_sample x i := pose proof (sample_byte i ltac:(auto with deblock)); change (s i) with (m (pix + i * xs)); set (x := m (pix + i * xs)) in *.
Ltac name_samples :=
  unfold std_weak, std_strong, std_strong_side; cbv zeta;
  let p3 := fresh "p3" in let p2 := fresh "p2" in let p1 := fresh "p1" in let p0 := fresh "p0" in
  let q0 := fresh "q0" in let q1 := fresh "q1" in let q2 := fresh "q2" in let q3 := fresh "q3" in
  name_sample p3 (-4); name_sample p2 (-3); name_sample p1 (-2); name_sample p0 (-1);
  name_sample q0 0; name_sample q1 1; name_sample q2 2; name_sample q3 3.
Ltac average := Z.to_euclidean_division_equations; lia.

Lemma luma_line_std alpha beta tc0 bS : 0 <= tc0 <= 100 -> bS <> 0 -> bS < 4 ->
  rewritten m (luma_line m pix xs alpha beta tc0) pix xs (std_line false bS alpha beta tc0 s).
Proof.
  intros Htc Hb Hb4. unfold luma_line, std_line. cbv zeta. rewrite (filter_samples_code bS) by done.
  rewrite (proj2 (Z.ltb_lt bS 4)) by done. destruct (filter_samples bS alpha beta s); [|apply rewritten_refl].
  name_samples. unfold std_weak.
  assert (pulled : forall x y, 0 <= x < 256 -> 0 <= y < 256 ->
    0 <= y + x264_clip3 (((x + ((p0 + q0 + 1) >> 1)) >> 1) - y) (- tc0) tc0 < 256).
  { intros x y Hx Hy. rewrite pull_std by lia. apply pull_byte; lia. }
  assert (D : forall tc, 0 <= tc <= 102 -> x264_clip_uint8 (p0 + x264_clip3 ((((q0 - p0) << 2) + (p1 - q1) + 4) >> 3) (- tc) tc) =
    Clip1 (p0 + Clip3 (- tc) tc ((4 * (q0 - p0) + (p1 - q1) + 4) / 8)) /\
    x264_clip_uint8 (q0 - x264_clip3 ((((q0 - p0) << 2) + (p1 - q1) + 4) >> 3) (- tc) tc) =
    Clip1 (q0 - Clip3 (- tc) tc ((4 * (q0 - p0) + (p1 - q1) + 4) / 8))).
  { intros tc Ht. rewrite delta_std by lia.
    pose proof (Clip3_abs tc ((4 * (q0 - p0) + (p1 - q1) + 4) / 8) ltac:(lia)). split; apply clip1_std; lia. }
  destruct (Z.abs (p2 - p0) <? beta), (Z.abs (q2 - q0) <? beta); cbn [b2i].
  all: (destruct (D (tc0 + 1 + 1) ltac:(lia)) as [D1 D2]; rewrite D1, D2; clear D1 D2)
    || (destruct (D (tc0 + 1) ltac:(lia)) as [D1 D2]; rewrite D1, D2; clear D1 D2)
    || (destruct (D tc0 ltac:(lia)) as [D1 D2]; rewrite D1, D2; clear D1 D2).
  all: eapply rewritten_ext; [|repeat (apply rewritten_st8; [done|auto with deblock|first [apply Clip1_byte|apply pulled; lia]|]); apply rewritten_refl].
  all: apply window_cases; cbn -[Z.mul Z.add Z.sub Z.div Clip1 Clip3 x264_clip3 Z.shiftr Z.shiftl]; rewrite ?pull_std by lia; rewrite ?Z.add_0_r; reflexivity.
Qed.

Lemma chroma_line_std alpha beta tc0 bS : 0 <= tc0 <= 100 -> bS <> 0 -> bS < 4 ->
  rewritten m (chroma_line m pix xs alpha beta (tc0 + 1)) pix xs (std_line true bS alpha beta tc0 s).
Proof.
  intros Htc Hb Hb4. unfold chroma_line, std_line. cbv zeta. rewrite (filter_samples_code bS) by done.
  rewrite (proj2 (Z.ltb_lt bS 4)) by done. destruct (filter_samples bS alpha beta s); [|apply rewritten_refl].
  name_samples. unfold std_weak. rewrite delta_std by lia.
  pose proof (Clip3_abs (tc0 + 1) ((4 * (q0 - p0) + (p1 - q1) + 4) / 8) ltac:(lia)).
  rewrite !clip1_std by lia.
  eapply rewritten_ext; [|repeat (apply rewritten_st8; [done|auto with deblock|apply Clip1_byte|]); apply rewritten_refl].
  by_sample.
Qed.

Lemma chroma_intra_line_std alpha beta tc0 :
  rewritten m (chroma_intra_line m pix xs alpha beta) pix xs (std_line true 4 alpha beta tc0 s).
Proof.
  unfold chroma_intra_line, std_line. cbv zeta. rewrite (filter_samples_code 4) by done. cbn [Z.ltb Z.compare Pos.compare Pos.compare_cont].
  destruct (filter_samples 4 alpha beta s); [|apply rewritten_refl].
  name_samples. rewrite !shr2.
  eapply rewritten_ext; [|repeat (apply rewritten_st8; [done|auto with deblock|average|]); apply rewritten_refl].
  by_sample.
Qed.

Lemma luma_intra_line_std alpha beta tc0 :
  rewritten m (luma_intra_line m pix xs alpha beta) pix xs (std_line false 4 alpha beta tc0 s).
Proof.
  unfold luma_intra_line, std_line. cbv zeta. rewrite (filter_samples_code 4) by done. cbn [Z.ltb Z.compare Pos.compare Pos.compare_cont].
  destruct (filter_samples 4 alpha beta s); [|apply rewritten_refl].
  name_samples. rewrite !shr2, !shr3. unfold std_strong, std_strong_side.
  change (s (-1 - 0)) with p0. change (s (-1 - 2)) with p2. change (s (-1 - 1)) with p1. change (s (-1 - 3)) with p3.
  replace (Z.abs (q0 - p0)) with (Z.abs (p0 - q0)) by lia.
  destruct (Z.abs (p0 - q0) <? alpha / 4 + 2), (Z.abs (p2 - p0) <? beta), (Z.abs (q2 - q0) <? beta).
  all: rewrite ?st8_ne by lia; try fold q3.
  all: eapply rewritten_ext; [|repeat (apply rewritten_st8; [done|auto with deblock|average|]); apply rewritten_refl].
  all: by_sample.
Qed.
End Lines.
