(* ===== verification/DeblockFrame.v ===== *)
(** * Deblocking of frames: edges, macroblocks and pictures

    The planes in memory and the pictures of the standard are kept in step, edge by edge. *)
From S2P Require Import Prelude Mb Deblock DeblockStd DeblockLine.

(** ** Loops in step *)
Lemma for_sim {S T} (R : S -> T -> Prop) n lo (f : Z -> S -> S) (g : Z -> T -> T) s t :
  R s t -> (forall i s t, lo <= i < lo + Z.of_nat n -> R s t -> R (f i s) (g i t)) -> R (for_ n lo f s) (for_ n lo g t).
Proof.
  revert lo s t. induction n as [|n IH]; intros lo s t H Hf; cbn [for_]; [done|].
  apply IH; [apply Hf; [lia|done]|]. intros i s' t' Hi. apply Hf. lia.
Qed.
Lemma for_idle {S} n lo (f : Z -> S -> S) s : (forall i, f i s = s) -> for_ n lo f s = s.
Proof. intros H. revert lo. induction n as [|n IH]; intros lo; cbn [for_]; [done|]. by rewrite H. Qed.
Lemma for_app {S} n k lo (f : Z -> S -> S) s : for_ (n + k) lo f s = for_ k (lo + Z.of_nat n) f (for_ n lo f s).
Proof.
  revert lo s. induction n as [|n IH]; intros lo s; cbn [for_ Nat.add]; [by rewrite Z.add_0_r|].
  rewrite IH. f_equal. lia.
Qed.
(** Two nested loops are one. *)
Lemma for_nest {S} a b (f : Z -> Z -> S -> S) s : (0 < b)%nat ->
  for_ a 0 (fun i => for_ b 0 (f i)) s = for_ (a * b) 0 (fun k => f (k / Z.of_nat b) (k mod Z.of_nat b)) s.
Proof.
  intros Hb. revert s. induction a as [|a IH]; intros s; [done|].
  rewrite for_snoc, Z.add_0_l, IH. replace (Datatypes.S a * b)%nat with (a * b + b)%nat by lia. rewrite for_app, Z.add_0_l.
  rewrite <- (Z.add_0_r (Z.of_nat (a * b))), Nat2Z.inj_mul.
  rewrite <- (for_shift b 0 (Z.of_nat a * Z.of_nat b) (fun k => f (k / Z.of_nat b) (k mod Z.of_nat b))).
  apply for_ext. intros i s' Hi. rewrite (Z.add_comm _ i), Z.div_add, Z.mod_add by lia.
  by rewrite Z.div_small, Z.mod_small by lia.
Qed.

(** ** Pictures in memory *)
Record sees (stride W H : Z) (m0 m : mem) (p : picture) : Prop := {
  see : forall x y, 0 <= x < W -> 0 <= y < H -> m (y * stride + x) = p x y;
  see_byte : forall x y, 0 <= x < W -> 0 <= y < H -> 0 <= p x y < 256;
  see_rest : forall a, (forall x y, 0 <= x < W -> 0 <= y < H -> a <> y * stride + x) -> m a = m0 a
}.
Lemma sees_ext stride W H m0 m p p' : (forall x y, p x y = p' x y) -> sees stride W H m0 m p -> sees stride W H m0 m p'.
Proof.
  intros E [H1 H2 H3]. split; [|intros x y Hx Hy; rewrite <- E; by apply H2|done].
  intros x y Hx Hy. rewrite <- E. by apply H1.
Qed.

(** ** Facts on the filter of a line *)
Lemma std_line_outside c bS alpha beta tc0 s i : ~ window i -> std_line c bS alpha beta tc0 s i = s i.
Proof.
  unfold window. intros Hi. unfold std_line. destruct (filter_samples _ _ _ _); [|done].
  assert (forall k, -4 <= k < 4 -> (i =? k) = false) as E by (intros; apply Z.eqb_neq; lia).
  destruct (bS <? 4).
  - unfold std_weak. rewrite !(E (-1)), !(E 0), !(E (-2)), !(E 1) by lia. by rewrite !andb_false_r.
  - assert (forall k, 0 <= k < 4 -> (-1 - i =? k) = false) as E' by (intros; apply Z.eqb_neq; lia).
    unfold std_strong, std_strong_side.
    destruct (i <? 0); case_match; rewrite ?E, ?E' by lia; f_equal; lia.
Qed.
Lemma std_line_ext c bS alpha beta tc0 s s' i : (forall j, window j -> s j = s' j) -> window i ->
  std_line c bS alpha beta tc0 s i = std_line c bS alpha beta tc0 s' i.
Proof.
  intros E Hi. unfold window in *.
  assert (F : filter_samples bS alpha beta s = filter_samples bS alpha beta s') by (unfold filter_samples; by rewrite !E by lia).
  unfold std_line. rewrite F. destruct (filter_samples bS alpha beta s'); [|by apply E].
  destruct (bS <? 4).
  - unfold std_weak. rewrite (E i) by done. by rewrite !E by lia.
  - unfold std_strong, std_strong_side. cbv beta zeta. change (-1 - 0) with (-1). change (-1 - 1) with (-2).
    change (-1 - 2) with (-3). change (-1 - 3) with (-4). rewrite !E by lia.
    destruct (Z.ltb_spec i 0); case_match; cbv beta; rewrite E by lia; done.
Qed.

Lemma average_byte a n k : 0 < k -> 0 <= a < 256 * k -> n = k -> 0 <= a / n < 256.
Proof. intros Hk Ha ->. split; [apply Z.div_pos; lia|apply Z.div_lt_upper_bound; lia]. Qed.

Lemma std_line_byte c bS alpha beta tc0 s i : 0 <= tc0 -> byte_line s -> window i -> 0 <= std_line c bS alpha beta tc0 s i < 256.
Proof.
  intros Ht B Hi. unfold std_line. destruct (filter_samples _ _ _ _); [|by apply B].
  assert (forall j, -4 <= j < 4 -> 0 <= s j < 256) as B' by (intros; by apply B).
  pose proof (B' (-4) ltac:(lia)). pose proof (B' (-3) ltac:(lia)). pose proof (B' (-2) ltac:(lia)). pose proof (B' (-1) ltac:(lia)).
  pose proof (B' 0 ltac:(lia)). pose proof (B' 1 ltac:(lia)). pose proof (B' 2 ltac:(lia)). pose proof (B' 3 ltac:(lia)).
  pose proof (B i Hi). destruct (bS <? 4).
  - unfold std_weak. repeat case_match; try apply Clip1_byte; try done; apply pull_byte; lia.
  - unfold std_strong, std_strong_side. cbv beta zeta. change (-1 - 0) with (-1). change (-1 - 1) with (-2).
    change (-1 - 2) with (-3). change (-1 - 3) with (-4).
    assert (0 <= s (-1 - (-1 - i)) < 256) by (replace (-1 - (-1 - i)) with i by lia; done).
    repeat case_match; try done; (eapply average_byte; [| |reflexivity]; lia).
Qed.

Lemma std_line_idle c bS alpha beta tc0 s i : bS = 0 \/ alpha <= 0 \/ beta <= 0 -> std_line c bS alpha beta tc0 s i = s i.
Proof.
  intros H. unfold std_line, filter_samples.
  destruct (Z.eqb_spec bS 0); [done|]. destruct (Z.ltb_spec (Z.abs (s (-1) - s 0)) alpha); [|done].
  destruct (Z.ltb_spec (Z.abs (s (-2) - s (-1))) beta); [lia|done].
Qed.

(** ** Edges *)
Section Plane.
Context (stride W H : Z) (m0 : mem).
Hypothesis HW : W <= stride.
Local Abbreviation sees := (sees stride W H m0).

Definition inside_plane (x y : Z) : Prop := 0 <= x < W /\ 0 <= y < H.
Definition at_ (dir : Z) (q : Z * Z) (i : Z) : Z * Z := if dir =? 0 then (q.1 + i, q.2) else (q.1, q.2 + i).
(** The filter of a line stays inside the plane. *)
Definition fits (dir : Z) (q : Z * Z) : Prop := forall i, window i -> inside_plane (at_ dir q i).1 (at_ dir q i).2.
Definition addr (q : Z * Z) : Z := q.2 * stride + q.1.
Definition xstep (dir : Z) : Z := if dir =? 0 then 1 else stride.
Definition ystep (dir : Z) : Z := if dir =? 0 then stride else 1.

Lemma addr_at dir q i : addr (at_ dir q i) = addr q + i * xstep dir.
Proof. unfold addr, at_, xstep. destruct (dir =? 0); cbn [fst snd]; lia. Qed.
Lemma addr_inj x y x' y' : inside_plane x y -> inside_plane x' y' -> y * stride + x = y' * stride + x' -> x = x' /\ y = y'.
Proof. unfold inside_plane. intros. assert (y = y') by nia. subst. lia. Qed.

Lemma sees_at m p dir q i : sees m p -> fits dir q -> window i -> line m (addr q) (xstep dir) i = p (at_ dir q i).1 (at_ dir q i).2.
Proof.
  intros [S _ _] Hf Hi. unfold line. rewrite <- addr_at. destruct (Hf i Hi). by apply S.
Qed.
Lemma sees_byte_line m p dir q : sees m p -> fits dir q -> byte_line (line m (addr q) (xstep dir)).
Proof. intros S Hf i Hi. rewrite (sees_at m p) by done. destruct (Hf i Hi). by apply (see_byte _ _ _ _ _ _ S). Qed.

(** The line of [std_edge_line] that a place is on. *)
Lemma std_edge_line_at c dir q bS alpha beta tc0 p i :
  std_edge_line c dir q bS alpha beta tc0 p (at_ dir q i).1 (at_ dir q i).2 =
  std_line c bS alpha beta tc0 (fun i => p (at_ dir q i).1 (at_ dir q i).2) i.
Proof.
  unfold std_edge_line, at_. destruct (dir =? 0); cbn [fst snd]; rewrite Z.eqb_refl; f_equal; lia.
Qed.
Lemma std_edge_line_off c dir q bS alpha beta tc0 p x y : (forall i, window i -> (x, y) <> at_ dir q i) ->
  std_edge_line c dir q bS alpha beta tc0 p x y = p x y.
Proof.
  intros Hne. unfold std_edge_line, at_ in *. destruct (dir =? 0).
  - destruct (Z.eqb_spec y q.2) as [->|]; [|done]. rewrite std_line_outside; [f_equal; lia|].
    intros Hi. apply (Hne _ Hi). f_equal; lia.
  - destruct (Z.eqb_spec x q.1) as [->|]; [|done]. rewrite std_line_outside; [f_equal; lia|].
    intros Hi. apply (Hne _ Hi). f_equal; lia.
Qed.

Lemma sees_line c dir q bS alpha beta tc0 m m' p : 0 <= tc0 -> fits dir q -> sees m p ->
  (byte_line (line m (addr q) (xstep dir)) ->
     rewritten m m' (addr q) (xstep dir) (std_line c bS alpha beta tc0 (line m (addr q) (xstep dir)))) ->
  sees m' (std_edge_line c dir q bS alpha beta tc0 p).
Proof.
  intros Ht Hf S Hr. pose proof (sees_byte_line m p dir q S Hf) as B. specialize (Hr B). destruct Hr as [R1 R2].
  assert (L : forall i, window i -> std_edge_line c dir q bS alpha beta tc0 p (at_ dir q i).1 (at_ dir q i).2 =
    std_line c bS alpha beta tc0 (line m (addr q) (xstep dir)) i).
  { intros i Hi. rewrite std_edge_line_at. apply std_line_ext; [|done]. intros j Hj. symmetry. by apply sees_at. }
  assert (D : forall x y, inside_plane x y -> (exists i, window i /\ (x, y) = at_ dir q i) \/ (forall i, window i -> (x, y) <> at_ dir q i)).
  { intros x y _. unfold at_, window. destruct (dir =? 0).
    - destruct (decide (y = q.2 /\ -4 <= x - q.1 < 4)) as [[-> Hx]|Hn];
        [left; exists (x - q.1); split; [done|f_equal; lia]|right; intros i Hi [= -> ->]; lia].
    - destruct (decide (x = q.1 /\ -4 <= y - q.2 < 4)) as [[-> Hx]|Hn];
        [left; exists (y - q.2); split; [done|f_equal; lia]|right; intros i Hi [= -> ->]; lia]. }
  split.
  - intros x y Hx Hy. destruct (D x y ltac:(done)) as [(i & Hi & E)|Hn].
    + assert (x = (at_ dir q i).1 /\ y = (at_ dir q i).2) as [-> ->] by (by rewrite <- E).
      rewrite L by done. change (m' (addr (at_ dir q i)) = std_line c bS alpha beta tc0 (line m (addr q) (xstep dir)) i).
      rewrite addr_at. by apply R1.
    + rewrite std_edge_line_off by done. rewrite R2; [by apply (see _ _ _ _ _ _ S)|].
      intros i Hi E. rewrite <- addr_at in E. destruct (Hf i Hi) as [F1 F2]. apply (Hn i Hi).
      destruct (addr_inj x y (at_ dir q i).1 (at_ dir q i).2) as [-> ->]; [done|done|done|]. by destruct (at_ dir q i).
  - intros x y Hx Hy. destruct (D x y ltac:(done)) as [(i & Hi & E)|Hn].
    + assert (x = (at_ dir q i).1 /\ y = (at_ dir q i).2) as [-> ->] by (by rewrite <- E).
      rewrite L by done. by apply std_line_byte.
    + rewrite std_edge_line_off by done. by apply (see_byte _ _ _ _ _ _ S).
  - intros a Ha. rewrite R2; [by apply (see_rest _ _ _ _ _ _ S)|].
    intros i Hi E. rewrite <- addr_at in E. destruct (Hf i Hi) as [F1 F2]. by apply (Ha _ _ F1 F2).
Qed.

Lemma sees_idle c dir q bS alpha beta tc0 m p : bS = 0 \/ alpha <= 0 \/ beta <= 0 -> sees m p ->
  sees m (std_edge_line c dir q bS alpha beta tc0 p).
Proof.
  intros Hi. apply sees_ext. intros x y. unfold std_edge_line.
  destruct (dir =? 0); case_match; try done; rewrite std_line_idle by done; f_equal; lia.
Qed.

(** The lines of an edge from the place [(X, Y)]. *)
Definition edge_q (dir X Y k : Z) : Z * Z := if dir =? 0 then (X, Y + k) else (X + k, Y).
Lemma addr_edge dir X Y k : addr (edge_q dir X Y k) = addr (X, Y) + k * ystep dir.
Proof. unfold addr, edge_q, ystep. destruct (dir =? 0); cbn [fst snd]; lia. Qed.

Section Edge.
Context (dir X Y alpha beta : Z) (bS tcs : Z -> Z).
Hypothesis Hstride : 0 < stride.
Hypothesis tcs_pos : forall k, 0 <= tcs k.

Definition std_lines (c : bool) (n : nat) (p : picture) : picture :=
  for_ n 0 (fun k => std_edge_line c dir (edge_q dir X Y k) (bS k) alpha beta (tcs k)) p.
Lemma xstep_pos : 0 < xstep dir.
Proof. unfold xstep. destruct (dir =? 0); lia. Qed.
Local Hint Resolve xstep_pos : core.

(** The loops of the code, line by line. *)
Lemma sees_lines c n (f : Z -> mem -> mem) m p :
  (forall k, 0 <= k < Z.of_nat n -> fits dir (edge_q dir X Y k)) ->
  (forall k m p, 0 <= k < Z.of_nat n -> fits dir (edge_q dir X Y k) -> sees m p ->
     sees (f k m) (std_edge_line c dir (edge_q dir X Y k) (bS k) alpha beta (tcs k) p)) ->
  sees m p -> sees (for_ n 0 f m) (std_lines c n p).
Proof. intros Hf Hk S. apply for_sim; [done|]. intros k m1 p1 Hi S1. apply Hk; [lia|apply Hf; lia|done]. Qed.

Lemma sees_idle_edge c n m p : (forall k, 0 <= k < Z.of_nat n -> bS k = 0 \/ alpha <= 0 \/ beta <= 0) -> sees m p -> sees m (std_lines c n p).
Proof.
  intros Hi S. rewrite <- (for_idle n 0 (fun _ m => m) m) by done.
  apply for_sim; [done|]. intros k m1 p1 Hk S1. apply sees_idle; [|done]. apply Hi. lia.
Qed.

Definition strength_code (tc : Z) (k extra : Z) : Prop :=
  (bS k = 0 /\ tc < extra) \/ (0 < bS k < 4 /\ tc = tcs k + extra /\ tcs k <= 100).

Lemma sees_luma_edge tc0 m p : (forall k, 0 <= k < 16 -> fits dir (edge_q dir X Y k)) ->
  (forall k, 0 <= k < 16 -> strength_code (tc0 (k / 4)) k 0) -> sees m p ->
  sees (deblock_luma_c m (addr (X, Y)) (xstep dir) (ystep dir) alpha beta tc0) (std_lines false 16 p).
Proof.
  intros Hf Hb S. unfold deblock_luma_c.
  rewrite (for_ext 4 0 _ (fun i => for_ 4 0 (fun d m => if tc0 i <? 0 then m else
    luma_line m (addr (X, Y) + (4 * i + d) * ystep dir) (xstep dir) alpha beta (tc0 i)))).
  2: { intros i m1 _. destruct (tc0 i <? 0); [by rewrite for_idle|done]. }
  rewrite (for_nest 4 4 (fun i d m => if tc0 i <? 0 then m else
    luma_line m (addr (X, Y) + (4 * i + d) * ystep dir) (xstep dir) alpha beta (tc0 i))) by lia.
  apply sees_lines; [done| |done]. intros k m1 p1 Hk Hq S1. change (Z.of_nat 4) with 4.
  rewrite <- (Z.div_mod k 4), <- addr_edge by lia. destruct (Hb k Hk) as [[E1 E2]|(E1 & E2 & E3)].
  - rewrite (proj2 (Z.ltb_lt _ _)) by done. apply sees_idle; [by left|done].
  - rewrite (proj2 (Z.ltb_ge _ _)) by (specialize (tcs_pos k); lia). eapply sees_line; [by apply tcs_pos|done|done|].
    intros B. rewrite E2, Z.add_0_r. apply luma_line_std; [done|done|specialize (tcs_pos k); lia|lia|lia].
Qed.

Lemma sees_chroma_edge tc0 m p : (forall k, 0 <= k < 8 -> fits dir (edge_q dir X Y k)) ->
  (forall k, 0 <= k < 8 -> strength_code (tc0 (k / 2)) k 1) -> sees m p ->
  sees (deblock_chroma_c m (addr (X, Y)) (xstep dir) (ystep dir) alpha beta tc0) (std_lines true 8 p).
Proof.
  intros Hf Hb S. unfold deblock_chroma_c. cbv zeta.
  rewrite (for_ext 4 0 _ (fun i => for_ 2 0 (fun d m => if tc0 i <=? 0 then m else
    chroma_line m (addr (X, Y) + (2 * i + d) * ystep dir) (xstep dir) alpha beta (tc0 i)))).
  2: { intros i m1 _. destruct (tc0 i <=? 0); [by rewrite for_idle|done]. }
  rewrite (for_nest 4 2 (fun i d m => if tc0 i <=? 0 then m else
    chroma_line m (addr (X, Y) + (2 * i + d) * ystep dir) (xstep dir) alpha beta (tc0 i))) by lia.
  apply sees_lines; [done| |done]. intros k m1 p1 Hk Hq S1. change (Z.of_nat 2) with 2.
  rewrite <- (Z.div_mod k 2), <- addr_edge by lia. destruct (Hb k Hk) as [[E1 E2]|(E1 & E2 & E3)].
  - rewrite (proj2 (Z.leb_le _ _)) by lia. apply sees_idle; [by left|done].
  - rewrite (proj2 (Z.leb_gt _ _)) by (specialize (tcs_pos k); lia). eapply sees_line; [by apply tcs_pos|done|done|].
    intros B. rewrite E2. apply chroma_line_std; [done|done|specialize (tcs_pos k); lia|lia|lia].
Qed.

Lemma sees_luma_intra_edge m p : (forall k, 0 <= k < 16 -> fits dir (edge_q dir X Y k)) -> (forall k, 0 <= k < 16 -> bS k = 4) ->
  sees m p -> sees (deblock_luma_intra_c m (addr (X, Y)) (xstep dir) (ystep dir) alpha beta) (std_lines false 16 p).
Proof.
  intros Hf Hb S. apply sees_lines; [done| |done]. intros k m1 p1 Hk Hq S1. rewrite <- addr_edge, Hb by lia.
  eapply sees_line; [by apply tcs_pos|done|done|]. intros B. by apply luma_intra_line_std.
Qed.
Lemma sees_chroma_intra_edge m p : (forall k, 0 <= k < 8 -> fits dir (edge_q dir X Y k)) -> (forall k, 0 <= k < 8 -> bS k = 4) ->
  sees m p -> sees (deblock_chroma_intra_c m (addr (X, Y)) (xstep dir) (ystep dir) alpha beta) (std_lines true 8 p).
Proof.
  intros Hf Hb S. apply sees_lines; [done| |done]. intros k m1 p1 Hk Hq S1. rewrite <- addr_edge, Hb by lia.
  eapply sees_line; [by apply tcs_pos|done|done|]. intros B. by apply chroma_intra_line_std.
Qed.
End Edge.
End Plane.
