(* ===== verification/DeblockMb.v ===== *)
(** * Deblocking: strengths, macroblocks and the frame

    [info_of] reads from the encoder's arrays what the standard filters by; the theorem is
    that [x264_frame_deblock] does to the planes what the process of the standard does to
    the pictures they hold. *)
From S2P Require Import Prelude Mb Deblock DeblockStd DeblockLine DeblockFrame.

Section Info.
Context (pic_of : Z -> Z -> Z).    (* the picture of an entry of a reference list *)

(** ** The picture the encoder's arrays describe *)
Section Of.
Context (h : deblock_t).
Definition mb_of (bx by_ : Z) : Z := mb_xy_of h (bx / 4) (by_ / 4).
Definition has_coeffs (mb x y : Z) : bool := negb (d_nnz h mb (x + y * 4) =? 0).
Definition coded_of (bx by_ : Z) : bool :=
  let '(mb, x, y) := (mb_of bx by_, bx mod 4, by_ mod 4) in
  if i2b (d_transform_size h mb) then
    let '(x0, y0) := (2 * (x / 2), 2 * (y / 2)) in
    has_coeffs mb x0 y0 || has_coeffs mb (x0 + 1) y0 || has_coeffs mb x0 (y0 + 1) || has_coeffs mb (x0 + 1) (y0 + 1)
  else has_coeffs mb x y.
Definition ref_at (l bx by_ : Z) : Z := d_ref h l (by_ / 2 * s8x8 h + bx / 2).
Definition mv_at (l bx by_ : Z) : vec := d_mv h l (by_ * s4x4 h + bx).
Definition motion_of (bx by_ : Z) : list (Z * vec) :=
  let use l := if ref_at l bx by_ >=? 0 then [(pic_of l (ref_at l bx by_), mv_at l bx by_)] else [] in
  if d_type h =? SLICE_TYPE_B then use 0 ++ use 1 else use 0.
Definition info_of : picture_info := {|
  pi_width := d_width h;
  pi_height := d_height h;
  pi_intra mbx mby := IS_INTRA (d_mb_type h (mb_xy_of h mbx mby));
  pi_transform_8x8 mbx mby := i2b (d_transform_size h (mb_xy_of h mbx mby));
  pi_coded := coded_of;
  pi_motion := motion_of;
  pi_qp mbx mby := d_qp h (mb_xy_of h mbx mby);
  pi_qpc := chroma_qp_table h;
  pi_offset_a := d_alpha_offset h;
  pi_offset_b := d_beta_offset h
|}.

(** ** What the encoder keeps of its arrays *)
Definition in_frame (mbx mby : Z) : Prop := 0 <= mbx < d_width h /\ 0 <= mby < d_height h.
(** The block at [(x, y)] of a macroblock, in the frame. *)
Definition block_in (x y : Z) : Prop := 0 <= x < 4 /\ 0 <= y < 4.
Definition list_used (l : Z) : Prop := l = 0 \/ (l = 1 /\ d_type h = SLICE_TYPE_B).
Definition same_motion (bx by_ bx' by' : Z) : Prop :=
  forall l, list_used l -> ref_at l bx by_ = ref_at l bx' by' /\ mv_at l bx by_ = mv_at l bx' by'.

Record deblock_ok : Prop := {
  ok_progressive : d_mbaff h = 0;
  ok_width : 0 <= d_width h;
  ok_height : 0 <= d_height h;
  ok_mb_stride : d_mb_stride h = d_width h;
  ok_stride0 : 16 * d_width h <= d_stride h 0 /\ 0 < d_stride h 0;
  ok_stride1 : 8 * d_width h <= d_stride h 1 /\ 0 < d_stride h 1;
  ok_offset_a : -12 <= d_alpha_offset h <= 12;
  ok_offset_b : -12 <= d_beta_offset h <= 12;
  ok_offset_c : -12 <= d_chroma_offset h <= 12;
  ok_qp : forall mbx mby, in_frame mbx mby -> 0 <= d_qp h (mb_xy_of h mbx mby) <= 51;
  ok_transform : forall mbx mby, in_frame mbx mby ->
    let t := d_transform_size h (mb_xy_of h mbx mby) in t = 0 \/ (t = 1 /\ d_transform_8x8_mode h = true);
  ok_nnz : forall mb i, 0 <= d_nnz h mb i < 256;
  (* with CABAC the counts of an 8x8 transform block are equal *)
  ok_cabac : d_cabac h = true -> forall mbx mby x y, in_frame mbx mby -> block_in x y ->
    i2b (d_transform_size h (mb_xy_of h mbx mby)) = true ->
    has_coeffs (mb_xy_of h mbx mby) x y = has_coeffs (mb_xy_of h mbx mby) (2 * (x / 2)) (2 * (y / 2));
  (* entries of the lists are different pictures *)
  ok_pics : forall l r l' r', 0 <= l < 2 -> 0 <= l' < 2 -> 0 <= r -> 0 <= r' -> pic_of l r = pic_of l' r' -> l = l' /\ r = r';
  (* inter macroblocks refer to a picture; where a list is not used its vector is 0 *)
  ok_refs : forall mbx mby x y, in_frame mbx mby -> block_in x y -> IS_INTRA (d_mb_type h (mb_xy_of h mbx mby)) = false ->
    0 <= ref_at 0 (4 * mbx + x) (4 * mby + y) \/ (d_type h = SLICE_TYPE_B /\ 0 <= ref_at 1 (4 * mbx + x) (4 * mby + y));
  ok_unused : forall l mbx mby x y, list_used l -> in_frame mbx mby -> block_in x y -> ref_at l (4 * mbx + x) (4 * mby + y) < 0 ->
    ref_at l (4 * mbx + x) (4 * mby + y) = -1 /\ mv_at l (4 * mbx + x) (4 * mby + y) = (0, 0);
  ok_skip : forall mbx mby, in_frame mbx mby -> d_mb_type h (mb_xy_of h mbx mby) = P_SKIP ->
    (forall x y, block_in x y -> has_coeffs (mb_xy_of h mbx mby) x y = false) /\
    (forall x y x' y', block_in x y -> block_in x' y' -> same_motion (4 * mbx + x) (4 * mby + y) (4 * mbx + x') (4 * mby + y'));
  ok_sub8x8 : d_psub8x8 h = false -> forall mbx mby x y, in_frame mbx mby -> block_in x y ->
    IS_INTRA (d_mb_type h (mb_xy_of h mbx mby)) = false ->
    same_motion (4 * mbx + x) (4 * mby + y) (4 * mbx + 2 * (x / 2)) (4 * mby + 2 * (y / 2))
}.
End Of.

(** ** Motion *)
Lemma far_refl v : far v v = false.
Proof. unfold far. by rewrite !Z.sub_diag. Qed.
Lemma same_motion_sym h bx by_ bx' by' : same_motion h bx by_ bx' by' -> same_motion h bx' by' bx by_.
Proof. intros S l Hl. destruct (S l Hl) as [-> ->]. done. Qed.
Lemma same_motion_trans h a b c d e f : same_motion h a b c d -> same_motion h c d e f -> same_motion h a b e f.
Proof. intros S T l Hl. destruct (S l Hl) as [-> ->]. by apply T. Qed.
Lemma motion_of_same h bx by_ bx' by' : same_motion h bx by_ bx' by' -> motion_of h bx by_ = motion_of h bx' by'.
Proof.
  intros S. unfold motion_of. destruct (S 0) as [-> ->]; [by left|].
  destruct (Z.eqb_spec (d_type h) SLICE_TYPE_B); [|done]. destruct (S 1) as [-> ->]; [by right|]. done.
Qed.

(** The comparison of the code. *)
Definition list_differs (h : deblock_t) (l bx by_ bx' by' : Z) : bool :=
  negb (ref_at h l bx by_ =? ref_at h l bx' by') || far (mv_at h l bx by_) (mv_at h l bx' by').
Definition code_differs (h : deblock_t) (bx by_ bx' by' : Z) : bool :=
  list_differs h 0 bx by_ bx' by' || ((d_type h =? SLICE_TYPE_B) && list_differs h 1 bx by_ bx' by').

Record block_ok (h : deblock_t) (bx by_ : Z) : Prop := {
  b_refs : 0 <= ref_at h 0 bx by_ \/ (d_type h = SLICE_TYPE_B /\ 0 <= ref_at h 1 bx by_);
  b_unused : forall l, list_used h l -> ref_at h l bx by_ < 0 -> ref_at h l bx by_ = -1 /\ mv_at h l bx by_ = (0, 0)
}.
Definition pics_distinct : Prop := forall l r l' r', 0 <= l < 2 -> 0 <= l' < 2 -> 0 <= r -> 0 <= r' -> pic_of l r = pic_of l' r' -> l = l' /\ r = r'.

Lemma pic_eqb l r r' : pics_distinct -> 0 <= l < 2 -> 0 <= r -> 0 <= r' -> (pic_of l r =? pic_of l r') = (r =? r').
Proof.
  intros D Hl Hr Hr'. destruct (Z.eqb_spec r r') as [->|Hne]; [by rewrite Z.eqb_refl|].
  apply Z.eqb_neq. intros E. by destruct (D _ _ _ _ Hl Hl Hr Hr' E).
Qed.
Lemma pic_lists l l' r r' : pics_distinct -> 0 <= l < 2 -> 0 <= l' < 2 -> l <> l' -> 0 <= r -> 0 <= r' -> (pic_of l r =? pic_of l' r') = false.
Proof. intros D Hl Hl' Hn Hr Hr'. apply Z.eqb_neq. intros E. by destruct (D _ _ _ _ Hl Hl' Hr Hr' E). Qed.

Lemma code_differs_std h bx by_ bx' by' : pics_distinct -> block_ok h bx by_ -> block_ok h bx' by' ->
  code_differs h bx by_ bx' by' = motion_differs (motion_of h bx by_) (motion_of h bx' by').
Proof.
  intros D [P1 P2] [Q1 Q2]. unfold code_differs, list_differs, motion_of.
  destruct (Z.eqb_spec (d_type h) SLICE_TYPE_B) as [B|B]; cbn [andb].
  - assert (U : forall l, l = 0 \/ l = 1 -> list_used h l) by (intros l [->| ->]; [by left|by right]).
    pose proof (P2 0 (U 0 ltac:(auto))) as P20. pose proof (P2 1 (U 1 ltac:(auto))) as P21.
    pose proof (Q2 0 (U 0 ltac:(auto))) as Q20. pose proof (Q2 1 (U 1 ltac:(auto))) as Q21. clear P2 Q2 U.
    set (r0 := ref_at h 0 bx by_) in *. set (r1 := ref_at h 1 bx by_) in *.
    set (s0 := ref_at h 0 bx' by') in *. set (s1 := ref_at h 1 bx' by') in *.
    rewrite !Z.geb_leb.
    destruct (Z.leb_spec 0 r0) as [R0|R0], (Z.leb_spec 0 r1) as [R1|R1], (Z.leb_spec 0 s0) as [S0|S0], (Z.leb_spec 0 s1) as [S1|S1];
      try (exfalso; intuition lia); cbn [app motion_differs];
      try destruct (P20 R0) as [E0 ->]; try destruct (P21 R1) as [E1 ->];
      try destruct (Q20 S0) as [F0 ->]; try destruct (Q21 S1) as [F1 ->];
      try rewrite E0; try rewrite E1; try rewrite F0; try rewrite F1; rewrite ?Z.eqb_refl, ?far_refl, ?(pic_eqb 0), ?(pic_eqb 1) by done;
      rewrite ?(pic_lists 0 1), ?(pic_lists 1 0) by done; cbn [negb orb andb].
    all: repeat match goal with |- context [?a =? ?b] => destruct (Z.eqb_spec a b); [try lia|] end; cbn [negb orb andb]; try done.
    all: rewrite ?orb_true_r, ?orb_false_r; try done.
    all: try (exfalso; lia).
  - destruct P1 as [P1|[P1 _]]; [|done]. destruct Q1 as [Q1|[Q1 _]]; [|done].
    rewrite !Z.geb_leb, !(proj2 (Z.leb_le _ _)) by done. cbn [motion_differs]. rewrite pic_eqb by done. apply orb_false_r.
Qed.
Lemma motion_differs_refl h bx by_ : pics_distinct -> block_ok h bx by_ -> motion_differs (motion_of h bx by_) (motion_of h bx by_) = false.
Proof.
  intros D B. rewrite <- code_differs_std by done. unfold code_differs, list_differs. rewrite !Z.eqb_refl, !far_refl. by destruct (_ =? _).
Qed.

(** ** Strengths *)
Lemma land_1_odd e : i2b (e .& 1) = Z.odd e.
Proof. unfold i2b. change 1 with (Z.ones 1). rewrite Z.land_ones by lia. change (2 ^ 1) with 2. rewrite Zmod_odd. by destruct (Z.odd e). Qed.

(** The loop of [DEBLOCK_STRENGTH], where odd lines may copy the strength before them. *)
Definition strength (ns e : Z) (c d : Z -> bool) (i : Z) : Z := if c i then 2 else if Z.odd e && i2b ns then 0 else b2i (d i).
Lemma strength_loop (ns e : Z) (c d : Z -> bool) i :
  ns = 0 \/ (ns = 1 /\ (Z.odd e = false -> d 1 = d 0 /\ d 3 = d 2)) -> 0 <= i < 4 ->
  for_ 4 0 (fun i bS =>
    if c i then upd bS i 2
    else if negb (i2b (e .& ns)) then
      if i2b (i .& ns) && negb (bS (i - 1) =? 2) then upd bS i (bS (i - 1))
      else if d i then upd bS i 1 else bS
    else bS) (fun _ => 0) i = strength ns e c d i.
Proof.
  intros H Hi.
  refine (proj1 (for_inv (fun k bS => (forall j, 0 <= j < k -> bS j = strength ns e c d j) /\ (forall j, k <= j -> bS j = 0)) 4 0 _ _ _ _) i Hi);
    [split; [lia|done]|].
  intros k bS Hk [I1 I2].
  assert (U : forall v, v = strength ns e c d k -> (forall j, 0 <= j < k + 1 -> upd bS k v j = strength ns e c d j) /\ (forall j, k + 1 <= j -> upd bS k v j = 0)).
  { intros v ->. split; intros j Hj; unfold upd; destruct (Z.eqb_spec j k) as [->|]; try done; [apply I1|lia|apply I2]; lia. }
  assert (N : 0 = strength ns e c d k -> (forall j, 0 <= j < k + 1 -> bS j = strength ns e c d j) /\ (forall j, k + 1 <= j -> bS j = 0)).
  { intros E. split; intros j Hj; [destruct (Z.eq_dec j k) as [->|]; [rewrite I2 by lia; done|apply I1; lia]|apply I2; lia]. }
  assert (Sk : strength ns e c d k = if c k then 2 else if Z.odd e && i2b ns then 0 else b2i (d k)) by done.
  destruct (c k); [by apply U|].
  destruct H as [->|[-> H]].
  - rewrite !Z.land_0_r. change (i2b 0) with false in *. rewrite andb_false_r in Sk. cbn [negb andb].
    destruct (d k); [by apply U|by apply N].
  - rewrite !land_1_odd. change (i2b 1) with true in *. rewrite andb_true_r in Sk.
    destruct (Z.odd e) eqn:Eo; cbn [negb]; [by apply N|]. destruct (H eq_refl) as [D1 D3].
    destruct (Z.odd k) eqn:Ek; cbn [andb]; [|by destruct (d k); [apply U|apply N]].
    assert (k = 1 \/ k = 3) as Hk' by (assert (k = 0 \/ k = 1 \/ k = 2 \/ k = 3) as [->|[->|[->| ->]]] by lia; try done; auto).
    assert (Dk : d (k - 1) = d k) by (destruct Hk' as [->| ->]; [by change (1 - 1) with 0|by change (3 - 1) with 2]).
    assert (Sk' : strength 1 e c d (k - 1) = if c (k - 1) then 2 else b2i (d k)) by (unfold strength; rewrite Eo, Dk; done).
    rewrite (I1 (k - 1)), Sk' by lia. destruct (c (k - 1)); [by destruct (d k); [apply U|apply N]|].
    destruct (d k); cbn [b2i]; by apply U.
Qed.

Lemma far_sym v w : far v w = far w v.
Proof. unfold far. f_equal; rewrite !Z.geb_leb; f_equal; lia. Qed.
Lemma code_differs_sym h bx by_ bx' by' : code_differs h bx by_ bx' by' = code_differs h bx' by' bx by_.
Proof. unfold code_differs, list_differs. by rewrite !(Z.eqb_sym (ref_at h _ bx by_)), !(far_sym (mv_at h _ bx by_)). Qed.
Lemma same_motion_differs h a b a' b' c d : same_motion h a b a' b' ->
  code_differs h a b c d = code_differs h a' b' c d.
Proof.
  intros S. unfold code_differs, list_differs. destruct (S 0) as [-> ->]; [by left|].
  destruct (Z.eqb_spec (d_type h) SLICE_TYPE_B); [|done]. by destruct (S 1) as [-> ->]; [by right|].
Qed.

Section Mb.
Context (h : deblock_t) (nnz : Z -> Z -> Z).
Hypothesis ok : deblock_ok h.
Local Abbreviation info := (info_of h).
Local Abbreviation hn := (set_nnz h nnz).
(** The counts used tell the coded blocks, in a macroblock. *)
Definition counts_good (mbx mby : Z) : Prop := forall x y, block_in x y ->
  negb (nnz (mb_xy_of h mbx mby) (x + y * 4) =? 0) = coded_of h (4 * mbx + x) (4 * mby + y).

Lemma ok_block mbx mby x y : in_frame h mbx mby -> block_in x y -> IS_INTRA (d_mb_type h (mb_xy_of h mbx mby)) = false ->
  block_ok h (4 * mbx + x) (4 * mby + y).
Proof. intros Hf Hb Hi. split; [by eapply ok_refs|]. intros l Hl. by eapply ok_unused. Qed.

Section EdgeOf.
Context (dir mbx mby e : Z).
Hypothesis Hdir : dir = 0 \/ dir = 1.
Hypothesis He : 0 <= e < 4.
Hypothesis Hmb : in_frame h mbx mby.
(** The macroblock on the other side. *)
Definition nbx : Z := if (e =? 0) && (dir =? 0) then mbx - 1 else mbx.
Definition nby : Z := if (e =? 0) && (dir =? 1) then mby - 1 else mby.
Hypothesis Hnb : in_frame h nbx nby.
Definition cur (i : Z) : Z * Z := if dir =? 0 then (e, i) else (i, e).
Definition nbr (i : Z) : Z * Z := if dir =? 0 then ((e - 1) .& 3, i) else (i, (e - 1) .& 3).
Local Abbreviation q_of k := (along dir (4 * e) k (16 * mbx) (16 * mby)).

Lemma land_3 a : a .& 3 = a mod 4.
Proof. change 3 with (Z.ones 2). by rewrite Z.land_ones by lia. Qed.
Lemma block_cur i : 0 <= i < 4 -> block_in (cur i).1 (cur i).2.
Proof. intros. unfold cur, block_in. destruct (dir =? 0); cbn [fst snd]; lia. Qed.
Lemma block_nbr i : 0 <= i < 4 -> block_in (nbr i).1 (nbr i).2.
Proof. intros. unfold nbr, block_in. rewrite land_3. pose proof (Z.mod_pos_bound (e - 1) 4). destruct (dir =? 0); cbn [fst snd]; lia. Qed.

Lemma places k : 0 <= k < 16 ->
  (q_of k).1 / 16 = mbx /\ (q_of k).2 / 16 = mby /\
  (q_of k).1 / 4 = 4 * mbx + (cur (k / 4)).1 /\ (q_of k).2 / 4 = 4 * mby + (cur (k / 4)).2 /\
  (before dir (q_of k)).1 / 16 = nbx /\ (before dir (q_of k)).2 / 16 = nby /\
  (before dir (q_of k)).1 / 4 = 4 * nbx + (nbr (k / 4)).1 /\ (before dir (q_of k)).2 / 4 = 4 * nby + (nbr (k / 4)).2.
Proof.
  intros Hk. clear -Hdir He Hk. unfold along, before, cur, nbr, nbx, nby. rewrite land_3.
  destruct Hdir as [->| ->]; cbn [Z.eqb Pos.eqb fst snd]; rewrite ?andb_true_r, ?andb_false_r;
    destruct (Z.eqb_spec e 0) as [->|Hne]; repeat split; Z.to_euclidean_division_equations; lia.
Qed.

(** The indices of the encoder's arrays. *)
Lemma ref_index mx my x y : block_in x y -> mb_8x8_of h mx my + (x >> 1) + (y >> 1) * s8x8 h = (4 * my + y) / 2 * s8x8 h + (4 * mx + x) / 2.
Proof.
  intros [Hx Hy]. rewrite !shr1. unfold mb_8x8_of.
  replace ((4 * my + y) / 2) with (2 * my + y / 2) by (Z.to_euclidean_division_equations; lia).
  replace ((4 * mx + x) / 2) with (2 * mx + x / 2) by (Z.to_euclidean_division_equations; lia). ring.
Qed.
Lemma mv_index mx my x y : mb_4x4_of h mx my + x + y * s4x4 h = (4 * my + y) * s4x4 h + (4 * mx + x).
Proof. unfold mb_4x4_of. ring. Qed.

Definition coded_i (i : Z) : bool :=
  negb (nnz (mb_xy_of h mbx mby) ((cur i).1 + (cur i).2 * 4) =? 0) || negb (nnz (mb_xy_of h nbx nby) ((nbr i).1 + (nbr i).2 * 4) =? 0).
Definition differs_i (i : Z) : bool :=
  code_differs h (4 * mbx + (cur i).1) (4 * mby + (cur i).2) (4 * nbx + (nbr i).1) (4 * nby + (nbr i).2).

Lemma DEBLOCK_STRENGTH_loop i : 0 <= i < 4 ->
  IS_INTRA (d_mb_type h (mb_xy_of h mbx mby)) = false -> IS_INTRA (d_mb_type h (mb_xy_of h nbx nby)) = false ->
  DEBLOCK_STRENGTH hn dir mbx mby (mb_xy_of h nbx nby) (mb_8x8_of h nbx nby) (mb_4x4_of h nbx nby) e i =
  strength (no_sub8x8 h) e coded_i differs_i i.
Proof.
  intros Hi I1 I2. unfold DEBLOCK_STRENGTH. change (d_mb_type hn) with (d_mb_type h).
  change (mb_xy_of hn mbx mby) with (mb_xy_of h mbx mby). rewrite I1, I2. cbn [orb]. cbv zeta.
  rewrite <- strength_loop; [|unfold no_sub8x8|done].
  - apply (f_equal (fun g : mem => g i)), for_ext. intros k bS Hk. cbv beta.
    assert (C : (if dir =? 0 then e else k) = (cur k).1 /\ (if dir =? 0 then k else e) = (cur k).2) by (unfold cur; by destruct (dir =? 0)).
    destruct C as [-> ->].
    assert (N : (if dir =? 0 then ((cur k).1 - 1) .& 0x03 else (cur k).1) = (nbr k).1 /\
                (if dir =? 0 then (cur k).2 else ((cur k).2 - 1) .& 0x03) = (nbr k).2) by (unfold cur, nbr; by destruct (dir =? 0)).
    destruct N as [-> ->].
    change (d_nnz hn) with nnz. change (no_sub8x8 hn) with (no_sub8x8 h). fold (coded_i k).
    change (s8x8 hn) with (s8x8 h). change (s4x4 hn) with (s4x4 h). change (mb_8x8_of hn mbx mby) with (mb_8x8_of h mbx mby).
    change (mb_4x4_of hn mbx mby) with (mb_4x4_of h mbx mby). change (d_ref hn) with (d_ref h). change (d_mv hn) with (d_mv h).
    change (d_type hn) with (d_type h). unfold mvy_limit. change (d_mbaff hn) with (d_mbaff h). rewrite (ok_progressive _ ok). change (4 >> 0) with 4.
    rewrite !ref_index, !mv_index by (by apply block_cur || by apply block_nbr). unfold differs_i, code_differs, list_differs, far, ref_at, mv_at.
    rewrite <- !orb_assoc. done.
  - destruct (d_psub8x8 h) eqn:Es; cbn [negb b2i]; [by left|right]. split; [done|]. intros Ho.
    assert (E : (e = 0 \/ e = 2)) by (assert (e = 0 \/ e = 1 \/ e = 2 \/ e = 3) as [->|[->|[->| ->]]] by lia; try done; auto).
    assert (P : forall j, j = 0 \/ j = 2 -> differs_i (j + 1) = differs_i j).
    { intros j Hj. unfold differs_i.
      assert (C : same_motion h (4 * mbx + (cur (j + 1)).1) (4 * mby + (cur (j + 1)).2) (4 * mbx + (cur j).1) (4 * mby + (cur j).2)).
      { replace (4 * mbx + (cur j).1) with (4 * mbx + 2 * ((cur (j + 1)).1 / 2)) by (unfold cur; destruct Hdir as [->| ->], Hj as [->| ->], E as [->| ->]; done).
        replace (4 * mby + (cur j).2) with (4 * mby + 2 * ((cur (j + 1)).2 / 2)) by (unfold cur; destruct Hdir as [->| ->], Hj as [->| ->], E as [->| ->]; done).
        apply (ok_sub8x8 _ ok Es mbx mby); [done|apply block_cur; lia|done]. }
      assert (same_motion h (4 * nbx + (nbr (j + 1)).1) (4 * nby + (nbr (j + 1)).2) (4 * nbx + (nbr j).1) (4 * nby + (nbr j).2)) as N.
      { pose proof (ok_sub8x8 _ ok Es nbx nby (nbr (j + 1)).1 (nbr (j + 1)).2 Hnb ltac:(apply block_nbr; lia) I2) as N1.
        pose proof (ok_sub8x8 _ ok Es nbx nby (nbr j).1 (nbr j).2 Hnb ltac:(apply block_nbr; lia) I2) as N2.
        replace (2 * ((nbr (j + 1)).1 / 2)) with (2 * ((nbr j).1 / 2)) in N1
          by (unfold nbr; destruct Hdir as [->| ->], Hj as [->| ->], E as [->| ->]; done).
        replace (2 * ((nbr (j + 1)).2 / 2)) with (2 * ((nbr j).2 / 2)) in N1
          by (unfold nbr; destruct Hdir as [->| ->], Hj as [->| ->], E as [->| ->]; done).
        eapply same_motion_trans; [exact N1|]. by apply same_motion_sym. }
      rewrite (same_motion_differs _ _ _ _ _ _ _ C), code_differs_sym, (same_motion_differs _ _ _ _ _ _ _ N). apply code_differs_sym. }
    split; [by apply (P 0); auto|by apply (P 2); auto].
Qed.

(** Across an odd edge an 8x8 block goes on. *)
Lemma odd_edge_same i : d_psub8x8 h = false -> Z.odd e = true -> 0 <= i < 4 -> IS_INTRA (d_mb_type h (mb_xy_of h mbx mby)) = false ->
  differs_i i = false.
Proof.
  intros Es Eo Hi I1.
  assert (E : e = 1 \/ e = 3) by (assert (e = 0 \/ e = 1 \/ e = 2 \/ e = 3) as [->|[->|[->| ->]]] by lia; try done; auto).
  assert (nbx = mbx /\ nby = mby) as [Ex Ey] by (unfold nbx, nby; destruct E as [->| ->]; done).
  unfold differs_i. rewrite Ex, Ey.
  pose proof (ok_sub8x8 _ ok Es mbx mby (cur i).1 (cur i).2 Hmb ltac:(apply block_cur; lia) I1) as C.
  pose proof (ok_sub8x8 _ ok Es mbx mby (nbr i).1 (nbr i).2 Hmb ltac:(apply block_nbr; lia) I1) as N.
  replace (2 * ((nbr i).1 / 2)) with (2 * ((cur i).1 / 2)) in N by (unfold nbr, cur; destruct Hdir as [->| ->], E as [->| ->]; done).
  replace (2 * ((nbr i).2 / 2)) with (2 * ((cur i).2 / 2)) in N by (unfold nbr, cur; destruct Hdir as [->| ->], E as [->| ->]; done).
  rewrite (same_motion_differs _ _ _ _ _ _ _ (same_motion_trans _ _ _ _ _ _ _ C (same_motion_sym _ _ _ _ _ N))).
  rewrite code_differs_std, motion_differs_refl; [done|exact (ok_pics _ ok)|..]; try exact (ok_pics _ ok);
    apply ok_block; try done; apply block_nbr; lia.
Qed.

Hypothesis good_cur : counts_good mbx mby.
Hypothesis good_nbr : counts_good nbx nby.

Lemma strength_inter k : 0 <= k < 16 ->
  IS_INTRA (d_mb_type h (mb_xy_of h mbx mby)) = false -> IS_INTRA (d_mb_type h (mb_xy_of h nbx nby)) = false ->
  DEBLOCK_STRENGTH hn dir mbx mby (mb_xy_of h nbx nby) (mb_8x8_of h nbx nby) (mb_4x4_of h nbx nby) e (k / 4) =
  std_bS info (e =? 0) (before dir (q_of k)) (q_of k).
Proof.
  intros Hk I1 I2. assert (0 <= k / 4 < 4) as Hi by (Z.to_euclidean_division_equations; lia).
  rewrite DEBLOCK_STRENGTH_loop by done. destruct (places k Hk) as (Q1 & Q2 & Q3 & Q4 & P1 & P2 & P3 & P4).
  unfold std_bS. cbn [pi_intra pi_coded pi_motion info_of]. rewrite Q1, Q2, Q3, Q4, P1, P2, P3, P4, I1, I2. cbn [orb].
  unfold strength, coded_i. rewrite good_cur, good_nbr, orb_comm by (by apply block_cur || by apply block_nbr).
  destruct (coded_of h _ _ || coded_of h _ _); [done|].
  rewrite <- code_differs_std, code_differs_sym;
    [|exact (ok_pics _ ok)|apply ok_block; [done|by apply block_nbr|done]|apply ok_block; [done|by apply block_cur|done]].
  fold (differs_i (k / 4)). destruct (Z.odd e && i2b (no_sub8x8 h)) eqn:E; [|done].
  apply andb_prop in E as [Eo Es]. rewrite odd_edge_same; [done| |done|done|done].
  unfold no_sub8x8 in Es. by destruct (d_psub8x8 h).
Qed.

(** Intra macroblocks: 3 inside, and 4 at their edges, where other functions filter. *)
Lemma std_bS_intra k : 0 <= k < 16 ->
  IS_INTRA (d_mb_type h (mb_xy_of h mbx mby)) = true \/ IS_INTRA (d_mb_type h (mb_xy_of h nbx nby)) = true ->
  std_bS info (e =? 0) (before dir (q_of k)) (q_of k) = if e =? 0 then 4 else 3.
Proof.
  clear -Hdir He. intros Hk I. destruct (places k Hk) as (Q1 & Q2 & _ & _ & P1 & P2 & _).
  unfold std_bS. cbn [pi_intra info_of]. rewrite Q1, Q2, P1, P2. by destruct I as [-> | ->]; rewrite ?orb_true_r.
Qed.
Lemma strength_std k : 0 <= k < 16 ->
  (e = 0 -> IS_INTRA (d_mb_type h (mb_xy_of h mbx mby)) = false /\ IS_INTRA (d_mb_type h (mb_xy_of h nbx nby)) = false) ->
  DEBLOCK_STRENGTH hn dir mbx mby (mb_xy_of h nbx nby) (mb_8x8_of h nbx nby) (mb_4x4_of h nbx nby) e (k / 4) =
  std_bS info (e =? 0) (before dir (q_of k)) (q_of k).
Proof.
  intros Hk H0. destruct (IS_INTRA (d_mb_type h (mb_xy_of h mbx mby))) eqn:I1;
    [|destruct (IS_INTRA (d_mb_type h (mb_xy_of h nbx nby))) eqn:I2; [|by apply strength_inter]].
  all: rewrite std_bS_intra by auto; unfold DEBLOCK_STRENGTH; change (d_mb_type hn) with (d_mb_type h);
    change (mb_xy_of hn mbx mby) with (mb_xy_of h mbx mby); rewrite ?I1, ?I2, ?orb_true_r; cbn [orb];
    destruct (Z.eqb_spec e 0) as [->|]; [destruct (H0 eq_refl); congruence|done].
Qed.
End EdgeOf.
End Mb.
End Info.
