(* ===== verification/DeblockCorrect.v ===== *)
(** * Deblocking: the planes follow the process of the standard

    Edge by edge, macroblock by macroblock and row by row, up to the theorem on
    [x264_frame_deblock]. *)
From S2P Require Import Prelude Mb Deblock DeblockStd DeblockLine DeblockFrame DeblockMb.

(** ** Tables *)
Lemma alpha_table_std i : -12 <= i < 64 -> alpha_table i = alpha_of i /\ beta_table i = beta_of i.
Proof.
  intros Hi. assert (all_range (-12) 76 (fun i => (alpha_table i =? alpha_of i) && (beta_table i =? beta_of i)) = true) as A by (vm_compute; reflexivity).
  pose proof (all_range_spec _ _ _ i A ltac:(lia)) as E. cbv beta in E. lia.
Qed.
Definition tc_ok (i b extra : Z) : bool :=
  let tc := s8 (tc0_table i b + extra) in
  (0 <=? tc0_of i b) && (if b =? 0 then tc <? extra else (tc =? tc0_of i b + extra) && (tc0_of i b <=? 100)).
Lemma tc_table_std i b extra : -12 <= i < 64 -> 0 <= b < 4 -> extra = 0 \/ extra = 1 -> tc_ok i b extra = true.
Proof.
  intros Hi Hb He.
  assert (all_range (-12) 76 (fun i => all_range 0 4 (fun b => tc_ok i b 0 && tc_ok i b 1)) = true) as A by (vm_compute; reflexivity).
  pose proof (all_range_spec _ _ _ i A ltac:(lia)) as E. cbv beta in E.
  pose proof (all_range_spec _ _ _ b E ltac:(lia)) as E'. cbv beta in E'. apply andb_prop in E' as [? ?]. by destruct He as [->| ->].
Qed.
Lemma Forall_nth_default {A} (P : A -> Prop) d l n : P d -> Forall P l -> P (nth n l d).
Proof. intros Hd H. revert n. induction H as [|x l Hx _ IH]; intros [|n]; simpl; auto. Qed.
Lemma tc0_of_pos i b : 0 <= tc0_of i b.
Proof.
  unfold tc0_of, tbl.
  assert (F : Forall (Forall (fun v => 0 <= v)) std_tc0) by (repeat (constructor; [repeat (constructor; [lia|]); constructor|]); constructor).
  assert (G : Forall (fun v => 0 <= v) (nth (Z.to_nat (b - 1)) std_tc0 [])) by (apply Forall_nth_default; [constructor|done]).
  by apply (Forall_nth_default (fun v => 0 <= v)).
Qed.
Lemma strength_code_table (bS tcs : Z -> Z) idx bc (b : Z -> Z) k j : -12 <= idx < 64 -> bc = 0 \/ bc = 1 ->
  b j = bS k -> 0 <= bS k < 4 -> tcs k = tc0_of idx (bS k) -> strength_code bS tcs (tc_of idx bc b j) k bc.
Proof.
  intros Hi Hc Hb Hr Ht. pose proof (tc_table_std idx (bS k) bc Hi Hr Hc) as T. unfold tc_ok in T.
  unfold strength_code, tc_of. rewrite Hb, Ht. destruct (Z.eqb_spec (bS k) 0); [left|right]; lia.
Qed.

Section Correct.
Context (pic_of : Z -> Z -> Z) (h : deblock_t) (p0 : planes).
Hypothesis ok : deblock_ok pic_of h.
Local Abbreviation info := (info_of pic_of h).

(** ** The planes *)
Definition stride_of (plane : Z) : Z := if plane =? 0 then d_stride h 0 else d_stride h 1.
Definition width_of (plane : Z) : Z := if plane =? 0 then 16 * d_width h else 8 * d_width h.
Definition height_of (plane : Z) : Z := if plane =? 0 then 16 * d_height h else 8 * d_height h.
Definition is_plane (plane : Z) : Prop := 0 <= plane < 3.
Definition sees_planes (p : planes) (pics : Z -> picture) : Prop := forall plane, is_plane plane ->
  sees (stride_of plane) (width_of plane) (height_of plane) (p0 plane) (p plane) (pics plane).

Lemma stride_ok plane : width_of plane <= stride_of plane /\ 0 < stride_of plane.
Proof. unfold width_of, stride_of. destruct (plane =? 0); [apply (ok_stride0 _ _ ok)|apply (ok_stride1 _ _ ok)]. Qed.

(** The planes after the code of an edge. *)
Lemma set_plane_eq p i m j : set_plane p i m j = if j =? i then m else p j. Proof. done. Qed.

Section EdgeStep.
Context (nnz : Z -> Z -> Z) (dir mbx mby e : Z).
Local Abbreviation hn := (set_nnz h nnz).
Hypothesis Hdir : dir = 0 \/ dir = 1.
Hypothesis He : 0 <= e < 4.
Hypothesis Hmb : in_frame h mbx mby.
Local Abbreviation nx := (nbx dir mbx e).
Local Abbreviation ny := (nby dir mby e).
Hypothesis Hnb : in_frame h nx ny.
Local Abbreviation q_of k := (along dir (4 * e) k (16 * mbx) (16 * mby)).

(** Where the edge starts in a plane. *)
Definition edge_x (plane : Z) : Z := let u := if plane =? 0 then 4 else 2 in 4 * u * mbx + (if dir =? 0 then u * e else 0).
Definition edge_y (plane : Z) : Z := let u := if plane =? 0 then 4 else 2 in 4 * u * mby + (if dir =? 0 then 0 else u * e).
Definition bS_of (k : Z) : Z := std_bS info (e =? 0) (before dir (q_of k)) (q_of k).
Definition qp_avg (chroma : bool) : Z :=
  let f := if chroma then chroma_qp_table h else id in
  (f (d_qp h (mb_xy_of h nx ny)) + f (d_qp h (mb_xy_of h mbx mby)) + 1) / 2.
Local Abbreviation alpha_ chroma := (alpha_of (qp_avg chroma + d_alpha_offset h)).
Local Abbreviation beta_ chroma := (beta_of (qp_avg chroma + d_beta_offset h)).

Lemma bS_range k : 0 <= bS_of k <= 4.
Proof. unfold bS_of, std_bS. repeat case_match; try lia. destruct (motion_differs _ _); simpl; lia. Qed.

Lemma std_luma_edge_lines pic : std_luma_edge info dir mbx mby e pic =
  std_lines dir (edge_x 0) (edge_y 0) (alpha_ false) (beta_ false) bS_of (fun k => tc0_of (qp_avg false + d_alpha_offset h) (bS_of k)) false 16 pic.
Proof.
  unfold std_luma_edge, std_lines. apply for_ext. intros k s Hk. cbv zeta.
  assert (Eq : edge_q dir (edge_x 0) (edge_y 0) k = q_of k).
  { unfold edge_q, along, edge_x, edge_y. destruct (dir =? 0); cbn [Z.eqb]; cbv zeta; f_equal; lia. }
  rewrite Eq. unfold std_filter. fold (bS_of k).
  destruct (places dir mbx mby e Hdir He k ltac:(lia)) as (Q1 & Q2 & _ & _ & P1 & P2 & _).
  cbn [pi_qp pi_offset_a pi_offset_b info_of]. rewrite Q1, Q2, P1, P2. done.
Qed.
Lemma std_chroma_edge_lines plane pic : plane <> 0 -> Z.odd e = false -> std_chroma_edge info dir mbx mby e pic =
  std_lines dir (edge_x plane) (edge_y plane) (alpha_ true) (beta_ true) (fun k => bS_of (2 * k))
    (fun k => tc0_of (qp_avg true + d_alpha_offset h) (bS_of (2 * k))) true 8 pic.
Proof.
  intros Hp Ho. unfold std_chroma_edge, std_lines. apply for_ext. intros k s Hk. cbv zeta.
  apply Z.eqb_neq in Hp.
  assert (Eq : edge_q dir (edge_x plane) (edge_y plane) k = along dir (2 * e) k (8 * mbx) (8 * mby)).
  { unfold edge_q, along, edge_x, edge_y. rewrite Hp. destruct (dir =? 0); cbv zeta; f_equal; lia. }
  assert (El : (2 * (along dir (2 * e) k (8 * mbx) (8 * mby)).1, 2 * (along dir (2 * e) k (8 * mbx) (8 * mby)).2) = q_of (2 * k)).
  { unfold along. destruct (dir =? 0); cbn [fst snd]; f_equal; lia. }
  rewrite Eq, El. unfold std_filter. fold (bS_of (2 * k)).
  destruct (places dir mbx mby e Hdir He (2 * k) ltac:(lia)) as (Q1 & Q2 & _ & _ & P1 & P2 & _).
  cbn [pi_qp pi_qpc pi_offset_a pi_offset_b info_of]. rewrite Q1, Q2, P1, P2. done.
Qed.

(** The filters stay inside the planes. *)
Lemma edge_fits plane k : is_plane plane -> (plane <> 0 -> Z.odd e = false) -> 0 <= k < (if plane =? 0 then 16 else 8) ->
  fits (width_of plane) (height_of plane) dir (edge_q dir (edge_x plane) (edge_y plane) k).
Proof.
  intros Hp Ho Hk i Hi. unfold window in Hi. unfold inside_plane, at_, edge_q, edge_x, edge_y, width_of, height_of.
  destruct Hmb as [Mx My], Hnb as [Nx Ny]. unfold nbx, nby in *.
  assert (E : plane <> 0 -> e = 0 \/ e = 2).
  { intros Hn. specialize (Ho Hn). assert (e = 0 \/ e = 1 \/ e = 2 \/ e = 3) as [->|[->|[->| ->]]] by lia; try done; auto. }
  destruct (Z.eqb_spec plane 0) as [->|Hn]; [|specialize (E Hn)]; destruct Hdir as [->| ->]; cbn [Z.eqb Pos.eqb fst snd andb] in *;
    rewrite ?andb_true_r, ?andb_false_r in *; destruct (Z.eqb_spec e 0) as [->|He0]; lia.
Qed.

(** ** One edge of the code *)
Lemma qp_range mx my : in_frame h mx my -> 0 <= d_qp h (mb_xy_of h mx my) <= 51.
Proof. apply (ok_qp _ _ ok). Qed.
Lemma chroma_qp_range qp : 0 <= qp <= 51 -> 0 <= chroma_qp_table h qp <= 51 /\ chroma_qp_table h qp <= qp + Z.max 0 (d_chroma_offset h).
Proof.
  intros Hq. unfold chroma_qp_table. pose proof (ok_offset_c _ _ ok).
  assert (all_range 0 76 (fun i => (0 <=? tbl i_chroma_qp_table i) && (tbl i_chroma_qp_table i <=? 51) &&
    (tbl i_chroma_qp_table i <=? Z.max 0 (i - 12)) ) = true) as A by (vm_compute; reflexivity).
  pose proof (all_range_spec _ _ _ (12 + d_chroma_offset h + qp) A ltac:(lia)) as E. cbv beta in E. lia.
Qed.
Lemma qp_avg_range chroma : 0 <= qp_avg chroma <= 51.
Proof.
  unfold qp_avg. pose proof (qp_range _ _ Hmb). pose proof (qp_range _ _ Hnb).
  destruct chroma; cbv zeta; unfold id;
    [pose proof (chroma_qp_range (d_qp h (mb_xy_of h mbx mby)) ltac:(lia)); pose proof (chroma_qp_range (d_qp h (mb_xy_of h nx ny)) ltac:(lia))|];
    Z.to_euclidean_division_equations; lia.
Qed.

(** The addresses of the code. *)
Lemma pix_addr plane : is_plane plane -> (plane <> 0 -> Z.odd e = false) ->
  addr (stride_of plane) (edge_x plane, edge_y plane) =
  (if plane =? 0 then pixy_of h mbx mby else pixuv_of h mbx mby) + (if plane =? 0 then 4 else 2) * e * (if dir =? 0 then 1 else stride_of plane).
Proof.
  intros Hp Ho. unfold addr, edge_x, edge_y, pixy_of, pixuv_of, stride_of. rewrite (ok_progressive _ _ ok). cbn [i2b andb fst snd].
  change (i2b 0) with false. cbn [andb]. destruct (plane =? 0), (dir =? 0); ring.
Qed.

Lemma sees_p p pics plane : sees_planes p pics -> is_plane plane ->
  sees (stride_of plane) (width_of plane) (height_of plane) (p0 plane) (p plane) (pics plane).
Proof. intros S. apply S. Qed.

(** When a threshold is 0 the code does nothing, and neither does the standard. *)
Lemma thresholds_idle idx_a idx_b : -12 <= idx_a < 64 -> -12 <= idx_b < 64 ->
  negb (i2b (alpha_table idx_a)) || negb (i2b (beta_table idx_b)) = true -> alpha_of idx_a <= 0 \/ beta_of idx_b <= 0.
Proof.
  intros Ha Hb E. destruct (alpha_table_std idx_a Ha) as [<- _], (alpha_table_std idx_b Hb) as [_ <-]. unfold i2b in E.
  destruct (Z.eqb_spec (alpha_table idx_a) 0) as [->|]; [by left|]. destruct (Z.eqb_spec (beta_table idx_b) 0) as [->|]; [by right|]. done.
Qed.

Section Filter.
Context (intra : bool) (bS : Z -> Z).
(** What the code knows of the strengths. *)
Hypothesis HbS : forall k, 0 <= k < 16 -> if intra then bS_of k = 4 else bS (k / 4) = bS_of k /\ bS_of k < 4.

Definition filter_plane (plane : Z) (m : mem) : mem :=
  let '(idx_a, idx_b) := (qp_avg (negb (plane =? 0)) + d_alpha_offset h, qp_avg (negb (plane =? 0)) + d_beta_offset h) in
  if negb (i2b (alpha_table idx_a)) || negb (i2b (beta_table idx_b)) then m else
  let '(pix, xs, ys) := (addr (stride_of plane) (edge_x plane, edge_y plane), xstep (stride_of plane) dir, ystep (stride_of plane) dir) in
  if plane =? 0 then
    if intra then deblock_luma_intra_c m pix xs ys (alpha_table idx_a) (beta_table idx_b)
    else deblock_luma_c m pix xs ys (alpha_table idx_a) (beta_table idx_b) (tc_of idx_a 0 bS)
  else
    if intra then deblock_chroma_intra_c m pix xs ys (alpha_table idx_a) (beta_table idx_b)
    else deblock_chroma_c m pix xs ys (alpha_table idx_a) (beta_table idx_b) (tc_of idx_a 1 bS).

Lemma filter_plane_luma p pics : sees_planes p pics ->
  sees (stride_of 0) (width_of 0) (height_of 0) (p0 0) (filter_plane 0 (p 0)) (std_luma_edge info dir mbx mby e (pics 0)).
Proof.
  intros S. pose proof (sees_p p pics 0 S ltac:(done)) as S0. rewrite std_luma_edge_lines. unfold filter_plane. cbn [Z.eqb negb].
  pose proof (qp_avg_range false). pose proof (ok_offset_a _ _ ok). pose proof (ok_offset_b _ _ ok).
  destruct (stride_ok 0) as [T1 T2].
  destruct (negb _ || negb _) eqn:E.
  { apply sees_idle_edge; [|done]. intros k Hk. right. by apply thresholds_idle; [lia|lia|]. }
  destruct (alpha_table_std (qp_avg false + d_alpha_offset h) ltac:(lia)) as [-> _].
  destruct (alpha_table_std (qp_avg false + d_beta_offset h) ltac:(lia)) as [_ ->].
  assert (F : forall k, 0 <= k < 16 -> fits (width_of 0) (height_of 0) dir (edge_q dir (edge_x 0) (edge_y 0) k)) by (intros k Hk; by apply edge_fits).
  destruct intra.
  - apply sees_luma_intra_edge; try done; intros; try apply tc0_of_pos.
  - apply sees_luma_edge; try done; intros; try apply tc0_of_pos. destruct (HbS k) as [B1 B2]; [done|]. pose proof (bS_range k).
    apply strength_code_table; [lia|by left|done|lia|done].
Qed.
Lemma filter_plane_chroma p pics plane : plane = 1 \/ plane = 2 -> Z.odd e = false -> sees_planes p pics ->
  sees (stride_of plane) (width_of plane) (height_of plane) (p0 plane) (filter_plane plane (p plane)) (std_chroma_edge info dir mbx mby e (pics plane)).
Proof.
  intros Hp Ho S. assert (plane <> 0) as Hn by lia. assert (is_plane plane) as Hp' by (unfold is_plane; lia).
  pose proof (sees_p p pics plane S Hp') as S0. rewrite (std_chroma_edge_lines plane) by done. unfold filter_plane.
  rewrite (proj2 (Z.eqb_neq plane 0) Hn). cbn [negb].
  pose proof (qp_avg_range true). pose proof (ok_offset_a _ _ ok). pose proof (ok_offset_b _ _ ok).
  destruct (stride_ok plane) as [T1 T2].
  destruct (negb _ || negb _) eqn:E.
  { apply sees_idle_edge; [|done]. intros k Hk. right. by apply thresholds_idle; [lia|lia|]. }
  destruct (alpha_table_std (qp_avg true + d_alpha_offset h) ltac:(lia)) as [-> _].
  destruct (alpha_table_std (qp_avg true + d_beta_offset h) ltac:(lia)) as [_ ->].
  assert (F : forall k, 0 <= k < 8 -> fits (width_of plane) (height_of plane) dir (edge_q dir (edge_x plane) (edge_y plane) k)).
  { intros k Hk. apply edge_fits; [done|done|]. by rewrite (proj2 (Z.eqb_neq plane 0) Hn). }
  destruct intra.
  - apply sees_chroma_intra_edge; try done; intros; try apply tc0_of_pos. apply HbS. lia.
  - apply sees_chroma_edge; try done; intros; try apply tc0_of_pos. destruct (HbS (2 * k)) as [B1 B2]; [lia|]. pose proof (bS_range (2 * k)).
    apply strength_code_table; [lia|by right| |lia|done]. rewrite <- B1. f_equal. Z.to_euclidean_division_equations. lia.
Qed.

(** The code of an edge, plane by plane. *)
Definition skip_code (qp : Z) : bool := negb (i2b (alpha_table (qp + d_alpha_offset h))) || negb (i2b (beta_table (qp + d_beta_offset h))).
Lemma deblock_edge_luma p pix pix2 st qp pf j : deblock_edge hn p 0 pix pix2 st bS qp 0 pf j =
  if j =? 0 then
    if skip_code qp then p 0 else pf (p 0) pix st (alpha_table (qp + d_alpha_offset h)) (beta_table (qp + d_beta_offset h)) (tc_of (qp + d_alpha_offset h) 0 bS)
  else p j.
Proof.
  unfold deblock_edge, set_plane. change (d_alpha_offset hn) with (d_alpha_offset h). change (d_beta_offset hn) with (d_beta_offset h).
  fold (skip_code qp). change (i2b 0) with false. destruct (skip_code qp); [|done]. destruct (Z.eqb_spec j 0) as [->|]; done.
Qed.
Lemma deblock_edge_chroma p pix st qp pf j : is_plane j -> deblock_edge hn p 1 pix pix st bS qp 1 pf j =
  if j =? 0 then p j else
    if skip_code qp then p j else pf (p j) pix st (alpha_table (qp + d_alpha_offset h)) (beta_table (qp + d_beta_offset h)) (tc_of (qp + d_alpha_offset h) 1 bS).
Proof.
  intros Hj. unfold deblock_edge, set_plane. change (d_alpha_offset hn) with (d_alpha_offset h). change (d_beta_offset hn) with (d_beta_offset h).
  fold (skip_code qp). change (i2b 1) with true. assert (j = 0 \/ j = 1 \/ j = 2) as [->|[->| ->]] by (unfold is_plane in Hj; lia); by destruct (skip_code qp).
Qed.
Lemma deblock_edge_intra_luma p pix pix2 st qp pf j : deblock_edge_intra hn p 0 pix pix2 st bS qp 0 pf j =
  if j =? 0 then
    if skip_code qp then p 0 else pf (p 0) pix st (alpha_table (qp + d_alpha_offset h)) (beta_table (qp + d_beta_offset h))
  else p j.
Proof.
  unfold deblock_edge_intra, set_plane. change (d_alpha_offset hn) with (d_alpha_offset h). change (d_beta_offset hn) with (d_beta_offset h).
  fold (skip_code qp). change (i2b 0) with false. destruct (skip_code qp); [|done]. destruct (Z.eqb_spec j 0) as [->|]; done.
Qed.
Lemma deblock_edge_intra_chroma p pix st qp pf j : is_plane j -> deblock_edge_intra hn p 1 pix pix st bS qp 1 pf j =
  if j =? 0 then p j else
    if skip_code qp then p j else pf (p j) pix st (alpha_table (qp + d_alpha_offset h)) (beta_table (qp + d_beta_offset h)).
Proof.
  intros Hj. unfold deblock_edge_intra, set_plane. change (d_alpha_offset hn) with (d_alpha_offset h). change (d_beta_offset hn) with (d_beta_offset h).
  fold (skip_code qp). change (i2b 1) with true. assert (j = 0 \/ j = 1 \/ j = 2) as [->|[->| ->]] by (unfold is_plane in Hj; lia); by destruct (skip_code qp).
Qed.

(** [filter_plane] as the calls of the code. *)
Local Abbreviation with_qp c f := (f (alpha_table (qp_avg c + d_alpha_offset h)) (beta_table (qp_avg c + d_beta_offset h))).
Lemma filter_plane_0 m : filter_plane 0 m =
  if skip_code (qp_avg false) then m else
  if dir =? 0 then
    if intra then with_qp false (deblock_h_luma_intra_c m (pixy_of h mbx mby + 4 * e) (d_stride h 0))
    else with_qp false (deblock_h_luma_c m (pixy_of h mbx mby + 4 * e) (d_stride h 0)) (tc_of (qp_avg false + d_alpha_offset h) 0 bS)
  else
    if intra then with_qp false (deblock_v_luma_intra_c m (pixy_of h mbx mby + 4 * e * d_stride h 0) (d_stride h 0))
    else with_qp false (deblock_v_luma_c m (pixy_of h mbx mby + 4 * e * d_stride h 0) (d_stride h 0)) (tc_of (qp_avg false + d_alpha_offset h) 0 bS).
Proof.
  unfold filter_plane. rewrite pix_addr by done. cbn [Z.eqb negb]. unfold skip_code, xstep, ystep, deblock_h_luma_intra_c, deblock_v_luma_intra_c, deblock_h_luma_c, deblock_v_luma_c.
  change (stride_of 0) with (d_stride h 0). destruct (dir =? 0); rewrite ?Z.mul_1_r; reflexivity.
Qed.
Lemma filter_plane_uv j m : is_plane j -> j <> 0 -> Z.odd e = false -> filter_plane j m =
  if skip_code (qp_avg true) then m else
  if dir =? 0 then
    if intra then with_qp true (deblock_h_chroma_intra_c m (pixuv_of h mbx mby + 2 * e) (d_stride h 1))
    else with_qp true (deblock_h_chroma_c m (pixuv_of h mbx mby + 2 * e) (d_stride h 1)) (tc_of (qp_avg true + d_alpha_offset h) 1 bS)
  else
    if intra then with_qp true (deblock_v_chroma_intra_c m (pixuv_of h mbx mby + 2 * e * d_stride h 1) (d_stride h 1))
    else with_qp true (deblock_v_chroma_c m (pixuv_of h mbx mby + 2 * e * d_stride h 1) (d_stride h 1)) (tc_of (qp_avg true + d_alpha_offset h) 1 bS).
Proof.
  intros Hj Hn Ho. unfold filter_plane. rewrite pix_addr by done. unfold stride_of. rewrite (proj2 (Z.eqb_neq j 0) Hn). cbn [negb].
  unfold skip_code, xstep, ystep, deblock_h_chroma_intra_c, deblock_v_chroma_intra_c, deblock_h_chroma_c, deblock_v_chroma_c.
  destruct (dir =? 0); rewrite ?Z.mul_1_r; reflexivity.
Qed.

Lemma FILTER_DIR_planes p j : is_plane j -> FILTER_DIR hn intra dir mbx mby (mb_xy_of h nx ny) e bS p j =
  if j =? 0 then filter_plane 0 (p 0) else if Z.odd e then p j else filter_plane j (p j).
Proof.
  intros Hj. unfold FILTER_DIR. cbv zeta. rewrite land_1_odd.
  assert (Q : forall c : bool, ((if c then chroma_qp_table h else id) (d_qp h (mb_xy_of h mbx mby)) + (if c then chroma_qp_table h else id) (d_qp h (mb_xy_of h nx ny)) + 1) >> 1 = qp_avg c).
  { intros c. unfold qp_avg. rewrite shr1. f_equal. lia. }
  pose proof (Q true) as Qc. pose proof (Q false) as Ql. unfold id in Ql. clear Q.
  change (chroma_qp_table hn) with (chroma_qp_table h). change (d_qp hn) with (d_qp h). change (mb_xy_of hn mbx mby) with (mb_xy_of h mbx mby).
  rewrite Qc, Ql. unfold stride2y, stride2uv. change (d_stride hn) with (d_stride h). change (d_mbaff hn) with (d_mbaff h).
  rewrite (ok_progressive _ _ ok), !Z.shiftl_0_r.
  change (pixy_of hn mbx mby) with (pixy_of h mbx mby). change (pixuv_of hn mbx mby) with (pixuv_of h mbx mby).
  rewrite filter_plane_0. destruct (Z.odd e) eqn:Eo; cbn [negb]; destruct intra eqn:Ei, (dir =? 0) eqn:Ed;
    rewrite ?deblock_edge_chroma, ?deblock_edge_intra_chroma, ?deblock_edge_luma, ?deblock_edge_intra_luma by exact Hj;
    destruct (Z.eqb_spec j 0) as [Ej|Hn]; try reflexivity; rewrite ?filter_plane_uv by done; rewrite ?Ei, ?Ed; reflexivity.
Qed.
End Filter.

(** ** One edge in step with the standard *)
Local Abbreviation t8x8 := (i2b (d_transform_size h (mb_xy_of h mbx mby))).
Hypothesis Hodd : t8x8 && Z.odd e = false.

Lemma std_edge_at pics j : std_edge info dir mbx mby e pics j =
  if j =? 0 then std_luma_edge info dir mbx mby e (pics 0) else if Z.odd e then pics j else std_chroma_edge info dir mbx mby e (pics j).
Proof.
  unfold std_edge. cbn [pi_transform_8x8 info_of]. rewrite Hodd.
  replace ((e =? 0) && ((if dir =? 0 then mbx else mby) =? 0)) with false; [done|].
  destruct Hnb as [Nx Ny]. unfold nbx, nby in *. destruct (Z.eqb_spec e 0); [|done].
  destruct Hdir as [->| ->]; cbn [Z.eqb Pos.eqb andb] in *; symmetry; apply Z.eqb_neq; lia.
Qed.

Lemma sees_planes_edge (f : Z -> mem) pics :
  sees (stride_of 0) (width_of 0) (height_of 0) (p0 0) (f 0) (std_luma_edge info dir mbx mby e (pics 0)) ->
  (forall j, j = 1 \/ j = 2 -> sees (stride_of j) (width_of j) (height_of j) (p0 j) (f j)
     (if Z.odd e then pics j else std_chroma_edge info dir mbx mby e (pics j))) ->
  sees_planes f (std_edge info dir mbx mby e pics).
Proof.
  intros H0 H1 j Hj. rewrite std_edge_at. destruct (Z.eqb_spec j 0) as [->|Hn]; [done|]. apply H1. unfold is_plane in Hj. lia.
Qed.

Lemma filter_step intra bS p pics : (forall k, 0 <= k < 16 -> if intra : bool then bS_of k = 4 else bS (k / 4) = bS_of k /\ bS_of k < 4) ->
  sees_planes p pics -> sees_planes (FILTER_DIR hn intra dir mbx mby (mb_xy_of h nx ny) e bS p) (std_edge info dir mbx mby e pics).
Proof.
  intros HbS S. apply sees_planes_edge.
  - rewrite FILTER_DIR_planes by done. by apply filter_plane_luma.
  - intros j Hj. assert (is_plane j) as Hp by (unfold is_plane; lia). rewrite FILTER_DIR_planes by done.
    rewrite (proj2 (Z.eqb_neq j 0)) by lia. destruct (Z.odd e) eqn:Eo; [by apply sees_p|by apply filter_plane_chroma].
Qed.

(** Nothing to filter: no strength, or thresholds that are 0. *)
Definition idle (chroma : bool) : Prop :=
  (forall k, 0 <= k < 16 -> bS_of k = 0) \/ alpha_ chroma <= 0 \/ beta_ chroma <= 0.
Lemma idle_step p pics : idle false -> idle true -> sees_planes p pics -> sees_planes p (std_edge info dir mbx mby e pics).
Proof.
  intros I0 I1 S. apply sees_planes_edge.
  - rewrite std_luma_edge_lines. apply sees_idle_edge; [|by apply sees_p]. intros k Hk. destruct I0 as [I|I]; [left; by apply I|by right].
  - intros j Hj. assert (is_plane j) as Hp by (unfold is_plane; lia). destruct (Z.odd e) eqn:Eo; [by apply sees_p|].
    rewrite (std_chroma_edge_lines j) by (done || lia). apply sees_idle_edge; [|by apply sees_p].
    intros k Hk. destruct I1 as [I|I]; [left; apply I; lia|by right].
Qed.

Lemma bS_word_0 bS : (forall i, 0 <= i < 4 -> 0 <= bS i) -> bS_word bS = 0 -> forall i, 0 <= i < 4 -> bS i = 0.
Proof.
  intros Hp. unfold bS_word. change (seqZ 0 4) with [0; 1; 2; 3]. unfold le_val. cbn [fmap list_fmap foldr]. intros E i Hi.
  pose proof (Hp 0 ltac:(lia)). pose proof (Hp 1 ltac:(lia)). pose proof (Hp 2 ltac:(lia)). pose proof (Hp 3 ltac:(lia)).
  assert (i = 0 \/ i = 1 \/ i = 2 \/ i = 3) as [->|[->|[->| ->]]] by lia; lia.
Qed.

Hypothesis good_cur : counts_good h nnz mbx mby.
Hypothesis good_nbr : counts_good h nnz nx ny.
Local Abbreviation bS_code := (DEBLOCK_STRENGTH hn dir mbx mby (mb_xy_of h nx ny) (mb_8x8_of h nx ny) (mb_4x4_of h nx ny) e).

Lemma strong_step p pics :
  (e = 0 -> IS_INTRA (d_mb_type h (mb_xy_of h mbx mby)) = false /\ IS_INTRA (d_mb_type h (mb_xy_of h nx ny)) = false) ->
  sees_planes p pics ->
  sees_planes (if i2b (bS_word bS_code) then FILTER_DIR hn false dir mbx mby (mb_xy_of h nx ny) e bS_code p else p) (std_edge info dir mbx mby e pics).
Proof.
  intros H0 S.
  assert (B : forall k, 0 <= k < 16 -> bS_code (k / 4) = bS_of k) by (intros k Hk; eapply strength_std; done).
  assert (B4 : forall k, 0 <= k < 16 -> bS_of k < 4).
  { intros k Hk. unfold bS_of, std_bS. repeat case_match; try lia; [|destruct (motion_differs _ _); simpl; lia].
    exfalso. destruct (Z.eqb_spec e 0) as [E0|]; [|done]. destruct (H0 E0) as [I1 I2].
    destruct (places dir mbx mby e Hdir He k Hk) as (Q1 & Q2 & _ & _ & P1 & P2 & _).
    cbn [pi_intra info_of] in *. rewrite Q1, Q2, P1, P2, I1, I2 in *. done. }
  unfold i2b. destruct (Z.eqb_spec (bS_word bS_code) 0) as [E|E]; cbn [negb].
  - assert (Z0 : forall k, 0 <= k < 16 -> bS_of k = 0).
    { intros k Hk. rewrite <- B by done. apply bS_word_0; [|done|Z.to_euclidean_division_equations; lia].
      intros i Hi. pose proof (B (4 * i) ltac:(lia)) as Bi. replace (4 * i / 4) with i in Bi by (Z.to_euclidean_division_equations; lia).
      rewrite Bi. apply bS_range. }
    apply idle_step; [by left|by left|done].
  - apply filter_step; [|done]. intros k Hk. split; [by apply B|by apply B4].
Qed.

Lemma intra_step bS p pics : e = 0 ->
  IS_INTRA (d_mb_type h (mb_xy_of h mbx mby)) || IS_INTRA (d_mb_type h (mb_xy_of h nx ny)) = true ->
  sees_planes p pics -> sees_planes (FILTER_DIR hn true dir mbx mby (mb_xy_of h nx ny) e bS p) (std_edge info dir mbx mby e pics).
Proof.
  intros E0 I S. apply filter_step; [|done]. intros k Hk. unfold bS_of. rewrite std_bS_intra by (done || by apply orb_prop in I). by rewrite E0.
Qed.
End EdgeStep.

(** ** The edges of a macroblock *)
Lemma edge_loop {P} (strong : Z -> P -> P) t n p : t = 0 \/ t = 1 -> n = 1 \/ n = 4 ->
  (for_ 4 0 (fun _ '(p, i_edge) => if i_edge <? n then (strong i_edge p, i_edge + (t + 1)) else (p, i_edge)) (p, 1 + t)).1 =
  if n =? 1 then p else if t =? 0 then strong 3 (strong 2 (strong 1 p)) else strong 2 p.
Proof. intros [->| ->] [->| ->]; reflexivity. Qed.

Section Macroblock.
Context (nnz : Z -> Z -> Z) (mbx mby : Z).
Local Abbreviation hn := (set_nnz h nnz).
Hypothesis Hmb : in_frame h mbx mby.
Local Abbreviation t8x8 := (d_transform_size h (mb_xy_of h mbx mby)).
Hypothesis good : forall mx my, in_frame h mx my -> (mx = mbx /\ my = mby) \/ (mx = mbx - 1 /\ my = mby) \/ (mx = mbx /\ my = mby - 1) ->
  counts_good h nnz mx my.

Definition strong_code (dir e : Z) (p : planes) : planes :=
  let mb_xy := mb_xy_of h mbx mby in
  let bS := DEBLOCK_STRENGTH hn dir mbx mby mb_xy (mb_8x8_of h mbx mby) (mb_4x4_of h mbx mby) e in
  if i2b (bS_word bS) then FILTER_DIR hn false dir mbx mby mb_xy e bS p else p.

Lemma inner_nb dir e : 0 < e -> nbx dir mbx e = mbx /\ nby dir mby e = mby.
Proof. intros He. unfold nbx, nby. rewrite (proj2 (Z.eqb_neq e 0)) by lia. done. Qed.
Lemma inner_step dir e p pics : dir = 0 \/ dir = 1 -> 0 < e < 4 -> i2b t8x8 && Z.odd e = false ->
  sees_planes p pics -> sees_planes (strong_code dir e p) (std_edge info dir mbx mby e pics).
Proof.
  intros Hd He Ho S. destruct (inner_nb dir e ltac:(lia)) as [Ex Ey].
  assert (G : counts_good h nnz mbx mby) by (apply good; auto).
  pose proof (strong_step nnz dir mbx mby e Hd ltac:(lia) Hmb ltac:(by rewrite Ex, Ey) Ho G ltac:(by rewrite Ex, Ey) p pics ltac:(lia) S) as R.
  by rewrite Ex, Ey in R.
Qed.
(** Odd edges inside an 8x8 transform block are not filtered. *)
Lemma odd_skip dir e p pics : 0 < e -> i2b t8x8 && Z.odd e = true -> sees_planes p pics -> sees_planes p (std_edge info dir mbx mby e pics).
Proof.
  intros He Ho S. apply andb_prop in Ho as [H1 H2]. intros j Hj. unfold std_edge.
  rewrite (proj2 (Z.eqb_neq e 0)) by lia. cbn [andb pi_transform_8x8 info_of]. rewrite H1, H2. cbn [andb].
  destruct (Z.eqb_spec j 0) as [->|]; by apply S.
Qed.

(** The inner edges, when the code stops before them. *)
Definition inner_idle : Prop := forall dir e, dir = 0 \/ dir = 1 -> 0 < e < 4 -> idle dir mbx mby e false /\ idle dir mbx mby e true.

Lemma inner_steps dir n p pics : dir = 0 \/ dir = 1 -> n = 4 \/ (n = 1 /\ inner_idle) -> sees_planes p pics ->
  sees_planes (if n =? 1 then p else if t8x8 =? 0 then strong_code dir 3 (strong_code dir 2 (strong_code dir 1 p)) else strong_code dir 2 p)
    (std_edge info dir mbx mby 3 (std_edge info dir mbx mby 2 (std_edge info dir mbx mby 1 pics))).
Proof.
  intros Hd Hn S. destruct (ok_transform _ _ ok mbx mby Hmb) as [Et|[Et _]]; cbv zeta in Et.
  - assert (St : forall e, i2b t8x8 && Z.odd e = false) by (intros e; by rewrite Et).
    destruct Hn as [->|[-> I]]; cbn [Z.eqb Pos.eqb].
    + rewrite Et. cbn [Z.eqb]. repeat (apply inner_step; [done|lia|apply St|]). done.
    + assert (K : forall e q, 0 < e < 4 -> sees_planes p q -> sees_planes p (std_edge info dir mbx mby e q)); [|by repeat (apply K; [lia|])].
      intros e q He Sq. destruct (I dir e Hd He) as [I0 I1]. destruct (inner_nb dir e ltac:(lia)) as [Ex Ey].
      apply idle_step; [done|lia|by rewrite Ex, Ey|apply St|done|done|done].
  - assert (St : i2b t8x8 && Z.odd 2 = false) by (by rewrite Et). assert (Sk : forall e, Z.odd e = true -> i2b t8x8 && Z.odd e = true) by (intros e ->; by rewrite Et).
    destruct Hn as [->|[-> I]]; cbn [Z.eqb Pos.eqb].
    + rewrite Et. cbn [Z.eqb]. apply odd_skip; [lia|by apply Sk|]. apply inner_step; [done|lia|done|]. apply odd_skip; [lia|by apply Sk|done].
    + apply odd_skip; [lia|by apply Sk|]. destruct (I dir 2 Hd ltac:(lia)) as [I0 I1]. destruct (inner_nb dir 2 ltac:(lia)) as [Ex Ey].
      apply idle_step; [done|lia|by rewrite Ex, Ey|done|done|done|]. apply odd_skip; [lia|by apply Sk|done].
Qed.

Lemma DEBLOCK_DIR_step dir n p pics : dir = 0 \/ dir = 1 -> n = 4 \/ (n = 1 /\ inner_idle) -> sees_planes p pics ->
  sees_planes (DEBLOCK_DIR hn dir mbx mby n p) (std_dir info dir mbx mby pics).
Proof.
  intros Hd Hn S. unfold DEBLOCK_DIR. cbv zeta. change (d_mbaff hn) with (d_mbaff h). rewrite (ok_progressive _ _ ok).
  change (mb_xy_of hn mbx mby) with (mb_xy_of h mbx mby). change (d_transform_size hn) with (d_transform_size h).
  change (mb_8x8_of hn mbx mby) with (mb_8x8_of h mbx mby). change (mb_4x4_of hn mbx mby) with (mb_4x4_of h mbx mby).
  change (s8x8 hn) with (s8x8 h). change (s4x4 hn) with (s4x4 h). change (d_mb_stride hn) with (d_mb_stride h). change (d_mb_type hn) with (d_mb_type h).
  change (i2b 0) with false. cbn [andb].
  assert (T : t8x8 = 0 \/ t8x8 = 1) by (destruct (ok_transform _ _ ok mbx mby Hmb) as [Et|[Et _]]; auto).
  assert (N : n = 1 \/ n = 4) by (destruct Hn as [->|[-> _]]; auto).
  change (std_dir info dir mbx mby pics) with
    (std_edge info dir mbx mby 3 (std_edge info dir mbx mby 2 (std_edge info dir mbx mby 1 (std_edge info dir mbx mby 0 pics)))).
  destruct (Z.eqb_spec (if dir =? 0 then mbx else mby) 0) as [E|E].
  - (* at the border of the picture *)
    replace (b2i (if i2b dir then mby <=? 0 else mbx =? 0)) with 1
      by (destruct Hmb as [Mx My]; destruct Hd as [->| ->]; cbn [Z.eqb] in E; [change (i2b 0) with false|change (i2b 1) with true]; cbv iota;
          [by rewrite (proj2 (Z.eqb_eq _ _) E)|by rewrite (proj2 (Z.leb_le mby 0) ltac:(lia))]).
    change (i2b 1) with true. cbv iota.
    match goal with |- sees_planes (for_ 4 0 _ (?p1, _)).1 ?Y =>
      change (sees_planes (for_ 4 0 (fun _ '(p, i_edge) => if i_edge <? n then (strong_code dir i_edge p, i_edge + (t8x8 + 1)) else (p, i_edge)) (p1, 1 + t8x8)).1 Y) end.
    rewrite edge_loop by done.
    apply inner_steps; [done|done|]. intros j Hj. unfold std_edge. rewrite (proj2 (Z.eqb_eq _ _) E). by apply S.
  - replace (b2i (if i2b dir then mby <=? 0 else mbx =? 0)) with 0
      by (destruct Hmb as [Mx My]; destruct Hd as [->| ->]; cbn [Z.eqb Pos.eqb] in E; [change (i2b 0) with false|change (i2b 1) with true]; cbv iota;
          [by rewrite (proj2 (Z.eqb_neq _ _) E)|by rewrite (proj2 (Z.leb_gt mby 0) ltac:(lia))]).
    change (i2b 0) with false. cbv iota. replace (0 + (t8x8 + 1)) with (1 + t8x8) by lia.
    match goal with |- sees_planes (for_ 4 0 _ (?p1, _)).1 ?Y =>
      change (sees_planes (for_ 4 0 (fun _ '(p, i_edge) => if i_edge <? n then (strong_code dir i_edge p, i_edge + (t8x8 + 1)) else (p, i_edge)) (p1, 1 + t8x8)).1 Y) end.
    rewrite edge_loop by done.
    apply inner_steps; [done|done|].
    assert (Hf : in_frame h (nbx dir mbx 0) (nby dir mby 0)).
    { destruct Hmb as [Mx My]. unfold nbx, nby, in_frame. destruct Hd as [->| ->]; cbn [Z.eqb Pos.eqb andb] in *; lia. }
    assert (G : counts_good h nnz (nbx dir mbx 0) (nby dir mby 0)).
    { apply good; [done|]. unfold nbx, nby. destruct Hd as [->| ->]; cbn [Z.eqb Pos.eqb andb]; auto. }
    assert (Gc : counts_good h nnz mbx mby) by (apply good; auto).
    assert (M : (if dir =? 0 then mb_xy_of h mbx mby - 1 else mb_xy_of h mbx mby - d_mb_stride h) = mb_xy_of h (nbx dir mbx 0) (nby dir mby 0) /\
      (if dir =? 0 then mb_8x8_of h mbx mby - 2 else mb_8x8_of h mbx mby - 2 * s8x8 h) = mb_8x8_of h (nbx dir mbx 0) (nby dir mby 0) /\
      (if dir =? 0 then mb_4x4_of h mbx mby - 4 else mb_4x4_of h mbx mby - 4 * s4x4 h) = mb_4x4_of h (nbx dir mbx 0) (nby dir mby 0)).
    { unfold mb_xy_of, mb_8x8_of, mb_4x4_of, nbx, nby. destruct Hd as [->| ->]; cbn [Z.eqb Pos.eqb andb]; lia. }
    destruct M as (-> & -> & ->).
    destruct (IS_INTRA (d_mb_type h (mb_xy_of h mbx mby)) || IS_INTRA (d_mb_type h (mb_xy_of h (nbx dir mbx 0) (nby dir mby 0)))) eqn:I.
    + apply intra_step; [done|lia|done|done|by rewrite andb_false_r|done|done|done].
    + apply strong_step; [done|lia|done|done|by rewrite andb_false_r|done|done| |done].
      intros _. by apply orb_false_elim in I.
Qed.

(** Where the code stops after the first edges: skipped macroblocks, and quantisers below
    the threshold. *)
Lemma skip_idle : d_mb_type h (mb_xy_of h mbx mby) = P_SKIP -> inner_idle.
Proof.
  intros Hs dir e Hd He. destruct (ok_skip _ _ ok mbx mby Hmb Hs) as [Hc Hm].
  assert (Z0 : forall k, 0 <= k < 16 -> bS_of dir mbx mby e k = 0); [|split; by left].
  intros k Hk. assert (0 <= k / 4 < 4) as Hk4 by (Z.to_euclidean_division_equations; lia).
  unfold bS_of, std_bS. destruct (places dir mbx mby e Hd ltac:(lia) k Hk) as (Q1 & Q2 & Q3 & Q4 & P1 & P2 & P3 & P4).
  destruct (inner_nb dir e ltac:(lia)) as [Ex Ey]. rewrite Ex, Ey in *.
  cbn [pi_intra pi_coded pi_motion info_of]. rewrite Q1, Q2, Q3, Q4, P1, P2, P3, P4, Hs. change (IS_INTRA P_SKIP) with false. cbn [orb].
  assert (C : forall x y, block_in x y -> coded_of h (4 * mbx + x) (4 * mby + y) = false).
  { intros x y [Hx Hy]. unfold coded_of. cbv zeta. unfold mb_of.
    replace ((4 * mbx + x) / 4) with mbx by (Z.to_euclidean_division_equations; lia).
    replace ((4 * mby + y) / 4) with mby by (Z.to_euclidean_division_equations; lia).
    replace ((4 * mbx + x) mod 4) with x by (Z.to_euclidean_division_equations; lia).
    replace ((4 * mby + y) mod 4) with y by (Z.to_euclidean_division_equations; lia).
    assert (0 <= 2 * (x / 2) <= 2 /\ 0 <= 2 * (y / 2) <= 2) as [Bx By] by (Z.to_euclidean_division_equations; lia).
    destruct (i2b _); rewrite !Hc by (unfold block_in; lia); done. }
  rewrite !C by (first [apply block_cur; lia | apply block_nbr; lia]). cbn [orb].
  rewrite (motion_of_same pic_of h _ _ (4 * mbx + (cur dir e (k / 4)).1) (4 * mby + (cur dir e (k / 4)).2)).
  2: { apply Hm; [by apply block_nbr|apply block_cur; [lia|done]]. }
  rewrite motion_differs_refl; [done|exact (ok_pics _ _ ok)|].
  apply (ok_block pic_of); [done|done|apply block_cur; [lia|done]|by rewrite Hs].
Qed.

Lemma low_alpha i : -12 <= i < 64 -> i <= 15 -> alpha_of i <= 0 /\ beta_of i <= 0.
Proof.
  intros Hi Hl. assert (all_range (-12) 28 (fun i => (alpha_of i <=? 0) && (beta_of i <=? 0)) = true) as A by (vm_compute; reflexivity).
  pose proof (all_range_spec _ _ _ i A ltac:(lia)) as E. cbv beta in E. lia.
Qed.
Lemma thresh_idle : d_qp h (mb_xy_of h mbx mby) <= qp_thresh h -> inner_idle.
Proof.
  intros Hq dir e Hd He. destruct (inner_nb dir e ltac:(lia)) as [Ex Ey]. unfold qp_thresh in Hq.
  pose proof (ok_qp _ _ ok mbx mby Hmb) as Q. pose proof (ok_offset_a _ _ ok). pose proof (ok_offset_b _ _ ok). pose proof (ok_offset_c _ _ ok).
  assert (K : forall chroma, qp_avg dir mbx mby e chroma <= d_qp h (mb_xy_of h mbx mby) + Z.max 0 (d_chroma_offset h)).
  { intros chroma. unfold qp_avg. rewrite Ex, Ey. destruct chroma; cbv zeta; unfold id;
      [pose proof (chroma_qp_range _ Q)|]; Z.to_euclidean_division_equations; lia. }
  assert (R : forall chroma, 0 <= qp_avg dir mbx mby e chroma <= 51) by (intros; apply qp_avg_range; try done; try lia; by rewrite Ex, Ey).
  assert (T : forall chroma, idle dir mbx mby e chroma); [|by split].
  intros chroma. specialize (K chroma). specialize (R chroma).
  right. destruct (Z.le_ge_cases (d_alpha_offset h) (d_beta_offset h)); [left|right]; apply low_alpha; lia.
Qed.

Lemma deblock_mb_step p pics : sees_planes p pics -> sees_planes (deblock_mb hn mbx mby p) (std_mb info mbx mby pics).
Proof.
  intros S. unfold deblock_mb, std_mb. cbv zeta. change (mb_xy_of hn mbx mby) with (mb_xy_of h mbx mby).
  change (d_mb_type hn) with (d_mb_type h). change (d_qp hn) with (d_qp h). change (qp_thresh hn) with (qp_thresh h).
  set (n := if d_qp h (mb_xy_of h mbx mby) <=? qp_thresh h then 1 else if d_mb_type h (mb_xy_of h mbx mby) =? P_SKIP then 1 else 4).
  assert (N : n = 4 \/ (n = 1 /\ inner_idle)).
  { unfold n. destruct (Z.leb_spec (d_qp h (mb_xy_of h mbx mby)) (qp_thresh h)); [right; split; [done|by apply thresh_idle]|].
    destruct (Z.eqb_spec (d_mb_type h (mb_xy_of h mbx mby)) P_SKIP); [right; split; [done|by apply skip_idle]|by left]. }
  apply DEBLOCK_DIR_step; [by right|done|]. apply DEBLOCK_DIR_step; [by left|done|done].
Qed.
End Macroblock.

(** ** Rows *)
Lemma row_loop (f : Z -> Z -> planes -> planes) w mb_y p : 0 <= w ->
  (for_ (Z.to_nat (2 * w)) 0 (fun _ '(mb_x, mb_y, p) =>
     if mb_x <? w then (mb_x + ((Z.lnot 0 .| mb_y) .& 1), mb_y .^ 0, f mb_x mb_y p) else (mb_x, mb_y, p)) (0, mb_y, p)).2 =
  for_ (Z.to_nat w) 0 (fun mb_x => f mb_x mb_y) p.
Proof.
  intros Hw. set (body := fun (_ : Z) '(mb_x, mb_y, p) => if mb_x <? w then _ else _).
  assert (A : forall n, (n <= Z.to_nat w)%nat -> for_ n 0 body (0, mb_y, p) = (Z.of_nat n, mb_y, for_ n 0 (fun mb_x => f mb_x mb_y) p)).
  { induction n as [|n IH]; intros Hn; [done|]. rewrite for_snoc, IH, for_snoc by lia. unfold body.
    rewrite (proj2 (Z.ltb_lt _ _)) by lia. change (Z.lnot 0) with (-1). rewrite Z.lor_m1_l, Z.lxor_0_r. change (-1 .& 1) with 1. rewrite Z.add_0_l.
    by replace (Z.of_nat (Datatypes.S n)) with (Z.of_nat n + 1) by lia. }
  replace (Z.to_nat (2 * w)) with (Z.to_nat w + Z.to_nat w)%nat by lia.
  rewrite for_app, A by lia. rewrite Z2Nat.id by lia.
  rewrite (for_ext _ _ body (fun _ s => if s.1.1 <? w then body 0 s else s)) by (intros i [[x y] q] Hi; unfold body; cbn [fst snd]; by destruct (x <? w)).
  assert (B : forall n lo, for_ n lo (fun _ (s : Z * Z * planes) => if s.1.1 <? w then body 0 s else s) (w, mb_y, for_ (Z.to_nat w) 0 (fun mb_x => f mb_x mb_y) p) =
    (w, mb_y, for_ (Z.to_nat w) 0 (fun mb_x => f mb_x mb_y) p)).
  { induction n as [|n IH]; intros lo; cbn [for_ fst snd]; [done|]. rewrite (proj2 (Z.ltb_ge w w)) by lia. apply IH. }
  by rewrite B.
Qed.

Lemma deblock_row_step nnz mby p pics : 0 <= mby < d_height h ->
  (forall mx my, in_frame h mx my -> my = mby \/ my = mby - 1 -> counts_good h nnz mx my) ->
  sees_planes p pics ->
  sees_planes (deblock_row_loop (set_nnz h nnz) mby p) (for_ (Z.to_nat (d_width h)) 0 (fun mbx => std_mb info mbx mby) pics).
Proof.
  intros Hy G S. unfold deblock_row_loop. change (d_width (set_nnz h nnz)) with (d_width h). change (d_mbaff (set_nnz h nnz)) with (d_mbaff h).
  rewrite (ok_progressive _ _ ok). rewrite (row_loop (deblock_mb (set_nnz h nnz))) by apply (ok_width _ _ ok).
  apply for_sim; [done|]. intros x p1 pics1 Hx S1. apply deblock_mb_step; [unfold in_frame; lia| |done].
  intros mx my Hf Hc. apply G; [done|lia].
Qed.
End Correct.
