(* ===== verification/DeblockTheorem.v ===== *)
(** * Deblocking: the theorem

    The counts of coefficients that the filter of a CAVLC stream with 8x8 transforms sees,
    and the equality of the frame filter with the process of the standard. *)
From S2P Require Import Prelude Mb Deblock DeblockStd DeblockLine DeblockFrame DeblockMb DeblockCorrect.

(** ** Counts per 8x8 block *)
Lemma set_nnz_word_at nnz i v j : set_nnz_word nnz i v j = if (4 * i <=? j) && (j <? 4 * i + 4) then nth (Z.to_nat (j - 4 * i)) (le_bytes 4 v) 0 else nnz j.
Proof.
  unfold set_nnz_word. cbn [for_]. change (0 + 1) with 1. change (1 + 1) with 2. change (2 + 1) with 3. unfold upd.
  destruct (Z.eqb_spec j (4 * i + 3)) as [->|]; [rewrite in_range_b by lia; do 2 f_equal; lia|].
  destruct (Z.eqb_spec j (4 * i + 2)) as [->|]; [rewrite in_range_b by lia; do 2 f_equal; lia|].
  destruct (Z.eqb_spec j (4 * i + 1)) as [->|]; [rewrite in_range_b by lia; do 2 f_equal; lia|].
  destruct (Z.eqb_spec j (4 * i + 0)) as [->|]; [rewrite in_range_b by lia; do 2 f_equal; lia|].
  by rewrite out_range_b by lia.
Qed.
Lemma nnz_word_halves nnz i : (forall j, 0 <= nnz j < 256) ->
  u16 (nnz_word nnz i) = nnz (4 * i) + 256 * nnz (4 * i + 1) /\ nnz_word nnz i >> 16 = nnz (4 * i + 2) + 256 * nnz (4 * i + 3).
Proof.
  intros B. unfold nnz_word. change (seqZ 0 4) with [0; 1; 2; 3]. cbn [fmap list_fmap]. unfold le_val. cbn [foldr]. rewrite Z.add_0_r.
  pose proof (B (4 * i)). pose proof (B (4 * i + 1)). pose proof (B (4 * i + 2)). pose proof (B (4 * i + 3)).
  rewrite Z.shiftr_div_pow2 by lia. unfold uw. change (2 ^ 16) with 65536. Z.to_euclidean_division_equations. lia.
Qed.
Lemma u16_lor a b : u16 (a .| b) = u16 a .| u16 b.
Proof. unfold uw. rewrite <- !Z.land_ones by lia. apply Z.land_lor_distr_l. Qed.
Lemma i2b_lor a b : i2b (a .| b) = i2b a || i2b b.
Proof.
  unfold i2b. destruct (Z.eqb_spec (a .| b) 0) as [E|E].
  - apply Z.lor_eq_0_iff in E as [-> ->]. done.
  - destruct (Z.eqb_spec a 0) as [->|]; [|done]. destruct (Z.eqb_spec b 0) as [->|]; [|done]. done.
Qed.
Lemma i2b_bytes a b : 0 <= a < 256 -> 0 <= b < 256 -> i2b (a + 256 * b) = i2b a || i2b b.
Proof. intros. unfold i2b. destruct (Z.eqb_spec (a + 256 * b) 0), (Z.eqb_spec a 0), (Z.eqb_spec b 0); try done; lia. Qed.

(** One pair of rows: whether a column of 8x8 has a count. *)
Definition pair_any (nnz : Z -> Z) (i half : Z) : bool :=
  i2b (nnz (4 * i + 2 * half)) || i2b (nnz (4 * i + 2 * half + 1)) || i2b (nnz (4 * (i + 1) + 2 * half)) || i2b (nnz (4 * (i + 1) + 2 * half + 1)).
Definition munge_pair (i : Z) (nnz : Z -> Z) : Z -> Z :=
  let n := nnz_word nnz i .| nnz_word nnz (i + 1) in
  let v := (if i2b (u16 n) then 0x0101 else 0) + (if i2b (n >> 16) then 0x01010000 else 0) in
  set_nnz_word (set_nnz_word nnz i v) (i + 1) v.
Lemma munge_mb_pairs nnz : munge_mb nnz = munge_pair 2 (munge_pair 0 nnz). Proof. done. Qed.

Lemma munge_pair_at i nnz j : (forall j, 0 <= nnz j < 256) ->
  munge_pair i nnz j = if (4 * i <=? j) && (j <? 4 * i + 8) then b2i (pair_any nnz i ((j / 2) mod 2)) else nnz j.
Proof.
  intros B. unfold munge_pair. cbv zeta. rewrite u16_lor, Z.shiftr_lor, !i2b_lor.
  destruct (nnz_word_halves nnz i B) as [-> ->], (nnz_word_halves nnz (i + 1) B) as [-> ->]. rewrite !i2b_bytes by apply B.
  rewrite !set_nnz_word_at.
  assert (P0 : pair_any nnz i 0 = (i2b (nnz (4 * i)) || i2b (nnz (4 * i + 1)) || (i2b (nnz (4 * (i + 1))) || i2b (nnz (4 * (i + 1) + 1))))).
  { unfold pair_any. rewrite Z.mul_0_r, !Z.add_0_r. by rewrite <- !orb_assoc. }
  assert (P1 : pair_any nnz i 1 = (i2b (nnz (4 * i + 2)) || i2b (nnz (4 * i + 3)) || (i2b (nnz (4 * (i + 1) + 2)) || i2b (nnz (4 * (i + 1) + 3))))).
  { unfold pair_any. rewrite <- !Z.add_assoc. by rewrite <- !orb_assoc. }
  rewrite <- P0, <- P1. set (v := (if pair_any nnz i 0 then 0x0101 else 0) + (if pair_any nnz i 1 then 0x01010000 else 0)).
  assert (V : forall k, 0 <= k < 4 -> nth (Z.to_nat k) (le_bytes 4 v) 0 = b2i (pair_any nnz i (k / 2))).
  { intros k Hk. unfold v. assert (k = 0 \/ k = 1 \/ k = 2 \/ k = 3) as [->|[->|[->| ->]]] by lia;
      [change (0 / 2) with 0|change (1 / 2) with 0|change (2 / 2) with 1|change (3 / 2) with 1];
      by destruct (pair_any nnz i 0), (pair_any nnz i 1). }
  destruct (Z.le_gt_cases (4 * (i + 1)) j), (Z.lt_ge_cases j (4 * (i + 1) + 4)), (Z.le_gt_cases (4 * i) j).
  all: rewrite ?(in_range_b (4 * (i + 1)) (4 * (i + 1) + 4)) by lia; rewrite ?(out_range_b (4 * (i + 1)) (4 * (i + 1) + 4)) by lia.
  all: rewrite ?(in_range_b (4 * i) (4 * i + 4)) by lia; rewrite ?(out_range_b (4 * i) (4 * i + 4)) by lia.
  all: rewrite ?(in_range_b (4 * i) (4 * i + 8)) by lia; rewrite ?(out_range_b (4 * i) (4 * i + 8)) by lia; try done; try lia.
  all: rewrite V by lia; do 2 f_equal; Z.to_euclidean_division_equations; lia.
Qed.

(** The counts of a macroblock after both pairs. *)
Lemma munge_mb_at nnz j : (forall j, 0 <= nnz j < 256) ->
  munge_mb nnz j = if (0 <=? j) && (j <? 16) then b2i (pair_any nnz (2 * (j / 8)) ((j / 2) mod 2)) else nnz j.
Proof.
  intros B. rewrite munge_mb_pairs.
  assert (B0 : forall k, 0 <= munge_pair 0 nnz k < 256).
  { intros k. rewrite munge_pair_at by done. destruct (_ && _); [|done]. destruct (pair_any _ _ _); cbn [b2i]; lia. }
  rewrite munge_pair_at, (munge_pair_at 0) by done.
  destruct (Z.lt_ge_cases j 0), (Z.lt_ge_cases j 8), (Z.lt_ge_cases j 16); try lia.
  - by rewrite !out_range_b by lia.
  - rewrite out_range_b, !in_range_b by lia. by replace (j / 8) with 0 by (Z.to_euclidean_division_equations; lia).
  - rewrite !in_range_b by lia. replace (j / 8) with 1 by (Z.to_euclidean_division_equations; lia). f_equal. unfold pair_any.
    pose proof (Z.mod_pos_bound (j / 2) 2 ltac:(lia)). rewrite !munge_pair_at by done. by rewrite !out_range_b by lia.
  - by rewrite !out_range_b by lia.
Qed.

Lemma set_mb_eq t mb f i : set_mb t mb f i = if i =? mb then f else t i. Proof. done. Qed.

(** ** Rows of counts *)
Section Rows.
Context (h : deblock_t).
Hypothesis Hw : 0 <= d_width h.
Local Abbreviation w := (d_width h).
Definition in_row (mb_y mb : Z) : bool := (mb_y * w <=? mb) && (mb <? mb_y * w + w).
Definition munged (nnz : nnz_table) (mb : Z) : Z -> Z := if i2b (d_transform_size h mb) then munge_mb (nnz mb) else nnz mb.

Lemma munge_row_at mb_y buf (nnz bak : nnz_table) :
  (forall mb, (munge_cavlc_nnz_row h mb_y buf (nnz, bak)).1 mb = if in_row mb_y mb then munged nnz mb else nnz mb) /\
  (forall k, (munge_cavlc_nnz_row h mb_y buf (nnz, bak)).2 k = if (buf <=? k) && (k <? buf + w) then nnz (mb_y * w + (k - buf)) else bak k).
Proof.
  unfold munge_cavlc_nnz_row, in_row. set (body := fun x '(nnz, bak) => _).
  enough (A : forall n, (forall mb, (for_ n 0 body (nnz, bak)).1 mb = if (mb_y * w <=? mb) && (mb <? mb_y * w + Z.of_nat n) then munged nnz mb else nnz mb) /\
    (forall k, (for_ n 0 body (nnz, bak)).2 k = if (buf <=? k) && (k <? buf + Z.of_nat n) then nnz (mb_y * w + (k - buf)) else bak k)).
  { specialize (A (Z.to_nat w)). by rewrite Z2Nat.id in A by done. }
  induction n as [|n [IH1 IH2]]; [split; intros; cbn [for_ fst snd]; by rewrite out_range_b by lia|].
  rewrite for_snoc, Z.add_0_l. destruct (for_ n 0 body (nnz, bak)) as [t u]. cbn [fst snd] in *. unfold body. cbn [fst snd]. split.
  - intros mb. destruct (Z.eq_dec mb (mb_y * w + Z.of_nat n)) as [->|Hne].
    + rewrite in_range_b by lia. assert (T : t (mb_y * w + Z.of_nat n) = nnz (mb_y * w + Z.of_nat n)) by (rewrite IH1; by rewrite out_range_b by lia).
      unfold munged. destruct (i2b _); [|done]. rewrite set_mb_eq, Z.eqb_refl. by rewrite T.
    + transitivity (t mb); [destruct (i2b _); [|done]; rewrite set_mb_eq; by rewrite (proj2 (Z.eqb_neq _ _) Hne)|]. rewrite IH1.
      destruct (decide (mb_y * w <= mb < mb_y * w + Z.of_nat n)); [by rewrite !in_range_b by lia|by rewrite !out_range_b by lia].
  - intros k. rewrite set_mb_eq. destruct (Z.eqb_spec k (buf + Z.of_nat n)) as [->|Hne].
    + rewrite in_range_b by lia. rewrite IH1, out_range_b by lia. f_equal. lia.
    + rewrite IH2. destruct (decide (buf <= k < buf + Z.of_nat n)); [by rewrite !in_range_b by lia|by rewrite !out_range_b by lia].
Qed.

Lemma restore_row_at mb_y buf (nnz bak : nnz_table) :
  (forall mb, (restore_cavlc_nnz_row h mb_y buf (nnz, bak)).1 mb =
     if in_row mb_y mb then (fun i => if (0 <=? i) && (i <? 16) then bak (buf + (mb - mb_y * w)) i else nnz mb i) else nnz mb) /\
  (restore_cavlc_nnz_row h mb_y buf (nnz, bak)).2 = bak.
Proof.
  unfold restore_cavlc_nnz_row, in_row. set (body := fun x '(nnz, bak) => _).
  enough (A : forall n, (forall mb, (for_ n 0 body (nnz, bak)).1 mb = if (mb_y * w <=? mb) && (mb <? mb_y * w + Z.of_nat n)
      then (fun i => if (0 <=? i) && (i <? 16) then bak (buf + (mb - mb_y * w)) i else nnz mb i) else nnz mb) /\ (for_ n 0 body (nnz, bak)).2 = bak).
  { specialize (A (Z.to_nat w)). by rewrite Z2Nat.id in A by done. }
  induction n as [|n [IH1 IH2]]; [split; intros; cbn [for_ fst snd]; [by rewrite out_range_b by lia|done]|].
  rewrite for_snoc, Z.add_0_l. destruct (for_ n 0 body (nnz, bak)) as [t u]. cbn [fst snd] in *. subst u. unfold body. cbn [fst snd]. split; [|done].
  intros mb. rewrite set_mb_eq. destruct (Z.eqb_spec mb (mb_y * w + Z.of_nat n)) as [->|Hne].
  - rewrite in_range_b by lia. rewrite IH1, out_range_b by lia. by replace (mb_y * w + Z.of_nat n - mb_y * w) with (Z.of_nat n) by lia.
  - rewrite IH1. destruct (decide (mb_y * w <= mb < mb_y * w + Z.of_nat n)); [by rewrite !in_range_b by lia|by rewrite !out_range_b by lia].
Qed.

(** Both rows that a row of the filter reads. *)
Hypothesis Hp : d_mbaff h = 0.
Definition in_rows (mb_y mb : Z) : bool := in_row mb_y mb || ((mb_y >? 0) && in_row (mb_y - 1) mb).
Lemma rows_disjoint mb_y mb : in_row mb_y mb = true -> in_row (mb_y - 1) mb = false.
Proof. unfold in_row. intros E. apply out_range_b. lia. Qed.

Lemma munge_rows mb_y (nnz bak : nnz_table) :
  (forall mb, (munge_cavlc_nnz h mb_y munge_cavlc_nnz_row (nnz, bak)).1 mb = if in_rows mb_y mb then munged nnz mb else nnz mb) /\
  (forall k, 0 <= k < w -> (munge_cavlc_nnz h mb_y munge_cavlc_nnz_row (nnz, bak)).2 k = nnz (mb_y * w + k)) /\
  (0 < mb_y -> forall k, 0 <= k < w -> (munge_cavlc_nnz h mb_y munge_cavlc_nnz_row (nnz, bak)).2 (w + k) = nnz ((mb_y - 1) * w + k)).
Proof.
  unfold munge_cavlc_nnz, in_rows. rewrite Hp. change (i2b 0) with false. cbv zeta iota.
  destruct (munge_row_at mb_y 0 nnz bak) as [A1 A2]. destruct (munge_cavlc_nnz_row h mb_y 0 (nnz, bak)) as [t u]. cbn [fst snd] in *.
  rewrite Z.gtb_ltb. destruct (Z.ltb_spec 0 mb_y) as [Hy|Hy]; cbn [andb].
  - destruct (munge_row_at (mb_y - 1) w t u) as [B1 B2]. destruct (munge_cavlc_nnz_row h (mb_y - 1) w (t, u)) as [t' u']. cbn [fst snd] in *.
    assert (T : forall mb, in_row (mb_y - 1) mb = true -> t mb = nnz mb).
    { intros mb E. rewrite A1. destruct (in_row mb_y mb) eqn:E'; [|done]. apply rows_disjoint in E'. congruence. }
    split; [|split].
    + intros mb. rewrite B1. destruct (in_row (mb_y - 1) mb) eqn:E.
      * rewrite orb_true_r. unfold munged. by rewrite T.
      * rewrite orb_false_r. apply A1.
    + intros k Hk. rewrite B2, out_range_b, A2, in_range_b by lia. f_equal. lia.
    + intros _ k Hk. rewrite B2, in_range_b by lia. rewrite T; [f_equal; lia|]. unfold in_row. apply in_range_b. lia.
  - split; [|split]; [intros mb; rewrite orb_false_r; apply A1| |lia].
    intros k Hk. rewrite A2, in_range_b by lia. f_equal. lia.
Qed.
Lemma restore_rows mb_y (nnz bak : nnz_table) mb i :
  (restore_cavlc_nnz_row h mb_y 0 (nnz, bak)).2 = bak ->
  (munge_cavlc_nnz h mb_y restore_cavlc_nnz_row (nnz, bak)).1 mb i =
  if (0 <=? i) && (i <? 16) then
    if in_row mb_y mb then bak (mb - mb_y * w) i
    else if (mb_y >? 0) && in_row (mb_y - 1) mb then bak (w + (mb - (mb_y - 1) * w)) i else nnz mb i
  else nnz mb i.
Proof.
  intros _. unfold munge_cavlc_nnz. rewrite Hp. change (i2b 0) with false. cbv zeta iota.
  destruct (restore_row_at mb_y 0 nnz bak) as [A1 A2]. destruct (restore_cavlc_nnz_row h mb_y 0 (nnz, bak)) as [t u]. cbn [fst snd] in *. subst u.
  rewrite Z.gtb_ltb. destruct (Z.ltb_spec 0 mb_y) as [Hy|Hy]; cbn [andb].
  - destruct (restore_row_at (mb_y - 1) w t bak) as [B1 B2]. rewrite B1, A1.
    destruct (in_row mb_y mb) eqn:E; [rewrite (rows_disjoint _ _ E)|destruct (in_row (mb_y - 1) mb)]; cbv beta; by destruct (_ && _).
  - cbn [fst]. rewrite A1. destruct (in_row mb_y mb); by destruct (_ && _).
Qed.

(** Nothing is left of the change. *)
Lemma munge_restore mb_y (nnz bak : nnz_table) mb i : (forall mb i, 0 <= nnz mb i < 256) ->
  (munge_cavlc_nnz h mb_y restore_cavlc_nnz_row (munge_cavlc_nnz h mb_y munge_cavlc_nnz_row (nnz, bak))).1 mb i = nnz mb i.
Proof.
  intros B. generalize (munge_rows mb_y nnz bak).
  destruct (munge_cavlc_nnz h mb_y munge_cavlc_nnz_row (nnz, bak)) as [t u]. cbn [fst snd]. intros (M1 & M2 & M3).
  rewrite restore_rows by apply restore_row_at. rewrite M1.
  assert (O : (0 <=? i) && (i <? 16) = false -> munged nnz mb i = nnz mb i).
  { intros E. unfold munged. destruct (i2b _); [|done]. rewrite munge_mb_at by apply B. by rewrite E. }
  destruct ((0 <=? i) && (i <? 16)); [|destruct (in_rows mb_y mb); [by apply O|done]].
  unfold in_rows. destruct (in_row mb_y mb) eqn:E1.
  - unfold in_row in E1. rewrite M2 by lia. do 2 f_equal. lia.
  - destruct (mb_y >? 0) eqn:Ey; cbn [orb andb]; [|done]. destruct (in_row (mb_y - 1) mb) eqn:E2; [|done].
    unfold in_row in E2. rewrite M3 by lia. do 2 f_equal. lia.
Qed.
End Rows.

(** ** The frame *)
Section Theorem_.
Context (pic_of : Z -> Z -> Z) (h : deblock_t).
Hypothesis ok : deblock_ok pic_of h.

Lemma pair_any_block nnz x y : pair_any nnz (2 * (y / 2)) (x / 2) =
  i2b (nnz (2 * (x / 2) + 2 * (y / 2) * 4)) || i2b (nnz (2 * (x / 2) + 1 + 2 * (y / 2) * 4)) ||
  i2b (nnz (2 * (x / 2) + (2 * (y / 2) + 1) * 4)) || i2b (nnz (2 * (x / 2) + 1 + (2 * (y / 2) + 1) * 4)).
Proof. unfold pair_any. f_equal; [f_equal; [f_equal|]|]; do 2 f_equal; lia. Qed.
Lemma coded_of_at mx my x y : block_in x y -> coded_of h (4 * mx + x) (4 * my + y) =
  if i2b (d_transform_size h (mb_xy_of h mx my)) then pair_any (d_nnz h (mb_xy_of h mx my)) (2 * (y / 2)) (x / 2)
  else has_coeffs h (mb_xy_of h mx my) x y.
Proof.
  intros [Hx Hy]. unfold coded_of. cbv zeta. unfold mb_of.
  replace ((4 * mx + x) / 4) with mx by (Z.to_euclidean_division_equations; lia).
  replace ((4 * my + y) / 4) with my by (Z.to_euclidean_division_equations; lia).
  replace ((4 * mx + x) mod 4) with x by (Z.to_euclidean_division_equations; lia).
  replace ((4 * my + y) mod 4) with y by (Z.to_euclidean_division_equations; lia).
  destruct (i2b _); [|done]. by rewrite pair_any_block.
Qed.

(** The counts are good for the filter in each way of coding. *)
Lemma good_plain (nnz : nnz_table) mx my : (forall mb i, nnz mb i = d_nnz h mb i) -> in_frame h mx my ->
  d_cabac h = true \/ d_transform_8x8_mode h = false -> counts_good h nnz mx my.
Proof.
  intros E Hf C x y Hb. rewrite coded_of_at by done. rewrite E. fold (has_coeffs h (mb_xy_of h mx my) x y).
  destruct (i2b (d_transform_size h (mb_xy_of h mx my))) eqn:Et; [|done].
  destruct C as [C|C].
  - destruct Hb as [Hx Hy].
    assert (P : forall x' y', block_in x' y' -> x' / 2 = x / 2 -> y' / 2 = y / 2 -> i2b (d_nnz h (mb_xy_of h mx my) (x' + y' * 4)) = has_coeffs h (mb_xy_of h mx my) x y).
    { intros x' y' Hb' Ex Ey. change (has_coeffs h (mb_xy_of h mx my) x' y' = has_coeffs h (mb_xy_of h mx my) x y).
      rewrite (ok_cabac _ _ ok C mx my x' y' Hf Hb' Et), (ok_cabac _ _ ok C mx my x y Hf ltac:(done) Et). by rewrite Ex, Ey. }
    rewrite pair_any_block.
    rewrite !P by (unfold block_in; Z.to_euclidean_division_equations; lia). by destruct (has_coeffs _ _ _ _).
  - destruct (ok_transform _ _ ok mx my Hf) as [T|[_ T]]; [|congruence]. cbv zeta in T. rewrite T in Et. done.
Qed.
Lemma good_munged (nnz : nnz_table) mb_y mx my : (forall mb i, nnz mb i = d_nnz h mb i) -> in_frame h mx my -> 0 <= mb_y -> my = mb_y \/ my = mb_y - 1 ->
  counts_good h (munge_cavlc_nnz h mb_y munge_cavlc_nnz_row (nnz, no_backup)).1 mx my.
Proof.
  intros E Hf Hy Hmy x y Hb. rewrite coded_of_at by done. destruct (munge_rows h (ok_width _ _ ok) (ok_progressive _ _ ok) mb_y nnz no_backup) as (M1 & _).
  rewrite M1. replace (in_rows h mb_y (mb_xy_of h mx my)) with true.
  2: { symmetry. unfold in_rows, in_row, mb_xy_of. rewrite (ok_mb_stride _ _ ok). destruct Hf as [Fx Fy]. destruct Hmy as [->| ->].
       - apply orb_true_iff. left. apply in_range_b. lia.
       - apply orb_true_iff. right. apply andb_true_iff. split; [|apply in_range_b; lia]. rewrite Z.gtb_ltb. apply Z.ltb_lt. lia. }
  unfold munged. destruct (i2b (d_transform_size h (mb_xy_of h mx my))); [|unfold has_coeffs; by rewrite E].
  rewrite munge_mb_at by (intros; rewrite E; apply (ok_nnz _ _ ok)). destruct Hb as [Hx Hy'].
  rewrite in_range_b by lia. replace ((x + y * 4) / 8) with (y / 2) by (Z.to_euclidean_division_equations; lia).
  replace ((x + y * 4) / 2 mod 2) with (x / 2) by (Z.to_euclidean_division_equations; lia).
  transitivity (pair_any (nnz (mb_xy_of h mx my)) (2 * (y / 2)) (x / 2)); [by destruct (pair_any _ _ _)|].
  unfold pair_any. by rewrite !E.
Qed.

Lemma deblock_row_std p0 mby (nnz : nnz_table) p pics : 0 <= mby < d_height h -> (forall mb i, nnz mb i = d_nnz h mb i) -> sees_planes h p0 p pics ->
  (forall mb i, (x264_frame_deblock_row h mby (nnz, p)).1 mb i = d_nnz h mb i) /\
  sees_planes h p0 (x264_frame_deblock_row h mby (nnz, p)).2 (for_ (Z.to_nat (d_width h)) 0 (fun mbx => std_mb (info_of pic_of h) mbx mby) pics).
Proof.
  intros Hy E S. unfold x264_frame_deblock_row. cbv zeta. cbn [fst snd].
  destruct (negb (d_cabac h) && d_transform_8x8_mode h) eqn:M.
  - pose proof (good_munged nnz mby) as G.
    pose proof (fun mb i => munge_restore h (ok_width _ _ ok) (ok_progressive _ _ ok) mby nnz no_backup mb i ltac:(intros; rewrite E; apply (ok_nnz _ _ ok))) as R.
    revert G R. destruct (munge_cavlc_nnz h mby munge_cavlc_nnz_row (nnz, no_backup)) as [t u].
    destruct (munge_cavlc_nnz h mby restore_cavlc_nnz_row (t, u)) as [t' u']. cbn [fst snd]. intros G R. split.
    + intros mb i. by rewrite R, E.
    + apply deblock_row_step; [done|done| |done]. intros mx my Hf Hmy. apply G; [done|done|lia|done].
  - cbn [fst snd]. split; [done|]. apply deblock_row_step; [done|done| |done]. intros mx my Hf _. apply good_plain; [done|done|].
    destruct (d_cabac h); [by left|]. cbn [negb andb] in M. by right.
Qed.

(** C15: [x264_frame_deblock] does to the three planes what the deblocking process of the
    standard does to the pictures they hold, sample by sample and for every strength,
    partition and quantiser: the shortcuts of the code (skipped macroblocks, quantisers below
    its threshold, motion compared once for 8x8 blocks, strengths read as a word, other
    functions at the edges of intra macroblocks, tables padded for offsets, counts changed
    for CAVLC and then restored) change nothing.  Memory outside the pictures is not
    touched, and the counts of coefficients are left as they were. *)
Theorem deblock_standard p0 pics : sees_planes h p0 p0 pics ->
  sees_planes h p0 (x264_frame_deblock h p0).2 (std_deblock (info_of pic_of h) pics) /\
  (forall mb i, (x264_frame_deblock h p0).1 mb i = d_nnz h mb i).
Proof.
  intros S. unfold x264_frame_deblock, std_deblock. cbv zeta. rewrite (ok_progressive _ _ ok), Z.add_0_r, Z.add_simpl_r, Z.div_1_r.
  apply and_comm. cbn [pi_height pi_width info_of].
  apply (for_sim (fun st q => (forall mb i, st.1 mb i = d_nnz h mb i) /\ sees_planes h p0 st.2 q)); [done|].
  intros y [nnz p] q Hy [E S1]. rewrite Z.mul_1_l. apply deblock_row_std; [lia|done|done].
Qed.
End Theorem_.

(** A frame of two macroblocks: an inter one with two halves that move differently, and an
    intra one. *)
Definition sample_deblock : deblock_t := {|
  d_type := SLICE_TYPE_P; d_mbaff := 0; d_alpha_offset := 0; d_beta_offset := 0; d_chroma_offset := 0;
  d_psub8x8 := true; d_cabac := false; d_transform_8x8_mode := true; d_width := 2; d_height := 1; d_mb_stride := 2;
  d_mb_type := fun mb => if mb =? 0 then P_L0 else I_16x16;
  d_qp := fun _ => 32; d_transform_size := fun mb => if mb =? 0 then 1 else 0;
  d_nnz := fun mb i => if i =? 1 then 3 else 0;
  d_ref := fun l i => if l =? 0 then 0 else -1;
  d_mv := fun l i => if (l =? 0) && (i mod 8 <? 2) then (8, 0) else (0, 0);
  d_stride := fun p => if p =? 0 then 32 else 16
|}.
Definition sample_planes : planes := fun p a => if a mod 32 <? 8 then 100 else 108.
Definition sample_pic (l r : Z) : Z := 2 * r + l.
Lemma sample_frame mbx mby : in_frame sample_deblock mbx mby -> (mbx = 0 \/ mbx = 1) /\ mby = 0.
Proof. unfold in_frame. cbn. lia. Qed.
Lemma sample_deblock_ok : deblock_ok sample_pic sample_deblock.
Proof.
  split; try (cbn; lia); try done.
  - intros mbx mby Hf. destruct (sample_frame _ _ Hf) as [[->| ->] ->]; vm_compute; [by right|by left].
  - intros mb i. cbn. destruct (i =? 1); lia.
  - unfold sample_pic. lia.
  - intros l mbx mby x y [->|[-> Hl]] _ _; [cbn; lia|done].
  - intros mbx mby Hf. destruct (sample_frame _ _ Hf) as [[->| ->] ->]; vm_compute; done.
Qed.
Lemma deblock_standard_witness :
  sees_planes sample_deblock sample_planes (x264_frame_deblock sample_deblock sample_planes).2
    (std_deblock (info_of sample_pic sample_deblock) (fun p x y => sample_planes p (y * stride_of sample_deblock p + x))) /\
  (sample_planes 0 <$> seqZ 5 6, (x264_frame_deblock sample_deblock sample_planes).2 0 <$> seqZ 5 6) =
    ([100; 100; 100; 108; 108; 108], [100; 102; 103; 105; 106; 108]).
Proof.
  split; [|vm_compute; reflexivity].
  apply (deblock_standard sample_pic sample_deblock sample_deblock_ok). intros plane Hp. split; [done| |done].
  intros x y _ _. unfold sample_planes. destruct (_ <? 8); lia.
Defined.
