(* ===== verification/DeblockRows.v ===== *)
(** * Deblocking row by row

    Which rows of a picture the deblocking of a macroblock changes, and what it reads of the
    picture's parameters: a row of macroblocks is filtered before the next one is coded. *)
From S2P Require Import Prelude Mb Deblock DeblockStd DeblockLine DeblockFrame DeblockMb DeblockCorrect DeblockTheorem.

(** ** Rows that change *)
Definition keeps_rows (lo hi : Z) (f : picture -> picture) : Prop := forall pic x y, ~ lo <= y < hi -> f pic x y = pic x y.
Lemma keeps_for lo hi n a (f : Z -> picture -> picture) : (forall i, a <= i < a + Z.of_nat n -> keeps_rows lo hi (f i)) -> keeps_rows lo hi (for_ n a f).
Proof.
  intros K pic x y Hy. refine (for_inv (fun _ p => p x y = pic x y) n a f pic eq_refl _). intros i p Hi E. by rewrite K.
Qed.

Lemma std_line_reach (c : bool) bS alpha beta tc0 s i : ~ (if c then -1 <= i <= 0 else -3 <= i <= 2) -> std_line c bS alpha beta tc0 s i = s i.
Proof.
  intros Hi. unfold std_line. destruct (filter_samples _ _ _ _); [|done].
  assert (N : forall k, i <> k -> (i =? k) = false) by (intros; by apply Z.eqb_neq).
  assert (N' : forall k, i <> -1 - k -> (-1 - i =? k) = false) by (intros; apply Z.eqb_neq; lia).
  destruct (bS <? 4).
  - unfold std_weak. destruct c; cbn [negb andb]; rewrite ?(N (-1)), ?(N 0), ?(N (-2)), ?(N 1) by lia; done.
  - unfold std_strong, std_strong_side. destruct c; cbn [negb andb].
    + destruct (Z.ltb_spec i 0); rewrite ?(N' 0), ?(N 0) by lia; f_equal; lia.
    + destruct (Z.ltb_spec i 0); case_match; rewrite ?(N' 0), ?(N' 1), ?(N' 2), ?(N 0), ?(N 1), ?(N 2) by lia; f_equal; lia.
Qed.

Section Rows.
Context (pi : picture_info).
Definition reach (chroma : bool) : Z := if chroma then 1 else 3.
Lemma std_filter_rows c dir e q luma : keeps_rows (if dir =? 0 then q.2 else q.2 - reach c) (if dir =? 0 then q.2 + 1 else q.2 + reach c) (std_filter pi c dir e q luma).
Proof.
  intros pic x y Hy. unfold std_filter, std_edge_line, reach in *. cbv zeta. destruct (dir =? 0).
  - destruct (Z.eqb_spec y q.2); [lia|done].
  - destruct (x =? q.1); [|done]. rewrite std_line_reach by (destruct c; lia). f_equal; lia.
Qed.

(** The rows of macroblock row [mby], and those above that its upper edges reach. *)
Definition row_lo (plane mby : Z) : Z := if plane =? 0 then 16 * mby - 3 else 8 * mby - 1.
Definition row_hi (plane mby : Z) : Z := if plane =? 0 then 16 * mby + 16 else 8 * mby + 8.
Lemma std_edge_rows dir mbx mby e pics plane x y : 0 <= e < 4 -> ~ row_lo plane mby <= y < row_hi plane mby ->
  std_edge pi dir mbx mby e pics plane x y = pics plane x y.
Proof.
  intros He Hy. unfold std_edge. destruct (_ && _); [done|]. unfold row_lo, row_hi in Hy. destruct (Z.eqb_spec plane 0) as [->|Hp].
  - destruct (_ && _); [done|]. refine (keeps_for (16 * mby - 3) (16 * mby + 16) 16 0 _ _ _ x y ltac:(done)).
    intros k Hk p x' y' Hy'. apply std_filter_rows. unfold along, reach. destruct (dir =? 0); cbn [snd]; lia.
  - destruct (Z.odd e) eqn:Eo; [done|]. refine (keeps_for (8 * mby - 1) (8 * mby + 8) 8 0 _ _ _ x y ltac:(done)).
    intros k Hk p x' y' Hy'. apply std_filter_rows. assert (e = 0 \/ e = 2) by (assert (e = 0 \/ e = 1 \/ e = 2 \/ e = 3) as [->|[->|[->| ->]]] by lia; auto; done).
    unfold along, reach. destruct (dir =? 0); cbn [snd]; lia.
Qed.
Lemma std_row_rows w mby pics plane x y : ~ row_lo plane mby <= y < row_hi plane mby ->
  for_ w 0 (fun mbx => std_mb pi mbx mby) pics plane x y = pics plane x y.
Proof.
  intros Hy. assert (D : forall dir mbx pics, std_dir pi dir mbx mby pics plane x y = pics plane x y).
  { intros dir mbx p. unfold std_dir. refine (for_inv (fun _ q => q plane x y = p plane x y) 4 0 _ p eq_refl _).
    intros e q He E. by rewrite std_edge_rows. }
  refine (for_inv (fun _ q => q plane x y = pics plane x y) w 0 _ pics eq_refl _). intros i q _ E. unfold std_mb. by rewrite !D.
Qed.
End Rows.

(** ** Parameters that are read *)
Record same_row (pi pi' : picture_info) (w mby : Z) : Prop := {
  same_intra : forall mbx, 0 <= mbx < w -> pi_intra pi mbx mby = pi_intra pi' mbx mby;
  same_transform : forall mbx, 0 <= mbx < w -> pi_transform_8x8 pi mbx mby = pi_transform_8x8 pi' mbx mby;
  same_qp : forall mbx, 0 <= mbx < w -> pi_qp pi mbx mby = pi_qp pi' mbx mby;
  same_coded : forall bx by_, 0 <= bx < 4 * w -> by_ / 4 = mby -> pi_coded pi bx by_ = pi_coded pi' bx by_;
  same_motion_of : forall bx by_, 0 <= bx < 4 * w -> by_ / 4 = mby -> pi_motion pi bx by_ = pi_motion pi' bx by_
}.
Record same_params (pi pi' : picture_info) : Prop := {
  same_qpc : forall qp, pi_qpc pi qp = pi_qpc pi' qp;
  same_offset_a : pi_offset_a pi = pi_offset_a pi';
  same_offset_b : pi_offset_b pi = pi_offset_b pi'
}.
Section Info.
Context (pi pi' : picture_info) (w mby : Z).
Hypothesis SP : same_params pi pi'.
Hypothesis SR : same_row pi pi' w mby.
Hypothesis SR' : 0 < mby -> same_row pi pi' w (mby - 1).
(** A sample of this row or the one above. *)
Definition near (s : Z * Z) : Prop := 0 <= s.1 < 16 * w /\ (s.2 / 16 = mby \/ (0 < mby /\ s.2 / 16 = mby - 1)).
Lemma near_same s : near s -> pi_intra pi (s.1 / 16) (s.2 / 16) = pi_intra pi' (s.1 / 16) (s.2 / 16) /\
  pi_qp pi (s.1 / 16) (s.2 / 16) = pi_qp pi' (s.1 / 16) (s.2 / 16) /\
  pi_coded pi (s.1 / 4) (s.2 / 4) = pi_coded pi' (s.1 / 4) (s.2 / 4) /\ pi_motion pi (s.1 / 4) (s.2 / 4) = pi_motion pi' (s.1 / 4) (s.2 / 4).
Proof.
  intros [Hx Hy]. assert (S : same_row pi pi' w (s.2 / 16)) by (destruct Hy as [->|[H ->]]; [done|by apply SR']).
  assert (0 <= s.1 / 16 < w) by (Z.to_euclidean_division_equations; lia). assert (0 <= s.1 / 4 < 4 * w) by (Z.to_euclidean_division_equations; lia).
  assert (s.2 / 4 / 4 = s.2 / 16) by (Z.to_euclidean_division_equations; lia).
  split; [|split; [|split]]; [by apply (same_intra _ _ _ _ S)|by apply (same_qp _ _ _ _ S)|by apply (same_coded _ _ _ _ S)|by apply (same_motion_of _ _ _ _ S)].
Qed.
Lemma std_filter_info c dir e q luma pic : near luma -> near (before dir luma) -> std_filter pi c dir e q luma pic = std_filter pi' c dir e q luma pic.
Proof.
  intros N1 N2. unfold std_filter, std_bS. cbv zeta. destruct (near_same _ N1) as (-> & -> & -> & ->), (near_same _ N2) as (-> & -> & -> & ->).
  rewrite (same_offset_a _ _ SP), (same_offset_b _ _ SP). destruct c; [by rewrite !(same_qpc _ _ SP)|done].
Qed.
(** Each plane is filtered by itself. *)
Lemma std_edge_info dir mbx e pics pics' : 0 <= mbx < w -> 0 <= mby -> 0 <= e < 4 -> dir = 0 \/ dir = 1 -> (forall plane, pics plane = pics' plane) ->
  forall plane, std_edge pi dir mbx mby e pics plane = std_edge pi' dir mbx mby e pics' plane.
Proof.
  intros Hx Hy He Hd HP plane. unfold std_edge. destruct ((e =? 0) && _) eqn:E0; [done|].
  assert (Hb : (dir = 0 -> 0 < 4 * e + 16 * mbx) /\ (dir = 1 -> 0 < 4 * e + 16 * mby)).
  { split; intros ->; cbn [Z.eqb] in E0; destruct (Z.eqb_spec e 0); cbn [andb] in E0; try apply Z.eqb_neq in E0; lia. }
  assert (N : forall k, 0 <= k < 16 -> near (along dir (4 * e) k (16 * mbx) (16 * mby)) /\ near (before dir (along dir (4 * e) k (16 * mbx) (16 * mby)))).
  { intros k Hk. unfold near, before, along. destruct Hd as [->| ->]; cbn [Z.eqb fst snd]; destruct Hb; split; split; try lia;
      Z.to_euclidean_division_equations; lia. }
  assert (EL : std_luma_edge pi dir mbx mby e (pics 0) = std_luma_edge pi' dir mbx mby e (pics' 0)).
  { rewrite HP. apply for_ext. intros k p Hk. cbv zeta. by apply std_filter_info; apply N. }
  assert (EC : forall pl, Z.odd e = false -> std_chroma_edge pi dir mbx mby e (pics pl) = std_chroma_edge pi' dir mbx mby e (pics' pl)).
  { intros pl _. rewrite HP. apply for_ext. intros k p Hk. cbv zeta. destruct (N (2 * k) ltac:(lia)) as [N1 N2].
    replace (2 * (along dir (2 * e) k (8 * mbx) (8 * mby)).1, 2 * (along dir (2 * e) k (8 * mbx) (8 * mby)).2) with (along dir (4 * e) (2 * k) (16 * mbx) (16 * mby))
      by (unfold along; destruct Hd as [->| ->]; cbn [Z.eqb fst snd]; f_equal; lia).
    by apply std_filter_info. }
  destruct (plane =? 0); [by rewrite EL, (same_transform _ _ _ _ SR), HP by done|]. destruct (Z.odd e) eqn:Eo; [by rewrite HP|by apply EC].
Qed.
Lemma std_row_info pics : 0 <= w -> 0 <= mby -> forall plane,
  for_ (Z.to_nat w) 0 (fun mbx => std_mb pi mbx mby) pics plane = for_ (Z.to_nat w) 0 (fun mbx => std_mb pi' mbx mby) pics plane.
Proof.
  intros Hw Hy. apply (for_sim (fun p q : Z -> picture => forall plane, p plane = q plane)); [done|].
  intros mbx p q Hx E. unfold std_mb, std_dir. do 2 (apply (for_sim (fun p q : Z -> picture => forall plane, p plane = q plane));
    [|intros e p' q' He E'; apply std_edge_info; auto; lia]). done.
Qed.
End Info.
