(* ===== verification/Frame.v ===== *)
(** * Frame buffers (common/frame.c, common/mc.c, common/macroblock.c, encoder/encoder.c)

    The buffers of a frame, the extension of their borders, the half sample planes with the
    integral image, the exchange of samples between a frame and the buffers of a macroblock,
    and the loop that filters a frame while its macroblocks are coded.

    A plane is memory seen from its [plane] pointer.  [plane[0]] and [filtered[0]] are the
    same memory in the program; here it is plane 0, and [filtered] is used from 1 to 3. *)
From S2P Require Import Prelude Mb CavlcMb Dct Mc Deblock.

Definition PADH : Z := 32.
Definition PADV : Z := 32.
Definition X264_THREAD_HEIGHT : Z := 24.
Definition ALIGN (x a : Z) : Z := (x + (a - 1)) .& Z.lnot (a - 1).

(** [memset], and [memcpy] between places that do not overlap. *)
Definition memset (m : mem) (a v n : Z) : mem := for_ (Z.to_nat n) 0 (fun i m => st8 m (a + i) v) m.
Definition memcpy (dst : mem) (d : Z) (src : mem) (s n : Z) : mem :=
  for_ (Z.to_nat n) 0 (fun i dst => st8 dst (d + i) (src (s + i))) dst.
Definition memmove (m : mem) (d s n : Z) : mem := for_ (Z.to_nat n) 0 (fun i m => st8 m (d + i) (m (s + i))) m.

(** ** The layout of a frame

    Of [x264_frame_new]: strides, sizes, and where the pointers are in their buffers. *)
Record frame_param := FrameParam {
  fp_width : Z; fp_height : Z;      (* param.i_width, param.i_height *)
  fp_interlaced : Z;
  fp_cacheline : Z;                 (* 64 or 32 when the processor has such lines, else 0 *)
  fp_subpel_refine : Z;
  fp_esa : bool                     (* analyse.i_me_method >= X264_ME_ESA *)
}.
Definition shr_chroma (v i : Z) : Z := v >> b2i (negb (i =? 0)).   (* v >> !!i *)
Definition frame_align (q : frame_param) : Z := if fp_cacheline q =? 64 then 64 else if fp_cacheline q =? 32 then 32 else 16.
Definition frame_padv (q : frame_param) : Z := PADV << fp_interlaced q.
Definition frame_width (q : frame_param) (i : Z) : Z := shr_chroma (ALIGN (fp_width q) 16) i.
Definition frame_stride (q : frame_param) (i : Z) : Z := shr_chroma (ALIGN (ALIGN (fp_width q) 16 + 2 * PADH) (frame_align q)) i.
Definition frame_lines (q : frame_param) (i : Z) : Z := shr_chroma (ALIGN (fp_height q) (16 << fp_interlaced q)) i.
Definition luma_plane_size (q : frame_param) : Z := frame_stride q 0 * (frame_lines q 0 + 2 * frame_padv q).
(** The sizes of [buffer[i]] in samples and of [buffer[3]] in words. *)
Definition buffer_size (q : frame_param) (i : Z) : Z :=
  if i =? 0 then (if negb (fp_subpel_refine q =? 0) then 4 * luma_plane_size q else luma_plane_size q)
  else if i =? 3 then (if fp_esa q then 2 * frame_stride q 0 * (frame_lines q 0 + 2 * frame_padv q) else 0)
  else luma_plane_size q / 4.
Definition plane_start (q : frame_param) (i : Z) : Z :=
  if i =? 0 then frame_stride q 0 * frame_padv q + PADH else Z.quot (frame_stride q i * frame_padv q + PADH) 2.
Definition filtered_start (q : frame_param) (i : Z) : Z := i * luma_plane_size q + frame_stride q 0 * frame_padv q + PADH.
Definition integral_start (q : frame_param) : Z := frame_stride q 0 * frame_padv q + PADH.

(** ** The state *)
Record x264_frame_t := Frame {
  f_stride : Z -> Z;
  f_width : Z -> Z;
  f_lines : Z -> Z;
  f_plane : planes;
  f_filtered : Z -> mem;
  f_integral : option mem;
  f_lines_completed : Z
}.
Definition set_planes (f : x264_frame_t) (p : planes) : x264_frame_t :=
  Frame (f_stride f) (f_width f) (f_lines f) p (f_filtered f) (f_integral f) (f_lines_completed f).
Definition set_filtered (f : x264_frame_t) (p : Z -> mem) : x264_frame_t :=
  Frame (f_stride f) (f_width f) (f_lines f) (f_plane f) p (f_integral f) (f_lines_completed f).
Definition set_integral (f : x264_frame_t) (m : mem) : x264_frame_t :=
  Frame (f_stride f) (f_width f) (f_lines f) (f_plane f) (f_filtered f) (Some m) (f_lines_completed f).
(** The state a frame has when no thread is between the lock and the unlock. *)
Definition x264_frame_cond_broadcast (f : x264_frame_t) (i_lines_completed : Z) : x264_frame_t :=
  Frame (f_stride f) (f_width f) (f_lines f) (f_plane f) (f_filtered f) (f_integral f) i_lines_completed.

(** What the functions read of the encoder. *)
Record slice_ctx := SliceCtx {
  c_mbaff : Z;                      (* sh.b_mbaff *)
  c_interlaced : Z;                 (* mb.b_interlaced *)
  c_mb_width : Z; c_mb_height : Z;  (* sps *)
  c_deblocking_disabled : Z;        (* sh.i_disable_deblocking_filter_idc *)
  c_kept_as_ref : bool;             (* fdec->b_kept_as_ref *)
  c_dump_yuv : bool;                (* param.psz_dump_yuv *)
  c_subpel_refine : Z;
  c_threads : Z
}.

(** ** Copies between pictures *)
Definition plane_copy (dst : mem) (d i_dst : Z) (src : mem) (s i_src w h : Z) : mem :=
  for_ (Z.to_nat h) 0 (fun y dst => memcpy dst (d + y * i_dst) src (s + y * i_src) w) dst.

Definition X264_CSP_I420 : Z := 1.
Definition X264_CSP_YV12 : Z := 4.
Definition X264_CSP_MASK : Z := 0x00ff.
Definition X264_CSP_VFLIP : Z := 0x1000.
(** The planes, strides and colour space of the picture of an application. *)
Record x264_image_t := Image { img_csp : Z; img_stride : Z -> Z; img_plane : Z -> mem }.
Definition x264_frame_copy_picture (q : frame_param) (dst : planes) (src : x264_image_t) : option planes :=
  let i_csp := img_csp src .& X264_CSP_MASK in
  if negb (i_csp =? X264_CSP_I420) && negb (i_csp =? X264_CSP_YV12) then None else
  Some (for_ 3 0 (fun i dst =>
    let s := if (i_csp =? X264_CSP_YV12) && negb (i =? 0) then i .^ 3 else i in
    let stride := img_stride src s in
    let width := shr_chroma (fp_width q) i in
    let height := shr_chroma (fp_height q) i in
    let '(start, stride) := if i2b (img_csp src .& X264_CSP_VFLIP) then ((height - 1) * stride, - stride) else (0, stride) in
    set_plane dst i (plane_copy (dst i) 0 (frame_stride q i) (img_plane src s) start stride width height)) dst).

(** ** Borders *)
Definition plane_expand_border (m : mem) (pix i_stride i_width i_height i_padh i_padv : Z) (b_pad_top b_pad_bottom : bool) : mem :=
  let PPIXEL x y := pix + x + y * i_stride in
  let m := for_ (Z.to_nat i_height) 0 (fun y m =>
    let m := memset m (PPIXEL (- i_padh) y) (m (PPIXEL 0 y)) i_padh in
    memset m (PPIXEL i_width y) (m (PPIXEL (i_width - 1) y)) i_padh) m in
  let m := if b_pad_top then
    for_ (Z.to_nat i_padv) 0 (fun y m => memmove m (PPIXEL (- i_padh) (- y - 1)) (PPIXEL (- i_padh) 0) (i_width + 2 * i_padh)) m else m in
  if b_pad_bottom then
    for_ (Z.to_nat i_padv) 0 (fun y m => memmove m (PPIXEL (- i_padh) (i_height + y)) (PPIXEL (- i_padh) (i_height - 1)) (i_width + 2 * i_padh)) m
  else m.

Section Ctx.
Context (h : slice_ctx).

Definition x264_frame_expand_border (f : x264_frame_t) (mb_y : Z) (b_end : bool) : x264_frame_t :=
  let b_start := mb_y =? 0 in
  if i2b (mb_y .& c_mbaff h) then f else
  set_planes f (for_ 3 0 (fun i p =>
    let stride := f_stride f i in
    let width := shr_chroma (16 * c_mb_width h) i in
    let height := shr_chroma (if b_end then (16 * (c_mb_height h - mb_y)) >> c_mbaff h else 16) i in
    let padh := shr_chroma PADH i in
    let padv := shr_chroma PADV i in
    let pix := Z.max 0 (shr_chroma ((16 * mb_y - 4) * stride) i) in
    let height := if b_end && negb b_start then height + (4 >> (b2i (negb (i =? 0)) + c_mbaff h)) else height in
    set_plane p i
      (if i2b (c_mbaff h) then
         plane_expand_border (plane_expand_border (p i) pix (stride * 2) width height padh padv b_start b_end)
           (pix + stride) (stride * 2) width height padh padv b_start b_end
       else plane_expand_border (p i) pix stride width height padh padv b_start b_end)) (f_plane f)).

Definition x264_frame_expand_border_filtered (f : x264_frame_t) (mb_y : Z) (b_end : bool) : x264_frame_t :=
  let b_start := mb_y =? 0 in
  let stride := f_stride f 0 in
  let width := 16 * c_mb_width h + 8 in
  let height := if b_end then ((16 * (c_mb_height h - mb_y)) >> c_mbaff h) + 16 else 16 in
  let padh := PADH - 4 in
  let padv := PADV - 8 in
  set_filtered f (for_ 3 1 (fun i p =>
    let pix := (16 * mb_y - (8 << c_mbaff h)) * stride - 4 in
    set_plane p i
      (if i2b (c_mbaff h) then
         plane_expand_border (plane_expand_border (p i) pix (stride * 2) width height padh padv b_start b_end)
           (pix + stride) (stride * 2) width height padh padv b_start b_end
       else plane_expand_border (p i) pix stride width height padh padv b_start b_end)) (f_filtered f)).

Definition x264_frame_expand_border_lowres (lowres : Z -> mem) (i_stride_lowres i_lines_lowres : Z) : Z -> mem :=
  for_ 4 0 (fun i p =>
    set_plane p i (plane_expand_border (p i) 0 i_stride_lowres (i_stride_lowres - 2 * PADH) i_lines_lowres PADH PADV true true)) lowres.

(** Sizes that are not multiples of 16 are filled up. *)
Definition x264_frame_expand_border_mod16 (q : frame_param) (f : x264_frame_t) : x264_frame_t :=
  set_planes f (for_ 3 0 (fun i p =>
    let i_subsample := if negb (i =? 0) then 1 else 0 in
    let i_width := fp_width q >> i_subsample in
    let i_height := fp_height q >> i_subsample in
    let i_padx := (c_mb_width h * 16 - fp_width q) >> i_subsample in
    let i_pady := (c_mb_height h * 16 - fp_height q) >> i_subsample in
    let stride := f_stride f i in
    let m := p i in
    let m := if i2b i_padx then
      for_ (Z.to_nat i_height) 0 (fun y m => memset m (y * stride + i_width) (m (y * stride + i_width - 1)) i_padx) m else m in
    let m := if i2b i_pady then
      for_ (Z.to_nat i_pady) i_height (fun y m => memmove m (y * stride) ((i_height - 1) * stride) (i_width + i_padx)) m else m in
    set_plane p i m) (f_plane f)).

(** ** Half samples and the integral image *)
Definition integral_row (ref : mem) (stride lines : Z) (y : Z) (m : mem) : mem :=
  let r := y * stride - PADH in
  let line := (y + 1) * stride - PADH + 1 in
  let m := upd m line 0 in
  let '(m, _) := for_ (Z.to_nat (stride - 2)) 1 (fun x '(m, v) =>
    let v := u16 (v + (ref (r + x) + m (line + x - stride) - m (line + x - stride - 1))) in
    (upd m (line + x) v, v)) (m, 0) in
  let line := line - 8 * stride in
  if y >=? 9 - PADV then
    for_ (Z.to_nat (stride - 9)) 0 (fun x m =>
      let l := line + x in
      let sum4 := line + stride * (lines + PADV * 2) + x in
      let m := upd m sum4 (u16 (m (l + 4 + 4 * stride) - m (l + 4) - m (l + 4 * stride) + m l)) in
      upd m l (u16 (m l + (m (l + 8 + 8 * stride) - m (l + 8) - m (l + 8 * stride))))) m
  else m.
Definition integral_rows (ref : mem) (stride lines start height : Z) (b_end : bool) (m : mem) : mem :=
  let '(m, start) := if start <? 0
    then (for_ (Z.to_nat stride) 0 (fun i m => upd m (- PADV * stride - PADH + i) 0) m, - PADV) else (m, start) in
  let height := if b_end then height + (PADV - 8) else height in
  for_ (Z.to_nat (height - start)) start (integral_row ref stride lines) m.

(** [buf] is the fresh memory of the filter. *)
Definition x264_frame_filter (buf : mem) (f : x264_frame_t) (mb_y : Z) (b_end : bool) : x264_frame_t :=
  let b_interlaced := c_mbaff h in
  let stride := f_stride f 0 << b_interlaced in
  let width := f_width f 0 in
  let start := (mb_y * 16 >> b_interlaced) - 8 in
  let height := ((if b_end then f_lines f 0 else mb_y * 16) >> b_interlaced) + 8 in
  let offs := start * stride - 8 in
  if i2b (mb_y .& b_interlaced) then f else
  let f := set_filtered f (for_ (Z.to_nat (1 + b_interlaced)) 0 (fun y p =>
    let '(dsth, dstv, dstc) := hpel_filter (p 1) (p 2) (p 3) (f_plane f 0) (offs + y * f_stride f 0) stride
      (Z.to_nat (width + 16)) (Z.to_nat (height - start)) buf in
    set_plane (set_plane (set_plane p 1 dsth) 2 dstv) 3 dstc) (f_filtered f)) in
  match f_integral f with
  | Some m => set_integral f (integral_rows (f_plane f 0) stride (f_lines f 0) start height b_end m)
  | None => f
  end.

(** ** Rows

    [border] is [mb.intra_border_backup], seen from its pointers.  [d] holds the tables of
    the macroblocks that the deblocking filter reads. *)
Definition borders : Type := Z -> Z -> mem.
Definition set_border (b : borders) (j i : Z) (m : mem) : borders := fun j' i' => if (j' =? j) && (i' =? i) then m else b j' i'.
Definition x264_fdec_filter_row (buf : mem) (d : deblock_t) (mb_y : Z) (st : borders * x264_frame_t) : borders * x264_frame_t :=
  let '(border, f) := st in
  let b_hpel := c_kept_as_ref h in
  let b_deblock := c_deblocking_disabled h =? 0 in
  let b_end := mb_y =? c_mb_height h in
  let min_y := mb_y - (1 << c_mbaff h) in
  let max_y := if b_end then c_mb_height h else mb_y in
  let b_deblock := b_deblock && (b_hpel || c_dump_yuv h) in
  if i2b (mb_y .& c_mbaff h) then (border, f) else
  if min_y <? 0 then (border, f) else
  let border := if negb b_end then
    for_ (Z.to_nat (c_mbaff h + 1)) 0 (fun j border => for_ 3 0 (fun i border =>
      set_border border j i (memcpy (border j i) 0 (f_plane f i)
        ((shr_chroma (mb_y * 16) i + j - 1 - c_mbaff h) * f_stride f i) (shr_chroma (c_mb_width h * 16) i))) border) border
    else border in
  let f := if b_deblock then
    let step := 1 << c_mbaff h in
    set_planes f (for_ (Z.to_nat ((max_y - min_y + step - 1) / step)) 0 (fun k =>
      x264_frame_deblock_row d (min_y + k * step)) (d_nnz d, f_plane f)).2 else f in
  let f := if b_hpel then
    let f := x264_frame_expand_border f min_y b_end in
    if negb (c_subpel_refine h =? 0) then
      x264_frame_expand_border_filtered (x264_frame_filter buf f min_y b_end) min_y b_end
    else f
    else f in
  let f := if (c_threads h >? 1) && c_kept_as_ref h
    then x264_frame_cond_broadcast f (mb_y * 16 + (if b_end then 10000 else - (X264_THREAD_HEIGHT << c_mbaff h))) else f in
  (border, f).

(** ** The samples of a macroblock *)
Definition copy_column8 (p : mem) (dst src : Z) : mem :=
  for_ 8 0 (fun i p => st8 p (dst + i * FDEC_STRIDE) (p (src + i * FDEC_STRIDE))) p.
Definition mb_pix_offset (i i_stride i_mb_x i_mb_y : Z) : Z :=
  let w := if i =? 0 then 16 else 8 in
  if i2b (c_interlaced h) then w * (i_mb_x + (i_mb_y .& Z.lnot 1) * i_stride) + (i_mb_y .& 1) * i_stride
  else w * (i_mb_x + i_mb_y * i_stride).

(** The samples that the cache takes: the source in [p_fenc], the neighbours above in
    [p_fdec]; the fields of interlaced frames take the left neighbours from the frame. *)
Definition x264_macroblock_load_pic_pointers (border : borders) (fdec fenc : x264_frame_t) (i_mb_x i_mb_y i : Z) (pic : planes * planes) : planes * planes :=
  let '(p_fenc, p_fdec) := pic in
  let w := if i =? 0 then 16 else 8 in
  let i_stride := f_stride fdec i in
  let i_stride2 := i_stride << c_interlaced h in
  let i_pix_offset := mb_pix_offset i i_stride i_mb_x i_mb_y in
  let intra_fdec := shr_chroma (i_mb_x * 16) i in
  let p_fenc := set_plane p_fenc i (mc_copy (ptr (f_plane fenc i) i_pix_offset) i_stride2 (p_fenc i) 0 FENC_STRIDE (Z.to_nat w) (Z.to_nat w)) in
  let m := memcpy (p_fdec i) (-1 - FDEC_STRIDE) (border (i_mb_y .& c_mbaff h) i) (intra_fdec - 1) (Z.quot (w * 3) 2 + 1) in
  let m := if i2b (c_interlaced h) then
    for_ (Z.to_nat w) 0 (fun j m => st8 m (-1 + j * FDEC_STRIDE) (f_plane fdec i (i_pix_offset - 1 + j * i_stride2))) m else m in
  (p_fenc, set_plane p_fdec i m).
(** The samples of [x264_macroblock_cache_load]. *)
Definition cache_load_samples (border : borders) (fdec fenc : x264_frame_t) (i_mb_x i_mb_y : Z) (pic : planes * planes) : planes * planes :=
  let '(p_fenc, p_fdec) := pic in
  let p_fdec := if i2b (c_interlaced h) then p_fdec else
    let p_fdec := set_plane p_fdec 0 (copy_column8 (copy_column8 (p_fdec 0) (-1) 15) (-1 + 8 * FDEC_STRIDE) (15 + 8 * FDEC_STRIDE)) in
    let p_fdec := set_plane p_fdec 1 (copy_column8 (p_fdec 1) (-1) 7) in
    set_plane p_fdec 2 (copy_column8 (p_fdec 2) (-1) 7) in
  for_ 3 0 (x264_macroblock_load_pic_pointers border fdec fenc i_mb_x i_mb_y) (p_fenc, p_fdec).

Definition x264_macroblock_store_pic (p_fdec : planes) (i_mb_x i_mb_y i : Z) (f : x264_frame_t) : x264_frame_t :=
  let w := if i =? 0 then 16 else 8 in
  let i_stride := f_stride f i in
  let i_stride2 := i_stride << c_interlaced h in
  set_planes f (set_plane (f_plane f) i
    (mc_copy (p_fdec i) FDEC_STRIDE (f_plane f i) (mb_pix_offset i i_stride i_mb_x i_mb_y) i_stride2 (Z.to_nat w) (Z.to_nat w))).

(** ** The loop of a slice

    [coded n] is what the coding of macroblock [n] leaves in [p_fdec], from what was loaded;
    [tables n] are the tables of the macroblocks when [n] of them are coded. *)
Record row_state := RowState { r_border : borders; r_frame : x264_frame_t; r_pic : planes * planes }.
Section Slice.
Context (fenc : x264_frame_t) (buf : mem) (coded : Z -> planes * planes -> planes) (tables : Z -> deblock_t).
(** Before macroblock [n] is coded: the rows above it are filtered, its samples loaded. *)
Definition slice_load (n : Z) (st : row_state) : row_state :=
  let '(i_mb_x, i_mb_y) := (n mod c_mb_width h, n / c_mb_width h) in
  let '(border, f) := if i_mb_x =? 0 then x264_fdec_filter_row buf (tables n) i_mb_y (r_border st, r_frame st) else (r_border st, r_frame st) in
  RowState border f (cache_load_samples border f fenc i_mb_x i_mb_y (r_pic st)).
Definition slice_step (n : Z) (st : row_state) : row_state :=
  let st := slice_load n st in
  let '(i_mb_x, i_mb_y) := (n mod c_mb_width h, n / c_mb_width h) in
  let p_fdec := coded n (r_pic st) in
  RowState (r_border st) (for_ 3 0 (x264_macroblock_store_pic p_fdec i_mb_x i_mb_y) (r_frame st)) ((r_pic st).1, p_fdec).
Definition slice_prefix (n : nat) (st : row_state) : row_state := for_ n 0 slice_step st.
Definition x264_slice_frame (st : row_state) : row_state :=
  let n := Z.to_nat (c_mb_width h * c_mb_height h) in
  let st := slice_prefix n st in
  let '(border, f) := x264_fdec_filter_row buf (tables (Z.of_nat n)) (c_mb_height h) (r_border st, r_frame st) in
  RowState border f (r_pic st).
End Slice.
End Ctx.
