(* ===== verification/FrameExpand.v ===== *)
(** * Frame buffers: copies and borders

    What the copies, the extension of borders and the exchange with macroblocks do to a
    plane, sample by sample. *)
From S2P Require Import Prelude Mb CavlcMb Dct Mc Deblock DeblockStd DeblockLine DeblockFrame Frame.

(** ** Copies *)
Lemma for_bytes_ok n lo (A V : Z -> mem -> Z) m : bytes_ok m -> bytes_ok (for_ n lo (fun i m => st8 m (A i m) (V i m)) m).
Proof.
  intros B. refine (for_inv (fun _ => bytes_ok) n lo _ m B _). intros i m' _ B' a. unfold st8, upd.
  destruct (a =? _); [by apply uw_range|apply B'].
Qed.
Lemma memset_at m a v n q : 0 <= n -> memset m a v n q = if (a <=? q) && (q <? a + n) then u8 v else m q.
Proof.
  intros Hn. unfold memset, st8. destruct (for_row (Z.to_nat n) (fun i => a + i) (fun _ _ => u8 v) m) as [R1 R2]; [lia|]. rewrite Z2Nat.id in * by done.
  destruct (decide (a <= q < a + n)) as [Hq|Hq].
  - rewrite in_range_b by done. specialize (R1 (q - a) ltac:(lia)). cbv beta in R1. by replace (a + (q - a)) with q in R1 by lia.
  - rewrite out_range_b by done. apply R2. intros x Hx ->. lia.
Qed.
Lemma memcpy_at dst d src s n q : 0 <= n -> memcpy dst d src s n q = if (d <=? q) && (q <? d + n) then u8 (src (s + (q - d))) else dst q.
Proof.
  intros Hn. unfold memcpy, st8. destruct (for_row (Z.to_nat n) (fun i => d + i) (fun i _ => u8 (src (s + i))) dst) as [R1 R2]; [lia|]. rewrite Z2Nat.id in * by done.
  destruct (decide (d <= q < d + n)) as [Hq|Hq].
  - rewrite in_range_b by done. specialize (R1 (q - d) ltac:(lia)). cbv beta in R1. by replace (d + (q - d)) with q in R1 by lia.
  - rewrite out_range_b by done. apply R2. intros x Hx ->. lia.
Qed.
(** Between places that do not overlap the order of the copy does not matter. *)
Lemma memmove_at m d s n q : 0 <= n -> s + n <= d \/ d + n <= s -> memmove m d s n q = if (d <=? q) && (q <? d + n) then u8 (m (s + (q - d))) else m q.
Proof.
  intros Hn Hd. rewrite <- memcpy_at by done. unfold memmove, memcpy.
  match goal with |- ?a _ = ?b _ => enough (a = b /\ forall i, 0 <= i < n -> a (s + i) = m (s + i)) as [-> _] by done end.
  apply (for_sim (fun a b => a = b /\ forall i, 0 <= i < n -> a (s + i) = m (s + i))); [done|].
  intros i a b Hi [<- E]. rewrite Z2Nat.id in Hi by done. split; [by rewrite E by lia|]. intros j Hj. unfold st8. rewrite upd_ne by lia. by apply E.
Qed.
Lemma memset_bytes m a v n : bytes_ok m -> bytes_ok (memset m a v n).
Proof. intros B. exact (for_bytes_ok _ _ (fun i _ => a + i) (fun _ _ => v) m B). Qed.
Lemma memcpy_bytes dst d src s n : bytes_ok dst -> bytes_ok (memcpy dst d src s n).
Proof. intros B. exact (for_bytes_ok _ _ (fun i _ => d + i) (fun i _ => src (s + i)) dst B). Qed.
Lemma memmove_bytes m d s n : bytes_ok m -> bytes_ok (memmove m d s n).
Proof. intros B. exact (for_bytes_ok _ _ (fun i _ => d + i) (fun i m => m (s + i)) m B). Qed.

Lemma u8_byte m a : bytes_ok m -> u8 (m a) = m a.
Proof. intros B. apply uw_small. apply B. Qed.

(** ** Rows

    The stride has room for the columns from [- P] on: an address is a row and a column in
    one way. *)
Definition clamp (lo hi v : Z) : Z := Z.max lo (Z.min (hi - 1) v).
Definition within (lo hi v : Z) : bool := (lo <=? v) && (v <? hi).
Lemma within_spec lo hi v : reflect (lo <= v < hi) (within lo hi v).
Proof. apply iff_reflect. unfold within. rewrite andb_true_iff, Z.leb_le, Z.ltb_lt. done. Qed.
Lemma clamp_in lo hi v : lo < hi -> lo <= clamp lo hi v < hi.
Proof. unfold clamp. lia. Qed.
Lemma clamp_id lo hi v : lo <= v < hi -> clamp lo hi v = v.
Proof. unfold clamp. lia. Qed.

Section Rows.
Context (stride P : Z).
Definition column (x : Z) : Prop := - P <= x < stride - P.
Lemma row_range y x y0 x0 n : column x -> - P <= x0 -> x0 + n <= stride - P ->
  within (y0 * stride + x0) (y0 * stride + x0 + n) (y * stride + x) = (y =? y0) && within x0 (x0 + n) x.
Proof.
  unfold column. intros Hx H0 H1. destruct (within_spec (y0 * stride + x0) (y0 * stride + x0 + n) (y * stride + x)) as [H|H].
  - assert (y = y0) as -> by nia. rewrite Z.eqb_refl. symmetry. destruct (within_spec x0 (x0 + n) x); [done|lia].
  - symmetry. destruct (Z.eqb_spec y y0) as [->|]; [|done]. destruct (within_spec x0 (x0 + n) x); [lia|done].
Qed.

Lemma memset_row m y0 x0 v n y x : 0 <= n -> column x -> - P <= x0 -> x0 + n <= stride - P ->
  memset m (y0 * stride + x0) v n (y * stride + x) = if (y =? y0) && within x0 (x0 + n) x then u8 v else m (y * stride + x).
Proof. intros. rewrite memset_at by done. change (?a && ?b) with (within (y0 * stride + x0) (y0 * stride + x0 + n) (y * stride + x)) at 1. by rewrite row_range. Qed.
Lemma memcpy_row m y0 x0 src s n y x : 0 <= n -> column x -> - P <= x0 -> x0 + n <= stride - P ->
  memcpy m (y0 * stride + x0) src s n (y * stride + x) = if (y =? y0) && within x0 (x0 + n) x then u8 (src (s + (x - x0))) else m (y * stride + x).
Proof.
  intros. rewrite memcpy_at by done. change (?a && ?b) with (within (y0 * stride + x0) (y0 * stride + x0 + n) (y * stride + x)) at 1.
  rewrite row_range by done. destruct (Z.eqb_spec y y0) as [->|]; [|done]. destruct (within _ _ _); [|done]. cbn [andb]. do 2 f_equal. lia.
Qed.
(** A row copied over another one. *)
Lemma memmove_row m y0 y1 x0 n y x : 0 <= n -> column x -> - P <= x0 -> x0 + n <= stride - P -> y0 <> y1 ->
  memmove m (y0 * stride + x0) (y1 * stride + x0) n (y * stride + x) = if (y =? y0) && within x0 (x0 + n) x then u8 (m (y1 * stride + x)) else m (y * stride + x).
Proof.
  intros Hn Hx H0 H1 Hy. rewrite memmove_at by (lia || (assert (y0 < y1 \/ y1 < y0) as [|] by lia; [right|left]; nia)).
  change (?a && ?b) with (within (y0 * stride + x0) (y0 * stride + x0 + n) (y * stride + x)) at 1.
  rewrite row_range by done. destruct (Z.eqb_spec y y0) as [->|]; [|done]. destruct (within _ _ _); [|done]. cbn [andb]. do 2 f_equal. lia.
Qed.

(** ** Borders *)
Section Expand.
Context (m0 : mem) (X0 X1 Y0 Y1 padh padv : Z).
Hypothesis HB : bytes_ok m0.
Hypothesis HX : X0 < X1.
Hypothesis HY : Y0 < Y1.
Hypothesis Hph : 0 <= padh.
Hypothesis Hpv : 0 <= padv.
Hypothesis Hl : - P <= X0 - padh.
Hypothesis Hr : X1 + padh <= stride - P.
Local Abbreviation pix := (Y0 * stride + X0).

(** The rows from [T] to [B] of [m] are those of [m0], extended. *)
Definition extended (T B : Z) (m : mem) : Prop := bytes_ok m /\ forall y x, column x ->
  m (y * stride + x) = if within T B y && within (X0 - padh) (X1 + padh) x then m0 (clamp Y0 Y1 y * stride + clamp X0 X1 x) else m0 (y * stride + x).

Lemma sides_extended :
  extended Y0 Y1 (for_ (Z.to_nat (Y1 - Y0)) 0 (fun y m =>
    let m := memset m (pix + - padh + y * stride) (m (pix + 0 + y * stride)) padh in
    memset m (pix + (X1 - X0) + y * stride) (m (pix + (X1 - X0 - 1) + y * stride)) padh) m0).
Proof.
  assert (E0 : extended Y0 Y0 m0) by (split; [done|]; intros y x _; destruct (within_spec Y0 Y0 y); [lia|done]).
  assert (E : extended Y0 (Y0 + Z.of_nat (Z.to_nat (Y1 - Y0))) (for_ (Z.to_nat (Y1 - Y0)) 0 (fun y m =>
    let m := memset m (pix + - padh + y * stride) (m (pix + 0 + y * stride)) padh in
    memset m (pix + (X1 - X0) + y * stride) (m (pix + (X1 - X0 - 1) + y * stride)) padh) m0)); [|by replace (Y0 + Z.of_nat (Z.to_nat (Y1 - Y0))) with Y1 in E by lia].
  refine (for_inv (fun k => extended Y0 (Y0 + k)) _ 0 _ m0 _ _); [by rewrite Z.add_0_r|].
  intros k m Hk [Bm E]. cbv zeta. split; [by do 2 apply memset_bytes|].
  intros y x Hx. replace (pix + - padh + k * stride) with ((Y0 + k) * stride + (X0 - padh)) by lia. replace (pix + 0 + k * stride) with ((Y0 + k) * stride + X0) by lia.
  replace (pix + (X1 - X0) + k * stride) with ((Y0 + k) * stride + X1) by lia. replace (pix + (X1 - X0 - 1) + k * stride) with ((Y0 + k) * stride + (X1 - 1)) by lia.
  assert (C : column X0 /\ column (X1 - 1)) by (unfold column; lia). destruct C as [C0 C1].
  rewrite !memset_row by (assumption || lia). rewrite !(u8_byte m) by done. rewrite !E by done.
  assert (W : within Y0 (Y0 + k) (Y0 + k) = false) by (destruct (within_spec Y0 (Y0 + k) (Y0 + k)); lia). rewrite !W, Z.eqb_refl. cbn [andb].
  destruct (within_spec (X0 - padh) (X0 - padh + padh) (X1 - 1)); [lia|].
  destruct (Z.eqb_spec y (Y0 + k)) as [->|Hne]; cbn [andb].
  - rewrite W. destruct (within_spec Y0 (Y0 + (k + 1)) (Y0 + k)); [|lia]. cbn [andb]. rewrite (clamp_id Y0 Y1 (Y0 + k)) by lia.
    destruct (within_spec X1 (X1 + padh) x), (within_spec (X0 - padh) (X0 - padh + padh) x), (within_spec (X0 - padh) (X1 + padh) x); try lia; try done;
      rewrite ?(u8_byte m0) by done; f_equal; unfold clamp; lia.
  - destruct (within_spec Y0 (Y0 + k) y), (within_spec Y0 (Y0 + (k + 1)) y); try lia; done.
Qed.

(** A band of rows copied from row [src], upwards or downwards. *)
Lemma band_extended T B T' B' dst src m :
  extended T B m -> T <= src < B -> (forall k, 0 <= k < padv -> dst k <> src) ->
  (forall k, 0 <= k < padv -> clamp Y0 Y1 (dst k) = clamp Y0 Y1 src) ->
  (forall k y, 0 <= k <= padv -> within (T' k) (B' k) y = within T B y || existsb (fun i => y =? dst (Z.of_nat i)) (seq 0 (Z.to_nat k))) ->
  extended (T' padv) (B' padv) (for_ (Z.to_nat padv) 0 (fun k m =>
    memmove m (dst k * stride + (X0 - padh)) (src * stride + (X0 - padh)) (X1 - X0 + 2 * padh)) m).
Proof.
  intros [Bm E] Hs Hne Hc HW.
  assert (R : extended (T' (0 + Z.of_nat (Z.to_nat padv))) (B' (0 + Z.of_nat (Z.to_nat padv))) (for_ (Z.to_nat padv) 0 (fun k m =>
    memmove m (dst k * stride + (X0 - padh)) (src * stride + (X0 - padh)) (X1 - X0 + 2 * padh)) m)); [|by rewrite Z.add_0_l, Z2Nat.id in R by done].
  refine (for_inv (fun k => extended (T' k) (B' k)) _ 0 _ m _ _).
  - split; [done|]. intros y x Hx. rewrite E, HW by (done || lia). by rewrite orb_false_r.
  - clear m Bm E. intros k m Hk [Bm E]. rewrite Z2Nat.id in Hk by done. split; [by apply memmove_bytes|]. intros y x Hx.
    rewrite memmove_row by (done || lia || (apply Hne; lia)). rewrite (u8_byte m), !E by done.
    replace (X0 - padh + (X1 - X0 + 2 * padh)) with (X1 + padh) by lia. rewrite !HW by lia.
    replace (Z.to_nat (k + 1)) with (Z.to_nat k + 1)%nat by lia. rewrite seq_app, existsb_app, Nat.add_0_l. cbn [existsb seq]. rewrite !Z2Nat.id, !orb_false_r by lia.
    destruct (Z.eqb_spec y (dst k)) as [->|]; [|by rewrite orb_false_r]. rewrite !orb_true_r.
    destruct (within_spec T B src); [|lia]. cbn [orb andb]. destruct (within _ _ x) eqn:Ex; [|by rewrite !andb_false_r].
    cbn [andb]. by rewrite Hc by lia.
Qed.

Definition top_of (b : bool) : Z := Y0 - (if b then padv else 0).
Definition bottom_of (b : bool) : Z := Y1 + (if b then padv else 0).
Lemma plane_expand_border_at top bottom :
  extended (top_of top) (bottom_of bottom) (plane_expand_border m0 pix stride (X1 - X0) (Y1 - Y0) padh padv top bottom).
Proof.
  unfold plane_expand_border. cbv zeta. pose proof sides_extended as S. cbv zeta in S. set (m := for_ _ 0 _ m0) in S |- *. clearbody m.
  assert (E1 : extended (top_of top) Y1 (if top then for_ (Z.to_nat padv) 0 (fun y m =>
    memmove m (pix + - padh + (- y - 1) * stride) (pix + - padh + 0 * stride) (X1 - X0 + 2 * padh)) m else m)).
  { unfold top_of. destruct top; [|by rewrite Z.sub_0_r].
    rewrite (for_ext _ _ _ (fun k m => memmove m ((Y0 - 1 - k) * stride + (X0 - padh)) (Y0 * stride + (X0 - padh)) (X1 - X0 + 2 * padh))) by (intros; f_equal; lia).
    apply (band_extended Y0 Y1 (fun k => Y0 - k) (fun _ => Y1) (fun k => Y0 - 1 - k) Y0 m S); [lia|lia|intros; unfold clamp; lia|].
    intros k y Hk. apply eq_true_iff_eq. rewrite orb_true_iff, existsb_exists. split.
    - intros W. destruct (within_spec (Y0 - k) Y1 y); [|done]. destruct (within_spec Y0 Y1 y); [by left|]. right.
      exists (Z.to_nat (Y0 - 1 - y)). rewrite in_seq. split; [lia|]. apply Z.eqb_eq. lia.
    - intros [W|(i & Hi & Ei)].
      + destruct (within_spec Y0 Y1 y); [|done]. destruct (within_spec (Y0 - k) Y1 y); [done|lia].
      + apply in_seq in Hi. apply Z.eqb_eq in Ei. destruct (within_spec (Y0 - k) Y1 y); [done|lia]. }
  clear S. set (m1 := if top then _ else m) in E1 |- *. clearbody m1. unfold bottom_of. destruct bottom; [|by rewrite Z.add_0_r].
  rewrite (for_ext _ _ _ (fun k m => memmove m ((Y1 + k) * stride + (X0 - padh)) ((Y1 - 1) * stride + (X0 - padh)) (X1 - X0 + 2 * padh))) by (intros; f_equal; lia).
  apply (band_extended (top_of top) Y1 (fun _ => top_of top) (fun k => Y1 + k) (fun k => Y1 + k) (Y1 - 1) m1 E1); [unfold top_of; destruct top; lia|lia|intros; unfold clamp; lia|].
  assert (top_of top <= Y0) by (unfold top_of; destruct top; lia).
  intros k y Hk. apply eq_true_iff_eq. rewrite orb_true_iff, existsb_exists. split.
  - intros W. destruct (within_spec (top_of top) (Y1 + k) y); [|done]. destruct (within_spec (top_of top) Y1 y); [by left|]. right.
    exists (Z.to_nat (y - Y1)). rewrite in_seq. split; [lia|]. apply Z.eqb_eq. lia.
  - intros [W|(i & Hi & Ei)].
    + destruct (within_spec (top_of top) Y1 y); [|done]. destruct (within_spec (top_of top) (Y1 + k) y); [done|lia].
    + apply in_seq in Hi. apply Z.eqb_eq in Ei. destruct (within_spec (top_of top) (Y1 + k) y); [done|lia].
Qed.
End Expand.
End Rows.
