(* ===== verification/FramePlane.v ===== *)
(** * Frame buffers: one plane while its rows are filtered

    A plane holds [C] rows of samples coded and filtered so far, and from its upper border
    to row [R] what it holds when the frame is complete. *)
From S2P Require Import Prelude Mb CavlcMb Dct Mc Deblock DeblockStd DeblockLine DeblockFrame DeblockRows Frame FrameExpand.

(** The picture of [w] by [h] samples continued beyond its edges. *)
Definition continued (w h : Z) (p : picture) : picture := fun x y => p (clamp 0 w x) (clamp 0 h y).

Section Plane.
Context (stride P w h : Z).
Hypothesis Hw : 0 < w.
Hypothesis Hh : 0 < h.
Hypothesis HP : 0 <= P.
Hypothesis Hs : w + 2 * P <= stride.
Local Abbreviation column := (column stride P).

Record plane_inv (F S : picture) (R C : Z) (m : mem) : Prop := {
  inv_bytes : bytes_ok m;
  inv_ready : forall x y, - P <= x < w + P -> - P <= y < R -> m (y * stride + x) = continued w h F x y;
  inv_coded : forall x y, 0 <= x < w -> 0 <= y < C -> m (y * stride + x) = S x y
}.

Lemma column_padded x : - P <= x < w + P -> column x.
Proof. unfold FrameExpand.column. lia. Qed.
Lemma column_inside x : 0 <= x < w -> column x.
Proof. unfold FrameExpand.column. lia. Qed.

Lemma address_inj x y x' y' : column x -> column x' -> y * stride + x = y' * stride + x' -> x = x' /\ y = y'.
Proof. unfold FrameExpand.column. intros. assert (y = y') by nia. subst. lia. Qed.
Lemma address_of a : exists x y, column x /\ a = y * stride + x.
Proof.
  exists ((a + P) mod stride - P), ((a + P) / stride). pose proof (Z.mod_pos_bound (a + P) stride ltac:(lia)). unfold FrameExpand.column.
  split; [lia|]. pose proof (Z.div_mod (a + P) stride ltac:(lia)). lia.
Qed.

(** The borders of rows [Y0] to [Y1], of which those up to [R'] are complete. *)
Lemma expand_inv F S R C R' Y0 Y1 m : plane_inv F S R C m ->
  0 <= Y0 < Y1 -> Y1 <= C -> C <= h -> (0 < Y0 -> Y0 <= R) -> (if Y1 =? h then R' = h + P else 0 < R' <= Y1) ->
  (forall x y, 0 <= x < w -> 0 <= y < Z.min R' h -> S x y = F x y) ->
  plane_inv F S R' C (plane_expand_border m (Y0 * stride) stride w (Y1 - Y0) P P (Y0 =? 0) (Y1 =? h)).
Proof.
  intros [B HR HC] HY HYC HCh HYR HR' HF.
  pose proof (plane_expand_border_at stride P m 0 w Y0 Y1 P P B Hw ltac:(lia) HP HP ltac:(lia) ltac:(lia) (Y0 =? 0) (Y1 =? h)) as [B' E].
  rewrite Z.add_0_r, Z.sub_0_r in *. split; [done| |].
  - intros x y Hx Hy. rewrite E by by apply column_padded. unfold continued.
    destruct (within_spec (0 - P) (w + P) x); [|lia]. rewrite andb_true_r. pose proof (clamp_in 0 w x Hw). pose proof (clamp_in 0 h y Hh).
    destruct (within_spec (top_of Y0 P (Y0 =? 0)) (bottom_of Y1 P (Y1 =? h)) y) as [Hin|Hout].
    + pose proof (clamp_in Y0 Y1 y ltac:(lia)). rewrite HC by lia. unfold top_of, bottom_of in Hin.
      assert (clamp Y0 Y1 y = clamp 0 h y) as ->.
      { unfold clamp in *. destruct (Z.eqb_spec Y0 0), (Z.eqb_spec Y1 h); lia. }
      apply HF; [done|]. unfold clamp in *. destruct (Z.eqb_spec Y1 h); lia.
    + unfold top_of, bottom_of in Hout. assert (y < Y0 /\ 0 < Y0) by (destruct (Z.eqb_spec Y0 0), (Z.eqb_spec Y1 h); lia). apply HR; lia.
  - intros x y Hx Hy. rewrite E by by apply column_inside. rewrite (clamp_id 0 w) by done.
    destruct (within_spec (top_of Y0 P (Y0 =? 0)) (bottom_of Y1 P (Y1 =? h)) y) as [Hin|Hout]; cbn [andb]; [|by apply HC].
    destruct (within_spec (0 - P) (w + P) x); [|lia]. assert (Y0 <= y < Y1) as Hr by (unfold top_of, bottom_of in Hin; destruct (Z.eqb_spec Y0 0), (Z.eqb_spec Y1 h); lia).
    rewrite (clamp_id Y0 Y1) by done. by apply HC.
Qed.

(** The deblocking of rows that [sees] describes, which changes no row before [R]. *)
Lemma filter_inv F S S' R C m m' : plane_inv F S R C m -> R <= C ->
  sees stride w C m m' S' -> (forall x y, 0 <= x < w -> 0 <= y < R -> S' x y = S x y) -> plane_inv F S' R C m'.
Proof.
  intros [B HR HC] HRC [H1 H2 H3] K.
  assert (U : forall x y, column x -> ~ (0 <= x < w /\ 0 <= y < C) -> m' (y * stride + x) = m (y * stride + x)).
  { intros x y Hx N. apply H3. intros x' y' Hx' Hy' E. apply address_inj in E as [-> ->]; [tauto|done|by apply column_inside]. }
  split; [| |done].
  - intros a. pose proof (address_of a) as (x & y & Hx & ->). destruct (decide (0 <= x < w)) as [D1|D1]; [destruct (decide (0 <= y < C)) as [D2|D2]|].
    + rewrite H1 by done. by apply H2.
    + rewrite U by (done || tauto). apply B.
    + rewrite U by (done || tauto). apply B.
  - intros x y Hx Hy. destruct (decide (0 <= x < w)) as [D1|D1]; [destruct (decide (0 <= y < C)) as [D2|D2]|].
    + rewrite H1, K, <- HC by (done || lia). by apply HR.
    + rewrite U by (tauto || by apply column_padded). by apply HR.
    + rewrite U by (tauto || by apply column_padded). by apply HR.
Qed.

(** A block of samples stored in the next rows. *)
Lemma store_inv F S R C m src od_y x0 n : plane_inv F S R C m -> bytes_ok src -> R <= od_y -> C <= od_y -> 0 <= x0 -> 0 < n -> x0 + n <= w -> n <= FDEC_STRIDE ->
  let m' := mc_copy src FDEC_STRIDE m (od_y * stride + x0) stride (Z.to_nat n) (Z.to_nat n) in
  plane_inv F S R C m' /\
  (forall x y, column x -> m' (y * stride + x) =
     if within x0 (x0 + n) x && within od_y (od_y + n) y then src ((y - od_y) * FDEC_STRIDE + (x - x0)) else m (y * stride + x)).
Proof.
  intros [B HR HC] Bs HyR HyC Hx0 Hn Hx1 Hn'. cbv zeta.
  destruct (write_block m (od_y * stride + x0) stride (Z.to_nat n) (Z.to_nat n) (fun x y => src (y * FDEC_STRIDE + x)) (fun x y => src (y * FDEC_STRIDE + x)))
    as [W1 W2]; [lia|by split|]. rewrite Z2Nat.id in * by lia. fold (mc_copy src FDEC_STRIDE m (od_y * stride + x0) stride (Z.to_nat n) (Z.to_nat n)) in W1, W2.
  set (m' := mc_copy _ _ _ _ _ _ _) in *. clearbody m'.
  assert (E : forall x y, column x -> m' (y * stride + x) =
     if within x0 (x0 + n) x && within od_y (od_y + n) y then src ((y - od_y) * FDEC_STRIDE + (x - x0)) else m (y * stride + x)).
  { intros x y Hx. destruct (within_spec x0 (x0 + n) x) as [D1|D1]; [destruct (within_spec od_y (od_y + n) y) as [D2|D2]|]; cbn [andb].
    - rewrite <- W1 by lia. f_equal. lia.
    - apply W2. intros (y' & x' & Hy' & Hx' & E). assert (y * stride + x = (od_y + y') * stride + (x0 + x')) as E' by lia.
      apply address_inj in E'; [lia|done|apply column_inside; lia].
    - apply W2. intros (y' & x' & Hy' & Hx' & E). assert (y * stride + x = (od_y + y') * stride + (x0 + x')) as E' by lia.
      apply address_inj in E'; [lia|done|apply column_inside; lia]. }
  split; [|done]. split.
  - intros a. destruct (address_of a) as (x & y & Hx & ->). rewrite E by done. destruct (_ && _); [apply Bs|apply B].
  - intros x y Hx Hy. rewrite E by by apply column_padded. destruct (within_spec od_y (od_y + n) y); [lia|]. rewrite andb_false_r. by apply HR.
  - intros x y Hx Hy. rewrite E by by apply column_inside. destruct (within_spec od_y (od_y + n) y); [lia|]. rewrite andb_false_r. by apply HC.
Qed.
End Plane.

(** ** The half sample planes *)
Lemma std_plane_shift k p q x y x' y' : (forall i j, -2 <= i <= 3 -> -2 <= j <= 3 -> p (x + i) (y + j) = q (x' + i) (y' + j)) ->
  std_plane_k k p x y = std_plane_k k q x' y'.
Proof.
  intros E. assert (E0 : forall i, -2 <= i <= 3 -> p (x + i) y = q (x' + i) y') by (intros i Hi; specialize (E i 0 Hi ltac:(lia)); by rewrite !Z.add_0_r in E).
  assert (E1 : forall j, -2 <= j <= 3 -> p x (y + j) = q x' (y' + j)) by (intros j Hj; specialize (E 0 j ltac:(lia) Hj); by rewrite !Z.add_0_r in E).
  unfold std_plane_k, std_b, std_h, std_j, std_h1, std_v1, tap6. rewrite !E, !E0, !E1 by lia.
  specialize (E0 0 ltac:(lia)). rewrite !Z.add_0_r in E0. by rewrite E0.
Qed.
(** Beyond the edges every sample is a copy, and so is every half sample. *)
Lemma std_plane_continued k w h p x y : 0 < w -> 0 < h ->
  std_plane_k k (continued w h p) (clamp (-4) (w + 4) x) (clamp (-8) (h + 8) y) = std_plane_k k (continued w h p) x y.
Proof. intros Hw Hh. apply std_plane_shift. intros i j Hi Hj. unfold continued. f_equal; unfold clamp; lia. Qed.

Section Half.
Context (stride w h : Z).
Hypothesis Hw : 0 < w.
Hypothesis Hh : 0 < h.
Hypothesis Hs : w + 64 <= stride.
Local Abbreviation P := PADH.
Local Abbreviation column := (column stride P).
Record half_inv (F : picture) (R : Z) (fl : Z -> mem) : Prop := {
  half_bytes : forall k, bytes_ok (fl k);
  half_ready : forall k x y, 1 <= k < 4 -> - P <= x < w + P -> - P <= y < R -> fl k (y * stride + x) = std_plane_k k (continued w h F) x y
}.

(** What one call of the filter writes. *)
Lemma rows_are_at before after offs x0 x1 n g Y0 d : 0 <= n -> offs = Y0 * stride + d -> - P <= d + x0 -> d + x1 <= stride - P ->
  rows_are before after offs stride x0 x1 n g ->
  forall x y, column x -> after (y * stride + x) = if within Y0 (Y0 + n) y && within (d + x0) (d + x1) x then g (x - d) (y - Y0) else before (y * stride + x).
Proof.
  intros Hn -> H0 H1 [R1 R2] x y Hx.
  destruct (within_spec Y0 (Y0 + n) y) as [D1|D1]; [destruct (within_spec (d + x0) (d + x1) x) as [D2|D2]|]; cbn [andb].
  - rewrite <- R1 by lia. f_equal. lia.
  - apply R2. intros (y' & x' & Hy' & Hx' & E). assert (y * stride + x = (Y0 + y') * stride + (d + x0 + x')) as E' by lia.
    apply (address_inj stride P) in E'; [lia|done|unfold FrameExpand.column; lia].
  - apply R2. intros (y' & x' & Hy' & Hx' & E). assert (y * stride + x = (Y0 + y') * stride + (d + x0 + x')) as E' by lia.
    apply (address_inj stride P) in E'; [lia|done|unfold FrameExpand.column; lia].
Qed.

Section Step.
Context (F : picture) (m : mem) (R0 Y0 Y1 : Z) (fl : Z -> mem) (buf : mem).
Hypothesis HB : bytes_ok m.
Hypothesis Hm : forall x y, - P <= x < w + P -> - P <= y < R0 -> m (y * stride + x) = continued w h F x y.
Hypothesis HY0 : -8 <= Y0 < Y1.
Hypothesis HY1 : Y1 + 2 < R0.
Hypothesis Hfl : forall k, bytes_ok (fl k).

(** The three planes after the filter. *)
Definition hpel_planes : Z -> mem :=
  let '(dsth, dstv, dstc) := hpel_filter (fl 1) (fl 2) (fl 3) m (Y0 * stride - 8) stride (Z.to_nat (w + 16)) (Z.to_nat (Y1 - Y0)) buf in
  set_plane (set_plane (set_plane fl 1 dsth) 2 dstv) 3 dstc.

Lemma view_continued k x y : - P + 2 <= x - 8 < w + P - 3 -> Y0 <= y + Y0 < Y1 ->
  std_plane_k k (view m (Y0 * stride - 8) stride) x y = std_plane_k k (continued w h F) (x - 8) (y + Y0).
Proof.
  intros Hx Hy. apply std_plane_shift. intros i j Hi Hj. unfold view. rewrite <- Hm by (unfold PADH in *; lia). f_equal. lia.
Qed.
Lemma hpel_planes_at : (forall k, bytes_ok (hpel_planes k)) /\
  (forall k x y, 1 <= k < 4 -> -8 <= x < w + 8 -> Y0 <= y < Y1 -> hpel_planes k (y * stride + x) = std_plane_k k (continued w h F) x y) /\
  (forall k x y, column x -> ~ Y0 <= y < Y1 -> hpel_planes k (y * stride + x) = fl k (y * stride + x)).
Proof.
  unfold hpel_planes. pose proof (hpel_filter_spec (fl 1) (fl 2) (fl 3) m (Y0 * stride - 8) stride (Z.to_nat (w + 16)) (Z.to_nat (Y1 - Y0)) buf HB ltac:(lia)) as S.
  destruct (hpel_filter _ _ _ _ _ _ _ _ _) as [[dsth dstv] dstc]. cbv zeta in S. rewrite !Z2Nat.id in S by lia. destruct S as (S1 & S2 & S3).
  assert (A : forall x1 x2 before after g, rows_are before after (Y0 * stride - 8) stride x1 x2 (Y1 - Y0) g -> -2 <= x1 -> x2 <= w + 19 ->
    forall x y, column x -> after (y * stride + x) = if within Y0 Y1 y && within (-8 + x1) (-8 + x2) x then g (x - -8) (y - Y0) else before (y * stride + x)).
  { intros x1 x2 before after g R Hx1 Hx2 x y Hx. replace Y1 with (Y0 + (Y1 - Y0)) at 1 by lia.
    apply (rows_are_at before after (Y0 * stride - 8)); [lia|lia|unfold PADH; lia|unfold PADH; lia|done|done]. }
  pose proof (A _ _ _ _ _ S1 ltac:(lia) ltac:(lia)) as A1. pose proof (A _ _ _ _ _ S2 ltac:(lia) ltac:(lia)) as A2. pose proof (A _ _ _ _ _ S3 ltac:(lia) ltac:(lia)) as A3.
  clear A S1 S2 S3.
  assert (Bg : forall after before (v : Z -> Z -> Z) b, bytes_ok before -> (forall x y, 0 <= v x y < 256) ->
    (forall x y, column x -> after (y * stride + x) = if b x y : bool then v x y else before (y * stride + x)) -> bytes_ok after).
  { intros after before v b Bb Bv E a. destruct (address_of stride P w ltac:(done) ltac:(done) ltac:(unfold PADH; lia) a) as (x & y & Hx & ->).
    rewrite E by done. destruct (b x y); [apply Bv|apply Bb]. }
  unfold set_plane. split; [|split].
  - intros k. destruct (k =? 3); [|destruct (k =? 2); [|destruct (k =? 1); [|apply Hfl]]].
    + apply (Bg dstc (fl 3) _ _ (Hfl 3)) in A3; [done|]. intros. apply std_j_byte.
    + apply (Bg dstv (fl 2) _ _ (Hfl 2)) in A2; [done|]. intros. apply std_h_byte.
    + apply (Bg dsth (fl 1) _ _ (Hfl 1)) in A1; [done|]. intros. apply std_b_byte.
  - intros k x y Hk Hx Hy. assert (column x) as Cx by (unfold FrameExpand.column, PADH; lia).
    assert (G : forall k, std_plane_k k (view m (Y0 * stride - 8) stride) (x - -8) (y - Y0) = std_plane_k k (continued w h F) x y).
    { intros k'. rewrite view_continued by (unfold PADH; lia). f_equal; lia. }
    assert (k = 1 \/ k = 2 \/ k = 3) as [->|[->| ->]] by lia; cbn [Z.eqb Pos.eqb]; rewrite ?A1, ?A2, ?A3 by done;
      (destruct (within_spec Y0 Y1 y); [|lia]); (case_match; [|destruct (within_spec (-8 + 0) (-8 + (w + 16)) x) in *; destruct (within_spec (-8 + -2) (-8 + (w + 16 + 3)) x) in *; cbn [andb] in *; (done || lia)]).
    + apply (G 1). + apply (G 2). + apply (G 3).
  - intros k x y Cx Hy. destruct (k =? 3) eqn:E3; [apply Z.eqb_eq in E3; subst|destruct (k =? 2) eqn:E2; [apply Z.eqb_eq in E2; subst|destruct (k =? 1) eqn:E1; [apply Z.eqb_eq in E1; subst|done]]];
      rewrite ?A1, ?A2, ?A3 by done; destruct (within_spec Y0 Y1 y); (done || lia).
Qed.

(** The rows of the filter, extended: everything up to [R'] is complete. *)
Lemma half_step R R' (first last : bool) : half_inv F R fl ->
  (first = true -> Y0 = -8) -> (first = false -> Y0 = R) -> Y1 <= h + 8 -> (last = true -> Y1 = h + 8) -> R' = Y1 + (if last then 24 else 0) ->
  half_inv F R' (fun k => if (k =? 1) || (k =? 2) || (k =? 3) then
     plane_expand_border (hpel_planes k) (Y0 * stride - 4) stride (w + 8) (Y1 - Y0) 28 24 first last else hpel_planes k).
Proof.
  intros [_ HR] Hfirst Hnext HY1h Hlast ->. destruct hpel_planes_at as (Bq & Q1 & Q2).
  assert (E : forall k, extended stride P (hpel_planes k) (-4) (w + 4) Y0 Y1 28 (top_of Y0 24 first) (bottom_of Y1 24 last)
    (plane_expand_border (hpel_planes k) (Y0 * stride - 4) stride (w + 8) (Y1 - Y0) 28 24 first last)).
  { intros k. pose proof (plane_expand_border_at stride P (hpel_planes k) (-4) (w + 4) Y0 Y1 28 24 (Bq k) ltac:(lia) ltac:(lia) ltac:(lia) ltac:(lia)
      ltac:(unfold PADH; lia) ltac:(unfold PADH; lia) first last) as E. by replace (w + 4 - -4) with (w + 8) in E by lia. }
  split.
  - intros k. destruct (_ || _); [apply E|apply Bq].
  - intros k x y Hk Hx Hy. replace ((k =? 1) || (k =? 2) || (k =? 3)) with true by (assert (k = 1 \/ k = 2 \/ k = 3) as [->|[->| ->]] by lia; done).
    assert (column x) as Cx by (unfold FrameExpand.column, PADH in *; lia). destruct (E k) as [_ ->]; [|done].
    unfold top_of, bottom_of. destruct (within_spec (Y0 - (if first then 24 else 0)) (Y1 + (if last then 24 else 0)) y) as [D|D].
    + destruct (within_spec (-4 - 28) (w + 4 + 28) x); [|unfold PADH in *; lia]. cbn [andb].
      pose proof (clamp_in (-4) (w + 4) x ltac:(lia)). pose proof (clamp_in Y0 Y1 y ltac:(lia)). rewrite Q1 by lia.
      assert (clamp Y0 Y1 y = clamp (-8) (h + 8) y) as -> by (unfold clamp; destruct first, last; try rewrite Hfirst by done; try rewrite Hlast by done; lia).
      by apply std_plane_continued.
    + cbn [andb]. rewrite Q2 by (done || (destruct first, last; lia)). apply HR; [done|done|]. unfold PADH in *. destruct first; [pose proof (Hfirst eq_refl)|pose proof (Hnext eq_refl)]; destruct last; lia.
Qed.
End Step.
End Half.
