(* ===== verification/Sums.v ===== *)
(** Sums over intervals and rectangles, as the metrics and the integral picture compute
    them. *)
From S2P Require Import Prelude DeblockFrame.

Definition zsum (n : Z) (f : Z -> Z) : Z := for_ (Z.to_nat n) 0 (fun i s => s + f i) 0.
Definition box_sum (p : Z -> Z -> Z) (x y w h : Z) : Z := zsum h (fun j => zsum w (fun i => p (x + i) (y + j))).

Lemma zsum_0 f : zsum 0 f = 0. Proof. done. Qed.
Lemma zsum_next n f : 0 <= n -> zsum (n + 1) f = zsum n f + f n.
Proof. intros Hn. unfold zsum. replace (Z.to_nat (n + 1)) with (S (Z.to_nat n)) by lia. rewrite for_snoc. do 2 f_equal; lia. Qed.
Lemma zsum_ext n f g : (forall i, 0 <= i < n -> f i = g i) -> zsum n f = zsum n g.
Proof. intros E. apply for_ext. intros i s Hi. rewrite E; [done|lia]. Qed.
Lemma zsum_ind (P : Z -> Z -> Prop) n f : 0 <= n -> P 0 0 -> (forall i s, 0 <= i < n -> P i s -> P (i + 1) (s + f i)) -> P n (zsum n f).
Proof.
  intros Hn H0 HS. unfold zsum. replace n with (0 + Z.of_nat (Z.to_nat n)) at 1 by lia. refine (for_inv P _ 0 _ 0 H0 _). intros i s Hi. apply HS. lia.
Qed.
Lemma zsum_add n k f : 0 <= n -> 0 <= k -> zsum (n + k) f = zsum n f + zsum k (fun i => f (n + i)).
Proof.
  intros Hn. revert k. apply natlike_ind; [by rewrite Z.add_0_r, zsum_0, Z.add_0_r|]. intros i Hi IH. unfold Z.succ.
  rewrite Z.add_assoc, !zsum_next by lia. rewrite IH. lia.
Qed.
Lemma zsum_plus n f g : 0 <= n -> zsum n (fun i => f i + g i) = zsum n f + zsum n g.
Proof. revert n. apply natlike_ind; [done|]. intros i Hi IH. unfold Z.succ. rewrite !zsum_next by done. rewrite IH. lia. Qed.
Lemma zsum_bounds n f lo hi : 0 <= n -> (forall i, 0 <= i < n -> lo <= f i <= hi) -> n * lo <= zsum n f <= n * hi.
Proof.
  intros Hn B. apply (zsum_ind (fun i s => i * lo <= s <= i * hi)); [done|lia|]. intros i s Hi Hs. specialize (B i Hi). lia.
Qed.

Section Box.
Context (p : Z -> Z -> Z).
Lemma box_row x y w h : 0 <= h -> box_sum p x y w (h + 1) = box_sum p x y w h + zsum w (fun i => p (x + i) (y + h)).
Proof. intros Hh. unfold box_sum. by rewrite zsum_next. Qed.
Lemma box_width x y w1 w2 h : 0 <= w1 -> 0 <= w2 -> 0 <= h -> box_sum p x y (w1 + w2) h = box_sum p x y w1 h + box_sum p (x + w1) y w2 h.
Proof.
  intros H1 H2 Hh. unfold box_sum. rewrite <- zsum_plus by done. apply zsum_ext. intros j _. rewrite zsum_add by done. f_equal. apply zsum_ext. intros i _. f_equal. lia.
Qed.
Lemma box_height x y w h1 h2 : 0 <= h1 -> 0 <= h2 -> box_sum p x y w (h1 + h2) = box_sum p x y w h1 + box_sum p x (y + h1) w h2.
Proof. intros H1 H2. unfold box_sum. rewrite zsum_add by done. f_equal. apply zsum_ext. intros j _. apply zsum_ext. intros i _. f_equal. lia. Qed.
(** A block from the sums of four corners. *)
Lemma box_corners x0 y0 x y w h : 0 <= x -> 0 <= y -> 0 <= w -> 0 <= h ->
  box_sum p (x0 + x) (y0 + y) w h =
  box_sum p x0 y0 (x + w) (y + h) - box_sum p x0 y0 (x + w) y - box_sum p x0 y0 x (y + h) + box_sum p x0 y0 x y.
Proof. intros Hx Hy Hw Hh. rewrite !(box_height _ _ _ y h), !box_width by done. lia. Qed.
Lemma box_bounds x y w h : 0 <= w -> 0 <= h -> (forall i j, 0 <= i < w -> 0 <= j < h -> 0 <= p (x + i) (y + j) < 256) -> 0 <= box_sum p x y w h <= h * (w * 255).
Proof.
  intros Hw Hh B. unfold box_sum. replace 0 with (h * 0) at 1 by lia. apply zsum_bounds; [done|]. intros j Hj.
  replace 0 with (w * 0) by lia. apply zsum_bounds; [done|]. intros i Hi. specialize (B i j Hi Hj). lia.
Qed.
End Box.


(** A loop that adds to what it starts with. *)
Lemma for_sum n f s : for_ n 0 (fun i s => s + f i) s = s + zsum (Z.of_nat n) f.
Proof.
  unfold zsum. rewrite Nat2Z.id. generalize 0 at 1 2. revert s. induction n as [|n IH]; intros s lo; simpl; [lia|].
  rewrite IH, (IH (0 + f lo)). lia.
Qed.
Lemma for_box (f : Z -> Z -> Z) (w h : nat) s :
  for_ h 0 (fun y s => for_ w 0 (fun x s => s + f x y) s) s = s + box_sum f 0 0 (Z.of_nat w) (Z.of_nat h).
Proof.
  rewrite (for_ext h 0 _ (fun y s => s + zsum (Z.of_nat w) (fun x => f x y))) by (intros; apply for_sum). by rewrite for_sum.
Qed.
Lemma zsum_nonneg n f : 0 <= n -> (forall i, 0 <= i < n -> 0 <= f i) -> 0 <= zsum n f.
Proof. intros Hn H. apply (zsum_ind (fun _ s => 0 <= s)); [done|done|]. intros i s Hi Hs. specialize (H i Hi). lia. Qed.
Lemma zsum_le n f g : 0 <= n -> (forall i, 0 <= i < n -> f i <= g i) -> zsum n f <= zsum n g.
Proof.
  revert n. apply (natlike_ind (fun n => (forall i, 0 <= i < n -> f i <= g i) -> zsum n f <= zsum n g)); [done|].
  intros n Hn IH H. unfold Z.succ. rewrite !zsum_next by done. pose proof (H n ltac:(lia)). assert (zsum n f <= zsum n g) by (apply IH; intros; apply H; lia). lia.
Qed.
Lemma zsum_scale n c f : 0 <= n -> zsum n (fun i => c * f i) = c * zsum n f.
Proof. revert n. apply natlike_ind; [rewrite !zsum_0; lia|]. intros n Hn IH. unfold Z.succ. rewrite !zsum_next by done. rewrite IH. lia. Qed.
Lemma box_ext p q x y w h : (forall i j, 0 <= i < w -> 0 <= j < h -> p (x + i) (y + j) = q (x + i) (y + j)) -> box_sum p x y w h = box_sum q x y w h.
Proof. intros E. apply zsum_ext. intros j Hj. apply zsum_ext. intros i Hi. by apply E. Qed.
Lemma box_shift p x y dx dy w h : box_sum (fun i j => p (x + i) (y + j)) dx dy w h = box_sum p (x + dx) (y + dy) w h.
Proof. apply zsum_ext. intros j _. apply zsum_ext. intros i _. f_equal; lia. Qed.
Lemma box_nonneg p x y w h : 0 <= w -> 0 <= h -> (forall i j, 0 <= i < w -> 0 <= j < h -> 0 <= p (x + i) (y + j)) -> 0 <= box_sum p x y w h.
Proof. intros Hw Hh H. apply zsum_nonneg; [done|]. intros j Hj. apply zsum_nonneg; [done|]. intros i Hi. by apply H. Qed.
Lemma zsum_swap n k (f : Z -> Z -> Z) : 0 <= n -> 0 <= k -> zsum n (fun i => zsum k (fun j => f i j)) = zsum k (fun j => zsum n (fun i => f i j)).
Proof.
  intros Hn Hk. revert n Hn. apply natlike_ind.
  - rewrite zsum_0. pose proof (zsum_bounds k (fun j => zsum 0 (fun i => f i j)) 0 0 Hk (fun _ _ => ltac:(cbv beta; rewrite zsum_0; lia))). lia.
  - intros n Hn IH. unfold Z.succ. rewrite zsum_next, IH by done. rewrite <- zsum_plus by done. apply zsum_ext. intros j _. by rewrite zsum_next.
Qed.
Lemma zsum_term n f k : 0 <= k < n -> (forall i, 0 <= i < n -> 0 <= f i) -> f k <= zsum n f.
Proof.
  intros Hk H. replace n with (k + 1 + (n - (k + 1))) by lia. rewrite zsum_add, zsum_next by lia.
  pose proof (zsum_nonneg k f ltac:(lia) (fun i Hi => H i ltac:(lia))). pose proof (zsum_nonneg (n - (k + 1)) (fun i => f (k + 1 + i)) ltac:(lia) (fun i Hi => H (k + 1 + i) ltac:(lia))). lia.
Qed.
