(* ===== verification/Integral.v ===== *)
(** * The integral image of a frame

    Row by row [x264_frame_filter] accumulates sums of samples and turns the rows that are
    eight behind into the sums of blocks, in words of 16 bits and in place. *)
From S2P Require Import Prelude Mb CavlcMb Dct Mc Deblock DeblockStd DeblockLine DeblockFrame Frame FrameExpand FramePlane Sums.

(** ** Words of 16 bits *)
Lemma u16_eq a b : (exists k, a = b + k * 2 ^ 16) -> u16 a = u16 b.
Proof. intros [k ->]. unfold uw. by rewrite Z.mod_add. Qed.
Lemma u16_diff a : exists k, u16 a = a + k * 2 ^ 16.
Proof. exists (- (a / 2 ^ 16)). unfold uw. pose proof (Z.div_mod a (2 ^ 16) ltac:(lia)). lia. Qed.

(** ** The image *)
Section Image.
Context (stride w h : Z) (P : picture) (ref : mem) (YM : Z).
Hypothesis Hw : 0 < w.
Hypothesis Hh : 0 < h.
Hypothesis Hs : w + 64 <= stride.
Hypothesis HP : forall x y, -31 <= x < w + 32 -> -32 <= y < YM -> 0 <= P x y < 256.
Local Abbreviation at_rc m r c := (m (r * stride + c)).
(** All samples above row [r] and left of column [c]. *)
Definition corner (r c : Z) : Z := box_sum P (-31) (-32) (c + 31) (r + 32).

(** When the rows before [Y] are done. *)
Record int_inv (Y : Z) (m : mem) : Prop := {
  int_corners : forall r c, Y - 8 < r <= Y -> -32 <= r -> -31 <= c <= w + 31 -> at_rc m r c = u16 (corner r c);
  int_8x8 : forall r c, -30 <= r <= Y - 8 -> -31 <= c <= w + 23 -> at_rc m r c = box_sum P c r 8 8;
  int_4x4 : forall r c, -30 <= r <= Y - 8 -> -31 <= c <= w + 23 -> at_rc m (r + (h + 64)) c = box_sum P c r 4 4
}.

Lemma box_of_corners r c d : -32 <= r -> -31 <= c -> 0 <= d -> corner (r + d) (c + d) - corner r (c + d) - corner (r + d) c + corner r c = box_sum P c r d d.
Proof.
  intros Hr Hc Hd. unfold corner. pose proof (box_corners P (-31) (-32) (c + 31) (r + 32) d d ltac:(lia) ltac:(lia) Hd Hd) as E.
  replace (-31 + (c + 31)) with c in E by lia. replace (-32 + (r + 32)) with r in E by lia.
  replace (c + 31 + d) with (c + d + 31) in E by lia. replace (r + 32 + d) with (r + d + 32) in E by lia. lia.
Qed.
Lemma box_word c r d : d = 4 \/ d = 8 -> -31 <= c -> c + d <= w + 32 -> -32 <= r -> r + d <= YM -> u16 (box_sum P c r d d) = box_sum P c r d d.
Proof.
  intros Hd Hc Hcw Hr Hrm. apply uw_small.
  pose proof (box_bounds P c r d d ltac:(lia) ltac:(lia) (fun i j Hi Hj => HP (c + i) (r + j) ltac:(lia) ltac:(lia))). destruct Hd as [->| ->]; lia.
Qed.

(** The new row of corners. *)
Lemma corners_row y m : -32 <= y -> (forall c, -31 <= c <= w + 31 -> at_rc m y c = u16 (corner y c)) ->
  (forall c, -31 <= c < w + 32 -> ref (y * stride + c) = P c y) ->
  let line := (y + 1) * stride - PADH + 1 in
  let m' := (for_ (Z.to_nat (stride - 2)) 1 (fun x '(m, v) =>
    let v := u16 (v + (ref (y * stride - PADH + x) + m (line + x - stride) - m (line + x - stride - 1))) in
    (upd m (line + x) v, v)) (upd m line 0, 0)).1 in
  (forall c, -31 <= c <= w + 31 -> at_rc m' (y + 1) c = u16 (corner (y + 1) c)) /\
  (forall q, ~ line <= q < line + stride - 1 -> m' q = m q).
Proof.
  intros Hy HC HR line m'.
  assert (A : forall n, Z.of_nat n <= stride - 2 -> let '(m1, v) := for_ n 1 (fun x '(m, v) =>
      let v := u16 (v + (ref (y * stride - PADH + x) + m (line + x - stride) - m (line + x - stride - 1))) in (upd m (line + x) v, v)) (upd m line 0, 0) in
    (Z.of_nat n <= w + 62 -> v = u16 (corner (y + 1) (-31 + Z.of_nat n))) /\
    (forall x, 0 <= x <= Z.of_nat n -> x <= w + 62 -> m1 (line + x) = u16 (corner (y + 1) (-31 + x))) /\
    (forall q, ~ line <= q <= line + Z.of_nat n -> m1 q = m q)).
  { assert (C0 : forall r, corner r (-31) = 0).
    { intros r. unfold corner, box_sum. change (-31 + 31) with 0. unfold zsum at 1. refine (for_inv (fun _ s => s = 0) _ 0 _ 0 eq_refl _). intros i s _ ->. done. }
    induction n as [|n IH]; intros Hn.
    - cbn [for_]. split; [|split].
      + intros _. by rewrite Z.add_0_r, C0.
      + intros x Hx _. replace x with 0 by lia. rewrite !Z.add_0_r, upd_eq, C0. done.
      + intros q Hq. apply upd_ne. lia.
    - rewrite for_snoc. specialize (IH ltac:(lia)). destruct (for_ n 1 _ _) as [m1 v]. destruct IH as (I1 & I2 & I3). cbv zeta. set (x := 1 + Z.of_nat n) in *.
      assert (EV : x <= w + 62 -> u16 (v + (ref (y * stride - PADH + x) + m1 (line + x - stride) - m1 (line + x - stride - 1))) = u16 (corner (y + 1) (-31 + x))).
      { intros Hx. rewrite !I3 by (unfold line; lia). rewrite I1 by lia.
        replace (line + x - stride) with (y * stride + (-31 + x)) by (unfold line, PADH; lia).
        replace (y * stride + (-31 + x) - 1) with (y * stride + (-32 + x)) by lia. rewrite !HC by lia.
        replace (y * stride - PADH + x) with (y * stride + (-32 + x)) by (unfold PADH; lia). rewrite HR by lia.
        replace (-31 + Z.of_nat n) with (-32 + x) by lia.
        assert (E : corner (y + 1) (-31 + x) = corner (y + 1) (-32 + x) + P (-32 + x) y + corner y (-31 + x) - corner y (-32 + x)).
        { pose proof (box_of_corners y (-32 + x) 1 Hy ltac:(lia) ltac:(lia)) as E. replace (-32 + x + 1) with (-31 + x) in E by lia.
          assert (box_sum P (-32 + x) y 1 1 = P (-32 + x) y) as EB by (unfold box_sum, zsum; change (Z.to_nat 1) with 1%nat; cbn [for_]; rewrite !Z.add_0_r, !Z.add_0_l; done). lia. }
        destruct (u16_diff (corner (y + 1) (-32 + x))) as [k1 ->], (u16_diff (corner y (-31 + x))) as [k2 ->], (u16_diff (corner y (-32 + x))) as [k3 ->].
        apply u16_eq. exists (k1 + k2 - k3). lia. }
      replace (Z.of_nat (S n)) with x by lia. split; [|split].
      + intros Hx. by apply EV.
      + intros x' Hx' Hw'. destruct (Z.eq_dec x' x) as [->|Hne]; [rewrite upd_eq; by apply EV|]. rewrite upd_ne by lia. apply I2; lia.
      + intros q Hq. rewrite upd_ne by lia. apply I3. lia. }
  specialize (A (Z.to_nat (stride - 2)) ltac:(lia)). subst m'. destruct (for_ _ 1 _ _) as [m1 v]. destruct A as (_ & A2 & A3). cbn [fst]. split.
  - intros c Hc. specialize (A2 (c + 31) ltac:(lia) ltac:(lia)). replace (line + (c + 31)) with ((y + 1) * stride + c) in A2 by (unfold line, PADH; lia).
    rewrite A2. by replace (-31 + (c + 31)) with c by lia.
  - intros q Hq. apply A3. lia.
Qed.

(** The row eight behind becomes sums of blocks. *)
Lemma blocks_row y m : -23 <= y <= h + 31 -> y < YM ->
  (forall r c, y - 7 <= r <= y + 1 -> -31 <= c <= w + 31 -> at_rc m r c = u16 (corner r c)) ->
  let line := (y - 7) * stride - PADH + 1 in
  let m' := for_ (Z.to_nat (stride - 9)) 0 (fun x m =>
      let l := line + x in
      let sum4 := line + stride * (h + PADV * 2) + x in
      let m := upd m sum4 (u16 (m (l + 4 + 4 * stride) - m (l + 4) - m (l + 4 * stride) + m l)) in
      upd m l (u16 (m l + (m (l + 8 + 8 * stride) - m (l + 8) - m (l + 8 * stride))))) m in
  (forall c, -31 <= c <= w + 23 -> at_rc m' (y - 7) c = box_sum P c (y - 7) 8 8 /\ at_rc m' (y - 7 + (h + 64)) c = box_sum P c (y - 7) 4 4) /\
  (forall r c, column stride PADH c -> r <> y - 7 -> r <> y - 7 + (h + 64) -> at_rc m' r c = at_rc m r c).
Proof.
  intros Hy Hym HC line m'.
  assert (A : forall n, Z.of_nat n <= stride - 9 -> let m1 := for_ n 0 (fun x m =>
      let l := line + x in
      let sum4 := line + stride * (h + PADV * 2) + x in
      let m := upd m sum4 (u16 (m (l + 4 + 4 * stride) - m (l + 4) - m (l + 4 * stride) + m l)) in
      upd m l (u16 (m l + (m (l + 8 + 8 * stride) - m (l + 8) - m (l + 8 * stride))))) m in
    (forall c, -31 <= c < -31 + Z.of_nat n -> c <= w + 23 -> at_rc m1 (y - 7) c = box_sum P c (y - 7) 8 8 /\ at_rc m1 (y - 7 + (h + 64)) c = box_sum P c (y - 7) 4 4) /\
    (forall r c, column stride PADH c -> ~ ((r = y - 7 \/ r = y - 7 + (h + 64)) /\ -31 <= c < -31 + Z.of_nat n) -> at_rc m1 r c = at_rc m r c)).
  { induction n as [|n IH]; intros Hn; cbv zeta; [split; [lia|done]|]. rewrite for_snoc. specialize (IH ltac:(lia)). cbv zeta in IH.
    set (m1 := for_ n 0 _ m) in *. clearbody m1. destruct IH as [I1 I2]. rewrite Z.add_0_l. set (c0 := -31 + Z.of_nat n) in *.
    replace (line + stride * (h + PADV * 2) + Z.of_nat n) with ((y - 7 + (h + 64)) * stride + c0) by (unfold line, PADH, PADV; lia).
    replace (line + Z.of_nat n + 4 + 4 * stride) with ((y - 7 + 4) * stride + (c0 + 4)) by (unfold line, PADH; lia).
    replace (line + Z.of_nat n + 4 * stride) with ((y - 7 + 4) * stride + c0) by (unfold line, PADH; lia).
    replace (line + Z.of_nat n + 4) with ((y - 7) * stride + (c0 + 4)) by (unfold line, PADH; lia).
    replace (line + Z.of_nat n + 8 + 8 * stride) with ((y - 7 + 8) * stride + (c0 + 8)) by (unfold line, PADH; lia).
    replace (line + Z.of_nat n + 8 * stride) with ((y - 7 + 8) * stride + c0) by (unfold line, PADH; lia).
    replace (line + Z.of_nat n + 8) with ((y - 7) * stride + (c0 + 8)) by (unfold line, PADH; lia).
    replace (line + Z.of_nat n) with ((y - 7) * stride + c0) by (unfold line, PADH; lia).
    assert (Inj : forall r c r' c', column stride PADH c -> column stride PADH c' -> (r <> r' \/ c <> c') -> r * stride + c <> r' * stride + c').
    { intros r c r' c' H1 H2 Hd E. apply (address_inj stride PADH) in E as [-> ->]; [|done..]. tauto. }
    assert (Col : forall d, 0 <= d <= 8 -> column stride PADH (c0 + d)) by (intros d Hd; unfold column, PADH, c0; lia).
    pose proof (Col 0 ltac:(lia)) as Col0. rewrite Z.add_0_r in Col0.
    assert (V : c0 <= w + 23 ->
      u16 (m1 ((y - 7 + 4) * stride + (c0 + 4)) - m1 ((y - 7) * stride + (c0 + 4)) - m1 ((y - 7 + 4) * stride + c0) + m1 ((y - 7) * stride + c0)) = box_sum P c0 (y - 7) 4 4 /\
      u16 (m1 ((y - 7) * stride + c0) + (m1 ((y - 7 + 8) * stride + (c0 + 8)) - m1 ((y - 7) * stride + (c0 + 8)) - m1 ((y - 7 + 8) * stride + c0))) = box_sum P c0 (y - 7) 8 8).
    { intros Hc. rewrite !I2 by (first [done|apply Col; lia] || lia). rewrite !HC by lia. split.
      - rewrite <- (box_word c0 (y - 7) 4) by (auto; lia). rewrite <- (box_of_corners (y - 7) c0 4) by lia.
        destruct (u16_diff (corner (y - 7 + 4) (c0 + 4))) as [k1 ->], (u16_diff (corner (y - 7) (c0 + 4))) as [k2 ->], (u16_diff (corner (y - 7 + 4) c0)) as [k3 ->], (u16_diff (corner (y - 7) c0)) as [k4 ->].
        apply u16_eq. exists (k1 - k2 - k3 + k4). lia.
      - rewrite <- (box_word c0 (y - 7) 8) by (auto; lia). rewrite <- (box_of_corners (y - 7) c0 8) by lia.
        destruct (u16_diff (corner (y - 7 + 8) (c0 + 8))) as [k1 ->], (u16_diff (corner (y - 7) (c0 + 8))) as [k2 ->], (u16_diff (corner (y - 7 + 8) c0)) as [k3 ->], (u16_diff (corner (y - 7) c0)) as [k4 ->].
        apply u16_eq. exists (k1 - k2 - k3 + k4). lia. }
    set (v4 := u16 (m1 ((y - 7 + 4) * stride + (c0 + 4)) - _ - _ + _)) in *. set (m2 := upd m1 _ v4).
    assert (M2 : forall r c, column stride PADH c -> (r <> y - 7 + (h + 64) \/ c <> c0) -> m2 (r * stride + c) = m1 (r * stride + c)) by (intros r c Hc Hd; apply upd_ne, Inj; done).
    rewrite !M2 by (first [done|apply Col; lia] || lia).
    split.
    - intros c Hc Hcw. assert (column stride PADH c) as Cc by (unfold column, PADH; lia). destruct (Z.eq_dec c c0) as [->|Hne].
      + destruct (V Hcw) as [V4 V8]. rewrite upd_eq, upd_ne by (apply Inj; [done|done|lia]). unfold m2. by rewrite upd_eq.
      + rewrite !upd_ne by (apply Inj; [done|done|lia]). unfold m2. rewrite !upd_ne by (apply Inj; [done|done|lia]). apply I1; lia.
    - intros r c Cc N. rewrite upd_ne by (apply Inj; [done|done|lia]). unfold m2. rewrite upd_ne by (apply Inj; [done|done|lia]). apply I2; [done|lia]. }
  specialize (A (Z.to_nat (stride - 9)) ltac:(lia)). destruct A as [A1 A2]. split.
  - intros c Hc. apply A1; lia.
  - intros r c Cc H1 H2. apply A2; [done|lia].
Qed.

Lemma integral_row_step Y m : -32 <= Y <= h + 31 -> Y < YM -> (forall c, -31 <= c < w + 32 -> ref (Y * stride + c) = P c Y) ->
  int_inv Y m -> int_inv (Y + 1) (integral_row ref stride h Y m).
Proof.
  intros HY HYM HR [C8 B8 B4]. unfold integral_row. cbv zeta.
  destruct (corners_row Y m ltac:(lia) ltac:(intros; apply C8; lia) HR) as [R1 R2]. cbv zeta in R1, R2.
  destruct (for_ (Z.to_nat (stride - 2)) 1 _ _) as [m1 v]. cbn [fst] in R1, R2.
  assert (K : forall r c, r <> Y + 1 -> column stride PADH c -> at_rc m1 r c = at_rc m r c).
  { intros r c Hr Hc. unfold column, PADH in Hc. apply R2. unfold PADH. intros Hq. assert (r = Y + 1); [nia|done]. }
  assert (Col : forall c, -31 <= c <= w + 31 -> column stride PADH c) by (intros c Hc; unfold column, PADH; lia).
  assert (C1 : forall r c, Y - 8 < r <= Y + 1 -> -32 <= r -> -31 <= c <= w + 31 -> at_rc m1 r c = u16 (corner r c)).
  { intros r c Hr Hr' Hc. destruct (Z.eq_dec r (Y + 1)) as [->|Hne]; [by apply R1|]. rewrite K by (done || by apply Col). apply C8; lia. }
  destruct (Z.geb_spec Y (9 - PADV)) as [Hy|Hy].
  - unfold PADV in Hy. destruct (blocks_row Y m1 ltac:(lia) HYM ltac:(intros; apply C1; lia)) as [S1 S2]. cbv zeta in S1, S2.
    replace ((Y + 1) * stride - PADH + 1 - 8 * stride) with ((Y - 7) * stride - PADH + 1) by lia. set (m2 := for_ _ 0 _ m1) in *. clearbody m2. split.
    + intros r c Hr Hr' Hc. rewrite S2 by (lia || by apply Col). apply C1; lia.
    + intros r c Hr Hc. destruct (Z.eq_dec r (Y - 7)) as [->|Hne]; [by apply S1|]. rewrite S2, K by (lia || (apply Col; lia)). apply B8; lia.
    + intros r c Hr Hc. destruct (Z.eq_dec r (Y - 7)) as [->|Hne]; [by apply S1|]. rewrite S2, K by (lia || (apply Col; lia)). apply B4; lia.
  - unfold PADV in Hy. split; [intros; apply C1; lia|intros; lia|intros; lia].
Qed.

(** The rows of one call. *)
Lemma integral_rows_step Y Y' start height (b_end : bool) m :
  (if start <? 0 then True else start = Y /\ int_inv Y m) -> Y' = height + (if b_end then 24 else 0) -> -32 <= (if start <? 0 then -32 else start) <= Y' -> Y' <= h + 32 -> Y' <= YM ->
  (forall c y, -31 <= c < w + 32 -> -32 <= y < Y' -> ref (y * stride + c) = P c y) ->
  int_inv Y' (integral_rows ref stride h start height b_end m).
Proof.
  intros H0 HY' Hst Hle HYM HR. unfold integral_rows.
  set (m0 := if start <? 0 then for_ (Z.to_nat stride) 0 (fun i m => upd m (- PADV * stride - PADH + i) 0) m else m).
  set (s0 := if start <? 0 then - PADV else start).
  assert (E : (if start <? 0 then (for_ (Z.to_nat stride) 0 (fun i m => upd m (- PADV * stride - PADH + i) 0) m, - PADV) else (m, start)) = (m0, s0)) by (unfold m0, s0; by destruct (start <? 0)).
  rewrite E. clear E.
  assert (I0 : int_inv s0 m0).
  { unfold s0, m0 in *. destruct (start <? 0); [|by destruct H0 as [-> ?]]. unfold PADV.
    destruct (for_row (Z.to_nat stride) (fun i => - 32 * stride - PADH + i) (fun _ _ => 0) m) as [R1 _]; [lia|]. split; [|intros; lia|intros; lia].
    intros r c Hr Hr' Hc. assert (r = -32) as -> by lia. specialize (R1 (c + 32) ltac:(lia)). cbv beta in R1.
    replace (-32 * stride - PADH + (c + 32)) with (-32 * stride + c) in R1 by (unfold PADH; lia). unfold corner. change (-32 + 32) with 0.
    change (box_sum P (-31) (-32) (c + 31) 0) with 0. exact R1. }
  assert (ES : Y' = s0 + Z.of_nat (Z.to_nat ((if b_end then height + (PADV - 8) else height) - s0))).
  { change (PADV - 8) with 24. unfold s0 in *. change (- PADV) with (-32) in *. destruct b_end; lia. }
  rewrite ES. refine (for_inv (fun y m => int_inv y m) _ s0 _ m0 I0 _).
  intros y m' Hy I. apply integral_row_step; [unfold s0 in *; change (- PADV) with (-32) in *; destruct (start <? 0); lia| | |done].
  { unfold s0 in *; change (- PADV) with (-32) in *; destruct (start <? 0); lia. }
  intros c Hc. apply HR; [done|]. unfold s0 in *; change (- PADV) with (-32) in *; destruct (start <? 0); lia.
Qed.
End Image.
