(* ===== verification/FrameSlice.v ===== *)
(** * Frame buffers: the loop of a slice

    While the macroblocks of a progressive frame are coded row by row, the rows before are
    deblocked, extended and interpolated.  The invariant says how far each plane is. *)
From S2P Require Import Prelude Mb CavlcMb Dct Mc Deblock DeblockStd DeblockLine DeblockFrame DeblockMb DeblockCorrect DeblockTheorem DeblockRows Frame FrameExpand FramePlane Integral.

(** ** Loops over planes *)
Lemma for_1 {A} lo (g : Z -> A -> A) s : for_ 1 lo g s = g lo s.
Proof. done. Qed.
Lemma for_set_plane n lo (g : Z -> mem -> mem) p j :
  for_ n lo (fun i p => set_plane p i (g i (p i))) p j = if within lo (lo + Z.of_nat n) j then g j (p j) else p j.
Proof.
  revert lo p. induction n as [|n IH]; intros lo p; cbn [for_]; [destruct (within_spec lo (lo + Z.of_nat 0) j); [lia|done]|].
  rewrite IH, set_plane_eq. destruct (Z.eqb_spec j lo) as [->|Hne].
  - destruct (within_spec (lo + 1) (lo + 1 + Z.of_nat n) lo), (within_spec lo (lo + Z.of_nat (Datatypes.S n)) lo); (lia || done).
  - destruct (within_spec (lo + 1) (lo + 1 + Z.of_nat n) j), (within_spec lo (lo + Z.of_nat (Datatypes.S n)) j); (lia || done).
Qed.

Lemma unit_split u a x : 0 <= x < u -> (u * a + x) / u = a /\ (u * a + x) mod u = x.
Proof.
  intros Hx. rewrite (Z.mul_comm u). split; [rewrite Z.div_add_l, Z.div_small by lia; lia|]. by rewrite Z.add_comm, Z.mod_add, Z.mod_small by lia.
Qed.

(** The height of the picture does not matter to the filter of a row. *)
Definition set_height (d : deblock_t) (n : Z) : deblock_t :=
  DeblockT (d_type d) (d_mbaff d) (d_alpha_offset d) (d_beta_offset d) (d_chroma_offset d) (d_psub8x8 d) (d_cabac d)
    (d_transform_8x8_mode d) (d_width d) n (d_mb_stride d) (d_mb_type d) (d_qp d) (d_transform_size d) (d_nnz d)
    (d_ref d) (d_mv d) (d_stride d).
Section Height.
Context (d : deblock_t) (n : Z).
Local Abbreviation d' := (set_height d n).
Lemma FILTER_DIR_height : FILTER_DIR d' = FILTER_DIR d.
Proof. unfold FILTER_DIR. change (deblock_edge d') with (deblock_edge d). change (deblock_edge_intra d') with (deblock_edge_intra d). reflexivity. Qed.
Lemma DEBLOCK_STRENGTH_height : DEBLOCK_STRENGTH d' = DEBLOCK_STRENGTH d.
Proof. reflexivity. Qed.
Lemma DEBLOCK_DIR_height : DEBLOCK_DIR d' = DEBLOCK_DIR d.
Proof. unfold DEBLOCK_DIR. rewrite FILTER_DIR_height, DEBLOCK_STRENGTH_height. reflexivity. Qed.
Lemma deblock_row_loop_height : deblock_row_loop d' = deblock_row_loop d.
Proof. unfold deblock_row_loop, deblock_mb. rewrite DEBLOCK_DIR_height. reflexivity. Qed.
End Height.
Lemma munge_height d n mb_y f st : (forall y b, f (set_height d n) y b = f d y b) -> munge_cavlc_nnz (set_height d n) mb_y f st = munge_cavlc_nnz d mb_y f st.
Proof. intros E. unfold munge_cavlc_nnz. by rewrite !E. Qed.
Lemma deblock_row_height d n mb_y st : x264_frame_deblock_row (set_height d n) mb_y st = x264_frame_deblock_row d mb_y st.
Proof.
  unfold x264_frame_deblock_row. rewrite (munge_height d n mb_y munge_cavlc_nnz_row) by done.
  change (d_cabac (set_height d n)) with (d_cabac d). change (d_transform_8x8_mode (set_height d n)) with (d_transform_8x8_mode d).
  destruct (if _ : bool then _ else _) as [nnz bak]. rewrite (munge_height d n mb_y restore_cavlc_nnz_row) by done.
  change (set_nnz (set_height d n) nnz) with (set_height (set_nnz d nnz) n). by rewrite deblock_row_loop_height.
Qed.

(** The sizes of plane [p] in samples: of a macroblock and of the border. *)
Definition unit (p : Z) : Z := if p =? 0 then 16 else 8.
Definition pad (p : Z) : Z := 2 * unit p.
Lemma unit_pos p : unit p = 16 \/ unit p = 8.
Proof. unfold unit. destruct (p =? 0); auto. Qed.
Lemma shr_unit a p : shr_chroma (16 * a) p = unit p * a.
Proof. unfold shr_chroma, unit. destruct (p =? 0); cbn [negb b2i]; [apply Z.shiftr_0_r|]. rewrite Z.shiftr_div_pow2 by done. change (2 ^ 1) with 2. Z.to_euclidean_division_equations; lia. Qed.
Lemma shr_row k s p : shr_chroma ((16 * k - 4) * s) p = (unit p * k - unit p / 4) * s.
Proof.
  unfold shr_chroma, unit. destruct (p =? 0); cbn [negb b2i]; [rewrite Z.shiftr_0_r; change (16 / 4) with 4; lia|].
  rewrite Z.shiftr_div_pow2 by done. change (2 ^ 1) with 2. change (8 / 4) with 2.
  replace ((16 * k - 4) * s) with ((8 * k - 2) * s * 2) by lia. by rewrite Z.div_mul.
Qed.
Lemma quarter_unit p : unit p / 4 = (if p =? 0 then 4 else 2) /\ 0 < unit p / 4 < unit p.
Proof. unfold unit. destruct (p =? 0); vm_compute; done. Qed.

Section Slice.
Context (h : slice_ctx) (pic_of : Z -> Z -> Z) (fenc : x264_frame_t) (buf : mem).
Context (coded : Z -> planes * planes -> planes) (tables : Z -> deblock_t) (info : picture_info) (st0 : row_state).
Local Abbreviation MW := (c_mb_width h).
Local Abbreviation MH := (c_mb_height h).
Local Abbreviation f0 := (r_frame st0).

(** The size of the picture of plane [p]. *)
Definition pw (p : Z) : Z := unit p * MW.
Definition ph (p : Z) : Z := unit p * MH.

(** The tables of the macroblocks coded when row [y] is filtered agree with those of the
    whole picture on the rows up to [y]. *)
Record tables_ok (y : Z) (d : deblock_t) : Prop := {
  tab_ok : deblock_ok pic_of d;
  tab_width : d_width d = MW;
  tab_height : d_height d = y + 1;
  tab_stride : forall p, 0 <= p < 3 -> stride_of d p = f_stride f0 p;
  tab_params : same_params (info_of pic_of d) info;
  tab_rows : forall j, 0 <= j <= y -> same_row (info_of pic_of d) info MW j
}.
Record slice_ok : Prop := {
  sl_progressive : c_mbaff h = 0 /\ c_interlaced h = 0;
  sl_size : 0 < MW /\ 0 < MH;
  sl_ref : c_kept_as_ref h = true;
  sl_subpel : c_subpel_refine h <> 0;
  sl_stride : forall p, 0 <= p < 3 -> pw p + 2 * pad p <= f_stride f0 p;
  sl_width : f_width f0 0 = pw 0;
  sl_lines : f_lines f0 0 = ph 0;
  sl_bytes : forall p, bytes_ok (f_plane f0 p) /\ bytes_ok (f_filtered f0 p);
  sl_fresh : f_lines_completed f0 < 0;
  sl_coded : forall n pic p, bytes_ok (coded n pic p);
  sl_info : pi_width info = MW /\ pi_height info = MH;
  sl_tables : forall y, 0 <= y < MH -> tables_ok y (set_height (tables ((y + 1) * MW)) (y + 1))
}.
Hypothesis ok : slice_ok.

(** ** The pictures *)
Local Abbreviation prefix n := (slice_prefix h fenc buf coded tables n st0).
Local Abbreviation load n := (slice_load h fenc buf tables (Z.of_nat n) (prefix n)).
(** What the coding of macroblock [n] leaves. *)
Definition coded_at (n : nat) : planes := coded (Z.of_nat n) (r_pic (load n)).
(** The reconstructed picture. *)
Definition recon (p : Z) : picture := fun x y =>
  coded_at (Z.to_nat (y / unit p * MW + x / unit p)) p ((y mod unit p) * FDEC_STRIDE + x mod unit p).
(** The picture when [k] rows of macroblocks are filtered. *)
Definition deblocks : bool := c_deblocking_disabled h =? 0.
Definition stage (k : Z) : Z -> picture :=
  if deblocks then for_ (Z.to_nat k) 0 (fun mby => for_ (Z.to_nat MW) 0 (fun mbx => std_mb info mbx mby)) recon else recon.
Definition final : Z -> picture := if deblocks then std_deblock info recon else recon.

Lemma final_stage : final = stage MH.
Proof. unfold final, stage, std_deblock. destruct (sl_info ok) as [-> ->]. done. Qed.
Lemma stage_0 : stage 0 = recon.
Proof. unfold stage. by destruct deblocks. Qed.
Lemma stage_next k : 0 <= k -> stage (k + 1) = if deblocks then for_ (Z.to_nat MW) 0 (fun mbx => std_mb info mbx k) (stage k) else stage k.
Proof.
  intros Hk. unfold stage. destruct deblocks; [|done]. replace (Z.to_nat (k + 1)) with (Datatypes.S (Z.to_nat k)) by lia.
  rewrite for_snoc. by replace (0 + Z.of_nat (Z.to_nat k)) with k by lia.
Qed.
Lemma unit_rows p k : 0 <= p < 3 -> row_lo p k = unit p * k - (if p =? 0 then 3 else 1) /\ row_hi p k = unit p * (k + 1).
Proof. intros Hp. unfold row_lo, row_hi, unit. destruct (p =? 0); lia. Qed.
(** A row of macroblocks changes its own samples and a few rows above. *)
Lemma stage_keeps p k x y : 0 <= p < 3 -> 0 <= k -> ~ row_lo p k <= y < row_hi p k -> stage (k + 1) p x y = stage k p x y.
Proof. intros Hp Hk Hy. rewrite stage_next by done. destruct deblocks; [|done]. by apply std_row_rows. Qed.
Lemma stage_below p k x y : 0 <= p < 3 -> 0 <= k -> unit p * k <= y -> stage k p x y = recon p x y.
Proof.
  intros Hp Hk. pattern k. apply natlike_ind; [by rewrite stage_0| |done]. intros i Hi IH Hy. unfold Z.succ in *.
  destruct (unit_rows p i Hp). assert (0 < unit p) by (unfold unit; destruct (p =? 0); lia). rewrite stage_keeps by (done || nia). apply IH. nia.
Qed.
Lemma stage_final p k x y : 0 <= p < 3 -> 0 <= k <= MH -> y < row_lo p k \/ k = MH -> stage k p x y = final p x y.
Proof.
  intros Hp Hk Hy. rewrite final_stage. destruct Hy as [Hy| ->]; [|done].
  assert (G : forall i, 0 <= i -> stage (k + i) p x y = stage k p x y).
  { apply natlike_ind; [by rewrite Z.add_0_r|]. intros i Hi IH. unfold Z.succ. rewrite Z.add_assoc, stage_keeps; [done|done|lia|].
    destruct (unit_rows p k Hp), (unit_rows p (k + i) Hp). assert (0 < unit p) by (unfold unit; destruct (p =? 0); lia). nia. }
  rewrite <- (G (MH - k)) by lia. do 2 f_equal. lia.
Qed.

(** ** How far the planes are

    With [k] rows of macroblocks filtered: the rows that are complete, borders included, in
    plane [p] and in the half sample planes. *)
Definition ready (p k : Z) : Z := if k =? 0 then - pad p else if k =? MH then ph p + pad p else unit p * k - unit p / 4.
Definition ready_half (k : Z) : Z := if k =? 0 then -32 else if k =? MH then ph 0 + 32 else 16 * k - 8.
Definition integral_ready (k : Z) : Z := if k =? MH then ph 0 + 32 else 16 * k - 8.
Record frame_inv (k j : Z) (f : x264_frame_t) : Prop := {
  fi_geometry : f_stride f = f_stride f0 /\ f_width f = f_width f0 /\ f_lines f = f_lines f0;
  fi_plane : forall p, 0 <= p < 3 -> plane_inv (f_stride f0 p) (pad p) (pw p) (ph p) (final p) (stage k p) (ready p k) (unit p * k) (f_plane f p);
  (* the first [j] macroblocks of row [k] are stored *)
  fi_stored : forall p x y, 0 <= p < 3 -> 0 <= x < unit p * j -> unit p * k <= y < unit p * (k + 1) -> f_plane f p (y * f_stride f0 p + x) = recon p x y;
  fi_half : half_inv (f_stride f0 0) (pw 0) (ph 0) (final 0) (ready_half k) (f_filtered f);
  fi_integral : forall m, f_integral f = Some m -> 0 < k -> int_inv (f_stride f0 0) (pw 0) (ph 0) (continued (pw 0) (ph 0) (final 0)) (integral_ready k) m;
  fi_completed : f_lines_completed f < 0 \/ f_lines_completed f <= 16 * k - 24 \/ k = MH
}.

Lemma pw_pos p : 0 < pw p /\ 0 < ph p.
Proof. unfold pw, ph. destruct (sl_size ok), (unit_pos p); nia. Qed.
Lemma recon_byte p x y : 0 <= recon p x y < 256.
Proof. apply (sl_coded ok). Qed.
Lemma stride_plane p : 0 <= p < 3 -> 0 < pw p /\ 0 < ph p /\ 0 <= pad p /\ pw p + 2 * pad p <= f_stride f0 p.
Proof. intros Hp. destruct (pw_pos p). pose proof (sl_stride ok p Hp). unfold pad in *. destruct (unit_pos p); lia. Qed.

Lemma frame_inv_0 : frame_inv 0 0 f0.
Proof.
  split; [done| | | |intros; lia|left; apply (sl_fresh ok)].
  - intros p Hp. split; [apply (sl_bytes ok)| |intros; lia]. unfold ready. cbn [Z.eqb]. intros; lia.
  - intros; lia.
  - split; [apply (sl_bytes ok)|]. unfold ready_half, PADH. cbn [Z.eqb]. intros; lia.
Qed.

(** ** Storing a macroblock *)
Lemma store_pic_at pics mbx mby i f p : c_interlaced h = 0 -> 0 <= mbx -> 0 <= mby ->
  f_plane (x264_macroblock_store_pic h pics mbx mby i f) p =
  if p =? i then mc_copy (pics i) FDEC_STRIDE (f_plane f i) (unit i * mby * f_stride f i + unit i * mbx) (f_stride f i) (Z.to_nat (unit i)) (Z.to_nat (unit i)) else f_plane f p.
Proof.
  intros Hi Hx Hy. unfold x264_macroblock_store_pic, mb_pix_offset. rewrite Hi. cbn [f_plane set_planes]. rewrite set_plane_eq. destruct (p =? i); [|done].
  rewrite Z.shiftl_0_r. change (i2b 0) with false. cbv iota. fold (unit i). f_equal. lia.
Qed.
Lemma store_pics pics mbx mby f : c_interlaced h = 0 -> 0 <= mbx -> 0 <= mby ->
  let f' := for_ 3 0 (x264_macroblock_store_pic h pics mbx mby) f in
  f_stride f' = f_stride f /\ f_width f' = f_width f /\ f_lines f' = f_lines f /\ f_filtered f' = f_filtered f /\ f_lines_completed f' = f_lines_completed f /\ f_integral f' = f_integral f /\
  forall p, 0 <= p < 3 -> f_plane f' p = mc_copy (pics p) FDEC_STRIDE (f_plane f p) (unit p * mby * f_stride f p + unit p * mbx) (f_stride f p) (Z.to_nat (unit p)) (Z.to_nat (unit p)).
Proof.
  intros Hi Hx Hy. cbv zeta. cbn [for_]. repeat (split; [done|]). intros p Hp. rewrite !store_pic_at by done.
  assert (p = 0 \/ p = 1 \/ p = 2) as [->|[->| ->]] by lia; done.
Qed.
Lemma recon_block n p x y : 0 <= p < 3 -> 0 <= x < unit p -> 0 <= y < unit p ->
  let '(mbx, mby) := (Z.of_nat n mod MW, Z.of_nat n / MW) in
  recon p (unit p * mbx + x) (unit p * mby + y) = coded_at n p (y * FDEC_STRIDE + x).
Proof.
  intros Hp Hx Hy. unfold recon. destruct (sl_size ok) as [HW _].
  destruct (unit_split (unit p) (Z.of_nat n / MW) y ltac:(lia)) as [-> ->], (unit_split (unit p) (Z.of_nat n mod MW) x ltac:(lia)) as [-> ->].
  do 2 f_equal. pose proof (Z.div_mod (Z.of_nat n) MW ltac:(lia)). lia.
Qed.

Lemma ready_coded p k : 0 <= p < 3 -> 0 <= k < MH -> ready p k <= unit p * k.
Proof.
  intros Hp Hk. unfold ready, pad. destruct (Z.eqb_spec k 0) as [->|]; [destruct (unit_pos p); lia|].
  destruct (Z.eqb_spec k MH); [lia|]. destruct (unit_pos p) as [->| ->]; [change (16 / 4) with 4|change (8 / 4) with 2]; lia.
Qed.
(** Macroblock [n] stored. *)
Lemma store_step n f : let '(mbx, mby) := (Z.of_nat n mod MW, Z.of_nat n / MW) in
  mby < MH -> frame_inv mby mbx f -> frame_inv mby (mbx + 1) (for_ 3 0 (x264_macroblock_store_pic h (coded_at n) mbx mby) f).
Proof.
  intros Hy [(G1 & G2 & G3) HP HS HH HI HC]. destruct (sl_size ok) as [HW _]. destruct (sl_progressive ok) as [_ Hi].
  pose proof (Z.mod_pos_bound (Z.of_nat n) MW HW) as Hm. pose proof (Z.div_pos (Z.of_nat n) MW ltac:(lia) HW) as Hd.
  destruct (store_pics (coded_at n) (Z.of_nat n mod MW) (Z.of_nat n / MW) f Hi ltac:(lia) Hd) as (S1 & S2 & S3 & S4 & S5 & S7 & S6).
  pose proof (fun p Hp x y => recon_block n p x y Hp) as RB. cbv beta zeta iota in RB.
  set (mbx := Z.of_nat n mod MW) in *. set (mby := Z.of_nat n / MW) in *. set (f' := for_ 3 0 _ f) in *. clearbody f'. rewrite G1 in S6.
  assert (St : forall p, 0 <= p < 3 -> let m' := f_plane f' p in
    plane_inv (f_stride f0 p) (pad p) (pw p) (ph p) (final p) (stage mby p) (ready p mby) (unit p * mby) m' /\
    forall x y, column (f_stride f0 p) (pad p) x -> m' (y * f_stride f0 p + x) =
      if within (unit p * mbx) (unit p * mbx + unit p) x && within (unit p * mby) (unit p * mby + unit p) y
      then coded_at n p ((y - unit p * mby) * FDEC_STRIDE + (x - unit p * mbx)) else f_plane f p (y * f_stride f0 p + x)).
  { intros p Hp. cbv zeta. rewrite S6 by done. destruct (stride_plane p Hp) as (P1 & P2 & P3 & P4). pose proof (ready_coded p mby Hp ltac:(lia)).
    assert (unit p * mbx + unit p <= pw p) by (unfold pw; destruct (unit_pos p); nia).
    apply store_inv; try done; try (apply HP; done); try (apply (sl_coded ok)); try (destruct (unit_pos p); unfold FDEC_STRIDE; lia). }
  split.
  - by rewrite S1, S2, S3.
  - intros p Hp. by apply St.
  - intros p x y Hp Hx Hyy. destruct (St p Hp) as [_ E]. destruct (stride_plane p Hp) as (P1 & P2 & P3 & P4).
    assert (unit p * (mbx + 1) <= pw p) by (unfold pw; destruct (unit_pos p); nia).
    rewrite E by (unfold column; lia). destruct (within_spec (unit p * mby) (unit p * mby + unit p) y); [|lia]. rewrite andb_true_r.
    destruct (within_spec (unit p * mbx) (unit p * mbx + unit p) x).
    + rewrite <- RB by lia. f_equal; lia.
    + apply HS; lia.
  - by rewrite S4.
  - by rewrite S7.
  - by rewrite S5.
Qed.

(** ** Deblocking a row *)
Lemma row_full k f p : 0 <= k < MH -> 0 <= p < 3 -> frame_inv k MW f ->
  plane_inv (f_stride f0 p) (pad p) (pw p) (ph p) (final p) (stage k p) (ready p k) (unit p * (k + 1)) (f_plane f p).
Proof.
  intros Hk Hp [_ HP HS _ _ _]. destruct (HP p Hp) as [B R C]. split; [done|done|]. intros x y Hx Hy.
  destruct (Z.lt_ge_cases y (unit p * k)); [apply C; lia|]. rewrite HS by (unfold pw in Hx; lia). symmetry. apply stage_below; lia.
Qed.
Lemma stage_byte k p x y : 0 <= k < MH -> 0 <= p < 3 -> forall f, frame_inv k MW f -> 0 <= x < pw p -> 0 <= y < unit p * (k + 1) -> 0 <= stage k p x y < 256.
Proof. intros Hk Hp f HF Hx Hy. destruct (row_full k f p Hk Hp HF) as [B _ C]. rewrite <- C by done. apply B. Qed.

Local Abbreviation row_tables k := (tables ((k + 1) * MW)).
Definition deblocked (k : Z) (f : x264_frame_t) : planes := if deblocks then (x264_frame_deblock_row (row_tables k) k (d_nnz (row_tables k), f_plane f)).2 else f_plane f.
Lemma deblock_step k f p : 0 <= k < MH -> 0 <= p < 3 -> frame_inv k MW f ->
  plane_inv (f_stride f0 p) (pad p) (pw p) (ph p) (final p) (stage (k + 1) p) (ready p k) (unit p * (k + 1)) (deblocked k f p).
Proof.
  intros Hk Hp HF. pose proof (fun p Hp => row_full k f p Hk Hp HF) as RF. unfold deblocked. rewrite stage_next by lia. destruct deblocks eqn:D; [|by apply RF].
  destruct (sl_tables ok k Hk) as [T1 T2 T3 T4 T5 T6]. set (d' := set_height (row_tables k) (k + 1)) in *.
  assert (Hsize : forall p, 0 <= p < 3 -> stride_of d' p = f_stride f0 p /\ width_of d' p = pw p /\ height_of d' p = unit p * (k + 1)).
  { intros q Hq. split; [by apply T4|]. unfold width_of, height_of, pw, unit. rewrite T2, T3. destruct (q =? 0); lia. }
  assert (S0 : sees_planes d' (f_plane f) (f_plane f) (stage k)).
  { intros q Hq. destruct (Hsize q Hq) as (-> & -> & ->). destruct (RF q Hq) as [B R C]. split; [done| |done].
    intros x y Hx Hy. rewrite <- C by done. apply B. }
  destruct (deblock_row_std pic_of d' T1 (f_plane f) k (d_nnz d') (f_plane f) (stage k) ltac:(rewrite T3; lia) ltac:(done) S0) as [_ S1].
  change (d_nnz d') with (d_nnz (row_tables k)) in S1. unfold d' in S1 at 2. rewrite deblock_row_height in S1.
  specialize (S1 p Hp). destruct (Hsize p Hp) as (E1 & E2 & E3). rewrite E1, E2, E3 in S1.
  rewrite T2, (std_row_info (info_of pic_of d') info MW k T5 (T6 k ltac:(lia)) ltac:(intros; apply T6; lia)) in S1 by (destruct (sl_size ok); lia).
  destruct (stride_plane p Hp) as (P1 & P2 & P3 & P4). pose proof (ready_coded p k Hp Hk) as Hrc.
  apply (filter_inv (f_stride f0 p) (pad p) (pw p) (ph p) P1 P3 P4 (final p) (stage k p) _ _ _ (f_plane f p)); [by apply RF|destruct (unit_pos p); lia|done|].
  intros x y Hx Hy. apply std_row_rows. destruct (unit_rows p k Hp) as [-> ->].
  assert (k <> 0) by (intros ->; unfold ready in Hy; cbn [Z.eqb] in Hy; lia). unfold ready in Hy. destruct (Z.eqb_spec k 0); [done|]. destruct (Z.eqb_spec k MH); [lia|].
  unfold unit in *. destruct (p =? 0); [change (16 / 4) with 4 in Hy|change (8 / 4) with 2 in Hy]; lia.
Qed.

(** ** Borders *)
(** The rows whose borders are extended after row [k]. *)
Definition expand_lo (p k : Z) : Z := if k =? 0 then 0 else unit p * k - unit p / 4.
Definition expand_hi (p k : Z) : Z := if k + 1 =? MH then ph p else expand_lo p k + unit p.
Lemma expand_border_planes f k p : c_mbaff h = 0 -> 0 <= k < MH -> 0 <= p < 3 -> 0 < f_stride f p ->
  f_plane (x264_frame_expand_border h f k (k + 1 =? MH)) p =
  plane_expand_border (f_plane f p) (expand_lo p k * f_stride f p) (f_stride f p) (pw p) (expand_hi p k - expand_lo p k) (pad p) (pad p)
    (expand_lo p k =? 0) (expand_hi p k =? ph p).
Proof.
  intros Hm Hk Hp Hst. unfold x264_frame_expand_border. rewrite Hm, Z.land_0_r. change (i2b 0) with false. cbv iota. cbn [f_plane set_planes].
  set (b_end := k + 1 =? MH).
  match goal with |- for_ 3 0 ?b _ _ = _ => rewrite (for_set_plane 3 0 (fun i m => plane_expand_border m (Z.max 0 (shr_chroma ((16 * k - 4) * f_stride f i) i)) (f_stride f i)
    (shr_chroma (16 * MW) i) (if b_end && negb (k =? 0) then shr_chroma (if b_end then (16 * (MH - k)) >> 0 else 16) i + (4 >> (b2i (negb (i =? 0)) + 0)) else shr_chroma (if b_end then (16 * (MH - k)) >> 0 else 16) i)
    (shr_chroma PADH i) (shr_chroma PADV i) (k =? 0) b_end)) end.
  destruct (within_spec 0 (0 + Z.of_nat 3) p); [|lia]. destruct (quarter_unit p) as [Q1 Q2]. rewrite Z.shiftr_0_r, Z.add_0_r, shr_row.
  assert (E4 : 4 >> b2i (negb (p =? 0)) = unit p / 4) by (rewrite Q1; by destruct (p =? 0)). rewrite E4.
  assert (Epad : shr_chroma PADH p = pad p) by (unfold pad, unit, shr_chroma; by destruct (p =? 0)). change PADV with PADH. rewrite Epad, shr_unit. fold (pw p).
  assert (Eh : shr_chroma (if b_end then 16 * (MH - k) else 16) p = if b_end then unit p * (MH - k) else unit p)
    by (destruct b_end; [apply shr_unit|rewrite <- (Z.mul_1_r 16), shr_unit; lia]). rewrite Eh.
  assert (Y0 : Z.max 0 ((unit p * k - unit p / 4) * f_stride f p) = expand_lo p k * f_stride f p).
  { unfold expand_lo. destruct (Z.eqb_spec k 0) as [->|]; [nia|]. apply Z.max_r. assert (unit p * 1 <= unit p * k) by (apply Z.mul_le_mono_nonneg_l; lia). apply Z.mul_nonneg_nonneg; lia. }
  assert (Y1 : (if b_end && negb (k =? 0) then (if b_end then unit p * (MH - k) else unit p) + unit p / 4 else if b_end then unit p * (MH - k) else unit p) = expand_hi p k - expand_lo p k).
  { unfold expand_hi, expand_lo, ph. fold b_end. destruct b_end eqn:Eb; destruct (Z.eqb_spec k 0) as [->|]; cbn [andb negb]; lia. }
  rewrite Y0, Y1. f_equal.
  - unfold expand_lo. destruct (Z.eqb_spec k 0) as [->|]; [done|]. symmetry. apply Z.eqb_neq. nia.
  - unfold expand_hi. fold b_end. destruct b_end eqn:Eb; [by rewrite Z.eqb_refl|]. symmetry. apply Z.eqb_neq. apply Z.eqb_neq in Eb. unfold expand_lo, ph. destruct (Z.eqb_spec k 0); nia.
Qed.
Lemma expand_step k p m : 0 <= k < MH -> 0 <= p < 3 ->
  plane_inv (f_stride f0 p) (pad p) (pw p) (ph p) (final p) (stage (k + 1) p) (ready p k) (unit p * (k + 1)) m ->
  plane_inv (f_stride f0 p) (pad p) (pw p) (ph p) (final p) (stage (k + 1) p) (ready p (k + 1)) (unit p * (k + 1))
    (plane_expand_border m (expand_lo p k * f_stride f0 p) (f_stride f0 p) (pw p) (expand_hi p k - expand_lo p k) (pad p) (pad p) (expand_lo p k =? 0) (expand_hi p k =? ph p)).
Proof.
  intros Hk Hp I. destruct (stride_plane p Hp) as (P1 & P2 & P3 & P4). destruct (quarter_unit p) as [Q1 Q2].
  assert (L : expand_lo p k = if k =? 0 then 0 else unit p * k - unit p / 4) by done.
  apply (expand_inv (f_stride f0 p) (pad p) (pw p) (ph p) P1 P2 P3 P4 (final p) (stage (k + 1) p) (ready p k) (unit p * (k + 1))); [done|..].
  - unfold expand_hi, ph. rewrite L. destruct (Z.eqb_spec (k + 1) MH); destruct (Z.eqb_spec k 0); nia.
  - unfold expand_hi, ph. rewrite L. destruct (Z.eqb_spec (k + 1) MH); destruct (Z.eqb_spec k 0); nia.
  - unfold ph. nia.
  - rewrite L. unfold ready. destruct (Z.eqb_spec k 0); [lia|]. destruct (Z.eqb_spec k MH); lia.
  - unfold expand_hi, ready. destruct (Z.eqb_spec (k + 1) 0); [lia|]. destruct (Z.eqb_spec (k + 1) MH); [by rewrite Z.eqb_refl|].
    destruct (Z.eqb_spec (expand_lo p k + unit p) (ph p)) as [E|_]; [exfalso; revert E; rewrite L; unfold ph; destruct (Z.eqb_spec k 0); nia|].
    rewrite L. destruct (Z.eqb_spec k 0); nia.
  - intros x y Hx Hy. apply stage_final; [done|lia|]. destruct (Z.eqb_spec (k + 1) MH) as [->|]; [by right|]. left.
    destruct (unit_rows p (k + 1) Hp) as [-> _]. unfold ready in Hy. destruct (Z.eqb_spec (k + 1) 0); [lia|]. destruct (Z.eqb_spec (k + 1) MH); [lia|].
    rewrite Q1 in Hy. destruct (p =? 0); lia.
Qed.

(** ** Filtering a row *)
Definition frame_2 (k : Z) (f : x264_frame_t) : x264_frame_t := x264_frame_expand_border h (set_planes f (deblocked k f)) k (k + 1 =? MH).
Lemma frame_2_inv k f p : 0 <= k < MH -> 0 <= p < 3 -> frame_inv k MW f ->
  plane_inv (f_stride f0 p) (pad p) (pw p) (ph p) (final p) (stage (k + 1) p) (ready p (k + 1)) (unit p * (k + 1)) (f_plane (frame_2 k f) p).
Proof.
  intros Hk Hp HF. destruct (stride_plane p Hp) as (P1 & P2 & P3 & P4). destruct (fi_geometry _ _ _ HF) as (G1 & _). destruct (sl_progressive ok) as [Hm _].
  assert (G1' : f_stride (set_planes f (deblocked k f)) p = f_stride f0 p) by (cbn [f_stride set_planes]; by rewrite G1).
  unfold frame_2. rewrite expand_border_planes, G1' by (done || (rewrite G1'; lia)). apply expand_step; [done|done|]. by apply deblock_step.
Qed.

(** The half samples of the rows whose surroundings are complete. *)
Definition half_lo (k : Z) : Z := 16 * k - 8.
Definition half_hi (k : Z) : Z := if k + 1 =? MH then ph 0 + 8 else 16 * k + 8.
Lemma half_planes k f : 0 <= k < MH -> frame_inv k MW f ->
  let f' := x264_frame_expand_border_filtered h (x264_frame_filter h buf (frame_2 k f) k (k + 1 =? MH)) k (k + 1 =? MH) in
  f_plane f' = f_plane (frame_2 k f) /\ f_stride f' = f_stride f0 /\ f_width f' = f_width f0 /\ f_lines f' = f_lines f0 /\
  f_lines_completed f' = f_lines_completed f /\
  f_integral f' = (m ← f_integral f; Some (integral_rows (f_plane (frame_2 k f) 0) (f_stride f0 0) (ph 0) (half_lo k) (if k + 1 =? MH then ph 0 + 8 else 16 * k + 8) (k + 1 =? MH) m)) /\
  forall q, f_filtered f' q =
    let Q := hpel_planes (f_stride f0 0) (pw 0) (f_plane (frame_2 k f) 0) (half_lo k) (half_hi k) (f_filtered f) buf in
    if (q =? 1) || (q =? 2) || (q =? 3) then
      plane_expand_border (Q q) (half_lo k * f_stride f0 0 - 4) (f_stride f0 0) (pw 0 + 8) (half_hi k - half_lo k) 28 24 (k =? 0) (k + 1 =? MH)
    else Q q.
Proof.
  intros Hk HF. destruct (fi_geometry _ _ _ HF) as (G1 & G2 & G3). destruct (sl_progressive ok) as [Hm _].
  assert (E2 : f_stride (frame_2 k f) = f_stride f0 /\ f_width (frame_2 k f) = f_width f0 /\ f_lines (frame_2 k f) = f_lines f0 /\
    f_filtered (frame_2 k f) = f_filtered f /\ f_lines_completed (frame_2 k f) = f_lines_completed f /\ f_integral (frame_2 k f) = f_integral f).
  { unfold frame_2, x264_frame_expand_border. rewrite Hm, Z.land_0_r. change (i2b 0) with false. cbv iota. cbn. done. }
  destruct E2 as (S1 & S2 & S3 & S4 & S5 & S6). set (g := frame_2 k f) in *. set (b_end := k + 1 =? MH). cbv zeta.
  unfold x264_frame_filter. rewrite Hm, Z.land_0_r. change (i2b 0) with false. cbv iota. rewrite Z.shiftl_0_r, !Z.shiftr_0_r, S1, S2, S3, (sl_width ok), (sl_lines ok).
  change (Z.to_nat (1 + 0)) with 1%nat. cbn [for_]. rewrite Z.mul_0_l, Z.add_0_r, S4.
  replace ((k * 16 - 8) * f_stride f0 0 - 8) with (half_lo k * f_stride f0 0 - 8) by (unfold half_lo; lia).
  replace (Z.to_nat ((if b_end then ph 0 else k * 16) + 8 - (k * 16 - 8))) with (Z.to_nat (half_hi k - half_lo k)) by (unfold half_hi, half_lo; fold b_end; destruct b_end; f_equal; lia).
  fold (hpel_planes (f_stride f0 0) (pw 0) (f_plane g 0) (half_lo k) (half_hi k) (f_filtered f) buf).
  set (Q := hpel_planes _ _ _ _ _ _ _).
  match goal with |- context [match f_integral ?g' with Some _ => _ | None => _ end] => set (f3 := match f_integral g' with Some m => set_integral g' _ | None => g' end) end.
  assert (E3 : f_stride f3 = f_stride f0 /\ f_width f3 = f_width f0 /\ f_lines f3 = f_lines f0 /\ f_filtered f3 = Q /\ f_lines_completed f3 = f_lines_completed f /\ f_plane f3 = f_plane g /\
    f_integral f3 = (m ← f_integral f; Some (integral_rows (f_plane g 0) (f_stride f0 0) (ph 0) (half_lo k) (if b_end then ph 0 + 8 else 16 * k + 8) b_end m))).
  { subst f3. cbn [f_integral set_filtered]. rewrite <- S6. destruct (f_integral g) as [mi|] eqn:Ei; cbn [f_stride f_width f_lines f_filtered f_lines_completed f_plane f_integral set_integral set_filtered mbind option_bind]; [|done].
    do 6 (split; [done|]). replace (k * 16 - 8) with (half_lo k) by (unfold half_lo; lia). replace ((if b_end then ph 0 else k * 16) + 8) with (if b_end then ph 0 + 8 else 16 * k + 8) by (destruct b_end; lia). by rewrite S3, (sl_lines ok). }
  destruct E3 as (T1 & T2 & T3 & T4 & T5 & T6 & T7). clearbody f3.
  unfold x264_frame_expand_border_filtered. rewrite Hm. change (i2b 0) with false. cbv iota zeta. cbn [f_plane f_stride f_width f_lines f_lines_completed f_filtered f_integral set_filtered].
  do 5 (split; [done|]). split; [exact T7|]. intros q. rewrite T1, T4.
  rewrite (for_set_plane 3 1 (fun i m => plane_expand_border m ((16 * k - (8 << 0)) * f_stride f0 0 - 4) (f_stride f0 0) (16 * MW + 8)
    (if b_end then (16 * (MH - k) >> 0) + 16 else 16) (PADH - 4) (PADV - 8) (k =? 0) b_end)).
  replace (within 1 (1 + Z.of_nat 3) q) with ((q =? 1) || (q =? 2) || (q =? 3)).
  2: { apply eq_true_iff_eq. rewrite !orb_true_iff, !Z.eqb_eq. destruct (within_spec 1 (1 + Z.of_nat 3) q); [|split; [lia|done]]. split; [done|lia]. }
  destruct (_ || _); [|done]. change (8 << 0) with 8. fold (half_lo k). change (PADH - 4) with 28. change (PADV - 8) with 24. rewrite Z.shiftr_0_r.
  change (pw 0) with (16 * MW). f_equal. unfold half_hi, half_lo. fold b_end. change (ph 0) with (16 * MH). destruct b_end; lia.
Qed.
Lemma half_inv_ext stride w hh F R fl fl' : (forall k, fl' k = fl k) -> half_inv stride w hh F R fl -> half_inv stride w hh F R fl'.
Proof. intros E [B HR]. split; intros; rewrite E; auto. Qed.

(** The backup of the last row before it is filtered. *)
Definition backup_ok (k : Z) (b : borders) : Prop := forall p x, 0 <= p < 3 -> 0 <= x < pw p -> b 0 p x = recon p x (unit p * k - 1).
Lemma backup_step k f b : 0 <= k < MH -> frame_inv k MW f ->
  backup_ok (k + 1) (for_ (Z.to_nat (0 + 1)) 0 (fun j b => for_ 3 0 (fun i b =>
      set_border b j i (memcpy (b j i) 0 (f_plane f i) ((shr_chroma ((k + 1) * 16) i + j - 1 - 0) * f_stride f i) (shr_chroma (MW * 16) i))) b) b).
Proof.
  intros Hk HF p x Hp Hx. destruct (fi_geometry _ _ _ HF) as (G1 & _). change (Z.to_nat (0 + 1)) with 1%nat.
  assert (E : memcpy (b 0 p) 0 (f_plane f p) ((shr_chroma ((k + 1) * 16) p + 0 - 1 - 0) * f_stride f p) (shr_chroma (MW * 16) p) x = recon p x (unit p * (k + 1) - 1)).
  { rewrite (Z.mul_comm _ 16), (Z.mul_comm MW), !shr_unit, G1. fold (pw p). rewrite memcpy_at by lia. rewrite in_range_b by lia.
    rewrite Z.add_0_r, !Z.sub_0_r. rewrite u8_byte by apply (row_full k f p Hk Hp HF). apply (fi_stored _ _ _ HF); [done|unfold pw in Hx; lia|destruct (unit_pos p); lia]. }
  cbn [for_]. unfold set_border. assert (p = 0 \/ p = 1 \/ p = 2) as [->|[->| ->]] by lia; exact E.
Qed.

Lemma integral_step k f m0 : frame_inv k MW f -> 0 <= k < MH -> f_integral f = Some m0 ->
  int_inv (f_stride f0 0) (pw 0) (ph 0) (continued (pw 0) (ph 0) (final 0)) (integral_ready (k + 1))
    (integral_rows (f_plane (frame_2 k f) 0) (f_stride f0 0) (ph 0) (half_lo k) (if k + 1 =? MH then ph 0 + 8 else 16 * k + 8) (k + 1 =? MH) m0).
Proof.
  intros HF Hk E0. destruct (frame_2_inv k f 0 Hk ltac:(lia) HF) as [B2 R2 _]. destruct (stride_plane 0 ltac:(lia)) as (P1 & P2 & P3 & P4). change (pad 0) with 32 in *.
  change (ph 0) with (16 * MH) in *.
  assert (L : integral_ready (k + 1) <= ready 0 (k + 1) /\ -8 < integral_ready (k + 1) <= 16 * MH + 32).
  { unfold integral_ready, ready. change (pad 0) with 32. change (ph 0) with (16 * MH). change (unit 0) with 16. change (16 / 4) with 4. destruct (Z.eqb_spec (k + 1) 0), (Z.eqb_spec (k + 1) MH); lia. }
  assert (EY : integral_ready (k + 1) = (if k + 1 =? MH then 16 * MH + 8 else 16 * k + 8) + (if k + 1 =? MH then 24 else 0)).
  { unfold integral_ready. change (ph 0) with (16 * MH). destruct (Z.eqb_spec (k + 1) MH); lia. }
  apply (integral_rows_step (f_stride f0 0) (pw 0) (16 * MH) (continued (pw 0) (16 * MH) (final 0)) (f_plane (frame_2 k f) 0) (integral_ready (k + 1)) ltac:(lia) ltac:(lia) ltac:(lia)) with (Y := half_lo k).
  - intros x y Hx Hy. rewrite <- R2 by lia. apply B2.
  - unfold half_lo. destruct (Z.ltb_spec (16 * k - 8) 0) as [|Hk1]; [done|]. split; [done|].
    pose proof (fi_integral _ _ _ HF m0 E0 ltac:(lia)) as I. unfold integral_ready in I. destruct (Z.eqb_spec k MH); [lia|exact I].
  - exact EY.
  - unfold half_lo. destruct (Z.ltb_spec (16 * k - 8) 0); [lia|]. rewrite EY. destruct (Z.eqb_spec (k + 1) MH); lia.
  - lia.
  - lia.
  - intros c y Hc Hy. apply R2; lia.
Qed.

Lemma filter_row_step k b f : 0 <= k < MH -> frame_inv k MW f ->
  let '(b', f') := x264_fdec_filter_row h buf (row_tables k) (k + 1) (b, f) in
  frame_inv (k + 1) 0 f' /\ (k + 1 < MH -> backup_ok (k + 1) b').
Proof.
  intros Hk HF. destruct (sl_progressive ok) as [Hm _]. pose proof (fun p Hp => frame_2_inv k f p Hk Hp HF) as I2.
  destruct (half_planes k f Hk HF) as (H1 & H2 & H3 & H4 & H5 & H7 & H6).
  unfold x264_fdec_filter_row. rewrite Hm, Z.land_0_r. change (i2b 0) with false. change (1 << 0) with 1. cbv beta iota zeta.
  replace (k + 1 - 1) with k by lia. destruct (Z.ltb_spec k 0); [lia|]. rewrite (sl_ref ok). cbn [orb]. rewrite !andb_true_r. fold deblocks.
  pose proof (backup_step k f b Hk HF) as Bk.
  replace (Z.to_nat (((if k + 1 =? MH then MH else k + 1) - k + 1 - 1) / 1)) with 1%nat by (rewrite Z.div_1_r; destruct (Z.eqb_spec (k + 1) MH); lia).
  rewrite for_1, Z.mul_0_l, Z.add_0_r.
  replace (if deblocks then set_planes f (x264_frame_deblock_row (row_tables k) k (d_nnz (row_tables k), f_plane f)).2 else f) with (set_planes f (deblocked k f))
    by (unfold deblocked; destruct deblocks; [done|by destruct f]).
  fold (frame_2 k f). destruct (Z.eqb_spec (c_subpel_refine h) 0) as [E|_]; [by destruct (sl_subpel ok)|]. cbn [negb].
  set (f3 := x264_frame_expand_border_filtered h (x264_frame_filter h buf (frame_2 k f) k (k + 1 =? MH)) k (k + 1 =? MH)) in *.
  match goal with |- context [if c_threads h >? 1 then ?t else f3] => set (f4 := if c_threads h >? 1 then t else f3) end.
  assert (E4 : f_plane f4 = f_plane f3 /\ f_stride f4 = f_stride f3 /\ f_width f4 = f_width f3 /\ f_lines f4 = f_lines f3 /\ f_filtered f4 = f_filtered f3 /\ f_integral f4 = f_integral f3) by (unfold f4; by destruct (c_threads h >? 1)).
  destruct E4 as (E41 & E42 & E43 & E44 & E45 & E46). split.
  - split.
    + by rewrite E42, E43, E44.
    + intros p Hp. rewrite E41, H1. by apply I2.
    + intros p x y Hp Hx. lia.
    + rewrite E45. apply (half_inv_ext _ _ _ _ _ _ _ H6). destruct (I2 0 ltac:(lia)) as [B2 R2 _]. destruct (stride_plane 0 ltac:(lia)) as (P1 & P2 & P3 & P4).
      assert (L : half_hi k + 2 < ready 0 (k + 1)).
      { unfold half_hi, ready. change (pad 0) with 32. change (unit 0) with 16. change (16 / 4) with 4. destruct (Z.eqb_spec (k + 1) 0), (Z.eqb_spec (k + 1) MH); lia. }
      assert (L0 : -8 <= half_lo k < half_hi k) by (unfold half_lo, half_hi; change (ph 0) with (16 * MH); destruct (Z.eqb_spec (k + 1) MH); lia).
      apply (half_step (f_stride f0 0) (pw 0) (ph 0) P1 P2 P4 (final 0) (f_plane (frame_2 k f) 0) (ready 0 (k + 1)) (half_lo k) (half_hi k) (f_filtered f) buf B2 R2 L0 L
        (half_bytes _ _ _ _ _ _ (fi_half _ _ _ HF)) (ready_half k)).
      * apply (fi_half _ _ _ HF).
      * intros E. apply Z.eqb_eq in E as ->. done.
      * intros E. apply Z.eqb_neq in E. unfold half_lo, ready_half. destruct (Z.eqb_spec k 0), (Z.eqb_spec k MH); lia.
      * unfold half_hi. change (ph 0) with (16 * MH). destruct (Z.eqb_spec (k + 1) MH); lia.
      * intros E. unfold half_hi. by rewrite E.
      * unfold ready_half, half_hi. destruct (Z.eqb_spec (k + 1) 0), (Z.eqb_spec (k + 1) MH); lia.
    + intros mi Ei _. rewrite E46, H7 in Ei. destruct (f_integral f) as [m0|] eqn:E0; [|done]. injection Ei as <-.
      apply (integral_step k f m0 HF Hk E0).
    + unfold f4. destruct (c_threads h >? 1); [|rewrite H5; destruct (fi_completed _ _ _ HF) as [C|[C|C]]; [by left|right; left; lia|lia]].
      cbn [f_lines_completed x264_frame_cond_broadcast]. destruct (Z.eqb_spec (k + 1) MH); [by right; right|]. right. left. change (X264_THREAD_HEIGHT << 0) with 24. lia.
  - intros Hk1. destruct (Z.eqb_spec (k + 1) MH); [lia|]. exact Bk.
Qed.

(** ** The macroblocks of the slice *)
Lemma prefix_next n : prefix (Datatypes.S n) =
  RowState (r_border (load n)) (for_ 3 0 (x264_macroblock_store_pic h (coded_at n) (Z.of_nat n mod MW) (Z.of_nat n / MW)) (r_frame (load n))) ((r_pic (load n)).1, coded_at n).
Proof. unfold slice_prefix. rewrite for_snoc, Z.add_0_l. reflexivity. Qed.
Lemma load_rows n : (r_border (load n), r_frame (load n)) =
  if Z.of_nat n mod MW =? 0 then x264_fdec_filter_row h buf (tables (Z.of_nat n)) (Z.of_nat n / MW) (r_border (prefix n), r_frame (prefix n))
  else (r_border (prefix n), r_frame (prefix n)).
Proof. unfold slice_load. destruct (Z.of_nat n mod MW =? 0); [|done]. by destruct (x264_fdec_filter_row _ _ _ _ _). Qed.

Lemma filter_row_0 d st : c_mbaff h = 0 -> x264_fdec_filter_row h buf d 0 st = st.
Proof. intros Hm. destruct st as [b f]. unfold x264_fdec_filter_row. by rewrite Hm. Qed.

(** Where the loop is: macroblock [n] is number [j] of row [k]. *)
Definition loaded (n : nat) : Prop := let '(k, j) := (Z.of_nat n / MW, Z.of_nat n mod MW) in
  frame_inv k j (r_frame (load n)) /\ (0 < k -> backup_ok k (r_border (load n))).
Lemma next_mb n : let '(k, j) := (n / MW, n mod MW) in 0 <= n ->
  (j + 1 < MW /\ (n + 1) / MW = k /\ (n + 1) mod MW = j + 1) \/ (j + 1 = MW /\ (n + 1) / MW = k + 1 /\ (n + 1) mod MW = 0 /\ n + 1 = (k + 1) * MW).
Proof.
  intros Hn. destruct (sl_size ok) as [HW _]. pose proof (Z.mod_pos_bound n MW HW). pose proof (Z.div_mod n MW ltac:(lia)) as E.
  destruct (Z.lt_ge_cases (n mod MW + 1) MW); [left|right].
  - destruct (unit_split MW (n / MW) (n mod MW + 1) ltac:(lia)) as [E1 E2]. replace (MW * (n / MW) + (n mod MW + 1)) with (n + 1) in * by lia. done.
  - assert (E' : n + 1 = (n / MW + 1) * MW) by lia. rewrite E' at 1 2. rewrite Z.div_mul, Z.mod_mul by lia. lia.
Qed.
Lemma slice_loaded n : Z.of_nat n < MW * MH -> loaded n.
Proof.
  destruct (sl_progressive ok) as [Hm _]. destruct (sl_size ok) as [HW HHt]. induction n as [|n IH]; intros Hn.
  - unfold loaded. change (Z.of_nat 0) with 0. rewrite Z.div_0_l, Z.mod_0_l by lia. split; [|lia].
    pose proof (load_rows 0) as E. change (Z.of_nat 0) with 0 in E. rewrite Z.div_0_l, Z.mod_0_l, filter_row_0 in E by (done || lia). cbn [Z.eqb] in E.
    injection E as _ ->. apply frame_inv_0.
  - destruct (IH ltac:(lia)) as [I1 I2]. unfold loaded. rewrite Nat2Z.inj_succ. unfold Z.succ.
    assert (Hk : 0 <= Z.of_nat n / MW < MH) by (split; [apply Z.div_pos; lia|apply Z.div_lt_upper_bound; lia]).
    pose proof (store_step n (r_frame (load n))) as S. cbv beta iota in S. specialize (S ltac:(lia) I1).
    pose proof (prefix_next n) as E. pose proof (load_rows (Datatypes.S n)) as L. rewrite Nat2Z.inj_succ in L. unfold Z.succ in L.
    destruct (next_mb (Z.of_nat n) ltac:(lia)) as [(N1 & N2 & N3)|(N1 & N2 & N3 & N4)]; rewrite N2, N3 in *.
    + destruct (Z.eqb_spec (Z.of_nat n mod MW + 1) 0); [pose proof (Z.mod_pos_bound (Z.of_nat n) MW HW); lia|].
      injection L as L1 L2. rewrite L1, L2, E. cbn [r_frame r_border]. split; [exact S|exact I2].
    + cbn [Z.eqb] in L. rewrite N1 in S.
      pose proof (filter_row_step (Z.of_nat n / MW) (r_border (load n)) _ Hk S) as F. rewrite <- N4 in F.
      replace (x264_fdec_filter_row _ _ _ _ _) with (r_border (slice_load h fenc buf tables (Z.of_nat n + 1) (prefix (Datatypes.S n))),
        r_frame (slice_load h fenc buf tables (Z.of_nat n + 1) (prefix (Datatypes.S n)))) in F by (rewrite L, E; done).
      destruct F as [F1 F2]. split; [exact F1|]. intros _. apply F2.
      assert (Z.of_nat n / MW + 1 = (Z.of_nat n + 1) / MW) as -> by done. apply Z.div_lt_upper_bound; lia.
Qed.

(** The frame when the slice is written. *)
Lemma slice_done : frame_inv MH 0 (r_frame (x264_slice_frame h fenc buf coded tables st0)).
Proof.
  destruct (sl_size ok) as [HW HHt]. unfold x264_slice_frame. cbv zeta.
  set (N := Z.to_nat (MW * MH)). assert (EN : Z.of_nat N = MW * MH) by lia. destruct N as [|n] eqn:En; [lia|].
  destruct (slice_loaded n ltac:(lia)) as [I1 _]. rewrite Nat2Z.inj_succ in EN. unfold Z.succ in EN.
  assert (Hk : 0 <= Z.of_nat n / MW < MH) by (split; [apply Z.div_pos; lia|apply Z.div_lt_upper_bound; lia]).
  pose proof (store_step n (r_frame (load n))) as S. cbv beta iota in S. specialize (S ltac:(lia) I1).
  rewrite prefix_next. cbn [r_border r_frame r_pic]. rewrite Nat2Z.inj_succ. unfold Z.succ. rewrite EN.
  destruct (next_mb (Z.of_nat n) ltac:(lia)) as [(N1 & N2 & N3)|(N1 & N2 & N3 & N4)]; rewrite EN in *.
  - rewrite (Z.mul_comm MW), Z.mod_mul in N3 by lia. pose proof (Z.mod_pos_bound (Z.of_nat n) MW HW). lia.
  - assert (E : MH = Z.of_nat n / MW + 1) by (rewrite (Z.mul_comm MW), Z.div_mul in N2 by lia; done).
    rewrite N1 in S. pose proof (filter_row_step (Z.of_nat n / MW) (r_border (load n)) _ Hk S) as F. rewrite <- E, (Z.mul_comm MH) in F.
    destruct (x264_fdec_filter_row _ _ _ _ _) as [b f]. apply F.
Qed.
End Slice.
