(* ===== verification/FrameTheorem.v ===== *)
(** * Frame buffers: what the loop of a slice leaves

    The planes of a finished frame are the continued planes of the deblocked picture and its
    half samples, and each macroblock was coded beside the samples before the filter. *)
From S2P Require Import Prelude Mb CavlcMb Dct Mc Deblock DeblockStd DeblockLine DeblockFrame DeblockMb DeblockCorrect DeblockTheorem DeblockRows Frame FrameExpand FramePlane Sums Integral FrameSlice.

(** The four luma planes as one: samples, and half samples between columns, rows and both. *)
Definition luma_planes (f : x264_frame_t) (k : Z) : mem := if k =? 0 then f_plane f 0 else f_filtered f k.

(** ** The samples that a macroblock is loaded with *)
Lemma copy_column8_at m dst src q : (src - dst) mod FDEC_STRIDE <> 0 -> bytes_ok m ->
  copy_column8 m dst src q = if (0 <=? q - dst) && (q - dst <? 8 * FDEC_STRIDE) && ((q - dst) mod FDEC_STRIDE =? 0) then m (src + (q - dst)) else m q.
Proof.
  unfold FDEC_STRIDE. intros Hd B. unfold copy_column8, FDEC_STRIDE.
  match goal with |- ?a _ = _ => enough (E : a = for_ 8 0 (fun i p => upd p (dst + i * 32) (u8 (m (src + i * 32)))) m) end.
  - rewrite E. clear E. destruct (for_row 8 (fun i => dst + i * 32) (fun i _ => u8 (m (src + i * 32))) m) as [R1 R2]; [lia|].
    destruct (decide (0 <= q - dst < 256 /\ (q - dst) mod 32 = 0)) as [[D1 D2]|N].
    + rewrite in_range_b by lia. rewrite D2. cbn [andb Z.eqb]. pose proof (Z.div_mod (q - dst) 32 ltac:(lia)) as E.
      specialize (R1 ((q - dst) / 32) ltac:(Z.to_euclidean_division_equations; lia)). cbv beta in R1.
      replace (dst + (q - dst) / 32 * 32) with q in R1 by lia. rewrite R1, u8_byte by done. f_equal. lia.
    + replace (_ && _) with false by (symmetry; apply not_true_is_false; rewrite !andb_true_iff, Z.leb_le, Z.ltb_lt, Z.eqb_eq; lia).
      apply R2. intros x Hx ->. apply N. replace (dst + x * 32 - dst) with (x * 32) by lia. rewrite Z.mod_mul by lia. lia.
  - match goal with |- ?a = ?b => enough (a = b /\ forall i, 0 <= i < 8 -> a (src + i * 32) = m (src + i * 32)) as [E _] by done end.
    apply (for_sim (fun a b => a = b /\ forall i, 0 <= i < 8 -> a (src + i * 32) = m (src + i * 32))); [done|].
    intros i a b Hi [<- E]. unfold st8. split; [by rewrite E by lia|]. intros j Hj. rewrite upd_ne; [by apply E|]. intros E'. apply Hd.
    replace (src - dst) with ((i - j) * 32) by lia. by rewrite Z.mod_mul by lia.
Qed.
Lemma copy_column8_bytes m dst src : bytes_ok m -> bytes_ok (copy_column8 m dst src).
Proof. intros B. exact (for_bytes_ok _ _ (fun i _ => dst + i * FDEC_STRIDE) (fun i m => m (src + i * FDEC_STRIDE)) m B). Qed.
(** The last column of a block copied to the column before it. *)
Definition column_copied (p : Z) (m : mem) : mem :=
  if p =? 0 then copy_column8 (copy_column8 m (-1) 15) (-1 + 8 * FDEC_STRIDE) (15 + 8 * FDEC_STRIDE) else copy_column8 m (-1) 7.
Lemma column_copied_at p m y : bytes_ok m -> 0 <= y < unit p -> column_copied p m (y * FDEC_STRIDE - 1) = m (y * FDEC_STRIDE + unit p - 1).
Proof.
  intros B. unfold column_copied, unit. destruct (p =? 0).
  - intros Hy. rewrite copy_column8_at by (done || by apply copy_column8_bytes). rewrite !copy_column8_at by done. unfold FDEC_STRIDE.
    replace (y * 32 - 1 - (-1 + 8 * 32)) with ((y - 8) * 32) by lia. replace (y * 32 - 1 - -1) with (y * 32) by lia.
    rewrite !Z.mod_mul by lia. rewrite Z.eqb_refl, !andb_true_r.
    destruct (Z.lt_ge_cases y 8).
    + rewrite out_range_b, in_range_b by lia. f_equal. lia.
    + rewrite in_range_b by lia. replace ((15 + 8 * 32 + (y - 8) * 32 - -1) mod 32 =? 0) with false by
        (replace (15 + 8 * 32 + (y - 8) * 32 - -1) with (16 + y * 32) by lia; by rewrite Z.mod_add by lia). rewrite andb_false_r. f_equal. lia.
  - intros Hy. rewrite copy_column8_at by done. unfold FDEC_STRIDE. replace (y * 32 - 1 - -1) with (y * 32) by lia. rewrite Z.mod_mul by lia.
    rewrite in_range_b by lia. cbn [andb Z.eqb]. f_equal. lia.
Qed.

Lemma shr_block a p : shr_chroma (a * 16) p = unit p * a.
Proof. rewrite Z.mul_comm. apply shr_unit. Qed.
Lemma load_pic_at h border fdec fenc mbx mby i pic p : c_mbaff h = 0 -> c_interlaced h = 0 ->
  let u := unit i in let pic' := x264_macroblock_load_pic_pointers h border fdec fenc mbx mby i pic in
  pic'.1 p = (if p =? i then mc_copy (ptr (f_plane fenc i) (u * mby * f_stride fdec i + u * mbx)) (f_stride fdec i) (pic.1 i) 0 FENC_STRIDE (Z.to_nat u) (Z.to_nat u) else pic.1 p) /\
  pic'.2 p = (if p =? i then memcpy (pic.2 i) (-1 - FDEC_STRIDE) (border 0 i) (u * mbx - 1) (u + u / 2 + 1) else pic.2 p).
Proof.
  intros Hm Hi. cbv zeta. unfold x264_macroblock_load_pic_pointers, mb_pix_offset. destruct pic as [a b]. rewrite Hm, Hi, Z.land_0_r, Z.shiftl_0_r, shr_block.
  change (i2b 0) with false. cbv iota zeta. cbn [fst snd]. rewrite !set_plane_eq. fold (unit i). split.
  - replace (unit i * (mbx + mby * f_stride fdec i)) with (unit i * mby * f_stride fdec i + unit i * mbx) by lia. done.
  - replace (Z.quot (unit i * 3) 2) with (unit i + unit i / 2) by (unfold unit; by destruct (i =? 0)). done.
Qed.
Lemma cache_load_samples_at h border fdec fenc mbx mby pic p : c_mbaff h = 0 -> c_interlaced h = 0 -> 0 <= p < 3 ->
  let u := unit p in let pic' := cache_load_samples h border fdec fenc mbx mby pic in
  pic'.1 p = mc_copy (ptr (f_plane fenc p) (u * mby * f_stride fdec p + u * mbx)) (f_stride fdec p) (pic.1 p) 0 FENC_STRIDE (Z.to_nat u) (Z.to_nat u) /\
  pic'.2 p = memcpy (column_copied p (pic.2 p)) (-1 - FDEC_STRIDE) (border 0 p) (u * mbx - 1) (u + u / 2 + 1).
Proof.
  intros Hm Hi Hp. cbv zeta. unfold cache_load_samples. destruct pic as [a b]. rewrite Hi. change (i2b 0) with false. cbv iota zeta.
  set (c := set_plane (set_plane _ _ _) _ _). assert (C : c p = column_copied p (b p)) by (assert (p = 0 \/ p = 1 \/ p = 2) as [->|[->| ->]] by lia; done).
  clearbody c. cbn [for_]. cbn [fst snd].
  pose proof (fun i pic p => load_pic_at h border fdec fenc mbx mby i pic p Hm Hi) as L. cbv zeta in L.
  set (ld := x264_macroblock_load_pic_pointers h border fdec fenc mbx mby) in *. clearbody ld.
  assert (L1 : forall i pic q, (ld i pic).1 q = _) by (intros; apply L). assert (L2 : forall i pic q, (ld i pic).2 q = _) by (intros; apply L).
  rewrite !L1, !L2. cbn [fst snd]. rewrite <- C.
  assert (p = 0 \/ p = 1 \/ p = 2) as [->|[->| ->]] by lia; split; reflexivity.
Qed.

Section Theorem_.
Context (h : slice_ctx) (pic_of : Z -> Z -> Z) (fenc : x264_frame_t) (buf : mem).
Context (coded : Z -> planes * planes -> planes) (tables : Z -> deblock_t) (info : picture_info) (st0 : row_state).
Hypothesis ok : slice_ok h pic_of coded tables info st0.
Local Abbreviation MW := (c_mb_width h).
Local Abbreviation MH := (c_mb_height h).
Local Abbreviation stride p := (f_stride (r_frame st0) p).
Local Abbreviation recon := (recon h fenc buf coded tables st0).
Local Abbreviation final := (final h fenc buf coded tables info st0).
Local Abbreviation prefix n := (slice_prefix h fenc buf coded tables n st0).
Local Abbreviation load n := (slice_load h fenc buf tables (Z.of_nat n) (prefix n)).

(** What is complete in a frame while it is coded. *)
Lemma luma_ready k j f : frame_inv h fenc buf coded tables info st0 k j f ->
  planes_of (luma_planes f) (stride 0) (continued (pw h 0) (ph h 0) (final 0)) (-32) (pw h 0 + 32) (-32) (Z.min (ready h 0 k) (ready_half h k)).
Proof.
  intros HF q x y Hq Hx Hy. unfold luma_planes. destruct (Z.eqb_spec q 0) as [->|Hne].
  - apply (inv_ready _ _ _ _ _ _ _ _ _ (fi_plane _ _ _ _ _ _ _ _ _ _ HF 0 ltac:(lia))); [done|change (pad 0) with 32; lia].
  - apply (half_ready _ _ _ _ _ _ (fi_half _ _ _ _ _ _ _ _ _ _ HF)); [lia|done|unfold PADH; lia].
Qed.

(** C16: When a slice is written, its frame is a complete reference picture.  On the picture
    and 32 samples beyond each edge the four luma planes hold the samples of the deblocked
    picture, continued beyond its edges, and the half samples of the standard between
    columns, between rows and between both; 16 samples beyond their edges the chroma planes
    hold the deblocked picture continued.  It is the deblocking of the whole picture,
    although the code filters, extends and interpolates each row of macroblocks while the
    next one is coded, and leaves to the next round the rows it cannot finish. *)
Theorem reference_frame_standard :
  let f := r_frame (x264_slice_frame h fenc buf coded tables st0) in
  planes_of (luma_planes f) (stride 0) (continued (pw h 0) (ph h 0) (final 0)) (-32) (pw h 0 + 32) (-32) (ph h 0 + 32) /\
  (forall p x y, 1 <= p <= 2 -> -16 <= x < pw h p + 16 -> -16 <= y < ph h p + 16 ->
     f_plane f p (y * stride p + x) = continued (pw h p) (ph h p) (final p) x y).
Proof.
  pose proof (slice_done h pic_of fenc buf coded tables info st0 ok) as HF. destruct (sl_size _ _ _ _ _ _ ok) as [_ HH]. cbv zeta.
  assert (E : forall p, ready h p MH = ph h p + pad p) by (intros p; unfold ready; destruct (Z.eqb_spec MH 0); [lia|]; by rewrite Z.eqb_refl).
  assert (E' : ready_half h MH = ph h 0 + 32) by (unfold ready_half; destruct (Z.eqb_spec MH 0); [lia|]; by rewrite Z.eqb_refl).
  split.
  - pose proof (luma_ready _ _ _ HF) as L. rewrite E, E' in L. change (pad 0) with 32 in L. by rewrite Z.min_id in L.
  - intros p x y Hp Hx Hy. assert (pad p = 16) as EP by (assert (p = 1 \/ p = 2) as [->| ->] by lia; done).
    apply (inv_ready _ _ _ _ _ _ _ _ _ (fi_plane _ _ _ _ _ _ _ _ _ _ HF p ltac:(lia))); rewrite ?E, EP; lia.
Qed.

(** C19: With exhaustive search the reference also carries its integral picture.  When the
    slice is written, at every sample of the picture and of 30 rows and 31 columns around it
    the first half holds the sum of the 8 by 8 block of the deblocked picture that begins
    there, and the second half the sum of the 4 by 4 block, exactly: the words in which the
    rows were accumulated wrap, the sums taken from them do not. *)
Theorem integral_image_exact m x y :
  let f := r_frame (x264_slice_frame h fenc buf coded tables st0) in
  let ref := continued (pw h 0) (ph h 0) (final 0) in
  f_integral f = Some m -> -31 <= x <= pw h 0 + 23 -> -30 <= y <= ph h 0 + 24 ->
  m (y * stride 0 + x) = box_sum ref x y 8 8 /\
  m (y * stride 0 + x + stride 0 * (ph h 0 + 64)) = box_sum ref x y 4 4.
Proof.
  intros f ref Hm Hx Hy. destruct (sl_size _ _ _ _ _ _ ok) as [_ HH].
  pose proof (fi_integral _ _ _ _ _ _ _ _ _ _ (slice_done h pic_of fenc buf coded tables info st0 ok) m Hm HH) as [_ B8 B4].
  unfold integral_ready in *. rewrite Z.eqb_refl in *. split; [apply B8; lia|].
  replace (y * stride 0 + x + stride 0 * (ph h 0 + 64)) with ((y + (ph h 0 + 64)) * stride 0 + x) by lia. apply B4; lia.
Qed.

(** C17: Every macroblock is coded beside unfiltered samples, as intra prediction needs them,
    although the rows above are deblocked before it is loaded.  Macroblock [n], in column
    [j] and row [k], finds in [p_fdec] the samples that were reconstructed above it, from
    the one at the upper left to those above the next macroblock as far as the picture
    goes, and those reconstructed left of it; and in [p_fenc] its samples of the source. *)
Theorem neighbours_unfiltered n p : Z.of_nat n < MW * MH -> 0 <= p < 3 -> bytes_ok (f_plane fenc p) ->
  let '(k, j) := (Z.of_nat n / MW, Z.of_nat n mod MW) in
  let '(p_fenc, p_fdec) := r_pic (load n) in
  let u := unit p in
  (0 < k -> forall x, -1 <= x < u + u / 2 -> 0 <= u * j + x < pw h p -> p_fdec p (x - FDEC_STRIDE) = recon p (u * j + x) (u * k - 1)) /\
  (0 < j -> forall y, 0 <= y < u -> p_fdec p (y * FDEC_STRIDE - 1) = recon p (u * j - 1) (u * k + y)) /\
  (forall x y, 0 <= x < u -> 0 <= y < u -> p_fenc p (y * FENC_STRIDE + x) = f_plane fenc p ((u * k + y) * stride p + (u * j + x))).
Proof.
  intros Hn Hp Bs. destruct (slice_loaded h pic_of fenc buf coded tables info st0 ok n Hn) as [HF HB].
  destruct (sl_progressive _ _ _ _ _ _ ok) as [Hm Hi]. destruct (sl_size _ _ _ _ _ _ ok) as [HW HH].
  destruct (fi_geometry _ _ _ _ _ _ _ _ _ _ HF) as (G1 & _).
  assert (EL : exists border f, r_border (load n) = border /\ r_frame (load n) = f /\
    r_pic (load n) = cache_load_samples h border f fenc (Z.of_nat n mod MW) (Z.of_nat n / MW) (r_pic (prefix n))).
  { unfold slice_load. destruct (if _ =? 0 then _ else _) as [b f]. by exists b, f. }
  destruct EL as (border & f & Eb & Ef & ->). rewrite Eb in HB. rewrite Ef in G1. clear Eb Ef HF.
  destruct (r_pic (prefix n)) as [q_fenc q_fdec] eqn:Eq.
  pose proof (cache_load_samples_at h border f fenc (Z.of_nat n mod MW) (Z.of_nat n / MW) (q_fenc, q_fdec) p Hm Hi Hp) as A. cbv zeta in A. cbn [fst snd] in A.
  destruct (cache_load_samples _ _ _ _ _ _ _) as [p_fenc p_fdec]. cbn [fst snd] in A. destruct A as [-> ->]. rewrite G1.
  pose proof (Z.mod_pos_bound (Z.of_nat n) MW HW) as Bj. assert (U : unit p / 2 = 8 /\ unit p = 16 \/ unit p / 2 = 4 /\ unit p = 8) by (unfold unit; destruct (p =? 0); auto).
  split; [|split].
  - intros Hk x Hx Hin. rewrite memcpy_at by lia. rewrite in_range_b by (unfold FDEC_STRIDE; lia). rewrite <- (HB Hk p) by done.
    replace (unit p * (Z.of_nat n mod MW) - 1 + (x - FDEC_STRIDE - (-1 - FDEC_STRIDE))) with (unit p * (Z.of_nat n mod MW) + x) by lia.
    rewrite (HB Hk p) by done. apply uw_small. apply (recon_byte h pic_of fenc buf coded tables info st0 ok).
  - intros Hj y Hy. rewrite memcpy_at by lia. rewrite out_range_b by (unfold FDEC_STRIDE; lia).
    destruct n as [|n]; [rewrite Z.mod_0_l in Hj by lia; lia|].
    rewrite prefix_next in Eq. cbn [r_pic] in Eq. injection Eq as _ <-. rewrite column_copied_at by (done || apply (sl_coded _ _ _ _ _ _ ok)).
    rewrite Nat2Z.inj_succ in *. unfold Z.succ in *.
    destruct (next_mb h pic_of coded tables info st0 ok (Z.of_nat n) ltac:(lia)) as [(N1 & N2 & N3)|(N1 & N2 & N3 & N4)]; [|lia]. rewrite N2, N3 in *.
    pose proof (recon_block h pic_of fenc buf coded tables info st0 ok n p (unit p - 1) y Hp ltac:(lia) Hy) as R. cbv beta iota in R.
    replace (unit p * (Z.of_nat n mod MW + 1) - 1) with (unit p * (Z.of_nat n mod MW) + (unit p - 1)) by lia. rewrite R. f_equal. lia.
  - intros x y Hx Hy.
    destruct (write_block (q_fenc p) 0 FENC_STRIDE (Z.to_nat (unit p)) (Z.to_nat (unit p)) (fun x y => ptr (f_plane fenc p) (unit p * (Z.of_nat n / MW) * stride p + unit p * (Z.of_nat n mod MW)) (y * stride p + x))
      (fun x y => f_plane fenc p ((unit p * (Z.of_nat n / MW) + y) * stride p + (unit p * (Z.of_nat n mod MW) + x)))) as [W1 _].
    + unfold FENC_STRIDE. lia.
    + intros x' y' _ _. split; [|apply Bs]. unfold ptr. f_equal. lia.
    + rewrite <- W1 by lia. rewrite Z.add_0_l. reflexivity.
Qed.
End Theorem_.

(** ** A slice of two columns and four rows of macroblocks *)
Definition sample_tables (n : Z) : deblock_t := {|
  d_type := SLICE_TYPE_P; d_mbaff := 0; d_alpha_offset := 0; d_beta_offset := 0; d_chroma_offset := 0;
  d_psub8x8 := true; d_cabac := false; d_transform_8x8_mode := true; d_width := 2; d_height := 4; d_mb_stride := 2;
  d_mb_type := fun mb => if mb =? 0 then P_L0 else I_16x16;
  d_qp := fun _ => 32; d_transform_size := fun mb => if mb =? 0 then 1 else 0;
  d_nnz := fun mb i => if i =? 1 then 3 else 0;
  d_ref := fun l i => if l =? 0 then 0 else -1;
  d_mv := fun l i => if (l =? 0) && (i mod 8 <? 2) then (8, 0) else (0, 0);
  d_stride := fun p => if p =? 0 then 96 else 48
|}.
Definition sample_slice : slice_ctx := {|
  c_mbaff := 0; c_interlaced := 0; c_mb_width := 2; c_mb_height := 4; c_deblocking_disabled := 0; c_kept_as_ref := true;
  c_dump_yuv := false; c_subpel_refine := 5; c_threads := 2
|}.
Definition sample_frame_t : x264_frame_t := {|
  f_stride := fun p => if p =? 0 then 96 else 48; f_width := fun p => unit p * 2; f_lines := fun p => unit p * 4;
  f_plane := fun _ _ => 0; f_filtered := fun _ _ => 0; f_integral := None; f_lines_completed := -1
|}.
Definition sample_state : row_state := RowState (fun _ _ _ => 0) sample_frame_t (fun _ _ => 0, fun _ _ => 0).
Definition sample_coded (n : Z) (pic : planes * planes) : planes := fun p a => (100 + 8 * n + a) mod 256.
Definition sample_info : picture_info := info_of sample_pic (sample_tables 0).
Lemma sample_tables_ok y : 0 <= y < 4 -> deblock_ok sample_pic (set_height (sample_tables ((y + 1) * 2)) (y + 1)).
Proof.
  intros Hy.
  assert (F : forall mbx mby, in_frame (set_height (sample_tables ((y + 1) * 2)) (y + 1)) mbx mby -> (mbx = 0 \/ mbx = 1) /\ (mby = 0 \/ mby = 1 \/ mby = 2 \/ mby = 3)) by (unfold in_frame; cbn; lia).
  split; try (cbn; lia); try done.
  - intros mbx mby Hf. destruct (F _ _ Hf) as [[->| ->] [->|[->|[->| ->]]]]; vm_compute; auto.
  - intros mb i. cbn. destruct (i =? 1); lia.
  - unfold sample_pic. lia.
  - intros l mbx mby x q [->|[-> Hl]] _ _; [cbn; lia|done].
  - intros mbx mby Hf. destruct (F _ _ Hf) as [[->| ->] [->|[->|[->| ->]]]]; vm_compute; done.
Qed.
Lemma sample_slice_ok : slice_ok sample_slice sample_pic sample_coded sample_tables sample_info sample_state.
Proof.
  split; try done; try (cbn; lia).
  - intros p Hp. assert (p = 0 \/ p = 1 \/ p = 2) as [->|[->| ->]] by lia; vm_compute; congruence.
  - intros n pic p a. apply Z.mod_pos_bound. lia.
  - intros y Hy. split; [by apply sample_tables_ok|done|done| |done|done].
    intros p Hp. assert (p = 0 \/ p = 1 \/ p = 2) as [->|[->| ->]] by lia; done.
Qed.
Lemma reference_frame_standard_witness :
  let f := r_frame (x264_slice_frame sample_slice sample_frame_t (fun _ => 0) sample_coded sample_tables sample_state) in
  planes_of (luma_planes f) 96 (continued 32 64 (final sample_slice sample_frame_t (fun _ => 0) sample_coded sample_tables sample_info sample_state 0)) (-32) 64 (-32) 96.
Proof. exact (proj1 (reference_frame_standard _ _ sample_frame_t (fun _ => 0) _ _ _ _ sample_slice_ok)). Defined.
(** The same slice for exhaustive search. *)
Definition sample_frame_esa : x264_frame_t := set_integral sample_frame_t (fun _ => 0).
Definition sample_state_esa : row_state := RowState (fun _ _ _ => 0) sample_frame_esa (fun _ _ => 0, fun _ _ => 0).
Lemma sample_slice_esa_ok : slice_ok sample_slice sample_pic sample_coded sample_tables sample_info sample_state_esa.
Proof. destruct sample_slice_ok. split; try done. intros y Hy. destruct (sl_tables y Hy). by split. Qed.
Lemma integral_image_exact_witness :
  let f := r_frame (x264_slice_frame sample_slice sample_frame_t (fun _ => 0) sample_coded sample_tables sample_state_esa) in
  let ref := continued 32 64 (final sample_slice sample_frame_t (fun _ => 0) sample_coded sample_tables sample_info sample_state_esa 0) in
  exists m, f_integral f = Some m /\ m (5 * 96 + 3) = box_sum ref 3 5 8 8 /\ m (5 * 96 + 3 + 96 * 128) = box_sum ref 3 5 4 4.
Proof.
  intros f ref. assert (Hm : bool_decide (is_Some (f_integral f)) = true) by (lazy; reflexivity).
  pose proof (fun m => integral_image_exact _ _ sample_frame_t (fun _ => 0) _ _ _ _ sample_slice_esa_ok m 3 5) as I. cbv zeta in I. fold f in I.
  clearbody f. destruct (f_integral f) as [m|] eqn:Em; [|done].
  exists m. split; [done|]. apply (I m eq_refl); done.
Defined.
Lemma neighbours_unfiltered_witness :
  let pic := r_pic (slice_load sample_slice sample_frame_t (fun _ => 0) sample_tables 3
    (slice_prefix sample_slice sample_frame_t (fun _ => 0) sample_coded sample_tables 3 sample_state)) in
  pic.2 0 (5 - 32) = sample_coded 1 pic 0 (15 * 32 + 5) /\ pic.2 0 (4 * 32 - 1) = sample_coded 2 pic 0 (4 * 32 + 15).
Proof.
  pose proof (neighbours_unfiltered _ _ sample_frame_t (fun _ => 0) _ _ _ _ sample_slice_ok 3 0 ltac:(done) ltac:(lia) ltac:(intros a; cbn; lia)) as N.
  change (Z.of_nat 3 / c_mb_width sample_slice) with 1 in N. change (Z.of_nat 3 mod c_mb_width sample_slice) with 1 in N. change (Z.of_nat 3) with 3 in N.
  cbv zeta. destruct (r_pic (slice_load _ _ _ _ 3 _)) as [p_fenc p_fdec]. destruct N as (N1 & N2 & _). cbn [fst snd]. split.
  - pose proof (N1 ltac:(lia) 5 ltac:(done) ltac:(done)) as E. unfold FDEC_STRIDE in E. rewrite E. reflexivity.
  - pose proof (N2 ltac:(lia) 4 ltac:(done)) as E. unfold FDEC_STRIDE in E. rewrite E. reflexivity.
Defined.
