(* ===== verification/MvRange.v ===== *)
(** * The range of motion vectors (encoder/analyse.c)

    Of [x264_mb_analyse_init]: how far the vectors of a macroblock may point.  With several
    threads a reference may still be coded by another one; the thread waits for the rows it
    needs at least, and its vectors stay in the rows that are complete. *)
From S2P Require Import Prelude Mb CavlcMb Dct Mc Deblock Frame.

Record mv_param := MvParam {
  q_mv_range : Z; q_mv_range_thread : Z;  (* param.analyse *)
  q_threads : Z; q_deterministic : bool;  (* param *)
  q_mbaff : Z; q_interlaced : Z;          (* sh.b_mbaff, mb.b_interlaced *)
  q_mb_width : Z; q_mb_height : Z         (* sps *)
}.
(** Of a component of [mb.mv_min], [mb.mv_max], ... *)
Record mv_range := MvRange { mv_min : Z; mv_max : Z; mv_min_spel : Z; mv_max_spel : Z; mv_min_fpel : Z; mv_max_fpel : Z }.

Section Range.
Context (q : mv_param).
Definition i_fmv_range : Z := 4 * q_mv_range q.
Definition i_fpel_border : Z := 5.
Definition i_spel_border : Z := 8.
Definition CLIP_FMV (mv : Z) : Z := x264_clip3 mv (- i_fmv_range) (i_fmv_range - 1).

Definition mv_range_x (i_mb_x : Z) : mv_range :=
  let mv_min := 4 * (-16 * i_mb_x - 24) in
  let mv_max := 4 * (16 * (q_mb_width q - i_mb_x - 1) + 24) in
  let mv_min_spel := CLIP_FMV mv_min in
  let mv_max_spel := CLIP_FMV mv_max in
  MvRange mv_min mv_max mv_min_spel mv_max_spel ((mv_min_spel >> 2) + i_fpel_border) ((mv_max_spel >> 2) - i_fpel_border).

(** [x264_frame_cond_wait] returns when the frame has as many rows; [None]: the thread
    waits. *)
Definition x264_frame_cond_wait (f : x264_frame_t) (i_lines_completed : Z) : bool := negb (f_lines_completed f <? i_lines_completed).
(** The loops over both lists; [fref] are their frames in the order of the loops. *)
Definition thread_mvy_range (i_mb_y : Z) (fref : list x264_frame_t) : option Z :=
  if q_threads q >? 1 then
    let pix_y := (i_mb_y .| q_interlaced q) * 16 in
    let thresh := pix_y + q_mv_range_thread q in
    let range := fold_left (fun r f =>
      match r with
      | Some r => if x264_frame_cond_wait f thresh then Some (Z.min r (f_lines_completed f - pix_y)) else None
      | None => None
      end) fref (Some i_fmv_range) in
    match range with
    | Some r =>
        let r := if q_deterministic q then q_mv_range_thread q else r in
        Some (if i2b (q_interlaced q) then r >> 1 else r)
    | None => None
    end
  else Some i_fmv_range.

(** Computed in the first column of a row, for the whole row. *)
Definition mv_range_y (i_mb_y : Z) (fref : list x264_frame_t) : option mv_range :=
  let mb_y := i_mb_y >> q_mbaff q in
  let mb_height := q_mb_height q >> q_mbaff q in
  match thread_mvy_range i_mb_y fref with
  | Some range =>
      let mv_min := 4 * (-16 * mb_y - 24) in
      let mv_max := 4 * (16 * (mb_height - mb_y - 1) + 24) in
      let mv_min_spel := x264_clip3 mv_min (Z.max (4 * (-512 + i_spel_border)) (- i_fmv_range)) i_fmv_range in
      let mv_max_spel := Z.min (CLIP_FMV mv_max) (range * 4) in
      Some (MvRange mv_min mv_max mv_min_spel mv_max_spel ((mv_min_spel >> 2) + i_fpel_border) ((mv_max_spel >> 2) - i_fpel_border))
  | None => None
  end.
End Range.
