(* ===== verification/FrameThreads.v ===== *)
(** * Frame buffers: references that another thread is still coding

    The rows that a frame announces as complete are enough for every vector that the range
    of a macroblock allows. *)
From S2P Require Import Prelude Mb CavlcMb Dct Mc Deblock DeblockStd DeblockLine DeblockFrame DeblockMb DeblockCorrect DeblockTheorem DeblockRows Frame FrameExpand FramePlane FrameSlice FrameTheorem MvRange.

(** ** Interpolation from a position *)
Lemma std_luma_shift p X Y x y xf yf : std_luma (fun x y => p (X + x) (Y + y)) x y xf yf = std_luma p (X + x) (Y + y) xf yf.
Proof. unfold std_luma, std_b, std_h, std_j, std_h1, std_v1, tap6. rewrite !Z.add_assoc. reflexivity. Qed.
Lemma std_chroma_shift p X Y x y xf yf : std_chroma (fun x y => p (X + x) (Y + y)) x y xf yf = std_chroma p (X + x) (Y + y) xf yf.
Proof. unfold std_chroma. rewrite !Z.add_assoc. reflexivity. Qed.
Lemma planes_of_shift src stride p x0 x1 y0 y1 X Y : planes_of src stride p x0 x1 y0 y1 ->
  planes_of (fun k => ptr (src k) (Y * stride + X)) stride (fun x y => p (X + x) (Y + y)) (x0 - X) (x1 - X) (y0 - Y) (y1 - Y).
Proof.
  intros P k x y Hk Hx Hy. unfold ptr. replace (Y * stride + X + (y * stride + x)) with ((Y + y) * stride + (X + x)) by lia.
  rewrite P by lia. apply std_plane_shift. intros i j _ _. f_equal; lia.
Qed.

(** Without a vertical fraction the row below the block is not read. *)
Lemma qpel_tables_0 src stride p x0 x1 y0 y1 mvx mvy x y : planes_of src stride p x0 x1 y0 y1 -> mvy .& 3 = 0 ->
  let xi := (mvx >> 2) + x in let yi := (mvy >> 2) + y in
  x0 <= xi -> xi + 1 < x1 -> y0 <= yi < y1 ->
  let xf := mvx .& 3 in let offset := (mvy >> 2) * stride + (mvx >> 2) in
  let src1 := ptr (src (tbl hpel_ref0 xf)) offset in
  let src2 := ptr (src (tbl hpel_ref1 xf)) (offset + b2i (xf =? 3)) in
  std_luma p xi yi xf 0 = if i2b (xf .& 5) then avg (src1 (y * stride + x)) (src2 (y * stride + x)) else src1 (y * stride + x).
Proof.
  intros P _ xi yi H1 H2 H3 xf. pose proof (land3 mvx) as Hx. fold xf in Hx. clearbody xf. intros offset src1 src2.
  assert (E : forall k dx, 0 <= k < 4 -> 0 <= dx <= 1 -> ptr (src k) (offset + dx) (y * stride + x) = std_plane_k k p (xi + dx) yi).
  { intros k dx Hk Hdx. rewrite <- P by (done || lia). unfold ptr. f_equal. unfold offset, xi, yi. lia. }
  assert (E0 : forall k, 0 <= k < 4 -> ptr (src k) offset (y * stride + x) = std_plane_k k p xi yi).
  { intros k Hk. specialize (E k 0 Hk ltac:(lia)). by rewrite !Z.add_0_r in E. }
  subst src1 src2. clearbody offset.
  assert (xf = 0 \/ xf = 1 \/ xf = 2 \/ xf = 3) as [->|[->|[->| ->]]] by lia; cbn [Z.eqb Pos.eqb b2i];
    rewrite E0, ?E by (vm_compute; intuition congruence); rewrite ?Z.add_0_r; (reflexivity || apply avg_comm).
Qed.
Lemma mc_luma_spec_0 src stride p x0 x1 y0 y1 dst od i_dst mvx mvy (w h : nat) :
  planes_of src stride p x0 x1 y0 y1 -> (forall k, bytes_ok (src k)) -> Z.of_nat w <= i_dst -> mvy .& 3 = 0 ->
  x0 <= mvx >> 2 -> (mvx >> 2) + Z.of_nat w < x1 -> y0 <= mvy >> 2 -> (mvy >> 2) + Z.of_nat h <= y1 ->
  block_is dst (mc_luma dst od i_dst src stride mvx mvy w h) od i_dst (Z.of_nat w) (Z.of_nat h)
    (fun x y => std_luma p ((mvx >> 2) + x) ((mvy >> 2) + y) (mvx .& 3) (mvy .& 3)).
Proof.
  intros P Hb Hw F Hx0 Hx1 Hy0 Hy1. unfold mc_luma. rewrite F.
  pose proof (fun x y => qpel_tables_0 src stride p x0 x1 y0 y1 mvx mvy x y P F) as Q. cbv zeta in Q |- *.
  change (b2i (0 =? 3)) with 0. rewrite Z.shiftl_0_l, Z.mul_0_l, Z.add_0_r, Z.add_0_l.
  destruct (i2b (_ .& 5)).
  - eapply block_is_ext; [|apply pixel_avg_spec; [done|intros a; apply Hb|intros a; apply Hb]]. intros x y Hx Hy. by rewrite Q by lia.
  - apply write_block; [done|]. intros x y Hx Hy. rewrite Q by lia. split; [done|apply Hb].
Qed.

(** ** The range *)
Lemma cond_wait_true f n : x264_frame_cond_wait f n = true -> n <= f_lines_completed f.
Proof. unfold x264_frame_cond_wait. destruct (Z.ltb_spec (f_lines_completed f) n); [done|lia]. Qed.
Lemma thread_range_bound q i_mb_y refs r f : 1 < q_threads q -> q_interlaced q = 0 -> thread_mvy_range q i_mb_y refs = Some r -> f ∈ refs ->
  i_mb_y * 16 + q_mv_range_thread q <= f_lines_completed f /\ r <= f_lines_completed f - i_mb_y * 16.
Proof.
  intros Ht Hi. unfold thread_mvy_range. destruct (Z.gtb_spec (q_threads q) 1); [|lia]. rewrite Hi, Z.lor_0_r. cbv zeta. change (i2b 0) with false. cbv iota.
  set (pix_y := i_mb_y * 16). set (step := fun r f => match r with Some r => _ | None => None end). intros E Hf.
  assert (A : forall l a s, fold_left step l a = Some s -> exists a', a = Some a' /\ s <= a' /\
    forall g, g ∈ l -> pix_y + q_mv_range_thread q <= f_lines_completed g /\ s <= f_lines_completed g - pix_y).
  { induction l as [|g l IH]; intros a s Es; cbn [fold_left] in Es.
    - exists s. split; [exact Es|]. split; [lia|]. intros g Hg. by apply elem_of_nil in Hg.
    - apply IH in Es as (b & Eb & Hs & Hl). destruct a as [a|]; [|done]. unfold step in Eb. destruct (x264_frame_cond_wait g (pix_y + q_mv_range_thread q)) eqn:W; [|done].
      apply cond_wait_true in W. injection Eb as <-. exists a. split; [done|]. split; [lia|]. intros g' Hg. apply elem_of_cons in Hg as [->|Hg]; [lia|by apply Hl]. }
  destruct (fold_left step refs (Some (i_fmv_range q))) as [s|] eqn:Es; [|done]. apply A in Es as (_ & _ & _ & Hl). specialize (Hl f Hf).
  injection E as <-. destruct (q_deterministic q); lia.
Qed.

Section Threads.
Context (h : slice_ctx) (pic_of : Z -> Z -> Z) (fenc : x264_frame_t) (buf : mem).
Context (coded : Z -> planes * planes -> planes) (tables : Z -> deblock_t) (info : picture_info) (st0 : row_state).
Hypothesis ok : slice_ok h pic_of coded tables info st0.
Local Abbreviation MW := (c_mb_width h).
Local Abbreviation MH := (c_mb_height h).
Local Abbreviation stride p := (f_stride (r_frame st0) p).
Local Abbreviation final := (final h fenc buf coded tables info st0).
Local Abbreviation inv := (frame_inv h fenc buf coded tables info st0).

(** The frame of the slice as another thread can find it. *)
Inductive coded_frame : x264_frame_t -> Prop :=
  | coded_partly (n : nat) : Z.of_nat n < MW * MH ->
      coded_frame (r_frame (slice_load h fenc buf tables (Z.of_nat n) (slice_prefix h fenc buf coded tables n st0)))
  | coded_whole : coded_frame (r_frame (x264_slice_frame h fenc buf coded tables st0)).
Lemma coded_frame_inv f : coded_frame f -> exists k j, 0 <= k <= MH /\ inv k j f.
Proof.
  destruct (sl_size _ _ _ _ _ _ ok) as [HW HH]. intros [n Hn|].
  - destruct (slice_loaded h pic_of fenc buf coded tables info st0 ok n Hn) as [HF _]. eexists _, _. split; [|exact HF].
    split; [apply Z.div_pos; lia|]. apply Z.lt_le_incl, Z.div_lt_upper_bound; lia.
  - exists MH, 0. split; [lia|]. apply (slice_done h pic_of fenc buf coded tables info st0 ok).
Qed.
Lemma final_byte p x y : 0 <= p < 3 -> 0 <= continued (pw h p) (ph h p) (final p) x y < 256.
Proof.
  intros Hp. pose proof (slice_done h pic_of fenc buf coded tables info st0 ok) as HF. destruct (stride_plane h pic_of coded tables info st0 ok p Hp) as (P1 & P2 & P3 & P4).
  pose proof (clamp_in 0 (pw h p) x P1) as Cx. pose proof (clamp_in 0 (ph h p) y P2) as Cy. destruct (fi_plane _ _ _ _ _ _ _ _ _ _ HF p Hp) as [B R C].
  unfold continued. rewrite (final_stage h pic_of fenc buf coded tables info st0 ok), <- C by first [exact Cx|exact Cy]. apply B.
Qed.
(** Rows that are complete when a frame announces [c] lines. *)
Lemma announced_rows k j f : 0 <= k <= MH -> inv k j f -> 0 <= f_lines_completed f ->
  (k = MH /\ Z.min (ready h 0 k) (ready_half h k) = ph h 0 + 32 /\ forall p, ready h p k = ph h p + pad p) \/
  (f_lines_completed f + 16 <= Z.min (ready h 0 k) (ready_half h k) /\ forall p, 1 <= p < 3 -> f_lines_completed f / 2 + 10 <= ready h p k).
Proof.
  intros Hk HF Hc. destruct (sl_size _ _ _ _ _ _ ok) as [HW HH]. destruct (decide (k = MH)) as [->|Hne]; [left|right].
  - unfold ready, ready_half. destruct (Z.eqb_spec MH 0); [lia|]. rewrite Z.eqb_refl. change (pad 0) with 32. split; [done|]. split; [lia|done].
  - destruct (fi_completed _ _ _ _ _ _ _ _ _ _ HF) as [C|[C|C]]; [lia| |lia]. unfold ready, ready_half.
    destruct (Z.eqb_spec k 0); [lia|]. destruct (Z.eqb_spec k MH); [lia|]. change (unit 0) with 16. change (16 / 4) with 4. split; [lia|].
    intros p Hp. assert (unit p = 8) as -> by (assert (p = 1 \/ p = 2) as [->| ->] by lia; done). change (8 / 4) with 2. Z.to_euclidean_division_equations; lia.
Qed.

(** C18: A thread may predict from a frame that another thread is still coding.  Once its
    wait is over, whatever macroblock the other thread has reached, every block of the
    macroblock and every vector in the range gets from the unfinished planes the
    interpolation that the standard defines on the finished picture: no row is read before
    it is deblocked, extended and interpolated for the last time. *)
Theorem unfinished_reference_exact q refs f bx by_ range mvx mvy dst od i_dst :
  1 < q_threads q -> 0 <= q_mv_range_thread q -> 0 < q_mv_range q -> q_mbaff q = 0 -> q_interlaced q = 0 -> q_mb_width q = MW -> q_mb_height q = MH ->
  coded_frame f -> f ∈ refs -> 0 <= bx < MW -> 0 <= by_ < MH ->
  mv_range_y q by_ refs = Some range -> mv_min_spel range <= mvy <= mv_max_spel range ->
  mv_min_spel (mv_range_x q bx) <= mvx <= mv_max_spel (mv_range_x q bx) ->
  (forall x0 y0 (w hh : nat), 0 <= x0 -> 0 <= y0 -> x0 + Z.of_nat w <= 16 -> y0 + Z.of_nat hh <= 16 -> Z.of_nat w <= i_dst ->
     let X := 16 * bx + x0 in let Y := 16 * by_ + y0 in
     block_is dst (mc_luma dst od i_dst (fun k => ptr (luma_planes f k) (Y * stride 0 + X)) (stride 0) mvx mvy w hh) od i_dst (Z.of_nat w) (Z.of_nat hh)
       (fun x y => std_luma (continued (pw h 0) (ph h 0) (final 0)) (X + ((mvx >> 2) + x)) (Y + ((mvy >> 2) + y)) (mvx .& 3) (mvy .& 3))) /\
  (forall p x0 y0 (w hh : nat), 1 <= p <= 2 -> 0 <= x0 -> 0 <= y0 -> x0 + Z.of_nat w <= 8 -> y0 + Z.of_nat hh <= 8 -> Z.of_nat w <= i_dst ->
     let X := 8 * bx + x0 in let Y := 8 * by_ + y0 in
     block_is dst (mc_chroma dst od i_dst (ptr (f_plane f p) (Y * stride p + X)) (stride p) mvx mvy w hh) od i_dst (Z.of_nat w) (Z.of_nat hh)
       (fun x y => std_chroma (continued (pw h p) (ph h p) (final p)) (X + ((mvx >> 3) + x)) (Y + ((mvy >> 3) + y)) (mvx .& 7) (mvy .& 7))).
Proof.
  intros Ht HT HR Hmb Hil EW EH HF Hin Hx Hy Er Hvy Hvx.
  destruct (coded_frame_inv f HF) as (k & j & Hk & I).
  (* the range of the vector *)
  assert (V : 4 * (-16 * bx - 24) <= mvx <= 4 * (16 * (MW - bx - 1) + 24) /\ 4 * (-16 * by_ - 24) <= mvy <= 4 * (16 * (MH - by_ - 1) + 24) /\
    mvy <= 4 * (f_lines_completed f - by_ * 16) /\ 0 <= f_lines_completed f).
  { unfold mv_range_y in Er. rewrite Hmb, !Z.shiftr_0_r, EH in Er. destruct (thread_mvy_range q by_ refs) as [r|] eqn:E; [|done]. injection Er as <-.
    destruct (thread_range_bound q by_ refs r f Ht Hil E Hin) as [B1 B2]. unfold mv_range_x, CLIP_FMV in *. cbn [mv_min_spel mv_max_spel] in *. rewrite EW in Hvx.
    unfold i_fmv_range, i_spel_border, x264_clip3 in *. repeat case_match; lia. }
  destruct V as (Vx & Vy & Vc & Hc).
  assert (S2 : forall v, v >> 2 = v / 4) by (intros; by rewrite Z.shiftr_div_pow2). assert (S3 : forall v, v >> 3 = v / 8) by (intros; by rewrite Z.shiftr_div_pow2).
  assert (L3 : forall v, v .& 3 = v mod 4) by (intros; change 3 with (Z.ones 2); by rewrite Z.land_ones).
  pose proof (announced_rows k j f Hk I Hc) as A. split.
  - intros x0 y0 w hh Hx0 Hy0 Hw Hh Hd X Y.
    pose proof (planes_of_shift _ _ _ _ _ _ _ X Y (luma_ready h fenc buf coded tables info st0 k j f I)) as P.
    assert (B : forall q, bytes_ok (ptr (luma_planes f q) (Y * stride 0 + X))).
    { intros q' a. unfold ptr, luma_planes. destruct (q' =? 0); [apply (inv_bytes _ _ _ _ _ _ _ _ _ (fi_plane _ _ _ _ _ _ _ _ _ _ I 0 ltac:(lia)))|apply (half_bytes _ _ _ _ _ _ (fi_half _ _ _ _ _ _ _ _ _ _ I))]. }
    eapply block_is_ext; [intros x y _ _; apply std_luma_shift|]. unfold pw, ph in P, A. change (unit 0) with 16 in P, A.
    assert (Hyy : Y + mvy / 4 + Z.of_nat hh + (if decide (mvy mod 4 = 0) then 0 else 1) <= Z.min (ready h 0 k) (ready_half h k)).
    { destruct A as [(_ & -> & _)|[A _]]; unfold X, Y in *; destruct (decide _); Z.to_euclidean_division_equations; lia. }
    destruct (decide (mvy mod 4 = 0)) as [E0|N0].
    + apply (mc_luma_spec_0 _ _ _ _ _ _ _ dst od i_dst mvx mvy w hh P B Hd); rewrite ?L3, ?S2; [done|..]; unfold X, Y in *; Z.to_euclidean_division_equations; lia.
    + apply (mc_luma_spec _ _ _ _ _ _ _ dst od i_dst mvx mvy w hh P B Hd); rewrite ?S2; unfold X, Y in *; Z.to_euclidean_division_equations; lia.
  - intros p x0 y0 w hh Hp Hx0 Hy0 Hw Hh Hd X Y. assert (unit p = 8) as U by (assert (p = 1 \/ p = 2) as [->| ->] by lia; done).
    destruct (fi_plane _ _ _ _ _ _ _ _ _ _ I p ltac:(lia)) as [_ R _]. assert (pad p = 16) as UP by (unfold pad; lia). rewrite UP in R.
    eapply block_is_ext; [intros x y _ _; apply std_chroma_shift|].
    apply mc_chroma_spec; [intros x y; apply final_byte; lia|done|].
    intros x y Hxx Hyy. rewrite S3 in Hxx, Hyy. unfold ptr. replace (Y * stride p + X + (y * stride p + x)) with ((Y + y) * stride p + (X + x)) by lia.
    assert (Hr : Y + y < ready h p k).
    { destruct A as [(_ & _ & A)|[_ A]]; [rewrite A, UP; unfold ph; rewrite U|specialize (A p ltac:(lia))]; unfold X, Y in *; Z.to_euclidean_division_equations; lia. }
    apply R; unfold pw; rewrite ?U; unfold X, Y in *; Z.to_euclidean_division_equations; lia.
Qed.
End Threads.

(** While its third row is coded, the frame of the sample announces 24 lines. *)
Definition sample_mv_param : mv_param := {|
  q_mv_range := 64; q_mv_range_thread := 8; q_threads := 2; q_deterministic := true; q_mbaff := 0; q_interlaced := 0; q_mb_width := 2; q_mb_height := 4
|}.
Definition sample_partial : x264_frame_t := r_frame (slice_load sample_slice sample_frame_t (fun _ => 0) sample_tables (Z.of_nat 6)
    (slice_prefix sample_slice sample_frame_t (fun _ => 0) sample_coded sample_tables 6 sample_state)).
Lemma sample_partial_lines : f_lines_completed sample_partial = 24.
Proof. lazy. reflexivity. Qed.
Lemma unfinished_reference_exact_witness :
  let range := MvRange (-96) 288 (-96) 32 (-19) 3 in
  mv_range_y sample_mv_param 0 [sample_partial] = Some range /\
  block_is (fun _ => 0) (mc_luma (fun _ => 0) 0 32 (fun k => ptr (luma_planes sample_partial k) ((16 * 0 + 0) * 96 + (16 * 1 + 8))) 96 13 30 8 16) 0 32 8 16
    (fun x y => std_luma (continued 32 64 (final sample_slice sample_frame_t (fun _ => 0) sample_coded sample_tables sample_info sample_state 0))
      (16 * 1 + 8 + ((13 >> 2) + x)) (16 * 0 + 0 + ((30 >> 2) + y)) (13 .& 3) (30 .& 3)).
Proof.
  assert (R : mv_range_y sample_mv_param 0 [sample_partial] = Some (MvRange (-96) 288 (-96) 32 (-19) 3)).
  { unfold mv_range_y, thread_mvy_range. cbn [fold_left]. unfold x264_frame_cond_wait. rewrite sample_partial_lines. reflexivity. }
  cbv zeta. split; [exact R|].
  destruct (unfinished_reference_exact _ _ sample_frame_t (fun _ => 0) _ _ _ _ sample_slice_ok sample_mv_param [sample_partial] sample_partial 1 0
    (MvRange (-96) 288 (-96) 32 (-19) 3) 13 30 (fun _ => 0) 0 32) as [L _]; try done; try (cbn; lia).
  - exact (coded_partly sample_slice sample_frame_t (fun _ => 0) sample_coded sample_tables sample_state 6 ltac:(done)).
  - by apply list_elem_of_singleton.
  - exact (L 8 0 8%nat 16%nat ltac:(done) ltac:(done) ltac:(done) ltac:(done) ltac:(done)).
Defined.
