(* ===== verification/Pixel.v ===== *)
(** The pixel metrics (common/pixel.c, pixel.h): sums of absolute and of squared
    differences, variance, Hadamard transformed differences and the test of successive
    elimination.  Pointers that are only read are memories seen from the pointer. *)
From S2P Require Import Prelude Mb CavlcMb Dct Deblock.

(** ** Absolute and squared differences *)
Definition pixel_sad (lx ly : nat) (pix1 : mem) (i_stride_pix1 : Z) (pix2 : mem) (i_stride_pix2 : Z) : Z :=
  for_ ly 0 (fun y i_sum => for_ lx 0 (fun x i_sum =>
    i_sum + Z.abs (pix1 (y * i_stride_pix1 + x) - pix2 (y * i_stride_pix2 + x))) i_sum) 0.
Definition pixel_ssd (lx ly : nat) (pix1 : mem) (i_stride_pix1 : Z) (pix2 : mem) (i_stride_pix2 : Z) : Z :=
  for_ ly 0 (fun y i_sum => for_ lx 0 (fun x i_sum =>
    let d := pix1 (y * i_stride_pix1 + x) - pix2 (y * i_stride_pix2 + x) in i_sum + d * d) i_sum) 0.

Definition PIXEL_16x16 : Z := 0.
Definition PIXEL_16x8 : Z := 1.
Definition PIXEL_8x16 : Z := 2.
Definition PIXEL_4x8 : Z := 5.
(** [h->pixf.sad], ... (the C functions), by [PIXEL_16x16], ... *)
Definition pixel_size (i_pixel : Z) : nat * nat :=
  let '(w, h) := nth (Z.to_nat i_pixel) x264_pixel_size (0, 0) in (Z.to_nat w, Z.to_nat h).
Definition pixf_sad (i_pixel : Z) : mem -> Z -> mem -> Z -> Z := let '(w, h) := pixel_size i_pixel in pixel_sad w h.
Definition pixf_ssd (i_pixel : Z) : mem -> Z -> mem -> Z -> Z := let '(w, h) := pixel_size i_pixel in pixel_ssd w h.

(** [align]: addresses and strides are multiples of 16.  The sum is of 64 bits, [i_ssd]
    in [SSD1] as well. *)
Definition x264_pixel_ssd_wxh (align : bool) (pix1 : mem) (i_pix1 : Z) (pix2 : mem) (i_pix2 : Z) (i_width i_height : Z) : Z :=
  let SSD i_pixel y x i_ssd := s64 (i_ssd + pixf_ssd i_pixel (ptr pix1 (y * i_pix1 + x)) i_pix1 (ptr pix2 (y * i_pix2 + x)) i_pix2) in
  let SSD1 y x i_ssd := let d := pix1 (y * i_pix1 + x) - pix2 (y * i_pix2 + x) in s64 (i_ssd + d * d) in
  let n16 := i_width / 16 in
  let i_ssd := for_ (Z.to_nat (i_height / 16)) 0 (fun k i_ssd =>
    let y := 16 * k in
    let '(x, i_ssd) := if align then (16 * n16, for_ (Z.to_nat n16) 0 (fun j => SSD PIXEL_16x16 y (16 * j)) i_ssd) else (0, i_ssd) in
    for_ (Z.to_nat ((i_width - x) / 8)) 0 (fun j => SSD PIXEL_8x16 y (x + 8 * j)) i_ssd) 0 in
  let y := 16 * (i_height / 16) in
  let i_ssd := if y <? i_height - 7 then
    for_ (Z.to_nat (i_width / 8)) 0 (fun j => SSD PIXEL_8x8 y (8 * j)) i_ssd else i_ssd in
  let w8 := i_width .& Z.lnot 7 in
  let h8 := i_height .& Z.lnot 7 in
  let i_ssd := if negb (i_width mod 8 =? 0) then
    for_ (Z.to_nat h8) 0 (fun y => for_ (Z.to_nat (i_width - w8)) w8 (SSD1 y)) i_ssd else i_ssd in
  if negb (i_height mod 8 =? 0) then
    for_ (Z.to_nat (i_height - h8)) h8 (fun y => for_ (Z.to_nat i_width) 0 (SSD1 y)) i_ssd
  else i_ssd.

(** ** Variance

    The result is returned as an [int]; the second value is [*sad]. *)
Definition pixel_var (w : nat) (shift : Z) (pix : mem) (i_stride : Z) : Z * Z :=
  let '(sum, sqr) := for_ w 0 (fun y st => for_ w 0 (fun x '(sum, sqr) =>
    let p := pix (y * i_stride + x) in (u32 (sum + p), u32 (sqr + p * p))) st) (0, 0) in
  (s32 (u32 (sqr - (u32 (sum * sum) >> shift))), sum).
Definition x264_pixel_var_16x16 : mem -> Z -> Z * Z := pixel_var 16 8.
Definition x264_pixel_var_8x8 : mem -> Z -> Z * Z := pixel_var 8 6.

(** ** Hadamard transforms *)
Definition HADAMARD4 (s0 s1 s2 s3 : Z) : Z * Z * Z * Z :=
  let t0 := s0 + s1 in
  let t1 := s0 - s1 in
  let t2 := s2 + s3 in
  let t3 := s2 - s3 in
  (t0 + t2, t1 + t3, t0 - t2, t1 - t3).

(** [tmp[i][j]] is at [4 * i + j]. *)
Definition satd_4x4 (tmp p1 : mem) (i_pix1 : Z) (p2 : mem) (i_pix2 : Z) (i_satd : Z) : Z :=
  let tmp := for_ 4 0 (fun i tmp =>
    let a k := p1 (i * i_pix1 + k) - p2 (i * i_pix2 + k) in
    let '(d0, d1, d2, d3) := HADAMARD4 (a 0) (a 1) (a 2) (a 3) in
    upd (upd (upd (upd tmp (4 * i) (s16 d0)) (4 * i + 1) (s16 d1)) (4 * i + 2) (s16 d2)) (4 * i + 3) (s16 d3)) tmp in
  for_ 4 0 (fun i i_satd =>
    let '(a0, a1, a2, a3) := HADAMARD4 (tmp i) (tmp (4 + i)) (tmp (8 + i)) (tmp (12 + i)) in
    i_satd + (Z.abs a0 + Z.abs a1 + Z.abs a2 + Z.abs a3)) i_satd.
Definition pixel_satd_wxh (tmp pix1 : mem) (i_pix1 : Z) (pix2 : mem) (i_pix2 : Z) (i_width i_height : Z) : Z :=
  let i_satd := for_ (Z.to_nat ((i_height + 3) / 4)) 0 (fun y => for_ (Z.to_nat ((i_width + 3) / 4)) 0 (fun x =>
    satd_4x4 tmp (ptr pix1 (4 * y * i_pix1 + 4 * x)) i_pix1 (ptr pix2 (4 * y * i_pix2 + 4 * x)) i_pix2)) 0 in
  Z.quot i_satd 2.
Definition pixf_satd (tmp : mem) (i_pixel : Z) (pix1 : mem) (i_pix1 : Z) (pix2 : mem) (i_pix2 : Z) : Z :=
  let '(w, h) := nth (Z.to_nat i_pixel) x264_pixel_size (0, 0) in pixel_satd_wxh tmp pix1 i_pix1 pix2 i_pix2 w h.

(** The eight results of [SA8D_1D], in the order of their index. *)
Definition SA8D_1D (s : Z -> Z) : list Z :=
  let '(b0, b1, b2, b3) := HADAMARD4 (s 0) (s 1) (s 2) (s 3) in
  let '(b4, b5, b6, b7) := HADAMARD4 (s 4) (s 5) (s 6) (s 7) in
  [b0 + b4; b1 + b5; b2 + b6; b3 + b7; b0 - b4; b1 - b5; b2 - b6; b3 - b7].
Definition sa8d_8x8 (diff p1 : mem) (i_pix1 : Z) (p2 : mem) (i_pix2 : Z) (i_satd : Z) : Z :=
  let diff := for_ 8 0 (fun i diff =>
    let d := SA8D_1D (fun k => p1 (i * i_pix1 + k) - p2 (i * i_pix2 + k)) in
    for_ 8 0 (fun k diff => upd diff (8 * i + k) (s16 (tbl d k))) diff) diff in
  for_ 8 0 (fun i i_satd =>
    fold_left (fun s d => s + Z.abs d) (SA8D_1D (fun k => diff (8 * k + i))) i_satd) i_satd.
Definition pixel_sa8d_wxh (diff pix1 : mem) (i_pix1 : Z) (pix2 : mem) (i_pix2 : Z) (i_width i_height : Z) : Z :=
  for_ (Z.to_nat ((i_height + 7) / 8)) 0 (fun y => for_ (Z.to_nat ((i_width + 7) / 8)) 0 (fun x =>
    sa8d_8x8 diff (ptr pix1 (8 * y * i_pix1 + 8 * x)) i_pix1 (ptr pix2 (8 * y * i_pix2 + 8 * x)) i_pix2)) 0.
Definition x264_pixel_sa8d (diff : mem) (width height : Z) (pix1 : mem) (i_pix1 : Z) (pix2 : mem) (i_pix2 : Z) : Z :=
  (pixel_sa8d_wxh diff pix1 i_pix1 pix2 i_pix2 width height + 2) >> 2.

(** [tmp[i][j]] is at [8 * i + j]; the sums of the 4x4 and of the 8x8 transform in the
    halves of a word. *)
Definition pixel_hadamard_ac (tmp pix : mem) (stride : Z) : Z :=
  let tmp := for_ 8 0 (fun i tmp =>
    let p k := pix (i * stride + k) in
    let '(d0, d1, d2, d3) := HADAMARD4 (p 0) (p 1) (p 2) (p 3) in
    let '(d4, d5, d6, d7) := HADAMARD4 (p 4) (p 5) (p 6) (p 7) in
    for_ 8 0 (fun k tmp => upd tmp (8 * k + i) (s16 (tbl [d0; d1; d2; d3; d4; d5; d6; d7] k))) tmp) tmp in
  let '(tmp, sum4) := for_ 8 0 (fun i '(tmp, sum4) =>
    let '(a0, a1, a2, a3) := HADAMARD4 (tmp (8 * i)) (tmp (8 * i + 1)) (tmp (8 * i + 2)) (tmp (8 * i + 3)) in
    let sum4 := sum4 + (Z.abs a0 + Z.abs a1 + Z.abs a2 + Z.abs a3) in
    let '(a4, a5, a6, a7) := HADAMARD4 (tmp (8 * i + 4)) (tmp (8 * i + 5)) (tmp (8 * i + 6)) (tmp (8 * i + 7)) in
    let sum4 := sum4 + (Z.abs a4 + Z.abs a5 + Z.abs a6 + Z.abs a7) in
    (for_ 8 0 (fun k tmp => upd tmp (8 * i + k)
      (s16 (tbl [a0 + a4; a1 + a5; a2 + a6; a3 + a7; a0 - a4; a1 - a5; a2 - a6; a3 - a7] k))) tmp, sum4)) (tmp, 0) in
  let sum8 := for_ 8 0 (fun i sum8 =>
    sum8 + (Z.abs (tmp i + tmp (32 + i)) + Z.abs (tmp i - tmp (32 + i))
          + Z.abs (tmp (8 + i) + tmp (40 + i)) + Z.abs (tmp (8 + i) - tmp (40 + i))
          + Z.abs (tmp (16 + i) + tmp (48 + i)) + Z.abs (tmp (16 + i) - tmp (48 + i))
          + Z.abs (tmp (24 + i) + tmp (56 + i)) + Z.abs (tmp (24 + i) - tmp (56 + i)))) 0 in
  let sum4 := sum4 - (tmp 0 + tmp 32) in
  let sum8 := sum8 - (tmp 0 + tmp 32) in
  u64 (u64 (u64 sum8 << 32) + u64 sum4).
Definition x264_pixel_hadamard_ac (tmp : mem) (w h : Z) (pix : mem) (stride : Z) : Z :=
  let sum := pixel_hadamard_ac tmp pix stride in
  let sum := if w =? 16 then u64 (sum + pixel_hadamard_ac tmp (ptr pix 8) stride) else sum in
  let sum := if h =? 16 then u64 (sum + pixel_hadamard_ac tmp (ptr pix (8 * stride)) stride) else sum in
  let sum := if (w =? 16) && (h =? 16) then u64 (sum + pixel_hadamard_ac tmp (ptr pix (8 * stride + 8)) stride) else sum in
  u64 (((sum >> 34) << 32) + (u32 sum >> 1)).

(** ** Several candidates at once *)
Definition cmp_x (cmp : mem -> Z -> mem -> Z -> Z) (fenc : mem) (pix : list mem) (i_stride : Z) : list Z :=
  map (fun p => cmp fenc FENC_STRIDE p i_stride) pix.
Definition pixf_sad_x (i_pixel : Z) : mem -> list mem -> Z -> list Z := cmp_x (pixf_sad i_pixel).
Definition pixf_satd_x (tmp : mem) (i_pixel : Z) : mem -> list mem -> Z -> list Z := cmp_x (pixf_satd tmp i_pixel).

(** ** Sums for the structural similarity of two neighbouring 4x4 blocks *)
Definition ssim_4x4x2_core (pix1 : mem) (stride1 : Z) (pix2 : mem) (stride2 : Z) : list (Z * Z * Z * Z) :=
  map (fun z =>
    for_ 4 0 (fun y st => for_ 4 0 (fun x '(s1, s2, ss, s12) =>
      let a := pix1 (4 * z + x + y * stride1) in
      let b := pix2 (4 * z + x + y * stride2) in
      (u32 (s1 + a), u32 (s2 + b), u32 (u32 (ss + a * a) + b * b), u32 (s12 + a * b))) st) (0, 0, 0, 0)) [0; 1].

(** ** Successive elimination

    [mvs] receives the positions whose bound is below the threshold. *)
Definition ads_loop (bound : Z -> Z) (width thresh : Z) : list Z :=
  for_ (Z.to_nat width) 0 (fun i mvs => if bound i <? thresh then mvs ++ [s16 i] else mvs) [].
Definition x264_pixel_ads4 (enc_dc : list Z) (sums : mem) (delta : Z) (cost_mvx : mem) (width thresh : Z) : list Z :=
  ads_loop (fun i => Z.abs (tbl enc_dc 0 - sums i) + Z.abs (tbl enc_dc 1 - sums (i + 8))
    + Z.abs (tbl enc_dc 2 - sums (i + delta)) + Z.abs (tbl enc_dc 3 - sums (i + delta + 8)) + cost_mvx i) width thresh.
Definition x264_pixel_ads2 (enc_dc : list Z) (sums : mem) (delta : Z) (cost_mvx : mem) (width thresh : Z) : list Z :=
  ads_loop (fun i => Z.abs (tbl enc_dc 0 - sums i) + Z.abs (tbl enc_dc 1 - sums (i + delta)) + cost_mvx i) width thresh.
Definition x264_pixel_ads1 (enc_dc : list Z) (sums : mem) (delta : Z) (cost_mvx : mem) (width thresh : Z) : list Z :=
  ads_loop (fun i => Z.abs (tbl enc_dc 0 - sums i) + cost_mvx i) width thresh.
(** [h->pixf.ads]. *)
Definition pixf_ads (i_pixel : Z) : list Z -> mem -> Z -> mem -> Z -> Z -> list Z :=
  if i_pixel =? PIXEL_16x16 then x264_pixel_ads4
  else if (i_pixel =? PIXEL_8x8) || (i_pixel =? PIXEL_4x4) then x264_pixel_ads1
  else x264_pixel_ads2.
