(* ===== verification/PixelTheorem.v ===== *)
(** * What the pixel metrics measure

    The tiled sum of squares is the sum over the rectangle, the variance does not wrap, and
    the 16-bit temporaries of the Hadamard metrics hold the transforms exactly. *)
From S2P Require Import Prelude Mb CavlcMb Dct Deblock Sums Pixel.

(** ** Sums of squares *)
Section Ssd.
Context (pix1 : mem) (i_pix1 : Z) (pix2 : mem) (i_pix2 : Z).
(** The squared difference of the samples in column [x] and row [y]. *)
Definition sq_diff (pix1 : mem) (i_pix1 : Z) (pix2 : mem) (i_pix2 : Z) (x y : Z) : Z :=
  (pix1 (y * i_pix1 + x) - pix2 (y * i_pix2 + x)) * (pix1 (y * i_pix1 + x) - pix2 (y * i_pix2 + x)).
Local Abbreviation B := (box_sum (sq_diff pix1 i_pix1 pix2 i_pix2)).

Lemma pixel_ssd_box lx ly x y :
  pixel_ssd lx ly (ptr pix1 (y * i_pix1 + x)) i_pix1 (ptr pix2 (y * i_pix2 + x)) i_pix2 = B x y (Z.of_nat lx) (Z.of_nat ly).
Proof.
  unfold pixel_ssd. cbv zeta.
  rewrite (for_ext ly 0 _ (fun j s => for_ lx 0 (fun i s => s + sq_diff pix1 i_pix1 pix2 i_pix2 (x + i) (y + j)) s)).
  2: { intros j s _. apply for_ext. intros i s' _. unfold sq_diff, ptr.
       replace ((y + j) * i_pix1 + (x + i)) with (y * i_pix1 + x + (j * i_pix1 + i)) by lia.
       by replace ((y + j) * i_pix2 + (x + i)) with (y * i_pix2 + x + (j * i_pix2 + i)) by lia. }
  rewrite (for_box (fun i j => sq_diff pix1 i_pix1 pix2 i_pix2 (x + i) (y + j))).
  rewrite Z.add_0_l. rewrite box_shift. by rewrite !Z.add_0_r.
Qed.
Lemma s64_add t b : s64 (s64 t + b) = s64 (t + b).
Proof. apply sw_uw. by rewrite Z.add_mod, sw_mod, <- Z.add_mod by lia. Qed.
Lemma for_s64 n lo body f t : (forall i t, lo <= i < lo + Z.of_nat n -> body i (s64 t) = s64 (t + f i)) ->
  for_ n lo body (s64 t) = s64 (t + zsum (Z.of_nat n) (fun i => f (lo + i))).
Proof.
  intros HB.
  pose proof (for_inv (fun i s => s = s64 (t + zsum (i - lo) (fun i => f (lo + i)))) n lo body (s64 t)) as I. cbv beta in I.
  replace (lo + Z.of_nat n - lo) with (Z.of_nat n) in I by lia. apply I; [by rewrite Z.sub_diag, zsum_0, Z.add_0_r|].
  intros i s' Hi ->. rewrite HB by done. f_equal. replace (i + 1 - lo) with (i - lo + 1) by lia. rewrite zsum_next by lia.
  replace (lo + (i - lo)) with i by lia. lia.
Qed.
Lemma box_cols p n x y d h : 0 <= n -> 0 <= d -> 0 <= h -> zsum n (fun j => box_sum p (x + d * j) y d h) = box_sum p x y (d * n) h.
Proof.
  intros Hn Hd Hh. revert n Hn. apply natlike_ind.
  - rewrite zsum_0, Z.mul_0_r. unfold box_sum. rewrite (zsum_ext h _ (fun _ => 0)) by done.
    pose proof (zsum_bounds h (fun _ => 0) 0 0 Hh ltac:(lia)). lia.
  - intros n Hn IH. pose proof (Z.mul_nonneg_nonneg d n Hd Hn). unfold Z.succ. rewrite zsum_next, IH by done.
    rewrite Z.mul_add_distr_l, Z.mul_1_r, box_width by lia. done.
Qed.
Lemma floor8 a : a .& Z.lnot 7 = 8 * (a / 8).
Proof. rewrite <- Z.ldiff_land. change 7 with (Z.ones 3). rewrite Z.ldiff_ones_r, Z.shiftr_div_pow2, Z.shiftl_mul_pow2 by lia. change (2 ^ 3) with 8. lia. Qed.

(** The rows of sixteen, with tiles of 16 by 16 or 8 by 16. *)
Lemma ssd_rows (align : bool) w h s : 0 <= w -> 0 <= h -> s = s64 0 ->
  for_ (Z.to_nat (h / 16)) 0 (fun k i_ssd =>
    let '(x, i_ssd) := if align then (16 * (w / 16), for_ (Z.to_nat (w / 16)) 0 (fun j i_ssd =>
        s64 (i_ssd + pixf_ssd PIXEL_16x16 (ptr pix1 (16 * k * i_pix1 + 16 * j)) i_pix1 (ptr pix2 (16 * k * i_pix2 + 16 * j)) i_pix2)) i_ssd) else (0, i_ssd) in
    for_ (Z.to_nat ((w - x) / 8)) 0 (fun j i_ssd =>
      s64 (i_ssd + pixf_ssd PIXEL_8x16 (ptr pix1 (16 * k * i_pix1 + (x + 8 * j))) i_pix1 (ptr pix2 (16 * k * i_pix2 + (x + 8 * j))) i_pix2)) i_ssd) s
  = s64 (B 0 0 (8 * (w / 8)) (16 * (h / 16))).
Proof.
  intros Hw Hh ->. pose proof (Z.div_pos h 16 Hh ltac:(lia)). replace (16 * (h / 16)) with (16 * (0 + Z.of_nat (Z.to_nat (h / 16)))) by lia.
  refine (for_inv (fun k s => s = s64 (B 0 0 (8 * (w / 8)) (16 * k))) _ 0 _ _ _ _); [done|].
  intros k s Hk ->. rewrite Z.mul_add_distr_l, box_height, Z.mul_1_r by lia. cbv zeta. change (pixf_ssd PIXEL_16x16) with (pixel_ssd 16 16). change (pixf_ssd PIXEL_8x16) with (pixel_ssd 8 16).
  destruct align.
  - rewrite (for_s64 (Z.to_nat (w / 16)) 0 _ (fun j => B (0 + 16 * j) (0 + 16 * k) 16 16)); cycle 1.
    { intros i t Hi. by rewrite s64_add, (pixel_ssd_box 16 16 (16 * i)). }
    rewrite (for_s64 _ 0 _ (fun j => B (16 * (w / 16) + 8 * j) (0 + 16 * k) 8 16)); cycle 1.
    { intros i t Hi. by rewrite s64_add, pixel_ssd_box. }
    f_equal. pose proof (Z.div_pos w 16 Hw ltac:(lia)). assert (0 <= (w - 16 * (w / 16)) / 8) by (Z.to_euclidean_division_equations; lia).
    rewrite !Z2Nat.id by done.
    rewrite (box_cols _ _ 0), (box_cols _ _ (16 * (w / 16))) by lia. rewrite <- (Z.add_0_l (16 * (w / 16))) at 1.
    rewrite <- Z.add_assoc, <- box_width by lia. do 2 f_equal. Z.to_euclidean_division_equations; lia.
  - rewrite (for_s64 _ 0 _ (fun j => B (0 + 8 * j) (0 + 16 * k) 8 16)); cycle 1.
    { intros i t Hi. by rewrite s64_add, pixel_ssd_box. }
    f_equal. rewrite Z.sub_0_r. pose proof (Z.div_pos w 8 Hw ltac:(lia)). rewrite Z2Nat.id by done.
    by rewrite (box_cols _ _ 0) by lia.
Qed.

(** The tiles and the samples at the right and bottom edges. *)
Lemma ssd_wxh_word align w h : 0 <= w -> 0 <= h ->
  x264_pixel_ssd_wxh align pix1 i_pix1 pix2 i_pix2 w h = s64 (B 0 0 w h).
Proof.
  intros Hw Hh. unfold x264_pixel_ssd_wxh. cbv zeta. rewrite !floor8, (ssd_rows align w h 0 Hw Hh eq_refl).
  set (s := if 16 * (h / 16) <? h - 7 then _ else _). assert (Es : s = s64 (B 0 0 (8 * (w / 8)) (8 * (h / 8)))).
  { unfold s. change (pixf_ssd PIXEL_8x8) with (pixel_ssd 8 8). pose proof (Z.div_pos w 8 Hw ltac:(lia)). destruct (Z.ltb_spec (16 * (h / 16)) (h - 7)).
    - rewrite (for_s64 _ 0 _ (fun j => B (0 + 8 * j) (0 + 16 * (h / 16)) 8 8)); cycle 1.
      { intros i t Hi. by rewrite s64_add, pixel_ssd_box. }
      rewrite Z2Nat.id, (box_cols _ _ 0), <- box_height by (try lia; Z.to_euclidean_division_equations; lia).
      do 2 f_equal. Z.to_euclidean_division_equations; lia.
    - do 2 f_equal. Z.to_euclidean_division_equations; lia. }
  clearbody s. subst s.
  assert (SSD1 : forall x0 w y t, 0 <= w -> for_ (Z.to_nat w) x0 (fun x i_ssd => s64 (i_ssd + sq_diff pix1 i_pix1 pix2 i_pix2 x y)) (s64 t) =
    s64 (t + zsum w (fun i => sq_diff pix1 i_pix1 pix2 i_pix2 (x0 + i) y))).
  { intros x0 w0 y t H0. rewrite (for_s64 _ x0 _ (fun x => sq_diff pix1 i_pix1 pix2 i_pix2 x y)); [by rewrite Z2Nat.id|]. intros i t' _. apply s64_add. }
  assert (SSD2 : forall x0 w y0 h t, 0 <= w -> 0 <= h -> for_ (Z.to_nat h) y0 (fun y => for_ (Z.to_nat w) x0 (fun x i_ssd =>
    s64 (i_ssd + sq_diff pix1 i_pix1 pix2 i_pix2 x y))) (s64 t) = s64 (t + B x0 y0 w h)).
  { intros x0 w0 y0 h0 t H0 H1. rewrite (for_s64 _ y0 _ (fun y => zsum w0 (fun i => sq_diff pix1 i_pix1 pix2 i_pix2 (x0 + i) y))); [by rewrite Z2Nat.id|]. intros y t' _. by apply SSD1. }
  pose proof (Z.div_pos w 8 Hw ltac:(lia)). pose proof (Z.div_pos h 8 Hh ltac:(lia)).
  pose proof (Z.div_mod w 8 ltac:(lia)). pose proof (Z.div_mod h 8 ltac:(lia)). pose proof (Z.mod_pos_bound w 8 ltac:(lia)). pose proof (Z.mod_pos_bound h 8 ltac:(lia)).
  set (s := if negb (w mod 8 =? 0) then _ else _). assert (Es : s = s64 (B 0 0 w (8 * (h / 8)))).
  { unfold s. destruct (Z.eqb_spec (w mod 8) 0) as [E|E]; cbn [negb].
    - do 2 f_equal. lia.
    - etransitivity; [apply SSD2; lia|]. rewrite <- (Z.add_0_l (8 * (w / 8))) at 1. rewrite <- box_width by lia. do 2 f_equal. lia. }
  clearbody s. subst s. destruct (Z.eqb_spec (h mod 8) 0) as [E|E]; cbn [negb].
  - do 2 f_equal. lia.
  - etransitivity; [apply SSD2; lia|]. rewrite <- (Z.add_0_l (8 * (h / 8))) at 1. rewrite <- box_height by lia. do 2 f_equal. lia.
Qed.
End Ssd.

(** ** Variance *)
Lemma zsum_squares n f : 0 <= n -> zsum n f * zsum n f <= n * zsum n (fun i => f i * f i) /\ 0 <= zsum n (fun i => f i * f i).
Proof.
  revert n. apply natlike_ind; [done|]. intros n Hn [IH Q]. unfold Z.succ. rewrite !zsum_next by done.
  set (S := zsum n f) in *. set (q := zsum n (fun i => f i * f i)) in *. clearbody S q. split; [|nia].
  destruct (Z.eq_dec n 0) as [->|Hne]; [nia|].
  assert (2 * S * f n <= q + n * (f n * f n)); [|nia].
  apply (Z.mul_le_mono_pos_l _ _ n); [lia|]. pose proof (Z.square_nonneg (S - n * f n)). nia.
Qed.
(** The samples of the rows one after the other. *)
Lemma zsum_rows w h (f : Z -> Z) : 0 < w -> 0 <= h -> zsum h (fun y => zsum w (fun x => f (w * y + x))) = zsum (w * h) f.
Proof.
  intros Hw. revert h. apply natlike_ind; [by rewrite Z.mul_0_r|]. intros h Hh IH. unfold Z.succ. rewrite zsum_next, IH by done.
  rewrite Z.mul_add_distr_l, Z.mul_1_r, zsum_add by nia. done.
Qed.
Lemma box_rows w h (p : Z -> Z -> Z) : 0 < w -> 0 <= h -> box_sum p 0 0 w h = zsum (w * h) (fun k => p (k mod w) (k / w)).
Proof.
  intros Hw Hh. rewrite <- zsum_rows by done. apply zsum_ext. intros y Hy. apply zsum_ext. intros x Hx.
  replace (w * y + x) with (x + y * w) by lia. rewrite Z.mod_add, Z.div_add, Z.mod_small, Z.div_small by lia. done.
Qed.
Lemma for_u32_pair n lo (f g : Z -> Z) a b : for_ n lo (fun x '(s, q) => (u32 (s + f x), u32 (q + g x))) (u32 a, u32 b) =
  (u32 (a + zsum (Z.of_nat n) (fun i => f (lo + i))), u32 (b + zsum (Z.of_nat n) (fun i => g (lo + i)))).
Proof.
  pose proof (for_inv (fun i s => s = (u32 (a + zsum (i - lo) (fun i => f (lo + i))), u32 (b + zsum (i - lo) (fun i => g (lo + i))))) n lo
    (fun x '(s, q) => (u32 (s + f x), u32 (q + g x))) (u32 a, u32 b)) as I. cbv beta in I.
  replace (lo + Z.of_nat n - lo) with (Z.of_nat n) in I by lia. apply I; [by rewrite Z.sub_diag, !zsum_0, !Z.add_0_r|].
  intros i s Hi ->. unfold uw. rewrite !Z.add_mod_idemp_l by lia. replace (i + 1 - lo) with (i - lo + 1) by lia. rewrite !zsum_next by lia.
  replace (lo + (i - lo)) with i by lia. f_equal; f_equal; lia.
Qed.
Lemma pixel_var_exact w shift pix i_stride : (w = 16%nat /\ shift = 8 \/ w = 8%nat /\ shift = 6) -> bytes_ok pix ->
  let sum := box_sum (fun x y => pix (y * i_stride + x)) 0 0 (Z.of_nat w) (Z.of_nat w) in
  let sqr := box_sum (fun x y => pix (y * i_stride + x) * pix (y * i_stride + x)) 0 0 (Z.of_nat w) (Z.of_nat w) in
  pixel_var w shift pix i_stride = (sqr - sum * sum / (Z.of_nat w * Z.of_nat w), sum) /\ 0 <= sqr - sum * sum / (Z.of_nat w * Z.of_nat w).
Proof.
  intros Hw Hb sum sqr.
  assert (B : 0 <= sum <= 255 * (Z.of_nat w * Z.of_nat w) /\ 0 <= sqr <= 65025 * (Z.of_nat w * Z.of_nat w) /\ sum * sum <= Z.of_nat w * Z.of_nat w * sqr).
  { unfold sum, sqr. rewrite !box_rows by (destruct Hw as [[-> _]|[-> _]]; lia).
    assert (Hww : 0 <= Z.of_nat w * Z.of_nat w) by (destruct Hw as [[-> _]|[-> _]]; lia).
    set (p k := pix (k / Z.of_nat w * i_stride + k mod Z.of_nat w)). change (zsum (Z.of_nat w * Z.of_nat w) (fun k => _ * _)) with (zsum (Z.of_nat w * Z.of_nat w) (fun k => p k * p k)).
    pose proof (zsum_squares (Z.of_nat w * Z.of_nat w) p Hww).
    assert (P : forall k, 0 <= p k < 256) by (intros; apply Hb).
    pose proof (zsum_bounds _ p 0 255 Hww (fun i _ => ltac:(specialize (P i); lia))).
    pose proof (zsum_bounds _ (fun k => p k * p k) 0 65025 Hww (fun i _ => ltac:(specialize (P i); cbv beta; nia))).
    change (zsum (Z.of_nat w * Z.of_nat w) (fun k => pix (k / Z.of_nat w * i_stride + k mod Z.of_nat w))) with (zsum (Z.of_nat w * Z.of_nat w) p). lia. }
  unfold pixel_var.
  assert (E : for_ w 0 (fun y st => for_ w 0 (fun x '(sum, sqr) => (u32 (sum + pix (y * i_stride + x)), u32 (sqr + pix (y * i_stride + x) * pix (y * i_stride + x)))) st) (0, 0) = (sum, sqr)).
  { pose proof (for_inv (fun y st => st = (u32 (zsum y (fun y => zsum (Z.of_nat w) (fun x => pix (y * i_stride + x)))),
      u32 (zsum y (fun y => zsum (Z.of_nat w) (fun x => pix (y * i_stride + x) * pix (y * i_stride + x)))))) w 0
      (fun y st => for_ w 0 (fun x '(sum, sqr) => (u32 (sum + pix (y * i_stride + x)), u32 (sqr + pix (y * i_stride + x) * pix (y * i_stride + x)))) st) (0, 0)) as I.
    cbv beta in I. rewrite I; [|done|].
    - rewrite Z.add_0_l. change (zsum (Z.of_nat w) (fun y => zsum _ (fun x => pix (y * i_stride + x)))) with sum.
      change (zsum (Z.of_nat w) (fun y => zsum _ (fun x => _ * _))) with sqr. rewrite !uw_small; [done| |]; destruct Hw as [[-> _]|[-> _]]; lia.
    - intros y st Hy ->. cbv zeta. rewrite (for_u32_pair w 0 (fun x => pix (y * i_stride + x)) (fun x => pix (y * i_stride + x) * pix (y * i_stride + x))).
      by rewrite !zsum_next by lia. }
  rewrite E. clearbody sum sqr. clear E. destruct Hw as [[-> ->]|[-> ->]].
  - change (Z.of_nat 16 * Z.of_nat 16) with 256 in *. rewrite Z.shiftr_div_pow2 by lia. change (2 ^ 8) with 256.
    rewrite (uw_small 32 (sum * sum)) by nia. pose proof (Z.div_le_upper_bound (sum * sum) 256 sqr ltac:(lia) ltac:(lia)). pose proof (Z.div_pos (sum * sum) 256 ltac:(nia) ltac:(lia)).
    rewrite uw_small, sw_small by lia. split; [done|lia].
  - change (Z.of_nat 8 * Z.of_nat 8) with 64 in *. rewrite Z.shiftr_div_pow2 by lia. change (2 ^ 6) with 64.
    rewrite (uw_small 32 (sum * sum)) by nia. pose proof (Z.div_le_upper_bound (sum * sum) 64 sqr ltac:(lia) ltac:(lia)). pose proof (Z.div_pos (sum * sum) 64 ltac:(nia) ltac:(lia)).
    rewrite uw_small, sw_small by lia. split; [done|lia].
Qed.

(** C23: The sums that rate control and statistics read are exact.  The squared error of two
    pictures, computed in tiles of 16 by 16, 8 by 16 and 8 by 8 and single samples at the
    right and bottom edges, with or without aligned planes, is the sum over every sample
    once; and the variance of a macroblock or of a quarter is the sum of squares less the
    square of the sum over the number of samples, rounded down, without a wrap. *)
Theorem pixel_sums_exact align pix1 i_pix1 pix2 i_pix2 w h :
  bytes_ok pix1 -> bytes_ok pix2 -> 0 <= w -> 0 <= h -> w * h < 2 ^ 47 ->
  x264_pixel_ssd_wxh align pix1 i_pix1 pix2 i_pix2 w h = box_sum (sq_diff pix1 i_pix1 pix2 i_pix2) 0 0 w h /\
  (let sum n := box_sum (fun x y => pix1 (y * i_pix1 + x)) 0 0 n n in
   let sqr n := box_sum (fun x y => pix1 (y * i_pix1 + x) * pix1 (y * i_pix1 + x)) 0 0 n n in
   x264_pixel_var_16x16 pix1 i_pix1 = (sqr 16 - sum 16 * sum 16 / 256, sum 16) /\ 0 <= sqr 16 - sum 16 * sum 16 / 256 /\
   x264_pixel_var_8x8 pix1 i_pix1 = (sqr 8 - sum 8 * sum 8 / 64, sum 8) /\ 0 <= sqr 8 - sum 8 * sum 8 / 64).
Proof.
  intros B1 B2 Hw Hh Hwh. split.
  - rewrite ssd_wxh_word by done.
    assert (Q : forall x y, 0 <= sq_diff pix1 i_pix1 pix2 i_pix2 x y <= 65025).
    { intros x y. unfold sq_diff. specialize (B1 (y * i_pix1 + x)). specialize (B2 (y * i_pix2 + x)). set (e := pix1 _ - pix2 _).
      assert (-255 <= e <= 255) by (unfold e; lia). clearbody e. nia. }
    assert (0 <= box_sum (sq_diff pix1 i_pix1 pix2 i_pix2) 0 0 w h <= h * (w * 65025)).
    { unfold box_sum. split; [apply zsum_nonneg; [done|]; intros; apply zsum_nonneg; [done|]; intros; apply Q|].
      apply zsum_bounds with (lo := 0); [done|]. intros y _. split; [apply zsum_nonneg; [done|]; intros; apply Q|]. by apply zsum_bounds with (lo := 0). }
    apply sw_small; lia.
  - destruct (pixel_var_exact 16 8 pix1 i_pix1) as [E N]; [by left|done|]. destruct (pixel_var_exact 8 6 pix1 i_pix1) as [E' N']; [by right|done|].
    cbv zeta in *. unfold x264_pixel_var_16x16, x264_pixel_var_8x8. repeat split; done.
Qed.

(** ** Hadamard transforms

    Row [u] of the transform has the sign of the parity of the common bits of [u] and [i]. *)
Definition walsh (u i : Z) : Z :=
  let b k := Z.testbit (u .& i) k in if xorb (xorb (b 0) (b 1)) (b 2) then -1 else 1.
(** Coefficient of the [n] by [n] transform of the block [d]. *)
Definition hadamard (n : Z) (d : Z -> Z -> Z) (u v : Z) : Z := zsum n (fun y => walsh v y * zsum n (fun x => walsh u x * d x y)).
Definition hadamard_sum (n : Z) (d : Z -> Z -> Z) : Z := zsum n (fun u => zsum n (fun v => Z.abs (hadamard n d u v))).

Lemma zsum_1 f : zsum 1 f = f 0.
Proof. done. Qed.
Lemma zsum_2 f : zsum 2 f = f 0 + f 1.
Proof. done. Qed.
Lemma zsum_4 f : zsum 4 f = f 0 + f 1 + f 2 + f 3.
Proof. done. Qed.
Lemma zsum_8 f : zsum 8 f = f 0 + f 1 + f 2 + f 3 + f 4 + f 5 + f 6 + f 7.
Proof. done. Qed.
Ltac walsh_signs := rewrite ?zsum_4, ?zsum_8; change (4 + 0) with 4; change (4 + 1) with 5; change (4 + 2) with 6; change (4 + 3) with 7;
  repeat match goal with |- context [walsh ?a ?b] => let w := eval vm_compute in (walsh a b) in change (walsh a b) with w end; lia.
Lemma HADAMARD4_walsh s : HADAMARD4 (s 0) (s 1) (s 2) (s 3) =
  (zsum 4 (fun i => walsh 0 i * s i), zsum 4 (fun i => walsh 1 i * s i), zsum 4 (fun i => walsh 2 i * s i), zsum 4 (fun i => walsh 3 i * s i)).
Proof. unfold HADAMARD4. do 3 (apply (f_equal2 pair); [|walsh_signs]). walsh_signs. Qed.
Lemma SA8D_list s : SA8D_1D s = map (fun k => zsum 8 (fun i => walsh k i * s i)) [0; 1; 2; 3; 4; 5; 6; 7].
Proof. unfold SA8D_1D, HADAMARD4. cbn [map]. repeat (apply (f_equal2 cons); [walsh_signs|]). done. Qed.
Lemma SA8D_walsh s k : 0 <= k < 8 -> tbl (SA8D_1D s) k = zsum 8 (fun i => walsh k i * s i).
Proof.
  intros Hk. assert (k = 0 \/ k = 1 \/ k = 2 \/ k = 3 \/ k = 4 \/ k = 5 \/ k = 6 \/ k = 7) as D by lia. rewrite SA8D_list.
  destruct D as [->|[->|[->|[->|[->|[->|[->| ->]]]]]]]; done.
Qed.
Lemma walsh_bound n u s M : 0 <= n -> (forall i, 0 <= i < n -> - M <= s i <= M) -> - (n * M) <= zsum n (fun i => walsh u i * s i) <= n * M.
Proof.
  intros Hn H. replace (- (n * M)) with (n * - M) by lia. apply zsum_bounds; [done|]. intros i Hi. specialize (H i Hi).
  assert (walsh u i = 1 \/ walsh u i = -1) as [->| ->] by (unfold walsh; destruct (xorb _ _); auto); lia.
Qed.
(** A table filled cell by cell. *)
Lemma table_at (A V : Z -> Z -> Z) n k m i j :
  (forall i j i' j', 0 <= i < Z.of_nat n -> 0 <= j < Z.of_nat k -> 0 <= i' < Z.of_nat n -> 0 <= j' < Z.of_nat k -> A i j = A i' j' -> i = i' /\ j = j') ->
  0 <= i < Z.of_nat n -> 0 <= j < Z.of_nat k ->
  for_ n 0 (fun i m => for_ k 0 (fun j m => upd m (A i j) (V i j)) m) m (A i j) = V i j.
Proof.
  intros Inj Hi Hj.
  refine (for_inv (fun r m => forall i j, 0 <= i < Z.of_nat n -> 0 <= i < r -> 0 <= j < Z.of_nat k -> m (A i j) = V i j) n 0 _ m _ _ i j Hi _ Hj); [intros; lia| |lia].
  clear i j Hi Hj. intros r m' Hr I i j Hi Hir Hj.
  refine (for_inv (fun c m => forall i j, 0 <= i < Z.of_nat n -> 0 <= j < Z.of_nat k -> i < r \/ i = r /\ j < c -> m (A i j) = V i j) k 0 _ m' _ _ i j Hi Hj _); [|  |lia].
  - intros i0 j0 H1 H2 [H3|H3]; [apply I; lia|lia].
  - intros c m'' Hc I' i0 j0 H1 H2 H3. destruct (Z.eq_dec (A i0 j0) (A r c)) as [E|E].
    + rewrite E, upd_eq. destruct (Inj i0 j0 r c H1 H2 ltac:(lia) ltac:(lia) E) as [-> ->]. done.
    + rewrite upd_ne by done. apply I'; [done|done|]. destruct (Z.eq_dec i0 r) as [->|]; [|lia]. destruct (Z.eq_dec j0 c) as [->|]; [done|lia].
Qed.

Definition byte_diff (d : Z -> Z -> Z) : Prop := forall x y, -255 <= d x y <= 255.
Definition block_diff (p1 : mem) (i_pix1 : Z) (p2 : mem) (i_pix2 : Z) (x y : Z) : Z := p1 (y * i_pix1 + x) - p2 (y * i_pix2 + x).

Lemma satd_4x4_exact tmp p1 i1 p2 i2 s : byte_diff (block_diff p1 i1 p2 i2) ->
  satd_4x4 tmp p1 i1 p2 i2 s = s + hadamard_sum 4 (block_diff p1 i1 p2 i2).
Proof.
  intros B. set (d := block_diff p1 i1 p2 i2) in *. unfold satd_4x4.
  set (m := for_ 4 0 _ tmp). assert (M : forall i j, 0 <= i < 4 -> 0 <= j < 4 -> m (4 * i + j) = zsum 4 (fun x => walsh j x * d x i)).
  { intros i j Hi Hj. unfold m.
    rewrite (for_ext 4 0 _ (fun i m => for_ 4 0 (fun j m => upd m (4 * i + j) (zsum 4 (fun x => walsh j x * d x i))) m)).
    - apply (table_at (fun i j => 4 * i + j) (fun i j => zsum 4 (fun x => walsh j x * d x i)) 4 4); lia.
    - clear i j Hi Hj. intros i m' _. cbv zeta.
      change (HADAMARD4 _ _ _ _) with (HADAMARD4 (d 0 i) (d 1 i) (d 2 i) (d 3 i)). rewrite (HADAMARD4_walsh (fun x => d x i)). cbn [for_].
      rewrite Z.add_0_r. change (0 + 1) with 1. change (1 + 1) with 2. change (2 + 1) with 3.
      assert (W : forall u, s16 (zsum 4 (fun x => walsh u x * d x i)) = zsum 4 (fun x => walsh u x * d x i)).
      { intros u. pose proof (walsh_bound 4 u (fun x => d x i) 255 ltac:(lia) (fun x _ => B x i)). by rewrite sw_small by lia. }
      by rewrite !W. }
  clearbody m.
  etransitivity; [|apply (for_sum 4 (fun u => zsum 4 (fun v => Z.abs (hadamard 4 d u v))))]. apply for_ext.
  intros i s' Hi. pose proof (HADAMARD4_walsh (fun k => m (4 * k + i))) as E. cbv beta in E. rewrite Z.mul_0_r, Z.add_0_l in E.
  change (4 * 1) with 4 in E. change (4 * 2) with 8 in E. change (4 * 3) with 12 in E. rewrite E. cbv iota.
  assert (C : forall v, zsum 4 (fun k => walsh v k * m (4 * k + i)) = hadamard 4 d i v).
  { intros v. apply zsum_ext. intros k Hk. by rewrite M by lia. }
  rewrite !C, zsum_4. lia.
Qed.

Lemma sa8d_8x8_exact tmp p1 i1 p2 i2 s : byte_diff (block_diff p1 i1 p2 i2) ->
  sa8d_8x8 tmp p1 i1 p2 i2 s = s + hadamard_sum 8 (block_diff p1 i1 p2 i2).
Proof.
  intros B. set (d := block_diff p1 i1 p2 i2) in *. unfold sa8d_8x8.
  set (m := for_ 8 0 _ tmp). assert (M : forall i j, 0 <= i < 8 -> 0 <= j < 8 -> m (8 * i + j) = zsum 8 (fun x => walsh j x * d x i)).
  { intros i j Hi Hj. unfold m.
    rewrite (for_ext 8 0 _ (fun i m => for_ 8 0 (fun j m => upd m (8 * i + j) (zsum 8 (fun x => walsh j x * d x i))) m)).
    - apply (table_at (fun i j => 8 * i + j) (fun i j => zsum 8 (fun x => walsh j x * d x i)) 8 8); lia.
    - clear i j Hi Hj. intros i m' _. apply for_ext. intros j m'' Hj. rewrite SA8D_walsh by lia.
      pose proof (walsh_bound 8 j (fun x => d x i) 255 ltac:(lia) (fun x _ => B x i)) as W.
      change (fun x => walsh j x * (p1 (i * i1 + x) - p2 (i * i2 + x))) with (fun x => walsh j x * d x i). by rewrite sw_small by lia. }
  clearbody m.
  assert (C : forall v i, 0 <= i < 8 -> zsum 8 (fun k => walsh v k * m (8 * k + i)) = hadamard 8 d i v).
  { intros v i Hi. apply zsum_ext. intros k Hk. by rewrite M by lia. }
  etransitivity; [|apply (for_sum 8 (fun u => zsum 8 (fun v => Z.abs (hadamard 8 d u v))))]. apply for_ext.
  intros i s' Hi. rewrite SA8D_list. cbn [map fold_left]. rewrite !C, zsum_8 by lia. lia.
Qed.

(** ** The AC energies of a picture *)
Definition shifted (d : Z -> Z -> Z) (dx dy : Z) (x y : Z) : Z := d (dx + x) (dy + y).
Definition dc8 (d : Z -> Z -> Z) : Z := zsum 8 (fun y => zsum 8 (fun x => d x y)).
(** All coefficients but the mean, of the four 4x4 and of the 8x8 transform. *)
Definition ac4 (d : Z -> Z -> Z) : Z :=
  hadamard_sum 4 d + hadamard_sum 4 (shifted d 0 4) + hadamard_sum 4 (shifted d 4 0) + hadamard_sum 4 (shifted d 4 4) - dc8 d.
Definition ac8 (d : Z -> Z -> Z) : Z := hadamard_sum 8 d - dc8 d.

Section Ac.
Context (d : Z -> Z -> Z).
Hypothesis Hd : forall x y, 0 <= d x y < 256.
(** The transforms of the halves of row [y]. *)
Definition half_row (k y : Z) : Z := if k <? 4 then zsum 4 (fun x => walsh k x * d x y) else zsum 4 (fun x => walsh (k - 4) x * d (4 + x) y).
Definition col8 (k v : Z) : Z := zsum 8 (fun y => walsh v y * half_row k y).
Definition col4 (k v : Z) : Z := zsum 4 (fun y => walsh v y * half_row k y).
Definition col4' (k v : Z) : Z := zsum 4 (fun y => walsh v y * half_row k (4 + y)).
Local Ltac cases k := let D := fresh in assert (k = 0 \/ k = 1 \/ k = 2 \/ k = 3) as D by lia; destruct D as [->|[->|[->| ->]]].

Lemma half_row_bound k y : -1020 <= half_row k y <= 1020.
Proof. unfold half_row. destruct (k <? 4); [apply (walsh_bound 4 k _ 255)|apply (walsh_bound 4 _ (fun x => d (4 + x) y) 255)]; try lia; intros i _; cbv beta; pose proof (Hd i y); pose proof (Hd (4 + i) y); lia. Qed.
Lemma col8_bound k v : -8160 <= col8 k v <= 8160.
Proof. apply (walsh_bound 8 v (half_row k) 1020); [lia|]. intros i _. apply half_row_bound. Qed.
Lemma col4_sum k v : 0 <= v < 4 -> col4 k v + col4' k v = col8 k v /\ col4 k v - col4' k v = col8 k (4 + v).
Proof. intros Hv. unfold col4, col4', col8. set (f := half_row k). clearbody f. cases v; split; walsh_signs. Qed.
Lemma rows_sum k y : 0 <= k < 4 -> half_row k y + half_row (4 + k) y = zsum 8 (fun x => walsh k x * d x y) /\ half_row k y - half_row (4 + k) y = zsum 8 (fun x => walsh (4 + k) x * d x y).
Proof.
  intros Hk. unfold half_row. destruct (Z.ltb_spec k 4); [|lia]. destruct (Z.ltb_spec (4 + k) 4); [lia|]. replace (4 + k - 4) with k by lia.
  set (f := fun x => d x y). change (fun x => walsh k x * d x y) with (fun x => walsh k x * f x). change (fun x => walsh k x * d (4 + x) y) with (fun x => walsh k x * f (4 + x)).
  change (fun x => walsh (4 + k) x * d x y) with (fun x => walsh (4 + k) x * f x). clearbody f. cases k; split; walsh_signs.
Qed.
Lemma cols_sum k v : 0 <= k < 4 -> col8 k v + col8 (4 + k) v = hadamard 8 d k v /\ col8 k v - col8 (4 + k) v = hadamard 8 d (4 + k) v.
Proof.
  intros Hk. unfold col8, hadamard. split.
  - rewrite <- zsum_plus by lia. apply zsum_ext. intros y _. rewrite <- (proj1 (rows_sum k y Hk)). lia.
  - rewrite <- Z.add_opp_r, <- (Z.mul_1_l (zsum 8 (fun y => walsh v y * half_row (4 + k) y))), <- Z.mul_opp_l, <- zsum_scale, <- zsum_plus by lia.
    apply zsum_ext. intros y _. rewrite <- (proj2 (rows_sum k y Hk)). lia.
Qed.
(** The sum of the absolute values of both 4x4 transforms of column [k]. *)
Definition abs4 (k : Z) : Z := zsum 4 (fun v => Z.abs (col4 k v)) + zsum 4 (fun v => Z.abs (col4' k v)).
Lemma abs4_sum : zsum 8 abs4 = ac4 d + dc8 d.
Proof.
  assert (A : forall k, 0 <= k < 4 -> abs4 k = zsum 4 (fun v => Z.abs (hadamard 4 d k v)) + zsum 4 (fun v => Z.abs (hadamard 4 (shifted d 0 4) k v))).
  { intros k Hk. unfold abs4, col4, col4', half_row. destruct (Z.ltb_spec k 4); [|lia]. done. }
  assert (A' : forall k, 0 <= k < 4 -> abs4 (4 + k) = zsum 4 (fun v => Z.abs (hadamard 4 (shifted d 4 0) k v)) + zsum 4 (fun v => Z.abs (hadamard 4 (shifted d 4 4) k v))).
  { intros k Hk. unfold abs4, col4, col4', half_row. destruct (Z.ltb_spec (4 + k) 4); [lia|]. replace (4 + k - 4) with k by lia. done. }
  change 8 with (4 + 4) at 1. rewrite zsum_add by lia. rewrite (zsum_ext 4 abs4 _ A), (zsum_ext 4 _ _ A'), !zsum_plus by lia. unfold ac4, hadamard_sum. lia.
Qed.
Lemma dc8_hadamard : hadamard 8 d 0 0 = dc8 d.
Proof.
  apply zsum_ext. intros y _. change (walsh 0 y) with 1. rewrite Z.mul_1_l. apply zsum_ext. intros x _. change (walsh 0 x) with 1. lia.
Qed.

Lemma half_row_list y :
  let '(d0, d1, d2, d3) := HADAMARD4 (d 0 y) (d 1 y) (d 2 y) (d 3 y) in
  let '(d4, d5, d6, d7) := HADAMARD4 (d 4 y) (d 5 y) (d 6 y) (d 7 y) in
  [d0; d1; d2; d3; d4; d5; d6; d7] = map (fun k => half_row k y) [0; 1; 2; 3; 4; 5; 6; 7].
Proof.
  rewrite (HADAMARD4_walsh (fun x => d x y)). pose proof (HADAMARD4_walsh (fun x => d (4 + x) y)) as E. cbv beta in E.
  change (4 + 0) with 4 in E. change (4 + 1) with 5 in E. change (4 + 2) with 6 in E. change (4 + 3) with 7 in E. rewrite E. done.
Qed.
Lemma tbl_8 (f : Z -> Z) k : 0 <= k < 8 -> tbl (map f [0; 1; 2; 3; 4; 5; 6; 7]) k = f k.
Proof.
  intros Hk. assert (k = 0 \/ k = 1 \/ k = 2 \/ k = 3 \/ k = 4 \/ k = 5 \/ k = 6 \/ k = 7) as D by lia.
  destruct D as [->|[->|[->|[->|[->|[->|[->| ->]]]]]]]; done.
Qed.
(** The second pass at column [k], on what the first left there. *)
Lemma col_pass k (t : Z -> Z) : (forall y, 0 <= y < 8 -> t y = half_row k y) ->
  let '(a0, a1, a2, a3) := HADAMARD4 (t 0) (t 1) (t 2) (t 3) in
  let '(a4, a5, a6, a7) := HADAMARD4 (t 4) (t 5) (t 6) (t 7) in
  (Z.abs a0 + Z.abs a1 + Z.abs a2 + Z.abs a3) + (Z.abs a4 + Z.abs a5 + Z.abs a6 + Z.abs a7) = abs4 k /\
  [a0 + a4; a1 + a5; a2 + a6; a3 + a7; a0 - a4; a1 - a5; a2 - a6; a3 - a7] = map (col8 k) [0; 1; 2; 3; 4; 5; 6; 7].
Proof.
  intros T. rewrite !T by lia. rewrite (HADAMARD4_walsh (half_row k)). pose proof (HADAMARD4_walsh (fun y => half_row k (4 + y))) as E. cbv beta in E.
  change (4 + 0) with 4 in E. change (4 + 1) with 5 in E. change (4 + 2) with 6 in E. change (4 + 3) with 7 in E. rewrite E. clear E.
  pose proof (col4_sum k 0 ltac:(lia)) as [P0 M0]. pose proof (col4_sum k 1 ltac:(lia)) as [P1 M1]. pose proof (col4_sum k 2 ltac:(lia)) as [P2 M2]. pose proof (col4_sum k 3 ltac:(lia)) as [P3 M3].
  change (4 + 0) with 4 in M0. change (4 + 1) with 5 in M1. change (4 + 2) with 6 in M2. change (4 + 3) with 7 in M3.
  cbn [map]. rewrite <- P0, <- P1, <- P2, <- P3, <- M0, <- M1, <- M2, <- M3. split; [|done].
  unfold abs4. rewrite !zsum_4. unfold col4, col4'. rewrite !zsum_4. lia.
Qed.
End Ac.

Section AcLoops.
Context (pix : mem) (stride : Z).
Hypothesis Hpix : bytes_ok pix.
Local Abbreviation d := (fun x y => pix (y * stride + x)).
Lemma pixel_hadamard_ac_sums tmp : pixel_hadamard_ac tmp pix stride = u64 (u64 (u64 (ac8 d) << 32) + u64 (ac4 d)).
Proof.
  assert (Hd : forall x y, 0 <= d x y < 256) by (intros; apply Hpix). unfold pixel_hadamard_ac.
  set (m := for_ 8 0 _ tmp). assert (M : forall k y, 0 <= k < 8 -> 0 <= y < 8 -> m (8 * k + y) = half_row d k y).
  { intros k y Hk Hy. unfold m.
    rewrite (for_ext 8 0 _ (fun i m => for_ 8 0 (fun k m => upd m (8 * k + i) (half_row d k i)) m)).
    - apply (table_at (fun i k => 8 * k + i) (fun i k => half_row d k i) 8 8); lia.
    - clear k y Hk Hy. intros y m' _. pose proof (half_row_list d y) as L. cbv zeta beta in *.
      destruct (HADAMARD4 _ _ _ _) as [[[d0 d1] d2] d3]. destruct (HADAMARD4 _ _ _ _) as [[[d4 d5] d6] d7]. rewrite L.
      apply for_ext. intros k m'' Hk. rewrite tbl_8 by lia. pose proof (half_row_bound d Hd k y). by rewrite sw_small by lia. }
  clearbody m. set (r := for_ 8 0 _ (m, 0)).
  assert (R : (forall k v, 0 <= k < 8 -> 0 <= v < 8 -> r.1 (8 * k + v) = col8 d k v) /\ r.2 = zsum 8 (abs4 d)).
  { unfold r. cut (let r := r in (forall k v, 0 <= k < 8 -> 0 <= v < 8 -> r.1 (8 * k + v) = if k <? 8 then col8 d k v else half_row d k v) /\ r.2 = zsum 8 (abs4 d)).
    { unfold r. cbv zeta. intros [R1 R2]. split; [|done]. intros k v Hk Hv. rewrite R1 by done. destruct (Z.ltb_spec k 8); [done|lia]. }
    cbv zeta. unfold r. refine (for_inv (fun i (r : mem * Z) => (forall k v, 0 <= k < 8 -> 0 <= v < 8 -> r.1 (8 * k + v) = if k <? i then col8 d k v else half_row d k v) /\ r.2 = zsum i (abs4 d)) 8 0 _ _ _ _).
    - split; [|done]. intros k v Hk Hv. destruct (Z.ltb_spec k 0); [lia|]. by apply M.
    - intros i [t s] Hi [T S]. cbn [fst snd] in T, S.
      pose proof (col_pass d i (fun y => t (8 * i + y))) as P. cbv beta in P. rewrite Z.add_0_r in P.
      destruct (HADAMARD4 _ _ _ _) as [[[a0 a1] a2] a3]. destruct (HADAMARD4 _ _ _ _) as [[[a4 a5] a6] a7].
      destruct P as [P1 P2]. { intros y Hy. rewrite T by lia. destruct (Z.ltb_spec i i); [lia|done]. }
      rewrite P2. cbn [fst snd]. split; [|rewrite zsum_next by lia; lia].
      intros k v Hk Hv.
      destruct (for_row 8 (fun x => 8 * i + x) (fun x _ => s16 (tbl (map (col8 d i) [0; 1; 2; 3; 4; 5; 6; 7]) x)) t ltac:(cbv beta; lia)) as [W1 W2].
      destruct (Z.ltb_spec k (i + 1)).
      + destruct (Z.eq_dec k i) as [->|Hne].
        * rewrite W1, tbl_8 by lia. pose proof (col8_bound d Hd i v). by rewrite sw_small by lia.
        * rewrite W2 by lia. rewrite T by done. destruct (Z.ltb_spec k i); [done|lia].
      + rewrite W2 by lia. rewrite T by done. destruct (Z.ltb_spec k i); [lia|done]. }
  destruct r as [t s]. cbn [fst snd] in R. destruct R as [T ->]. rewrite (abs4_sum d).
  pose proof (T 0 0 ltac:(lia) ltac:(lia)) as T0. pose proof (T 4 0 ltac:(lia) ltac:(lia)) as T4. change (8 * 0 + 0) with 0 in T0. change (8 * 4 + 0) with 32 in T4.
  rewrite T0, T4. pose proof (proj1 (cols_sum d 0 0 ltac:(lia))) as K. change (4 + 0) with 4 in K. rewrite K, (dc8_hadamard d). clear K.
  replace (ac4 d + dc8 d - dc8 d) with (ac4 d) by lia.
  set (s8 := for_ 8 0 _ 0). assert (E8 : s8 = hadamard_sum 8 d); [|clearbody s8; rewrite E8; unfold ac8; reflexivity].
  unfold s8, hadamard_sum. rewrite zsum_swap by lia. transitivity (0 + zsum (Z.of_nat 8) (fun v => zsum 8 (fun u => Z.abs (hadamard 8 d u v)))); [|apply Z.add_0_l].
  rewrite <- (for_sum 8).
  apply for_ext. intros i s' Hi. pose proof (zsum_add 4 4 (fun u => Z.abs (hadamard 8 d u i)) ltac:(lia) ltac:(lia)) as F. change (4 + 4) with 8 in F. rewrite F, !zsum_4. clear F.
  assert (C : forall k, 0 <= k < 8 -> t (8 * k + i) = col8 d k i) by (intros; apply T; lia).
  pose proof (C 0) as C0. change (8 * 0 + i) with i in C0. rewrite C0 by lia.
  pose proof (C 1) as C1. change (8 * 1) with 8 in C1. rewrite C1 by lia.
  pose proof (C 2) as C2. change (8 * 2) with 16 in C2. rewrite C2 by lia.
  pose proof (C 3) as C3. change (8 * 3) with 24 in C3. rewrite C3 by lia.
  pose proof (C 4) as C4. change (8 * 4) with 32 in C4. rewrite C4 by lia.
  pose proof (C 5) as C5. change (8 * 5) with 40 in C5. rewrite C5 by lia.
  pose proof (C 6) as C6. change (8 * 6) with 48 in C6. rewrite C6 by lia.
  pose proof (C 7) as C7. change (8 * 7) with 56 in C7. rewrite C7 by lia. clear C C0 C1 C2 C3 C4 C5 C6 C7.
  pose proof (cols_sum d 0 i ltac:(lia)) as [<- <-]. pose proof (cols_sum d 1 i ltac:(lia)) as [<- <-].
  pose proof (cols_sum d 2 i ltac:(lia)) as [<- <-]. pose proof (cols_sum d 3 i ltac:(lia)) as [<- <-].
  change (4 + 0) with 4. change (4 + 1) with 5. change (4 + 2) with 6. change (4 + 3) with 7. lia.
Qed.
End AcLoops.

Lemma hadamard_bound n d M u v : 0 <= n -> (forall x y, - M <= d x y <= M) -> - (n * (n * M)) <= hadamard n d u v <= n * (n * M).
Proof. intros Hn Hd. apply walsh_bound; [done|]. intros y _. apply walsh_bound; [done|]. intros x _. apply Hd. Qed.
Lemma hadamard_sum_bounds n d M : 0 < n -> (forall x y, - M <= d x y <= M) ->
  Z.abs (hadamard n d 0 0) <= hadamard_sum n d <= n * (n * (n * (n * M))).
Proof.
  intros Hn Hd. assert (A : forall u v, 0 <= Z.abs (hadamard n d u v) <= n * (n * M)) by (intros; pose proof (hadamard_bound n d M u v ltac:(lia) Hd); lia).
  split.
  - etransitivity; [apply (zsum_term n (fun v => Z.abs (hadamard n d 0 v)) 0)|apply (zsum_term n (fun u => zsum n (fun v => Z.abs (hadamard n d u v))) 0)]; try lia.
    intros u _. apply zsum_nonneg; [lia|]. intros v _. apply A.
  - apply zsum_bounds with (lo := 0); [lia|]. intros u _. split; [apply zsum_nonneg; [lia|]; intros; apply A|].
    apply zsum_bounds with (lo := 0); [lia|]. intros v _. apply A.
Qed.
Lemma dc8_quarters d : dc8 d = hadamard 4 d 0 0 + hadamard 4 (shifted d 0 4) 0 0 + hadamard 4 (shifted d 4 0) 0 0 + hadamard 4 (shifted d 4 4) 0 0.
Proof.
  unfold dc8. change 8 with (4 + 4). rewrite zsum_add by lia.
  rewrite (zsum_ext 4 (fun y => zsum (4 + 4) (fun x => d x y)) (fun y => zsum 4 (fun x => d x y) + zsum 4 (fun x => d (4 + x) y))) by (intros; by rewrite zsum_add by lia).
  rewrite (zsum_ext 4 (fun y => zsum (4 + 4) (fun x => d x (4 + y))) (fun y => zsum 4 (fun x => d x (4 + y)) + zsum 4 (fun x => d (4 + x) (4 + y)))) by (intros; by rewrite zsum_add by lia).
  rewrite !zsum_plus by lia.
  assert (H : forall e, hadamard 4 e 0 0 = zsum 4 (fun y => zsum 4 (fun x => e x y))).
  { intros e. apply zsum_ext. intros y _. change (walsh 0 y) with 1. rewrite Z.mul_1_l. apply zsum_ext. intros x _. change (walsh 0 x) with 1. lia. }
  rewrite !H. unfold shifted.
  change (fun y => zsum 4 (fun x => d (0 + x) (4 + y))) with (fun y => zsum 4 (fun x => d x (4 + y))).
  change (fun y => zsum 4 (fun x => d (4 + x) (0 + y))) with (fun y => zsum 4 (fun x => d (4 + x) y)). lia.
Qed.
Lemma ac_bounds d : (forall x y, 0 <= d x y < 256) -> 0 <= ac4 d < 2 ^ 20 /\ 0 <= ac8 d < 2 ^ 20.
Proof.
  intros Hd. assert (D0 : forall x y, -255 <= d x y <= 255) by (intros; specialize (Hd x y); lia).
  assert (D : forall a b x y, -255 <= shifted d a b x y <= 255) by (intros; apply D0).
  assert (DC : 0 <= dc8 d) by (apply zsum_nonneg; [lia|]; intros; apply zsum_nonneg; [lia|]; intros; apply Hd).
  pose proof (dc8_quarters d). pose proof (dc8_hadamard d).
  pose proof (hadamard_sum_bounds 4 d 255 ltac:(lia) D0). pose proof (hadamard_sum_bounds 4 _ 255 ltac:(lia) (D 0 4)).
  pose proof (hadamard_sum_bounds 4 _ 255 ltac:(lia) (D 4 0)). pose proof (hadamard_sum_bounds 4 _ 255 ltac:(lia) (D 4 4)).
  pose proof (hadamard_sum_bounds 8 d 255 ltac:(lia) D0). unfold ac4, ac8. lia.
Qed.
(** The word of one 8x8 block. *)
Lemma pixel_hadamard_ac_exact tmp pix stride : bytes_ok pix ->
  let d := fun x y => pix (y * stride + x) in pixel_hadamard_ac tmp pix stride = ac8 d * 2 ^ 32 + ac4 d.
Proof.
  intros Hp d. rewrite pixel_hadamard_ac_sums by done. fold d. pose proof (ac_bounds d ltac:(intros; apply Hp)).
  rewrite !Z.shiftl_mul_pow2 by lia. rewrite (uw_small 64 (ac8 d)), (uw_small 64 (ac4 d)), (uw_small 64 (_ * _)), uw_small by lia. done.
Qed.

(** The sum of [F] over the [n] by [n] blocks of a rectangle. *)
Definition over_blocks (n w h : Z) (F : Z -> Z -> Z) : Z := zsum (h / n) (fun y => zsum (w / n) (fun x => F (n * x) (n * y))).
Lemma over_blocks_loop (n w h : Z) (body : Z -> Z -> Z -> Z) F : 0 < n -> 0 <= w -> 0 <= h -> w mod n = 0 -> h mod n = 0 ->
  (forall x y s, body y x s = s + F (n * x) (n * y)) ->
  for_ (Z.to_nat ((h + (n - 1)) / n)) 0 (fun y => for_ (Z.to_nat ((w + (n - 1)) / n)) 0 (body y)) 0 = over_blocks n w h F.
Proof.
  intros Hn Hw Hh Ew Eh HB. assert (C : forall a, 0 <= a -> a mod n = 0 -> (a + (n - 1)) / n = a / n).
  { intros a Ha Ea. symmetry. apply (Z.div_unique _ _ _ (n - 1)); [lia|]. pose proof (Z.div_mod a n ltac:(lia)). lia. }
  rewrite !C by done.
  rewrite (for_ext _ 0 _ (fun y s => s + zsum (w / n) (fun x => F (n * x) (n * y)))).
  - rewrite for_sum, Z2Nat.id, Z.add_0_l by (apply Z.div_pos; lia). done.
  - intros y s _. rewrite (for_ext _ 0 _ (fun x s => s + F (n * x) (n * y))) by (intros; apply HB). rewrite for_sum, Z2Nat.id by (apply Z.div_pos; lia). done.
Qed.
Lemma ptr_diff p1 i1 p2 i2 X Y x y : block_diff (ptr p1 (Y * i1 + X)) i1 (ptr p2 (Y * i2 + X)) i2 x y = shifted (block_diff p1 i1 p2 i2) X Y x y.
Proof. unfold block_diff, shifted, ptr. f_equal; f_equal; lia. Qed.

Lemma hadamard_sum_ext n d e : (forall x y, d x y = e x y) -> hadamard_sum n d = hadamard_sum n e.
Proof.
  intros E. apply zsum_ext. intros u _. apply zsum_ext. intros v _. f_equal. apply zsum_ext. intros y _. f_equal. apply zsum_ext. intros x _. by rewrite E.
Qed.
Lemma ac_ext d e : (forall x y, d x y = e x y) -> ac4 d = ac4 e /\ ac8 d = ac8 e.
Proof.
  intros E. assert (D : dc8 d = dc8 e) by (apply zsum_ext; intros; apply zsum_ext; intros; apply E).
  unfold ac4, ac8. rewrite D, !(hadamard_sum_ext _ d e E). split; [|done].
  by rewrite !(fun a b => hadamard_sum_ext 4 (shifted d a b) (shifted e a b) (fun x y => E _ _)).
Qed.
(** Both halves of the sum of the words. *)
Lemma ac_word s8 s4 : 0 <= s8 < 2 ^ 24 -> 0 <= s4 < 2 ^ 24 ->
  u64 (((s8 * 2 ^ 32 + s4) >> 34 << 32) + (u32 (s8 * 2 ^ 32 + s4) >> 1)) = s8 / 4 * 2 ^ 32 + s4 / 2.
Proof.
  intros H8 H4. rewrite !Z.shiftr_div_pow2, Z.shiftl_mul_pow2 by lia.
  assert (E1 : (s8 * 2 ^ 32 + s4) / 2 ^ 34 = s8 / 4) by (Z.to_euclidean_division_equations; lia).
  assert (E2 : u32 (s8 * 2 ^ 32 + s4) = s4) by (unfold uw; rewrite Z.add_comm, Z.mod_add by lia; apply Z.mod_small; lia).
  rewrite E1, E2. change (2 ^ 1) with 2. apply uw_small. Z.to_euclidean_division_equations; lia.
Qed.

(** C22: The Hadamard metrics are exact: the 16-bit temporaries never wrap.  The SATD of a
    block is half the sum of the absolute coefficients of its 4x4 transforms, the SA8D a
    quarter of those of its 8x8 transforms, rounded; and the two halves of the word of the
    AC energies hold a quarter and half of the sums of all coefficients of both transforms
    but the means, without a carry between them. *)
Theorem hadamard_metrics_exact tmp pix1 i_pix1 pix2 i_pix2 w h :
  bytes_ok pix1 -> bytes_ok pix2 -> 0 <= w -> 0 <= h ->
  let d := block_diff pix1 i_pix1 pix2 i_pix2 in
  let p := fun x y => pix1 (y * i_pix1 + x) in
  (w mod 4 = 0 -> h mod 4 = 0 -> pixel_satd_wxh tmp pix1 i_pix1 pix2 i_pix2 w h = over_blocks 4 w h (fun x y => hadamard_sum 4 (shifted d x y)) / 2) /\
  (w mod 8 = 0 -> h mod 8 = 0 -> x264_pixel_sa8d tmp w h pix1 i_pix1 pix2 i_pix2 = (over_blocks 8 w h (fun x y => hadamard_sum 8 (shifted d x y)) + 2) / 4) /\
  (w = 8 \/ w = 16 -> h = 8 \/ h = 16 -> x264_pixel_hadamard_ac tmp w h pix1 i_pix1 =
     over_blocks 8 w h (fun x y => ac8 (shifted p x y)) / 4 * 2 ^ 32 + over_blocks 8 w h (fun x y => ac4 (shifted p x y)) / 2).
Proof.
  intros B1 B2 Hw Hh d p.
  assert (Bd : byte_diff d) by (intros x y; unfold d, block_diff; pose proof (B1 (y * i_pix1 + x)); pose proof (B2 (y * i_pix2 + x)); lia).
  assert (Bs : forall X Y, byte_diff (block_diff (ptr pix1 (Y * i_pix1 + X)) i_pix1 (ptr pix2 (Y * i_pix2 + X)) i_pix2)) by (intros X Y x y; rewrite ptr_diff; apply Bd).
  assert (H0 : forall n F, 0 < n -> (forall x y, 0 <= F x y) -> 0 <= over_blocks n w h F).
  { intros n F Hn HF. apply zsum_nonneg; [apply Z.div_pos; lia|]. intros y _. apply zsum_nonneg; [apply Z.div_pos; lia|]. intros x _. apply HF. }
  split; [|split].
  - intros Ew Eh. unfold pixel_satd_wxh. cbv zeta. change (h + 3) with (h + (4 - 1)). change (w + 3) with (w + (4 - 1)).
    rewrite (over_blocks_loop 4 w h _ (fun x y => hadamard_sum 4 (shifted d x y))); try done.
    + apply Z.quot_div_nonneg; [|lia]. apply H0; [lia|]. intros x y. etransitivity; [|apply (hadamard_sum_bounds 4 _ 255); [lia|intros; apply Bd]]. lia.
    + intros x y s. rewrite satd_4x4_exact by apply Bs. by rewrite (hadamard_sum_ext 4 _ _ (ptr_diff _ _ _ _ _ _)).
  - intros Ew Eh. unfold x264_pixel_sa8d, pixel_sa8d_wxh. change (h + 7) with (h + (8 - 1)). change (w + 7) with (w + (8 - 1)).
    rewrite (over_blocks_loop 8 w h _ (fun x y => hadamard_sum 8 (shifted d x y))); try done.
    + by rewrite Z.shiftr_div_pow2.
    + intros x y s. rewrite sa8d_8x8_exact by apply Bs. by rewrite (hadamard_sum_ext 8 _ _ (ptr_diff _ _ _ _ _ _)).
  - clear Bd Bs H0. intros Ew Eh. unfold x264_pixel_hadamard_ac. cbv zeta.
    assert (P : forall X Y, pixel_hadamard_ac tmp (ptr pix1 (Y * i_pix1 + X)) i_pix1 = ac8 (shifted p X Y) * 2 ^ 32 + ac4 (shifted p X Y) /\
      0 <= ac4 (shifted p X Y) < 2 ^ 20 /\ 0 <= ac8 (shifted p X Y) < 2 ^ 20).
    { intros X Y. split; [|apply ac_bounds; intros; apply B1]. rewrite pixel_hadamard_ac_exact by (intros ?; apply B1). cbv zeta.
      destruct (ac_ext (fun x y => ptr pix1 (Y * i_pix1 + X) (y * i_pix1 + x)) (shifted p X Y)) as [-> ->]; [|done].
      intros x y. unfold shifted, p, ptr. f_equal. lia. }
    pose proof (P 0 0) as (P0 & A0 & C0). pose proof (P 8 0) as (P1 & A1 & C1). pose proof (P 0 8) as (P2 & A2 & C2). pose proof (P 8 8) as (P3 & A3 & C3). clear P.
    change (ptr pix1 (0 * i_pix1 + 0)) with pix1 in P0. change (0 * i_pix1 + 8) with 8 in P1. rewrite Z.add_0_r in P2. rewrite P0, P1, P2, P3. clear P0 P1 P2 P3.
    destruct Ew as [->| ->], Eh as [->| ->]; cbn [Z.eqb Pos.eqb andb];
      repeat match goal with |- context [uw 64 (?a * 2 ^ 32 + ?b + (?c * 2 ^ 32 + ?e))] =>
        rewrite (uw_small 64 (a * 2 ^ 32 + b + (c * 2 ^ 32 + e))) by lia; replace (a * 2 ^ 32 + b + (c * 2 ^ 32 + e)) with ((a + c) * 2 ^ 32 + (b + e)) by lia end;
      rewrite ac_word by lia; unfold over_blocks; change (8 / 8) with 1; change (16 / 8) with 2;
      rewrite ?zsum_1, ?zsum_2, ?zsum_1, ?zsum_2; change (8 * 0) with 0; change (8 * 1) with 8; rewrite ?Z.add_assoc; done.
Qed.

(** ** Examples *)
Definition ramp (a : Z) : Z := (7 * a) mod 256.
Lemma ramp_bytes : bytes_ok ramp.
Proof. intros a. apply Z.mod_pos_bound. lia. Qed.
Lemma flat_bytes v : 0 <= v < 256 -> bytes_ok (fun _ => v).
Proof. by intros ? ?. Qed.
Lemma pixel_sums_exact_witness :
  x264_pixel_ssd_wxh true ramp 64 (fun _ => 100) 64 21 19 = box_sum (sq_diff ramp 64 (fun _ => 100) 64) 0 0 21 19 /\
  x264_pixel_ssd_wxh true ramp 64 (fun _ => 100) 64 21 19 = 2542594.
Proof.
  destruct (pixel_sums_exact true ramp 64 (fun _ => 100) 64 21 19 ramp_bytes (flat_bytes 100 ltac:(lia)) ltac:(lia) ltac:(lia) ltac:(lia)) as [E _].
  split; [exact E|vm_compute; reflexivity].
Defined.
Lemma hadamard_metrics_exact_witness :
  pixel_satd_wxh (fun _ => 0) ramp 64 (fun _ => 100) 64 8 8 = over_blocks 4 8 8 (fun x y => hadamard_sum 4 (shifted (block_diff ramp 64 (fun _ => 100) 64) x y)) / 2 /\
  pixel_satd_wxh (fun _ => 0) ramp 64 (fun _ => 100) 64 8 8 = 4064.
Proof.
  destruct (hadamard_metrics_exact (fun _ => 0) ramp 64 (fun _ => 100) 64 8 8 ramp_bytes (flat_bytes 100 ltac:(lia)) ltac:(lia) ltac:(lia)) as [E _].
  split; [exact (E eq_refl eq_refl)|vm_compute; reflexivity].
Defined.
