(* ===== verification/Me.v ===== *)
(** Motion search (encoder/me.c): the search over whole samples by diamond, hexagon,
    uneven multi-hexagon, successive elimination and its transformed variant, and the
    refinement to half and quarter samples. *)
From stdpp Require Import list.
From S2P Require Import Prelude Bs Mb CavlcMb Dct Mc Deblock Frame MvRange Pixel.

Definition COST_MAX : Z := 1 << 28.
Definition X264_ME_DIA : Z := 0.
Definition X264_ME_HEX : Z := 1.
Definition X264_ME_UMH : Z := 2.
Definition X264_ME_ESA : Z := 3.
Definition X264_ME_TESA : Z := 4.

Definition subpel_iterations : list (list Z) :=
  [ [0;0;0;0]; [1;1;0;0]; [0;1;1;0]; [0;2;1;0]; [0;2;1;1]; [0;2;1;2]; [0;0;2;2]; [0;0;2;2]; [0;0;4;10]; [0;0;4;10] ].
(** [(x-1)%6] *)
Definition mod6m1 : list Z := [5;0;1;2;3;4;5;0].
Definition hex2 : list (Z * Z) := [(-1,-2); (-2,0); (-1,2); (1,2); (2,0); (1,-2); (-1,-2); (-2,0)].
Definition hex4 : list (Z * Z) :=
  [ (-4, 2); (-4, 1); (-4, 0); (-4,-1); (-4,-2); (4,-2); (4,-1); (4, 0); (4, 1); (4, 2); (2, 3); (0, 4); (-2, 3); (-2,-3); (0,-4); (2,-3) ].
Definition x264_pixel_size_shift : list Z := [0; 1; 1; 2; 3; 3; 4].
Definition range_mul : list (list Z) := [ [3;3;4;4]; [3;4;4;4]; [4;4;4;5]; [4;4;5;6] ].
Definition mv_at (t : list (Z * Z)) (i : Z) : Z * Z := nth (Z.to_nat i) t (0, 0).

(** ** The tables of costs (x264_mb_analyse_load_costs)

    From the centre of the array; [raw] is what [x264_malloc] returned. *)
Definition load_cost_mv (i_lambda : Z) (raw : mem) : mem :=
  for_ (Z.to_nat (2*4*2048 + 1)) 0 (fun i t =>
    let v := s16 (i_lambda * bs_size_se i) in upd (upd t i v) (- i) v) raw.
Definition load_cost_mv_fpel (p_cost_mv : mem) (j : Z) (raw : mem) : mem :=
  for_ (Z.to_nat (4*2048)) (-2*2048) (fun i t => upd t i (u16 (p_cost_mv (i*4 + j)))) raw.

(** ** The comparisons of the search (mbcmp_init)

    [tmp] is the memory of the temporaries of [satd]. *)
Definition cmp_t : Type := Z -> mem -> Z -> mem -> Z -> Z.
Definition mbcmp_init (tmp : mem) (b_lossless : bool) (i_subpel_refine i_me_method : Z) : cmp_t * cmp_t * cmp_t :=
  let satd := negb b_lossless && (i_subpel_refine >? 1) in
  let mbcmp := if satd then pixf_satd tmp else pixf_sad in
  let mbcmp_unaligned := if satd then pixf_satd tmp else pixf_sad in
  let satd := satd && (i_me_method =? X264_ME_TESA) in
  (mbcmp, mbcmp_unaligned, if satd then pixf_satd tmp else pixf_sad).

(** What the search reads of [x264_t], and of [x264_me_t]. *)
Record me_ctx := MeCtx {
  h_i_me_method : Z; h_i_me_range : Z; h_i_subpel_refine : Z; h_b_chroma_me : bool; h_slice_p : bool;
  h_mv_x : mv_range; h_mv_y : mv_range; h_i_lines : Z;
  h_mbcmp : cmp_t; h_mbcmp_unaligned : cmp_t; h_fpelcmp : cmp_t;
  h_cost_mv_fpel : Z -> mem   (* x264_cost_mv_fpel[h->mb.i_qp] *)
}.
Record me_t := Me {
  m_i_pixel : Z; m_p_cost_mv : mem; m_i_ref_cost : Z;
  m_p_fref : Z -> mem; m_p_fenc : Z -> mem; m_integral : mem; m_i_stride : Z -> Z; m_mvp : Z * Z
}.
(** The outputs. *)
Record me_out := MeOut { o_cost_mv : Z; o_cost : Z; o_mv : Z * Z }.

(** The best candidate; [COPY3_IF_LT]. *)
Record best := Best { bcost : Z; bmx : Z; bmy : Z }.
Definition COPY3_IF_LT (cost mx my : Z) (b : best) : best := if cost <? bcost b then Best cost mx my else b.
(** The iterations of [for( ; i < lim; i += step )]. *)
Definition iterations (i lim step : Z) : Z := Z.max 0 ((lim - i + step - 1) / step).

Section Me.
Context (h : me_ctx) (m : me_t).
Local Abbreviation i_pixel := (m_i_pixel m).
Local Abbreviation stride := (m_i_stride m 0).
Local Abbreviation p_fref := (m_p_fref m 0).
Definition bw : Z := (nth (Z.to_nat i_pixel) x264_pixel_size (0, 0)).1.
Definition bh : Z := (nth (Z.to_nat i_pixel) x264_pixel_size (0, 0)).2.
Definition p_cost_mvx (v : Z) : Z := m_p_cost_mv m (v - (m_mvp m).1).
Definition p_cost_mvy (v : Z) : Z := m_p_cost_mv m (v - (m_mvp m).2).
Definition BITS_MVD (mx my : Z) : Z := p_cost_mvx (mx << 2) + p_cost_mvy (my << 2).

Local Abbreviation mv_x_min := (mv_min_fpel (h_mv_x h)).
Local Abbreviation mv_y_min := (mv_min_fpel (h_mv_y h)).
Local Abbreviation mv_x_max := (mv_max_fpel (h_mv_x h)).
Local Abbreviation mv_y_max := (mv_max_fpel (h_mv_y h)).
Definition CHECK_MVRANGE (mx my : Z) : bool := (mx >=? mv_x_min) && (mx <=? mv_x_max) && (my >=? mv_y_min) && (my <=? mv_y_max).

(** ** Costs of candidates *)
Definition fpelcmp (ref : mem) : Z := h_fpelcmp h i_pixel (m_p_fenc m 0) FENC_STRIDE ref stride.
Definition COST_MV (mx my : Z) (b : best) : best :=
  COPY3_IF_LT (fpelcmp (ptr p_fref (my * stride + mx)) + BITS_MVD mx my) mx my b.
(** [pix] is the block that [get_ref] may interpolate into. *)
Definition COST_MV_HPEL (pix : mem) (mx my : Z) (b : best) : best :=
  let '(src, stride') := get_ref pix 16 (m_p_fref m) stride mx my (Z.to_nat bw) (Z.to_nat bh) in
  COPY3_IF_LT (h_fpelcmp h i_pixel (m_p_fenc m 0) FENC_STRIDE src stride' + p_cost_mvx mx + p_cost_mvy my) mx my b.
(** The costs of several candidates around ([omx], [omy]). *)
Definition costs_x (omx omy : Z) (l : list (Z * Z)) : list Z :=
  let pix_base := ptr p_fref (omx + omy * stride) in
  zip_with (fun cost '(x, y) => cost + BITS_MVD (omx + x) (omy + y))
    (cmp_x (h_fpelcmp h i_pixel) (m_p_fenc m 0) (map (fun '(x, y) => ptr pix_base (x + y * stride)) l) stride) l.
Definition COST_MV_X4 (omx omy : Z) (l : list (Z * Z)) (b : best) : best :=
  fold_left (fun b '(cost, (x, y)) => COPY3_IF_LT cost (omx + x) (omy + y) b) (zip (costs_x omx omy l) l) b.
(** No vertical costs. *)
Definition COST_MV_X3_ABS (l : list (Z * Z)) (b : best) : best :=
  let costs := zip_with (fun cost '(x, y) => cost + p_cost_mvx (x << 2))
    (cmp_x (h_fpelcmp h i_pixel) (m_p_fenc m 0) (map (fun '(x, y) => ptr p_fref (x + y * stride)) l) stride) l in
  fold_left (fun b '(cost, (x, y)) => COPY3_IF_LT cost x y b) (zip costs l) b.

Definition DIA1_ITER (mx my : Z) : best -> best := COST_MV_X4 mx my [(0,-1); (0,1); (-1,0); (1,0)].
Definition CROSS_x (start x_max omx omy : Z) (b : best) : best :=
  let n := if x_max <=? Z.min (mv_x_max - omx) (omx - mv_x_min) then iterations start (x_max - 2) 4 else 0 in
  let b := for_ (Z.to_nat n) 0 (fun k => let i := start + 4 * k in COST_MV_X4 omx omy [(i,0); (-i,0); (i+2,0); (-i-2,0)]) b in
  let i := start + 4 * n in
  for_ (Z.to_nat (iterations i x_max 2)) 0 (fun k b =>
    let i := i + 2 * k in
    let b := if omx + i <=? mv_x_max then COST_MV (omx + i) omy b else b in
    if omx - i >=? mv_x_min then COST_MV (omx - i) omy b else b) b.
Definition CROSS_y (start y_max omx omy : Z) (b : best) : best :=
  let n := if y_max <=? Z.min (mv_y_max - omy) (omy - mv_y_min) then iterations start (y_max - 2) 4 else 0 in
  let b := for_ (Z.to_nat n) 0 (fun k => let i := start + 4 * k in COST_MV_X4 omx omy [(0,i); (0,-i); (0,i+2); (0,-i-2)]) b in
  let i := start + 4 * n in
  for_ (Z.to_nat (iterations i y_max 2)) 0 (fun k b =>
    let i := i + 2 * k in
    let b := if omy + i <=? mv_y_max then COST_MV omx (omy + i) b else b in
    if omy - i >=? mv_y_min then COST_MV omx (omy - i) b else b) b.
Definition CROSS (start x_max y_max omx omy : Z) (b : best) : best := CROSS_y start y_max omx omy (CROSS_x start x_max omx omy b).

(** ** Diamond search, radius 1

    [n] iterations at most. *)
Fixpoint dia_loop (n : nat) (b : best) : best :=
  match n with
  | O => b
  | S n =>
      let '(omx, omy) := (bmx b, bmy b) in
      let b := DIA1_ITER omx omy b in
      if (bmx b =? omx) && (bmy b =? omy) then b
      else if negb (CHECK_MVRANGE (bmx b) (bmy b)) then b
      else dia_loop n b
  end.
Definition me_dia (i_me_range : Z) : best -> best := dia_loop (Z.to_nat (Z.max 1 i_me_range)).

(** ** Hexagon search, radius 2

    [COPY2_IF_LT] of the costs and directions. *)
Definition best_dir (costs : list Z) (dirs : list Z) (st : Z * Z) : Z * Z :=
  fold_left (fun '(bcost, dir) '(cost, d) => if cost <? bcost then (cost, d) else (bcost, dir)) (zip costs dirs) st.
Definition move (b : best) (bcost dir : Z) : best :=
  let '(dx, dy) := mv_at hex2 (dir + 1) in Best bcost (bmx b + dx) (bmy b + dy).
Fixpoint hex_loop (n : nat) (dir : Z) (b : best) : best :=
  match n with
  | O => b
  | S n =>
      if negb (CHECK_MVRANGE (bmx b) (bmy b)) then b else
      let odir := tbl mod6m1 (dir + 1) in
      let costs := costs_x (bmx b) (bmy b) [mv_at hex2 odir; mv_at hex2 (odir + 1); mv_at hex2 (odir + 2)] in
      let '(cost, dir) := best_dir costs [odir - 1; odir; odir + 1] (bcost b, -2) in
      if dir =? -2 then b else hex_loop n dir (move b cost dir)
  end.
Definition me_hex2 (i_me_range : Z) (b : best) : best :=
  let costs := costs_x (bmx b) (bmy b) [(-2,0); (-1,2); (1,2)] ++ costs_x (bmx b) (bmy b) [(2,0); (1,-2); (-1,-2)] in
  let '(cost, dir) := best_dir costs [0; 1; 2; 3; 4; 5] (bcost b, -2) in
  let b := if negb (dir =? -2) then hex_loop (Z.to_nat (Z.quot i_me_range 2 - 1)) dir (move b cost dir) else b in
  let '(omx, omy) := (bmx b, bmy b) in
  let b := COST_MV_X4 omx omy [(0,-1); (0,1); (-1,0); (1,0)] b in
  COST_MV_X4 omx omy [(-1,-1); (-1,1); (1,-1); (1,1)] b.

(** ** Uneven multi-hexagon search *)
Definition SAD_THRESH (v : Z) (b : best) : bool := bcost b <? (v >> tbl x264_pixel_size_shift i_pixel).
Definition x264_predictor_difference (mvc : list (Z * Z)) : Z :=
  for_ (length mvc - 1) 0 (fun i sum =>
    sum + (Z.abs ((mv_at mvc i).1 - (mv_at mvc (i + 1)).1) + Z.abs ((mv_at mvc i).2 - (mv_at mvc (i + 1)).2))) 0.
Definition umh_range (mvc : list (Z * Z)) (i_me_range : Z) (b : best) : Z :=
  let i_mvc := Z.of_nat (length mvc) in
  if i_mvc =? 0 then i_me_range else
  let near := Z.abs ((m_mvp m).1 - (mv_at mvc 0).1) + Z.abs ((m_mvp m).2 - (mv_at mvc 0).2) in
  let '(mvd, denom) :=
    if i_mvc =? 1 then (if i_pixel =? PIXEL_16x16 then 25 else near, 1)
    else
      let '(mvd, denom) := if negb (i_pixel =? PIXEL_16x16) then (near, i_mvc - 1 + 1) else (0, i_mvc - 1) in
      (mvd + x264_predictor_difference mvc, denom) in
  let sad_ctx := if SAD_THRESH 1000 b then 0 else if SAD_THRESH 2000 b then 1 else if SAD_THRESH 4000 b then 2 else 3 in
  let mvd_ctx := if mvd <? 10 * denom then 0 else if mvd <? 20 * denom then 1 else if mvd <? 40 * denom then 2 else 3 in
  Z.quot (i_me_range * tbl2 range_mul mvd_ctx sad_ctx) 4.
(** [n] rounds, from round [i]. *)
Definition hex_grid_round (omx omy i : Z) (b : best) : best :=
  if 4 * i >? Z.min (Z.min (mv_x_max - omx) (omx - mv_x_min)) (Z.min (mv_y_max - omy) (omy - mv_y_min)) then
    fold_left (fun b '(x, y) =>
      let mx := omx + x * i in
      let my := omy + y * i in
      if CHECK_MVRANGE mx my then COST_MV mx my b else b) hex4 b
  else
    let b := COST_MV_X4 omx omy [(-4*i, 2*i); (-4*i, 1*i); (-4*i, 0*i); (-4*i, -1*i)] b in
    let b := COST_MV_X4 omx omy [(-4*i, -2*i); (4*i, -2*i); (4*i, -1*i); (4*i, 0*i)] b in
    let b := COST_MV_X4 omx omy [(4*i, 1*i); (4*i, 2*i); (2*i, 3*i); (0*i, 4*i)] b in
    COST_MV_X4 omx omy [(-2*i, 3*i); (-2*i, -3*i); (0*i, -4*i); (2*i, -3*i)] b.
(** From the uneven cross on; the hexagon search follows with the adapted range. *)
Definition umh_cross (mvc : list (Z * Z)) (cross_start i_me_range omx omy : Z) (b : best) : best :=
  let i_me_range := umh_range mvc i_me_range b in
  let b := CROSS cross_start i_me_range (Z.quot i_me_range 2) omx omy b in
  let b := COST_MV_X4 omx omy [(-2,-2); (-2,2); (2,-2); (2,2)] b in
  let '(omx, omy) := (bmx b, bmy b) in
  let b := for_ (Z.to_nat (Z.max 1 (Z.quot i_me_range 4))) 1 (hex_grid_round omx omy) b in
  if bmy b <=? mv_y_max then me_hex2 i_me_range b else b.
Definition me_umh (mvc : list (Z * Z)) (pmx pmy i_me_range : Z) (b : best) : best :=
  let ucost1 := bcost b in
  let b := DIA1_ITER pmx pmy b in
  let b := if i2b (pmx .| pmy) then DIA1_ITER 0 0 b else b in
  if i_pixel =? PIXEL_4x4 then me_hex2 i_me_range b else
  let ucost2 := bcost b in
  let b := if i2b (bmx b .| bmy b) && i2b ((bmx b - pmx) .| (bmy b - pmy)) then DIA1_ITER (bmx b) (bmy b) b else b in
  let cross_start := if bcost b =? ucost2 then 3 else 1 in
  let '(omx, omy) := (bmx b, bmy b) in
  if (bcost b =? ucost2) && SAD_THRESH 2000 b then
    let b := COST_MV_X4 omx omy [(0,-2); (-1,-1); (1,-1); (-2,0)] b in
    let b := COST_MV_X4 omx omy [(2,0); (-1,1); (1,1); (0,2)] b in
    if (bcost b =? ucost1) && SAD_THRESH 500 b then b
    else if bcost b =? ucost2 then
      let range := (i_me_range >> 1) .| 1 in
      let b := CROSS 3 range range omx omy b in
      let b := COST_MV_X4 omx omy [(-1,-2); (1,-2); (-2,-1); (2,-1)] b in
      let b := COST_MV_X4 omx omy [(-2,1); (2,1); (-1,2); (1,2)] b in
      if bcost b =? ucost2 then b
      else umh_cross mvc (range + 2) i_me_range omx omy b
    else umh_cross mvc cross_start i_me_range omx omy b
  else umh_cross mvc cross_start i_me_range omx omy b.

(** ** Successive elimination

    What both searches prepare: the bounds, the sums of the block's parts, and where the
    sums of the reference are. *)
Record esa_ctx := Esa {
  e_min_x : Z; e_min_y : Z; e_max_y : Z; e_width : Z;
  e_enc_dc : list Z; e_sums_base : mem; e_delta : Z; e_cost_fpel_mvx : mem
}.
Definition esa_prepare (i_me_range : Z) (b : best) : esa_ctx :=
  let min_x := Z.max (bmx b - i_me_range) mv_x_min in
  let min_y := Z.max (bmy b - i_me_range) mv_y_min in
  let max_x := Z.min (bmx b + i_me_range) mv_x_max in
  let max_y := Z.min (bmy b + i_me_range) mv_y_max in
  let width := (max_x - min_x + 3) .& Z.lnot 3 in
  let sad_size := if i_pixel <=? PIXEL_8x8 then PIXEL_8x8 else PIXEL_4x4 in
  let delta := (nth (Z.to_nat sad_size) x264_pixel_size (0, 0)).1 in
  let cost_fpel_mvx := ptr (h_cost_mv_fpel h (- (m_mvp m).1 .& 3)) (- (m_mvp m).1 >> 2) in
  let fenc := m_p_fenc m 0 in
  let enc_dc := pixf_sad_x sad_size (fun _ => 0)
    [fenc; ptr fenc delta; ptr fenc (delta * FENC_STRIDE); ptr fenc (delta + delta * FENC_STRIDE)] FENC_STRIDE in
  let sums_base := if delta =? 4 then ptr (m_integral m) (stride * (h_i_lines h + PADV * 2)) else m_integral m in
  let delta := if (i_pixel =? PIXEL_16x16) || (i_pixel =? PIXEL_8x16) || (i_pixel =? PIXEL_4x8) then delta * stride else delta in
  let enc_dc := if (i_pixel =? PIXEL_8x16) || (i_pixel =? PIXEL_4x8) then <[1%nat := tbl enc_dc 2]> enc_dc else enc_dc in
  Esa min_x min_y max_y width enc_dc sums_base delta cost_fpel_mvx.
Definition esa_ads (e : esa_ctx) (my thresh : Z) : list Z :=
  pixf_ads i_pixel (e_enc_dc e) (ptr (e_sums_base e) (e_min_x e + my * stride)) (e_delta e)
    (ptr (e_cost_fpel_mvx e) (e_min_x e)) (e_width e) thresh.

(** Three at a time; the rest of the row is returned. *)
Fixpoint esa_x3 (min_x my : Z) (xs : list Z) (b : best) : best * list Z :=
  match xs with
  | x0 :: x1 :: x2 :: xs => esa_x3 min_x my xs (COST_MV_X3_ABS [(min_x + x0, my); (min_x + x1, my); (min_x + x2, my)] b)
  | _ => (b, xs)
  end.
Definition esa_row (e : esa_ctx) (my : Z) (b : best) : best :=
  let ycost := p_cost_mvy (my << 2) in
  if bcost b <=? ycost then b else
  let b := Best (bcost b - ycost) (bmx b) (bmy b) in
  let xs := esa_ads e my (bcost b) in
  let '(b, xs) := esa_x3 (e_min_x e) my xs b in
  let b := Best (bcost b + ycost) (bmx b) (bmy b) in
  fold_left (fun b x => COST_MV (e_min_x e + x) my b) xs b.
Definition me_esa (i_me_range : Z) (b : best) : best :=
  let e := esa_prepare i_me_range b in
  for_ (Z.to_nat (e_max_y e - e_min_y e + 1)) (e_min_y e) (esa_row e) b.

(** Candidates of the transformed search: [mvsad_t]. *)
Record mvsad_t := MvSad { sad : Z; mx : Z; my : Z }.
Definition tesa_check (sad_thresh ycost mx my s : Z) '((bsad, mvsads) : Z * list mvsad_t) : Z * list mvsad_t :=
  if s <? (bsad * sad_thresh >> 3) then (if s <? bsad then s else bsad, mvsads ++ [MvSad (s + ycost) (s16 mx) (s16 my)])
  else (bsad, mvsads).
Fixpoint tesa_x3 (e : esa_ctx) (sad_thresh ycost my : Z) (xs : list Z) (st : Z * list mvsad_t) : (Z * list mvsad_t) * list Z :=
  match xs with
  | x0 :: x1 :: x2 :: xs =>
      let ref := ptr p_fref (e_min_x e + my * stride) in
      let sads := pixf_sad_x i_pixel (m_p_fenc m 0) [ptr ref x0; ptr ref x1; ptr ref x2] stride in
      let st := fold_left (fun st '(s, x) => tesa_check sad_thresh ycost (e_min_x e + x) my (s + e_cost_fpel_mvx e x) st) (zip sads [x0; x1; x2]) st in
      tesa_x3 e sad_thresh ycost my xs st
  | _ => (st, xs)
  end.
Definition tesa_row (e : esa_ctx) (sad_thresh my : Z) '((bsad, mvsads) : Z * list mvsad_t) : Z * list mvsad_t :=
  let ycost := p_cost_mvy (my << 2) in
  if bsad <=? ycost then (bsad, mvsads) else
  let bsad := bsad - ycost in
  let xs := esa_ads e my (Z.quot (bsad * 17) 16) in
  let '(st, xs) := tesa_x3 e sad_thresh ycost my xs (bsad, mvsads) in
  let '(bsad, mvsads) := fold_left (fun st x =>
    let mx := e_min_x e + x in
    tesa_check sad_thresh ycost mx my
      (pixf_sad i_pixel (m_p_fenc m 0) FENC_STRIDE (ptr p_fref (mx + my * stride)) stride + e_cost_fpel_mvx e x) st) xs st in
  (bsad + ycost, mvsads).
(** The first position of a least sad from [i] on. *)
Definition least_sad (l : list mvsad_t) (i : nat) : nat :=
  (fold_left (fun '(bsad, bj) j => let s := sad (nth j l (MvSad 0 0 0)) in if s <? bsad then (s, j) else (bsad, bj))
    (seq (i + 1) (length l - (i + 1))) (sad (nth i l (MvSad 0 0 0)), i)).2.
Definition swap_sads (l : list mvsad_t) (i : nat) : list mvsad_t :=
  let bj := least_sad l i in
  <[i := nth bj l (MvSad 0 0 0)]> (<[bj := nth i l (MvSad 0 0 0)]> l).
Definition me_tesa (i_me_range : Z) (b : best) : best :=
  let e := esa_prepare i_me_range b in
  let sad_thresh := if i_me_range <=? 16 then 10 else if i_me_range <=? 24 then 11 else 12 in
  let bsad := pixf_sad i_pixel (m_p_fenc m 0) FENC_STRIDE (ptr p_fref (bmy b * stride + bmx b)) stride + BITS_MVD (bmx b) (bmy b) in
  let '(bsad, mvsads) := for_ (Z.to_nat (e_max_y e - e_min_y e + 1)) (e_min_y e) (tesa_row e sad_thresh) (bsad, []) in
  let limit := Z.quot i_me_range 2 in
  let mvsads := if Z.of_nat (length mvsads) >? limit * 2 then
    let bsad := bsad * (sad_thresh + 8) >> 4 in filter (fun c => sad c <= bsad) mvsads else mvsads in
  let mvsads := if Z.of_nat (length mvsads) >? limit then
    take (Z.to_nat limit) (fold_left swap_sads (seq 0 (Z.to_nat limit)) mvsads) else mvsads in
  fold_left (fun b c => COST_MV (mx c) (my c) b) mvsads b.

(** ** Refinement to half and quarter samples

    The best candidate and the direction it was found in. *)
Local Abbreviation spel_max_y := (mv_max_spel (h_mv_y h)).
Definition b_chroma_me : bool := h_b_chroma_me h && (i_pixel <=? PIXEL_8x8).
Definition COST_MV_SATD (pix : mem) (b_refine_qpel : bool) (odir mx my dir : Z) '((b, bdir) : best * Z) : best * Z :=
  if b_refine_qpel || negb ((dir .^ 1) =? odir) then
    let '(src, stride') := get_ref pix 16 (m_p_fref m) stride mx my (Z.to_nat bw) (Z.to_nat bh) in
    let cost := h_mbcmp_unaligned h i_pixel (m_p_fenc m 0) FENC_STRIDE src stride' + p_cost_mvx mx + p_cost_mvy my in
    let chroma i :=
      h_mbcmp h (i_pixel + 3) (m_p_fenc m i) FENC_STRIDE
        (mc_chroma pix 0 8 (m_p_fref m (i + 3)) (m_i_stride m 1) mx my (Z.to_nat (Z.quot bw 2)) (Z.to_nat (Z.quot bh 2))) 8 in
    let cost := if b_chroma_me && (cost <? bcost b) then
        let cost := cost + chroma 1 in
        if cost <? bcost b then cost + chroma 2 else cost
      else cost in
    if cost <? bcost b then (Best cost mx my, dir) else (b, bdir)
  else (b, bdir).

(** At most [n] rounds of the diamond of half samples. *)
Fixpoint hpel_loop (pix0 pix1 : mem) (n : nat) (b : best) : best :=
  match n with
  | O => b
  | S n =>
      let '(omx, omy) := (bmx b, bmy b) in
      let '(src0, stride') := get_ref pix0 32 (m_p_fref m) stride omx (omy - 2) (Z.to_nat bw) (Z.to_nat (bh + 1)) in
      let '(src2, stride') := get_ref pix1 stride' (m_p_fref m) stride (omx - 2) omy (Z.to_nat (bw + 4)) (Z.to_nat bh) in
      let src1 := ptr src0 stride' in
      let src3 := ptr src2 1 in
      let costs := cmp_x (h_fpelcmp h i_pixel) (m_p_fenc m 0) [src0; src1; src2; src3] stride' in
      let b := let cost := tbl costs 0 + p_cost_mvx omx + p_cost_mvy (omy - 2) in if cost <? bcost b then Best cost (bmx b) (omy - 2) else b in
      let b := let cost := tbl costs 1 + p_cost_mvx omx + p_cost_mvy (omy + 2) in if cost <? bcost b then Best cost (bmx b) (omy + 2) else b in
      let b := COPY3_IF_LT (tbl costs 2 + p_cost_mvx (omx - 2) + p_cost_mvy omy) (omx - 2) omy b in
      let b := COPY3_IF_LT (tbl costs 3 + p_cost_mvx (omx + 2) + p_cost_mvy omy) (omx + 2) omy b in
      if (bmx b =? omx) && (bmy b =? omy) then b else hpel_loop pix0 pix1 n b
  end.
(** At most [n] rounds of the diamond of quarter samples. *)
Fixpoint qpel_loop (pix : mem) (b_refine_qpel : bool) (n : nat) (odir : Z) (st : best * Z) : Z * (best * Z) :=
  match n with
  | O => (odir, st)
  | S n =>
      let odir := st.2 in
      let '(omx, omy) := (bmx st.1, bmy st.1) in
      let st := COST_MV_SATD pix b_refine_qpel odir omx (omy - 1) 0 st in
      let st := COST_MV_SATD pix b_refine_qpel odir omx (omy + 1) 1 st in
      let st := COST_MV_SATD pix b_refine_qpel odir (omx - 1) omy 2 st in
      let st := COST_MV_SATD pix b_refine_qpel odir (omx + 1) omy 3 st in
      if (bmx st.1 =? omx) && (bmy st.1 =? omy) then (odir, st) else qpel_loop pix b_refine_qpel n odir st
  end.
(** The candidate of the predicted vector before the diamond of half samples. *)
Definition refine_pred (pix0 : mem) (hpel_iters : Z) (b : best) : best :=
  if negb (hpel_iters =? 0) && (h_i_subpel_refine h <? 3) then
    let mx := x264_clip3 (m_mvp m).1 (mv_min_spel (h_mv_x h)) (mv_max_spel (h_mv_x h)) in
    let my := x264_clip3 (m_mvp m).2 (mv_min_spel (h_mv_y h)) (mv_max_spel (h_mv_y h)) in
    if i2b ((mx - bmx b) .| (my - bmy b)) then COST_MV_HPEL pix0 mx my b else b
  else b.
(** [thresh]: what [p_halfpel_thresh] points to, if it is not a null pointer. *)
Definition refine_subpel (pix0 pix1 : mem) (hpel_iters qpel_iters : Z) (thresh : option Z) (b_refine_qpel : bool) (o : me_out) : me_out * option Z :=
  let b := Best (o_cost o) (o_mv o).1 (o_mv o).2 in
  let odir := -1 in
  let b := refine_pred pix0 hpel_iters b in
  let b := hpel_loop pix0 pix1 (Z.to_nat hpel_iters) b in
  let b := if negb b_refine_qpel then
      let my := if bmy b >? spel_max_y then spel_max_y else bmy b in
      (COST_MV_SATD pix0 b_refine_qpel odir (bmx b) my (-1) (Best COST_MAX (bmx b) my, -1)).1
    else b in
  let stop := match thresh with Some t => (bcost b * 7) >> 3 >? t | None => false end in
  if stop then (MeOut (o_cost_mv o) (bcost b) (s16 (bmx b), s16 (bmy b)), thresh) else
  let thresh := match thresh with Some t => Some (if bcost b <? t then bcost b else t) | None => None end in
  let '(odir, (b, bdir)) := qpel_loop pix0 b_refine_qpel (Z.to_nat qpel_iters) odir (b, -1) in
  let b := if bmy b >? spel_max_y then
      (COST_MV_SATD pix0 b_refine_qpel odir (bmx b) spel_max_y (-1) (Best COST_MAX (bmx b) spel_max_y, bdir)).1
    else b in
  (MeOut (p_cost_mvx (bmx b) + p_cost_mvy (bmy b)) (bcost b) (s16 (bmx b), s16 (bmy b)), thresh).

(** ** The search (x264_me_search_ref) *)
Definition pack16to32_mask (a b : Z) : Z := u32 ((a .& 0xffff) + (b << 16)).
(** The extra predictors, compared as pairs of 16-bit words with null and with [bmv]. *)
Definition try_mvc_hpel (pix : mem) (bmv : Z) (mvc : list (Z * Z)) (b : best) : best :=
  fold_left (fun b '(x, y) =>
    let w := pack16to32_mask x y in
    if i2b w && i2b (bmv - w) then
      COST_MV_HPEL pix (x264_clip3 x (mv_x_min * 4) (mv_x_max * 4)) (x264_clip3 y (mv_y_min * 4) (mv_y_max * 4)) b
    else b) mvc b.
Definition try_mvc_fpel (mvc : list (Z * Z)) (b : best) : best :=
  fold_left (fun b '(x, y) =>
    let mx := (x + 2) >> 2 in
    let my := (y + 2) >> 2 in
    if i2b (mx .| my) && i2b ((mx - bmx b) .| (my - bmy b)) then
      COST_MV (x264_clip3 mx mv_x_min mv_x_max) (x264_clip3 my mv_y_min mv_y_max) b
    else b) mvc b.
(** The predicted vector in the range; rounded to whole samples. *)
Definition mvp_x : Z := x264_clip3 (m_mvp m).1 (mv_x_min * 4) (mv_x_max * 4).
Definition mvp_y : Z := x264_clip3 (m_mvp m).2 (mv_y_min * 4) (mv_y_max * 4).
Definition pmx : Z := (mvp_x + 2) >> 2.
Definition pmy : Z := (mvp_y + 2) >> 2.
(** The start of the search: the best in whole samples, and of the predictors as they are. *)
Definition search_start (pix : mem) (mvc : list (Z * Z)) : best * best :=
  let bpred := Best COST_MAX 0 0 in
  let '(b, bpred) :=
    if h_i_subpel_refine h >=? 3 then
      let bpred := COST_MV_HPEL pix mvp_x mvp_y bpred in
      let bpred := try_mvc_hpel pix (pack16to32_mask mvp_x mvp_y) mvc bpred in
      let '(x, y) := ((bmx bpred + 2) >> 2, (bmy bpred + 2) >> 2) in
      (COST_MV x y (Best COST_MAX x y), bpred)
    else
      let b := COST_MV pmx pmy (Best COST_MAX mvp_x mvp_y) in
      let b := Best (bcost b - BITS_MVD pmx pmy) (bmx b) (bmy b) in
      (try_mvc_fpel mvc b, bpred) in
  (COST_MV 0 0 b, bpred).
Definition search_fpel (mvc : list (Z * Z)) (b : best) : best :=
  let i_me_range := h_i_me_range h in
  if h_i_me_method h =? X264_ME_DIA then me_dia i_me_range b
  else if h_i_me_method h =? X264_ME_HEX then me_hex2 i_me_range b
  else if h_i_me_method h =? X264_ME_UMH then me_umh mvc pmx pmy i_me_range b
  else if h_i_me_method h =? X264_ME_ESA then me_esa i_me_range b
  else if h_i_me_method h =? X264_ME_TESA then me_tesa i_me_range b
  else b.
Definition x264_me_search_ref (pix0 pix1 : mem) (mvc : list (Z * Z)) (thresh : option Z) : me_out * option Z :=
  let '(b, bpred) := search_start pix0 mvc in
  let b := search_fpel mvc b in
  let '(x, y, cost) := if bcost bpred <? bcost b then (s16 (bmx bpred), s16 (bmy bpred), bcost bpred)
                       else (s16 (bmx b << 2), s16 (bmy b << 2), bcost b) in
  let cost_mv := p_cost_mvx x + p_cost_mvy y in
  let cost := if (bmx b =? pmx) && (bmy b =? pmy) && (h_i_subpel_refine h <? 3) then cost + cost_mv else cost in
  if h_i_subpel_refine h >=? 2 then
    let iters := nth (Z.to_nat (h_i_subpel_refine h)) subpel_iterations [] in
    refine_subpel pix0 pix1 (tbl iters 2) (tbl iters 3) thresh false (MeOut cost_mv cost (x, y))
  else (MeOut cost_mv cost (x, if y >? spel_max_y then s16 spel_max_y else y), thresh).

(** After the mode decision. *)
Definition x264_me_refine_qpel (pix0 pix1 : mem) (o : me_out) : me_out :=
  let iters := nth (Z.to_nat (h_i_subpel_refine h)) subpel_iterations [] in
  let cost := if (i_pixel <=? PIXEL_8x8) && h_slice_p h then o_cost o - m_i_ref_cost m else o_cost o in
  (refine_subpel pix0 pix1 (tbl iters 0) (tbl iters 1) None true (MeOut (o_cost_mv o) cost (o_mv o))).1.
End Me.
