(* ===== verification/Esa.v ===== *)
(** * Successive elimination searches exhaustively

    A candidate is skipped when the differences of the sums of the parts of the block and
    the costs of the vector already reach the threshold; the sum of absolute differences is
    never below them, so nothing is lost: the search ends with the candidate the plain loop
    over the same window ends with. *)
From stdpp Require Import list sets.
From S2P Require Import Prelude Bs Mb CavlcMb Dct Mc Deblock DeblockFrame Sums Frame MvRange Pixel Me.

(** ** Sums of absolute differences *)
Lemma zsum_abs n f : 0 <= n -> Z.abs (zsum n f) <= zsum n (fun i => Z.abs (f i)).
Proof. revert n. apply natlike_ind; [done|]. intros n Hn IH. unfold Z.succ. rewrite !zsum_next by done. lia. Qed.
Lemma zsum_minus n f g : 0 <= n -> zsum n (fun i => f i - g i) = zsum n f - zsum n g.
Proof. revert n. apply natlike_ind; [done|]. intros n Hn IH. unfold Z.succ. rewrite !zsum_next, IH by done. lia. Qed.
(** The difference of the sums of two rectangles is at most the sum of the differences. *)
Lemma box_abs p q x y w h : 0 <= w -> 0 <= h ->
  Z.abs (box_sum p x y w h - box_sum q x y w h) <= box_sum (fun i j => Z.abs (p i j - q i j)) x y w h.
Proof.
  intros Hw Hh. unfold box_sum. rewrite <- zsum_minus by done. etransitivity; [by apply zsum_abs|]. apply zsum_le; [done|].
  intros j _. rewrite <- zsum_minus by done. by apply zsum_abs.
Qed.
Lemma pixel_sad_box lx ly p1 s1 p2 s2 :
  pixel_sad lx ly p1 s1 p2 s2 = box_sum (fun x y => Z.abs (p1 (y * s1 + x) - p2 (y * s2 + x))) 0 0 (Z.of_nat lx) (Z.of_nat ly).
Proof. unfold pixel_sad. by rewrite (for_box (fun x y => Z.abs (p1 (y * s1 + x) - p2 (y * s2 + x)))). Qed.
Lemma pixel_sad_nonneg lx ly p1 s1 p2 s2 : 0 <= pixel_sad lx ly p1 s1 p2 s2.
Proof. rewrite pixel_sad_box. apply box_nonneg; intros; lia. Qed.
(** A block compared with nothing gives its sum. *)
Lemma sad_zero lx ly s fenc off : bytes_ok fenc -> pixel_sad lx ly (fun _ => 0) s (ptr fenc off) s = box_sum (fun x y => fenc (off + (y * s + x))) 0 0 (Z.of_nat lx) (Z.of_nat ly).
Proof. intros B. rewrite pixel_sad_box. apply box_ext. intros i j _ _. unfold ptr. specialize (B (off + ((0 + j) * s + (0 + i)))). lia. Qed.

(** ** Candidates one after the other *)
Lemma COPY3_le cost mx my b : bcost (COPY3_IF_LT cost mx my b) <= bcost b.
Proof. unfold COPY3_IF_LT. destruct (Z.ltb_spec cost (bcost b)); simpl; lia. Qed.
Lemma COPY3_skip cost mx my b : bcost b <= cost -> COPY3_IF_LT cost mx my b = b.
Proof. intros H. unfold COPY3_IF_LT. by destruct (Z.ltb_spec cost (bcost b)); [lia|]. Qed.
(** Candidates that cannot improve on the best may be left out. *)
Lemma skip_worse {A} (cost mx my : A -> Z) (keep : A -> bool) l b :
  (forall c, c ∈ l -> keep c = false -> bcost b <= cost c) ->
  fold_left (fun b c => COPY3_IF_LT (cost c) (mx c) (my c) b) (List.filter keep l) b = fold_left (fun b c => COPY3_IF_LT (cost c) (mx c) (my c) b) l b.
Proof.
  revert b. induction l as [|c l IH]; intros b H; [done|]. simpl.
  destruct (keep c) eqn:E; simpl.
  - apply IH. intros c' Hc' E'. pose proof (H c' ltac:(set_solver) E'). pose proof (COPY3_le (cost c) (mx c) (my c) b). lia.
  - rewrite (COPY3_skip (cost c)) by (apply H; [set_solver|done]). apply IH. intros c' Hc'. apply H. set_solver.
Qed.
(** The costs with and without a common part. *)
Definition shift_cost (d : Z) (b : best) : best := Best (bcost b + d) (bmx b) (bmy b).
Lemma shift_COPY3 d cost mx my b : shift_cost d (COPY3_IF_LT cost mx my b) = COPY3_IF_LT (cost + d) mx my (shift_cost d b).
Proof. unfold COPY3_IF_LT, shift_cost. cbn [bcost bmx bmy]. destruct (Z.ltb_spec cost (bcost b)), (Z.ltb_spec (cost + d) (bcost b + d)); try lia; done. Qed.

Section Search.
Context (h : me_ctx) (m : me_t).
Local Abbreviation stride := (m_i_stride m 0).
Local Abbreviation sad_at x y := (fpelcmp h m (ptr (m_p_fref m 0) (y * stride + x))).

Lemma COST_MV_X3_ABS_cost d my l b : p_cost_mvy m (my << 2) = d -> Forall (fun c => c.2 = my) l ->
  shift_cost d (COST_MV_X3_ABS h m l b) = fold_left (fun b c => COST_MV h m c.1 c.2 b) l (shift_cost d b).
Proof.
  intros Hd. unfold COST_MV_X3_ABS, cmp_x. revert b. induction l as [|[x y] l IH]; intros b HF; [done|]. apply Forall_cons_1 in HF as [E HF]. cbn [snd] in E. subst y.
  cbn [map zip_with fold_left zip fst snd]. rewrite IH by done. f_equal. rewrite shift_COPY3. unfold COST_MV, fpelcmp, BITS_MVD. rewrite Hd.
  replace (x + my * stride) with (my * stride + x) by lia. f_equal. lia.
Qed.
(** A row of candidates, three at a time and then one by one. *)
Lemma esa_x3_row d min_x my xs b : p_cost_mvy m (my << 2) = d ->
  let '(b', rest) := esa_x3 h m min_x my xs b in
  fold_left (fun b x => COST_MV h m (min_x + x) my b) rest (shift_cost d b') = fold_left (fun b x => COST_MV h m (min_x + x) my b) xs (shift_cost d b).
Proof.
  intros Hd. revert xs b. fix IH 1. intros [|x0 [|x1 [|x2 xs]]] b; [done..|]. cbn [esa_x3].
  specialize (IH xs (COST_MV_X3_ABS h m [(min_x + x0, my); (min_x + x1, my); (min_x + x2, my)] b)).
  destruct (esa_x3 h m min_x my xs _) as [b' rest]. rewrite IH, (COST_MV_X3_ABS_cost d my); [done|done|by repeat constructor].
Qed.

(** The candidates the bound lets through. *)
Lemma ads_loop_filter bound width thresh : width <= 2 ^ 15 ->
  ads_loop bound width thresh = List.filter (fun i => bound i <? thresh) (seqZ 0 width).
Proof.
  intros Hw'. unfold ads_loop. destruct (Z.le_gt_cases width 0); [rewrite seqZ_nil by lia; by replace (Z.to_nat width) with 0%nat by lia|]. assert (Hw : 0 <= width <= 2 ^ 15) by lia. assert (E : Z.of_nat (Z.to_nat width) = width) by lia.
  pose proof (for_inv (fun i mvs => 0 <= i <= width /\ mvs = List.filter (fun i => bound i <? thresh) (seqZ 0 i)) (Z.to_nat width) 0
    (fun i mvs => if bound i <? thresh then mvs ++ [s16 i] else mvs) []) as I. cbv beta in I. rewrite E, Z.add_0_l in I. refine (proj2 (I _ _)); [by split; [lia|]|].
  intros i mvs Hi [_ ->]. split; [lia|]. rewrite seqZ_app by lia. change (seqZ (0 + i) 1) with [0 + (0 + i)]. rewrite !Z.add_0_l, List.filter_app. cbn [List.filter].
  destruct (bound i <? thresh); [|by rewrite app_nil_r]. by rewrite sw_small by lia.
Qed.
Lemma for_fold {A} (f : Z -> A -> A) n b : for_ (Z.to_nat n) 0 f b = fold_left (fun b x => f x b) (seqZ 0 n) b.
Proof.
  assert (E : forall k lo b, for_ k lo f b = fold_left (fun b x => f x b) (seqZ lo (Z.of_nat k)) b).
  { induction k as [|k IH]; intros lo b0; [done|]. rewrite seqZ_cons by lia. cbn [for_ fold_left]. rewrite IH. do 2 f_equal; lia. }
  rewrite E. destruct (Z.le_gt_cases n 0); [by rewrite !seqZ_nil by lia|]. by rewrite Z2Nat.id by lia.
Qed.

(** One row of the window. *)
Definition all_row (min_x width my : Z) (b : best) : best := for_ (Z.to_nat width) 0 (fun x => COST_MV h m (min_x + x) my) b.
Lemma esa_row_all e my bound b : e_width e <= 2 ^ 15 ->
  (forall thresh, esa_ads m e my thresh = ads_loop bound (e_width e) thresh) ->
  (forall x, 0 <= x < e_width e -> bound x <= sad_at (e_min_x e + x) my + p_cost_mvx m ((e_min_x e + x) << 2)) ->
  (forall x, 0 <= x < e_width e -> 0 <= sad_at (e_min_x e + x) my + p_cost_mvx m ((e_min_x e + x) << 2)) ->
  esa_row h m e my b = all_row (e_min_x e) (e_width e) my b.
Proof.
  intros Hw HA HB HP. unfold esa_row, all_row. set (d := p_cost_mvy m (my << 2)).
  assert (IN : forall x, x ∈ seqZ 0 (e_width e) -> 0 <= x < e_width e) by (intros x Hx; apply elem_of_seqZ in Hx; lia).
  rewrite for_fold. destruct (Z.leb_spec (bcost b) d).
  - etransitivity; [|apply (skip_worse (fun x => sad_at (e_min_x e + x) my + BITS_MVD m (e_min_x e + x) my) (fun x => e_min_x e + x) (fun _ => my) (fun _ => false))].
    + assert (F : forall l : list Z, List.filter (fun _ => false) l = []) by (by induction l). by rewrite F.
    + intros x Hx _. specialize (HP x (IN x Hx)). unfold BITS_MVD. fold d. lia.
  - rewrite HA, ads_loop_filter by done. cbn [bcost]. set (xs := List.filter _ _). set (b0 := Best (bcost b - d) (bmx b) (bmy b)).
    pose proof (esa_x3_row d (e_min_x e) my xs b0 eq_refl) as R. destruct (esa_x3 h m (e_min_x e) my xs b0) as [b' rest].
    change (Best (bcost b' + d) (bmx b') (bmy b')) with (shift_cost d b'). rewrite R. clear R b' rest.
    assert (shift_cost d b0 = b) as -> by (unfold shift_cost, b0; destruct b as [c x y]; cbn; f_equal; lia).
    apply (skip_worse (fun x => sad_at (e_min_x e + x) my + BITS_MVD m (e_min_x e + x) my) (fun x => e_min_x e + x) (fun _ => my)).
    intros x Hx E. destruct (Z.ltb_spec (bound x) (bcost b - d)); [done|]. specialize (HB x (IN x Hx)). unfold BITS_MVD. fold d. lia.
Qed.

(** ** The bound *)
Section Bound.
Context (R : Z -> Z -> Z) (i_me_range : Z) (b : best).
Local Abbreviation e := (esa_prepare h m i_me_range b).
Local Abbreviation F := (fun x y => m_p_fenc m 0 (y * FENC_STRIDE + x)).
Local Abbreviation lower := (stride * (h_i_lines h + 64)).
Hypothesis Hcmp : h_fpelcmp h = pixf_sad.
Hypothesis Hpix : 0 <= m_i_pixel m <= 6.
Hypothesis Hfenc : bytes_ok (m_p_fenc m 0).
(** The samples and the sums of the reference at a candidate. *)
Definition seen (cx cy : Z) : Prop :=
  (forall i j, 0 <= i < bw m -> 0 <= j < bh m -> m_p_fref m 0 ((cy + j) * stride + (cx + i)) = R (cx + i) (cy + j)) /\
  (forall i j, 0 <= i <= bw m - 8 -> 0 <= j <= bh m - 8 -> m_integral m ((cy + j) * stride + (cx + i)) = box_sum R (cx + i) (cy + j) 8 8) /\
  (forall i j, 0 <= i <= bw m - 4 -> 0 <= j <= bh m - 4 -> m_integral m (lower + ((cy + j) * stride + (cx + i))) = box_sum R (cx + i) (cy + j) 4 4).
Local Abbreviation A cx cy := (fun i j => Z.abs (F i j - R (cx + i) (cy + j))).

Lemma sad_at_box cx cy : seen cx cy -> sad_at cx cy = box_sum (A cx cy) 0 0 (bw m) (bh m).
Proof.
  intros (HR & _ & _). unfold fpelcmp. rewrite Hcmp. unfold pixf_sad, pixel_size, bw, bh in *.
  assert (B : forall w h : Z, nth (Z.to_nat (m_i_pixel m)) x264_pixel_size (0, 0) = (w, h) -> 0 <= w /\ 0 <= h).
  { assert (m_i_pixel m = 0 \/ m_i_pixel m = 1 \/ m_i_pixel m = 2 \/ m_i_pixel m = 3 \/ m_i_pixel m = 4 \/ m_i_pixel m = 5 \/ m_i_pixel m = 6) as D by lia.
    intros w h' E. destruct D as [D|[D|[D|[D|[D|[D|D]]]]]]; rewrite D in E; cbn in E; injection E as <- <-; lia. }
  destruct (nth (Z.to_nat (m_i_pixel m)) x264_pixel_size (0, 0)) as [w h'] eqn:E. cbn [fst snd] in *. destruct (B w h' eq_refl).
  rewrite pixel_sad_box, !Z2Nat.id by done. apply box_ext. intros i j Hi Hj. unfold ptr. rewrite !Z.add_0_l. rewrite <- HR by done. do 3 f_equal. lia.
Qed.
Lemma enc_dc_box n off a c : off = c * FENC_STRIDE + a ->
  pixel_sad n n (fun _ => 0) FENC_STRIDE (ptr (m_p_fenc m 0) off) FENC_STRIDE = box_sum F a c (Z.of_nat n) (Z.of_nat n).
Proof.
  intros ->. rewrite sad_zero by done. unfold box_sum. apply zsum_ext. intros j _. apply zsum_ext. intros i _. f_equal. lia.
Qed.
(** One part of the block. *)
Lemma part_bound n a c cx cy D V : 0 <= n -> D = box_sum F a c n n -> V = box_sum R (cx + a) (cy + c) n n -> Z.abs (D - V) <= box_sum (A cx cy) a c n n.
Proof. intros Hn -> ->. rewrite <- box_shift. by apply box_abs. Qed.

(** The fields of the preparation, by the size of the block. *)
Lemma prepare_parts n sad_size : m_i_pixel m <= 3 /\ n = 8%nat /\ sad_size = 3 \/ 4 <= m_i_pixel m /\ n = 4%nat /\ sad_size = 6 ->
  let k := Z.of_nat n in
  let dc a c := box_sum F a c k k in
  exists dcs, dcs = [dc 0 0; dc k 0; dc 0 k; dc k k] /\
  e_enc_dc e = (if (m_i_pixel m =? PIXEL_8x16) || (m_i_pixel m =? PIXEL_4x8) then <[1%nat := tbl dcs 2]> dcs else dcs) /\
  e_delta e = (if (m_i_pixel m =? PIXEL_16x16) || (m_i_pixel m =? PIXEL_8x16) || (m_i_pixel m =? PIXEL_4x8) then k * stride else k) /\
  (forall cx cy i j, seen cx cy -> 0 <= i <= bw m - k -> 0 <= j <= bh m - k -> e_sums_base e ((cy + j) * stride + (cx + i)) = box_sum R (cx + i) (cy + j) k k).
Proof.
  intros HS k dc. exists [dc 0 0; dc k 0; dc 0 k; dc k k]. split; [done|].
  assert (HD : pixf_sad_x sad_size (fun _ => 0) [m_p_fenc m 0; ptr (m_p_fenc m 0) k; ptr (m_p_fenc m 0) (k * FENC_STRIDE); ptr (m_p_fenc m 0) (k + k * FENC_STRIDE)] FENC_STRIDE = [dc 0 0; dc k 0; dc 0 k; dc k k]).
  { unfold pixf_sad_x, cmp_x. cbn [map]. change (m_p_fenc m 0) with (ptr (m_p_fenc m 0) 0) at 1.
    assert (E : pixf_sad sad_size = pixel_sad n n) by (destruct HS as [(_ & -> & ->)|(_ & -> & ->)]; done). rewrite E.
    rewrite (enc_dc_box n 0 0 0), (enc_dc_box n k k 0), (enc_dc_box n (k * FENC_STRIDE) 0 k), (enc_dc_box n (k + k * FENC_STRIDE) k k) by lia. done. }
  assert (HL : (m_i_pixel m <=? PIXEL_8x8) = (n =? 8)%nat).
  { unfold PIXEL_8x8. destruct HS as [(H1 & -> & _)|(H1 & -> & _)]; destruct (Z.leb_spec (m_i_pixel m) 3); try lia; done. }
  unfold esa_prepare. cbv zeta. cbn [e_enc_dc e_delta e_sums_base]. rewrite HL.
  assert (HZ : (if (n =? 8)%nat then PIXEL_8x8 else PIXEL_4x4) = sad_size) by (destruct HS as [(_ & -> & ->)|(_ & -> & ->)]; done). rewrite HZ.
  assert (HK : (nth (Z.to_nat sad_size) x264_pixel_size (0, 0)).1 = k) by (unfold k; destruct HS as [(_ & -> & ->)|(_ & -> & ->)]; done). rewrite HK, HD.
  split; [done|]. split; [done|]. intros cx cy i j (_ & S8 & S4) Hi Hj. unfold k in *. destruct HS as [(_ & -> & _)|(_ & -> & _)].
  - change (Z.of_nat 8 =? 4) with false. cbv iota. by apply S8.
  - change (Z.of_nat 4 =? 4) with true. cbv iota. unfold ptr. change (PADV * 2) with 64. by apply S4.
Qed.
Lemma part_at n x my i j off : (forall cx cy i j, seen cx cy -> 0 <= i <= bw m - n -> 0 <= j <= bh m - n -> e_sums_base e ((cy + j) * stride + (cx + i)) = box_sum R (cx + i) (cy + j) n n) ->
  0 <= n -> seen (e_min_x e + x) my -> off = x + (j * stride + i) -> 0 <= i <= bw m - n -> 0 <= j <= bh m - n ->
  Z.abs (box_sum F i j n n - ptr (e_sums_base e) (e_min_x e + my * stride) off) <= box_sum (A (e_min_x e + x) my) i j n n.
Proof.
  intros HS Hn Hx -> Hi Hj. apply part_bound; [done|done|]. rewrite <- HS by done. unfold ptr. f_equal. lia.
Qed.
Lemma box_quarters p n : 0 <= n -> box_sum p 0 0 (2 * n) (2 * n) = box_sum p 0 0 n n + box_sum p n 0 n n + box_sum p 0 n n n + box_sum p n n n n.
Proof. intros Hn. replace (2 * n) with (n + n) by lia. rewrite box_height, !box_width, !Z.add_0_l by lia. lia. Qed.
Lemma box_halves p n : 0 <= n -> box_sum p 0 0 (2 * n) n = box_sum p 0 0 n n + box_sum p n 0 n n /\ box_sum p 0 0 n (2 * n) = box_sum p 0 0 n n + box_sum p 0 n n n.
Proof. intros Hn. replace (2 * n) with (n + n) by lia. rewrite box_height, box_width, !Z.add_0_l by lia. lia. Qed.
Lemma ads_bound my : exists bound, (forall thresh, esa_ads m e my thresh = ads_loop bound (e_width e) thresh) /\
  (forall x, seen (e_min_x e + x) my -> bound x <= sad_at (e_min_x e + x) my + e_cost_fpel_mvx e (e_min_x e + x)).
Proof.
  assert (D : m_i_pixel m = 0 \/ m_i_pixel m = 1 \/ m_i_pixel m = 2 \/ m_i_pixel m = 3 \/ m_i_pixel m = 4 \/ m_i_pixel m = 5 \/ m_i_pixel m = 6) by lia.
  assert (P : exists n, n = (if m_i_pixel m <=? 3 then 8%nat else 4%nat)) by eauto. destruct P as [n Hn].
  destruct (prepare_parts n (if m_i_pixel m <=? 3 then 3 else 6)) as (dcs & -> & HD & HE & HS).
  { destruct (Z.leb_spec (m_i_pixel m) 3); subst n; [left|right]; auto with lia. }
  pose proof (fun x i j off => part_at (Z.of_nat n) x my i j off HS ltac:(lia)) as PA. clear HS. pose proof sad_at_box as SA.
  unfold esa_ads, pixf_ads. rewrite HD, HE. clear HD HE.
  destruct D as [D|[D|[D|[D|[D|[D|D]]]]]]; rewrite D in *; subst n; cbn [Z.leb Z.compare Pos.compare Pos.compare_cont] in *;
    eexists; (split; [reflexivity|]); intros x Hx; specialize (fun i j off => PA x i j off Hx); rewrite (SA _ _ Hx); clear SA; 
    (match type of D with _ = ?k => assert (NT : nth (Z.to_nat (m_i_pixel m)) x264_pixel_size (0, 0) = nth (Z.to_nat k) x264_pixel_size (0, 0)) by (by rewrite D);
       let v := eval vm_compute in (nth (Z.to_nat k) x264_pixel_size (0, 0)) in change (nth (Z.to_nat k) x264_pixel_size (0, 0)) with v in NT end);
    unfold bw, bh in *; rewrite NT in PA |- *; clear NT; cbn [fst snd] in PA |- *;
    change (ptr (e_cost_fpel_mvx e) (e_min_x e) x) with (e_cost_fpel_mvx e (e_min_x e + x)); apply Zplus_le_compat_r;
    change (Z.of_nat 8) with 8 in *; change (Z.of_nat 4) with 4 in *; set (S := ptr (e_sums_base e) (e_min_x e + my * stride)) in *; set (B := A (e_min_x e + x) my) in *; clearbody S B.
  - pose proof (box_quarters B 8 ltac:(lia)) as Q. change (2 * 8) with 16 in Q.
    pose proof (PA 0 0 x ltac:(lia) ltac:(lia) ltac:(lia)) as P0. pose proof (PA 8 0 (x + 8) ltac:(lia) ltac:(lia) ltac:(lia)) as P1.
    pose proof (PA 0 8 (x + 8 * stride) ltac:(lia) ltac:(lia) ltac:(lia)) as P2. pose proof (PA 8 8 (x + 8 * stride + 8) ltac:(lia) ltac:(lia) ltac:(lia)) as P3.
    cut (Z.abs (box_sum F 0 0 8 8 - S x) + Z.abs (box_sum F 8 0 8 8 - S (x + 8)) + Z.abs (box_sum F 0 8 8 8 - S (x + 8 * stride)) +
      Z.abs (box_sum F 8 8 8 8 - S (x + 8 * stride + 8)) <= box_sum B 0 0 16 16); [exact id|lia].
  - destruct (box_halves B 8 ltac:(lia)) as [Q _]. change (2 * 8) with 16 in Q.
    pose proof (PA 0 0 x ltac:(lia) ltac:(lia) ltac:(lia)) as P0. pose proof (PA 8 0 (x + 8) ltac:(lia) ltac:(lia) ltac:(lia)) as P1.
    cut (Z.abs (box_sum F 0 0 8 8 - S x) + Z.abs (box_sum F 8 0 8 8 - S (x + 8)) <= box_sum B 0 0 16 8); [exact id|lia].
  - destruct (box_halves B 8 ltac:(lia)) as [_ Q]. change (2 * 8) with 16 in Q.
    pose proof (PA 0 0 x ltac:(lia) ltac:(lia) ltac:(lia)) as P0. pose proof (PA 0 8 (x + 8 * stride) ltac:(lia) ltac:(lia) ltac:(lia)) as P1.
    cut (Z.abs (box_sum F 0 0 8 8 - S x) + Z.abs (box_sum F 0 8 8 8 - S (x + 8 * stride)) <= box_sum B 0 0 8 16); [exact id|lia].
  - pose proof (PA 0 0 x ltac:(lia) ltac:(lia) ltac:(lia)) as P0. exact P0.
  - destruct (box_halves B 4 ltac:(lia)) as [Q _]. change (2 * 4) with 8 in Q.
    pose proof (PA 0 0 x ltac:(lia) ltac:(lia) ltac:(lia)) as P0. pose proof (PA 4 0 (x + 4) ltac:(lia) ltac:(lia) ltac:(lia)) as P1.
    cut (Z.abs (box_sum F 0 0 4 4 - S x) + Z.abs (box_sum F 4 0 4 4 - S (x + 4)) <= box_sum B 0 0 8 4); [exact id|lia].
  - destruct (box_halves B 4 ltac:(lia)) as [_ Q]. change (2 * 4) with 8 in Q.
    pose proof (PA 0 0 x ltac:(lia) ltac:(lia) ltac:(lia)) as P0. pose proof (PA 0 4 (x + 4 * stride) ltac:(lia) ltac:(lia) ltac:(lia)) as P1.
    cut (Z.abs (box_sum F 0 0 4 4 - S x) + Z.abs (box_sum F 0 4 4 4 - S (x + 4 * stride)) <= box_sum B 0 0 4 8); [exact id|lia].
  - pose proof (PA 0 0 x ltac:(lia) ltac:(lia) ltac:(lia)) as P0. exact P0.
Qed.

(** The whole window. *)
Lemma me_esa_all : e_width e <= 2 ^ 15 ->
  (forall x my, 0 <= x < e_width e -> e_min_y e <= my <= e_max_y e -> seen (e_min_x e + x) my) ->
  (forall x, 0 <= x < e_width e -> e_cost_fpel_mvx e (e_min_x e + x) = p_cost_mvx m ((e_min_x e + x) << 2) /\ 0 <= p_cost_mvx m ((e_min_x e + x) << 2)) ->
  me_esa h m i_me_range b = for_ (Z.to_nat (e_max_y e - e_min_y e + 1)) (e_min_y e) (all_row (e_min_x e) (e_width e)) b.
Proof.
  intros Hw HS HC. unfold me_esa. cbv zeta. apply for_ext. intros my b' Hy. destruct (ads_bound my) as (bound & HA & HB).
  apply (esa_row_all _ _ bound); [done|done| |].
  - intros x Hx. destruct (HC x Hx) as [E _]. rewrite <- E. apply HB, HS; lia.
  - intros x Hx. destruct (HC x Hx) as [_ N]. pose proof (sad_at_box _ _ (HS x my Hx ltac:(lia))) as E.
    assert (0 <= sad_at (e_min_x e + x) my); [|lia]. unfold fpelcmp. rewrite Hcmp. unfold pixf_sad. destruct (pixel_size _). apply pixel_sad_nonneg.
Qed.
End Bound.
End Search.

(** ** The costs of vectors *)
Definition cost_mv_value (i_lambda v : Z) : Z := i_lambda * bs_size_se (Z.abs v).
Lemma bs_size_se_bound i : 0 <= i <= 16384 -> 1 <= bs_size_se i <= 31.
Proof.
  intros Hi. unfold bs_size_se. set (v := if i <=? 0 then - i * 2 else i * 2 - 1). assert (Hv : 0 <= v < 32768) by (unfold v; destruct (Z.leb_spec i 0); lia).
  clearbody v. rewrite uw_small, ue_big_size by lia. pose proof (Z.log2_nonneg (v + 1)). pose proof (Z.log2_lt_pow2 (v + 1) 16 ltac:(lia)). lia.
Qed.
Lemma cost_mv_bound i_lambda v : 0 <= i_lambda <= 1000 -> Z.abs v <= 16384 -> 0 <= cost_mv_value i_lambda v < 2 ^ 15.
Proof. intros Hl Hv. unfold cost_mv_value. pose proof (bs_size_se_bound (Z.abs v) ltac:(lia)). nia. Qed.
Lemma load_cost_mv_at i_lambda raw v : 0 <= i_lambda <= 1000 -> Z.abs v <= 16384 -> load_cost_mv i_lambda raw v = cost_mv_value i_lambda v.
Proof.
  intros Hl Hv. unfold load_cost_mv. cbv zeta.
  refine (for_inv (fun n t => forall v, Z.abs v < n -> Z.abs v <= 16384 -> t v = cost_mv_value i_lambda v) (Z.to_nat (2 * 4 * 2048 + 1)) 0 _ raw _ _ v ltac:(lia) Hv); [intros; lia|].
  clear v Hv. intros i t Hi I v Hv Hv'. change (2 * 4 * 2048 + 1) with 16385 in Hi.
  destruct (Z.eq_dec (Z.abs v) i) as [E|E].
  - assert (S : s16 (i_lambda * bs_size_se i) = cost_mv_value i_lambda v) by (rewrite <- E; apply sw_small; [lia|]; pose proof (cost_mv_bound i_lambda v Hl Hv'); unfold cost_mv_value in *; lia).
    destruct (Z.eq_dec v (- i)) as [->|]; [by rewrite upd_eq|]. assert (v = i) as -> by lia. by rewrite upd_ne, upd_eq by lia.
  - rewrite !upd_ne by lia. apply I; lia.
Qed.
Lemma load_cost_mv_fpel_at i_lambda raw raw' v x : 0 <= i_lambda <= 1000 -> - 8192 <= v <= 8192 -> - 2000 <= x <= 2000 ->
  ptr (load_cost_mv_fpel (load_cost_mv i_lambda raw) (- v .& 3) raw') (- v >> 2) x = load_cost_mv i_lambda raw ((x << 2) - v).
Proof.
  intros Hl Hv Hx. unfold ptr, load_cost_mv_fpel.
  assert (E : 4 * (- v >> 2) + (- v .& 3) = - v /\ 0 <= (- v .& 3) < 4).
  { rewrite Z.shiftr_div_pow2 by lia. change 3 with (Z.ones 2). rewrite Z.land_ones by lia. change (2 ^ 2) with 4. Z.to_euclidean_division_equations. lia. }
  set (cm := load_cost_mv i_lambda raw). set (j := - v .& 3) in *.
  pose proof (for_shift (Z.to_nat (4 * 2048)) 0 (-2 * 2048) (fun i t => upd t i (u16 (cm (i * 4 + j)))) raw') as SH.
  change (-2 * 2048 + 0) with (-2 * 2048) in SH. rewrite <- SH. clear SH.
  destruct (for_row (Z.to_nat (4 * 2048)) (fun i => -2 * 2048 + i) (fun i _ => u16 (cm ((-2 * 2048 + i) * 4 + j))) raw' ltac:(cbv beta; lia)) as [W _].
  specialize (W (((- v >> 2) + x) - (-2 * 2048)) ltac:(lia)). cbv beta in W. replace (-2 * 2048 + ((- v >> 2) + x - -2 * 2048)) with ((- v >> 2) + x) in W by lia.
  etransitivity; [exact W|]. unfold cm.
  rewrite Z.shiftl_mul_pow2 by lia. change (2 ^ 2) with 4. replace (((- v >> 2) + x) * 4 + j) with (x * 4 - v) by lia.
  pose proof (cost_mv_bound i_lambda (x * 4 - v) Hl ltac:(lia)). rewrite load_cost_mv_at by lia. apply uw_small. lia.
Qed.
