(* ===== verification/EsaTheorem.v ===== *)
(** * Exhaustive search in a finished reference frame

    The window of the search, the sums it eliminates by and the planes it compares with are
    put together: the search ends with a vector of least cost among all of its window. *)
From stdpp Require Import list.
From S2P Require Import Prelude Bs Mb CavlcMb Dct Mc Deblock DeblockStd DeblockLine DeblockFrame DeblockMb DeblockCorrect DeblockTheorem DeblockRows Sums Frame FrameExpand FramePlane Integral FrameSlice FrameTheorem MvRange Pixel Me Esa.

(** ** The least of a grid of candidates *)
Section Grid.
Context (cost : Z -> Z -> Z).
(** What a scan that has seen the candidates of [seen] started from [b] may end with. *)
Record scanned (seen : Z -> Z -> Prop) (b r : best) : Prop := {
  sc_start : bcost r <= bcost b;
  sc_least : forall x y, seen x y -> bcost r <= cost x y;
  sc_found : r = b \/ exists x y, seen x y /\ r = Best (cost x y) x y
}.
Lemma scanned_step seen b r x y : scanned seen b r ->
  scanned (fun x' y' => seen x' y' \/ x' = x /\ y' = y) b (COPY3_IF_LT (cost x y) x y r).
Proof.
  intros [S L F]. unfold COPY3_IF_LT. destruct (Z.ltb_spec (cost x y) (bcost r)); split; cbn [bcost].
  - lia.
  - intros x' y' [H'|[-> ->]]; [specialize (L x' y' H'); lia|lia].
  - right. exists x, y. auto.
  - done.
  - intros x' y' [H'|[-> ->]]; [by apply L|lia].
  - destruct F as [->|(x' & y' & H' & ->)]; [by left|right]. exists x', y'. auto.
Qed.
Lemma scanned_ext seen seen' b r : (forall x y, seen x y <-> seen' x y) -> scanned seen b r -> scanned seen' b r.
Proof.
  intros E [S L F]. split; [done|intros x y H; by apply L, E|]. destruct F as [->|(x & y & H & ->)]; [by left|right].
  exists x, y. split; [by apply E|done].
Qed.
Definition scan (min_x width min_y height : Z) (b : best) : best :=
  for_ (Z.to_nat height) min_y (fun y => for_ (Z.to_nat width) 0 (fun x => COPY3_IF_LT (cost (min_x + x) y) (min_x + x) y)) b.
Lemma scan_scanned min_x width min_y height b :
  scanned (fun x y => min_x <= x < min_x + width /\ min_y <= y < min_y + height) b (scan min_x width min_y height b).
Proof.
  unfold scan. set (P lim b' := scanned (fun x y => min_x <= x < min_x + width /\ min_y <= y < lim) b b').
  assert (P (min_y + Z.of_nat (Z.to_nat height)) (for_ (Z.to_nat height) min_y
    (fun y => for_ (Z.to_nat width) 0 (fun x => COPY3_IF_LT (cost (min_x + x) y) (min_x + x) y)) b)) as H.
  { apply (for_inv P).
    - unfold P. split; [lia|intros; lia|by left].
    - intros y b' Hy Hb. unfold P in *. set (Q lim b'' := scanned (fun x' y' => (min_x <= x' < min_x + width /\ min_y <= y' < y) \/ (min_x <= x' < min_x + lim /\ y' = y)) b b'').
      assert (Q (0 + Z.of_nat (Z.to_nat width)) (for_ (Z.to_nat width) 0 (fun x => COPY3_IF_LT (cost (min_x + x) y) (min_x + x) y) b')) as HQ.
      { apply (for_inv Q).
        - unfold Q. eapply scanned_ext; [|exact Hb]. intros x' y'. cbv beta. lia.
        - intros x b'' Hx HQ. unfold Q in *. apply (scanned_step _ _ _ (min_x + x) y) in HQ. eapply scanned_ext; [|exact HQ]. intros x' y'. cbv beta. lia. }
      unfold Q in HQ. eapply scanned_ext; [|exact HQ]. intros x' y'. cbv beta. lia. }
  unfold P in H. eapply scanned_ext; [|exact H]. intros x' y'. cbv beta. lia.
Qed.
End Grid.

Lemma land_not3 v : v .& Z.lnot 3 = 4 * (v / 4).
Proof.
  change 3 with (Z.ones 2). apply Z.bits_inj'. intros i Hi. rewrite Z.land_spec, Z.lnot_spec by done.
  rewrite (Z.mul_comm 4). change 4 with (2 ^ 2). rewrite <- Z.shiftl_mul_pow2, <- Z.shiftr_div_pow2 by lia.
  destruct (Z.lt_ge_cases i 2).
  - rewrite Z.shiftl_spec_low, Z.ones_spec_low by lia. by rewrite andb_false_r.
  - rewrite Z.shiftl_spec, Z.shiftr_spec, Z.ones_spec_high by lia. rewrite andb_true_r. f_equal. lia.
Qed.

(** ** The search of a block

    The block at ([x0], [y0]) of macroblock ([bx], [by_]), with the reference frame [f] and the
    ranges and costs that the analysis prepares. *)
Record search_of (sl : slice_ctx) (f : x264_frame_t) (q : mv_param) (refs : list x264_frame_t) (bx by_ x0 y0 i_lambda : Z)
    (h : me_ctx) (m : me_t) : Prop := {
  so_pixel : 0 <= m_i_pixel m <= 6;
  so_block : 0 <= x0 /\ 0 <= y0 /\ x0 + bw m <= 16 /\ y0 + bh m <= 16;
  so_mb : 0 <= bx < c_mb_width sl /\ 0 <= by_ < c_mb_height sl;
  so_fenc : bytes_ok (m_p_fenc m 0);
  so_stride : m_i_stride m 0 = f_stride f 0;
  so_fref : m_p_fref m 0 = ptr (f_plane f 0) ((16 * by_ + y0) * f_stride f 0 + (16 * bx + x0));
  so_integral : exists sums, f_integral f = Some sums /\ m_integral m = ptr sums ((16 * by_ + y0) * f_stride f 0 + (16 * bx + x0));
  so_lines : h_i_lines h = ph sl 0;
  so_cmp : exists tmp b_lossless i_subpel_refine, h_fpelcmp h = (mbcmp_init tmp b_lossless i_subpel_refine X264_ME_ESA).2;
  so_lambda : 0 <= i_lambda <= 1000;
  so_cost : exists raw, m_p_cost_mv m = load_cost_mv i_lambda raw /\
    forall j, 0 <= j < 4 -> exists raw', h_cost_mv_fpel h j = load_cost_mv_fpel (load_cost_mv i_lambda raw) j raw';
  so_mvp : -8192 <= (m_mvp m).1 <= 8192 /\ -8192 <= (m_mvp m).2 <= 8192;
  so_progressive : q_mbaff q = 0 /\ q_interlaced q = 0;
  so_size : q_mb_width q = c_mb_width sl /\ q_mb_height q = c_mb_height sl;
  so_mv_range : 0 < q_mv_range q <= 512;
  so_mv_x : h_mv_x h = mv_range_x q bx;
  so_mv_y : mv_range_y q by_ refs = Some (h_mv_y h)
}.

Section Search.
Context (sl : slice_ctx) (pic_of : Z -> Z -> Z) (fenc : x264_frame_t) (buf : mem).
Context (coded : Z -> planes * planes -> planes) (tables : Z -> deblock_t) (info : picture_info) (st0 : row_state).
Hypothesis ok : slice_ok sl pic_of coded tables info st0.
Local Abbreviation f := (r_frame (x264_slice_frame sl fenc buf coded tables st0)).
Local Abbreviation ref := (continued (pw sl 0) (ph sl 0) (final sl fenc buf coded tables info st0 0)).
Context (q : mv_param) (refs : list x264_frame_t) (bx by_ x0 y0 i_lambda : Z) (h : me_ctx) (m : me_t).
Hypothesis so : search_of sl f q refs bx by_ x0 y0 i_lambda h m.
Local Abbreviation X := (16 * bx + x0).
Local Abbreviation Y := (16 * by_ + y0).

(** The cost of a vector of whole samples: the sum of absolute differences to the
    reference picture, and what the difference to the predicted vector costs. *)
Definition full_cost (mx my : Z) : Z :=
  box_sum (fun i j => Z.abs (m_p_fenc m 0 (j * FENC_STRIDE + i) - ref (X + mx + i) (Y + my + j))) 0 0 (bw m) (bh m) +
  (cost_mv_value i_lambda (4 * mx - (m_mvp m).1) + cost_mv_value i_lambda (4 * my - (m_mvp m).2)).

(** The allowed vectors reach at most 19 samples beyond the picture. *)
Lemma fpel_range_x mx : mv_min_fpel (h_mv_x h) <= mx <= mv_max_fpel (h_mv_x h) ->
  -512 <= mx <= 512 /\ -16 * bx - 19 <= mx <= 16 * (c_mb_width sl - bx - 1) + 19.
Proof.
  destruct (so_size _ _ _ _ _ _ _ _ _ _ _ so) as [EW _]. pose proof (so_mv_range _ _ _ _ _ _ _ _ _ _ _ so) as HR.
  rewrite (so_mv_x _ _ _ _ _ _ _ _ _ _ _ so). unfold mv_range_x, CLIP_FMV. cbn [mv_min_fpel mv_max_fpel]. rewrite EW.
  rewrite !Z.shiftr_div_pow2 by lia. unfold i_fmv_range, i_fpel_border, x264_clip3. change (2 ^ 2) with 4.
  intros Hx. repeat case_match; Z.to_euclidean_division_equations; lia.
Qed.
Lemma fpel_range_y my : mv_min_fpel (h_mv_y h) <= my <= mv_max_fpel (h_mv_y h) ->
  -512 <= my <= 512 /\ -16 * by_ - 19 <= my <= 16 * (c_mb_height sl - by_ - 1) + 19.
Proof.
  destruct (so_size _ _ _ _ _ _ _ _ _ _ _ so) as [_ EH]. pose proof (so_mv_range _ _ _ _ _ _ _ _ _ _ _ so) as HR.
  destruct (so_progressive _ _ _ _ _ _ _ _ _ _ _ so) as [Hm Hi].
  pose proof (so_mv_y _ _ _ _ _ _ _ _ _ _ _ so) as E. unfold mv_range_y in E. rewrite Hm, !Z.shiftr_0_r, EH in E.
  destruct (thread_mvy_range q by_ refs) as [r|]; [|done]. injection E as E. rewrite <- E. clear E. cbn [mv_min_fpel mv_max_fpel].
  rewrite !Z.shiftr_div_pow2 by lia. unfold CLIP_FMV, i_fmv_range, i_fpel_border, i_spel_border, x264_clip3. change (2 ^ 2) with 4.
  intros Hy. destruct (so_mb _ _ _ _ _ _ _ _ _ _ _ so) as [_ Hby]. repeat case_match; Z.to_euclidean_division_equations; lia.
Qed.

(** Around the picture the frame holds what the search reads. *)
Lemma seen_at mx my : -16 * bx - 19 <= mx <= 16 * (c_mb_width sl - bx - 1) + 21 ->
  -16 * by_ - 19 <= my <= 16 * (c_mb_height sl - by_ - 1) + 19 ->
  seen h m (fun x y => ref (X + x) (Y + y)) mx my.
Proof.
  intros Hx Hy. destruct (so_block _ _ _ _ _ _ _ _ _ _ _ so) as (B1 & B2 & B3 & B4).
  destruct (sl_size _ _ _ _ _ _ ok) as [HW HH].
  pose proof (slice_done sl pic_of fenc buf coded tables info st0 ok) as HF.
  assert (EM : f_stride f 0 = f_stride (r_frame st0) 0) by (destruct (fi_geometry _ _ _ _ _ _ _ _ _ _ HF) as [-> _]; done).
  destruct (so_integral _ _ _ _ _ _ _ _ _ _ _ so) as (sums & Es & EI).
  pose proof (luma_ready _ _ _ _ _ _ _ _ _ _ HF) as L.
  assert (E1 : ready sl 0 (c_mb_height sl) = ph sl 0 + 32) by (unfold ready; destruct (Z.eqb_spec (c_mb_height sl) 0); [lia|]; by rewrite Z.eqb_refl).
  assert (E2 : ready_half sl (c_mb_height sl) = ph sl 0 + 32) by (unfold ready_half; destruct (Z.eqb_spec (c_mb_height sl) 0); [lia|]; by rewrite Z.eqb_refl).
  rewrite E1, E2, Z.min_id in L.
  pose proof (fi_integral _ _ _ _ _ _ _ _ _ _ HF sums Es HH) as [_ I8 I4]. unfold integral_ready in I8, I4. rewrite Z.eqb_refl in I8, I4.
  unfold seen. rewrite EI, (so_stride _ _ _ _ _ _ _ _ _ _ _ so), (so_fref _ _ _ _ _ _ _ _ _ _ _ so), (so_lines _ _ _ _ _ _ _ _ _ _ _ so), EM.
  unfold ptr. change (pw sl 0) with (16 * c_mb_width sl) in *. change (ph sl 0) with (16 * c_mb_height sl) in *.
  set (s := f_stride (r_frame st0) 0) in *. split; [|split].
  - intros i j Hi Hj. replace (Y * s + X + ((my + j) * s + (mx + i))) with ((Y + (my + j)) * s + (X + (mx + i))) by lia.
    apply (L 0 (X + (mx + i)) (Y + (my + j))); lia.
  - intros i j Hi Hj. replace (Y * s + X + ((my + j) * s + (mx + i))) with ((Y + (my + j)) * s + (X + (mx + i))) by lia.
    etransitivity; [apply I8; lia|]. by rewrite <- box_shift.
  - intros i j Hi Hj.
    replace (Y * s + X + (s * (16 * c_mb_height sl + 64) + ((my + j) * s + (mx + i)))) with ((Y + (my + j) + (16 * c_mb_height sl + 64)) * s + (X + (mx + i))) by lia.
    etransitivity; [apply I4; lia|]. by rewrite <- box_shift.
Qed.
Lemma candidate_cost mx my : -2000 <= mx <= 2000 -> -2000 <= my <= 2000 -> seen h m (fun x y => ref (X + x) (Y + y)) mx my ->
  fpelcmp h m (ptr (m_p_fref m 0) (my * m_i_stride m 0 + mx)) + BITS_MVD m mx my = full_cost mx my /\
  p_cost_mvx m (mx << 2) = cost_mv_value i_lambda (4 * mx - (m_mvp m).1) /\ 0 <= p_cost_mvx m (mx << 2).
Proof.
  intros Hx Hy Hs. destruct (so_cmp _ _ _ _ _ _ _ _ _ _ _ so) as (tmp & bl & sr & Ec). unfold mbcmp_init in Ec.
  change (X264_ME_ESA =? X264_ME_TESA) with false in Ec. rewrite andb_false_r in Ec. cbn [snd] in Ec.
  rewrite (sad_at_box h m _ Ec (so_pixel _ _ _ _ _ _ _ _ _ _ _ so) mx my Hs).
  destruct (so_cost _ _ _ _ _ _ _ _ _ _ _ so) as (raw & E1 & _). destruct (so_mvp _ _ _ _ _ _ _ _ _ _ _ so) as [M1 M2].
  pose proof (so_lambda _ _ _ _ _ _ _ _ _ _ _ so) as HL.
  unfold BITS_MVD, p_cost_mvx, p_cost_mvy. rewrite E1, !Z.shiftl_mul_pow2 by lia. change (2 ^ 2) with 4.
  rewrite !load_cost_mv_at by lia. rewrite !(Z.mul_comm _ 4). split; [|split; [done|]].
  - unfold full_cost. f_equal. apply box_ext. intros i j _ _. cbv beta. do 3 f_equal; lia.
  - apply (cost_mv_bound i_lambda (4 * mx - (m_mvp m).1)); lia.
Qed.

(** C20: Exhaustive search by successive elimination, in a reference frame whose slice is
    written, loses nothing by what it eliminates.  Its window is the square around the
    start, cut to the allowed vectors, with the number of columns rounded to a multiple of
    four.  It ends with what the plain loops over this window end with: a candidate of the
    window, or the start, whose cost (the sum of absolute differences to the deblocked
    picture continued beyond its edges, and the cost of the vector) is the least. *)
Theorem exhaustive_search_exact i_me_range b :
  0 <= i_me_range <= 10000 ->
  let min_x := Z.max (bmx b - i_me_range) (mv_min_fpel (h_mv_x h)) in
  let max_x := Z.min (bmx b + i_me_range) (mv_max_fpel (h_mv_x h)) in
  let min_y := Z.max (bmy b - i_me_range) (mv_min_fpel (h_mv_y h)) in
  let max_y := Z.min (bmy b + i_me_range) (mv_max_fpel (h_mv_y h)) in
  let width := 4 * ((max_x - min_x + 3) / 4) in
  let r := me_esa h m i_me_range b in
  r = scan full_cost min_x width min_y (max_y - min_y + 1) b /\
  bcost r <= bcost b /\
  (forall mx my, min_x <= mx < min_x + width -> min_y <= my <= max_y -> bcost r <= full_cost mx my) /\
  (r = b \/ exists mx my, min_x <= mx < min_x + width /\ min_y <= my <= max_y /\ r = Best (full_cost mx my) mx my).
Proof.
  intros HR min_x max_x min_y max_y width r.
  assert (CX : forall mx, min_x <= mx < min_x + width -> -2000 <= mx <= 2000 /\ -16 * bx - 19 <= mx <= 16 * (c_mb_width sl - bx - 1) + 21).
  { intros mx Hx. unfold width in *.
    assert (min_x <= max_x) by (Z.to_euclidean_division_equations; lia).
    destruct (fpel_range_x min_x) as [R1 R2]; [unfold min_x, max_x in *; lia|]. destruct (fpel_range_x max_x) as [R3 R4]; [unfold min_x, max_x in *; lia|].
    assert (mx <= max_x + 2) by (Z.to_euclidean_division_equations; lia). lia. }
  assert (C : forall mx my, min_x <= mx < min_x + width -> min_y <= my <= max_y -> -2000 <= mx <= 2000 /\ -2000 <= my <= 2000 /\
    seen h m (fun x y => ref (X + x) (Y + y)) mx my).
  { intros mx my Hx Hy. destruct (CX mx Hx) as [X1 X2].
    destruct (fpel_range_y my) as [R5 R6]; [unfold min_y, max_y in *; lia|]. split; [done|]. split; [lia|]. apply seen_at; lia. }
  assert (EW : e_width (esa_prepare h m i_me_range b) = width) by apply land_not3.
  assert (ER : r = scan full_cost min_x width min_y (max_y - min_y + 1) b).
  { unfold r. destruct (so_cmp _ _ _ _ _ _ _ _ _ _ _ so) as (tmp & bl & sr & Ec). unfold mbcmp_init in Ec.
    change (X264_ME_ESA =? X264_ME_TESA) with false in Ec. rewrite andb_false_r in Ec. cbn [snd] in Ec.
    rewrite (me_esa_all h m (fun x y => ref (X + x) (Y + y)) i_me_range b Ec (so_pixel _ _ _ _ _ _ _ _ _ _ _ so) (so_fenc _ _ _ _ _ _ _ _ _ _ _ so)); rewrite ?EW.
    - apply for_ext. intros my b' Hy. apply for_ext. intros x b'' Hx. unfold COST_MV.
      change (e_min_x (esa_prepare h m i_me_range b)) with min_x in *. change (e_min_y (esa_prepare h m i_me_range b)) with min_y in *. change (e_max_y (esa_prepare h m i_me_range b)) with max_y in *.
      destruct (C (min_x + x) my ltac:(lia) ltac:(lia)) as (C1 & C2 & C3). by rewrite (proj1 (candidate_cost _ _ C1 C2 C3)).
    - unfold width, max_x, min_x. Z.to_euclidean_division_equations; lia.
    - intros x my Hx Hy. by apply C; change (e_min_x (esa_prepare h m i_me_range b)) with min_x; [lia|].
    - intros x Hx. change (e_min_x (esa_prepare h m i_me_range b)) with min_x.
      destruct (CX (min_x + x) ltac:(lia)) as [X1 _].
      destruct (so_cost _ _ _ _ _ _ _ _ _ _ _ so) as (raw & E1 & E2). destruct (so_mvp _ _ _ _ _ _ _ _ _ _ _ so) as [M1 _].
      pose proof (so_lambda _ _ _ _ _ _ _ _ _ _ _ so) as HL. destruct (E2 (- (m_mvp m).1 .& 3)) as [raw' E3].
      { change 3 with (Z.ones 2). rewrite Z.land_ones by lia. apply Z.mod_pos_bound. lia. }
      unfold esa_prepare. cbv zeta. cbn [e_cost_fpel_mvx]. rewrite E3.
      rewrite (load_cost_mv_fpel_at i_lambda raw raw' (m_mvp m).1 (min_x + x)) by lia.
      unfold p_cost_mvx. rewrite E1. split; [done|]. rewrite Z.shiftl_mul_pow2 by lia. change (2 ^ 2) with 4.
      rewrite load_cost_mv_at by lia. apply (cost_mv_bound i_lambda ((min_x + x) * 4 - (m_mvp m).1)); lia. }
  pose proof (scan_scanned full_cost min_x width min_y (max_y - min_y + 1) b) as [S1 S2 S3]. rewrite <- ER in *. clear ER.
  split; [done|]. split; [done|]. split; [intros mx my Hx Hy; apply S2; lia|].
  destruct S3 as [->|(mx & my & Hc & E)]; [by left|right]. exists mx, my. split; [lia|]. split; [lia|done].
Qed.
End Search.

(** ** A search in the sample frame *)
Definition sample_q : mv_param := MvParam 64 8 1 true 0 0 2 4.
Definition sample_reference : x264_frame_t :=
  r_frame (x264_slice_frame sample_slice sample_frame_t (fun _ => 0) sample_coded sample_tables sample_state_esa).
Definition sample_costs : mem := load_cost_mv 4 (fun _ => 0).
Definition sample_me_ctx : me_ctx := {|
  h_i_me_method := X264_ME_ESA; h_i_me_range := 4; h_i_subpel_refine := 1; h_b_chroma_me := false; h_slice_p := true;
  h_mv_x := mv_range_x sample_q 1; h_mv_y := default (MvRange 0 0 0 0 0 0) (mv_range_y sample_q 1 []); h_i_lines := 64;
  h_mbcmp := pixf_sad; h_mbcmp_unaligned := pixf_sad; h_fpelcmp := pixf_sad;
  h_cost_mv_fpel := fun j => load_cost_mv_fpel sample_costs j (fun _ => 0)
|}.
(** The upper right 8x8 block of macroblock (1, 1). *)
Definition sample_me (f : x264_frame_t) (sums : mem) : me_t :=
  let off := (16 * 1 + 0) * f_stride f 0 + (16 * 1 + 8) in {|
  m_i_pixel := PIXEL_8x8; m_p_cost_mv := sample_costs; m_i_ref_cost := 0;
  m_p_fref := fun _ => ptr (f_plane f 0) off; m_p_fenc := fun _ a => a mod 200; m_integral := ptr sums off;
  m_i_stride := fun _ => f_stride f 0; m_mvp := (6, -3)
|}.
Lemma sample_search f sums : f_integral f = Some sums -> search_of sample_slice f sample_q [] 1 1 8 0 4 sample_me_ctx (sample_me f sums).
Proof.
  intros Es. split; try (cbn; lia); try done.
  - intros a. cbn. pose proof (Z.mod_pos_bound a 200). lia.
  - by exists sums.
  - by exists (fun _ => 0), false, 1.
  - exists (fun _ => 0). split; [done|]. intros j _. by exists (fun _ => 0).
Qed.
Lemma exhaustive_search_exact_witness :
  let f := sample_reference in
  exists sums, f_integral f = Some sums /\
    bcost (me_esa sample_me_ctx (sample_me f sums) 4 (Best COST_MAX 0 0)) <=
    full_cost sample_slice sample_frame_t (fun _ => 0) sample_coded sample_tables sample_info sample_state_esa 1 1 8 0 4 (sample_me f sums) 1 2.
Proof.
  intros f. assert (Hm : bool_decide (is_Some (f_integral f)) = true) by (lazy; reflexivity).
  pose proof (fun m so => exhaustive_search_exact _ _ sample_frame_t (fun _ => 0) _ _ _ _ sample_slice_esa_ok sample_q [] 1 1 8 0 4 sample_me_ctx m so 4 (Best COST_MAX 0 0) ltac:(lia)) as E.
  change (r_frame _) with f in E. pose proof (sample_search f) as so. clearbody f.
  destruct (f_integral f) as [sums|] eqn:Es; [|done]. exists sums. split; [done|].
  destruct (E (sample_me f sums) (so sums eq_refl)) as (_ & _ & L & _). apply L; vm_compute; split; discriminate || reflexivity.
Defined.
