(* ===== verification/MeTheorem.v ===== *)
(** * What the motion search reports

    Every method keeps the best of the candidates it has compared; the cost the search
    reports is the cost of the vector it reports, with the early exits of the refinement. *)
From stdpp Require Import list.
From S2P Require Import Prelude Bs Mb CavlcMb Dct Mc Deblock DeblockFrame Sums Frame MvRange Pixel Me Esa.

(** ** The comparisons

    A comparison reads samples, so memories with the same samples are as good. *)
Definition cmp_reads (cmp : cmp_t) : Prop := forall i p1 s1 p2 p2' s2, (forall a, p2 a = p2' a) -> cmp i p1 s1 p2 s2 = cmp i p1 s1 p2' s2.
Lemma sad_reads : cmp_reads pixf_sad.
Proof.
  intros i p1 s1 p2 p2' s2 E. unfold pixf_sad. destruct (pixel_size i) as [w h]. unfold pixel_sad.
  apply for_ext. intros y s _. apply for_ext. intros x s' _. by rewrite E.
Qed.
Lemma satd_reads tmp : cmp_reads (pixf_satd tmp).
Proof.
  intros i p1 s1 p2 p2' s2 E. unfold pixf_satd. destruct (nth _ _ _) as [w h]. unfold pixel_satd_wxh. f_equal.
  apply for_ext. intros y s _. apply for_ext. intros x s' _. unfold satd_4x4. cbv zeta.
  assert (ET : forall t t', t = t' -> forall s, for_ 4 0 (fun i i_satd => let '(a0, a1, a2, a3) := HADAMARD4 (t i) (t (4 + i)) (t (8 + i)) (t (12 + i)) in
    i_satd + (Z.abs a0 + Z.abs a1 + Z.abs a2 + Z.abs a3)) s = for_ 4 0 (fun i i_satd => let '(a0, a1, a2, a3) := HADAMARD4 (t' i) (t' (4 + i)) (t' (8 + i)) (t' (12 + i)) in
    i_satd + (Z.abs a0 + Z.abs a1 + Z.abs a2 + Z.abs a3)) s) by (by intros ? ? -> ?).
  apply ET. apply for_ext. intros k t _. unfold ptr. by rewrite !E.
Qed.
Lemma satd_4x4_bound tmp p1 s1 p2 s2 i_satd : i_satd <= satd_4x4 tmp p1 s1 p2 s2 i_satd <= i_satd + 2 ^ 21.
Proof.
  assert (R : forall v, - 2 ^ 15 <= s16 v < 2 ^ 15) by (intros v; exact (sw_range 16 v ltac:(lia))).
  unfold satd_4x4. cbv zeta. set (t := for_ 4 0 _ tmp).
  assert (T : forall a, 0 <= a < 16 -> - 2 ^ 15 <= t a < 2 ^ 15).
  { refine (for_inv (fun i t => forall a, 0 <= a < 4 * i -> - 2 ^ 15 <= t a < 2 ^ 15) 4 0 _ tmp _ _); [intros; lia|].
    intros i u Hi HU a Ha. destruct (HADAMARD4 _ _ _ _) as [[[d0 d1] d2] d3].
    destruct (Z.eq_dec a (4 * i + 3)) as [->|]; [rewrite upd_eq; apply R|rewrite upd_ne by lia].
    destruct (Z.eq_dec a (4 * i + 2)) as [->|]; [rewrite upd_eq; apply R|rewrite upd_ne by lia].
    destruct (Z.eq_dec a (4 * i + 1)) as [->|]; [rewrite upd_eq; apply R|rewrite upd_ne by lia].
    destruct (Z.eq_dec a (4 * i)) as [->|]; [rewrite upd_eq; apply R|rewrite upd_ne by lia].
    apply HU. lia. }
  clearbody t. change (2 ^ 21) with (4 * 2 ^ 19).
  refine (for_inv (fun i s => i_satd <= s <= i_satd + i * 2 ^ 19) 4 0 _ i_satd _ _); [lia|].
  intros i s Hi HS. unfold HADAMARD4. cbv zeta.
  pose proof (T i ltac:(lia)). pose proof (T (4 + i) ltac:(lia)). pose proof (T (8 + i) ltac:(lia)). pose proof (T (12 + i) ltac:(lia)). lia.
Qed.
Lemma pixel_size_bound i w h : nth i x264_pixel_size (0, 0) = (w, h) -> w <= 16 /\ h <= 16.
Proof.
  intros E. assert (F : Forall (fun p => p.1 <= 16 /\ p.2 <= 16) x264_pixel_size) by (repeat constructor; cbn; lia).
  pose proof (nth_in_or_default i x264_pixel_size (0, 0)) as D. rewrite E in D. destruct D as [D|[= -> ->]]; [|lia].
  rewrite List.Forall_forall in F. exact (F (w, h) D).
Qed.
Lemma satd_bound tmp i p1 s1 p2 s2 : 0 <= pixf_satd tmp i p1 s1 p2 s2 <= 2 ^ 24.
Proof.
  unfold pixf_satd. destruct (nth (Z.to_nat i) x264_pixel_size (0, 0)) as [w h] eqn:E.
  apply pixel_size_bound in E as S.
  unfold pixel_satd_wxh. cbv zeta. set (nh := Z.to_nat ((h + 3) / 4)). set (nw := Z.to_nat ((w + 3) / 4)).
  assert (N : (nh <= 4 /\ nw <= 4)%nat) by (unfold nh, nw; Z.to_euclidean_division_equations; lia). clearbody nh nw.
  match goal with |- context [Z.quot ?s 2] => assert (0 <= s <= Z.of_nat nh * 2 ^ 23); [|Z.to_euclidean_division_equations; lia] end.
  refine (for_inv (fun y s => 0 <= s <= y * 2 ^ 23) nh 0 _ 0 _ _); [lia|]. intros y s Hy HS.
  match goal with |- 0 <= ?r <= _ => assert (s <= r <= s + Z.of_nat nw * 2 ^ 21); [|lia] end.
  refine (for_inv (fun x r => s <= r <= s + x * 2 ^ 21) nw 0 _ s _ _); [lia|]. intros x r Hx HR.
  match goal with |- _ <= satd_4x4 ?t ?a ?b ?c ?d ?e <= _ => pose proof (satd_4x4_bound t a b c d e) end. lia.
Qed.
Lemma mbcmp_init_reads tmp b_lossless i_subpel_refine i_me_method : cmp_reads (mbcmp_init tmp b_lossless i_subpel_refine i_me_method).2.
Proof. unfold mbcmp_init. cbn [snd]. case_match; [apply satd_reads|apply sad_reads]. Qed.

(** ** The best candidate so far

    What a step of a search by the cost [cost] may make of the best candidate. *)
Definition kept (cost : Z -> Z -> Z) (b r : best) : Prop := r = b \/ bcost r < bcost b /\ bcost r = cost (bmx r) (bmy r).
Definition keeps (cost : Z -> Z -> Z) (f : best -> best) : Prop := forall b, kept cost b (f b).
Section Kept.
Context (cost : Z -> Z -> Z).
Lemma kept_refl b : kept cost b b.
Proof. by left. Qed.
Lemma kept_trans a b c : kept cost a b -> kept cost b c -> kept cost a c.
Proof. intros [->|[L1 E1]] [->|[L2 E2]]; [by left|by right|by right|right]. split; [lia|done]. Qed.
Lemma kept_le b r : kept cost b r -> bcost r <= bcost b.
Proof. intros [->|[L _]]; lia. Qed.
Lemma kept_cost b r : kept cost b r -> bcost b = cost (bmx b) (bmy b) -> bcost r = cost (bmx r) (bmy r).
Proof. by intros [->|[_ E]]. Qed.
(** A step after others. *)
Lemma keeps_after f b0 b : keeps cost f -> kept cost b0 b -> kept cost b0 (f b).
Proof. intros Hf H. by eapply kept_trans. Qed.
Lemma keeps_COPY3 mx my c : c = cost mx my -> keeps cost (COPY3_IF_LT c mx my).
Proof. intros -> b. unfold COPY3_IF_LT. destruct (Z.ltb_spec (cost mx my) (bcost b)); [by right|by left]. Qed.
Lemma for_keeps n i (f : Z -> best -> best) : (forall i, keeps cost (f i)) -> keeps cost (for_ n i f).
Proof. intros Hf. revert i. induction n as [|n IH]; intros i b; [apply kept_refl|]. simpl. eapply kept_trans; [apply Hf|apply IH]. Qed.
Lemma keeps_fold {A} (f : best -> A -> best) l : (forall a, keeps cost (fun b => f b a)) -> keeps cost (fold_left f l).
Proof. intros Hf. induction l as [|a l IH]; intros b; [apply kept_refl|]. simpl. eapply kept_trans; [apply (Hf a)|apply IH]. Qed.
Lemma kept_if (c : bool) b0 b1 b2 : kept cost b0 b1 -> kept cost b0 b2 -> kept cost b0 (if c then b1 else b2).
Proof. by destruct c. Qed.
End Kept.

(** ** Whole samples *)
Section Fpel.
Context (h : me_ctx) (m : me_t).
Hypothesis Hreads : cmp_reads (h_fpelcmp h).
Local Abbreviation stride := (m_i_stride m 0).
Definition fpel_cost (mx my : Z) : Z := fpelcmp h m (ptr (m_p_fref m 0) (my * stride + mx)) + BITS_MVD m mx my.
Local Abbreviation fkept := (kept fpel_cost).
Local Abbreviation fkeeps := (keeps fpel_cost).

Lemma keeps_COST_MV mx my : fkeeps (COST_MV h m mx my).
Proof. by apply keeps_COPY3. Qed.
Lemma costs_x_cons omx omy x y l : costs_x h m omx omy ((x, y) :: l) = fpel_cost (omx + x) (omy + y) :: costs_x h m omx omy l.
Proof.
  unfold costs_x, cmp_x. cbn [map zip_with]. f_equal. unfold fpel_cost, fpelcmp. f_equal.
  apply Hreads. intros a. unfold ptr. f_equal. lia.
Qed.
Lemma keeps_X4 omx omy l : fkeeps (COST_MV_X4 h m omx omy l).
Proof.
  unfold COST_MV_X4. induction l as [|[x y] l IH]; intros b; [apply kept_refl|]. rewrite costs_x_cons. cbn [zip zip_with fold_left].
  eapply kept_trans; [by apply keeps_COPY3|apply IH].
Qed.

(** ** The methods *)
Lemma keeps_X4_after omx omy l b0 b : fkept b0 b -> fkept b0 (COST_MV_X4 h m omx omy l b).
Proof. apply keeps_after, keeps_X4. Qed.
Lemma keeps_MV_after mx my b0 b : fkept b0 b -> fkept b0 (COST_MV h m mx my b).
Proof. apply keeps_after, keeps_COST_MV. Qed.
(** The candidates one by one; [tac] for the other steps. *)
Ltac keeping tac :=
  repeat match goal with
  | |- kept _ _ (if _ then _ else _) => apply kept_if
  | |- kept _ _ (COST_MV_X4 _ _ _ _ _ _) => apply keeps_X4_after
  | |- kept _ _ (COST_MV _ _ _ _ _) => apply keeps_MV_after
  | |- kept _ ?b ?b => apply kept_refl
  | _ => progress tac
  end.

Lemma keeps_dia n : fkeeps (dia_loop h m n).
Proof.
  induction n as [|n IH]; intros b; [apply kept_refl|]. cbn [dia_loop]. unfold DIA1_ITER.
  keeping idtac. apply keeps_after; [exact IH|keeping idtac].
Qed.
Lemma keeps_CROSS start x_max y_max omx omy : fkeeps (CROSS h m start x_max y_max omx omy).
Proof.
  intros b. unfold CROSS, CROSS_y, CROSS_x. cbv zeta.
  repeat (apply keeps_after; [apply for_keeps; intros i b'; cbv zeta; keeping idtac|]). apply kept_refl.
Qed.

(** The hexagon: the best of several directions. *)
Lemma best_dir_spec costs dirs c0 d0 c d : best_dir costs dirs (c0, d0) = (c, d) -> (c, d) = (c0, d0) \/ c < c0 /\ (c, d) ∈ zip costs dirs.
Proof.
  unfold best_dir. revert c0 d0. induction (zip costs dirs) as [|[c1 d1] l IH]; intros c0 d0; cbn [fold_left]; [intros [= <- <-]; by left|].
  destruct (Z.ltb_spec c1 c0); intros E; apply IH in E as [[= -> ->]|[L E]].
  - right. split; [done|apply list_elem_of_here].
  - right. split; [lia|by apply list_elem_of_further].
  - by left.
  - right. split; [done|by apply list_elem_of_further].
Qed.
Lemma elem_of_costs c d dirs omx omy : (c, d) ∈ zip (costs_x h m omx omy (map (fun d => mv_at hex2 (d + 1)) dirs)) dirs ->
  d ∈ dirs /\ c = fpel_cost (omx + (mv_at hex2 (d + 1)).1) (omy + (mv_at hex2 (d + 1)).2).
Proof.
  induction dirs as [|d1 dirs IH]; cbn [map]; [intros H; by apply elem_of_nil in H|]. destruct (mv_at hex2 (d1 + 1)) as [x y] eqn:E.
  rewrite costs_x_cons. cbn [zip zip_with]. intros [[= -> ->]|H]%elem_of_cons.
  - split; [apply list_elem_of_here|by rewrite E].
  - destruct (IH H). split; [by apply list_elem_of_further|done].
Qed.
Lemma best_dir_kept b vs dirs cost dir : vs = map (fun d => mv_at hex2 (d + 1)) dirs -> Forall (fun d => d <> -2) dirs ->
  best_dir (costs_x h m (bmx b) (bmy b) vs) dirs (bcost b, -2) = (cost, dir) -> dir <> -2 -> fkept b (move b cost dir).
Proof.
  intros -> HD E Hn. apply best_dir_spec in E as [[= _ ->]|[L E]]; [done|]. apply elem_of_costs in E as [_ E].
  unfold move. destruct (mv_at hex2 (dir + 1)) as [dx dy]. right. cbn [bcost bmx bmy]. by split.
Qed.
Lemma mod6m1_range i : 0 <= tbl mod6m1 i.
Proof. unfold tbl. destruct (Z.to_nat i) as [|[|[|[|[|[|[|[|n]]]]]]]]; cbn; try lia. by destruct n. Qed.
Lemma keeps_hex_loop n dir : fkeeps (hex_loop h m n dir).
Proof.
  revert dir. induction n as [|n IH]; intros dir b; [apply kept_refl|]. cbn [hex_loop]. cbv zeta.
  apply kept_if; [apply kept_refl|]. pose proof (mod6m1_range (dir + 1)) as Ho. set (o := tbl mod6m1 (dir + 1)) in *. clearbody o.
  destruct (best_dir _ _ _) as [cost dir'] eqn:E. destruct (Z.eqb_spec dir' (-2)) as [|Hn]; [apply kept_refl|].
  apply keeps_after; [apply IH|]. eapply best_dir_kept; [| |exact E|exact Hn].
  - cbn [map]. by replace (o - 1 + 1) with o by lia; replace (o + 1 + 1) with (o + 2) by lia.
  - repeat constructor; lia.
Qed.
Lemma keeps_hex2 i_me_range : fkeeps (me_hex2 h m i_me_range).
Proof.
  intros b. unfold me_hex2. cbv zeta.
  change (costs_x h m (bmx b) (bmy b) [(-2, 0); (-1, 2); (1, 2)] ++ costs_x h m (bmx b) (bmy b) [(2, 0); (1, -2); (-1, -2)])
    with (costs_x h m (bmx b) (bmy b) [(-2, 0); (-1, 2); (1, 2); (2, 0); (1, -2); (-1, -2)]).
  destruct (best_dir _ _ _) as [cost dir] eqn:E. do 2 apply keeps_X4_after.
  destruct (Z.eqb_spec dir (-2)) as [|Hn]; cbn [negb]; [apply kept_refl|]. apply keeps_after; [apply keeps_hex_loop|].
  eapply best_dir_kept; [| |exact E|exact Hn]; [done|]. repeat constructor; lia.
Qed.
Lemma keeps_hex_grid omx omy i : fkeeps (hex_grid_round h m omx omy i).
Proof.
  intros b. unfold hex_grid_round. cbv zeta. apply kept_if; [|keeping idtac].
  apply keeps_after; [apply keeps_fold; intros [x y] b'; keeping idtac|apply kept_refl].
Qed.
Lemma keeps_umh_cross mvc start i_me_range omx omy : fkeeps (umh_cross h m mvc start i_me_range omx omy).
Proof.
  intros b. unfold umh_cross. cbv zeta. set (b1 := COST_MV_X4 h m omx omy _ _). assert (H1 : fkept b b1) by (apply keeps_X4_after, keeps_CROSS).
  assert (H2 : fkept b (for_ (Z.to_nat (Z.max 1 (umh_range m mvc i_me_range b ÷ 4))) 1 (hex_grid_round h m (bmx b1) (bmy b1)) b1)).
  { apply keeps_after; [apply for_keeps; intros; apply keeps_hex_grid|done]. }
  apply kept_if; [apply keeps_after; [apply keeps_hex2|done]|done].
Qed.
Lemma keeps_umh mvc px py i_me_range : fkeeps (me_umh h m mvc px py i_me_range).
Proof.
  intros b. unfold me_umh, DIA1_ITER. cbv zeta.
  keeping ltac:(idtac; match goal with
  | |- kept _ _ (umh_cross _ _ _ _ _ _ _ _) => apply keeps_after; [apply keeps_umh_cross|]
  | |- kept _ _ (CROSS _ _ _ _ _ _ _ _) => apply keeps_after; [apply keeps_CROSS|]
  | |- kept _ _ (me_hex2 _ _ _ _) => apply keeps_after; [apply keeps_hex2|]
  end).
Qed.

Lemma keeps_esa_row e my : fkeeps (esa_row h m e my).
Proof.
  intros b. unfold esa_row. cbv zeta. apply kept_if; [apply kept_refl|]. set (d := p_cost_mvy m (my << 2)). set (xs := esa_ads _ _ _ _).
  pose proof (esa_x3_row h m d (e_min_x e) my xs (Best (bcost b - d) (bmx b) (bmy b)) eq_refl) as R. destruct (esa_x3 _ _ _ _ _ _) as [b' rest].
  change (Best (bcost b' + d) (bmx b') (bmy b')) with (shift_cost d b'). rewrite R.
  replace (shift_cost d (Best (bcost b - d) (bmx b) (bmy b))) with b by (destruct b; unfold shift_cost; cbn; f_equal; lia).
  apply keeps_fold. intros x b''. apply keeps_COST_MV.
Qed.
Lemma keeps_esa i_me_range : fkeeps (me_esa h m i_me_range).
Proof. intros b. unfold me_esa. cbv zeta. apply for_keeps. intros my. apply keeps_esa_row. Qed.
Lemma keeps_tesa i_me_range : fkeeps (me_tesa h m i_me_range).
Proof.
  intros b. unfold me_tesa. cbv zeta. destruct (for_ _ _ _ _) as [bsad mvsads]. apply keeps_fold. intros c b'. apply keeps_COST_MV.
Qed.
(** Every method ends with the start or with a candidate of a lower cost, that is its own. *)
Lemma keeps_search_fpel mvc : fkeeps (search_fpel h m mvc).
Proof.
  intros b. unfold search_fpel, me_dia. cbv zeta.
  case_match; [apply keeps_dia|]. case_match; [apply keeps_hex2|]. case_match; [apply keeps_umh|]. case_match; [apply keeps_esa|].
  case_match; [apply keeps_tesa|apply kept_refl].
Qed.
End Fpel.

(** ** Half and quarter samples *)
Section Refine.
Context (h : me_ctx) (m : me_t) (pix : mem).
(** The cost of a vector: the luma and, where chroma takes part, the chroma differences to
    the interpolated blocks, and what the difference to the predicted vector costs. *)
Definition luma_cost (mx my : Z) : Z :=
  let '(src, stride) := get_ref pix 16 (m_p_fref m) (m_i_stride m 0) mx my (Z.to_nat (bw m)) (Z.to_nat (bh m)) in
  h_mbcmp_unaligned h (m_i_pixel m) (m_p_fenc m 0) FENC_STRIDE src stride + p_cost_mvx m mx + p_cost_mvy m my.
Definition chroma_cost (i mx my : Z) : Z :=
  h_mbcmp h (m_i_pixel m + 3) (m_p_fenc m i) FENC_STRIDE
    (mc_chroma pix 0 8 (m_p_fref m (i + 3)) (m_i_stride m 1) mx my (Z.to_nat (Z.quot (bw m) 2)) (Z.to_nat (Z.quot (bh m) 2))) 8.
Definition vector_cost (mx my : Z) : Z :=
  luma_cost mx my + (if b_chroma_me h m then chroma_cost 1 mx my + chroma_cost 2 mx my else 0).

Context (tmp : mem).
Hypothesis Hunaligned : h_mbcmp_unaligned h = pixf_satd tmp.
Hypothesis Hmbcmp : h_mbcmp h = pixf_satd tmp.
Hypothesis Hcost : forall v, - 2 ^ 15 <= m_p_cost_mv m v < 2 ^ 15.

Lemma vector_cost_bound mx my : vector_cost mx my < COST_MAX.
Proof.
  unfold vector_cost, luma_cost, chroma_cost. rewrite Hunaligned, Hmbcmp. destruct (get_ref _ _ _ _ _ _ _ _) as [src s].
  pose proof (Hcost (mx - (m_mvp m).1)). pose proof (Hcost (my - (m_mvp m).2)). unfold p_cost_mvx, p_cost_mvy.
  change COST_MAX with (2 ^ 28). repeat match goal with |- context [pixf_satd ?a ?b ?c ?d ?e ?f] => lazymatch goal with H : 0 <= pixf_satd a b c d e f <= _ |- _ => fail | _ => pose proof (satd_bound a b c d e f) end end.
  destruct (b_chroma_me h m); lia.
Qed.
(** The early exits between luma and chroma lose nothing. *)
Lemma COST_MV_SATD_spec b_refine_qpel odir mx my dir b bdir : COST_MV_SATD h m pix b_refine_qpel odir mx my dir (b, bdir) =
  if (b_refine_qpel || negb ((dir .^ 1) =? odir)) && (vector_cost mx my <? bcost b) then (Best (vector_cost mx my) mx my, dir) else (b, bdir).
Proof.
  unfold COST_MV_SATD. destruct (b_refine_qpel || _); [|done]. rewrite andb_true_l.
  assert (C : forall i, 0 <= chroma_cost i mx my) by (intros i; unfold chroma_cost; rewrite Hmbcmp; apply satd_bound).
  pose proof (C 1) as C1. pose proof (C 2) as C2. clear C. unfold vector_cost, luma_cost. fold (chroma_cost 1 mx my) (chroma_cost 2 mx my).
  destruct (get_ref _ _ _ _ _ _ _ _) as [src s]. set (l := h_mbcmp_unaligned h _ _ _ _ _ + _ + _). clearbody l.
  change (h_mbcmp h (m_i_pixel m + 3) (m_p_fenc m 1) FENC_STRIDE _ 8) with (chroma_cost 1 mx my).
  change (h_mbcmp h (m_i_pixel m + 3) (m_p_fenc m 2) FENC_STRIDE _ 8) with (chroma_cost 2 mx my).
  destruct (b_chroma_me h m); rewrite ?andb_true_l, ?andb_false_l; [|by rewrite Z.add_0_r].
  destruct (Z.ltb_spec l (bcost b)); [destruct (Z.ltb_spec (l + chroma_cost 1 mx my) (bcost b))|];
    repeat match goal with |- context [?x <? ?y] => destruct (Z.ltb_spec x y) end; try lia; try done.
  by rewrite Z.add_assoc.
Qed.
Lemma SATD_step b_refine_qpel odir mx my dir st : let st' := COST_MV_SATD h m pix b_refine_qpel odir mx my dir st in
  kept vector_cost st.1 st'.1 /\ (st'.2 = st.2 \/ st'.2 = dir).
Proof.
  destruct st as [b bdir]. cbv zeta. rewrite COST_MV_SATD_spec. destruct (_ && _) eqn:E; cbn [fst snd]; [|split; [apply kept_refl|by left]].
  apply andb_prop in E as [_ E%Z.ltb_lt]. split; [by right|by right].
Qed.
Lemma SATD_again b_refine_qpel odir mx my bdir : -1 <= odir ->
  (COST_MV_SATD h m pix b_refine_qpel odir mx my (-1) (Best COST_MAX mx my, bdir)).1 = Best (vector_cost mx my) mx my.
Proof.
  intros Ho. rewrite COST_MV_SATD_spec. cbn [bcost]. destruct (Z.ltb_spec (vector_cost mx my) COST_MAX); [|pose proof (vector_cost_bound mx my); lia].
  change (-1 .^ 1) with (-2). destruct (Z.eqb_spec (-2) odir); [lia|]. cbn [negb]. by rewrite orb_true_r.
Qed.
Lemma qpel_loop_kept b_refine_qpel n odir st : -1 <= odir -> -1 <= st.2 ->
  let '(odir', (b', bdir')) := qpel_loop h m pix b_refine_qpel n odir st in kept vector_cost st.1 b' /\ -1 <= odir'.
Proof.
  revert odir st. induction n as [|n IH]; intros odir [b bdir] Ho Hb; cbn [fst snd] in *; [split; [apply kept_refl|done]|]. cbn [qpel_loop fst snd]. cbv zeta.
  set (s1 := COST_MV_SATD h m pix b_refine_qpel bdir (bmx b) (bmy b - 1) 0 (b, bdir)). set (s2 := COST_MV_SATD _ _ _ _ _ _ _ 1 s1).
  set (s3 := COST_MV_SATD _ _ _ _ _ _ _ 2 s2). set (s4 := COST_MV_SATD _ _ _ _ _ _ _ 3 s3).
  destruct (SATD_step b_refine_qpel bdir (bmx b) (bmy b - 1) 0 (b, bdir)) as [K1 D1]. destruct (SATD_step b_refine_qpel bdir (bmx b) (bmy b + 1) 1 s1) as [K2 D2].
  destruct (SATD_step b_refine_qpel bdir (bmx b - 1) (bmy b) 2 s2) as [K3 D3]. destruct (SATD_step b_refine_qpel bdir (bmx b + 1) (bmy b) 3 s3) as [K4 D4].
  fold s1 in K1, D1. fold s2 in K2, D2. fold s3 in K3, D3. fold s4 in K4, D4. cbn [fst snd] in K1, D1.
  assert (K : kept vector_cost b s4.1) by eauto using kept_trans. assert (D : -1 <= s4.2) by lia. clearbody s4. clear - IH K D Ho Hb.
  destruct ((bmx s4.1 =? bmx b) && (bmy s4.1 =? bmy b)).
  - destruct s4 as [b4 d4]. by split.
  - pose proof (IH bdir s4 Hb D) as R. destruct (qpel_loop _ _ _ _ _ _ _) as [odir' [b' bdir']]. destruct R as [R1 R2]. split; [|done]. by eapply kept_trans.
Qed.

(** What the refinement reports: a vector in the range, with its cost, that is not worse
    than the best in half samples, unless the range cut it. *)
Local Abbreviation max_y := (mv_max_spel (h_mv_y h)).
Definition refined (hx hy : Z) (o : me_out) : Prop := exists mx my, my <= max_y /\
  o = MeOut (p_cost_mvx m mx + p_cost_mvy m my) (vector_cost mx my) (s16 mx, s16 my) /\ (vector_cost mx my <= vector_cost hx hy \/ my = max_y).
(** With the threshold that is shared by the references of a block: one that is
    much worse is given up. *)
Definition reported (hx hy : Z) (thresh : option Z) (o : me_out) (thresh' : option Z) : Prop :=
  match thresh with
  | Some t =>
      if (vector_cost hx hy * 7) >> 3 >? t then o_cost o = vector_cost hx hy /\ o_mv o = (s16 hx, s16 hy) /\ thresh' = Some t
      else refined hx hy o /\ thresh' = Some (Z.min (vector_cost hx hy) t)
  | None => refined hx hy o /\ thresh' = None
  end.
Lemma refine_subpel_reports pix1 hpel qpel thresh o : exists hx hy, hy <= max_y /\
  let '(o', thresh') := refine_subpel h m pix pix1 hpel qpel thresh false o in reported hx hy thresh o' thresh'.
Proof.
  unfold refine_subpel. cbv zeta. set (hb := hpel_loop _ _ _ _ _ _). clearbody hb. cbn [negb].
  set (hy := if bmy hb >? max_y then max_y else bmy hb). exists (bmx hb), hy.
  split; [unfold hy; destruct (Z.gtb_spec (bmy hb) max_y); lia|]. rewrite SATD_again by done.
  assert (R : forall thresh', let '(odir, (b, bdir)) := qpel_loop h m pix false (Z.to_nat qpel) (-1) (Best (vector_cost (bmx hb) hy) (bmx hb) hy, -1) in
    let b := if bmy b >? max_y then (COST_MV_SATD h m pix false odir (bmx b) max_y (-1) (Best COST_MAX (bmx b) max_y, bdir)).1 else b in
    let '(o', t') := (MeOut (p_cost_mvx m (bmx b) + p_cost_mvy m (bmy b)) (bcost b) (s16 (bmx b), s16 (bmy b)), thresh' : option Z) in
    refined (bmx hb) hy o' /\ t' = thresh').
  { intros thresh'. set (b0 := Best (vector_cost (bmx hb) hy) (bmx hb) hy). pose proof (qpel_loop_kept false (Z.to_nat qpel) (-1) (b0, -1) ltac:(lia) ltac:(cbn; lia)) as Q.
    destruct (qpel_loop _ _ _ _ _ _ _) as [odir [b bdir]]. destruct Q as [K Ho]. cbn [fst] in K.
    pose proof (kept_le _ _ _ K) as KL. pose proof (kept_cost _ _ _ K eq_refl) as KE. cbn [bcost b0] in KL. cbv zeta. split; [|done]. unfold refined.
    destruct (Z.gtb_spec (bmy b) max_y) as [G|G].
    - rewrite SATD_again by done. cbn [bcost bmx bmy]. exists (bmx b), max_y. split; [lia|]. split; [done|by right].
    - exists (bmx b), (bmy b). split; [lia|]. rewrite <- KE. split; [done|by left]. }
  unfold reported. cbn [bcost bmx bmy]. destruct thresh as [t|].
  - destruct (_ >? t); [by cbn|]. specialize (R (Some (if vector_cost (bmx hb) hy <? t then vector_cost (bmx hb) hy else t))). 
    destruct (qpel_loop _ _ _ _ _ _ _) as [odir [b bdir]]. cbv zeta in R. destruct R as [R _]. split; [exact R|]. f_equal. destruct (Z.ltb_spec (vector_cost (bmx hb) hy) t); lia.
  - specialize (R None). destruct (qpel_loop _ _ _ _ _ _ _) as [odir [b bdir]]. cbv zeta in R. by destruct R as [R _].
Qed.
End Refine.

(** ** The search of a block *)
Record me_ready (h : me_ctx) (m : me_t) (tmp : mem) : Prop := {
  mr_cmp : (h_mbcmp h, h_mbcmp_unaligned h, h_fpelcmp h) = mbcmp_init tmp false (h_i_subpel_refine h) (h_i_me_method h);
  mr_cost : exists i_lambda raw, 0 <= i_lambda <= 1000 /\ (forall v, - 2 ^ 15 <= raw v < 2 ^ 15) /\ m_p_cost_mv m = load_cost_mv i_lambda raw;
  mr_mvp : -8192 <= (m_mvp m).1 <= 8192 /\ -8192 <= (m_mvp m).2 <= 8192;
  mr_samples : bytes_ok (m_p_fenc m 0) /\ bytes_ok (m_p_fref m 0);
  mr_range_x : -2048 <= mv_min_fpel (h_mv_x h) <= mv_max_fpel (h_mv_x h) /\ mv_max_fpel (h_mv_x h) < 2048;
  mr_range_y : -2048 <= mv_min_fpel (h_mv_y h) <= mv_max_fpel (h_mv_y h) /\ mv_max_fpel (h_mv_y h) < 2048
}.
(** In the comparison of candidates of whole samples the rounded prediction is charged
    nothing for its vector. *)
Definition candidate_score (h : me_ctx) (m : me_t) (mx my : Z) : Z :=
  fpel_cost h m mx my - (if (mx =? pmx h m) && (my =? pmy h m) then BITS_MVD m mx my else 0).

Lemma sad_bound i p1 s1 p2 s2 : bytes_ok p1 -> bytes_ok p2 -> 0 <= pixf_sad i p1 s1 p2 s2 <= 2 ^ 16.
Proof.
  intros B1 B2. unfold pixf_sad, pixel_size. destruct (nth (Z.to_nat i) x264_pixel_size (0, 0)) as [w h] eqn:E. apply pixel_size_bound in E as [Hw Hh].
  unfold pixel_sad. change (2 ^ 16) with (16 * 4096). assert (N : (Z.to_nat h <= 16 /\ Z.to_nat w <= 16)%nat) by lia. set (nh := Z.to_nat h) in *. set (nw := Z.to_nat w) in *. clearbody nh nw.
  match goal with |- 0 <= ?s <= _ => assert (0 <= s <= Z.of_nat nh * 4096); [|lia] end.
  refine (for_inv (fun y s => 0 <= s <= y * 4096) nh 0 _ 0 _ _); [lia|]. intros y s Hy HS.
  match goal with |- 0 <= ?r <= _ => assert (s <= r <= s + Z.of_nat nw * 256); [|lia] end.
  refine (for_inv (fun x r => s <= r <= s + x * 256) nw 0 _ s _ _); [lia|]. intros x r Hx HR.
  pose proof (B1 (y * s1 + x)). pose proof (B2 (y * s2 + x)). lia.
Qed.
Lemma clip_between v lo hi : lo <= hi -> lo <= x264_clip3 v lo hi <= hi.
Proof. intros H. unfold x264_clip3. destruct (Z.ltb_spec v lo), (Z.gtb_spec v hi); lia. Qed.
Lemma rounded_range v lo hi : lo <= hi -> lo <= (x264_clip3 v (lo * 4) (hi * 4) + 2) >> 2 <= hi.
Proof.
  intros H. pose proof (clip_between v (lo * 4) (hi * 4) ltac:(lia)). rewrite Z.shiftr_div_pow2 by lia. change (2 ^ 2) with 4. Z.to_euclidean_division_equations; lia.
Qed.

Section Search.
Context (h : me_ctx) (m : me_t) (tmp : mem).
Hypothesis ready : me_ready h m tmp.
Lemma ready_reads : cmp_reads (h_fpelcmp h).
Proof.
  pose proof (mr_cmp _ _ _ ready) as E. pose proof (mbcmp_init_reads tmp false (h_i_subpel_refine h) (h_i_me_method h)) as R. rewrite <- E in R. exact R.
Qed.
Lemma costs_fit v : - 2 ^ 15 <= m_p_cost_mv m v < 2 ^ 15.
Proof.
  destruct (mr_cost _ _ _ ready) as (i_lambda & raw & _ & Hr & ->). revert v. unfold load_cost_mv. cbv zeta.
  refine (for_inv (fun _ t => forall v, - 2 ^ 15 <= t v < 2 ^ 15) _ 0 _ raw Hr _). intros i t _ Ht v.
  assert (R : forall z, - 2 ^ 15 <= s16 z < 2 ^ 15) by (intros z; exact (sw_range 16 z ltac:(lia))).
  destruct (Z.eq_dec v (- i)) as [->|]; [rewrite upd_eq; apply R|rewrite upd_ne by done]. destruct (Z.eq_dec v i) as [->|]; [rewrite upd_eq; apply R|by rewrite upd_ne].
Qed.
Lemma p_range : -2048 <= pmx h m < 2048 /\ -2048 <= pmy h m < 2048.
Proof.
  destruct (mr_range_x _ _ _ ready), (mr_range_y _ _ _ ready). unfold pmx, pmy, mvp_x, mvp_y.
  pose proof (rounded_range (m_mvp m).1 (mv_min_fpel (h_mv_x h)) (mv_max_fpel (h_mv_x h))). pose proof (rounded_range (m_mvp m).2 (mv_min_fpel (h_mv_y h)) (mv_max_fpel (h_mv_y h))). lia.
Qed.
Lemma bits_p : 0 <= BITS_MVD m (pmx h m) (pmy h m) < 2 ^ 16.
Proof.
  destruct p_range as [P1 P2], (mr_mvp _ _ _ ready) as [M1 M2], (mr_cost _ _ _ ready) as (i_lambda & raw & Hl & _ & E).
  unfold BITS_MVD, p_cost_mvx, p_cost_mvy. rewrite E, !Z.shiftl_mul_pow2 by lia. change (2 ^ 2) with 4. rewrite !load_cost_mv_at by lia.
  pose proof (cost_mv_bound i_lambda (pmx h m * 4 - (m_mvp m).1) Hl ltac:(lia)). pose proof (cost_mv_bound i_lambda (pmy h m * 4 - (m_mvp m).2) Hl ltac:(lia)). lia.
Qed.
Lemma score_p : candidate_score h m (pmx h m) (pmy h m) = fpel_cost h m (pmx h m) (pmy h m) - BITS_MVD m (pmx h m) (pmy h m).
Proof. unfold candidate_score. by rewrite !Z.eqb_refl. Qed.
(** Later candidates are charged in full. *)
Lemma kept_score b r : kept (fpel_cost h m) b r -> bcost b = candidate_score h m (bmx b) (bmy b) -> bcost b <= candidate_score h m (pmx h m) (pmy h m) ->
  bcost r = candidate_score h m (bmx r) (bmy r).
Proof.
  intros [->|[L E]] Eb Lb; [done|]. unfold candidate_score in *. destruct (Z.eqb_spec (bmx r) (pmx h m)) as [Ex|], (Z.eqb_spec (bmy r) (pmy h m)) as [Ey|]; cbn [andb]; try lia.
  rewrite !Z.eqb_refl in Lb. cbn [andb] in Lb. rewrite Ex, Ey in *. pose proof bits_p. lia.
Qed.
Lemma search_start_score pix mvc : h_i_subpel_refine h < 2 -> let '(b, bpred) := search_start h m pix mvc in
  bcost b = candidate_score h m (bmx b) (bmy b) /\ bcost b <= candidate_score h m (pmx h m) (pmy h m) /\ bcost b <= candidate_score h m 0 0 /\ bcost b < COST_MAX /\ bcost bpred = COST_MAX.
Proof.
  intros Hs. unfold search_start. cbv zeta. destruct (Z.geb_spec (h_i_subpel_refine h) 3); [lia|].
  assert (EF : h_fpelcmp h = pixf_sad).
  { pose proof (mr_cmp _ _ _ ready) as E. unfold mbcmp_init in E. destruct (Z.gtb_spec (h_i_subpel_refine h) 1); [lia|]. cbn in E. by injection E. }
  destruct (mr_samples _ _ _ ready) as [Be Br]. pose proof bits_p as HB.
  assert (HP : 0 <= fpel_cost h m (pmx h m) (pmy h m) - BITS_MVD m (pmx h m) (pmy h m) <= 2 ^ 16).
  { unfold fpel_cost, fpelcmp. rewrite EF. pose proof (sad_bound (m_i_pixel m) (m_p_fenc m 0) FENC_STRIDE (ptr (m_p_fref m 0) (pmy h m * m_i_stride m 0 + pmx h m)) (m_i_stride m 0) Be (fun a => Br _)). lia. }
  assert (EP : COST_MV h m (pmx h m) (pmy h m) (Best COST_MAX (mvp_x h m) (mvp_y h m)) = Best (fpel_cost h m (pmx h m) (pmy h m)) (pmx h m) (pmy h m)).
  { unfold COST_MV, COPY3_IF_LT. cbn [bcost]. fold (fpel_cost h m (pmx h m) (pmy h m)). change COST_MAX with (2 ^ 28). destruct (Z.ltb_spec (fpel_cost h m (pmx h m) (pmy h m)) (2 ^ 28)); [done|lia]. }
  rewrite EP. cbn [bcost bmx bmy]. rewrite <- score_p in HP |- *. set (b0 := Best (candidate_score h m (pmx h m) (pmy h m)) (pmx h m) (pmy h m)).
  assert (K : kept (fpel_cost h m) b0 (try_mvc_fpel h m mvc b0)).
  { apply keeps_fold. intros [x y] b. apply kept_if; [apply keeps_COST_MV|apply kept_refl]. }
  set (b1 := try_mvc_fpel h m mvc b0) in *. clearbody b1. pose proof (keeps_COST_MV h m 0 0 b1) as K0. pose proof (kept_trans _ _ _ _ K K0) as K2.
  pose proof (kept_le _ _ _ K2) as L2. cbn [bcost b0] in L2. change COST_MAX with (2 ^ 28). split; [|split; [|split; [|split; [lia|done]]]]; [apply (kept_score _ _ K2); [done|cbn; lia]|done|].
  assert (L0 : bcost (COST_MV h m 0 0 b1) <= fpel_cost h m 0 0).
  { unfold COST_MV, COPY3_IF_LT. fold (fpel_cost h m 0 0). destruct (Z.ltb_spec (fpel_cost h m 0 0) (bcost b1)); cbn [bcost]; lia. }
  destruct (Z.eq_dec 0 (pmx h m)) as [Ex|N]; [destruct (Z.eq_dec 0 (pmy h m)) as [Ey|N]|].
  - rewrite <- Ex, <- Ey in L2. exact L2.
  - unfold candidate_score. destruct (Z.eqb_spec 0 (pmy h m)); [done|]. rewrite andb_false_r. lia.
  - unfold candidate_score. destruct (Z.eqb_spec 0 (pmx h m)); [done|]. cbn [andb]. lia.
Qed.

End Search.

(** ** A moved bowl *)
Definition bowl (x y : Z) : Z := Z.min 255 ((x - 5) * (x - 5) + (y - 6) * (y - 6)).
Definition sample_ref (a : Z) : Z := bowl ((a + 32) mod 64 - 32) ((a + 32) / 64).
Definition sample_fenc (a : Z) : Z := bowl (a mod FENC_STRIDE + 3) (a / FENC_STRIDE - 2).
Definition sample_range : mv_range := MvRange (-64) 64 (-64) 64 (-16) 16.
Definition sample_search (i_subpel_refine i_me_method : Z) : me_ctx :=
  let '(mbcmp, mbcmp_unaligned, fpelcmp) := mbcmp_init (fun _ => 0) false i_subpel_refine i_me_method in
  MeCtx i_me_method 16 i_subpel_refine true true sample_range sample_range 64 mbcmp mbcmp_unaligned fpelcmp (fun _ _ => 0).
Definition sample_block : me_t :=
  Me PIXEL_8x8 (load_cost_mv 2 (fun _ => 0)) 0 (fun _ => sample_ref) (fun _ => sample_fenc) (fun _ => 0) (fun _ => 64) (3, 2).
Lemma bowl_byte x y : 0 <= bowl x y < 256.
Proof. unfold bowl. pose proof (Z.square_nonneg (x - 5)). pose proof (Z.square_nonneg (y - 6)). lia. Qed.
Lemma sample_ready i_subpel_refine i_me_method : me_ready (sample_search i_subpel_refine i_me_method) sample_block (fun _ => 0).
Proof.
  split; [by unfold sample_search, mbcmp_init|exists 2, (fun _ => 0); split; [lia|by split]|cbn; lia|split; intros a; apply bowl_byte|cbn; lia..].
Qed.
