(* ===== verification/Nal.v ===== *)
(** * NAL units: encapsulation and the byte stream of x264 (common/common.c,
    encoder/encoder.c, x264.c, muxers.c)

    The encoder cuts its bitstream into units ([x264_nal_start], [x264_nal_end]);
    the application encodes each into a buffer, with a start code and emulation
    prevention ([x264_nal_encode]), and appends it to the file ([Encode_frame]).
    The reader of the standard splits the file at the start codes and removes the
    prevention bytes, and gets back every unit. *)
From S2P Require Import Prelude Bs.

(** ** Data (x264.h) *)
Definition NAL_UNKNOWN := 0.
Definition NAL_SLICE := 1.
Definition NAL_SLICE_DPA := 2.
Definition NAL_SLICE_DPB := 3.
Definition NAL_SLICE_DPC := 4.
Definition NAL_SLICE_IDR := 5.
Definition NAL_SEI := 6.
Definition NAL_SPS := 7.
Definition NAL_PPS := 8.
Definition NAL_AUD := 9.

Definition NAL_PRIORITY_DISPOSABLE := 0.
Definition NAL_PRIORITY_LOW := 1.
Definition NAL_PRIORITY_HIGH := 2.
Definition NAL_PRIORITY_HIGHEST := 3.

Record x264_nal_t := Nal_t {
  i_ref_idc : Z;
  i_type : Z;
  i_payload : Z;
  p_payload : Z
}.

(** The [out] part of [x264_t]. *)
Record out_t := Out_t {
  i_nal : Z;
  nal : Z -> x264_nal_t;
  i_bitstream : Z;
  p_bitstream : Z;
  out_bs : bs_t
}.

Definition set_nal (o : out_t) (i : Z) (n : x264_nal_t) : Z -> x264_nal_t :=
  fun k => if k =? i then n else nal o k.

Section Units.
Context (WORD_SIZE : Z).

Definition x264_nal_start (o : out_t) (i_type i_ref_idc : Z) : out_t :=
  {| i_nal := i_nal o;
     nal := set_nal o (i_nal o)
       {| i_ref_idc := i_ref_idc; i_type := i_type; i_payload := 0;
          p_payload := p_bitstream o + Z.quot (bs_pos WORD_SIZE (out_bs o)) 8 |};
     i_bitstream := i_bitstream o; p_bitstream := p_bitstream o; out_bs := out_bs o |}.

Definition x264_nal_end (o : out_t) : out_t :=
  let n := nal o (i_nal o) in
  {| i_nal := i_nal o + 1;
     nal := set_nal o (i_nal o)
       {| i_ref_idc := i_ref_idc n; i_type := i_type n;
          i_payload := p_bitstream o + Z.quot (bs_pos WORD_SIZE (out_bs o)) 8 - p_payload n;
          p_payload := p_payload n |};
     i_bitstream := i_bitstream o; p_bitstream := p_bitstream o; out_bs := out_bs o |}.

End Units.

(** ** Encoding a unit *)

(** One turn of the copy loop, on the memory, [dst], [src] and [i_count]. *)
Definition nal_copy_step (st : mem * Z * Z * Z) : mem * Z * Z * Z :=
  let '(m, dst, src, i_count) := st in
  let '(m, dst, i_count) :=
    if (i_count =? 2) && (m src <=? 0x03) then (st8 m dst 0x03, dst + 1, 0)
    else (m, dst, i_count) in
  let i_count := if m src =? 0 then i_count + 1 else 0 in
  (st8 m dst (m src), dst + 1, src + 1, i_count).

Definition x264_nal_encode (m : mem) (p_data : Z) (b_annexeb : bool) (nal : x264_nal_t) : mem * Z :=
  let dst := p_data in
  let src := p_payload nal in
  let i_count := 0 in
  let '(m, dst) :=
    if b_annexeb then
      (st8 (st8 (st8 (st8 m dst 0x00) (dst + 1) 0x00) (dst + 2) 0x00) (dst + 3) 0x01, dst + 4)
    else (m, dst) in
  let m := st8 m dst ((0x00 << 7) .| (i_ref_idc nal << 5) .| i_type nal) in
  let dst := dst + 1 in
  let '(m, dst, src, i_count) :=
    for_ (Z.to_nat (i_payload nal)) 0 (fun _ => nal_copy_step) (m, dst, src, i_count) in
  (m, dst - p_data).

(** ** Writing the units of a frame (x264.c) *)
Section Mux.
(** The C library's allocator: the address of the [i]th block, of a given size. *)
Context (memalign : Z -> Z -> Z).
(** [fwrite]: how many of the given bytes reach the file, which holds the others. *)
Context (fwrite : list Z -> list Z -> Z).

Definition x264_malloc (i : Z) (i_size : Z) : Z := memalign i i_size.

(** [fwrite] counts the items of [i_size] bytes that are written whole: one or none. *)
Definition write_nalu_bsf (file : list Z) (m : mem) (p_nalu i_size : Z) : list Z * Z :=
  let bytes := ld_bytes (Z.to_nat i_size) m p_nalu in
  let k := fwrite file bytes in
  (file ++ take (Z.to_nat k) bytes, if (0 <? i_size) && (i_size <=? k) then i_size else -1).
Definition set_eop_bsf (file : list Z) : list Z * Z := (file, 0).

(** The globals [mux_buffer] and [mux_buffer_size], the memory, the file and [i_file]. *)
Record mux_t := Mux_t {
  mux_buffer : Z;
  mux_buffer_size : Z;
  mux_mem : mem;
  mux_file : list Z;
  i_file : Z
}.

Definition mux_nal (nal : Z -> x264_nal_t) (i : Z) (x : mux_t) : mux_t :=
  let '(buffer, size) :=
    if mux_buffer_size x <? Z.quot (i_payload (nal i) * 3) 2 + 4 then
      let size := i_payload (nal i) * 2 + 4 in (x264_malloc i size, size)
    else (mux_buffer x, mux_buffer_size x) in
  let '(m, i_size) := x264_nal_encode (mux_mem x) buffer true (nal i) in
  let '(file, written) := write_nalu_bsf (mux_file x) m buffer i_size in
  {| mux_buffer := buffer; mux_buffer_size := size; mux_mem := m;
     mux_file := file; i_file := i_file x + written |}.

(** [encoded] is what [x264_encoder_encode] left: its result, [i_nal] and [nal].  A
    negative result is reported on the standard error, the second value, and the units
    are muxed nevertheless. *)
Definition Encode_frame (encoded : Z * Z * (Z -> x264_nal_t)) (x : mux_t) : mux_t * bool :=
  let '(result, i_nal, nal) := encoded in
  let failed := result <? 0 in
  let x := for_ (Z.to_nat i_nal) 0 (mux_nal nal) x in
  let x := if negb (i_nal =? 0) then
      let '(file, _) := set_eop_bsf (mux_file x) in
      Mux_t (mux_buffer x) (mux_buffer_size x) (mux_mem x) file (i_file x)
    else x in
  (x, failed).

End Mux.

(** * Reference: the byte stream format of the standard (annex B, 7.3.1) *)

(** The bytes of a payload with the prevention bytes put in after [zeros] zeros. *)
Fixpoint escape (zeros : Z) (l : list Z) : list Z :=
  match l with
  | [] => []
  | b :: l =>
      if (zeros =? 2) && (b <=? 3) then 3 :: b :: escape (if b =? 0 then 1 else 0) l
      else b :: escape (if b =? 0 then zeros + 1 else 0) l
  end.

Definition nal_header (n : x264_nal_t) : Z := u8 ((0x00 << 7) .| (i_ref_idc n << 5) .| i_type n).

Definition nal_bytes (n : x264_nal_t) (payload : list Z) : list Z := nal_header n :: escape 0 payload.

(** [emulation_prevention_three_byte]: the third byte of 0, 0, 3 is dropped. *)
Fixpoint unescape (zeros : Z) (l : list Z) : list Z :=
  match l with
  | [] => []
  | b :: l =>
      if (zeros =? 2) && (b =? 3) then unescape 0 l
      else b :: unescape (if b =? 0 then zeros + 1 else 0) l
  end.

(** [nal_unit]: the forbidden bit, the reference index, the type and the payload. *)
Definition parse_nal (l : list Z) : option (Z * Z * list Z) :=
  match l with
  | [] => None
  | h :: l => if h <? 128 then Some ((h >> 5), h .& 31, unescape 0 l) else None
  end.

(** The bytes of a unit, up to the next start code prefix or three zero bytes. *)
Fixpoint take_nal (l : list Z) : list Z * list Z :=
  match l with
  | 0 :: 0 :: 0 :: _ | 0 :: 0 :: 1 :: _ => ([], l)
  | b :: l => let '(n, r) := take_nal l in (b :: n, r)
  | [] => ([], [])
  end.

(** Leading zero bytes and the start code prefix. *)
Fixpoint skip_start (l : list Z) : option (list Z) :=
  match l with
  | 0 :: (0 :: 1 :: r) => Some r
  | 0 :: l => skip_start l
  | _ => None
  end.

Fixpoint byte_stream (fuel : nat) (l : list Z) : option (list (Z * Z * list Z)) :=
  match l, fuel with
  | [], _ => Some []
  | _, O => None
  | _, S fuel =>
      match skip_start l with
      | None => None
      | Some l =>
          let '(n, l) := take_nal l in
          match parse_nal n, byte_stream fuel l with
          | Some u, Some us => Some (u :: us)
          | _, _ => None
          end
      end
  end.

(** No three bytes of [l], the first [zeros] of them zeros before it, look like a
    start code, and the last byte is not zero. *)
Fixpoint safe (zeros : Z) (l : list Z) : Prop :=
  match l with
  | [] => zeros = 0
  | b :: l =>
      if b =? 0 then zeros < 2 /\ safe (zeros + 1) l
      else (zeros = 2 -> 3 <= b) /\ safe 0 l
  end.

(** ** The reader undoes the writer, on lists *)
Lemma unescape_escape z l : 0 <= z <= 2 -> unescape z (escape z l) = l.
Proof.
  revert z. induction l as [|b l IH]; intros z Hz; [done|]. cbn [escape].
  destruct ((z =? 2) && (b <=? 3)) eqn:E.
  - apply andb_prop in E as [->%Z.eqb_eq _]. cbn [unescape andb Z.eqb Pos.eqb].
    rewrite IH; [done|]. destruct (b =? 0); lia.
  - cbn [unescape]. replace ((z =? 2) && (b =? 3)) with false.
    + rewrite IH; [done|]. destruct (Z.eqb_spec b 0) as [->|]; [|lia].
      rewrite andb_true_r in E. apply Z.eqb_neq in E. lia.
    + symmetry. apply andb_false_iff in E as [E|E]; [by rewrite E|].
      apply andb_false_iff. right. apply Z.leb_gt in E. apply Z.eqb_neq. lia.
Qed.

(** Escaped payloads whose last byte is not zero never look like a start code. *)
Lemma escape_safe z l : 0 <= z <= 2 -> Forall is_byte l -> (l = [] -> z = 0) ->
  list.last l <> Some 0 -> safe z (escape z l).
Proof.
  intros Hz Hb. revert z Hz. induction Hb as [|b l Hb Hl IH]; intros z Hz H0 Hlast; [by apply H0|].
  assert (b = 0 -> l <> []) as Hne by (intros -> ->; by apply Hlast).
  assert (l <> [] -> list.last l <> Some 0) as Hl' by (destruct l; [done|intros _; exact Hlast]).
  assert (forall z', 0 <= z' <= 2 -> (b <> 0 -> z' = 0) -> safe z' (escape z' l)) as IH'.
  { intros z' Hz' Hb'. destruct l as [|c l].
    - apply Hb'. intros ->. by apply Hne.
    - apply IH; [done|done|by apply Hl']. }
  cbn [escape]. destruct (Z.eqb_spec z 2) as [->|Hz2]; destruct (Z.leb_spec b 3) as [H3|H3];
    cbn [andb safe]; destruct (Z.eqb_spec b 0) as [Eb|Eb]; cbn [Z.eqb];
    repeat split; try lia; apply IH'; lia.
Qed.

Lemma take_nal_safe z l rest : (z <= 2)%nat -> safe (Z.of_nat z) l ->
  rest = [] \/ (exists r, rest = 0 :: 0 :: 0 :: r) ->
  take_nal (replicate z 0 ++ l ++ rest) = (replicate z 0 ++ l, rest).
Proof.
  intros Hz Hs Hr. revert z Hz Hs. induction l as [|b l IH]; intros z Hz Hs; cbn [safe] in Hs.
  - destruct z; [|lia]. destruct Hr as [->|[r ->]]; done.
  - destruct (Z.eqb_spec b 0) as [->|Hb].
    + destruct Hs as [H2 Hs]. replace (replicate z 0 ++ (0 :: l) ++ rest)
        with (replicate (S z) 0 ++ l ++ rest) by (rewrite (replicate_S_end z), <- app_assoc; done).
      rewrite IH; [|lia|by rewrite Nat2Z.inj_succ].
      by rewrite (replicate_S_end z), <- app_assoc.
    + destruct Hs as [H3 Hs]. pose proof (IH 0%nat ltac:(lia) Hs) as E. cbn [replicate app] in E.
      assert (take_nal (b :: l ++ rest) = (b :: l, rest)) as E0.
      { cbn [take_nal]. destruct b; [done| |]; by rewrite E. }
      destruct z as [|[|[|z]]]; [..|lia]; cbn [replicate app].
      * exact E0.
      * cbn [take_nal] in *. destruct b; [done| |]; by rewrite E0.
      * assert (3 <= b) as H3' by (apply H3; done).
        cbn [take_nal] in *. destruct b as [|p|p]; [done| |done].
        destruct p; [by rewrite E0..|lia].
Qed.

Lemma escape_bytes z l : Forall is_byte l -> Forall is_byte (escape z l).
Proof.
  intros H. revert z. induction H as [|b l Hb Hl IH]; intros z; cbn [escape]; [constructor|].
  destruct (_ && _); repeat (constructor; [lia|]); apply IH.
Qed.

Definition nal_ok (n : x264_nal_t) : Prop :=
  0 <= i_ref_idc n <= 3 /\ 1 <= i_type n <= 31.

Lemma nal_header_val n : nal_ok n -> nal_header n = i_ref_idc n * 32 + i_type n.
Proof.
  intros [Hr Ht]. unfold nal_header. rewrite Z.shiftl_0_l, Z.lor_0_l.
  rewrite (shiftl_lor_add (i_ref_idc n) (i_type n) 5) by lia.
  apply uw_small. lia.
Qed.

Lemma parse_nal_bytes n l : nal_ok n -> parse_nal (nal_bytes n l) = Some (i_ref_idc n, i_type n, l).
Proof.
  intros Hn. pose proof Hn as [Hr Ht]. unfold parse_nal, nal_bytes. rewrite nal_header_val by done.
  replace (_ <? 128) with true by lia. rewrite unescape_escape by lia.
  rewrite Z.shiftr_div_pow2 by lia. change 31 with (Z.ones 5). rewrite Z.land_ones by lia.
  change (2 ^ 5) with 32. do 3 f_equal; Z.to_euclidean_division_equations; lia.
Qed.

Definition payload_ok (l : list Z) : Prop := Forall is_byte l /\ list.last l <> Some 0.

Lemma nal_bytes_safe n l : nal_ok n -> payload_ok l -> safe 0 (nal_bytes n l).
Proof.
  intros Hn [Hl Hlast]. unfold nal_bytes. cbn [safe]. pose proof Hn as [Hr Ht].
  rewrite nal_header_val by done.
  replace (_ =? 0) with false by lia. split; [lia|]. by apply escape_safe.
Qed.

Definition annexb_nal (u : x264_nal_t * list Z) : list Z := [0; 0; 0; 1] ++ nal_bytes u.1 u.2.

Lemma byte_stream_concat us fuel :
  Forall (fun u => nal_ok u.1 /\ payload_ok u.2) us -> (length us <= fuel)%nat ->
  byte_stream fuel (concat (map annexb_nal us)) =
  Some (map (fun u => (i_ref_idc u.1, i_type u.1, u.2)) us).
Proof.
  intros H. revert fuel. induction H as [|[n l] us [Hn Hl] Hus IH]; intros fuel Hf; [by destruct fuel|].
  destruct fuel as [|fuel]; [cbn in Hf; lia|]. cbn [fst snd] in *.
  cbn [map concat]. unfold annexb_nal at 1. cbn [fst snd]. rewrite <- app_assoc.
  cbn [app byte_stream skip_start].
  pose proof (take_nal_safe 0 (nal_bytes n l) (concat (map annexb_nal us))) as E.
  cbn [replicate app] in E. rewrite E.
  - rewrite parse_nal_bytes by done. rewrite IH by (cbn in Hf; lia). done.
  - lia.
  - by apply nal_bytes_safe.
  - destruct us as [|u us]; [by left|]. right. eexists. reflexivity.
Qed.

(** ** The copy loop stores the escaped payload *)
Lemma escape_length z l : 0 <= z <= 2 -> 
  Z.of_nat (length l) <= Z.of_nat (length (escape z l)) /\
  2 * Z.of_nat (length (escape z l)) <= 3 * Z.of_nat (length l) + Z.max 0 (z - 1).
Proof.
  revert z. induction l as [|b l IH]; intros z Hz; cbn [escape length]; [lia|].
  destruct (Z.eqb_spec z 2) as [->|Hz2]; destruct (Z.leb_spec b 3); cbn [andb length];
    destruct (Z.eqb_spec b 0);
    match goal with |- context [escape ?x l] => destruct (IH x) as [H1 H2] end; lia.
Qed.

Lemma nal_copy_loop n lo m dst src z :
  (src + Z.of_nat n <= dst \/ dst + Z.of_nat (length (escape z (ld_bytes n m src))) <= src) ->
  exists z', for_ n lo (fun _ => nal_copy_step) (m, dst, src, z) =
    (st_bytes m dst (escape z (ld_bytes n m src)),
     dst + Z.of_nat (length (escape z (ld_bytes n m src))), src + Z.of_nat n, z').
Proof.
  revert lo m dst src z. induction n as [|n IH]; intros lo m dst src z Hd.
  - exists z. cbn. by rewrite !Z.add_0_r.
  - cbn [for_ ld_bytes escape] in *. unfold nal_copy_step at 2. 
    set (one := (z =? 2) && (m src <=? 3)) in *. clearbody one.
    set (z2 := if one then if m src =? 0 then 1 else 0 else if m src =? 0 then z + 1 else 0).
    set (m1 := if one then st8 m dst 3 else m). set (d1 := if one then dst + 1 else dst).
    replace (if one then (st8 m dst 3, dst + 1, 0) else (m, dst, z)) with (m1, d1, if one then 0 else z)
      by (unfold m1, d1; by destruct one).
    set (rest := escape z2 (ld_bytes n m (src + 1))).
    assert (m1 src = m src) as Em.
    { unfold m1. destruct one; [|done]. unfold st8. apply upd_ne. cbn [length] in Hd. clear -Hd. lia. }
    rewrite Em. replace (if m src =? 0 then (if one then 0 else z) + 1 else 0) with z2
      by (unfold z2; destruct one, (m src =? 0); lia).
    assert (ld_bytes n (st8 m1 d1 (m src)) (src + 1) = ld_bytes n m (src + 1)) as El.
    { apply ld_bytes_ext. intros x Hx. unfold m1, d1.
      destruct one; cbn [length] in Hd; unfold st8; rewrite !upd_ne by lia; done. }
    destruct (IH (lo + 1) (st8 m1 d1 (m src)) (d1 + 1) (src + 1) z2) as [z' E].
    { rewrite El. fold rest. unfold d1, z2 in *. destruct one; cbn [length] in Hd; fold rest in Hd; lia. }
    exists z'. rewrite E, El. fold rest. unfold m1, d1, rest, z2. clear.
    destruct one; cbn [length st_bytes]; f_equal; f_equal; [f_equal; lia|lia|f_equal; lia|lia].
Qed.

Definition payload (m : mem) (n : x264_nal_t) : list Z :=
  ld_bytes (Z.to_nat (i_payload n)) m (p_payload n).

Definition start_code (b_annexeb : bool) : list Z := if b_annexeb then [0; 0; 0; 1] else [].

(** [x264_nal_encode] as one store of a list of bytes. *)
Lemma nal_encode_store m p_data b_annexeb n out :
  out = start_code b_annexeb ++ nal_bytes n (payload m n) -> 0 <= i_payload n ->
  p_payload n + i_payload n <= p_data \/ p_data + Z.of_nat (length out) <= p_payload n ->
  x264_nal_encode m p_data b_annexeb n = (st_bytes m p_data out, Z.of_nat (length out)).
Proof.
  intros Eout Hp Hd. unfold x264_nal_encode, payload in *.
  set (pl := ld_bytes (Z.to_nat (i_payload n)) m (p_payload n)) in *.
  set (pre := start_code b_annexeb ++ [nal_header n]).
  assert (out = pre ++ escape 0 pl) as Epre by (subst out pre; by rewrite <- app_assoc).
  set (d := p_data + Z.of_nat (length pre)).
  assert (st8 (fst (if b_annexeb then
      (st8 (st8 (st8 (st8 m p_data 0) (p_data + 1) 0) (p_data + 2) 0) (p_data + 3) 1, p_data + 4)
      else (m, p_data))) (d - 1) ((0 << 7) .| (i_ref_idc n << 5) .| i_type n) = st_bytes m p_data pre) as Em.
  { unfold pre, d, nal_header, start_code. destruct b_annexeb; cbn [fst app st_bytes length].
    - rewrite <- !Z.add_assoc. unfold st8 at 1 6. rewrite (uw_small 8 (u8 _)) by (apply uw_range; lia).
      f_equal. unfold pre; cbn; lia.
    - unfold st8. rewrite (uw_small 8 (u8 _)) by (apply uw_range; lia). f_equal; cbn; lia. }
  assert ((if b_annexeb then
      (st8 (st8 (st8 (st8 m p_data 0) (p_data + 1) 0) (p_data + 2) 0) (p_data + 3) 1, p_data + 4)
      else (m, p_data)) = (fst (if b_annexeb then
      (st8 (st8 (st8 (st8 m p_data 0) (p_data + 1) 0) (p_data + 2) 0) (p_data + 3) 1, p_data + 4)
      else (m, p_data)), d - 1)) as E
    by (unfold d, pre; destruct b_annexeb; cbn; f_equal; lia).
  rewrite E, Em. clear E Em. replace (d - 1 + 1) with d by lia.
  assert (length out = length pre + length (escape 0 pl))%nat as Elen by (rewrite Epre, length_app; done).
  assert (ld_bytes (Z.to_nat (i_payload n)) (st_bytes m p_data pre) (p_payload n) = pl) as Epl
    by (apply ld_bytes_st_frame; lia).
  destruct (nal_copy_loop (Z.to_nat (i_payload n)) 0 (st_bytes m p_data pre) d (p_payload n) 0) as [z' E];
    [rewrite Epl; unfold d; lia|].
  rewrite E, Epl. unfold d. rewrite <- st_bytes_app, <- Epre. f_equal. lia.
Qed.

(** [x264_nal_encode] stores the start code, the header and the escaped payload
    at [p_data], and nothing else; what it stores parses back to the unit, never
    contains a start code after its own, and is at most half as long again as the
    payload, plus the start code and the header. *)
Lemma nal_encode_correct m p_data b_annexeb n :
  nal_ok n -> 0 <= i_payload n -> bytes_ok m ->
  list.last (payload m n) <> Some 0 ->
  p_payload n + i_payload n <= p_data \/ p_data + i_payload n * 3 / 2 + 5 <= p_payload n ->
  let '(m', size) := x264_nal_encode m p_data b_annexeb n in
  exists body, ld_bytes (Z.to_nat size) m' p_data = start_code b_annexeb ++ body /\
    0 < size <= i_payload n * 3 / 2 + (if b_annexeb then 5 else 1) /\
    (forall a, a < p_data \/ p_data + size <= a -> m' a = m a) /\
    payload m' n = payload m n /\
    parse_nal body = Some (i_ref_idc n, i_type n, payload m n) /\ safe 0 body.
Proof.
  intros Hn Hp Hm Hlast Hd.
  assert (Forall is_byte (payload m n)) as Hb by (by apply ld_bytes_ok).
  set (out := start_code b_annexeb ++ nal_bytes n (payload m n)).
  assert (length out = (if b_annexeb then 5 else 1) + length (escape 0 (payload m n)))%nat as El
    by (unfold out; destruct b_annexeb; done).
  destruct (escape_length 0 (payload m n)) as [L1 L2]; [lia|].
  assert (Z.of_nat (length (payload m n)) = i_payload n) as Lp
    by (unfold payload; rewrite length_ld_bytes; lia).
  assert (0 < Z.of_nat (length out) <= i_payload n * 3 / 2 + (if b_annexeb then 5 else 1)) as Hsize.
  { rewrite El. pose proof (Z.div_mod (i_payload n * 3) 2). pose proof (Z.mod_pos_bound (i_payload n * 3) 2).
    destruct b_annexeb; lia. }
  assert (p_payload n + i_payload n <= p_data \/ p_data + Z.of_nat (length out) <= p_payload n) as Hd'
    by (destruct b_annexeb; lia).
  rewrite (nal_encode_store m p_data b_annexeb n out) by done.
  exists (nal_bytes n (payload m n)). split; [|split; [done|split; [|split; [|split]]]].
  - rewrite Nat2Z.id. apply ld_st_bytes. unfold out. apply Forall_app. split.
    + unfold start_code. destruct b_annexeb; repeat constructor; lia.
    + constructor; [apply uw_range; lia|]. by apply escape_bytes.
  - intros a Ha. by apply st_bytes_frame.
  - apply ld_bytes_st_frame. lia.
  - by apply parse_nal_bytes.
  - by apply nal_bytes_safe.
Qed.

Lemma last_byte_nonzero l c n :
  bytes_bits l = c ++ true :: replicate n false -> (n < 8)%nat -> list.last l <> Some 0.
Proof.
  intros E Hn [l' ->]%last_Some. rewrite bytes_bits_app in E.
  apply (f_equal (fun x => reverse x !! n)) in E.
  rewrite !reverse_app, reverse_cons, reverse_replicate, <- app_assoc in E.
  rewrite (lookup_app_r (replicate n false)) in E by (rewrite length_replicate; lia).
  rewrite length_replicate, Nat.sub_diag in E. cbn [bytes_bits app] in E. rewrite app_nil_r, bits_0 in E.
  rewrite reverse_replicate, lookup_app_l, lookup_replicate_2 in E by (rewrite ?length_replicate; lia).
  done.
Qed.

(** * A frame's units, from the writer to the file *)
Section File.
Context (WORD_SIZE : Z) (word_ok : WORD_SIZE = 4 \/ WORD_SIZE = 8).

Definition with_bs (o : out_t) (s : bs_t) : out_t :=
  {| i_nal := i_nal o; nal := nal o; i_bitstream := i_bitstream o;
     p_bitstream := p_bitstream o; out_bs := s |}.

(** A unit is opened, its syntax elements and the trailing bits written, and
    closed: encoder.c does so for every unit that is not a slice. *)
Definition write_unit (o : out_t) (u : Z * Z * list element) : out_t :=
  let '(i_type, i_ref_idc, es) := u in
  let o := x264_nal_start WORD_SIZE o i_type i_ref_idc in
  let s := fold_left (write_element WORD_SIZE) es (out_bs o) in
  x264_nal_end WORD_SIZE (with_bs o (bs_rbsp_trailing WORD_SIZE s)).

Definition unit_ok (u : Z * Z * list element) : Prop :=
  let '(i_type, i_ref_idc, es) := u in
  1 <= i_type <= 31 /\ 0 <= i_ref_idc <= 3 /\ Forall element_ok es.

(** A payload that reads as the elements of a unit. *)
Definition reads_as (l : list Z) (es : list element) : Prop :=
  exists c n, bytes_bits l = c ++ true :: replicate n false /\ (n < 8)%nat /\
    forall rest, read_elements es (c ++ rest) = Some (map element_val es, rest).

Record nal_inv (m : mem) (lo hi : Z) (n : x264_nal_t) (u : Z * Z * list element) : Prop := {
  ni_ok : nal_ok n;
  ni_type : i_type n = u.1.1;
  ni_ref : i_ref_idc n = u.1.2;
  ni_lo : lo <= p_payload n;
  ni_len : 0 <= i_payload n;
  ni_hi : p_payload n + i_payload n <= hi;
  ni_reads : reads_as (payload m n) u.2
}.

Record out_inv (o : out_t) (us : list (Z * Z * list element)) : Prop := {
  oi_nal : i_nal o = Z.of_nat (length us);
  oi_start : p_start (out_bs o) = p_bitstream o;
  oi_wf : bs_wf WORD_SIZE (out_bs o);
  oi_pending : pending WORD_SIZE (out_bs o) = 0%nat;
  oi_bytes : bytes_ok (bs_mem (out_bs o));
  oi_units : forall j u, us !! j = Some u ->
    nal_inv (bs_mem (out_bs o)) (p_bitstream o) (p (out_bs o)) (nal o (Z.of_nat j)) u
}.

Lemma payload_frame m m' n lo hi :
  (forall a, lo <= a < hi -> m' a = m a) -> lo <= p_payload n -> 0 <= i_payload n ->
  p_payload n + i_payload n <= hi -> payload m' n = payload m n.
Proof. intros H Hl H0 Hh. unfold payload. apply ld_bytes_ext. intros x Hx. apply H. lia. Qed.

Lemma bs_pos_aligned s : bs_wf WORD_SIZE s -> pending WORD_SIZE s = 0%nat ->
  Z.quot (bs_pos WORD_SIZE s) 8 = p s - p_start s.
Proof.
  intros [H1 H2] Hp. unfold pending, bs_pos in *. replace (i_left s) with (8 * WORD_SIZE) by lia.
  replace (8 * (p s - p_start s) + _ - _) with ((p s - p_start s) * 8) by lia.
  by rewrite Z.quot_mul.
Qed.

Lemma write_unit_inv o us u : out_inv o us -> unit_ok u -> out_inv (write_unit o u) (us ++ [u]).
Proof.
  intros [O1 O2 O3 O4 O5 O6] Hu. destruct u as [[t r] es]. destruct Hu as (Ht & Hr & Hes).
  unfold write_unit. cbn [out_bs x264_nal_start].
  set (s := out_bs o) in *. set (s1 := fold_left (write_element WORD_SIZE) es s).
  destruct (rbsp_elements WORD_SIZE word_ok s es O3 O4 Hes) as (W & P & c & n & E & Hn & R).
  fold s1 in W, P, E. set (s' := bs_rbsp_trailing WORD_SIZE s1) in *.
  assert (bs_keeps s s') as K.
  { destruct (write_elements_appends WORD_SIZE word_ok s es O3 Hes) as (W1 & _).
    etransitivity; [apply write_elements_keeps|]. fold s1 in W1 |- *. unfold s', bs_rbsp_trailing.
    destruct (bs_write1_stream WORD_SIZE word_ok s1 1) as [[_ W2] _]; [done|lia|].
    etransitivity; [apply (bs_write1_keeps WORD_SIZE)|]. apply bs_flush_keeps. lia. }
  destruct K as [K1 K2 K3 K4].
  assert (p_start s <= p s) as Hps by apply O3.
  pose proof (bs_pos_aligned s O3 O4) as Q1. pose proof (bs_pos_aligned s' W P) as Q2.
  unfold x264_nal_end, x264_nal_start, with_bs, set_nal. split; cbn [i_nal nal p_bitstream out_bs];
    [rewrite O1, length_app; cbn; lia|by rewrite K1, O2|done|done|by apply K4|].
  intros j u [Hj|[Hj Ej]]%lookup_app_Some.
  - pose proof (lookup_lt_Some _ _ _ Hj). destruct (O6 j u Hj) as [N1 N2 N3 N4 N5 N6 N7].
    replace (Z.of_nat j =? i_nal o) with false by lia. split; try done; [lia|].
    by rewrite (payload_frame (bs_mem s) _ _ (p_bitstream o) (p s)) by (try (intros; apply K3); lia || done).
  - apply list_lookup_singleton_Some in Ej as [Ej <-].
    replace (Z.of_nat j =? i_nal o) with true by lia. rewrite Z.eqb_refl. fold s.
    rewrite Q1, Q2, K1, O2.
    split; cbn [i_type i_ref_idc i_payload p_payload fst snd]; [done|done|done|lia|lia|lia|].
    exists c, n. split; [|done]. unfold payload; cbn [i_payload p_payload].
    replace (p_bitstream o + (p s - p_bitstream o)) with (p s) by lia.
    replace (p_bitstream o + (p s' - p_bitstream o) - p s) with (p s' - p s) by lia.
    apply (app_inv_head (bytes_bits (written s))). rewrite <- E, <- bytes_bits_app. f_equal.
    unfold written. rewrite K1.
    replace (Z.to_nat (p s' - p_start s)) with (Z.to_nat (p s - p_start s) + Z.to_nat (p s' - p s))%nat by lia.
    rewrite ld_bytes_app. f_equal; [|f_equal; lia]. symmetry. apply ld_bytes_ext.
    intros x Hx. apply K3. lia.
Qed.

Lemma write_units_inv o us vs : out_inv o us -> Forall unit_ok vs ->
  out_inv (fold_left write_unit vs o) (us ++ vs).
Proof.
  intros Ho Hv. revert o us Ho. induction Hv as [|v vs Hv Hvs IH]; intros o us Ho.
  - by rewrite app_nil_r.
  - cbn [fold_left]. rewrite (cons_middle v us vs). rewrite app_assoc. apply IH. by apply write_unit_inv.
Qed.

Lemma write_units_start us o : p_bitstream (fold_left write_unit us o) = p_bitstream o.
Proof.
  revert o. induction us as [|[[t r] es] us IH]; intros o; [done|]. cbn [fold_left]. by rewrite IH.
Qed.

(** ** Muxing: the file holds every unit of the frame *)
Section Muxing.
Context (memalign : Z -> Z -> Z) (fwrite : list Z -> list Z -> Z) (lo hi : Z) (m0 : mem) (nal : Z -> x264_nal_t).

(** No block of the allocator meets the bitstream buffer. *)
Definition apart (b size : Z) : Prop := hi <= b \/ b + size <= lo.
Context (alloc_apart : forall i size, 0 <= size -> apart (memalign i size) size).

(** What [fwrite] makes of units that are appended one after the other: the file, and the
    sum of the sizes of those that are written whole, less one for each other. *)
Definition append_unit '((file, i_file) : list Z * Z) (bytes : list Z) : list Z * Z :=
  let k := fwrite file bytes in
  (file ++ take (Z.to_nat k) bytes, i_file + (if Z.of_nat (length bytes) <=? k then Z.of_nat (length bytes) else -1)).
Definition unit_bytes (j : Z) : list Z := annexb_nal (nal j, payload m0 (nal j)).

Record mux_inv (k : nat) (x : mux_t) : Prop := {
  mi_file : (mux_file x, i_file x) = fold_left append_unit (map unit_bytes (seqZ 0 (Z.of_nat k))) ([], 0);
  mi_mem : forall a, lo <= a < hi -> mux_mem x a = m0 a;
  mi_buffer : mux_buffer_size x < 4 \/ apart (mux_buffer x) (mux_buffer_size x)
}.

(** The unit [k] fits in the buffer that [Encode_frame] escapes it into. *)
Definition unit_fits (x : mux_t) (k : nat) : Prop :=
  Z.of_nat (length (unit_bytes (Z.of_nat k))) <= mux_buffer_size (for_ (S k) 0 (mux_nal memalign fwrite nal) x).

Lemma mux_nal_size i x : mux_buffer_size (mux_nal memalign fwrite nal i x) =
  if mux_buffer_size x <? Z.quot (i_payload (nal i) * 3) 2 + 4 then i_payload (nal i) * 2 + 4 else mux_buffer_size x.
Proof. unfold mux_nal. destruct (_ <? _), (x264_nal_encode _ _ _ _), (write_nalu_bsf _ _ _ _ _); reflexivity. Qed.

Lemma mux_nal_inv k x u : bytes_ok m0 -> nal_inv m0 lo hi (nal (Z.of_nat k)) u ->
  Z.of_nat (length (unit_bytes (Z.of_nat k))) <= mux_buffer_size (mux_nal memalign fwrite nal (Z.of_nat k) x) ->
  mux_inv k x -> mux_inv (S k) (mux_nal memalign fwrite nal (Z.of_nat k) x).
Proof.
  intros Hm [N1 _ _ N4 N5 N6 _] HC [M1 M3 M4]. rewrite mux_nal_size in HC. unfold mux_nal.
  set (n := nal (Z.of_nat k)) in *. rewrite Z.quot_div_nonneg in * by lia.
  set (need := i_payload n * 3 / 2 + 4) in *.
  assert (need <= i_payload n * 2 + 4 /\ 4 <= need) as Hneed
    by (unfold need; Z.to_euclidean_division_equations; lia).
  destruct (if _ <? _ then (_, _) else _) as [b size] eqn:Eb.
  assert (apart b size /\ Z.of_nat (length (unit_bytes (Z.of_nat k))) <= size) as [Ha Hs].
  { destruct (Z.ltb_spec (mux_buffer_size x) need) as [Hlt|Hge]; injection Eb as <- <-.
    - split; [apply alloc_apart; lia|done].
    - split; [|done]. destruct M4; [lia|done]. }
  clear Eb. assert (payload (mux_mem x) n = payload m0 n) as Ep by (by apply (payload_frame _ _ _ lo hi)).
  set (out := start_code true ++ nal_bytes n (payload (mux_mem x) n)).
  assert (out = unit_bytes (Z.of_nat k)) as Eu by (unfold out; by rewrite Ep).
  rewrite <- Eu in Hs.
  assert (0 < Z.of_nat (length out)) by (unfold out; rewrite length_app; cbn; lia).
  rewrite (nal_encode_store _ b true n out) by (try done; destruct Ha; lia).
  unfold write_nalu_bsf. rewrite Nat2Z.id, ld_st_bytes.
  2: { unfold out. apply Forall_app. split; [repeat constructor; lia|].
       constructor; [apply uw_range; lia|]. apply escape_bytes. rewrite Ep. by apply ld_bytes_ok. }
  split; cbn [mux_file mux_mem mux_buffer mux_buffer_size i_file].
  - rewrite seqZ_S, map_app, fold_left_app, <- M1. cbn [map fold_left append_unit]. rewrite Z.add_0_l, <- Eu.
    destruct (Z.ltb_spec 0 (Z.of_nat (length out))); [done|lia].
  - intros a Ha'. rewrite st_bytes_frame by (destruct Ha; lia). by apply M3.
  - by right.
Qed.

Lemma mux_loop_inv k x (us : list (Z * Z * list element)) :
  bytes_ok m0 -> (forall j u, us !! j = Some u -> nal_inv m0 lo hi (nal (Z.of_nat j)) u /\ unit_fits x j) ->
  (k <= length us)%nat -> mux_inv 0 x -> mux_inv k (for_ k 0 (mux_nal memalign fwrite nal) x).
Proof.
  intros Hm Hu Hk H0. induction k as [|k IH]; [done|].
  destruct (lookup_lt_is_Some_2 us k) as [u Eu]; [lia|]. destruct (Hu k u Eu) as [Hn Hf].
  unfold unit_fits in Hf. rewrite for_snoc, Z.add_0_l in *.
  apply (mux_nal_inv k _ u); [done|done|done|apply IH; lia].
Qed.
(** A frame is what the loop leaves: the end of the picture writes nothing. *)
Lemma Encode_frame_loop result k x : Encode_frame memalign fwrite (result, Z.of_nat k, nal) x = (for_ k 0 (mux_nal memalign fwrite nal) x, result <? 0).
Proof.
  unfold Encode_frame. rewrite Nat2Z.id. destruct (negb _); [|done]. cbn [set_eop_bsf]. by destruct (for_ k 0 _ x).
Qed.
(** Without errors the file is the units one after the other, and all are counted. *)
Lemma append_units_full l : (forall file bytes, fwrite file bytes = Z.of_nat (length bytes)) ->
  fold_left append_unit l ([], 0) = (concat l, Z.of_nat (length (concat l))).
Proof.
  intros F. enough (G : forall file n, fold_left append_unit l (file, n) = (file ++ concat l, n + Z.of_nat (length (concat l)))) by (by rewrite G).
  induction l as [|b l IH]; intros file n; cbn [fold_left concat]; [by rewrite app_nil_r, Z.add_0_r|].
  unfold append_unit at 2. rewrite F, Nat2Z.id, firstn_all, Z.leb_refl, IH, length_app, Nat2Z.inj_add, app_assoc. f_equal. lia.
Qed.

End Muxing.

(** C37: the units of a frame survive the whole way to the file: written through the
    bitstream writer into one buffer, cut into NAL units, escaped into a muxing
    buffer and appended to the file.  However many bytes each [fwrite] lets through, the
    file holds those bytes of the escaped units in order, and the result is the sum of the
    sizes of the units written whole, less one for each other unit.  When nothing is cut
    short the result is the size of the file, and the byte stream reader of the standard
    finds the units again, in order, with their type, their reference index and every
    syntax element.  No unit is longer than the muxing buffer it is escaped into, which the
    check before it does not exclude ([mux_buffer_overrun]). *)
Theorem annexb_file_roundtrip memalign fwrite m p_bitstream i_bitstream e nal0 us result :
  p_bitstream mod WORD_SIZE = 0 -> bytes_ok m -> Forall unit_ok us ->
  let o := fold_left write_unit us
    (Out_t 0 nal0 i_bitstream p_bitstream (bs_init WORD_SIZE m p_bitstream i_bitstream e)) in
  (forall i size, 0 <= size -> apart p_bitstream (p (out_bs o)) (memalign i size) size) ->
  let x0 := Mux_t 0 0 (bs_mem (out_bs o)) [] 0 in
  (forall k, (k < length us)%nat -> unit_fits memalign fwrite (bs_mem (out_bs o)) (nal o) x0 k) ->
  let r := Encode_frame memalign fwrite (result, i_nal o, nal o) x0 in let x := r.1 in
  r.2 = (result <? 0) /\
  (mux_file x, i_file x) = fold_left (append_unit fwrite) (map (unit_bytes (bs_mem (out_bs o)) (nal o)) (seqZ 0 (i_nal o))) ([], 0) /\
  ((forall file bytes, fwrite file bytes = Z.of_nat (length bytes)) ->
   i_file x = Z.of_nat (length (mux_file x)) /\
   exists l, byte_stream (length us) (mux_file x) = Some l /\
     Forall2 (fun u '(i_ref_idc, i_type, bytes) =>
       (i_type, i_ref_idc) = u.1 /\ reads_as bytes u.2) us l).
Proof.
  cbv zeta. set (o := fold_left _ _ _). set (x0 := Mux_t 0 0 _ [] 0). intros Ha Hm Hus Halloc Hcheck.
  destruct (bs_init_aligned WORD_SIZE m p_bitstream i_bitstream e word_ok Ha) as (W & S0 & St & P0).
  assert (out_inv o us) as [O1 O2 O3 O4 O5 O6].
  { apply (write_units_inv _ [] us); [|done]. split; try done.
    unfold pending, bs_pos in *. cbn [out_bs]. destruct W as [W1 W2].
    set (s := bs_init _ _ _ _ _) in *. enough (p s = p_start s) by lia.
    unfold s, bs_init. reflexivity. }
  assert (Hf : Forall2 (fun u j => nal_inv (bs_mem (out_bs o)) p_bitstream (p (out_bs o)) (nal o j) u)
            us (seqZ 0 (Z.of_nat (length us)))).
  { apply Forall2_same_length_lookup. rewrite length_seqZ, Nat2Z.id. split; [done|].
    intros j u k Hj Hk. apply lookup_seqZ in Hk as [-> _]. rewrite Z.add_0_l.
    replace p_bitstream with (Nal.p_bitstream o) at 1; [by apply O6|].
    unfold o. by rewrite write_units_start. }
  rewrite O1, Encode_frame_loop in *. cbn [fst snd].
  destruct (mux_loop_inv memalign fwrite p_bitstream (p (out_bs o)) (bs_mem (out_bs o)) (nal o) Halloc
    (length us) x0 us) as [X1 _ _]; [done| |done| |].
  { intros j u Hj. pose proof (lookup_lt_Some _ _ _ Hj). split; [|by apply Hcheck].
    eapply Forall2_lookup_lr in Hf; [exact Hf|done|]. apply lookup_seqZ. lia. }
  { split; try done. left. cbn. lia. }
  set (x := for_ _ 0 _ _) in *. clearbody x. split; [done|]. split; [done|]. intros F.
  rewrite append_units_full in X1 by done. injection X1 as X1 X2. rewrite X2, X1. split; [done|].
  rewrite (map_ext _ (fun j => annexb_nal ((fun j => (nal o j, payload (bs_mem (out_bs o)) (nal o j))) j))) by done.
  rewrite <- map_map with (g := annexb_nal) (f := fun j => (nal o j, payload (bs_mem (out_bs o)) (nal o j))).
  rewrite byte_stream_concat.
  - eexists. split; [reflexivity|]. rewrite map_map.
    apply Forall2_fmap_r. eapply Forall2_impl; [|exact Hf]. intros u j [? N2 N3 ? ? ? N7].
    cbn [compose fst snd]. rewrite N2, N3. split; [by destruct u as [[??]?]|done].
  - apply Forall_fmap, Forall_lookup. intros i j Hi. cbn [compose fst snd].
    eapply Forall2_lookup_r in Hf as (u & _ & [N1 _ _ _ _ _ (c & n & E & Hn & _)]); [|exact Hi].
    split; [done|]. split; [by apply ld_bytes_ok|]. by eapply last_byte_nonzero.
  - rewrite length_map, length_seqZ. lia.
Qed.

End File.

(** ** The size check of the muxing buffer leaves out the header byte *)
Lemma escape_zeros k : escape 2 (replicate (2 * k) 0 ++ [1]) = concat (replicate k [3; 0; 0]) ++ [3; 1].
Proof.
  induction k as [|k IH]; [done|]. replace (2 * S k)%nat with (S (S (2 * k))) by lia.
  change (escape 2 (replicate (S (S (2 * k))) 0 ++ [1]))
    with (3 :: 0 :: 0 :: escape 2 (replicate (2 * k) 0 ++ [1])).
  by rewrite IH.
Qed.

Lemma escape_worst k : 
  escape 0 (replicate (2 * S k) 0 ++ [1]) = [0; 0] ++ concat (replicate k [3; 0; 0]) ++ [3; 1].
Proof.
  replace (2 * S k)%nat with (S (S (2 * k))) by lia.
  rewrite <- escape_zeros. reflexivity.
Qed.

Lemma length_concat_const {A} k (l : list A) : length (concat (replicate k l)) = (k * length l)%nat.
Proof. induction k; [done|]. cbn. rewrite length_app, IHk. done. Qed.

(** C40: a unit whose payload is an even number of zeros and a one takes half as
    many bytes again and five more, one more than [Encode_frame] checks for: with a
    buffer of just the size it accepts, the last byte is stored after its end. *)
Theorem mux_buffer_overrun memalign fwrite nal i x k :
  let n := nal i in let b := mux_buffer x in let size := mux_buffer_size x in
  payload (mux_mem x) n = replicate (2 * S k) 0 ++ [1] -> 
  size = Z.quot (i_payload n * 3) 2 + 4 ->
  p_payload n + i_payload n <= b \/ b + size + 1 <= p_payload n ->
  (forall file bytes, fwrite file bytes = Z.of_nat (length bytes)) ->
  let x' := mux_nal memalign fwrite nal i x in
  mux_buffer x' = b /\ mux_buffer_size x' = size /\
  i_file x' = i_file x + (size + 1) /\ mux_mem x' (b + size) = 1.
Proof.
  cbv zeta. intros Ep Es Hd F. set (n := nal i) in *.
  assert (i_payload n = 2 * Z.of_nat k + 3) as Hp.
  { apply (f_equal length) in Ep. unfold payload in Ep.
    rewrite length_ld_bytes, length_app, length_replicate in Ep. cbn [length] in Ep. lia. }
  rewrite Z.quot_div_nonneg in Es by lia.
  assert (mux_buffer_size x = 3 * Z.of_nat k + 8) as Es'
    by (rewrite Es, Hp; Z.to_euclidean_division_equations; lia).
  unfold mux_nal. fold n. rewrite Z.quot_div_nonneg, <- Es, Z.ltb_irrefl by lia.
  set (pre := [0; 0; 0; 1; nal_header n; 0; 0] ++ concat (replicate k [3; 0; 0]) ++ [3]).
  assert (Z.of_nat (length pre) = mux_buffer_size x) as Lpre.
  { unfold pre. rewrite !length_app, length_concat_const. cbn [length]. lia. }
  assert (start_code true ++ nal_bytes n (payload (mux_mem x) n) = pre ++ [1]) as Eout.
  { rewrite Ep. unfold nal_bytes. rewrite escape_worst. unfold pre. rewrite <- !app_assoc. done. }
  rewrite (nal_encode_store _ _ true n (pre ++ [1])) by
    (first [done | rewrite length_app; cbn [length]; lia | lia]).
  unfold write_nalu_bsf. rewrite !Nat2Z.id, F, !length_ld_bytes, Z.leb_refl.
  destruct (Z.ltb_spec 0 (Z.of_nat (length (pre ++ [1])))) as [_|Hlen]; [|rewrite length_app in Hlen; cbn [length] in Hlen; lia].
  cbn [mux_buffer mux_buffer_size mux_mem i_file andb].
  rewrite length_app. cbn [length]. split; [done|]. split; [done|]. split; [lia|].
  rewrite st_bytes_app, Lpre. cbn [st_bytes]. unfold st8. by rewrite upd_eq.
Qed.

(** ** The theorems on concrete units *)
Definition sample_mem : mem := fun a => if a =? 102 then 1 else 0.

Lemma nal_encode_correct_witness :
  exists body, body = [0x65; 0; 0; 3; 1] /\ parse_nal body = Some (3, 5, [0; 0; 1]).
Proof.
  pose proof (nal_encode_correct sample_mem 200 true (Nal_t 3 NAL_SLICE_IDR 3 100)) as H.
  specialize (H ltac:(unfold nal_ok, NAL_SLICE_IDR; cbn; lia) ltac:(cbn; lia)
    ltac:(intros a; unfold sample_mem; destruct (a =? 102); lia) ltac:(vm_compute; discriminate)
    ltac:(left; cbn; lia)).
  destruct (x264_nal_encode _ _ _ _) as [m' size] eqn:E.
  destruct H as (body & H1 & _ & _ & _ & H2 & _). exists body. split; [|exact H2].
  replace m' with (x264_nal_encode sample_mem 200 true (Nal_t 3 NAL_SLICE_IDR 3 100)).1 in H1 by (by rewrite E).
  replace size with 9 in H1 by (change 9 with (x264_nal_encode sample_mem 200 true (Nal_t 3 NAL_SLICE_IDR 3 100)).2; by rewrite E).
  change (start_code true ++ body) with (0 :: 0 :: 0 :: 1 :: body) in H1.
  vm_compute in H1. by injection H1.
Defined.

Lemma annexb_file_roundtrip_witness :
  let us := [(NAL_SEI, 0, [U 8 0; U 8 0; U 8 2]); (NAL_SPS, 3, [UE 5; SE (-3)]); (NAL_AUD, 0, [U 3 7])] in
  let o := fold_left (write_unit 8) us
    (Out_t 0 (fun _ => Nal_t 0 0 0 0) 1000 64 (bs_init 8 (fun _ => 0) 64 1000 0)) in
  let x := (Encode_frame (fun i size => 5000 + 1000 * i) (fun _ l => Z.of_nat (length l)) (0, i_nal o, nal o)
    (Mux_t 0 0 (bs_mem (out_bs o)) [] 0)).1 in
  i_file x = Z.of_nat (length (mux_file x)) /\
  exists l, byte_stream 3 (mux_file x) = Some l /\
    Forall2 (fun u '(i_ref_idc, i_type, bytes) => (i_type, i_ref_idc) = u.1 /\ reads_as bytes u.2) us l.
Proof.
  cbv zeta.
  pose proof (annexb_file_roundtrip 8 (or_intror eq_refl) (fun i size => 5000 + 1000 * Z.max 0 i)
    (fun _ l => Z.of_nat (length l)) (fun _ => 0) 64 1000 0 (fun _ => Nal_t 0 0 0 0)
    [(NAL_SEI, 0, [U 8 0; U 8 0; U 8 2]); (NAL_SPS, 3, [UE 5; SE (-3)]); (NAL_AUD, 0, [U 3 7])] 0
    eq_refl ltac:(intros a; lia)
    ltac:(unfold NAL_SEI, NAL_SPS, NAL_AUD; repeat constructor; cbn; lia)) as H.
  cbv zeta in H.
  specialize (H ltac:(intros i size Hs; left; set (e := p _); vm_compute in e; lia)).
  specialize (H ltac:(intros k Hk; cbn [length] in Hk;
    destruct k as [|[|[|k]]]; [vm_compute; discriminate..|lia])).
  destruct H as (_ & _ & H). destruct (H (fun _ _ => eq_refl)) as (H1 & l & H2 & H3).
  split.
  - vm_compute. reflexivity.
  - exists l. split; [|exact H3]. rewrite <- H2. vm_compute. reflexivity.
Defined.

(** Two units of two and three bytes: the buffer of the first is kept for the second. *)
Lemma mux_buffer_overrun_witness :
  let m := fun a => if a =? 54 then 1 else 0 in
  let nal := fun i => if i =? 0 then Nal_t 0 NAL_SEI 2 50 else Nal_t 0 NAL_SEI 3 52 in
  let x := (Encode_frame (fun _ _ => 1000) (fun _ l => Z.of_nat (length l)) (0, 1, nal) (Mux_t 0 0 m [] 0)).1 in
  mux_buffer x = 1000 /\ mux_buffer_size x = 8 /\
  mux_mem (mux_nal (fun _ _ => 1000) (fun _ l => Z.of_nat (length l)) nal 1 x) 1008 = 1.
Proof.
  cbv zeta. split; [reflexivity|]. split; [reflexivity|].
  refine (proj2 (proj2 (proj2 (mux_buffer_overrun (fun _ _ => 1000) (fun _ l => Z.of_nat (length l))
    (fun i => if i =? 0 then Nal_t 0 NAL_SEI 2 50 else Nal_t 0 NAL_SEI 3 52) 1
    (Encode_frame (fun _ _ => 1000) (fun _ l => Z.of_nat (length l))
       (0, 1, fun i => if i =? 0 then Nal_t 0 NAL_SEI 2 50 else Nal_t 0 NAL_SEI 3 52)
       (Mux_t 0 0 (fun a => if a =? 54 then 1 else 0) [] 0)).1 0 _ _ _ _)))).
  - reflexivity.
  - reflexivity.
  - left. vm_compute. discriminate.
  - done.
Defined.
