(* ===== verification/Rabin.v ===== *)
(** * Rabin fingerprints and content-defined anchors of dedup (rabin.c, rabin.h)

    [rabinseg] looks for the first position whose last [NWINDOW] bytes have a
    fingerprint with twelve zero bits.  The fingerprint is the residue of the bytes,
    read as a polynomial over GF(2), modulo one of degree 32; the code computes it
    with a table for eight reduction steps and a table that takes the byte leaving
    the window out again.  Both tables are shown to compute the bit-serial residue,
    provided [rabininit] is given the window's length. *)
From S2P Require Import Prelude.

Definition NWINDOW := 32.
Definition MinSegment := 1024.
Definition RabinMask := 0xfff.
Definition irrpoly := 0x45c2b6a1.

Definition bswap32 (x : Z) : Z :=
  (u32 (x << 24) .& 0xff000000) .| (u32 (x << 8) .& 0x00ff0000) .|
  ((x >> 8) .& 0x0000ff00) .| ((x >> 24) .& 0x000000ff).

Definition fpreduce (x irr : Z) : Z :=
  for_ 32 0 (fun _ x => if i2b (x >> 31) then u32 (x << 1) .^ irr else u32 (x << 1)) x.

Definition fpmkredtab (irr s : Z) (tab : Z -> Z) : Z -> Z :=
  for_ 256 0 (fun i tab => upd tab i (fpreduce (u32 (i << s)) irr)) tab.

Definition fpwinreduce (irr winlen x : Z) (rabintab : Z -> Z) : Z :=
  let winval := 0 in
  let winval := (u32 (winval << 8) .| x) .^ rabintab (winval >> 24) in
  for_ (Z.to_nat (winlen - 1)) 1 (fun _ winval => u32 (winval << 8) .^ rabintab (winval >> 24)) winval.

Definition fpmkwinredtab (irr winlen : Z) (rabintab rabinwintab : Z -> Z) : Z -> Z :=
  for_ 256 0 (fun i tab => upd tab i (fpwinreduce irr winlen i rabintab)) rabinwintab.

Definition rabininit (winlen : Z) (rabintab rabinwintab : Z -> Z) : (Z -> Z) * (Z -> Z) :=
  let rabintab := fpmkredtab irrpoly 0 rabintab in
  (rabintab, fpmkwinredtab irrpoly winlen rabintab rabinwintab).

(** The [while( i<n )] loop; [rem] is [n - i], and [None] the end of the loop. *)
Fixpoint rabinseg_loop (rem : nat) (p : Z -> Z) (rabintab rabinwintab : Z -> Z) (i h : Z) : option Z :=
  match rem with
  | O => None
  | S rem =>
      let x := p (i - NWINDOW) in
      let h := h .^ rabinwintab x in
      let x := h >> 24 in
      let h := u32 (h << 8) in
      let h := h .| p i in
      let i := i + 1 in
      let h := h .^ rabintab x in
      if h .& RabinMask =? 0 then Some i
      else rabinseg_loop rem p rabintab rabinwintab i h
  end.

Definition rabinseg (p : Z -> Z) (n winlen : Z) (rabintab rabinwintab : Z -> Z) : Z :=
  if n <? NWINDOW then n else
  let h := for_ (Z.to_nat NWINDOW) 0 (fun i h =>
    let x := h >> 24 in
    let h := u32 (h << 8) .| p i in
    h .^ rabintab x) 0 in
  if h .& RabinMask =? 0 then NWINDOW
  else match rabinseg_loop (Z.to_nat (n - NWINDOW)) p rabintab rabinwintab NWINDOW h with
       | Some i => i
       | None => n
       end.

(** * Reference: division by the polynomial, one bit at a time

    [mul_t] multiplies a residue by t: the polynomial is t^32 plus [irrpoly]. *)
Definition mul_t (h : Z) : Z := if Z.testbit h 31 then u32 (h << 1) .^ irrpoly else u32 (h << 1).

Definition residue_bit (h : Z) (b : bool) : Z := mul_t h .^ b2i b.

(** The residue of a byte string. *)
Definition fingerprint (l : list Z) : Z := fold_left residue_bit (bytes_bits l) 0.

(** The [n] bytes before position [i]. *)
Definition window (p : Z -> Z) (i : Z) : list Z := ld_bytes (Z.to_nat NWINDOW) p (i - NWINDOW).

Definition is_anchor (p : Z -> Z) (i : Z) : bool := fingerprint (window p i) .& RabinMask =? 0.

(** The first anchor after [i], if there is one before [i + k]. *)
Fixpoint first_anchor (k : nat) (p : Z -> Z) (i : Z) : option Z :=
  match k with
  | O => None
  | S k => if is_anchor p i then Some i else first_anchor k p (i + 1)
  end.

(** * The tables *)
Definition is32 (h : Z) : Prop := 0 <= h < 2 ^ 32.

Lemma is32_lxor a b : is32 a -> is32 b -> is32 (a .^ b).
Proof.
  intros Ha Hb. split; [apply Z.lxor_nonneg; unfold is32 in *; lia|].
  destruct (Z.eq_dec (a .^ b) 0) as [->|Hne]; [lia|].
  assert (0 <= a .^ b) by (apply Z.lxor_nonneg; unfold is32 in *; lia).
  apply Z.log2_lt_pow2; [lia|].
  eapply Z.le_lt_trans; [apply Z.log2_lxor; unfold is32 in *; lia|].
  apply Z.max_lub_lt.
  - destruct (Z.eq_dec a 0) as [->|]; [cbn; lia|]. apply Z.log2_lt_pow2; unfold is32 in *; lia.
  - destruct (Z.eq_dec b 0) as [->|]; [cbn; lia|]. apply Z.log2_lt_pow2; unfold is32 in *; lia.
Qed.

Lemma mul_t_is32 h : is32 h -> is32 (mul_t h).
Proof.
  intros Hh. unfold mul_t. destruct (Z.testbit h 31); [apply is32_lxor; [|unfold is32, irrpoly; lia]|];
    apply uw_range; lia.
Qed.

Lemma uw_lxor w a b : 0 <= w -> uw w (a .^ b) = uw w a .^ uw w b.
Proof.
  intros Hw. apply Z.bits_inj'. intros i Hi. rewrite Z.lxor_spec. unfold uw.
  destruct (Z.lt_decidable i w).
  - by rewrite !Z.mod_pow2_bits_low, Z.lxor_spec by lia.
  - by rewrite !Z.mod_pow2_bits_high by lia.
Qed.

(** Equations between exclusive ors, bit by bit. *)
Ltac lxor_ring :=
  apply Z.bits_inj'; let i := fresh "i" in intros i _; rewrite !Z.lxor_spec;
  repeat match goal with |- context [Z.testbit ?x i] => destruct (Z.testbit x i) end; reflexivity.

Lemma mul_t_lxor a b : mul_t (a .^ b) = mul_t a .^ mul_t b.
Proof.
  unfold mul_t. rewrite Z.lxor_spec, Z.shiftl_lxor, uw_lxor by lia.
  set (x := u32 (a << 1)). set (y := u32 (b << 1)).
  destruct (Z.testbit a 31), (Z.testbit b 31); cbn [xorb]; lxor_ring.
Qed.

(** [n] multiplications by t. *)
Definition mul_tn (n : nat) (h : Z) : Z := Nat.iter n mul_t h.

Lemma mul_tn_is32 n h : is32 h -> is32 (mul_tn n h).
Proof. intros Hh. induction n; [done|]. by apply mul_t_is32. Qed.

Lemma mul_tn_lxor n a b : mul_tn n (a .^ b) = mul_tn n a .^ mul_tn n b.
Proof.
  induction n as [|n IH]; [done|].
  change (mul_t (mul_tn n (a .^ b)) = mul_t (mul_tn n a) .^ mul_t (mul_tn n b)).
  by rewrite IH, mul_t_lxor.
Qed.

Lemma mul_tn_add n k h : mul_tn (n + k) h = mul_tn n (mul_tn k h).
Proof. apply Nat.iter_add. Qed.

(** Below the degree, multiplication by t is a shift. *)
Lemma mul_tn_small n h : 0 <= h -> h < 2 ^ (32 - Z.of_nat n) -> (n <= 32)%nat -> mul_tn n h = h << Z.of_nat n.
Proof.
  intros H0. induction n as [|n IH]; intros Hh Hn.
  - by rewrite Z.shiftl_0_r.
  - assert (2 ^ (32 - Z.of_nat n) = 2 * 2 ^ (32 - Z.of_nat (S n))) as E
      by (rewrite <- Z.pow_succ_r by lia; f_equal; lia).
    change (mul_tn (S n) h) with (mul_t (mul_tn n h)). rewrite IH by lia. unfold mul_t.
    assert (h << Z.of_nat n < 2 ^ 31) as Hlt.
    { rewrite Z.shiftl_mul_pow2 by lia. replace 31 with ((32 - Z.of_nat (S n)) + Z.of_nat n) by lia.
      rewrite (Z.pow_add_r 2 (32 - Z.of_nat (S n))) by lia. apply Z.mul_lt_mono_pos_r; [apply pow2_pos; lia|lia]. }
    assert (0 <= h << Z.of_nat n) by (rewrite Z.shiftl_nonneg; lia).
    rewrite (testbit_high _ 31) by lia. rewrite Z.shiftl_shiftl, Nat2Z.inj_succ by lia.
    unfold Z.succ. apply uw_small. rewrite <- Z.shiftl_shiftl, (Z.shiftl_mul_pow2 _ 1) by lia. lia.
Qed.

Lemma i2b_shiftr31 h : is32 h -> i2b (h >> 31) = Z.testbit h 31.
Proof.
  intros Hh. unfold is32 in Hh. rewrite Z.shiftr_div_pow2, Z.testbit_odd, Z.shiftr_div_pow2 by lia.
  assert (0 <= h / 2 ^ 31 < 2) as Hq
    by (split; [apply Z.div_pos; lia|apply Z.div_lt_upper_bound; lia]).
  assert (h / 2 ^ 31 = 0 \/ h / 2 ^ 31 = 1) as [-> | ->] by lia; done.
Qed.

Lemma fpreduce_spec x : is32 x -> fpreduce x irrpoly = mul_tn 32 x.
Proof.
  intros Hx. unfold fpreduce.
  enough (forall n, for_ n 0 (fun _ x => if i2b (x >> 31) then u32 (x << 1) .^ irrpoly else u32 (x << 1)) x
    = mul_tn n x) as H by apply H.
  induction n as [|n IH]; [done|]. rewrite for_snoc, IH.
  rewrite i2b_shiftr31 by (by apply mul_tn_is32). done.
Qed.

(** The reduction table: 32 multiplications of the byte shifted out. *)
Lemma fpmkredtab_spec tab i : 0 <= i < 256 -> fpmkredtab irrpoly 0 tab i = mul_tn 32 i.
Proof.
  intros Hi. unfold fpmkredtab. rewrite (for_upd_pointwise 256 0 (fun i _ => fpreduce (u32 (i << 0)) irrpoly)).
  rewrite in_range_b by lia. rewrite Z.shiftl_0_r, uw_small by lia. apply fpreduce_spec. unfold is32; lia.
Qed.

(** One byte: eight multiplications by t. *)
Definition byte_step (tab : Z -> Z) (h b : Z) : Z := (u32 (h << 8) .| b) .^ tab (h >> 24).

Definition red_ok (tab : Z -> Z) : Prop := forall i, 0 <= i < 256 -> tab i = mul_tn 32 i.

Lemma shiftr24_byte h : is32 h -> 0 <= h >> 24 < 256.
Proof.
  unfold is32. intros Hh. rewrite Z.shiftr_div_pow2 by lia.
  split; [apply Z.div_pos; lia|apply Z.div_lt_upper_bound; lia].
Qed.

Lemma shl8_lor h b : 0 <= b < 256 -> u32 (h << 8) .| b = u32 (h << 8) .^ b.
Proof.
  intros Hb. symmetry. apply Z.lxor_lor. apply Z.bits_inj_0. intros i. rewrite Z.land_spec.
  destruct (Z.lt_decidable i 8).
  - destruct (Z.lt_decidable i 0); [by rewrite !Z.testbit_neg_r by lia|].
    rewrite testbit_uw, testbit_shiftl_low by lia. done.
  - rewrite (testbit_high b 8) by lia. apply andb_false_r.
Qed.

Lemma byte_step_spec tab h b : red_ok tab -> is32 h -> 0 <= b < 256 ->
  byte_step tab h b = mul_tn 8 h .^ b.
Proof.
  intros Ht Hh Hb. unfold byte_step. rewrite Ht by (by apply shiftr24_byte). rewrite shl8_lor by done.
  set (hi := h >> 24). set (lo := h .& Z.ones 24).
  assert (h = (hi << 24) .^ lo) as E.
  { unfold hi, lo. apply Z.bits_inj'. intros i Hi. rewrite Z.lxor_spec, Z.land_spec.
    destruct (Z.lt_decidable i 24).
    - rewrite testbit_shiftl_low, Z.ones_spec_low by lia. by rewrite andb_true_r, xorb_false_l.
    - rewrite testbit_shiftl, Z.shiftr_spec, Z.ones_spec_high by lia.
      rewrite andb_false_r, xorb_false_r. f_equal. lia. }
  assert (0 <= lo < 2 ^ 24) as Hlo by (unfold lo; rewrite Z.land_ones by lia; apply Z.mod_pos_bound; lia).
  pose proof (shiftr24_byte h Hh) as Hhi. fold hi in Hhi.
  assert (u32 (h << 8) = lo << 8) as El.
  { rewrite E, Z.shiftl_lxor, uw_lxor, Z.shiftl_shiftl by lia.
    replace (u32 (hi << (24 + 8))) with 0.
    - rewrite Z.lxor_0_l. apply uw_small. rewrite Z.shiftl_mul_pow2 by lia. lia.
    - unfold uw. rewrite Z.shiftl_mul_pow2 by lia. change (24 + 8) with 32. symmetry. apply Z.mod_mul. lia. }
  rewrite El, E at 1. rewrite mul_tn_lxor, (mul_tn_small 8 lo) by lia.
  change 32%nat with (8 + 24)%nat. rewrite mul_tn_add, (mul_tn_small 24 hi) by lia.
  change (Z.of_nat 24) with 24. change (Z.of_nat 8) with 8. lxor_ring.
Qed.

(** ** Fingerprints of byte strings *)
Definition fp_bytes (h : Z) (l : list Z) : Z := fold_left (fun h b => mul_tn 8 h .^ b) l h.

Lemma mul_tn_S n h : mul_tn n (mul_t h) = mul_tn (S n) h.
Proof. symmetry. apply Nat.iter_succ_r. Qed.

Lemma residue_bits n v h : (n <= 8)%nat ->
  fold_left residue_bit (bits n v) h = mul_tn n h .^ (v mod 2 ^ Z.of_nat n).
Proof.
  revert h. induction n as [|n IH]; intros h Hn.
  - cbn [bits fold_left]. change (2 ^ Z.of_nat 0) with 1. by rewrite Z.mod_1_r, Z.lxor_0_r.
  - cbn [bits fold_left]. rewrite IH by lia. unfold residue_bit.
    set (b := Z.testbit v (Z.of_nat n)).
    assert (0 <= b2i b < 2 ^ 1) by (destruct b; cbn; lia).
    assert (2 ^ 1 <= 2 ^ (32 - Z.of_nat n)) by (apply Z.pow_le_mono_r; lia).
    rewrite mul_tn_lxor, mul_tn_S, (mul_tn_small n (b2i b)), Z.lxor_assoc by lia. f_equal.
    apply Z.bits_inj'. intros i Hi. rewrite Z.lxor_spec.
    destruct (Z.lt_decidable i (Z.of_nat n)).
    { rewrite testbit_shiftl_low, !Z.mod_pow2_bits_low by lia. by rewrite xorb_false_l. }
    rewrite testbit_shiftl, (Z.mod_pow2_bits_high _ (Z.of_nat n)), xorb_false_r by lia.
    destruct (Z.eq_dec i (Z.of_nat n)) as [->|].
    + rewrite Z.sub_diag, Z.mod_pow2_bits_low by lia. fold b. by destruct b.
    + rewrite Z.mod_pow2_bits_high by lia. apply (testbit_high _ 1); lia.
Qed.

Lemma fingerprint_bytes l : Forall is_byte l -> fingerprint l = fp_bytes 0 l.
Proof.
  unfold fingerprint, fp_bytes. intros Hl.
  enough (forall h, fold_left residue_bit (bytes_bits l) h = fold_left (fun h b => mul_tn 8 h .^ b) l h) as H by apply H.
  induction Hl as [|b l Hb Hl IH]; intros h; [done|]. cbn [bytes_bits fold_left].
  rewrite fold_left_app, IH, residue_bits by lia. by rewrite Z.mod_small.
Qed.

Lemma fp_bytes_is32 h l : is32 h -> Forall is_byte l -> is32 (fp_bytes h l).
Proof.
  intros Hh Hl. revert h Hh. induction Hl as [|b l Hb Hl IH]; intros h Hh; [done|].
  apply IH, is32_lxor; [by apply mul_tn_is32|unfold is32; lia].
Qed.

Lemma mul_tn_0 n : mul_tn n 0 = 0.
Proof.
  induction n as [|n IH]; [done|]. change (mul_tn (S n) 0) with (mul_t (mul_tn n 0)). by rewrite IH.
Qed.

(** Linearity: what a value in front of the string contributes. *)
Lemma fp_bytes_lxor h k l : fp_bytes (h .^ k) l = mul_tn (8 * length l) h .^ fp_bytes k l.
Proof.
  revert h k. induction l as [|b l IH]; intros h k; [done|]. cbn [fp_bytes fold_left length].
  fold (fp_bytes (mul_tn 8 (h .^ k) .^ b) l). rewrite mul_tn_lxor, Z.lxor_assoc, IH.
  rewrite <- mul_tn_add. f_equal. f_equal. lia.
Qed.

Lemma fp_bytes_cons x l : fp_bytes 0 (x :: l) = mul_tn (8 * length l) x .^ fp_bytes 0 l.
Proof.
  change (fp_bytes 0 (x :: l)) with (fp_bytes (mul_tn 8 0 .^ x) l).
  rewrite mul_tn_0, Z.lxor_0_l. rewrite <- (Z.lxor_0_r x) at 1. apply fp_bytes_lxor.
Qed.

Lemma fp_bytes_snoc l b : fp_bytes 0 (l ++ [b]) = mul_tn 8 (fp_bytes 0 l) .^ b.
Proof. unfold fp_bytes. by rewrite fold_left_app. Qed.

(** The table of the byte leaving a window of [winlen] bytes. *)
Lemma fpmkwinredtab_spec tab wtab winlen x : red_ok tab -> 0 <= x < 256 ->
  fpmkwinredtab irrpoly winlen tab wtab x = mul_tn (8 * Z.to_nat (winlen - 1)) x.
Proof.
  intros Ht Hx. unfold fpmkwinredtab.
  rewrite (for_upd_pointwise 256 0 (fun i _ => fpwinreduce irrpoly winlen i tab)).
  rewrite in_range_b by lia. unfold fpwinreduce. cbv zeta.
  change ((u32 (0 << 8) .| x) .^ tab (0 >> 24)) with (byte_step tab 0 x).
  assert (byte_step tab 0 x = x) as ->.
  { rewrite byte_step_spec by (done || (unfold is32; lia)). by rewrite mul_tn_0, Z.lxor_0_l. }
  assert (is32 x) as Hx' by (unfold is32; lia).
  induction (Z.to_nat (winlen - 1)) as [|n IH]; [done|]. rewrite for_snoc, IH.
  set (w := mul_tn (8 * n) x). assert (is32 w) by (by apply mul_tn_is32).
  replace (8 * S n)%nat with (8 + 8 * n)%nat by lia. rewrite mul_tn_add. fold w.
  rewrite <- (Z.lxor_0_r (mul_tn 8 w)), <- (byte_step_spec tab w 0) by (done || lia).
  unfold byte_step. by rewrite Z.lor_0_r.
Qed.

Lemma rabininit_red winlen t w : red_ok (rabininit winlen t w).1.
Proof. intros i Hi. by apply fpmkredtab_spec. Qed.

Lemma rabininit_win winlen t w x : 0 <= x < 256 ->
  (rabininit winlen t w).2 x = mul_tn (8 * Z.to_nat (winlen - 1)) x.
Proof. intros Hx. apply fpmkwinredtab_spec; [|done]. intros i Hi. by apply fpmkredtab_spec. Qed.

(** ** The rolling fingerprint *)
Lemma rabinseg_loop_S rem p t w i h :
  rabinseg_loop (S rem) p t w i h =
  if byte_step t (h .^ w (p (i - NWINDOW))) (p i) .& RabinMask =? 0 then Some (i + 1)
  else rabinseg_loop rem p t w (i + 1) (byte_step t (h .^ w (p (i - NWINDOW))) (p i)).
Proof. reflexivity. Qed.

Section Rolling.
Context (p : Z -> Z) (p_bytes : bytes_ok p).

Lemma window_bytes i : Forall is_byte (window p i).
Proof. by apply ld_bytes_ok. Qed.

(** The window slides by one byte. *)
Lemma window_slide i : exists w, length w = 31%nat /\ Forall is_byte w /\
  window p i = p (i - NWINDOW) :: w /\ window p (i + 1) = w ++ [p i].
Proof.
  exists (ld_bytes 31 p (i - NWINDOW + 1)). split; [apply length_ld_bytes|]. split; [by apply ld_bytes_ok|]. split; [done|].
  - unfold window. replace (i + 1 - NWINDOW) with (i - NWINDOW + 1) by lia.
    change (Z.to_nat NWINDOW) with (31 + 1)%nat. rewrite ld_bytes_app. f_equal.
    cbn [ld_bytes]. unfold NWINDOW. f_equal. f_equal. lia.
Qed.

Context (tab wtab : Z -> Z) (tab_ok : red_ok tab)
  (wtab_ok : forall x, 0 <= x < 256 -> wtab x = mul_tn (8 * 31) x).

Lemma roll_step i : 
  byte_step tab (fingerprint (window p i) .^ wtab (p (i - NWINDOW))) (p i) = fingerprint (window p (i + 1)).
Proof.
  destruct (window_slide i) as (w & Lw & Bw & E1 & E2).
  rewrite !fingerprint_bytes by apply window_bytes. rewrite E1, E2, fp_bytes_snoc, fp_bytes_cons, Lw.
  rewrite wtab_ok by apply p_bytes.
  replace (mul_tn (8 * 31) (p (i - NWINDOW)) .^ fp_bytes 0 w .^ mul_tn (8 * 31) (p (i - NWINDOW)))
    with (fp_bytes 0 w) by lxor_ring.
  apply byte_step_spec; [done|by apply fp_bytes_is32|apply p_bytes].
Qed.

Lemma rabinseg_loop_spec rem i :
  rabinseg_loop rem p tab wtab i (fingerprint (window p i)) = first_anchor rem p (i + 1).
Proof.
  revert i. induction rem as [|rem IH]; intros i; [done|].
  rewrite rabinseg_loop_S, roll_step, IH. cbn [first_anchor]. unfold is_anchor at 1. reflexivity.
Qed.

Lemma first_window :
  for_ (Z.to_nat NWINDOW) 0 (fun i h => (u32 (h << 8) .| p i) .^ tab (h >> 24)) 0 =
  fingerprint (window p NWINDOW).
Proof.
  rewrite fingerprint_bytes by apply window_bytes. unfold window. rewrite Z.sub_diag.
  induction (Z.to_nat NWINDOW) as [|n IH]; [done|]. rewrite for_snoc, IH, Z.add_0_l.
  replace (S n) with (n + 1)%nat by lia. rewrite ld_bytes_app, Z.add_0_l. cbn [ld_bytes].
  rewrite fp_bytes_snoc. apply byte_step_spec; [done| |apply p_bytes].
  apply fp_bytes_is32; [unfold is32; lia|by apply ld_bytes_ok].
Qed.

Lemma rabinseg_first_anchor n winlen :
  rabinseg p n winlen tab wtab =
  if n <? NWINDOW then n
  else match first_anchor (S (Z.to_nat (n - NWINDOW))) p NWINDOW with Some i => i | None => n end.
Proof.
  unfold rabinseg. destruct (n <? NWINDOW); [done|]. cbv zeta. rewrite first_window.
  cbn [first_anchor]. unfold is_anchor at 1. destruct (_ =? 0); [done|].
  by rewrite rabinseg_loop_spec.
Qed.

End Rolling.

Lemma first_anchor_spec k p i :
  match first_anchor k p i with
  | Some r => i <= r < i + Z.of_nat k /\ is_anchor p r = true /\ (forall j, i <= j < r -> is_anchor p j = false)
  | None => forall j, i <= j < i + Z.of_nat k -> is_anchor p j = false
  end.
Proof.
  revert i. induction k as [|k IH]; intros i; cbn [first_anchor]; [intros; lia|].
  destruct (is_anchor p i) eqn:E.
  - split; [lia|]. split; [done|]. intros. lia.
  - specialize (IH (i + 1)). destruct (first_anchor k p (i + 1)) as [r|].
    + destruct IH as (H1 & H2 & H3). split; [lia|]. split; [done|].
      intros j Hj. destruct (Z.eq_dec j i) as [->|]; [done|]. apply H3. lia.
    + intros j Hj. destruct (Z.eq_dec j i) as [->|]; [done|]. apply IH. lia.
Qed.

(** Whatever the tables, a segment is not empty unless the buffer is. *)
Lemma rabinseg_loop_bounds rem p t w i h r :
  rabinseg_loop rem p t w i h = Some r -> i < r <= i + Z.of_nat rem.
Proof.
  revert i h. induction rem as [|rem IH]; intros i h E; cbn [rabinseg_loop] in E; [done|].
  destruct (_ =? 0); [injection E as <-; lia|]. apply IH in E. lia.
Qed.

Lemma rabinseg_bounds p n winlen t w : 0 < n ->
  0 < rabinseg p n winlen t w <= n /\ (rabinseg p n winlen t w < NWINDOW -> rabinseg p n winlen t w = n).
Proof.
  intros Hn. unfold rabinseg. destruct (Z.ltb_spec n NWINDOW); [lia|]. cbv zeta.
  destruct (_ =? 0); [unfold NWINDOW in *; lia|].
  destruct (rabinseg_loop _ _ _ _ _ _) as [r|] eqn:E; [|lia].
  apply rabinseg_loop_bounds in E. unfold NWINDOW in *; lia.
Qed.

(** C38: with the tables [rabininit] makes for a window of [NWINDOW] bytes, [rabinseg]
    returns the first position at least [NWINDOW] bytes in whose last [NWINDOW]
    bytes have a residue with twelve low zero bits, and the length of the buffer if
    there is none: where a buffer is cut depends on the bytes before the cut alone. *)
Theorem rabinseg_content_defined p n t w :
  bytes_ok p ->
  let '(rabintab, rabinwintab) := rabininit NWINDOW t w in
  let r := rabinseg p n NWINDOW rabintab rabinwintab in
  if n <? NWINDOW then r = n else
  NWINDOW <= r <= n /\ (r < n -> is_anchor p r = true) /\
  forall i, NWINDOW <= i < r -> is_anchor p i = false.
Proof.
  intros Hp. pose proof (rabininit_red NWINDOW t w) as H1. pose proof (rabininit_win NWINDOW t w) as H2.
  destruct (rabininit NWINDOW t w) as [tab wtab]. cbn [fst snd] in *. cbv zeta.
  rewrite (rabinseg_first_anchor p Hp tab wtab H1 H2). destruct (Z.ltb_spec n NWINDOW); [done|].
  pose proof (first_anchor_spec (S (Z.to_nat (n - NWINDOW))) p NWINDOW) as F.
  destruct (first_anchor _ _ _) as [r|].
  - destruct F as (F1 & F2 & F3). split; [lia|]. split; [done|exact F3].
  - split; [lia|]. split; [lia|]. intros i Hi. apply F. lia.
Qed.

(** ** The window length the encoder passes

    [rf_win] and [rf_win_dataprocess] are zero: the byte that leaves the window is
    taken out with the wrong weight. *)
Definition one_then_zeros : Z -> Z := fun i => if i =? 0 then 1 else 0.

(** With the window length 0 that encoder.c passes to [rabininit], a byte outside the
    window still decides: the two buffers agree from byte 1 on, and so in every window from
    the one that ends at 33 on, and their bytes there are zero, which is an anchor; but one
    is cut as soon as a window is full and the other is not cut at all. *)
Example rabinseg_window_leak :
  let '(rabintab, rabinwintab) := rabininit 0 (fun _ => 0) (fun _ => 0) in
  is_anchor (fun _ => 0) 33 = true /\ is_anchor one_then_zeros 33 = true /\
  rabinseg (fun _ => 0) 100 0 rabintab rabinwintab = 32 /\ rabinseg one_then_zeros 100 0 rabintab rabinwintab = 100.
Proof. vm_compute. repeat split. Qed.

Definition sample_bytes : Z -> Z := fun i => if (0 <=? i) && (i <? 40) then i + 1 else 0.

Lemma sample_bytes_ok : bytes_ok sample_bytes.
Proof. intros i. unfold sample_bytes. destruct (Z.leb_spec 0 i), (Z.ltb_spec i 40); cbn [andb]; lia. Qed.

Lemma rabinseg_content_defined_witness :
  let '(rabintab, rabinwintab) := rabininit NWINDOW (fun _ => 0) (fun _ => 0) in
  rabinseg sample_bytes 200 NWINDOW rabintab rabinwintab = 72 /\
  is_anchor sample_bytes 72 = true /\ forall i, 32 <= i < 72 -> is_anchor sample_bytes i = false.
Proof.
  pose proof (rabinseg_content_defined sample_bytes 200 (fun _ => 0) (fun _ => 0) sample_bytes_ok) as H.
  assert (rabinseg sample_bytes 200 NWINDOW (rabininit NWINDOW (fun _ => 0) (fun _ => 0)).1
    (rabininit NWINDOW (fun _ => 0) (fun _ => 0)).2 = 72) as E by (vm_compute; reflexivity).
  destruct (rabininit NWINDOW (fun _ => 0) (fun _ => 0)) as [tab wtab]. cbn [fst snd] in E.
  change (200 <? NWINDOW) with false in H. cbv zeta iota in H. rewrite E in *.
  destruct H as (_ & H2 & H3). split; [reflexivity|]. split; [apply H2; reflexivity|exact H3].
Defined.
