(* ===== verification/Hashtable.v ===== *)
(** * The hash table of dedup (hashtable.c, hashtable_private.h)

    A table of chains, its length a prime of a fixed list.  The three builds of the
    table are modelled (a plain one, one with locks, one that expands), and so is
    memory that runs out.  A table refines a finite map: [table_rep t m] says what map
    [t] stands for, every operation is shown to do to it what the map operation does,
    and clients use the table through the interface [Cache] alone. *)
From stdpp Require Import gmap.
From S2P Require Import Prelude.

Definition primes : list Z :=
  [ 53; 97; 193; 389;
    769; 1543; 3079; 6151;
    12289; 24593; 49157; 98317;
    196613; 393241; 786433; 1572869;
    3145739; 6291469; 12582917; 25165843;
    50331653; 100663319; 201326611; 402653189;
    805306457; 1610612741 ].
Definition prime_table_length : Z := Z.of_nat (length primes).

(** The size search of [hashtable_create]: the index and the size it ends with. *)
Fixpoint find_prime (l : list Z) (pindex size minsize : Z) : Z * Z :=
  match l with
  | [] => (pindex, size)
  | p :: l => if p >? minsize then (pindex, p) else find_prime l (pindex + 1) size minsize
  end.

Definition indexFor (tablelength hashvalue : Z) : Z := hashvalue mod tablelength.

(** How the table is built: with neither option, with [ENABLE_PTHREADS] or with
    [ENABLE_DYNAMIC_EXPANSION]; hashtable.h does not allow both. *)
Inductive build := Plain | Pthreads | Expanding.
Definition expanding (b : build) : bool := match b with Expanding => true | _ => false end.

(** A positive number rounded to a [float]: 24 significant bits, ties to even. *)
Definition f32_round (m : Z) : Z :=
  let e := Z.log2 m - 23 in
  if e <=? 0 then m
  else
    let q := m >> e in
    let r := m mod 2 ^ e in
    let h := 2 ^ (e - 1) in
    (q + (if (r >? h) || ((r =? h) && Z.odd q) then 1 else 0)) << e.
(** [max_load_factor], the [float] nearest to 0.65, over 2^24. *)
Definition max_load_factor : Z := 10905190.
(** [(unsigned int) ceil(size * max_load_factor)] *)
Definition load_limit (size : Z) : Z := u32 (- (- f32_round (f32_round size * max_load_factor) / 2 ^ 24)).

Section Table.
Context {K V : Type} (hashfn : K -> Z) (eqfn : K -> K -> bool) (config : build).
(** Whether the allocator answers the n-th request of a table with a block. *)
Context (malloc realloc : nat -> bool).

Record hash_entry := Entry { e_k : K; e_v : V; e_h : Z }.

(** [struct hashtable]: the chains, and the fields of the expanding build, which the
    others do not touch; [mallocs] counts the requests to the allocator. *)
Record hashtable := Hashtable {
  tablelength : Z;
  table : list (list hash_entry);
  entrycount : Z;
  loadlimit : Z;
  primeindex : Z;
  mallocs : nat
}.

(** The table, its chains and its locks are allocated. *)
Definition hashtable_create (minsize : Z) : option hashtable :=
  if minsize >? 1 << 30 then None
  else
    let '(pindex, size) := find_prime primes 0 (nth 0 primes 0) minsize in
    if negb (malloc 0) then None
    else if negb (malloc 1) then None
    else
      let h := Hashtable size (replicate (Z.to_nat size) []) 0 (load_limit size) pindex in
      match config with
      | Pthreads => if negb (malloc 2) then None else Some (h 3%nat)
      | _ => Some (h 2%nat)
      end.

Definition hash (k : K) : Z :=
  let i := u32 (hashfn k) in
  let i := u32 (i + u32 (Z.lnot (u32 (i << 9)))) in
  let i := i .^ ((i >> 14) .| u32 (i << 18)) in
  let i := u32 (i + u32 (i << 4)) in
  i .^ ((i >> 10) .| u32 (i << 22)).

(** [h->table[index]] *)
Definition chain (t : hashtable) (index : Z) : list hash_entry :=
  default [] (table t !! Z.to_nat index).

Definition set_chain (t : hashtable) (index : Z) (c : list hash_entry) : hashtable :=
  Hashtable (tablelength t) (<[Z.to_nat index := c]> (table t)) (entrycount t) (loadlimit t)
    (primeindex t) (mallocs t).
(** [entrycount] moved by [d], and a request to the allocator. *)
Definition count (t : hashtable) (d : Z) : hashtable :=
  Hashtable (tablelength t) (table t) (u32 (entrycount t + d)) (loadlimit t) (primeindex t) (mallocs t).
Definition asked (t : hashtable) : hashtable :=
  Hashtable (tablelength t) (table t) (entrycount t) (loadlimit t) (primeindex t) (S (mallocs t)).

(** Moving one chain, entry by entry, to the heads of the chains of [newtable]. *)
Definition expand_chain (newsize : Z) (c : list hash_entry) (newtable : list (list hash_entry)) :
    list (list hash_entry) :=
  fold_left (fun newtable e =>
    let index := Z.to_nat (indexFor newsize (e_h e)) in
    <[index := e :: default [] (newtable !! index)]> newtable) c newtable.

(** The result and the table.  [None] when plan B is tried and [realloc] gives a block:
    it then clears memory through [newtable[h->tablelength]], a pointer that nothing was
    stored in, and its behaviour is undefined. *)
Definition hashtable_expand (t : hashtable) : option (Z * hashtable) :=
  if primeindex t =? prime_table_length - 1 then Some (0, t)
  else
    let pi := primeindex t + 1 in
    let newsize := nth (Z.to_nat pi) primes 0 in
    if malloc (mallocs t) then
      let newtable := fold_left (fun nt c => expand_chain newsize c nt) (table t)
                        (replicate (Z.to_nat newsize) []) in
      Some (-1, Hashtable newsize newtable (entrycount t) (load_limit newsize) pi (S (mallocs t)))
    else if negb (realloc (mallocs t)) then Some (0, asked t)
    else None.

(** 0 when there is no memory for the entry, and -1 otherwise. *)
Definition hashtable_insert (t : hashtable) (k : K) (v : V) : option (Z * hashtable) :=
  let t := if expanding config then count t 1 else t in
  match (if expanding config && (entrycount t >? loadlimit t)
         then snd <$> hashtable_expand t else Some t) with
  | None => None
  | Some t =>
      if negb (malloc (mallocs t)) then
        let t := asked t in Some (0, if expanding config then count t (-1) else t)
      else
        let t := asked t in
        let h := hash k in
        let index := indexFor (tablelength t) h in
        Some (-1, set_chain t index (Entry k v h :: chain t index))
  end.

Fixpoint chain_search (c : list hash_entry) (hashvalue : Z) (k : K) : option V :=
  match c with
  | [] => None
  | e :: c => if (hashvalue =? e_h e) && eqfn k (e_k e) then Some (e_v e) else chain_search c hashvalue k
  end.

Definition hashtable_search (t : hashtable) (k : K) : option V :=
  let hashvalue := hash k in
  let index := indexFor (tablelength t) hashvalue in
  chain_search (chain t index) hashvalue k.

Fixpoint chain_remove (c : list hash_entry) (hashvalue : Z) (k : K) : option V * list hash_entry :=
  match c with
  | [] => (None, [])
  | e :: c =>
      if (hashvalue =? e_h e) && eqfn k (e_k e) then (Some (e_v e), c)
      else let '(v, c) := chain_remove c hashvalue k in (v, e :: c)
  end.

Definition hashtable_remove (t : hashtable) (k : K) : option V * hashtable :=
  let hashvalue := hash k in
  let index := indexFor (tablelength t) (hash k) in
  let '(v, c) := chain_remove (chain t index) hashvalue k in
  let t := set_chain t index c in
  (v, match v with Some _ => if expanding config then count t (-1) else t | None => t end).

(** ** What a table stands for *)
Record table_wf (t : hashtable) : Prop := {
  wf_length : Z.of_nat (length (table t)) = tablelength t;
  wf_pos : 0 < tablelength t;
  wf_entries : forall i c e, table t !! i = Some c -> e ∈ c ->
    e_h e = hash (e_k e) /\ Z.to_nat (indexFor (tablelength t) (e_h e)) = i;
  wf_prime : 0 <= primeindex t < prime_table_length
}.

Definition entries (t : hashtable) : list hash_entry := concat (table t).
End Table.

Arguments Entry {K V} _ _ _.
Arguments hash_entry : clear implicits.
Arguments hashtable : clear implicits.
Arguments Hashtable {K V} _ _ _ _ _ _.

(** * Refinement of a finite map *)
Lemma find_prime_spec l pindex size minsize pi sz :
  find_prime l pindex size minsize = (pi, sz) -> (exists p, p ∈ l /\ minsize < p) ->
  minsize < sz /\ pindex <= pi < pindex + Z.of_nat (length l).
Proof.
  revert pindex. induction l as [|p l IH]; intros pindex E (q & Hq & Hlt).
  - by apply elem_of_nil in Hq.
  - cbn [find_prime] in E. cbn [length]. destruct (Z.gtb_spec p minsize) as [Hp|Hp].
    + injection E as <- <-. lia.
    + destruct (IH _ E) as [H1 H2]; [|lia].
      apply elem_of_cons in Hq as [->|Hq]; [lia|]. by exists q.
Qed.

(** Replacing one list of a list of lists. *)
Lemma concat_insert {A} (l : list (list A)) i c c' :
  l !! i = Some c -> concat (<[i := c']> l) ++ c ≡ₚ concat l ++ c'.
Proof.
  revert i. induction l as [|a l IH]; intros i Hi; [done|]. destruct i as [|i]; cbn in Hi |- *.
  - injection Hi as ->. rewrite (Permutation_app_comm (c' ++ concat l) c), <- (app_assoc c).
    by rewrite (Permutation_app_comm c').
  - rewrite <- !app_assoc. by rewrite IH.
Qed.

Section Refinement.
Context {K V : Type} `{Countable K} (hashfn : K -> Z) (eqfn : K -> K -> bool).
Context (config : build) (malloc realloc : nat -> bool).
Context (eqfn_spec : forall k k', eqfn k k' = true <-> k = k').
Implicit Types (t : hashtable K V) (m : gmap K V) (c : list (hash_entry K V)).
Local Abbreviation h_expand := (hashtable_expand malloc realloc).
Local Abbreviation h_insert := (hashtable_insert hashfn config malloc realloc).
Local Abbreviation h_remove := (hashtable_remove hashfn eqfn config).

Definition kv (e : hash_entry K V) : K * V := (e_k e, e_v e).

Record table_rep t m : Prop := {
  rep_wf : table_wf hashfn t;
  rep_kv : kv <$> entries t ≡ₚ map_to_list m;
  rep_count : expanding config = true -> entrycount t = u32 (Z.of_nat (size m))
}.

(** The counters are no part of what a table holds. *)
Definition same_chains t t' : Prop :=
  tablelength t' = tablelength t /\ table t' = table t /\ primeindex t' = primeindex t.
Lemma same_chains_wf t t' : same_chains t t' -> table_wf hashfn t -> table_wf hashfn t'.
Proof. intros (E1 & E2 & E3) [H1 H2 H3 H4]. split; rewrite ?E1, ?E2, ?E3; done. Qed.
Lemma same_chains_rep t t' m : same_chains t t' -> entrycount t' = entrycount t -> table_rep t m -> table_rep t' m.
Proof.
  intros E Ec [Hwf Hkv Hc]. split; [by apply (same_chains_wf t)| |by rewrite Ec].
  destruct E as (_ & E2 & _). unfold entries in *. by rewrite E2.
Qed.
Lemma asked_rep t m : table_rep t m -> table_rep (asked t) m.
Proof. by apply same_chains_rep. Qed.

Lemma index_lt t k : table_wf hashfn t ->
  exists c, table t !! Z.to_nat (indexFor (tablelength t) (hash hashfn k)) = Some c.
Proof.
  intros [H1 H2 _ _]. apply lookup_lt_is_Some_2. unfold indexFor.
  pose proof (Z.mod_pos_bound (hash hashfn k) (tablelength t) H2). lia.
Qed.

Lemma chain_lookup t i c : table t !! Z.to_nat i = Some c -> chain t i = c.
Proof. unfold chain. by intros ->. Qed.

Lemma elem_of_entries t e : e ∈ entries t <-> exists i c, table t !! i = Some c /\ e ∈ c.
Proof.
  unfold entries. rewrite list_elem_of_In, in_concat. split.
  - intros (c & Hc & He). apply list_elem_of_In, list_elem_of_lookup in Hc as [i Hi].
    exists i, c. by rewrite list_elem_of_In.
  - intros (i & c & Hi & He). exists c. rewrite <- !list_elem_of_In. split; [|done].
    by eapply list_elem_of_lookup_2.
Qed.

(** The entries of a key are in its chain, and there is at most one. *)
Lemma rep_lookup t m k v : table_rep t m -> m !! k = Some v <->
  exists e, e ∈ chain t (indexFor (tablelength t) (hash hashfn k)) /\
    e_h e = hash hashfn k /\ e_k e = k /\ e_v e = v.
Proof.
  intros [Hwf Hkv _]. destruct (index_lt t k Hwf) as [c Hc]. rewrite (chain_lookup _ _ _ Hc).
  rewrite <- elem_of_map_to_list, <- Hkv, list_elem_of_fmap. split.
  - intros (e & [= Ek Ev] & He). apply elem_of_entries in He as (i & c' & Hi & He).
    destruct (wf_entries _ _ Hwf i c' e Hi He) as [Eh Ei]. rewrite Eh, <- Ek in Ei.
    subst i. rewrite Hc in Hi. injection Hi as <-. exists e. by rewrite Eh, <- Ek, Ev.
  - intros (e & He & _ & Ek & Ev). exists e. unfold kv. rewrite Ek, Ev. split; [done|].
    apply elem_of_entries. eauto.
Qed.

Lemma chain_search_spec c h k :
  match chain_search eqfn c h k with
  | Some v => exists e, e ∈ c /\ e_h e = h /\ e_k e = k /\ e_v e = v
  | None => forall e, e ∈ c -> e_h e = h -> e_k e <> k
  end.
Proof.
  induction c as [|e c IH]; cbn [chain_search]; [intros e He; by apply elem_of_nil in He|].
  destruct (Z.eqb_spec h (e_h e)) as [Eh|Eh]; [destruct (eqfn k (e_k e)) eqn:Ek|]; cbn [andb].
  - apply eqfn_spec in Ek. exists e. split; [apply elem_of_cons; by left|done].
  - destruct (chain_search _ _ _ _).
    + destruct IH as (e' & He' & IH). exists e'. split; [apply elem_of_cons; by right|done].
    + intros e' [->|He']%elem_of_cons Eh' Ek'; [|by eapply IH].
      rewrite (proj2 (eqfn_spec k (e_k e)) (eq_sym Ek')) in Ek. done.
  - destruct (chain_search _ _ _ _).
    + destruct IH as (e' & He' & IH). exists e'. split; [apply elem_of_cons; by right|done].
    + intros e' [->|He']%elem_of_cons Eh' Ek'; [congruence|by eapply IH].
Qed.

Lemma search_refines t m k : table_rep t m -> hashtable_search hashfn eqfn t k = m !! k.
Proof.
  intros Hr. unfold hashtable_search. cbv zeta.
  pose proof (chain_search_spec (chain t (indexFor (tablelength t) (hash hashfn k))) (hash hashfn k) k) as S.
  destruct (chain_search _ _ _ _) as [v|].
  - symmetry. by apply (rep_lookup t m k v Hr).
  - destruct (m !! k) as [v|] eqn:E; [|done].
    apply (rep_lookup t m k v Hr) in E as (e & He & Eh & Ek & _). by destruct (S e He Eh).
Qed.

(** Replacing the chain of a key's index by one whose entries belong there. *)
Lemma set_chain_wf t i c : table_wf hashfn t ->
  (forall e, e ∈ c -> e_h e = hash hashfn (e_k e) /\ Z.to_nat (indexFor (tablelength t) (e_h e)) = Z.to_nat i) ->
  table_wf hashfn (set_chain t i c).
Proof.
  intros [H1 H2 H3 H4] Hc. split; cbn [set_chain table tablelength primeindex]; [by rewrite length_insert|done| |done].
  intros j c' e Hj He. apply list_lookup_insert_Some in Hj as [(<- & <- & _)|[_ Hj]].
  - destruct (Hc e He) as [E1 E2]. done.
  - by apply (H3 j c').
Qed.

(** A new entry at the head of its chain; the count is the caller's. *)
Lemma set_chain_rep t m k v : table_wf hashfn t -> kv <$> entries t ≡ₚ map_to_list m -> m !! k = None ->
  (expanding config = true -> entrycount t = u32 (Z.of_nat (S (size m)))) ->
  let index := indexFor (tablelength t) (hash hashfn k) in
  table_rep (set_chain t index (Entry k v (hash hashfn k) :: chain t index)) (<[k := v]> m).
Proof.
  intros Hwf Hkv Hk Hcount. cbv zeta.
  destruct (index_lt t k Hwf) as [c Hc]. rewrite (chain_lookup _ _ _ Hc). split.
  - apply set_chain_wf; [done|]. intros e [->|He]%elem_of_cons; [done|].
    by apply (wf_entries _ _ Hwf _ c).
  - unfold entries. cbn [set_chain table].
    rewrite map_to_list_insert by done. rewrite <- Hkv.
    apply (Permutation_app_inv_r (kv <$> c)). rewrite <- fmap_app, (concat_insert _ _ _ _ Hc).
    rewrite fmap_app. cbn [fmap list_fmap]. unfold entries, kv at 2. cbn [e_k e_v].
    by rewrite <- Permutation_middle.
  - by rewrite map_size_insert_None.
Qed.

Lemma chain_remove_spec c h k :
  match chain_remove eqfn c h k with
  | (Some v, c') => exists e, c ≡ₚ e :: c' /\ e_h e = h /\ e_k e = k /\ e_v e = v
  | (None, c') => c' = c /\ forall e, e ∈ c -> e_h e = h -> e_k e <> k
  end.
Proof.
  induction c as [|e c IH]; cbn [chain_remove]; [split; [done|intros e He; by apply elem_of_nil in He]|].
  destruct ((h =? e_h e) && eqfn k (e_k e)) eqn:Em.
  - apply andb_prop in Em as [Eh%Z.eqb_eq Ek%eqfn_spec]. by exists e.
  - destruct (chain_remove eqfn c h k) as [[v|] c'].
    + destruct IH as (e' & He' & IH). exists e'. split; [|done].
      rewrite He'. apply Permutation_swap.
    + destruct IH as [-> IH]. split; [done|]. intros e' [->|He']%elem_of_cons Eh Ek; [|by eapply IH].
      rewrite (proj2 (Z.eqb_eq h (e_h e)) (eq_sym Eh)), (proj2 (eqfn_spec k (e_k e)) (eq_sym Ek)) in Em. done.
Qed.

Lemma u32_pred n n' : n' = (n - 1)%nat -> n <> 0%nat -> u32 (u32 (Z.of_nat n) + -1) = u32 (Z.of_nat n').
Proof.
  intros -> Hn. unfold u32, uw. rewrite Zplus_mod_idemp_l. f_equal. lia.
Qed.
Lemma u32_succ n : u32 (u32 (Z.of_nat n) + 1) = u32 (Z.of_nat (S n)).
Proof. unfold u32, uw. rewrite Zplus_mod_idemp_l. f_equal. lia. Qed.

Lemma remove_refines t m k : table_rep t m ->
  (h_remove t k).1 = m !! k /\ table_rep (h_remove t k).2 (delete k m).
Proof.
  intros Hr. pose proof Hr as [Hwf Hkv Hcount]. unfold hashtable_remove. cbv zeta.
  destruct (index_lt t k Hwf) as [c Hc]. rewrite (chain_lookup _ _ _ Hc).
  pose proof (chain_remove_spec c (hash hashfn k) k) as R.
  set (i := indexFor (tablelength t) (hash hashfn k)) in *.
  assert (forall e, e ∈ c -> e_h e = hash hashfn (e_k e) /\ Z.to_nat (indexFor (tablelength t) (e_h e)) = Z.to_nat i)
    as Hin by (intros e He; by apply (wf_entries _ _ Hwf _ c)).
  pose proof (concat_insert (table t) (Z.to_nat i) c (chain_remove eqfn c (hash hashfn k) k).2 Hc) as P.
  destruct (chain_remove eqfn c (hash hashfn k) k) as [[v|] c'] eqn:E; cbn [fst snd] in *.
  - destruct R as (e & Pe & Eh & Ek & Ev).
    assert (m !! k = Some v) as Hm.
    { apply (rep_lookup t m k v Hr). exists e. fold i. rewrite (chain_lookup _ _ _ Hc). split; [|done].
      rewrite Pe. apply elem_of_cons. by left. }
    assert (kv <$> entries (set_chain t i c') ≡ₚ map_to_list (delete k m)) as Pd.
    { unfold entries in *. cbn [set_chain table]. rewrite Pe in P.
      assert (e :: concat (<[Z.to_nat i:=c']> (table t)) ≡ₚ concat (table t)) as P'.
      { apply (Permutation_app_inv_r c'). rewrite <- P. cbn [app]. by rewrite Permutation_middle. }
      rewrite <- P' in Hkv. cbn [fmap list_fmap] in Hkv.
      rewrite <- (map_to_list_delete m k v Hm) in Hkv. unfold kv at 1 in Hkv. rewrite Ek, Ev in Hkv.
      by apply Permutation_cons_inv in Hkv. }
    assert (table_wf hashfn (set_chain t i c')) as Hw
      by (apply set_chain_wf; [done|]; intros e' He'; apply Hin; rewrite Pe; apply elem_of_cons; by right).
    split; [done|]. split.
    + apply (same_chains_wf (set_chain t i c')); [by destruct (expanding config)|done].
    + destruct (expanding config); exact Pd.
    + intros X. rewrite X. cbn [count set_chain entrycount].
      rewrite (Hcount X). apply u32_pred; [rewrite map_size_delete_Some by (by rewrite Hm); lia|].
      intros Z0%map_size_empty_iff. by rewrite Z0, lookup_empty in Hm.
  - destruct R as [-> R]. assert (m !! k = None) as Hm.
    { destruct (m !! k) as [v|] eqn:Em; [|done]. exfalso.
      apply (rep_lookup t m k v Hr) in Em as (e & He & Eh & Ek & _). fold i in He.
      rewrite (chain_lookup _ _ _ Hc) in He. by apply (R e). }
    rewrite delete_id by done. split; [done|]. split; [by apply set_chain_wf| |done].
    unfold entries in *. cbn [set_chain table]. rewrite list_insert_id by done. exact Hkv.
Qed.

(** ** Expansion moves every entry once *)
Definition placed (newsize : Z) (nt : list (list (hash_entry K V))) : Prop :=
  Z.of_nat (length nt) = newsize /\
  forall i c e, nt !! i = Some c -> e ∈ c ->
    e_h e = hash hashfn (e_k e) /\ Z.to_nat (indexFor newsize (e_h e)) = i.

Lemma expand_chain_spec newsize c nt : 0 < newsize -> placed newsize nt ->
  (forall e, e ∈ c -> e_h e = hash hashfn (e_k e)) ->
  placed newsize (expand_chain newsize c nt) /\ concat (expand_chain newsize c nt) ≡ₚ c ++ concat nt.
Proof.
  intros Hn. revert nt. induction c as [|e c IH]; intros nt Hp Hc; [by split|].
  destruct Hp as [Hl Hp]. cbn [expand_chain fold_left]. set (i := Z.to_nat (indexFor newsize (e_h e))).
  destruct (lookup_lt_is_Some_2 nt i) as [ch Hch].
  { unfold i, indexFor. pose proof (Z.mod_pos_bound (e_h e) newsize Hn). lia. }
  rewrite Hch. cbn [default]. destruct (IH (<[i := e :: ch]> nt)) as [Q1 Q2].
  - split; [by rewrite length_insert|]. intros j c' e' Hj He'.
    apply list_lookup_insert_Some in Hj as [(<- & <- & _)|[_ Hj]]; [|by apply (Hp j c')].
    apply elem_of_cons in He' as [->|He']; [|by apply (Hp i ch)].
    split; [|done]. apply Hc, elem_of_cons. by left.
  - intros e' He'. apply Hc, elem_of_cons. by right.
  - split; [exact Q1|]. rewrite Q2. rewrite <- app_comm_cons, Permutation_middle. apply Permutation_app_head.
    apply (Permutation_app_inv_r ch). rewrite (concat_insert _ _ _ _ Hch).
    cbn [app]. by rewrite Permutation_middle.
Qed.

(** What is left undefined: plan B with a block. *)
Definition plan_b_block : Prop := exists i, malloc i = false /\ realloc i = true.

Lemma expand_chains t : table_wf hashfn t ->
  match h_expand t with
  | Some (r, t') => table_wf hashfn t' /\ entries t' ≡ₚ entries t /\ entrycount t' = entrycount t /\ (r = 0 \/ r = -1)
  | None => plan_b_block
  end.
Proof.
  intros Hwf. unfold hashtable_expand. destruct (Z.eqb_spec (primeindex t) (prime_table_length - 1)); [split; [done|split; [done|split; [done|by left]]]|].
  destruct (malloc (mallocs t)) eqn:Em.
  2: { destruct (realloc (mallocs t)) eqn:Er; cbn [negb]; [by exists (mallocs t)|].
       split; [by apply (same_chains_wf t)|by split; [|split; [|left]]]. }
  pose proof (wf_prime _ _ Hwf) as Hpi.
  set (newsize := nth (Z.to_nat (primeindex t + 1)) primes 0). cbv zeta.
  assert (0 < newsize) as Hn.
  { assert (forallb (fun p => 0 <? p) primes = true) as Hall by reflexivity.
    rewrite forallb_forall in Hall. apply Z.ltb_lt, Hall, nth_In. unfold prime_table_length in *. lia. }
  assert (forall l nt, placed newsize nt -> (forall c e, c ∈ l -> e ∈ c -> e_h e = hash hashfn (e_k e)) ->
    placed newsize (fold_left (fun nt c => expand_chain newsize c nt) l nt) /\
    concat (fold_left (fun nt c => expand_chain newsize c nt) l nt) ≡ₚ concat l ++ concat nt) as HF.
  { clear - Hn eqfn_spec. intros l. induction l as [|c l IH]; intros nt Hp Hl; [by split|].
    destruct (expand_chain_spec newsize c nt Hn Hp) as [Q1 Q2];
      [intros e He; apply (Hl c e); [apply elem_of_cons; by left|done]|].
    destruct (IH (expand_chain newsize c nt) Q1) as [R1 R2];
      [intros c' e Hc' He; apply (Hl c' e); [apply elem_of_cons; by right|done]|].
    split; [exact R1|]. cbn [fold_left concat]. rewrite R2, Q2, !app_assoc.
    apply Permutation_app_tail, Permutation_app_comm. }
  destruct (HF (table t) (replicate (Z.to_nat newsize) [])) as [[L P] Pm].
  - split; [rewrite length_replicate; lia|]. intros i c e Hi He.
    apply lookup_replicate in Hi as [-> _]. by apply elem_of_nil in He.
  - intros c e Hc He. apply list_elem_of_lookup in Hc as [i Hi]. by apply (wf_entries _ _ Hwf i c).
  - split; [split; cbn [table tablelength primeindex]; [done|done|exact P|lia]|].
    split; [|by split; [|right]]. unfold entries in *. cbn [table]. rewrite Pm.
    replace (concat (replicate (Z.to_nat newsize) [])) with (@nil (hash_entry K V)); [by rewrite app_nil_r|].
    clear. induction (Z.to_nat newsize); [done|]. by cbn.
Qed.

Lemma expand_refines t m : table_rep t m ->
  match h_expand t with
  | Some (r, t') => table_rep t' m /\ entrycount t' = entrycount t /\ (r = 0 \/ r = -1)
  | None => plan_b_block
  end.
Proof.
  intros [Hwf Hkv Hcount]. pose proof (expand_chains t Hwf) as E. destruct (h_expand t) as [[r t']|]; [|done].
  destruct E as (E1 & E2 & E3 & E4). split; [|done]. split; [done|by rewrite E2|by rewrite E3].
Qed.

(** The table an entry is put into: the count, and the expansion above the load limit. *)
Lemma insert_expands t : table_wf hashfn t ->
  match (let t := if expanding config then count t 1 else t in
         if expanding config && (entrycount t >? loadlimit t) then snd <$> h_expand t else Some t) with
  | Some t' => table_wf hashfn t' /\ entries t' ≡ₚ entries t /\
      (expanding config = true -> entrycount t' = u32 (entrycount t + 1))
  | None => expanding config = true /\ plan_b_block
  end.
Proof.
  intros Hwf. cbv zeta. destruct (expanding config) eqn:X; cbn [andb]; [|done].
  assert (table_wf hashfn (count t 1)) as Hwf1 by (by apply (same_chains_wf t)).
  destruct (_ >? _); [|done]. pose proof (expand_chains (count t 1) Hwf1) as E.
  destruct (h_expand (count t 1)) as [[r t']|]; [|done]. destruct E as (E1 & E2 & E3 & _). done.
Qed.

(** Whatever is inserted, and however often, the table stays well formed. *)
Lemma insert_wf t k v : table_wf hashfn t ->
  match h_insert t k v with
  | Some (r, t') => table_wf hashfn t' /\ (r = -1 \/ r = 0 /\ exists i, malloc i = false)
  | None => expanding config = true /\ plan_b_block
  end.
Proof.
  intros Hwf. pose proof (insert_expands t Hwf) as E. unfold hashtable_insert. cbv zeta in *.
  destruct (if _ && _ then _ else _) as [t1|]; [|done]. destruct E as (E1 & _ & _).
  destruct (malloc (mallocs t1)) eqn:Em; cbn [negb].
  - split; [|by left]. assert (table_wf hashfn (asked t1)) as Hwf1 by (by apply (same_chains_wf t1)).
    apply set_chain_wf; [done|]. destruct (index_lt (asked t1) k Hwf1) as [c Hc]. rewrite (chain_lookup _ _ _ Hc).
    intros e [->|He]%elem_of_cons; [done|]. by apply (wf_entries _ _ Hwf1 _ c).
  - split; [|right; eauto]. apply (same_chains_wf t1); [by destruct (expanding config)|done].
Qed.

(** An insertion adds the entry, or fails and changes nothing that the table holds. *)
Lemma insert_refines t m k v r t' : table_rep t m -> m !! k = None -> h_insert t k v = Some (r, t') ->
  table_rep t' (if r =? 0 then m else <[k := v]> m).
Proof.
  intros [Hwf Hkv Hcount] Hk. pose proof (insert_expands t Hwf) as E. unfold hashtable_insert. cbv zeta in *.
  destruct (if _ && _ then _ else _) as [t1|]; [|done]. destruct E as (E1 & E2 & E3).
  destruct (malloc (mallocs t1)) eqn:Em; cbn [negb]; intros [= <- <-].
  - change (-1 =? 0) with false. cbv iota.
    apply (set_chain_rep (asked t1)); [by apply (same_chains_wf t1)|by rewrite <- Hkv, <- E2|done|].
    intros X. cbn [asked entrycount]. rewrite E3, Hcount by done. apply u32_succ.
  - change (0 =? 0) with true. cbv iota. split.
    + apply (same_chains_wf t1); [by destruct (expanding config)|done].
    + rewrite <- Hkv, <- E2. by destruct (expanding config).
    + intros X. rewrite X. cbn [count asked entrycount]. rewrite E3, Hcount by done.
      rewrite u32_succ. apply u32_pred; lia.
Qed.

Lemma create_refines minsize : 0 <= minsize ->
  match hashtable_create config malloc minsize with
  | Some t => table_rep t ∅ /\ minsize < tablelength t
  | None => 2 ^ 30 < minsize \/ exists i, malloc i = false
  end.
Proof.
  intros H0. unfold hashtable_create. change (1 << 30) with (2 ^ 30).
  destruct (Z.gtb_spec minsize (2 ^ 30)) as [|Hm]; [by left|].
  destruct (find_prime primes 0 (nth 0 primes 0) minsize) as [pi sz] eqn:E.
  apply find_prime_spec in E as [H1 H2].
  2: { exists 1610612741. split; [|lia]. do 25 (apply elem_of_cons; right). apply elem_of_cons. by left. }
  destruct (malloc 0) eqn:M0; cbn [negb]; [|eauto]. destruct (malloc 1) eqn:M1; cbn [negb]; [|eauto].
  assert (concat (replicate (Z.to_nat sz) []) = @nil (hash_entry K V)) as En
    by (clear; induction (Z.to_nat sz); [done|by cbn]).
  assert (forall n, table_rep (Hashtable sz (replicate (Z.to_nat sz) []) 0 (load_limit sz) pi n) ∅) as R.
  { intros n. split; [split; cbn [table tablelength primeindex]| |].
    - rewrite length_replicate. lia.
    - lia.
    - intros i c e Hi He. apply lookup_replicate in Hi as [-> _]. by apply elem_of_nil in He.
    - unfold prime_table_length. lia.
    - unfold entries. cbn [table]. by rewrite En, map_to_list_empty.
    - by rewrite map_size_empty. }
  destruct config; [by split|destruct (malloc 2) eqn:M2; cbn [negb]; [by split|eauto]|by split].
Qed.

(** ** Sequences of operations *)
Inductive table_op := OpInsert (k : K) (v : V) | OpSearch (k : K) | OpRemove (k : K) | OpExpand.

(** What an operation returns: a value, or whether an insertion or an expansion succeeded. *)
Inductive table_res := RValue (v : option V) | RDone (r : Z).

Definition run_op (op : table_op) (t : hashtable K V) : option (table_res * hashtable K V) :=
  match op with
  | OpInsert k v => '(r, t) ← h_insert t k v; Some (RDone r, t)
  | OpSearch k => Some (RValue (hashtable_search hashfn eqfn t k), t)
  | OpRemove k => let '(v, t) := h_remove t k in Some (RValue v, t)
  | OpExpand => '(r, t) ← h_expand t; Some (RDone r, t)
  end.

Fixpoint run_ops (ops : list table_op) (t : hashtable K V) : option (list table_res) :=
  match ops with
  | [] => Some []
  | op :: ops => '(r, t) ← run_op op t; rs ← run_ops ops t; Some (r :: rs)
  end.

(** The answers of a finite map to operations that insert no key twice: an insertion that
    reports a failure leaves the map as it was. *)
Inductive map_ops : list table_op -> gmap K V -> list table_res -> Prop :=
  | map_nil m : map_ops [] m []
  | map_insert k v m ops rs r : (m !! k = None -> map_ops ops (if r =? 0 then m else <[k := v]> m) rs) ->
      (r = -1 \/ r = 0 /\ exists i, malloc i = false) ->
      map_ops (OpInsert k v :: ops) m (RDone r :: rs)
  | map_search k m ops rs : map_ops ops m rs -> map_ops (OpSearch k :: ops) m (RValue (m !! k) :: rs)
  | map_remove k m ops rs : map_ops ops (delete k m) rs -> map_ops (OpRemove k :: ops) m (RValue (m !! k) :: rs)
  | map_expand m ops rs r : map_ops ops m rs -> r = -1 \/ r = 0 -> map_ops (OpExpand :: ops) m (RDone r :: rs).

Lemma remove_wf t k : table_wf hashfn t -> table_wf hashfn (h_remove t k).2.
Proof.
  intros Hwf. unfold hashtable_remove. cbv zeta. destruct (index_lt t k Hwf) as [c Hc]. rewrite (chain_lookup _ _ _ Hc).
  pose proof (chain_remove_spec c (hash hashfn k) k) as R. set (i := indexFor _ _) in *.
  destruct (chain_remove eqfn c (hash hashfn k) k) as [v c']. cbn [snd].
  assert (table_wf hashfn (set_chain t i c')) as W.
  { apply set_chain_wf; [done|]. intros e He. apply (wf_entries _ _ Hwf _ c); [done|]. destruct v as [v|].
    - destruct R as (e' & Pe & _). rewrite Pe. apply elem_of_cons. by right.
    - by destruct R as [-> _]. }
  destruct v; [destruct (expanding config)|]; [by apply (same_chains_wf (set_chain t i c'))|done|done].
Qed.

Lemma run_op_wf op t : table_wf hashfn t ->
  match run_op op t with Some (_, t') => table_wf hashfn t' | None => plan_b_block end.
Proof.
  intros Hwf. destruct op as [k v|k|k|]; cbn [run_op].
  - pose proof (insert_wf t k v Hwf) as I. destruct (h_insert t k v) as [[r t']|]; cbn; tauto.
  - done.
  - pose proof (remove_wf t k Hwf). by destruct (h_remove t k).
  - pose proof (expand_chains t Hwf) as E. destruct (h_expand t) as [[r t']|]; cbn; tauto.
Qed.

Lemma run_ops_defined ops t : table_wf hashfn t -> run_ops ops t = None -> plan_b_block.
Proof.
  revert t. induction ops as [|op ops IH]; intros t Hwf; cbn [run_ops]; [done|].
  pose proof (run_op_wf op t Hwf) as W. destruct (run_op op t) as [[r t']|]; cbn; [|done].
  destruct (run_ops ops t') eqn:E; cbn; [done|]. intros _. by apply (IH t').
Qed.

Lemma run_ops_refines ops : forall t m rs, table_rep t m -> run_ops ops t = Some rs -> map_ops ops m rs.
Proof.
  induction ops as [|op ops IH]; intros t m rs Hr; cbn [run_ops]; [intros [= <-]; constructor|].
  intros ([r t'] & Eop & (rs' & E & [= <-])%bind_Some)%bind_Some.
  destruct op as [k v|k|k|]; cbn [run_op] in Eop.
  - apply bind_Some in Eop as ([r' t1] & Ei & [= <- <-]). pose proof (insert_wf t k v (rep_wf t m Hr)) as W.
    rewrite Ei in W. constructor; [|apply W]. intros Hk. apply (IH t1); [|done].
    by apply (insert_refines t m k v r' t1).
  - injection Eop as <- <-. rewrite (search_refines t m k Hr). constructor. by apply (IH t).
  - destruct (remove_refines t m k Hr) as [R1 R2]. destruct (h_remove t k) as [v t1]. injection Eop as <- <-.
    cbn [fst snd] in *. rewrite R1. constructor. by apply (IH t1).
  - apply bind_Some in Eop as ([r' t1] & Ei & [= <- <-]). pose proof (expand_refines t m Hr) as X.
    rewrite Ei in X. destruct X as (X1 & _ & X2). constructor; [by apply (IH t1)|tauto].
Qed.

(** C39: a table answers every sequence of searches, insertions of keys it does not
    hold, removals and expansions as a finite map does, whatever the hash function and
    the build, and also when memory runs out: an insertion fails only then, and leaves the
    contents as they were.  Only a block that [realloc] gives after [malloc] gave none
    leaves the behaviour undefined.  A new table has more chains than asked for, and none
    is made above 2^30. *)
Theorem hashtable_refines_map minsize ops : 0 <= minsize ->
  match hashtable_create config malloc minsize with
  | Some t => minsize < tablelength t /\
      match run_ops ops t with Some rs => map_ops ops ∅ rs | None => plan_b_block end
  | None => 2 ^ 30 < minsize \/ exists i, malloc i = false
  end.
Proof.
  intros H0. pose proof (create_refines minsize H0) as Hc.
  destruct (hashtable_create _ _ minsize) as [t|]; [|done]. destruct Hc as [Hr Hm]. split; [done|].
  destruct (run_ops ops t) as [rs|] eqn:E; [apply (run_ops_refines ops t ∅ rs Hr E)|].
  apply (run_ops_defined ops t); [apply Hr|done].
Qed.

End Refinement.

(** * The interface of a chunk cache

    What the encoder and the decoder use of the table: a relation to a finite map
    that creation, search and insertion respect. *)
Class Cache (T K V : Type) := {
  cache_create : Z -> option T;
  cache_search : T -> K -> option V;
  cache_insert : T -> K -> V -> option T
}.

(** The laws of a cache whose memory does not run out. *)
Class CacheLaws {T K V} `{Countable K} (C : Cache T K V) := {
  cache_rep : T -> gmap K V -> Prop;
  law_create : forall minsize, 0 <= minsize <= 2 ^ 30 ->
    exists t, cache_create minsize = Some t /\ cache_rep t ∅;
  law_search : forall t m k, cache_rep t m -> cache_search t k = m !! k;
  law_insert : forall t m k v, cache_rep t m -> m !! k = None ->
    exists t', cache_insert t k v = Some t' /\ cache_rep t' (<[k := v]> m)
}.

(** The table as both builds of dedup use it, which do not expand it: the failure of an
    insertion ends the program. *)
Definition hashtable_cache {K V : Type} (hashfn : K -> Z) (eqfn : K -> K -> bool)
    (config : build) (malloc realloc : nat -> bool) : Cache (hashtable K V) K V := {|
  cache_create := hashtable_create config malloc;
  cache_search := hashtable_search hashfn eqfn;
  cache_insert := fun t k v =>
    match hashtable_insert hashfn config malloc realloc t k v with
    | Some (r, t) => if r =? 0 then None else Some t
    | None => None
    end
|}.

Section Laws.
Context {K V : Type} `{Countable K} (hashfn : K -> Z) (eqfn : K -> K -> bool).
Context (eqfn_spec : forall k k', eqfn k k' = true <-> k = k').
Context (config : build) (malloc realloc : nat -> bool) (malloc_ok : forall i, malloc i = true).
Implicit Types (t : hashtable K V) (m : gmap K V).

Lemma create_succeeds minsize : 0 <= minsize <= 2 ^ 30 ->
  exists t, hashtable_create (K := K) (V := V) config malloc minsize = Some t /\ table_rep hashfn config t ∅.
Proof.
  intros Hm. pose proof (create_refines (V := V) hashfn config malloc minsize (proj1 Hm)) as C.
  destruct (hashtable_create _ _ minsize) as [t|] eqn:E; [exists t; split; [done|apply C]|].
  destruct C as [C|[i C]]; [lia|by rewrite malloc_ok in C].
Qed.

Lemma insert_succeeds t k v : table_wf hashfn t ->
  exists t', hashtable_insert hashfn config malloc realloc t k v = Some (-1, t').
Proof.
  intros Hwf. pose proof (insert_wf hashfn config malloc realloc t k v Hwf) as I.
  destruct (hashtable_insert _ _ _ _ t k v) as [[r t']|].
  - destruct I as [_ [->|[_ [i I]]]]; [by exists t'|by rewrite malloc_ok in I].
  - destruct I as [_ (i & I & _)]. by rewrite malloc_ok in I.
Qed.
End Laws.

#[refine] Instance hashtable_cache_laws {K V} `{Countable K} (hashfn : K -> Z) (eqfn : K -> K -> bool)
    (eqfn_spec : forall k k', eqfn k k' = true <-> k = k')
    config malloc realloc (malloc_ok : forall i, malloc i = true) :
  CacheLaws (@hashtable_cache K V hashfn eqfn config malloc realloc) := {| cache_rep := table_rep hashfn config |}.
Proof.
  - intros minsize Hm. by apply create_succeeds.
  - intros t m k Hr. by eapply search_refines.
  - intros t m k v Hr Hk. cbn.
    destruct (insert_succeeds hashfn config malloc realloc malloc_ok t k v (rep_wf _ _ _ _ Hr)) as [t' E].
    exists t'. rewrite E. split; [done|]. by apply (insert_refines _ _ _ _ t m k v _ _ Hr Hk E).
Qed.

(** A client that may insert a key twice uses the table as a map whose later values
    shadow the earlier ones; the earlier entries stay in their chains. *)
Class CacheShadows {T K V} `{Countable K} (C : Cache T K V) := {
  cache_view : T -> gmap K V -> Prop;
  view_create : forall minsize, 0 <= minsize <= 2 ^ 30 ->
    exists t, cache_create minsize = Some t /\ cache_view t ∅;
  view_search : forall t m k, cache_view t m -> cache_search t k = m !! k;
  view_insert : forall t m k v, cache_view t m ->
    exists t', cache_insert t k v = Some t' /\ cache_view t' (<[k := v]> m)
}.

Section Shadows.
Context {K V : Type} `{Countable K} (hashfn : K -> Z) (eqfn : K -> K -> bool).
Context (eqfn_spec : forall k k', eqfn k k' = true <-> k = k').
Context (config : build) (malloc realloc : nat -> bool) (malloc_ok : forall i, malloc i = true).
Context (fixed : expanding config = false).
Implicit Types (t : hashtable K V) (m : gmap K V).

Definition table_view t m : Prop := table_wf hashfn t /\ forall k, hashtable_search hashfn eqfn t k = m !! k.

Lemma insert_view t m k v : table_view t m ->
  exists t', hashtable_insert hashfn config malloc realloc t k v = Some (-1, t') /\ table_view t' (<[k := v]> m).
Proof.
  intros [Hwf Hs].
  destruct (insert_succeeds hashfn config malloc realloc malloc_ok t k v Hwf) as [t' E].
  pose proof (insert_wf hashfn config malloc realloc t k v Hwf) as W. rewrite E in W. destruct W as [W _].
  exists t'. split; [done|]. split; [done|]. clear W. unfold hashtable_insert in E. rewrite fixed in E.
  cbn [andb] in E. rewrite malloc_ok in E. cbn [negb] in E. injection E as <-.
  destruct (index_lt hashfn t k Hwf) as [c Hc]. change (chain (asked t)) with (chain t). rewrite (chain_lookup _ _ _ Hc).
  intros k'. unfold hashtable_search. cbn [set_chain asked tablelength]. cbv zeta.
  set (i := indexFor (tablelength t) (hash hashfn k)) in *. set (i' := indexFor (tablelength t) (hash hashfn k')).
  destruct (decide (k = k')) as [<-|Hk].
  - rewrite lookup_insert_eq. unfold chain, i'. cbn [set_chain asked table]. fold i.
    rewrite list_lookup_insert_eq by (by eapply lookup_lt_Some). unfold id; cbn [from_option chain_search e_h e_k e_v].
    by rewrite Z.eqb_refl, (proj2 (eqfn_spec k k) eq_refl).
  - rewrite lookup_insert_ne by done. rewrite <- Hs. unfold hashtable_search. fold i'. unfold chain. cbn [set_chain asked table].
    destruct (decide (Z.to_nat i = Z.to_nat i')) as [E|E]; [|by rewrite list_lookup_insert_ne].
    rewrite <- E, Hc, list_lookup_insert_eq by (by eapply lookup_lt_Some). unfold id; cbn [from_option chain_search e_h e_k e_v].
    destruct (eqfn k' k) eqn:Ee; [by apply eqfn_spec in Ee|]. by rewrite andb_false_r.
Qed.

Lemma create_view minsize : 0 <= minsize <= 2 ^ 30 ->
  exists t, hashtable_create config malloc minsize = Some t /\ table_view t ∅.
Proof.
  intros Hm. destruct (create_succeeds (V := V) hashfn config malloc malloc_ok minsize Hm) as (t & E & Hr).
  exists t. split; [done|]. split; [apply Hr|]. intros k. by eapply search_refines.
Qed.
End Shadows.

#[refine] Instance hashtable_cache_shadows {K V} `{Countable K} (hashfn : K -> Z) (eqfn : K -> K -> bool)
    (eqfn_spec : forall k k', eqfn k k' = true <-> k = k')
    config malloc realloc (malloc_ok : forall i, malloc i = true) (fixed : expanding config = false) :
  CacheShadows (@hashtable_cache K V hashfn eqfn config malloc realloc) := {| cache_view := table_view hashfn eqfn |}.
Proof.
  - intros minsize Hm. by apply create_view.
  - intros t m k [_ Hs]. apply Hs.
  - intros t m k v Hv. cbn.
    destruct (insert_view hashfn eqfn eqfn_spec config malloc realloc malloc_ok fixed t m k v Hv) as (t' & E & V').
    exists t'. by rewrite E.
Qed.

(** ** A table of a few keys that collide, where the fourth request for memory fails *)
Lemma hashtable_refines_map_witness :
  match @hashtable_create Z Z Expanding (fun i => negb (Nat.eqb i 3)) 100 with
  | Some t => map_ops (fun i => negb (Nat.eqb i 3))
      [OpInsert 1 10; OpInsert 4 40; OpSearch 1; OpExpand; OpRemove 1; OpSearch 1; OpSearch 4] ∅
      [RDone (-1); RDone 0; RValue (Some 10); RDone (-1); RValue (Some 10); RValue None; RValue None]
  | None => False
  end.
Proof.
  pose proof (hashtable_refines_map (fun k => k mod 3) Z.eqb Expanding (fun i => negb (Nat.eqb i 3)) (fun _ => false) Z.eqb_eq 100
    [OpInsert 1 10; OpInsert 4 40; OpSearch 1; OpExpand; OpRemove 1; OpSearch 1; OpSearch 4] ltac:(lia)) as H.
  destruct (hashtable_create _ _ 100) as [t|] eqn:E; [|by vm_compute in E].
  destruct H as [_ H].
  replace (run_ops _ _ _ _ _ _ t) with (Some [RDone (V := Z) (-1); RDone 0; RValue (Some 10); RDone (-1); RValue (Some 10); RValue None; RValue None]) in H; [exact H|].
  vm_compute in E. injection E as <-. vm_compute. reflexivity.
Defined.
