(* ===== verification/Dedup.v ===== *)
(** * The serial encoder and the decoder of dedup (pthread/encoder.c without
    ENABLE_PTHREADS, decoder.c, util.c, dedupdef.h)

    The encoder reads its input in blocks, cuts it at Rabin anchors, and writes
    each piece once, compressed, and after that only its digest; the decoder
    replaces each digest by the piece that had it.  The digest and the compression
    library are arguments, and so are [read] and [write] of the system. *)
From stdpp Require Import gmap.
From S2P Require Import Prelude Rabin Hashtable.

(** ** Results: a value, an exit with an error, or a loop that did not end *)
Inductive res (A : Type) := Ok (a : A) | Exit_trace | Stuck.
Arguments Ok {A} _.
Arguments Exit_trace {A}.
Arguments Stuck {A}.

Definition res_bind {A B} (x : res A) (f : A -> res B) : res B :=
  match x with Ok a => f a | Exit_trace => Exit_trace | Stuck => Stuck end.
Notation "'let!' p := x 'in' k" := (res_bind x (fun p => k))
  (at level 10, p pattern, x at level 100, k at level 200) : c_scope.

(** ** dedupdef.h, sha.h *)
Definition CHECKBIT := 123456.
Definition SHA1_LEN := 20.
Definition TYPE_FINGERPRINT := 0.
Definition TYPE_COMPRESS := 1.
Definition TYPE_ORIGINAL := 2.
Definition MAXBUF := 128 * 1024 * 1024.
Definition SSIZE_MAX := 2 ^ 63 - 1.
Definition COMPRESS_GZIP := 0.
Definition COMPRESS_BZIP2 := 1.
Definition COMPRESS_NONE := 2.
Definition UNCOMPRESS_BOUND := 10000000.

(** [chunk_t], with the contents of its two buffers. *)
Record chunk_t := Chunk {
  isDuplicate : bool;
  sha1 : list Z;
  uncompressed_data : list Z;
  compressed_data : list Z
}.

Definition len (l : list Z) : Z := Z.of_nat (length l).

(** The first [n] bytes of a list and the rest, counting in [Z]. *)
Fixpoint ztake (n : Z) (l : list Z) : list Z :=
  match l with [] => [] | b :: l => if n <=? 0 then [] else b :: ztake (n - 1) l end.
Fixpoint zdrop (n : Z) (l : list Z) : list Z :=
  match l with [] => [] | b :: l' => if n <=? 0 then l else zdrop (n - 1) l' end.

(** ** util.c *)
Section Util.
(** What [read] and [write] return when [rem] bytes are left in the file and [req]
    are asked for: a count, 0 at the end of the file, -1 for an error; for [write],
    also whether [errno] is EINTR or EAGAIN. *)
Context (read : Z -> Z -> Z) (write : Z -> Z * bool).

(** [xread]: [rv] is a [size_t], so neither test of a negative value holds.  The
    buffer is a function of the offset. *)
Fixpoint xread_loop (fuel : nat) (data : list Z) (buf : Z -> Z) (nrecv rlen : Z) : res (Z * (Z -> Z) * list Z) :=
  match fuel with
  | O => Stuck
  | S fuel =>
      if nrecv <? rlen then
        let n := read (len data) (rlen - nrecv) in
        let rv := u64 n in
        if 0 >? rv then Ok (-1, buf, data)
        else if rv =? 0 then Ok (0, buf, data)
        else
          let buf := if n >? 0 then st_bytes buf nrecv (ztake n data) else buf in
          xread_loop fuel (if n >? 0 then zdrop n data else data) buf (u64 (nrecv + rv)) rlen
      else Ok (s32 nrecv, buf, data)
  end.

Definition xread (data : list Z) (buf : Z -> Z) (rlen : Z) : res (Z * (Z -> Z) * list Z) :=
  xread_loop (S (S (length data))) data buf 0 rlen.

(** [xwrite] of [content] to the end of [out]. *)
Fixpoint xwrite_loop (fuel : nat) (out content : list Z) (nsent wlen : Z) : res (Z * list Z) :=
  match fuel with
  | O => Stuck
  | S fuel =>
      if nsent <? wlen then
        let '(rv, again) := write (wlen - nsent) in
        if (0 >? rv) && again then xwrite_loop fuel out content nsent wlen
        else if 0 >? rv then Ok (-1, out)
        else xwrite_loop fuel (out ++ ztake rv content) (zdrop rv content) (u64 (nsent + rv)) wlen
      else Ok (s32 nsent, out)
  end.

Definition xwrite (out content : list Z) : res (Z * list Z) :=
  xwrite_loop (S (length content)) out content 0 (len content).

Definition read_header (undef : Z -> Z) (data : list Z) : res (Z * Z * list Z) :=
  let! (r, buf, data) := xread data undef 4 in
  if r <? 0 then Ok (-1, 0, data) else
  let checkbit := s32 (le_val (ld_bytes 4 buf 0)) in
  if negb (checkbit =? CHECKBIT) then Ok (-1, 0, data) else
  let! (r, buf, data) := xread data undef 1 in
  if r <? 0 then Ok (-1, 0, data) else Ok (0, buf 0, data).

Definition write_header (out : list Z) (compress_type : Z) : res (Z * list Z) :=
  let! (r, out) := xwrite out (le_bytes 4 CHECKBIT) in
  if r <? 0 then Ok (-1, out) else
  let! (r, out) := xwrite out [u8 compress_type] in
  if r <? 0 then Ok (-1, out) else Ok (0, out).

Definition write_file (out : list Z) (type flen : Z) (content : list Z) : res (list Z) :=
  let! (r, out) := xwrite out [u8 type] in
  if r <? 0 then Exit_trace else
  let! (r, out) := xwrite out (le_bytes 8 flen) in
  if r <? 0 then Exit_trace else
  let! (r, out) := xwrite out (ztake flen content) in
  if r <? 0 then Exit_trace else Ok out.

(** ** The encoder *)
Section Encoder.
Context {T : Type} {cache : Cache T (list Z) chunk_t}.
(** [SHA1_Digest], and zlib's [compress] and [uncompress] with the size of the
    destination buffer: [None] is any result but [Z_OK]; [undef] is the contents of
    memory nothing was stored in. *)
Context (undef : Z -> Z) (SHA1_Digest : list Z -> list Z) (compress uncompress : Z -> list Z -> option (list Z)).
Context (compress_type : Z).

(** [fd] is what [open] returned. *)
Definition create_output_file (fd : Z) : res (list Z) :=
  if fd <? 0 then Exit_trace else
  let! (r, out) := write_header [] compress_type in
  if i2b r then Exit_trace else Ok out.

Definition sub_Deduplicate (db : T) (chunk : chunk_t) : res (bool * T * chunk_t) :=
  let sha1 := SHA1_Digest (uncompressed_data chunk) in
  let entry := cache_search db sha1 in
  let dup := match entry with Some _ => true | None => false end in
  let chunk := Chunk dup sha1 (uncompressed_data chunk) (compressed_data chunk) in
  if negb dup then
    match cache_insert db sha1 chunk with
    | None => Exit_trace
    | Some db => Ok (dup, db, chunk)
    end
  else Ok (dup, db, Chunk dup sha1 [] (compressed_data chunk)).

Definition sub_Compress (chunk : chunk_t) : res chunk_t :=
  let data := uncompressed_data chunk in
  let! c :=
    if compress_type =? COMPRESS_NONE then Ok data
    else if compress_type =? COMPRESS_GZIP then
      let n := len data + (len data >> 9) + 12 in
      match compress n data with Some c => Ok c | None => Exit_trace end
    else Exit_trace in
  Ok (Chunk (isDuplicate chunk) (sha1 chunk) [] c).

Definition write_chunk_to_file (out : list Z) (chunk : chunk_t) : res (list Z) :=
  if negb (isDuplicate chunk)
  then write_file out TYPE_COMPRESS (len (compressed_data chunk)) (compressed_data chunk)
  else write_file out TYPE_FINGERPRINT SHA1_LEN (sha1 chunk).

(** The stages one piece goes through: deduplication, compression, output. *)
Definition process_chunk (st : T * list Z) (data : list Z) : res (T * list Z) :=
  let '(db, out) := st in
  let! (dup, db, chunk) := sub_Deduplicate db (Chunk false [] data []) in
  let! chunk := if negb dup then sub_Compress chunk else Ok chunk in
  let! out := write_chunk_to_file out chunk in
  Ok (db, out).

(** Whether [malloc] or [realloc] gives a block of a size, when some bytes of the input, or
    of the buffer that is cut, are left. *)
Context (malloc : Z -> Z -> bool) (sizeof_chunk_t sizeof_mcb_t : Z).

(** [mbuffer_create]: the block and its control block. *)
Definition new_mbuffer (left size : Z) : bool := malloc left size && malloc left sizeof_mcb_t.

Section Stages.
Context (rabintab rabinwintab : Z -> Z) (rf_win_dataprocess : Z).

Definition list_ptr (l : list Z) : Z -> Z := fun i => nth (Z.to_nat i) l 0.

(** The [do ... while(split)] loop: every piece but the last is processed, and the
    last is left in [temp].  The size of the buffer is passed as an [int], and the
    [int] offset is compared with the size. *)
Fixpoint split_loop (fuel : nat) (st : T * list Z) (chunk : list Z) : res (T * list Z * list Z) :=
  match fuel with
  | O => Stuck
  | S fuel =>
      let offset := rabinseg (list_ptr chunk) (s32 (len chunk)) rf_win_dataprocess rabintab rabinwintab in
      if offset =? 0 then Exit_trace        (* assert(0) *)
      else if u64 offset <? len chunk then
        if negb (malloc (len chunk) sizeof_chunk_t) then Exit_trace else
        let! st := process_chunk st (ztake offset chunk) in
        split_loop fuel st (zdrop offset chunk)
      else Ok (st, chunk)
  end.

(** Reading a block into the buffer, from the preloaded file or by [read]. *)
Fixpoint fill_loop (fuel : nat) (data block : list Z) (bytes_read : Z) : res (list Z * list Z) :=
  match fuel with
  | O => Stuck
  | S fuel =>
      if bytes_read <? MAXBUF then
        let r := s32 (read (len data) (MAXBUF - bytes_read)) in
        if r <? 0 then Exit_trace
        else if r =? 0 then Ok (block, data)
        else fill_loop fuel (zdrop r data) (block ++ ztake r data) (bytes_read + r)
      else Ok (block, data)
  end.

Definition fill_block (preloading : bool) (data : list Z) : res (list Z * list Z) :=
  if preloading then
    let max_read := Z.min MAXBUF (len data) in Ok (ztake max_read data, zdrop max_read data)
  else fill_loop (S (S (length data))) data [] 0.

(** The [while (1)] loop: [temp] is the piece left over by the last turn. *)
Fixpoint serial_loop (fuel : nat) (preloading : bool) (st : T * list Z) (data temp : list Z) : res (T * list Z) :=
  match fuel with
  | O => Stuck
  | S fuel =>
      let bytes_left := len temp in
      if MAXBUF + bytes_left >? SSIZE_MAX then Exit_trace
      else if negb (malloc (len data) sizeof_chunk_t) then Exit_trace
      else if negb (new_mbuffer (len data) (MAXBUF + bytes_left)) then Exit_trace else
      let! (block, rest) := fill_block preloading data in
      let chunk := temp ++ block in
      let bytes_read := len block in
      if bytes_left + bytes_read =? 0 then Ok st
      (* assert(r == 0): the buffer is shrunk to what was read *)
      else if (bytes_left + bytes_read <? MAXBUF + bytes_left) && negb (malloc (len data) (bytes_left + bytes_read))
      then Exit_trace
      else if bytes_read =? 0 then process_chunk st chunk
      else
        let! (st, temp) := split_loop (S (length chunk)) st chunk in
        serial_loop fuel preloading st rest temp
  end.

End Stages.

(** The globals [rf_win] and [rf_win_dataprocess], which nothing else sets. *)
Definition rf_win_init := 0.

(** [fd_out] is what the [open] of the output file returned. *)
Definition SerialIntegratedPipeline (fd_out : Z) (db : T) (preloading : bool) (data : list Z) : res (list Z) :=
  let! out := create_output_file fd_out in
  if negb (malloc (len data) (256 * 4)) then Exit_trace else
  let rf_win_dataprocess := rf_win_init in
  let '(rabintab, rabinwintab) := rabininit rf_win_dataprocess undef undef in
  let! (_, out) := serial_loop rabintab rabinwintab rf_win_dataprocess (S (S (length data)))
                     preloading (db, out) data [] in
  Ok out.

(** What the system says of the two files: the results of [stat] and of the two [open]s,
    whether the input is a regular file, and the size [stat] found. *)
Record files_t := Files {
  stat_r : Z;
  S_ISREG : bool;
  st_size : Z;
  fd_in : Z;
  fd_out : Z
}.

(** The whole input read into the preloading buffer. *)
Fixpoint preload_loop (fuel : nat) (data : list Z) (buf : Z -> Z) (bytes_read size : Z) : res (Z -> Z) :=
  match fuel with
  | O => Stuck
  | S fuel =>
      if bytes_read <? size then
        let n := read (len data) (size - bytes_read) in
        let r := s32 n in
        if r <? 0 then Exit_trace
        else if r =? 0 then Ok buf
        else preload_loop fuel (zdrop n data) (st_bytes buf bytes_read (ztake n data)) (bytes_read + r) size
      else Ok buf
  end.

(** What the first stage reads: the file, or the preloading buffer, which has the size
    [stat] found, whatever was read. *)
Definition open_input (f : files_t) (preloading : bool) (data : list Z) : res (list Z) :=
  if stat_r f <? 0 then Exit_trace
  else if negb (S_ISREG f) then Exit_trace
  else if fd_in f <? 0 then Exit_trace
  else if preloading then
    if negb (malloc (len data) (st_size f)) then Exit_trace else
    let! buf := preload_loop (S (S (length data))) data undef 0 (st_size f) in
    Ok (ld_bytes (Z.to_nat (st_size f)) buf 0)
  else Ok data.

Definition Encode (f : files_t) (preloading : bool) (data : list Z) : res (list Z) :=
  match cache_create 65536 with
  | None => Exit_trace
  | Some db =>
      let! input := open_input f preloading data in
      SerialIntegratedPipeline (fd_out f) db preloading input
  end.

(** ** The decoder *)

(** [read_chunk]: its return value, the chunk and the rest of the file. *)
Definition read_chunk (data : list Z) (chunk : chunk_t) : res (Z * chunk_t * list Z) :=
  let! (r, buf, data) := xread data undef 1 in
  let type := buf 0 in
  if r <? 0 then Exit_trace else if r =? 0 then Ok (0, chunk, data) else
  let! (r, buf, data) := xread data undef 8 in
  let clen := le_val (ld_bytes 8 buf 0) in
  if r <? 0 then Exit_trace else if r =? 0 then Exit_trace else
  if type =? TYPE_FINGERPRINT then
    if negb (clen =? SHA1_LEN) then Exit_trace else
    let! (r, buf, data) := xread data undef SHA1_LEN in
    if r <? 0 then Exit_trace else if r =? 0 then Exit_trace else
    Ok (s32 clen, Chunk true (ld_bytes 20 buf 0) (uncompressed_data chunk) (compressed_data chunk), data)
  else if type =? TYPE_COMPRESS then
    if clen <=? 0 then Exit_trace else
    let! (r, buf, data) := xread data undef clen in
    if r <? 0 then Exit_trace else if r =? 0 then Exit_trace else
    Ok (s32 clen, Chunk false (sha1 chunk) (uncompressed_data chunk) (ld_bytes (Z.to_nat clen) buf 0), data)
  else Exit_trace.

Definition uncompress_chunk (ctype : Z) (chunk : chunk_t) : res (Z * chunk_t) :=
  let! u :=
    if ctype =? COMPRESS_NONE then Ok (compressed_data chunk)
    else if ctype =? COMPRESS_GZIP then
      match uncompress UNCOMPRESS_BOUND (compressed_data chunk) with Some u => Ok u | None => Exit_trace end
    else Exit_trace in
  Ok (s32 (len u), Chunk (isDuplicate chunk) (sha1 chunk) u []).

Definition empty_chunk : chunk_t := Chunk false [] [] [].

(** The [while(TRUE)] loop: [chunk] is the one a duplicate left for reuse. *)
Fixpoint decode_loop (fuel : nat) (ctype : Z) (db : T) (data out : list Z) (chunk : chunk_t) : res (list Z) :=
  match fuel with
  | O => Stuck
  | S fuel =>
      let! (r, chunk, data) := read_chunk data chunk in
      if r <? 0 then Exit_trace else if r =? 0 then Ok out else
      let! (db, entry, chunk) :=
        if negb (isDuplicate chunk) then
          let! (r, chunk) := uncompress_chunk ctype chunk in
          if r <=? 0 then Exit_trace else
          let sha1 := SHA1_Digest (uncompressed_data chunk) in
          let chunk := Chunk (isDuplicate chunk) sha1 (uncompressed_data chunk) (compressed_data chunk) in
          match cache_insert db sha1 chunk with
          | None => Exit_trace
          | Some db => Ok (db, chunk, empty_chunk)
          end
        else
          match cache_search db (sha1 chunk) with
          | Some entry => Ok (db, entry, chunk)
          | None => Exit_trace
          end in
      let! (w, out) := xwrite out (uncompressed_data entry) in
      if u64 w <? len (uncompressed_data entry) then Exit_trace
      else decode_loop fuel ctype db data out chunk
  end.

Definition Decode (data : list Z) : res (list Z) :=
  match cache_create 65536 with
  | None => Exit_trace
  | Some db =>
      let! (r, ctype, data) := read_header undef data in
      if i2b r then Exit_trace else decode_loop (S (length data)) ctype db data [] empty_chunk
  end.

End Encoder.
End Util.

(** [hash_from_key_fn] and [keys_equal_fn]: the first word of the digest, and
    [memcmp] of the digests. *)
Definition hash_from_key_fn (k : list Z) : Z := le_val (ld_bytes 4 (list_ptr k) 0).
Definition keys_equal_fn (k1 k2 : list Z) : bool := bool_decide (k1 = k2).

(** * The file system a run is not disturbed by

    [read] returns at least one byte of those left and 0 at the end of the file,
    [write] takes at least one byte. *)
Record io_ok (read : Z -> Z -> Z) (write : Z -> Z * bool) : Prop := {
  io_read : forall rem req, 0 < rem -> 0 < req -> 1 <= read rem req <= Z.min rem req;
  io_eof : forall req, 0 < req -> read 0 req = 0;
  io_write : forall req, 0 < req -> 1 <= (write req).1 <= req
}.

Lemma len_cons b l : len (b :: l) = 1 + len l.
Proof. unfold len. cbn [length]. lia. Qed.
Lemma len_nil : len [] = 0.
Proof. done. Qed.
Lemma len_app l k : len (l ++ k) = len l + len k.
Proof. unfold len. rewrite length_app. lia. Qed.
Lemma len_nonneg l : 0 <= len l.
Proof. unfold len. lia. Qed.
Lemma len_0 l : len l = 0 -> l = [].
Proof. destruct l; [done|]. rewrite len_cons. pose proof (len_nonneg l). lia. Qed.

Lemma ztake_zdrop n l : ztake n l ++ zdrop n l = l.
Proof. revert n. induction l as [|b l IH]; intros n; cbn; [done|]. destruct (n <=? 0); [done|]. cbn. by rewrite IH. Qed.

Lemma len_ztake n l : 0 <= n <= len l -> len (ztake n l) = n.
Proof.
  revert n. induction l as [|b l IH]; intros n Hn; cbn [ztake]; [unfold len in *; cbn [length] in *; lia|].
  rewrite len_cons in Hn. destruct (Z.leb_spec n 0); [unfold len; cbn [length]; lia|]. rewrite len_cons, IH by lia. lia.
Qed.

Lemma len_zdrop n l : 0 <= n <= len l -> len (zdrop n l) = len l - n.
Proof.
  intros Hn. pose proof (len_ztake n l Hn). pose proof (f_equal len (ztake_zdrop n l)) as E.
  rewrite len_app in E. lia.
Qed.

Lemma ztake_all n l : len l <= n -> ztake n l = l.
Proof.
  revert n. induction l as [|b l IH]; intros n Hn; [done|]. rewrite len_cons in Hn.
  pose proof (len_nonneg l). cbn [ztake]. destruct (Z.leb_spec n 0); [lia|]. rewrite IH by lia. done.
Qed.

Lemma ztake_app l k : ztake (len l) (l ++ k) = l.
Proof.
  induction l as [|b l IH]; [by destruct k|]. rewrite len_cons. pose proof (len_nonneg l). cbn [app ztake].
  destruct (Z.leb_spec (1 + len l) 0); [lia|]. replace (1 + len l - 1) with (len l) by lia. by rewrite IH.
Qed.

Lemma zdrop_app l k : zdrop (len l) (l ++ k) = k.
Proof.
  pose proof (ztake_zdrop (len l) (l ++ k)) as E. rewrite ztake_app in E. by apply app_inv_head in E.
Qed.

Lemma ztake_ztake_add n m l : 0 <= n <= len l -> 0 <= m -> ztake (n + m) l = ztake n l ++ ztake m (zdrop n l).
Proof.
  revert n. induction l as [|b l IH]; intros n Hn Hm; [done|]. rewrite len_cons in Hn. cbn [ztake zdrop].
  destruct (Z.leb_spec n 0).
  - replace (n + m) with m by lia. done.
  - destruct (Z.leb_spec (n + m) 0); [lia|]. cbn [app]. f_equal.
    replace (n + m - 1) with (n - 1 + m) by lia. apply IH; lia.
Qed.

Lemma zdrop_zdrop_add n m l : 0 <= n <= len l -> 0 <= m -> zdrop (n + m) l = zdrop m (zdrop n l).
Proof.
  intros Hn Hm. apply (app_inv_head (ztake (n + m) l)). rewrite ztake_zdrop, ztake_ztake_add, <- app_assoc by done.
  by rewrite !ztake_zdrop.
Qed.

Section Undisturbed.
Context (read : Z -> Z -> Z) (write : Z -> Z * bool) (io : io_ok read write).

Lemma xread_loop_ok fuel data buf nrecv rlen :
  0 <= nrecv <= rlen -> rlen < 2 ^ 31 -> rlen - nrecv <= len data -> (Z.to_nat (rlen - nrecv) < fuel)%nat ->
  Forall is_byte data ->
  exists buf', xread_loop read fuel data buf nrecv rlen = Ok (rlen, buf', zdrop (rlen - nrecv) data) /\
    ld_bytes (Z.to_nat (rlen - nrecv)) buf' nrecv = ztake (rlen - nrecv) data /\
    (forall a, a < nrecv -> buf' a = buf a).
Proof.
  revert data buf nrecv. induction fuel as [|fuel IH]; intros data buf nrecv Hn Hr Hd Hf Hb; [lia|].
  cbn [xread_loop]. destruct (Z.ltb_spec nrecv rlen) as [Hlt|Hge].
  - pose proof (io_read _ _ io (len data) (rlen - nrecv)) as R. 
    set (n := read (len data) (rlen - nrecv)) in *. cbv zeta.
    rewrite (uw_small 64 n) by lia. replace (0 >? n) with false by lia. replace (n =? 0) with false by lia.
    replace (n >? 0) with true by lia. rewrite (uw_small 64 (nrecv + n)) by lia.
    assert (Forall is_byte (ztake n data) /\ Forall is_byte (zdrop n data)) as [Hb1 Hb2]
      by (apply Forall_app; by rewrite ztake_zdrop).
    destruct (IH (zdrop n data) (st_bytes buf nrecv (ztake n data)) (nrecv + n)) as (buf' & E & L & Fr);
      [lia|lia|rewrite len_zdrop; lia|lia|done|].
    exists buf'. rewrite E. replace (rlen - nrecv) with (n + (rlen - (nrecv + n))) by lia.
    split; [rewrite zdrop_zdrop_add by lia; f_equal; lia|]. split.
    + rewrite Z2Nat.inj_add, ld_bytes_app by lia. rewrite Z2Nat.id by lia. rewrite L.
      rewrite ztake_ztake_add by lia. f_equal.
      rewrite (ld_bytes_ext _ _ (st_bytes buf nrecv (ztake n data))) by (intros; apply Fr; lia).
      replace (Z.to_nat n) with (length (ztake n data)); [by apply ld_st_bytes|].
      pose proof (len_ztake n data). unfold len in *. lia.
    + intros a Ha. rewrite Fr by lia. apply st_bytes_frame. lia.
  - exists buf. replace (rlen - nrecv) with 0 by lia. split; [|split; [by destruct data|done]].
    rewrite sw_small by lia. replace nrecv with rlen by lia. by destruct data.
Qed.

Lemma xread_ok content data buf : len content < 2 ^ 31 -> Forall is_byte content -> Forall is_byte data ->
  exists buf', xread read (content ++ data) buf (len content) = Ok (len content, buf', data) /\
    ld_bytes (length content) buf' 0 = content.
Proof.
  intros Hl Hb1 Hb2. pose proof (len_nonneg content). unfold xread.
  destruct (xread_loop_ok (S (S (length (content ++ data)))) (content ++ data) buf 0 (len content))
    as (buf' & E & L & _); [lia|lia|rewrite len_app; pose proof (len_nonneg data); lia| |by apply Forall_app|].
  - rewrite length_app. unfold len. lia.
  - rewrite Z.sub_0_r in *. rewrite zdrop_app in E. rewrite ztake_app in L. exists buf'. split; [done|].
    rewrite <- L at 2. unfold len. by rewrite Nat2Z.id.
Qed.

Lemma xread_eof buf rlen : 0 < rlen -> xread read [] buf rlen = Ok (0, buf, []).
Proof.
  intros Hr. unfold xread. cbn [xread_loop length].
  replace (0 <? rlen) with true by lia. rewrite Z.sub_0_r, (io_eof _ _ io) by done. done.
Qed.

Lemma xwrite_loop_ok fuel out content nsent wlen :
  0 <= nsent -> nsent + len content = wlen -> wlen < 2 ^ 63 -> (length content < fuel)%nat ->
  xwrite_loop write fuel out content nsent wlen = Ok (s32 wlen, out ++ content).
Proof.
  revert out content nsent. induction fuel as [|fuel IH]; intros out content nsent Hn Hl Hw Hf; [lia|].
  cbn [xwrite_loop]. destruct (Z.ltb_spec nsent wlen) as [Hlt|Hge].
  - pose proof (io_write _ _ io (wlen - nsent) ltac:(lia)) as W. destruct (write (wlen - nsent)) as [rv again].
    cbn [fst] in W. replace (0 >? rv) with false by lia. cbn [andb]. rewrite uw_small by lia.
    pose proof (len_zdrop rv content ltac:(lia)) as L.
    rewrite IH; [|lia|lia|done|unfold len in *; lia]. by rewrite <- app_assoc, ztake_zdrop.
  - pose proof (len_nonneg content). rewrite (len_0 content), app_nil_r by lia. do 3 f_equal. lia.
Qed.

Lemma xwrite_ok out content : len content < 2 ^ 63 ->
  xwrite write out content = Ok (s32 (len content), out ++ content).
Proof. intros H. apply xwrite_loop_ok; [lia|lia|done|lia]. Qed.

Lemma fill_loop_ok fuel data block n : 0 <= n <= MAXBUF -> (length data + 1 < fuel)%nat ->
  fill_loop read fuel data block n = Ok (block ++ ztake (MAXBUF - n) data, zdrop (MAXBUF - n) data).
Proof.
  revert data block n. induction fuel as [|fuel IH]; intros data block n Hn Hf; [lia|].
  cbn [fill_loop]. destruct (Z.ltb_spec n MAXBUF) as [Hlt|Hge].
  - destruct (decide (data = [])) as [->|Hne].
    + rewrite (io_eof _ _ io) by lia. cbn. by rewrite app_nil_r.
    + assert (0 < len data) as Hd by (destruct data as [|b l]; [done|rewrite len_cons; pose proof (len_nonneg l); lia]).
      pose proof (io_read _ _ io (len data) (MAXBUF - n) Hd ltac:(lia)) as R.
      set (r := read (len data) (MAXBUF - n)) in *. cbv zeta.
      rewrite (sw_small 32 r) by (unfold MAXBUF in *; lia). replace (r <? 0) with false by lia. replace (r =? 0) with false by lia.
      pose proof (len_zdrop r data ltac:(lia)) as L.
      rewrite IH; [|lia|unfold len in *; lia].
      replace (MAXBUF - n) with (r + (MAXBUF - (n + r))) by lia.
      rewrite ztake_ztake_add, zdrop_zdrop_add, <- app_assoc by lia. done.
  - replace (MAXBUF - n) with 0 by lia. destruct data; by rewrite app_nil_r.
Qed.

Lemma fill_block_ok preloading data :
  fill_block read preloading data = Ok (ztake MAXBUF data, zdrop MAXBUF data).
Proof.
  unfold fill_block. destruct preloading.
  - pose proof (len_nonneg data). destruct (Z.le_ge_cases MAXBUF (len data)).
    + by rewrite Z.min_l.
    + rewrite Z.min_r by done. rewrite !ztake_all by lia. do 2 f_equal.
      pose proof (ztake_zdrop MAXBUF data) as E1. rewrite ztake_all in E1 by done.
      pose proof (ztake_zdrop (len data) data) as E2. rewrite ztake_all in E2 by lia.
      apply (app_inv_head data). by rewrite E1, E2.
  - rewrite fill_loop_ok by (unfold MAXBUF; lia). by rewrite Z.sub_0_r.
Qed.

End Undisturbed.

(** * What the encoder cuts its input into *)
Section Segments.
Context (rabintab rabinwintab : Z -> Z) (rf_win : Z).

Definition anchor_offset (chunk : list Z) : Z :=
  rabinseg (list_ptr chunk) (s32 (len chunk)) rf_win rabintab rabinwintab.

(** The pieces of a block, and the one left over. *)
Fixpoint split_pure (fuel : nat) (chunk : list Z) : list (list Z) * list Z :=
  match fuel with
  | O => ([], chunk)
  | S fuel =>
      let offset := anchor_offset chunk in
      if offset <? len chunk then
        let '(l, r) := split_pure fuel (zdrop offset chunk) in (ztake offset chunk :: l, r)
      else ([], chunk)
  end.

Fixpoint segments_from (fuel : nat) (data temp : list Z) : list (list Z) :=
  match fuel with
  | O => []
  | S fuel =>
      let block := ztake MAXBUF data in
      if len temp + len block =? 0 then []
      else if len block =? 0 then [temp]
      else
        let '(l, temp) := split_pure (S (length (temp ++ block))) (temp ++ block) in
        l ++ segments_from fuel (zdrop MAXBUF data) temp
  end.

Definition segments (data : list Z) : list (list Z) := segments_from (S (S (length data))) data [].

(** Every buffer that is searched for an anchor has a size in the range of [int]. *)
Fixpoint buffers_fit (fuel : nat) (data temp : list Z) : Prop :=
  match fuel with
  | O => True
  | S fuel =>
      let block := ztake MAXBUF data in
      if len block =? 0 then True
      else len (temp ++ block) < 2 ^ 31 /\
        buffers_fit fuel (zdrop MAXBUF data) (split_pure (S (length (temp ++ block))) (temp ++ block)).2
  end.

Lemma anchor_offset_range chunk : chunk <> [] -> len chunk < 2 ^ 31 -> 0 < anchor_offset chunk <= len chunk.
Proof.
  intros Hne Hl. unfold anchor_offset. assert (0 < len chunk).
  { destruct chunk as [|b l]; [done|]. rewrite len_cons. pose proof (len_nonneg l). lia. }
  rewrite sw_small by lia. by apply rabinseg_bounds.
Qed.

Lemma split_pure_spec fuel chunk : (length chunk < fuel)%nat -> len chunk < 2 ^ 31 ->
  let '(l, r) := split_pure fuel chunk in
  concat l ++ r = chunk /\ Forall (fun s => s <> []) l /\ (chunk <> [] -> r <> []).
Proof.
  revert chunk. induction fuel as [|fuel IH]; intros chunk Hf Hb; [lia|]. cbn [split_pure]. cbv zeta.
  destruct (Z.ltb_spec (anchor_offset chunk) (len chunk)) as [Hlt|Hge]; [|done].
  assert (chunk <> []) as Hne.
  { intros ->. change (anchor_offset []) with 0 in Hlt. rewrite len_nil in Hlt. lia. }
  pose proof (anchor_offset_range chunk Hne Hb) as R. set (o := anchor_offset chunk) in *.
  pose proof (len_zdrop o chunk ltac:(lia)) as L1. pose proof (len_ztake o chunk ltac:(lia)) as L2.
  specialize (IH (zdrop o chunk) ltac:(unfold len in *; lia) ltac:(lia)).
  destruct (split_pure fuel (zdrop o chunk)) as [l r]. destruct IH as (I1 & I2 & I3).
  split; [cbn; by rewrite <- app_assoc, I1, ztake_zdrop|]. split.
  - constructor; [|done]. intros E. rewrite E, len_nil in L2. lia.
  - intros _. apply I3. intros E. rewrite E, len_nil in L1. lia.
Qed.

Lemma zdrop_maxbuf_shorter data : len (ztake MAXBUF data) <> 0 ->
  (length (zdrop MAXBUF data) < length data)%nat.
Proof.
  intros H. pose proof (f_equal length (ztake_zdrop MAXBUF data)) as E. rewrite length_app in E.
  unfold len in H. lia.
Qed.

Lemma segments_from_spec fuel data temp : (length data + 1 < fuel)%nat -> buffers_fit fuel data temp ->
  concat (segments_from fuel data temp) = temp ++ data /\
  Forall (fun s => s <> []) (segments_from fuel data temp).
Proof.
  revert data temp. induction fuel as [|fuel IH]; intros data temp Hf Hb; [lia|].
  cbn [segments_from buffers_fit] in *. cbv zeta in *.
  pose proof (ztake_zdrop MAXBUF data) as E. pose proof (len_nonneg temp).
  pose proof (len_nonneg (ztake MAXBUF data)).
  assert (len (ztake MAXBUF data) = 0 -> data = []) as Hnil.
  { intros Hz. destruct data as [|b l]; [done|]. exfalso. cbn [ztake] in Hz.
    change (MAXBUF <=? 0) with false in Hz. cbv iota in Hz. rewrite len_cons in Hz. pose proof (len_nonneg (ztake (MAXBUF - 1) l)). lia. }
  destruct (Z.eqb_spec (len temp + len (ztake MAXBUF data)) 0).
  - rewrite (len_0 temp) by lia. rewrite Hnil by lia. split; [done|constructor].
  - destruct (Z.eqb_spec (len (ztake MAXBUF data)) 0) as [Hz|Hz].
    + rewrite (Hnil Hz). cbn. split; [done|]. constructor; [|constructor].
      intros ->. rewrite len_nil in *. lia.
    + destruct Hb as [Hb1 Hb2].
      pose proof (split_pure_spec (S (length (temp ++ ztake MAXBUF data))) (temp ++ ztake MAXBUF data) ltac:(lia) Hb1) as S.
      destruct (split_pure _ _) as [l r]. destruct S as (S1 & S2 & S3).
      pose proof (zdrop_maxbuf_shorter data Hz).
      destruct (IH (zdrop MAXBUF data) r ltac:(lia) Hb2) as [I1 I2].
      split; [rewrite concat_app, I1, app_assoc, S1, <- app_assoc; by rewrite E|].
      by apply Forall_app.
Qed.

(** All buffers fit when the input does. *)
Lemma small_input_fits fuel data temp : len temp + len data < 2 ^ 31 -> buffers_fit fuel data temp.
Proof.
  revert data temp. induction fuel as [|fuel IH]; intros data temp Hb; [done|]. cbn [buffers_fit]. cbv zeta.
  destruct (_ =? 0); [done|].
  pose proof (f_equal len (ztake_zdrop MAXBUF data)) as EL. rewrite len_app in EL.
  pose proof (len_nonneg (zdrop MAXBUF data)). assert (len (temp ++ ztake MAXBUF data) < 2 ^ 31) as Hc by (rewrite len_app; lia).
  split; [done|]. apply IH.
  pose proof (split_pure_spec (S (length (temp ++ ztake MAXBUF data))) (temp ++ ztake MAXBUF data) ltac:(lia) Hc) as SP.
  destruct (split_pure _ _) as [l r]. destruct SP as [SP _]. cbn [snd].
  apply (f_equal len) in SP. rewrite !len_app in SP. pose proof (len_nonneg (concat l)). lia.
Qed.

End Segments.

(** ** The serial loop processes the segments in order *)
Fixpoint process_all {T A} (f : T -> A -> res T) (st : T) (l : list A) : res T :=
  match l with
  | [] => Ok st
  | x :: l => let! st := f st x in process_all f st l
  end.

Lemma process_all_app {T A} (f : T -> A -> res T) st l k :
  process_all f st (l ++ k) = res_bind (process_all f st l) (fun st => process_all f st k).
Proof.
  revert st. induction l as [|x l IH]; intros st; [done|]. cbn [app process_all].
  destruct (f st x); cbn [res_bind]; [apply IH|done|done].
Qed.

Section Loops.
Context (read : Z -> Z -> Z) (write : Z -> Z * bool) (io : io_ok read write).
Context {T : Type} {cache : Cache T (list Z) chunk_t}.
Context (SHA1_Digest : list Z -> list Z) (compress uncompress : Z -> list Z -> option (list Z)).
Context (compress_type : Z) (rabintab rabinwintab : Z -> Z) (rf_win : Z).
Context (malloc : Z -> Z -> bool) (sizeof_chunk_t sizeof_mcb_t : Z) (malloc_ok : forall left size, malloc left size = true).
Local Abbreviation process := (process_chunk write SHA1_Digest compress compress_type).

Lemma split_loop_spec fuel st chunk : (length chunk < fuel)%nat -> chunk <> [] -> len chunk < 2 ^ 31 ->
  split_loop write SHA1_Digest compress compress_type malloc sizeof_chunk_t rabintab rabinwintab rf_win fuel st chunk =
  let '(l, r) := split_pure rabintab rabinwintab rf_win fuel chunk in
  res_bind (process_all process st l) (fun st => Ok (st, r)).
Proof.
  revert st chunk. induction fuel as [|fuel IH]; intros st chunk Hf Hne Hb; [lia|].
  cbn [split_loop split_pure]. cbv zeta. fold (anchor_offset rabintab rabinwintab rf_win chunk).
  pose proof (anchor_offset_range rabintab rabinwintab rf_win chunk Hne Hb) as R.
  set (o := anchor_offset _ _ _ chunk) in *. replace (o =? 0) with false by lia.
  rewrite uw_small by lia.
  destruct (Z.ltb_spec o (len chunk)) as [Hlt|Hge]; [|done]. rewrite malloc_ok. cbn [negb].
  pose proof (len_zdrop o chunk ltac:(lia)) as L.
  assert (zdrop o chunk <> []) by (intros E; rewrite E, len_nil in L; lia).
  pose proof (IH) as IH'. destruct (split_pure _ _ _ fuel (zdrop o chunk)) as [l r] eqn:E.
  cbn [process_all]. destruct (process st (ztake o chunk)) as [st'| |]; cbn [res_bind]; [|done|done].
  rewrite IH by (done || (unfold len in *; lia)). by rewrite E.
Qed.

Lemma serial_loop_spec fuel preloading st data temp : (length data + 1 < fuel)%nat -> len temp < 2 ^ 31 ->
  buffers_fit rabintab rabinwintab rf_win fuel data temp ->
  serial_loop read write SHA1_Digest compress compress_type malloc sizeof_chunk_t sizeof_mcb_t
    rabintab rabinwintab rf_win fuel preloading st data temp =
  process_all process st (segments_from rabintab rabinwintab rf_win fuel data temp).
Proof.
  revert st data temp. induction fuel as [|fuel IH]; intros st data temp Hf Ht Hb; [lia|].
  cbn [serial_loop segments_from buffers_fit] in *. unfold new_mbuffer. cbv zeta in *. rewrite !malloc_ok.
  destruct (Z.gtb_spec (MAXBUF + len temp) SSIZE_MAX) as [Hss|_]; [unfold MAXBUF, SSIZE_MAX in Hss; lia|].
  cbn [negb andb]. rewrite fill_block_ok with (write := write) by done. cbn [res_bind].
  rewrite !malloc_ok, andb_false_r.
  destruct (len temp + len (ztake MAXBUF data) =? 0); [reflexivity|]. destruct (Z.eqb_spec (len (ztake MAXBUF data)) 0) as [H0|H0].
  - rewrite (len_0 _ H0), app_nil_r. cbn [process_all]. by destruct (process st temp).
  - destruct Hb as [Hb1 Hb2]. assert (temp ++ ztake MAXBUF data <> []) as Hne.
    { intros E. apply app_eq_nil in E as [_ E]. rewrite E in H0. done. }
    rewrite split_loop_spec by (done || lia).
    pose proof (split_pure_spec rabintab rabinwintab rf_win (S (length (temp ++ ztake MAXBUF data))) (temp ++ ztake MAXBUF data)
      ltac:(lia) Hb1) as SP.
    destruct (split_pure _ _ _ _ _) as [l r]. destruct SP as [SP _]. rewrite process_all_app.
    apply (f_equal len) in SP. rewrite len_app in SP. pose proof (len_nonneg (concat l)).
    destruct (process_all process st l) as [st'| |]; cbn [res_bind]; [|done|done].
    pose proof (zdrop_maxbuf_shorter data H0). apply IH; [lia|lia|done].
Qed.
End Loops.

(** * Decoding what was encoded *)
Section Roundtrip.
Context (read : Z -> Z -> Z) (write : Z -> Z * bool) (io : io_ok read write).
Context {T : Type} (cache : Cache T (list Z) chunk_t) (laws : CacheLaws cache).
Context (SHA1_Digest : list Z -> list Z) (compress uncompress : Z -> list Z -> option (list Z)).
Context (compress_type : Z) (undef : Z -> Z).
Local Abbreviation process := (process_chunk write SHA1_Digest compress compress_type).
Local Abbreviation decode := (decode_loop read write undef SHA1_Digest uncompress).

(** A digest has [SHA1_LEN] bytes. *)
Definition digest_ok : Prop :=
  forall l, length (SHA1_Digest l) = Z.to_nat SHA1_LEN /\ Forall is_byte (SHA1_Digest l).

(** A piece that the encoder's compression takes and the decoder's takes back. *)
Definition codec_ok (s : list Z) : Prop :=
  0 < len s < 2 ^ 31 /\ exists c,
    (forall d k, sub_Compress compress compress_type (Chunk d k s []) = Ok (Chunk d k [] c)) /\
    0 < len c < 2 ^ 31 /\ Forall is_byte c /\
    (forall d k u, uncompress_chunk uncompress compress_type (Chunk d k u c) = Ok (s32 (len s), Chunk d k s [])).

Lemma xwrite_small out content : len content < 2 ^ 31 ->
  xwrite write out content = Ok (len content, out ++ content).
Proof.
  intros H. pose proof (len_nonneg content).
  rewrite (xwrite_ok read write io) by lia. by rewrite sw_small by lia.
Qed.

Lemma len_bytes n v : len (le_bytes n v) = Z.of_nat n.
Proof. unfold len. by rewrite length_le_bytes. Qed.

Lemma write_file_ok out t n content : len content = n -> n < 2 ^ 31 ->
  write_file write out t n content = Ok (out ++ [u8 t] ++ le_bytes 8 n ++ content).
Proof.
  intros <- Hl. pose proof (len_nonneg content). unfold write_file.
  rewrite xwrite_small by (unfold len; cbn [length]; lia). cbn [res_bind]. change (len [u8 t] <? 0) with false. cbv iota.
  rewrite xwrite_small by (rewrite len_bytes; lia). cbn [res_bind]. rewrite len_bytes.
  change (Z.of_nat 8 <? 0) with false. cbv iota. rewrite ztake_all, xwrite_small by lia. cbn [res_bind].
  replace (len content <? 0) with false by lia. by rewrite <- !app_assoc.
Qed.

(** ** The reader of one record *)
Lemma xread_bytes content data buf : len content < 2 ^ 31 -> Forall is_byte content -> Forall is_byte data ->
  exists buf', xread read (content ++ data) buf (len content) = Ok (len content, buf', data) /\
    ld_bytes (length content) buf' 0 = content.
Proof. by apply (xread_ok read write io). Qed.

Lemma read_head t n data : t = 0 \/ t = 1 -> 0 <= n < 2 ^ 64 -> Forall is_byte data ->
  exists buf buf', xread read ([u8 t] ++ le_bytes 8 n ++ data) undef 1 = Ok (1, buf, le_bytes 8 n ++ data) /\
    buf 0 = t /\ xread read (le_bytes 8 n ++ data) undef 8 = Ok (8, buf', data) /\
    le_val (ld_bytes 8 buf' 0) = n.
Proof.
  intros Ht Hn Hd.
  assert (Forall is_byte (le_bytes 8 n ++ data)) by (apply Forall_app; split; [apply le_bytes_range|done]).
  assert (u8 t = t) as Et by (apply uw_small; lia). rewrite Et.
  destruct (xread_bytes [t] (le_bytes 8 n ++ data) undef) as (b1 & E1 & L1); [unfold len; cbn [length]; lia|repeat constructor; lia|done|].
  destruct (xread_bytes (le_bytes 8 n) data undef) as (b2 & E2 & L2); [rewrite len_bytes; lia|apply le_bytes_range|done|].
  rewrite len_bytes in E2. rewrite length_le_bytes in L2. exists b1, b2. split; [exact E1|]. split.
  - cbn in L1. by injection L1.
  - split; [exact E2|]. rewrite L2, le_val_bytes. apply Z.mod_small. lia.
Qed.

Lemma read_chunk_fingerprint k data chunk : length k = Z.to_nat SHA1_LEN -> Forall is_byte k -> Forall is_byte data ->
  read_chunk read undef ([u8 TYPE_FINGERPRINT] ++ le_bytes 8 SHA1_LEN ++ k ++ data) chunk =
  Ok (SHA1_LEN, Chunk true k (uncompressed_data chunk) (compressed_data chunk), data).
Proof.
  intros Hk Hb Hd. unfold SHA1_LEN in *.
  destruct (read_head TYPE_FINGERPRINT 20 (k ++ data)) as (b1 & b2 & E1 & T1 & E2 & L2);
    [by left|lia|by apply Forall_app|].
  unfold read_chunk, SHA1_LEN. rewrite E1. cbn [res_bind Z.ltb Z.eqb Z.compare]. cbv zeta. rewrite E2.
  cbn [res_bind Z.ltb Z.eqb Z.compare]. rewrite T1, L2. cbn [Z.eqb TYPE_FINGERPRINT negb Pos.eqb].
  destruct (xread_bytes k data undef) as (b3 & E3 & L3); [unfold len; lia|done|done|].
  assert (len k = 20) as Ek by (unfold len; lia). rewrite Ek in E3. rewrite E3.
  cbn [res_bind Z.ltb Z.eqb Z.compare]. change 20%nat with (Z.to_nat 20). by rewrite <- Hk, L3.
Qed.

Lemma read_chunk_compress c data chunk : 0 < len c < 2 ^ 31 -> Forall is_byte c -> Forall is_byte data ->
  read_chunk read undef ([u8 TYPE_COMPRESS] ++ le_bytes 8 (len c) ++ c ++ data) chunk =
  Ok (len c, Chunk false (sha1 chunk) (uncompressed_data chunk) c, data).
Proof.
  intros Hc Hb Hd.
  destruct (read_head TYPE_COMPRESS (len c) (c ++ data)) as (b1 & b2 & E1 & T1 & E2 & L2);
    [by right|lia|by apply Forall_app|].
  unfold read_chunk. rewrite E1. cbn [res_bind Z.ltb Z.eqb Z.compare]. cbv zeta. rewrite E2.
  cbn [res_bind Z.ltb Z.eqb Z.compare]. rewrite T1, L2.
  change (TYPE_COMPRESS =? TYPE_FINGERPRINT) with false. change (TYPE_COMPRESS =? TYPE_COMPRESS) with true.
  cbv iota. replace (len c <=? 0) with false by lia.
  destruct (xread_bytes c data undef) as (b3 & E3 & L3); [lia|done|done|].
  rewrite E3. cbn [res_bind]. replace (len c <? 0) with false by lia. replace (len c =? 0) with false by lia.
  rewrite sw_small by lia. unfold len at 2. rewrite Nat2Z.id, L3. done.
Qed.

Lemma read_chunk_end chunk : read_chunk read undef [] chunk = Ok (0, chunk, []).
Proof.
  unfold read_chunk. rewrite (xread_eof read write io) by lia. done.
Qed.

(** ** One piece *)
Definition agree (S : list (list Z)) (me md : gmap (list Z) chunk_t) : Prop :=
  forall k, (is_Some (me !! k) <-> is_Some (md !! k)) /\
    forall c, md !! k = Some c -> exists s, s ∈ S /\ SHA1_Digest s = k /\ uncompressed_data c = s.

Lemma process_new db me out s c : 
  (forall d k, sub_Compress compress compress_type (Chunk d k s []) = Ok (Chunk d k [] c)) ->
  0 < len c < 2 ^ 31 -> cache_rep db me -> me !! SHA1_Digest s = None ->
  exists db', process (db, out) s = Ok (db', out ++ [u8 TYPE_COMPRESS] ++ le_bytes 8 (len c) ++ c) /\
    cache_rep db' (<[SHA1_Digest s := Chunk false (SHA1_Digest s) s []]> me).
Proof.
  intros C1 C2 Hr Hm.
  unfold process_chunk, sub_Deduplicate. cbn [uncompressed_data compressed_data].
  rewrite (law_search db me) by done. rewrite Hm. cbn [negb].
  destruct (law_insert db me (SHA1_Digest s) (Chunk false (SHA1_Digest s) s []) Hr Hm) as (db' & E & R').
  exists db'. split; [|done]. rewrite E. cbn [res_bind negb]. rewrite C1. cbn [res_bind].
  unfold write_chunk_to_file. cbn [isDuplicate negb compressed_data].
  rewrite write_file_ok by (done || lia). done.
Qed.

Lemma process_dup db me out s c0 : digest_ok -> cache_rep db me -> me !! SHA1_Digest s = Some c0 ->
  process (db, out) s =
  Ok (db, out ++ [u8 TYPE_FINGERPRINT] ++ le_bytes 8 SHA1_LEN ++ SHA1_Digest s).
Proof.
  intros Hd Hr Hm. destruct (Hd s) as [D1 D2].
  unfold process_chunk, sub_Deduplicate. cbn [uncompressed_data compressed_data].
  rewrite (law_search db me) by done. rewrite Hm. cbn [negb res_bind].
  unfold write_chunk_to_file. cbn [isDuplicate negb sha1].
  rewrite write_file_ok by (unfold len; rewrite ?D1; unfold SHA1_LEN; lia). done.
Qed.

(** ** The decoder follows the encoder *)
Lemma decode_follows S segs : digest_ok ->
  (forall a b, a ∈ S -> b ∈ S -> SHA1_Digest a = SHA1_Digest b -> a = b) ->
  (forall s, s ∈ segs -> s ∈ S /\ codec_ok s) ->
  forall dbe me dbd md out, cache_rep dbe me -> cache_rep dbd md -> agree S me md ->
  exists dbe' recs, process_all process (dbe, out) segs = Ok (dbe', out ++ recs) /\
    Forall is_byte recs /\ (length segs <= length recs)%nat /\
    forall fuel dout chunk, (length segs < fuel)%nat ->
      decode fuel compress_type dbd recs dout chunk = Ok (dout ++ concat segs).
Proof.
  intros Hd Hinj. induction segs as [|s segs IH]; intros Hs dbe me dbd md out Re Rd Ha.
  - exists dbe, []. rewrite app_nil_r. repeat (split; [done || constructor|]).
    intros fuel dout chunk Hf. destruct fuel as [|fuel]; [cbn in Hf; lia|].
    cbn [decode_loop]. rewrite read_chunk_end. cbn. by rewrite app_nil_r.
  - destruct (Hs s) as [HS Hc]; [apply elem_of_cons; by left|].
    assert (forall s', s' ∈ segs -> s' ∈ S /\ codec_ok s') as Hs' by (intros; apply Hs, elem_of_cons; by right).
    specialize (IH Hs').
    destruct (Hd s) as [D1 D2]. destruct (Ha (SHA1_Digest s)) as [Hdom Hval].
    destruct (me !! SHA1_Digest s) as [c0|] eqn:Em.
    + destruct (proj1 Hdom) as [cd Ed]; [done|]. destruct (Hval cd Ed) as (s0 & HS0 & Es0 & Eu).
      pose proof (Hinj s0 s HS0 HS Es0) as ->.
      destruct (IH dbe me dbd md (out ++ [u8 TYPE_FINGERPRINT] ++ le_bytes 8 SHA1_LEN ++ SHA1_Digest s) Re Rd Ha)
        as (dbe' & recs & E & Hb & Hl & Hdec).
      exists dbe', ([u8 TYPE_FINGERPRINT] ++ le_bytes 8 SHA1_LEN ++ SHA1_Digest s ++ recs).
      cbn [process_all]. rewrite (process_dup dbe me out s c0) by done. cbn [res_bind].
      split; [rewrite E; f_equal; f_equal; by rewrite <- !app_assoc|].
      split; [constructor; [apply uw_range; lia|]; apply Forall_app; split; [apply le_bytes_range|by apply Forall_app]|].
      split; [rewrite !length_app; cbn [length]; lia|].
      intros fuel dout chunk Hf. destruct fuel as [|fuel]; [cbn in Hf; lia|]. cbn [decode_loop].
      rewrite read_chunk_fingerprint by done. cbn [res_bind]. change (SHA1_LEN <? 0) with false.
      change (SHA1_LEN =? 0) with false. cbv iota. cbn [isDuplicate negb sha1].
      rewrite (law_search dbd md) by done. rewrite Ed. cbn [res_bind]. rewrite Eu.
      destruct Hc as (Hs0 & _). rewrite xwrite_small by lia. cbn [res_bind].
      rewrite uw_small by lia. replace (len s <? len s) with false by lia.
      rewrite Hdec by (cbn in Hf; lia). by rewrite <- app_assoc.
    + destruct Hc as (Hs0 & c & C0 & C1 & C2 & C3).
      destruct (process_new dbe me out s c C0 C1 Re Em) as (dbe1 & E1 & Re1).
      assert (md !! SHA1_Digest s = None) as Ed.
      { destruct (md !! SHA1_Digest s) eqn:Ed; [|done]. destruct (proj2 Hdom) as [? ?]; done. }
      set (ce := Chunk false (SHA1_Digest s) s []) in *.
      destruct (law_insert dbd md (SHA1_Digest s) ce Rd Ed) as (dbd1 & Ei & Rd1).
      destruct (IH dbe1 (<[SHA1_Digest s := ce]> me) dbd1 (<[SHA1_Digest s := ce]> md)
        (out ++ [u8 TYPE_COMPRESS] ++ le_bytes 8 (len c) ++ c))
        as (dbe' & recs & E & Hb & Hl & Hdec); [done|done| |].
      { intros k. rewrite !lookup_insert. case_decide as Hk.
        - subst k. split; [done|]. intros c' [= <-]. by exists s.
        - apply Ha. }
      exists dbe', ([u8 TYPE_COMPRESS] ++ le_bytes 8 (len c) ++ c ++ recs).
      cbn [process_all]. rewrite E1. cbn [res_bind].
      split; [rewrite E; f_equal; f_equal; by rewrite <- !app_assoc|].
      split; [constructor; [apply uw_range; lia|]; apply Forall_app; split; [apply le_bytes_range|by apply Forall_app]|].
      split; [rewrite !length_app; cbn [length]; lia|].
      intros fuel dout chunk Hf. destruct fuel as [|fuel]; [cbn in Hf; lia|]. cbn [decode_loop].
      rewrite read_chunk_compress by done. cbn [res_bind].
      replace (len c <? 0) with false by lia. replace (len c =? 0) with false by lia.
      cbn [isDuplicate negb]. rewrite C3. cbn [res_bind].
      rewrite sw_small by lia. replace (len s <=? 0) with false by lia.
      cbn [uncompressed_data isDuplicate compressed_data]. fold ce. rewrite Ei. cbn [res_bind uncompressed_data ce].
      rewrite xwrite_small by lia. cbn [res_bind].
      rewrite uw_small by lia. replace (len s <? len s) with false by lia.
      rewrite Hdec by (cbn in Hf; lia). by rewrite <- app_assoc.
Qed.

(** ** The whole file *)
Definition file_header : list Z := le_bytes 4 CHECKBIT ++ [u8 compress_type].

Lemma create_output_file_ok fd : 0 <= fd -> create_output_file write compress_type fd = Ok file_header.
Proof.
  intros Hfd. unfold create_output_file, write_header. replace (fd <? 0) with false by lia. rewrite xwrite_small by (rewrite len_bytes; lia). cbn [res_bind].
  rewrite len_bytes. change (Z.of_nat 4 <? 0) with false. cbv iota.
  rewrite xwrite_small by (unfold len; cbn [length]; lia). cbn [res_bind].
  change (len [u8 compress_type] <? 0) with false. done.
Qed.

Lemma read_header_ok data : 0 <= compress_type < 256 -> Forall is_byte data ->
  read_header read undef (file_header ++ data) = Ok (0, compress_type, data).
Proof.
  intros Ht Hd. unfold file_header. rewrite <- app_assoc.
  destruct (xread_bytes (le_bytes 4 CHECKBIT) ([u8 compress_type] ++ data) undef) as (b1 & E1 & L1);
    [rewrite len_bytes; lia|apply le_bytes_range|constructor; [apply uw_range; lia|done]|].
  destruct (xread_bytes [u8 compress_type] data undef) as (b2 & E2 & L2);
    [unfold len; cbn [length]; lia|constructor; [apply uw_range; lia|constructor]|done|].
  unfold read_header. rewrite len_bytes in E1. rewrite length_le_bytes in L1. 
  change (Z.of_nat 4) with 4 in E1. rewrite E1. cbn [res_bind].
  change (4 <? 0) with false. cbv iota. rewrite L1.
  change (s32 (le_val (le_bytes 4 CHECKBIT)) =? CHECKBIT) with true. cbn [negb].
  change (len [u8 compress_type]) with 1 in E2. rewrite E2. cbn [res_bind].
  change (1 <? 0) with false. cbv iota. cbn in L2. injection L2 as ->. by rewrite uw_small by lia.
Qed.

Definition input_segments (data : list Z) : list (list Z) :=
  let '(rabintab, rabinwintab) := rabininit rf_win_init undef undef in
  segments rabintab rabinwintab rf_win_init data.

(** Every buffer the encoder searches for an anchor is below 2 GB. *)
Definition input_fits (data : list Z) : Prop :=
  let '(rabintab, rabinwintab) := rabininit rf_win_init undef undef in
  buffers_fit rabintab rabinwintab rf_win_init (S (S (length data))) data [].

Lemma small_fits data : len data < 2 ^ 31 -> input_fits data.
Proof.
  intros Hb. unfold input_fits. destruct (rabininit _ _ _) as [t w]. apply small_input_fits. rewrite len_nil. lia.
Qed.

Lemma input_segments_spec data : input_fits data ->
  concat (input_segments data) = data /\ Forall (fun s => s <> []) (input_segments data).
Proof.
  unfold input_fits, input_segments. destruct (rabininit _ _ _) as [t w]. intros Hb.
  apply (segments_from_spec t w rf_win_init (S (S (length data))) data []); [lia|done].
Qed.

(** The files of an undisturbed run: the input is a regular file of the size [stat]
    found, and both are opened. *)
Record files_ok (f : files_t) (data : list Z) : Prop := {
  f_stat : 0 <= stat_r f;
  f_reg : S_ISREG f = true;
  f_size : st_size f = len data;
  f_in : 0 <= fd_in f;
  f_out : 0 <= fd_out f
}.

Lemma preload_loop_ok fuel data buf n size : 0 <= n -> n + len data = size -> size < 2 ^ 31 ->
  (length data + 1 < fuel)%nat -> Forall is_byte data ->
  exists buf', preload_loop read fuel data buf n size = Ok buf' /\ ld_bytes (length data) buf' n = data /\
    (forall a, a < n -> buf' a = buf a).
Proof.
  revert data buf n. induction fuel as [|fuel IH]; intros data buf n Hn Hs Hb Hf Hd; [lia|].
  cbn [preload_loop]. destruct (Z.ltb_spec n size) as [Hlt|Hge].
  - pose proof (io_read _ _ io (len data) (size - n) ltac:(lia) ltac:(lia)) as R. cbv zeta.
    set (r := read (len data) (size - n)) in *. rewrite (sw_small 32 r) by lia.
    replace (r <? 0) with false by lia. replace (r =? 0) with false by lia.
    pose proof (len_zdrop r data ltac:(lia)) as L. pose proof (len_ztake r data ltac:(lia)) as L'.
    assert (Forall is_byte (ztake r data) /\ Forall is_byte (zdrop r data)) as [Hb1 Hb2] by (apply Forall_app; by rewrite ztake_zdrop).
    destruct (IH (zdrop r data) (st_bytes buf n (ztake r data)) (n + r)) as (buf' & E & Ld & Fr);
      [lia|lia|lia|unfold len in *; lia|done|].
    exists buf'. split; [done|]. split.
    + replace (length data) with (length (ztake r data) + length (zdrop r data))%nat by (unfold len in *; lia).
      rewrite ld_bytes_app. transitivity (ztake r data ++ zdrop r data); [|apply ztake_zdrop]. f_equal.
      * rewrite (ld_bytes_ext _ _ (st_bytes buf n (ztake r data))) by (intros; apply Fr; unfold len in *; lia).
        by apply ld_st_bytes.
      * replace (n + Z.of_nat (length (ztake r data))) with (n + r) by (unfold len in *; lia). done.
    + intros a Ha. rewrite Fr by lia. apply st_bytes_frame. lia.
  - pose proof (len_nonneg data). exists buf. rewrite (len_0 data) by lia. done.
Qed.

Section Input.
Context (malloc : Z -> Z -> bool) (sizeof_chunk_t sizeof_mcb_t : Z) (malloc_ok : forall left size, malloc left size = true).

(** Preloaded or not, the first stage reads the file. *)
Lemma open_input_ok f preloading data : files_ok f data -> Forall is_byte data ->
  (preloading = true -> len data < 2 ^ 31) -> open_input read undef malloc f preloading data = Ok data.
Proof.
  intros [F1 F2 F3 F4 _] Hd Hp. unfold open_input. rewrite F2.
  replace (stat_r f <? 0) with false by lia. replace (fd_in f <? 0) with false by lia. cbn [negb].
  destruct preloading; [|done]. rewrite malloc_ok, F3. cbn [negb].
  destruct (preload_loop_ok (S (S (length data))) data undef 0 (len data)) as (buf & E & L & _);
    [lia|lia|by apply Hp|lia|done|].
  rewrite E. cbn [res_bind]. unfold len. by rewrite Nat2Z.id, L.
Qed.

Lemma Encode_ok f preloading data db : files_ok f data -> Forall is_byte data -> input_fits data ->
  (preloading = true -> len data < 2 ^ 31) -> cache_create 65536 = Some db ->
  Encode read write undef SHA1_Digest compress compress_type malloc sizeof_chunk_t sizeof_mcb_t f preloading data =
  let! (_, out) := process_all process (db, file_header) (input_segments data) in Ok out.
Proof.
  intros Hf Hd Hb Hp Hdb. unfold Encode. rewrite Hdb, open_input_ok by done. cbn [res_bind].
  unfold SerialIntegratedPipeline. rewrite create_output_file_ok by apply Hf. cbn [res_bind]. rewrite malloc_ok. cbn [negb].
  unfold input_segments, input_fits in *. cbv zeta. destruct (rabininit _ _ _) as [t w].
  rewrite (serial_loop_spec read write io) by (rewrite ?len_nil; done || lia). done.
Qed.
End Input.

(** A file of the records of any pieces decodes to their contents. *)
Lemma decode_file segs db : cache_create 65536 = Some db -> 0 <= compress_type < 256 -> digest_ok ->
  (forall a b, a ∈ segs -> b ∈ segs -> SHA1_Digest a = SHA1_Digest b -> a = b) ->
  (forall s, s ∈ segs -> codec_ok s) ->
  exists db' recs, process_all process (db, file_header) segs = Ok (db', file_header ++ recs) /\
    Decode read write undef SHA1_Digest uncompress (file_header ++ recs) = Ok (concat segs).
Proof.
  intros Hdb Ht Hd Hinj Hc. destruct (law_create 65536 ltac:(lia)) as (db1 & Hdb1 & Hr).
  rewrite Hdb in Hdb1. injection Hdb1 as <-.
  destruct (decode_follows segs segs Hd Hinj (fun s Hs => conj Hs (Hc s Hs))
    db ∅ db ∅ file_header Hr Hr) as (db' & recs & E & Hb & Hl & Hdec).
  { intros k. rewrite lookup_empty. split; [done|]. intros c. done. }
  exists db', recs. split; [exact E|].
  unfold Decode. rewrite Hdb, read_header_ok by done. cbn [res_bind]. change (i2b 0) with false. cbv iota.
  by rewrite Hdec by lia.
Qed.

Lemma decode_inverts malloc sizeof_chunk_t sizeof_mcb_t f preloading data :
  (forall left size, malloc left size = true) -> files_ok f data -> Forall is_byte data -> input_fits data ->
  (preloading = true -> len data < 2 ^ 31) -> 0 <= compress_type < 256 -> digest_ok ->
  (forall a b, a ∈ input_segments data -> b ∈ input_segments data -> SHA1_Digest a = SHA1_Digest b -> a = b) ->
  (forall s, s ∈ input_segments data -> codec_ok s) ->
  exists file, Encode read write undef SHA1_Digest compress compress_type malloc sizeof_chunk_t sizeof_mcb_t f preloading data = Ok file /\
    Decode read write undef SHA1_Digest uncompress file = Ok data.
Proof.
  intros Hm Hf Hb Hfit Hp Ht Hd Hinj Hc. destruct (law_create 65536 ltac:(lia)) as (db & Hdb & _).
  destruct (decode_file (input_segments data) db Hdb Ht Hd Hinj Hc) as (db' & recs & E & D).
  exists (file_header ++ recs). rewrite (Encode_ok malloc sizeof_chunk_t sizeof_mcb_t Hm f preloading data db), E by done.
  split; [done|]. rewrite D. by rewrite (proj1 (input_segments_spec data Hfit)).
Qed.
End Roundtrip.

(** ** The compression library

    What zlib documents: [compress] succeeds when the destination is 0.1% larger
    than the source plus 12 bytes, [uncompress] gives the source back when it fits
    the destination and fails otherwise. *)
Record zlib_ok (compress uncompress : Z -> list Z -> option (list Z)) : Prop := {
  zlib_compress : forall s n, 0 < len s -> Forall is_byte s -> len s + len s / 1000 + 12 <= n ->
    exists c, compress n s = Some c /\ 0 < len c <= n /\ Forall is_byte c /\
      (forall cap, len s <= cap -> uncompress cap c = Some s) /\
      (forall cap, cap < len s -> uncompress cap c = None)
}.

(** The pieces of at most [UNCOMPRESS_BOUND] bytes survive gzip, and those below 2^31 a copy. *)
Definition piece_bound (ctype : Z) : Z := if ctype =? COMPRESS_NONE then 2 ^ 31 - 1 else UNCOMPRESS_BOUND.

Lemma zlib_fits s : len s + len s / 1000 + 12 <= len s + (len s >> 9) + 12.
Proof.
  pose proof (len_nonneg s). rewrite Z.shiftr_div_pow2 by lia. change (2 ^ 9) with 512.
  enough (len s / 1000 <= len s / 512) by lia. apply Z.div_le_compat_l; lia.
Qed.

Lemma codec_pieces compress uncompress ctype s :
  zlib_ok compress uncompress -> ctype = COMPRESS_NONE \/ ctype = COMPRESS_GZIP ->
  Forall is_byte s -> 0 < len s <= piece_bound ctype ->
  codec_ok compress uncompress ctype s.
Proof.
  intros Hz Ht Hb Hs. unfold codec_ok, piece_bound, UNCOMPRESS_BOUND in *.
  destruct Ht as [-> | ->].
  - change (COMPRESS_NONE =? COMPRESS_NONE) with true in Hs. cbv iota in Hs. split; [lia|]. exists s.
    split; [done|]. split; [lia|]. done.
  - change (COMPRESS_GZIP =? COMPRESS_NONE) with false in Hs. cbv iota in Hs. split; [lia|].
    destruct (zlib_compress _ _ Hz s (len s + (len s >> 9) + 12)) as (c & C1 & C2 & C3 & C4 & _);
      [lia|done|apply zlib_fits|].
    assert (len s >> 9 <= 19531)
      by (rewrite Z.shiftr_div_pow2 by lia; apply (Z.div_le_mono _ 10000000 512); lia).
    exists c. split; [|split; [lia|split; [done|]]].
    + intros d k. unfold sub_Compress. cbn [uncompressed_data isDuplicate sha1].
      change (COMPRESS_GZIP =? COMPRESS_NONE) with false. change (COMPRESS_GZIP =? COMPRESS_GZIP) with true.
      cbv iota zeta. by rewrite C1.
    + intros d k u. unfold uncompress_chunk. cbn [compressed_data isDuplicate sha1].
      change (COMPRESS_GZIP =? COMPRESS_NONE) with false. change (COMPRESS_GZIP =? COMPRESS_GZIP) with true.
      cbv iota zeta. unfold UNCOMPRESS_BOUND. by rewrite C4 by lia.
Qed.

(** The cache of both programs, in the build without threads. *)
Definition dedup_cache (table_malloc realloc : nat -> bool) : Cache (hashtable (list Z) chunk_t) (list Z) chunk_t :=
  hashtable_cache hash_from_key_fn keys_equal_fn Plain table_malloc realloc.

Lemma keys_equal_spec k k' : keys_equal_fn k k' = true <-> k = k'.
Proof. apply bool_decide_eq_true. Qed.

Definition dedup_cache_laws table_malloc realloc (malloc_ok : forall i, table_malloc i = true) :
    CacheLaws (dedup_cache table_malloc realloc) :=
  hashtable_cache_laws hash_from_key_fn keys_equal_fn keys_equal_spec Plain table_malloc realloc malloc_ok.

(** A run with memory for everything. *)
Definition memory_ok (malloc : Z -> Z -> bool) (table_malloc : nat -> bool) : Prop :=
  (forall left size, malloc left size = true) /\ (forall i, table_malloc i = true).

(** C26: if files and memory do not fail, what the encoder makes of an input, read from a
    file or preloaded, copied or compressed, is decoded to the input byte for byte, provided
    that no two different pieces of the input share a digest, that no piece is larger than
    the decoder's buffer, and that the buffers of the encoder stay below 2 GB, the range of
    its [int] sizes and offsets, which they do when the input is, or when it has anchors. *)
Theorem dedup_roundtrip read write SHA1_Digest compress uncompress undef malloc table_malloc realloc
    sizeof_chunk_t sizeof_mcb_t ctype f preloading data :
  io_ok read write -> memory_ok malloc table_malloc -> files_ok f data ->
  zlib_ok compress uncompress -> digest_ok SHA1_Digest ->
  ctype = COMPRESS_NONE \/ ctype = COMPRESS_GZIP -> Forall is_byte data ->
  input_fits undef data -> (preloading = true -> len data < 2 ^ 31) ->
  (forall s, s ∈ input_segments undef data -> len s <= piece_bound ctype) ->
  (forall a b, a ∈ input_segments undef data -> b ∈ input_segments undef data ->
    SHA1_Digest a = SHA1_Digest b -> a = b) ->
  exists file,
    Encode (cache := dedup_cache table_malloc realloc) read write undef SHA1_Digest compress ctype
      malloc sizeof_chunk_t sizeof_mcb_t f preloading data = Ok file /\
    Decode (cache := dedup_cache table_malloc realloc) read write undef SHA1_Digest uncompress file = Ok data.
Proof.
  intros Hio [Hm1 Hm2] Hf Hz Hd Ht Hb Hfit Hp Hlen Hinj.
  apply (decode_inverts read write Hio _ (dedup_cache_laws table_malloc realloc Hm2)); try done.
  - destruct Ht as [-> | ->]; unfold COMPRESS_NONE, COMPRESS_GZIP; lia.
  - intros s Hs. destruct (input_segments_spec undef data Hfit) as [Hc Hne].
    apply codec_pieces; [done|done| |].
    + rewrite <- Hc in Hb. apply Forall_concat in Hb. by apply (Forall_elem _ _ _ Hb).
    + split; [|by apply Hlen]. apply (Forall_elem _ _ _ Hne) in Hs. destruct s as [|b s]; [done|].
      rewrite len_cons. pose proof (len_nonneg s). lia.
Qed.

(** ** A read error in the middle of a record

    The tests for a negative result are on an unsigned variable: an interrupted
    [read] is neither retried nor reported, but moves the buffer back by one byte. *)

(** When [read] fails, or is interrupted, after [k] bytes of a record, [xread]
    still returns the record's full length, with the [k]th byte replaced by the one
    after it and one byte too many taken from the file. *)
Theorem xread_error_drops_byte read data buf rlen k :
  0 < k < rlen -> rlen < 2 ^ 31 -> rlen + 1 <= len data -> Forall is_byte data ->
  read (len data) rlen = k ->
  read (len data - k) (rlen - k) = -1 ->
  read (len data - k) (rlen - k + 1) = rlen - k + 1 ->
  exists buf', xread read data buf rlen = Ok (rlen, buf', zdrop (rlen + 1) data) /\
    ld_bytes (Z.to_nat rlen) buf' 0 = ztake (k - 1) data ++ ztake (rlen - k + 1) (zdrop k data).
Proof.
  intros Hk Hr Hd Hb R1 R2 R3. unfold xread.
  assert (3 <= length data)%nat as Hf by (unfold len in Hd; lia).
  destruct (length data) as [|[|[|f]]]; [lia..|].
  pose proof (len_zdrop k data ltac:(lia)) as L. pose proof (len_ztake k data ltac:(lia)) as L'.
  set (d1 := zdrop k data) in *. set (m := rlen - k + 1) in *.
  pose proof (len_zdrop m d1 ltac:(lia)) as L2. pose proof (len_ztake m d1 ltac:(lia)) as L3.
  set (b1 := st_bytes buf 0 (ztake k data)). set (b2 := st_bytes b1 (k - 1) (ztake m d1)).
  exists b2. split.
  - cbn [xread_loop]. cbv zeta. rewrite Z.sub_0_r, R1. replace (0 <? rlen) with true by lia.
    rewrite (uw_small 64 k) by lia. replace (0 >? k) with false by lia. replace (k =? 0) with false by lia.
    replace (k >? 0) with true by lia. rewrite Z.add_0_l, (uw_small 64 k) by lia. fold b1 d1. rewrite L.
    replace (k <? rlen) with true by lia. rewrite R2. change (u64 (-1)) with (2 ^ 64 - 1).
    change (0 >? 2 ^ 64 - 1) with false. change (2 ^ 64 - 1 =? 0) with false. change (-1 >? 0) with false. cbv iota.
    replace (u64 (k + (2 ^ 64 - 1))) with (k - 1) by (apply (Z.mod_unique _ _ 1); lia).
    rewrite L. replace (k - 1 <? rlen) with true by lia. replace (rlen - (k - 1)) with m by lia. rewrite R3.
    rewrite (uw_small 64 m) by lia. replace (0 >? m) with false by lia. replace (m =? 0) with false by lia.
    replace (m >? 0) with true by lia. replace (k - 1 + m) with rlen by lia. rewrite (uw_small 64 rlen) by lia.
    fold b2. rewrite Z.ltb_irrefl, sw_small by lia. unfold d1. rewrite <- zdrop_zdrop_add by lia.
    replace (k + m) with (rlen + 1) by lia. done.
  - assert (Forall is_byte (ztake k data) /\ Forall is_byte d1) as [B1 B2] by (apply Forall_app; by rewrite ztake_zdrop).
    assert (Forall is_byte (ztake m d1)) as B3 by (rewrite <- (ztake_zdrop m d1) in B2; apply Forall_app in B2; tauto).
    replace (Z.to_nat rlen) with (Z.to_nat (k - 1) + length (ztake m d1))%nat by (unfold len in *; lia).
    rewrite ld_bytes_app. replace (0 + Z.of_nat (Z.to_nat (k - 1))) with (k - 1) by lia. unfold b2 at 2.
    rewrite ld_st_bytes by done. f_equal. unfold b2. rewrite ld_bytes_st_frame by lia.
    pose proof (ztake_ztake_add (k - 1) 1 data ltac:(lia) ltac:(lia)) as E.
    replace (k - 1 + 1) with k in E by lia. unfold b1. rewrite E, st_bytes_app, ld_bytes_st_frame.
    + pose proof (len_ztake (k - 1) data ltac:(lia)) as L4.
      replace (Z.to_nat (k - 1)) with (length (ztake (k - 1) data)) by (unfold len in L4; lia).
      apply ld_st_bytes. rewrite E in B1. apply Forall_app in B1. tauto.
    + left. pose proof (len_ztake (k - 1) data ltac:(lia)) as L4. unfold len in L4. lia.
Qed.

Lemma xread_error_drops_byte_witness :
  let read := fun rem req => if req =? 2 then -1 else Z.min 3 req in
  exists buf', xread read [10; 11; 12; 13; 14; 15; 16] (fun _ => 0) 5 = Ok (5, buf', [16]) /\
    ld_bytes 5 buf' 0 = [10; 11; 13; 14; 15].
Proof.
  apply (xread_error_drops_byte (fun rem req => if req =? 2 then -1 else Z.min 3 req)
    [10; 11; 12; 13; 14; 15; 16] (fun _ => 0) 5 3); try reflexivity; try lia; [|].
  - unfold len. cbn [length]. lia.
  - repeat constructor; lia.
Defined.

(** ** A round trip *)
Definition sample_read (rem req : Z) : Z := Z.min rem req.
Definition sample_write (req : Z) : Z * bool := (req, false).
Definition sample_compress (n : Z) (s : list Z) : option (list Z) :=
  if len s + 8 <=? n then Some (le_bytes 8 (len s) ++ s) else None.
Definition sample_uncompress (n : Z) (c : list Z) : option (list Z) :=
  if len (drop 8 c) <=? n then Some (drop 8 c) else None.
Definition sample_digest (s : list Z) : list Z := take 20 (map u8 s ++ replicate 20 0).

Definition sample_cache : Cache (hashtable (list Z) chunk_t) (list Z) chunk_t :=
  dedup_cache (fun _ => true) (fun _ => true).

Lemma sample_io : io_ok sample_read sample_write.
Proof. split; unfold sample_read, sample_write; intros; cbn [fst]; lia. Qed.

Lemma sample_zlib : zlib_ok sample_compress sample_uncompress.
Proof.
  split. intros s n Hs Hb Hn. exists (le_bytes 8 (len s) ++ s). unfold sample_compress, sample_uncompress.
  assert (0 <= len s / 1000) by (apply Z.div_pos; lia).
  replace (len s + 8 <=? n) with true by lia. split; [done|].
  rewrite len_app, len_bytes. split; [lia|]. split; [apply Forall_app; split; [apply le_bytes_range|done]|].
  rewrite drop_app_length' by (by rewrite length_le_bytes).
  split; intros cap Hc; [by replace (len s <=? cap) with true by lia|by replace (len s <=? cap) with false by lia].
Qed.

Lemma sample_digest_ok : digest_ok sample_digest.
Proof.
  intros l. unfold sample_digest. split.
  - rewrite length_take, length_app, length_replicate. change (Z.to_nat SHA1_LEN) with 20%nat. lia.
  - apply Forall_take, Forall_app. split.
    + induction l; constructor; [apply uw_range; lia|done].
    + apply Forall_replicate. lia.
Qed.

Lemma dedup_roundtrip_witness :
  let data := replicate 64 0 ++ [1; 2; 3] in
  exists f,
    Encode (cache := sample_cache) sample_read sample_write (fun _ => 0) sample_digest sample_compress
      COMPRESS_GZIP (fun _ _ => true) 200 16 (Files 0 true 67 3 4) true data = Ok f /\
    Decode (cache := sample_cache) sample_read sample_write (fun _ => 0) sample_digest sample_uncompress f = Ok data.
Proof.
  assert (input_segments (fun _ => 0) (replicate 64 0 ++ [1; 2; 3]) =
    [replicate 32 0; replicate 32 0; [1; 2; 3]]) as E by (vm_compute; reflexivity).
  apply (dedup_roundtrip sample_read sample_write sample_digest sample_compress sample_uncompress (fun _ => 0)
    (fun _ _ => true) (fun _ => true) (fun _ => true) 200 16 COMPRESS_GZIP (Files 0 true 67 3 4) true (replicate 64 0 ++ [1; 2; 3])).
  - exact sample_io.
  - by split.
  - split; cbn; lia || reflexivity.
  - exact sample_zlib.
  - exact sample_digest_ok.
  - by right.
  - apply Forall_app. split; [apply Forall_replicate; lia|]. repeat constructor; lia.
  - apply small_fits. reflexivity.
  - reflexivity.
  - rewrite E. intros s Hs. change (piece_bound COMPRESS_GZIP) with 10000000.
    apply list_elem_of_In in Hs. destruct Hs as [<-|[<-|[<-|[]]]]; unfold len; cbn [length replicate]; lia.
  - rewrite E. intros a b Ha Hb. apply list_elem_of_In in Ha, Hb.
    destruct Ha as [<-|[<-|[<-|[]]]], Hb as [<-|[<-|[<-|[]]]];
      first [intros _; exact eq_refl | vm_compute; discriminate].
Defined.

(** ** Inputs without anchors

    An input can avoid anchors for as long as it likes, and is then a single piece. *)
Lemma list_ptr_bytes l : Forall is_byte l -> bytes_ok (list_ptr l).
Proof.
  intros H i. unfold list_ptr. revert i. induction H as [|b l Hb Hl IH]; intros i.
  - destruct (Z.to_nat i); cbn; lia.
  - destruct (Z.to_nat i) as [|k] eqn:E; [done|]. cbn [nth]. specialize (IH (Z.of_nat k)). by rewrite Nat2Z.id in IH.
Qed.

Lemma odd_not_anchor h : Z.testbit h 0 = true -> h .& RabinMask <> 0.
Proof.
  intros H E. apply (f_equal (fun z => Z.testbit z 0)) in E. rewrite Z.land_spec, H in E. done.
Qed.

Section Unanchored.
Context (tab wtab : Z -> Z) (tab_ok : red_ok tab) (wtab_ok : forall x, 0 <= x < 256 -> wtab x = x).

Lemma unanchored_tail n pre h : Forall is_byte pre -> 32 <= len pre -> is32 h ->
  exists suf, length suf = n /\ Forall is_byte suf /\
    rabinseg_loop n (list_ptr (pre ++ suf)) tab wtab (len pre) h = None.
Proof.
  revert pre h. induction n as [|n IH]; intros pre h Hp Hl Hh; [by exists []|].
  set (x := list_ptr pre (len pre - NWINDOW)).
  assert (0 <= x < 256) as Hx by (by apply list_ptr_bytes).
  assert (is32 (h .^ wtab x)) as Hhx by (rewrite wtab_ok by done; apply is32_lxor; [done|unfold is32; lia]).
  set (y := mul_tn 8 (h .^ wtab x)). set (b := if Z.testbit y 0 then 0 else 1).
  assert (0 <= b < 256) as Hb by (unfold b; destruct (Z.testbit y 0); lia).
  destruct (IH (pre ++ [b]) (y .^ b)) as (suf & S1 & S2 & S3).
  - apply Forall_app. split; [done|]. by constructor.
  - rewrite len_app. change (len [b]) with 1. lia.
  - apply is32_lxor; [by apply mul_tn_is32|unfold is32; lia].
  - exists (b :: suf). split; [cbn [length]; lia|]. split; [by constructor|].
    rewrite rabinseg_loop_S.
    assert (list_ptr (pre ++ b :: suf) (len pre - NWINDOW) = x) as ->.
    { unfold x, list_ptr. apply app_nth1. unfold len, NWINDOW in *. lia. }
    assert (list_ptr (pre ++ b :: suf) (len pre) = b) as ->.
    { unfold list_ptr, len. rewrite Nat2Z.id, app_nth2, Nat.sub_diag by lia. done. }
    rewrite byte_step_spec by done. fold y.
    assert ((y .^ b) .& RabinMask <> 0) as Hna.
    { apply odd_not_anchor. rewrite Z.lxor_spec. unfold b. by destruct (Z.testbit y 0) eqn:E. }
    apply Z.eqb_neq in Hna. rewrite Hna.
    rewrite <- S3. rewrite <- app_assoc. cbn [app]. f_equal. by rewrite len_app.
Qed.

Lemma unanchored n : 32 <= n < 2 ^ 31 -> exists data, Forall is_byte data /\ len data = n /\
  anchor_offset tab wtab 0 data = n.
Proof.
  intros Hn. set (pre := replicate 31 0 ++ [1]).
  assert (Forall is_byte pre) as Hp by (apply Forall_app; split; [apply Forall_replicate; lia|repeat constructor; lia]).
  destruct (unanchored_tail (Z.to_nat (n - 32)) pre 1 Hp) as (suf & S1 & S2 & S3);
    [done|unfold is32; lia|].
  exists (pre ++ suf). split; [by apply Forall_app|].
  assert (len (pre ++ suf) = n) as Hl by (rewrite len_app; change (len pre) with 32; unfold len; lia).
  split; [done|]. unfold anchor_offset, rabinseg. rewrite Hl, sw_small by lia. change NWINDOW with 32 at 1.
  replace (n <? 32) with false by lia. cbv zeta.
  rewrite (first_window _ (list_ptr_bytes _ (proj2 (Forall_app _ _ _) (conj Hp S2))) tab tab_ok).
  assert (window (list_ptr (pre ++ suf)) NWINDOW = pre) as -> by reflexivity.
  assert (fingerprint pre = 1) as -> by (vm_compute; reflexivity).
  change (1 .& RabinMask =? 0) with false. cbv iota. change NWINDOW with 32.
  change (len pre) with 32 in S3. by rewrite S3.
Qed.

Lemma unanchored_segments data rf_win : data <> [] -> len data <= MAXBUF ->
  anchor_offset tab wtab rf_win data = len data -> segments tab wtab rf_win data = [data].
Proof.
  intros Hne Hl Ha. unfold segments. cbn [segments_from]. cbv zeta. rewrite ztake_all by done.
  pose proof (len_nonneg data). rewrite len_nil. cbn [app].
  assert (len data <> 0) by (intros E; by apply len_0 in E).
  replace (0 + len data =? 0) with false by lia. replace (len data =? 0) with false by lia.
  cbn [split_pure]. rewrite Ha, Z.ltb_irrefl. cbn [app].
  assert (zdrop MAXBUF data = []) as ->.
  { apply (app_inv_head data). rewrite <- (ztake_all MAXBUF data) at 1 by done. by rewrite ztake_zdrop, app_nil_r. }
  cbn [ztake]. rewrite len_nil. replace (len data + 0 =? 0) with false by lia. done.
Qed.
End Unanchored.

(** for every size above the decoder's buffer there is an input of that size that
    the encoder compresses with gzip without an error and the decoder rejects: the
    size of a piece is not bounded when no anchor is found. *)
Theorem gzip_large_piece_rejected read write SHA1_Digest compress uncompress undef malloc table_malloc realloc
    sizeof_chunk_t sizeof_mcb_t f preloading n :
  io_ok read write -> memory_ok malloc table_malloc ->
  (forall data, len data = n -> files_ok f data) -> zlib_ok compress uncompress -> digest_ok SHA1_Digest ->
  UNCOMPRESS_BOUND < n <= MAXBUF ->
  exists data file, len data = n /\ Forall is_byte data /\
    Encode (cache := dedup_cache table_malloc realloc) read write undef SHA1_Digest compress COMPRESS_GZIP
      malloc sizeof_chunk_t sizeof_mcb_t f preloading data = Ok file /\
    Decode (cache := dedup_cache table_malloc realloc) read write undef SHA1_Digest uncompress file = Exit_trace.
Proof.
  intros Hio [Hm1 Hm2] Hf Hz Hd Hn. set (cache := dedup_cache table_malloc realloc).
  pose proof (dedup_cache_laws table_malloc realloc Hm2) as laws. fold cache in laws. pose proof (rabininit_red rf_win_init undef undef) as Ht.
  pose proof (rabininit_win rf_win_init undef undef) as Hw.
  set (tab := (rabininit rf_win_init undef undef).1) in *. set (wtab := (rabininit rf_win_init undef undef).2) in *.
  unfold UNCOMPRESS_BOUND in Hn.
  destruct (unanchored tab wtab Ht Hw n ltac:(unfold MAXBUF in *; lia)) as (data & Hb & Hl & Ha).
  assert (input_segments undef data = [data]) as Hseg.
  { unfold input_segments. change (rabininit rf_win_init undef undef) with (tab, wtab).
    apply unanchored_segments; [intros ->; rewrite len_nil in Hl; lia|lia|by rewrite Hl]. }
  destruct (zlib_compress _ _ Hz data (len data + (len data >> 9) + 12)) as (c & C1 & C2 & C3 & _ & C4);
    [lia|done|apply zlib_fits|].
  assert (len data >> 9 <= 262144)
    by (rewrite Z.shiftr_div_pow2 by lia; apply (Z.div_le_mono _ 134217728 512); unfold MAXBUF in *; lia).
  unfold MAXBUF in Hn.
  destruct (law_create (C := cache) 65536 ltac:(lia)) as (db & Hdb & Hr).
  set (recs := [u8 TYPE_COMPRESS] ++ le_bytes 8 (len c) ++ c).
  exists data, (file_header COMPRESS_GZIP ++ recs). split; [done|]. split; [done|].
  assert (Forall is_byte recs) as Hrecs
    by (constructor; [apply uw_range; lia|]; apply Forall_app; split; [apply le_bytes_range|done]).
  split.
  - rewrite (Encode_ok read write Hio cache _ _ _ _ malloc _ _ Hm1 f preloading data db), Hseg;
      [|by apply Hf|done|apply small_fits; lia|lia|done]. cbn [process_all].
    destruct (process_new read write Hio cache laws SHA1_Digest compress COMPRESS_GZIP db ∅ (file_header COMPRESS_GZIP) data c)
      as (db' & E & _); [|lia|done|by rewrite lookup_empty|by rewrite E].
    intros d k. unfold sub_Compress. cbn [uncompressed_data isDuplicate sha1].
    change (COMPRESS_GZIP =? COMPRESS_NONE) with false. change (COMPRESS_GZIP =? COMPRESS_GZIP) with true.
    cbv iota zeta. by rewrite C1.
  - unfold Decode. rewrite Hdb, (read_header_ok read write Hio) by (done || (unfold COMPRESS_GZIP; lia)). cbn [res_bind].
    change (i2b 0) with false. cbv iota. cbn [decode_loop].
    rewrite <- (app_nil_r recs). unfold recs. rewrite <- !app_assoc.
    rewrite (read_chunk_compress read write Hio) by (done || lia). cbn [res_bind].
    replace (len c <? 0) with false by lia. replace (len c =? 0) with false by lia. cbn [isDuplicate negb].
    unfold uncompress_chunk. cbn [compressed_data].
    change (COMPRESS_GZIP =? COMPRESS_NONE) with false. change (COMPRESS_GZIP =? COMPRESS_GZIP) with true.
    cbv iota. rewrite C4; [done|unfold UNCOMPRESS_BOUND; lia].
Qed.

Lemma gzip_large_piece_rejected_witness :
  exists data f, len data = 10000001 /\ Forall is_byte data /\
    Encode (cache := sample_cache) sample_read sample_write (fun _ => 0) sample_digest sample_compress
      COMPRESS_GZIP (fun _ _ => true) 200 16 (Files 0 true 10000001 3 4) true data = Ok f /\
    Decode (cache := sample_cache) sample_read sample_write (fun _ => 0) sample_digest sample_uncompress f = Exit_trace.
Proof.
  apply (gzip_large_piece_rejected sample_read sample_write sample_digest sample_compress sample_uncompress
    (fun _ => 0) (fun _ _ => true) (fun _ => true) (fun _ => true) 200 16 (Files 0 true 10000001 3 4) true 10000001);
    [exact sample_io|by split|intros data Hl; split; cbn; lia || done|exact sample_zlib|exact sample_digest_ok|].
  unfold UNCOMPRESS_BOUND, MAXBUF. lia.
Defined.
