(* ===== verification/Decoder.v ===== *)
(** * The decoder of dedup on any file (decoder.c)

    Dedup.v shows that the decoder inverts the encoder.  Here its input is any string of
    bytes: the decoder ends, it rejects what is not a header followed by whole records, and
    what it writes for the rest is what the records mean. *)
From stdpp Require Import gmap.
From S2P Require Import Prelude Rabin Hashtable Dedup.

(** ** The format of a file *)
Inductive record :=
  | R_fingerprint (k : list Z)
  | R_compress (c : list Z).

Definition record_bytes (r : record) : list Z :=
  match r with
  | R_fingerprint k => TYPE_FINGERPRINT :: le_bytes 8 SHA1_LEN ++ k
  | R_compress c => TYPE_COMPRESS :: le_bytes 8 (len c) ++ c
  end.
Definition record_ok (r : record) : Prop :=
  match r with
  | R_fingerprint k => len k = SHA1_LEN
  | R_compress c => 0 < len c < 2 ^ 31
  end.

Section Meaning.
Context (SHA1_Digest : list Z -> list Z) (uncompress : Z -> list Z -> option (list Z)).

Definition inflate (ctype : Z) (c : list Z) : option (list Z) :=
  let u := if ctype =? COMPRESS_NONE then Some c
           else if ctype =? COMPRESS_GZIP then uncompress UNCOMPRESS_BOUND c
           else None in
  match u with Some (b :: l) => Some (b :: l) | _ => None end.

(** The contents of the records, given the pieces seen so far by their digest; of two
    pieces with one digest the later counts. *)
Fixpoint interp (ctype : Z) (db : gmap (list Z) (list Z)) (recs : list record) : option (list Z) :=
  match recs with
  | [] => Some []
  | R_compress c :: recs =>
      u ← inflate ctype c; out ← interp ctype (<[SHA1_Digest u := u]> db) recs; Some (u ++ out)
  | R_fingerprint k :: recs => u ← db !! k; out ← interp ctype db recs; Some (u ++ out)
  end.
End Meaning.

(** ** Reading when the file is too short *)
Section Total.
Context (read : Z -> Z -> Z) (write : Z -> Z * bool) (io : io_ok read write).

Lemma xread_loop_short fuel data buf nrecv rlen : 0 <= nrecv -> len data < rlen - nrecv -> rlen < 2 ^ 64 ->
  (length data < fuel)%nat -> exists buf', xread_loop read fuel data buf nrecv rlen = Ok (0, buf', []).
Proof.
  revert data buf nrecv. induction fuel as [|fuel IH]; intros data buf nrecv Hn Hd Hr Hf; [lia|].
  pose proof (len_nonneg data). cbn [xread_loop]. replace (nrecv <? rlen) with true by lia. cbv zeta.
  destruct (Z.eq_dec (len data) 0) as [E|E].
  - rewrite (len_0 data E), len_nil, (io_eof _ _ io) by lia. by eexists.
  - pose proof (io_read _ _ io (len data) (rlen - nrecv) ltac:(lia) ltac:(lia)) as R.
    set (n := read (len data) (rlen - nrecv)) in *. rewrite (uw_small 64 n) by lia.
    replace (0 >? n) with false by lia. replace (n =? 0) with false by lia. replace (n >? 0) with true by lia.
    rewrite (uw_small 64 (nrecv + n)) by lia. pose proof (len_zdrop n data ltac:(lia)) as L.
    apply IH; [lia|lia|lia|]. unfold len in *. lia.
Qed.

Lemma xread_short data buf rlen : len data < rlen < 2 ^ 64 -> exists buf', xread read data buf rlen = Ok (0, buf', []).
Proof. intros H. apply xread_loop_short; lia. Qed.

(** Either [rlen] bytes are read or the file ends first. *)
Lemma xread_cases data buf rlen : 0 < rlen < 2 ^ 64 -> Forall is_byte data -> len data < 2 ^ 31 ->
  (len data < rlen /\ exists buf', xread read data buf rlen = Ok (0, buf', [])) \/
  (exists content rest buf', data = content ++ rest /\ len content = rlen /\ rlen < 2 ^ 31 /\
    xread read data buf rlen = Ok (rlen, buf', rest) /\ ld_bytes (length content) buf' 0 = content).
Proof.
  intros Hr Hb Hl. destruct (Z.lt_ge_cases (len data) rlen) as [Hs|Hs]; [left; split; [done|apply xread_short; lia]|right].
  assert (Forall is_byte (ztake rlen data) /\ Forall is_byte (zdrop rlen data)) as [H1 H2] by (apply Forall_app; by rewrite ztake_zdrop).
  pose proof (len_ztake rlen data ltac:(lia)) as L.
  destruct (xread_ok read write io (ztake rlen data) (zdrop rlen data) buf ltac:(lia) H1 H2) as (buf' & E & B).
  rewrite ztake_zdrop, L in E. exists (ztake rlen data), (zdrop rlen data), buf'.
  rewrite ztake_zdrop. repeat split; try done. lia.
Qed.

Context {T : Type} (cache : Cache T (list Z) chunk_t) (shadows : CacheShadows cache).
Context (SHA1_Digest : list Z -> list Z) (uncompress : Z -> list Z -> option (list Z)) (undef : Z -> Z).
(** zlib stores at most as much as the destination has room for. *)
Context (bounded : forall n c u, uncompress n c = Some u -> len u <= n).
Local Abbreviation decode := (decode_loop read write undef SHA1_Digest uncompress).

(** What one call of [read_chunk] does to the chunk. *)
Definition chunk_of (r : record) (chunk : chunk_t) : chunk_t :=
  match r with
  | R_fingerprint k => Chunk true k (uncompressed_data chunk) (compressed_data chunk)
  | R_compress c => Chunk false (sha1 chunk) (uncompressed_data chunk) c
  end.

Lemma read_type data : data <> [] -> Forall is_byte data -> len data < 2 ^ 31 ->
  exists t rest buf, data = t :: rest /\ xread read data undef 1 = Ok (1, buf, rest) /\ buf 0 = t.
Proof.
  intros Hne Hb Hl. destruct data as [|t rest]; [done|].
  destruct (xread_cases (t :: rest) undef 1) as [[H _]|(c & r & buf & E & Lc & _ & X & B)]; [lia|done|done| |].
  - rewrite len_cons in H. pose proof (len_nonneg rest). lia.
  - destruct c as [|t' [|? ?]]; [done| |rewrite !len_cons in Lc; match type of Lc with context [len ?l] => pose proof (len_nonneg l) end; lia].
    injection E as <- <-. exists t, rest, buf. cbn in B. injection B as B. done.
Qed.

Lemma read_chunk_cases data chunk : data <> [] -> Forall is_byte data -> len data < 2 ^ 31 ->
  read_chunk read undef data chunk = Exit_trace \/
  exists r rest n, data = record_bytes r ++ rest /\ record_ok r /\ 0 < n /\
    read_chunk read undef data chunk = Ok (n, chunk_of r chunk, rest).
Proof.
  intros Hne Hb Hl. destruct (read_type data Hne Hb Hl) as (t & d1 & b1 & -> & X1 & T1).
  inversion Hb as [|? ? Ht Hb1]; subst x l. rewrite len_cons in Hl. pose proof (len_nonneg d1).
  unfold read_chunk. rewrite X1. cbn [res_bind Z.ltb Z.eqb Z.compare]. cbv zeta. rewrite T1.
  destruct (xread_cases d1 undef 8) as [[_ (b2 & X2)]|(c2 & d2 & b2 & -> & L2 & _ & X2 & B2)]; [lia|done|lia| |];
    rewrite X2; cbn [res_bind Z.ltb Z.eqb Z.compare]; [by left|].
  assert (length c2 = 8%nat) as L8 by (unfold len in L2; lia). rewrite L8 in B2. rewrite B2.
  apply Forall_app in Hb1 as [Hc2 Hb2]. rewrite len_app in Hl. pose proof (len_nonneg d2).
  assert (le_bytes 8 (le_val c2) = c2) as Ec2 by (rewrite <- L8; by apply le_bytes_val).
  assert (0 <= le_val c2 < 2 ^ 64) as Hv by (pose proof (le_val_bound c2 Hc2) as V; rewrite L8 in V; change (256 ^ Z.of_nat 8) with (2 ^ 64) in V; lia).
  set (v := le_val c2) in *.
  destruct (Z.eqb_spec t TYPE_FINGERPRINT) as [-> |Ht0]; [|destruct (Z.eqb_spec t TYPE_COMPRESS) as [-> |Ht1]; [|by left]].
  - destruct (Z.eqb_spec v SHA1_LEN) as [Ev|Ev]; cbn [negb]; [|by left].
    destruct (xread_cases d2 undef SHA1_LEN) as [[_ (b3 & X3)]|(c3 & d3 & b3 & -> & L3 & _ & X3 & B3)]; [unfold SHA1_LEN; lia|done|lia| |];
      rewrite X3; cbn [res_bind Z.ltb Z.eqb Z.compare SHA1_LEN]; [by left|right].
    assert (length c3 = 20%nat) as L20 by (unfold len, SHA1_LEN in L3; lia). rewrite L20 in B3.
    exists (R_fingerprint c3), d3, 20. cbn [record_bytes record_ok chunk_of]. rewrite <- Ev, Ec2, B3.
    change (s32 20) with 20. rewrite Ev. cbn [app]. by rewrite <- app_assoc.
  - destruct (Z.leb_spec v 0); [by left|].
    destruct (xread_cases d2 undef v) as [[_ (b3 & X3)]|(c3 & d3 & b3 & -> & L3 & Lv & X3 & B3)]; [lia|done|lia| |];
      rewrite X3; cbn [res_bind]; [by left|right].
    replace (v <? 0) with false by lia. replace (v =? 0) with false by lia.
    exists (R_compress c3), d3, v. cbn [record_bytes record_ok chunk_of]. rewrite L3, Ec2. cbn [app]. rewrite <- app_assoc.
    split; [done|]. split; [lia|]. split; [lia|]. rewrite sw_small by lia.
    replace (Z.to_nat v) with (length c3) by (unfold len in L3; lia). by rewrite B3.
Qed.

Lemma record_bytes_nil r : record_bytes r <> [].
Proof. by destruct r. Qed.

(** A record at the front of the file is the one that is read. *)
Lemma read_chunk_record r rest chunk : record_ok r -> Forall is_byte (record_bytes r) -> Forall is_byte rest ->
  exists n, 0 < n /\ read_chunk read undef (record_bytes r ++ rest) chunk = Ok (n, chunk_of r chunk, rest).
Proof.
  intros Hr Hb Hrest. destruct r as [k|c]; cbn [record_ok record_bytes chunk_of] in *;
    apply Forall_inv_tail in Hb; apply Forall_app in Hb as [_ Hb1].
  - exists SHA1_LEN. split; [done|].
    rewrite <- (read_chunk_fingerprint read write io undef k rest chunk); [|unfold len in Hr; lia|done|done].
    cbn [app]. by rewrite <- app_assoc.
  - exists (len c). split; [lia|]. rewrite <- (read_chunk_compress read write io undef c rest chunk) by done.
    cbn [app]. by rewrite <- app_assoc.
Qed.

Lemma uncompress_inflate ctype d k u0 c : len c < 2 ^ 31 ->
  (let! (r, chunk) := uncompress_chunk uncompress ctype (Chunk d k u0 c) in
   if r <=? 0 then Exit_trace else Ok chunk) =
  match inflate uncompress ctype c with Some u => Ok (Chunk d k u []) | None => Exit_trace end.
Proof.
  intros Hc. unfold uncompress_chunk, inflate. cbn [compressed_data isDuplicate sha1].
  assert (forall u, len u < 2 ^ 31 -> (let! (r, chunk) := Ok (s32 (len u), Chunk d k u []) in if r <=? 0 then Exit_trace else Ok chunk) =
    match match Some u with Some (b :: l) => Some (b :: l) | _ => None end with Some u => Ok (Chunk d k u []) | None => Exit_trace end) as HU.
  { intros u Hu. pose proof (len_nonneg u). cbn [res_bind]. rewrite sw_small by lia. destruct u as [|b l]; [done|].
    rewrite len_cons in *. pose proof (len_nonneg l). by replace (1 + len l <=? 0) with false by lia. }
  destruct (ctype =? COMPRESS_NONE); cbn [res_bind]; [by apply HU|].
  destruct (ctype =? COMPRESS_GZIP); cbn [res_bind]; [|done].
  destruct (uncompress UNCOMPRESS_BOUND c) as [u|] eqn:E; cbn [res_bind]; [|done]. apply HU. pose proof (bounded _ _ _ E). unfold UNCOMPRESS_BOUND in *. lia.
Qed.

Lemma inflate_len ctype c u : len c < 2 ^ 31 -> inflate uncompress ctype c = Some u -> len u < 2 ^ 31.
Proof.
  unfold inflate. intros Hc E. destruct (ctype =? COMPRESS_NONE); [destruct c; by simplify_eq|].
  destruct (ctype =? COMPRESS_GZIP); [|done]. destruct (uncompress UNCOMPRESS_BOUND c) as [[|b l]|] eqn:E'; simplify_eq.
  pose proof (bounded _ _ _ E'). unfold UNCOMPRESS_BOUND in *. lia.
Qed.

(** One round of the loop. *)
Definition small_pieces (m : gmap (list Z) chunk_t) : Prop := forall k c, m !! k = Some c -> len (uncompressed_data c) < 2 ^ 31.

Lemma write_entry out u : len u < 2 ^ 31 ->
  (let! (w, out) := xwrite write out u in if u64 w <? len u then Exit_trace else Ok out) = Ok (out ++ u).
Proof.
  intros Hu. pose proof (len_nonneg u). rewrite (xwrite_ok read write io) by lia. cbn [res_bind].
  rewrite sw_small, uw_small by lia. by rewrite Z.ltb_irrefl.
Qed.

Lemma decode_step fuel ctype db m r rest data out chunk n : record_ok r -> 0 < n -> cache_view db m -> small_pieces m ->
  read_chunk read undef data chunk = Ok (n, chunk_of r chunk, rest) ->
  decode (S fuel) ctype db data out chunk =
  match r with
  | R_compress c =>
      match inflate uncompress ctype c with
      | Some u =>
          match cache_insert db (SHA1_Digest u) (Chunk false (SHA1_Digest u) u []) with
          | Some db => decode fuel ctype db rest (out ++ u) empty_chunk
          | None => Exit_trace
          end
      | None => Exit_trace
      end
  | R_fingerprint k =>
      match m !! k with
      | Some e => decode fuel ctype db rest (out ++ uncompressed_data e) (chunk_of r chunk)
      | None => Exit_trace
      end
  end.
Proof.
  intros Hr Hn Hv Hm E. cbn [decode_loop]. rewrite E. cbn [res_bind]. replace (n <? 0) with false by lia. replace (n =? 0) with false by lia.
  assert (forall u (K : list Z -> res (list Z)), len u < 2 ^ 31 ->
    (let! (w, out) := xwrite write out u in if u64 w <? len u then Exit_trace else K out) = K (out ++ u)) as HW.
  { intros u K Hu. pose proof (write_entry out u Hu) as W. destruct (xwrite write out u) as [[w o]| |]; cbn [res_bind] in *; [|done..].
    destruct (u64 w <? len u); by simplify_eq. }
  destruct r as [k|c]; cbn [chunk_of isDuplicate negb sha1] in *.
  - rewrite (view_search db m k Hv). destruct (m !! k) as [e|] eqn:Ee; cbn [res_bind sha1]; [|done].
    by rewrite (HW _ (fun out => decode fuel ctype db rest out _)) by (by apply (Hm k)).
  - cbn [record_ok] in Hr. pose proof (uncompress_inflate ctype false (sha1 chunk) (uncompressed_data chunk) c ltac:(lia)) as U.
    destruct (uncompress_chunk _ _ _) as [[n' ch]| |]; cbn [res_bind] in *; [|by destruct (inflate _ _ _)..].
    destruct (n' <=? 0); [by destruct (inflate _ _ _)|]. destruct (inflate uncompress ctype c) as [u|] eqn:Eu; [|done].
    injection U as ->. cbn [res_bind uncompressed_data isDuplicate compressed_data].
    destruct (cache_insert _ _ _) as [db'|]; cbn [res_bind uncompressed_data]; [|done].
    by rewrite (HW _ (fun out => decode fuel ctype _ rest out _)) by (apply (inflate_len ctype c); [lia|done]).
Qed.

Definition is_records (data : list Z) (recs : list record) : Prop := data = mjoin (record_bytes <$> recs) /\ Forall record_ok recs.

Lemma records_bytes r rest : Forall is_byte (record_bytes r ++ rest) -> len (record_bytes r ++ rest) < 2 ^ 31 ->
  Forall is_byte (record_bytes r) /\ Forall is_byte rest /\ len rest < 2 ^ 31 /\ (length rest < length (record_bytes r ++ rest))%nat.
Proof.
  intros [B1 B2]%Forall_app Hl. rewrite len_app in Hl. pose proof (len_nonneg (record_bytes r)). repeat split; [done..|lia|].
  rewrite length_app. destruct r; cbn [record_bytes length]; lia.
Qed.

(** A file is the bytes of records in at most one way. *)
Lemma records_cons r rest recs : is_records rest recs -> record_ok r -> is_records (record_bytes r ++ rest) (r :: recs).
Proof. intros [-> Hok] Hr. split; [done|by constructor]. Qed.

Lemma records_inv r rest recs : record_ok r -> Forall is_byte (record_bytes r ++ rest) ->
  is_records (record_bytes r ++ rest) recs -> exists recs', recs = r :: recs' /\ is_records rest recs'.
Proof.
  intros Hr [B1 B2]%Forall_app Hrec. destruct recs as [|r' recs]; [by destruct Hrec, r|].
  destruct Hrec as [Er Hok]. pose proof (Forall_inv Hok) as Hr'. apply Forall_inv_tail in Hok.
  change (record_bytes r ++ rest = record_bytes r' ++ mjoin (record_bytes <$> recs)) in Er.
  assert (Forall is_byte (record_bytes r' ++ mjoin (record_bytes <$> recs))) as [B1' B2']%Forall_app by (rewrite <- Er; by apply Forall_app).
  destruct (read_chunk_record r rest empty_chunk) as (n & _ & E); [done..|].
  destruct (read_chunk_record r' (mjoin (record_bytes <$> recs)) empty_chunk) as (n' & _ & E'); [done..|].
  rewrite <- Er, E in E'. injection E' as _ Ec Erest. exists recs. subst rest. split; [|by split].
  f_equal. destruct r, r'; cbn [chunk_of] in Ec; by simplify_eq.
Qed.

(** What the decoder should do with a file, given what it has seen. *)
Definition decodes (ctype : Z) (m : gmap (list Z) chunk_t) (data out : list Z) (result : res (list Z)) : Prop :=
  (exists recs, is_records data recs /\ result =
     match interp SHA1_Digest uncompress ctype (uncompressed_data <$> m) recs with Some u => Ok (out ++ u) | None => Exit_trace end) \/
  ((forall recs, ~ is_records data recs) /\ result = Exit_trace).

Lemma decodes_cons ctype m m' r rest out u result : record_ok r -> Forall is_byte (record_bytes r ++ rest) ->
  (forall recs, interp SHA1_Digest uncompress ctype (uncompressed_data <$> m) (r :: recs) =
    o ← interp SHA1_Digest uncompress ctype (uncompressed_data <$> m') recs; Some (u ++ o)) ->
  decodes ctype m' rest (out ++ u) result -> decodes ctype m (record_bytes r ++ rest) out result.
Proof.
  intros Hr Hb Hi [(recs & Hrec & ->)|[Hno ->]].
  - left. exists (r :: recs). split; [by apply records_cons|]. rewrite Hi.
    destruct (interp _ _ _ _ recs) as [o|]; cbn [mbind option_bind]; [by rewrite app_assoc|done].
  - right. split; [|done]. intros recs Hrec. destruct (records_inv r rest recs Hr Hb Hrec) as (recs' & -> & Hrec'). by apply (Hno recs').
Qed.

Lemma decodes_reject ctype m r rest out : record_ok r -> Forall is_byte (record_bytes r ++ rest) ->
  (forall recs, interp SHA1_Digest uncompress ctype (uncompressed_data <$> m) (r :: recs) = None) ->
  (exists recs, is_records rest recs) \/ (forall recs, ~ is_records rest recs) -> decodes ctype m (record_bytes r ++ rest) out Exit_trace.
Proof.
  intros Hr Hb Hi [(recs & Hrec)|Hno].
  - left. exists (r :: recs). split; [by apply records_cons|]. by rewrite Hi.
  - right. split; [|done]. intros recs Hrec. destruct (records_inv r rest recs Hr Hb Hrec) as (recs' & -> & Hrec'). by apply (Hno recs').
Qed.

Lemma decode_any fuel ctype : forall db m data out chunk, (length data < fuel)%nat -> Forall is_byte data -> len data < 2 ^ 31 ->
  cache_view db m -> small_pieces m -> decodes ctype m data out (decode fuel ctype db data out chunk).
Proof.
  induction fuel as [|fuel IH]; intros db m data out chunk Hf Hb Hl Hv Hm; [lia|].
  destruct (decide (data = [])) as [->|Hne].
  { left. exists []. split; [by split|]. cbn [decode_loop]. rewrite (read_chunk_end read write io). cbn. by rewrite app_nil_r. }
  destruct (read_chunk_cases data chunk Hne Hb Hl) as [E|(r & rest & n & -> & Hr & Hn & E)].
  - right. split; [|cbn [decode_loop]; by rewrite E]. intros [|r recs] [-> Hok]; [done|].
    pose proof (Forall_inv Hok) as Hr. apply Forall_inv_tail in Hok.
    change (mjoin (record_bytes <$> r :: recs)) with (record_bytes r ++ mjoin (record_bytes <$> recs)) in *. apply Forall_app in Hb as [B1 B2].
    destruct (read_chunk_record r (mjoin (record_bytes <$> recs)) chunk) as (n & _ & E'); [done..|]. by rewrite E in E'.
  - destruct (records_bytes r rest Hb Hl) as (B1 & B2 & Hl' & Hf').
    rewrite (decode_step fuel ctype db m r rest _ out chunk n Hr Hn Hv Hm E).
    assert ((exists recs, is_records rest recs) \/ (forall recs, ~ is_records rest recs)) as Hdec.
    { destruct (IH db m rest out chunk ltac:(lia) B2 Hl' Hv Hm) as [(recs & Hrec & _)|[Hno _]]; [left; by exists recs|by right]. }
    destruct r as [k|c].
    + destruct (m !! k) as [e|] eqn:Ee.
      * apply (decodes_cons ctype m m _ _ _ (uncompressed_data e)); [done|done| |apply IH; [lia|done..]].
        intros recs. cbn [interp]. by rewrite lookup_fmap, Ee.
      * apply decodes_reject; [done|done| |done]. intros recs. cbn [interp]. by rewrite lookup_fmap, Ee.
    + destruct (inflate uncompress ctype c) as [u|] eqn:Eu.
      * destruct (view_insert db m (SHA1_Digest u) (Chunk false (SHA1_Digest u) u []) Hv) as (db' & -> & Hv').
        apply (decodes_cons ctype m (<[SHA1_Digest u := Chunk false (SHA1_Digest u) u []]> m) _ _ _ u); [done|done| |apply IH; [lia|done|done| |]].
        -- intros recs. cbn [interp]. rewrite Eu. cbn [mbind option_bind]. by rewrite fmap_insert.
        -- exact Hv'.
        -- intros k' c' [[_ <-]|[_ Hk']]%lookup_insert_Some; [by apply (inflate_len ctype c); [cbn in Hr; lia|]|by apply (Hm k')].
      * apply decodes_reject; [done|done| |done]. intros recs. cbn [interp]. by rewrite Eu.
Qed.

Lemma small_empty : small_pieces ∅.
Proof. intros k c. by rewrite lookup_empty. Qed.

(** The header: five bytes are taken, and the first four must be the magic number. *)
Lemma read_header_cases data : Forall is_byte data -> 5 <= len data < 2 ^ 31 ->
  exists r t rest, read_header read undef data = Ok (r, t, rest) /\
  ((r = 0 /\ data = le_bytes 4 CHECKBIT ++ t :: rest) \/ (r = -1 /\ forall t rest, data <> le_bytes 4 CHECKBIT ++ t :: rest)).
Proof.
  intros Hb Hl. unfold read_header.
  destruct (xread_cases data undef 4) as [[H _]|(c & d1 & b1 & -> & Lc & _ & X & B)]; [lia|done|lia|lia|].
  apply Forall_app in Hb as [Hc Hd1]. rewrite len_app in Hl. rewrite X. cbn [res_bind Z.ltb Z.compare].
  assert (length c = 4%nat) as L4 by (unfold len in Lc; lia). rewrite L4 in B. rewrite B.
  assert (le_bytes 4 (le_val c) = c) as Ec by (rewrite <- L4; by apply le_bytes_val).
  assert (0 <= le_val c < 2 ^ 32) as Hv by (pose proof (le_val_bound c Hc) as V; rewrite L4 in V; change (256 ^ Z.of_nat 4) with (2 ^ 32) in V; lia).
  destruct (Z.eqb_spec (s32 (le_val c)) CHECKBIT) as [E|E]; cbn [negb].
  - destruct (read_type d1) as (t & d2 & b2 & -> & X2 & T2); [intros ->; rewrite len_nil in Hl; lia|done|lia|].
    rewrite X2. cbn [res_bind Z.ltb Z.compare]. rewrite T2. exists 0, t, d2. split; [done|left]. split; [done|].
    rewrite <- Ec. do 2 f_equal. unfold CHECKBIT, sw in *.
    pose proof (Z.div_mod (le_val c + 2 ^ 31) (2 ^ 32)). change (2 ^ (32 - 1)) with (2 ^ 31) in *. lia.
  - exists (-1), 0, d1. split; [done|right]. split; [done|]. intros t rest Ed. apply E.
    assert (c = le_bytes 4 CHECKBIT) as ->; [|done]. apply (f_equal (take 4)) in Ed.
    rewrite !take_app_length' in Ed by (rewrite ?length_le_bytes; lia). done.
Qed.

Lemma decode_file_total data : Forall is_byte data -> 5 <= len data < 2 ^ 31 ->
  let result := Decode read write undef SHA1_Digest uncompress data in
  (exists ctype recs, data = le_bytes 4 CHECKBIT ++ ctype :: mjoin (record_bytes <$> recs) /\ Forall record_ok recs /\
     result = match interp SHA1_Digest uncompress ctype ∅ recs with Some out => Ok out | None => Exit_trace end) \/
  ((forall ctype recs, Forall record_ok recs -> data <> le_bytes 4 CHECKBIT ++ ctype :: mjoin (record_bytes <$> recs)) /\
   result = Exit_trace).
Proof.
  intros Hb Hl. cbv zeta. unfold Decode. destruct (view_create 65536 ltac:(lia)) as (db & -> & Hv).
  destruct (read_header_cases data Hb Hl) as (r & t & rest & -> & [[-> ->]|[-> Hno]]); cbn [res_bind].
  - change (i2b 0) with false. cbv iota. apply Forall_app in Hb as [_ Hb]. apply Forall_inv_tail in Hb.
    rewrite len_app, len_cons in Hl. change (len (le_bytes 4 CHECKBIT)) with 4 in Hl. 
    destruct (decode_any (S (length rest)) t db ∅ rest [] empty_chunk ltac:(lia) Hb ltac:(lia) Hv small_empty) as [(recs & [-> Hok] & ->)|[Hno ->]].
    + left. exists t, recs. rewrite fmap_empty. done.
    + right. split; [|done]. intros ctype recs Hok E. apply app_inv_head in E. injection E as -> ->. by apply (Hno recs).
  - right. split; [|done]. intros ctype recs _. apply Hno.
Qed.
End Total.

(** C27: on every file of at least a header, well-formed or not, the decoder ends, if the
    table of digests gets the memory it asks for.  It
    rejects each file that is not the magic number, a compression type and whole records;
    of the others it writes exactly what the records mean, a piece of a fingerprint being
    the last one stored with that digest, and it rejects them when a record has no meaning
    (an unknown digest or compression type, or data that do not inflate). *)
Theorem decoder_total read write SHA1_Digest uncompress undef table_malloc realloc data :
  io_ok read write -> (forall i, table_malloc i = true) -> (forall n c u, uncompress n c = Some u -> len u <= n) ->
  Forall is_byte data -> 5 <= len data < 2 ^ 31 ->
  let result := Decode (cache := dedup_cache table_malloc realloc) read write undef SHA1_Digest uncompress data in
  (exists ctype recs, data = le_bytes 4 CHECKBIT ++ ctype :: mjoin (record_bytes <$> recs) /\ Forall record_ok recs /\
     result = match interp SHA1_Digest uncompress ctype ∅ recs with Some out => Ok out | None => Exit_trace end) \/
  ((forall ctype recs, Forall record_ok recs -> data <> le_bytes 4 CHECKBIT ++ ctype :: mjoin (record_bytes <$> recs)) /\
   result = Exit_trace).
Proof.
  intros io Hm bounded. apply (decode_file_total read write io (dedup_cache table_malloc realloc)
    (hashtable_cache_shadows hash_from_key_fn keys_equal_fn keys_equal_spec Plain table_malloc realloc Hm eq_refl)
    SHA1_Digest uncompress undef bounded).
Qed.

(** A file whose last record is cut off. *)
Definition broken_file : list Z :=
  le_bytes 4 CHECKBIT ++ COMPRESS_NONE :: record_bytes (R_compress [7; 8]) ++ [TYPE_COMPRESS; 3].

Lemma decoder_total_witness :
  Decode (cache := dedup_cache (fun _ => true) (fun _ => true)) sample_read sample_write (fun _ => 0) sample_digest sample_uncompress broken_file <> Stuck.
Proof.
  destruct (decoder_total sample_read sample_write sample_digest sample_uncompress (fun _ => 0) (fun _ => true) (fun _ => true) broken_file) as [(t & recs & _ & _ & ->)|[_ ->]].
  - exact sample_io.
  - done.
  - intros n c u E. unfold sample_uncompress in E. destruct (Z.leb_spec (len (drop 8 c)) n); by simplify_eq.
  - apply List.Forall_forall. intros b Hb. assert (forallb (fun b => (0 <=? b) && (b <? 256)) broken_file = true) as C by (vm_compute; reflexivity).
    rewrite forallb_forall in C. specialize (C b Hb). cbv beta. lia.
  - vm_compute. split; [discriminate|reflexivity].
  - by destruct (interp _ _ _ _ _).
  - done.
Defined.
