(* ===== verification/Binheap.v ===== *)
(** * The priority queue of dedup (binheap.c, binheap.h)

    A binary heap in an array from 1, ordered by the second sequence number, with a
    NULL sentinel at 0.  The queue stands for the multiset of its elements:
    insertion adds one, and [DeleteMin] removes one of least number. *)
From S2P Require Import Prelude.

Definition MinPQSize := 16.

Section Heap.
(** [HeapElementType]: a chunk, of which the heap reads [sequence.l2num]. *)
Context {A : Type} (l2num : A -> Z).

Record HeapStruct := Heap {
  Capacity : Z;
  Size : Z;
  Elements : Z -> option A
}.

(** [H->Elements[i]->sequence.l2num] *)
Definition num (e : option A) : Z := from_option l2num 0 e.

Definition upd_el (a : Z -> option A) (i : Z) (v : option A) : Z -> option A :=
  fun x => if x =? i then v else a x.

(** [None] is the exit of [Error].  [undef] is the memory [malloc] returns. *)
Definition Initialize (undef : Z -> option A) (InitCapacity : Z) : option HeapStruct :=
  if InitCapacity <? MinPQSize then None
  else Some {| Capacity := InitCapacity; Size := 0; Elements := upd_el undef 0 None |}.

Definition MakeEmpty (H : HeapStruct) : HeapStruct :=
  {| Capacity := Capacity H; Size := 0; Elements := Elements H |}.

Definition IsEmpty (H : HeapStruct) : bool := Size H =? 0.
Definition IsFull (H : HeapStruct) : bool := Size H =? Capacity H.
Definition NumberElements (H : HeapStruct) : Z := Size H.

(** The percolation loop of [Insert], on the array and the hole. *)
Definition insert_loop (x : A) (fuel : nat) (st : (Z -> option A) * Z) : option ((Z -> option A) * Z) :=
  while_ fuel
    (fun '(a, i) => match a (i / 2) with None => false | Some y => l2num y >? l2num x end)
    (fun '(a, i) => (upd_el a i (a (i / 2)), i / 2)) st.

Definition Insert (x : A) (H : HeapStruct) : option HeapStruct :=
  let capacity := if IsFull H then 2 * Capacity H else Capacity H in
  if Size H =? 0 then
    Some {| Capacity := capacity; Size := 1; Elements := upd_el (Elements H) 1 (Some x) |}
  else
    let size := Size H + 1 in
    match insert_loop x (Z.to_nat size) (Elements H, size) with
    | Some (a, i) => Some {| Capacity := capacity; Size := size; Elements := upd_el a i (Some x) |}
    | None => None
    end.

(** The percolation loop of [DeleteMin]. *)
Fixpoint delete_loop (fuel : nat) (last : option A) (size : Z) (a : Z -> option A) (i : Z) :
    option ((Z -> option A) * Z) :=
  if i * 2 <=? size then
    match fuel with
    | O => None
    | S fuel =>
        let child := i * 2 in
        let child := if negb (child =? size) && (num (a (child + 1)) <? num (a child)) then child + 1 else child in
        if num last >? num (a child) then delete_loop fuel last size (upd_el a i (a child)) child
        else Some (a, i)
    end
  else Some (a, i).

(** The element returned and the queue; [None] is the exit on an empty queue. *)
Definition DeleteMin (H : HeapStruct) : option (option A * HeapStruct) :=
  if IsEmpty H then None
  else
    let MinElement := Elements H 1 in
    let LastElement := Elements H (Size H) in
    let size := Size H - 1 in
    match delete_loop (Z.to_nat size) LastElement size (Elements H) 1 with
    | Some (a, i) =>
        Some (MinElement, {| Capacity := Capacity H; Size := size; Elements := upd_el a i LastElement |})
    | None => None
    end.

Definition FindMin (H : HeapStruct) : option A := if negb (IsEmpty H) then Elements H 1 else None.

(** ** The elements of a queue *)
Definition slots (a : Z -> option A) (n : Z) : list (option A) := map a (seqZ 1 n).

Record heap_ok (a : Z -> option A) (n : Z) : Prop := {
  ok_size : 0 <= n;
  ok_sentinel : a 0 = None;
  ok_some : forall i, 1 <= i <= n -> is_Some (a i);
  ok_order : forall i, 2 <= i <= n -> num (a (i / 2)) <= num (a i)
}.

Definition heap_wf (H : HeapStruct) : Prop :=
  heap_ok (Elements H) (Size H) /\ Size H <= Capacity H /\ MinPQSize <= Capacity H.

(** The queue [H] holds the elements of [l]. *)
Definition holds (H : HeapStruct) (l : list A) : Prop :=
  heap_wf H /\ slots (Elements H) (Size H) ≡ₚ map Some l.

(** ** Exchanging two slots *)
Lemma upd_el_eq a i v : upd_el a i v i = v.
Proof. unfold upd_el. by rewrite Z.eqb_refl. Qed.
Lemma upd_el_ne a i v x : x <> i -> upd_el a i v x = a x.
Proof. unfold upd_el. intros H. apply Z.eqb_neq in H. by rewrite H. Qed.

Definition transpose (i j x : Z) : Z := if x =? i then j else if x =? j then i else x.

Lemma transpose_invol i j x : transpose i j (transpose i j x) = x.
Proof. unfold transpose. repeat case_match; lia. Qed.

Lemma slots_swap a i j v n : 1 <= i <= n -> 1 <= j <= n -> i <> j ->
  slots (upd_el (upd_el a i (a j)) j v) n ≡ₚ slots (upd_el a i v) n.
Proof.
  intros Hi Hj Hne. unfold slots.
  rewrite (map_ext_in (upd_el (upd_el a i (a j)) j v) (fun x => upd_el a i v (transpose i j x))).
  - rewrite <- map_map. apply Permutation_map. apply NoDup_Permutation.
    + apply NoDup_fmap_2; [|apply NoDup_seqZ]. intros x y E.
      by rewrite <- (transpose_invol i j x), E, transpose_invol.
    + apply NoDup_seqZ.
    + intros x. rewrite list_elem_of_fmap. setoid_rewrite elem_of_seqZ. split.
      * intros (y & -> & Hy). unfold transpose. repeat case_match; lia.
      * intros Hx. exists (transpose i j x). rewrite transpose_invol. split; [done|].
        unfold transpose. repeat case_match; lia.
  - intros x _. unfold upd_el, transpose. repeat case_match; try lia; try done; by f_equal; lia.
Qed.

Lemma slots_ext a b n : (forall i, 1 <= i <= n -> a i = b i) -> slots a n = slots b n.
Proof.
  intros H. apply map_ext_in. intros i Hi. apply list_elem_of_In, elem_of_seqZ in Hi. apply H. lia.
Qed.

Lemma slots_snoc a n : 0 <= n -> slots a (n + 1) = slots a n ++ [a (n + 1)].
Proof.
  intros Hn. unfold slots. replace (n + 1) with (Z.of_nat (S (Z.to_nat n))) at 1 by lia.
  rewrite seqZ_S, map_app, Z2Nat.id by lia. cbn [map]. do 3 f_equal. lia.
Qed.

Lemma slots_cons a n : 1 <= n -> slots a n = a 1 :: map a (seqZ 2 (n - 1)).
Proof. intros Hn. unfold slots. rewrite seqZ_cons by lia. done. Qed.
(** ** Insertion *)

(** While the hole is at [i], the array with [x] there has all elements, and is in
    order except that [x] may be below its parent. *)
Record hole_up (x : A) (n : Z) (l : list (option A)) (a : Z -> option A) (i : Z) : Prop := {
  up_range : 1 <= i <= n;
  up_sentinel : a 0 = None;
  up_some : forall j, 1 <= j <= n -> j <> i -> is_Some (a j);
  up_slots : slots (upd_el a i (Some x)) n ≡ₚ l;
  up_order : forall j, 2 <= j <= n -> j <> i -> j / 2 <> i -> num (a (j / 2)) <= num (a j);
  up_child : forall j, 2 <= j <= n -> j / 2 = i -> l2num x <= num (a j);
  up_grand : forall j, 2 <= j <= n -> j / 2 = i -> 2 <= i -> num (a (i / 2)) <= num (a j)
}.

Lemma half_range i : 2 <= i -> 1 <= i / 2 < i.
Proof. intros H. pose proof (Z.div_mod i 2). pose proof (Z.mod_pos_bound i 2). lia. Qed.

Lemma insert_loop_spec x n l a i : hole_up x n l a i ->
  exists a' i', insert_loop x (Z.to_nat n) (a, i) = Some (a', i') /\ hole_up x n l a' i' /\
    (2 <= i' -> num (a' (i' / 2)) <= l2num x).
Proof.
  intros H0. unfold insert_loop.
  match goal with |- context [while_ _ ?c ?b _] =>
    destruct (while_inv (fun '(a, i) => hole_up x n l a i) (fun '(_, i) => Z.to_nat i)
      (Z.to_nat n) c b (a, i)) as ([a' i'] & E & HI & Hc) end.
  - exact H0.
  - pose proof (up_range _ _ _ _ _ H0). lia.
  - clear a i H0. intros [a i] H Hc. pose proof H as [U1 U2 U3 U4 U5 U6 U7].
    destruct (a (i / 2)) as [y|] eqn:Ey; [|done]. apply Z.gtb_lt in Hc.
    assert (2 <= i) as Hi.
    { destruct (Z.eq_dec i 1) as [->|]; [|lia]. change (1 / 2) with 0 in Ey. congruence. }
    pose proof (half_range i Hi) as Hh. split; [|lia].
    split; [lia|by rewrite upd_el_ne by lia| | | | |].
    + intros j Hj Hne. unfold upd_el. case_match; [by eexists|apply U3; lia].
    + rewrite <- Ey. rewrite slots_swap by lia. exact U4.
    + intros j Hj Hne Hne2. unfold upd_el at 1 2.
      destruct (Z.eqb_spec j i) as [->|Hji]; [done|].
      destruct (Z.eqb_spec (j / 2) i) as [Eji|]; [|by apply U5].
      cbn [num from_option]. exact (U7 j Hj Eji Hi).
    + intros j Hj Ej. unfold upd_el. destruct (Z.eqb_spec j i) as [->|Hji]; [cbn; lia|].
      assert (num (a (j / 2)) <= num (a j)) as Ho by (apply U5; lia).
      rewrite Ej, Ey in Ho. cbn [num from_option] in Ho. lia.
    + intros j Hj Ej H2. pose proof (half_range (i / 2) H2) as Hh2. rewrite upd_el_ne by lia.
      assert (num (a (i / 2 / 2)) <= num (a (i / 2))) as Ho by (apply U5; lia).
      unfold upd_el. destruct (Z.eqb_spec j i) as [->|Hji]; [by rewrite Ey in Ho|].
      assert (num (a (j / 2)) <= num (a j)) as Ho' by (apply U5; lia). rewrite Ej in Ho'. lia.
  - exists a', i'. split; [exact E|]. split; [exact HI|]. intros Hi.
    pose proof (half_range i' Hi) as Hh. destruct (up_some _ _ _ _ _ HI (i' / 2)) as [y Ey];
      [pose proof (up_range _ _ _ _ _ HI); lia|lia|].
    rewrite Ey in Hc |- *. cbn [num from_option]. destruct (Z.gtb_spec (l2num y) (l2num x)); [done|lia].
Qed.

Lemma hole_up_filled x n l a i : hole_up x n l a i -> (2 <= i -> num (a (i / 2)) <= l2num x) ->
  heap_ok (upd_el a i (Some x)) n.
Proof.
  intros [U1 U2 U3 U4 U5 U6 U7] Hx. split; [lia|by rewrite upd_el_ne by lia| |].
  - intros j Hj. unfold upd_el. case_match; [by eexists|apply U3; lia].
  - intros j Hj. pose proof (half_range j (proj1 Hj)). unfold upd_el.
    destruct (Z.eqb_spec (j / 2) i) as [E|E]; destruct (Z.eqb_spec j i) as [->|E'].
    + lia.
    + cbn [num from_option]. by apply U6.
    + cbn [num from_option]. apply Hx. lia.
    + by apply U5.
Qed.

Lemma Insert_holds x H l : holds H l -> exists H', Insert x H = Some H' /\ holds H' (x :: l).
Proof.
  intros [([K1 K2 K3 K4] & HC & HM) HP]. unfold Insert, IsFull.
  set (cap := if Size H =? Capacity H then 2 * Capacity H else Capacity H).
  assert (Size H + 1 <= cap /\ MinPQSize <= cap) as [Hcap Hcap'].
  { unfold cap, MinPQSize in *. destruct (Z.eqb_spec (Size H) (Capacity H)); lia. }
  destruct (Z.eqb_spec (Size H) 0) as [E0|E0].
  - eexists. split; [reflexivity|]. split; [split; [split|split]|]; cbn [Size Elements Capacity].
    + lia.
    + by rewrite upd_el_ne by lia.
    + intros i Hi. replace i with 1 by lia. rewrite upd_el_eq. by eexists.
    + intros i Hi. lia.
    + lia.
    + done.
    + rewrite E0 in HP. change (slots (Elements H) 0) with (@nil (option A)) in HP.
      apply Permutation_nil_l in HP. symmetry in HP. apply map_eq_nil in HP as ->. done.
  - destruct (insert_loop_spec x (Size H + 1) (map Some (x :: l)) (Elements H) (Size H + 1))
      as (a' & i' & E & HU & Hx).
    { split; [lia|done| | | | |].
      - intros j Hj Hne. apply K3. lia.
      - rewrite slots_snoc, upd_el_eq by lia. rewrite (slots_ext _ (Elements H)) by (intros; apply upd_el_ne; lia).
        rewrite HP. cbn [map]. by rewrite Permutation_app_comm.
      - intros j Hj Hne Hne2. apply K4. lia.
      - intros j Hj Ej. pose proof (half_range j (proj1 Hj)). lia.
      - intros j Hj Ej. pose proof (half_range j (proj1 Hj)). lia. }
    rewrite E. eexists. split; [reflexivity|].
    split; [split; [|split]|]; cbn [Size Elements Capacity]; [|done|done|].
    + by apply (hole_up_filled _ _ _ _ _ HU).
    + apply (up_slots _ _ _ _ _ HU).
Qed.
(** ** Deletion *)

(** While the hole is at [i], the array with the last element there has all
    elements but the least, and is in order except that it may be above its children. *)
Record hole_down (last : A) (n : Z) (l : list (option A)) (a : Z -> option A) (i : Z) : Prop := {
  dn_range : 1 <= i <= n;
  dn_sentinel : a 0 = None;
  dn_some : forall j, 1 <= j <= n -> j <> i -> is_Some (a j);
  dn_slots : slots (upd_el a i (Some last)) n ≡ₚ l;
  dn_order : forall j, 2 <= j <= n -> j <> i -> j / 2 <> i -> num (a (j / 2)) <= num (a j);
  dn_parent : 2 <= i -> num (a (i / 2)) <= l2num last;
  dn_grand : forall j, 2 <= j <= n -> j / 2 = i -> 2 <= i -> num (a (i / 2)) <= num (a j)
}.

Lemma children j i : 1 <= i -> j / 2 = i <-> j = 2 * i \/ j = 2 * i + 1.
Proof. intros Hi. pose proof (Z.div_mod j 2). pose proof (Z.mod_pos_bound j 2). lia. Qed.

(** The child the loop looks at is the smaller one. *)
Definition least_child (a : Z -> option A) (n i : Z) : Z :=
  if negb (i * 2 =? n) && (num (a (i * 2 + 1)) <? num (a (i * 2))) then i * 2 + 1 else i * 2.

Lemma least_child_spec a n i : 1 <= i -> i * 2 <= n ->
  let c := least_child a n i in
  2 <= c <= n /\ c / 2 = i /\ forall j, j <= n -> j / 2 = i -> num (a c) <= num (a j).
Proof.
  intros Hi Hn. cbv zeta. unfold least_child.
  assert (forall j, j / 2 = i -> j = 2 * i \/ j = 2 * i + 1) as Hc by (intros j; apply children; lia).
  destruct (Z.eqb_spec (i * 2) n) as [E|E]; cbn [negb andb].
  - split; [lia|]. split; [apply children; lia|]. intros j Hj Ej%Hc.
    replace j with (i * 2) by lia. lia.
  - destruct (Z.ltb_spec (num (a (i * 2 + 1))) (num (a (i * 2)))); (split; [lia|]);
      (split; [apply children; lia|]); intros j Hj Ej%Hc;
      (destruct Ej as [E'|E']; [replace j with (i * 2) by lia|replace j with (i * 2 + 1) by lia]; lia).
Qed.

Lemma delete_loop_spec last n l fuel : forall a i, hole_down last n l a i -> n - i <= Z.of_nat fuel ->
  exists a' i', delete_loop fuel (Some last) n a i = Some (a', i') /\ hole_down last n l a' i' /\
    (forall j, 2 <= j <= n -> j / 2 = i' -> l2num last <= num (a' j)).
Proof.
  induction fuel as [|fuel IH]; intros a i H Hf; pose proof H as [D1 D2 D3 D4 D5 D6 D7]; cbn [delete_loop].
  - replace (i * 2 <=? n) with false by lia. exists a, i. split; [done|]. split; [done|].
    intros j Hj Ej. apply children in Ej; lia.
  - destruct (Z.leb_spec (i * 2) n) as [Hle|Hgt].
    2: { exists a, i. split; [done|]. split; [done|]. intros j Hj Ej. apply children in Ej; lia. }
    cbv zeta. fold (least_child a n i).
    destruct (least_child_spec a n i ltac:(lia) Hle) as (C1 & C2 & C3). set (c := least_child a n i) in *.
    pose proof (half_range c (proj1 C1)). cbn [num from_option].
    destruct (Z.gtb_spec (l2num last) (num (a c))) as [Hlt|Hge].
    2: { exists a, i. split; [done|]. split; [done|]. intros j Hj Ej. specialize (C3 j (proj2 Hj) Ej). lia. }
    apply IH; [|lia]. destruct (D3 c) as [y Ey]; [lia|lia|].
    split; [lia|by rewrite upd_el_ne by lia| | | | |].
    + intros j Hj Hne. unfold upd_el. case_match; [by eexists|]. apply D3; lia.
    + rewrite slots_swap by lia. exact D4.
    + intros j Hj Hne Hne2. pose proof (half_range j (proj1 Hj)). unfold upd_el.
      destruct (Z.eqb_spec j i) as [Eji|Hji]; destruct (Z.eqb_spec (j / 2) i) as [Ej|Ej].
      * lia.
      * rewrite Eji. apply D7; lia.
      * apply C3; [lia|exact Ej].
      * by apply D5.
    + intros _. rewrite C2, upd_el_eq. lia.
    + intros j Hj Ej _. pose proof (half_range j (proj1 Hj)). rewrite C2, upd_el_eq, upd_el_ne by lia.
      rewrite <- Ej at 1. apply D5; lia.
Qed.

Lemma hole_down_filled last n l a i : hole_down last n l a i ->
  (forall j, 2 <= j <= n -> j / 2 = i -> l2num last <= num (a j)) ->
  heap_ok (upd_el a i (Some last)) n.
Proof.
  intros [D1 D2 D3 D4 D5 D6 D7] Hx. split; [lia|by rewrite upd_el_ne by lia| |].
  - intros j Hj. unfold upd_el. case_match; [by eexists|]. apply D3; lia.
  - intros j Hj. pose proof (half_range j (proj1 Hj)). unfold upd_el.
    destruct (Z.eqb_spec (j / 2) i) as [E|E]; destruct (Z.eqb_spec j i) as [->|E'].
    + lia.
    + cbn [num from_option]. by apply Hx.
    + cbn [num from_option]. apply D6. lia.
    + by apply D5.
Qed.

(** The first slot of an array in order is least. *)
Lemma heap_first_least a n i : heap_ok a n -> 1 <= i <= n -> num (a 1) <= num (a i).
Proof.
  intros [_ _ _ Ho] Hi. revert Hi. induction i as [i IH] using (well_founded_induction (Z.lt_wf 1)). intros Hi.
  destruct (Z.eq_dec i 1) as [->|Hne]; [lia|]. pose proof (half_range i ltac:(lia)).
  specialize (IH (i / 2) ltac:(lia) ltac:(lia)). specialize (Ho i ltac:(lia)). lia.
Qed.

Lemma holds_elem H l x : holds H l -> x ∈ l -> exists i, 1 <= i <= Size H /\ Elements H i = Some x.
Proof.
  intros [_ HP] Hx. assert (Some x ∈ slots (Elements H) (Size H)) as He
    by (rewrite HP; apply list_elem_of_fmap; by exists x).
  apply list_elem_of_fmap in He as (i & Ei & Hi). apply elem_of_seqZ in Hi. exists i. split; [lia|done].
Qed.

Lemma holds_size H l : holds H l -> Size H = Z.of_nat (length l).
Proof.
  intros [([K1 _ _ _] & _) HP]. apply Permutation_length in HP. unfold slots in HP.
  rewrite !length_map, length_seqZ in HP. lia.
Qed.

Lemma DeleteMin_holds H l : holds H l -> l <> [] ->
  exists x l' H', DeleteMin H = Some (Some x, H') /\ FindMin H = Some x /\ l ≡ₚ x :: l' /\ holds H' l' /\
    forall y, y ∈ l -> l2num x <= l2num y.
Proof.
  intros Hh Hne. pose proof (holds_size H l Hh) as Hs. pose proof Hh as [([K1 K2 K3 K4] & HC & HM) HP].
  assert (1 <= Size H) as Hn by (destruct l; [done|cbn [length] in Hs; lia]).
  destruct (K3 1) as [x Ex]; [lia|]. destruct (K3 (Size H)) as [last El]; [lia|].
  assert (forall y, y ∈ l -> l2num x <= l2num y) as Hmin.
  { intros y Hy. destruct (holds_elem H l y Hh Hy) as (i & Hi & Ei).
    pose proof (heap_first_least (Elements H) (Size H) i ltac:(done) Hi) as Hf. by rewrite Ex, Ei in Hf. }
  unfold DeleteMin, FindMin, IsEmpty. replace (Size H =? 0) with false by lia. cbn [negb]. rewrite Ex, El.
  set (n := Size H - 1).
  assert (exists l', l ≡ₚ x :: l' /\ (n = 0 -> l' = []) /\
    (1 <= n -> slots (upd_el (Elements H) 1 (Some last)) n ≡ₚ map Some l')) as (l' & Hl & Hl0 & Hl1).
  { assert (Some x ∈ map Some l) as Hx by (rewrite <- HP, slots_cons, Ex by lia; apply elem_of_cons; by left).
    apply list_elem_of_fmap in Hx as (x' & [= <-] & Hx). apply elem_of_Permutation in Hx as [l' Hl].
    exists l'. split; [done|]. split.
    - intros E. rewrite Hl in Hs. cbn [length] in Hs. destruct l'; [done|cbn [length] in Hs; lia].
    - intros H1. rewrite slots_cons, upd_el_eq by lia. apply (Permutation_cons_inv (a := Some x)).
      change (Some x :: map Some l') with (map Some (x :: l')). rewrite <- Hl, <- HP.
      replace (Size H) with (n + 1) by lia. rewrite slots_snoc, slots_cons, Ex by lia.
      replace (n + 1) with (Size H) by lia. rewrite El. cbn [app]. constructor.
      rewrite Permutation_app_comm. cbn [app]. constructor.
      rewrite (map_ext_in (upd_el (Elements H) 1 (Some last)) (Elements H)); [done|].
      intros j Hj. apply list_elem_of_In, elem_of_seqZ in Hj. apply upd_el_ne. lia. }
  destruct (Z.eq_dec n 0) as [E0|E0].
  - rewrite E0. cbn [delete_loop Z.to_nat]. change (1 * 2 <=? 0) with false. cbv iota.
    rewrite (Hl0 E0) in *. eexists x, [], _. split; [reflexivity|]. split; [done|]. split; [done|]. split; [|done].
    split; [split; [split|split]|]; cbn [Size Elements Capacity]; try lia; [|done].
    by rewrite upd_el_ne by lia.
  - destruct (delete_loop_spec last n (map Some l') (Z.to_nat n) (Elements H) 1) as (a' & i' & E & HD & Hc); [|lia|].
    { split; [lia|done| | | | |].
      - intros j Hj Hne'. apply K3. lia.
      - apply Hl1. lia.
      - intros j Hj _ _. apply K4. lia.
      - lia.
      - lia. }
    rewrite E. eexists x, l', _. split; [reflexivity|]. split; [done|]. split; [done|]. split; [|done].
    split; [split; [|split]|]; cbn [Size Elements Capacity]; [|lia|done|].
    + by apply (hole_down_filled _ _ _ _ _ HD).
    + apply (dn_slots _ _ _ _ _ HD).
Qed.

(** ** Any sequence of calls *)
Inductive pq_op := PInsert (x : A) | PDeleteMin.

(** The elements served by the calls and the queue they leave. *)
Fixpoint pq_run (ops : list pq_op) (H : HeapStruct) : option (list A * HeapStruct) :=
  match ops with
  | [] => Some ([], H)
  | PInsert x :: ops => H ← Insert x H; pq_run ops H
  | PDeleteMin :: ops =>
      '(x, H) ← DeleteMin H; x ← x; '(outs, H) ← pq_run ops H; Some (x :: outs, H)
  end.

(** The specification: a bag from which the least element is served. *)
Inductive pq_serves : list pq_op -> list A -> list A -> list A -> Prop :=
  | serves_nil l : pq_serves [] l [] l
  | serves_insert x ops l outs l' :
      pq_serves ops (x :: l) outs l' -> pq_serves (PInsert x :: ops) l outs l'
  | serves_delete x ops l l1 outs l' :
      l ≡ₚ x :: l1 -> (forall y, y ∈ l -> l2num x <= l2num y) -> pq_serves ops l1 outs l' ->
      pq_serves (PDeleteMin :: ops) l (x :: outs) l'.

(** No deletion finds a queue of [n] elements empty. *)
Fixpoint pq_fits (ops : list pq_op) (n : nat) : bool :=
  match ops, n with
  | [], _ => true
  | PInsert _ :: ops, n => pq_fits ops (S n)
  | PDeleteMin :: ops, S n => pq_fits ops n
  | PDeleteMin :: _, O => false
  end.

Lemma pq_run_spec ops : forall H l, holds H l ->
  if pq_fits ops (length l) then
    exists outs H' l', pq_run ops H = Some (outs, H') /\ pq_serves ops l outs l' /\ holds H' l'
  else pq_run ops H = None.
Proof.
  induction ops as [|[x|] ops IH]; intros H l Hh; cbn [pq_fits pq_run].
  - exists [], H, l. repeat split; [constructor|apply Hh..].
  - destruct (Insert_holds x H l Hh) as (H1 & -> & Hh1). cbn [mbind option_bind].
    specialize (IH H1 (x :: l) Hh1). cbn [length] in IH. case_match; [|done].
    destruct IH as (outs & H' & l' & E & Hs & Hl). exists outs, H', l'. repeat split; [done|by constructor|apply Hl..].
  - destruct l as [|z l0] eqn:El; cbn [length].
    + pose proof (holds_size _ _ Hh) as Hz. cbn in Hz. unfold DeleteMin, IsEmpty. rewrite Hz. done.
    + destruct (DeleteMin_holds H (z :: l0) Hh ltac:(done)) as (x & l1 & H1 & -> & _ & Hp & Hh1 & Hm).
      cbn [mbind option_bind]. specialize (IH H1 l1 Hh1).
      pose proof (Permutation_length Hp) as Hlen. cbn [length] in Hlen. injection Hlen as Hlen.
      rewrite <- Hlen in IH. case_match; [|by rewrite IH].
      destruct IH as (outs & H' & l' & -> & Hs & Hl). exists (x :: outs), H', l'. cbn [mbind option_bind].
      repeat split; [by apply (serves_delete x ops (z :: l0) l1)|apply Hl..].
Qed.

Lemma Initialize_holds undef cap : MinPQSize <= cap ->
  exists H, Initialize undef cap = Some H /\ holds H [].
Proof.
  intros Hc. unfold Initialize. replace (cap <? MinPQSize) with false by lia.
  eexists. split; [reflexivity|]. split; [split; [split|split]|]; cbn [Size Elements Capacity]; try done; try lia.
  unfold MinPQSize in *. lia.
Qed.

(** whatever elements are inserted into a queue and however deletions are mixed
    in, each deletion serves an element of least number among those present, the
    array keeps the heap order and exactly the elements left, and the queue grows
    as needed.  A deletion from an empty queue, and it alone, is fatal. *)
Theorem binheap_serves_least undef cap ops : MinPQSize <= cap ->
  exists H0, Initialize undef cap = Some H0 /\
    if pq_fits ops 0 then
      exists outs H l, pq_run ops H0 = Some (outs, H) /\ pq_serves ops [] outs l /\ heap_wf H /\
    slots (Elements H) (Size H) ≡ₚ map Some l
    else pq_run ops H0 = None.
Proof.
  intros Hc. destruct (Initialize_holds undef cap Hc) as (H0 & E & Hh). exists H0. split; [exact E|].
  pose proof (pq_run_spec ops H0 [] Hh) as HR. cbn [length] in HR. destruct (pq_fits ops 0); [|exact HR].
  destruct HR as (outs & H & l & E1 & Hs & Hw & Hp). by exists outs, H, l.
Qed.
End Heap.

(** Three insertions and two deletions on a queue of numbers. *)
Lemma binheap_serves_least_witness :
  exists H0, Initialize (fun _ => Some 7) 16 = Some H0 /\
    exists outs H l,
      pq_run id [PInsert 5; PInsert 2; PDeleteMin; PInsert 3; PDeleteMin] H0 = Some (outs, H) /\
    pq_serves id [PInsert 5; PInsert 2; PDeleteMin; PInsert 3; PDeleteMin] [] outs l /\ heap_wf id H /\
    slots (Elements H) (Size H) ≡ₚ map Some l.
Proof.
  exact (binheap_serves_least id (fun _ => Some 7) 16 [PInsert 5; PInsert 2; PDeleteMin; PInsert 3; PDeleteMin] ltac:(unfold MinPQSize; lia)).
Defined.
