(* ===== verification/Tree.v ===== *)
(** * The search tree of dedup (tree.c, tree.h)

    A binary search tree of elements with a first-level sequence number each.  A tree
    stands for a finite map from numbers to the queues of its elements: [tree_map]
    gives the map, and every operation does to it what the map operation does. *)
From stdpp Require Import gmap.
From S2P Require Import Prelude.

Section Tree.
(** What an element carries besides its number: a pointer to a priority queue. *)
Context {Q : Type}.

Record TreeElementType := TreeElement { l1num : Z; queue : Q }.

(** A pointer to a node, [Null] for NULL. *)
Inductive SearchTree :=
  | Null
  | TreeNode (Element : TreeElementType) (Left Right : SearchTree).

(** The global [pmin], as the element of the node it points to. *)
Definition pmin_t := option TreeElementType.

(** The trees here are returned with the new [pmin]. *)
Fixpoint TreeMakeEmpty (pmin : pmin_t) (T : SearchTree) : pmin_t * SearchTree :=
  match T with
  | Null => (pmin, Null)
  | TreeNode _ l r =>
      let '(pmin, _) := TreeMakeEmpty pmin l in
      let '(_, _) := TreeMakeEmpty pmin r in
      (None, Null)
  end.

(** A position is given by the element of its node.  [value] is an [int], compared
    with an unsigned number. *)
Fixpoint TreeFind (value : Z) (T : SearchTree) : option TreeElementType :=
  match T with
  | Null => None
  | TreeNode e l r =>
      if u32 value <? l1num e then TreeFind value l
      else if u32 value >? l1num e then TreeFind value r
      else Some e
  end.

Fixpoint TreeFindMin (pmin : pmin_t) (T : SearchTree) : option TreeElementType :=
  match pmin with
  | Some p => Some p
  | None =>
      match T with
      | Null => None
      | TreeNode e Null _ => Some e
      | TreeNode _ l _ => TreeFindMin None l
      end
  end.

Fixpoint TreeFindMax (T : SearchTree) : option TreeElementType :=
  match T with
  | Null => None
  | TreeNode e _ Null => Some e
  | TreeNode _ _ r => TreeFindMax r
  end.

Fixpoint TreeInsert (pmin : pmin_t) (X : TreeElementType) (T : SearchTree) : pmin_t * SearchTree :=
  let pmin := match pmin with Some p => if l1num X <? l1num p then None else pmin | None => None end in
  match T with
  | Null => (pmin, TreeNode X Null Null)
  | TreeNode e l r =>
      if l1num X <? l1num e then let '(pmin, l) := TreeInsert pmin X l in (pmin, TreeNode e l r)
      else if l1num X >? l1num e then let '(pmin, r) := TreeInsert pmin X r in (pmin, TreeNode e l r)
      else (pmin, T)
  end.

(** A deletion that does not find its element only prints a message. *)
Fixpoint TreeDelete (pmin : pmin_t) (X : TreeElementType) (T : SearchTree) : pmin_t * SearchTree :=
  let pmin := match pmin with Some p => if l1num X =? l1num p then None else pmin | None => None end in
  match T with
  | Null => (pmin, Null)
  | TreeNode e l r =>
      if l1num X <? l1num e then let '(pmin, l) := TreeDelete pmin X l in (pmin, TreeNode e l r)
      else if l1num X >? l1num e then let '(pmin, r) := TreeDelete pmin X r in (pmin, TreeNode e l r)
      else
        match l, r with
        | Null, _ => (pmin, r)
        | _, Null => (pmin, l)
        | _, _ =>
            match TreeFindMin pmin r with
            | Some TmpCell => let '(pmin, r) := TreeDelete pmin TmpCell r in (pmin, TreeNode TmpCell l r)
            | None => (pmin, T)
            end
        end
  end.

(** What the position [P] of the node with number [k] designates is changed by [f]. *)
Fixpoint TreeUpdate (k : Z) (f : Q -> Q) (T : SearchTree) : SearchTree :=
  match T with
  | Null => Null
  | TreeNode e l r =>
      if k <? l1num e then TreeNode e (TreeUpdate k f l) r
      else if k >? l1num e then TreeNode e l (TreeUpdate k f r)
      else TreeNode (TreeElement (l1num e) (f (queue e))) l r
  end.

(** ** The map a tree stands for *)
Fixpoint tree_map (T : SearchTree) : gmap Z Q :=
  match T with
  | Null => ∅
  | TreeNode e l r => <[l1num e := queue e]> (tree_map l ∪ tree_map r)
  end.

(** The numbers of a tree lie strictly between [lo] and [hi], in search order. *)
Fixpoint bst (lo hi : Z) (T : SearchTree) : Prop :=
  match T with
  | Null => True
  | TreeNode e l r => lo < l1num e < hi /\ bst lo (l1num e) l /\ bst (l1num e) hi r
  end.

Lemma bst_weaken lo hi lo' hi' T : bst lo hi T -> lo' <= lo -> hi <= hi' -> bst lo' hi' T.
Proof.
  revert lo hi lo' hi'. induction T as [|e l IHl r IHr]; intros lo hi lo' hi'; [done|]. cbn [bst].
  intros (H & Hl & Hr) Hlo Hhi. split; [lia|]. split; [eapply IHl; [exact Hl|lia..]|eapply IHr; [exact Hr|lia..]].
Qed.

Lemma tree_map_out lo hi T k : bst lo hi T -> k <= lo \/ hi <= k -> tree_map T !! k = None.
Proof.
  revert lo hi. induction T as [|e l IHl r IHr]; intros lo hi; [done|]. cbn [bst tree_map].
  intros (H & Hl & Hr) Hk. rewrite lookup_insert_ne by lia. rewrite lookup_union_None.
  split; [apply (IHl _ _ Hl)|apply (IHr _ _ Hr)]; lia.
Qed.

(** The map of a node, at, below and above its number. *)
Lemma node_lookup lo hi e l r k : bst lo hi (TreeNode e l r) ->
  tree_map (TreeNode e l r) !! k =
    if k <? l1num e then tree_map l !! k else if k >? l1num e then tree_map r !! k else Some (queue e).
Proof.
  cbn [bst tree_map]. intros (H & Hl & Hr).
  destruct (Z.ltb_spec k (l1num e)); [|destruct (Z.gtb_spec k (l1num e))].
  - rewrite lookup_insert_ne by lia. rewrite lookup_union, (tree_map_out _ _ r k Hr) by lia.
    by destruct (tree_map l !! k).
  - rewrite lookup_insert_ne by lia. rewrite lookup_union, (tree_map_out _ _ l k Hl) by lia.
    by destruct (tree_map r !! k).
  - replace k with (l1num e) by lia. by rewrite lookup_insert_eq.
Qed.

Lemma bst_tighten T : forall lo hi lo', bst lo hi T ->
  (forall k, is_Some (tree_map T !! k) -> lo' < k) -> bst lo' hi T.
Proof.
  induction T as [|e l IHl r IHr]; intros lo hi lo' H Hk; [done|]. pose proof H as (He & Hl & Hr).
  assert (forall k, is_Some (tree_map l !! k) -> lo' < k) as Hkl.
  { intros k Hs. apply Hk. rewrite (node_lookup lo hi) by exact H.
    destruct (Z.ltb_spec k (l1num e)); [done|]. rewrite (tree_map_out _ _ l k Hl) in Hs by lia. by destruct Hs. }
  cbn [bst]. split; [|split; [by apply (IHl lo)|done]]. split; [|lia]. apply Hk.
  cbn [tree_map]. rewrite lookup_insert_eq. by eexists.
Qed.

Lemma TreeFind_spec lo hi T value : bst lo hi T -> 0 <= value < 2 ^ 32 ->
  TreeFind value T = TreeElement value <$> tree_map T !! value.
Proof.
  intros H Hv. revert lo hi H. induction T as [|e l IHl r IHr]; intros lo hi H; [done|].
  rewrite (node_lookup lo hi) by exact H. cbn [TreeFind]. rewrite (uw_small 32 value Hv).
  destruct H as (He & Hl & Hr).
  destruct (Z.ltb_spec value (l1num e)); [by eapply IHl|].
  destruct (Z.gtb_spec value (l1num e)); [by eapply IHr|].
  cbn. f_equal. destruct e. cbn in *. f_equal. lia.
Qed.

Lemma TreeFindMin_None T : TreeFindMin None T = None -> T = Null.
Proof.
  induction T as [|e l IHl r IHr]; [done|]. cbn [TreeFindMin]. destruct l; [done|]. intros H. by apply IHl in H.
Qed.

Lemma TreeFindMin_spec lo hi T e : bst lo hi T -> TreeFindMin None T = Some e ->
  lo < l1num e < hi /\ tree_map T !! l1num e = Some (queue e) /\
  forall k, is_Some (tree_map T !! k) -> l1num e <= k.
Proof.
  revert lo hi. induction T as [|x l IHl r IHr]; intros lo hi H; [done|]. pose proof H as (Hx & Hl & Hr).
  rewrite (node_lookup lo hi) by exact H. setoid_rewrite (node_lookup lo hi); [|exact H].
  destruct l as [|y ll lr].
  - intros [= <-]. split; [exact Hx|]. rewrite Z.ltb_irrefl. destruct (Z.gtb_spec (l1num x) (l1num x)); [lia|].
    split; [done|]. intros k. destruct (Z.ltb_spec k (l1num x)); [|lia]. cbn. by intros [? ?].
  - intros E. destruct (IHl lo (l1num x) Hl E) as (R & L & M). split; [lia|].
    destruct (Z.ltb_spec (l1num e) (l1num x)); [|lia]. split; [exact L|].
    intros k. destruct (Z.ltb_spec k (l1num x)); [apply M|lia].
Qed.

(** Removing the least element leaves numbers above it. *)
Lemma above_min lo hi T T' e : bst lo hi T -> TreeFindMin None T = Some e ->
  bst lo hi T' -> tree_map T' = delete (l1num e) (tree_map T) -> bst (l1num e) hi T'.
Proof.
  intros H E H' HM. destruct (TreeFindMin_spec lo hi T e H E) as (_ & _ & M).
  apply (bst_tighten T' lo); [done|]. intros k. rewrite HM, lookup_delete. case_decide; [by intros [? ?]|].
  intros Hk%M. lia.
Qed.

Lemma TreeInsert_spec lo hi T X : bst lo hi T -> lo < l1num X < hi ->
  exists T', TreeInsert None X T = (None, T') /\ bst lo hi T' /\
    forall k, tree_map T' !! k =
      if decide (k = l1num X) then Some (default (queue X) (tree_map T !! k)) else tree_map T !! k.
Proof.
  revert lo hi. induction T as [|e l IHl r IHr]; intros lo hi H HX; cbn [TreeInsert].
  - exists (TreeNode X Null Null). split; [done|]. split; [cbn; lia|]. intros k. cbn [tree_map].
    rewrite (left_id_L ∅ (∪)). case_decide as Hk; [subst; by rewrite lookup_insert_eq|by rewrite lookup_insert_ne].
  - pose proof H as (He & Hl & Hr).
    destruct (Z.ltb_spec (l1num X) (l1num e)) as [Hlt|Hge]; [|destruct (Z.gtb_spec (l1num X) (l1num e)) as [Hgt|Hle]].
    + destruct (IHl lo (l1num e) Hl ltac:(lia)) as (T' & -> & HB & HM). eexists. split; [reflexivity|].
      assert (bst lo hi (TreeNode e T' r)) as HB' by done. split; [exact HB'|]. intros k.
      rewrite !(node_lookup lo hi) by done. destruct (Z.ltb_spec k (l1num e)); [apply HM|].
      rewrite decide_False by lia. done.
    + destruct (IHr (l1num e) hi Hr ltac:(lia)) as (T' & -> & HB & HM). eexists. split; [reflexivity|].
      assert (bst lo hi (TreeNode e l T')) as HB' by done. split; [exact HB'|]. intros k.
      rewrite !(node_lookup lo hi) by done.
      destruct (Z.ltb_spec k (l1num e)); [by rewrite decide_False by lia|].
      destruct (Z.gtb_spec k (l1num e)); [apply HM|by rewrite decide_False by lia].
    + eexists. split; [reflexivity|]. split; [exact H|]. intros k. case_decide as Hk; [|done].
      rewrite (node_lookup lo hi) by done. subst k. replace (l1num X) with (l1num e) by lia.
      rewrite Z.ltb_irrefl. by destruct (Z.gtb_spec (l1num e) (l1num e)); [lia|].
Qed.

Lemma TreeDelete_spec T : forall lo hi X, bst lo hi T ->
  exists T', TreeDelete None X T = (None, T') /\ bst lo hi T' /\ tree_map T' = delete (l1num X) (tree_map T).
Proof.
  induction T as [|e l IHl r IHr]; intros lo hi X H; cbn [TreeDelete].
  { exists Null. split; [done|]. split; [done|]. cbn. by rewrite delete_empty. }
  pose proof H as (He & Hl & Hr).
  destruct (Z.ltb_spec (l1num X) (l1num e)) as [Hlt|Hge]; [|destruct (Z.gtb_spec (l1num X) (l1num e)) as [Hgt|Hle]].
  - destruct (IHl lo (l1num e) X Hl) as (T' & -> & HB & HM). eexists. split; [reflexivity|].
    assert (bst lo hi (TreeNode e T' r)) as HB' by done. split; [exact HB'|]. apply map_eq. intros k.
    rewrite (node_lookup lo hi) by done. rewrite lookup_delete, (node_lookup lo hi) by done.
    rewrite HM, lookup_delete. repeat case_decide; repeat case_match; try done; lia.
  - destruct (IHr (l1num e) hi X Hr) as (T' & -> & HB & HM). eexists. split; [reflexivity|].
    assert (bst lo hi (TreeNode e l T')) as HB' by done. split; [exact HB'|]. apply map_eq. intros k.
    rewrite (node_lookup lo hi) by done. rewrite lookup_delete, (node_lookup lo hi) by done.
    rewrite HM, lookup_delete. repeat case_decide; repeat case_match; try done; lia.
  - assert (l1num X = l1num e) as EX by lia.
    assert (forall T', bst lo hi T' ->
      (forall k, tree_map T' !! k = if k <? l1num e then tree_map l !! k else if k >? l1num e then tree_map r !! k else None) ->
      exists T'', (@None TreeElementType, T') = (None, T'') /\ bst lo hi T'' /\
        tree_map T'' = delete (l1num X) (tree_map (TreeNode e l r))) as Done.
    { intros T' HB HM. exists T'. split; [done|]. split; [done|]. apply map_eq. intros k. rewrite HM.
      rewrite lookup_delete, (node_lookup lo hi) by done. repeat case_decide; repeat case_match; try done; lia. }
    assert (forall k, k <= l1num e -> tree_map r !! k = None) as Or by (intros; apply (tree_map_out _ _ r k Hr); lia).
    assert (forall k, l1num e <= k -> tree_map l !! k = None) as Ol by (intros; apply (tree_map_out _ _ l k Hl); lia).
    destruct l as [|y ll lr]; [|destruct r as [|z rl rr]].
    + apply Done; [apply (bst_weaken (l1num e) hi); [done|lia..]|]. intros k.
      repeat case_match; try done; cbn; apply Or; lia.
    + apply Done; [apply (bst_weaken lo (l1num e)); [done|lia..]|]. intros k.
      repeat case_match; try done; cbn [tree_map]; rewrite ?lookup_empty; try done; apply Ol; lia.
    + destruct (TreeFindMin None (TreeNode z rl rr)) as [m|] eqn:Em; [|by apply TreeFindMin_None in Em].
      destruct (TreeFindMin_spec (l1num e) hi _ m Hr Em) as (R & L & M).
      destruct (IHr (l1num e) hi m Hr) as (T' & -> & HB & HM).
      pose proof (above_min _ _ _ _ _ Hr Em HB HM) as HB'.
      assert (bst lo hi (TreeNode m (TreeNode y ll lr) T')) as HBm.
      { cbn [bst]. split; [lia|]. split; [|exact HB']. apply (bst_weaken lo (l1num e) _ _ (TreeNode y ll lr) Hl); lia. }
      apply Done; [exact HBm|]. intros k. rewrite (node_lookup lo hi), HM, lookup_delete by exact HBm.
      destruct (Z.ltb_spec k (l1num m)) as [Hkm|Hkm].
      * destruct (Z.ltb_spec k (l1num e)); [done|]. rewrite Ol by lia. destruct (Z.gtb_spec k (l1num e)); [|done].
        destruct (tree_map (TreeNode z rl rr) !! k) eqn:Ek; [|done].
        pose proof (M k ltac:(rewrite Ek; by eexists)). lia.
      * destruct (Z.ltb_spec k (l1num e)); [lia|]. destruct (Z.gtb_spec k (l1num e)); [|lia].
        destruct (Z.gtb_spec k (l1num m)); [by rewrite decide_False by lia|]. replace k with (l1num m) by lia.
        by rewrite L.
Qed.

Lemma TreeUpdate_spec lo hi T k f : bst lo hi T ->
  bst lo hi (TreeUpdate k f T) /\ forall j, tree_map (TreeUpdate k f T) !! j = (if decide (j = k) then f <$> tree_map T !! j else tree_map T !! j).
Proof.
  revert lo hi. induction T as [|e l IHl r IHr]; intros lo hi H; cbn [TreeUpdate].
  { split; [done|]. intros j. cbn. rewrite lookup_empty. by case_decide. }
  pose proof H as (He & Hl & Hr).
  destruct (Z.ltb_spec k (l1num e)) as [Hlt|Hge]; [|destruct (Z.gtb_spec k (l1num e)) as [Hgt|Hle]].
  - destruct (IHl lo (l1num e) Hl) as [HB HM].
    assert (bst lo hi (TreeNode e (TreeUpdate k f l) r)) as HB' by done. split; [exact HB'|]. intros j.
    rewrite !(node_lookup lo hi) by done. rewrite HM. repeat case_decide; repeat case_match; try done; lia.
  - destruct (IHr (l1num e) hi Hr) as [HB HM].
    assert (bst lo hi (TreeNode e l (TreeUpdate k f r))) as HB' by done. split; [exact HB'|]. intros j.
    rewrite !(node_lookup lo hi) by done. rewrite HM. repeat case_decide; repeat case_match; try done; lia.
  - assert (bst lo hi (TreeNode (TreeElement (l1num e) (f (queue e))) l r)) as HB' by done. split; [exact HB'|]. intros j.
    rewrite !(node_lookup lo hi) by done. cbn [l1num queue].
    destruct (Z.ltb_spec j (l1num e)); [by rewrite decide_False by lia|].
    destruct (Z.gtb_spec j (l1num e)); [by rewrite decide_False by lia|]. by rewrite decide_True by lia.
Qed.

(** ** Any sequence of calls *)
Inductive tree_op :=
  | OpInsert (X : TreeElementType)
  | OpDelete (X : TreeElementType)
  | OpFind (value : Z)
  | OpFindMin.

Definition tree_step (op : tree_op) (st : pmin_t * SearchTree) : option TreeElementType * (pmin_t * SearchTree) :=
  let '(pmin, T) := st in
  match op with
  | OpInsert X => (None, TreeInsert pmin X T)
  | OpDelete X => (None, TreeDelete pmin X T)
  | OpFind value => (TreeFind value T, st)
  | OpFindMin => (TreeFindMin pmin T, st)
  end.

Fixpoint tree_run (ops : list tree_op) (st : pmin_t * SearchTree) :
    list (option TreeElementType) * (pmin_t * SearchTree) :=
  match ops with
  | [] => ([], st)
  | op :: ops =>
      let '(r, st) := tree_step op st in
      let '(rs, st) := tree_run ops st in (r :: rs, st)
  end.

(** The map operation an operation implements, with its answer: an element already
    there is kept, and the element found last is any one of least number. *)
Definition map_step (op : tree_op) (m : gmap Z Q) (r : option TreeElementType) (m' : gmap Z Q) : Prop :=
  match op with
  | OpInsert X => r = None /\ m' = match m !! l1num X with Some _ => m | None => <[l1num X := queue X]> m end
  | OpDelete X => r = None /\ m' = delete (l1num X) m
  | OpFind value => r = TreeElement value <$> m !! value /\ m' = m
  | OpFindMin =>
      m' = m /\
      match r with
      | None => m = ∅
      | Some e => m !! l1num e = Some (queue e) /\ forall k, is_Some (m !! k) -> l1num e <= k
      end
  end.

Inductive map_run : list tree_op -> gmap Z Q -> list (option TreeElementType) -> gmap Z Q -> Prop :=
  | map_run_nil m : map_run [] m [] m
  | map_run_cons op ops m r m1 rs m2 :
      map_step op m r m1 -> map_run ops m1 rs m2 -> map_run (op :: ops) m (r :: rs) m2.

(** Numbers are unsigned 32-bit integers. *)
Definition op_ok (op : tree_op) : bool :=
  match op with
  | OpInsert X | OpDelete X => (0 <=? l1num X) && (l1num X <? 2 ^ 32)
  | OpFind value => (0 <=? value) && (value <? 2 ^ 32)
  | OpFindMin => true
  end.

Lemma tree_step_refines op T : op_ok op = true -> bst (-1) (2 ^ 32) T ->
  exists r T', tree_step op (None, T) = (r, (None, T')) /\ bst (-1) (2 ^ 32) T' /\
    map_step op (tree_map T) r (tree_map T').
Proof.
  intros Hop H. destruct op as [X|X|value|]; cbn [op_ok] in Hop.
  - destruct (TreeInsert_spec (-1) (2 ^ 32) T X H ltac:(lia)) as (T' & E & HB & HM).
    exists None, T'. cbn [tree_step]. rewrite E. split; [done|]. split; [done|]. split; [done|].
    apply map_eq. intros k. rewrite HM. destruct (tree_map T !! l1num X) eqn:EX.
    + case_decide; [subst; by rewrite EX|done].
    + rewrite lookup_insert. case_decide; subst; [rewrite EX; by rewrite decide_True|by rewrite decide_False].
  - destruct (TreeDelete_spec T (-1) (2 ^ 32) X H) as (T' & E & HB & HM).
    exists None, T'. cbn [tree_step]. rewrite E. done.
  - exists (TreeFind value T), T. split; [done|]. split; [done|]. split; [|done]. apply (TreeFind_spec _ _ _ _ H). lia.
  - exists (TreeFindMin None T), T. split; [done|]. split; [done|]. split; [done|].
    destruct (TreeFindMin None T) as [e|] eqn:E; [apply (TreeFindMin_spec _ _ _ _ H E)|].
    by apply TreeFindMin_None in E as ->.
Qed.

Lemma tree_run_refines ops : forall T, forallb op_ok ops = true -> bst (-1) (2 ^ 32) T ->
  exists rs T', tree_run ops (None, T) = (rs, (None, T')) /\ bst (-1) (2 ^ 32) T' /\
    map_run ops (tree_map T) rs (tree_map T').
Proof.
  induction ops as [|op ops IH]; intros T; cbn [forallb tree_run].
  - intros _ H. exists [], T. repeat split; [done|constructor].
  - intros [Ho Hs]%andb_true_iff H. destruct (tree_step_refines op T Ho H) as (r & T1 & -> & HB & HM).
    destruct (IH T1 Hs HB) as (rs & T' & -> & HB' & HM'). exists (r :: rs), T'.
    repeat split; [done|]. by econstructor.
Qed.

(** whatever elements are inserted, deleted and looked for, the tree answers as
    the finite map from first-level numbers to queues: an insertion keeps an element
    that is there, a search finds exactly the elements of the map, and the element
    found as the minimum has the least number.  The tree stays in search order, and
    the remembered minimum [pmin] is never set, so that it cannot be stale. *)
Theorem search_tree_refines_map ops : forallb op_ok ops = true ->
  exists rs T, tree_run ops (None, Null) = (rs, (None, T)) /\ bst (-1) (2 ^ 32) T /\
    map_run ops ∅ rs (tree_map T).
Proof. intros Ho. exact (tree_run_refines ops Null Ho I). Qed.
End Tree.
Arguments TreeElementType : clear implicits.
Arguments SearchTree : clear implicits.

Definition sample_ops : list (@tree_op nat) :=
  [OpInsert (TreeElement 5 0%nat); OpInsert (TreeElement 2 1%nat); OpInsert (TreeElement 9 2%nat);
   OpInsert (TreeElement 7 3%nat); OpDelete (TreeElement 5 4%nat); OpFind 7; OpFindMin].

Lemma search_tree_refines_map_witness :
  exists rs T, tree_run sample_ops (None, Null) = (rs, (None, T)) /\ bst (-1) (2 ^ 32) T /\
    map_run sample_ops ∅ rs (tree_map T).
Proof. exact (search_tree_refines_map sample_ops eq_refl). Defined.
