(* ===== verification/Reorder.v ===== *)
(** * The reorder stage of dedup (pthread/encoder.c, function Reorder; dedupdef.h)

    The last stage of the parallel pipeline receives the chunks in any order and
    writes them in the order of their two-level sequence numbers.  Chunks that come
    early wait in a search tree of priority queues.  The stage is a function of the
    list of chunks in the order they arrive; [None] is an access outside an array, a
    failed assertion, a NULL dereference or an error exit. *)
From stdpp Require Import gmap.
From S2P Require Import Prelude Binheap Tree.

Definition INITIAL_SEARCH_TREE_SIZE := 4096.

Record sequence_t := Sequence { s_l1num : Z; s_l2num : Z }.

Definition sequence_eq (s1 s2 : sequence_t) : bool :=
  (s_l1num s1 =? s_l1num s2) && (s_l2num s1 =? s_l2num s2).
Definition sequence_lt (s1 s2 : sequence_t) : bool :=
  if s_l1num s1 <? s_l1num s2 then true
  else (s_l1num s1 =? s_l1num s2) && (s_l2num s1 <? s_l2num s2).
Definition sequence_gt (s1 s2 : sequence_t) : bool :=
  if s_l1num s1 >? s_l1num s2 then true
  else (s_l1num s1 =? s_l1num s2) && (s_l2num s1 >? s_l2num s2).
Definition sequence_inc (s : sequence_t) (ubound : Z) : sequence_t :=
  let l2 := u32 (s_l2num s + 1) in
  if l2 >=? ubound then Sequence (u32 (s_l1num s + 1)) 0 else Sequence (s_l1num s) l2.
Definition sequence_inc_l1 (s : sequence_t) : sequence_t := Sequence (u32 (s_l1num s + 1)) 0.
Definition sequence_inc_l2 (s : sequence_t) : sequence_t := Sequence (s_l1num s) (u32 (s_l2num s + 1)).
Definition sequence_reset : sequence_t := Sequence 0 0.

Section Reorder.
(** A chunk, of which the stage looks at its place in the input. *)
Context {C : Type} (sequence : C -> sequence_t) (isLastL2Chunk : C -> bool).
(** The memory [malloc] returns. *)
Context (undef : Z -> option C).

Definition chunk_l2 (c : C) : Z := s_l2num (sequence c).

(** The local variables of [Reorder]; [out] is the chunks written so far. *)
Record reorder_t := ReorderState {
  T : SearchTree (HeapStruct (A := C));
  next : sequence_t;
  chunks_per_anchor : list Z;   (* chunks_per_anchor_max entries *)
  pmin : pmin_t (Q := HeapStruct (A := C));
  out : list C
}.

Definition reorder_init : reorder_t :=
  {| T := Null; next := sequence_reset; chunks_per_anchor := replicate 1024 0; pmin := None; out := [] |}.

(** Growing the array, and noting the count of an anchor at its last chunk. *)
Definition note_chunk (cpa : list Z) (chunk : C) : option (list Z) :=
  let l1 := s_l1num (sequence chunk) in
  let cpa := if l1 >=? Z.of_nat (length cpa) then cpa ++ replicate (length cpa) 0 else cpa in
  if isLastL2Chunk chunk then
    n ← cpa !! Z.to_nat l1;
    if n =? 0 then Some (<[Z.to_nat l1 := u32 (s_l2num (sequence chunk) + 1)]> cpa) else None
  else Some cpa.

(** A chunk that is not the next one goes to the queue of its anchor. *)
Definition cache_chunk (st : reorder_t) (chunk : C) : option reorder_t :=
  let l1 := s_l1num (sequence chunk) in
  match TreeFind l1 (T st) with
  | None =>
      q ← Initialize undef INITIAL_SEARCH_TREE_SIZE;
      q ← Insert chunk_l2 chunk q;
      let '(pmin, t) := TreeInsert (pmin st) (TreeElement l1 q) (T st) in
      Some {| T := t; next := next st; chunks_per_anchor := chunks_per_anchor st; pmin := pmin; out := out st |}
  | Some pos =>
      q ← Insert chunk_l2 chunk (queue pos);
      Some {| T := TreeUpdate l1 (fun _ => q) (T st); next := next st;
              chunks_per_anchor := chunks_per_anchor st; pmin := pmin st; out := out st |}
  end.

(** [write_chunk_to_file] and the update of [next]. *)
Definition write_next (st : reorder_t) (chunk : C) : option reorder_t :=
  let nx := sequence_inc_l2 (next st) in
  n ← chunks_per_anchor st !! Z.to_nat (s_l1num nx);
  let nx := if negb (n =? 0) && (s_l2num nx =? n) then sequence_inc_l1 nx else nx in
  Some {| T := T st; next := nx; chunks_per_anchor := chunks_per_anchor st; pmin := pmin st;
          out := out st ++ [chunk] |}.

(** Removing the first chunk of the queue at [pos]; the position that follows.  A
    queue left empty is removed from the tree. *)
Definition take_first (st : reorder_t) (pos : TreeElementType (HeapStruct (A := C))) :
    option (reorder_t * option (TreeElementType (HeapStruct (A := C)))) :=
  '(_, q) ← DeleteMin chunk_l2 (queue pos);
  let t := TreeUpdate (l1num pos) (fun _ => q) (T st) in
  let pos := TreeElement (l1num pos) q in
  let '(pm, t, pos) :=
    if IsEmpty q then
      let '(pm, t) := TreeDelete (pmin st) pos t in (pm, t, TreeFindMin pm t)
    else (pmin st, t, Some pos) in
  Some ({| T := t; next := next st; chunks_per_anchor := chunks_per_anchor st; pmin := pm; out := out st |}, pos).

(** The loop that writes as many chunks as possible; [chunk] is next in sequence. *)
Fixpoint write_loop (fuel : nat) (st : reorder_t) (pos : option (TreeElementType (HeapStruct (A := C))))
    (chunk : C) : option reorder_t :=
  match fuel with
  | O => None
  | S fuel =>
      st ← write_next st chunk;
      match pos with
      | Some p =>
          if l1num p =? s_l1num (next st) then
            chunk ← FindMin (queue p);
            if sequence_eq (sequence chunk) (next st) then
              '(st, pos) ← take_first st p;
              write_loop fuel st pos chunk
            else Some st
          else Some st
      | None => Some st
      end
  end.

(** [fuel] bounds the chunks written while one is received; the number of all chunks
    received will do. *)
Definition reorder_chunk (fuel : nat) (st : reorder_t) (chunk : C) : option reorder_t :=
  cpa ← note_chunk (chunks_per_anchor st) chunk;
  let st := {| T := T st; next := next st; chunks_per_anchor := cpa; pmin := pmin st; out := out st |} in
  if negb (sequence_eq (sequence chunk) (next st)) then cache_chunk st chunk
  else write_loop fuel st (TreeFindMin (pmin st) (T st)) chunk.

(** The flush of the chunks left in the cache. *)
Fixpoint flush_loop (fuel : nat) (st : reorder_t) (pos : option (TreeElementType (HeapStruct (A := C)))) :
    option reorder_t :=
  match pos with
  | None => Some st
  | Some p =>
      match fuel with
      | O => None
      | S fuel =>
          if l1num p =? s_l1num (next st) then
            chunk ← FindMin (queue p);
            if sequence_eq (sequence chunk) (next st) then
              '(st, pos) ← take_first st p;
              st ← write_next st chunk;
              flush_loop fuel st pos
            else None
          else None
      end
  end.

Fixpoint reorder_all (fuel : nat) (st : reorder_t) (chunks : list C) : option reorder_t :=
  match chunks with
  | [] => Some st
  | chunk :: chunks => st ← reorder_chunk fuel st chunk; reorder_all fuel st chunks
  end.

(** The stage on the chunks it receives: the chunks written, in order. *)
Definition Reorder (chunks : list C) : option (list C) :=
  let fuel := S (length chunks) in
  st ← reorder_all fuel reorder_init chunks;
  st ← flush_loop fuel st (TreeFindMin (pmin st) (T st));
  Some (out st).

(** ** Complete inputs *)

(** The number that follows that of [c]. *)
Definition after (c : C) : sequence_t :=
  if isLastL2Chunk c then Sequence (s_l1num (sequence c) + 1) 0
  else Sequence (s_l1num (sequence c)) (s_l2num (sequence c) + 1).

(** The chunks [cs] are numbered in order from [nx], and end with an anchor. *)
Fixpoint numbered (nx : sequence_t) (cs : list C) : Prop :=
  match cs with
  | [] => s_l2num nx = 0
  | c :: cs => sequence c = nx /\ numbered (after c) cs
  end.

(** Numbers for which the array is never overrun and no counter wraps. *)
Definition in_bounds (c : C) : Prop :=
  0 <= s_l1num (sequence c) < 2 * 1024 /\ 0 <= s_l2num (sequence c) < 2 ^ 32 - 1.

Definition seq_le (s t : sequence_t) : Prop :=
  s_l1num s < s_l1num t \/ s_l1num s = s_l1num t /\ s_l2num s <= s_l2num t.

Lemma seq_le_antisym s t : seq_le s t -> seq_le t s -> s = t.
Proof. destruct s, t. unfold seq_le. cbn. intros H1 H2. f_equal; lia. Qed.

Lemma sequence_eq_spec s t : sequence_eq s t = true <-> s = t.
Proof.
  destruct s, t. unfold sequence_eq. cbn. rewrite andb_true_iff, !Z.eqb_eq.
  split; [intros [-> ->]; done|intros [= -> ->]; done].
Qed.

Lemma numbered_ge cs : forall nx c, numbered nx cs -> Forall in_bounds cs -> c ∈ cs -> seq_le nx (sequence c).
Proof.
  induction cs as [|d cs IH]; intros nx c; [by intros _ _ ?%elem_of_nil|].
  intros [E H] [Hd Hcs]%list.Forall_cons [->|Hc]%elem_of_cons.
  - rewrite E. right. lia.
  - specialize (IH _ c H Hcs Hc). rewrite <- E. revert IH. unfold seq_le, after.
    destruct (isLastL2Chunk d); cbn [s_l1num s_l2num]; lia.
Qed.

Lemma numbered_after c cs d : numbered (sequence c) (c :: cs) -> Forall in_bounds (c :: cs) -> d ∈ cs ->
  seq_le (after c) (sequence d) /\ sequence d <> sequence c.
Proof.
  intros [_ H] [Hc Hcs]%list.Forall_cons Hd. pose proof (numbered_ge _ _ _ H Hcs Hd) as Hle. split; [exact Hle|].
  intros E. rewrite E in Hle. revert Hle. unfold seq_le, after. destruct (isLastL2Chunk c); cbn; lia.
Qed.

Lemma numbered_NoDup cs : forall nx, numbered nx cs -> Forall in_bounds cs -> NoDup (sequence <$> cs).
Proof.
  induction cs as [|c cs IH]; intros nx H Hb; [constructor|]. pose proof H as [E H']. subst nx.
  apply list.Forall_cons in Hb as Hb'. destruct Hb' as [_ Hb']. cbn. constructor; [|by apply (IH (after c))].
  rewrite list_elem_of_fmap. intros (d & Ed & Hd). by apply (numbered_after c cs d H Hb Hd).
Qed.

Lemma same_sequence cs c d : NoDup (sequence <$> cs) -> c ∈ cs -> d ∈ cs -> sequence c = sequence d -> c = d.
Proof.
  induction cs as [|e cs IH]; [by intros _ ?%elem_of_nil|]. cbn. intros [He Hn]%list.NoDup_cons Hc Hd E.
  apply elem_of_cons in Hc as [->|Hc]; apply elem_of_cons in Hd as [->|Hd]; [done| | |by apply IH].
  - exfalso. apply He. rewrite E. apply list_elem_of_fmap. by exists d.
  - exfalso. apply He. rewrite <- E. apply list_elem_of_fmap. by exists c.
Qed.

(** Every anchor ends: the last chunk of the anchor of [c] is there, and is not before [c]. *)
Lemma numbered_last cs : forall nx c, numbered nx cs -> Forall in_bounds cs -> c ∈ cs ->
  exists d, d ∈ cs /\ isLastL2Chunk d = true /\ s_l1num (sequence d) = s_l1num (sequence c) /\
    (isLastL2Chunk c = false -> s_l2num (sequence c) < s_l2num (sequence d)).
Proof.
  induction cs as [|e cs IH]; intros nx c H Hb Hc; [by apply elem_of_nil in Hc|].
  pose proof H as [E H']. apply list.Forall_cons in Hb as Hb'. destruct Hb' as [He Hcs].
  apply elem_of_cons in Hc as [->|Hc].
  - destruct (isLastL2Chunk e) eqn:El.
    { exists e. split; [apply elem_of_cons; by left|]. by rewrite El. }
    destruct cs as [|f cs].
    { unfold after in H'. rewrite El in H'. cbn in H'. destruct He. lia. }
    destruct (IH (after e) f H' Hcs) as (d & Hd & Hl & E1 & _); [apply elem_of_cons; by left|].
    exists d. split; [apply elem_of_cons; by right|]. split; [done|].
    pose proof (proj1 (numbered_after e (f :: cs) d ltac:(by split) Hb Hd)) as Hle.
    destruct H' as [Ef _]. revert Hle E1. rewrite Ef. unfold seq_le, after. rewrite El. cbn. lia.
  - destruct (IH (after e) c H' Hcs Hc) as (d & Hd & Hr). exists d. split; [apply elem_of_cons; by right|exact Hr].
Qed.

(** An anchor has one last chunk. *)
Lemma numbered_one_last cs : forall nx c d, numbered nx cs -> Forall in_bounds cs -> c ∈ cs -> d ∈ cs ->
  isLastL2Chunk c = true -> isLastL2Chunk d = true -> s_l1num (sequence c) = s_l1num (sequence d) ->
  sequence c = sequence d.
Proof.
  assert (forall e cs d, numbered (sequence e) (e :: cs) -> Forall in_bounds (e :: cs) -> d ∈ cs ->
    isLastL2Chunk e = true -> s_l1num (sequence e) = s_l1num (sequence d) -> False) as Hx.
  { intros e cs' d H Hb Hd El E1. pose proof (proj1 (numbered_after e cs' d H Hb Hd)) as Hle.
    revert Hle. unfold seq_le, after. rewrite El. cbn. lia. }
  induction cs as [|e cs IH]; intros nx c d H Hb Hc; [by apply elem_of_nil in Hc|].
  pose proof H as [E H']. subst nx. apply list.Forall_cons in Hb as Hb'. destruct Hb' as [He Hcs].
  intros Hd Lc Ld E1.
  apply elem_of_cons in Hc as [->|Hc]; apply elem_of_cons in Hd as [->|Hd]; [done| | |by apply (IH (after e))].
  - exfalso. by apply (Hx e cs d).
  - exfalso. by apply (Hx e cs c).
Qed.

(** ** The state between two chunks *)
Definition of_anchor (k : Z) (l : list C) : list C := filter (fun c => s_l1num (sequence c) = k) l.

(** The queue of an anchor holds its waiting chunks; an anchor without has no queue. *)
Definition queue_of (q : option HeapStruct) (l : list C) : Prop :=
  match q with
  | Some q => holds chunk_l2 q l /\ l <> []
  | None => l = []
  end.

(** Of the chunks [cs], [rest] are not written: [hand] is being treated, [waiting] are
    in the tree, [todo] have not arrived. *)
Record inv (cs : list C) (st : reorder_t) (rest hand waiting todo : list C) : Prop := {
  i_numbered : numbered (next st) rest;
  i_bounds : Forall in_bounds rest;
  i_rest : rest ≡ₚ hand ++ waiting ++ todo;
  i_bst : bst (-1) (2 ^ 32) (T st);
  i_pmin : pmin st = None;
  i_queues : forall k, queue_of (tree_map (T st) !! k) (of_anchor k waiting);
  i_array : 1024 <= Z.of_nat (length (chunks_per_anchor st));
  i_inside : forall c, c ∈ hand ++ waiting -> s_l1num (sequence c) < Z.of_nat (length (chunks_per_anchor st));
  i_here : forall c, c ∈ hand ++ waiting -> isLastL2Chunk c = true ->
    chunks_per_anchor st !! Z.to_nat (s_l1num (sequence c)) = Some (s_l2num (sequence c) + 1);
  i_todo : forall c, c ∈ todo -> isLastL2Chunk c = true ->
    s_l1num (sequence c) < Z.of_nat (length (chunks_per_anchor st)) ->
    chunks_per_anchor st !! Z.to_nat (s_l1num (sequence c)) = Some 0;
  i_out : out st ++ rest = cs
}.

(** Nothing that waits could be written. *)
Definition blocked (rest waiting : list C) : Prop :=
  match rest with [] => True | c :: _ => c ∉ waiting end.

Lemma holds_perm q l k : l ≡ₚ k -> holds chunk_l2 q l -> holds chunk_l2 q k.
Proof. intros H [Hw HP]. split; [exact Hw|]. by rewrite HP, H. Qed.

Lemma queue_of_perm q l k : l ≡ₚ k -> queue_of q l -> queue_of q k.
Proof.
  intros H. destruct q as [q|]; cbn.
  - intros [Hq Hn]. split; [by apply (holds_perm _ l)|]. intros ->. by apply Hn, Permutation_nil_r.
  - intros ->. by apply Permutation_nil_l in H.
Qed.

#[local] Instance of_anchor_perm k : Proper (Permutation ==> Permutation) (of_anchor k).
Proof. intros l l' H. unfold of_anchor. by rewrite H. Qed.

Lemma of_anchor_cons k c l : of_anchor k (c :: l) = if decide (s_l1num (sequence c) = k) then c :: of_anchor k l else of_anchor k l.
Proof. reflexivity. Qed.

Lemma of_anchor_elem k l c : c ∈ of_anchor k l <-> s_l1num (sequence c) = k /\ c ∈ l.
Proof. unfold of_anchor. by rewrite list_elem_of_filter. Qed.

Section Inv.
Context {cs : list C} {st : reorder_t} {rest hand waiting todo : list C}.
Context (I : inv cs st rest hand waiting todo).

Lemma inv_in c : c ∈ hand \/ c ∈ waiting \/ c ∈ todo -> c ∈ rest.
Proof. intros H. rewrite (i_rest _ _ _ _ _ _ I), !elem_of_app. tauto. Qed.

Lemma inv_bounds c : c ∈ hand \/ c ∈ waiting \/ c ∈ todo -> in_bounds c.
Proof. intros H%inv_in. pose proof (i_bounds _ _ _ _ _ _ I) as HB. rewrite list.Forall_forall in HB. by apply HB. Qed.

Lemma inv_NoDup : NoDup (sequence <$> rest).
Proof. exact (numbered_NoDup _ _ (i_numbered _ _ _ _ _ _ I) (i_bounds _ _ _ _ _ _ I)). Qed.

Lemma inv_ge c : c ∈ rest -> seq_le (next st) (sequence c).
Proof. exact (numbered_ge _ _ c (i_numbered _ _ _ _ _ _ I) (i_bounds _ _ _ _ _ _ I)). Qed.

(** Two chunks in different places have different numbers. *)
Lemma inv_disjoint c d : c ∈ todo -> d ∈ hand ++ waiting -> sequence c <> sequence d.
Proof.
  intros Hc Hd E. pose proof inv_NoDup as HN. rewrite (i_rest _ _ _ _ _ _ I) in HN.
  rewrite app_assoc, fmap_app in HN. apply list.NoDup_app in HN as (_ & HN & _).
  apply (HN (sequence d)); [apply list_elem_of_fmap; by exists d|]. rewrite <- E. apply list_elem_of_fmap. by exists c.
Qed.

Lemma inv_find k : 0 <= k < 2 ^ 32 ->
  TreeFind k (T st) = TreeElement k <$> tree_map (T st) !! k.
Proof. exact (TreeFind_spec _ _ _ k (i_bst _ _ _ _ _ _ I)). Qed.
End Inv.

(** The array after it has grown: what it held, and zeros. *)
Lemma grown_lookup (cpa : list Z) l1 : 0 <= l1 < 2 * 1024 -> 1024 <= Z.of_nat (length cpa) ->
  let g := if l1 >=? Z.of_nat (length cpa) then cpa ++ replicate (length cpa) 0 else cpa in
  l1 < Z.of_nat (length g) /\ (length cpa <= length g)%nat /\
  (forall i, (i < length cpa)%nat -> g !! i = cpa !! i) /\
  (forall i, (length cpa <= i < length g)%nat -> g !! i = Some 0).
Proof.
  intros H1 H2. cbv zeta. destruct (Z.geb_spec l1 (Z.of_nat (length cpa))) as [Hge|Hlt].
  - rewrite length_app, length_replicate. split; [lia|]. split; [lia|]. split; intros i Hi.
    + by apply lookup_app_l.
    + rewrite lookup_app_r by lia. apply lookup_replicate_2. lia.
  - split; [lia|]. split; [lia|]. split; intros i Hi; [done|lia].
Qed.

Definition with_array (st : reorder_t) (cpa : list Z) : reorder_t :=
  {| T := T st; next := next st; chunks_per_anchor := cpa; pmin := pmin st; out := out st |}.

Lemma note_chunk_inv cs st rest waiting c todo : inv cs st rest [] waiting (c :: todo) ->
  exists cpa, note_chunk (chunks_per_anchor st) c = Some cpa /\ inv cs (with_array st cpa) rest [c] waiting todo.
Proof.
  intros I. destruct (inv_bounds I c) as [B1 B2]; [right; right; apply elem_of_cons; by left|].
  pose proof (grown_lookup (chunks_per_anchor st) _ B1 (i_array _ _ _ _ _ _ I)) as HG. unfold note_chunk.
  set (g := if s_l1num (sequence c) >=? Z.of_nat (length (chunks_per_anchor st)) then _ else _) in *.
  cbv zeta in HG. destruct HG as (G1 & G2 & G3 & G4).
  assert (forall d, d ∈ c :: todo -> isLastL2Chunk d = true -> s_l1num (sequence d) < Z.of_nat (length g) ->
    g !! Z.to_nat (s_l1num (sequence d)) = Some 0) as Htodo.
  { intros d Hd Ld Hin. destruct (inv_bounds I d) as [D1 _]; [right; by right|].
    destruct (decide (s_l1num (sequence d) < Z.of_nat (length (chunks_per_anchor st)))).
    - rewrite G3 by lia. by apply (i_todo _ _ _ _ _ _ I).
    - apply G4. lia. }
  assert (forall d, d ∈ waiting -> isLastL2Chunk d = true ->
    g !! Z.to_nat (s_l1num (sequence d)) = Some (s_l2num (sequence d) + 1)) as Hwait.
  { intros d Hd Ld. pose proof (i_inside _ _ _ _ _ _ I d Hd). destruct (inv_bounds I d) as [D1 _]; [tauto|].
    rewrite G3 by lia. by apply (i_here _ _ _ _ _ _ I). }
  assert (forall cpa, length cpa = length g ->
    (forall d, d ∈ c :: waiting -> isLastL2Chunk d = true -> cpa !! Z.to_nat (s_l1num (sequence d)) = Some (s_l2num (sequence d) + 1)) ->
    (forall d, d ∈ todo -> isLastL2Chunk d = true -> s_l1num (sequence d) < Z.of_nat (length g) -> cpa !! Z.to_nat (s_l1num (sequence d)) = Some 0) ->
    inv cs (with_array st cpa) rest [c] waiting todo) as Done.
  { intros cpa El Hh Ht. destruct I as [I1 I2 I3 I4 I5 I6 I7 I8 I9 I10 I11].
    split; cbn [with_array T next chunks_per_anchor pmin out]; try done; rewrite ?El; try done.
    - rewrite I3. cbn [app]. by rewrite Permutation_middle.
    - lia.
    - cbn [app]. intros d [->|Hd]%elem_of_cons; [lia|]. specialize (I8 d Hd). lia. }
  destruct (isLastL2Chunk c) eqn:Lc.
  - rewrite (Htodo c) by (done || apply elem_of_cons; by left). cbn [mbind option_bind].
    change (0 =? 0) with true. cbv iota. eexists. split; [reflexivity|].
    assert (forall d, d ∈ rest -> isLastL2Chunk d = true -> s_l1num (sequence d) = s_l1num (sequence c) ->
      sequence d = sequence c) as One.
    { intros d Hd Ld E1. apply (numbered_one_last rest (next st)); try done; [apply I..|].
      apply (inv_in I). right. right. apply elem_of_cons. by left. }
    apply Done.
    + apply length_insert.
    + intros d Hd Ld. destruct (decide (s_l1num (sequence d) = s_l1num (sequence c))) as [E1|Hne].
      * assert (sequence d = sequence c) as -> by (apply elem_of_cons in Hd as [->|Hd]; [done|]; apply One; try done; apply (inv_in I); tauto).
        rewrite list_lookup_insert_eq by lia. by rewrite uw_small by lia.
      * apply elem_of_cons in Hd as [->|Hd]; [done|]. destruct (inv_bounds I d) as [D1 _]; [tauto|].
        rewrite list_lookup_insert_ne by lia. by apply Hwait.
    + intros d Hd Ld Hin. destruct (inv_bounds I d) as [D1 _]; [right; right; apply elem_of_cons; by right|].
      destruct (decide (s_l1num (sequence d) = s_l1num (sequence c))) as [E1|Hne].
      * exfalso. pose proof (inv_NoDup I) as HN. rewrite (i_rest _ _ _ _ _ _ I) in HN. cbn [app] in HN.
        rewrite fmap_app in HN. apply list.NoDup_app in HN as (_ & _ & HN). cbn in HN.
        apply list.NoDup_cons in HN as [HN _]. apply HN. apply list_elem_of_fmap. exists d. split; [|done].
        symmetry. apply One; try done. apply (inv_in I). right. right. apply elem_of_cons. by right.
      * rewrite list_lookup_insert_ne by lia. apply Htodo; try done. apply elem_of_cons. by right.
  - eexists. split; [reflexivity|]. apply Done; [done| |].
    + intros d [->|Hd]%elem_of_cons Ld; [congruence|]. by apply Hwait.
    + intros d Hd. apply Htodo. apply elem_of_cons. by right.
Qed.

(** The tree with the queue of one anchor replaced. *)
Lemma queues_update (m m' : gmap Z (HeapStruct (A := C))) waiting waiting' k q :
  (forall j, queue_of (m !! j) (of_anchor j waiting)) ->
  (forall j, m' !! j = if decide (j = k) then q else m !! j) ->
  (forall j, j <> k -> of_anchor j waiting' = of_anchor j waiting) ->
  queue_of q (of_anchor k waiting') ->
  forall j, queue_of (m' !! j) (of_anchor j waiting').
Proof.
  intros H Hm Hw Hq j. rewrite Hm. case_decide as Hj; [by subst j|]. rewrite Hw by done. apply H.
Qed.

Lemma cache_chunk_inv cs st rest c waiting todo : inv cs st rest [c] waiting todo ->
  exists st', cache_chunk st c = Some st' /\ next st' = next st /\ inv cs st' rest [] (c :: waiting) todo.
Proof.
  intros I. destruct (inv_bounds I c) as [B1 B2]; [left; apply elem_of_cons; by left|].
  unfold cache_chunk. rewrite (inv_find I) by lia. set (k := s_l1num (sequence c)).
  pose proof (i_queues _ _ _ _ _ _ I k) as Hk.
  assert (forall j, j <> k -> of_anchor j (c :: waiting) = of_anchor j waiting) as Hother.
  { intros j Hj. rewrite of_anchor_cons. by rewrite decide_False. }
  assert (forall t, bst (-1) (2 ^ 32) t -> (exists q, (forall j, tree_map t !! j = if decide (j = k) then Some q else tree_map (T st) !! j) /\
      holds chunk_l2 q (c :: of_anchor k waiting)) ->
    inv cs {| T := t; next := next st; chunks_per_anchor := chunks_per_anchor st; pmin := None; out := out st |} rest [] (c :: waiting) todo) as Done.
  { intros t Ht (q & Hm & Hq). destruct I as [I1 I2 I3 I4 I5 I6 I7 I8 I9 I10 I11].
    split; cbn [T next chunks_per_anchor pmin out]; try done.
    apply (queues_update _ _ waiting _ k (Some q) I6 Hm Hother). rewrite of_anchor_cons, decide_True by done. by split. }
  destruct (tree_map (T st) !! k) as [q|] eqn:Ek; cbn [fmap option_fmap option_map queue queue_of] in Hk |- *.
  - destruct Hk as [Hq _]. destruct (Insert_holds chunk_l2 c q _ Hq) as (q' & -> & Hq'). cbn [mbind option_bind].
    destruct (TreeUpdate_spec _ _ _ k (fun _ => q') (i_bst _ _ _ _ _ _ I)) as [HB HM].
    eexists. split; [reflexivity|]. split; [reflexivity|]. rewrite (i_pmin _ _ _ _ _ _ I). apply Done; [exact HB|].
    exists q'. split; [|exact Hq']. intros j. rewrite HM. case_decide as Hj; [|done]. subst j. by rewrite Ek.
  - destruct (Initialize_holds chunk_l2 undef INITIAL_SEARCH_TREE_SIZE) as (q0 & -> & Hq0); [done|]. cbn [mbind option_bind].
    destruct (Insert_holds chunk_l2 c q0 _ Hq0) as (q' & -> & Hq'). cbn [mbind option_bind].
    rewrite (i_pmin _ _ _ _ _ _ I).
    destruct (TreeInsert_spec _ _ (T st) (TreeElement k q') (i_bst _ _ _ _ _ _ I)) as (t & -> & HB & HM); [cbn; lia|].
    eexists. split; [reflexivity|]. split; [reflexivity|]. apply Done; [exact HB|]. exists q'. rewrite Hk.
    split; [|exact Hq']. intros j. rewrite HM. cbn [l1num queue]. case_decide as Hj; [|done]. subst j. by rewrite Ek.
Qed.

Lemma write_next_inv cs st rest c waiting todo : inv cs st (c :: rest) [c] waiting todo -> sequence c = next st ->
  exists st', write_next st c = Some st' /\ T st' = T st /\ pmin st' = pmin st /\ inv cs st' rest [] waiting todo.
Proof.
  intros I Ec. destruct (inv_bounds I c) as [B1 B2]; [left; apply elem_of_cons; by left|].
  pose proof (i_bounds _ _ _ _ _ _ I) as HB. pose proof (i_numbered _ _ _ _ _ _ I) as HN.
  unfold write_next. rewrite <- Ec. unfold sequence_inc_l2. cbn [s_l1num s_l2num]. rewrite uw_small by lia.
  assert (s_l1num (sequence c) < Z.of_nat (length (chunks_per_anchor st))) as Hin
    by (apply (i_inside _ _ _ _ _ _ I); apply elem_of_cons; by left).
  destruct (lookup_lt_is_Some_2 (chunks_per_anchor st) (Z.to_nat (s_l1num (sequence c)))) as [n En]; [lia|].
  rewrite En. cbn [mbind option_bind].
  assert ((if negb (n =? 0) && (s_l2num (sequence c) + 1 =? n)
    then sequence_inc_l1 (Sequence (s_l1num (sequence c)) (s_l2num (sequence c) + 1))
    else Sequence (s_l1num (sequence c)) (s_l2num (sequence c) + 1)) = after c) as ->.
  { unfold after. destruct (isLastL2Chunk c) eqn:Lc.
    - pose proof (i_here _ _ _ _ _ _ I c ltac:(apply elem_of_cons; by left) Lc) as Eh. rewrite En in Eh.
      injection Eh as ->. replace (s_l2num (sequence c) + 1 =? 0) with false by lia. rewrite Z.eqb_refl. cbn [negb andb].
      unfold sequence_inc_l1. cbn [s_l1num]. by rewrite uw_small by lia.
    - destruct (numbered_last _ _ c HN HB) as (d & Hd & Ld & E1 & Hlt); [apply elem_of_cons; by left|].
      specialize (Hlt Lc). rewrite <- E1 in En.
      assert (n = 0 \/ n = s_l2num (sequence d) + 1) as Hn.
      { rewrite (i_rest _ _ _ _ _ _ I), app_assoc in Hd. apply elem_of_app in Hd as [Hd|Hd].
        - rewrite (i_here _ _ _ _ _ _ I d Hd Ld) in En. right. congruence.
        - rewrite (i_todo _ _ _ _ _ _ I d Hd Ld) in En by lia. left. congruence. }
      destruct Hn as [-> | ->]; [done|].
      replace (s_l2num (sequence c) + 1 =? s_l2num (sequence d) + 1) with false by lia. by rewrite andb_false_r. }
  eexists. split; [reflexivity|]. split; [done|]. split; [done|].
  destruct I as [I1 I2 I3 I4 I5 I6 I7 I8 I9 I10 I11].
  split; cbn [T next chunks_per_anchor pmin out]; try done.
  - by destruct HN.
  - by apply list.Forall_cons in HB as [_ ?].
  - by apply (Permutation_cons_inv (a := c)).
  - intros d Hd. apply I8. apply elem_of_app. by right.
  - intros d Hd. apply I9. apply elem_of_app. by right.
  - rewrite <- I11. by rewrite <- app_assoc.
Qed.

Lemma take_first_inv cs st c rest waiting todo p : inv cs st (c :: rest) [] waiting todo ->
  TreeFindMin None (T st) = Some p -> FindMin (queue p) = Some c ->
  exists st' waiting', take_first st p = Some (st', TreeFindMin None (T st')) /\ next st' = next st /\
    waiting ≡ₚ c :: waiting' /\ inv cs st' (c :: rest) [c] waiting' todo.
Proof.
  intros I Ep Ec. destruct (TreeFindMin_spec _ _ _ p (i_bst _ _ _ _ _ _ I) Ep) as (_ & Lp & Mp).
  pose proof (i_queues _ _ _ _ _ _ I (l1num p)) as Hq. rewrite Lp in Hq. destruct Hq as [Hq Hne].
  destruct (DeleteMin_holds chunk_l2 _ _ Hq Hne) as (x & l & q & ED & EF & HP & Hq' & _).
  rewrite Ec in EF. injection EF as <-. unfold take_first. rewrite ED. cbn [mbind option_bind].
  assert (c ∈ of_anchor (l1num p) waiting) as Hc by (rewrite HP; apply elem_of_cons; by left).
  apply of_anchor_elem in Hc as [Kc Hc]. apply elem_of_Permutation in Hc as [waiting' Hw].
  assert (of_anchor (l1num p) waiting' ≡ₚ l) as Hl.
  { apply (Permutation_cons_inv (a := c)). rewrite <- HP, Hw, of_anchor_cons. by rewrite decide_True. }
  assert (forall j, j <> l1num p -> of_anchor j waiting ≡ₚ of_anchor j waiting') as Hother.
  { intros j Hj. rewrite Hw, of_anchor_cons. by rewrite decide_False by congruence. }
  destruct (TreeUpdate_spec _ _ _ (l1num p) (fun _ => q) (i_bst _ _ _ _ _ _ I)) as [HB HM].
  set (t := TreeUpdate (l1num p) (fun _ => q) (T st)) in *. rewrite (i_pmin _ _ _ _ _ _ I).
  assert (forall t', bst (-1) (2 ^ 32) t' ->
      (forall j, j <> l1num p -> tree_map t' !! j = tree_map (T st) !! j) ->
      queue_of (tree_map t' !! l1num p) l ->
      inv cs {| T := t'; next := next st; chunks_per_anchor := chunks_per_anchor st; pmin := None; out := out st |} (c :: rest) [c] waiting' todo) as Done.
  { intros t' Ht' Hm Hl'. destruct I as [I1 I2 I3 I4 I5 I6 I7 I8 I9 I10 I11].
    split; cbn [T next chunks_per_anchor pmin out]; try done.
    - rewrite I3, Hw. done.
    - intros j. destruct (decide (j = l1num p)) as [->|Hj]; [by apply (queue_of_perm _ l)|].
      rewrite Hm by done. apply (queue_of_perm _ (of_anchor j waiting)); [by apply Hother|apply I6].
    - intros d Hd. apply I8. by rewrite Hw.
    - intros d Hd. apply I9. by rewrite Hw. }
  unfold IsEmpty. rewrite (holds_size _ _ _ Hq'). destruct (Z.eqb_spec (Z.of_nat (length l)) 0) as [E0|E0].
  - destruct l; [|cbn in E0; lia].
    destruct (TreeDelete_spec t (-1) (2 ^ 32) (TreeElement (l1num p) q) HB) as (t' & -> & HB' & HM').
    exists (ReorderState t' (next st) (chunks_per_anchor st) None (out st)), waiting'.
    split; [reflexivity|]. split; [done|]. split; [exact Hw|]. apply Done; [exact HB'| |].
    + intros j Hj. rewrite HM', lookup_delete_ne by (cbn; congruence). rewrite HM. by rewrite decide_False.
    + rewrite HM'. cbn [l1num]. by rewrite lookup_delete_eq.
  - exists (ReorderState t (next st) (chunks_per_anchor st) None (out st)), waiting'. cbn [T]. split; [|split; [done|]; split; [exact Hw|apply Done; [exact HB| |]]].
    + do 2 f_equal. destruct (TreeFindMin None t) as [e|] eqn:Ee.
      * destruct (TreeFindMin_spec _ _ _ e HB Ee) as (_ & Le & Me).
        assert (l1num e = l1num p) as E1.
        { apply Z.le_antisymm.
          - apply Me. rewrite HM, decide_True, Lp by done. by eexists.
          - apply Mp. rewrite HM in Le. case_decide as Hd; [rewrite Hd, Lp; by eexists|]. rewrite Le. by eexists. }
        rewrite E1, HM, decide_True, Lp in Le by done. cbn in Le. injection Le as Le. destruct e. cbn in *. by subst.
      * apply TreeFindMin_None in Ee. rewrite Ee in HM. specialize (HM (l1num p)).
        rewrite decide_True, Lp in HM by done. cbn in HM. by rewrite lookup_empty in HM.
    + intros j Hj. rewrite HM. by rewrite decide_False.
    + rewrite HM, decide_True, Lp by done. cbn. split; [exact Hq'|]. by intros ->.
Qed.

(** The first chunk left, if it waits, is the first of the queue of least number. *)
Lemma next_waits cs st c rest waiting todo : inv cs st (c :: rest) [] waiting todo -> c ∈ waiting ->
  exists p, TreeFindMin None (T st) = Some p /\ l1num p = s_l1num (next st) /\ FindMin (queue p) = Some c.
Proof.
  intros I Hc. pose proof (i_numbered _ _ _ _ _ _ I) as [Ec _].
  set (k := s_l1num (next st)) in *. assert (c ∈ of_anchor k waiting) as Hk by (apply of_anchor_elem; by subst k; rewrite Ec).
  pose proof (i_queues _ _ _ _ _ _ I) as IQ. pose proof (IQ k) as Qk.
  destruct (tree_map (T st) !! k) as [q|] eqn:Eq; cbn in Qk; [|rewrite Qk in Hk; by apply elem_of_nil in Hk].
  destruct (TreeFindMin None (T st)) as [p|] eqn:Ep.
  2: { apply TreeFindMin_None in Ep. rewrite Ep in Eq. cbn in Eq. by rewrite lookup_empty in Eq. }
  destruct (TreeFindMin_spec _ _ _ p (i_bst _ _ _ _ _ _ I) Ep) as (_ & Lp & Mp). exists p. split; [done|].
  assert (l1num p = k) as E1.
  { apply Z.le_antisymm; [apply Mp; rewrite Eq; by eexists|].
    specialize (IQ (l1num p)). rewrite Lp in IQ. destruct IQ as [_ Hn].
    destruct (of_anchor (l1num p) waiting) as [|d l] eqn:El; [done|].
    assert (d ∈ of_anchor (l1num p) waiting) as Hd by (rewrite El; apply elem_of_cons; by left).
    apply of_anchor_elem in Hd as [Kd Hd]. pose proof (inv_ge I d ltac:(apply (inv_in I); tauto)) as Hge.
    revert Hge. unfold seq_le, k. rewrite Kd. lia. }
  split; [exact E1|]. rewrite E1, Eq in Lp. injection Lp as ->. destruct Qk as [Hq Hne].
  destruct (DeleteMin_holds chunk_l2 _ _ Hq Hne) as (x & l & q' & _ & EF & HP & _ & Hmin). rewrite EF. f_equal.
  assert (x ∈ of_anchor k waiting) as Hx by (rewrite HP; apply elem_of_cons; by left).
  apply of_anchor_elem in Hx as [Kx Hx].
  apply (same_sequence (c :: rest)); [exact (inv_NoDup I)|apply (inv_in I); tauto|apply elem_of_cons; by left|].
  apply seq_le_antisym.
  - right. split; [rewrite Kx, Ec; done|]. by apply Hmin.
  - rewrite Ec. apply (inv_ge I). apply (inv_in I). tauto.
Qed.

(** What the queue of least number says about the chunks that wait. *)
Lemma least_queue cs st rest waiting todo p : inv cs st rest [] waiting todo ->
  TreeFindMin None (T st) = Some p -> exists x, FindMin (queue p) = Some x /\ x ∈ waiting.
Proof.
  intros I Ep. destruct (TreeFindMin_spec _ _ _ p (i_bst _ _ _ _ _ _ I) Ep) as (_ & Lp & _).
  pose proof (i_queues _ _ _ _ _ _ I (l1num p)) as Hq. rewrite Lp in Hq. destruct Hq as [Hq Hne].
  destruct (DeleteMin_holds chunk_l2 _ _ Hq Hne) as (x & l & q & _ & EF & HP & _). exists x. split; [done|].
  assert (x ∈ of_anchor (l1num p) waiting) as Hx by (rewrite HP; apply elem_of_cons; by left).
  apply of_anchor_elem in Hx. tauto.
Qed.

Lemma no_queue cs st rest waiting todo : inv cs st rest [] waiting todo -> TreeFindMin None (T st) = None -> waiting = [].
Proof.
  intros I E%TreeFindMin_None. destruct waiting as [|c w]; [done|exfalso].
  pose proof (i_queues _ _ _ _ _ _ I (s_l1num (sequence c))) as Hq. rewrite E in Hq. cbn in Hq.
  rewrite lookup_empty in Hq. cbn in Hq. by rewrite decide_True in Hq.
Qed.

Lemma write_loop_inv fuel : forall cs st c rest waiting todo, inv cs st (c :: rest) [c] waiting todo ->
  (length waiting < fuel)%nat ->
  exists st' rest' waiting', write_loop fuel st (TreeFindMin None (T st)) c = Some st' /\
    inv cs st' rest' [] waiting' todo /\ blocked rest' waiting'.
Proof.
  induction fuel as [|fuel IH]; intros cs st c rest waiting todo I Hf; [lia|]. cbn [write_loop].
  pose proof (i_numbered _ _ _ _ _ _ I) as [Ec _].
  destruct (write_next_inv _ _ _ _ _ _ I Ec) as (st1 & -> & ET & _ & I1). cbn [mbind option_bind].
  rewrite <- ET.
  assert ((forall d r p, rest = d :: r -> TreeFindMin None (T st1) = Some p -> l1num p = s_l1num (next st1) ->
      FindMin (queue p) = Some d -> False) ->
    exists st' rest' waiting', Some st1 = Some st' /\ inv cs st' rest' [] waiting' todo /\ blocked rest' waiting') as Stop.
  { intros H. exists st1, rest, waiting. split; [done|]. split; [exact I1|]. destruct rest as [|d r]; [done|].
    intros Hd. destruct (next_waits _ _ _ _ _ _ I1 Hd) as (p & E1 & E2 & E3). by apply (H d r p). }
  destruct (TreeFindMin None (T st1)) as [p|] eqn:Ep; [|apply Stop; done].
  destruct (Z.eqb_spec (l1num p) (s_l1num (next st1))) as [E1|E1]; [|apply Stop; intros; congruence].
  destruct (least_queue _ _ _ _ _ p I1 Ep) as (x & Ex & Hx). rewrite Ex. cbn [mbind option_bind].
  destruct (sequence_eq (sequence x) (next st1)) eqn:Es.
  - apply sequence_eq_spec in Es. pose proof (inv_in I1 x (or_intror (or_introl Hx))) as Hxr.
    destruct rest as [|d r]; [by apply elem_of_nil in Hxr|]. pose proof (i_numbered _ _ _ _ _ _ I1) as [Ed _].
    assert (x = d) as ->.
    { apply (same_sequence (d :: r)); [exact (inv_NoDup I1)|done|apply elem_of_cons; by left|congruence]. }
    destruct (take_first_inv _ _ _ _ _ _ p I1 Ep Ex) as (st2 & w2 & -> & _ & Hw & I2). cbn [mbind option_bind].
    apply (IH cs st2 d r w2 todo I2). rewrite Hw in Hf. cbn in Hf. lia.
  - apply Stop. intros d r p' -> [= <-] _ Ed. rewrite Ex in Ed. injection Ed as ->.
    pose proof (i_numbered _ _ _ _ _ _ I1) as [Ed _]. apply sequence_eq_spec in Ed. congruence.
Qed.

Lemma reorder_chunk_inv fuel cs st c rest waiting todo : inv cs st rest [] waiting (c :: todo) -> blocked rest waiting ->
  (length rest < fuel)%nat ->
  exists st' rest' waiting', reorder_chunk fuel st c = Some st' /\ inv cs st' rest' [] waiting' todo /\ blocked rest' waiting'.
Proof.
  intros I Hb Hf. unfold reorder_chunk. destruct (note_chunk_inv _ _ _ _ _ _ I) as (cpa & -> & I1). cbn [mbind option_bind].
  fold (with_array st cpa). change (next st) with (next (with_array st cpa)).
  destruct (sequence_eq (sequence c) (next (with_array st cpa))) eqn:Es; cbn [negb].
  - apply sequence_eq_spec in Es. assert (c ∈ rest) as Hc by (apply (inv_in I1); left; apply elem_of_cons; by left).
    destruct rest as [|d r]; [by apply elem_of_nil in Hc|]. pose proof (i_numbered _ _ _ _ _ _ I1) as [Ed _].
    assert (d = c) as ->.
    { apply (same_sequence (d :: r)); [exact (inv_NoDup I1)|apply elem_of_cons; by left|done|congruence]. }
    rewrite (i_pmin _ _ _ _ _ _ I1). apply write_loop_inv with (1 := I1).
    pose proof (Permutation_length (i_rest _ _ _ _ _ _ I1)) as Hl. rewrite !length_app in Hl. cbn [length] in *. lia.
  - destruct (cache_chunk_inv _ _ _ _ _ _ I1) as (st' & -> & Hn & I2). exists st', rest, (c :: waiting).
    split; [done|]. split; [exact I2|]. destruct rest as [|d r]; [done|]. cbn.
    intros [->|Hd]%elem_of_cons; [|done].
    pose proof (i_numbered _ _ _ _ _ _ I1) as [Ed _]. apply sequence_eq_spec in Ed. congruence.
Qed.

Lemma inv_rest_length cs st rest hand waiting todo : inv cs st rest hand waiting todo -> (length rest <= length cs)%nat.
Proof. intros I. rewrite <- (i_out _ _ _ _ _ _ I), length_app. lia. Qed.

Lemma reorder_all_inv fuel cs todo' : forall st rest waiting todo,
  inv cs st rest [] waiting (todo' ++ todo) -> blocked rest waiting -> (length cs < fuel)%nat ->
  exists st' rest' waiting', reorder_all fuel st todo' = Some st' /\ inv cs st' rest' [] waiting' todo /\ blocked rest' waiting'.
Proof.
  induction todo' as [|c todo' IH]; intros st rest waiting todo I Hb Hf; cbn [reorder_all].
  - by exists st, rest, waiting.
  - pose proof (inv_rest_length _ _ _ _ _ _ I) as Hl.
    destruct (reorder_chunk_inv fuel _ _ _ _ _ _ I Hb ltac:(lia)) as (st1 & r1 & w1 & -> & I1 & B1). cbn [mbind option_bind].
    by apply (IH st1 r1 w1).
Qed.

Lemma inv_init cs arrivals : numbered sequence_reset cs -> Forall in_bounds cs -> cs ≡ₚ arrivals ->
  inv cs reorder_init cs [] [] arrivals.
Proof.
  intros Hn Hb Hp. split; cbn [reorder_init T next chunks_per_anchor pmin out app]; try done.
  - intros c Hc; by apply elem_of_nil in Hc.
  - intros c Hc; by apply elem_of_nil in Hc.
  - intros c Hc _ Hl. rewrite length_replicate in Hl. apply lookup_replicate_2. lia.
Qed.

(** When nothing is missing, nothing is left. *)
Lemma inv_end cs st rest waiting : inv cs st rest [] waiting [] -> blocked rest waiting ->
  rest = [] /\ waiting = [] /\ TreeFindMin (pmin st) (T st) = None.
Proof.
  intros I B. pose proof (i_rest _ _ _ _ _ _ I) as Hr. rewrite app_nil_r in Hr. cbn [app] in Hr.
  assert (rest = []) as ->.
  { destruct rest as [|d r]; [done|]. exfalso. apply B. rewrite <- Hr. apply elem_of_cons. by left. }
  apply Permutation_nil_l in Hr. symmetry in Hr. subst waiting. split; [done|]. split; [done|].
  rewrite (i_pmin _ _ _ _ _ _ I). destruct (TreeFindMin None (T st)) as [p|] eqn:Ep; [|done].
  destruct (least_queue _ _ _ _ _ p I Ep) as (x & _ & Hx). by apply elem_of_nil in Hx.
Qed.

Lemma inv_todo_perm cs st rest hand waiting todo todo' : todo ≡ₚ todo' ->
  inv cs st rest hand waiting todo -> inv cs st rest hand waiting todo'.
Proof.
  intros H [I1 I2 I3 I4 I5 I6 I7 I8 I9 I10 I11]. split; try done.
  - by rewrite I3, H.
  - intros c. rewrite <- H. apply I10.
Qed.

(** More fuel gives the same state. *)
Lemma write_loop_mono fuel fuel' st pos c st' : (fuel <= fuel')%nat ->
  write_loop fuel st pos c = Some st' -> write_loop fuel' st pos c = Some st'.
Proof.
  revert fuel' st pos c. induction fuel as [|fuel IH]; intros fuel' st pos c Hf; [done|].
  destruct fuel' as [|fuel']; [lia|]. cbn [write_loop]. destruct (write_next st c) as [st1|]; cbn [mbind option_bind]; [|done].
  destruct pos as [p|]; [|done]. destruct (l1num p =? s_l1num (next st1)); [|done].
  destruct (FindMin (queue p)) as [x|]; cbn [mbind option_bind]; [|done].
  destruct (sequence_eq (sequence x) (next st1)); [|done].
  destruct (take_first st1 p) as [[st2 pos2]|]; cbn [mbind option_bind]; [|done]. apply IH. lia.
Qed.

Lemma reorder_chunk_mono fuel fuel' st c st' : (fuel <= fuel')%nat ->
  reorder_chunk fuel st c = Some st' -> reorder_chunk fuel' st c = Some st'.
Proof.
  intros Hf. unfold reorder_chunk. destruct (note_chunk (chunks_per_anchor st) c); cbn [mbind option_bind]; [|done].
  destruct (negb _); [done|]. by apply write_loop_mono.
Qed.

(** The file only grows. *)
Lemma take_first_out st p st' pos : take_first st p = Some (st', pos) -> out st' = out st.
Proof.
  unfold take_first. destruct (DeleteMin chunk_l2 (queue p)) as [[e q]|]; cbn [mbind option_bind]; [|done].
  destruct (IsEmpty q); [destruct (TreeDelete _ _ _)|]; by intros [= <- <-].
Qed.

Lemma write_loop_out fuel : forall st pos c st', write_loop fuel st pos c = Some st' -> exists l, out st' = out st ++ l.
Proof.
  induction fuel as [|fuel IH]; intros st pos c st'; [done|]. cbn [write_loop].
  destruct (write_next st c) as [st1|] eqn:E1; cbn [mbind option_bind]; [|done].
  assert (out st1 = out st ++ [c]) as Eo.
  { unfold write_next in E1. destruct (chunks_per_anchor st !! _); cbn [mbind option_bind] in E1; [|done]. by injection E1 as <-. }
  assert (Some st1 = Some st' -> exists l, out st' = out st ++ l) as Stop by (intros [= <-]; by eexists).
  destruct pos as [p|]; [|exact Stop]. destruct (l1num p =? s_l1num (next st1)); [|exact Stop].
  destruct (FindMin (queue p)) as [x|]; cbn [mbind option_bind]; [|done].
  destruct (sequence_eq (sequence x) (next st1)); [|exact Stop].
  destruct (take_first st1 p) as [[st2 pos2]|] eqn:E2; cbn [mbind option_bind]; [|done].
  intros H. destruct (IH _ _ _ _ H) as [l El]. rewrite El, (take_first_out _ _ _ _ E2), Eo, <- app_assoc. by eexists.
Qed.

Lemma reorder_chunk_out fuel st c st' : reorder_chunk fuel st c = Some st' -> exists l, out st' = out st ++ l.
Proof.
  unfold reorder_chunk. destruct (note_chunk (chunks_per_anchor st) c) as [cpa|]; cbn [mbind option_bind]; [|done].
  destruct (negb _); [|intros H; apply write_loop_out in H; exact H]. unfold cache_chunk. cbn [T next].
  destruct (TreeFind _ _) as [pos|].
  - destruct (Insert _ _ _); cbn [mbind option_bind]; [|done]. intros [= <-]. exists []. by rewrite app_nil_r.
  - destruct (Initialize _ _); cbn [mbind option_bind]; [|done].
    destruct (Insert _ _ _); cbn [mbind option_bind]; [|done]. destruct (TreeInsert _ _ _).
    intros [= <-]. exists []. by rewrite app_nil_r.
Qed.

(** C30: in whatever order the chunks of a complete input arrive, exactly these chunks
    are written, in the order of their sequence numbers; no assertion fails, no
    queue is found empty, and no access leaves the array of chunk counts.  The
    numbers are below the bounds at which the array is not grown enough or the
    32-bit counters wrap. *)
Theorem reorder_restores_order cs arrivals :
  numbered sequence_reset cs -> Forall in_bounds cs -> cs ≡ₚ arrivals -> Reorder arrivals = Some cs.
Proof.
  intros Hn Hb Hp. unfold Reorder.
  destruct (reorder_all_inv (S (length arrivals)) cs arrivals reorder_init cs [] []) as (st & rest & w & -> & I & B).
  - rewrite app_nil_r. by apply inv_init.
  - by destruct cs; [|apply not_elem_of_nil].
  - rewrite Hp. lia.
  - cbn [mbind option_bind]. destruct (inv_end _ _ _ _ I B) as (-> & -> & ->).
    cbn [flush_loop mbind option_bind]. rewrite <- (i_out _ _ _ _ _ _ I). by rewrite app_nil_r.
Qed.

(** at every moment the chunks written are the beginning of the input, and as
    long a beginning as the chunks received allow: the first chunk that is not
    written has not arrived. *)
Theorem reorder_never_waits cs arrived missing :
  numbered sequence_reset cs -> Forall in_bounds cs -> cs ≡ₚ arrived ++ missing ->
  exists st rest, reorder_all (S (length cs)) reorder_init arrived = Some st /\ out st ++ rest = cs /\
    match rest with [] => True | c :: _ => c ∈ missing end.
Proof.
  intros Hn Hb Hp.
  destruct (reorder_all_inv (S (length cs)) cs arrived reorder_init cs [] missing) as (st & rest & w & -> & I & B).
  - by apply inv_init.
  - by destruct cs; [|apply not_elem_of_nil].
  - lia.
  - exists st, rest. split; [done|]. split; [apply (i_out _ _ _ _ _ _ I)|]. destruct rest as [|c r]; [done|].
    assert (c ∈ [] ++ w ++ missing) as Hc by (rewrite <- (i_rest _ _ _ _ _ _ I); apply elem_of_cons; by left).
    cbn [app] in Hc. apply elem_of_app in Hc as [Hc|Hc]; [by apply B in Hc|done].
Qed.

(** the array of chunk counts is doubled once and not until the number fits: if
    the last chunk of an anchor of number 2048 or above is the first of the
    second thousand to arrive, its count is stored outside the array. *)
Theorem reorder_array_overrun c arrivals : isLastL2Chunk c = true -> 2 * 1024 <= s_l1num (sequence c) ->
  Reorder (c :: arrivals) = None.
Proof.
  intros Lc Hc. unfold Reorder. cbn [reorder_all]. unfold reorder_chunk, note_chunk.
  cbn [reorder_init chunks_per_anchor]. rewrite length_replicate, Lc.
  destruct (Z.geb_spec (s_l1num (sequence c)) (Z.of_nat 1024)); [|lia].
  rewrite lookup_ge_None_2; [done|]. rewrite length_app, !length_replicate. lia.
Qed.
End Reorder.

(** Three coarse chunks of one, two and one pieces. *)
Definition sample_chunk : Type := sequence_t * bool.
Definition sample_chunks : list sample_chunk :=
  [(Sequence 0 0, true); (Sequence 1 0, false); (Sequence 1 1, true); (Sequence 2 0, true)].
Definition sample_arrivals : list sample_chunk :=
  [(Sequence 2 0, true); (Sequence 1 1, true); (Sequence 0 0, true); (Sequence 1 0, false)].

Lemma sample_perm : sample_chunks ≡ₚ sample_arrivals.
Proof.
  etransitivity; [apply (Permutation_app_comm [_; _] [_; _])|]. apply perm_swap.
Qed.

Lemma reorder_restores_order_witness :
  numbered fst snd sequence_reset sample_chunks /\ sample_chunks ≡ₚ sample_arrivals /\
  Reorder fst snd (fun _ => None) sample_arrivals = Some sample_chunks.
Proof.
  split; [by repeat split|]. split; [exact sample_perm|].
  apply (reorder_restores_order fst snd (fun _ => None) sample_chunks); [by repeat split| |exact sample_perm].
  repeat constructor; cbn; lia.
Defined.

Lemma reorder_never_waits_witness :
  exists st rest, reorder_all fst snd (fun _ => None) 5 reorder_init (take 3 sample_arrivals) = Some st /\
    out st ++ rest = sample_chunks /\
    match rest with [] => True | c :: _ => c ∈ drop 3 sample_arrivals end.
Proof.
  apply (reorder_never_waits fst snd (fun _ => None) sample_chunks (take 3 sample_arrivals) (drop 3 sample_arrivals)).
  - by repeat split.
  - repeat constructor; cbn; lia.
  - rewrite take_drop. exact sample_perm.
Defined.

Lemma reorder_array_overrun_witness :
  Reorder fst snd (fun _ => None) [(Sequence 2048 0, true)] = None.
Proof. apply (reorder_array_overrun fst snd (fun _ => None) (Sequence 2048 0, true) []); cbn; lia || done. Defined.
