(* ===== verification/Fragment.v ===== *)
(** * Cutting the input in the parallel pipeline (pthread/encoder.c: Fragment, FragmentRefine)

    The first stage cuts the input into coarse chunks, the second cuts each coarse
    chunk into pieces; both number what they cut.  The stages are functions of their
    input here; the queues between them are the subject of Queue.v and Pipeline.v.  The
    memory for the chunks is taken to suffice. *)
From stdpp Require Import gmap.
From S2P Require Import Prelude Rabin Hashtable Dedup Binheap Tree Reorder.

Definition ANCHOR_JUMP := 2 * 1024 * 1024.

(** A coarse chunk: its number and its bytes. *)
Record coarse := Coarse { c_l1num : Z; c_data : list Z }.

(** A piece: its number, whether it is the last of its coarse chunk, its bytes. *)
Record piece := Piece { p_sequence : sequence_t; p_isLastL2Chunk : bool; p_data : list Z }.

Section Stages.
Context (read : Z -> Z -> Z) (rabintab rabinwintab : Z -> Z) (rf_win rf_win_dataprocess : Z).

(** The [do ... while(split)] loop of [Fragment]: the coarse chunks it sends, the one
    left in [temp], and [anchorcount]. *)
Fixpoint coarse_split (fuel : nat) (chunk : coarse) (anchorcount : Z) : res (list coarse * coarse * Z) :=
  match fuel with
  | O => Stuck
  | S fuel =>
      let n := len (c_data chunk) in
      if ANCHOR_JUMP <? n then
        let offset := rabinseg (list_ptr (zdrop ANCHOR_JUMP (c_data chunk))) (s32 (n - ANCHOR_JUMP))
                        rf_win_dataprocess rabintab rabinwintab in
        if offset =? 0 then Exit_trace        (* assert(0) *)
        else if u64 (offset + ANCHOR_JUMP) <? n then
          let temp := Coarse anchorcount (zdrop (offset + ANCHOR_JUMP) (c_data chunk)) in
          let anchorcount := u32 (anchorcount + 1) in
          let! (sent, temp, anchorcount) := coarse_split fuel temp anchorcount in
          Ok (Coarse (c_l1num chunk) (ztake (offset + ANCHOR_JUMP) (c_data chunk)) :: sent, temp, anchorcount)
        else Ok ([], chunk, anchorcount)
      else Ok ([], chunk, anchorcount)
  end.

(** The [while (1)] loop of [Fragment]: the coarse chunks sent. *)
Fixpoint fragment_loop (fuel : nat) (preloading : bool) (data : list Z) (temp : option coarse) (anchorcount : Z) :
    res (list coarse) :=
  match fuel with
  | O => Stuck
  | S fuel =>
      let left_over := match temp with Some t => c_data t | None => [] end in
      let bytes_left := len left_over in
      let '(l1num, anchorcount) :=
        match temp with
        | Some t => if bytes_left >? 0 then (c_l1num t, anchorcount) else (anchorcount, u32 (anchorcount + 1))
        | None => (anchorcount, u32 (anchorcount + 1))
        end in
      if MAXBUF + bytes_left >? SSIZE_MAX then Exit_trace else
      let! (block, data) := fill_block read preloading data in
      let chunk := Coarse l1num (left_over ++ block) in
      if bytes_left + len block =? 0 then Ok []
      else if len block =? 0 then Ok [chunk]
      else
        let! (sent, temp, anchorcount) := coarse_split (S (length (c_data chunk))) chunk anchorcount in
        let! rest := fragment_loop fuel preloading data (Some temp) anchorcount in
        Ok (sent ++ rest)
  end.

Definition Fragment (preloading : bool) (data : list Z) : res (list coarse) :=
  fragment_loop (S (S (length data))) preloading data None 0.

(** One turn of the loop of [FragmentRefine] on a chunk that has been cut [chcount]
    times: the piece sent, and what is left. *)
Definition refine_one (chunk : coarse) (chcount : Z) : piece * option coarse :=
  let offset := rabinseg (list_ptr (c_data chunk)) (s32 (len (c_data chunk))) rf_win rabintab rabinwintab in
  let sequence := Sequence (c_l1num chunk) chcount in
  if u64 offset <? len (c_data chunk) then
    (Piece sequence false (ztake offset (c_data chunk)), Some (Coarse (c_l1num chunk) (zdrop offset (c_data chunk))))
  else (Piece sequence true (c_data chunk), None).

(** The [do ... while(split)] loop of [FragmentRefine]: the pieces of a coarse chunk. *)
Fixpoint refine_loop (fuel : nat) (chunk : coarse) (chcount : Z) : list piece :=
  match fuel with
  | O => []
  | S fuel =>
      let '(p, temp) := refine_one chunk chcount in
      match temp with
      | Some temp => p :: refine_loop fuel temp (u32 (chcount + 1))
      | None => [p]
      end
  end.

(** The pieces of the input. *)
Definition FragmentRefine (chunk : coarse) : list piece := refine_loop (S (length (c_data chunk))) chunk 0.

(** ** Refinement *)
Lemma refine_one_cases chunk k : c_data chunk <> [] -> len (c_data chunk) < 2 ^ 31 ->
  (exists o, 0 < o < len (c_data chunk) /\ refine_one chunk k =
    (Piece (Sequence (c_l1num chunk) k) false (ztake o (c_data chunk)), Some (Coarse (c_l1num chunk) (zdrop o (c_data chunk))))) \/
  refine_one chunk k = (Piece (Sequence (c_l1num chunk) k) true (c_data chunk), None).
Proof.
  intros Hne Hb. unfold refine_one. pose proof (anchor_offset_range rabintab rabinwintab rf_win _ Hne Hb) as R.
  unfold anchor_offset in R. set (o := rabinseg _ _ _ _ _) in *. rewrite uw_small by lia.
  destruct (Z.ltb_spec o (len (c_data chunk))); [left|by right]. exists o. split; [lia|done].
Qed.

Lemma refine_loop_S fuel chunk k : refine_loop (S fuel) chunk k =
  let '(p, temp) := refine_one chunk k in
  match temp with Some temp => p :: refine_loop fuel temp (u32 (k + 1)) | None => [p] end.
Proof. reflexivity. Qed.

(** Any fuel above the length will do. *)
Lemma refine_loop_fuel fuel fuel' chunk k : c_data chunk <> [] -> len (c_data chunk) < 2 ^ 31 ->
  (length (c_data chunk) < fuel)%nat -> (length (c_data chunk) < fuel')%nat ->
  refine_loop fuel chunk k = refine_loop fuel' chunk k.
Proof.
  revert fuel' chunk k. induction fuel as [|fuel IH]; intros fuel' chunk k Hne Hb Hf Hf'; [lia|].
  destruct fuel' as [|fuel']; [lia|]. cbn [refine_loop].
  destruct (refine_one_cases chunk k Hne Hb) as [(o & Ho & ->)| ->]; [|done].
  pose proof (len_zdrop o (c_data chunk) ltac:(lia)) as L. set (d := zdrop o (c_data chunk)) in *. f_equal.
  apply IH; cbn [c_data]; [intros E; rewrite E, len_nil in L; lia|lia|unfold len in *; lia..].
Qed.

(** What follows the last piece of a coarse chunk is numbered from the next one. *)
Lemma refine_loop_spec fuel chunk k rest : c_data chunk <> [] -> (length (c_data chunk) < fuel)%nat ->
  0 <= k -> k + len (c_data chunk) < 2 ^ 31 ->
  concat (p_data <$> refine_loop fuel chunk k) = c_data chunk /\
  Forall (fun p => p_data p <> [] /\ s_l1num (p_sequence p) = c_l1num chunk /\
    0 <= s_l2num (p_sequence p) < 2 ^ 31) (refine_loop fuel chunk k) /\
  (numbered p_sequence p_isLastL2Chunk (Sequence (c_l1num chunk + 1) 0) rest ->
   numbered p_sequence p_isLastL2Chunk (Sequence (c_l1num chunk) k) (refine_loop fuel chunk k ++ rest)).
Proof.
  revert chunk k. induction fuel as [|fuel IH]; intros chunk k Hne Hf Hk Hb; [lia|]. cbn [refine_loop].
  destruct (refine_one_cases chunk k Hne ltac:(lia)) as [(o & Ho & ->)| ->].
  - pose proof (len_zdrop o (c_data chunk) ltac:(lia)) as L1. pose proof (len_ztake o (c_data chunk) ltac:(lia)) as L2.
    set (d := zdrop o (c_data chunk)) in *. rewrite uw_small by lia.
    destruct (IH (Coarse (c_l1num chunk) d) (k + 1)) as (I1 & I2 & I3); cbn [c_data c_l1num] in *.
    + intros E. rewrite E, len_nil in L1. lia.
    + unfold len in *. lia.
    + lia.
    + lia.
    + split; [cbn; by rewrite I1, ztake_zdrop|]. split.
      * constructor; [|exact I2]. cbn. split; [|lia]. intros E. rewrite E, len_nil in L2. lia.
      * intros Hr. cbn [app numbered]. split; [done|]. apply I3, Hr.
  - split; [cbn; by rewrite app_nil_r|]. split.
    + constructor; [|constructor]. pose proof (len_nonneg (c_data chunk)). cbn. split; [done|lia].
    + intros Hr. cbn [app numbered]. split; [done|]. exact Hr.
Qed.

(** ** Coarse chunks *)

(** The coarse chunks [l] cut [data], and are numbered from [a]; all but the last one
    have [ANCHOR_JUMP] bytes. *)
Record cuts (a : Z) (data : list Z) (l : list coarse) : Prop := {
  cut_concat : concat (c_data <$> l) = data;
  cut_nonempty : Forall (fun c => c_data c <> []) l;
  cut_numbers : c_l1num <$> l = seqZ a (Z.of_nat (length l));
  cut_count : Z.of_nat (length l) * ANCHOR_JUMP <= len data + ANCHOR_JUMP
}.

Lemma cuts_one c : c_data c <> [] -> cuts (c_l1num c) (c_data c) [c].
Proof.
  intros H. split; [cbn; by rewrite app_nil_r|by constructor|done|].
  pose proof (len_nonneg (c_data c)). cbn [length]. lia.
Qed.

Lemma cuts_cons c data l : c_data c <> [] -> ANCHOR_JUMP <= len (c_data c) -> cuts (c_l1num c + 1) data l ->
  cuts (c_l1num c) (c_data c ++ data) (c :: l).
Proof.
  intros Hne Hl [C1 C2 C3 C4]. split.
  - cbn. by rewrite C1.
  - by constructor.
  - cbn [fmap list_fmap length]. rewrite C3. rewrite (seqZ_cons (c_l1num c)) by lia. do 2 f_equal; lia.
  - rewrite len_app. cbn [length]. lia.
Qed.

Lemma coarse_split_spec fuel : forall chunk ac, (length (c_data chunk) < fuel)%nat -> c_data chunk <> [] ->
  c_l1num chunk + 1 = ac -> 0 < ac -> ac + len (c_data chunk) < 2 ^ 31 ->
  exists l t, coarse_split fuel chunk ac = Ok (l, t, c_l1num t + 1) /\ c_data t <> [] /\
    c_l1num t + 1 + len (c_data t) <= ac + len (c_data chunk) /\ 0 < c_l1num t + 1 /\
    forall data l', cuts (c_l1num t) (c_data t ++ data) l' -> cuts (c_l1num chunk) (c_data chunk ++ data) (l ++ l').
Proof.
  induction fuel as [|fuel IH]; intros chunk ac Hf Hne Ha Hac Hb; [lia|]. cbn [coarse_split]. cbv zeta.
  assert (exists l t, @Ok (list coarse * coarse * Z) ([], chunk, ac) = Ok (l, t, c_l1num t + 1) /\ c_data t <> [] /\
    c_l1num t + 1 + len (c_data t) <= ac + len (c_data chunk) /\ 0 < c_l1num t + 1 /\
    forall data l', cuts (c_l1num t) (c_data t ++ data) l' -> cuts (c_l1num chunk) (c_data chunk ++ data) (l ++ l')) as Stop.
  { exists [], chunk. rewrite Ha. split; [done|]. split; [done|]. split; [lia|]. by split. }
  destruct (Z.ltb_spec ANCHOR_JUMP (len (c_data chunk))) as [Hj|Hj]; [|exact Stop].
  pose proof (len_zdrop ANCHOR_JUMP (c_data chunk) ltac:(unfold ANCHOR_JUMP in *; lia)) as LJ.
  pose proof (anchor_offset_range rabintab rabinwintab rf_win_dataprocess (zdrop ANCHOR_JUMP (c_data chunk))) as R.
  unfold anchor_offset in R. rewrite LJ in R.
  set (o := rabinseg _ _ _ _ _) in *. specialize (R ltac:(intros E; rewrite E, len_nil in LJ; lia) ltac:(unfold ANCHOR_JUMP in *; lia)).
  replace (o =? 0) with false by lia. rewrite uw_small by (unfold ANCHOR_JUMP in *; lia).
  destruct (Z.ltb_spec (o + ANCHOR_JUMP) (len (c_data chunk))) as [Hlt|_]; [|exact Stop].
  pose proof (len_zdrop (o + ANCHOR_JUMP) (c_data chunk) ltac:(unfold ANCHOR_JUMP in *; lia)) as L1.
  pose proof (len_ztake (o + ANCHOR_JUMP) (c_data chunk) ltac:(unfold ANCHOR_JUMP in *; lia)) as L2.
  pose proof (ztake_zdrop (o + ANCHOR_JUMP) (c_data chunk)) as E.
  set (d := zdrop (o + ANCHOR_JUMP) (c_data chunk)) in *. set (h := ztake (o + ANCHOR_JUMP) (c_data chunk)) in *.
  rewrite uw_small by (unfold ANCHOR_JUMP in *; lia).
  destruct (IH (Coarse ac d) (ac + 1)) as (l & t & -> & T1 & T2 & T3 & T4); cbn [c_data c_l1num] in *;
    [unfold len, ANCHOR_JUMP in *; lia|intros E'; rewrite E', len_nil in L1; lia|done|lia|unfold ANCHOR_JUMP in *; lia|].
  cbn [res_bind]. eexists _, t. split; [reflexivity|]. split; [done|]. split; [unfold ANCHOR_JUMP in *; lia|]. split; [done|].
  intros data l' Hl'. rewrite <- E, <- app_assoc. cbn [app].
  apply (cuts_cons (Coarse (c_l1num chunk) h)); cbn [c_data c_l1num].
  - intros E'. rewrite E', len_nil in L2. unfold ANCHOR_JUMP in *. lia.
  - lia.
  - rewrite Ha. by apply T4.
Qed.

Context (write : Z -> Z * bool) (io : io_ok read write).

(** One turn of the loop on a chunk that was extended by a block. *)
Lemma fragment_turn fuel preloading chunk data :
  (forall t, c_data t <> [] -> 0 < c_l1num t + 1 -> c_l1num t + 1 + len (c_data t) + len data < 2 ^ 31 ->
    exists l, fragment_loop fuel preloading data (Some t) (c_l1num t + 1) = Ok l /\ cuts (c_l1num t) (c_data t ++ data) l) ->
  c_data chunk <> [] -> 0 < c_l1num chunk + 1 -> c_l1num chunk + 1 + len (c_data chunk) + len data < 2 ^ 31 ->
  exists l,
    (let! (sent, temp, anchorcount) :=
       coarse_split (S (length (c_data chunk))) chunk (c_l1num chunk + 1) in
     let! rest := fragment_loop fuel preloading data (Some temp) anchorcount in Ok (sent ++ rest)) = Ok l /\
    cuts (c_l1num chunk) (c_data chunk ++ data) l.
Proof.
  intros IH Hne Ha Hb. pose proof (len_nonneg data).
  destruct (coarse_split_spec (S (length (c_data chunk))) chunk (c_l1num chunk + 1)) as (l & t & -> & T1 & T2 & T3 & T4);
    [lia|done|done|lia|lia|].
  cbn [res_bind]. destruct (IH t) as (l' & -> & Hl'); [done|done|lia|]. cbn [res_bind].
  exists (l ++ l'). split; [done|]. by apply T4.
Qed.

Lemma block_empty data : len (ztake MAXBUF data) = 0 -> data = [].
Proof.
  intros Hz. destruct data as [|b l]; [done|]. exfalso. cbn [ztake] in Hz.
  change (MAXBUF <=? 0) with false in Hz. cbv iota in Hz. rewrite len_cons in Hz.
  pose proof (len_nonneg (ztake (MAXBUF - 1) l)). lia.
Qed.

Lemma fragment_loop_spec fuel preloading : forall data t, (length data + 1 < fuel)%nat -> c_data t <> [] ->
  0 < c_l1num t + 1 -> c_l1num t + 1 + len (c_data t) + len data < 2 ^ 31 ->
  exists l, fragment_loop fuel preloading data (Some t) (c_l1num t + 1) = Ok l /\ cuts (c_l1num t) (c_data t ++ data) l.
Proof.
  induction fuel as [|fuel IH]; intros data t Hf Hne Ha Hb; [lia|]. cbn [fragment_loop]. cbv zeta.
  assert (0 < len (c_data t)) as Hp.
  { destruct (c_data t) as [|b l]; [done|]. rewrite len_cons. pose proof (len_nonneg l). lia. }
  destruct (Z.gtb_spec (len (c_data t)) 0); [|lia].
  destruct (Z.gtb_spec (MAXBUF + len (c_data t)) SSIZE_MAX) as [Hss|_];
    [pose proof (len_nonneg data); unfold MAXBUF, SSIZE_MAX in Hss; lia|].
  rewrite (fill_block_ok read write io). cbn [res_bind].
  pose proof (f_equal len (ztake_zdrop MAXBUF data)) as EL. rewrite len_app in EL.
  pose proof (len_nonneg (ztake MAXBUF data)) as N1. pose proof (len_nonneg (zdrop MAXBUF data)) as N2.
  replace (len (c_data t) + len (ztake MAXBUF data) =? 0) with false by lia.
  destruct (Z.eqb_spec (len (ztake MAXBUF data)) 0) as [H0|H0].
  - rewrite (len_0 _ H0), app_nil_r. rewrite (block_empty data H0), app_nil_r. exists [Coarse (c_l1num t) (c_data t)].
    split; [done|]. by apply (cuts_one (Coarse _ _)).
  - pose proof (zdrop_maxbuf_shorter data H0).
    pose proof (fragment_turn fuel preloading (Coarse (c_l1num t) (c_data t ++ ztake MAXBUF data)) (zdrop MAXBUF data)) as FT.
    cbn [c_data c_l1num] in FT. rewrite <- app_assoc, ztake_zdrop in FT. apply FT.
    + intros t' P1 P2 P3. apply IH; [lia|done..].
    + by destruct (c_data t).
    + done.
    + rewrite len_app. lia.
Qed.

Lemma Fragment_spec preloading data : len data < 2 ^ 31 - 1 ->
  exists l, Fragment preloading data = Ok l /\ cuts 0 data l.
Proof.
  intros Hb. unfold Fragment. remember (S (length data)) as fuel eqn:Ef. cbn [fragment_loop]. cbv zeta.
  rewrite len_nil. change (MAXBUF + 0 >? SSIZE_MAX) with false. cbv iota.
  rewrite (fill_block_ok read write io). cbn [res_bind app].
  pose proof (f_equal len (ztake_zdrop MAXBUF data)) as EL. rewrite len_app in EL.
  pose proof (len_nonneg (ztake MAXBUF data)) as N1. pose proof (len_nonneg (zdrop MAXBUF data)) as N2.
  destruct (Z.eqb_spec (0 + len (ztake MAXBUF data)) 0) as [H0|H0].
  - exists []. split; [done|]. rewrite (block_empty data) by lia. split; [done|constructor|done|done].
  - replace (len (ztake MAXBUF data) =? 0) with false by lia.
    pose proof (zdrop_maxbuf_shorter data ltac:(lia)). 
    change (u32 (0 + 1)) with (0 + 1).
    pose proof (fragment_turn fuel preloading (Coarse 0 (ztake MAXBUF data)) (zdrop MAXBUF data)) as FT.
    cbn [c_data c_l1num] in FT. rewrite ztake_zdrop in FT. apply FT.
    + intros t' P1 P2 P3. apply fragment_loop_spec; [lia|done..].
    + intros E. rewrite E, len_nil in *. lia.
    + lia.
    + lia.
Qed.

(** ** The pieces of the input *)
Lemma pieces_spec l : forall a data, 0 <= a -> concat (c_data <$> l) = data ->
  Forall (fun c => c_data c <> []) l -> c_l1num <$> l = seqZ a (Z.of_nat (length l)) -> a + len data < 2 ^ 31 ->
  let ps := concat (FragmentRefine <$> l) in
  concat (p_data <$> ps) = data /\ Forall (fun p => p_data p <> []) ps /\
  numbered p_sequence p_isLastL2Chunk (Sequence a 0) ps /\
  Forall (fun p => a <= s_l1num (p_sequence p) < a + Z.of_nat (length l) /\ 0 <= s_l2num (p_sequence p) < 2 ^ 31) ps.
Proof.
  cbv zeta. induction l as [|c l IH]; intros a data Ha C1 C2 C3 Hb.
  { cbn in *. by subst data. }
  cbn [fmap list_fmap length concat] in C1, C3 |- *. rewrite seqZ_cons in C3 by lia. injection C3 as Ea C3.
  apply list.Forall_cons in C2 as [Hne C2]. subst data. rewrite len_app in *.
  pose proof (len_nonneg (c_data c)). pose proof (len_nonneg (concat (c_data <$> l))).
  destruct (IH (a + 1) (concat (c_data <$> l))) as (I1 & I2 & I3 & I4); [lia|done|done|rewrite C3; f_equal; lia| |].
  { assert (1 <= len (c_data c)); [|lia]. destruct (c_data c) as [|b d]; [done|]. rewrite len_cons.
    pose proof (len_nonneg d). lia. }
  destruct (refine_loop_spec (S (length (c_data c))) c 0 (concat (FragmentRefine <$> l)) Hne ltac:(lia) ltac:(lia) ltac:(lia)) as (R1 & R2 & R3).
  rewrite Ea in *. unfold FragmentRefine at 1 3 4 5.
  split; [by rewrite fmap_app, concat_app, R1, I1|]. split; [apply Forall_app; split; [|done]; eapply list.Forall_impl; [exact R2|]; cbn; tauto|].
  split; [by apply R3|]. apply Forall_app. split.
  - eapply list.Forall_impl; [exact R2|]. cbn. lia.
  - eapply list.Forall_impl; [exact I4|]. cbn. lia.
Qed.

Lemma stages_spec preloading data : len data < 2 ^ 31 - 1 ->
  exists cs, Fragment preloading data = Ok cs /\
    let ps := concat (FragmentRefine <$> cs) in
    concat (p_data <$> ps) = data /\ Forall (fun p => p_data p <> []) ps /\
    numbered p_sequence p_isLastL2Chunk sequence_reset ps /\ Forall (in_bounds p_sequence) ps /\
    Forall (fun c => c_data c <> []) cs /\ concat (c_data <$> cs) = data.
Proof.
  intros Hb. destruct (Fragment_spec preloading data Hb) as (cs & E & [C1 C2 C3 C4]).
  exists cs. split; [exact E|]. destruct (pieces_spec cs 0 data ltac:(lia) C1 C2 C3 ltac:(lia)) as (P1 & P2 & P3 & P4).
  repeat (split; [done|]). split; [|done]. eapply list.Forall_impl; [exact P4|]. cbn. unfold in_bounds, ANCHOR_JUMP in *. lia.
Qed.

(** the two cutting stages cut any input below 2 GB into pieces that are not empty
    and whose contents in order are the input, and number them consecutively: a
    piece that is the last of its coarse chunk is followed by the first of the next
    one, the numbers stay below the bounds of the reorder stage, and no assertion
    fails. *)
Theorem parallel_stages_cut_input preloading data : len data < 2 ^ 31 - 1 ->
  exists cs, Fragment preloading data = Ok cs /\
    let ps := concat (FragmentRefine <$> cs) in
    concat (p_data <$> ps) = data /\ Forall (fun p => p_data p <> []) ps /\
    numbered p_sequence p_isLastL2Chunk sequence_reset ps /\ Forall (in_bounds p_sequence) ps.
Proof. intros Hb. destruct (stages_spec preloading data Hb) as (cs & E & P). exists cs. cbv zeta in P |- *. tauto. Qed.
End Stages.

Lemma parallel_stages_cut_input_witness :
  exists cs, Fragment sample_read (fun x => x) (fun x => x) 0 true [1; 2; 3] = Ok cs /\
    let ps := concat (FragmentRefine (fun x => x) (fun x => x) 0 <$> cs) in
    concat (p_data <$> ps) = [1; 2; 3] /\ Forall (fun p => p_data p <> []) ps /\
    numbered p_sequence p_isLastL2Chunk sequence_reset ps /\ Forall (in_bounds p_sequence) ps.
Proof.
  apply (parallel_stages_cut_input sample_read (fun x => x) (fun x => x) 0 0 sample_write sample_io true [1; 2; 3]).
  unfold len. cbn [length]. lia.
Defined.
