(* ===== verification/Pipeline.v ===== *)
(** * The parallel pipeline of dedup (pthread/encoder.c, build with ENABLE_PTHREADS)

    The threads of the middle stages and of the output stage as a transition system:
    a step is what one thread does to one chunk between two synchronisations (the
    lock of the hash table bucket, of the chunk, of a queue), and a chunk may be
    taken from any place of a queue, so that every distribution of the chunks over
    several queues, private buffers and threads is covered.  The queues are not
    bounded here; Queue.v has the bounded ones. *)
From stdpp Require Import gmap relations.
From S2P Require Import Prelude Rabin Hashtable Dedup Binheap Tree Reorder Fragment.

#[global] Instance sequence_eq_dec : EqDecision sequence_t.
Proof. solve_decision. Defined.
#[global] Instance sequence_countable : Countable sequence_t.
Proof.
  refine (inj_countable' (fun s => (s_l1num s, s_l2num s)) (fun '(a, b) => Sequence a b) _). by intros [].
Defined.

Inductive chunk_state_t := CHUNK_STATE_UNCOMPRESSED | CHUNK_STATE_COMPRESSED | CHUNK_STATE_FLUSHED.

(** What the stages write to a chunk after it was cut.  A chunk is named by its sequence
    number; [h_ref] is [compressed_data_ref], [None] as long as it is not set. *)
Record header_t := Header {
  h_isDuplicate : bool;
  h_state : chunk_state_t;
  h_sha1 : list Z;
  h_compressed_data : list Z;
  h_ref : option sequence_t
}.
Abbreviation heads_t := (gmap sequence_t header_t).

Section Pipeline.
Context (read : Z -> Z -> Z) (write : Z -> Z * bool).
Context {T : Type} {cache : Cache T (list Z) sequence_t}.
Context (SHA1_Digest : list Z -> list Z) (compress : Z -> list Z -> option (list Z)).
Context (compress_type : Z) (rabintab rabinwintab : Z -> Z) (rf_win : Z) (undef : Z -> option piece).

(** ** The kernels of the stages *)

(** [sub_Deduplicate] under the lock of the bucket. *)
Definition par_Deduplicate (db : T) (heads : heads_t) (chunk : piece) : res (bool * T * heads_t) :=
  let sha1 := SHA1_Digest (p_data chunk) in
  match cache_search db sha1 with
  | None =>
      match cache_insert db sha1 (p_sequence chunk) with
      | None => Exit_trace
      | Some db => Ok (false, db, <[p_sequence chunk := Header false CHUNK_STATE_UNCOMPRESSED sha1 [] None]> heads)
      end
  | Some entry =>
      Ok (true, db, <[p_sequence chunk := Header true CHUNK_STATE_UNCOMPRESSED sha1 [] (Some entry)]> heads)
  end.

(** [sub_Compress] under the lock of the chunk. *)
Definition par_Compress (heads : heads_t) (chunk : piece) : res heads_t :=
  match heads !! p_sequence chunk with
  | None => Stuck
  | Some h =>
      match h_state h with
      | CHUNK_STATE_UNCOMPRESSED =>
          let! c := sub_Compress compress compress_type (Chunk (h_isDuplicate h) (h_sha1 h) (p_data chunk) []) in
          Ok (<[p_sequence chunk :=
                Header (h_isDuplicate h) CHUNK_STATE_COMPRESSED (h_sha1 h) (compressed_data c) (h_ref h)]> heads)
      | _ => Exit_trace                       (* assertion *)
      end
  end.

(** [write_chunk_to_file] under the lock of the original chunk; [Ok None] is the wait
    for its compressed data. *)
Definition par_write (heads : heads_t) (out : list Z) (chunk : piece) : res (option (heads_t * list Z)) :=
  match heads !! p_sequence chunk with
  | None => Stuck
  | Some h =>
      match (if h_isDuplicate h then h_ref h else Some (p_sequence chunk)) with
      | None => Stuck
      | Some orig =>
          match heads !! orig with
          | None => Stuck
          | Some h =>
              match h_state h with
              | CHUNK_STATE_UNCOMPRESSED => Ok None
              | CHUNK_STATE_COMPRESSED =>
                  let! out := write_file write out TYPE_COMPRESS (len (h_compressed_data h)) (h_compressed_data h) in
                  Ok (Some (<[orig := Header (h_isDuplicate h) CHUNK_STATE_FLUSHED (h_sha1 h) [] (h_ref h)]> heads, out))
              | CHUNK_STATE_FLUSHED =>
                  let! out := write_file write out TYPE_FINGERPRINT SHA1_LEN (h_sha1 h) in
                  Ok (Some (heads, out))
              end
          end
      end
  end.

(** ** The system *)

(** The shared state.  A coarse chunk is kept with the number of pieces cut from it.
    The reorder thread decides what to write ([reorder], a function of what it has
    received) and then writes it ([towrite]) before it receives again. *)
Record pipeline := Pipe {
  heads : heads_t;
  db : T;
  refine_que : list (coarse * Z);
  deduplicate_que : list piece;
  compress_que : list piece;
  reorder_que : list piece;
  reorder : reorder_t (C := piece);
  towrite : list piece;
  flushed : bool;
  file : list Z
}.

Local Abbreviation reorder_chunk := (reorder_chunk p_sequence p_isLastL2Chunk undef).
Local Abbreviation flush_loop := (flush_loop p_sequence).
Local Abbreviation refine_one := (refine_one rabintab rabinwintab rf_win).

Inductive step (s : pipeline) : pipeline -> Prop :=
  | step_refine q1 q2 c k p temp :
      refine_que s = q1 ++ (c, k) :: q2 -> refine_one c k = (p, temp) ->
      step s (Pipe (heads s) (db s)
        (q1 ++ match temp with Some c => [(c, u32 (k + 1))] | None => [] end ++ q2)
        (deduplicate_que s ++ [p]) (compress_que s) (reorder_que s) (reorder s) (towrite s) (flushed s) (file s))
  | step_deduplicate q1 q2 p dup db' heads' :
      deduplicate_que s = q1 ++ p :: q2 -> par_Deduplicate (db s) (heads s) p = Ok (dup, db', heads') ->
      step s (Pipe heads' db' (refine_que s) (q1 ++ q2)
        (if dup then compress_que s else compress_que s ++ [p])
        (if dup then reorder_que s ++ [p] else reorder_que s) (reorder s) (towrite s) (flushed s) (file s))
  | step_compress q1 q2 p heads' :
      compress_que s = q1 ++ p :: q2 -> par_Compress (heads s) p = Ok heads' ->
      step s (Pipe heads' (db s) (refine_que s) (deduplicate_que s) (q1 ++ q2)
        (reorder_que s ++ [p]) (reorder s) (towrite s) (flushed s) (file s))
  | step_receive q1 q2 p fuel st :
      towrite s = [] -> flushed s = false ->
      reorder_que s = q1 ++ p :: q2 -> reorder_chunk fuel (reorder s) p = Some st ->
      step s (Pipe (heads s) (db s) (refine_que s) (deduplicate_que s) (compress_que s) (q1 ++ q2)
        st (drop (length (out (reorder s))) (out st)) (flushed s) (file s))
  | step_write p ps heads' file' :
      towrite s = p :: ps -> par_write (heads s) (file s) p = Ok (Some (heads', file')) ->
      step s (Pipe heads' (db s) (refine_que s) (deduplicate_que s) (compress_que s) (reorder_que s)
        (reorder s) ps (flushed s) file')
  | step_flush fuel st :
      towrite s = [] -> flushed s = false ->
      refine_que s = [] -> deduplicate_que s = [] -> compress_que s = [] -> reorder_que s = [] ->
      flush_loop fuel (reorder s) (TreeFindMin (pmin (reorder s)) (Reorder.T (reorder s))) = Some st ->
      step s (Pipe (heads s) (db s) [] [] [] [] st (drop (length (out (reorder s))) (out st)) true (file s)).

(** All threads have returned. *)
Definition finished (s : pipeline) : Prop := flushed s = true /\ towrite s = [].

(** The system after the first stage has read its input. *)
Definition pipeline_init (db : T) (cs : list coarse) : pipeline :=
  Pipe ∅ db ((fun c => (c, 0)) <$> cs) [] [] [] reorder_init [] false (file_header compress_type).

(** ** The records of a file *)

(** The compressed form of a piece. *)
Definition comp (s : list Z) : list Z :=
  match sub_Compress compress compress_type (Chunk false [] s []) with Ok c => compressed_data c | _ => [] end.

(** The record of a piece, as a duplicate or not. *)
Definition record (dup : bool) (s : list Z) : list Z :=
  if dup then [u8 TYPE_FINGERPRINT] ++ le_bytes 8 SHA1_LEN ++ SHA1_Digest s
  else [u8 TYPE_COMPRESS] ++ le_bytes 8 (len (comp s)) ++ comp s.

(** The records of the pieces [l] when the digests [seen] have been written. *)
Fixpoint records (seen : list (list Z)) (l : list (list Z)) : list Z :=
  match l with
  | [] => []
  | s :: l => record (bool_decide (SHA1_Digest s ∈ seen)) s ++ records (SHA1_Digest s :: seen) l
  end.

Lemma record_seen seen seen' l : (forall k, k ∈ seen <-> k ∈ seen') -> records seen l = records seen' l.
Proof.
  revert seen seen'. induction l as [|s l IH]; intros seen seen' H; [done|]. cbn [records]. f_equal.
  - f_equal. apply bool_decide_ext. apply H.
  - apply IH. intros k. rewrite !elem_of_cons, H. done.
Qed.

Lemma records_snoc seen l s :
  records seen (l ++ [s]) = records seen l ++ record (bool_decide (SHA1_Digest s ∈ (SHA1_Digest <$> l) ++ seen)) s.
Proof.
  revert seen. induction l as [|x l IH]; intros seen; cbn [app records fmap list_fmap].
  - by rewrite app_nil_r.
  - rewrite IH, <- app_assoc. do 3 f_equal. apply bool_decide_ext.
    rewrite !elem_of_app, !elem_of_cons, elem_of_app. tauto.
Qed.

(** What compression has to do for a piece. *)
Definition compressible (s : list Z) : Prop :=
  (forall d k, sub_Compress compress compress_type (Chunk d k s []) = Ok (Chunk d k [] (comp s))) /\
  0 < len (comp s) < 2 ^ 31.

Lemma codec_compressible uncompress s : codec_ok compress uncompress compress_type s -> compressible s.
Proof.
  intros (_ & c & C1 & C2 & _). unfold compressible, comp. rewrite (C1 false []). done.
Qed.

(** ** The invariant *)
Section Invariant.
Context (io : io_ok read write) (laws : CacheLaws cache) (Hd : digest_ok SHA1_Digest).
(** The pieces of the input, in order. *)
Context (cs : list piece).
Context (Hnum : numbered p_sequence p_isLastL2Chunk sequence_reset cs) (Hbnd : Forall (in_bounds p_sequence) cs).
Context (Hinj : forall a b, a ∈ cs -> b ∈ cs -> SHA1_Digest (p_data a) = SHA1_Digest (p_data b) -> p_data a = p_data b).
Context (Hcomp : forall a, a ∈ cs -> compressible (p_data a)).

Local Abbreviation digest p := (SHA1_Digest (p_data p)).

Definition digests (l : list piece) : list (list Z) := (fun p => digest p) <$> l.

(** What [FragmentRefine] has still to cut. *)
Definition pieces_of (e : coarse * Z) : list piece :=
  refine_loop rabintab rabinwintab rf_win (S (length (c_data e.1))) e.1 e.2.
Definition to_cut (s : pipeline) : list piece := concat (pieces_of <$> refine_que s).

(** The pieces that have not reached the reorder stage, and those that have a digest. *)
Definition todo (s : pipeline) : list piece :=
  to_cut s ++ deduplicate_que s ++ compress_que s ++ reorder_que s.
Definition digested (s : pipeline) (waiting : list piece) : list piece :=
  compress_que s ++ reorder_que s ++ waiting ++ out (reorder s).

Definition coarse_ok (e : coarse * Z) : Prop :=
  c_data e.1 <> [] /\ 0 <= e.2 /\ e.2 + len (c_data e.1) < 2 ^ 31.

(** The header of a piece that has a digest: the table of digests [m] leads from the
    digest to the original, and a duplicate refers to it. *)
Definition head_ok (heads : heads_t) (m : gmap (list Z) sequence_t) (p : piece) : Prop :=
  exists h q, heads !! p_sequence p = Some h /\ m !! digest p = Some q /\ h_sha1 h = digest p /\
    if h_isDuplicate h then h_ref h = Some q /\ q <> p_sequence p /\ h_state h = CHUNK_STATE_UNCOMPRESSED
    else q = p_sequence p.

(** The state of an original tells where it is, and whether a piece of its digest has
    been written. *)
Definition state_ok (heads : heads_t) (compressing done : list piece) (p : piece) : Prop :=
  forall h, heads !! p_sequence p = Some h -> h_isDuplicate h = false ->
    match h_state h with
    | CHUNK_STATE_UNCOMPRESSED => (p ∈ compressing) /\ (digest p ∉ digests done)
    | CHUNK_STATE_COMPRESSED =>
        (p ∉ compressing) /\ (digest p ∉ digests done) /\ h_compressed_data h = comp (p_data p)
    | CHUNK_STATE_FLUSHED => (p ∉ compressing) /\ (digest p ∈ digests done)
    end.

Record pinv (s : pipeline) (done rest waiting : list piece) (m : gmap (list Z) sequence_t) : Prop := {
  v_reorder : inv p_sequence p_isLastL2Chunk cs (reorder s) rest [] waiting (todo s);
  v_blocked : blocked rest waiting;
  v_flushed : flushed s = true -> rest = [];
  v_out : out (reorder s) = done ++ towrite s;
  v_coarse : Forall coarse_ok (refine_que s);
  v_db : cache_rep (db s) m;
  v_table : forall k q, m !! k = Some q -> exists e, e ∈ digested s waiting /\ p_sequence e = q /\ digest e = k;
  v_heads : forall p, p ∈ digested s waiting -> head_ok (heads s) m p;
  v_states : forall p, p ∈ digested s waiting -> state_ok (heads s) (compress_que s) done p;
  v_originals : forall p h, p ∈ compress_que s -> heads s !! p_sequence p = Some h -> h_isDuplicate h = false;
  v_file : file s = file_header compress_type ++ records [] (p_data <$> done)
}.

Lemma cs_NoDup : NoDup (p_sequence <$> cs).
Proof. exact (numbered_NoDup _ _ cs _ Hnum Hbnd). Qed.

Lemma cs_same p q : p ∈ cs -> q ∈ cs -> p_sequence p = p_sequence q -> p = q.
Proof. apply same_sequence, cs_NoDup. Qed.

Section State.
Context {s : pipeline} {done rest waiting : list piece} {m : gmap (list Z) sequence_t}.
Context (V : pinv s done rest waiting m).

Lemma v_parts : cs ≡ₚ to_cut s ++ deduplicate_que s ++ digested s waiting.
Proof.
  rewrite <- (i_out _ _ _ _ _ _ _ _ (v_reorder _ _ _ _ _ V)), (i_rest _ _ _ _ _ _ _ _ (v_reorder _ _ _ _ _ V)).
  unfold todo, digested. solve_perm.
Qed.

Lemma digested_cs p : p ∈ digested s waiting -> p ∈ cs.
Proof. intros H. rewrite v_parts, !elem_of_app. tauto. Qed.

Lemma deduplicate_cs p : p ∈ deduplicate_que s -> p ∈ cs.
Proof. intros H. rewrite v_parts, !elem_of_app. tauto. Qed.

(** The header of a piece that is not digested may be written. *)
Lemma deduplicate_fresh p q : p ∈ deduplicate_que s -> q ∈ digested s waiting -> p_sequence p <> p_sequence q.
Proof.
  intros Hp Hq E. pose proof cs_NoDup as HN. rewrite v_parts, !fmap_app in HN.
  apply list.NoDup_app in HN as (_ & _ & HN). apply list.NoDup_app in HN as (_ & HN & _).
  apply (HN (p_sequence p)); [by apply list_elem_of_fmap_2|]. rewrite E. by apply list_elem_of_fmap_2.
Qed.

(** The original of a piece. *)
Lemma original p : p ∈ digested s waiting ->
  exists h e he, heads s !! p_sequence p = Some h /\ h_sha1 h = digest p /\
    (if h_isDuplicate h then h_ref h else Some (p_sequence p)) = Some (p_sequence e) /\
    e ∈ digested s waiting /\ digest e = digest p /\ m !! digest p = Some (p_sequence e) /\
    heads s !! p_sequence e = Some he /\ h_isDuplicate he = false /\ h_sha1 he = digest p.
Proof.
  intros Hp. destruct (v_heads _ _ _ _ _ V p Hp) as (h & q & E1 & E2 & E3 & E4).
  destruct (v_table _ _ _ _ _ V _ _ E2) as (e & He & <- & Ee).
  destruct (v_heads _ _ _ _ _ V e He) as (he & q & F1 & F2 & F3 & F4). rewrite Ee, E2 in F2. injection F2 as <-.
  exists h, e, he. rewrite Ee in F3. repeat (split; [done|]). split.
  - destruct (h_isDuplicate h); [by destruct E4 as [-> _]|]. by rewrite E4.
  - repeat (split; [done|]). split; [|done]. destruct (h_isDuplicate he); [|done]. by destruct F4 as (_ & [] & _).
Qed.
End State.

(** ** Every step keeps the invariant *)
Definition good (s : pipeline) : Prop := exists done rest waiting m, pinv s done rest waiting m.

Lemma refine_pieces c k p temp : coarse_ok (c, k) -> refine_one c k = (p, temp) ->
  pieces_of (c, k) = p :: match temp with Some c' => pieces_of (c', u32 (k + 1)) | None => [] end /\
  p_data p <> [] /\
  match temp with
  | Some c' => coarse_ok (c', u32 (k + 1)) /\ (length (c_data c) = length (p_data p) + length (c_data c'))%nat
  | None => c_data c = p_data p
  end.
Proof.
  intros (Hne & Hk & Hb) E. cbn [fst snd] in *. unfold pieces_of. cbn [fst snd]. rewrite refine_loop_S, E.
  destruct (refine_one_cases rabintab rabinwintab rf_win c k Hne ltac:(lia)) as [(o & Ho & E')|E'];
    rewrite E' in E; injection E as <- <-; [|done].
  pose proof (len_zdrop o (c_data c) ltac:(lia)) as L. pose proof (len_ztake o (c_data c) ltac:(lia)) as L'.
  set (d := zdrop o (c_data c)) in *. set (h := ztake o (c_data c)) in *. cbn [p_data c_data].
  assert (d <> []) by (intros E; rewrite E, len_nil in L; lia).
  rewrite uw_small by lia. split; [f_equal; apply refine_loop_fuel; cbn [c_data]; [done|lia|unfold len in *; lia..]|].
  split; [intros E; rewrite E, len_nil in L'; lia|]. split; [|unfold len in *; lia].
  unfold coarse_ok. cbn [fst snd c_data]. split; [done|lia].
Qed.

Lemma keep_refine s q1 q2 c k p temp : good s -> refine_que s = q1 ++ (c, k) :: q2 -> refine_one c k = (p, temp) ->
  good (Pipe (heads s) (db s) (q1 ++ match temp with Some c => [(c, u32 (k + 1))] | None => [] end ++ q2)
    (deduplicate_que s ++ [p]) (compress_que s) (reorder_que s) (reorder s) (towrite s) (flushed s) (file s)).
Proof.
  intros (done & rest & waiting & m & V) Eq Ep. exists done, rest, waiting, m.
  pose proof (v_coarse _ _ _ _ _ V) as HC. rewrite Eq in HC. apply Forall_app in HC as [HC1 HC2].
  apply list.Forall_cons in HC2 as [HC HC2]. destruct (refine_pieces c k p temp HC Ep) as (E & _ & Hc).
  destruct V as [V1 V2 V3 V4 V5 V6 V7 V8 V9 V10 V11]. split; try done.
  - cbn [reorder]. apply (inv_todo_perm _ _ _ _ _ _ _ (todo s)); [|exact V1].
    unfold todo, to_cut. cbn [refine_que deduplicate_que compress_que reorder_que]. rewrite Eq.
    rewrite !fmap_app, !concat_app. cbn [fmap list_fmap concat]. rewrite E.
    destruct temp; cbn [fmap list_fmap concat]; solve_perm.
  - cbn [refine_que]. apply Forall_app. split; [done|]. apply Forall_app. split; [|done].
    destruct temp; [|constructor]. by constructor; [apply Hc|].
Qed.

(** Writing the state and the data of an original. *)
Definition put_state (heads : heads_t) (q : sequence_t) (h : header_t) (st : chunk_state_t) (c : list Z) : heads_t :=
  <[q := Header (h_isDuplicate h) st (h_sha1 h) c (h_ref h)]> heads.

Lemma head_ok_put heads m q h st c p : heads !! q = Some h -> h_isDuplicate h = false ->
  head_ok heads m p -> head_ok (put_state heads q h st c) m p.
Proof.
  intros Eq Ed (h' & q' & E1 & E2 & E3 & E4). unfold head_ok, put_state.
  destruct (decide (p_sequence p = q)) as [Ep|Ep].
  - rewrite Ep in *. rewrite E1 in Eq. injection Eq as ->. rewrite Ed in E4. rewrite lookup_insert_eq.
    eexists _, q'. split; [reflexivity|]. cbn. by rewrite Ed.
  - rewrite lookup_insert_ne by done. by exists h', q'.
Qed.

(** The parts of the invariant about the places of the pieces. *)
Lemma keep_places s s' done rest waiting m : pinv s done rest waiting m ->
  reorder s' = reorder s -> todo s ≡ₚ todo s' -> inv p_sequence p_isLastL2Chunk cs (reorder s') rest [] waiting (todo s').
Proof. intros V -> H. apply (inv_todo_perm _ _ _ _ _ _ _ _ _ H). apply (v_reorder _ _ _ _ _ V). Qed.

Lemma digested_distinct s done rest waiting m p p' : pinv s done rest waiting m ->
  p ∈ digested s waiting -> p' ∈ digested s waiting -> p_sequence p' = p_sequence p -> p' = p.
Proof. intros V Hp Hp'. apply cs_same; by apply (digested_cs V). Qed.

Lemma compress_once s done rest waiting m q1 q2 p : pinv s done rest waiting m ->
  compress_que s = q1 ++ p :: q2 -> p ∉ q1 ++ q2.
Proof.
  intros V Eq H. pose proof cs_NoDup as HN. rewrite (v_parts V) in HN. unfold digested in HN. rewrite Eq in HN.
  rewrite <- (Permutation_middle q1 q2 p) in HN. rewrite !fmap_app in HN.
  apply list.NoDup_app in HN as (_ & _ & HN). apply list.NoDup_app in HN as (_ & _ & HN).
  apply list.NoDup_app in HN as (HN & _ & _). cbn in HN. apply list.NoDup_cons in HN as [HN _].
  by apply HN, list_elem_of_fmap_2.
Qed.

Lemma keep_compress s q1 q2 p heads' : good s -> compress_que s = q1 ++ p :: q2 -> par_Compress (heads s) p = Ok heads' ->
  good (Pipe heads' (db s) (refine_que s) (deduplicate_que s) (q1 ++ q2) (reorder_que s ++ [p]) (reorder s)
    (towrite s) (flushed s) (file s)).
Proof.
  intros (done & rest & waiting & m & V) Eq Ep. exists done, rest, waiting, m.
  assert (p ∈ compress_que s) as Hpc by (rewrite Eq; apply elem_of_app; right; apply elem_of_cons; by left).
  assert (p ∈ digested s waiting) as Hp by (apply elem_of_app; by left).
  destruct (v_heads _ _ _ _ _ V p Hp) as (h & q & E1 & _).
  pose proof (v_originals _ _ _ _ _ V p h Hpc E1) as Ed.
  pose proof (v_states _ _ _ _ _ V p Hp h E1 Ed) as Es.
  destruct (Hcomp p (digested_cs V p Hp)) as [HC1 HC2].
  unfold par_Compress in Ep. rewrite E1 in Ep. destruct (h_state h) eqn:Est; [|done..].
  rewrite HC1 in Ep. cbn [res_bind compressed_data] in Ep. injection Ep as <-.
  fold (put_state (heads s) (p_sequence p) h CHUNK_STATE_COMPRESSED (comp (p_data p))).
  set (s' := Pipe _ _ _ _ _ _ _ _ _ _). pose proof (compress_once _ _ _ _ _ _ _ _ V Eq) as Hnp.
  assert (digested s' waiting ≡ₚ digested s waiting) as HD.
  { unfold digested, s'. cbn [compress_que reorder_que reorder]. rewrite Eq. solve_perm. }
  assert (forall p', p' ∈ q1 ++ q2 <-> p' ∈ compress_que s /\ p' <> p) as Hc.
  { intros p'. rewrite Eq, !elem_of_app, elem_of_cons. split; [|tauto].
    intros H. split; [tauto|]. intros ->. apply Hnp. by apply elem_of_app. }
  split; try apply V.
  - apply (keep_places s s' done rest waiting m V eq_refl). unfold todo, to_cut, s'.
    cbn [refine_que deduplicate_que compress_que reorder_que]. rewrite Eq. solve_perm.
  - intros k q' Hk. destruct (v_table _ _ _ _ _ V k q' Hk) as (e & He & Ee). exists e. by rewrite HD.
  - intros p' Hp'. rewrite HD in Hp'. apply head_ok_put; [done|done|]. by apply (v_heads _ _ _ _ _ V).
  - intros p' Hp' h' E' Ed'. rewrite HD in Hp'. cbn [s' heads compress_que] in *. unfold put_state in E'.
    destruct (decide (p_sequence p' = p_sequence p)) as [E|E].
    + pose proof (digested_distinct _ _ _ _ _ _ _ V Hp Hp' E) as ->. rewrite lookup_insert_eq in E'.
      injection E' as <-. cbn [h_state h_compressed_data]. by destruct Es.
    + rewrite lookup_insert_ne in E' by done. pose proof (v_states _ _ _ _ _ V p' Hp' h' E' Ed') as Es'.
      assert (p' <> p) by congruence. destruct (h_state h'); rewrite Hc; tauto.
  - intros p' h' Hp' E'. cbn [s' heads compress_que] in *. unfold put_state in E'. apply Hc in Hp' as [Hp' _].
    destruct (decide (p_sequence p' = p_sequence p)) as [E|E].
    + rewrite E, lookup_insert_eq in E'. by injection E' as <-.
    + rewrite lookup_insert_ne in E' by done. by apply (v_originals _ _ _ _ _ V p').
Qed.

Lemma digests_digested s done rest waiting m k : pinv s done rest waiting m -> k ∈ digests done -> is_Some (m !! k).
Proof.
  intros V Hk. apply list_elem_of_fmap in Hk as (p & -> & Hp).
  assert (p ∈ digested s waiting) as Hp'.
  { unfold digested. rewrite (v_out _ _ _ _ _ V), !elem_of_app. tauto. }
  destruct (v_heads _ _ _ _ _ V p Hp') as (h & q & _ & E & _). by exists q.
Qed.

(** A new header, for a piece that had none. *)
Lemma keep_new_header s done rest waiting m p h m' s' : pinv s done rest waiting m -> p ∈ deduplicate_que s ->
  heads s' = <[p_sequence p := h]> (heads s) ->
  (forall k q, m !! k = Some q -> m' !! k = Some q) ->
  (forall p', p' ∈ digested s waiting -> head_ok (heads s') m' p') /\
  (forall p', p' ∈ digested s waiting -> heads s' !! p_sequence p' = heads s !! p_sequence p').
Proof.
  intros V Hp Eh Hm.
  assert (forall p', p' ∈ digested s waiting -> heads s' !! p_sequence p' = heads s !! p_sequence p') as H.
  { intros p' Hp'. rewrite Eh. apply lookup_insert_ne. apply (deduplicate_fresh V p p' Hp Hp'). }
  split; [|exact H]. intros p' Hp'. destruct (v_heads _ _ _ _ _ V p' Hp') as (h' & q' & E1 & E2 & E3).
  exists h', q'. rewrite H by done. split; [done|]. split; [by apply Hm|done].
Qed.

Lemma keep_deduplicate s q1 q2 p dup db' heads' : good s -> deduplicate_que s = q1 ++ p :: q2 ->
  par_Deduplicate (db s) (heads s) p = Ok (dup, db', heads') ->
  good (Pipe heads' db' (refine_que s) (q1 ++ q2)
    (if dup then compress_que s else compress_que s ++ [p])
    (if dup then reorder_que s ++ [p] else reorder_que s) (reorder s) (towrite s) (flushed s) (file s)).
Proof.
  intros (done & rest & waiting & m & V) Eq Ep.
  assert (p ∈ deduplicate_que s) as Hp by (rewrite Eq; apply elem_of_app; right; apply elem_of_cons; by left).
  unfold par_Deduplicate in Ep. rewrite (law_search (db s) m) in Ep by apply V.
  set (s' := Pipe _ _ _ _ _ _ _ _ _ _).
  assert (digested s' waiting ≡ₚ p :: digested s waiting) as HD.
  { unfold digested, s'. cbn [compress_que reorder_que reorder]. destruct dup; solve_perm. }
  assert (forall m', inv p_sequence p_isLastL2Chunk cs (reorder s') rest [] waiting (todo s') ->
    cache_rep db' m' -> (forall k q, m !! k = Some q -> m' !! k = Some q) ->
    (forall k q, m' !! k = Some q -> exists e, e ∈ p :: digested s waiting /\ p_sequence e = q /\ digest e = k) ->
    (exists h, heads' = <[p_sequence p := h]> (heads s) /\ h_state h = CHUNK_STATE_UNCOMPRESSED /\ h_isDuplicate h = dup) ->
    head_ok heads' m' p -> (dup = false -> digest p ∉ digests done) -> pinv s' done rest waiting m') as Done.
  { intros m' D1 D2 D3 D4 (h & Eh & Hst & Hdup) D5 D6.
    destruct (keep_new_header s done rest waiting m p h m' s' V Hp Eh D3) as [K1 K2].
    assert (forall p', p' ∈ digested s waiting -> (p' ∈ compress_que s' <-> p' ∈ compress_que s)) as Kc.
    { intros p' Hp'. unfold s'. cbn [compress_que]. destruct dup; [done|]. rewrite elem_of_app, list_elem_of_singleton.
      split; [|tauto]. intros [?| ->]; [done|]. by destruct (deduplicate_fresh V p p Hp Hp'). }
    split; try apply V; try done.
    - intros k q Hk. destruct (D4 k q Hk) as (e & He & Ee). exists e. by rewrite HD.
    - intros p' Hp'. rewrite HD in Hp'. apply elem_of_cons in Hp' as [->|Hp']; [done|by apply K1].
    - intros p' Hp' h' E' Ed'. rewrite HD in Hp'. apply elem_of_cons in Hp' as [->|Hp'].
      + change (heads s') with heads' in E'. rewrite Eh, lookup_insert_eq in E'. injection E' as <-. rewrite Hst.
        rewrite Ed' in Hdup. split; [|by apply D6]. unfold s'. cbn [compress_que]. rewrite <- Hdup. apply elem_of_app. right. apply elem_of_cons. by left.
      + rewrite K2 in E' by done. pose proof (v_states _ _ _ _ _ V p' Hp' h' E' Ed') as Es.
        destruct (h_state h'); rewrite Kc by done; exact Es.
    - intros p' h' Hp' E'. unfold s' in Hp'. cbn [compress_que] in Hp'.
      assert (p' ∈ compress_que s \/ dup = false /\ p' = p) as [Hc|[Hc ->]].
      { destruct dup; [by left|]. apply elem_of_app in Hp' as [?|Hp']; [by left|right]. by apply elem_of_cons in Hp' as [->|?%elem_of_nil]. }
      + assert (p' ∈ digested s waiting) as Hd' by (apply elem_of_app; by left).
        rewrite K2 in E' by done. by apply (v_originals _ _ _ _ _ V p').
      + change (heads s') with heads' in E'. rewrite Eh, lookup_insert_eq in E'. injection E' as <-. congruence. }
  assert (inv p_sequence p_isLastL2Chunk cs (reorder s') rest [] waiting (todo s')) as HI.
  { apply (keep_places s s' done rest waiting m V eq_refl). unfold todo, to_cut, s'.
    cbn [refine_que deduplicate_que compress_que reorder_que]. rewrite Eq. destruct dup; solve_perm. }
  destruct (m !! digest p) as [q|] eqn:Em.
  2: destruct (law_insert (db s) m (digest p) (p_sequence p) (v_db _ _ _ _ _ V) Em) as (db1 & Ei & Hr1);
     rewrite Ei in Ep.
  all: injection Ep as <- <- <-.
  - exists done, rest, waiting, m. apply Done; try done; [apply V| | |].
    + intros k q' Hk. destruct (v_table _ _ _ _ _ V k q' Hk) as (e & He & Ee). exists e. split; [|done]. apply elem_of_cons. by right.
    + by eexists.
    + destruct (v_table _ _ _ _ _ V _ q Em) as (e & He & <- & _). eexists _, _. rewrite lookup_insert_eq.
      split; [reflexivity|]. split; [exact Em|]. cbn. split; [done|]. split; [done|]. split; [|done].
      intros E. by destruct (deduplicate_fresh V p e Hp He).
  - exists done, rest, waiting, (<[digest p := p_sequence p]> m). apply Done; try done.
    + intros k q Hk. rewrite lookup_insert_ne; [done|]. congruence.
    + intros k q. rewrite lookup_insert. case_decide as Hk.
      * intros [= <-]. exists p. split; [apply elem_of_cons; by left|]. by split.
      * intros H. destruct (v_table _ _ _ _ _ V k q H) as (e & He & Ee). exists e. split; [|done]. apply elem_of_cons. by right.
    + by eexists.
    + eexists _, _. rewrite !lookup_insert_eq. split; [reflexivity|]. split; [reflexivity|]. by split.
    + intros _ H. pose proof (digests_digested _ _ _ _ _ _ V H) as [? ?]. congruence.
Qed.

Lemma keep_receive s q1 q2 p fuel st : good s -> towrite s = [] -> flushed s = false ->
  reorder_que s = q1 ++ p :: q2 -> reorder_chunk fuel (reorder s) p = Some st ->
  good (Pipe (heads s) (db s) (refine_que s) (deduplicate_que s) (compress_que s) (q1 ++ q2)
    st (drop (length (out (reorder s))) (out st)) (flushed s) (file s)).
Proof.
  intros (done & rest & waiting & m & V) Et Ef Eq Er.
  set (todo' := to_cut s ++ deduplicate_que s ++ compress_que s ++ q1 ++ q2).
  assert (todo s ≡ₚ p :: todo') as HT by (unfold todo, todo'; rewrite Eq; solve_perm).
  pose proof (inv_todo_perm _ _ _ _ _ _ _ _ _ HT (v_reorder _ _ _ _ _ V)) as I.
  destruct (reorder_chunk_inv p_sequence p_isLastL2Chunk undef (S (fuel + length rest)) _ _ _ _ _ _ I (v_blocked _ _ _ _ _ V))
    as (st' & rest' & waiting' & Er' & I' & B'); [lia|].
  pose proof (reorder_chunk_mono _ _ _ fuel (S (fuel + length rest)) _ _ _ ltac:(lia) Er) as Er''.
  rewrite Er' in Er''. injection Er'' as ->.
  destruct (reorder_chunk_out _ _ _ _ _ _ _ Er) as [l El].
  pose proof (v_out _ _ _ _ _ V) as Eo. rewrite Et, app_nil_r in Eo. rewrite El, drop_app_length.
  set (s' := Pipe _ _ _ _ _ _ _ _ _ _). exists done, rest', waiting', m.
  assert (cs ≡ₚ to_cut s ++ deduplicate_que s ++ digested s' waiting') as HC.
  { rewrite <- (i_out _ _ _ _ _ _ _ _ I'), (i_rest _ _ _ _ _ _ _ _ I'). unfold todo', digested, s'.
    cbn [compress_que reorder_que reorder]. solve_perm. }
  assert (digested s' waiting' ≡ₚ digested s waiting) as HD.
  { rewrite (v_parts V) in HC. by apply Permutation_app_inv_l, Permutation_app_inv_l in HC. }
  split; try apply V; try done.
  - unfold s'. cbn [flushed]. by rewrite Ef.
  - unfold s'. cbn [reorder towrite]. by rewrite El, Eo.
  - intros k q' Hk. destruct (v_table _ _ _ _ _ V k q' Hk) as (e & He & Ee). exists e. by rewrite HD.
  - intros p'. rewrite HD. apply (v_heads _ _ _ _ _ V).
  - intros p'. rewrite HD. apply (v_states _ _ _ _ _ V).
Qed.

Lemma keep_flush s fuel st : good s -> towrite s = [] ->
  refine_que s = [] -> deduplicate_que s = [] -> compress_que s = [] -> reorder_que s = [] ->
  flush_loop fuel (reorder s) (TreeFindMin (pmin (reorder s)) (Reorder.T (reorder s))) = Some st ->
  st = reorder s /\ drop (length (out (reorder s))) (out st) = [] /\
  good (Pipe (heads s) (db s) [] [] [] [] st (drop (length (out (reorder s))) (out st)) true (file s)).
Proof.
  intros (done & rest & waiting & m & V) Et E1 E2 E3 E4 Er.
  assert (todo s = []) as HT by (unfold todo, to_cut; by rewrite E1, E2, E3, E4).
  pose proof (v_reorder _ _ _ _ _ V) as I. rewrite HT in I.
  destruct (inv_end _ _ _ _ _ _ I (v_blocked _ _ _ _ _ V)) as (-> & -> & Em). rewrite Em in Er.
  assert (st = reorder s) as -> by (destruct fuel; by injection Er as <-). split; [done|].
  rewrite drop_all. split; [done|].
  exists done, [], [], m. destruct V as [V1 V2 V3 V4 V5 V6 V7 V8 V9 V10 V11].
  unfold todo, digested, to_cut in *. rewrite E1, E2, E3, E4 in *. split; try done.
  cbn [reorder towrite]. by rewrite V4, Et.
Qed.

(** What the reorder thread writes for the next piece. *)
Lemma write_record out t n content : len content = n -> n < 2 ^ 31 ->
  write_file write out t n content = Ok (out ++ [u8 t] ++ le_bytes 8 n ++ content).
Proof. by apply (write_file_ok read write io). Qed.

Lemma records_done done p :
  records [] (p_data <$> done ++ [p]) =
  records [] (p_data <$> done) ++ record (bool_decide (digest p ∈ digests done)) (p_data p).
Proof.
  rewrite fmap_app. cbn [fmap list_fmap]. rewrite records_snoc, app_nil_r. do 3 f_equal.
  unfold digests. apply bool_decide_ext. by rewrite <- list_fmap_compose.
Qed.

(** The write of the next piece, when its original is compressed. *)
Lemma write_cases s done rest waiting m p ps : pinv s done rest waiting m -> towrite s = p :: ps ->
  exists e he, e ∈ digested s waiting /\ heads s !! p_sequence e = Some he /\ h_isDuplicate he = false /\
    digest e = digest p /\ m !! digest p = Some (p_sequence e) /\
    match h_state he with
    | CHUNK_STATE_UNCOMPRESSED => par_write (heads s) (file s) p = Ok None /\ e ∈ compress_que s
    | CHUNK_STATE_COMPRESSED =>
        (e ∉ compress_que s) /\
        par_write (heads s) (file s) p =
        Ok (Some (put_state (heads s) (p_sequence e) he CHUNK_STATE_FLUSHED [],
                  file_header compress_type ++ records [] (p_data <$> done ++ [p])))
    | CHUNK_STATE_FLUSHED =>
        digest p ∈ digests done /\
        par_write (heads s) (file s) p =
        Ok (Some (heads s, file_header compress_type ++ records [] (p_data <$> done ++ [p])))
    end.
Proof.
  intros V Et.
  assert (p ∈ digested s waiting) as Hp.
  { unfold digested. rewrite (v_out _ _ _ _ _ V), Et, !elem_of_app, elem_of_cons. tauto. }
  destruct (original V p Hp) as (h & e & he & O1 & O2 & O3 & O4 & O5 & O6 & O7 & O8 & O9).
  exists e, he. repeat (split; [done|]). pose proof (v_states _ _ _ _ _ V e O4 he O7 O8) as Es.
  unfold par_write. rewrite O1, O3, O7. rewrite records_done, (v_file _ _ _ _ _ V), app_assoc.
  destruct (h_state he) eqn:Est.
  - split; [done|]. by destruct Es.
  - destruct Es as (Es1 & Es2 & Es3). split; [done|].
    destruct (Hcomp e (digested_cs V e O4)) as [_ Hc].
    rewrite write_record by (rewrite ?Es3; (done || lia)). cbn [res_bind]. do 3 f_equal.
    rewrite O5 in Es2. rewrite bool_decide_false by done. unfold record. rewrite Es3.
    by rewrite (Hinj e p (digested_cs V e O4) (digested_cs V p Hp) O5).
  - destruct Es as (Es1 & Es2). rewrite O5 in Es2. split; [done|]. rewrite O9. destruct (Hd (p_data p)) as [Hl _].
    rewrite write_record by (unfold len, SHA1_LEN in *; rewrite ?Hl; lia). cbn [res_bind]. do 3 f_equal.
    by rewrite bool_decide_true by done.
Qed.

Lemma digests_snoc done p k : k ∈ digests (done ++ [p]) <-> k ∈ digests done \/ k = digest p.
Proof. unfold digests. rewrite fmap_app, elem_of_app. cbn [fmap list_fmap]. by rewrite list_elem_of_singleton. Qed.

Lemma keep_write s p ps heads' file' : good s -> towrite s = p :: ps ->
  par_write (heads s) (file s) p = Ok (Some (heads', file')) ->
  good (Pipe heads' (db s) (refine_que s) (deduplicate_que s) (compress_que s) (reorder_que s)
    (reorder s) ps (flushed s) file').
Proof.
  intros (done & rest & waiting & m & V) Et Ew.
  destruct (write_cases _ _ _ _ _ _ _ V Et) as (e & he & He & Ee & Ed & Ek & Em & Hc).
  set (s' := Pipe _ _ _ _ _ _ _ _ _ _). exists (done ++ [p]), rest, waiting, m.
  assert (forall e', e' ∈ digested s waiting -> digest e' = digest p ->
    (exists h', heads s !! p_sequence e' = Some h' /\ h_isDuplicate h' = false) -> e' = e) as One.
  { intros e' He' Ek' (h' & E1 & E2). destruct (v_heads _ _ _ _ _ V e' He') as (h2 & q2 & F1 & F2 & F3 & F4).
    rewrite E1 in F1. injection F1 as <-. rewrite E2 in F4. subst q2. rewrite Ek', Em in F2. injection F2 as F2.
    by apply (digested_distinct _ _ _ _ _ _ _ V He He'). }
  assert (out (reorder s) = (done ++ [p]) ++ ps) as Eo by (rewrite (v_out _ _ _ _ _ V), Et, <- app_assoc; done).
  destruct (h_state he) eqn:Est.
  - destruct Hc as [Hc _]. congruence.
  - destruct Hc as [Hnc Hc]. rewrite Ew in Hc. injection Hc as -> ->. split; try apply V; try done.
    + intros p' Hp'. apply head_ok_put; [done|done|]. by apply (v_heads _ _ _ _ _ V).
    + intros p' Hp' h' E' Ed'. cbn [s' heads compress_que] in *. unfold put_state in E'.
      destruct (decide (p_sequence p' = p_sequence e)) as [E|E].
      * pose proof (digested_distinct _ _ _ _ _ _ _ V He Hp' E) as ->. rewrite lookup_insert_eq in E'.
        injection E' as <-. cbn [h_state]. split; [done|]. apply digests_snoc. by right.
      * rewrite lookup_insert_ne in E' by done. pose proof (v_states _ _ _ _ _ V p' Hp' h' E' Ed') as Es.
        assert (digest p' <> digest p) as Hne by (intros E2; apply E; rewrite (One p'); [done|done|done|by exists h']).
        destruct (h_state h'); rewrite digests_snoc; tauto.
    + intros p' h' Hp' E'. cbn [s' heads compress_que] in *. unfold put_state in E'.
      destruct (decide (p_sequence p' = p_sequence e)) as [E|E].
      * rewrite E, lookup_insert_eq in E'. by injection E' as <-.
      * rewrite lookup_insert_ne in E' by done. by apply (v_originals _ _ _ _ _ V p').
  - destruct Hc as [Hk Hc]. rewrite Ew in Hc. injection Hc as -> ->. split; try apply V; try done.
    intros p' Hp' h' E' Ed'. pose proof (v_states _ _ _ _ _ V p' Hp' h' E' Ed') as Es. cbn [s' compress_que].
    destruct (h_state h'); rewrite digests_snoc; try tauto.
    + split; [tauto|]. intros [?|E]; [tauto|]. rewrite E in Es. tauto.
    + split; [tauto|]. split; [|tauto]. intros [?|E]; [tauto|]. rewrite E in Es. tauto.
Qed.

Lemma keep_step s s' : good s -> step s s' -> good s'.
Proof.
  intros G H. destruct H as [q1 q2 c k p temp E1 E2|q1 q2 p dup db' heads' E1 E2|q1 q2 p heads' E1 E2
    |q1 q2 p fuel st E1 E2 E3 E4|p ps heads' file' E1 E2|fuel st E1 E2 E3 E4 E5 E6 E7].
  - by apply (keep_refine s q1 q2 c k p temp).
  - by apply (keep_deduplicate s q1 q2 p).
  - by apply (keep_compress s q1 q2 p).
  - by apply (keep_receive s q1 q2 p fuel).
  - by apply (keep_write s p).
  - by apply (keep_flush s fuel).
Qed.

(** ** No state but the last is stuck *)
Lemma compress_enabled s p : good s -> p ∈ compress_que s -> exists s', step s s'.
Proof.
  intros (done & rest & waiting & m & V) Hp. pose proof Hp as Hq. apply list_elem_of_split in Hq as (q1 & q2 & Eq).
  assert (p ∈ digested s waiting) as Hp' by (apply elem_of_app; by left).
  destruct (v_heads _ _ _ _ _ V p Hp') as (h & q & E1 & _).
  pose proof (v_originals _ _ _ _ _ V p h Hp E1) as Ed. pose proof (v_states _ _ _ _ _ V p Hp' h E1 Ed) as Es.
  destruct (Hcomp p (digested_cs V p Hp')) as [HC _].
  eexists. eapply (step_compress s q1 q2 p); [exact Eq|]. unfold par_Compress. rewrite E1.
  destruct (h_state h); [by rewrite HC|tauto..].
Qed.

(** The table takes every digest. *)
Lemma deduplicate_succeeds s p : good s -> exists dup db' heads', par_Deduplicate (db s) (heads s) p = Ok (dup, db', heads').
Proof.
  intros (done & rest & waiting & m & V). unfold par_Deduplicate. rewrite (law_search (db s) m) by apply V.
  destruct (m !! _) as [q|] eqn:Em; [eauto|].
  destruct (law_insert (db s) m (SHA1_Digest (p_data p)) (p_sequence p) (v_db _ _ _ _ _ V) Em) as (db1 & -> & _). eauto.
Qed.

Lemma progress s : good s -> finished s \/ exists s', step s s'.
Proof.
  intros G. destruct (towrite s) as [|p ps] eqn:Et.
  - destruct (flushed s) eqn:Ef; [by left|right].
    destruct (refine_que s) as [|[c k] q2] eqn:E1.
    2: { destruct (refine_one c k) as [p temp] eqn:E. eexists. by eapply (step_refine s [] q2 c k). }
    destruct (deduplicate_que s) as [|p q2] eqn:E2.
    2: { destruct (deduplicate_succeeds s p G) as (dup & db' & heads' & E).
         eexists. by eapply (step_deduplicate s [] q2 p). }
    destruct (compress_que s) as [|p q2] eqn:E3.
    2: { apply (compress_enabled s p G). rewrite E3. apply elem_of_cons. by left. }
    destruct G as (done & rest & waiting & m & V). pose proof (v_reorder _ _ _ _ _ V) as I.
    destruct (reorder_que s) as [|p q2] eqn:E4.
    + assert (todo s = []) as HT by (unfold todo, to_cut; by rewrite E1, E2, E3, E4). rewrite HT in I.
      destruct (inv_end _ _ _ _ _ _ I (v_blocked _ _ _ _ _ V)) as (_ & _ & Em).
      eexists. eapply (step_flush s 0); try done. by rewrite Em.
    + assert (todo s = p :: q2) as HT by (unfold todo, to_cut; by rewrite E1, E2, E3, E4). rewrite HT in I.
      destruct (reorder_chunk_inv p_sequence p_isLastL2Chunk undef (S (length rest)) _ _ _ _ _ _ I (v_blocked _ _ _ _ _ V))
        as (st & _ & _ & Er & _); [lia|].
      eexists. by eapply (step_receive s [] q2 p).
  - right. pose proof G as (done & rest & waiting & m & V).
    destruct (write_cases _ _ _ _ _ _ _ V Et) as (e & he & _ & _ & _ & _ & _ & Hc). destruct (h_state he).
    + destruct Hc as [_ Hc]. by apply (compress_enabled s e).
    + destruct Hc as [_ Hc]. eexists. by eapply (step_write s p ps).
    + destruct Hc as [_ Hc]. eexists. by eapply (step_write s p ps).
Qed.

(** ** Every step brings the end nearer *)
Definition measure (s : pipeline) : nat :=
  10 * sum_list_with (fun e => length (c_data e.1)) (refine_que s) + 4 * length (deduplicate_que s) +
  3 * length (compress_que s) + 2 * length (reorder_que s) + length (towrite s) +
  (length cs - length (out (reorder s))) + (if flushed s then 0 else 1).

Lemma measure_decreases s s' : good s -> step s s' -> (measure s' < measure s)%nat.
Proof.
  intros G H. pose proof (keep_step _ _ G H) as G'.
  destruct H as [q1 q2 c k p temp E1 E2|q1 q2 p dup db' heads' E1 E2|q1 q2 p heads' E1 E2
    |q1 q2 p fuel st E1 E2 E3 E4|p ps heads' file' E1 E2|fuel st E1 E2 E3 E4 E5 E6 E7]; unfold measure;
    cbn [refine_que deduplicate_que compress_que reorder_que reorder towrite flushed].
  - destruct G as (done & rest & waiting & m & V). pose proof (v_coarse _ _ _ _ _ V) as HC. rewrite E1 in HC.
    apply Forall_app in HC as [_ HC]. apply list.Forall_cons in HC as [HC _].
    destruct (refine_pieces c k p temp HC E2) as (_ & Hp & Hl). rewrite E1, length_app.
    assert (0 < length (p_data p))%nat by (destruct (p_data p); [done|cbn; lia]).
    rewrite !sum_list_with_app. cbn [sum_list_with fst length]. destruct temp as [c'|]; cbn [sum_list_with fst].
    + destruct Hl as [_ Hl]. lia.
    + rewrite Hl. lia.
  - rewrite E1. destruct dup; rewrite !length_app; cbn [length]; lia.
  - rewrite E1. rewrite !length_app; cbn [length]; lia.
  - destruct G' as (done & rest & waiting & m & V). pose proof (inv_rest_length _ _ _ _ _ _ _ _ (v_reorder _ _ _ _ _ V)) as HL.
    pose proof (f_equal length (i_out _ _ _ _ _ _ _ _ (v_reorder _ _ _ _ _ V))) as HO. cbn [reorder] in HO.
    rewrite length_app in HO. destruct (reorder_chunk_out _ _ _ _ _ _ _ E4) as [l El].
    rewrite E1, E3, El, drop_app_length, !length_app in *. cbn [length]. lia.
  - rewrite E1. cbn [length]. lia.
  - destruct (keep_flush s fuel st G E1 E3 E4 E5 E6 E7) as (-> & -> & _). rewrite E2. cbn [length sum_list_with]. lia.
Qed.

Lemma steps_bounded n s s' : good s -> nsteps step n s s' -> good s' /\ (measure s' + n <= measure s)%nat.
Proof.
  intros G H. induction H as [s|n s s1 s2 H1 H2 IH]; [split; [done|lia]|].
  pose proof (measure_decreases _ _ G H1). destruct (IH (keep_step _ _ G H1)) as [? ?]. split; [done|lia].
Qed.

Lemma finished_file s : good s -> finished s -> file s = file_header compress_type ++ records [] (p_data <$> cs).
Proof.
  intros (done & rest & waiting & m & V) [Ef Et]. rewrite (v_file _ _ _ _ _ V). do 3 f_equal.
  pose proof (i_out _ _ _ _ _ _ _ _ (v_reorder _ _ _ _ _ V)) as HO.
  by rewrite (v_flushed _ _ _ _ _ V Ef), app_nil_r, (v_out _ _ _ _ _ V), Et, app_nil_r in HO.
Qed.

Lemma init_good db0 cc : cache_rep db0 ∅ -> Forall coarse_ok ((fun c => (c, 0)) <$> cc) ->
  cs = concat (FragmentRefine rabintab rabinwintab rf_win <$> cc) ->
  good (pipeline_init db0 cc).
Proof.
  intros Hdb Hok Hcs. exists [], cs, [], ∅.
  assert (todo (pipeline_init db0 cc) = cs) as HT.
  { unfold todo, to_cut, pipeline_init. cbn [refine_que deduplicate_que compress_que reorder_que].
    rewrite !app_nil_r, Hcs, <- list_fmap_compose. done. }
  split; try done.
  - rewrite HT. by apply inv_init.
  - cbn. by destruct cs; [|apply not_elem_of_nil].
  - intros p Hp. by apply elem_of_nil in Hp.
Qed.
End Invariant.
End Pipeline.

(** ** The serial stages write the same records *)
Section Serial.
Context (read : Z -> Z -> Z) (write : Z -> Z * bool) (io : io_ok read write).
Context {T : Type} (cache : Cache T (list Z) chunk_t) (laws : CacheLaws cache).
Context (SHA1_Digest : list Z -> list Z) (compress : Z -> list Z -> option (list Z)) (compress_type : Z).
Context (Hd : digest_ok SHA1_Digest).

Lemma process_all_records segs : forall db m out seen, cache_rep db m -> (forall k, k ∈ seen <-> is_Some (m !! k)) ->
  (forall s, s ∈ segs -> compressible compress compress_type s) ->
  exists db', process_all (process_chunk write SHA1_Digest compress compress_type) (db, out) segs =
    Ok (db', out ++ records SHA1_Digest compress compress_type seen segs).
Proof.
  induction segs as [|s segs IH]; intros db m out seen Hr Hs Hc; cbn [process_all records].
  { exists db. by rewrite app_nil_r. }
  destruct (Hc s) as [C1 C2]; [apply elem_of_cons; by left|].
  assert (forall s', s' ∈ segs -> compressible compress compress_type s') as Hc' by (intros; apply Hc, elem_of_cons; by right).
  destruct (m !! SHA1_Digest s) as [c0|] eqn:Em.
  - rewrite (process_dup read write io cache laws _ _ _ db m out s c0 Hd Hr Em). cbn [res_bind].
    rewrite bool_decide_true by (apply Hs; by rewrite Em).
    destruct (IH db m (out ++ record SHA1_Digest compress compress_type true s) (SHA1_Digest s :: seen)) as [db' E];
      [done| |done|exists db'; rewrite <- app_assoc in E; exact E].
    intros k. rewrite elem_of_cons, Hs. split; [|tauto]. intros [->|?]; [by rewrite Em|done].
  - destruct (process_new read write io cache laws _ _ _ db m out s _ C1 C2 Hr Em) as (db1 & -> & Hr1). cbn [res_bind].
    rewrite bool_decide_false by (rewrite Hs, Em; by intros [? ?]).
    destruct (IH db1 (<[SHA1_Digest s := Chunk false (SHA1_Digest s) s []]> m)
      (out ++ record SHA1_Digest compress compress_type false s) (SHA1_Digest s :: seen)) as [db' E];
      [done| |done|exists db'; rewrite <- app_assoc in E; exact E].
    intros k. rewrite elem_of_cons, Hs, lookup_insert. case_decide; [subst; split; [done|tauto]|].
    split; [intros [->|?]; done|tauto].
Qed.
End Serial.

(** * The parallel encoder *)

(** The table of digests of the parallel encoder leads to chunks, named by numbers. *)
Definition parallel_cache (table_malloc realloc : nat -> bool) : Cache (hashtable (list Z) sequence_t) (list Z) sequence_t :=
  hashtable_cache hash_from_key_fn keys_equal_fn Pthreads table_malloc realloc.
Definition parallel_cache_laws table_malloc realloc (malloc_ok : forall i, table_malloc i = true) :
    CacheLaws (parallel_cache table_malloc realloc) :=
  hashtable_cache_laws hash_from_key_fn keys_equal_fn keys_equal_spec Pthreads table_malloc realloc malloc_ok.

Section Encode.
Context (read : Z -> Z -> Z) (write : Z -> Z * bool) (undef : Z -> Z) (undef_el : Z -> option piece).
Context (SHA1_Digest : list Z -> list Z) (compress uncompress : Z -> list Z -> option (list Z)) (ctype : Z).
Context (malloc : Z -> Z -> bool) (table_malloc realloc : nat -> bool) (f : files_t).
Local Abbreviation pcache := (parallel_cache table_malloc realloc).
Local Abbreviation dcache := (dedup_cache table_malloc realloc).

Definition tables : (Z -> Z) * (Z -> Z) := rabininit rf_win_init undef undef.

(** [Encode] up to the start of the threads: the table of digests, the input file, the
    header of the output, and the coarse chunks the first stage will send. *)
Definition parallel_start (preloading : bool) (data : list Z) : res pipeline :=
  match cache_create (Cache := pcache) 65536 with
  | None => Exit_trace
  | Some db =>
      let! input := open_input read undef malloc f preloading data in
      let! cs := Fragment read tables.1 tables.2 rf_win_init preloading input in
      Ok (pipeline_init ctype db cs)
  end.

Definition parallel_step : relation pipeline :=
  step write (cache := pcache) SHA1_Digest compress ctype tables.1 tables.2 rf_win_init undef_el.

(** The pieces the cutting stages make of the input. *)
Definition parallel_pieces (preloading : bool) (data : list Z) : list (list Z) :=
  match Fragment read tables.1 tables.2 rf_win_init preloading data with
  | Ok cs => p_data <$> concat (FragmentRefine tables.1 tables.2 rf_win_init <$> cs)
  | _ => []
  end.

(** What is assumed of an input: its file can be read, its size is in the range of [int],
    no two different pieces share a digest, and no piece is larger than the decoder's
    buffer. *)
Record input_ok (preloading : bool) (data : list Z) : Prop := {
  in_file : files_ok f data;
  in_bytes : Forall is_byte data;
  in_size : len data < 2 ^ 31 - 1;
  in_pieces : forall s, s ∈ parallel_pieces preloading data -> len s <= piece_bound ctype;
  in_digests : forall a b, a ∈ parallel_pieces preloading data -> b ∈ parallel_pieces preloading data ->
    SHA1_Digest a = SHA1_Digest b -> a = b
}.

Context (io : io_ok read write) (memory : memory_ok malloc table_malloc).
Context (zlib : zlib_ok compress uncompress) (Hd : digest_ok SHA1_Digest).
Let plaws := parallel_cache_laws table_malloc realloc (proj2 memory).
Let dlaws := dedup_cache_laws table_malloc realloc (proj2 memory).
#[local] Existing Instance plaws.
#[local] Existing Instance dlaws.
Context (Ht : ctype = COMPRESS_NONE \/ ctype = COMPRESS_GZIP).

Lemma pieces_facts preloading data ps : input_ok preloading data ->
  parallel_pieces preloading data = p_data <$> ps ->
  (forall s, s ∈ parallel_pieces preloading data -> codec_ok compress uncompress ctype s) ->
  (forall a b, a ∈ ps -> b ∈ ps -> SHA1_Digest (p_data a) = SHA1_Digest (p_data b) -> p_data a = p_data b) /\
  (forall a, a ∈ ps -> compressible compress ctype (p_data a)).
Proof.
  intros [_ _ _ _ Id] Ep Hc. rewrite Ep in *.
  split; [intros a b Ha Hb; apply Id; by apply list_elem_of_fmap_2|].
  intros a Ha. apply (codec_compressible compress ctype uncompress), Hc. by apply list_elem_of_fmap_2.
Qed.

Lemma parallel_setup preloading data : input_ok preloading data ->
  exists cs db0, parallel_start preloading data = Ok (pipeline_init ctype db0 cs) /\
    let ps := concat (FragmentRefine tables.1 tables.2 rf_win_init <$> cs) in
    parallel_pieces preloading data = p_data <$> ps /\
    concat (p_data <$> ps) = data /\ (length ps <= length data)%nat /\
    good (cache := pcache) SHA1_Digest compress ctype tables.1 tables.2 rf_win_init plaws ps (pipeline_init ctype db0 cs) /\
    numbered p_sequence p_isLastL2Chunk sequence_reset ps /\ Forall (in_bounds p_sequence) ps /\
    (forall s, s ∈ parallel_pieces preloading data -> codec_ok compress uncompress ctype s) /\
    sum_list_with (fun e => length (c_data e.1)) ((fun c => (c, 0)) <$> cs) = length data.
Proof.
  intros [Iff Ib Is Ip Id].
  destruct (stages_spec read tables.1 tables.2 rf_win_init rf_win_init write io preloading data Is)
    as (cs & E & P1 & P2 & P3 & P4 & P5 & P6).
  destruct (law_create (C := pcache) 65536 ltac:(lia)) as (db0 & Hdb & Hr).
  assert (parallel_pieces preloading data = p_data <$> concat (FragmentRefine tables.1 tables.2 rf_win_init <$> cs)) as Ep
    by (unfold parallel_pieces; by rewrite E).
  set (ps := concat (FragmentRefine tables.1 tables.2 rf_win_init <$> cs)) in *.
  exists cs, db0. split; [unfold parallel_start; rewrite Hdb, (open_input_ok read write io undef malloc (proj1 memory)) by (done || lia); cbn [res_bind]; rewrite E; done|]. cbv zeta. split; [exact Ep|]. split; [exact P1|].
  assert (forall s, s ∈ parallel_pieces preloading data -> codec_ok compress uncompress ctype s) as Hc.
  { intros s Hs. pose proof (Ip s Hs) as Hl. rewrite Ep in Hs. apply codec_pieces; [done|done| |].
    - rewrite <- P1 in Ib. apply Forall_concat in Ib. by apply (Forall_elem _ _ _ Ib).
    - split; [|done]. apply list_elem_of_fmap in Hs as (p & -> & Hp). apply (Forall_elem _ _ _ P2) in Hp.
      destruct (p_data p) as [|b l]; [done|]. rewrite len_cons. pose proof (len_nonneg l). lia. }
  assert (forall l : list (list Z), Forall (fun s => s <> []) l -> (length l <= length (concat l))%nat) as Hlen.
  { induction l as [|s l IH]; [done|]. intros [H1 H2]%list.Forall_cons. cbn [concat length]. rewrite length_app.
    specialize (IH H2). destruct s; [done|]. cbn [length]. lia. }
  split.
  { pose proof (Hlen (p_data <$> ps)) as HL. rewrite length_fmap, P1 in HL. apply HL. by apply list.Forall_fmap. }
  split.
  { destruct (pieces_facts preloading data ps ltac:(by split) Ep Hc) as [F1 F2].
    apply init_good; try done. apply list.Forall_fmap. apply list.Forall_forall. intros c Hc'.
    pose proof (Forall_elem _ _ _ P5 Hc') as Hne. cbn. unfold coarse_ok. cbn [fst snd]. split; [done|]. split; [lia|].
    apply list_elem_of_split in Hc' as (l1 & l2 & ->). rewrite <- P6, fmap_app, concat_app, len_app in Is.
    cbn [fmap list_fmap concat] in Is. rewrite len_app in Is.
    pose proof (len_nonneg (concat (c_data <$> l1))). pose proof (len_nonneg (concat (c_data <$> l2))). lia. }
  split; [done|]. split; [done|]. split; [done|].
  rewrite <- P6. clear. induction cs as [|c cs IH]; [done|].
  cbn [fmap list_fmap sum_list_with fst concat]. by rewrite length_app, IH.
Qed.


(** C28: however the chunks are distributed over threads, queues and buffers and
    whatever the order in which the threads run, the file the parallel encoder has
    written when all threads have returned is the one the serial stages write for
    the same pieces, and the decoder gives the input back from it.  In particular
    the compressed data of a piece is written once, before every reference to it,
    although the threads may find a later piece of the same contents first. *)
Theorem parallel_output_serial preloading data : input_ok preloading data ->
  exists s0, parallel_start preloading data = Ok s0 /\
    forall s, rtc parallel_step s0 s -> finished s ->
      (exists db db', cache_create (Cache := dcache) 65536 = Some db /\
        process_all (process_chunk (cache := dcache) write SHA1_Digest compress ctype) (db, file_header ctype)
          (parallel_pieces preloading data) = Ok (db', file s)) /\
      Decode (cache := dcache) read write undef SHA1_Digest uncompress (file s) = Ok data.
Proof.
  intros Hin. destruct (parallel_setup preloading data Hin) as (cs & db0 & E & Ep & P1 & _ & G & Hn & Hb & Hc & _).
  set (ps := concat _) in *. destruct (pieces_facts preloading data ps Hin Ep Hc) as [F1 F2].
  exists (pipeline_init ctype db0 cs). split; [exact E|]. intros s Hs Hf.
  apply rtc_nsteps in Hs as [n Hs].
  destruct (steps_bounded read write SHA1_Digest compress ctype tables.1 tables.2 rf_win_init undef_el io plaws Hd ps
    Hn Hb F1 F2 n _ _ G Hs) as [G' _].
  pose proof (finished_file SHA1_Digest compress ctype tables.1 tables.2 rf_win_init plaws ps s G' Hf) as Ef.
  destruct (law_create (C := dcache) 65536 ltac:(lia)) as (db & Hdb & Hr).
  destruct (process_all_records read write io dcache dlaws SHA1_Digest compress ctype Hd
    (p_data <$> ps) db ∅ (file_header ctype) [] Hr) as [db' Er].
  { intros k. rewrite lookup_empty. split; [by intros ?%elem_of_nil|by intros [? ?]]. }
  { intros s' Hs'. apply list_elem_of_fmap in Hs' as (p & -> & Hp). by apply F2. }
  assert (0 <= ctype < 256) as Htt by (destruct Ht as [-> | ->]; unfold COMPRESS_NONE, COMPRESS_GZIP; lia).
  destruct (decode_file read write io dcache dlaws SHA1_Digest compress uncompress ctype undef
    (p_data <$> ps) db Hdb Htt Hd) as (db2 & recs & E2 & D2).
  { rewrite <- Ep. apply Hin. }
  { rewrite <- Ep. exact Hc. }
  rewrite E2 in Er. injection Er as _ Er. subst recs.
  rewrite Ef, Ep. split; [|by rewrite D2, P1]. by exists db, db2.
Qed.

End Encode.

(** An input of two equal pieces and a third one. *)
Definition sample_input : list Z := replicate 64 0 ++ [1; 2; 3].

Definition sample_files : files_t := Files 0 true 67 3 4.

Lemma sample_pieces : parallel_pieces sample_read (fun _ => 0) true sample_input = [replicate 32 0; replicate 32 0; [1; 2; 3]].
Proof. vm_compute. reflexivity. Qed.

Lemma sample_input_ok : input_ok sample_read (fun _ => 0) sample_digest COMPRESS_GZIP sample_files true sample_input.
Proof.
  split.
  - split; cbn; lia || reflexivity.
  - apply Forall_app. split; [apply Forall_replicate; lia|]. repeat constructor; lia.
  - reflexivity.
  - rewrite sample_pieces. intros s Hs. change (piece_bound COMPRESS_GZIP) with 10000000.
    apply list_elem_of_In in Hs. destruct Hs as [<-|[<-|[<-|[]]]]; unfold len; cbn [length replicate]; lia.
  - rewrite sample_pieces. intros a b Ha Hb. apply list_elem_of_In in Ha, Hb.
    destruct Ha as [<-|[<-|[<-|[]]]], Hb as [<-|[<-|[<-|[]]]];
      first [intros _; exact eq_refl | vm_compute; discriminate].
Qed.

Lemma parallel_output_serial_witness :
  exists s0, parallel_start sample_read (fun _ => 0) COMPRESS_GZIP (fun _ _ => true) (fun _ => true) (fun _ => true) sample_files true sample_input = Ok s0 /\
    forall s, rtc (parallel_step sample_write (fun _ => 0) (fun _ => None) sample_digest sample_compress COMPRESS_GZIP (fun _ => true) (fun _ => true)) s0 s ->
      finished s ->
      (exists db db', cache_create (Cache := sample_cache) 65536 = Some db /\
        process_all (process_chunk (cache := sample_cache) sample_write sample_digest sample_compress COMPRESS_GZIP)
          (db, file_header COMPRESS_GZIP) [replicate 32 0; replicate 32 0; [1; 2; 3]] = Ok (db', file s)) /\
      Decode (cache := sample_cache) sample_read sample_write (fun _ => 0) sample_digest sample_uncompress (file s) = Ok sample_input.
Proof.
  rewrite <- sample_pieces.
  exact (parallel_output_serial sample_read sample_write (fun _ => 0) (fun _ => None) sample_digest sample_compress
    sample_uncompress COMPRESS_GZIP (fun _ _ => true) (fun _ => true) (fun _ => true) sample_files
    sample_io (conj (fun _ _ => eq_refl) (fun _ => eq_refl)) sample_zlib sample_digest_ok (or_intror eq_refl) true sample_input sample_input_ok).
Defined.

