(* ===== verification/Ring.v ===== *)
(** * The ring buffer of dedup (queue.h)

    A ring buffer of [size] slots of which one stays unused.  What its clients rely
    on is the interface [Fifo]: a bounded first-in first-out queue. *)
From S2P Require Import Prelude.

(** ** The interface *)
Class Fifo (B A : Type) := {
  fifo_isEmpty : B -> bool;
  fifo_isFull : B -> bool;
  fifo_remove : B -> option A * B;      (* [None] is NULL *)
  fifo_insert : B -> A -> Z * B
}.

(** A buffer holds at most [fifo_cap] items and gives them back in order. *)
Class FifoLaws {B A} (F : Fifo B A) := {
  fifo_ok : B -> Prop;
  fifo_items : B -> list A;
  fifo_cap : B -> nat;
  law_isEmpty : forall b, fifo_ok b -> fifo_isEmpty b = true <-> fifo_items b = [];
  law_isFull : forall b, fifo_ok b -> fifo_isFull b = true <-> length (fifo_items b) = fifo_cap b;
  law_bound : forall b, fifo_ok b -> (length (fifo_items b) <= fifo_cap b)%nat;
  law_insert : forall b x, fifo_ok b -> fifo_isFull b = false ->
    exists b', fifo_insert b x = (0, b') /\ fifo_ok b' /\ fifo_items b' = fifo_items b ++ [x] /\ fifo_cap b' = fifo_cap b;
  law_remove : forall b x l, fifo_ok b -> fifo_items b = x :: l ->
    exists b', fifo_remove b = (Some x, b') /\ fifo_ok b' /\ fifo_items b' = l /\ fifo_cap b' = fifo_cap b
}.

(** ** The implementation *)
Section Ring.
Context {A : Type}.

Record ringbuffer_t := Ring { head : Z; tail : Z; data : Z -> option A; size : Z }.

(** [undef] is what [malloc] returns. *)
Definition ringbuffer_init (undef : Z -> option A) (size : Z) : ringbuffer_t :=
  {| head := 0; tail := 0; data := undef; size := u64 (size + 1) |}.

Definition ringbuffer_isEmpty (buf : ringbuffer_t) : bool := tail buf =? head buf.

(** [head] and [tail] are [int]s, and [size] a [size_t] to whose type the sum is converted. *)
Definition ringbuffer_isFull (buf : ringbuffer_t) : bool :=
  u64 (head buf) =? u64 (s32 (tail buf - 1) + size buf) mod size buf.

Definition ringbuffer_remove (buf : ringbuffer_t) : option A * ringbuffer_t :=
  if ringbuffer_isEmpty buf then (None, buf)
  else
    let ptr := data buf (tail buf) in
    let tail := s32 (tail buf + 1) in
    let tail := if u64 tail >=? size buf then 0 else tail in
    (ptr, {| head := head buf; tail := tail; data := data buf; size := size buf |}).

Definition ringbuffer_peek (buf : ringbuffer_t) : option A :=
  if ringbuffer_isEmpty buf then None else data buf (tail buf).

Definition ringbuffer_insert (buf : ringbuffer_t) (ptr : option A) : Z * ringbuffer_t :=
  if ringbuffer_isFull buf then (-1, buf)
  else
    let data := fun i => if i =? head buf then ptr else data buf i in
    let head := s32 (head buf + 1) in
    let head := if u64 head =? size buf then 0 else head in
    (0, {| head := head; tail := tail buf; data := data; size := size buf |}).

(** The number of items and their slots, from the oldest on. *)
Definition used (buf : ringbuffer_t) : Z := (head buf - tail buf) mod size buf.
Definition slot (buf : ringbuffer_t) (i : Z) : Z := (tail buf + i) mod size buf.
Definition items (buf : ringbuffer_t) : list A := omap (fun i => data buf (slot buf i)) (seqZ 0 (used buf)).

Record ring_ok (buf : ringbuffer_t) : Prop := {
  ring_size : 1 <= size buf < 2 ^ 31;
  ring_head : 0 <= head buf < size buf;
  ring_tail : 0 <= tail buf < size buf;
  ring_some : forall i, 0 <= i < used buf -> is_Some (data buf (slot buf i))
}.

Lemma used_range buf : ring_ok buf -> 0 <= used buf < size buf.
Proof. intros [R _ _ _]. apply Z.mod_pos_bound. lia. Qed.

Lemma used_cases buf : ring_ok buf ->
  used buf = if tail buf <=? head buf then head buf - tail buf else head buf - tail buf + size buf.
Proof.
  intros [R H T _]. unfold used. destruct (Z.leb_spec (tail buf) (head buf)).
  - apply Z.mod_small. lia.
  - rewrite <- (Z.mod_add _ 1) by lia. rewrite Z.mod_small; lia.
Qed.

Lemma slot_cases buf i : ring_ok buf -> 0 <= i < size buf ->
  slot buf i = if tail buf + i <? size buf then tail buf + i else tail buf + i - size buf.
Proof.
  intros [R H T _] Hi. unfold slot. destruct (Z.ltb_spec (tail buf + i) (size buf)).
  - apply Z.mod_small. lia.
  - rewrite <- (Z.mod_add _ (-1)) by lia. rewrite Z.mod_small; lia.
Qed.

Lemma omap_some {B C} (f : B -> option C) l : Forall (fun x => is_Some (f x)) l -> length (omap f l) = length l.
Proof. induction 1 as [|x l [y Hy] Hl IH]; [done|]. cbn. rewrite Hy. cbn. by rewrite IH. Qed.

Lemma items_length buf : ring_ok buf -> Z.of_nat (length (items buf)) = used buf.
Proof.
  intros O. unfold items. rewrite omap_some.
  - rewrite length_seqZ. pose proof (used_range buf O). lia.
  - apply list.Forall_forall. intros i Hi. apply elem_of_seqZ in Hi. apply (ring_some _ O). lia.
Qed.

Lemma isEmpty_spec buf : ring_ok buf -> ringbuffer_isEmpty buf = true <-> items buf = [].
Proof.
  intros O. unfold ringbuffer_isEmpty. pose proof (items_length buf O) as HL. rewrite (used_cases buf O) in HL.
  destruct O as [R H T _]. rewrite Z.eqb_eq. split.
  - intros E. apply nil_length_inv. destruct (Z.leb_spec (tail buf) (head buf)); lia.
  - intros E. rewrite E in HL. cbn in HL. destruct (Z.leb_spec (tail buf) (head buf)); lia.
Qed.

Lemma isFull_spec buf : ring_ok buf -> ringbuffer_isFull buf = true <-> length (items buf) = Z.to_nat (size buf - 1).
Proof.
  intros O. unfold ringbuffer_isFull. pose proof (items_length buf O) as HL. rewrite (used_cases buf O) in HL.
  destruct O as [R H T _]. rewrite sw_small by lia. rewrite !uw_small by lia. rewrite Z.eqb_eq.
  assert ((tail buf - 1 + size buf) mod size buf = if tail buf =? 0 then size buf - 1 else tail buf - 1) as ->.
  { destruct (Z.eqb_spec (tail buf) 0) as [->|]; [rewrite Z.mod_small; lia|].
    rewrite <- (Z.mod_add _ (-1)) by lia. rewrite Z.mod_small; lia. }
  destruct (Z.eqb_spec (tail buf) 0); destruct (Z.leb_spec (tail buf) (head buf)); lia.
Qed.

Lemma omap_app_ {B C} (f : B -> option C) l k : omap f (l ++ k) = omap f l ++ omap f k.
Proof. induction l as [|x l IH]; [done|]. cbn. rewrite IH. by destruct (f x). Qed.

Lemma omap_ext_ {B C} (f g : B -> option C) l : Forall (fun x => f x = g x) l -> omap f l = omap g l.
Proof. induction 1 as [|x l E Hl IH]; [done|]. cbn. by rewrite E, IH. Qed.

Lemma insert_spec buf x : ring_ok buf -> ringbuffer_isFull buf = false ->
  exists b, ringbuffer_insert buf (Some x) = (0, b) /\ ring_ok b /\ items b = items buf ++ [x] /\ size b = size buf.
Proof.
  intros O Hf. unfold ringbuffer_insert. rewrite Hf. eexists. split; [reflexivity|].
  assert (used buf < size buf - 1) as Hu.
  { pose proof (isFull_spec buf O) as HF. rewrite Hf in HF. pose proof (items_length buf O) as HL.
    pose proof (used_range buf O). destruct (Z.eq_dec (used buf) (size buf - 1)); [|lia].
    assert (length (items buf) = Z.to_nat (size buf - 1)) as E by lia. by apply HF in E. }
  pose proof O as [R H T S]. pose proof (used_cases buf O) as Hc. pose proof (used_range buf O) as Hr.
  rewrite sw_small by lia. rewrite uw_small by lia.
  set (h := if head buf + 1 =? size buf then 0 else head buf + 1). set (b := Ring _ _ _ _).
  assert (0 <= h < size buf) as Hh by (subst h; destruct (Z.eqb_spec (head buf + 1) (size buf)); lia).
  assert (forall i, 0 <= i < size buf -> slot b i = slot buf i) as Hs by done.
  assert (used b = used buf + 1) as Ub.
  { unfold used at 1. subst b. cbn [head tail size]. rewrite Hc. subst h.
    destruct (Z.eqb_spec (head buf + 1) (size buf)); destruct (Z.leb_spec (tail buf) (head buf)); try lia.
    - rewrite <- (Z.mod_add _ 1) by lia. destruct (Z.eq_dec (tail buf) 0); [lia|]. rewrite Z.mod_small; lia.
    - rewrite Z.mod_small; lia.
    - rewrite <- (Z.mod_add _ 1) by lia. rewrite Z.mod_small; lia. }
  assert (slot buf (used buf) = head buf) as Hslot.
  { rewrite slot_cases by (done || lia). rewrite Hc.
    destruct (Z.leb_spec (tail buf) (head buf)); case_match; lia. }
  assert (forall i, 0 <= i < used buf -> data b (slot b i) = data buf (slot buf i)) as Hd.
  { intros i Hi. rewrite Hs by lia. subst b. cbn [data].
    destruct (Z.eqb_spec (slot buf i) (head buf)) as [E|]; [exfalso|done].
    rewrite slot_cases in E by (done || lia).
    destruct (Z.leb_spec (tail buf) (head buf)); destruct (Z.ltb_spec (tail buf + i) (size buf)); lia. }
  assert (data b (slot b (used buf)) = Some x) as Hx.
  { rewrite Hs, Hslot by lia. subst b. cbn [data]. by rewrite Z.eqb_refl. }
  split; [|split; [|done]].
  - split; [done|exact Hh|done|]. rewrite Ub. intros i Hi. destruct (Z.eq_dec i (used buf)) as [->|].
    + rewrite Hx. by eexists.
    + rewrite Hd by lia. apply S. lia.
  - unfold items. rewrite Ub.
    replace (used buf + 1) with (Z.of_nat (Datatypes.S (Z.to_nat (used buf)))) by lia.
    rewrite seqZ_S, omap_app_. replace (Z.of_nat (Z.to_nat (used buf))) with (used buf) by lia.
    cbn [omap list_omap]. rewrite Z.add_0_l, Hx. f_equal. apply omap_ext_, list.Forall_forall.
    intros i Hi. apply elem_of_seqZ in Hi. apply Hd. lia.
Qed.

Lemma remove_spec buf x l : ring_ok buf -> items buf = x :: l ->
  exists b, ringbuffer_remove buf = (Some x, b) /\ ring_ok b /\ items b = l /\ size b = size buf.
Proof.
  intros O Hi. unfold ringbuffer_remove.
  destruct (ringbuffer_isEmpty buf) eqn:Ee; [apply isEmpty_spec in Ee; [congruence|done]|].
  pose proof (items_length buf O) as HL. rewrite Hi in HL. cbn [length] in HL.
  pose proof O as [R H T S]. pose proof (used_cases buf O) as Hc. pose proof (used_range buf O) as Hr.
  assert (0 < used buf) as Hu by lia.
  rewrite sw_small by lia. rewrite uw_small by lia.
  set (t := if tail buf + 1 >=? size buf then 0 else tail buf + 1). set (b := Ring _ _ _ _).
  assert (0 <= t < size buf) as Htr by (subst t; destruct (Z.geb_spec (tail buf + 1) (size buf)); lia).
  assert (used b = used buf - 1) as Ub.
  { unfold used at 1. subst b. cbn [head tail size]. rewrite Hc in *. subst t.
    destruct (Z.geb_spec (tail buf + 1) (size buf)); destruct (Z.leb_spec (tail buf) (head buf)); try lia.
    - rewrite Z.mod_small; lia.
    - rewrite Z.mod_small; lia.
    - rewrite <- (Z.mod_add _ 1) by lia. rewrite Z.mod_small; lia. }
  assert (forall i, 0 <= i < used b -> data b (slot b i) = data buf (slot buf (i + 1))) as Hd.
  { intros i Hi'. change (data b) with (data buf). f_equal. unfold slot. subst b. cbn [tail size]. subst t.
    destruct (Z.geb_spec (tail buf + 1) (size buf)).
    - rewrite <- (Z.mod_add (0 + i) 1) by lia. f_equal. lia.
    - f_equal. lia. }
  unfold items in Hi. rewrite seqZ_cons in Hi by lia. cbn [omap list_omap] in Hi.
  assert (slot buf 0 = tail buf) as Hs0 by (unfold slot; rewrite Z.add_0_r; apply Z.mod_small; lia).
  destruct (S 0) as [y Ey]; [lia|]. rewrite Ey in Hi. injection Hi as -> Hi. rewrite Hs0 in Ey. rewrite Ey.
  exists b. split; [done|]. split; [|split; [|done]].
  - split; [done|done|exact Htr|]. intros i Hi'. rewrite Hd by done. apply S. lia.
  - rewrite <- Hi. unfold items. rewrite Ub. replace (Z.succ 0) with (1 + 0) by lia.
    replace (Z.pred (used buf)) with (used buf - 1) by lia. rewrite <- (fmap_add_seqZ 1 0).
    set (l0 := seqZ 0 (used buf - 1)).
    assert (Forall (fun i => 0 <= i < used buf - 1) l0) as HF.
    { apply list.Forall_forall. intros i Hi'. apply elem_of_seqZ in Hi'. lia. }
    clearbody l0. clear Hi. induction HF as [|i l0 Hi' HF IH]; [done|].
    cbn [fmap list_fmap omap list_omap]. rewrite Hd, (Z.add_comm 1 i) by lia.
    destruct (data buf (slot buf (i + 1))); [f_equal|]; exact IH.
Qed.
End Ring.
Arguments ringbuffer_t : clear implicits.

#[export] Instance ring_fifo {A} : Fifo (ringbuffer_t A) A := {|
  fifo_isEmpty := ringbuffer_isEmpty;
  fifo_isFull := ringbuffer_isFull;
  fifo_remove := ringbuffer_remove;
  fifo_insert buf x := ringbuffer_insert buf (Some x)
|}.

#[export, refine] Instance ring_fifo_laws {A} : FifoLaws (@ring_fifo A) := {|
  fifo_ok := ring_ok;
  fifo_items := items;
  fifo_cap buf := Z.to_nat (size buf - 1)
|}.
Proof.
  - exact isEmpty_spec.
  - exact isFull_spec.
  - intros b O. pose proof (items_length b O). pose proof (used_range b O). lia.
  - intros b x O Hf. destruct (insert_spec b x O Hf) as (b' & E & O' & I & Z'). exists b'. by rewrite Z'.
  - intros b x l O I. destruct (remove_spec b x l O I) as (b' & E & O' & I' & Z'). exists b'. by rewrite Z'.
Defined.

(** ** Any sequence of calls *)
Inductive ring_op (A : Type) := OpPut (x : A) | OpTake | OpPeek.
Arguments OpPut {A} x.
Arguments OpTake {A}.
Arguments OpPeek {A}.

(** The result of an insertion, or the pointer a removal or a look returns. *)
Definition ring_step {A} (op : ring_op A) (b : ringbuffer_t A) : (Z + option A) * ringbuffer_t A :=
  match op with
  | OpPut x => let '(r, b) := ringbuffer_insert b (Some x) in (inl r, b)
  | OpTake => let '(p, b) := ringbuffer_remove b in (inr p, b)
  | OpPeek => (inr (ringbuffer_peek b), b)
  end.

(** The specification: a list of at most [n] items. *)
Definition queue_step {A} (n : nat) (op : ring_op A) (l : list A) : (Z + option A) * list A :=
  match op with
  | OpPut x => if (length l <? n)%nat then (inl 0, l ++ [x]) else (inl (-1), l)
  | OpTake => match l with [] => (inr None, []) | x :: l => (inr (Some x), l) end
  | OpPeek => (inr (hd_error l), l)
  end.

Fixpoint run_ops {S O R} (step : O -> S -> R * S) (ops : list O) (s : S) : list R * S :=
  match ops with
  | [] => ([], s)
  | op :: ops => let '(r, s) := step op s in let '(rs, s) := run_ops step ops s in (r :: rs, s)
  end.

Section Spec.
Context {A : Type}.

Lemma init_ok (undef : Z -> option A) n : 0 <= n < 2 ^ 31 - 1 ->
  ring_ok (ringbuffer_init undef n) /\ items (ringbuffer_init undef n) = [] /\ size (ringbuffer_init undef n) = n + 1.
Proof.
  intros Hn. unfold ringbuffer_init, items, used, slot. rewrite uw_small by lia. cbn [size head tail].
  change (0 - 0) with 0. rewrite Z.mod_0_l by lia. split; [|done].
  split; cbn [size head tail]; try lia. intros i. unfold used. cbn [head tail size]. change (0 - 0) with 0.
  rewrite Z.mod_0_l by lia. lia.
Qed.

Lemma ring_step_refines op (b : ringbuffer_t A) : ring_ok b ->
  exists b', ring_step op b = ((queue_step (Z.to_nat (size b - 1)) op (items b)).1, b') /\ ring_ok b' /\
    items b' = (queue_step (Z.to_nat (size b - 1)) op (items b)).2 /\ size b' = size b.
Proof.
  intros O. destruct op as [x| |]; cbn [ring_step queue_step].
  - destruct (ringbuffer_isFull b) eqn:Ef.
    + unfold ringbuffer_insert. rewrite Ef. apply (isFull_spec b O) in Ef. rewrite Ef, Nat.ltb_irrefl. by exists b.
    + destruct (insert_spec b x O Ef) as (b' & -> & O' & I' & S').
      assert (length (items b) < Z.to_nat (size b - 1))%nat as Hl.
      { pose proof (items_length b O). pose proof (used_range b O).
        destruct (Nat.eq_dec (length (items b)) (Z.to_nat (size b - 1))) as [E|]; [|lia].
        apply (isFull_spec b O) in E. congruence. }
      apply Nat.ltb_lt in Hl. rewrite Hl. by exists b'.
  - destruct (items b) as [|x l] eqn:Ei.
    + exists b. unfold ringbuffer_remove. apply (isEmpty_spec b O) in Ei as Ee. by rewrite Ee.
    + destruct (remove_spec b x l O Ei) as (b' & -> & O' & I' & S'). by exists b'.
  - exists b. split; [|done]. f_equal. f_equal. unfold ringbuffer_peek.
    destruct (items b) as [|x l] eqn:Ei.
    + apply (isEmpty_spec b O) in Ei as Ee. by rewrite Ee.
    + destruct (ringbuffer_isEmpty b) eqn:Ee; [apply (isEmpty_spec b O) in Ee; congruence|].
      destruct (remove_spec b x l O Ei) as (b' & Er & _). unfold ringbuffer_remove in Er. rewrite Ee in Er.
      injection Er as -> _. done.
Qed.

Lemma ring_run_ops_refines ops : forall b : ringbuffer_t A, ring_ok b ->
  exists b', run_ops ring_step ops b = ((run_ops (queue_step (Z.to_nat (size b - 1))) ops (items b)).1, b') /\
    ring_ok b' /\ items b' = (run_ops (queue_step (Z.to_nat (size b - 1))) ops (items b)).2.
Proof.
  induction ops as [|op ops IH]; intros b O; cbn [run_ops]; [by exists b|].
  destruct (ring_step_refines op b O) as (b1 & -> & O1 & I1 & S1).
  destruct (queue_step _ op (items b)) as [r l]. cbn [fst snd] in *. subst l.
  destruct (IH b1 O1) as (b2 & -> & O2 & I2). rewrite S1 in *.
  destruct (run_ops _ ops (items b1)) as [rs l]. cbn [fst snd] in *. by exists b2.
Qed.

(** whatever is inserted into a ring buffer made for [n] items, removed from it and
    looked at, the results are those of a list of at most [n] items: an insertion is
    refused exactly when [n] items are in, the items come back in the order they
    went in, and NULL is returned exactly when none is left. *)
Theorem ringbuffer_refines_queue (undef : Z -> option A) n ops : 0 <= n < 2 ^ 31 - 1 ->
  exists b, run_ops ring_step ops (ringbuffer_init undef n) = ((run_ops (queue_step (Z.to_nat n)) ops []).1, b) /\
    items b = (run_ops (queue_step (Z.to_nat n)) ops []).2.
Proof.
  intros Hn. destruct (init_ok undef n Hn) as (O & I & S).
  destruct (ring_run_ops_refines ops _ O) as (b & E & _ & Ei). rewrite I, S in *.
  replace (n + 1 - 1) with n in * by lia. by exists b.
Qed.
End Spec.

Lemma ringbuffer_refines_queue_witness :
  exists b, run_ops ring_step [OpPut 1; OpPut 2; OpPut 3; OpTake; OpPut 4; OpPeek; OpTake; OpTake; OpTake] (ringbuffer_init (fun _ => Some 9) 2) =
      ([inl 0; inl 0; inl (-1); inr (Some 1); inl 0; inr (Some 2); inr (Some 2); inr (Some 4); inr None], b) /\ items b = [].
Proof.
  exact (ringbuffer_refines_queue (fun _ => Some 9) 2
    [OpPut 1; OpPut 2; OpPut 3; OpTake; OpPut 4; OpPeek; OpTake; OpTake; OpTake] ltac:(lia)).
Defined.
