(* ===== verification/Queue.v ===== *)
(** * The synchronised queues of dedup (queue.c, and the threads of pthread/encoder.c)

    Producers put items into a bounded queue, consumers take them out, under one mutex
    and two condition variables.  A step of the system is a critical section, or what
    a thread does to its own buffer between two of them.  The theorems are about any
    implementation of [Fifo]; the ring buffer is one. *)
From stdpp Require Import relations.
From S2P Require Import Prelude Ring.

Section Queue.
Context {B A : Type} {F : Fifo B A}.

Record queue_t := Queue { buf : B; nProducers : Z; nTerminated : Z }.

Definition queue_init (b : B) (nProducers : Z) : queue_t :=
  {| buf := b; nProducers := nProducers; nTerminated := 0 |}.

(** [None] is a failed assertion. *)
Definition queue_isTerminated (que : queue_t) : option bool :=
  if nTerminated que <=? nProducers que then Some (nTerminated que =? nProducers que) else None.

(** The queue, and whether [notEmpty] is broadcast. *)
Definition queue_terminate (que : queue_t) : option (queue_t * bool) :=
  let que := {| buf := buf que; nProducers := nProducers que; nTerminated := nTerminated que + 1 |} in
  if nTerminated que <=? nProducers que then
    t ← queue_isTerminated que;
    Some (que, t)
  else None.

(** The loops that move up to [limit] items from one buffer to another: the number of
    items moved, and the buffers. *)
Fixpoint move_items (limit : nat) (from to : B) : option (Z * B * B) :=
  match limit with
  | O => Some (0, from, to)
  | S limit =>
      if negb (fifo_isEmpty from) && negb (fifo_isFull to) then
        let '(temp, from) := fifo_remove from in
        match temp with
        | None => None
        | Some x =>
            let '(rv, to) := fifo_insert to x in
            if rv =? 0 then
              '(i, from, to) ← move_items limit from to; Some (i + 1, from, to)
            else None
        end
      else Some (0, from, to)
  end.

(** What a thread that holds the mutex does: wait, or leave with a result, the queue
    and the thread's buffer. *)
Inductive outcome := Wait | Leave (r : Z) (que : queue_t) (b : B).

Definition queue_dequeue (limit : nat) (que : queue_t) (b : B) : option outcome :=
  if fifo_isEmpty (buf que) then
    t ← queue_isTerminated que;
    if negb t then Some Wait else Some (Leave (-1) que b)
  else
    '(i, q, b) ← move_items limit (buf que) b;
    Some (Leave i {| buf := q; nProducers := nProducers que; nTerminated := nTerminated que |} b).

(** [first] tells the first test of the condition from those after a wait. *)
Definition queue_enqueue (limit : nat) (first : bool) (que : queue_t) (b : B) : option outcome :=
  if first && negb (match queue_isTerminated que with Some t => negb t | None => false end) then None
  else if fifo_isFull (buf que) then Some Wait
  else
    '(i, b, q) ← move_items limit b (buf que);
    Some (Leave i {| buf := q; nProducers := nProducers que; nTerminated := nTerminated que |} b).

(** ** The threads *)

(** A producer computes the items [todo] one after the other, collects them in
    [send_buf], sends a full buffer, and at the end what is left. *)
Inductive p_pc := PRun | PSend | PAsleep | PWoken | PDone.
Record producer := Producer { todo : list A; send_buf : B; p_at : p_pc }.

(** A consumer takes the items it has received from [recv_buf]; [got] is what it has
    taken. *)
Inductive c_pc := CRun | CAsleep | CWoken | CDone.
Record consumer := Consumer { got : list A; recv_buf : B; c_at : c_pc }.

Record system := System { que : queue_t; producers : list producer; consumers : list consumer }.

Context (send_limit recv_limit : nat).

(** [pthread_cond_signal] wakes one of the threads that wait, if there is any. *)
Definition p_asleep (p : producer) : bool := match p_at p with PAsleep => true | _ => false end.
Definition p_rouse (p : producer) : producer :=
  match p_at p with PAsleep => Producer (todo p) (send_buf p) PWoken | _ => p end.
Definition c_asleep (c : consumer) : bool := match c_at c with CAsleep => true | _ => false end.
Definition c_rouse (c : consumer) : consumer :=
  match c_at c with CAsleep => Consumer (got c) (recv_buf c) CWoken | _ => c end.

Inductive signal {T : Type} (asleep : T -> bool) (rouse : T -> T) : list T -> list T -> Prop :=
  | signal_one t l1 l2 : asleep t = true -> signal asleep rouse (l1 ++ t :: l2) (l1 ++ rouse t :: l2)
  | signal_none l : Forall (fun t => asleep t = false) l -> signal asleep rouse l l.

Inductive qstep : system -> system -> Prop :=
  | q_produce q p1 p2 cs x t b b' : fifo_insert b x = (0, b') ->
      qstep (System q (p1 ++ Producer (x :: t) b PRun :: p2) cs)
        (System q (p1 ++ Producer t b' (if fifo_isFull b' then PSend else PRun) :: p2) cs)
  | q_drain q p1 p2 cs b : fifo_isEmpty b = false ->
      qstep (System q (p1 ++ Producer [] b PRun :: p2) cs) (System q (p1 ++ Producer [] b PSend :: p2) cs)
  | q_send q p1 p2 cs first t b i q' b' cs' :
      queue_enqueue send_limit first q b = Some (Leave i q' b') -> 1 <= i -> signal c_asleep c_rouse cs cs' ->
      qstep (System q (p1 ++ Producer t b (if first then PSend else PWoken) :: p2) cs)
        (System q' (p1 ++ Producer t b' PRun :: p2) cs')
  | q_send_wait q p1 p2 cs first t b :
      queue_enqueue send_limit first q b = Some Wait ->
      qstep (System q (p1 ++ Producer t b (if first then PSend else PWoken) :: p2) cs)
        (System q (p1 ++ Producer t b PAsleep :: p2) cs)
  | q_terminate q p1 p2 cs b q' (broadcast : bool) :
      fifo_isEmpty b = true -> queue_terminate q = Some (q', broadcast) ->
      qstep (System q (p1 ++ Producer [] b PRun :: p2) cs)
        (System q' (p1 ++ Producer [] b PDone :: p2) (if broadcast then c_rouse <$> cs else cs))
  | q_consume q ps c1 c2 g x b b' : fifo_isEmpty b = false -> fifo_remove b = (Some x, b') ->
      qstep (System q ps (c1 ++ Consumer g b CRun :: c2)) (System q ps (c1 ++ Consumer (g ++ [x]) b' CRun :: c2))
  | q_receive q ps c1 c2 g b (first : bool) i q' b' ps' :
      fifo_isEmpty b = true -> queue_dequeue recv_limit q b = Some (Leave i q' b') -> 1 <= i ->
      signal p_asleep p_rouse ps ps' ->
      qstep (System q ps (c1 ++ Consumer g b (if first then CRun else CWoken) :: c2))
        (System q' ps' (c1 ++ Consumer g b' CRun :: c2))
  | q_receive_wait q ps c1 c2 g b (first : bool) :
      fifo_isEmpty b = true -> queue_dequeue recv_limit q b = Some Wait ->
      qstep (System q ps (c1 ++ Consumer g b (if first then CRun else CWoken) :: c2))
        (System q ps (c1 ++ Consumer g b CAsleep :: c2))
  | q_exit q ps c1 c2 g b (first : bool) i q' b' :
      fifo_isEmpty b = true -> queue_dequeue recv_limit q b = Some (Leave i q' b') -> i < 0 ->
      qstep (System q ps (c1 ++ Consumer g b (if first then CRun else CWoken) :: c2))
        (System q' ps (c1 ++ Consumer g b' CDone :: c2)).

(** A thread may also be woken without a signal. *)
Inductive spurious : system -> system -> Prop :=
  | spurious_producer q p1 p2 cs t b :
      spurious (System q (p1 ++ Producer t b PAsleep :: p2) cs) (System q (p1 ++ Producer t b PWoken :: p2) cs)
  | spurious_consumer q ps c1 c2 g b :
      spurious (System q ps (c1 ++ Consumer g b CAsleep :: c2)) (System q ps (c1 ++ Consumer g b CWoken :: c2)).

Definition all_done (s : system) : Prop :=
  Forall (fun p => p_at p = PDone) (producers s) /\ Forall (fun c => c_at c = CDone) (consumers s).

(** ** Moving items *)
Context {L : FifoLaws F}.

Lemma nonempty_b b : fifo_ok b -> fifo_isEmpty b = false <-> fifo_items b <> [].
Proof.
  intros O. pose proof (law_isEmpty b O) as H. destruct (fifo_isEmpty b).
  - split; [done|]. intros Hn. exfalso. by apply Hn, H.
  - split; [|done]. intros _ E. by apply H in E.
Qed.

Lemma notfull_b b : fifo_ok b -> fifo_isFull b = false <-> (length (fifo_items b) < fifo_cap b)%nat.
Proof.
  intros O. pose proof (law_isFull b O) as H. pose proof (law_bound b O). destruct (fifo_isFull b).
  - split; [done|]. assert (length (fifo_items b) = fifo_cap b) by by apply H. lia.
  - split; [|done]. intros _. destruct (Nat.eq_dec (length (fifo_items b)) (fifo_cap b)) as [E|]; [|lia].
    by apply H in E.
Qed.

Lemma move_items_spec limit : forall from to, fifo_ok from -> fifo_ok to ->
  exists l from' to', move_items limit from to = Some (Z.of_nat (length l), from', to') /\
    fifo_ok from' /\ fifo_ok to' /\ fifo_cap from' = fifo_cap from /\ fifo_cap to' = fifo_cap to /\
    fifo_items from = l ++ fifo_items from' /\ fifo_items to' = fifo_items to ++ l /\
    ((0 < limit)%nat -> fifo_items from <> [] -> (length (fifo_items to) < fifo_cap to)%nat -> l <> []).
Proof.
  induction limit as [|limit IH]; intros from to Of Ot; cbn [move_items].
  { exists [], from, to. rewrite app_nil_r. repeat (split; [done|]). lia. }
  destruct (fifo_isEmpty from) eqn:Ee; cbn [negb andb].
  { exists [], from, to. rewrite app_nil_r. repeat (split; [done|]). intros _ Hn. by apply law_isEmpty in Ee. }
  destruct (fifo_isFull to) eqn:Ef; cbn [negb].
  { exists [], from, to. rewrite app_nil_r. repeat (split; [done|]). intros _ _ Hl.
    apply (law_isFull to Ot) in Ef. lia. }
  apply nonempty_b in Ee; [|done]. destruct (fifo_items from) as [|x r] eqn:Ei; [done|].
  destruct (law_remove from x r Of Ei) as (from1 & -> & Of1 & I1 & C1).
  destruct (law_insert to x Ot Ef) as (to1 & -> & Ot1 & J1 & D1). cbn [Z.eqb].
  destruct (IH from1 to1 Of1 Ot1) as (l & from' & to' & -> & H1 & H2 & H3 & H4 & H5 & H6 & _). cbn [mbind option_bind].
  exists (x :: l), from', to'. split; [do 2 f_equal; cbn [length]; f_equal; lia|].
  split; [done|]. split; [done|]. split; [congruence|]. split; [congruence|].
  split; [cbn; by rewrite <- H5, I1|]. split; [|done]. by rewrite H6, J1, <- app_assoc.
Qed.

(** ** The invariant *)
Definition p_items (p : producer) : list A := fifo_items (send_buf p) ++ todo p.
Definition c_items (c : consumer) : list A := got c ++ fifo_items (recv_buf c).

Definition p_ok (p : producer) : Prop :=
  fifo_ok (send_buf p) /\ (1 <= fifo_cap (send_buf p))%nat /\
  match p_at p with
  | PRun => (length (fifo_items (send_buf p)) < fifo_cap (send_buf p))%nat
  | PDone => p_items p = []
  | _ => fifo_items (send_buf p) <> []
  end.

Definition c_ok (c : consumer) : Prop :=
  fifo_ok (recv_buf c) /\ (1 <= fifo_cap (recv_buf c))%nat /\
  match c_at c with CRun => True | _ => fifo_items (recv_buf c) = [] end.

Definition done_count (ps : list producer) : nat :=
  sum_list_with (fun p => match p_at p with PDone => 1 | _ => 0 end)%nat ps.

Definition c_awake (c : consumer) : Prop := c_at c = CRun \/ c_at c = CWoken.

Record qinv (all : list A) (s : system) : Prop := {
  z_buf : fifo_ok (buf (que s));
  z_cap : (1 <= fifo_cap (buf (que s)))%nat;
  z_producers : Forall p_ok (producers s);
  z_consumers : Forall c_ok (consumers s);
  z_count : nProducers (que s) = Z.of_nat (length (producers s));
  z_done : nTerminated (que s) = Z.of_nat (done_count (producers s));
  (* every item is in one place *)
  z_items : concat (p_items <$> producers s) ++ fifo_items (buf (que s)) ++ concat (c_items <$> consumers s) ≡ₚ all;
  (* no wakeup of a producer is lost *)
  z_notFull : forall p, p ∈ producers s -> p_at p = PAsleep ->
    fifo_items (buf (que s)) <> [] \/ exists p', p' ∈ producers s /\ p_at p' = PWoken;
  (* nor of a consumer *)
  z_notEmpty : forall c, c ∈ consumers s -> c_at c = CAsleep ->
    nTerminated (que s) < nProducers (que s) /\
    (fifo_items (buf (que s)) = [] \/ exists c', c' ∈ consumers s /\ c_awake c');
  z_exit : forall c, c ∈ consumers s -> c_at c = CDone ->
    nTerminated (que s) = nProducers (que s) /\ fifo_items (buf (que s)) = []
}.

Lemma done_count_app l k : done_count (l ++ k) = (done_count l + done_count k)%nat.
Proof. unfold done_count. apply sum_list_with_app. Qed.

Lemma done_count_cons p l : done_count (p :: l) = ((match p_at p with PDone => 1 | _ => 0 end) + done_count l)%nat.
Proof. reflexivity. Qed.

Lemma done_count_le l : (done_count l <= length l)%nat.
Proof. induction l as [|p l IH]; [done|]. rewrite done_count_cons. cbn [length]. destruct (p_at p); lia. Qed.

Lemma done_count_all l : done_count l = length l <-> Forall (fun p => p_at p = PDone) l.
Proof.
  induction l as [|p l IH]; [done|]. rewrite done_count_cons, list.Forall_cons. cbn [length].
  pose proof (done_count_le l). rewrite <- IH.
  destruct (p_at p); (split; [intros E; (exfalso; lia) || (split; [done|lia])|intros [? ?]; (done || lia)]).
Qed.

(** A producer that has not returned keeps the queue open. *)
Lemma not_terminated all q p1 p p2 cs : qinv all (System q (p1 ++ p :: p2) cs) -> p_at p <> PDone ->
  nTerminated q < nProducers q.
Proof.
  intros I Hp. pose proof (z_count _ _ I) as E1. pose proof (z_done _ _ I) as E2. cbn [que producers] in *.
  rewrite done_count_app, done_count_cons in E2. rewrite length_app in E1. cbn [length] in E1.
  pose proof (done_count_le p1). pose proof (done_count_le p2). destruct (p_at p); try done; lia.
Qed.

(** ** Waking threads *)
Lemma c_rouse_ok c : c_ok c -> c_ok (c_rouse c).
Proof. unfold c_ok, c_rouse. destruct c as [g b []]; cbn; tauto. Qed.
Lemma c_rouse_items c : c_items (c_rouse c) = c_items c.
Proof. unfold c_items, c_rouse. by destruct c as [g b []]. Qed.
Lemma p_rouse_ok p : p_ok p -> p_ok (p_rouse p).
Proof. unfold p_ok, p_rouse. destruct p as [t b []]; cbn; tauto. Qed.
Lemma p_rouse_items p : p_items (p_rouse p) = p_items p.
Proof. unfold p_items, p_rouse. by destruct p as [t b []]. Qed.

Lemma signal_consumers l l' : signal c_asleep c_rouse l l' -> Forall c_ok l ->
  Forall c_ok l' /\ concat (c_items <$> l') = concat (c_items <$> l) /\ length l' = length l /\
  (forall c, c ∈ l' -> c_at c = CAsleep -> exists c', c' ∈ l' /\ c_awake c') /\
  (forall c, c ∈ l' -> c_at c = CDone -> c ∈ l).
Proof.
  intros H HF. destruct H as [t l1 l2 Ht|l Hl].
  - apply Forall_app in HF as [H1 H2]. apply list.Forall_cons in H2 as [H2 H3].
    split; [apply Forall_app; split; [done|]; constructor; [by apply c_rouse_ok|done]|].
    split; [rewrite !fmap_app, !fmap_cons, c_rouse_items; done|]. split; [by rewrite !length_app|].
    assert (c_at (c_rouse t) = CWoken) as E by (unfold c_asleep in Ht; unfold c_rouse; by destruct t as [g b []]).
    split; [intros _ _ _; exists (c_rouse t); split; [apply elem_of_app; right; apply elem_of_cons; by left|by right]|].
    intros c Hc Hd. apply elem_of_app. apply elem_of_app in Hc as [Hc|[->|Hc]%elem_of_cons]; [by left|congruence|].
    right. apply elem_of_cons. by right.
  - split; [done|]. split; [done|]. split; [done|]. split; [|done]. intros c Hc E.
    rewrite list.Forall_forall in Hl. specialize (Hl c Hc). unfold c_asleep in Hl. by rewrite E in Hl.
Qed.

Lemma signal_producers l l' : signal p_asleep p_rouse l l' -> Forall p_ok l ->
  Forall p_ok l' /\ concat (p_items <$> l') = concat (p_items <$> l) /\ length l' = length l /\
  done_count l' = done_count l /\
  (forall p, p ∈ l' -> p_at p = PAsleep -> exists p', p' ∈ l' /\ p_at p' = PWoken).
Proof.
  intros H HF. destruct H as [t l1 l2 Ht|l Hl].
  - apply Forall_app in HF as [H1 H2]. apply list.Forall_cons in H2 as [H2 H3].
    split; [apply Forall_app; split; [done|]; constructor; [by apply p_rouse_ok|done]|].
    split; [rewrite !fmap_app, !fmap_cons, p_rouse_items; done|]. split; [by rewrite !length_app|].
    assert (p_at t = PAsleep /\ p_at (p_rouse t) = PWoken) as [E0 E]
      by (unfold p_asleep in Ht; unfold p_rouse; by destruct t as [g b []]).
    split; [rewrite !done_count_app, !done_count_cons, E0, E; done|].
    intros _ _ _. exists (p_rouse t). split; [apply elem_of_app; right; apply elem_of_cons; by left|done].
  - repeat (split; [done|]). intros p Hp E.
    rewrite list.Forall_forall in Hl. specialize (Hl p Hp). unfold p_asleep in Hl. by rewrite E in Hl.
Qed.

Lemma broadcast_consumers l : Forall c_ok l ->
  Forall c_ok (c_rouse <$> l) /\ concat (c_items <$> (c_rouse <$> l)) = concat (c_items <$> l) /\
  (forall c, c ∈ c_rouse <$> l -> c_at c <> CAsleep) /\
  (forall c, c ∈ c_rouse <$> l -> c_at c = CDone -> c ∈ l).
Proof.
  intros HF. split; [apply list.Forall_fmap; eapply list.Forall_impl; [exact HF|]; intros c; apply c_rouse_ok|].
  split; [rewrite <- list_fmap_compose; f_equal; apply list_fmap_ext; intros i c _; apply c_rouse_items|].
  split; intros c Hc; apply list_elem_of_fmap in Hc as (c' & -> & Hc).
  - unfold c_rouse. by destruct c' as [g b []].
  - unfold c_rouse. by destruct c' as [g b []].
Qed.

(** ** The critical sections *)
Lemma enqueue_cases first q b : fifo_ok (buf q) -> fifo_ok b -> nTerminated q < nProducers q -> (0 < send_limit)%nat ->
  fifo_items b <> [] ->
  (fifo_items (buf q) <> [] \/ fifo_cap (buf q) = 0%nat) /\ queue_enqueue send_limit first q b = Some Wait \/
  exists l q' b', queue_enqueue send_limit first q b = Some (Leave (Z.of_nat (length l)) (Queue q' (nProducers q) (nTerminated q)) b') /\
    l <> [] /\ fifo_ok q' /\ fifo_ok b' /\ fifo_cap q' = fifo_cap (buf q) /\ fifo_cap b' = fifo_cap b /\
    fifo_items b = l ++ fifo_items b' /\ fifo_items q' = fifo_items (buf q) ++ l.
Proof.
  intros Oq Ob Ht Hl Hn. unfold queue_enqueue, queue_isTerminated.
  replace (nTerminated q <=? nProducers q) with true by lia. replace (nTerminated q =? nProducers q) with false by lia.
  cbn [negb andb]. rewrite andb_false_r. destruct (fifo_isFull (buf q)) eqn:Ef; [left|right].
  - split; [|done]. apply (law_isFull _ Oq) in Ef. destruct (fifo_items (buf q)); [by right|by left].
  - destruct (move_items_spec send_limit b (buf q) Ob Oq) as (l & b' & q' & -> & H1 & H2 & H3 & H4 & H5 & H6 & H7).
    cbn [mbind option_bind]. exists l, q', b'. split; [done|]. split; [|done].
    apply H7; [done|done|]. by apply (notfull_b _ Oq).
Qed.

Lemma dequeue_cases q b : fifo_ok (buf q) -> fifo_ok b -> nTerminated q <= nProducers q -> (0 < recv_limit)%nat ->
  fifo_items b = [] -> (1 <= fifo_cap b)%nat ->
  (fifo_items (buf q) = [] /\ nTerminated q < nProducers q /\ queue_dequeue recv_limit q b = Some Wait) \/
  (fifo_items (buf q) = [] /\ nTerminated q = nProducers q /\ queue_dequeue recv_limit q b = Some (Leave (-1) q b)) \/
  exists l q' b', queue_dequeue recv_limit q b = Some (Leave (Z.of_nat (length l)) (Queue q' (nProducers q) (nTerminated q)) b') /\
    l <> [] /\ fifo_ok q' /\ fifo_ok b' /\ fifo_cap q' = fifo_cap (buf q) /\ fifo_cap b' = fifo_cap b /\
    fifo_items (buf q) = l ++ fifo_items q' /\ fifo_items b' = l.
Proof.
  intros Oq Ob Ht Hl Hb Hc. unfold queue_dequeue, queue_isTerminated.
  replace (nTerminated q <=? nProducers q) with true by lia. cbn [mbind option_bind].
  destruct (fifo_isEmpty (buf q)) eqn:Ee.
  - apply (law_isEmpty _ Oq) in Ee. destruct (Z.eqb_spec (nTerminated q) (nProducers q)); cbn [negb].
    + right. left. done.
    + left. split; [done|]. split; [lia|done].
  - right. right. apply (nonempty_b _ Oq) in Ee.
    destruct (move_items_spec recv_limit (buf q) b Oq Ob) as (l & q' & b' & -> & H1 & H2 & H3 & H4 & H5 & H6 & H7).
    cbn [mbind option_bind]. exists l, q', b'. rewrite Hb in *. cbn [app length] in *. split; [done|]. split; [|done].
    apply H7; [done|done|lia].
Qed.

(** ** Every step keeps the invariant *)
Context (Hsend : (0 < send_limit)%nat) (Hrecv : (0 < recv_limit)%nat).

Lemma elem_replace {T} (x x' y : T) l1 l2 : y ∈ l1 ++ x' :: l2 -> y = x' \/ y ∈ l1 ++ x :: l2.
Proof. rewrite !elem_of_app, !elem_of_cons. tauto. Qed.
Lemma elem_middle {T} (x : T) l1 l2 : x ∈ l1 ++ x :: l2.
Proof. rewrite elem_of_app, elem_of_cons. tauto. Qed.

(** A producer that changes without the queue. *)
Lemma replace_producer all q p1 p p' p2 cs : qinv all (System q (p1 ++ p :: p2) cs) ->
  p_ok p' -> p_items p' ≡ₚ p_items p -> p_at p <> PDone -> p_at p' <> PDone ->
  (p_at p = PWoken \/ p_at p' = PAsleep -> fifo_items (buf q) <> []) ->
  qinv all (System q (p1 ++ p' :: p2) cs).
Proof.
  intros [Z1 Z2 Z3 Z4 Z5 Z6 Z7 Z8 Z9 Z10] Hok Hi Hd Hd' Hw. cbn [que producers consumers] in *.
  split; cbn [que producers consumers]; try done.
  - apply Forall_app in Z3 as [F1 F2]. apply list.Forall_cons in F2 as [_ F2]. apply Forall_app. split; [done|by constructor].
  - rewrite Z5, !length_app. done.
  - rewrite Z6, !done_count_app, !done_count_cons. destruct (p_at p), (p_at p'); done.
  - rewrite <- Z7. rewrite !fmap_app, !fmap_cons, !concat_app. cbn [concat]. by rewrite Hi.
  - intros r Hr Ea. destruct (elem_replace p p' r _ _ Hr) as [->|Hr']; [left; apply Hw; by right|].
    destruct (Z8 r Hr' Ea) as [?|(r' & Hr1 & Er1)]; [by left|].
    destruct (elem_replace p' p r' _ _ Hr1) as [->|Hr2]; [left; apply Hw; by left|right; by exists r'].
Qed.

(** A consumer that changes without the queue. *)
Lemma replace_consumer all q ps c1 c c' c2 : qinv all (System q ps (c1 ++ c :: c2)) ->
  c_ok c' -> c_items c' = c_items c -> c_at c' <> CWoken ->
  (c_at c' = CRun \/ fifo_items (buf q) = []) ->
  (c_at c' = CAsleep -> nTerminated q < nProducers q) ->
  (c_at c' = CDone -> nTerminated q = nProducers q) ->
  qinv all (System q ps (c1 ++ c' :: c2)).
Proof.
  intros [Z1 Z2 Z3 Z4 Z5 Z6 Z7 Z8 Z9 Z10] Hok Hi Hw Hr Ha Hd. cbn [que producers consumers] in *.
  split; cbn [que producers consumers]; try done.
  - apply Forall_app in Z4 as [F1 F2]. apply list.Forall_cons in F2 as [_ F2]. apply Forall_app. split; [done|by constructor].
  - rewrite <- Z7. rewrite !fmap_app, !fmap_cons, !concat_app. cbn [concat]. by rewrite Hi.
  - intros d Hd' Ea. destruct (elem_replace c c' d _ _ Hd') as [->|Hd1].
    + split; [by apply Ha|]. destruct Hr as [E|E]; [congruence|by left].
    + destruct (Z9 d Hd1 Ea) as [Z9a _]. split; [done|]. destruct Hr as [E|E]; [|by left]. right. exists c'.
      split; [apply elem_middle|by left].
  - intros d Hd' Ed. destruct (elem_replace c c' d _ _ Hd') as [->|Hd1]; [|by apply (Z10 d)].
    split; [by apply Hd|]. destruct Hr as [E|E]; [congruence|done].
Qed.

Lemma keep_send all q p1 p2 cs (first : bool) t b i q' b' cs' :
  qinv all (System q (p1 ++ Producer t b (if first then PSend else PWoken) :: p2) cs) ->
  queue_enqueue send_limit first q b = Some (Leave i q' b') -> signal c_asleep c_rouse cs cs' ->
  qinv all (System q' (p1 ++ Producer t b' PRun :: p2) cs') /\
  i = Z.of_nat (length (fifo_items (buf q')) - length (fifo_items (buf q))) /\ 1 <= i /\
  (length (fifo_items b) = length (fifo_items b') + Z.to_nat i)%nat /\
  (length (fifo_items (buf q')) = length (fifo_items (buf q)) + Z.to_nat i)%nat.
Proof.
  intros I E Hs. pose proof (not_terminated _ _ _ _ _ _ I ltac:(by destruct first)) as Ht.
  pose proof I as [Z1 Z2 Z3 Z4 Z5 Z6 Z7 Z8 Z9 Z10]. cbn [que producers consumers] in *.
  apply Forall_app in Z3 as [F1 F2]. apply list.Forall_cons in F2 as [(Ob & Cb & Nb) F2].
  assert (fifo_items b <> []) as Hn by (by destruct first). cbn [send_buf] in *.
  destruct (enqueue_cases first q b Z1 Ob Ht Hsend Hn) as [[_ E']|(l & r & b2 & E' & H0 & H1 & H2 & H3 & H4 & H5 & H6)];
    [congruence|]. rewrite E' in E. injection E as <- <- <-. cbn [buf].
  assert (1 <= length l)%nat as Hl by (destruct l; [done|cbn; lia]).
  split; [|rewrite H5, H6, !length_app; lia].
  destruct (signal_consumers cs cs' Hs Z4) as (S1 & S2 & S3 & S4 & S5).
  split; cbn [que producers consumers buf nProducers nTerminated]; try done.
  - lia.
  - apply Forall_app. split; [done|]. constructor; [|done]. split; [done|]. split; [cbn; lia|]. cbn [p_at send_buf].
    pose proof (law_bound b Ob) as HB. rewrite H5, length_app in HB. lia.
  - rewrite Z5, !length_app. done.
  - rewrite Z6, !done_count_app, !done_count_cons. by destruct first.
  - rewrite <- Z7, S2, H6. rewrite !fmap_app, !fmap_cons, !concat_app. cbn [concat].
    change (p_items (Producer t b2 PRun)) with (fifo_items b2 ++ t).
    replace (p_items (Producer t b (if first then PSend else PWoken))) with (fifo_items b ++ t) by done.
    rewrite H5. solve_perm.
  - intros p Hp Ea. left. rewrite H6. intros Hnil. apply app_eq_nil in Hnil as [_ Hnil]. by subst l.
  - intros c Hc Ea. split; [done|]. right. by apply (S4 c).
  - intros c Hc Ed. destruct (Z10 c (S5 c Hc Ed) Ed) as [E1 _]. lia.
Qed.

Lemma qkeep_receive all q ps c1 c2 g b (first : bool) i q' b' ps' :
  qinv all (System q ps (c1 ++ Consumer g b (if first then CRun else CWoken) :: c2)) -> fifo_isEmpty b = true ->
  queue_dequeue recv_limit q b = Some (Leave i q' b') -> 1 <= i -> signal p_asleep p_rouse ps ps' ->
  qinv all (System q' ps' (c1 ++ Consumer g b' CRun :: c2)) /\
  (length (fifo_items b') = length (fifo_items b) + Z.to_nat i)%nat /\
  (length (fifo_items (buf q)) = length (fifo_items (buf q')) + Z.to_nat i)%nat.
Proof.
  intros I Hb E Hi Hs. pose proof I as [Z1 Z2 Z3 Z4 Z5 Z6 Z7 Z8 Z9 Z10]. cbn [que producers consumers] in *.
  apply Forall_app in Z4 as [F1 F2]. apply list.Forall_cons in F2 as [(Ob & Cb & Nb) F2]. cbn [recv_buf] in *.
  apply (law_isEmpty b Ob) in Hb. pose proof (done_count_le ps).
  destruct (dequeue_cases q b Z1 Ob ltac:(lia) Hrecv Hb Cb)
    as [(_ & _ & E')|[(_ & _ & E')|(l & r & b2 & E' & H0 & H1 & H2 & H3 & H4 & H5 & H6)]]; rewrite E' in E; [done|injection E; lia|].
  injection E as <- <- <-. cbn [buf].
  split; [|rewrite H5, H6, Hb, !length_app; cbn [length]; lia].
  destruct (signal_producers ps ps' Hs Z3) as (S1 & S2 & S3 & S4 & S5).
  split; cbn [que producers consumers buf nProducers nTerminated]; try done.
  - lia.
  - apply Forall_app. split; [done|]. constructor; [|done]. split; [done|]. split; [cbn; lia|done].
  - by rewrite Z5, S3.
  - by rewrite Z6, S4.
  - rewrite <- Z7, S2, H5. rewrite !fmap_app, !fmap_cons, !concat_app. cbn [concat].
    change (c_items (Consumer g b2 CRun)) with (g ++ fifo_items b2).
    replace (c_items (Consumer g b (if first then CRun else CWoken))) with (g ++ fifo_items b) by done.
    rewrite H6, Hb. solve_perm.
  - intros p Hp Ea. right. by apply (S5 p).
  - intros c Hc Ea. destruct (elem_replace (Consumer g b (if first then CRun else CWoken)) _ c _ _ Hc) as [->|Hc']; [done|].
    split; [by apply (Z9 c)|]. right. eexists. split; [apply elem_middle|by left].
  - intros c Hc Ed. destruct (elem_replace (Consumer g b (if first then CRun else CWoken)) _ c _ _ Hc) as [->|Hc']; [done|].
    destruct (Z10 c Hc' Ed) as [E1 E2]. split; [done|]. rewrite H5 in E2. by apply app_eq_nil in E2 as [_ ?].
Qed.

Lemma keep_terminate all q p1 p2 cs b q' (broadcast : bool) :
  qinv all (System q (p1 ++ Producer [] b PRun :: p2) cs) -> fifo_isEmpty b = true ->
  queue_terminate q = Some (q', broadcast) ->
  qinv all (System q' (p1 ++ Producer [] b PDone :: p2) (if broadcast then c_rouse <$> cs else cs)) /\ buf q' = buf q.
Proof.
  intros I Hb E. pose proof (not_terminated _ _ _ _ _ _ I ltac:(done)) as Ht.
  pose proof I as [Z1 Z2 Z3 Z4 Z5 Z6 Z7 Z8 Z9 Z10]. cbn [que producers consumers] in *.
  apply Forall_app in Z3 as [F1 F2]. apply list.Forall_cons in F2 as [(Ob & Cb & Nb) F2]. cbn [send_buf] in *.
  apply (law_isEmpty b Ob) in Hb.
  unfold queue_terminate, queue_isTerminated in E. cbn [nTerminated nProducers] in E.
  replace (nTerminated q + 1 <=? nProducers q) with true in E by lia. cbn [mbind option_bind] in E. injection E as <- Eb.
  split; [|done]. destruct (broadcast_consumers cs Z4) as (B1 & B2 & B3 & B4).
  split; cbn [que producers consumers buf nProducers nTerminated]; try done.
  - apply Forall_app. split; [done|]. constructor; [|done]. split; [done|]. split; [done|]. cbn. unfold p_items. cbn. by rewrite Hb.
  - by destruct broadcast.
  - rewrite Z5, !length_app. done.
  - rewrite Z6, !done_count_app, !done_count_cons. cbn [p_at]. lia.
  - rewrite <- Z7. rewrite !fmap_app, !fmap_cons, !concat_app. destruct broadcast; [by rewrite B2|done].
  - intros p Hp Ea. destruct (elem_replace (Producer [] b PRun) _ p _ _ Hp) as [->|Hp']; [done|].
    destruct (Z8 p Hp' Ea) as [?|(p' & Hp1 & Ep)]; [by left|]. right. exists p'. split; [|done].
    by destruct (elem_replace (Producer [] b PDone) _ p' _ _ Hp1) as [->|?].
  - intros c Hc Ea. destruct broadcast; [by destruct (B3 c Hc)|]. destruct (Z9 c Hc Ea) as [E1 E2]. split; [lia|done].
  - intros c Hc Ed. assert (c ∈ cs) as Hc' by (destruct broadcast; [by apply B4|done]).
    destruct (Z10 c Hc' Ed). lia.
Qed.

(** The number of steps left: what an item, and what a thread, can still do. *)
Definition p_weight (m : nat) (p : producer) : nat :=
  9 * length (todo p) + 8 * length (fifo_items (send_buf p)) +
  match p_at p with PRun => 4 + m | PSend => 3 + m | PWoken => 2 + m | PAsleep => 1 + m | PDone => 0 end.
Definition c_weight (c : consumer) : nat :=
  length (fifo_items (recv_buf c)) + match c_at c with CRun => 2 | CWoken => 1 | _ => 0 end.
Definition weight (s : system) : nat :=
  sum_list_with (p_weight (length (consumers s))) (producers s) + 4 * length (fifo_items (buf (que s))) +
  sum_list_with c_weight (consumers s).

Lemma p_rouse_weight m p : (p_weight m (p_rouse p) <= p_weight m p + 1)%nat.
Proof. unfold p_weight, p_rouse. destruct p as [t b []]; cbn; lia. Qed.
Lemma c_rouse_weight c : (c_weight (c_rouse c) <= c_weight c + 1)%nat.
Proof. unfold c_weight, c_rouse. destruct c as [g b []]; cbn; lia. Qed.

Lemma signal_weight {T} (asleep : T -> bool) rouse (w : T -> nat) l l' :
  (forall t, (w (rouse t) <= w t + 1)%nat) -> signal asleep rouse l l' ->
  (sum_list_with w l' <= sum_list_with w l + 1)%nat.
Proof.
  intros Hw H. destruct H as [t l1 l2 Ht|l Hl]; [|lia].
  rewrite !sum_list_with_app. cbn [sum_list_with]. specialize (Hw t). lia.
Qed.

Lemma broadcast_weight cs : (sum_list_with c_weight (c_rouse <$> cs) <= sum_list_with c_weight cs + length cs)%nat.
Proof.
  induction cs as [|c cs IH]; [done|]. cbn [fmap list_fmap sum_list_with length] in *. pose proof (c_rouse_weight c). lia.
Qed.

Lemma signal_length {T} (asleep : T -> bool) rouse l l' : signal asleep rouse l l' -> length l' = length l.
Proof. intros []; by rewrite ?length_app. Qed.

Lemma qkeep_step all s s' : qinv all s -> qstep s s' -> qinv all s' /\ (weight s' < weight s)%nat.
Proof.
  intros I H. pose proof (z_producers _ _ I) as HP. pose proof (z_consumers _ _ I) as HC.
  destruct H as [q p1 p2 cs x t b b' E|q p1 p2 cs b E|q p1 p2 cs first t b i q' b' cs' E Hi Hs|q p1 p2 cs first t b E
    |q p1 p2 cs b q' broadcast E1 E2|q ps c1 c2 g x b b' E1 E2|q ps c1 c2 g b first i q' b' ps' E1 E2 Hi Hs
    |q ps c1 c2 g b first E1 E2|q ps c1 c2 g b first i q' b' E1 E2 Hi]; cbn [producers consumers] in *;
    unfold weight; cbn [que producers consumers];
    try (apply Forall_app in HP as [_ HP]; apply list.Forall_cons in HP as [(Ob & Cb & Nb) _]);
    try (apply Forall_app in HC as [_ HC]; apply list.Forall_cons in HC as [(Ob & Cb & Nb) _]);
    cbn [send_buf recv_buf p_at c_at] in *.
  - destruct (law_insert b x Ob) as (b2 & E' & O' & I' & C'); [by apply notfull_b|]. rewrite E' in E. injection E as <-.
    pose proof (notfull_b b2 O') as HF. split.
    + apply (replace_producer _ _ _ _ _ _ _ I); [| |done|by destruct (fifo_isFull b2)|].
      * split; [done|]. split; [cbn; lia|]. cbn [p_at send_buf]. destruct (fifo_isFull b2); [rewrite I'; by destruct (fifo_items b)|by apply HF].
      * unfold p_items. cbn [send_buf todo]. rewrite I', <- app_assoc. done.
      * intros [?|Ea]; [done|]. cbn in Ea. by destruct (fifo_isFull b2).
    + rewrite !sum_list_with_app. cbn [sum_list_with]. unfold p_weight at 2 5. cbn [todo send_buf p_at].
      rewrite I', length_app. cbn [length]. destruct (fifo_isFull b2); lia.
  - apply (nonempty_b b Ob) in E. split.
    + apply (replace_producer _ _ _ _ _ _ _ I); [done|done|done|done|]. intros [?|?]; done.
    + rewrite !sum_list_with_app. cbn [sum_list_with]. unfold p_weight at 2 5. cbn [todo send_buf p_at]. lia.
  - destruct (keep_send _ _ _ _ _ _ _ _ _ _ _ _ I E Hs) as (I' & _ & _ & L1 & L2). split; [exact I'|].
    pose proof (signal_weight _ _ c_weight _ _ c_rouse_weight Hs). rewrite (signal_length _ _ _ _ Hs).
    rewrite !sum_list_with_app. cbn [sum_list_with]. unfold p_weight at 2 5. cbn [todo send_buf p_at].
    rewrite L1, L2. destruct first; lia.
  - assert (fifo_items b <> []) as Hn by (by destruct first).
    pose proof (not_terminated _ _ _ _ _ _ I ltac:(by destruct first)) as Ht.
    destruct (enqueue_cases first q b (z_buf _ _ I) Ob Ht Hsend Hn) as [[[Hq|Hq] _]|(l & r & b2 & E' & _)]; [|pose proof (z_cap _ _ I); cbn in *; lia|congruence].
    split.
    + apply (replace_producer _ _ _ _ _ _ _ I); [done|by destruct first|by destruct first|done|done].
    + rewrite !sum_list_with_app. cbn [sum_list_with]. unfold p_weight at 2 5. cbn [todo send_buf p_at]. destruct first; lia.
  - destruct (keep_terminate _ _ _ _ _ _ _ _ I E1 E2) as [I' Eb]. split; [exact I'|]. rewrite Eb.
    pose proof (broadcast_weight cs). assert (length (if broadcast then c_rouse <$> cs else cs) = length cs) as ->
      by (destruct broadcast; [by rewrite length_fmap|done]).
    rewrite !sum_list_with_app. cbn [sum_list_with]. unfold p_weight at 2 5. cbn [todo send_buf p_at]. destruct broadcast; lia.
  - apply (nonempty_b b Ob) in E1. destruct (fifo_items b) as [|y l] eqn:Ei; [done|].
    destruct (law_remove b y l Ob Ei) as (b2 & E' & O' & I' & C'). rewrite E' in E2. injection E2 as <- <-. split.
    + apply (replace_consumer _ _ _ _ _ _ _ I); [split; [done|split; [cbn; lia|done]]| |done|by left|done|done].
      unfold c_items. cbn [got recv_buf]. by rewrite Ei, I', <- app_assoc.
    + rewrite !length_app, !sum_list_with_app. cbn [sum_list_with length]. unfold c_weight at 2 5. cbn [recv_buf c_at]. rewrite Ei, I'.
      cbn [length]. lia.
  - destruct (qkeep_receive _ _ _ _ _ _ _ _ _ _ _ _ I E1 E2 Hi Hs) as (I' & L1 & L2). split; [exact I'|].
    apply (law_isEmpty b Ob) in E1. rewrite E1 in L1. cbn [length] in L1.
    rewrite !length_app. cbn [length]. pose proof (signal_weight _ _ (p_weight (length c1 + S (length c2))) _ _ (p_rouse_weight _) Hs).
    rewrite !sum_list_with_app. cbn [sum_list_with]. unfold c_weight at 2 5. cbn [recv_buf c_at]. rewrite L1, L2, E1.
    cbn [length]. destruct first; lia.
  - apply (law_isEmpty b Ob) in E1. pose proof (done_count_le ps). pose proof (z_count _ _ I). pose proof (z_done _ _ I). cbn [que producers] in *.
    destruct (dequeue_cases q b (z_buf _ _ I) Ob ltac:(lia) Hrecv E1 Cb) as [(Q1 & Q2 & _)|[(_ & _ & E')|(l & r & b2 & E' & _)]]; [|congruence..].
    split.
    + apply (replace_consumer _ _ _ _ _ _ _ I); [done|done|done|by right|done|done].
    + rewrite !length_app, !sum_list_with_app. cbn [sum_list_with length]. unfold c_weight at 2 5. cbn [recv_buf c_at]. destruct first; lia.
  - apply (law_isEmpty b Ob) in E1. pose proof (done_count_le ps). pose proof (z_count _ _ I). pose proof (z_done _ _ I). cbn [que producers] in *.
    destruct (dequeue_cases q b (z_buf _ _ I) Ob ltac:(lia) Hrecv E1 Cb) as [(_ & _ & E')|[(Q1 & Q2 & E')|(l & r & b2 & E' & _)]];
      rewrite E' in E2; [done| |injection E2; lia].
    injection E2 as <- <- <-. split.
    + apply (replace_consumer _ _ _ _ _ _ _ I); [done|done|done|by right|done|done].
    + rewrite !length_app, !sum_list_with_app. cbn [sum_list_with length]. unfold c_weight at 2 5. cbn [recv_buf c_at]. destruct first; lia.
Qed.

Lemma keep_spurious all s s' : qinv all s -> spurious s s' -> qinv all s'.
Proof.
  intros I H. pose proof (z_producers _ _ I) as HP. pose proof (z_consumers _ _ I) as HC.
  destruct H as [q p1 p2 cs t b|q ps c1 c2 g b]; cbn [producers consumers] in *.
  - apply Forall_app in HP as [_ HP]. apply list.Forall_cons in HP as [HP _].
    apply (replace_producer _ _ _ _ _ _ _ I); [done|done|done|done|]. intros [?|?]; done.
  - pose proof I as [Z1 Z2 Z3 Z4 Z5 Z6 Z7 Z8 Z9 Z10]. cbn [que producers consumers] in *.
    split; cbn [que producers consumers]; try done.
    + apply Forall_app in Z4 as [F1 F2]. apply list.Forall_cons in F2 as [F3 F2]. apply Forall_app. split; [done|by constructor].
    + rewrite <- Z7. by rewrite !fmap_app, !fmap_cons.
    + intros c Hc Ea. destruct (elem_replace (Consumer g b CAsleep) _ c _ _ Hc) as [->|Hc']; [done|].
      destruct (Z9 c Hc' Ea) as [E1 _]. split; [done|]. right. eexists. split; [apply elem_middle|by right].
    + intros c Hc Ed. destruct (elem_replace (Consumer g b CAsleep) _ c _ _ Hc) as [->|Hc']; [done|by apply (Z10 c)].
Qed.

(** ** No deadlock *)
Lemma signal_exists {T} (asleep : T -> bool) rouse l : exists l', signal asleep rouse l l'.
Proof.
  destruct (decide (Forall (fun t => asleep t = false) l)) as [H|H]; [eexists; by apply signal_none|].
  apply not_Forall_Exists in H; [|intros x; apply _]. apply list.Exists_exists in H as (t & Ht & Hs).
  apply list_elem_of_split in Ht as (l1 & l2 & ->). eexists. apply signal_one. destruct (asleep t) eqn:E; [done|by destruct (Hs E)].
Qed.

Lemma producer_step all s p : qinv all s -> p ∈ producers s -> p_at p <> PAsleep -> p_at p <> PDone -> exists s', qstep s s'.
Proof.
  intros I Hp Ha Hd. destruct s as [q ps cs]. cbn [producers] in Hp. apply list_elem_of_split in Hp as (p1 & p2 & ->).
  pose proof (not_terminated _ _ _ _ _ _ I Hd) as Ht. pose proof (z_producers _ _ I) as HP. cbn [producers] in HP.
  apply Forall_app in HP as [_ HP]. apply list.Forall_cons in HP as [(Ob & Cb & Nb) _].
  assert (forall first t b, p = Producer t b (if first : bool then PSend else PWoken) -> exists s', qstep (System q (p1 ++ p :: p2) cs) s') as Send.
  { intros first t b ->. cbn [send_buf p_at] in *. assert (fifo_items b <> []) as Hn by (by destruct first).
    destruct (enqueue_cases first q b (z_buf _ _ I) Ob Ht Hsend Hn) as [[_ E]|(l & q' & b' & E & Hl & _)].
    - eexists. by eapply q_send_wait.
    - destruct (signal_exists c_asleep c_rouse cs) as [cs' Hs]. eexists. eapply q_send; [exact E| |exact Hs].
      destruct l; [done|cbn; lia]. }
  destruct p as [t b []]; cbn [p_at send_buf] in *; [|by apply (Send true t b)|done|by apply (Send false t b)|done].
  destruct t as [|x t].
  - destruct (fifo_isEmpty b) eqn:E; [|eexists; by apply q_drain].
    destruct (queue_terminate q) as [[q' br]|] eqn:Eq; [eexists; by eapply q_terminate|]. exfalso.
    unfold queue_terminate, queue_isTerminated in Eq. cbn [nTerminated nProducers] in Eq.
    by replace (nTerminated q + 1 <=? nProducers q) with true in Eq by lia.
  - destruct (law_insert b x Ob) as (b' & E & _); [by apply notfull_b|]. eexists. by apply q_produce.
Qed.

Lemma consumer_step all s c : qinv all s -> c ∈ consumers s -> c_at c <> CAsleep -> c_at c <> CDone -> exists s', qstep s s'.
Proof.
  intros I Hc Ha Hd. destruct s as [q ps cs]. cbn [consumers] in Hc. apply list_elem_of_split in Hc as (c1 & c2 & ->).
  pose proof (z_consumers _ _ I) as HC. cbn [consumers] in HC.
  apply Forall_app in HC as [_ HC]. apply list.Forall_cons in HC as [(Ob & Cb & Nb) _].
  pose proof (done_count_le ps). pose proof (z_count _ _ I) as N1. pose proof (z_done _ _ I) as N2. cbn [que producers] in *.
  assert (forall first g b, c = Consumer g b (if first : bool then CRun else CWoken) -> fifo_items b = [] ->
    exists s', qstep (System q ps (c1 ++ c :: c2)) s') as Recv.
  { intros first g b -> Hb. cbn [recv_buf] in *. pose proof (proj2 (law_isEmpty b Ob) Hb) as Eb.
    destruct (dequeue_cases q b (z_buf _ _ I) Ob ltac:(lia) Hrecv Hb Cb)
      as [(_ & _ & E)|[(_ & _ & E)|(l & q' & b' & E & Hl & _)]].
    - eexists. by eapply q_receive_wait.
    - eexists. eapply q_exit; [done|exact E|lia].
    - destruct (signal_exists p_asleep p_rouse ps) as [ps' Hs]. eexists. eapply q_receive; [done|exact E| |exact Hs].
      destruct l; [done|cbn; lia]. }
  destruct c as [g b []]; cbn [c_at recv_buf] in *; [|done|by apply (Recv false g b)|done].
  destruct (fifo_isEmpty b) eqn:Eb; [apply (law_isEmpty b Ob) in Eb; by apply (Recv true g b)|].
  pose proof Eb as Hb. apply (nonempty_b b Ob) in Hb. destruct (fifo_items b) as [|x l] eqn:Ei; [done|].
  destruct (law_remove b x l Ob Ei) as (b' & E & _). eexists. by eapply q_consume.
Qed.

#[local] Instance p_pc_dec : EqDecision p_pc.
Proof. solve_decision. Defined.
#[local] Instance c_pc_dec : EqDecision c_pc.
Proof. solve_decision. Defined.

Lemma system_progress all s : qinv all s -> consumers s <> [] -> all_done s \/ exists s', qstep s s'.
Proof.
  intros I Hcs.
  destruct (decide (Forall (fun p => p_at p = PAsleep \/ p_at p = PDone) (producers s))) as [HP|HP].
  2: { right. apply not_Forall_Exists in HP; [|apply _]. apply list.Exists_exists in HP as (p & Hp & Hn).
       apply (producer_step all s p I Hp); intros E; apply Hn; tauto. }
  destruct (decide (Forall (fun c => c_at c = CAsleep \/ c_at c = CDone) (consumers s))) as [HC|HC].
  2: { right. apply not_Forall_Exists in HC; [|apply _]. apply list.Exists_exists in HC as (c & Hc & Hn).
       apply (consumer_step all s c I Hc); intros E; apply Hn; tauto. }
  left. rewrite list.Forall_forall in HP. rewrite list.Forall_forall in HC.
  assert (forall c, c ∈ consumers s -> c_at c = CAsleep -> fifo_items (buf (que s)) = [] /\ nTerminated (que s) < nProducers (que s)) as Wc.
  { intros c Hc Ea. destruct (z_notEmpty _ _ I c Hc Ea) as [E1 [E2|(c' & Hc' & [E|E])]]; [done| |];
      destruct (HC c' Hc'); congruence. }
  assert (forall p, p ∈ producers s -> p_at p = PAsleep -> fifo_items (buf (que s)) <> []) as Wp.
  { intros p Hp Ea. destruct (z_notFull _ _ I p Hp Ea) as [?|(p' & Hp' & E)]; [done|]. destruct (HP p' Hp'); congruence. }
  assert (forall p, p ∈ producers s -> p_at p = PDone) as Dp.
  { intros p Hp. destruct (HP p Hp) as [Ea|]; [exfalso|done]. pose proof (Wp p Hp Ea) as Hq.
    destruct (consumers s) as [|c cs] eqn:Ec; [done|]. destruct (HC c (ltac:(apply elem_of_cons; by left))) as [E|E].
    - by destruct (Wc c (ltac:(apply elem_of_cons; by left)) E).
    - destruct (z_exit _ _ I c) as [_ ?]; [rewrite Ec; apply elem_of_cons; by left|done|done]. }
  assert (nTerminated (que s) = nProducers (que s)) as Ht.
  { rewrite (z_done _ _ I), (z_count _ _ I). f_equal. apply done_count_all. by apply list.Forall_forall. }
  split; apply list.Forall_forall; [exact Dp|]. intros c Hc. destruct (HC c Hc) as [E|]; [|done].
  destruct (Wc c Hc E). lia.
Qed.

(** ** The queue from its start *)
Definition queue_start (q : B) (tasks : list (list A * B)) (recv : list B) : system :=
  System (queue_init q (Z.of_nat (length tasks)))
    ((fun '(t, b) => Producer t b PRun) <$> tasks) ((fun b => Consumer [] b CRun) <$> recv).

(** An empty buffer that has room for an item. *)
Definition fresh (b : B) : Prop := fifo_ok b /\ fifo_items b = [] /\ (1 <= fifo_cap b)%nat.

Record start_ok (q : B) (tasks : list (list A * B)) (recv : list B) : Prop := {
  start_queue : fresh q;
  start_send : Forall (fun '(_, b) => fresh b) tasks;
  start_recv : Forall fresh recv;
  start_consumer : recv <> []
}.

(** A step of the system or a wakeup without a signal. *)
Definition any_step (s s' : system) : Prop := qstep s s' \/ spurious s s'.

Lemma start_inv q tasks recv : start_ok q tasks recv -> qinv (concat (fst <$> tasks)) (queue_start q tasks recv).
Proof.
  intros [(Q1 & Q2 & Q3) HS HR _]. unfold queue_start.
  assert (done_count ((fun '(t, b) => Producer t b PRun) <$> tasks) = 0%nat) as Hd.
  { clear. induction tasks as [|[t b] l IH]; [done|]. rewrite fmap_cons, done_count_cons, IH. done. }
  split; cbn [que producers consumers queue_init buf nProducers nTerminated]; try done.
  - apply list.Forall_fmap. eapply list.Forall_impl; [exact HS|]. intros [t b] (O1 & O2 & O3).
    split; [done|]. split; [done|]. cbn. rewrite O2. cbn. lia.
  - apply list.Forall_fmap. eapply list.Forall_impl; [exact HR|]. intros b (O1 & O2 & O3). split; [done|]. by split.
  - by rewrite length_fmap.
  - by rewrite Hd.
  - rewrite Q2. cbn [app].
    assert (concat (c_items <$> ((fun b => Consumer [] b CRun) <$> recv)) = []) as ->.
    { clear HS. induction HR as [|b l (O1 & O2 & O3) HR IH]; [done|]. rewrite !fmap_cons. cbn [concat]. rewrite IH.
      unfold c_items. cbn [got recv_buf]. by rewrite O2. }
    rewrite app_nil_r. clear Hd. induction HS as [|[t b] l (O1 & O2 & O3) HS IH]; [done|]. rewrite !fmap_cons. cbn [concat]. rewrite IH.
    unfold p_items at 1. cbn [send_buf todo]. by rewrite O2.
  - intros p Hp Ea. apply list_elem_of_fmap in Hp as ([t b] & -> & _). done.
  - intros c Hc Ea. apply list_elem_of_fmap in Hc as (b & -> & _). done.
  - intros c Hc Ea. apply list_elem_of_fmap in Hc as (b & -> & _). done.
Qed.

Lemma reachable_inv all s s' : qinv all s -> consumers s <> [] -> rtc any_step s s' -> qinv all s' /\ consumers s' <> [].
Proof.
  intros I Hc H. induction H as [s|s s1 s2 [H1|H1] H2 IH]; [done| |].
  - apply IH; [apply (qkeep_step _ _ _ I H1)|]. destruct H1; cbn [consumers] in *; try done; try (by destruct c1).
    + intros ->. by apply signal_length in H1; destruct cs.
    + destruct broadcast; [|done]. by destruct cs.
  - apply IH; [by apply (keep_spurious _ s)|]. destruct H1; cbn [consumers] in *; [done|by destruct c1].
Qed.

Lemma qsteps_bounded all n s s' : qinv all s -> nsteps qstep n s s' -> (weight s' + n <= weight s)%nat.
Proof.
  intros I H. induction H as [s|n s s1 s2 H1 H2 IH]; [lia|].
  destruct (qkeep_step _ _ _ I H1) as [I1 Hw]. specialize (IH I1). lia.
Qed.


(** C32: no wakeup is lost, although [notEmpty] and [notFull] are signalled to one thread
    only: in every state the threads can reach, spurious wakeups included, either
    all threads have returned or some thread can take a step, and only a bounded
    number of steps follow without further spurious wakeups. *)
Theorem queue_never_deadlocks q tasks recv s : start_ok q tasks recv -> rtc any_step (queue_start q tasks recv) s ->
  (all_done s \/ exists s', qstep s s') /\ forall n s', nsteps qstep n s s' -> (n <= weight s)%nat.
Proof.
  intros Hs Hr. assert (consumers (queue_start q tasks recv) <> []) as Hc0 by (pose proof (start_consumer _ _ _ Hs); by destruct recv).
  destruct (reachable_inv _ _ _ (start_inv _ _ _ Hs) Hc0 Hr) as [I Hc].
  split; [by apply (system_progress _ s I)|]. intros n s' Hn. pose proof (qsteps_bounded _ _ _ _ I Hn). lia.
Qed.
End Queue.

(** Two producers and two consumers on a queue of two items, with buffers of one. *)
Definition sample_ring (n : Z) : ringbuffer_t Z := ringbuffer_init (fun _ => None) n.
Definition sample_tasks : list (list Z * ringbuffer_t Z) := [([1; 2; 3], sample_ring 1); ([4; 5], sample_ring 1)].

Lemma sample_start_ok : start_ok (sample_ring 2) sample_tasks [sample_ring 1; sample_ring 1].
Proof.
  assert (forall n, 1 <= n < 2 ^ 31 - 1 -> fresh (sample_ring n)) as H.
  { intros n Hn. destruct (init_ok (fun _ : Z => @None Z) n ltac:(lia)) as (O & I & S). split; [exact O|].
    split; [exact I|]. change (1 <= Z.to_nat (size (ringbuffer_init (fun _ : Z => @None Z) n) - 1))%nat. rewrite S. lia. }
  split; [apply H; lia| | |done]; repeat constructor; apply H; lia.
Qed.

(** The first producer computes its first item, and its buffer is full. *)
Definition sample_state : system :=
  System (queue_init (sample_ring 2) 2)
    [Producer [2; 3] (ringbuffer_insert (sample_ring 1) (Some 1)).2 PSend; Producer [4; 5] (sample_ring 1) PRun]
    [Consumer [] (sample_ring 1) CRun; Consumer [] (sample_ring 1) CRun].

Lemma sample_reachable : rtc (any_step 20 20) (queue_start (sample_ring 2) sample_tasks [sample_ring 1; sample_ring 1]) sample_state.
Proof.
  apply rtc_once. left.
  exact (q_produce 20 20 (queue_init (sample_ring 2) 2) [] [Producer [4; 5] (sample_ring 1) PRun]
    [Consumer [] (sample_ring 1) CRun; Consumer [] (sample_ring 1) CRun] 1 [2; 3] (sample_ring 1) _ eq_refl).
Qed.


Lemma queue_never_deadlocks_witness :
  (all_done sample_state \/ exists s', qstep 20 20 sample_state s') /\
  forall n s', nsteps (qstep 20 20) n sample_state s' -> (n <= weight sample_state)%nat.
Proof.
  exact (queue_never_deadlocks 20 20 ltac:(lia) ltac:(lia) _ _ _ _ sample_start_ok sample_reachable).
Defined.
