(* ===== verification/Mbuffer.v ===== *)
(** * The memory buffers of dedup (mbuffer.c, mbuffer.h)

    Buffers that share one block of memory through a control block with a reference
    counter.  Memory is a heap of blocks and of control blocks; an access to one that
    was freed, and a failed assertion, is [None].  [malloc] gives a block that was
    never used, or fails. *)
From stdpp Require Import gmap.
From S2P Require Import Prelude.

(** [mcb_t]: the counter, and the block [ptr] points to. *)
Record mcb_t := Mcb { i : Z; mptr : Z }.

(** [mbuffer_t]: [ptr] is a block and an offset into it. *)
Record mbuffer_t := Mbuffer { block : Z; offset : Z; n : Z; mcb : Z }.

(** The heap, and the next address [malloc] returns. *)
Record heap := Heap { blocks : gmap Z (list Z); mcbs : gmap Z mcb_t; brk : Z }.

Section Mbuffer.
(** What [malloc] finds in memory, and whether its [k]th call succeeds. *)
Context (undef : Z -> Z).

Definition garbage (size : Z) : list Z := undef <$> seqZ 0 size.

Definition malloc_block (h : heap) (size : Z) : Z * heap :=
  (brk h, Heap (<[brk h := garbage size]> (blocks h)) (mcbs h) (brk h + 1)).

Definition free_block (h : heap) (b : Z) : option heap :=
  match blocks h !! b with Some _ => Some (Heap (delete b (blocks h)) (mcbs h) (brk h)) | None => None end.
Definition free_mcb (h : heap) (c : Z) : option heap :=
  match mcbs h !! c with Some _ => Some (Heap (blocks h) (delete c (mcbs h)) (brk h)) | None => None end.
Definition put_mcb (h : heap) (c : Z) (v : mcb_t) : heap := Heap (blocks h) (<[c := v]> (mcbs h)) (brk h).

(** The operations return their result, the buffer they fill, and the heap.  The
    booleans tell which calls of [malloc] succeed. *)
Definition mbuffer_create (ok1 ok2 : bool) (h : heap) (size : Z) : option (Z * option mbuffer_t * heap) :=
  if size >? 0 then
    if negb ok1 then Some (-1, None, h) else
    let '(ptr, h) := malloc_block h size in
    if negb ok2 then h ← free_block h ptr; Some (-1, None, h) else
    let c := brk h in
    let h := Heap (blocks h) (<[c := Mcb 1 ptr]> (mcbs h)) (brk h + 1) in
    Some (0, Some (Mbuffer ptr 0 size c), h)
  else None.

Definition mbuffer_clone (ok : bool) (h : heap) (m : mbuffer_t) : option (option mbuffer_t * heap) :=
  if negb ok then Some (None, h) else
  c ← mcbs h !! mcb m;
  if i c >=? 1 then
    let h := put_mcb h (mcb m) (Mcb (u32 (i c + 1)) (mptr c)) in
    Some (Some (Mbuffer (block m) (offset m) (n m) (mcb m)), h)
  else None.

(** The bytes of a buffer. *)
Definition contents (h : heap) (m : mbuffer_t) : option (list Z) :=
  b ← blocks h !! block m; Some (take (Z.to_nat (n m)) (drop (Z.to_nat (offset m)) b)).

(** [memcpy] to the beginning of a block. *)
Definition copy_to (l b : list Z) : list Z := l ++ drop (length l) b.

Definition mbuffer_copy (ok ok1 ok2 : bool) (h : heap) (m : mbuffer_t) : option (option mbuffer_t * heap) :=
  if n m >=? 1 then
    if negb ok then Some (None, h) else
    '(r, temp, h) ← mbuffer_create ok1 ok2 h (n m);
    if negb (r =? 0) then Some (None, h) else
    temp ← temp;
    l ← contents h m;
    b ← blocks h !! block temp;
    Some (Some temp, Heap (<[block temp := copy_to l b]> (blocks h)) (mcbs h) (brk h))
  else None.

Definition mbuffer_free (h : heap) (m : mbuffer_t) : option heap :=
  c ← mcbs h !! mcb m;
  let ref := u32 (i c - 1) in
  let h := put_mcb h (mcb m) (Mcb ref (mptr c)) in
  if ref =? 0 then h ← free_block h (mptr c); free_mcb h (mcb m)
  else Some h.

(** [realloc] moves the block, or fails. *)
Definition mbuffer_realloc (ok : bool) (h : heap) (m : mbuffer_t) (size : Z) : option (Z * mbuffer_t * heap) :=
  if size >? 0 then
    c ← mcbs h !! mcb m;
    if i c >? 1 then Some (-1, m, h)
    else if negb ((block m =? mptr c) && (offset m =? 0)) then Some (-1, m, h)
    else
      b ← blocks h !! block m;
      if ok then
        let r := brk h in
        let b' := take (Z.to_nat size) (b ++ garbage size) in
        let h := Heap (<[r := b']> (delete (block m) (blocks h))) (mcbs h) (brk h + 1) in
        Some (0, Mbuffer r 0 size (mcb m), put_mcb h (mcb m) (Mcb (i c) r))
      else Some (-1, m, h)
  else None.

(** The two buffers. *)
Definition mbuffer_split (h : heap) (m1 : mbuffer_t) (split : Z) : option (mbuffer_t * mbuffer_t * heap) :=
  if (split >? 0) && (split <? n m1) then
    c ← mcbs h !! mcb m1;
    if i c >=? 1 then
      let h := put_mcb h (mcb m1) (Mcb (u32 (i c + 1)) (mptr c)) in
      Some (Mbuffer (block m1) (offset m1) split (mcb m1),
            Mbuffer (block m1) (offset m1 + split) (n m1 - split) (mcb m1), h)
    else None
  else None.

(** ** The buffers a program uses *)

(** Operations on the buffers in use, which are numbered. *)
Inductive mop :=
  | OpCreate (ok1 ok2 : bool) (size : Z)
  | OpClone (k : nat) (ok : bool)
  | OpCopy (k : nat) (ok ok1 ok2 : bool)
  | OpFree (k : nat)
  | OpRealloc (k : nat) (ok : bool) (size : Z)
  | OpSplit (k : nat) (split : Z).

Definition add_live (live : list mbuffer_t) (m : option mbuffer_t) : list mbuffer_t :=
  match m with Some m => live ++ [m] | None => live end.

Definition exec (op : mop) (h : heap) (live : list mbuffer_t) : option (heap * list mbuffer_t) :=
  match op with
  | OpCreate ok1 ok2 size => '(_, m, h) ← mbuffer_create ok1 ok2 h size; Some (h, add_live live m)
  | OpClone k ok => m ← live !! k; '(m', h) ← mbuffer_clone ok h m; Some (h, add_live live m')
  | OpCopy k ok ok1 ok2 => m ← live !! k; '(m', h) ← mbuffer_copy ok ok1 ok2 h m; Some (h, add_live live m')
  | OpFree k => m ← live !! k; h ← mbuffer_free h m; Some (h, delete k live)
  | OpRealloc k ok size => m ← live !! k; '(_, m', h) ← mbuffer_realloc ok h m size; Some (h, <[k := m']> live)
  | OpSplit k split => m ← live !! k; '(m1, m2, h) ← mbuffer_split h m split; Some (h, <[k := m1]> live ++ [m2])
  end.

(** What the assertions ask of the caller. *)
Definition op_ok (op : mop) (live : list mbuffer_t) : Prop :=
  match op with
  | OpCreate _ _ size => 0 < size
  | OpClone k _ | OpCopy k _ _ _ | OpFree k => (k < length live)%nat
  | OpRealloc k _ size => (k < length live)%nat /\ 0 < size
  | OpSplit k split => exists m, live !! k = Some m /\ 0 < split < n m
  end.

(** A run of operations, and what the caller has to respect at each. *)
Fixpoint exec_all (ops : list mop) (h : heap) (live : list mbuffer_t) : option (heap * list mbuffer_t) :=
  match ops with [] => Some (h, live) | op :: ops => '(h, live) ← exec op h live; exec_all ops h live end.
Fixpoint ops_ok (ops : list mop) (h : heap) (live : list mbuffer_t) : Prop :=
  match ops with
  | [] => True
  | op :: ops => op_ok op live /\ match exec op h live with Some (h, live) => ops_ok ops h live | None => True end
  end.

(** ** What the operations are to their caller: buffers are values *)
Definition value_step (op : mop) (bs bs' : list (list Z)) : Prop :=
  match op with
  | OpCreate ok1 ok2 size => bs' = if ok1 && ok2 then bs ++ [garbage size] else bs
  | OpClone k ok => exists b, bs !! k = Some b /\ bs' = if ok then bs ++ [b] else bs
  | OpCopy k ok ok1 ok2 => exists b, bs !! k = Some b /\ bs' = if ok && (ok1 && ok2) then bs ++ [b] else bs
  | OpFree k => bs' = delete k bs
  | OpRealloc k ok size => bs' = bs \/
      exists b b', bs !! k = Some b /\ bs' = <[k := b']> bs /\ Z.of_nat (length b') = size /\
        forall j, (j < length b)%nat -> (j < length b')%nat -> b' !! j = b !! j
  | OpSplit k split => exists b, bs !! k = Some b /\ bs' = <[k := take (Z.to_nat split) b]> bs ++ [drop (Z.to_nat split) b]
  end.
Fixpoint value_run (ops : list mop) (bs bs' : list (list Z)) : Prop :=
  match ops with [] => bs' = bs | op :: ops => exists b1, value_step op bs b1 /\ value_run ops b1 bs' end.

Definition holds_bytes (h : heap) : mbuffer_t -> list Z -> Prop := fun m b => contents h m = Some b.

(** ** The invariant *)
Definition uses (c : Z) (live : list mbuffer_t) : nat := length (filter (fun m => mcb m = c) live).

Definition buffer_ok (h : heap) (m : mbuffer_t) : Prop :=
  exists c b, mcbs h !! mcb m = Some c /\ mptr c = block m /\ blocks h !! block m = Some b /\
    0 <= offset m /\ 1 <= n m /\ offset m + n m <= Z.of_nat (length b).

Record heap_ok (h : heap) (live : list mbuffer_t) : Prop := {
  k_buffers : Forall (buffer_ok h) live;
  k_counts : forall id c, mcbs h !! id = Some c -> i c = Z.of_nat (uses id live) /\ 1 <= i c;
  k_blocks : forall b, is_Some (blocks h !! b) -> exists id c, mcbs h !! id = Some c /\ mptr c = b;
  k_owner : forall id id' c c', mcbs h !! id = Some c -> mcbs h !! id' = Some c' -> mptr c = mptr c' -> id = id';
  k_brk : (forall id, brk h <= id -> mcbs h !! id = None) /\ (forall b, brk h <= b -> blocks h !! b = None)
}.

Definition heap_empty : heap := Heap ∅ ∅ 0.

(** ** Counting the buffers of a control block *)
Lemma uses_app c l k : uses c (l ++ k) = (uses c l + uses c k)%nat.
Proof. unfold uses. by rewrite list.filter_app, length_app. Qed.
Lemma uses_cons c m l : uses c (m :: l) = ((if decide (mcb m = c) then 1 else 0) + uses c l)%nat.
Proof. unfold uses. rewrite list.filter_cons. by case_decide. Qed.
Lemma uses_snoc c m l : uses c (l ++ [m]) = (uses c l + if decide (mcb m = c) then 1 else 0)%nat.
Proof. rewrite uses_app, uses_cons. change (uses c []) with 0%nat. lia. Qed.
Lemma uses_elem c m l : m ∈ l -> mcb m = c -> (1 <= uses c l)%nat.
Proof.
  intros Hm <-. apply list_elem_of_split in Hm as (l1 & l2 & ->). rewrite uses_app, uses_cons, decide_True by done. lia.
Qed.
Lemma uses_le c l : (uses c l <= length l)%nat.
Proof. unfold uses. apply list.length_filter. Qed.
Lemma uses_0 c l m : uses c l = 0%nat -> m ∈ l -> mcb m <> c.
Proof. intros H Hm E. pose proof (uses_elem c m l Hm E). lia. Qed.

Lemma split_at {T} (l : list T) k x : l !! k = Some x -> exists l1 l2, l = l1 ++ x :: l2 /\
  (forall y, <[k := y]> l = l1 ++ y :: l2) /\ delete k l = l1 ++ l2.
Proof.
  intros H. exists (take k l), (drop (S k) l). pose proof (lookup_lt_Some _ _ _ H).
  split; [by rewrite take_drop_middle|]. split; [intros y; by rewrite insert_take_drop|]. by rewrite delete_take_drop.
Qed.

Lemma Forall2_replace {A B} (P : A -> B -> Prop) l l' k x y : (k < length l)%nat -> (k < length l')%nat ->
  Forall2 P (delete k l) (delete k l') -> P x y -> Forall2 P (<[k := x]> l) (<[k := y]> l').
Proof.
  intros H1 H2 HF Hxy. rewrite !insert_take_drop by done. rewrite !delete_take_drop in HF.
  apply Forall2_app_inv in HF as [F1 F2]; [|rewrite !length_take; lia]. apply Forall2_app; [done|by constructor].
Qed.

Lemma garbage_length size : 0 <= size -> Z.of_nat (length (garbage size)) = size.
Proof. intros H. unfold garbage. rewrite length_fmap, length_seqZ. lia. Qed.

(** What holds of the buffers in one heap holds in another that agrees on them. *)
Lemma buffer_ok_ext h h' m : buffer_ok h m ->
  (forall c, mcbs h !! mcb m = Some c -> exists c', mcbs h' !! mcb m = Some c' /\ mptr c' = mptr c) ->
  blocks h' !! block m = blocks h !! block m -> buffer_ok h' m.
Proof.
  intros (c & b & E1 & E2 & E3 & H) Hm Hb. destruct (Hm c E1) as (c' & E1' & E2'). exists c', b.
  rewrite Hb. split; [done|]. split; [congruence|]. done.
Qed.

Section Heap.
Context {h : heap} {live : list mbuffer_t} (K : heap_ok h live).

Lemma live_ok m : m ∈ live -> buffer_ok h m.
Proof. intros Hm. pose proof (k_buffers _ _ K) as HF. rewrite list.Forall_forall in HF. by apply HF. Qed.

(** The control block of a buffer in use. *)
Lemma live_mcb m : m ∈ live -> exists c b, mcbs h !! mcb m = Some c /\ mptr c = block m /\
  i c = Z.of_nat (uses (mcb m) live) /\ 1 <= i c <= Z.of_nat (length live) /\
  blocks h !! block m = Some b /\ 0 <= offset m /\ 1 <= n m /\ offset m + n m <= Z.of_nat (length b).
Proof.
  intros Hm. destruct (live_ok m Hm) as (c & b & E1 & E2 & E3 & H). exists c, b.
  destruct (k_counts _ _ K _ _ E1) as [C1 C2]. pose proof (uses_le (mcb m) live).
  repeat (split; [done|]). split; [lia|]. done.
Qed.

Lemma mcb_below id c : mcbs h !! id = Some c -> id < brk h.
Proof. intros H. destruct (Z.lt_ge_cases id (brk h)) as [|Hge]; [done|]. by rewrite (proj1 (k_brk _ _ K) id Hge) in H. Qed.
Lemma block_below b l : blocks h !! b = Some l -> b < brk h.
Proof. intros H. destruct (Z.lt_ge_cases b (brk h)) as [|Hge]; [done|]. by rewrite (proj2 (k_brk _ _ K) b Hge) in H. Qed.

(** A control block is used, and points to a block. *)
Lemma mcb_user id c : mcbs h !! id = Some c -> exists m, m ∈ live /\ mcb m = id /\ block m = mptr c.
Proof.
  intros Hc. destruct (k_counts _ _ K _ _ Hc) as [C1 C2]. unfold uses in C1.
  destruct (filter (fun m => mcb m = id) live) as [|m l'] eqn:El; [cbn in C1; lia|]. exists m.
  assert (m ∈ filter (fun m => mcb m = id) live) as Hm by (rewrite El; apply elem_of_cons; by left).
  apply list_elem_of_filter in Hm as [Em Hm]. split; [done|]. split; [done|].
  destruct (live_mcb m Hm) as (d & _ & E1 & E2 & _). rewrite Em, Hc in E1. injection E1 as <-. done.
Qed.

Lemma mcb_points id c : mcbs h !! id = Some c -> mptr c < brk h.
Proof.
  intros Hc. destruct (mcb_user id c Hc) as (m & Hm & _ & <-).
  destruct (live_mcb m Hm) as (d & b & _ & _ & _ & _ & E5 & _). by apply (block_below _ _ E5).
Qed.

Lemma unused id : mcbs h !! id = None -> uses id live = 0%nat.
Proof.
  intros Hc. destruct (uses id live) eqn:Eu; [done|]. exfalso. unfold uses in Eu.
  destruct (filter (fun m => mcb m = id) live) as [|m l'] eqn:El; [done|].
  assert (m ∈ filter (fun m => mcb m = id) live) as Hm by (rewrite El; apply elem_of_cons; by left).
  apply list_elem_of_filter in Hm as [Em Hm]. destruct (live_mcb m Hm) as (c & _ & E1 & _). congruence.
Qed.

(** Two buffers with one block have one control block. *)
Lemma same_block m m' : m ∈ live -> m' ∈ live -> block m = block m' -> mcb m = mcb m'.
Proof.
  intros Hm Hm' E. destruct (live_mcb m Hm) as (c & _ & E1 & E2 & _). destruct (live_mcb m' Hm') as (c' & _ & E1' & E2' & _).
  apply (k_owner _ _ K _ _ _ _ E1 E1'). congruence.
Qed.
End Heap.

Lemma heap_ok_replace h l1 m m' l2 : heap_ok h (l1 ++ m :: l2) -> mcb m' = mcb m -> buffer_ok h m' ->
  heap_ok h (l1 ++ m' :: l2).
Proof.
  intros [K1 K2 K3 K4 K5] E Hm'. split; try done.
  - apply Forall_app in K1 as [F1 F2]. apply list.Forall_cons in F2 as [_ F2]. apply Forall_app. split; [done|by constructor].
  - intros id c Hc. rewrite uses_app, uses_cons, E, <- uses_cons, <- uses_app. by apply K2.
Qed.

(** One more buffer on a control block. *)
Lemma heap_ok_share h live id c m' : heap_ok h live -> mcbs h !! id = Some c -> mcb m' = id -> buffer_ok h m' ->
  heap_ok (put_mcb h id (Mcb (i c + 1) (mptr c))) (live ++ [m']).
Proof.
  intros [K1 K2 K3 K4 K5] Hc E Hm'.
  assert (forall m, buffer_ok h m -> buffer_ok (put_mcb h id (Mcb (i c + 1) (mptr c))) m) as HX.
  { intros m Hm. apply (buffer_ok_ext h); [done| |done]. intros c' Hc'. cbn [put_mcb mcbs].
    destruct (decide (mcb m = id)) as [Em|]; [|rewrite lookup_insert_ne by done; by exists c'].
    rewrite Em in Hc' |- *. rewrite lookup_insert_eq. eexists. split; [done|]. cbn. congruence. }
  split; cbn [put_mcb mcbs blocks brk].
  - apply Forall_app. split; [eapply list.Forall_impl; [exact K1|done]|]. constructor; [by apply HX|constructor].
  - intros id' c'. rewrite uses_snoc, E.
    destruct (decide (id = id')) as [<-|Hne].
    + rewrite lookup_insert_eq. intros [= <-]. cbn [i]. destruct (K2 id c Hc). lia.
    + rewrite lookup_insert_ne by done. intros Hc'. destruct (K2 id' c' Hc'). lia.
  - intros b Hb. destruct (K3 b Hb) as (id' & c' & Hc' & Eb). destruct (decide (id' = id)) as [->|Hne].
    + exists id, (Mcb (i c + 1) (mptr c)). rewrite lookup_insert_eq. split; [done|]. cbn. congruence.
    + exists id', c'. by rewrite lookup_insert_ne.
  - intros a a' d d'. rewrite !lookup_insert. repeat case_decide; subst.
    + done.
    + intros [= <-] Hd'. cbn. by apply (K4 _ _ c).
    + intros Hd [= <-]. cbn. by intros ?; apply (K4 _ _ d c).
    + by apply K4.
  - split; [|apply K5]. intros id' Hid. rewrite lookup_insert_ne; [by apply K5|]. intros <-.
    by rewrite (proj1 K5 id Hid) in Hc.
Qed.

Lemma split_spec h l1 m l2 s : heap_ok h (l1 ++ m :: l2) -> 0 < s < n m -> Z.of_nat (length (l1 ++ m :: l2)) < 2 ^ 32 - 1 ->
  exists m1 m2 h', mbuffer_split h m s = Some (m1, m2, h') /\ heap_ok h' ((l1 ++ m1 :: l2) ++ [m2]) /\ blocks h' = blocks h /\
    contents h' m1 = take (Z.to_nat s) <$> contents h m /\ contents h' m2 = drop (Z.to_nat s) <$> contents h m.
Proof.
  intros K Hs Hl. assert (m ∈ l1 ++ m :: l2) as Hm by (apply elem_of_app; right; apply elem_of_cons; by left).
  unfold mbuffer_split. replace ((s >? 0) && (s <? n m)) with true by lia.
  destruct (live_mcb K m Hm) as (c & b & E1 & E2 & E3 & E4 & E5 & E6 & E7 & E8). rewrite E1. cbn [mbind option_bind].
  replace (i c >=? 1) with true by lia. rewrite uw_small by lia. eexists _, _, _. split; [reflexivity|].
  split; [|split; [done|]].
  - apply heap_ok_share; [|done|done|].
    + apply (heap_ok_replace h l1 m); [done|done|]. exists c, b. cbn. repeat (split; [done|]). lia.
    + exists c, b. cbn. repeat (split; [done|]). lia.
  - unfold contents. cbn [put_mcb blocks block offset n]. rewrite E5. cbn [mbind option_bind fmap option_fmap option_map].
    split; f_equal.
    + rewrite take_take. f_equal. lia.
    + rewrite skipn_firstn_comm, drop_drop. f_equal; [lia|]. f_equal. lia.
Qed.

Lemma contents_ext h h' m : blocks h' !! block m = blocks h !! block m -> contents h' m = contents h m.
Proof. intros E. unfold contents. by rewrite E. Qed.

Lemma heap_ok_perm h l l' : l ≡ₚ l' -> heap_ok h l -> heap_ok h l'.
Proof.
  intros HP [K1 K2 K3 K4 K5]. split; try done; [by rewrite <- HP|].
  intros id c Hc. destruct (K2 id c Hc) as [E1 E2]. split; [|done]. rewrite E1. unfold uses. by rewrite HP.
Qed.

(** Addresses are given up. *)
Lemma heap_ok_brk h live k : heap_ok h live -> brk h <= k -> heap_ok (Heap (blocks h) (mcbs h) k) live.
Proof. intros [K1 K2 K3 K4 [K5 K6]] Hk. split; try done. cbn. split; intros x Hx; [apply K5|apply K6]; lia. Qed.

(** One more block with its control block, at addresses not in use. *)
Lemma heap_ok_add h live r id l k : heap_ok h live -> 1 <= Z.of_nat (length l) ->
  blocks h !! r = None -> mcbs h !! id = None -> brk h <= k -> r < k -> id < k ->
  heap_ok (Heap (<[r := l]> (blocks h)) (<[id := Mcb 1 r]> (mcbs h)) k) (live ++ [Mbuffer r 0 (Z.of_nat (length l)) id]).
Proof.
  intros K Hl Hr Hid Hk1 Hk2 Hk3. pose proof K as [K1 K2 K3 K4 [K5 K6]].
  pose proof (unused K id Hid) as Hu.
  assert (forall a c, mcbs h !! a = Some c -> mptr c <> r) as Hp.
  { intros a c Hc <-. destruct (mcb_user K a c Hc) as (m & Hm & _ & E). destruct (live_mcb K m Hm) as (? & ? & _ & _ & _ & _ & E5 & _). congruence. }
  split; cbn [blocks mcbs brk].
  - apply Forall_app. split.
    + apply list.Forall_forall. intros m Hm. pose proof (live_ok K m Hm) as Hb. destruct (live_mcb K m Hm) as (c & b & E1 & E2 & _ & _ & E5 & _).
      apply (buffer_ok_ext h); [done| |].
      * intros c' Hc'. exists c'. cbn [mcbs]. rewrite lookup_insert_ne; [done|congruence].
      * cbn [blocks]. apply lookup_insert_ne. congruence.
    + constructor; [|constructor]. exists (Mcb 1 r), l. cbn [mcb block offset n mcbs blocks].
      rewrite !lookup_insert_eq. repeat (split; [done|]). lia.
  - intros a c. rewrite uses_snoc. cbn [mcb]. rewrite lookup_insert. case_decide as Ha.
    + intros [= <-]. rewrite <- Ha, Hu. cbn. lia.
    + intros Hc. destruct (K2 a c Hc). lia.
  - intros b. rewrite lookup_insert. case_decide as Hb.
    + intros _. subst b. exists id, (Mcb 1 r). by rewrite lookup_insert_eq.
    + intros H. destruct (K3 b H) as (a & c & Hc & Ec). exists a, c. rewrite lookup_insert_ne; [done|congruence].
  - intros a a' c c'. rewrite !lookup_insert. repeat case_decide; subst; try done.
    + intros [= <-] Hc'. cbn. intros E. symmetry in E. by apply Hp in Hc'.
    + intros Hc [= <-]. cbn. intros E. by apply Hp in Hc.
    + by apply K4.
  - split; intros x Hx; (rewrite lookup_insert_ne by lia); [apply K5|apply K6]; lia.
Qed.

(** The last buffer of a block goes, with the block. *)
Lemma heap_ok_release h l1 m l2 : heap_ok h (l1 ++ m :: l2) -> uses (mcb m) (l1 ++ l2) = 0%nat ->
  heap_ok (Heap (delete (block m) (blocks h)) (delete (mcb m) (mcbs h)) (brk h)) (l1 ++ l2) /\
  (forall t, t ∈ l1 ++ l2 -> block t <> block m).
Proof.
  intros K Hu. pose proof K as [K1 K2 K3 K4 [K5 K6]].
  assert (m ∈ l1 ++ m :: l2) as Hm by (apply elem_of_app; right; apply elem_of_cons; by left).
  assert (forall t, t ∈ l1 ++ l2 -> t ∈ l1 ++ m :: l2) as Hsub.
  { intros t. rewrite !elem_of_app, elem_of_cons. tauto. }
  assert (forall t, t ∈ l1 ++ l2 -> mcb t <> mcb m /\ block t <> block m) as Ho.
  { intros t Ht. pose proof (uses_0 _ _ t Hu Ht) as Hne. split; [done|]. intros E. apply Hne. exact (same_block K _ _ (Hsub t Ht) Hm E). }
  split; [|intros t Ht; by apply Ho]. destruct (live_mcb K m Hm) as (c & b & E1 & E2 & _).
  split; cbn [blocks mcbs brk].
  - apply list.Forall_forall. intros t Ht. destruct (Ho t Ht). apply (buffer_ok_ext h); [exact (live_ok K t (Hsub t Ht))| |].
    + intros c' Hc'. exists c'. cbn [mcbs]. by rewrite lookup_delete_ne.
    + cbn [blocks]. by rewrite lookup_delete_ne.
  - intros id c'. rewrite lookup_delete_Some. intros [Hne Hc']. destruct (K2 id c' Hc') as [E3 E4].
    rewrite uses_app, uses_cons, decide_False, Nat.add_0_l, <- uses_app in E3 by done. done.
  - intros b'. rewrite lookup_delete_is_Some. intros [Hne Hb]. destruct (K3 b' Hb) as (id & c' & Hc' & Ec).
    exists id, c'. rewrite lookup_delete_ne; [done|]. congruence.
  - intros a a' c1 c2. rewrite !lookup_delete_Some. intros [_ ?] [_ ?]. by apply (K4 a a').
  - split; intros x Hx; apply lookup_delete_None; right; [by apply K5|by apply K6].
Qed.

(** One buffer less on a block that others use. *)
Lemma heap_ok_drop h l1 m l2 c : heap_ok h (l1 ++ m :: l2) -> mcbs h !! mcb m = Some c -> i c <> 1 ->
  heap_ok (put_mcb h (mcb m) (Mcb (i c - 1) (mptr c))) (l1 ++ l2).
Proof.
  intros [K1 K2 K3 K4 K5] Hc Hi. split; cbn [put_mcb mcbs blocks brk].
  - apply Forall_app in K1 as [F1 F2]. apply list.Forall_cons in F2 as [_ F2].
    eapply list.Forall_impl; [by apply Forall_app|]. intros t Ht. apply (buffer_ok_ext h); [done| |done].
    intros c' Hc'. cbn [mcbs put_mcb]. rewrite lookup_insert. case_decide as E; [|by exists c'].
    eexists. split; [done|]. cbn. congruence.
  - intros id c'. pose proof (K2 (mcb m) c Hc) as [E3 E4]. rewrite lookup_insert. case_decide as E.
    + intros [= <-]. cbn [i]. rewrite <- E. rewrite uses_app, uses_cons, decide_True in E3 by done. rewrite uses_app. lia.
    + intros Hc'. destruct (K2 id c' Hc') as [E5 E6]. rewrite uses_app, uses_cons, decide_False, Nat.add_0_l, <- uses_app in E5 by done. done.
  - intros b Hb. destruct (K3 b Hb) as (id & c' & Hc' & Eb). destruct (decide (mcb m = id)) as [E|].
    + exists id, (Mcb (i c - 1) (mptr c)). rewrite E, lookup_insert_eq. split; [done|]. cbn. congruence.
    + exists id, c'. by rewrite lookup_insert_ne.
  - intros a a' d d'. rewrite !lookup_insert. repeat case_decide; subst.
    + done.
    + intros [= <-] Hd'. cbn. by apply (K4 _ _ c).
    + intros Hd [= <-]. cbn. by intros ?; apply (K4 _ _ d c).
    + by apply K4.
  - split; [|apply K5]. intros id' Hid. rewrite lookup_insert_ne; [by apply K5|]. intros E.
    rewrite E, (proj1 K5 id' Hid) in Hc. done.
Qed.

Lemma contents_live h live m : heap_ok h live -> m ∈ live ->
  exists l, contents h m = Some l /\ Z.of_nat (length l) = n m /\ 1 <= n m.
Proof.
  intros K Hm. destruct (live_mcb K m Hm) as (c & b & _ & _ & _ & _ & E5 & E6 & E7 & E8).
  unfold contents. rewrite E5. eexists. split; [done|]. split; [|done].
  rewrite length_take, length_drop. lia.
Qed.

Lemma holds_ext h h' live bs : Forall2 (holds_bytes h) live bs ->
  (forall m, m ∈ live -> blocks h' !! block m = blocks h !! block m) -> Forall2 (holds_bytes h') live bs.
Proof.
  induction 1 as [|m b live bs Hm HF IH]; intros HX; constructor.
  - unfold holds_bytes. rewrite (contents_ext h); [done|]. apply HX. apply elem_of_cons. by left.
  - apply IH. intros t Ht. apply HX. apply elem_of_cons. by right.
Qed.

(** The outcome of an operation: it does not fail, keeps the invariant and does what [value_step] says. *)
Definition outcome (op : mop) (bs : list (list Z)) (live : list mbuffer_t) (o : option (heap * list mbuffer_t)) : Prop :=
  exists h' live' bs', o = Some (h', live') /\ heap_ok h' live' /\ Forall2 (holds_bytes h') live' bs' /\
    value_step op bs bs' /\ (length live' <= S (length live))%nat.

(** [mbuffer_create] succeeds with a new block, or leaves the blocks alone. *)
Lemma create_spec ok1 ok2 h live size : heap_ok h live -> 0 < size ->
  if ok1 && ok2 then
    mbuffer_create ok1 ok2 h size = Some (0, Some (Mbuffer (brk h) 0 size (brk h + 1)),
      Heap (<[brk h := garbage size]> (blocks h)) (<[brk h + 1 := Mcb 1 (brk h)]> (mcbs h)) (brk h + 2))
  else exists k, brk h <= k /\ mbuffer_create ok1 ok2 h size = Some (-1, None, Heap (blocks h) (mcbs h) k).
Proof.
  intros K Hs. unfold mbuffer_create. replace (size >? 0) with true by lia.
  destruct ok1; cbn [andb negb]; [|exists (brk h); split; [lia|by destruct h]].
  unfold malloc_block. destruct ok2; cbn [negb]; unfold free_block; cbn [blocks mcbs brk].
  - by replace (brk h + 1 + 1) with (brk h + 2) by lia.
  - exists (brk h + 1). rewrite lookup_insert_eq. cbn [mbind option_bind]. split; [lia|].
    rewrite delete_insert_id; [done|]. apply (k_brk _ _ K). lia.
Qed.

Lemma exec_create ok1 ok2 size h live bs : heap_ok h live -> Forall2 (holds_bytes h) live bs -> 0 < size ->
  outcome (OpCreate ok1 ok2 size) bs live (exec (OpCreate ok1 ok2 size) h live).
Proof.
  intros K HF Hs. pose proof (create_spec ok1 ok2 h live size K Hs) as HC. unfold exec, outcome. cbn [value_step].
  pose proof (k_brk _ _ K) as [K5 K6].
  destruct (ok1 && ok2).
  - rewrite HC. cbn [mbind option_bind add_live]. eexists _, _, _. split; [reflexivity|].
    pose proof (garbage_length size ltac:(lia)) as Hg. split; [|split; [|split; [reflexivity|rewrite length_app; cbn; lia]]].
    + rewrite <- Hg at 2. apply heap_ok_add; try lia; [done|by apply K6; lia|by apply K5; lia].
    + apply Forall2_app.
      * apply (holds_ext h); [done|]. intros m Hm. cbn. apply lookup_insert_ne. intros E.
        destruct (live_mcb K m Hm) as (? & ? & _ & _ & _ & _ & E5 & _). rewrite <- E, K6 in E5 by lia. done.
      * constructor; [|constructor]. unfold holds_bytes, contents. cbn. rewrite lookup_insert_eq. cbn.
        f_equal. rewrite drop_0. apply take_ge. lia.
  - destruct HC as (k & Hk & ->). cbn [mbind option_bind add_live]. eexists _, _, _. split; [reflexivity|].
    split; [by apply heap_ok_brk|]. split; [by apply (holds_ext h)|]. split; [reflexivity|lia].
Qed.

Section Step.
Context {h : heap} {live : list mbuffer_t} {bs : list (list Z)}.
Context (K : heap_ok h live) (HF : Forall2 (holds_bytes h) live bs).

Lemma pick k : (k < length live)%nat -> exists m b l1 l2, live !! k = Some m /\ bs !! k = Some b /\ m ∈ live /\
  contents h m = Some b /\ live = l1 ++ m :: l2 /\ (forall y, <[k := y]> live = l1 ++ y :: l2) /\ delete k live = l1 ++ l2.
Proof.
  intros Hk. destruct (lookup_lt_is_Some_2 _ _ Hk) as [m Hm]. destruct (Forall2_lookup_l _ _ _ _ _ HF Hm) as (b & Hb & Hc).
  destruct (split_at live k m Hm) as (l1 & l2 & E). exists m, b, l1, l2. repeat (split; [done|]).
  split; [by eapply list_elem_of_lookup_2|]. done.
Qed.

Lemma exec_clone k ok : (k < length live)%nat -> Z.of_nat (length live) < 2 ^ 32 - 1 ->
  outcome (OpClone k ok) bs live (exec (OpClone k ok) h live).
Proof.
  intros Hk Hl. destruct (pick k Hk) as (m & b & l1 & l2 & Em & Eb & Hm & Hc & _). unfold exec, outcome, mbuffer_clone. cbn [value_step].
  rewrite Em. cbn [mbind option_bind]. destruct ok; cbn [negb].
  2: { eexists _, _, _. split; [reflexivity|]. split; [exact K|]. split; [exact HF|]. split; [by exists b|]. cbn. lia. }
  destruct (live_mcb K m Hm) as (c & d & E1 & E2 & E3 & E4 & E5 & E6). rewrite E1. cbn [mbind option_bind].
  replace (i c >=? 1) with true by lia. rewrite uw_small by lia. cbn [mbind option_bind add_live].
  eexists _, _, _. split; [reflexivity|]. split; [|split; [|split; [by exists b|rewrite length_app; cbn; lia]]].
  - apply (heap_ok_share h live (mcb m) c); [done|done|done|]. by exists c, d.
  - apply Forall2_app; [by apply (holds_ext h)|]. constructor; [|constructor]. done.
Qed.

Lemma exec_copy k ok ok1 ok2 : (k < length live)%nat -> outcome (OpCopy k ok ok1 ok2) bs live (exec (OpCopy k ok ok1 ok2) h live).
Proof.
  intros Hk. destruct (pick k Hk) as (m & b & l1 & l2 & Em & Eb & Hm & Hc & _). unfold exec, outcome, mbuffer_copy. cbn [value_step].
  rewrite Em. cbn [mbind option_bind]. destruct (contents_live h live m K Hm) as (b' & Hc' & Hn & H1).
  rewrite Hc in Hc'. injection Hc' as <-. replace (n m >=? 1) with true by lia.
  destruct ok; cbn [negb andb].
  2: { eexists _, _, _. split; [reflexivity|]. split; [exact K|]. split; [exact HF|]. split; [by exists b|]. cbn. lia. }
  pose proof (create_spec ok1 ok2 h live (n m) K ltac:(lia)) as HC. pose proof (k_brk _ _ K) as [K5 K6].
  assert (forall t, t ∈ live -> block t <> brk h) as Hne.
  { intros t Ht E. destruct (live_mcb K t Ht) as (? & ? & _ & _ & _ & _ & E5 & _). rewrite E, K6 in E5 by lia. done. }
  destruct (ok1 && ok2).
  - rewrite HC. cbn [mbind option_bind Z.eqb negb block].
    rewrite (contents_ext h) by (cbn; rewrite lookup_insert_ne; [done|by apply not_eq_sym, Hne]). rewrite Hc. cbn [mbind option_bind blocks mcbs brk].
    rewrite lookup_insert_eq. cbn [mbind option_bind add_live].
    unfold copy_to. rewrite drop_ge by (pose proof (garbage_length (n m) ltac:(lia)); lia). rewrite app_nil_r, insert_insert_eq.
    eexists _, _, _. split; [reflexivity|]. split; [|split; [|split; [by exists b|rewrite length_app; cbn; lia]]].
    + rewrite <- Hn. apply heap_ok_add; try lia; [done|by apply K6; lia|by apply K5; lia].
    + apply Forall2_app.
      * apply (holds_ext h); [done|]. intros t Ht. cbn. apply lookup_insert_ne. by apply not_eq_sym, Hne.
      * constructor; [|constructor]. unfold holds_bytes, contents. cbn. rewrite lookup_insert_eq. cbn. f_equal. rewrite drop_0. apply take_ge. lia.
  - destruct HC as (a & Ha & ->). cbn [mbind option_bind Z.eqb negb add_live]. eexists _, _, _. split; [reflexivity|].
    split; [by apply heap_ok_brk|]. split; [by apply (holds_ext h)|]. split; [by exists b|lia].
Qed.

Lemma exec_free k : (k < length live)%nat -> Z.of_nat (length live) < 2 ^ 32 - 1 ->
  outcome (OpFree k) bs live (exec (OpFree k) h live).
Proof.
  intros Hk Hl. destruct (pick k Hk) as (m & b & l1 & l2 & Em & Eb & Hm & Hc & El & _ & Ed). unfold exec, outcome, mbuffer_free. cbn [value_step].
  rewrite Em. cbn [mbind option_bind]. destruct (live_mcb K m Hm) as (c & d & E1 & E2 & E3 & E4 & E5 & E6). rewrite E1. cbn [mbind option_bind].
  rewrite uw_small by lia. pose proof K as K'. rewrite El in K'.
  assert (Forall2 (holds_bytes h) (l1 ++ l2) (delete k bs)) as HD by (rewrite <- Ed; by apply Forall2_delete).
  destruct (i c - 1 =? 0) eqn:Ei.
  - destruct (heap_ok_release h l1 m l2 K') as [KR HR].
    { rewrite El, uses_app, uses_cons, decide_True in E3 by done. rewrite uses_app. lia. }
    unfold free_block, free_mcb, put_mcb. cbn [blocks mcbs brk]. rewrite E2, E5. cbn [mbind option_bind blocks mcbs brk].
    rewrite lookup_insert_eq. cbn [mbind option_bind]. rewrite delete_insert_eq.
    eexists _, _, _. split; [reflexivity|]. rewrite Ed. split; [exact KR|]. split; [|split; [reflexivity|]].
    + apply (holds_ext h); [done|]. intros t Ht. cbn. rewrite lookup_delete_ne; [done|]. by apply not_eq_sym, HR.
    + rewrite El, !length_app. cbn. lia.
  - cbn [mbind option_bind]. eexists _, _, _. split; [reflexivity|]. rewrite Ed. split; [|split; [|split; [reflexivity|]]].
    + apply heap_ok_drop; [done|done|]. lia.
    + by apply (holds_ext h).
    + rewrite El, !length_app. cbn. lia.
Qed.

Lemma exec_split k s : op_ok (OpSplit k s) live -> Z.of_nat (length live) < 2 ^ 32 - 1 ->
  outcome (OpSplit k s) bs live (exec (OpSplit k s) h live).
Proof.
  intros (m0 & Em0 & Hs) Hl. destruct (pick k ltac:(by eapply lookup_lt_Some)) as (m & b & l1 & l2 & Em & Eb & Hm & Hc & El & Ei & _).
  rewrite Em in Em0. injection Em0 as <-. pose proof K as K'. rewrite El in K', Hl.
  destruct (split_spec h l1 m l2 s K' Hs Hl) as (m1 & m2 & h' & HE & KR & HB & C1 & C2).
  unfold exec, outcome. cbn [value_step]. rewrite Em. cbn [mbind option_bind]. rewrite HE. cbn [mbind option_bind].
  eexists _, _, _. split; [reflexivity|]. rewrite Hc in C1, C2. split; [by rewrite Ei|]. split; [|split; [by exists b|]].
  - apply Forall2_app; [|by constructor]. apply Forall2_insert; [|done]. apply (holds_ext h); [done|]. intros t Ht. by rewrite HB.
  - rewrite length_app, length_insert. cbn. lia.
Qed.

Lemma exec_realloc k ok size : (k < length live)%nat -> 0 < size ->
  outcome (OpRealloc k ok size) bs live (exec (OpRealloc k ok size) h live).
Proof.
  intros Hk Hs. destruct (pick k Hk) as (m & b & l1 & l2 & Em & Eb & Hm & Hc & El & Ei & Ed). unfold exec, outcome, mbuffer_realloc. cbn [value_step].
  rewrite Em. cbn [mbind option_bind]. replace (size >? 0) with true by lia.
  destruct (live_mcb K m Hm) as (c & d & E1 & E2 & E3 & E4 & E5 & E6). rewrite E1. cbn [mbind option_bind].
  assert (exists h' live' bs', Some (h, <[k := m]> live) = Some (h', live') /\ heap_ok h' live' /\ Forall2 (holds_bytes h') live' bs' /\
    (bs' = bs \/ exists b b', bs !! k = Some b /\ bs' = <[k := b']> bs /\ Z.of_nat (length b') = size /\
      forall j, (j < length b)%nat -> (j < length b')%nat -> b' !! j = b !! j) /\ (length live' <= S (length live))%nat) as Hno.
  { rewrite list_insert_id by done. eexists _, _, _. split; [reflexivity|]. split; [exact K|]. split; [exact HF|]. split; [by left|lia]. }
  destruct (i c >? 1) eqn:Ec; [exact Hno|]. destruct ((block m =? mptr c) && (offset m =? 0)) eqn:Eo; cbn [negb]; [|exact Hno].
  rewrite E5. cbn [mbind option_bind]. destruct ok; cbn [mbind option_bind]; [|exact Hno]. clear Hno.
  pose proof K as K'. rewrite El in K'. destruct (heap_ok_release h l1 m l2 K') as [KR HR].
  { rewrite El, uses_app, uses_cons, decide_True in E3 by done. rewrite uses_app. lia. }
  pose proof (garbage_length size ltac:(lia)) as Hg. set (b' := take (Z.to_nat size) (d ++ garbage size)) in *.
  assert (Z.of_nat (length b') = size) as Hb' by (unfold b'; rewrite length_take, length_app; lia).
  unfold put_mcb. cbn [blocks mcbs brk]. pose proof (k_brk _ _ K) as [K5 K6].
  eexists _, _, (<[k := b']> bs). split; [reflexivity|]. split; [|split; [|split]].
  - rewrite Ei. apply (heap_ok_perm _ ((l1 ++ l2) ++ [Mbuffer (brk h) 0 size (mcb m)])).
    { rewrite <- app_assoc. apply Permutation_app_head. apply Permutation_app_comm. }
    replace (i c) with 1 by lia. rewrite <- Hb', <- (insert_delete_eq (mcbs h)). pose proof (mcb_below K _ _ E1).
    apply (heap_ok_add _ _ _ _ _ _ KR); cbn [blocks mcbs brk]; try lia; [|apply lookup_delete_eq].
    apply lookup_delete_None. right. apply K6. lia.
  - apply Forall2_replace; [exact Hk|by rewrite <- (Forall2_length HF)| |].
    + apply (holds_ext h); [by apply Forall2_delete|]. rewrite Ed. intros t Ht. cbn [blocks]. pose proof (HR t Ht).
      assert (block t <> brk h).
      { intros E. assert (t ∈ live) as Ht' by (rewrite El, elem_of_app, elem_of_cons; apply elem_of_app in Ht; tauto).
        destruct (live_mcb K t Ht') as (? & ? & _ & _ & _ & _ & E5' & _). rewrite E, K6 in E5' by lia. done. }
      by rewrite lookup_insert_ne, lookup_delete_ne.
    + unfold holds_bytes, contents. cbn. rewrite lookup_insert_eq. cbn. f_equal. rewrite drop_0. apply take_ge. lia.
  - right. exists b, b'. split; [done|]. split; [done|]. split; [done|]. intros j Hj1 Hj2.
    unfold contents in Hc. rewrite E5 in Hc. cbn [mbind option_bind] in Hc. injection Hc as <-. subst b'.
    rewrite length_take in Hj1, Hj2. rewrite length_drop in Hj1.
    replace (Z.to_nat (offset m)) with 0%nat by lia. rewrite drop_0, !lookup_take_lt by lia. apply lookup_app_l. lia.
  - rewrite length_insert. lia.
Qed.
End Step.

Lemma exec_ok op h live bs : heap_ok h live -> Forall2 (holds_bytes h) live bs -> op_ok op live ->
  Z.of_nat (length live) < 2 ^ 32 - 1 -> outcome op bs live (exec op h live).
Proof.
  intros K HF Hop Hl. destruct op; cbn [op_ok] in Hop.
  - by apply exec_create.
  - by apply exec_clone.
  - by apply exec_copy.
  - by apply exec_free.
  - destruct Hop. by apply exec_realloc.
  - by apply exec_split.
Qed.

Lemma exec_all_ok ops : forall h live bs, heap_ok h live -> Forall2 (holds_bytes h) live bs -> ops_ok ops h live ->
  Z.of_nat (length live + length ops) < 2 ^ 32 ->
  exists h' live' bs', exec_all ops h live = Some (h', live') /\ heap_ok h' live' /\ Forall2 (holds_bytes h') live' bs' /\
    value_run ops bs bs'.
Proof.
  induction ops as [|op ops IH]; intros h live bs K HF Hok Hl; cbn [exec_all value_run ops_ok length] in *.
  - by exists h, live, bs.
  - destruct Hok as [Hop Hok]. destruct (exec_ok op h live bs K HF Hop ltac:(lia)) as (h1 & live1 & b1 & E & K1 & F1 & V1 & L1).
    rewrite E in Hok |- *. cbn [mbind option_bind]. destruct (IH h1 live1 b1 K1 F1 Hok ltac:(lia)) as (h2 & live2 & b2 & E2 & K2 & F2 & V2).
    exists h2, live2, b2. repeat (split; [done|]). by exists b1.
Qed.

Lemma heap_ok_empty : heap_ok heap_empty [].
Proof.
  split; cbn.
  - constructor.
  - intros id c H. by rewrite lookup_empty in H.
  - intros b [l H]. by rewrite lookup_empty in H.
  - intros id id' c c' H. by rewrite lookup_empty in H.
  - split; intros x _; apply lookup_empty.
Qed.

(** Without buffers no memory is allocated. *)
Lemma heap_ok_nil h : heap_ok h [] -> blocks h = ∅ /\ mcbs h = ∅.
Proof.
  intros [K1 K2 K3 K4 K5]. assert (forall id, mcbs h !! id = None) as Hm.
  { intros id. destruct (mcbs h !! id) as [c|] eqn:E; [|done]. destruct (K2 id c E) as [E1 E2]. cbn in E1. lia. }
  split; apply map_empty; intros x; [|done]. destruct (blocks h !! x) as [l|] eqn:E; [|done].
  destruct (K3 x ltac:(by exists l)) as (id & c & Hc & _). by rewrite Hm in Hc.
Qed.

End Mbuffer.

(** A block of ten bytes, split and cloned, one of them copied, all released. *)
Definition sample_ops : list mop :=
  [OpCreate true true 10; OpSplit 0 4; OpClone 1 true; OpCopy 2 true true true; OpRealloc 0 true 20;
   OpFree 1; OpFree 1; OpRealloc 0 true 6; OpFree 1; OpFree 0].

